(* ===== verification/_CoqProject ===== *)
-Q . S2P
Prelude.v
CString.v
Spinlock.v
ProcState.v
Proc.v
Syscall.v
Trap.v
ProcRules.v
Sched.v
KInv.v
ProcSpec.v
Quantum.v
KSpec.v
ExitSpec.v
ForkSpec.v
ProcThms.v
SemThms.v
SysSpec.v
Kernel.v
System.v
Pipe.v
File.v
FileSpec.v
FileThms.v
Kalloc.v
Vm.v
VmTable.v
VmUser.v
VmSpace.v
VmThms.v
Sleeplock.v
Bio.v
BioRing.v
BioSpec.v
Ide.v
Log.v
LogSpec.v
LogThms.v
LogTxn.v
ULib.v
Grep.v
Umalloc.v
Console.v
ConsoleThms.v
Sh.v
ShParse.v
ShThms.v
Fs.v
FsBlock.v
FsAlloc.v
FsFile.v
FsInode.v
FsDinode.v
FsRW.v
FsTrunc.v
FsIcache.v
FsDir.v
SysFile.v
Exec.v
ExecSpec.v
FsNames.v
FsCheck.v
Mkfs.v
MkfsSpec.v
FsCache.v
FsOps.v
FsTree.v
FsCalls.v
FsLog.v
FsCreate.v
FsRun.v
FsWorld.v
MkfsThms.v
Boot.v
ExecThms.v
FsTxn.v
Examples.v
PartExamples.v
FsExamples.v
WorldExamples.v
