(* ===== verification/Prelude.v ===== *)
(** * xv6 (Nabila-lima/xv6-project-323): root of the development

    The program is an x86 teaching kernel with its user programs and the tool that
    makes its disk.  This repository adds Round Robin scheduling with quanta and
    statistics per process, and semaphores.  The development is a shallow embedding:
    a C function is a function of the same name in the monad [M S] below, on a record
    [S] of the globals it works on.  Loops are recursive functions, conditions and
    early returns are those of the code, [panic] is a result.

    ** The parts, and where they are

    - The prelude: this file (integers, monad, rules for it, lists); CString.v
      (string.c).
    - Processors and locks: Spinlock.v (spinlock.c, mycpu and cpuid of proc.c).
    - Processes: ProcState.v (proc.h, the globals), Proc.v (proc.c with the scheduler,
      the statistics and the semaphores), Syscall.v (syscall.c, sysproc.c), Trap.v
      (trap.c, the loop of scheduler()).  They call the rest of the kernel through the
      class [KEnv].  Proofs: ProcRules.v, Sched.v, KInv.v, ProcSpec.v, Quantum.v, KSpec.v,
      ExitSpec.v, ForkSpec.v, ProcThms.v, SemThms.v, SysSpec.v, Kernel.v, System.v.
    - Memory: Kalloc.v (kalloc.c), Vm.v (vm.c).  Proofs: VmTable.v, VmUser.v, VmSpace.v,
      VmThms.v.
    - Pipes and descriptors: Pipe.v (pipe.c), File.v (file.c, sysfile.c on descriptors).
      Proofs: FileSpec.v, FileThms.v.
    - Disk: Sleeplock.v (sleeplock.c), Bio.v (bio.c, memide.c), Log.v (log.c), Ide.v (ide.c).
      Proofs: BioRing.v, BioSpec.v, LogSpec.v, LogThms.v, LogTxn.v.
    - File system: Fs.v (fs.c) over the class [BlockLayer], SysFile.v (sysfile.c, the
      inode part of file.c).  Proofs against the laws [BlockLaws] and [TxnLaws]:
      FsBlock.v, FsAlloc.v, FsFile.v, FsInode.v, FsDinode.v, FsRW.v, FsTrunc.v, FsIcache.v,
      FsDir.v, FsNames.v, FsCheck.v, FsCache.v, FsOps.v, FsTree.v, FsCalls.v, FsCreate.v,
      FsRun.v.  FsLog.v, FsTxn.v and FsWorld.v discharge them with log.c and bio.c.
    - exec: Exec.v (exec.c, loaduvm, sys_exec), on the file system and the page tables.
      Proofs: ExecSpec.v, ExecThms.v.
    - The image and the start: Mkfs.v (mkfs.c), Boot.v (main.c and forkret, as far as they
      bring up the file system).  Proofs: MkfsSpec.v, MkfsThms.v.
    - Console: Console.v (console.c, uartputc), ConsoleThms.v (with kbd.c).
    - User programs: ULib.v (ulib.c, printf.c), Umalloc.v (umalloc.c), Grep.v (grep.c,
      wc.c), Sh.v with ShParse.v and ShThms.v (sh.c).
    - Concrete states and runs: Examples.v, PartExamples.v, FsExamples.v, WorldExamples.v.

    ** What the theorems show

    - Kernel (System.v): from boot, under scheduler turns, traps and system calls on any
      CPUs in any order, the invariant [tinv] holds and no lock stays held
      ([kernel_invariant]), the process code adds no panic of its own but the exit of init
      ([kernel_no_panic]: what the rest of the kernel may fail with is a parameter), a
      process runs on one CPU at most, has a living parent, and sleeps only while what it
      waits for has not happened ([no_lost_wakeup]).  Scheduling: [rr_fair],
      [quantum_exact], [scheduler_pick_correct].  Calls: [fork_correct], [exit_correct],
      [wait_correct], [semaphore_count].
    - Memory: [kalloc_no_alias], [allocuvm_correct], [copyuvm_correct]; exec gives the process the memory
      that the file describes, or leaves everything as it was ([exec_correct]).
    - Pipes and files: [pipe_fifo], [pipe_no_lost_wakeup], [files_safe].
    - Log: it implements atomic transactions ([log_refines_spec]) under crashes at any
      disk write ([log_crash_safe]), where recovery is the function [recovered] of the
      disk, which [initlog] computes ([initlog_recovers]).  [ide_refines]: the driver of the real disk is a
      queue of requests; [serve_memide]: each does what memide.c does.
    - File system: [writei_readi], [write_crash_safe]; link, unlink, open and mkdir do
      to the name space what they say; over any run of calls, and after a crash at any
      disk write, the disk is a consistent file system ([fs_consistent]), and calls return
      ([calls_return]).  [mkfs_correct] and [boot_consistent]: the image that mkfs makes
      is such a file system, and the kernel starts on it in a state where these apply.
    - Console: [console_refines], [cgaputc_correct], [kbdgetc_correct].  User programs:
      [parsecmd_sound], [shell_correct], [umalloc_safe], [match_correct].
    - Where the code goes wrong: [mkfs_hole]; [link_correct] says when [link] never returns;
      the runs [link_dot_blocks], [rmdir_cwd_panics] and [hole_panics]; also
      [kill_zero_marks_unused], [killed_writer_strands_reader], [grep_drops_pieces],
      [uva2ka_null], [malloc_wraps].

    ** Choices of the model

    - Integers are [Z], with [u32], [i32] and [u8] where the width matters.  Pointers into
      tables are indices, other pointers addresses.
    - [Blocked] is a call that does not go on by itself: it spins on a lock that is
      taken, or sleeps in code that is not cut at its sleeps.  In Proc.v and Trap.v
      sleeping processes are modelled: a call is cut at [sched()], and [kont] is what is
      left to do.
    - One entry of a CPU into the kernel is one step; traps taken in kernel mode are not
      modelled.  In Pipe.v, File.v, Console.v and Ide.v a section under the component's lock
      is one step.  The panic of [sleep] without a lock and a negative [n] of a pipe call,
      which [argptr] excludes, have no counterpart.
    - The disk is a list of blocks, and a crash keeps a prefix of the writes made to it.
      The calls of FsRun.v follow one another.  A directory may be removed while processes
      are in it: it is one of the set [O] of [tree_ok], without a name and without files,
      until the last of them leaves it.  [allowed] leaves out calls with a path that
      starts in such a directory, whose [..] may name a free inode (see
      [rmdir_cwd_panics]) and in which a new file would be lost, and writes to devices;
      [fileread] and [filestat] are in SysFile.v but not among the calls of a run.  Panics for want of
      room (blocks, inodes, buffers, log) are allowed outcomes there.
    - exec: files of devices and argument strings above 32 MB, for which [copyout] leaves
      the range of addresses, are excluded; the message for a missing file and [switchuvm]
      are left out.
    - mkfs: the host is little-endian and does not fail; the files fit, and the number of
      directory entries is no multiple of 32 (see [mkfs_hole]).
    - umalloc: requests are of at most KERNBASE - 16 bytes (see [malloc_wraps]).
    - ide: the controller is the class [Ata], with the laws [AtaLaws]; a simple controller
      satisfies them.
    - What [fork], [open], [pipe] and [sbrk] answer to the shell and to malloc is a list
      of outcomes, and the theorems hold for every list.

    ** Fuel

    Recursion that is not structural counts turns, and the theorems show that the turns
    are enough: two more than the number of whole blocks in [readi] and [writei]
    ([copy_fuel]) and of pieces in [filewrite] ([write_fuel]), as only the first and the
    last turn move less; the number of bytes in [iappend] and [copyout], as a turn moves
    at least one; the number of pages of the range in [mappages], [allocuvm],
    [deallocuvm], [copyuvm] and [loaduvm]; one turn more than the length of the path in
    [namex], as each element has a character; 32 digits in [printint]; depth [4 * es + 4]
    in the parser for a line of [es] characters, as each token has at least one of them
    and passes four functions; the number of buffers for the lists of bio.c and ide.c,
    which have no duplicates; twice the number of blocks that fit below the break, and 4,
    in umalloc.c ([turns]), as a search goes round the free list once and a second time
    after [morecore]; [patience] polls of the disk's status, which is a law of the
    controller.  [sizes_ok], on which the calls of FsWorld.v rely, holds of the sizes of
    mkfs.c (FSSIZE 1000), as [boot_consistent] says.

    ** Not modelled

    - lapic.c, ioapic.c, picirq.c, mp.c, the rest of uart.c: registers of devices and tables
      of the firmware, whose meaning is not in the source.
    - bootasm.S, bootmain.c, entry.S, entryother.S, swtch.S, trapasm.S, initcode.S, usys.S
      and vectors.pl: assembly and its generator; [seginit], [switchuvm] and [switchkvm]
      load registers.  The rest of main.c calls these.
    - [consoleinit], [procdump] and the output of [panic]; the loop of main of sh.c.
    - The small user programs and the test programs: they call the system and print. *)

From stdpp Require Import base numbers gmap sets list strings.
Open Scope Z_scope.

(** ** Machine integers

    A C [uint] is a [Z] kept in [0 .. 2^32-1] by [u32], an [int] whose width
    matters is kept in [-2^31 .. 2^31-1] by [i32] (two's complement), a
    [uchar] by [u8]. *)

Definition u32 (z : Z) : Z := z mod 4294967296.

Definition u8 (z : Z) : Z := z mod 256.

Definition i32 (z : Z) : Z := (z + 2147483648) mod 4294967296 - 2147483648.

Lemma u32_range z : 0 <= u32 z < 4294967296.
Proof. unfold u32. apply Z.mod_pos_bound. lia. Qed.

Lemma u32_small z : 0 <= z < 4294967296 -> u32 z = z.
Proof. intros. apply Z.mod_small. lia. Qed.

Lemma u32_add_l a b : u32 (u32 a + b) = u32 (a + b).
Proof. unfold u32. apply Zplus_mod_idemp_l. Qed.

Lemma u32_add_r a b : u32 (a + u32 b) = u32 (a + b).
Proof. unfold u32. apply Zplus_mod_idemp_r. Qed.

Lemma u32_sub_l a b : u32 (u32 a - b) = u32 (a - b).
Proof. unfold u32. apply Zminus_mod_idemp_l. Qed.

Lemma u32_sub_r a b : u32 (a - u32 b) = u32 (a - b).
Proof. unfold u32. apply Zminus_mod_idemp_r. Qed.

Lemma u32_idem a : u32 (u32 a) = u32 a.
Proof. apply u32_small, u32_range. Qed.

Lemma u8_range z : 0 <= u8 z < 256.
Proof. unfold u8. apply Z.mod_pos_bound. lia. Qed.

Lemma u8_small z : 0 <= z < 256 -> u8 z = z.
Proof. intros. apply Z.mod_small. lia. Qed.

Lemma i32_range z : -2147483648 <= i32 z < 2147483648.
Proof.
  unfold i32. pose proof (Z.mod_pos_bound (z + 2147483648) 4294967296). lia.
Qed.

Lemma i32_small z : -2147483648 <= z < 2147483648 -> i32 z = z.
Proof. intros. unfold i32. rewrite Z.mod_small; lia. Qed.

Lemma i32_idem z : i32 (i32 z) = i32 z.
Proof. apply i32_small, i32_range. Qed.

Lemma i32_add_l a b : i32 (i32 a + b) = i32 (a + b).
Proof.
  unfold i32. f_equal.
  replace ((a + 2147483648) mod 4294967296 - 2147483648 + b + 2147483648) with ((a + 2147483648) mod 4294967296 + b) by lia.
  rewrite Zplus_mod_idemp_l. f_equal. lia.
Qed.

(** ** The kernel monad

    A C function that works on the state [S] is an [M S A]: it returns a
    value and the new state ([Ok]), stops the machine through [panic()]
    ([Panic], with the message the source passes), or does not get past a
    point on its own ([Blocked]: it spins on a spinlock another CPU holds). *)

Inductive res (S A : Type) : Type :=
  | Ok (a : A) (s : S)
  | Panic (msg : string)
  | Blocked.
Arguments Ok {S A} a s.
Arguments Panic {S A} msg.
Arguments Blocked {S A}.

Definition M (S A : Type) : Type := S -> res S A.

#[global] Instance M_ret S : MRet (M S) := fun A a s => Ok a s.

#[global] Instance M_bind S : MBind (M S) := fun A B k m s =>
  match m s with
  | Ok a s' => k a s'
  | Panic e => Panic e
  | Blocked => Blocked
  end.

Definition gets {S A} (f : S -> A) : M S A := fun s => Ok (f s) s.

Definition modify {S} (f : S -> S) : M S unit := fun s => Ok tt (f s).

Definition panic {S A} (e : string) : M S A := fun _ => Panic e.

Definition blocked {S A} : M S A := fun _ => Blocked.

(** [when b m] is [if(b) m;]. *)
Definition when {S} (b : bool) (m : M S unit) : M S unit :=
  if b then m else mret tt.

(** Running an operation of a component inside a larger state. *)
Definition zoom {S T A} (g : S -> T) (p : T -> S -> S) (m : M T A) : M S A :=
  fun s => match m (g s) with
           | Ok a t => Ok a (p t s)
           | Panic e => Panic e
           | Blocked => Blocked
           end.

(** [for(x in l) f(x);] *)
Fixpoint mfor {S A} (l : list A) (f : A -> M S unit) : M S unit :=
  match l with
  | [] => mret tt
  | x :: l => f x ;; mfor l f
  end.

Section monad.
Context {S : Type}.

Lemma bind_ok {A B} (m : M S A) (k : A -> M S B) s a s' :
  m s = Ok a s' -> (m ≫= k) s = k a s'.
Proof. intros H. unfold mbind, M_bind. by rewrite H. Qed.

Lemma bind_panic {A B} (m : M S A) (k : A -> M S B) s e :
  m s = Panic e -> (m ≫= k) s = Panic e.
Proof. intros H. unfold mbind, M_bind. by rewrite H. Qed.

Lemma bind_inv {A B} (m : M S A) (k : A -> M S B) s b s'' :
  (m ≫= k) s = Ok b s'' -> exists a s', m s = Ok a s' /\ k a s' = Ok b s''.
Proof.
  unfold mbind, M_bind. destruct (m s) as [a s'| |]; [eauto|done..].
Qed.

Lemma bind_assoc {A B C} (m : M S A) (k : A -> M S B) (l : B -> M S C) s :
  ((m ≫= k) ≫= l) s = (m ≫= (fun a => k a ≫= l)) s.
Proof. unfold mbind, M_bind. by destruct (m s). Qed.

Lemma when_true (m : M S unit) s : when true m s = m s.
Proof. done. Qed.

Lemma when_false (m : M S unit) s : when false m s = Ok tt s.
Proof. done. Qed.

Lemma zoom_ok {T A} (g : S -> T) (p : T -> S -> S) (m : M T A) s a t :
  m (g s) = Ok a t -> zoom g p m s = Ok a (p t s).
Proof. intros H. unfold zoom. by rewrite H. Qed.

Lemma zoom_inv {T A} (g : S -> T) (p : T -> S -> S) (m : M T A) s a s' :
  zoom g p m s = Ok a s' -> exists t, m (g s) = Ok a t /\ s' = p t s.
Proof. unfold zoom. destruct (m (g s)); naive_solver. Qed.

End monad.

(** ** Weakest preconditions

    [wp P m s Q]: from [s], [m] ends in [Ok a s'] with [Q a s'], or it fails
    in a way [P] allows.  With [no_failure] this is total correctness (no
    panic, no spinning forever), [any_failure] says nothing of runs that do
    not end, and [only_panic e] allows one panic only. *)

Inductive failure := FPanic (msg : string) | FBlocked.

Definition any_failure (f : failure) : Prop := True.

Definition no_failure (f : failure) : Prop := False.

Definition only_panic (msg : string) (f : failure) : Prop := f = FPanic msg.

Definition wp (P : failure -> Prop) {S A} (m : M S A) (s : S) (Q : A -> S -> Prop) : Prop :=
  match m s with
  | Ok a s' => Q a s'
  | Panic e => P (FPanic e)
  | Blocked => P FBlocked
  end.

Section wp.
Context {S : Type} (P : failure -> Prop).

Lemma wp_ok {A} (m : M S A) s a s' (Q : A -> S -> Prop) :
  m s = Ok a s' -> Q a s' -> wp P m s Q.
Proof. unfold wp. intros ->. done. Qed.

Lemma wp_elim {A} (m : M S A) s a s' Q :
  wp P m s Q -> m s = Ok a s' -> Q a s'.
Proof. unfold wp. intros H E. by rewrite E in H. Qed.

Lemma wp_ret {A} (a : A) s (Q : A -> S -> Prop) : Q a s -> wp P (mret a) s Q.
Proof. done. Qed.

Lemma wp_bind {A B} (m : M S A) (k : A -> M S B) s Q :
  wp P m s (fun a s' => wp P (k a) s' Q) -> wp P (m ≫= k) s Q.
Proof. unfold wp, mbind, M_bind. by destruct (m s). Qed.

Lemma wp_mono {A} (m : M S A) s (Q Q' : A -> S -> Prop) :
  wp P m s Q -> (forall a s', Q a s' -> Q' a s') -> wp P m s Q'.
Proof. unfold wp. destruct (m s); auto. Qed.

Lemma wp_gets {A} (f : S -> A) s (Q : A -> S -> Prop) :
  Q (f s) s -> wp P (gets f) s Q.
Proof. done. Qed.

Lemma wp_modify (f : S -> S) s (Q : unit -> S -> Prop) :
  Q tt (f s) -> wp P (modify f) s Q.
Proof. done. Qed.

Lemma wp_panic {A} e s (Q : A -> S -> Prop) : P (FPanic e) -> wp P (panic e) s Q.
Proof. done. Qed.

Lemma wp_when (b : bool) (m : M S unit) s Q :
  (b = true -> wp P m s Q) -> (b = false -> Q tt s) -> wp P (when b m) s Q.
Proof. destruct b; intros H1 H2; [by apply H1 | by apply wp_ret, H2]. Qed.

Lemma wp_zoom {T A} (g : S -> T) (p : T -> S -> S) (m : M T A) s Q :
  wp P m (g s) (fun a t => Q a (p t s)) -> wp P (zoom g p m) s Q.
Proof. unfold wp, zoom. by destruct (m (g s)). Qed.

(** A loop keeps an invariant over the list of what is left to do. *)
Lemma wp_mfor {A} (I : list A -> S -> Prop) (l : list A) (f : A -> M S unit) s Q :
  I l s ->
  (forall x l' s', I (x :: l') s' -> wp P (f x) s' (fun _ s'' => I l' s'')) ->
  (forall s', I [] s' -> Q tt s') ->
  wp P (mfor l f) s Q.
Proof.
  intros HI Hf HQ. revert s HI. induction l as [|x l IH]; intros s HI; simpl.
  { by apply HQ. }
  apply wp_bind. eapply wp_mono; [by apply Hf|]. intros a s' Hs'. by apply IH.
Qed.

End wp.

Lemma wp_weaken (P P' : failure -> Prop) {S A} (m : M S A) s Q :
  (forall f, P f -> P' f) -> wp P m s Q -> wp P' m s Q.
Proof. unfold wp. destruct (m s); auto. Qed.

Lemma wp_total {S A} (m : M S A) s (Q : A -> S -> Prop) :
  wp no_failure m s Q -> exists a s', m s = Ok a s' /\ Q a s'.
Proof. unfold wp. intros H. destruct (m s); [by eauto|done..]. Qed.

(** Of an operation nothing is known about, partial correctness leaves every
    result possible. *)
Lemma wp_any {S A} (m : M S A) s (Q : A -> S -> Prop) :
  (forall a s', Q a s') -> wp any_failure m s Q.
Proof. intros H. unfold wp. by destruct (m s). Qed.

(** Opens the first operation of a sequence. *)
Ltac wp_next := apply wp_bind.

(** ** Lists updated at one index *)

Lemma lookup_alter_inv {A} (f : A -> A) (l : list A) (i j : nat) y :
  alter f i l !! j = Some y ->
  (j = i /\ exists x, l !! i = Some x /\ y = f x) \/ (j ≠ i /\ l !! j = Some y).
Proof.
  intros H. destruct (decide (j = i)) as [->|Hne].
  - rewrite list_lookup_alter_eq in H. apply fmap_Some in H as (x & ? & ->). eauto.
  - rewrite list_lookup_alter_ne in H by done. eauto.
Qed.

Lemma lookup_alter_at {A} (f : A -> A) (l : list A) (i : nat) x :
  l !! i = Some x -> alter f i l !! i = Some (f x).
Proof. intros H. by rewrite list_lookup_alter_eq, H. Qed.

Lemma Forall2_alter_refl {A} (R : A -> A -> Prop) `{!Reflexive R} (f : A -> A) (l : list A) (i : nat) x :
  l !! i = Some x -> R x (f x) -> Forall2 R l (alter f i l).
Proof.
  intros Hx HR. apply Forall2_same_length_lookup_2; [by rewrite length_alter|].
  intros j y y' Hy Hy'. apply lookup_alter_inv in Hy' as [(-> & z & ? & ->)|(? & ?)];
    simplify_eq; done.
Qed.

Lemma Forall_alter_at {A} (Q : A -> Prop) (f : A -> A) (l : list A) (i : nat) x :
  l !! i = Some x -> Forall Q l -> Q (f x) -> Forall Q (alter f i l).
Proof.
  intros Hx HQ Hf. apply Forall_lookup_2. intros j y Hy.
  apply lookup_alter_inv in Hy as [(-> & z & ? & ->)|(? & ?)]; simplify_eq; [done|].
  by eapply Forall_lookup_1.
Qed.

Lemma alter_insert_at {A} (f : A -> A) (l : list A) (i : nat) x :
  l !! i = Some x -> alter f i l = <[i := f x]> l.
Proof.
  intros Hx. apply list_eq. intros j. destruct (decide (j = i)) as [->|Hne].
  - rewrite list_lookup_alter_eq, Hx. rewrite list_lookup_insert_eq; [done|].
    by eapply lookup_lt_Some.
  - by rewrite list_lookup_alter_ne, list_lookup_insert_ne.
Qed.

(** Only the value at the index matters. *)
Lemma alter_at_ext {A} (f g : A -> A) (l : list A) (i : nat) x :
  l !! i = Some x -> f x = g x -> alter f i l = alter g i l.
Proof. intros Hx Hfg. by rewrite !(alter_insert_at _ _ _ _ Hx), Hfg. Qed.
