(* ===== verification/CString.v ===== *)
(** * Byte and string routines: string.c (kernel)

    Memory as the routines see it is a byte map [mem]; the [mem*] routines
    work on addresses because their arguments may overlap.  The [str*]
    routines read their source through a pointer, a reader [nat -> Z] giving
    the byte at each offset, and write a destination buffer, a list of
    bytes.  Bytes are in [0 .. 255]. *)

From stdpp Require Import base numbers list.
From S2P Require Import Prelude.
Open Scope Z_scope.

Definition mem : Type := Z -> Z.

(** [m] with the byte [v] stored at [a]. *)
Definition store (m : mem) (a v : Z) : mem :=
  fun x => if decide (x = a) then v else m x.

Module KString.

(** x86.h [stosb]: [cnt] bytes, each the low byte of [data]. *)
Fixpoint stosb (m : mem) (addr data : Z) (cnt : nat) : mem :=
  match cnt with
  | O => m
  | S cnt => stosb (store m addr (u8 data)) (addr + 1) data cnt
  end.

(** A little-endian 32-bit store. *)
Definition store32 (m : mem) (a w : Z) : mem :=
  store (store (store (store m a (u8 w))
    (a + 1) (u8 (w ≫ 8))) (a + 2) (u8 (w ≫ 16))) (a + 3) (u8 (w ≫ 24)).

(** x86.h [stosl]: [cnt] 32-bit words. *)
Fixpoint stosl (m : mem) (addr data : Z) (cnt : nat) : mem :=
  match cnt with
  | O => m
  | S cnt => stosl (store32 m addr data) (addr + 4) data cnt
  end.

Definition memset (m : mem) (dst c n : Z) : mem :=
  if (Z.rem (i32 dst) 4 =? 0) && (n mod 4 =? 0) then
    let c := Z.land c 255 in
    stosl m dst (Z.lor (Z.lor (Z.lor (c ≪ 24) (c ≪ 16)) (c ≪ 8)) c)
      (Z.to_nat (n / 4))
  else stosb m dst c (Z.to_nat n).

(** The loop: compare, return the difference of the first unequal pair. *)
Fixpoint memcmp_loop (m : mem) (s1 s2 : Z) (n : nat) : Z :=
  match n with
  | O => 0
  | S n => if decide (m s1 = m s2) then memcmp_loop m (s1 + 1) (s2 + 1) n
           else m s1 - m s2
  end.

Definition memcmp (m : mem) (v1 v2 n : Z) : Z :=
  memcmp_loop m v1 v2 (Z.to_nat n).

(** [while(n-- > 0) *--d = *--s;] *)
Fixpoint copy_down (m : mem) (d s : Z) (n : nat) : mem :=
  match n with
  | O => m
  | S n => copy_down (store m (d - 1) (m (s - 1))) (d - 1) (s - 1) n
  end.

(** [while(n-- > 0) *d++ = *s++;] *)
Fixpoint copy_up (m : mem) (d s : Z) (n : nat) : mem :=
  match n with
  | O => m
  | S n => copy_up (store m d (m s)) (d + 1) (s + 1) n
  end.

Definition memmove (m : mem) (dst src n : Z) : mem :=
  if bool_decide (src < dst) && bool_decide (src + n > dst)
  then copy_down m (dst + n) (src + n) (Z.to_nat n)
  else copy_up m dst src (Z.to_nat n).

Definition memcpy (m : mem) (dst src n : Z) : mem := memmove m dst src n.

(** [while(n > 0 && *p && *p == *q) n--, p++, q++;] followed by the return. *)
Fixpoint strncmp_loop (p q : nat -> Z) (n : nat) (i : nat) : Z :=
  match n with
  | O => 0
  | S n =>
      if bool_decide (p i ≠ 0) && bool_decide (p i = q i)
      then strncmp_loop p q n (S i)
      else u8 (p i) - u8 (q i)
  end.

Definition strncmp (p q : nat -> Z) (n : Z) : Z :=
  strncmp_loop p q (Z.to_nat n) 0.

(** [while(n-- > 0) *s++ = 0;] *)
Fixpoint zero_fill (s : list Z) (i : nat) (n : nat) : list Z :=
  match n with
  | O => s
  | S n => zero_fill (<[i := 0]> s) (S i) n
  end.

(** [while(n-- > 0 && ( *s++ = *t++) != 0);] and the filling loop after it.
    The [n--] of a test that fails leaves [n] at [-1], so the filling loop
    runs only when the copy stopped at a NUL. *)
Fixpoint strncpy_loop (s : list Z) (t : nat -> Z) (i : nat) (n : nat) : list Z :=
  match n with
  | O => s
  | S n =>
      let s' := <[i := t i]> s in
      if decide (t i ≠ 0) then strncpy_loop s' t (S i) n
      else zero_fill s' (S i) n
  end.

Definition strncpy (s : list Z) (t : nat -> Z) (n : Z) : list Z :=
  strncpy_loop s t 0 (Z.to_nat n).

(** [while(--n > 0 && ( *s++ = *t++) != 0); *s = 0;] with [k] copies left. *)
Fixpoint safestrcpy_loop (s : list Z) (t : nat -> Z) (i : nat) (k : nat) : list Z :=
  match k with
  | O => <[i := 0]> s
  | S k =>
      let s' := <[i := t i]> s in
      if decide (t i ≠ 0) then safestrcpy_loop s' t (S i) k
      else <[S i := 0]> s'
  end.

Definition safestrcpy (s : list Z) (t : nat -> Z) (n : Z) : list Z :=
  if decide (n <= 0) then s else safestrcpy_loop s t 0 (Z.to_nat (n - 1)).

(** [for(n = 0; s[n]; n++);]: [fuel] bounds the scan, [None] when no NUL is
    met within it. *)
Fixpoint strlen_loop (s : nat -> Z) (n : nat) (fuel : nat) : option Z :=
  match fuel with
  | O => None
  | S fuel => if decide (s n = 0) then Some (Z.of_nat n)
              else strlen_loop s (S n) fuel
  end.

Definition strlen (s : nat -> Z) (fuel : nat) : option Z := strlen_loop s 0 fuel.

(** The bytes before the first NUL, at most [n] of them: the C string a
    reader denotes, cut at [n]. *)
Fixpoint cprefix (t : nat -> Z) (i : nat) (n : nat) : list Z :=
  match n with
  | O => []
  | S n => if decide (t i = 0) then [] else t i :: cprefix t (S i) n
  end.

(** The C string held by a buffer. *)
Fixpoint cstr (s : list Z) : list Z :=
  match s with
  | [] => []
  | c :: s => if decide (c = 0) then [] else c :: cstr s
  end.

Lemma store_eq m a v : store m a v a = v.
Proof. unfold store. by rewrite decide_True. Qed.

Lemma store_ne m a v x : x ≠ a -> store m a v x = m x.
Proof. intros. unfold store. by rewrite decide_False. Qed.

Ltac store_simpl :=
  repeat match goal with
  | |- context [store _ ?a _ ?x] =>
      first [ rewrite (store_ne _ a _ x) by lia
            | replace x with a by lia; rewrite store_eq ]
  end.

Lemma copy_up_spec n m d s x :
  (d <= s \/ s + Z.of_nat n <= d) ->
  copy_up m d s n x =
  if decide (d <= x < d + Z.of_nat n) then m (s + (x - d)) else m x.
Proof.
  revert m d s. induction n as [|n IH]; intros m d s Hov; simpl.
  { by rewrite decide_False by lia. }
  rewrite IH by lia. destruct (decide (x = d)) as [->|Hx].
  { rewrite decide_False, decide_True by lia. store_simpl. f_equal; lia. }
  repeat case_decide; store_simpl; try lia; f_equal; lia.
Qed.

Lemma copy_down_spec n m d s x :
  s <= d ->
  copy_down m d s n x =
  if decide (d - Z.of_nat n <= x < d) then m (s + (x - d)) else m x.
Proof.
  revert m d s. induction n as [|n IH]; intros m d s Hov; simpl.
  { by rewrite decide_False by lia. }
  rewrite IH by lia. destruct (decide (x = d - 1)) as [->|Hx].
  { rewrite decide_False, decide_True by lia. store_simpl. f_equal; lia. }
  repeat case_decide; store_simpl; try lia; f_equal; lia.
Qed.

(** Overlapping or not, [memmove] leaves in the [n] bytes at [dst] what the
    [n] bytes at [src] held before the call, and touches nothing else. *)
Theorem memmove_spec m dst src n x :
  memmove m dst src n x =
  if decide (dst <= x < dst + n) then m (src + (x - dst)) else m x.
Proof.
  unfold memmove. destruct (decide (src < dst /\ src + n > dst)) as [[H1 H2]|Hov].
  - rewrite !bool_decide_true by lia. simpl. rewrite copy_down_spec by lia.
    repeat case_decide; try lia; f_equal; lia.
  - replace (bool_decide _ && bool_decide _) with false
      by (repeat case_bool_decide; simpl; lia || done).
    rewrite copy_up_spec by lia. repeat case_decide; try lia; f_equal; lia.
Qed.

Lemma stosb_spec n m d c x :
  stosb m d c n x = if decide (d <= x < d + Z.of_nat n) then u8 c else m x.
Proof.
  revert m d. induction n as [|n IH]; intros m d; simpl.
  { by rewrite decide_False by lia. }
  rewrite IH. destruct (decide (x = d)) as [->|Hx].
  { rewrite decide_False, decide_True by lia. by store_simpl. }
  repeat case_decide; store_simpl; lia || done.
Qed.

(** The word [memset] hands to [stosl] has the byte in all four places. *)
Lemma splat_bytes c k :
  0 <= k < 4 ->
  u8 (Z.lor (Z.lor (Z.lor (Z.land c 255 ≪ 24) (Z.land c 255 ≪ 16))
    (Z.land c 255 ≪ 8)) (Z.land c 255) ≫ (8 * k)) = u8 c.
Proof.
  intros Hk. unfold u8. change 256 with (2 ^ 8). change 255 with (Z.ones 8).
  apply Z.bits_inj'. intros i Hi.
  destruct (decide (i < 8)) as [Hlt|Hge];
    [|by rewrite !Z.mod_pow2_bits_high by lia].
  rewrite !Z.mod_pow2_bits_low, Z.shiftr_spec, !Z.lor_spec by lia.
  assert (forall j, Z.testbit (Z.land c (Z.ones 8)) j
    = bool_decide (0 <= j < 8) && Z.testbit c j) as Hl.
  { intros j. rewrite Z.land_spec, andb_comm. f_equal.
    destruct (decide (0 <= j)) as [|Hn]; [rewrite Z.testbit_ones_nonneg by lia
      | rewrite Z.testbit_neg_r by lia]; case_bool_decide;
      first [apply Z.ltb_lt; lia | apply Z.ltb_ge; lia | lia | done]. }
  rewrite !Z.shiftl_spec, !Hl by lia.
  assert (k = 0 \/ k = 1 \/ k = 2 \/ k = 3) as Hc by lia.
  destruct Hc as [->|[->|[->| ->]]];
    repeat case_bool_decide; try lia; simpl; rewrite ?orb_false_r; f_equal; lia.
Qed.

Lemma store32_splat m a c x :
  store32 m a (Z.lor (Z.lor (Z.lor (Z.land c 255 ≪ 24) (Z.land c 255 ≪ 16))
    (Z.land c 255 ≪ 8)) (Z.land c 255)) x
  = if decide (a <= x < a + 4) then u8 c else m x.
Proof.
  unfold store32.
  pose proof (splat_bytes c 0) as H0. pose proof (splat_bytes c 1) as H1.
  pose proof (splat_bytes c 2) as H2. pose proof (splat_bytes c 3) as H3.
  change (8 * 0) with 0 in H0. change (8 * 1) with 8 in H1.
  change (8 * 2) with 16 in H2. change (8 * 3) with 24 in H3.
  rewrite Z.shiftr_0_r in H0.
  rewrite H0, H1, H2, H3 by lia. unfold store.
  repeat case_decide; lia || done.
Qed.

Lemma stosl_spec n m d c x :
  stosl m d (Z.lor (Z.lor (Z.lor (Z.land c 255 ≪ 24) (Z.land c 255 ≪ 16))
    (Z.land c 255 ≪ 8)) (Z.land c 255)) n x
  = if decide (d <= x < d + 4 * Z.of_nat n) then u8 c else m x.
Proof.
  revert m d. induction n as [|n IH]; intros m d; cbn [stosl].
  { by rewrite decide_False by lia. }
  rewrite IH, store32_splat. repeat case_decide; lia || done.
Qed.

(** Whichever of its two ways it takes (word stores when the address and the
    length are multiples of four, byte stores otherwise), [memset] writes
    the low byte of [c] to exactly the [n] bytes at [dst]. *)
Theorem memset_spec m dst c n x :
  memset m dst c n x = if decide (dst <= x < dst + n) then u8 c else m x.
Proof.
  unfold memset. destruct (_ && _) eqn:E; simpl.
  - apply andb_true_iff in E as [_ E]. apply Z.eqb_eq in E.
    pose proof (Z.div_mod n 4 ltac:(lia)) as Hn.
    rewrite stosl_spec. repeat case_decide; try lia; done.
  - rewrite stosb_spec. repeat case_decide; try lia; done.
Qed.

Lemma memcmp_loop_spec n m s1 s2 :
  memcmp_loop m s1 s2 n = 0 <->
  forall i, 0 <= i < Z.of_nat n -> m (s1 + i) = m (s2 + i).
Proof.
  revert s1 s2. induction n as [|n IH]; intros s1 s2; simpl.
  { split; [intros; lia|done]. }
  case_decide as E.
  - rewrite IH. split; intros H i Hi.
    + destruct (decide (i = 0)) as [->|]; [by rewrite !Z.add_0_r|].
      specialize (H (i - 1) ltac:(lia)). rewrite <- !Z.add_assoc in H.
      by replace (1 + (i - 1)) with i in H by lia.
    + rewrite <- !Z.add_assoc. apply H. lia.
  - split; [lia|]. intros H. specialize (H 0 ltac:(lia)).
    rewrite !Z.add_0_r in H. done.
Qed.

(** [memcmp] returns 0 exactly when the [n] bytes agree. *)
Theorem memcmp_spec m v1 v2 n :
  memcmp m v1 v2 n = 0 <-> forall i, 0 <= i < n -> m (v1 + i) = m (v2 + i).
Proof.
  unfold memcmp. rewrite memcmp_loop_spec.
  split; intros H i Hi; apply H; lia.
Qed.

Lemma strncmp_loop_zero n p q i :
  (forall k, 0 <= p k < 256 /\ 0 <= q k < 256) ->
  strncmp_loop p q n i = 0 <-> cprefix p i n = cprefix q i n.
Proof.
  intros Hb. revert i. induction n as [|n IH]; intros i; simpl; [done|].
  pose proof (Hb i) as [??].
  destruct (decide (p i = 0)) as [Hp|Hp].
  - rewrite bool_decide_false by tauto. simpl. rewrite !u8_small by lia.
    destruct (decide (q i = 0)); split; intros; lia || done.
  - rewrite bool_decide_true by done. simpl. case_bool_decide as Hpq.
    + rewrite IH, <- Hpq. rewrite decide_False by done.
      split; [by intros -> | by intros [=]].
    + rewrite !u8_small by lia.
      destruct (decide (q i = 0)); split; intros; try lia; by simplify_eq.
Qed.

(** [strncmp] returns 0 exactly when the two C strings, cut at [n]
    characters, are the same. *)
Theorem strncmp_zero p q n :
  (forall k, 0 <= p k < 256 /\ 0 <= q k < 256) ->
  strncmp p q n = 0 <->
  cprefix p 0 (Z.to_nat n) = cprefix q 0 (Z.to_nat n).
Proof. apply strncmp_loop_zero. Qed.

Lemma zero_fill_lookup n s i k :
  (i + n <= length s)%nat ->
  zero_fill s i n !! k =
  if decide (i <= k < i + n)%nat then Some 0 else s !! k.
Proof.
  revert s i. induction n as [|n IH]; intros s i Hl; simpl.
  { by rewrite decide_False by lia. }
  rewrite IH by (rewrite length_insert; lia).
  destruct (decide (k = i)) as [->|].
  - rewrite list_lookup_insert_eq by lia. repeat case_decide; lia || done.
  - rewrite list_lookup_insert_ne by done. repeat case_decide; lia || done.
Qed.

(** The [k]-th byte of a string padded with NULs: the reader's byte as long
    as no NUL came before it. *)
Definition padded (t : nat -> Z) (i k : nat) : Z :=
  if decide (Forall (fun j => t j ≠ 0) (seq i (k - i))) then t k else 0.

Lemma padded_step t i k :
  t i ≠ 0 -> (i < k)%nat -> padded t (S i) k = padded t i k.
Proof.
  intros Ht Hk. unfold padded. replace (k - i)%nat with (S (k - S i)) by lia.
  simpl. repeat case_decide; try done; exfalso.
  - naive_solver.
  - by decompose_Forall_hyps.
Qed.

Lemma padded_stop t i k : t i = 0 -> (i <= k)%nat -> padded t i k = 0.
Proof.
  intros Ht Hk. unfold padded. case_decide as H; [|done].
  destruct (decide (k = i)) as [->|]; [done|].
  replace (k - i)%nat with (S (k - S i)) in H by lia. simpl in H.
  by decompose_Forall_hyps.
Qed.

Lemma strncpy_loop_lookup n s t i k :
  (i + n <= length s)%nat ->
  strncpy_loop s t i n !! k =
  if decide (i <= k < i + n)%nat then Some (padded t i k) else s !! k.
Proof.
  revert s i. induction n as [|n IH]; intros s i Hl; simpl.
  { by rewrite decide_False by lia. }
  case_decide as Ht.
  - rewrite IH by (rewrite length_insert; lia).
    destruct (decide (k = i)) as [->|].
    + rewrite list_lookup_insert_eq by lia. repeat case_decide; try lia.
      unfold padded. by rewrite Nat.sub_diag.
    + rewrite list_lookup_insert_ne by done.
      repeat case_decide; try lia; try done. by rewrite padded_step by (done || lia).
  - assert (t i = 0) as Ht0 by (destruct (decide (t i = 0)); tauto).
    rewrite zero_fill_lookup by (rewrite length_insert; lia).
    destruct (decide (k = i)) as [->|].
    + rewrite list_lookup_insert_eq by lia. repeat case_decide; try lia.
      by rewrite padded_stop, Ht0.
    + rewrite list_lookup_insert_ne by done.
      repeat case_decide; try lia; try done. by rewrite padded_stop by (done || lia).
Qed.

(** [strncpy] fills exactly [n] bytes of the destination: the source string,
    then NULs, with no NUL when the source is [n] bytes or longer. *)
Theorem strncpy_lookup s t n k :
  n <= Z.of_nat (length s) ->
  strncpy s t n !! k =
  if decide (Z.of_nat k < n) then Some (padded t 0 k) else s !! k.
Proof.
  intros Hn. unfold strncpy. rewrite strncpy_loop_lookup by lia.
  repeat case_decide; lia || done.
Qed.

Lemma cprefix_length t i n : (length (cprefix t i n) <= n)%nat.
Proof.
  revert i. induction n as [|n IH]; intros i; simpl; [lia|].
  case_decide; simpl; [lia|]. specialize (IH (S i)). lia.
Qed.

Lemma cstr_cprefix t i n rest : cstr (cprefix t i n ++ 0 :: rest) = cprefix t i n.
Proof.
  revert i. induction n as [|n IH]; intros i; simpl; [done|].
  case_decide; simpl; [done|]. case_decide; [done|]. by rewrite IH.
Qed.

Lemma take_insert_at {A} (s : list A) i x :
  (i < length s)%nat -> take (S i) (<[i := x]> s) = take i s ++ [x].
Proof.
  intros Hi. rewrite (take_S_r _ _ x) by (by apply list_lookup_insert_eq).
  by rewrite take_insert_ge by lia.
Qed.

Lemma split_at_lookup {A} (s : list A) i x :
  s !! i = Some x -> s = take i s ++ x :: drop (S i) s.
Proof. intros H. symmetry. by apply take_drop_middle. Qed.

Lemma safestrcpy_loop_spec k s t i :
  (i + k < length s)%nat ->
  exists rest, safestrcpy_loop s t i k = take i s ++ cprefix t i k ++ 0 :: rest.
Proof.
  revert s i. induction k as [|k IH]; intros s i Hl; simpl.
  - exists (drop (S i) s). rewrite insert_take_drop by lia. done.
  - case_decide as Ht.
    + destruct (IH (<[i := t i]> s) (S i)) as [rest ->];
        [rewrite length_insert; lia|]. exists rest.
      rewrite take_insert_at by lia. rewrite (decide_False (P := t i = 0)) by done.
      by rewrite <- app_assoc.
    + assert (t i = 0) as Ht0 by (destruct (decide (t i = 0)); tauto).
      rewrite Ht0. simpl. exists (drop (S i) (<[S i := 0]> (<[i := 0]> s))).
      rewrite (split_at_lookup (<[S i := 0]> (<[i := 0]> s)) i 0) at 1.
      * by rewrite take_insert_ge, take_insert_ge by lia.
      * rewrite list_lookup_insert_ne by lia. by apply list_lookup_insert_eq; lia.
Qed.

Lemma safestrcpy_loop_frame k s t i j :
  (i + k < j)%nat -> safestrcpy_loop s t i k !! j = s !! j.
Proof.
  revert s i. induction k as [|k IH]; intros s i Hl; simpl.
  - by rewrite list_lookup_insert_ne by lia.
  - case_decide; [rewrite IH by lia|]; rewrite ?list_lookup_insert_ne by lia; done.
Qed.

Lemma safestrcpy_loop_length k s t i :
  length (safestrcpy_loop s t i k) = length s.
Proof.
  revert s i. induction k as [|k IH]; intros s i; simpl.
  - by rewrite length_insert.
  - case_decide; [rewrite IH|]; by rewrite !length_insert.
Qed.

Lemma safestrcpy_length s t n : length (safestrcpy s t n) = length s.
Proof. unfold safestrcpy. case_decide; [done|]. apply safestrcpy_loop_length. Qed.

(** [safestrcpy] into a buffer of at least [n] bytes always leaves a NUL
    among the first [n]; the C string it leaves is the source cut at [n-1]
    characters; bytes past [n] are untouched. *)
Theorem safestrcpy_spec s t n :
  0 < n <= Z.of_nat (length s) ->
  cstr (safestrcpy s t n) = cprefix t 0 (Z.to_nat (n - 1)) /\
  (exists k, Z.of_nat k < n /\ safestrcpy s t n !! k = Some 0) /\
  (forall j, n <= Z.of_nat j -> safestrcpy s t n !! j = s !! j).
Proof.
  intros Hn. unfold safestrcpy. rewrite decide_False by lia.
  destruct (safestrcpy_loop_spec (Z.to_nat (n - 1)) s t 0) as [rest Hr]; [lia|].
  pose proof (cprefix_length t 0 (Z.to_nat (n - 1))) as Hlen.
  split_and!.
  - rewrite Hr. apply cstr_cprefix.
  - exists (length (cprefix t 0 (Z.to_nat (n - 1)))). split; [lia|].
    rewrite Hr. simpl. rewrite lookup_app_r by lia. by rewrite Nat.sub_diag.
  - intros j Hj. apply safestrcpy_loop_frame. lia.
Qed.

Lemma strlen_loop_spec fuel s n k :
  (forall j, (n <= j < n + k)%nat -> s j ≠ 0) -> s (n + k)%nat = 0 ->
  (k < fuel)%nat -> strlen_loop s n fuel = Some (Z.of_nat (n + k)).
Proof.
  revert n k. induction fuel as [|fuel IH]; intros n k Hne H0 Hf; [lia|].
  simpl. destruct k as [|k].
  - rewrite Nat.add_0_r in *. by rewrite decide_True.
  - rewrite decide_False by (apply Hne; lia). rewrite (IH (S n) k).
    + do 2 f_equal. lia.
    + intros j Hj. apply Hne. lia.
    + rewrite <- H0. f_equal. lia.
    + lia.
Qed.

End KString.
