(* ===== verification/Spinlock.v ===== *)
(** * CPUs, interrupts and spinlocks: spinlock.c, and mycpu/cpuid of proc.c

    [mach] is what these routines share: the array [cpus[]], the registers
    of each CPU the code reads or writes (the flags register, the local
    APIC ID), which CPU is executing ([hart]) and the spinlocks.  An
    operation is run by the CPU [hart m]; two CPUs interleave by changing
    [hart] between operations. *)

From stdpp Require Import base numbers gmap list strings.
From S2P Require Import Prelude.
Open Scope Z_scope.

Definition NCPU : nat := 8.

(** mmu.h *)
Definition FL_IF : Z := 512.

Definition KERNBASE : Z := 2147483648.

(** The spinlock objects of the kernel, by the variable that holds them. *)
Inductive lockid :=
  | Lptable | Lsem | Lticks | Lkmem | Lcons | Lide | Lbcache | Llog | Licache
  | Lftable | Lpipe (p : Z) | Lsleep (p : Z).

#[global] Instance lockid_eq_dec : EqDecision lockid.
Proof. solve_decision. Defined.

Definition lockid_code (l : lockid) : Z * Z :=
  match l with
  | Lptable => (0, 0) | Lsem => (1, 0) | Lticks => (2, 0) | Lkmem => (3, 0)
  | Lcons => (4, 0) | Lide => (5, 0) | Lbcache => (6, 0) | Llog => (7, 0)
  | Licache => (8, 0) | Lftable => (9, 0) | Lpipe p => (10, p)
  | Lsleep p => (11, p)
  end.

Definition lockid_decode (c : Z * Z) : lockid :=
  match c with
  | (0, _) => Lptable | (1, _) => Lsem | (2, _) => Lticks | (3, _) => Lkmem
  | (4, _) => Lcons | (5, _) => Lide | (6, _) => Lbcache | (7, _) => Llog
  | (8, _) => Licache | (9, _) => Lftable | (10, p) => Lpipe p
  | (_, p) => Lsleep p
  end.

#[global] Instance lockid_countable : Countable lockid.
Proof. by refine (inj_countable' lockid_code lockid_decode _); intros []. Defined.

(** spinlock.h *)
Record spinlock := mkLock {
  locked : Z;
  lname : string;
  lcpu : option nat;
  pcs : list Z }.

(** The part of [struct cpu] (proc.h) the locking code uses. *)
Record cpu := mkCpu {
  apicid : Z;
  ncli : Z;
  intena : Z;
  cproc : option nat }.

(** Registers of one CPU. *)
Record hwcpu := mkHw {
  eflags : Z;
  lapicreg : Z }.

Record mach := mkMach {
  cpus : list cpu;
  ncpu : nat;
  hart : nat;
  hw : list hwcpu;
  locks : gmap lockid spinlock;
  kstk : Z -> Z;
  argp : Z }.

Definition cpu0 : cpu := mkCpu 0 0 0 None.

Definition hw0 : hwcpu := mkHw 0 0.

(** A lock in zeroed storage. *)
Definition lock0 : spinlock := mkLock 0 "" None (replicate 10 0).

Definition get_lock (l : lockid) (m : mach) : spinlock := default lock0 (locks m !! l).

Definition set_lock (l : lockid) (k : spinlock) (m : mach) : mach :=
  mkMach (cpus m) (ncpu m) (hart m) (hw m) (<[l := k]> (locks m)) (kstk m) (argp m).

Definition the_cpu (m : mach) (i : nat) : cpu := default cpu0 (cpus m !! i).

Definition the_hw (m : mach) : hwcpu := default hw0 (hw m !! hart m).

Definition set_cpu (i : nat) (c : cpu) (m : mach) : mach :=
  mkMach (<[i := c]> (cpus m)) (ncpu m) (hart m) (hw m) (locks m) (kstk m) (argp m).

Definition upd_cpu (i : nat) (f : cpu -> cpu) (m : mach) : mach :=
  set_cpu i (f (the_cpu m i)) m.

Definition set_flags (e : Z) (m : mach) : mach :=
  mkMach (cpus m) (ncpu m) (hart m)
    (<[hart m := mkHw e (lapicreg (the_hw m))]> (hw m))
    (locks m) (kstk m) (argp m).

Definition set_hart (h : nat) (m : mach) : mach :=
  mkMach (cpus m) (ncpu m) h (hw m) (locks m) (kstk m) (argp m).

Definition if_on (e : Z) : bool := negb (Z.land e FL_IF =? 0).

(** x86.h *)
Definition readeflags : M mach Z := gets (fun m => eflags (the_hw m)).

Definition cli : M mach unit :=
  e ← readeflags; modify (set_flags (Z.land e (Z.lnot FL_IF))).

Definition sti : M mach unit :=
  e ← readeflags; modify (set_flags (Z.lor e FL_IF)).

(** lapic.c [lapicid], with the local APIC present. *)
Definition lapicid : M mach Z := gets (fun m => lapicreg (the_hw m)).

(** proc.c [mycpu]: the index in [cpus[]] of the executing CPU. *)
Definition mycpu : M mach nat :=
  e ← readeflags;
  if if_on e then panic "mycpu called with interrupts enabled
" else
  apic ← lapicid;
  m ← gets id;
  match list_find (fun c => apicid c = apic) (take (ncpu m) (cpus m)) with
  | Some (i, _) => mret i
  | None => panic "unknown apicid"
  end.

(** proc.c [cpuid]: [mycpu() - cpus]. *)
Definition cpuid : M mach Z := i ← mycpu; mret (Z.of_nat i).

(** A read of, and a write to, a field of [*mycpu()]. *)
Definition mycpu_get {A} (f : cpu -> A) : M mach A :=
  i ← mycpu; gets (fun m => f (the_cpu m i)).

Definition mycpu_upd (f : cpu -> cpu) : M mach unit :=
  i ← mycpu; modify (upd_cpu i f).

Definition set_intena (v : Z) (c : cpu) : cpu := mkCpu (apicid c) (ncli c) v (cproc c).

Definition set_ncli (v : Z) (c : cpu) : cpu := mkCpu (apicid c) v (intena c) (cproc c).

Definition set_cproc (v : option nat) (c : cpu) : cpu :=
  mkCpu (apicid c) (ncli c) (intena c) v.

Definition pushcli : M mach unit :=
  eflags ← readeflags;
  cli;;
  n ← mycpu_get ncli;
  when (n =? 0) (mycpu_upd (set_intena (Z.land eflags FL_IF)));;
  mycpu_upd (fun c => set_ncli (ncli c + 1) c).

Definition popcli : M mach unit :=
  e ← readeflags;
  if if_on e then panic "popcli - interruptible" else
  mycpu_upd (fun c => set_ncli (ncli c - 1) c);;
  n ← mycpu_get ncli;
  if n <? 0 then panic "popcli" else
  n ← mycpu_get ncli;
  i ← mycpu_get intena;
  when ((n =? 0) && negb (i =? 0)) sti.

Definition initlock (l : lockid) (name : string) : M mach unit :=
  modify (fun m => set_lock l (mkLock 0 name None (pcs (get_lock l m))) m).

(** [getcallerpcs]: follow the chain of saved frame pointers through the
    stack words [stk], at most ten frames; the rest of [pcs[]] is zeroed. *)
Fixpoint getcallerpcs_loop (stk : Z -> Z) (ebp : Z) (n : nat) : list Z :=
  match n with
  | O => []
  | S n' =>
      if (ebp =? 0) || (ebp <? KERNBASE) || (ebp =? 4294967295)
      then replicate n 0
      else stk (ebp + 4) :: getcallerpcs_loop stk (stk ebp) n'
  end.

Definition getcallerpcs (stk : Z -> Z) (v : Z) : list Z :=
  getcallerpcs_loop stk (u32 (v - 8)) 10.

(** [holding]: is this CPU holding the lock? *)
Definition holding (l : lockid) : M mach bool :=
  pushcli;;
  k ← gets (get_lock l);
  r ← (if negb (locked k =? 0)
       then (i ← mycpu; mret (bool_decide (lcpu k = Some i)))
       else mret false);
  popcli;;
  mret r.

(** [xchg(&lk->locked, 1)]: atomic; returns the old value. *)
Definition xchg_locked (l : lockid) : M mach Z :=
  k ← gets (get_lock l);
  modify (set_lock l (mkLock 1 (lname k) (lcpu k) (pcs k)));;
  mret (locked k).

Definition acquire (l : lockid) : M mach unit :=
  pushcli;;
  h ← holding l;
  if (h : bool) then panic "acquire" else
  old ← xchg_locked l;
  if negb (old =? 0) then blocked else
  i ← mycpu;
  modify (fun m => let k := get_lock l m in
    set_lock l (mkLock (locked k) (lname k) (Some i)
      (getcallerpcs (kstk m) (argp m))) m).

Definition release (l : lockid) : M mach unit :=
  h ← holding l;
  if negb (h : bool) then panic "release" else
  modify (fun m => let k := get_lock l m in
    set_lock l (mkLock (locked k) (lname k) None (<[0%nat := 0]> (pcs k))) m);;
  modify (fun m => let k := get_lock l m in
    set_lock l (mkLock 0 (lname k) (lcpu k) (pcs k)) m);;
  popcli.

(** ** Well-formedness of the machine *)

(** The executing CPU exists, and [cpus[]] lists each CPU under the APIC ID
    its local APIC reports, all distinct (what mpinit() sets up). *)
Record mwf (m : mach) : Prop := mkMwf {
  mwf_hart : (hart m < ncpu m)%nat;
  mwf_cpus : (ncpu m <= length (cpus m))%nat;
  mwf_hw : (ncpu m <= length (hw m))%nat;
  mwf_apic : forall i c h, (i < ncpu m)%nat ->
    cpus m !! i = Some c -> hw m !! i = Some h -> apicid c = lapicreg h;
  mwf_inj : forall i j c d, (i < ncpu m)%nat -> (j < ncpu m)%nat ->
    cpus m !! i = Some c -> cpus m !! j = Some d -> apicid c = apicid d -> i = j }.

(** Flags, [ncli] and [intena] of the executing CPU. *)
Definition flags (m : mach) : Z := eflags (the_hw m).

Definition my (m : mach) : cpu := the_cpu m (hart m).

Definition free (l : lockid) (m : mach) : Prop := locked (get_lock l m) = 0.

Definition held (l : lockid) (m : mach) : Prop :=
  locked (get_lock l m) = 1 /\ lcpu (get_lock l m) = Some (hart m).

(** The machine after a [pushcli], and after a [popcli]. *)
Definition pushed (m : mach) : mach :=
  let c := my m in
  set_cpu (hart m)
    (mkCpu (apicid c) (ncli c + 1)
      (if ncli c =? 0 then Z.land (flags m) FL_IF else intena c) (cproc c))
    (set_flags (Z.land (flags m) (Z.lnot FL_IF)) m).

Definition popped (m : mach) : mach :=
  let c := my m in
  let m1 := set_cpu (hart m) (set_ncli (ncli c - 1) c) m in
  if (ncli c - 1 =? 0) && negb (intena c =? 0)
  then set_flags (Z.lor (flags m) FL_IF) m1 else m1.

(** The machine after an [acquire] of a free lock, and after a [release]. *)
Definition acq (l : lockid) (m : mach) : mach :=
  set_lock l (mkLock 1 (lname (get_lock l m)) (Some (hart m))
    (getcallerpcs (kstk m) (argp m))) (pushed m).

Definition rel (l : lockid) (m : mach) : mach :=
  popped (set_lock l (mkLock 0 (lname (get_lock l m)) None
    (<[0%nat := 0]> (pcs (get_lock l m)))) m).

Lemma if_on_cli e : if_on (Z.land e (Z.lnot FL_IF)) = false.
Proof.
  unfold if_on. rewrite <- Z.land_assoc.
  replace (Z.land (Z.lnot FL_IF) FL_IF) with 0 by reflexivity.
  by rewrite Z.land_0_r.
Qed.

Lemma if_on_sti e : if_on (Z.lor e FL_IF) = true.
Proof.
  unfold if_on. rewrite Z.land_lor_distr_l, Z.land_diag.
  destruct (Z.lor (Z.land e FL_IF) FL_IF =? 0) eqn:E; [|done].
  apply Z.eqb_eq, Z.lor_eq_0_iff in E as [_ E]. done.
Qed.

Lemma land_flif_testbit e : if_on e = Z.testbit e 9.
Proof.
  unfold if_on. destruct (Z.testbit e 9) eqn:E.
  - destruct (Z.land e FL_IF =? 0) eqn:E2; [|done].
    apply Z.eqb_eq in E2. apply (f_equal (fun z => Z.testbit z 9)) in E2.
    by rewrite Z.land_spec, E in E2.
  - replace (Z.land e FL_IF) with 0; [done|]. symmetry. apply Z.bits_inj'.
    intros n Hn. rewrite Z.land_spec, Z.bits_0.
    change FL_IF with (2 ^ 9). destruct (decide (n = 9)) as [->|].
    + by rewrite E.
    + rewrite Z.pow2_bits_false by done. apply andb_false_r.
Qed.

(** Clearing and setting IF again gives back flags that had it set, and
    clearing it changes nothing in flags that had it clear. *)
Lemma sti_cli e : if_on e = true -> Z.lor (Z.land e (Z.lnot FL_IF)) FL_IF = e.
Proof.
  rewrite land_flif_testbit. intros H. apply Z.bits_inj'. intros n Hn.
  rewrite Z.lor_spec, Z.land_spec, Z.lnot_spec by lia.
  change FL_IF with (2 ^ 9). destruct (decide (n = 9)) as [->|].
  - by rewrite Z.pow2_bits_true, orb_true_r, H by lia.
  - rewrite Z.pow2_bits_false by done. by rewrite andb_true_r, orb_false_r.
Qed.

Lemma cli_off e : if_on e = false -> Z.land e (Z.lnot FL_IF) = e.
Proof.
  rewrite land_flif_testbit. intros H. apply Z.bits_inj'. intros n Hn.
  rewrite Z.land_spec, Z.lnot_spec by lia.
  change FL_IF with (2 ^ 9). destruct (decide (n = 9)) as [->|].
  - by rewrite H.
  - rewrite Z.pow2_bits_false by done. by rewrite andb_true_r.
Qed.

(** ** Observers after updates *)

Lemma get_lock_set l k m : get_lock l (set_lock l k m) = k.
Proof. unfold get_lock, set_lock. simpl. by rewrite lookup_insert_eq. Qed.

Lemma get_lock_set_ne l l' k m :
  l ≠ l' -> get_lock l (set_lock l' k m) = get_lock l m.
Proof. intros. unfold get_lock, set_lock. simpl. by rewrite lookup_insert_ne. Qed.

Lemma set_lock_set l k k' m : set_lock l k (set_lock l k' m) = set_lock l k m.
Proof. unfold set_lock. simpl. by rewrite insert_insert_eq. Qed.

Lemma set_cpu_set i c c' m : set_cpu i c (set_cpu i c' m) = set_cpu i c m.
Proof. unfold set_cpu. simpl. by rewrite list_insert_insert_eq. Qed.

Lemma my_set_cpu m c :
  (hart m < length (cpus m))%nat -> my (set_cpu (hart m) c m) = c.
Proof.
  intros. unfold my, the_cpu, set_cpu. simpl. by rewrite list_lookup_insert_eq.
Qed.

Lemma the_cpu_set_ne m i j c :
  i ≠ j -> the_cpu (set_cpu j c m) i = the_cpu m i.
Proof.
  intros. unfold the_cpu, set_cpu. simpl. by rewrite list_lookup_insert_ne.
Qed.

Lemma flags_set m e : (hart m < length (hw m))%nat -> flags (set_flags e m) = e.
Proof.
  intros. unfold flags, the_hw, set_flags. simpl. by rewrite list_lookup_insert_eq.
Qed.

Lemma set_flags_set m e e' :
  (hart m < length (hw m))%nat -> set_flags e (set_flags e' m) = set_flags e m.
Proof.
  intros. unfold set_flags, the_hw. simpl.
  by rewrite list_lookup_insert_eq, list_insert_insert_eq by done.
Qed.

Lemma set_flags_id m : (hart m < length (hw m))%nat -> set_flags (flags m) m = m.
Proof.
  intros H. destruct m as [cs nc h hws ls st ar]. unfold set_flags, flags, the_hw.
  simpl in *. apply lookup_lt_is_Some in H as [x Hx]. rewrite Hx. simpl.
  rewrite list_insert_id; [done|]. rewrite Hx. by destruct x.
Qed.

Lemma set_cpu_id m : (hart m < length (cpus m))%nat -> set_cpu (hart m) (my m) m = m.
Proof.
  intros H. destruct m as [cs nc h hws ls st ar]. unfold set_cpu, my, the_cpu.
  simpl in *. apply lookup_lt_is_Some in H as [x Hx]. rewrite Hx. simpl.
  by rewrite list_insert_id.
Qed.

Lemma my_set_flags m e : my (set_flags e m) = my m.
Proof. done. Qed.

Lemma my_set_lock m l k : my (set_lock l k m) = my m.
Proof. done. Qed.

Lemma flags_set_cpu m i c : flags (set_cpu i c m) = flags m.
Proof. done. Qed.

Lemma flags_set_lock m l k : flags (set_lock l k m) = flags m.
Proof. done. Qed.

Lemma get_lock_set_cpu l m i c : get_lock l (set_cpu i c m) = get_lock l m.
Proof. done. Qed.

Lemma get_lock_set_flags l m e : get_lock l (set_flags e m) = get_lock l m.
Proof. done. Qed.

(** ** Preservation of well-formedness *)

Lemma mwf_set_lock l k m : mwf m -> mwf (set_lock l k m).
Proof. intros []. by constructor. Qed.

Lemma mwf_set_flags e m : mwf m -> mwf (set_flags e m).
Proof.
  intros [H1 H2 H3 H4 H5]. constructor; simpl; try done.
  - by rewrite length_insert.
  - intros i c h Hi Hc Hh. destruct (decide (i = hart m)) as [->|].
    + rewrite list_lookup_insert_eq in Hh by lia. simplify_eq. simpl.
      unfold the_hw. destruct (hw m !! hart m) eqn:E; simpl; [by eauto|].
      apply lookup_ge_None in E. lia.
    + rewrite list_lookup_insert_ne in Hh by done. eauto.
Qed.

Lemma mwf_set_cpu i c m :
  mwf m -> apicid c = apicid (the_cpu m i) -> mwf (set_cpu i c m).
Proof.
  intros [H1 H2 H3 H4 H5] Hc. constructor; simpl; try done.
  - by rewrite length_insert.
  - intros j d h Hj Hd Hh. apply list_lookup_insert_Some in Hd
      as [(<- & <- & Hl)|[_ Hd]]; [|by eauto].
    apply lookup_lt_is_Some in Hl as [x Hx]. unfold the_cpu in Hc.
    rewrite Hx in Hc. simpl in Hc. rewrite Hc. eauto.
  - assert (forall j d, <[i := c]> (cpus m) !! j = Some d ->
      exists d', cpus m !! j = Some d' /\ apicid d' = apicid d) as Hold.
    { intros j d Hd. apply list_lookup_insert_Some in Hd
        as [(<- & <- & Hl)|[_ Hd]]; [|by eauto].
      apply lookup_lt_is_Some in Hl as [x Hx]. exists x. split; [done|].
      unfold the_cpu in Hc. rewrite Hx in Hc. done. }
    intros j k d e Hj Hk Hd He Hde.
    apply Hold in Hd as (d' & Hd & Ed). apply Hold in He as (e' & He & Ee).
    eapply H5; eauto. congruence.
Qed.

Lemma mwf_hart_cpus m : mwf m -> (hart m < length (cpus m))%nat.
Proof. intros []. lia. Qed.

Lemma mwf_hart_hw m : mwf m -> (hart m < length (hw m))%nat.
Proof. intros []. lia. Qed.

Create HintDb mach.
#[export] Hint Resolve mwf_set_lock mwf_set_flags mwf_set_cpu mwf_hart_cpus
  mwf_hart_hw : mach.
#[export] Hint Rewrite my_set_flags my_set_lock flags_set_cpu flags_set_lock
  get_lock_set_cpu get_lock_set_flags get_lock_set set_lock_set set_cpu_set : mach.

(** Solves [mwf] goals and the bounds that follow from them. *)
Ltac mwf_tac :=
  simpl;
  lazymatch goal with
  | |- mwf (set_cpu _ _ _) => apply mwf_set_cpu; [mwf_tac | try reflexivity]
  | |- mwf (set_flags _ _) => apply mwf_set_flags; mwf_tac
  | |- mwf (set_lock _ _ _) => apply mwf_set_lock; mwf_tac
  | |- (_ < length (cpus _))%nat => apply mwf_hart_cpus; mwf_tac
  | |- (_ < length (hw _))%nat => apply mwf_hart_hw; mwf_tac
  | |- _ => eauto with mach
  end.

(** ** What each operation does *)

Lemma mycpu_ok m : mwf m -> if_on (flags m) = false -> mycpu m = Ok (hart m) m.
Proof.
  intros Hw Hf. pose proof Hw as [H1 H2 H3 H4 H5].
  unfold mycpu, readeflags, lapicid, gets, mbind, M_bind.
  fold (flags m). rewrite Hf. simpl.
  destruct (lookup_lt_is_Some_2 (cpus m) (hart m)) as [c Hc]; [lia|].
  destruct (lookup_lt_is_Some_2 (hw m) (hart m)) as [h Hh]; [lia|].
  assert (lapicreg (the_hw m) = apicid c) as ->.
  { unfold the_hw. rewrite Hh. simpl. symmetry. eauto. }
  rewrite (proj2 (list_find_Some _ _ (hart m) c)); [done|]. split_and!.
  - by rewrite lookup_take_lt by lia.
  - done.
  - intros j d Hj Hlt Heq. rewrite lookup_take_lt in Hj by lia.
    assert (j = hart m) by (eapply H5; eauto; lia). lia.
Qed.

Lemma mycpu_get_ok {A} (f : cpu -> A) m :
  mwf m -> if_on (flags m) = false -> mycpu_get f m = Ok (f (my m)) m.
Proof. intros. unfold mycpu_get. by erewrite bind_ok by by apply mycpu_ok. Qed.

Lemma mycpu_upd_ok f m :
  mwf m -> if_on (flags m) = false ->
  mycpu_upd f m = Ok tt (set_cpu (hart m) (f (my m)) m).
Proof. intros. unfold mycpu_upd. by erewrite bind_ok by by apply mycpu_ok. Qed.

Lemma mycpu_on m : if_on (flags m) = true ->
  mycpu m = Panic "mycpu called with interrupts enabled
".
Proof.
  intros Hf. unfold mycpu, readeflags, gets, mbind, M_bind. fold (flags m).
  by rewrite Hf.
Qed.

Lemma pushcli_ok m : mwf m -> pushcli m = Ok tt (pushed m).
Proof.
  intros Hw. unfold pushcli. rewrite (bind_ok _ _ _ (flags m) m) by done.
  set (m1 := set_flags (Z.land (flags m) (Z.lnot FL_IF)) m).
  rewrite (bind_ok cli _ _ tt m1) by done.
  assert (mwf m1) as Hw1 by (by apply mwf_set_flags).
  assert (if_on (flags m1) = false) as Hf.
  { unfold m1. rewrite flags_set by mwf_tac. apply if_on_cli. }
  rewrite (bind_ok _ _ _ (ncli (my m)) m1) by exact (mycpu_get_ok ncli m1 Hw1 Hf).
  destruct (ncli (my m) =? 0) eqn:E.
  - set (m2 := set_cpu (hart m1) (set_intena (Z.land (flags m) FL_IF) (my m1)) m1).
    rewrite (bind_ok _ _ _ tt m2) by (simpl; by apply mycpu_upd_ok).
    rewrite mycpu_upd_ok; [|by apply mwf_set_cpu|done].
    assert (my m2 = set_intena (Z.land (flags m) FL_IF) (my m1)) as ->
      by (apply my_set_cpu; mwf_tac).
    unfold m2. rewrite set_cpu_set. unfold pushed. by rewrite E.
  - rewrite (bind_ok _ _ _ tt m1) by done. rewrite mycpu_upd_ok by done.
    unfold pushed. rewrite E. done.
Qed.

Lemma popcli_ok m : mwf m -> if_on (flags m) = false -> 1 <= ncli (my m) ->
  popcli m = Ok tt (popped m).
Proof.
  intros Hw Hf Hn. unfold popcli. rewrite (bind_ok _ _ _ (flags m) m) by done.
  rewrite Hf.
  set (m1 := set_cpu (hart m) (set_ncli (ncli (my m) - 1) (my m)) m).
  rewrite (bind_ok _ _ _ tt m1) by (by apply mycpu_upd_ok).
  assert (mwf m1) as Hw1 by (by apply mwf_set_cpu).
  assert (my m1 = set_ncli (ncli (my m) - 1) (my m)) as Hmy
    by (apply my_set_cpu; mwf_tac).
  rewrite (bind_ok _ _ _ (ncli (my m) - 1) m1)
    by (rewrite mycpu_get_ok, Hmy by done; done).
  replace (ncli (my m) - 1 <? 0) with false by lia.
  rewrite (bind_ok _ _ _ (ncli (my m) - 1) m1)
    by (rewrite mycpu_get_ok, Hmy by done; done).
  rewrite (bind_ok _ _ _ (intena (my m)) m1)
    by (rewrite mycpu_get_ok, Hmy by done; done).
  unfold popped. fold m1. by destruct (_ && _).
Qed.

Lemma pushed_mwf m : mwf m -> mwf (pushed m).
Proof. intros. apply mwf_set_cpu; mwf_tac. Qed.

Lemma popped_mwf m : mwf m -> mwf (popped m).
Proof.
  intros. unfold popped. destruct (_ && _); [apply mwf_set_flags|];
    by apply mwf_set_cpu.
Qed.

Lemma pushed_my m : mwf m ->
  my (pushed m) = mkCpu (apicid (my m)) (ncli (my m) + 1)
    (if ncli (my m) =? 0 then Z.land (flags m) FL_IF else intena (my m))
    (cproc (my m)).
Proof. intros. unfold pushed. apply (my_set_cpu (set_flags _ m)). mwf_tac. Qed.

Lemma pushed_flags m : mwf m -> flags (pushed m) = Z.land (flags m) (Z.lnot FL_IF).
Proof. intros. unfold pushed. rewrite flags_set_cpu. apply flags_set; mwf_tac. Qed.

Lemma popped_my m : mwf m -> my (popped m) = set_ncli (ncli (my m) - 1) (my m).
Proof.
  intros. unfold popped. destruct (_ && _); rewrite ?my_set_flags;
    apply my_set_cpu; mwf_tac.
Qed.

(** With interrupts off and at least one [pushcli] pending, a pair
    [pushcli]; [popcli] changes nothing. *)
Lemma popped_pushed m : mwf m -> if_on (flags m) = false -> 1 <= ncli (my m) ->
  popped (pushed m) = m.
Proof.
  intros Hw Hf Hn. unfold popped. rewrite pushed_my by done. simpl.
  replace (ncli (my m) + 1 - 1 =? 0) with false by lia. simpl.
  unfold pushed. simpl. rewrite set_cpu_set, cli_off by done.
  rewrite set_flags_id by mwf_tac.
  replace (ncli (my m) =? 0) with false by lia.
  unfold set_ncli. simpl. replace (ncli (my m) + 1 - 1) with (ncli (my m)) by lia.
  transitivity (set_cpu (hart m) (my m) m); [by destruct (my m)|].
  apply set_cpu_id. mwf_tac.
Qed.

Lemma holding_ok l m : mwf m -> if_on (flags m) = false -> 1 <= ncli (my m) ->
  holding l m = Ok (bool_decide (locked (get_lock l m) ≠ 0 /\
                                 lcpu (get_lock l m) = Some (hart m))) m.
Proof.
  intros Hw Hf Hn. unfold holding.
  rewrite (bind_ok _ _ _ tt (pushed m)) by (by apply pushcli_ok).
  rewrite (bind_ok _ _ _ (get_lock l m) (pushed m)) by done.
  assert (if_on (flags (pushed m)) = false) as Hfp
    by (rewrite pushed_flags by done; apply if_on_cli).
  erewrite bind_ok with (s' := pushed m)
    (a := bool_decide (locked (get_lock l m) ≠ 0 /\ lcpu (get_lock l m) = Some (hart m))).
  - rewrite (bind_ok _ _ _ tt m); [done|].
    rewrite popcli_ok, popped_pushed; auto using pushed_mwf.
    rewrite pushed_my by done. simpl. lia.
  - destruct (locked (get_lock l m) =? 0) eqn:E; simpl.
    + rewrite bool_decide_false by lia. done.
    + erewrite bind_ok by (apply mycpu_ok; auto using pushed_mwf).
      unfold mret, M_ret. f_equal. apply bool_decide_ext. simpl. lia || naive_solver lia.
Qed.

Lemma acquire_ok l m : mwf m -> 0 <= ncli (my m) -> free l m ->
  acquire l m = Ok tt (acq l m).
Proof.
  intros Hw Hn Hfree. unfold acquire.
  rewrite (bind_ok _ _ _ tt (pushed m)) by (by apply pushcli_ok).
  assert (if_on (flags (pushed m)) = false) as Hf
    by (rewrite pushed_flags by done; apply if_on_cli).
  assert (1 <= ncli (my (pushed m))) as Hn1
    by (rewrite pushed_my by done; simpl; lia).
  rewrite (bind_ok _ _ _ false (pushed m)).
  2: { rewrite holding_ok by auto using pushed_mwf.
       rewrite bool_decide_false; [done|]. intros [H _]. by apply H. }
  set (k1 := mkLock 1 (lname (get_lock l m)) (lcpu (get_lock l m))
    (pcs (get_lock l m))).
  rewrite (bind_ok _ _ _ (locked (get_lock l m)) (set_lock l k1 (pushed m))) by done.
  rewrite Hfree. simpl.
  rewrite (bind_ok _ _ _ (hart m) (set_lock l k1 (pushed m))).
  2: { apply (mycpu_ok (set_lock l k1 (pushed m))); [|done].
       apply mwf_set_lock. by apply pushed_mwf. }
  unfold modify. rewrite get_lock_set, set_lock_set. done.
Qed.

Lemma release_ok l m : mwf m -> if_on (flags m) = false -> 1 <= ncli (my m) ->
  held l m -> release l m = Ok tt (rel l m).
Proof.
  intros Hw Hf Hn [Hl Hc]. unfold release. erewrite bind_ok by (by apply holding_ok).
  rewrite bool_decide_true by (split; [lia|done]). simpl.
  erewrite bind_ok by done. erewrite bind_ok by done.
  rewrite get_lock_set, set_lock_set. simpl. rewrite popcli_ok; [done| |done|done].
  by apply mwf_set_lock.
Qed.

(** Reads of a machine on which [l] was just acquired or released. *)
Section acq_rel.
Context (l : lockid) (m : mach) (Hw : mwf m).

Lemma acq_mwf : mwf (acq l m).
Proof using Hw. apply mwf_set_lock. by apply pushed_mwf. Qed.

Lemma acq_held : held l (acq l m).
Proof using. split; unfold acq; by rewrite get_lock_set. Qed.

Lemma acq_flags : if_on (flags (acq l m)) = false.
Proof using Hw.
  unfold acq. rewrite flags_set_lock, pushed_flags by done. apply if_on_cli.
Qed.

Lemma acq_my : my (acq l m) = mkCpu (apicid (my m)) (ncli (my m) + 1)
    (if ncli (my m) =? 0 then Z.land (flags m) FL_IF else intena (my m))
    (cproc (my m)).
Proof using Hw. unfold acq. rewrite my_set_lock. by apply pushed_my. Qed.

Lemma acq_other l' : l' ≠ l -> get_lock l' (acq l m) = get_lock l' m.
Proof using. intros. unfold acq. by rewrite get_lock_set_ne. Qed.

Lemma rel_mwf : mwf (rel l m).
Proof using Hw. apply popped_mwf. by apply mwf_set_lock. Qed.

Lemma rel_lock l' : get_lock l' (rel l m) =
  if decide (l' = l) then mkLock 0 (lname (get_lock l m)) None
    (<[0%nat := 0]> (pcs (get_lock l m))) else get_lock l' m.
Proof using.
  unfold rel, popped. destruct (_ && _);
    (case_decide; [subst; apply get_lock_set | by apply get_lock_set_ne]).
Qed.

Lemma rel_free : free l (rel l m).
Proof using. unfold free. rewrite rel_lock. by rewrite decide_True. Qed.

Lemma rel_my : my (rel l m) = set_ncli (ncli (my m) - 1) (my m).
Proof using Hw. unfold rel. rewrite popped_my; [done|]. by apply mwf_set_lock. Qed.

Lemma rel_flags : flags (rel l m) =
  if (ncli (my m) - 1 =? 0) && negb (intena (my m) =? 0)
  then Z.lor (flags m) FL_IF else flags m.
Proof using Hw.
  unfold rel, popped. rewrite my_set_lock. destruct (_ && _); [|done].
  rewrite flags_set; [done|]. mwf_tac.
Qed.

Lemma rel_hart : hart (rel l m) = hart m.
Proof using. unfold rel, popped. by destruct (_ && _). Qed.

End acq_rel.

(** [acquire] then [release], possibly with work in between that leaves the
    CPU alone, restores the interrupt flag. *)
Lemma if_on_intena e : negb (Z.land e FL_IF =? 0) = if_on e.
Proof. done. Qed.

Lemma rel_acq_flags l m : mwf m -> 0 <= ncli (my m) ->
  (0 < ncli (my m) -> if_on (flags m) = false) ->
  flags (rel l (acq l m)) = flags m.
Proof.
  intros Hw Hn Hoff. rewrite rel_flags, acq_my by (by try apply acq_mwf). simpl.
  replace (ncli (my m) + 1 - 1) with (ncli (my m)) by lia.
  assert (flags (acq l m) = Z.land (flags m) (Z.lnot FL_IF)) as ->
    by (unfold acq; rewrite flags_set_lock; by apply pushed_flags).
  destruct (ncli (my m) =? 0) eqn:E; simpl.
  - rewrite if_on_intena. destruct (if_on (flags m)) eqn:Ef.
    + by apply sti_cli.
    + by apply cli_off.
  - apply cli_off, Hoff. lia.
Qed.

Lemma acquire_taken l m : mwf m -> 0 <= ncli (my m) -> locked (get_lock l m) ≠ 0 ->
  acquire l m = if decide (lcpu (get_lock l m) = Some (hart m))
                then Panic "acquire" else Blocked.
Proof.
  intros Hw Hn Hl. unfold acquire.
  rewrite (bind_ok _ _ _ tt (pushed m)) by (by apply pushcli_ok).
  erewrite bind_ok.
  2: { apply holding_ok; auto using pushed_mwf.
       - rewrite pushed_flags by done. apply if_on_cli.
       - rewrite pushed_my by done. simpl. lia. }
  change (get_lock l (pushed m)) with (get_lock l m).
  change (hart (pushed m)) with (hart m).
  case_decide; [by rewrite bool_decide_true|].
  rewrite bool_decide_false by tauto.
  erewrite bind_ok by done. change (get_lock l (pushed m)) with (get_lock l m).
  destruct (locked (get_lock l m) =? 0) eqn:E; [lia|done].
Qed.

Lemma mwf_set_hart h m : mwf m -> (h < ncpu m)%nat -> mwf (set_hart h m).
Proof. intros [] Hh. by constructor. Qed.

Lemma my_acq_any l m i : mwf m -> (forall j, (j < ncpu m)%nat -> 0 <= ncli (the_cpu m j)) ->
  (i < ncpu m)%nat -> 0 <= ncli (the_cpu (acq l m) i).
Proof.
  intros Hw Hn Hi. destruct (decide (i = hart m)) as [->|Hne].
  - change (the_cpu (acq l m) (hart m)) with (my (acq l m)). rewrite acq_my by done.
    simpl. specialize (Hn (hart m) Hi). unfold my. lia.
  - unfold acq. change (the_cpu (set_lock ?l ?k ?m) i) with (the_cpu m i).
    unfold pushed. rewrite the_cpu_set_ne by done. by apply Hn.
Qed.

(** Mutual exclusion: once a CPU has acquired [l], every later attempt to
    acquire it fails until it is released: another CPU spins, and the same
    CPU panics. *)
Theorem acquire_excludes l m m' h :
  mwf m -> (forall i, (i < ncpu m)%nat -> 0 <= ncli (the_cpu m i)) ->
  acquire l m = Ok tt m' -> (h < ncpu m)%nat ->
  acquire l (set_hart h m') =
  if decide (h = hart m) then Panic "acquire" else Blocked.
Proof.
  intros Hw Hn Hacq Hh.
  assert (0 <= ncli (my m)) as Hn0 by (apply Hn; apply Hw).
  destruct (decide (locked (get_lock l m) = 0)) as [Hl|Hl].
  2: { rewrite acquire_taken in Hacq by done. by case_decide. }
  rewrite acquire_ok in Hacq by done. injection Hacq as <-.
  rewrite acquire_taken.
  - change (get_lock l (set_hart h (acq l m))) with (get_lock l (acq l m)).
    destruct (acq_held l m) as [_ Hc]. rewrite Hc. simpl.
    change (hart (acq l m)) with (hart m).
    repeat case_decide; naive_solver.
  - apply mwf_set_hart; [by apply acq_mwf|done].
  - by apply my_acq_any.
  - change (get_lock l (set_hart h (acq l m))) with (get_lock l (acq l m)).
    destruct (acq_held l m) as [Ho _]. rewrite Ho. done.
Qed.

(** Acquiring a free lock and releasing it succeeds and gives the machine
    back: interrupts as before, the nesting depth as before, the lock free,
    and no other lock touched. *)
Theorem acquire_release_restores l m :
  mwf m -> 0 <= ncli (my m) -> (0 < ncli (my m) -> if_on (flags m) = false) ->
  free l m ->
  exists m', (acquire l;; release l) m = Ok tt m' /\
    flags m' = flags m /\ ncli (my m') = ncli (my m) /\
    cproc (my m') = cproc (my m) /\ free l m' /\
    (forall l', l' ≠ l -> get_lock l' m' = get_lock l' m).
Proof.
  intros Hw Hn Hoff Hfree. exists (rel l (acq l m)).
  pose proof (acq_mwf l m Hw) as Hw'. split_and!.
  - erewrite bind_ok by (by apply acquire_ok). apply release_ok; [done| | |].
    + by apply acq_flags.
    + rewrite acq_my by done. simpl. lia.
    + apply acq_held.
  - by apply rel_acq_flags.
  - rewrite rel_my, acq_my by done. simpl. lia.
  - by rewrite rel_my, acq_my by done.
  - apply rel_free.
  - intros l' Hne. rewrite rel_lock, decide_False by done. by apply acq_other.
Qed.

(** [op] run [n] times. *)
Fixpoint times (n : nat) (op : M mach unit) : M mach unit :=
  match n with O => mret tt | S n => op;; times n op end.

Lemma times_pushcli n m : mwf m -> 0 <= ncli (my m) ->
  exists m1, times n pushcli m = Ok tt m1 /\ mwf m1 /\
    ncli (my m1) = ncli (my m) + Z.of_nat n /\
    (n = O -> m1 = m) /\
    ((0 < n)%nat -> flags m1 = Z.land (flags m) (Z.lnot FL_IF) /\
      intena (my m1) = if ncli (my m) =? 0 then Z.land (flags m) FL_IF
                       else intena (my m)).
Proof.
  revert m. induction n as [|n IH]; intros m Hw Hn.
  { exists m. split_and!; [done|done|lia|done|lia]. }
  simpl. rewrite (bind_ok _ _ _ tt (pushed m)) by (by apply pushcli_ok).
  destruct (IH (pushed m)) as (m1 & -> & Hw1 & Hn1 & H0 & Hs);
    [by apply pushed_mwf | rewrite pushed_my by done; simpl; lia |].
  rewrite !pushed_my, !pushed_flags in * by done. simpl in *.
  exists m1. split_and!; [done|done|lia|lia|]. intros _.
  destruct n as [|n].
  - rewrite (H0 eq_refl), pushed_flags, pushed_my by done. done.
  - destruct Hs as [-> ->]; [lia|].
    rewrite (cli_off _ (if_on_cli _)).
    replace (ncli (my m) + 1 =? 0) with false by lia. done.
Qed.

Lemma times_popcli n m : mwf m -> if_on (flags m) = false ->
  (0 < n)%nat -> Z.of_nat n <= ncli (my m) ->
  exists m2, times n popcli m = Ok tt m2 /\ mwf m2 /\
    ncli (my m2) = ncli (my m) - Z.of_nat n /\
    flags m2 = if (ncli (my m2) =? 0) && negb (intena (my m) =? 0)
               then Z.lor (flags m) FL_IF else flags m.
Proof.
  revert m. induction n as [|n IH]; intros m Hw Hf H0 Hn; [lia|].
  simpl. rewrite (bind_ok _ _ _ tt (popped m)) by (apply popcli_ok; done || lia).
  pose proof (popped_mwf m Hw) as Hw'. pose proof (popped_my m Hw) as Hmy.
  assert (flags (popped m) = if (ncli (my m) - 1 =? 0) && negb (intena (my m) =? 0)
    then Z.lor (flags m) FL_IF else flags m) as Hfl.
  { unfold popped. destruct (_ && _); [|done]. rewrite flags_set; [done|mwf_tac]. }
  destruct n as [|n].
  - exists (popped m). rewrite Hfl, Hmy. split_and!; [done|done|done|].
    unfold set_ncli. simpl. done.
  - replace (ncli (my m) - 1 =? 0) with false in Hfl by lia. simpl in Hfl.
    destruct (IH (popped m)) as (m2 & Hm2 & Hw2 & Hn2 & Hf2);
      rewrite ?Hfl, ?Hmy in *; simpl in *; [done|done|lia|lia|].
    exists m2. split_and!; [done|done|lia|done].
Qed.

(** [pushcli]/[popcli] are matched: after [n] of the first, interrupts stay
    off through the first [n-1] of the second, and the [n]-th gives back the
    interrupt flag there was at the start, on or off. *)
Theorem pushcli_popcli_matched n k m :
  mwf m -> 0 <= ncli (my m) -> (0 < ncli (my m) -> if_on (flags m) = false) ->
  (0 < k <= n)%nat ->
  exists m1 m2, times n pushcli m = Ok tt m1 /\ times k popcli m1 = Ok tt m2 /\
    if_on (flags m1) = false /\
    ncli (my m2) = ncli (my m) + Z.of_nat n - Z.of_nat k /\
    ((k < n)%nat -> if_on (flags m2) = false) /\
    (k = n -> flags m2 = flags m).
Proof.
  intros Hw Hn Hoff Hk.
  destruct (times_pushcli n m Hw Hn) as (m1 & E1 & Hw1 & Hn1 & _ & Hs).
  destruct Hs as [Hf1 Hi1]; [lia|].
  assert (if_on (flags m1) = false) as Hoff1 by (rewrite Hf1; apply if_on_cli).
  destruct (times_popcli k m1 Hw1 Hoff1) as (m2 & E2 & _ & Hn2 & Hf2); [lia|lia|].
  exists m1, m2. split_and!; [done|done|done|lia| |].
  - intros Hlt. replace (ncli (my m2) =? 0) with false in Hf2 by lia.
    by rewrite Hf2.
  - intros ->. rewrite Hf2, Hi1, Hf1. rewrite Hn2, Hn1.
    replace (ncli (my m) + Z.of_nat n - Z.of_nat n) with (ncli (my m)) by lia.
    destruct (ncli (my m) =? 0) eqn:E; simpl.
    + rewrite if_on_intena. destruct (if_on (flags m)) eqn:Ef.
      * by apply sti_cli.
      * by apply cli_off.
    + apply cli_off, Hoff. lia.
Qed.

(** ** Critical sections

    [msec ls m]: the executing CPU holds exactly the locks [ls], nobody
    holds any other, and the machine is in order.  This is the view the
    rest of the kernel takes of the machine. *)
Record msec (ls : gset lockid) (m : mach) : Prop := mkMsec {
  msec_wf : mwf m;
  msec_ncli : ncli (my m) = Z.of_nat (size ls);
  msec_others : forall i, i ≠ hart m -> ncli (the_cpu m i) = 0;
  msec_off : ls ≠ ∅ -> if_on (flags m) = false;
  msec_held : forall l, l ∈ ls -> held l m;
  msec_free : forall l, l ∉ ls -> free l m }.

(** Which process each CPU runs. *)
Definition cps (m : mach) : list (option nat) := take (ncpu m) (cproc <$> cpus m).

(** What locking leaves alone. *)
Definition mframe (m m' : mach) : Prop :=
  hart m' = hart m /\ ncpu m' = ncpu m /\ cps m' = cps m.

#[global] Instance mframe_preorder : PreOrder mframe.
Proof.
  split.
  - done.
  - intros m1 m2 m3 (?&?&?) (?&?&?). unfold mframe. split_and!; congruence.
Qed.

Lemma cps_set_cpu c m :
  cproc c = cproc (my m) -> cps (set_cpu (hart m) c m) = cps m.
Proof.
  intros Hc. unfold cps. simpl. f_equal. rewrite list_fmap_insert, Hc.
  destruct (cpus m !! hart m) as [x|] eqn:E.
  - apply list_insert_id. unfold my, the_cpu. rewrite E. simpl.
    by rewrite list_lookup_fmap, E.
  - apply list_insert_ge. rewrite length_fmap. by apply lookup_ge_None.
Qed.

Lemma pushed_frame m : mframe m (pushed m).
Proof.
  unfold mframe. split_and!; try done. unfold pushed.
  by apply (cps_set_cpu _ (set_flags _ m)).
Qed.

Lemma popped_frame m : mframe m (popped m).
Proof.
  unfold mframe, popped. destruct (_ && _); split_and!; try done;
    by apply cps_set_cpu.
Qed.

Lemma pushed_others m i : i ≠ hart m -> the_cpu (pushed m) i = the_cpu m i.
Proof. intros. unfold pushed. by rewrite the_cpu_set_ne. Qed.

Lemma popped_others m i : i ≠ hart m -> the_cpu (popped m) i = the_cpu m i.
Proof.
  intros. unfold popped. destruct (_ && _); cbn [the_cpu set_flags cpus];
    apply the_cpu_set_ne; done.
Qed.

Lemma lockset_size (ls : gset lockid) : ls ≠ ∅ -> size ls ≠ 0%nat.
Proof. intros H Hs. apply H, leibniz_equiv, size_empty_inv, Hs. Qed.

Section msec.
Context (P : failure -> Prop).

Lemma wp_acquire ls l m Q :
  msec ls m -> l ∉ ls ->
  (forall m', msec ({[l]} ∪ ls) m' -> mframe m m' -> Q tt m') ->
  wp P (acquire l) m Q.
Proof.
  intros [Hw Hn Ho Hoff Hh Hf] Hl HQ.
  apply (wp_ok _ _ _ tt (acq l m)); [apply acquire_ok; auto; lia|].
  apply HQ.
  - constructor.
    + by apply acq_mwf.
    + rewrite acq_my by done. simpl. rewrite Hn, size_union by set_solver.
      rewrite size_singleton. lia.
    + intros i Hi. change (the_cpu (acq l m) i) with (the_cpu (pushed m) i).
      rewrite pushed_others by done. by apply Ho.
    + intros _. by apply acq_flags.
    + intros l' Hl'. destruct (decide (l' = l)) as [->|Hne]; [apply acq_held|].
      unfold held. rewrite acq_other by done. apply Hh. set_solver.
    + intros l' Hl'. unfold free. rewrite acq_other by set_solver. apply Hf. set_solver.
  - apply pushed_frame.
Qed.

Lemma wp_release ls l m Q :
  msec ls m -> l ∈ ls ->
  (forall m', msec (ls ∖ {[l]}) m' -> mframe m m' -> Q tt m') ->
  wp P (release l) m Q.
Proof.
  intros [Hw Hn Ho Hoff Hh Hf] Hl HQ.
  assert (ls = {[l]} ∪ ls ∖ {[l]}) as Hls by (by apply union_difference_singleton_L).
  assert (size ls = S (size (ls ∖ {[l]}))) as Hsz.
  { rewrite Hls at 1. rewrite size_union by set_solver. by rewrite size_singleton. }
  apply (wp_ok _ _ _ tt (rel l m)).
  { apply release_ok; auto; [apply Hoff; set_solver|lia]. }
  apply HQ.
  - constructor.
    + by apply rel_mwf.
    + rewrite rel_my by done. simpl. lia.
    + intros i Hi. unfold rel. rewrite rel_hart in Hi. rewrite popped_others by done.
      by apply Ho.
    + intros Hne. rewrite rel_flags by done.
      assert (size (ls ∖ {[l]}) ≠ 0%nat) by (by apply lockset_size).
      replace (ncli (my m) - 1 =? 0) with false by lia. simpl. apply Hoff. set_solver.
    + intros l' Hl'. unfold held. rewrite rel_lock, decide_False by set_solver.
      rewrite rel_hart. apply Hh. set_solver.
    + intros l' Hl'. destruct (decide (l' = l)) as [->|Hne]; [apply rel_free|].
      unfold free. rewrite rel_lock, decide_False by done. apply Hf. set_solver.
  - apply (popped_frame (set_lock l _ m)).
Qed.

(** A read of the executing CPU's record between [pushcli] and [popcli]. *)
Lemma wp_peek {A} (f : cpu -> A) ls m Q :
  msec ls m -> (forall c d, apicid c = apicid d -> cproc c = cproc d -> f c = f d) ->
  (forall m', msec ls m' -> mframe m m' -> Q (f (my m)) m') ->
  wp P (pushcli;; x ← mycpu_get f; popcli;; mret x) m Q.
Proof.
  intros [Hw Hn Ho Hoff Hh Hf] Hext HQ.
  pose proof (pushed_mwf m Hw) as Hw1.
  assert (if_on (flags (pushed m)) = false) as Hoff1
    by (rewrite pushed_flags by done; apply if_on_cli).
  apply (wp_ok _ _ _ (f (my m)) (popped (pushed m))).
  { rewrite (bind_ok _ _ _ tt (pushed m)) by (by apply pushcli_ok).
    rewrite (bind_ok _ _ _ (f (my m)) (pushed m)).
    2: { rewrite mycpu_get_ok by done. f_equal. apply Hext; by rewrite pushed_my. }
    rewrite (bind_ok _ _ _ tt (popped (pushed m))); [done|].
    apply popcli_ok; [done|done|]. rewrite pushed_my by done. simpl. lia. }
  apply HQ.
  - constructor.
    + by apply popped_mwf.
    + rewrite popped_my, pushed_my by done. simpl. lia.
    + intros i Hi. replace (hart (popped (pushed m))) with (hart m) in Hi
        by (unfold popped; by destruct (_ && _)).
      rewrite popped_others, pushed_others by done. by apply Ho.
    + intros Hne. assert (1 <= ncli (my m)).
      { assert (size ls ≠ 0%nat) by (by apply lockset_size). lia. }
      rewrite popped_pushed by auto. by apply Hoff.
    + intros l Hl. specialize (Hh l Hl). unfold held, popped.
      by destruct (_ && _).
    + intros l Hl. specialize (Hf l Hl). unfold free, popped. by destruct (_ && _).
  - etrans; [apply pushed_frame|apply popped_frame].
Qed.

End msec.

(** ** Changes of the machine outside of locking *)

Lemma msec_flags e m : msec ∅ m -> msec ∅ (set_flags e m).
Proof. intros [Hw Hn Ho Hoff Hh Hf]. constructor; simpl; try done. by apply mwf_set_flags. Qed.

Lemma msec_initlock l name m : msec ∅ m -> msec ∅ (set_lock l (mkLock 0 name None (pcs (get_lock l m))) m).
Proof.
  intros [Hw Hn Ho Hoff Hh Hf]. constructor; try done.
  - by apply mwf_set_lock.
  - intros l' _. unfold free. destruct (decide (l' = l)) as [->|Hne].
    + unfold get_lock, set_lock. simpl. by rewrite lookup_insert_eq.
    + unfold get_lock, set_lock. simpl. rewrite lookup_insert_ne by done. by apply Hf.
Qed.

(** Another CPU goes on. *)
Lemma msec_hart h m : msec ∅ m -> (h < ncpu m)%nat -> msec ∅ (set_hart h m).
Proof.
  intros [Hw Hn Ho Hoff Hh Hf] Hlt.
  assert (forall i, ncli (the_cpu m i) = 0) as H0.
  { intros i. destruct (decide (i = hart m)) as [->|]; [|by apply Ho]. exact Hn. }
  constructor; simpl; try done.
  - destruct Hw. by constructor.
  - apply H0.
  - intros i _. apply H0.
Qed.

Lemma msec_upd_cpu ls f m :
  msec ls m -> apicid (f (my m)) = apicid (my m) -> ncli (f (my m)) = ncli (my m) ->
  msec ls (upd_cpu (hart m) f m).
Proof.
  intros [Hw Hn Ho Hoff Hh Hf] Ha Hc. constructor; try done.
  - apply mwf_set_cpu; [done|]. exact Ha.
  - unfold upd_cpu. rewrite my_set_cpu by mwf_tac. fold (my m). congruence.
  - intros i Hi. unfold upd_cpu. rewrite the_cpu_set_ne by done. by apply Ho.
Qed.

Lemma cps_upd_cpu f m : mwf m ->
  cps (upd_cpu (hart m) f m) = <[hart m := cproc (f (my m))]> (cps m).
Proof.
  intros Hw. unfold cps, upd_cpu. simpl. rewrite list_fmap_insert.
  pose proof (mwf_hart _ Hw). rewrite take_insert_lt by done. done.
Qed.

Lemma mframe_flags e m : mframe m (set_flags e m).
Proof. done. Qed.
