(* ===== verification/ProcState.v ===== *)
(** * Process and kernel state: proc.h, param.h, the globals of proc.c and trap.c

    [proc] is one slot of [ptable.proc], [kstate] the globals the process
    code works on.  Pointers into the process table are indices, other
    pointers are addresses with 0 for null.

    Context switches.  [swtch()] saves where a process stopped inside the
    kernel and goes on somewhere else.  A process only ever stops inside
    [sched()], called from [yield], [sleep] or [exit], or has not run yet;
    [kont] is what is saved: which of these calls it is in, the local
    variables still needed after it, and for [sleep] the caller to return
    to.

    [KEnv] is the interface to the rest of the kernel that proc.c and trap.c
    call: physical memory and page tables, files and inodes, the log, device
    interrupt handlers, and user memory ([ubyte e pgdir a] is the byte a
    process with that page table sees at [a]).  The state of that part is
    the type [E]. *)

From stdpp Require Import base numbers gmap list strings.
From S2P Require Import Prelude CString Spinlock.
Open Scope Z_scope.

(** param.h, proc.c, mmu.h *)
Definition NPROC : nat := 64.
Definition KSTACKSIZE : Z := 4096.
Definition NOFILE : nat := 16.
Definition ROOTDEV : Z := 1.
Definition DEFAULT_QUANTUM : Z := 10.
Definition NSEM : nat := 10.
Definition PGSIZE : Z := 4096.
Definition SEG_UCODE : Z := 3.
Definition SEG_UDATA : Z := 4.
Definition DPL_USER : Z := 3.

Inductive procstate := UNUSED | EMBRYO | SLEEPING | RUNNABLE | RUNNING | ZOMBIE.

#[global] Instance procstate_eq_dec : EqDecision procstate.
Proof. solve_decision. Defined.

(** The value of the C enumerator. *)
Definition procstate_int (st : procstate) : Z :=
  match st with
  | UNUSED => 0 | EMBRYO => 1 | SLEEPING => 2 | RUNNABLE => 3 | RUNNING => 4
  | ZOMBIE => 5
  end.

(** [void *chan]: the address of the thing a process sleeps on. *)
Inductive chan := Cnull | Cticks | Cproc (i : nat) | Csem (i : nat) | Caddr (a : Z).

#[global] Instance chan_eq_dec : EqDecision chan.
Proof. solve_decision. Defined.

(** A [struct proc *] used as a channel. *)
Definition chan_proc (p : option nat) : chan :=
  match p with Some i => Cproc i | None => Cnull end.

Record pstats := mkStats {
  cpu_ticks : Z;
  sleep_ticks : Z;
  runnable_ticks : Z;
  ctx_switches : Z;
  preemptions : Z }.

(** [memset(&p->stats, 0, sizeof(p->stats))] *)
Definition stats0 : pstats := mkStats 0 0 0 0 0.

Definition inc_cpu_ticks (t : pstats) : pstats :=
  mkStats (u32 (cpu_ticks t + 1)) (sleep_ticks t) (runnable_ticks t)
    (ctx_switches t) (preemptions t).

Definition inc_sleep_ticks (t : pstats) : pstats :=
  mkStats (cpu_ticks t) (u32 (sleep_ticks t + 1)) (runnable_ticks t)
    (ctx_switches t) (preemptions t).

Definition inc_runnable_ticks (t : pstats) : pstats :=
  mkStats (cpu_ticks t) (sleep_ticks t) (u32 (runnable_ticks t + 1))
    (ctx_switches t) (preemptions t).

Definition inc_ctx_switches (t : pstats) : pstats :=
  mkStats (cpu_ticks t) (sleep_ticks t) (runnable_ticks t)
    (u32 (ctx_switches t + 1)) (preemptions t).

Definition inc_preemptions (t : pstats) : pstats :=
  mkStats (cpu_ticks t) (sleep_ticks t) (runnable_ticks t) (ctx_switches t)
    (u32 (preemptions t + 1)).

(** [struct trapframe] (x86.h), without its padding. *)
Record trapframe := mkTf {
  tf_edi : Z; tf_esi : Z; tf_ebp : Z; tf_oesp : Z;
  tf_ebx : Z; tf_edx : Z; tf_ecx : Z; tf_eax : Z;
  tf_gs : Z; tf_fs : Z; tf_es : Z; tf_ds : Z;
  tf_trapno : Z; tf_err : Z; tf_eip : Z; tf_cs : Z;
  tf_eflags : Z; tf_esp : Z; tf_ss : Z }.

(** [memset(p->tf, 0, sizeof( *p->tf))] *)
Definition tf0 : trapframe := mkTf 0 0 0 0 0 0 0 0 0 0 0 0 0 0 0 0 0 0 0.

Definition set_eax (v : Z) (t : trapframe) : trapframe :=
  mkTf (tf_edi t) (tf_esi t) (tf_ebp t) (tf_oesp t) (tf_ebx t) (tf_edx t)
    (tf_ecx t) v (tf_gs t) (tf_fs t) (tf_es t) (tf_ds t) (tf_trapno t)
    (tf_err t) (tf_eip t) (tf_cs t) (tf_eflags t) (tf_esp t) (tf_ss t).

(** The caller [sleep()] returns to: the loop of [wait], of [sem_wait(id)],
    or of [sys_sleep] with its [n] and [ticks0]. *)
Inductive after :=
  | AWait
  | ASemWait (id : Z)
  | ASysSleep (n ticks0 : Z).

(** Where a process that is not running goes on: at the start of [forkret],
    after [sched()] in the [yield()] of [trap(tf)] ([cs] is [tf->cs]), or
    after [sched()] in [sleep(chan, lk)]; [intena] is the local variable of
    [sched()].  [exit] never comes back from [sched()]. *)
Inductive kont :=
  | KForkret
  | KYield (cs : Z) (intena : Z)
  | KSleep (lk : lockid) (intena : Z) (k : after)
  | KExit.

Record proc := mkProc {
  sz : Z;
  pgdir : Z;
  kstack : Z;
  state : procstate;
  pid : Z;
  parent : option nat;
  tf : trapframe;
  pcontext : option kont;
  pchan : chan;
  killed : Z;
  ofile : list Z;
  cwd : Z;
  pname : list Z;
  timeslice : Z;
  ticks_used : Z;
  stats : pstats }.

Definition set_sz (v : Z) (p : proc) : proc :=
  mkProc v (pgdir p) (kstack p) (state p) (pid p) (parent p) (tf p)
    (pcontext p) (pchan p) (killed p) (ofile p) (cwd p) (pname p)
    (timeslice p) (ticks_used p) (stats p).

Definition set_pgdir (v : Z) (p : proc) : proc :=
  mkProc (sz p) v (kstack p) (state p) (pid p) (parent p) (tf p) (pcontext p)
    (pchan p) (killed p) (ofile p) (cwd p) (pname p) (timeslice p)
    (ticks_used p) (stats p).

Definition set_kstack (v : Z) (p : proc) : proc :=
  mkProc (sz p) (pgdir p) v (state p) (pid p) (parent p) (tf p) (pcontext p)
    (pchan p) (killed p) (ofile p) (cwd p) (pname p) (timeslice p)
    (ticks_used p) (stats p).

Definition set_state (v : procstate) (p : proc) : proc :=
  mkProc (sz p) (pgdir p) (kstack p) v (pid p) (parent p) (tf p) (pcontext p)
    (pchan p) (killed p) (ofile p) (cwd p) (pname p) (timeslice p)
    (ticks_used p) (stats p).

Definition set_pid (v : Z) (p : proc) : proc :=
  mkProc (sz p) (pgdir p) (kstack p) (state p) v (parent p) (tf p)
    (pcontext p) (pchan p) (killed p) (ofile p) (cwd p) (pname p)
    (timeslice p) (ticks_used p) (stats p).

Definition set_parent (v : option nat) (p : proc) : proc :=
  mkProc (sz p) (pgdir p) (kstack p) (state p) (pid p) v (tf p) (pcontext p)
    (pchan p) (killed p) (ofile p) (cwd p) (pname p) (timeslice p)
    (ticks_used p) (stats p).

Definition set_tf (v : trapframe) (p : proc) : proc :=
  mkProc (sz p) (pgdir p) (kstack p) (state p) (pid p) (parent p) v
    (pcontext p) (pchan p) (killed p) (ofile p) (cwd p) (pname p)
    (timeslice p) (ticks_used p) (stats p).

Definition set_pcontext (v : option kont) (p : proc) : proc :=
  mkProc (sz p) (pgdir p) (kstack p) (state p) (pid p) (parent p) (tf p) v
    (pchan p) (killed p) (ofile p) (cwd p) (pname p) (timeslice p)
    (ticks_used p) (stats p).

Definition set_pchan (v : chan) (p : proc) : proc :=
  mkProc (sz p) (pgdir p) (kstack p) (state p) (pid p) (parent p) (tf p)
    (pcontext p) v (killed p) (ofile p) (cwd p) (pname p) (timeslice p)
    (ticks_used p) (stats p).

Definition set_killed (v : Z) (p : proc) : proc :=
  mkProc (sz p) (pgdir p) (kstack p) (state p) (pid p) (parent p) (tf p)
    (pcontext p) (pchan p) v (ofile p) (cwd p) (pname p) (timeslice p)
    (ticks_used p) (stats p).

Definition set_ofile (v : list Z) (p : proc) : proc :=
  mkProc (sz p) (pgdir p) (kstack p) (state p) (pid p) (parent p) (tf p)
    (pcontext p) (pchan p) (killed p) v (cwd p) (pname p) (timeslice p)
    (ticks_used p) (stats p).

Definition set_cwd (v : Z) (p : proc) : proc :=
  mkProc (sz p) (pgdir p) (kstack p) (state p) (pid p) (parent p) (tf p)
    (pcontext p) (pchan p) (killed p) (ofile p) v (pname p) (timeslice p)
    (ticks_used p) (stats p).

Definition set_pname (v : list Z) (p : proc) : proc :=
  mkProc (sz p) (pgdir p) (kstack p) (state p) (pid p) (parent p) (tf p)
    (pcontext p) (pchan p) (killed p) (ofile p) (cwd p) v (timeslice p)
    (ticks_used p) (stats p).

Definition set_timeslice (v : Z) (p : proc) : proc :=
  mkProc (sz p) (pgdir p) (kstack p) (state p) (pid p) (parent p) (tf p)
    (pcontext p) (pchan p) (killed p) (ofile p) (cwd p) (pname p) v
    (ticks_used p) (stats p).

Definition set_ticks_used (v : Z) (p : proc) : proc :=
  mkProc (sz p) (pgdir p) (kstack p) (state p) (pid p) (parent p) (tf p)
    (pcontext p) (pchan p) (killed p) (ofile p) (cwd p) (pname p)
    (timeslice p) v (stats p).

Definition set_stats (v : pstats) (p : proc) : proc :=
  mkProc (sz p) (pgdir p) (kstack p) (state p) (pid p) (parent p) (tf p)
    (pcontext p) (pchan p) (killed p) (ofile p) (cwd p) (pname p)
    (timeslice p) (ticks_used p) v.

Record semaphore := mkSem {
  svalue : Z;
  allocated : Z }.

Record kstate (E : Type) := mkK {
  mc : mach;
  procs : list proc;
  rr_next : Z;
  initproc : option nat;
  nextpid : Z;
  sems : list semaphore;
  ticks : Z;
  first_run : Z;
  env : E }.
Arguments mc {E} _.
Arguments procs {E} _.
Arguments rr_next {E} _.
Arguments initproc {E} _.
Arguments nextpid {E} _.
Arguments sems {E} _.
Arguments ticks {E} _.
Arguments first_run {E} _.
Arguments env {E} _.
Arguments mkK {E}.

Definition set_mc {E} (v : mach) (s : kstate E) : kstate E :=
  mkK v (procs s) (rr_next s) (initproc s) (nextpid s) (sems s) (ticks s) (first_run s) (env s).

Definition set_procs {E} (v : list proc) (s : kstate E) : kstate E :=
  mkK (mc s) v (rr_next s) (initproc s) (nextpid s) (sems s) (ticks s) (first_run s) (env s).

Definition set_rr_next {E} (v : Z) (s : kstate E) : kstate E :=
  mkK (mc s) (procs s) v (initproc s) (nextpid s) (sems s) (ticks s) (first_run s) (env s).

Definition set_initproc {E} (v : option nat) (s : kstate E) : kstate E :=
  mkK (mc s) (procs s) (rr_next s) v (nextpid s) (sems s) (ticks s) (first_run s) (env s).

Definition set_nextpid {E} (v : Z) (s : kstate E) : kstate E :=
  mkK (mc s) (procs s) (rr_next s) (initproc s) v (sems s) (ticks s) (first_run s) (env s).

Definition set_sems {E} (v : list semaphore) (s : kstate E) : kstate E :=
  mkK (mc s) (procs s) (rr_next s) (initproc s) (nextpid s) v (ticks s) (first_run s) (env s).

Definition set_ticks {E} (v : Z) (s : kstate E) : kstate E :=
  mkK (mc s) (procs s) (rr_next s) (initproc s) (nextpid s) (sems s) v (first_run s) (env s).

Definition set_first_run {E} (v : Z) (s : kstate E) : kstate E :=
  mkK (mc s) (procs s) (rr_next s) (initproc s) (nextpid s) (sems s) (ticks s) v (env s).

Definition set_env {E} (v : E) (s : kstate E) : kstate E :=
  mkK (mc s) (procs s) (rr_next s) (initproc s) (nextpid s) (sems s) (ticks s) (first_run s) v.

(** A slot of the zeroed process table, and the semaphore table at boot. *)
Definition proc0 : proc :=
  mkProc 0 0 0 UNUSED 0 None tf0 None Cnull 0 (replicate NOFILE 0) 0
    (replicate 16 0) 0 0 stats0.

Definition sem0 : semaphore := mkSem 0 0.

Definition the_proc {E} (s : kstate E) (i : nat) : proc := default proc0 (procs s !! i).

Definition the_sem {E} (s : kstate E) (i : nat) : semaphore := default sem0 (sems s !! i).

(** What the process code calls in the rest of the kernel. *)
Class KEnv (E : Type) := {
  kalloc : M E Z;
  kfree : Z -> M E unit;
  setupkvm : M E Z;
  inituvm : Z -> M E unit;
  allocuvm : Z -> Z -> Z -> M E Z;
  deallocuvm : Z -> Z -> Z -> M E Z;
  copyuvm : Z -> Z -> M E Z;
  freevm : Z -> M E unit;
  switchuvm : Z -> Z -> M E unit;
  switchkvm : M E unit;
  filedup : Z -> M E Z;
  fileclose : Z -> M E unit;
  idup : Z -> M E Z;
  iput : Z -> M E unit;
  namei_root : M E Z;
  begin_op : M E unit;
  end_op : M E unit;
  iinit : Z -> M E unit;
  initlog : Z -> M E unit;
  ideintr : M E unit;
  kbdintr : M E unit;
  uartintr : M E unit;
  lapiceoi : M E unit;
  ubyte : E -> Z -> Z -> Z;
  ustore : Z -> Z -> list Z -> M E unit }.
