(* ===== verification/Proc.v ===== *)
(** * Processes: proc.c

    Every function of proc.c as an operation on [kstate].  A function that
    may give up the CPU inside [sched()] is cut there: the part before
    [swtch()] ends with [Gone], after saving the process's [kont]; the part
    after it is in [resume].  [Back v] is a normal return of [v]. *)

From stdpp Require Import base numbers gmap list strings.
From S2P Require Import Prelude CString Spinlock ProcState.
Open Scope Z_scope.

Inductive flow (A : Type) := Back (a : A) | Gone.
Arguments Back {A} a.
Arguments Gone {A}.

Section proc_c.
Context {E : Type} `{EV : KEnv E}.

(** Spinlock operations on the machine of the kernel, calls into the rest of
    the kernel, and updates of one slot of the table. *)
Definition on_mach {A} (op : M mach A) : M (kstate E) A := zoom mc set_mc op.

Definition on_env {A} (op : M E A) : M (kstate E) A := zoom env set_env op.

Definition acq_k (l : lockid) : M (kstate E) unit := on_mach (acquire l).

Definition rel_k (l : lockid) : M (kstate E) unit := on_mach (release l).

Definition upd_proc (i : nat) (f : proc -> proc) : M (kstate E) unit :=
  modify (fun s => set_procs (alter f i (procs s)) s).

Definition get_proc {A} (i : nat) (f : proc -> A) : M (kstate E) A :=
  gets (fun s => f (the_proc s i)).

Definition pinit : M (kstate E) unit :=
  on_mach (initlock Lptable "ptable");;
  on_mach (initlock Lsem "semlock");;
  modify (set_rr_next 0).

Definition myproc : M (kstate E) (option nat) :=
  on_mach (
    pushcli;;
    p ← mycpu_get cproc;
    popcli;;
    mret p).

(** [struct proc *curproc = myproc()] where the code goes on to use
    [curproc->...]: a null pointer faults, and [trap()] panics. *)
Definition curproc : M (kstate E) nat :=
  p ← myproc;
  match p with Some i => mret i | None => panic "trap" end.

Definition allocproc : M (kstate E) (option nat) :=
  acq_k Lptable;;
  ps ← gets procs;
  match list_find (fun p => state p = UNUSED) ps with
  | None => rel_k Lptable;; mret None
  | Some (i, _) =>
      upd_proc i (set_state EMBRYO);;
      n ← gets nextpid;
      upd_proc i (set_pid n);;
      modify (set_nextpid (i32 (n + 1)));;
      upd_proc i (set_timeslice DEFAULT_QUANTUM);;
      upd_proc i (set_ticks_used 0);;
      upd_proc i (set_stats stats0);;
      rel_k Lptable;;
      ks ← on_env kalloc;
      upd_proc i (set_kstack ks);;
      if ks =? 0 then
        acq_k Lptable;;
        upd_proc i (set_state UNUSED);;
        upd_proc i (set_pid 0);;
        rel_k Lptable;;
        mret None
      else
        upd_proc i (set_pcontext (Some KForkret));;
        mret (Some i)
  end.

(** The trap frame [userinit] builds: user segments, interrupts on, a stack
    of one page, entry at address 0. *)
Definition userinit_tf : trapframe :=
  let ds := Z.lor (SEG_UDATA ≪ 3) DPL_USER in
  mkTf 0 0 0 0 0 0 0 0 0 0 ds ds 0 0 0 (Z.lor (SEG_UCODE ≪ 3) DPL_USER)
    FL_IF PGSIZE ds.

(** The bytes of "initcode". *)
Definition initcode_name : list Z := [105; 110; 105; 116; 99; 111; 100; 101; 0].

(** A list of bytes as the memory a pointer reads. *)
Definition rd (l : list Z) (i : nat) : Z := default 0 (l !! i).

Definition userinit : M (kstate E) unit :=
  p ← allocproc;
  modify (set_initproc p);;
  match p with
  | None => panic "trap"
  | Some i =>
      pd ← on_env setupkvm;
      upd_proc i (set_pgdir pd);;
      if pd =? 0 then panic "userinit: out of memory?" else
      on_env (inituvm pd);;
      upd_proc i (set_sz PGSIZE);;
      upd_proc i (set_tf userinit_tf);;
      upd_proc i (fun p => set_pname (KString.safestrcpy (pname p) (rd initcode_name) 16) p);;
      d ← on_env namei_root;
      upd_proc i (set_cwd d);;
      acq_k Lptable;;
      upd_proc i (set_state RUNNABLE);;
      rel_k Lptable
  end.

Definition growproc (n : Z) : M (kstate E) Z :=
  c ← curproc;
  sz0 ← get_proc c sz;
  pd ← get_proc c pgdir;
  if 0 <? n then
    r ← on_env (allocuvm pd sz0 (u32 (sz0 + n)));
    if r =? 0 then mret (-1) else
    upd_proc c (set_sz (u32 r));;
    ks ← get_proc c kstack;
    on_env (switchuvm ks pd);;
    mret 0
  else if n <? 0 then
    r ← on_env (deallocuvm pd sz0 (u32 (sz0 + n)));
    if r =? 0 then mret (-1) else
    upd_proc c (set_sz (u32 r));;
    ks ← get_proc c kstack;
    on_env (switchuvm ks pd);;
    mret 0
  else
    upd_proc c (set_sz sz0);;
    ks ← get_proc c kstack;
    on_env (switchuvm ks pd);;
    mret 0.

(** [for(i = 0; i < NOFILE; i++) if(curproc->ofile[i])
      np->ofile[i] = filedup(curproc->ofile[i]);] *)
Definition dup_files (c n : nat) : M (kstate E) unit :=
  mfor (seq 0 NOFILE) (fun i =>
    f ← get_proc c (fun p => default 0 (ofile p !! i));
    when (negb (f =? 0))
      (g ← on_env (filedup f);
       upd_proc n (fun p => set_ofile (<[i := g]> (ofile p)) p))).

Definition fork : M (kstate E) Z :=
  c ← curproc;
  np ← allocproc;
  match np with
  | None => mret (-1)
  | Some n =>
      pd0 ← get_proc c pgdir;
      sz0 ← get_proc c sz;
      pd ← on_env (copyuvm pd0 sz0);
      upd_proc n (set_pgdir pd);;
      if pd =? 0 then
        ks ← get_proc n kstack;
        on_env (kfree ks);;
        upd_proc n (set_kstack 0);;
        acq_k Lptable;;
        upd_proc n (set_state UNUSED);;
        upd_proc n (set_pid 0);;
        rel_k Lptable;;
        mret (-1)
      else
        upd_proc n (set_sz sz0);;
        upd_proc n (set_parent (Some c));;
        t ← get_proc c tf;
        upd_proc n (set_tf t);;
        upd_proc n (fun p => set_tf (set_eax 0 (tf p)) p);;
        dup_files c n;;
        d ← get_proc c cwd;
        d' ← on_env (idup d);
        upd_proc n (set_cwd d');;
        nm ← get_proc c pname;
        upd_proc n (fun p => set_pname (KString.safestrcpy (pname p) (rd nm) 16) p);;
        id ← get_proc n pid;
        acq_k Lptable;;
        upd_proc n (set_timeslice DEFAULT_QUANTUM);;
        upd_proc n (set_ticks_used 0);;
        upd_proc n (set_stats stats0);;
        upd_proc n (set_state RUNNABLE);;
        rel_k Lptable;;
        mret id
  end.

(** [wakeup1]: with ptable.lock held. *)
Definition wake (c : chan) (p : proc) : proc :=
  if decide (state p = SLEEPING /\ pchan p = c)
  then set_ticks_used 0 (set_state RUNNABLE p) else p.

Definition wakeup1 (c : chan) : M (kstate E) unit :=
  modify (fun s => set_procs (wake c <$> procs s) s).

Definition wakeup (c : chan) : M (kstate E) unit :=
  acq_k Lptable;;
  wakeup1 c;;
  rel_k Lptable.

(** [sched] up to its [swtch]: the checks, then the context saved. *)
Definition sched_enter (k : Z -> kont) : M (kstate E) unit :=
  p ← curproc;
  h ← on_mach (holding Lptable);
  if negb (h : bool) then panic "sched ptable.lock" else
  n ← on_mach (mycpu_get ncli);
  if negb (n =? 1) then panic "sched locks" else
  st ← get_proc p state;
  if decide (st = RUNNING) then panic "sched running" else
  e ← on_mach readeflags;
  if if_on e then panic "sched interruptible" else
  i ← on_mach (mycpu_get intena);
  upd_proc p (set_pcontext (Some (k i))).

(** [sched] after its [swtch]: [mycpu()->intena = intena]. *)
Definition sched_exit (i : Z) : M (kstate E) unit :=
  on_mach (mycpu_upd (set_intena i)).

(** [exit]: closing the files. *)
Definition close_files (c : nat) : M (kstate E) unit :=
  mfor (seq 0 NOFILE) (fun fd =>
    f ← get_proc c (fun p => default 0 (ofile p !! fd));
    when (negb (f =? 0))
      (on_env (fileclose f);;
       upd_proc c (fun p => set_ofile (<[fd := 0]> (ofile p)) p))).

(** [exit]: passing abandoned children to init, one table entry at a time:
    a zombie child wakes init, which changes later and earlier entries. *)
Definition reparent (c : nat) : M (kstate E) unit :=
  mfor (seq 0 NPROC) (fun j =>
    par ← get_proc j parent;
    when (bool_decide (par = Some c))
      (ip ← gets initproc;
       upd_proc j (set_parent ip);;
       st ← get_proc j state;
       when (bool_decide (st = ZOMBIE)) (wakeup1 (chan_proc ip)))).

Definition exit : M (kstate E) unit :=
  c ← curproc;
  ip ← gets initproc;
  if decide (ip = Some c) then panic "init exiting" else
  close_files c;;
  on_env begin_op;;
  d ← get_proc c cwd;
  on_env (iput d);;
  on_env end_op;;
  upd_proc c (set_cwd 0);;
  acq_k Lptable;;
  par ← get_proc c parent;
  wakeup1 (chan_proc par);;
  reparent c;;
  upd_proc c (set_state ZOMBIE);;
  sched_enter (fun _ => KExit).

(** [sleep] up to the [swtch] in its [sched()]. *)
Definition sleep_enter (c : chan) (lk : lockid) (k : after) : M (kstate E) unit :=
  p ← myproc;
  match p with
  | None => panic "sleep"
  | Some i =>
      when (bool_decide (lk ≠ Lptable)) (acq_k Lptable;; rel_k lk);;
      upd_proc i (set_pchan c);;
      upd_proc i (set_state SLEEPING);;
      upd_proc i (set_ticks_used 0);;
      sched_enter (fun intena => KSleep lk intena k)
  end.

(** [sleep] from there on; [p] is its local variable. *)
Definition sleep_exit (p : nat) (lk : lockid) (intena : Z) : M (kstate E) unit :=
  sched_exit intena;;
  upd_proc p (set_pchan Cnull);;
  when (bool_decide (lk ≠ Lptable)) (rel_k Lptable;; acq_k lk).

(** What [wait] does to the slot of a zombie child; [name[0] = 0]. *)
Definition reap (p : proc) : proc :=
  set_state UNUSED (set_stats stats0 (set_ticks_used 0
    (set_timeslice DEFAULT_QUANTUM (set_killed 0
      (set_pname (<[0%nat := 0]> (pname p)) (set_parent None (set_pid 0 p))))))).

(** One turn of the [for(;;)] of [wait], with ptable.lock held: reap the first
    zombie child, or fail, or sleep. *)
Definition wait_loop (c : nat) : M (kstate E) (flow Z) :=
  ps ← gets procs;
  match list_find (fun p => parent p = Some c /\ state p = ZOMBIE) ps with
  | Some (j, p) =>
      let id := pid p in
      on_env (kfree (kstack p));;
      upd_proc j (set_kstack 0);;
      on_env (freevm (pgdir p));;
      upd_proc j reap;;
      rel_k Lptable;;
      mret (Back id)
  | None =>
      let havekids := existsb (fun p => bool_decide (parent p = Some c)) ps in
      kd ← get_proc c killed;
      if negb havekids || negb (kd =? 0) then
        rel_k Lptable;;
        mret (Back (-1))
      else
        sleep_enter (Cproc c) Lptable AWait;;
        mret Gone
  end.

Definition wait : M (kstate E) (flow Z) :=
  c ← curproc;
  acq_k Lptable;;
  wait_loop c.

(** The circular search of [scheduler]: the first of the [n] entries from
    offset [i] on that is RUNNABLE. *)
Fixpoint rr_scan (ps : list proc) (rr : Z) (i : Z) (n : nat) : option nat :=
  match n with
  | O => None
  | S n =>
      let index := Z.to_nat (Z.rem (rr + i) (Z.of_nat NPROC)) in
      if decide (state (default proc0 (ps !! index)) = RUNNABLE)
      then Some index else rr_scan ps rr (i + 1) n
  end.

#[global] Arguments rr_scan : simpl never.

(** [scheduler]: [c->proc = 0] before the loop. *)
Definition scheduler_start : M (kstate E) nat :=
  c ← on_mach mycpu;
  on_mach (modify (upd_cpu c (set_cproc None)));;
  mret c.

(** One turn of the [for(;;)] of [scheduler] on CPU [c], up to [swtch]:
    [Some i] when it switches to process [i]; with no process to run the
    lock is released and the turn is over. *)
Definition scheduler_pick (c : nat) : M (kstate E) (option nat) :=
  on_mach sti;;
  acq_k Lptable;;
  ps ← gets procs;
  rr ← gets rr_next;
  match rr_scan ps rr 0 NPROC with
  | Some i =>
      modify (set_rr_next (Z.rem (Z.of_nat i + 1) (Z.of_nat NPROC)));;
      upd_proc i (set_ticks_used 0);;
      on_mach (modify (upd_cpu c (set_cproc (Some i))));;
      upd_proc i (set_state RUNNING);;
      upd_proc i (fun p => set_stats (inc_ctx_switches (stats p)) p);;
      ks ← get_proc i kstack;
      pd ← get_proc i pgdir;
      on_env (switchuvm ks pd);;
      mret (Some i)
  | None =>
      rel_k Lptable;;
      mret None
  end.

(** The rest of the turn, when the process has switched back. *)
Definition scheduler_back (c : nat) : M (kstate E) unit :=
  on_env switchkvm;;
  on_mach (modify (upd_cpu c (set_cproc None)));;
  rel_k Lptable.

(** [yield] up to its [swtch], and from there on. *)
Definition yield_enter (cs : Z) : M (kstate E) unit :=
  acq_k Lptable;;
  c ← curproc;
  upd_proc c (set_state RUNNABLE);;
  sched_enter (KYield cs).

Definition yield_exit (intena : Z) : M (kstate E) unit :=
  sched_exit intena;;
  rel_k Lptable.

Definition forkret : M (kstate E) unit :=
  rel_k Lptable;;
  f ← gets first_run;
  when (negb (f =? 0))
    (modify (set_first_run 0);;
     on_env (iinit ROOTDEV);;
     on_env (initlog ROOTDEV)).

Definition kill (id : Z) : M (kstate E) Z :=
  acq_k Lptable;;
  ps ← gets procs;
  match list_find (fun p => pid p = id) ps with
  | Some (i, _) =>
      upd_proc i (set_killed 1);;
      st ← get_proc i state;
      when (bool_decide (st = SLEEPING))
        (upd_proc i (set_state RUNNABLE);;
         upd_proc i (set_ticks_used 0));;
      rel_k Lptable;;
      mret 0
  | None =>
      rel_k Lptable;;
      mret (-1)
  end.

(** The line [procdump] prints for a process: pid, state name, name, and for
    a sleeping process the return addresses on its stack up to the first 0;
    [ebp i] is the frame pointer in the saved context of process [i]. *)
Definition statename (st : procstate) : string :=
  match st with
  | UNUSED => "unused" | EMBRYO => "embryo" | SLEEPING => "sleep "
  | RUNNABLE => "runble" | RUNNING => "run   " | ZOMBIE => "zombie"
  end.

Definition procdump_line (stk : Z -> Z) (ebp : Z) (p : proc)
  : option (Z * string * list Z * list Z) :=
  if decide (state p = UNUSED) then None else
  Some (pid p, statename (state p), KString.cstr (pname p),
    if decide (state p = SLEEPING)
    then KString.cstr (getcallerpcs stk (u32 (ebp + 8))) else []).

Definition procdump (ebp : nat -> Z) : M (kstate E) (list (Z * string * list Z * list Z)) :=
  gets (fun s => omap id (imap (fun i p => procdump_line (kstk (mc s)) (ebp i) p) (procs s))).

(** The lookup shared by the calls that take a pid: a live process. *)
Definition live_pid (id : Z) (p : proc) : Prop := pid p = id /\ state p ≠ UNUSED.

#[global] Instance live_pid_dec id p : Decision (live_pid id p).
Proof. unfold live_pid. apply _. Defined.

Definition setquantum_pid (id quantum : Z) : M (kstate E) Z :=
  if (quantum <? 1) || (100 <? quantum) then mret (-1) else
  acq_k Lptable;;
  ps ← gets procs;
  match list_find (live_pid id) ps with
  | Some (i, _) =>
      upd_proc i (set_timeslice quantum);;
      upd_proc i (set_ticks_used 0);;
      rel_k Lptable;;
      mret 0
  | None =>
      rel_k Lptable;;
      mret (-1)
  end.

Definition gettimeslice (id : Z) : M (kstate E) Z :=
  acq_k Lptable;;
  ps ← gets procs;
  match list_find (live_pid id) ps with
  | Some (i, p) =>
      let ts := timeslice p in
      rel_k Lptable;;
      mret ts
  | None =>
      rel_k Lptable;;
      mret (-1)
  end.

(** [getpstats(pid, out)]: the return value and what is stored in [*out]. *)
Definition getpstats (id out : Z) : M (kstate E) (Z * option pstats) :=
  if out =? 0 then mret (-1, None) else
  acq_k Lptable;;
  ps ← gets procs;
  match list_find (live_pid id) ps with
  | Some (i, p) =>
      rel_k Lptable;;
      mret (0, Some (stats p))
  | None =>
      rel_k Lptable;;
      mret (-1, None)
  end.

Definition tick_sleep (p : proc) : proc :=
  if decide (state p = SLEEPING) then set_stats (inc_sleep_ticks (stats p)) p
  else if decide (state p = RUNNABLE) then set_stats (inc_runnable_ticks (stats p)) p
  else p.

Definition update_sleep_stats : M (kstate E) unit :=
  acq_k Lptable;;
  modify (fun s => set_procs (tick_sleep <$> procs s) s);;
  rel_k Lptable.

(** [struct procinfo] *)
Record procinfo := mkInfo {
  pi_pid : Z;
  pi_name : list Z;
  pi_state : Z;
  pi_timeslice : Z;
  pi_cpu_ticks : Z;
  pi_sleep_ticks : Z;
  pi_ctx_switches : Z;
  pi_preemptions : Z }.

(** [getprocinfo(pid, out)]; [name0] is what [out->name] held. *)
Definition getprocinfo (id out : Z) (name0 : list Z) : M (kstate E) (Z * option procinfo) :=
  if out =? 0 then mret (-1, None) else
  acq_k Lptable;;
  ps ← gets procs;
  match list_find (live_pid id) ps with
  | Some (i, p) =>
      let info := mkInfo (pid p) (KString.safestrcpy name0 (rd (pname p)) 16)
        (procstate_int (state p)) (timeslice p) (cpu_ticks (stats p))
        (sleep_ticks (stats p)) (ctx_switches (stats p)) (preemptions (stats p)) in
      rel_k Lptable;;
      mret (0, Some info)
  | None =>
      rel_k Lptable;;
      mret (-1, None)
  end.

(** Semaphores. *)
Definition upd_sem (i : nat) (f : semaphore -> semaphore) : M (kstate E) unit :=
  modify (fun s => set_sems (alter f i (sems s)) s).

Definition sem_init (value : Z) : M (kstate E) Z :=
  acq_k Lsem;;
  ss ← gets sems;
  match list_find (fun x => allocated x = 0) ss with
  | Some (i, _) =>
      upd_sem i (fun x => mkSem (svalue x) 1);;
      upd_sem i (fun x => mkSem value (allocated x));;
      rel_k Lsem;;
      mret (Z.of_nat i)
  | None =>
      rel_k Lsem;;
      mret (-1)
  end.

(** [id < 0 || id >= NSEM || !semtable[id].allocated] *)
Definition sem_bad (id : Z) : M (kstate E) bool :=
  gets (fun s => (id <? 0) || (Z.of_nat NSEM <=? id) ||
                 (allocated (the_sem s (Z.to_nat id)) =? 0)).

(** The [while] of [sem_wait] and what follows, with semlock held. *)
Definition sem_wait_loop (id : Z) : M (kstate E) (flow Z) :=
  v ← gets (fun s => svalue (the_sem s (Z.to_nat id)));
  if v <=? 0 then
    sleep_enter (Csem (Z.to_nat id)) Lsem (ASemWait id);;
    mret Gone
  else
    upd_sem (Z.to_nat id) (fun x => mkSem (i32 (svalue x - 1)) (allocated x));;
    rel_k Lsem;;
    mret (Back 0).

Definition sem_wait (id : Z) : M (kstate E) (flow Z) :=
  bad ← sem_bad id;
  if (bad : bool) then mret (Back (-1)) else
  acq_k Lsem;;
  sem_wait_loop id.

Definition sem_signal (id : Z) : M (kstate E) Z :=
  bad ← sem_bad id;
  if (bad : bool) then mret (-1) else
  acq_k Lsem;;
  upd_sem (Z.to_nat id) (fun x => mkSem (i32 (svalue x + 1)) (allocated x));;
  wakeup (Csem (Z.to_nat id));;
  rel_k Lsem;;
  mret 0.

End proc_c.
