(* ===== verification/Syscall.v ===== *)
(** * System calls: syscall.c and sysproc.c

    Argument fetching from user memory with its bounds checks, the system
    calls on processes, scheduling and semaphores, and the dispatcher.  The
    file-system calls (sysfile.c) are the argument [sys_file] of the
    dispatcher. *)

From stdpp Require Import base numbers gmap list strings.
From S2P Require Import Prelude CString Spinlock ProcState Proc.
Open Scope Z_scope.

(** A little-endian 32-bit load, as an [int]; and the bytes of a word. *)
Definition le32 (b : Z -> Z) (a : Z) : Z :=
  b a + b (a + 1) * 256 + b (a + 2) * 65536 + b (a + 3) * 16777216.

Definition bytes32 (w : Z) : list Z :=
  [u8 w; u8 (w ≫ 8); u8 (w ≫ 16); u8 (w ≫ 24)].

Section syscall_c.
Context {E : Type} `{EV : KEnv E}.

(** The memory the current process sees. *)
Definition umem (c : nat) (s : kstate E) : Z -> Z := ubyte (env s) (pgdir (the_proc s c)).

(** [None] is a return of -1; [Some v] a return of 0 with [*ip = v]. *)
Definition fetchint (addr : Z) : M (kstate E) (option Z) :=
  c ← curproc;
  z ← get_proc c sz;
  if (z <=? addr) || (z <? u32 (addr + 4)) then mret None else
  w ← gets (fun s => le32 (umem c s) addr);
  mret (Some (i32 w)).

(** [for(s = *pp; s < ep; s++) if( *s == 0) return s - *pp;] over the [n]
    bytes left below [ep]. *)
Fixpoint fetchstr_loop (b : Z -> Z) (a : Z) (len : Z) (n : nat) : option Z :=
  match n with
  | O => None
  | S n => if b (a + len) =? 0 then Some len else fetchstr_loop b a (len + 1) n
  end.

(** [Some len]: the string's length, [*pp] being [addr]; [None]: -1. *)
Definition fetchstr (addr : Z) : M (kstate E) (option Z) :=
  c ← curproc;
  z ← get_proc c sz;
  if z <=? addr then mret None else
  gets (fun s => fetchstr_loop (umem c s) addr 0 (Z.to_nat (z - addr))).

Definition argint (n : Z) : M (kstate E) (option Z) :=
  c ← curproc;
  t ← get_proc c tf;
  fetchint (u32 (tf_esp t + 4 + 4 * n)).

(** [Some p]: a return of 0 with [*pp = p]. *)
Definition argptr (n size : Z) : M (kstate E) (option Z) :=
  c ← curproc;
  a ← argint n;
  match a with
  | None => mret None
  | Some i =>
      z ← get_proc c sz;
      if (size <? 0) || (z <=? u32 i) || (z <? u32 (u32 i + size))
      then mret None else mret (Some (u32 i))
  end.

(** [Some (p, len)]: a return of [len] with [*pp = p]. *)
Definition argstr (n : Z) : M (kstate E) (option (Z * Z)) :=
  a ← argint n;
  match a with
  | None => mret None
  | Some addr =>
      r ← fetchstr (u32 addr);
      mret (match r with Some len => Some (u32 addr, len) | None => None end)
  end.

(** The shape of most calls: fetch the arguments, fail with -1 if one cannot
    be fetched. *)
Definition arg1 (k : Z -> M (kstate E) (flow Z)) : M (kstate E) (flow Z) :=
  a ← argint 0;
  match a with Some v => k v | None => mret (Back (-1)) end.

Definition back (m : M (kstate E) Z) : M (kstate E) (flow Z) := v ← m; mret (Back v).

Definition sys_fork : M (kstate E) (flow Z) := back fork.

Definition sys_exit : M (kstate E) (flow Z) := exit;; mret Gone.

Definition sys_wait : M (kstate E) (flow Z) := wait.

Definition sys_kill : M (kstate E) (flow Z) := arg1 (fun id => back (kill id)).

Definition sys_getpid : M (kstate E) (flow Z) :=
  c ← curproc; v ← get_proc c pid; mret (Back v).

Definition sys_sbrk : M (kstate E) (flow Z) :=
  arg1 (fun n =>
    c ← curproc;
    addr ← get_proc c sz;
    r ← growproc n;
    if r <? 0 then mret (Back (-1)) else mret (Back (i32 addr))).

(** The [while] of [sys_sleep] and what follows, with tickslock held; the
    comparison is between unsigned integers. *)
Definition sys_sleep_loop (c : nat) (n ticks0 : Z) : M (kstate E) (flow Z) :=
  t ← gets ticks;
  if u32 (t - ticks0) <? u32 n then
    kd ← get_proc c killed;
    if negb (kd =? 0) then
      rel_k Lticks;;
      mret (Back (-1))
    else
      sleep_enter Cticks Lticks (ASysSleep n ticks0);;
      mret Gone
  else
    rel_k Lticks;;
    mret (Back 0).

Definition sys_sleep : M (kstate E) (flow Z) :=
  arg1 (fun n =>
    c ← curproc;
    acq_k Lticks;;
    ticks0 ← gets ticks;
    sys_sleep_loop c n ticks0).

Definition sys_uptime : M (kstate E) (flow Z) :=
  acq_k Lticks;;
  xticks ← gets ticks;
  rel_k Lticks;;
  mret (Back (i32 xticks)).

Definition sys_getyear : M (kstate E) (flow Z) := mret (Back 2025).

Definition sys_setquantum_pid : M (kstate E) (flow Z) :=
  arg1 (fun id =>
    q ← argint 1;
    match q with
    | None => mret (Back (-1))
    | Some quantum => back (setquantum_pid id quantum)
    end).

Definition sys_gettimeslice : M (kstate E) (flow Z) :=
  arg1 (fun id => back (gettimeslice id)).

(** The bytes of a [struct procinfo] (40) and of a [struct pstats] (20). *)
Definition procinfo_bytes (x : procinfo) : list Z :=
  bytes32 (pi_pid x) ++ pi_name x ++ bytes32 (pi_state x) ++
  bytes32 (pi_timeslice x) ++ bytes32 (pi_cpu_ticks x) ++
  bytes32 (pi_sleep_ticks x) ++ bytes32 (pi_ctx_switches x) ++
  bytes32 (pi_preemptions x).

Definition pstats_bytes (x : pstats) : list Z :=
  bytes32 (cpu_ticks x) ++ bytes32 (sleep_ticks x) ++ bytes32 (runnable_ticks x) ++
  bytes32 (ctx_switches x) ++ bytes32 (preemptions x).

(** A store through a user pointer of the current process. *)
Definition user_store (c : nat) (a : Z) (bs : option (list Z)) : M (kstate E) unit :=
  match bs with
  | None => mret tt
  | Some bs => pd ← get_proc c pgdir; on_env (ustore pd a bs)
  end.

Definition sys_getprocinfo : M (kstate E) (flow Z) :=
  arg1 (fun id =>
    p ← argptr 1 40;
    match p with
    | None => mret (Back (-1))
    | Some a =>
        c ← curproc;
        name0 ← gets (fun s => (fun i => umem c s (a + 4 + Z.of_nat i)) <$> seq 0 16);
        r ← getprocinfo id a name0;
        user_store c a (procinfo_bytes <$> r.2);;
        mret (Back r.1)
    end).

Definition sys_getpstats : M (kstate E) (flow Z) :=
  arg1 (fun id =>
    p ← argptr 1 20;
    match p with
    | None => mret (Back (-1))
    | Some a =>
        c ← curproc;
        r ← getpstats id a;
        user_store c a (pstats_bytes <$> r.2);;
        mret (Back r.1)
    end).

Definition sys_sem_init : M (kstate E) (flow Z) := arg1 (fun v => back (sem_init v)).

Definition sys_sem_wait : M (kstate E) (flow Z) := arg1 sem_wait.

Definition sys_sem_signal : M (kstate E) (flow Z) :=
  arg1 (fun id => back (sem_signal id)).

(** The table [syscalls[]]. *)
Definition syscalls (sys_file : Z -> M (kstate E) (flow Z)) (num : Z)
  : option (M (kstate E) (flow Z)) :=
  match num with
  | 1 => Some sys_fork | 2 => Some sys_exit | 3 => Some sys_wait
  | 6 => Some sys_kill | 11 => Some sys_getpid | 12 => Some sys_sbrk
  | 13 => Some sys_sleep | 14 => Some sys_uptime | 22 => Some sys_getyear
  | 23 => Some sys_setquantum_pid | 24 => Some sys_gettimeslice
  | 25 => Some sys_getpstats | 26 => Some sys_getprocinfo
  | 27 => Some sys_sem_init | 28 => Some sys_sem_wait
  | 29 => Some sys_sem_signal
  | 4 | 5 | 7 | 8 | 9 | 10 | 15 | 16 | 17 | 18 | 19 | 20 | 21 => Some (sys_file num)
  | _ => None
  end.

(** The end of [syscall()]: [curproc->tf->eax = ...]. *)
Definition set_result (c : nat) (v : Z) : M (kstate E) unit :=
  upd_proc c (fun p => set_tf (set_eax (u32 v) (tf p)) p).

Definition syscall (sys_file : Z -> M (kstate E) (flow Z)) : M (kstate E) (flow unit) :=
  c ← curproc;
  t ← get_proc c tf;
  let num := i32 (tf_eax t) in
  match (if (0 <? num) && (num <? 30) then syscalls sys_file num else None) with
  | Some f =>
      r ← f;
      match r with
      | Back v => set_result c v;; mret (Back tt)
      | Gone => mret Gone
      end
  | None => set_result c (-1);; mret (Back tt)
  end.

End syscall_c.
