(* ===== verification/Trap.v ===== *)
(** * Traps and the CPUs: trap.c, and the scheduler loop of proc.c

    [trap] is the handler of every interrupt, exception and system call.
    [resume] goes on with a process [scheduler()] switched to, from where
    [swtch()] had left it.  [cpu_turn] and [cpu_trap] are what one CPU does
    between two points where it holds no lock: a turn of the scheduler's
    loop, and a trap taken by the process it runs. *)

From stdpp Require Import base numbers gmap list strings.
From S2P Require Import Prelude CString Spinlock ProcState Proc Syscall.
Open Scope Z_scope.

(** traps.h *)
Definition T_SYSCALL : Z := 64.
Definition T_IRQ0 : Z := 32.
Definition IRQ_TIMER : Z := 0.
Definition IRQ_KBD : Z := 1.
Definition IRQ_COM1 : Z := 4.
Definition IRQ_IDE : Z := 14.
Definition IRQ_SPURIOUS : Z := 31.

(** mmu.h [struct gatedesc] and [SETGATE]. *)
Record gatedesc := mkGate {
  off_15_0 : Z; gate_cs : Z; gate_args : Z; gate_rsv1 : Z; gate_type : Z;
  gate_s : Z; gate_dpl : Z; gate_p : Z; off_31_16 : Z }.

Definition STS_IG32 : Z := 14.
Definition STS_TG32 : Z := 15.
Definition SEG_KCODE : Z := 1.

Definition SETGATE (istrap : bool) (sel off d : Z) : gatedesc :=
  mkGate (Z.land (u32 off) 65535) sel 0 0 (if istrap then STS_TG32 else STS_IG32)
    0 d 1 (u32 off ≫ 16).

(** [tvinit]: the interrupt descriptor table, from the entry points. *)
Definition idt (vectors : Z -> Z) (i : Z) : gatedesc :=
  if i =? T_SYSCALL
  then SETGATE true (SEG_KCODE ≪ 3) (vectors T_SYSCALL) DPL_USER
  else SETGATE false (SEG_KCODE ≪ 3) (vectors i) 0.

Section trap_c.
Context {E : Type} `{EV : KEnv E}.
Context (sys_file : Z -> M (kstate E) (flow Z)).

(** [if(myproc() && myproc()->killed && (tf->cs&3) == DPL_USER) exit();] *)
Definition killed_check (cs : Z) : M (kstate E) (flow unit) :=
  p ← myproc;
  match p with
  | None => mret (Back tt)
  | Some i =>
      kd ← get_proc i killed;
      if negb (kd =? 0) && (Z.land cs 3 =? DPL_USER)
      then exit;; mret Gone
      else mret (Back tt)
  end.

(** The global tick, on CPU 0. *)
Definition global_tick : M (kstate E) unit :=
  id ← on_mach cpuid;
  when (id =? 0)
    (acq_k Lticks;;
     t ← gets ticks;
     modify (set_ticks (u32 (t + 1)));;
     wakeup Cticks;;
     rel_k Lticks;;
     update_sleep_stats).

(** What the timer interrupt does to the running process's accounts. *)
Definition quantum_tick (p : proc) : proc :=
  set_ticks_used (ticks_used p + 1) (set_stats (inc_cpu_ticks (stats p)) p).

(** Round Robin preemption: [true] when the process yields. *)
Definition preempt (trapno cs : Z) : M (kstate E) bool :=
  p ← myproc;
  match p with
  | None => mret false
  | Some i =>
      st ← get_proc i state;
      if bool_decide (st = RUNNING) && (trapno =? T_IRQ0 + IRQ_TIMER) then
        upd_proc i quantum_tick;;
        used ← get_proc i ticks_used;
        ts ← get_proc i timeslice;
        if ts <=? used then
          upd_proc i (set_ticks_used 0);;
          upd_proc i (fun p => set_stats (inc_preemptions (stats p)) p);;
          yield_enter cs;;
          mret true
        else mret false
      else mret false
  end.

(** The [switch] on the trap number. *)
Definition irq (trapno cs : Z) : M (kstate E) unit :=
  if trapno =? T_IRQ0 + IRQ_TIMER then
    global_tick;; on_env lapiceoi
  else if trapno =? T_IRQ0 + IRQ_IDE then
    on_env ideintr;; on_env lapiceoi
  else if trapno =? T_IRQ0 + IRQ_IDE + 1 then mret tt
  else if trapno =? T_IRQ0 + IRQ_KBD then
    on_env kbdintr;; on_env lapiceoi
  else if trapno =? T_IRQ0 + IRQ_COM1 then
    on_env uartintr;; on_env lapiceoi
  else if (trapno =? T_IRQ0 + 7) || (trapno =? T_IRQ0 + IRQ_SPURIOUS) then
    on_env lapiceoi
  else
    p ← myproc;
    match p with
    | None => panic "trap"
    | Some i =>
        if Z.land cs 3 =? 0 then panic "trap"
        else upd_proc i (set_killed 1)
    end.

(** The last check of [trap] for a system call. *)
Definition syscall_tail (c : nat) : M (kstate E) (flow unit) :=
  kd ← get_proc c killed;
  if negb (kd =? 0) then exit;; mret Gone else mret (Back tt).

Definition trap (t : trapframe) : M (kstate E) (flow unit) :=
  if tf_trapno t =? T_SYSCALL then
    c ← curproc;
    kd ← get_proc c killed;
    if negb (kd =? 0) then exit;; mret Gone else
    upd_proc c (set_tf t);;
    r ← syscall sys_file;
    match r with
    | Gone => mret Gone
    | Back _ => syscall_tail c
    end
  else
    irq (tf_trapno t) (tf_cs t);;
    r ← killed_check (tf_cs t);
    match r with
    | Gone => mret Gone
    | Back _ =>
        y ← preempt (tf_trapno t) (tf_cs t);
        if (y : bool) then mret Gone else killed_check (tf_cs t)
    end.

(** A system call that went to sleep comes back with [f]: [syscall()] stores
    the result and [trap()] makes its last check. *)
Definition syscall_done (c : nat) (f : flow Z) : M (kstate E) (flow unit) :=
  match f with
  | Gone => mret Gone
  | Back v => set_result c v;; syscall_tail c
  end.

(** A process the scheduler switched to goes on. *)
Definition resume (i : nat) : M (kstate E) (flow unit) :=
  k ← get_proc i pcontext;
  match k with
  | Some KForkret => forkret;; mret (Back tt)
  | Some (KYield cs intena) => yield_exit intena;; killed_check cs
  | Some (KSleep lk intena a) =>
      sleep_exit i lk intena;;
      f ← match a with
          | AWait => wait_loop i
          | ASemWait id => sem_wait_loop id
          | ASysSleep n ticks0 => sys_sleep_loop i n ticks0
          end;
      syscall_done i f
  | Some KExit => panic "zombie exit"
  | None => panic "trap"
  end.

(** Return to user mode: [iret] loads the flags of the trap frame. *)
Definition iret (e : Z) : M (kstate E) unit := on_mach (modify (set_flags e)).

(** A turn of the scheduler's loop on the executing CPU, [c] being its
    [struct cpu]; the process it switches to runs until it returns to user
    mode or gives the CPU back. *)
Definition cpu_turn (c : nat) : M (kstate E) unit :=
  p ← scheduler_pick c;
  match p with
  | None => mret tt
  | Some i =>
      f ← resume i;
      match f with
      | Gone => scheduler_back c
      | Back _ => t ← get_proc i tf; iret (tf_eflags t)
      end
  end.

(** A trap on the executing CPU.  An interrupt gate clears the interrupt
    flag, the system call's trap gate does not. *)
Definition cpu_trap (c : nat) (t : trapframe) : M (kstate E) unit :=
  when (gate_type (idt (fun _ => 0) (tf_trapno t)) =? STS_IG32) (on_mach cli);;
  f ← trap t;
  match f with
  | Gone => scheduler_back c
  | Back _ => iret (tf_eflags t)
  end.

End trap_c.
