(* ===== verification/ProcRules.v ===== *)
(** * Rules for the building blocks of the process code

    Weakest-precondition rules for taking and releasing locks, finding the
    current process, [sched()], and for the calls of proc.c that only look
    up and update table entries. *)

From stdpp Require Import base numbers gmap list strings.
From S2P Require Import Prelude CString Spinlock ProcState Proc.
Open Scope Z_scope.

Section rules.
Context {E : Type} `{EV : KEnv E} (P : failure -> Prop).
Implicit Types (s : kstate E) (m : mach).

(** The process the executing CPU runs. *)
Definition running s : option nat := cproc (my (mc s)).

Lemma wp_acq_k ls l s Q :
  msec ls (mc s) -> l ∉ ls ->
  (forall m, msec ({[l]} ∪ ls) m -> mframe (mc s) m -> Q tt (set_mc m s)) ->
  wp P (acq_k l) s Q.
Proof. intros H Hl HQ. apply wp_zoom. by eapply wp_acquire. Qed.

Lemma wp_rel_k ls l s Q :
  msec ls (mc s) -> l ∈ ls ->
  (forall m, msec (ls ∖ {[l]}) m -> mframe (mc s) m -> Q tt (set_mc m s)) ->
  wp P (rel_k l) s Q.
Proof. intros H Hl HQ. apply wp_zoom. by eapply wp_release. Qed.

(** The common nestings, with the lock sets computed. *)
Lemma wp_acq1 l s Q :
  msec ∅ (mc s) ->
  (forall m, msec {[l]} m -> mframe (mc s) m -> Q tt (set_mc m s)) ->
  wp P (acq_k l) s Q.
Proof.
  intros H HQ. eapply wp_acq_k; [done|set_solver|]. intros m. rewrite union_empty_r_L.
  apply HQ.
Qed.

Lemma wp_rel1 l s Q :
  msec {[l]} (mc s) ->
  (forall m, msec ∅ m -> mframe (mc s) m -> Q tt (set_mc m s)) ->
  wp P (rel_k l) s Q.
Proof.
  intros H HQ. eapply wp_rel_k; [done|set_solver|]. intros m. rewrite difference_diag_L.
  apply HQ.
Qed.

Lemma wp_myproc ls s Q :
  msec ls (mc s) ->
  (forall m, msec ls m -> mframe (mc s) m -> Q (running s) (set_mc m s)) ->
  wp P myproc s Q.
Proof.
  intros H HQ. apply wp_zoom. eapply wp_peek; [done|by intros|]. intros. by apply HQ.
Qed.

Lemma wp_curproc ls s i Q :
  msec ls (mc s) -> running s = Some i ->
  (forall m, msec ls m -> mframe (mc s) m -> Q i (set_mc m s)) ->
  wp P curproc s Q.
Proof.
  intros H Hr HQ. apply wp_bind. eapply wp_myproc; [done|]. intros m Hm Hf.
  rewrite Hr. apply wp_ret. by apply HQ.
Qed.

Lemma wp_upd i f s (Q : unit -> kstate E -> Prop) :
  Q tt (set_procs (alter f i (procs s)) s) -> wp P (upd_proc i f) s Q.
Proof. done. Qed.

(** The CPU's current process in terms of what locking preserves. *)
Lemma running_cps s ls : msec ls (mc s) ->
  cps (mc s) !! hart (mc s) = Some (running s).
Proof.
  intros [Hw _ _ _ _ _]. unfold cps, running, my, the_cpu.
  pose proof (mwf_hart _ Hw). pose proof (mwf_cpus _ Hw).
  rewrite lookup_take_lt by lia. rewrite list_lookup_fmap.
  destruct (lookup_lt_is_Some_2 (cpus (mc s)) (hart (mc s))) as [c Hc]; [lia|].
  by rewrite Hc.
Qed.

Lemma running_frame ls ls' s m : msec ls (mc s) -> msec ls' m -> mframe (mc s) m ->
  cproc (my m) = running s.
Proof.
  intros H1 H2 (Hh & Hn & Hc).
  pose proof (running_cps s ls H1) as E1.
  pose proof (running_cps (set_mc m s) ls' H2) as E2. simpl in E2.
  rewrite Hh, Hc, E1 in E2. by injection E2.
Qed.

Lemma running_mc ls ls' s m : msec ls (mc s) -> msec ls' m -> mframe (mc s) m ->
  running (set_mc m s) = running s.
Proof. apply running_frame. Qed.

Lemma wp_env {A} (op : M E A) s (Q : A -> kstate E -> Prop) :
  wp P op (env s) (fun _ _ => True) ->
  (forall a e, Q a (set_env e s)) -> wp P (on_env op) s Q.
Proof. intros H HQ. apply wp_zoom. eapply wp_mono; [done|]. intros; apply HQ. Qed.

(** ... with the result. *)
Lemma wp_env_run {A} (op : M E A) s (Q : A -> kstate E -> Prop) :
  wp P op (env s) (fun _ _ => True) ->
  (forall a e, op (env s) = Ok a e -> Q a (set_env e s)) -> wp P (on_env op) s Q.
Proof. unfold wp, on_env, zoom. destruct (op (env s)); auto. Qed.

(** [sched()] up to its [swtch], called as it should be: ptable.lock the one
    lock held and the process no longer RUNNING. *)
Lemma wp_sched_enter k i p s Q :
  msec {[Lptable]} (mc s) -> running s = Some i ->
  procs s !! i = Some p -> state p ≠ RUNNING ->
  (forall m n, msec {[Lptable]} m -> mframe (mc s) m ->
    Q tt (set_procs (alter (set_pcontext (Some (k n))) i (procs s)) (set_mc m s))) ->
  wp P (sched_enter k) s Q.
Proof.
  intros Hm Hr Hp Hst HQ. unfold sched_enter.
  wp_next. eapply wp_curproc; [done..|]. intros m Hm' Hf.
  pose proof Hm' as [Hw Hn _ Hoff Hheld _].
  rewrite size_singleton in Hn. specialize (Hoff ltac:(set_solver)).
  destruct (Hheld Lptable) as [Hl Hc]; [set_solver|].
  wp_next. apply wp_zoom. eapply wp_ok.
  { apply holding_ok; [done|done|]. simpl. lia. }
  simpl. rewrite bool_decide_true by (rewrite Hl; done). simpl.
  wp_next. apply wp_zoom. eapply wp_ok; [by apply mycpu_get_ok|].
  simpl. rewrite Hn. simpl.
  wp_next. apply wp_gets. unfold the_proc. simpl. rewrite Hp. simpl.
  rewrite decide_False by done.
  wp_next. apply wp_zoom. eapply wp_ok; [done|]. simpl. fold (flags m). rewrite Hoff.
  wp_next. apply wp_zoom. eapply wp_ok; [by apply mycpu_get_ok|].
  apply wp_upd. by apply HQ.
Qed.

End rules.
