(* ===== verification/Sched.v ===== *)
(** * Round Robin scheduling: the scheduler of proc.c and the quantum of trap.c

    What the circular search finds, fairness of the order in which processes
    are chosen, and the length of a quantum. *)

From stdpp Require Import base numbers gmap list strings.
From S2P Require Import Prelude CString Spinlock ProcState Proc Syscall Trap ProcRules.
Open Scope Z_scope.

(** Is entry [j] of the table RUNNABLE? *)
Definition runnable (ps : list proc) (j : nat) : Prop :=
  state (default proc0 (ps !! j)) = RUNNABLE.

(** How many entries the search that starts at [rr] visits before [j]. *)
Definition rr_dist (rr : Z) (j : nat) : Z := (Z.of_nat j - rr) mod 64.

Lemma rr_dist_range rr j : 0 <= rr_dist rr j < 64.
Proof. unfold rr_dist. apply Z.mod_pos_bound. lia. Qed.

Lemma rr_index rr i :
  0 <= rr < 64 -> 0 <= i < 64 ->
  Z.rem (rr + i) (Z.of_nat NPROC) = (rr + i) mod 64.
Proof. intros. change (Z.of_nat NPROC) with 64. apply Z.rem_mod_nonneg; lia. Qed.

Lemma rr_dist_index rr i :
  0 <= rr < 64 -> 0 <= i < 64 -> rr_dist rr (Z.to_nat ((rr + i) mod 64)) = i.
Proof.
  intros. unfold rr_dist. pose proof (Z.mod_pos_bound (rr + i) 64).
  rewrite Z2Nat.id by lia. rewrite Zminus_mod_idemp_l.
  replace (rr + i - rr) with i by lia. by apply Z.mod_small.
Qed.

Lemma rr_dist_inj rr j k :
  (j < NPROC)%nat -> (k < NPROC)%nat -> rr_dist rr j = rr_dist rr k -> j = k.
Proof.
  unfold rr_dist, NPROC. intros Hj Hk Heq.
  pose proof (Z.div_mod (Z.of_nat j - rr) 64 ltac:(lia)).
  pose proof (Z.div_mod (Z.of_nat k - rr) 64 ltac:(lia)). lia.
Qed.

Lemma rr_index_range rr i : (Z.to_nat ((rr + i) mod 64) < NPROC)%nat.
Proof. unfold NPROC. pose proof (Z.mod_pos_bound (rr + i) 64). lia. Qed.

Lemma rr_scan_S ps rr i n :
  rr_scan ps rr i (S n) =
  let index := Z.to_nat (Z.rem (rr + i) (Z.of_nat NPROC)) in
  if decide (state (default proc0 (ps !! index)) = RUNNABLE)
  then Some index else rr_scan ps rr (i + 1) n.
Proof. done. Qed.

Lemma rr_scan_Some ps rr i n k :
  0 <= rr < 64 -> 0 <= i -> i + Z.of_nat n = 64 ->
  rr_scan ps rr i n = Some k ->
  (k < NPROC)%nat /\ runnable ps k /\
  forall j, (j < NPROC)%nat -> i <= rr_dist rr j < rr_dist rr k -> ~ runnable ps j.
Proof.
  revert i. induction n as [|n IH]; intros i Hrr Hi Hn; [done|].
  rewrite rr_scan_S. cbv zeta.
  rewrite rr_index by lia. pose proof (rr_dist_index rr i Hrr ltac:(lia)) as Hd.
  pose proof (rr_index_range rr i) as Hlt.
  case_decide as Hr.
  - intros [= <-]. split_and!; [done|done|]. intros j _ Hj. lia.
  - intros Hk. destruct (IH (i + 1)) as (Hk1 & Hk2 & Hk3); [lia..|done|].
    split_and!; [done|done|]. intros j Hj Hjk Hrj.
    destruct (decide (rr_dist rr j = i)) as [Hji|]; [|by apply (Hk3 j); [done|lia|done]].
    assert (j = Z.to_nat ((rr + i) mod 64)) as -> by (apply (rr_dist_inj rr); [done|done|lia]).
    done.
Qed.

Lemma rr_scan_None ps rr i n :
  0 <= rr < 64 -> 0 <= i -> i + Z.of_nat n = 64 ->
  rr_scan ps rr i n = None ->
  forall j, (j < NPROC)%nat -> i <= rr_dist rr j -> ~ runnable ps j.
Proof.
  revert i. induction n as [|n IH]; intros i Hrr Hi Hn.
  { intros _ j _ Hj. pose proof (rr_dist_range rr j). lia. }
  rewrite rr_scan_S. cbv zeta. rewrite rr_index by lia. pose proof (rr_dist_index rr i Hrr ltac:(lia)) as Hd.
  pose proof (rr_index_range rr i) as Hlt.
  case_decide as Hr; [done|]. intros Hk j Hj Hjk Hrj.
  destruct (decide (rr_dist rr j = i)) as [Hji|]; [|by apply (IH (i + 1) Hrr ltac:(lia) ltac:(lia) Hk j Hj ltac:(lia))].
  assert (j = Z.to_nat ((rr + i) mod 64)) as -> by (apply (rr_dist_inj rr); [done|done|lia]).
  done.
Qed.

(** The search finds the RUNNABLE entry nearest to [ptable.rr_next] in circular
    order, and finds none only when no entry of the table is RUNNABLE. *)
Lemma rr_scan_nearest ps rr :
  0 <= rr < 64 ->
  match rr_scan ps rr 0 NPROC with
  | Some k => (k < NPROC)%nat /\ runnable ps k /\
      forall j, (j < NPROC)%nat -> runnable ps j -> rr_dist rr k <= rr_dist rr j
  | None => forall j, (j < NPROC)%nat -> ~ runnable ps j
  end.
Proof.
  intros Hrr. destruct (rr_scan ps rr 0 NPROC) as [k|] eqn:Hs.
  - destruct (rr_scan_Some ps rr 0 NPROC k) as (H1 & H2 & H3); [done..|].
    split_and!; [done|done|]. intros j Hj Hrj.
    destruct (decide (rr_dist rr k <= rr_dist rr j)); [done|]. exfalso.
    pose proof (rr_dist_range rr j). eapply H3; eauto. lia.
  - intros j Hj. pose proof (rr_dist_range rr j).
    apply (rr_scan_None ps rr 0 NPROC Hrr ltac:(lia) eq_refl Hs j Hj). lia.
Qed.

Section sched.
Context {E : Type} `{EV : KEnv E}.
Implicit Types s : kstate E.

(** The chosen entry, as [scheduler()] leaves it before [swtch]. *)
Definition pick_update (p : proc) : proc :=
  set_stats (inc_ctx_switches (stats p)) (set_state RUNNING (set_ticks_used 0 p)).

(** What [scheduler()] changes when it chooses process [i]. *)
Lemma scheduler_pick_post c s :
  wp any_failure (scheduler_pick c) s (fun o s' =>
    o = rr_scan (procs s) (rr_next s) 0 NPROC /\
    match o with
    | Some i =>
        rr_next s' = Z.rem (Z.of_nat i + 1) (Z.of_nat NPROC) /\
        procs s' = alter pick_update i (procs s)
    | None => rr_next s' = rr_next s /\ procs s' = procs s
    end).
Proof.
  unfold scheduler_pick.
  do 2 (wp_next; apply wp_zoom, wp_any; intros _ ?).
  do 2 (wp_next; apply wp_gets). simpl.
  destruct (rr_scan (procs s) (rr_next s) 0 NPROC) as [i|].
  - wp_next. apply wp_modify. wp_next. apply wp_upd.
    wp_next. apply wp_zoom, wp_any. intros _ m3.
    do 2 (wp_next; apply wp_upd). do 2 (wp_next; apply wp_gets).
    wp_next. apply wp_zoom, wp_any. intros _ e. simpl.
    apply wp_ret. simpl. by rewrite !list_alter_alter_eq.
  - wp_next. apply wp_zoom, wp_any. intros _ m3. done.
Qed.

(** A run of scheduling decisions during which process [w] stays RUNNABLE
    and is passed over; [l] is the list of the processes chosen instead.
    Between two decisions anything may happen to the kernel's state but to
    [ptable.rr_next], which only the scheduler writes. *)
Inductive passed_over (w : nat) : kstate E -> list nat -> Prop :=
  | passed_none s : passed_over w s []
  | passed_more c s i s1 s2 l :
      runnable (procs s) w ->
      scheduler_pick c s = Ok (Some i) s1 -> i ≠ w ->
      rr_next s2 = rr_next s1 ->
      passed_over w s2 l ->
      passed_over w s (i :: l).

Lemma rr_dist_after rr i w :
  0 <= rr < 64 -> (i < NPROC)%nat -> (w < NPROC)%nat ->
  rr_dist rr i < rr_dist rr w ->
  rr_dist (Z.rem (Z.of_nat i + 1) (Z.of_nat NPROC)) w = rr_dist rr w - rr_dist rr i - 1.
Proof.
  unfold rr_dist, NPROC. intros Hrr Hi Hw Hlt.
  rewrite Z.rem_mod_nonneg by lia.
  rewrite Zminus_mod_idemp_r.
  pose proof (Z.mod_pos_bound (Z.of_nat w - rr) 64).
  pose proof (Z.mod_pos_bound (Z.of_nat i - rr) 64).
  symmetry. apply (Z.mod_unique_pos _ _
    ((Z.of_nat w - rr) / 64 * -1 + (Z.of_nat i - rr) / 64 + 2 * ((Z.of_nat w - rr) / 64)
     - 2 * ((Z.of_nat i - rr) / 64))); [lia|].
  pose proof (Z.div_mod (Z.of_nat w - rr) 64 ltac:(lia)).
  pose proof (Z.div_mod (Z.of_nat i - rr) 64 ltac:(lia)). lia.
Qed.

Lemma passed_over_bound w s l :
  passed_over w s l -> 0 <= rr_next s < 64 -> (w < NPROC)%nat ->
  Z.of_nat (length l) <= rr_dist (rr_next s) w /\ NoDup l /\
  forall i, i ∈ l -> (i < NPROC)%nat /\
    rr_dist (rr_next s) i < rr_dist (rr_next s) w.
Proof.
  induction 1 as [s|c s i s1 s2 l Hw Hp Hne Hrr Hl IH]; intros Hr Hwl.
  { pose proof (rr_dist_range (rr_next s) w). simpl.
    split_and!; [lia|constructor|]. intros i Hi. by apply not_elem_of_nil in Hi. }
  apply (wp_elim _ _ _ _ _ _ (scheduler_pick_post c s)) in Hp as (Hs & Hrr1 & _).
  symmetry in Hs.
  pose proof (rr_scan_nearest (procs s) (rr_next s) Hr) as Hn. rewrite Hs in Hn.
  destruct Hn as (Hi & Hri & Hmin). specialize (Hmin w Hwl Hw).
  assert (rr_dist (rr_next s) i < rr_dist (rr_next s) w) as Hlt.
  { destruct (decide (rr_dist (rr_next s) i = rr_dist (rr_next s) w)) as [Heq|]; [|lia].
    exfalso. apply Hne. by eapply rr_dist_inj. }
  rewrite Hrr, Hrr1 in IH.
  assert (forall j, (j < NPROC)%nat -> rr_dist (rr_next s) i < rr_dist (rr_next s) j ->
    rr_dist (Z.rem (Z.of_nat i + 1) (Z.of_nat NPROC)) j =
    rr_dist (rr_next s) j - rr_dist (rr_next s) i - 1) as Hafter
    by (intros; by apply rr_dist_after).
  destruct IH as (IH1 & IH2 & IH3); [|done|].
  { unfold NPROC in *. rewrite Z.rem_mod_nonneg by lia. apply Z.mod_pos_bound. lia. }
  rewrite (Hafter w) in IH1 by done. pose proof (rr_dist_range (rr_next s) i).
  assert (forall j, (j < NPROC)%nat ->
    rr_dist (Z.rem (Z.of_nat i + 1) (Z.of_nat NPROC)) j <
      rr_dist (Z.rem (Z.of_nat i + 1) (Z.of_nat NPROC)) w ->
    rr_dist (rr_next s) i < rr_dist (rr_next s) j < rr_dist (rr_next s) w) as Hback.
  { intros j Hj Hjw. rewrite (Hafter w) in Hjw by done.
    unfold rr_dist, NPROC in *. rewrite Z.rem_mod_nonneg in Hjw by lia.
    rewrite Zminus_mod_idemp_r in Hjw.
    pose proof (Z.div_mod (Z.of_nat j - rr_next s) 64 ltac:(lia)).
    pose proof (Z.div_mod (Z.of_nat w - rr_next s) 64 ltac:(lia)).
    pose proof (Z.div_mod (Z.of_nat i - rr_next s) 64 ltac:(lia)).
    pose proof (Z.div_mod (Z.of_nat j - (Z.of_nat i + 1)) 64 ltac:(lia)).
    pose proof (Z.mod_pos_bound (Z.of_nat j - rr_next s) 64).
    pose proof (Z.mod_pos_bound (Z.of_nat w - rr_next s) 64).
    pose proof (Z.mod_pos_bound (Z.of_nat j - (Z.of_nat i + 1)) 64). lia. }
  split_and!.
  - simpl. lia.
  - constructor; [|done]. intros Hin. destruct (IH3 i Hin) as [_ Hii].
    specialize (Hback i Hi Hii). lia.
  - intros j Hj. apply elem_of_cons in Hj as [->|Hj]; [done|].
    destruct (IH3 j Hj) as [Hjl Hjj]. split; [done|]. specialize (Hback j Hjl Hjj). lia.
Qed.

(** C10. Round Robin fairness: while a process waits RUNNABLE, no other process
    is chosen twice, and at most [NPROC - 1] choices are made before it. *)
Theorem rr_fair w s l :
  0 <= rr_next s < 64 -> (w < NPROC)%nat -> passed_over w s l ->
  NoDup l /\ (length l < NPROC)%nat.
Proof.
  intros Hr Hw Hl. destruct (passed_over_bound w s l Hl Hr Hw) as (H1 & H2 & _).
  pose proof (rr_dist_range (rr_next s) w). unfold NPROC. split; [done|lia].
Qed.

Lemma scheduler_pick_shape s :
  msec ∅ (mc s) -> (forall a b e, exists e', switchuvm a b e = Ok tt e') ->
  wp no_failure (scheduler_pick (hart (mc s))) s (fun o s' =>
    o = rr_scan (procs s) (rr_next s) 0 NPROC /\
    match o with
    | None => procs s' = procs s /\ rr_next s' = rr_next s /\ msec ∅ (mc s')
    | Some i => procs s' = alter pick_update i (procs s) /\
        rr_next s' = Z.rem (Z.of_nat i + 1) (Z.of_nat NPROC) /\
        running s' = Some i /\ msec {[Lptable]} (mc s')
    end).
Proof.
  intros Hm Hvm. unfold scheduler_pick.
  wp_next. apply wp_zoom. eapply wp_ok; [done|].
  wp_next. eapply wp_acq1; [by apply msec_flags|]. intros m Hm1 (Fh & Fn & Fc).
  do 2 (wp_next; apply wp_gets). simpl.
  destruct (rr_scan (procs s) (rr_next s) 0 NPROC) as [i|].
  - wp_next. apply wp_modify. wp_next. apply wp_upd. simpl.
    wp_next. apply wp_zoom, wp_modify. do 2 (wp_next; apply wp_upd).
    do 2 (wp_next; apply wp_gets). wp_next. apply wp_zoom.
    match goal with |- wp _ (switchuvm ?a ?b) ?e _ => destruct (Hvm a b e) as [e' He] end.
    eapply wp_ok; [exact He|]. apply wp_ret. simpl. rewrite !list_alter_alter_eq.
    assert (hart (mc s) = hart m) as -> by done.
    pose proof (msec_wf _ _ Hm1) as Hw.
    split_and!; [done|done|done| |by apply msec_upd_cpu].
    unfold running, upd_cpu. simpl. by rewrite (my_set_cpu m) by mwf_tac.
  - wp_next. eapply wp_rel1; [done|]. intros m2 Hm2 Hf2. by apply wp_ret.
Qed.

(** One turn of the scheduler's loop, from a CPU that holds no lock: with no
    RUNNABLE process nothing changes but the machine, and the locks are free
    again.  Otherwise the RUNNABLE process nearest to [rr_next] in circular
    order becomes RUNNING on this CPU with a full quantum and one more context
    switch counted, the search will start after it next time, and ptable.lock
    stays held across the switch. *)
Theorem scheduler_pick_correct s :
  msec ∅ (mc s) -> 0 <= rr_next s < 64 -> length (procs s) = NPROC ->
  (forall a b e, exists e', switchuvm a b e = Ok tt e') ->
  exists o s', scheduler_pick (hart (mc s)) s = Ok o s' /\
  match o with
  | None => (forall j, (j < NPROC)%nat -> ~ runnable (procs s) j) /\
      procs s' = procs s /\ rr_next s' = rr_next s /\ msec ∅ (mc s')
  | Some i => (i < NPROC)%nat /\ runnable (procs s) i /\
      (forall j, (j < NPROC)%nat -> runnable (procs s) j ->
         rr_dist (rr_next s) i <= rr_dist (rr_next s) j) /\
      procs s' = alter pick_update i (procs s) /\
      rr_next s' = Z.rem (Z.of_nat i + 1) (Z.of_nat NPROC) /\
      running s' = Some i /\ msec {[Lptable]} (mc s')
  end.
Proof.
  intros Hm Hr Hlen Hvm. apply wp_total. pose proof (scheduler_pick_shape s Hm Hvm) as H.
  eapply wp_mono; [exact H|]. intros o s' (-> & H'). clear H.
  pose proof (rr_scan_nearest (procs s) (rr_next s) Hr) as Hn.
  destruct (rr_scan (procs s) (rr_next s) 0 NPROC) as [i|]; [|by destruct H' as (? & ? & ?)].
  destruct Hn as (? & ? & ?), H' as (? & ? & ? & ?). by split_and!.
Qed.

End sched.
