(* ===== verification/KInv.v ===== *)
(** * The invariant of the process table

    [tinv] relates the process table, what each CPU runs, the semaphores and
    the clock at the points where no CPU is inside the kernel: slots are well
    formed, pids are unique, every process but init has a living parent, a
    process is RUNNING exactly when one CPU runs it, a RUNNABLE process can be
    resumed, and a SLEEPING process really has something to wait for (no
    wakeup was lost).  The lemmas say which changes of the table keep it. *)

From stdpp Require Import base numbers gmap list strings.
From S2P Require Import Prelude CString Spinlock ProcState Proc.
Open Scope Z_scope.

(** A process that still runs, may run or waits. *)
Definition active (p : proc) : Prop :=
  state p = SLEEPING \/ state p = RUNNABLE \/ state p = RUNNING.

Record slot_ok (np : Z) (p : proc) : Prop := mkSlot {
  slot_files : length (ofile p) = NOFILE;
  slot_name : length (pname p) = 16%nat;
  slot_embryo : state p ≠ EMBRYO;
  slot_unused : state p = UNUSED -> pid p = 0 /\ parent p = None;
  slot_live : state p ≠ UNUSED ->
    1 <= pid p < np /\ 1 <= timeslice p <= 100 /\
    0 <= ticks_used p < timeslice p /\ kstack p ≠ 0 /\ pgdir p ≠ 0 }.

(** The lock [sleep()] gives back to its caller. *)
Definition after_lock (a : after) : lockid :=
  match a with AWait => Lptable | ASemWait _ => Lsem | ASysSleep _ _ => Lticks end.

(** A valid semaphore number. *)
Definition sem_valid (ss : list semaphore) (id : Z) : Prop :=
  0 <= id /\ exists x, ss !! Z.to_nat id = Some x /\ allocated x ≠ 0.

(** A saved context a process can be resumed at. *)
Definition kont_ok (ss : list semaphore) (k : kont) : Prop :=
  match k with
  | KForkret | KYield _ _ => True
  | KSleep lk _ a =>
      lk = after_lock a /\
      match a with ASemWait id => sem_valid ss id | _ => True end
  | KExit => False
  end.

(** What a sleeping process waits for has not happened yet. *)
Definition still_waits (ps : list proc) (ss : list semaphore) (tk : Z) (i : nat)
  (p : proc) (a : after) : Prop :=
  match a with
  | AWait => pchan p = Cproc i /\ killed p = 0 /\
      (forall j q, ps !! j = Some q -> parent q = Some i -> state q ≠ ZOMBIE)
  | ASemWait id => pchan p = Csem (Z.to_nat id) /\
      exists x, ss !! Z.to_nat id = Some x /\ svalue x <= 0
  | ASysSleep n t0 => pchan p = Cticks /\ killed p = 0 /\ u32 (tk - t0) < u32 n
  end.

Definition asleep ps ss tk (i : nat) (p : proc) : Prop :=
  exists lk n a, pcontext p = Some (KSleep lk n a) /\
    kont_ok ss (KSleep lk n a) /\ still_waits ps ss tk i p a.

(** The family of processes: slots, pids, parents. *)
Record fam_ok (ps : list proc) (ip : option nat) (np : Z) : Prop := mkFam {
  fam_len : length ps = NPROC;
  fam_np : 1 <= np;
  fam_slot i p : ps !! i = Some p -> slot_ok np p;
  fam_pid i j p q : ps !! i = Some p -> ps !! j = Some q ->
    state p ≠ UNUSED -> state q ≠ UNUSED -> pid p = pid q -> i = j;
  fam_init : exists i p, ip = Some i /\ ps !! i = Some p /\ active p /\ parent p = None;
  fam_parent i p j : ps !! i = Some p -> parent p = Some j ->
    exists q, ps !! j = Some q /\ active q;
  fam_noself i p : ps !! i = Some p -> parent p ≠ Some i;
  fam_orphan i p : ps !! i = Some p -> state p ≠ UNUSED -> parent p = None -> ip = Some i }.

(** RUNNING is being run by one CPU. *)
Record cpu_ok (ps : list proc) (cp : list (option nat)) : Prop := mkCpuOk {
  cpu_running h i : cp !! h = Some (Some i) -> exists p, ps !! i = Some p /\ state p = RUNNING;
  cpu_inj h h' i : cp !! h = Some (Some i) -> cp !! h' = Some (Some i) -> h = h';
  cpu_some i p : ps !! i = Some p -> state p = RUNNING -> exists h, cp !! h = Some (Some i) }.

(** RUNNABLE can be resumed, SLEEPING has something to wait for. *)
Record wait_ok (ps : list proc) (ss : list semaphore) (tk : Z) : Prop := mkWaitOk {
  wait_sems : length ss = NSEM;
  wait_ctx i p : ps !! i = Some p -> state p = RUNNABLE ->
    exists k, pcontext p = Some k /\ kont_ok ss k;
  wait_sleep i p : ps !! i = Some p -> state p = SLEEPING -> asleep ps ss tk i p }.

Definition tinv ps cp ip np ss tk : Prop :=
  fam_ok ps ip np /\ cpu_ok ps cp /\ wait_ok ps ss tk.

(** ** Which changes keep the family *)

(** The same process, alive if it was. *)
Record kin (p p' : proc) : Prop := mkKin {
  kin_pid : pid p' = pid p;
  kin_parent : parent p' = parent p;
  kin_live : state p' ≠ UNUSED -> state p ≠ UNUSED;
  kin_active : active p -> active p' }.

#[global] Instance kin_refl : Reflexive kin.
Proof. intros p. by constructor. Qed.

Lemma fam_kin ps ps' ip np :
  fam_ok ps ip np -> Forall2 kin ps ps' -> Forall (slot_ok np) ps' -> fam_ok ps' ip np.
Proof.
  intros [Hlen Hnp Hslot Hpid Hinit Hpar Hself Horph] Hst Hok.
  assert (forall i p', ps' !! i = Some p' -> exists p, ps !! i = Some p /\ kin p p') as Hb.
  { intros i p' Hp'. destruct (Forall2_lookup_r _ _ _ _ _ Hst Hp') as (p & ? & ?). eauto. }
  assert (forall i p, ps !! i = Some p -> exists p', ps' !! i = Some p' /\ kin p p') as Hf.
  { intros i p Hp. destruct (Forall2_lookup_l _ _ _ _ _ Hst Hp) as (p' & ? & ?). eauto. }
  constructor; [|done|..].
  - by rewrite <- (Forall2_length _ _ _ Hst).
  - intros i p. by apply Forall_lookup_1.
  - intros i j p' q' Hi Hj Hl Hl' He.
    destruct (Hb _ _ Hi) as (p & Hp & Sp). destruct (Hb _ _ Hj) as (q & Hq & Sq).
    apply (Hpid i j p q); eauto using kin_live.
    by rewrite <- (kin_pid _ _ Sp), <- (kin_pid _ _ Sq).
  - destruct Hinit as (i & p & -> & Hp & Ha & Hpr). destruct (Hf _ _ Hp) as (p' & Hp' & S').
    exists i, p'. split_and!; [done|done|by eapply kin_active|by rewrite (kin_parent _ _ S')].
  - intros i p' j Hi Hp. destruct (Hb _ _ Hi) as (p & Hp' & Sp).
    rewrite (kin_parent _ _ Sp) in Hp. destruct (Hpar _ _ _ Hp' Hp) as (q & Hq & Ha).
    destruct (Hf _ _ Hq) as (q' & ? & ?). eauto using kin_active.
  - intros i p' Hi. destruct (Hb _ _ Hi) as (p & Hp' & Sp).
    rewrite (kin_parent _ _ Sp). eauto.
  - intros i p' Hi Hl Hp. destruct (Hb _ _ Hi) as (p & Hp' & Sp).
    rewrite (kin_parent _ _ Sp) in Hp. eauto using kin_live.
Qed.

(** ** Which changes keep the CPUs *)

Definition same_run (p p' : proc) : Prop := state p = RUNNING <-> state p' = RUNNING.

#[global] Instance same_run_refl : Reflexive same_run.
Proof. by intros p. Qed.

Lemma cpu_same ps ps' cp :
  cpu_ok ps cp ->
  Forall2 same_run ps ps' ->
  cpu_ok ps' cp.
Proof.
  intros [Hcpu Hinj Hrun] Hst. constructor; [|done|].
  - intros h i Hh. destruct (Hcpu _ _ Hh) as (p & Hp & Hr).
    destruct (Forall2_lookup_l _ _ _ _ _ Hst Hp) as (p' & Hp' & Hiff).
    exists p'. split; [done|by apply Hiff].
  - intros i p' Hi Hr. destruct (Forall2_lookup_r _ _ _ _ _ Hst Hi) as (p & ? & Hiff).
    eapply Hrun; [done|]. by apply Hiff.
Qed.

(** CPU [h] gives up process [i]. *)
Lemma cpu_leave ps ps' cp h i :
  cpu_ok ps cp -> cp !! h = Some (Some i) ->
  (forall j, j ≠ i -> ps' !! j = ps !! j) ->
  (forall p', ps' !! i = Some p' -> state p' ≠ RUNNING) ->
  cpu_ok ps' (<[h := None]> cp).
Proof.
  intros [Hcpu Hinj Hrun] Hh Hoth Hi. constructor.
  - intros h' j. rewrite list_lookup_insert. case_decide as Hd; [by intros [=]|].
    intros Hh'. destruct (decide (j = i)) as [->|Hne].
    + exfalso. apply Hd. split; [by eapply Hinj|]. by eapply lookup_lt_Some.
    + rewrite Hoth by done. eauto.
  - intros h1 h2 j. rewrite !list_lookup_insert. repeat case_decide; naive_solver.
  - intros j p' Hj Hr. destruct (decide (j = i)) as [->|Hne]; [by destruct (Hi p')|].
    rewrite Hoth in Hj by done. destruct (Hrun _ _ Hj Hr) as (h' & Hh').
    exists h'. rewrite list_lookup_insert_ne; [done|]. intros ->. congruence.
Qed.

(** CPU [h], which ran nothing, takes process [i]. *)
Lemma cpu_enter ps ps' cp h i p' :
  cpu_ok ps cp -> cp !! h = Some None ->
  (forall p, ps !! i = Some p -> state p ≠ RUNNING) ->
  (forall j, j ≠ i -> ps' !! j = ps !! j) ->
  ps' !! i = Some p' -> state p' = RUNNING ->
  cpu_ok ps' (<[h := Some i]> cp).
Proof.
  intros [Hcpu Hinj Hrun] Hh Hni Hoth Hi Hr.
  pose proof (lookup_lt_Some _ _ _ Hh) as Hlt.
  assert (forall h', cp !! h' ≠ Some (Some i)) as Hno.
  { intros h' Hh'. destruct (Hcpu _ _ Hh') as (p & ? & ?). by eapply Hni. }
  constructor.
  - intros h' j. rewrite list_lookup_insert. case_decide as Hd; [intros [= <-]; eauto|].
    intros Hh'. destruct (Hcpu _ _ Hh') as (p & Hp & Hr').
    rewrite Hoth; [eauto|]. intros ->. by eapply Hno.
  - intros h1 h2 j. rewrite !list_lookup_insert. repeat case_decide; naive_solver.
  - intros j p Hj Hr'. destruct (decide (j = i)) as [->|Hne].
    + exists h. by rewrite list_lookup_insert_eq.
    + rewrite Hoth in Hj by done. destruct (Hrun _ _ Hj Hr') as (h' & Hh').
      exists h'. rewrite list_lookup_insert_ne; [done|]. intros ->. congruence.
Qed.

(** ** Which changes keep the waiting processes *)

(** Allocated semaphores stay allocated. *)
Definition sems_grow (ss ss' : list semaphore) : Prop :=
  length ss' = length ss /\
  forall i x, ss !! i = Some x -> allocated x ≠ 0 ->
    exists y, ss' !! i = Some y /\ allocated y ≠ 0.

#[global] Instance sems_grow_refl : Reflexive sems_grow.
Proof. intros ss. split; eauto. Qed.

Lemma kont_ok_grow ss ss' k : sems_grow ss ss' -> kont_ok ss k -> kont_ok ss' k.
Proof.
  intros [_ Hg]. destruct k as [| |lk n [|id|]|]; simpl; try done.
  intros (-> & H0 & x & Hx & Ha). split; [done|]. split; [done|]. eauto.
Qed.

(** A slot that sleeps on as it did. *)
Definition sleeps_on (p p' : proc) : Prop :=
  state p = SLEEPING /\ pcontext p' = pcontext p /\ pchan p' = pchan p /\
  killed p' = killed p.

(** What happened to the semaphores and the clock wakes every process it
    concerns. *)
Definition woken (ps' : list proc) (ss ss' : list semaphore) (tk tk' : Z) : Prop :=
  forall i p', ps' !! i = Some p' -> state p' = SLEEPING ->
    (forall id, pchan p' = Csem (Z.to_nat id) -> sem_valid ss id ->
      (exists x, ss !! Z.to_nat id = Some x /\ svalue x <= 0) ->
      exists x, ss' !! Z.to_nat id = Some x /\ svalue x <= 0) /\
    (forall n t0, pchan p' = Cticks -> u32 (tk - t0) < u32 n -> u32 (tk' - t0) < u32 n).

Lemma woken_refl ps ss tk : woken ps ss ss tk tk.
Proof. by intros i p _ _. Qed.

Lemma wait_change ps ps' ss ss' tk tk' :
  wait_ok ps ss tk -> sems_grow ss ss' -> woken ps' ss ss' tk tk' ->
  (forall i p', ps' !! i = Some p' -> state p' = RUNNABLE ->
    (exists k, pcontext p' = Some k /\ kont_ok ss' k) \/
    (exists p, ps !! i = Some p /\ (state p = RUNNABLE \/ state p = SLEEPING) /\
               pcontext p' = pcontext p)) ->
  (forall i p', ps' !! i = Some p' -> state p' = SLEEPING ->
    asleep ps' ss' tk' i p' \/ exists p, ps !! i = Some p /\ sleeps_on p p') ->
  (forall j q' i p', ps' !! j = Some q' -> state q' = ZOMBIE -> parent q' = Some i ->
    ps' !! i = Some p' -> state p' = SLEEPING -> pchan p' = Cproc i ->
    exists q, ps !! j = Some q /\ state q = ZOMBIE /\ parent q = Some i) ->
  wait_ok ps' ss' tk'.
Proof.
  intros [Hlen Hctx Hslp] Hg Hw Hrun Hsl Hz. constructor.
  - destruct Hg as [-> _]. done.
  - intros i p' Hi Hr. destruct (Hrun i p' Hi Hr) as [?|(p & Hp & Hs & ->)]; [done|].
    destruct Hs as [Hs|Hs].
    + destruct (Hctx i p Hp Hs) as (k & Hk & ?). eauto using kont_ok_grow.
    + destruct (Hslp i p Hp Hs) as (lk & n & a & Hk & Hok' & _). eauto using kont_ok_grow.
  - intros i p' Hi Hr. destruct (Hsl i p' Hi Hr) as [?|(p & Hp & Hs & Hc & Hch & Hk)]; [done|].
    destruct (Hslp i p Hp Hs) as (lk & n & a & Hctx' & Hok' & Hst).
    destruct (Hw i p' Hi Hr) as [Hw1 Hw2].
    exists lk, n, a. rewrite Hc. split_and!; [done|by eapply kont_ok_grow|].
    destruct a as [|id|n0 t0]; simpl in *; rewrite <- ?Hch, <- ?Hk in Hst.
    + destruct Hst as (? & ? & Hst). split_and!; [done..|]. intros j q' Hj Hpj Hqz.
      destruct (Hz j q' i p') as (q & ? & ? & ?); naive_solver.
    + destruct Hst as (? & Hst). split; [done|]. destruct Hok' as [_ ?]. eauto.
    + destruct Hst as (? & ? & Hst). split_and!; [done|done|]. eauto.
Qed.

(** ** Changes of data, and wakeups *)

Record slot_step (p p' : proc) : Prop := mkStep {
  st_pid : pid p' = pid p;
  st_parent : parent p' = parent p;
  st_state :
    (state p' = state p /\
     (state p = RUNNABLE -> pcontext p' = pcontext p) /\
     (state p = SLEEPING -> sleeps_on p p')) \/
    (state p = SLEEPING /\ state p' = RUNNABLE /\ pcontext p' = pcontext p) }.

#[global] Instance slot_step_refl : Reflexive slot_step.
Proof. intros p. constructor; unfold sleeps_on; auto 10. Qed.

Lemma slot_step_kin p p' : slot_step p p' -> kin p p'.
Proof.
  intros [? ? H]. constructor; [done..| |]; unfold active;
    destruct H as [(-> & _)|(-> & -> & _)]; naive_solver.
Qed.

Lemma tinv_steps ps ps' cp ip np ss ss' tk tk' :
  tinv ps cp ip np ss tk ->
  Forall2 slot_step ps ps' -> Forall (slot_ok np) ps' -> sems_grow ss ss' ->
  woken ps' ss ss' tk tk' ->
  tinv ps' cp ip np ss' tk'.
Proof.
  intros (Hf & Hc & Hw) Hst Hok Hg Hwk. split_and!.
  - eapply fam_kin; [done| |done]. eapply Forall2_impl; [done|]. apply slot_step_kin.
  - eapply cpu_same; [done|]. eapply Forall2_impl; [done|].
    intros p p' [_ _ [(Hs & _)|(Hs & Hs' & _)]]; unfold same_run; rewrite Hs, ?Hs'; done.
  - assert (forall i p', ps' !! i = Some p' -> exists p, ps !! i = Some p /\ slot_step p p') as Hb.
    { intros i p' Hp'. destruct (Forall2_lookup_r _ _ _ _ _ Hst Hp') as (p & ? & ?). eauto. }
    eapply wait_change; [done..| | |].
    + intros i p' Hi Hr. destruct (Hb _ _ Hi) as (p & Hp & [_ _ Hs]). right. exists p.
      destruct Hs as [(Hs & Hk & _)|(? & ? & ?)]; [|by auto].
      rewrite Hr in Hs. auto.
    + intros i p' Hi Hr. destruct (Hb _ _ Hi) as (p & Hp & [_ _ Hs]). right. exists p.
      destruct Hs as [(? & _ & Hs)|(? & ? & ?)]; [split; [done|]; apply Hs|]; congruence.
    + intros j q' i p' Hj Hz Hp _ _ _. destruct (Hb _ _ Hj) as (q & Hq & [_ Hpar Hs]).
      exists q. destruct Hs as [(? & _)|(? & ? & _)]; split_and!; congruence.
Qed.

Lemma tinv_upd ps cp ip np ss tk i p f :
  tinv ps cp ip np ss tk -> ps !! i = Some p -> slot_step p (f p) -> slot_ok np (f p) ->
  tinv (alter f i ps) cp ip np ss tk.
Proof.
  intros H Hi Hs Hok. pose proof H as (Hf & _). eapply tinv_steps; [done|..].
  - apply (Forall2_alter_refl _ f ps i p Hi Hs).
  - eapply Forall_alter_at; [done| |done]. apply Forall_lookup_2, (fam_slot _ _ _ Hf).
  - done.
  - apply woken_refl.
Qed.

Lemma tinv_map ps cp ip np ss ss' tk tk' f :
  tinv ps cp ip np ss tk ->
  (forall p, slot_step p (f p)) -> (forall p, slot_ok np p -> slot_ok np (f p)) ->
  sems_grow ss ss' -> woken (f <$> ps) ss ss' tk tk' ->
  tinv (f <$> ps) cp ip np ss' tk'.
Proof.
  intros H Hs Hok Hg Hw. pose proof H as (Hf & _). eapply tinv_steps; [done|..|done|done].
  - apply Forall2_fmap_r, Forall_Forall2_diag, Forall_true. done.
  - apply Forall_fmap, Forall_lookup_2. intros i p Hp. apply Hok, (fam_slot _ _ _ Hf i), Hp.
Qed.

(** ** The current process leaves its CPU *)

Lemma active_live p : active p -> state p ≠ UNUSED.
Proof. unfold active. intros [->|[->| ->]]; done. Qed.

(** What is left to check when process [i] gives up the CPU and stays alive. *)
Definition leaves (ps : list proc) np ss tk (i : nat) (p p' : proc) : Prop :=
  pid p' = pid p /\ parent p' = parent p /\ slot_ok np p' /\
  ((state p' = RUNNABLE /\ exists k, pcontext p' = Some k /\ kont_ok ss k) \/
   (state p' = SLEEPING /\ asleep ps ss tk i p')).

Lemma tinv_leave ps cp ip np ss tk h i p f :
  tinv ps cp ip np ss tk -> cp !! h = Some (Some i) -> ps !! i = Some p ->
  leaves (alter f i ps) np ss tk i p (f p) ->
  tinv (alter f i ps) (<[h := None]> cp) ip np ss tk.
Proof.
  intros (Hf & Hc & Hw) Hh Hi (Hpid & Hpar & Hok & Hst).
  assert (state p = RUNNING) as Hr.
  { destruct (cpu_running _ _ Hc _ _ Hh) as (? & ? & ?). congruence. }
  split_and!.
  - eapply fam_kin; [done|apply (Forall2_alter_refl _ f ps i p Hi)|].
    + constructor; [done..|by rewrite Hr|]. intros _. unfold active.
      destruct Hst as [[-> _]|[-> _]]; auto.
    + eapply Forall_alter_at; [done| |done]. apply Forall_lookup_2, (fam_slot _ _ _ Hf).
  - eapply cpu_leave; [done..| |].
    + intros j Hj. by rewrite list_lookup_alter_ne.
    + intros p'. rewrite (lookup_alter_at _ _ _ _ Hi). intros [= <-].
      destruct Hst as [[-> _]|[-> _]]; done.
  - eapply wait_change; [done|done|apply woken_refl|..].
    + intros j q Hj Hq. apply lookup_alter_inv in Hj as [(-> & x & ? & ->)|(? & ?)];
        simplify_eq.
      * left. destruct Hst as [[_ ?]|[? _]]; [done|congruence].
      * right. exists q. auto.
    + intros j q Hj Hq. pose proof Hj as Hj'.
      apply lookup_alter_inv in Hj as [(-> & x & ? & ->)|(? & ?)]; simplify_eq.
      * left. destruct Hst as [[? _]|[_ ?]]; [congruence|done].
      * right. exists q. done.
    + intros j q k r Hj Hz Hp _ _ _. apply lookup_alter_inv in Hj as [(-> & x & ? & ->)|(? & ?)];
        simplify_eq; [|by eauto].
      destruct Hst as [[? _]|[? _]]; congruence.
Qed.

(** ** The scheduler takes a process *)

Lemma tinv_enter ps cp ip np ss tk h i p f :
  tinv ps cp ip np ss tk -> cp !! h = Some None -> ps !! i = Some p ->
  state p = RUNNABLE -> state (f p) = RUNNING ->
  pid (f p) = pid p -> parent (f p) = parent p -> slot_ok np (f p) ->
  tinv (alter f i ps) (<[h := Some i]> cp) ip np ss tk.
Proof.
  intros (Hf & Hc & Hw) Hh Hi Hr Hr' Hpid Hpar Hok. split_and!.
  - eapply fam_kin; [done|apply (Forall2_alter_refl _ f ps i p Hi)|].
    + constructor; [done..|by rewrite Hr|]. intros _. unfold active. auto.
    + eapply Forall_alter_at; [done| |done]. apply Forall_lookup_2, (fam_slot _ _ _ Hf).
  - eapply cpu_enter; [done..| | |by apply lookup_alter_at|done].
    + intros q Hq. simplify_eq. by rewrite Hr.
    + intros j Hj. by rewrite list_lookup_alter_ne.
  - eapply wait_change; [done|done|apply woken_refl|..].
    + intros j q Hj Hq. apply lookup_alter_inv in Hj as [(-> & x & ? & ->)|(? & ?)];
        simplify_eq; [congruence|by eauto 10].
    + intros j q Hj Hq. apply lookup_alter_inv in Hj as [(-> & x & ? & ->)|(? & ?)];
        simplify_eq; [congruence|]. right. by exists q.
    + intros j q k r Hj Hz Hp _ _ _. apply lookup_alter_inv in Hj as [(-> & x & ? & ->)|(? & ?)];
        simplify_eq; [congruence|by eauto].
Qed.

(** ** Wakeups *)

Lemma wake_step c p : slot_step p (wake c p).
Proof.
  unfold wake. case_decide as Hd; [|done]. destruct Hd. constructor; [done..|]. right. done.
Qed.

Lemma wake_slot c np p : slot_ok np p -> slot_ok np (wake c p).
Proof.
  unfold wake. case_decide as Hd; [|done]. destruct Hd as [Hs _].
  intros [? ? ? ? H]. rewrite Hs in H. destruct H as (? & ? & ? & ?); [done|].
  constructor; simpl; try done. intros _. split_and!; try done; lia.
Qed.

Lemma wake_awake c p : state (wake c p) = SLEEPING -> pchan (wake c p) ≠ c.
Proof. unfold wake. case_decide as Hd; [done|]. intros ? ?. by apply Hd. Qed.

#[export] Hint Resolve wake_step wake_slot : core.

Lemma tinv_wakeup ps cp ip np ss tk c :
  tinv ps cp ip np ss tk -> tinv (wake c <$> ps) cp ip np ss tk.
Proof. intros H. eapply tinv_map; eauto; [done|apply woken_refl]. Qed.

(** ** Exit *)

Definition adopt (c : nat) (ip : option nat) (p : proc) : proc :=
  if decide (parent p = Some c) then set_parent ip p else p.

(** The table after [exit()] passed the children of [c] to init. *)
Definition reparented (c : nat) (ip : option nat) (ps : list proc) : list proc :=
  if existsb (fun p => bool_decide (parent p = Some c) && bool_decide (state p = ZOMBIE)) ps
  then wake (chan_proc ip) <$> (adopt c ip <$> ps) else adopt c ip <$> ps.

(** What that does to one slot. *)
Record adopted (c : nat) (ip : option nat) (p p' : proc) : Prop := mkAdopted {
  ad_pid : pid p' = pid p;
  ad_parent : parent p' = if decide (parent p = Some c) then ip else parent p;
  ad_context : pcontext p' = pcontext p;
  ad_chan : pchan p' = pchan p;
  ad_killed : killed p' = killed p;
  ad_state : state p' = state p \/ (state p = SLEEPING /\ state p' = RUNNABLE);
  ad_slot np : slot_ok np p -> slot_ok np p' }.

Lemma adopt_adopted c ip p : adopted c ip p (adopt c ip p).
Proof.
  unfold adopt. case_decide as Hd; constructor; simpl; rewrite ?decide_True by done;
    rewrite ?decide_False by done; auto.
  intros np [H1 H2 H3 H4 H5]. constructor; simpl; try done.
  intros Hu. destruct (H4 Hu). congruence.
Qed.

Lemma adopted_wake c ip p p' d : adopted c ip p p' -> adopted c ip p (wake d p').
Proof.
  intros H. pose proof (fun np => wake_slot d np p') as Hok. revert Hok.
  unfold wake. case_decide as Hd; [|done]. intros Hok. destruct H, Hd.
  constructor; simpl; auto. destruct ad_state0; [right; split; congruence|]. naive_solver.
Qed.

Lemma reparented_length c ip ps : length (reparented c ip ps) = length ps.
Proof. unfold reparented. destruct (existsb _ _); by rewrite !length_fmap. Qed.

Lemma reparented_lookup c ip ps j q' :
  reparented c ip ps !! j = Some q' ->
  exists q, ps !! j = Some q /\ adopted c ip q q' /\
    (state q' = SLEEPING -> pchan q' = chan_proc ip ->
     forall k r, ps !! k = Some r -> parent r = Some c -> state r ≠ ZOMBIE).
Proof.
  unfold reparented. destruct (existsb _ ps) eqn:He.
  - rewrite list_lookup_fmap_Some. intros (p & -> & Hp).
    rewrite list_lookup_fmap_Some in Hp. destruct Hp as (q & -> & Hq).
    exists q. split_and!; [done|apply adopted_wake, adopt_adopted|].
    intros Hs Hc. exfalso. by eapply wake_awake.
  - rewrite list_lookup_fmap_Some. intros (q & -> & Hq).
    exists q. split_and!; [done|apply adopt_adopted|]. intros _ _ k r Hk Hp Hz.
    apply not_true_iff_false in He. apply He, existsb_exists. exists r.
    split; [by eapply list_elem_of_In, list_elem_of_lookup_2|].
    by rewrite !bool_decide_true.
Qed.

Lemma reparented_at c ip ps j q :
  ps !! j = Some q -> exists q', reparented c ip ps !! j = Some q'.
Proof.
  intros H. apply lookup_lt_is_Some. rewrite reparented_length. by eapply lookup_lt_Some.
Qed.

(** The end of [exit()]. *)
Definition die (p : proc) : proc := set_pcontext (Some KExit) (set_state ZOMBIE p).

Lemma die_slot np p : slot_ok np p -> state p ≠ UNUSED -> slot_ok np (die p).
Proof. intros [? ? ? ? H] Hl. constructor; simpl; try done. intros _. by apply H. Qed.

Definition exited (c : nat) (ip : option nat) (ps : list proc) : list proc :=
  alter die c (reparented c ip ps).

Section exited.
Context (ps : list proc) (ip : option nat) (c : nat) (p : proc).
Context (Hc : ps !! c = Some p) (Hr : state p = RUNNING) (Hne : ip ≠ Some c).

Lemma exited_lookup j q' :
  exited c ip ps !! j = Some q' ->
  exists q, ps !! j = Some q /\ pid q' = pid q /\
    parent q' = (if decide (parent q = Some c) then ip else parent q) /\
    (j = c /\ state q' = ZOMBIE \/
     j ≠ c /\ adopted c ip q q' /\
      (state q' = SLEEPING -> pchan q' = chan_proc ip ->
       forall k r, ps !! k = Some r -> parent r = Some c -> state r ≠ ZOMBIE)).
Proof.
  intros H. apply lookup_alter_inv in H as [(-> & x & Hx & ->)|(Hj & Hq)].
  - apply reparented_lookup in Hx as (q & Hq & Ha & _). exists q.
    destruct Ha. split_and!; auto.
  - apply reparented_lookup in Hq as (q & Hq & Ha & Hz). exists q. pose proof Ha as [].
    split_and!; auto.
Qed.

Lemma exited_active j q : ps !! j = Some q -> active q -> j ≠ c ->
  exists q', exited c ip ps !! j = Some q' /\ active q'.
Proof.
  intros Hj Ha Hjc. destruct (reparented_at c ip ps j q Hj) as (q' & Hq').
  exists q'. unfold exited. rewrite list_lookup_alter_ne by done. split; [done|].
  apply reparented_lookup in Hq' as (q0 & Hq0 & [_ _ _ _ _ Hs _] & _). simplify_eq.
  unfold active in *. destruct Hs as [->|[_ ->]]; auto.
Qed.

Lemma fam_exited np : fam_ok ps ip np -> fam_ok (exited c ip ps) ip np.
Proof.
  intros [Hlen Hnp Hslot Hpid Hinit Hpar Hself Horph].
  destruct Hinit as (i0 & p0 & Hip & Hp0 & Ha0 & Hpar0).
  assert (i0 ≠ c) as Hi0 by congruence.
  assert (forall j q', exited c ip ps !! j = Some q' -> state q' ≠ UNUSED ->
    exists q, ps !! j = Some q /\ state q ≠ UNUSED /\ pid q' = pid q) as Hback.
  { intros j q' Hj Hl. apply exited_lookup in Hj as (q & Hq & Hi & _ & Hs). exists q.
    split_and!; [done| |done]. destruct Hs as [(-> & _)|(_ & [_ _ _ _ _ Hs _] & _)]; [congruence|].
    destruct Hs as [Hs|[Hs _]]; congruence. }
  constructor; [by unfold exited; rewrite length_alter, reparented_length|done|..].
  - intros j q' Hj. unfold exited in Hj.
    apply lookup_alter_inv in Hj as [(-> & x & Hx & ->)|(Hj & Hq)].
    + apply reparented_lookup in Hx as (q & Hq & [? ? ? ? ? Hs Hok] & _). simplify_eq.
      apply die_slot; [by apply Hok, (Hslot c)|]. destruct Hs as [->|[_ ->]]; congruence.
    + apply reparented_lookup in Hq as (q & Hq & [] & _). eauto.
  - intros i j q r Hi Hj Hl Hl' He.
    destruct (Hback _ _ Hi Hl) as (q0 & ? & ? & ?). destruct (Hback _ _ Hj Hl') as (r0 & ? & ? & ?).
    apply (Hpid i j q0 r0); congruence.
  - destruct (exited_active i0 p0) as (q' & Hq' & Ha'); [done..|].
    exists i0, q'. split_and!; [done..|].
    apply exited_lookup in Hq' as (q & Hq & _ & -> & _). simplify_eq.
    rewrite Hpar0. by rewrite decide_False.
  - intros j q' k Hj Hk. apply exited_lookup in Hj as (q & Hq & _ & Hp & _).
    rewrite Hk in Hp. case_decide as Hd.
    + rewrite Hip in Hp. injection Hp as ->. by apply (exited_active i0 p0).
    + symmetry in Hp. destruct (Hpar _ _ _ Hq Hp) as (r & Hr' & Ha).
      apply (exited_active k r); congruence.
  - intros j q' Hj. apply exited_lookup in Hj as (q & Hq & _ & -> & _).
    case_decide as Hd; [|by eauto]. congruence.
  - intros j q' Hj Hl Hn. destruct (Hback _ _ Hj Hl) as (q0 & Hq0 & Hl0 & _).
    apply exited_lookup in Hj as (q & Hq & _ & Hp & _). simplify_eq.
    rewrite Hn in Hp. case_decide; [congruence|]. by eapply Horph.
Qed.

Lemma cpu_exited cp h : cpu_ok ps cp -> cp !! h = Some (Some c) ->
  cpu_ok (exited c ip ps) (<[h := None]> cp).
Proof.
  intros Hcp Hh. apply (cpu_leave (reparented c ip ps) _ _ h c); [|done|..].
  - eapply cpu_same; [done|]. apply Forall2_same_length_lookup_2; [by rewrite reparented_length|].
    intros j q q' Hq Hq'. apply reparented_lookup in Hq' as (q0 & Hq0 & [_ _ _ _ _ Hs _] & _).
    simplify_eq. unfold same_run. destruct Hs as [->|[-> ->]]; done.
  - intros j Hj. unfold exited. by rewrite list_lookup_alter_ne.
  - intros q' Hq'. apply exited_lookup in Hq' as (q & _ & _ & _ & [[_ ->]|[? _]]); done.
Qed.

Lemma wait_exited np ss tk : fam_ok ps ip np -> wait_ok ps ss tk ->
  (forall i r, parent p = Some i -> ps !! i = Some r -> state r = SLEEPING ->
    pchan r ≠ Cproc i) ->
  wait_ok (exited c ip ps) ss tk.
Proof.
  intros Hf Hw Hwoken. eapply wait_change; [done|done|apply woken_refl|..].
  - intros i p' Hi Hs. apply exited_lookup in Hi as (q & Hq & _ & _ & [[_ ?]|Had]); [congruence|].
    destruct Had as (_ & [_ _ Hk _ _ Hst _] & _). right. exists q.
    split_and!; [done| |done]. destruct Hst as [Hst|[Hst _]]; [left; congruence|by right].
  - intros i p' Hi Hs. apply exited_lookup in Hi as (q & Hq & _ & _ & [[_ ?]|Had]); [congruence|].
    destruct Had as (_ & [_ _ ? ? ? Hst _] & _). right. exists q.
    split; [done|]. unfold sleeps_on. split_and!; try done. destruct Hst as [Hst|[_ Hst]]; congruence.
  - intros j q' i p' Hj Hz Hp Hi Hs Hch.
    apply exited_lookup in Hi as (p0 & Hp0 & _ & _ & [[_ ?]|Had]); [congruence|].
    destruct Had as (Hic & [_ _ _ Hpc _ Hst _] & Hnoz).
    assert (state p0 = SLEEPING) as Hs0 by (destruct Hst as [Hst|[_ Hst]]; congruence).
    apply exited_lookup in Hj as (q & Hq & _ & Hp' & Hqs). rewrite Hp in Hp'.
    destruct Hqs as [[-> _]|(Hjc & [_ _ _ _ _ Hqs _] & _)].
    + simplify_eq. exfalso. rewrite decide_False in Hp' by (by eapply fam_noself).
      by eapply (Hwoken i p0); congruence.
    + assert (state q = ZOMBIE) as Hqz by (destruct Hqs as [Hqs|[_ Hqs]]; congruence).
      exists q. case_decide as Hd; [|done].
      exfalso. refine (Hnoz Hs _ j q Hq Hd Hqz). by rewrite Hch, <- Hp'.
Qed.

End exited.

Lemma tinv_exit ps cp ip np ss tk h c p :
  tinv ps cp ip np ss tk -> cp !! h = Some (Some c) -> ps !! c = Some p -> ip ≠ Some c ->
  tinv (exited c ip (wake (chan_proc (parent p)) <$> ps)) (<[h := None]> cp) ip np ss tk.
Proof.
  intros H Hh Hc Hne. pose proof H as (_ & Hcp & _).
  destruct (cpu_running _ _ Hcp _ _ Hh) as (p0 & ? & Hr). simplify_eq.
  apply (tinv_wakeup _ _ _ _ _ _ (chan_proc (parent p))) in H as (Hf & Hcpu & Hw).
  assert ((wake (chan_proc (parent p)) <$> ps) !! c = Some p) as Hc'.
  { rewrite list_lookup_fmap, Hc. simpl. unfold wake. rewrite decide_False; [done|].
    rewrite Hr. by intros [? _]. }
  split_and!.
  - by eapply fam_exited.
  - by eapply cpu_exited.
  - eapply wait_exited; [done..|]. intros i r Hp Hi Hs Hch.
    apply list_lookup_fmap_Some in Hi as (r0 & -> & _). rewrite Hp in *.
    by eapply wake_awake.
Qed.

(** ** Wait: a zombie child is reaped *)

Lemma tinv_reap ps cp ip np ss tk j q :
  tinv ps cp ip np ss tk -> ps !! j = Some q -> state q = ZOMBIE ->
  tinv (alter (fun p => reap (set_kstack 0 p)) j ps) cp ip np ss tk.
Proof.
  intros (Hf & Hc & Hw) Hj Hz.
  assert (forall i p, ps !! i = Some p -> active p -> i ≠ j) as Hact.
  { intros i p Hi Ha ->. simplify_eq. unfold active in Ha. rewrite Hz in Ha. naive_solver. }
  split_and!.
  - destruct Hf as [Hlen Hnp Hslot Hpid Hinit Hpar Hself Horph].
    constructor; [by rewrite length_alter|done|..].
    + intros i p Hi. apply lookup_alter_inv in Hi as [(-> & x & Hx & ->)|(? & ?)]; [|by eauto].
      destruct (Hslot j x Hx). constructor; simpl; try done. by rewrite length_insert.
    + intros i k p r Hi Hk. apply lookup_alter_inv in Hi as [(-> & x & Hx & ->)|(? & ?)]; [done|].
      apply lookup_alter_inv in Hk as [(-> & y & Hy & ->)|(? & ?)]; [done|]. by eapply Hpid.
    + destruct Hinit as (i & p & -> & Hi & Ha & Hp). exists i, p.
      rewrite list_lookup_alter_ne by (symmetry; by eapply Hact). done.
    + intros i p k Hi Hp. apply lookup_alter_inv in Hi as [(-> & x & Hx & ->)|(? & ?)]; [done|].
      destruct (Hpar i p k) as (r & Hr & Ha); [done..|]. exists r.
      rewrite list_lookup_alter_ne by (symmetry; by eapply Hact). done.
    + intros i p Hi. apply lookup_alter_inv in Hi as [(-> & x & Hx & ->)|(? & ?)]; [done|]. eauto.
    + intros i p Hi. apply lookup_alter_inv in Hi as [(-> & x & Hx & ->)|(? & ?)]; [done|]. eauto.
  - eapply cpu_same; [done|]. apply (Forall2_alter_refl _ _ _ _ q Hj). unfold same_run. simpl. by rewrite Hz.
  - eapply wait_change; [done|done|apply woken_refl|..].
    + intros i p Hi Hs. apply lookup_alter_inv in Hi as [(-> & x & ? & ->)|(? & ?)]; [done|]. eauto 10.
    + intros i p Hi Hs. apply lookup_alter_inv in Hi as [(-> & x & ? & ->)|(? & ?)]; [done|].
      right. by exists p.
    + intros k r i p Hk Hr Hp _ _ _.
      apply lookup_alter_inv in Hk as [(-> & x & ? & ->)|(? & ?)]; [done|]. eauto.
Qed.

(** ** Fork: a new process *)

Lemma slot_ok_np np np' p : np <= np' -> slot_ok np p -> slot_ok np' p.
Proof.
  intros Hle [H1 H2 H3 H4 H5]. constructor; try done. intros Hl.
  destruct (H5 Hl) as (? & ? & ? & ? & ?). split_and!; done || lia.
Qed.

Lemma fam_np_le ps ip np np' : np <= np' -> fam_ok ps ip np -> fam_ok ps ip np'.
Proof. intros Hle []. constructor; try done; [lia|]. eauto using slot_ok_np. Qed.

Lemma tinv_np ps cp ip np np' ss tk :
  tinv ps cp ip np ss tk -> np <= np' -> tinv ps cp ip np' ss tk.
Proof. intros (Hf & Hc & Hw) Hle. split_and!; [by eapply fam_np_le|done|done]. Qed.

Lemma tinv_fork ps cp ip np ss tk n p c r f :
  tinv ps cp ip np ss tk -> ps !! n = Some p -> state p = UNUSED ->
  ps !! c = Some r -> state r = RUNNING ->
  slot_ok (np + 1) (f p) -> pid (f p) = np -> parent (f p) = Some c ->
  state (f p) = RUNNABLE -> pcontext (f p) = Some KForkret ->
  tinv (alter f n ps) cp ip (np + 1) ss tk.
Proof.
  intros (Hf & Hc & Hw) Hn Hu Hrc Hr Hok Hpid' Hpar' Hst Hctx.
  assert (forall i q, ps !! i = Some q -> active q -> i ≠ n) as Hact.
  { intros i q Hi Ha ->. simplify_eq. by apply active_live in Ha. }
  assert (c ≠ n) as Hcn by (eapply Hact; [done|]; unfold active; auto).
  split_and!.
  - destruct Hf as [Hlen Hnp Hslot Hpid Hinit Hpar Hself Horph].
    assert (forall i q, ps !! i = Some q -> state q ≠ UNUSED -> pid q ≠ np) as Hfresh.
    { intros i q Hi Hl. destruct (slot_live _ _ (Hslot i q Hi) Hl). lia. }
    constructor; [by rewrite length_alter|lia|..].
    + intros i q Hi. apply lookup_alter_inv in Hi as [(-> & x & Hx & ->)|(? & ?)];
        simplify_eq; [done|]. eapply slot_ok_np; [|by eauto]. lia.
    + intros i k q q' Hi Hk Hl Hl' He.
      apply lookup_alter_inv in Hi as [(-> & x & Hx & ->)|(Hi' & Hi)];
        apply lookup_alter_inv in Hk as [(-> & y & Hy & ->)|(Hk' & Hk)]; simplify_eq.
      * done.
      * exfalso. by eapply (Hfresh k q').
      * exfalso. by eapply (Hfresh i q).
      * by eapply Hpid.
    + destruct Hinit as (i & q & -> & Hi & Ha & Hp). exists i, q.
      rewrite list_lookup_alter_ne by (symmetry; by eapply Hact). done.
    + intros i q k Hi Hp. assert (exists q0, ps !! k = Some q0 /\ active q0) as (q0 & Hq0 & Ha).
      { apply lookup_alter_inv in Hi as [(-> & x & Hx & ->)|(? & ?)]; simplify_eq; [|by eauto].
        exists r. unfold active. auto. }
      exists q0. rewrite list_lookup_alter_ne by (symmetry; by eapply Hact). done.
    + intros i q Hi. apply lookup_alter_inv in Hi as [(-> & x & Hx & ->)|(? & ?)];
        simplify_eq; [congruence|]. eauto.
    + intros i q Hi. apply lookup_alter_inv in Hi as [(-> & x & Hx & ->)|(? & ?)];
        simplify_eq; [congruence|]. eauto.
  - eapply cpu_same; [done|]. apply (Forall2_alter_refl _ _ _ _ p Hn). unfold same_run. by rewrite Hst, Hu.
  - eapply wait_change; [done|done|apply woken_refl|..].
    + intros i q Hi Hs. apply lookup_alter_inv in Hi as [(-> & x & ? & ->)|(? & ?)];
        simplify_eq; [|by eauto 10]. left. by exists KForkret.
    + intros i q Hi Hs. apply lookup_alter_inv in Hi as [(-> & x & ? & ->)|(? & ?)];
        simplify_eq; [congruence|]. right. by exists q.
    + intros k q i q' Hk Hq Hp _ _ _.
      apply lookup_alter_inv in Hk as [(-> & x & ? & ->)|(? & ?)]; simplify_eq; [congruence|]. eauto.
Qed.
