(* ===== verification/ProcSpec.v ===== *)
(** * What the operations on the process table do: proc.c

    The result of each call on every branch, with the exact table it leaves,
    from a state in which the caller holds no lock it will take.  [at_mc ls]
    relates states that differ in the machine only: locks and interrupts come
    back as the set [ls] of held locks says, and every CPU keeps its process. *)

From stdpp Require Import base numbers gmap list strings.
From S2P Require Import Prelude CString Spinlock ProcState Proc ProcRules.
Open Scope Z_scope.

(** Two states that differ in how they were put together. *)
Ltac kstate_eq :=
  unfold set_mc, set_procs, set_rr_next, set_initproc, set_nextpid, set_sems,
    set_ticks, set_first_run, set_env; simpl; f_equal; rewrite ?list_alter_alter_eq.

Ltac at_mc_done m := exists m; split_and!; [done|by repeat (done || etrans)|kstate_eq].

Section spec.
Context {E : Type} `{EV : KEnv E} (P : failure -> Prop).
Implicit Types (s : kstate E) (m : mach).

Definition at_mc (ls : gset lockid) s s' : Prop :=
  exists m, msec ls m /\ mframe (mc s) m /\ s' = set_mc m s.

(** ** Wakeup *)

Lemma wp_wakeup ls c s Q :
  msec ls (mc s) -> Lptable ∉ ls ->
  (forall m, msec ls m -> mframe (mc s) m ->
    Q tt (set_procs (wake c <$> procs s) (set_mc m s))) ->
  wp P (wakeup c) s Q.
Proof.
  intros Hm Hl HQ. unfold wakeup. wp_next. eapply wp_acq_k; [done..|]. intros m1 Hm1 Hf1.
  wp_next. apply wp_modify. eapply wp_rel_k; [done|set_solver|]. intros m2 Hm2 Hf2.
  apply (HQ m2); [|by etrans].
  by replace (({[Lptable]} ∪ ls) ∖ {[Lptable]}) with ls in Hm2 by set_solver.
Qed.

(** ** Sleeping *)

Definition sleep_update (c : chan) (k : kont) (p : proc) : proc :=
  set_pcontext (Some k) (set_ticks_used 0 (set_state SLEEPING (set_pchan c p))).

(** [sleep(c, lk)] with [lk] held, up to the [swtch()] in [sched()]: ptable.lock
    is held instead of [lk], and only the slot of the process has changed. *)
Lemma wp_sleep c lk a i p s Q :
  msec {[lk]} (mc s) -> running s = Some i -> procs s !! i = Some p ->
  (forall m n, msec {[Lptable]} m -> mframe (mc s) m ->
    Q tt (set_procs (alter (sleep_update c (KSleep lk n a)) i (procs s)) (set_mc m s))) ->
  wp P (sleep_enter c lk a) s Q.
Proof.
  intros Hm Hr Hp HQ. unfold sleep_enter.
  wp_next. eapply wp_myproc; [done|]. intros m1 Hm1 Hf1. rewrite Hr.
  wp_next. apply (wp_mono _ _ _ (fun _ s' => exists m,
    msec {[Lptable]} m /\ mframe (mc s) m /\ s' = set_mc m s)).
  { apply wp_when; intros Hlk.
    - apply bool_decide_eq_true in Hlk. wp_next. eapply wp_acq_k; [done|set_solver|].
      intros m2 Hm2 Hf2. eapply wp_rel_k; [done|set_solver|]. intros m3 Hm3 Hf3.
      exists m3. split_and!; [|by repeat (done || etrans)|done].
      replace (({[Lptable]} ∪ {[lk]}) ∖ {[lk]})
        with ({[Lptable]} : gset lockid) in Hm3 by set_solver. done.
    - apply bool_decide_eq_false, dec_stable in Hlk. subst lk. by exists m1. }
  intros [] s' (m & Hm' & Hf' & ->). do 3 (wp_next; apply wp_upd). simpl.
  rewrite !list_alter_alter_eq.
  assert (running (set_mc m s) = Some i) as Hr' by (by rewrite (running_mc {[lk]} {[Lptable]})).
  eapply wp_sched_enter with (i := i); simpl; [done|exact Hr'|by apply lookup_alter_at|done|].
  intros m2 n Hm2 Hf2. rewrite list_alter_alter_eq.
  apply (HQ m2 n); [done|by etrans].
Qed.

(** ** Kill *)

Definition kill_slot (p : proc) : proc :=
  let p := set_killed 1 p in
  if decide (state p = SLEEPING) then set_ticks_used 0 (set_state RUNNABLE p) else p.

Lemma wp_kill id s :
  msec ∅ (mc s) ->
  wp P (kill id) s (fun r s' =>
    match list_find (fun p => pid p = id) (procs s) with
    | Some (i, _) => r = 0 /\ at_mc ∅ (set_procs (alter kill_slot i (procs s)) s) s'
    | None => r = -1 /\ at_mc ∅ s s'
    end).
Proof.
  intros Hm. unfold kill. wp_next. eapply wp_acq1; [done|]. intros m1 Hm1 Hf1.
  wp_next. apply wp_gets. simpl.
  destruct (list_find (fun p => pid p = id) (procs s)) as [[i p]|] eqn:Hl.
  - apply list_find_Some in Hl as (Hp & _). wp_next. apply wp_upd.
    wp_next. apply wp_gets. unfold the_proc. simpl. rewrite list_lookup_alter_eq, Hp. simpl.
    wp_next. apply wp_when; intros Hs; [apply bool_decide_eq_true in Hs|apply bool_decide_eq_false in Hs].
    + wp_next. apply wp_upd. apply wp_upd. wp_next. eapply wp_rel1; [done|]. intros m2 Hm2 Hf2.
      apply wp_ret. split; [done|]. at_mc_done m2.
      eapply alter_at_ext; [done|]. unfold kill_slot. simpl. by rewrite decide_True.
    + wp_next. eapply wp_rel1; [done|]. intros m2 Hm2 Hf2.
      apply wp_ret. split; [done|]. at_mc_done m2.
      eapply alter_at_ext; [done|]. unfold kill_slot. simpl. by rewrite decide_False.
  - wp_next. eapply wp_rel1; [done|]. intros m2 Hm2 Hf2. apply wp_ret. split; [done|].
    at_mc_done m2.
Qed.

(** ** The calls that look a process up by its pid *)

Definition quantum_slot (q : Z) (p : proc) : proc := set_ticks_used 0 (set_timeslice q p).

Lemma wp_setquantum id q s :
  msec ∅ (mc s) ->
  wp P (setquantum_pid id q) s (fun r s' =>
    if decide (1 <= q <= 100) then
      match list_find (live_pid id) (procs s) with
      | Some (i, _) => r = 0 /\ at_mc ∅ (set_procs (alter (quantum_slot q) i (procs s)) s) s'
      | None => r = -1 /\ at_mc ∅ s s'
      end
    else r = -1 /\ s' = s).
Proof.
  intros Hm. unfold setquantum_pid. destruct (decide (1 <= q <= 100)).
  2: { replace ((q <? 1) || (100 <? q)) with true by lia. done. }
  replace ((q <? 1) || (100 <? q)) with false by lia.
  wp_next. eapply wp_acq1; [done|]. intros m1 Hm1 Hf1. wp_next. apply wp_gets. simpl.
  destruct (list_find (live_pid id) (procs s)) as [[i p]|].
  - do 2 (wp_next; apply wp_upd). wp_next. eapply wp_rel1; [done|]. intros m2 Hm2 Hf2.
    apply wp_ret. split; [done|]. at_mc_done m2. done.
  - wp_next. eapply wp_rel1; [done|]. intros m2 Hm2 Hf2. apply wp_ret. split; [done|].
    at_mc_done m2.
Qed.

Lemma wp_gettimeslice id s :
  msec ∅ (mc s) ->
  wp P (gettimeslice id) s (fun r s' => at_mc ∅ s s' /\
    match list_find (live_pid id) (procs s) with
    | Some (_, p) => r = timeslice p
    | None => r = -1
    end).
Proof.
  intros Hm. unfold gettimeslice.
  wp_next. eapply wp_acq1; [done|]. intros m1 Hm1 Hf1. wp_next. apply wp_gets. simpl.
  destruct (list_find (live_pid id) (procs s)) as [[i p]|];
    (wp_next; eapply wp_rel1; [done|]; intros m2 Hm2 Hf2; apply wp_ret; split; [|done];
     at_mc_done m2).
Qed.

Lemma wp_getpstats id out s :
  msec ∅ (mc s) ->
  wp P (getpstats id out) s (fun r s' => (s' = s \/ at_mc ∅ s s') /\
    if decide (out = 0) then r = (-1, None) else
    match list_find (live_pid id) (procs s) with
    | Some (_, p) => r = (0, Some (stats p))
    | None => r = (-1, None)
    end).
Proof.
  intros Hm. unfold getpstats. destruct (decide (out = 0)) as [->|Hne]; [by split; [left|]|].
  replace (out =? 0) with false by lia.
  wp_next. eapply wp_acq1; [done|]. intros m1 Hm1 Hf1. wp_next. apply wp_gets. simpl.
  destruct (list_find (live_pid id) (procs s)) as [[i p]|];
    (wp_next; eapply wp_rel1; [done|]; intros m2 Hm2 Hf2; apply wp_ret; split; [|done];
     right; at_mc_done m2).
Qed.

(** What [getprocinfo] reports of a process. *)
Definition info_of (name0 : list Z) (p : proc) : procinfo :=
  mkInfo (pid p) (KString.safestrcpy name0 (rd (pname p)) 16)
    (procstate_int (state p)) (timeslice p) (cpu_ticks (stats p))
    (sleep_ticks (stats p)) (ctx_switches (stats p)) (preemptions (stats p)).

Lemma wp_getprocinfo id out name0 s :
  msec ∅ (mc s) ->
  wp P (getprocinfo id out name0) s (fun r s' => (s' = s \/ at_mc ∅ s s') /\
    if decide (out = 0) then r = (-1, None) else
    match list_find (live_pid id) (procs s) with
    | Some (_, p) => r = (0, Some (info_of name0 p))
    | None => r = (-1, None)
    end).
Proof.
  intros Hm. unfold getprocinfo. destruct (decide (out = 0)) as [->|Hne]; [by split; [left|]|].
  replace (out =? 0) with false by lia.
  wp_next. eapply wp_acq1; [done|]. intros m1 Hm1 Hf1. wp_next. apply wp_gets. simpl.
  destruct (list_find (live_pid id) (procs s)) as [[i p]|];
    (wp_next; eapply wp_rel1; [done|]; intros m2 Hm2 Hf2; apply wp_ret; split; [|done];
     right; at_mc_done m2).
Qed.

Lemma wp_update_sleep_stats s :
  msec ∅ (mc s) ->
  wp P update_sleep_stats s (fun _ s' =>
    at_mc ∅ (set_procs (tick_sleep <$> procs s) s) s').
Proof.
  intros Hm. unfold update_sleep_stats.
  wp_next. eapply wp_acq1; [done|]. intros m1 Hm1 Hf1. wp_next. apply wp_modify.
  eapply wp_rel1; [done|]. intros m2 Hm2 Hf2. at_mc_done m2.
Qed.

(** ** Semaphores *)

Lemma wp_sem_init v s :
  msec ∅ (mc s) ->
  wp P (sem_init v) s (fun r s' =>
    match list_find (fun x => allocated x = 0) (sems s) with
    | Some (i, _) => r = Z.of_nat i /\
        at_mc ∅ (set_sems (alter (fun _ => mkSem v 1) i (sems s)) s) s'
    | None => r = -1 /\ at_mc ∅ s s'
    end).
Proof.
  intros Hm. unfold sem_init.
  wp_next. eapply wp_acq1; [done|]. intros m1 Hm1 Hf1. wp_next. apply wp_gets. simpl.
  destruct (list_find (fun x => allocated x = 0) (sems s)) as [[i x]|].
  - do 2 (wp_next; apply wp_modify). wp_next. eapply wp_rel1; [done|]. intros m2 Hm2 Hf2.
    apply wp_ret. split; [done|]. at_mc_done m2. done.
  - wp_next. eapply wp_rel1; [done|]. intros m2 Hm2 Hf2. apply wp_ret. split; [done|].
    at_mc_done m2.
Qed.

(** [id] is not the number of an allocated semaphore. *)
Definition bad_sem (ss : list semaphore) (id : Z) : bool :=
  (id <? 0) || (Z.of_nat NSEM <=? id) || (allocated (default sem0 (ss !! Z.to_nat id)) =? 0).

Definition sem_up (x : semaphore) : semaphore := mkSem (i32 (svalue x + 1)) (allocated x).

Lemma wp_sem_signal id s :
  msec ∅ (mc s) ->
  wp P (sem_signal id) s (fun r s' =>
    if bad_sem (sems s) id then r = -1 /\ s' = s else
    r = 0 /\ at_mc ∅ (set_procs (wake (Csem (Z.to_nat id)) <$> procs s)
      (set_sems (alter sem_up (Z.to_nat id) (sems s)) s)) s').
Proof.
  intros Hm. unfold sem_signal. wp_next. apply wp_gets.
  fold (bad_sem (sems s) id). unfold the_sem. fold (bad_sem (sems s) id).
  destruct (bad_sem (sems s) id) eqn:Hb; [done|].
  wp_next. eapply wp_acq1; [done|]. intros m1 Hm1 Hf1. wp_next. apply wp_modify.
  wp_next. eapply wp_wakeup; [done|set_solver|]. intros m2 Hm2 Hf2.
  wp_next. eapply wp_rel1; [done|]. intros m3 Hm3 Hf3. apply wp_ret. split; [done|].
  at_mc_done m3.
Qed.

End spec.
