(* ===== verification/Quantum.v ===== *)
(** * The quantum: the Round Robin preemption of trap.c

    What a timer interrupt does to the running process, and that a process
    runs for exactly its time slice before it is preempted. *)

From stdpp Require Import base numbers gmap list strings.
From S2P Require Import Prelude CString Spinlock ProcState Proc Syscall Trap ProcRules.
From S2P Require Import ProcSpec.
Open Scope Z_scope.

Definition TIMER : Z := T_IRQ0 + IRQ_TIMER.

(** The slot of a process whose quantum is over, when it yields. *)
Definition preempted (cs intena : Z) (p : proc) : proc :=
  let q := set_ticks_used 0 (quantum_tick p) in
  set_pcontext (Some (KYield cs intena))
    (set_state RUNNABLE (set_stats (inc_preemptions (stats q)) q)).

Section quantum.
Context (P : failure -> Prop) {E : Type} `{EV : KEnv E}.
Implicit Types (s : kstate E) (m : mach).

Lemma wp_preempt_timer cs i p s :
  msec ∅ (mc s) -> running s = Some i -> procs s !! i = Some p -> state p = RUNNING ->
  wp P (preempt TIMER cs) s (fun y s' =>
    if ticks_used p + 1 <? timeslice p
    then y = false /\ at_mc ∅ (set_procs (alter quantum_tick i (procs s)) s) s'
    else y = true /\ exists n,
      at_mc {[Lptable]} (set_procs (alter (preempted cs n) i (procs s)) s) s').
Proof.
  intros Hm Hr Hp Hst. unfold preempt. wp_next. eapply wp_myproc; [done|]. intros m1 Hm1 Hf1.
  rewrite Hr. wp_next. apply wp_gets. unfold the_proc. simpl. rewrite Hp. simpl.
  rewrite bool_decide_true by done. simpl.
  wp_next. apply wp_upd. do 2 (wp_next; apply wp_gets). unfold the_proc. simpl.
  rewrite (lookup_alter_at _ _ _ _ Hp). simpl.
  destruct (Z.leb_spec (timeslice p) (ticks_used p + 1)).
  - replace (ticks_used p + 1 <? timeslice p) with false by lia.
    do 2 (wp_next; apply wp_upd). simpl. rewrite !list_alter_alter_eq.
    unfold yield_enter. wp_next. wp_next. eapply wp_acq1; [done|]. intros m2 Hm2 Hf2.
    assert (running (set_mc m2 s) = Some i) as Hr2.
    { rewrite (running_mc ∅ {[Lptable]}); [done|done|done|by repeat (done || etrans)]. }
    wp_next. eapply (wp_curproc _ _ _ i); [done|exact Hr2|]. intros m3 Hm3 Hf3.
    wp_next. apply wp_upd. simpl. rewrite list_alter_alter_eq.
    eapply wp_sched_enter with (i := i); simpl; [done| |by apply lookup_alter_at|done|].
    { change (running (set_mc m3 s) = Some i). rewrite (running_mc ∅ {[Lptable]});
        [done|done|done|by repeat (done || etrans)]. }
    intros m4 n Hm4 Hf4. apply wp_ret. split; [done|]. exists n. simpl.
    rewrite list_alter_alter_eq. exists m4. split_and!; [done|by repeat (done || etrans)|done].
  - replace (ticks_used p + 1 <? timeslice p) with true by lia.
    apply wp_ret. split; [done|]. by exists m1.
Qed.

End quantum.

Section quantum_thms.
Context {E : Type} `{EV : KEnv E}.
Implicit Types (s : kstate E) (m : mach).

(** [n] timer interrupts that leave the process running, and the state then. *)
Inductive ticked (cs : Z) : nat -> kstate E -> kstate E -> Prop :=
  | ticked_0 s : ticked cs 0 s s
  | ticked_S n s s1 s2 : preempt TIMER cs s = Ok false s1 ->
      ticked cs n s1 s2 -> ticked cs (S n) s s2.

Fixpoint ticks_of (n : nat) (p : proc) : proc :=
  match n with O => p | S n => ticks_of n (quantum_tick p) end.

Lemma ticks_of_fields n p :
  ticks_used (ticks_of n p) = ticks_used p + Z.of_nat n /\
  timeslice (ticks_of n p) = timeslice p /\ state (ticks_of n p) = state p /\
  preemptions (stats (ticks_of n p)) = preemptions (stats p) /\
  (cpu_ticks (stats (ticks_of n p)) = u32 (cpu_ticks (stats p) + Z.of_nat n) \/ n = O).
Proof.
  revert p. induction n as [|n IH]; intros p; simpl; [split_and!; auto; lia|].
  destruct (IH (quantum_tick p)) as (-> & -> & -> & -> & Hc). simpl. split_and!; [lia|done|done|done|].
  left. destruct Hc as [->| ->]; simpl; [|f_equal; lia].
  simpl. rewrite u32_add_l. f_equal. lia.
Qed.

Lemma ticked_fwd cs i n p s :
  msec ∅ (mc s) -> running s = Some i -> procs s !! i = Some p -> state p = RUNNING ->
  ticks_used p + Z.of_nat n < timeslice p ->
  exists s', ticked cs n s s' /\ msec ∅ (mc s') /\ running s' = Some i /\
    procs s' = <[i := ticks_of n p]> (procs s).
Proof.
  revert p s. induction n as [|n IH]; intros p s Hm Hr Hp Hst Hlt.
  { exists s. split_and!; [constructor|done|done|]. simpl. by rewrite list_insert_id. }
  destruct (wp_total _ _ _ (wp_preempt_timer no_failure cs i p s Hm Hr Hp Hst))
    as (y & s1 & E1 & H1).
  replace (ticks_used p + 1 <? timeslice p) with true in H1 by lia.
  destruct H1 as [-> (m & Hm1 & Hf1 & ->)].
  destruct (IH (quantum_tick p) (set_mc m (set_procs (alter quantum_tick i (procs s)) s)))
    as (s' & Ht & Hm' & Hr' & Hp').
  - done.
  - change (running (set_mc m s) = Some i). by rewrite (running_mc ∅ ∅).
  - simpl. by apply lookup_alter_at.
  - done.
  - simpl. lia.
  - exists s'. split_and!; [by econstructor|done|done|]. rewrite Hp'. simpl.
    rewrite (alter_insert_at _ _ _ _ Hp). by rewrite list_insert_insert_eq.
Qed.

(** C11. A process that starts a quantum of [q] ticks keeps the CPU through the
    first [q - 1] timer interrupts and gives it up at the [q]-th: it is
    RUNNABLE again with a fresh quantum, [q] ticks of CPU time and one
    preemption counted; no other slot of the table changes. *)
Theorem quantum_exact cs i p s :
  msec ∅ (mc s) -> running s = Some i -> procs s !! i = Some p -> state p = RUNNING ->
  ticks_used p = 0 -> 1 <= timeslice p ->
  exists s1 s2 p', ticked cs (Z.to_nat (timeslice p) - 1) s s1 /\
    preempt TIMER cs s1 = Ok true s2 /\
    procs s2 = <[i := p']> (procs s) /\
    state p' = RUNNABLE /\ ticks_used p' = 0 /\ timeslice p' = timeslice p /\
    cpu_ticks (stats p') = u32 (cpu_ticks (stats p) + timeslice p) /\
    preemptions (stats p') = u32 (preemptions (stats p) + 1) /\
    msec {[Lptable]} (mc s2).
Proof.
  intros Hm Hr Hp Hst Hu Hq. set (n := (Z.to_nat (timeslice p) - 1)%nat).
  destruct (ticked_fwd cs i n p s) as (s1 & Ht & Hm1 & Hr1 & Hp1); [done..|lia|].
  destruct (ticks_of_fields n p) as (Fu & Ft & Fs & Fp & Fc).
  assert (procs s1 !! i = Some (ticks_of n p)) as Hp1'.
  { rewrite Hp1. apply list_lookup_insert_eq. by eapply lookup_lt_Some. }
  destruct (wp_total _ _ _ (wp_preempt_timer no_failure cs i _ s1 Hm1 Hr1 Hp1'
    ltac:(congruence))) as (y & s2 & E2 & H2).
  rewrite Fu, Ft, Hu in H2. replace (0 + Z.of_nat n + 1 <? timeslice p) with false in H2 by lia.
  destruct H2 as [-> (k & m & Hm2 & Hf2 & ->)].
  exists s1, (set_mc m (set_procs (alter (preempted cs k) i (procs s1)) s1)),
    (preempted cs k (ticks_of n p)).
  split_and!; simpl; try done.
  - rewrite (alter_insert_at _ _ _ _ Hp1'), Hp1. apply list_insert_insert_eq.
  - destruct Fc as [->|H0].
    + rewrite u32_add_l. f_equal. lia.
    + rewrite H0. simpl. f_equal. lia.
  - by rewrite Fp.
Qed.

End quantum_thms.
