(* ===== verification/KSpec.v ===== *)
(** * Every kernel entry keeps the invariant: proc.c, sysproc.c, trap.c

    [inside ls h i]: CPU [h] executes kernel code for process [i], holding the
    locks [ls], and the process table is in order ([atcpu] without the process).  [outside h]: the process
    has given the CPU up inside [sched()], ptable.lock still held, and the
    scheduler of CPU [h] goes on.  Each operation is shown to lead from
    [inside] to one of the two, or to fail in a way [P] allows. *)

From stdpp Require Import base numbers gmap list strings.
From S2P Require Import Prelude CString Spinlock ProcState Proc Syscall Trap ProcRules Sched.
From S2P Require Import KInv ProcSpec.
Open Scope Z_scope.

(** The rest of the kernel fails only in ways [P] allows. *)
Class KEnvOk (P : failure -> Prop) (E : Type) `{EV : KEnv E} : Prop := {
  kalloc_ok e : wp P kalloc e (fun _ _ => True);
  kfree_ok a e : wp P (kfree a) e (fun _ _ => True);
  setupkvm_ok e : wp P setupkvm e (fun _ _ => True);
  inituvm_ok a e : wp P (inituvm a) e (fun _ _ => True);
  allocuvm_ok a b c e : wp P (allocuvm a b c) e (fun _ _ => True);
  deallocuvm_ok a b c e : wp P (deallocuvm a b c) e (fun _ _ => True);
  copyuvm_ok a b e : wp P (copyuvm a b) e (fun _ _ => True);
  freevm_ok a e : wp P (freevm a) e (fun _ _ => True);
  switchuvm_ok a b e : wp P (switchuvm a b) e (fun _ _ => True);
  switchkvm_ok e : wp P switchkvm e (fun _ _ => True);
  filedup_ok a e : wp P (filedup a) e (fun _ _ => True);
  fileclose_ok a e : wp P (fileclose a) e (fun _ _ => True);
  idup_ok a e : wp P (idup a) e (fun _ _ => True);
  iput_ok a e : wp P (iput a) e (fun _ _ => True);
  begin_op_ok e : wp P begin_op e (fun _ _ => True);
  end_op_ok e : wp P end_op e (fun _ _ => True);
  iinit_ok a e : wp P (iinit a) e (fun _ _ => True);
  initlog_ok a e : wp P (initlog a) e (fun _ _ => True);
  ideintr_ok e : wp P ideintr e (fun _ _ => True);
  kbdintr_ok e : wp P kbdintr e (fun _ _ => True);
  uartintr_ok e : wp P uartintr e (fun _ _ => True);
  lapiceoi_ok e : wp P lapiceoi e (fun _ _ => True);
  ustore_ok a b c e : wp P (ustore a b c) e (fun _ _ => True) }.

#[global] Instance KEnvOk_any {E} `{EV : KEnv E} : KEnvOk any_failure E.
Proof. constructor; intros; by apply wp_any. Qed.

Lemma KEnvOk_weaken (P P' : failure -> Prop) {E} `{EV : KEnv E} : (forall f, P f -> P' f) -> KEnvOk P E -> KEnvOk P' E.
Proof. intros HP []. constructor; intros; eapply wp_weaken; eauto. Qed.

(** Go on from the state a rule has just produced, forgetting the last one. *)
Ltac next_state s Hi :=
  let s' := fresh in let H' := fresh in
  intros s' H' _; clear Hi; clear s; rename s' into s; rename H' into Hi.

Create HintDb env discriminated.
#[export] Hint Resolve kalloc_ok kfree_ok setupkvm_ok inituvm_ok allocuvm_ok deallocuvm_ok
  copyuvm_ok freevm_ok switchuvm_ok switchkvm_ok filedup_ok fileclose_ok idup_ok iput_ok
  begin_op_ok end_op_ok iinit_ok initlog_ok ideintr_ok kbdintr_ok uartintr_ok lapiceoi_ok
  ustore_ok : env.

Section kspec.
Context (P : failure -> Prop) {E : Type} `{EV : KEnv E} `{EO : !KEnvOk P E}.
Context (ip : nat).
Implicit Types (s : kstate E) (m : mach).

(** [ip] is init's slot; it never changes after [userinit()]. *)
Definition kt (cp : list (option nat)) s : Prop :=
  tinv (procs s) cp (initproc s) (nextpid s) (sems s) (ticks s) /\
  0 <= rr_next s < 64 /\ initproc s = Some ip.

(** CPU [h] executes kernel code; [o] is the process it runs, if any. *)
Record atcpu (ls : gset lockid) (h : nat) (o : option nat) s : Prop := mkAtcpu {
  in_sec : msec ls (mc s);
  in_hart : hart (mc s) = h;
  in_cur : cps (mc s) !! h = Some o;
  in_kt : kt (cps (mc s)) s }.

#[local] Notation inside ls h i := (atcpu ls h (Some i)).

Record outside (h : nat) s : Prop := mkOutside {
  out_sec : msec {[Lptable]} (mc s);
  out_hart : hart (mc s) = h;
  out_cur : exists i, cps (mc s) !! h = Some (Some i);
  out_kt : kt (<[h := None]> (cps (mc s))) s }.

Definition handled {A} (h i : nat) (f : flow A) s : Prop :=
  match f with Back _ => inside ∅ h i s | Gone => outside h s end.

Lemma atcpu_running ls h o s : atcpu ls h o s -> running s = o.
Proof. intros [Hs <- Hc _]. pose proof (running_cps s ls Hs). congruence. Qed.

Lemma inside_running ls h i s : inside ls h i s -> running s = Some i.
Proof. apply atcpu_running. Qed.

Lemma inside_cur ls h i s : inside ls h i s ->
  exists p, procs s !! i = Some p /\ state p = RUNNING /\ slot_ok (nextpid s) p.
Proof.
  intros [_ _ Hc [(Hf & Hcp & _) _]]. destruct (cpu_running _ _ Hcp _ _ Hc) as (p & Hp & Hr).
  exists p. split_and!; [done..|]. by eapply fam_slot.
Qed.

Lemma inside_mc ls ls' h o s m :
  atcpu ls h o s -> msec ls' m -> mframe (mc s) m -> atcpu ls' h o (set_mc m s).
Proof.
  intros [Hs Hh Hc Hk] Hm (Fh & Fn & Fc). constructor; simpl; [done|congruence|..].
  - by rewrite Fc.
  - by rewrite Fc.
Qed.

Lemma inside_at ls ls' h o s s' : atcpu ls h o s -> at_mc ls' s s' -> atcpu ls' h o s'.
Proof. intros Hi (m & Hm & Hf & ->). by eapply inside_mc. Qed.

Lemma inside_env ls h o s e : atcpu ls h o s -> atcpu ls h o (set_env e s).
Proof. by intros []. Qed.

Lemma inside_procs ls h o s ps ss tk :
  atcpu ls h o s ->
  tinv ps (cps (mc s)) (initproc s) (nextpid s) ss tk ->
  atcpu ls h o (set_procs ps (set_sems ss (set_ticks tk s))).
Proof. intros [H1 H2 H3 [_ H4]] Ht. by constructor. Qed.

Lemma inside_sems ls h o s ss :
  atcpu ls h o s ->
  tinv (procs s) (cps (mc s)) (initproc s) (nextpid s) ss (ticks s) ->
  atcpu ls h o (set_sems ss s).
Proof. intros [H1 H2 H3 [_ H4]] Ht. by constructor. Qed.

Lemma inside_upd ls h o s j p f :
  atcpu ls h o s -> procs s !! j = Some p -> slot_step p (f p) ->
  slot_ok (nextpid s) (f p) ->
  atcpu ls h o (set_procs (alter f j (procs s)) s).
Proof.
  intros Hi Hj Hst Hok. pose proof (in_kt _ _ _ _ Hi) as [Ht _].
  apply (inside_procs _ _ _ _ _ (sems s) (ticks s) Hi). by eapply tinv_upd.
Qed.

(** Updates of the current process's own slot that do not concern scheduling. *)
Definition plain (f : proc -> proc) : Prop :=
  forall np p, state p = RUNNING -> slot_ok np p -> slot_step p (f p) /\ slot_ok np (f p).

Lemma inside_own ls h i s f :
  inside ls h i s -> plain f -> inside ls h i (set_procs (alter f i (procs s)) s).
Proof.
  intros Hi Hf. destruct (inside_cur _ _ _ _ Hi) as (p & Hp & Hr & Hok).
  destruct (Hf _ _ Hr Hok). by eapply inside_upd.
Qed.

Lemma inside_map ls h o s f :
  atcpu ls h o s -> (forall p, slot_step p (f p)) ->
  (forall np p, slot_ok np p -> slot_ok np (f p)) ->
  atcpu ls h o (set_procs (f <$> procs s) s).
Proof.
  intros Hi Hst Hok. pose proof (in_kt _ _ _ _ Hi) as [Ht _].
  apply (inside_procs _ _ _ _ _ (sems s) (ticks s) Hi).
  eapply tinv_map; eauto; [done|apply woken_refl].
Qed.

(** Rules for sequences of operations inside the kernel. *)
Lemma wp_in_acq l h o s Q :
  atcpu ∅ h o s -> (forall s', atcpu {[l]} h o s' -> at_mc {[l]} s s' -> Q tt s') ->
  wp P (acq_k l) s Q.
Proof.
  intros Hi HQ. eapply wp_acq1; [apply Hi|]. intros m Hm Hf.
  apply HQ; [by eapply inside_mc|by exists m].
Qed.

Lemma wp_in_rel l h o s Q :
  atcpu {[l]} h o s -> (forall s', atcpu ∅ h o s' -> at_mc ∅ s s' -> Q tt s') ->
  wp P (rel_k l) s Q.
Proof.
  intros Hi HQ. eapply wp_rel1; [apply Hi|]. intros m Hm Hf.
  apply HQ; [by eapply inside_mc|by exists m].
Qed.

Lemma wp_in_curproc ls h i s Q :
  inside ls h i s -> (forall s', inside ls h i s' -> at_mc ls s s' -> Q i s') ->
  wp P curproc s Q.
Proof.
  intros Hi HQ. eapply wp_curproc; [apply Hi|by eapply inside_running|]. intros m Hm Hf.
  apply HQ; [by eapply inside_mc|by exists m].
Qed.

Lemma wp_in_myproc ls h o s Q :
  atcpu ls h o s -> (forall s', atcpu ls h o s' -> at_mc ls s s' -> Q o s') ->
  wp P myproc s Q.
Proof.
  intros Hi HQ. eapply wp_myproc; [apply Hi|]. intros m Hm Hf.
  rewrite (atcpu_running _ _ _ _ Hi). apply HQ; [by eapply inside_mc|by exists m].
Qed.

Lemma wp_in_env {A} (op : M E A) ls h o s (Q : A -> kstate E -> Prop) :
  (forall e, wp P op e (fun _ _ => True)) -> atcpu ls h o s ->
  (forall a e, atcpu ls h o (set_env e s) -> Q a (set_env e s)) ->
  wp P (on_env op) s Q.
Proof. intros Hop Hi HQ. apply wp_env; [apply Hop|]. intros a e. by apply HQ, inside_env. Qed.

Lemma wp_in_own f ls h i s (Q : unit -> kstate E -> Prop) :
  inside ls h i s -> plain f ->
  (inside ls h i (set_procs (alter f i (procs s)) s) ->
   Q tt (set_procs (alter f i (procs s)) s)) ->
  wp P (upd_proc i f) s Q.
Proof. intros Hi Hf HQ. by apply HQ, inside_own. Qed.

(** Updates of data that scheduling does not look at. *)
Lemma plain_data f :
  (forall p, pid (f p) = pid p /\ parent (f p) = parent p /\ state (f p) = state p /\
    length (ofile (f p)) = length (ofile p) /\ length (pname (f p)) = length (pname p) /\
    timeslice (f p) = timeslice p /\ ticks_used (f p) = ticks_used p /\
    kstack (f p) = kstack p /\ pgdir (f p) = pgdir p) -> plain f.
Proof.
  intros Hf np p Hr [H1 H2 H3 H4 H5].
  destruct (Hf p) as (E1 & E2 & E3 & E4 & E5 & E6 & E7 & E8 & E9). split.
  - constructor; [done..|]. left. rewrite E3, Hr. split_and!; done.
  - constructor; rewrite ?E1, ?E2, ?E3, ?E4, ?E5, ?E6, ?E7, ?E8, ?E9; done.
Qed.

Lemma plain_tf t : plain (set_tf t).
Proof. by apply plain_data. Qed.

Lemma plain_result v : plain (fun p => set_tf (set_eax v (tf p)) p).
Proof. by apply plain_data. Qed.

Lemma plain_sz v : plain (set_sz v).
Proof. by apply plain_data. Qed.

Lemma plain_cwd v : plain (set_cwd v).
Proof. by apply plain_data. Qed.

Lemma plain_killed v : plain (set_killed v).
Proof. by apply plain_data. Qed.

Lemma plain_pchan v : plain (set_pchan v).
Proof. by apply plain_data. Qed.

Lemma plain_ofile k v : plain (fun p => set_ofile (<[k := v]> (ofile p)) p).
Proof. apply plain_data. intros p. simpl. by rewrite length_insert. Qed.

(** ** Giving up the CPU *)

(** [sched()] from [inside], the slot about to leave. *)
Lemma outside_leave h i p s m g :
  inside {[Lptable]} h i s -> procs s !! i = Some p ->
  msec {[Lptable]} m -> mframe (mc s) m ->
  leaves (alter g i (procs s)) (nextpid s) (sems s) (ticks s) i p (g p) ->
  outside h (set_procs (alter g i (procs s)) (set_mc m s)).
Proof.
  intros [Hs Hh Hc [Ht Hr]] Hp Hm (Fh & Fn & Fc) Hl. constructor; simpl.
  - done.
  - congruence.
  - exists i. by rewrite Fc.
  - split; [|done]. simpl. rewrite Fc. by eapply tinv_leave.
Qed.

Lemma wp_yield_enter cs h i s :
  inside ∅ h i s -> wp P (yield_enter cs) s (fun _ s' => outside h s').
Proof.
  intros Hi. unfold yield_enter. wp_next. eapply wp_in_acq; [done|]. next_state s Hi.
  wp_next. eapply wp_in_curproc; [done|]. next_state s Hi.
  destruct (inside_cur _ _ _ _ Hi) as (p & Hp & Hr & Hok).
  wp_next. apply wp_upd. eapply wp_sched_enter with (i := i); simpl.
  - apply Hi.
  - by apply (inside_running _ _ _ _ Hi).
  - by apply lookup_alter_at.
  - done.
  - intros m n Hm Hf. rewrite list_alter_alter_eq.
    apply (outside_leave h i p s m (set_pcontext (Some (KYield cs n)) ∘ set_state RUNNABLE));
      [done..|].
    split_and!; [done|done| |left; split; [done|by exists (KYield cs n)]].
    destruct Hok as [H1 H2 H3 H4 H5]. constructor; simpl; try done. intros _. apply H5. congruence.
Qed.

Lemma asleep_alter ps ss tk i p f lk n a :
  ps !! i = Some p -> state (f p) ≠ ZOMBIE ->
  pcontext (f p) = Some (KSleep lk n a) -> kont_ok ss (KSleep lk n a) ->
  still_waits ps ss tk i (f p) a -> asleep (alter f i ps) ss tk i (f p).
Proof.
  intros Hp Hz Hc Hk Hw. exists lk, n, a. split_and!; [done..|].
  destruct a; simpl in *; [|done..]. destruct Hw as (? & ? & Hw). split_and!; [done..|].
  intros j q Hj. apply lookup_alter_inv in Hj as [(-> & x & ? & ->)|(? & ?)]; [congruence|].
  by eapply Hw.
Qed.

Lemma wp_sleep_enter c a h i p s :
  inside {[after_lock a]} h i s -> procs s !! i = Some p ->
  match a with ASemWait id => sem_valid (sems s) id | _ => True end ->
  still_waits (procs s) (sems s) (ticks s) i (set_pchan c p) a ->
  wp P (sleep_enter c (after_lock a) a) s (fun _ s' => outside h s').
Proof.
  intros Hi Hp Hsem Hw. destruct (inside_cur _ _ _ _ Hi) as (p' & Hp' & Hr & Hok). simplify_eq.
  eapply wp_sleep; [apply Hi|by eapply inside_running|done|]. intros m n Hm Hf.
  set (g := sleep_update c (KSleep (after_lock a) n a)).
  assert (inside {[Lptable]} h i (set_mc m s)) as Him by (by eapply inside_mc).
  apply (outside_leave h i p (set_mc m s) m g); [done..|].
  split_and!; [done|done| |right; split; [done|]].
  - destruct Hok as [H1 H2 H3 H4 H5]. constructor; simpl; try done.
    intros _. destruct H5 as (? & ? & ? & ? & ?); [congruence|]. split_and!; done || lia.
  - eapply asleep_alter; [done|done|done|done|]. by destruct a.
Qed.

(** ** The loops that sleep *)

Definition sem_down (x : semaphore) : semaphore := mkSem (i32 (svalue x - 1)) (allocated x).

Lemma sems_grow_alter ss i f :
  (forall x, allocated x ≠ 0 -> allocated (f x) ≠ 0) -> sems_grow ss (alter f i ss).
Proof.
  intros Hf. split; [by rewrite length_alter|]. intros j x Hx Ha.
  destruct (decide (j = i)) as [->|Hne].
  - exists (f x). split; [by apply lookup_alter_at|auto].
  - exists x. by rewrite list_lookup_alter_ne.
Qed.

Lemma wp_sem_wait_loop id h i s :
  inside {[Lsem]} h i s -> sem_valid (sems s) id ->
  wp P (sem_wait_loop id) s (handled h i).
Proof.
  intros Hi Hv. pose proof Hv as (H0 & x & Hx & Ha). unfold sem_wait_loop.
  wp_next. apply wp_gets. unfold the_sem. rewrite Hx. simpl.
  destruct (Z.leb_spec (svalue x) 0) as [Hle|Hgt].
  - destruct (inside_cur _ _ _ _ Hi) as (p & Hp & Hr & Hok).
    wp_next. eapply wp_mono; [by eapply (wp_sleep_enter _ (ASemWait id)); simpl; eauto|].
    intros [] s' Hs'. done.
  - wp_next. apply wp_modify. wp_next. eapply wp_in_rel with (h := h) (o := Some i).
    2: { intros s' Hs' _. by apply wp_ret. }
    pose proof (in_kt _ _ _ _ Hi) as [Ht _].
    apply inside_sems; [done|]. eapply tinv_steps; [done|by apply Forall_Forall2_diag, Forall_true| | |].
    + destruct Ht as [Hf _]. apply Forall_lookup_2, (fam_slot _ _ _ Hf).
    + by apply sems_grow_alter.
    + intros j p Hj Hs. split; [|done]. intros id' Hch (Hid & y & Hy & _) (z & Hz & Hle).
      exists z. split; [|done]. rewrite list_lookup_alter_ne; [done|].
      intros Heq. rewrite <- Heq in Hz. simplify_eq. lia.
Qed.

Lemma wp_sys_sleep_loop n t0 h i s :
  inside {[Lticks]} h i s -> wp P (sys_sleep_loop i n t0) s (handled h i).
Proof.
  intros Hi. unfold sys_sleep_loop. wp_next. apply wp_gets.
  destruct (inside_cur _ _ _ _ Hi) as (p & Hp & Hr & Hok).
  destruct (Z.ltb_spec (u32 (ticks s - t0)) (u32 n)) as [Hlt|Hge].
  - wp_next. apply wp_gets. unfold the_proc. rewrite Hp. simpl.
    destruct (Z.eqb_spec (killed p) 0) as [Hk|Hk]; simpl.
    + wp_next. eapply wp_mono; [by eapply (wp_sleep_enter _ (ASysSleep n t0)); simpl; eauto|].
      intros [] s' Hs'. done.
    + wp_next. eapply wp_in_rel; [done|]. intros s' Hs' _. by apply wp_ret.
  - wp_next. eapply wp_in_rel; [done|]. intros s' Hs' _. by apply wp_ret.
Qed.

Lemma wp_wait_loop h i s :
  inside {[Lptable]} h i s -> wp P (wait_loop i) s (handled h i).
Proof.
  intros Hi. unfold wait_loop. wp_next. apply wp_gets.
  destruct (inside_cur _ _ _ _ Hi) as (p & Hp & Hr & Hok).
  destruct (list_find _ (procs s)) as [[j q]|] eqn:Hl.
  - apply list_find_Some in Hl as (Hq & (Hpar & Hz) & _).
    wp_next. apply wp_env; [auto with env|]. intros _ e1. wp_next. apply wp_upd.
    wp_next. apply wp_env; [auto with env|]. intros _ e2. wp_next. apply wp_upd.
    wp_next. eapply wp_in_rel with (h := h) (o := Some i); [|intros s' Hs' _; by apply wp_ret].
    simpl. rewrite list_alter_alter_eq.
    pose proof (in_kt _ _ _ _ Hi) as [Ht _].
    apply (inside_env _ _ _ _ e2 (inside_procs _ _ _ _ _ (sems s) (ticks s) Hi
      (tinv_reap _ _ _ _ _ _ j q Ht Hq Hz))).
  - apply list_find_None in Hl. wp_next. apply wp_gets. unfold the_proc. rewrite Hp. simpl.
    destruct (_ || _) eqn:Hb.
    + wp_next. eapply wp_in_rel; [done|]. intros s' Hs' _. by apply wp_ret.
    + apply orb_false_iff in Hb as [_ Hk]. apply negb_false_iff, Z.eqb_eq in Hk.
      wp_next. eapply wp_mono; [eapply (wp_sleep_enter _ AWait); simpl; eauto|by intros [] s'].
      split_and!; [done..|]. intros j q Hj Hpq Hz.
      eapply Forall_lookup_1 in Hl; [|done]. by apply Hl.
Qed.

(** ** The calls on processes and semaphores *)

Lemma kill_slot_step p : slot_step p (kill_slot p).
Proof.
  unfold kill_slot. simpl. case_decide as Hs; constructor; simpl; auto.
  left. split_and!; [done|done|]. intros ?. congruence.
Qed.

Lemma ticks_slot np p : slot_ok np p -> slot_ok np (set_ticks_used 0 p).
Proof.
  intros [H1 H2 H3 H4 H5]. constructor; simpl; try done. intros Hl.
  destruct (H5 Hl) as (? & ? & ? & ? & ?). split_and!; done || lia.
Qed.

Lemma kill_slot_ok np p : slot_ok np p -> slot_ok np (kill_slot p).
Proof.
  intros H. assert (slot_ok np (set_killed 1 p)) as H' by (by destruct H).
  unfold kill_slot. case_decide as Hs; [|done]. apply ticks_slot.
  destruct H' as [H1 H2 H3 H4 H5]. constructor; simpl in *; try done.
  intros _. apply H5. congruence.
Qed.

Lemma quantum_slot_step q p : slot_step p (quantum_slot q p).
Proof. constructor; unfold sleeps_on; simpl; auto 10. Qed.

Lemma quantum_slot_ok q np p : 1 <= q <= 100 -> slot_ok np p -> slot_ok np (quantum_slot q p).
Proof.
  intros Hq [H1 H2 H3 H4 H5]. constructor; simpl; try done. intros Hl.
  destruct (H5 Hl) as (? & ? & ? & ? & ?). split_and!; done || lia.
Qed.

Lemma tick_sleep_step p : slot_step p (tick_sleep p).
Proof.
  unfold tick_sleep. repeat case_decide; constructor; unfold sleeps_on; simpl; auto 10.
Qed.

Lemma tick_sleep_ok np p : slot_ok np p -> slot_ok np (tick_sleep p).
Proof. unfold tick_sleep. repeat case_decide; by intros []. Qed.

Lemma wp_in_kill id h i s :
  inside ∅ h i s -> wp P (kill id) s (fun _ s' => inside ∅ h i s').
Proof.
  intros Hi. eapply wp_mono; [apply wp_kill, Hi|]. intros r s' H. cbv beta in H.
  destruct (list_find _ (procs s)) as [[j p]|] eqn:Hl; destruct H as [_ H];
    (eapply inside_at; [|exact H]); [|done].
  apply list_find_Some in Hl as (Hj & _).
  eapply inside_upd; [done..|apply kill_slot_step|apply kill_slot_ok].
  destruct (in_kt _ _ _ _ Hi) as [[Hf _] _]. by eapply fam_slot.
Qed.

Lemma wp_in_setquantum id q h i s :
  inside ∅ h i s -> wp P (setquantum_pid id q) s (fun _ s' => inside ∅ h i s').
Proof.
  intros Hi. eapply wp_mono; [apply wp_setquantum, Hi|]. intros r s' H. cbv beta in H.
  destruct (decide (1 <= q <= 100)); [|by destruct H as [_ ->]].
  destruct (list_find _ (procs s)) as [[j p]|] eqn:Hl; destruct H as [_ H];
    (eapply inside_at; [|exact H]); [|done].
  apply list_find_Some in Hl as (Hj & _).
  eapply inside_upd; [done..|apply quantum_slot_step|apply quantum_slot_ok; [done|]].
  destruct (in_kt _ _ _ _ Hi) as [[Hf _] _]. by eapply fam_slot.
Qed.

Lemma wp_in_sem_init v h i s :
  inside ∅ h i s -> wp P (sem_init v) s (fun _ s' => inside ∅ h i s').
Proof.
  intros Hi. eapply wp_mono; [apply wp_sem_init, Hi|]. intros r s' H. cbv beta in H.
  destruct (list_find _ (sems s)) as [[j x]|] eqn:Hl; destruct H as [_ H];
    (eapply inside_at; [|exact H]); [|done].
  apply list_find_Some in Hl as (Hj & Ha & _).
  pose proof (in_kt _ _ _ _ Hi) as [Ht _]. apply inside_sems; [done|].
  eapply tinv_steps; [done|by apply Forall_Forall2_diag, Forall_true| | |].
  - destruct Ht as [Hf _]. apply Forall_lookup_2, (fam_slot _ _ _ Hf).
  - by apply sems_grow_alter.
  - intros k p Hk Hs. split; [|done]. intros id Hch (Hid & y & Hy & Hya) (z & Hz & Hle).
    exists z. split; [|done]. rewrite list_lookup_alter_ne; [done|].
    intros Heq. rewrite <- Heq in Hy. simplify_eq.
Qed.

Lemma wp_in_sem_signal id h i s :
  inside ∅ h i s -> wp P (sem_signal id) s (fun _ s' => inside ∅ h i s').
Proof.
  intros Hi. eapply wp_mono; [apply wp_sem_signal, Hi|]. intros r s' H. cbv beta in H.
  destruct (bad_sem (sems s) id); destruct H as [_ H]; [by subst|].
  eapply inside_at; [|exact H]. pose proof (in_kt _ _ _ _ Hi) as [Ht _].
  apply (inside_procs _ _ _ _ _ _ (ticks s) Hi).
  eapply tinv_map; [done|auto..| |].
  - by apply sems_grow_alter.
  - intros k p Hk Hs. split; [|done]. intros id' Hch (Hid & y & Hy & Hya) (z & Hz & Hle).
    exists z. split; [|done]. rewrite list_lookup_alter_ne; [done|]. intros Heq.
    apply list_lookup_fmap_Some in Hk as (q & -> & _). rewrite <- Heq in Hch.
    by eapply wake_awake.
Qed.

Lemma bad_sem_valid ss id : bad_sem ss id = false -> sem_valid ss id.
Proof.
  unfold bad_sem. intros H. apply orb_false_iff in H as [H Ha].
  apply orb_false_iff in H as [H1 H2]. split; [lia|].
  destruct (ss !! Z.to_nat id) as [x|] eqn:Hx; simpl in Ha; [|done].
  exists x. split; [done|lia].
Qed.

Lemma wp_in_sem_wait id h i s :
  inside ∅ h i s -> wp P (sem_wait id) s (handled h i).
Proof.
  intros Hi. unfold sem_wait. wp_next. apply wp_gets.
  unfold the_sem. fold (bad_sem (sems s) id).
  destruct (bad_sem (sems s) id) eqn:Hb; [done|].
  wp_next. eapply wp_in_acq; [done|]. intros s' Hs' (m & _ & _ & ->).
  apply wp_sem_wait_loop; [done|by apply bad_sem_valid].
Qed.

Lemma wp_in_wait h i s : inside ∅ h i s -> wp P wait s (handled h i).
Proof.
  intros Hi. unfold wait. wp_next. eapply wp_in_curproc; [done|]. next_state s Hi.
  wp_next. eapply wp_in_acq; [done|]. next_state s Hi. by apply wp_wait_loop.
Qed.

(** [sbrk] *)
Lemma wp_in_growproc n h i s :
  inside ∅ h i s -> wp P (growproc n) s (fun _ s' => inside ∅ h i s').
Proof.
  intros Hi. unfold growproc. wp_next. eapply wp_in_curproc; [done|]. next_state s Hi.
  do 2 (wp_next; apply wp_gets).
  assert (forall s v ks pd, inside ∅ h i s ->
    wp P (upd_proc i (set_sz v);; on_env (switchuvm ks pd);; mret 0) s
      (fun _ s' => inside ∅ h i s')) as Hset.
  { clear s Hi. intros s v ks pd Hi. wp_next. eapply wp_in_own; [done|apply plain_sz|]. intros Hi'.
    wp_next. eapply wp_in_env; [auto with env|done|]. intros [] e Hi''. by apply wp_ret. }
  destruct (0 <? n); [|destruct (n <? 0)].
  - wp_next. eapply wp_in_env; [auto with env|done|]. intros r e He.
    destruct (r =? 0); [by apply wp_ret|]. by apply Hset.
  - wp_next. eapply wp_in_env; [auto with env|done|]. intros r e He.
    destruct (r =? 0); [by apply wp_ret|]. by apply Hset.
  - by apply Hset.
Qed.

End kspec.

Notation inside ip ls h i := (atcpu ip ls h (Some i)).
