(* ===== verification/ExitSpec.v ===== *)
(** * Exit and fork: proc.c

    The exact effect of [exit()] on the process table: files closed, children
    passed to init, the parent (and init, when it inherits a zombie) woken.
    And of [fork()]: which slot the child gets and what is in it. *)

From stdpp Require Import base numbers gmap list strings.
From S2P Require Import Prelude CString Spinlock ProcState Proc ProcRules KInv ProcSpec KSpec.
Open Scope Z_scope.
#[local] Arguments replicate : simpl never.

(** ** The loop of exit over the table *)

Lemma wake_set_parent c v p : wake c (set_parent v p) = set_parent v (wake c p).
Proof. unfold wake. simpl. by case_decide. Qed.

Lemma wake_idem c p : wake c (wake c p) = wake c p.
Proof.
  unfold wake at 1. case_decide as Hd; [|done]. destruct Hd as [Hs Hc].
  by destruct (wake_awake c p Hs).
Qed.

Lemma wake_parent c p : parent (wake c p) = parent p.
Proof. unfold wake. by case_decide. Qed.

Lemma wake_zombie c p : state (wake c p) = ZOMBIE <-> state p = ZOMBIE.
Proof. unfold wake. case_decide as Hd; [|done]. destruct Hd as [-> _]. done. Qed.

Definition zombie_child (c : nat) (p : proc) : bool :=
  bool_decide (parent p = Some c) && bool_decide (state p = ZOMBIE).

(** The table when the loop has done its first [k] entries. *)
Definition wake_if (b : bool) (c : chan) (ps : list proc) : list proc :=
  if b then wake c <$> ps else ps.

Definition reparented_upto (c : nat) (ip : option nat) (ps : list proc) (k : nat) : list proc :=
  wake_if (existsb (zombie_child c) (take k ps)) (chan_proc ip)
    ((adopt c ip <$> take k ps) ++ drop k ps).

Lemma wake_if_lookup b c ps i : wake_if b c ps !! i =
  (if b then wake c else id) <$> ps !! i.
Proof. destruct b; simpl; [apply list_lookup_fmap|by rewrite option_fmap_id]. Qed.

Lemma alter_wake_if b c ps i v :
  alter (set_parent v) i (wake_if b c ps) = wake_if b c (alter (set_parent v) i ps).
Proof.
  destruct b; simpl; [|done]. symmetry. apply list_fmap_alter.
  apply Forall_true. intros p. apply wake_set_parent.
Qed.

Lemma existsb_take_S (f : proc -> bool) ps k p :
  ps !! k = Some p -> existsb f (take (S k) ps) = existsb f (take k ps) || f p.
Proof.
  intros Hk. rewrite (take_S_r _ _ _ Hk), existsb_app. simpl. by rewrite orb_false_r.
Qed.

Lemma reparented_upto_full c ip ps :
  reparented_upto c ip ps (length ps) = reparented c ip ps.
Proof.
  unfold reparented_upto, reparented, wake_if, zombie_child.
  rewrite firstn_all, drop_all, app_nil_r. done.
Qed.

Lemma reparented_upto_at c ip ps k p : ps !! k = Some p ->
  reparented_upto c ip ps k !! k =
  Some ((if existsb (zombie_child c) (take k ps) then wake (chan_proc ip) else id) p).
Proof.
  intros Hk. unfold reparented_upto. rewrite wake_if_lookup.
  pose proof (lookup_lt_Some _ _ _ Hk).
  rewrite lookup_app_r; rewrite length_fmap, length_take; [|lia].
  rewrite lookup_drop. replace (k + (k - k `min` length ps))%nat with k by lia.
  by rewrite Hk.
Qed.

(** One entry of the loop. *)
Lemma reparented_upto_skip c ip ps k p :
  ps !! k = Some p -> parent p ≠ Some c ->
  reparented_upto c ip ps (S k) = reparented_upto c ip ps k.
Proof.
  intros Hk Hp. unfold reparented_upto. rewrite (existsb_take_S _ _ _ _ Hk).
  unfold zombie_child at 2. rewrite (bool_decide_false _ Hp), orb_false_r. f_equal.
  rewrite (take_S_r _ _ _ Hk), fmap_app, <- app_assoc. f_equal. simpl.
  unfold adopt. rewrite decide_False by done. symmetry. by apply drop_S.
Qed.

Lemma reparented_upto_adopt c ip ps k p :
  ps !! k = Some p -> parent p = Some c ->
  reparented_upto c ip ps (S k) =
  wake_if (bool_decide (state p = ZOMBIE)) (chan_proc ip)
    (alter (set_parent ip) k (reparented_upto c ip ps k)).
Proof.
  intros Hk Hp. unfold reparented_upto. rewrite alter_wake_if, (existsb_take_S _ _ _ _ Hk).
  pose proof (lookup_lt_Some _ _ _ Hk) as Hlt.
  assert (alter (set_parent ip) k ((adopt c ip <$> take k ps) ++ drop k ps) =
    (adopt c ip <$> take (S k) ps) ++ drop (S k) ps) as ->.
  { replace k with (length (adopt c ip <$> take k ps) + 0)%nat at 1
      by (rewrite length_fmap, length_take; lia).
    rewrite alter_app_r. rewrite (drop_S _ _ _ Hk).
    rewrite (take_S_r _ _ _ Hk), fmap_app, <- app_assoc. f_equal. simpl.
    unfold adopt. by rewrite decide_True. }
  unfold zombie_child at 2. rewrite (bool_decide_true _ Hp). simpl.
  destruct (existsb _ _), (bool_decide _); simpl; try done.
  rewrite <- list_fmap_compose. apply list_fmap_ext. intros i x _. symmetry. apply wake_idem.
Qed.

Lemma adopted_after_wake c ip d p p' :
  adopted c ip (wake d p) p' -> adopted c ip p p'.
Proof.
  intros H. pose proof (fun np => wake_slot d np p) as Hok. revert H Hok.
  unfold wake. case_decide as Hd; [|done]. destruct Hd as [Hs _]. intros [] Hok.
  constructor; simpl in *; auto. destruct ad_state as [->|[? ?]]; auto.
Qed.

Section exit_spec.
Context (P : failure -> Prop) {E : Type} `{EV : KEnv E} `{EO : !KEnvOk P E}.
Context (ip : nat).
Implicit Types (s : kstate E) (m : mach).

Lemma wp_reparent c s (Q : unit -> kstate E -> Prop) :
  length (procs s) = NPROC ->
  Q tt (set_procs (reparented c (initproc s) (procs s)) s) ->
  wp P (reparent c) s Q.
Proof.
  intros Hlen HQ. unfold reparent.
  apply (wp_mfor _ (fun l s' => exists k, (k <= NPROC)%nat /\ l = seq k (NPROC - k) /\
    s' = set_procs (reparented_upto c (initproc s) (procs s) k) s)).
  - exists 0%nat. split_and!; [lia|done|]. by destruct s.
  - intros j l s' (k & Hk & Hl & ->). destruct (NPROC - k)%nat as [|n] eqn:Hn; [done|].
    injection Hl as -> ->. destruct (lookup_lt_is_Some_2 (procs s) k) as [p Hp]; [lia|].
    pose proof (reparented_upto_at c (initproc s) _ _ _ Hp) as Hat.
    wp_next. apply wp_gets. unfold the_proc. simpl. rewrite Hat. simpl.
    assert (forall b : bool, parent ((if b then wake (chan_proc (initproc s)) else id) p)
      = parent p) as -> by (intros []; [apply wake_parent|done]).
    apply wp_when; intros Hd; [apply bool_decide_eq_true in Hd|apply bool_decide_eq_false in Hd].
    + wp_next. apply wp_gets. wp_next. apply wp_upd. wp_next. apply wp_gets.
      unfold the_proc. simpl. rewrite (lookup_alter_at _ _ _ _ Hat). simpl.
      assert (forall b : bool, bool_decide (state ((if b then wake (chan_proc (initproc s)) else id) p)
        = ZOMBIE) = bool_decide (state p = ZOMBIE)) as ->
        by (intros []; [apply bool_decide_ext, wake_zombie|done]).
      assert (reparented_upto c (initproc s) (procs s) (S k) =
        wake_if (bool_decide (state p = ZOMBIE)) (chan_proc (initproc s))
          (alter (set_parent (initproc s)) k (reparented_upto c (initproc s) (procs s) k)))
        as Heq by (by apply reparented_upto_adopt).
      apply wp_when; intros Hz; rewrite Hz in Heq; exists (S k);
        (split_and!; [lia|f_equal; lia|by rewrite Heq]).
    + exists (S k). split_and!; [lia|f_equal; lia|]. by erewrite reparented_upto_skip.
  - intros s' (k & Hk & Hl & ->). assert (k = NPROC) as -> by (destruct (NPROC - k)%nat eqn:?; [lia|done]).
    rewrite <- Hlen, reparented_upto_full. done.
Qed.

(** ** Closing the files *)

Definition closed_upto (k : nat) (l : list Z) : list Z := replicate k 0 ++ drop k l.

Lemma closed_upto_at k l f : l !! k = Some f -> closed_upto k l !! k = Some f.
Proof.
  intros Hf. unfold closed_upto. rewrite lookup_app_r; rewrite length_replicate; [|done].
  rewrite lookup_drop. by replace (k + (k - k))%nat with k by lia.
Qed.

Lemma closed_upto_S k l f : l !! k = Some f ->
  <[k := 0]> (closed_upto k l) = closed_upto (S k) l.
Proof.
  intros Hf. unfold closed_upto. rewrite insert_app_r_alt; rewrite length_replicate; [|done].
  by rewrite (drop_S _ _ _ Hf), Nat.sub_diag, replicate_S_end, <- app_assoc.
Qed.

Lemma wp_close_files c p s (Q : unit -> kstate E -> Prop) :
  procs s !! c = Some p -> length (ofile p) = NOFILE ->
  (forall e, Q tt (set_env e
    (set_procs (alter (set_ofile (replicate NOFILE 0)) c (procs s)) s))) ->
  wp P (close_files c) s Q.
Proof.
  intros Hp Hlen HQ. unfold close_files.
  apply (wp_mfor _ (fun l s' => exists k e, (k <= NOFILE)%nat /\ l = seq k (NOFILE - k) /\
    s' = set_env e (set_procs (alter (set_ofile (closed_upto k (ofile p))) c (procs s)) s))).
  - exists 0%nat, (env s). split_and!; [lia|done|]. unfold closed_upto. simpl. rewrite drop_0.
    destruct s; unfold set_env, set_procs; simpl in *. f_equal. symmetry.
    rewrite (alter_insert_at _ _ _ _ Hp). apply list_insert_id. rewrite Hp. by destruct p.
  - intros j l s' (k & e & Hk & Hl & ->). destruct (NOFILE - k)%nat as [|n] eqn:Hn; [done|].
    injection Hl as -> ->. destruct (lookup_lt_is_Some_2 (ofile p) k) as [f Hf]; [lia|].
    wp_next. apply wp_gets. unfold the_proc. simpl. rewrite (lookup_alter_at _ _ _ _ Hp). simpl.
    rewrite (closed_upto_at _ _ _ Hf). simpl.
    apply wp_when; intros Hz.
    + wp_next. apply wp_env; [auto with env|]. intros _ e'. apply wp_upd.
      exists (S k), e'. split_and!; [lia|f_equal; lia|]. kstate_eq.
      eapply alter_at_ext; [done|]. unfold compose. by rewrite <- (closed_upto_S _ _ _ Hf).
    + exists (S k), e. split_and!; [lia|f_equal; lia|].
      rewrite <- (closed_upto_S _ _ _ Hf), list_insert_id; [done|].
      rewrite (closed_upto_at _ _ _ Hf). f_equal. lia.
  - intros s' (k & e & Hk & Hl & ->).
    assert (k = NOFILE) as -> by (destruct (NOFILE - k)%nat eqn:?; [lia|done]).
    unfold closed_upto. rewrite drop_ge, app_nil_r by lia. apply HQ.
Qed.

(** ** Exit *)

(** The slot of [c] with its files closed and no working directory. *)
Definition cleaned (p : proc) : proc := set_cwd 0 (set_ofile (replicate NOFILE 0) p).

Definition exit_table (c : nat) (ip : option nat) (p : proc) (ps : list proc) : list proc :=
  exited c ip (wake (chan_proc (parent p)) <$> alter cleaned c ps).

Lemma wp_exit c p s Q :
  msec ∅ (mc s) -> running s = Some c -> procs s !! c = Some p ->
  state p = RUNNING -> length (ofile p) = NOFILE -> length (procs s) = NPROC ->
  (initproc s = Some c -> P (FPanic "init exiting")) ->
  (initproc s ≠ Some c -> forall m e, msec {[Lptable]} m -> mframe (mc s) m ->
    Q tt (set_mc m (set_env e (set_procs (exit_table c (initproc s) p (procs s)) s)))) ->
  wp P exit s Q.
Proof.
  intros Hm Hc Hp Hr Hof Hlen Hinit HQ. unfold exit.
  wp_next. eapply wp_curproc; [done..|]. intros m1 Hm1 Hf1.
  wp_next. apply wp_gets. simpl. case_decide as Hd; [by apply wp_panic, Hinit|].
  specialize (HQ Hd).
  wp_next. eapply wp_close_files; [done..|]. intros e1.
  wp_next. apply wp_env; [auto with env|]. intros _ e2. wp_next. apply wp_gets.
  wp_next. apply wp_env; [auto with env|]. intros _ e3.
  wp_next. apply wp_env; [auto with env|]. intros _ e4.
  wp_next. apply wp_upd. simpl. rewrite list_alter_alter_eq.
  wp_next. eapply wp_acq1; [done|]. intros m2 Hm2 Hf2.
  assert (alter (set_cwd 0 ∘ set_ofile (replicate NOFILE 0)) c (procs s) !! c = Some (cleaned p))
    as Hat by (by apply lookup_alter_at).
  wp_next. apply wp_gets. unfold the_proc. simpl. rewrite Hat. simpl.
  wp_next. apply wp_modify. simpl.
  wp_next. apply wp_reparent; [by simpl; rewrite length_fmap, length_alter|]. simpl.
  wp_next. apply wp_upd. simpl.
  destruct (reparented_at c (initproc s)
    (wake (chan_proc (parent p)) <$> alter cleaned c (procs s)) c (wake (chan_proc (parent p)) (cleaned p)))
    as (q & Hq); [by rewrite list_lookup_fmap, lookup_alter_at with (x := p)|].
  eapply wp_sched_enter with (i := c) (p := set_state ZOMBIE q).
  - done.
  - unfold running. simpl. erewrite (running_frame _ _ (set_mc m1 s)); [|done..].
    unfold running. simpl. by erewrite (running_frame _ _ s).
  - simpl. by apply lookup_alter_at.
  - done.
  - intros m3 n Hm3 Hf3. simpl. rewrite list_alter_alter_eq.
    apply (HQ m3 e4); [done|by repeat (done || etrans)].
Qed.

Lemma plain_cleaned : plain cleaned.
Proof.
  intros np p Hr [H1 H2 H3 H4 H5]. split.
  - constructor; [done..|]. left. simpl. rewrite Hr. by split_and!.
  - by constructor.
Qed.

Lemma wp_in_exit h c s :
  inside ip ∅ h c s -> (c = ip -> P (FPanic "init exiting")) ->
  wp P exit s (fun _ s' => outside ip h s').
Proof.
  intros Hi Hinit. destruct (inside_cur _ _ _ _ _ Hi) as (p & Hp & Hr & Hok).
  pose proof (in_kt _ _ _ _ _ Hi) as ([Hfam _] & _ & Hip).
  eapply wp_exit; [apply Hi|by eapply inside_running|done|done|apply Hok|apply Hfam| |].
  { intros Heq. apply Hinit. congruence. }
  intros Hne m e Hm (Fh & Fn & Fc). constructor; simpl.
  - done.
  - rewrite Fh. apply Hi.
  - exists c. rewrite Fc. apply Hi.
  - pose proof (inside_own _ _ _ _ _ _ Hi plain_cleaned) as [_ _ Hc [Ht Hrr]]. split; [|done].
    simpl in *. rewrite Fc. eapply (tinv_exit _ _ _ _ _ _ _ _ (cleaned p)) in Ht; [done|done| |done].
    by apply lookup_alter_at.
Qed.

End exit_spec.

(** ** What the table of exit holds *)

Section exit_table.
Context (c ip : nat) (p : proc) (ps : list proc).
Context (Hc : ps !! c = Some p) (Hr : state p = RUNNING).

Lemma exit_table_self :
  exists q, exit_table c (Some ip) p ps !! c = Some q /\ state q = ZOMBIE /\ pid q = pid p /\
    ofile q = replicate NOFILE 0 /\ cwd q = 0.
Proof.
  set (w := wake (chan_proc (parent p)) (cleaned p)).
  assert (w = cleaned p) as Hw.
  { unfold w, wake. rewrite decide_False; [done|]. simpl. rewrite Hr. by intros [? _]. }
  assert ((wake (chan_proc (parent p)) <$> alter cleaned c ps) !! c = Some (cleaned p)) as Hl.
  { rewrite list_lookup_fmap, (lookup_alter_at _ _ _ _ Hc). exact (f_equal Some Hw). }
  unfold exit_table. set (ps1 := wake (chan_proc (parent p)) <$> alter cleaned c ps) in *.
  assert (reparented c (Some ip) ps1 !! c = Some (if existsb (zombie_child c) ps1
    then wake (Cproc ip) (adopt c (Some ip) (cleaned p)) else adopt c (Some ip) (cleaned p))) as Hq.
  { unfold reparented. change (fun p0 => bool_decide (parent p0 = Some c) &&
      bool_decide (state p0 = ZOMBIE)) with (zombie_child c).
    clearbody ps1. destruct (existsb _ _); rewrite ?list_lookup_fmap, Hl; done. }
  eexists. unfold exited. rewrite list_lookup_alter_eq, Hq. split; [done|].
  unfold adopt, wake. repeat case_match; done.
Qed.

Lemma exit_table_other j q :
  ps !! j = Some q -> j ≠ c ->
  exists q', exit_table c (Some ip) p ps !! j = Some q' /\ adopted c (Some ip) q q' /\
    (state q' = SLEEPING -> parent p = Some j -> pchan q' ≠ Cproc j) /\
    (state q' = SLEEPING -> j = ip -> pchan q' = Cproc ip ->
     forall k r, k ≠ c -> ps !! k = Some r -> parent r = Some c -> state r ≠ ZOMBIE).
Proof.
  intros Hj Hjc. set (ps1 := wake (chan_proc (parent p)) <$> alter cleaned c ps).
  assert (ps1 !! j = Some (wake (chan_proc (parent p)) q)) as H1.
  { unfold ps1. by rewrite list_lookup_fmap, list_lookup_alter_ne, Hj. }
  destruct (reparented_at c (Some ip) ps1 j _ H1) as (q' & Hq').
  exists q'. unfold exit_table. fold ps1. unfold exited. rewrite list_lookup_alter_ne by done.
  split; [done|]. apply reparented_lookup in Hq' as (q1 & Hq1 & Ha & Hz).
  rewrite H1 in Hq1. injection Hq1 as <-. split_and!.
  - by eapply adopted_after_wake.
  - intros Hs Hp Hch. destruct Ha as [_ _ _ Hpc _ Hst _].
    eapply (wake_awake (chan_proc (parent p)) q); rewrite Hp in *; simpl in *; [|congruence].
    destruct Hst as [Hst|[_ Hst]]; congruence.
  - intros Hs -> Hch k r Hk Hkr Hpr Hzr.
    refine (Hz Hs Hch k (wake (chan_proc (parent p)) r) _ _ _).
    + unfold ps1. by rewrite list_lookup_fmap, list_lookup_alter_ne, Hkr.
    + by rewrite wake_parent.
    + by apply wake_zombie.
Qed.

End exit_table.
