(* ===== verification/ForkSpec.v ===== *)
(** * Fork: proc.c

    [allocproc()] and [fork()]: which slot a new process gets, what is in it,
    and what a failed fork leaves behind. *)

From stdpp Require Import base numbers gmap list strings.
From S2P Require Import Prelude CString Spinlock ProcState Proc ProcRules KInv ProcSpec KSpec.
Open Scope Z_scope.

(** What [allocproc()] has put in a slot when it lets go of the lock, when it
    succeeds, and when there is no memory for a kernel stack. *)
Definition fresh (np : Z) (p : proc) : proc :=
  set_stats stats0 (set_ticks_used 0 (set_timeslice DEFAULT_QUANTUM
    (set_pid np (set_state EMBRYO p)))).

Definition embryo (np ks : Z) (p : proc) : proc :=
  set_pcontext (Some KForkret) (set_kstack ks (fresh np p)).

Definition dropped (ks : Z) (np : Z) (p : proc) : proc :=
  set_pid 0 (set_state UNUSED (set_kstack ks (fresh np p))).

(** A slot that stays unused, whatever was left in its other fields. *)
Record still_unused (p q : proc) : Prop := mkStill {
  su_state : state q = UNUSED;
  su_pid : pid q = 0;
  su_parent : parent q = parent p;
  su_files : length (ofile q) = length (ofile p);
  su_name : length (pname q) = length (pname p) }.

(** The child of [pc] in the slot that held [p], with the kernel stack [ks], the page
    table [pd], the descriptors [l] and the directory [d]. *)
Definition child (c : nat) (np : Z) (pc p : proc) (ks pd : Z) (l : list Z) (d : Z) : proc :=
  set_state RUNNABLE (set_stats stats0 (set_ticks_used 0 (set_timeslice DEFAULT_QUANTUM
    (set_pname (KString.safestrcpy (pname p) (rd (pname pc)) 16) (set_cwd d (set_ofile l
      (set_tf (set_eax 0 (tf pc)) (set_parent (Some c) (set_sz (sz pc) (set_pgdir pd
        (embryo np ks p))))))))))).

Section fork_spec.
Context (P : failure -> Prop) {E : Type} `{EV : KEnv E} `{EO : !KEnvOk P E}.
Context (ip : nat).
Implicit Types (s : kstate E) (m : mach).

(** What [fork()] asks of the rest of the kernel, in this order: a kernel stack, a copy
    of the memory, a reference to each open file and one to the directory. *)
Fixpoint dups (fs : list Z) (ix : list nat) (l : list Z) : M E (list Z) :=
  match ix with
  | [] => mret l
  | i :: ix =>
      let f := default 0 (fs !! i) in
      if f =? 0 then dups fs ix l else g ← filedup f; dups fs ix (<[i := g]> l)
  end.

Definition fork_env (pc p : proc) : M E (option (Z * Z * list Z * Z)) :=
  ks ← kalloc;
  if ks =? 0 then mret None else
  pd ← copyuvm (pgdir pc) (sz pc);
  if pd =? 0 then kfree ks;; mret None else
  l ← dups (ofile pc) (seq 0 NOFILE) (ofile p);
  d ← idup (cwd pc);
  mret (Some (ks, pd, l, d)).

(** The kernel after a new pid was taken and slot [n] written. *)
Definition with_slot (s : kstate E) (n : nat) (f : proc -> proc) (e : E) : kstate E :=
  set_env e (set_nextpid (i32 (nextpid s + 1)) (set_procs (alter f n (procs s)) s)).

Lemma wp_allocproc s Q :
  msec ∅ (mc s) ->
  (list_find (fun p => state p = UNUSED) (procs s) = None ->
   forall m, msec ∅ m -> mframe (mc s) m -> Q None (set_mc m s)) ->
  (forall n p, list_find (fun p => state p = UNUSED) (procs s) = Some (n, p) -> procs s !! n = Some p -> state p = UNUSED ->
   forall m e ks, msec ∅ m -> mframe (mc s) m -> kalloc (env s) = Ok ks e ->
   if ks =? 0 then Q None (set_mc m (with_slot s n (dropped 0 (nextpid s)) e))
   else Q (Some n) (set_mc m (with_slot s n (embryo (nextpid s) ks) e))) ->
  wp P allocproc s Q.
Proof.
  intros Hm HN HS. unfold allocproc.
  wp_next. eapply wp_acq1; [done|]. intros m1 Hm1 Hf1. wp_next. apply wp_gets. simpl.
  destruct (list_find _ (procs s)) as [[n p]|] eqn:Hl.
  - pose proof Hl as (Hn & Hu & _)%list_find_Some. specialize (HS n p eq_refl Hn Hu).
    wp_next. apply wp_upd. wp_next. apply wp_gets. wp_next. apply wp_upd. simpl.
    wp_next. apply wp_modify. do 3 (wp_next; apply wp_upd). simpl.
    rewrite !list_alter_alter_eq.
    wp_next. eapply wp_rel1; [done|]. intros m2 Hm2 Hf2.
    assert (mframe (mc s) m2) as Hf by (by repeat (done || etrans)).
    wp_next. apply wp_env_run; [auto with env|]. intros ks e He. wp_next. apply wp_upd. simpl in He |- *.
    rewrite list_alter_alter_eq. specialize (HS m2 e ks Hm2 Hf He) as HS2. destruct (Z.eqb_spec ks 0) as [->|Hks].
    + wp_next. eapply wp_acq1; [done|]. intros m3 Hm3 Hf3. do 2 (wp_next; apply wp_upd).
      wp_next. eapply wp_rel1; [done|]. intros m4 Hm4 Hf4. apply wp_ret. simpl.
      rewrite !list_alter_alter_eq.
      specialize (HS m4 e 0). apply HS; [done|by repeat (done || etrans)|done].
    + wp_next. apply wp_upd. simpl. rewrite list_alter_alter_eq. by apply wp_ret.
  - wp_next. eapply wp_rel1; [done|]. intros m2 Hm2 Hf2.
    apply wp_ret. apply (HN eq_refl m2); [done|by repeat (done || etrans)].
Qed.

(** The loop that duplicates the parent's open files. *)
Lemma wp_dup_files c n pc q s (Q : unit -> kstate E -> Prop) :
  procs s !! c = Some pc -> procs s !! n = Some q -> c ≠ n ->
  (forall e l, dups (ofile pc) (seq 0 NOFILE) (ofile q) (env s) = Ok l e ->
    Q tt (set_env e (set_procs (alter (set_ofile l) n (procs s)) s))) ->
  wp P (dup_files c n) s Q.
Proof.
  intros Hc Hn Hne. unfold dup_files. generalize (seq 0 NOFILE) as ix. intros ix. revert s q Hc Hn.
  induction ix as [|i ix IH]; intros s q Hc Hn HQ; cbn [mfor].
  - apply wp_ret. specialize (HQ (env s) (ofile q) eq_refl). rewrite (alter_insert_at _ _ _ _ Hn), list_insert_id in HQ; [by destruct s|].
    rewrite Hn. by destruct q.
  - wp_next. wp_next. apply wp_gets. assert (the_proc s c = pc) as -> by (unfold the_proc; by rewrite Hc). cbn [dups] in HQ.
    destruct (Z.eqb_spec (default 0 (ofile pc !! i)) 0) as [Hz|Hz]; cbn [negb when]; [apply wp_ret; by eapply IH|].
    wp_next. apply wp_env_run; [auto with env|]. intros g e Hg. apply wp_upd. eapply (IH _ (set_ofile (<[i := g]> (ofile q)) q)); cbn [procs env set_procs set_env].
    + by rewrite list_lookup_alter_ne.
    + by rewrite (lookup_alter_at _ _ _ _ Hn).
    + intros e' l Hl. specialize (HQ e' l). replace (set_env e' _) with (set_env e' (set_procs (alter (set_ofile l) n (procs s)) s));
        [|kstate_eq; by eapply alter_at_ext].
      apply HQ. by rewrite (bind_ok _ _ _ _ _ Hg).
Qed.

Lemma with_slot_const s n p f e : procs s !! n = Some p ->
  with_slot s n f e = with_slot s n (fun _ => f p) e.
Proof. intros Hn. unfold with_slot. do 2 f_equal. f_equal. by eapply alter_at_ext. Qed.

Lemma with_slot_upd s n p f e g : procs s !! n = Some p ->
  set_procs (alter g n (procs (with_slot s n f e))) (with_slot s n f e) =
  with_slot s n (fun _ => g (f p)) e.
Proof.
  intros Hn. unfold with_slot, set_env, set_nextpid, set_procs. simpl. f_equal.
  rewrite list_alter_alter_eq. by eapply alter_at_ext.
Qed.

(** A step of [fork()] that writes a field of the child. *)
Lemma wp_slot s n p m f e g (Q : unit -> kstate E -> Prop) :
  procs s !! n = Some p ->
  Q tt (set_mc m (with_slot s n (fun _ => g (f p)) e)) ->
  wp P (upd_proc n g) (set_mc m (with_slot s n f e)) Q.
Proof. intros Hn HQ. apply wp_upd. rewrite <- (with_slot_upd s n p f e g Hn) in HQ. exact HQ. Qed.

Lemma the_proc_slot s n p m f e : procs s !! n = Some p ->
  the_proc (set_mc m (with_slot s n f e)) n = f p.
Proof. intros Hn. unfold the_proc. simpl. by rewrite (lookup_alter_at _ _ _ _ Hn). Qed.

Lemma the_proc_other s n c pc m f e : procs s !! c = Some pc -> c ≠ n ->
  the_proc (set_mc m (with_slot s n f e)) c = pc.
Proof. intros Hc Hne. unfold the_proc. simpl. by rewrite list_lookup_alter_ne, Hc. Qed.

Lemma wp_fork c pc s Q :
  msec ∅ (mc s) -> running s = Some c -> procs s !! c = Some pc -> state pc = RUNNING ->
  (list_find (fun p => state p = UNUSED) (procs s) = None ->
   forall m, msec ∅ m -> mframe (mc s) m -> Q (-1) (set_mc m s)) ->
  (forall n p, list_find (fun p => state p = UNUSED) (procs s) = Some (n, p) -> procs s !! n = Some p -> state p = UNUSED ->
   forall m e x, msec ∅ m -> mframe (mc s) m -> fork_env pc p (env s) = Ok x e ->
   match x with
   | None => forall q, still_unused p q -> Q (-1) (set_mc m (with_slot s n (fun _ => q) e))
   | Some (ks, pd, l, d) => Q (nextpid s) (set_mc m (with_slot s n (fun _ => child c (nextpid s) pc p ks pd l d) e))
   end) ->
  wp P fork s Q.
Proof.
  intros Hm Hr Hc Hst Hfull Hok. unfold fork.
  wp_next. eapply wp_curproc; [done..|]. intros m1 Hm1 Hf1.
  wp_next. apply wp_allocproc; [done| |].
  { intros Hall m2 Hm2 Hf2. apply wp_ret.
    apply (Hfull Hall m2); [done|by repeat (done || etrans)]. }
  simpl. intros n p Hl Hn Hu m2 e1 ks Hm2 Hf2 E1. specialize (Hok n p Hl Hn Hu). unfold fork_env in Hok.
  assert (mframe (mc s) m2) as Hfr by (by repeat (done || etrans)).
  change (with_slot (set_mc m1 s)) with (fun n f e => set_mc m1 (with_slot s n f e)).
  cbv beta. destruct (Z.eqb_spec ks 0) as [->|Hks].
  { apply wp_ret. change (Q (-1) (set_mc m2 (with_slot s n (dropped 0 (nextpid s)) e1))).
    rewrite (with_slot_const _ _ _ _ _ Hn). apply (Hok m2 e1 None); [done|done| |done]. by rewrite (bind_ok _ _ _ _ _ E1). }
  assert (c ≠ n) as Hne by congruence.
  change (set_mc m2 (set_mc m1 ?x)) with (set_mc m2 x).
  do 2 (wp_next; apply wp_gets; rewrite (the_proc_other _ _ _ _ _ _ _ Hc Hne)).
  wp_next. apply wp_env_run; [auto with env|]. intros pd e2 E2. cbn [env set_mc with_slot set_env] in E2.
  change (set_env e2 (set_mc m2 (with_slot s n ?f e1))) with (set_mc m2 (with_slot s n f e2)).
  wp_next. apply (wp_slot _ _ _ _ _ _ _ _ Hn).
  destruct (Z.eqb_spec pd 0) as [->|Hpd].
  { wp_next. apply wp_gets. rewrite (the_proc_slot _ _ _ _ _ _ Hn).
    wp_next. apply wp_env_run; [auto with env|]. intros [] e3 E3. cbn in E3.
    change (set_env e3 (set_mc m2 (with_slot s n ?f e2))) with (set_mc m2 (with_slot s n f e3)).
    wp_next. apply (wp_slot _ _ _ _ _ _ _ _ Hn).
    wp_next. eapply wp_acq1; [done|]. intros m3 Hm3 Hf3.
    change (set_mc m3 (set_mc m2 ?x)) with (set_mc m3 x).
    do 2 (wp_next; apply (wp_slot _ _ _ _ _ _ _ _ Hn)).
    wp_next. eapply wp_rel1; [done|]. intros m4 Hm4 Hf4.
    change (set_mc m4 (set_mc m3 ?x)) with (set_mc m4 x).
    apply wp_ret. apply (Hok m4 e3 None); [done|by repeat (done || etrans)| |by constructor].
    rewrite (bind_ok _ _ _ _ _ E1), (proj2 (Z.eqb_neq ks 0) Hks), (bind_ok _ _ _ _ _ E2). cbn [Z.eqb]. by rewrite (bind_ok _ _ _ _ _ E3). }
  do 2 (wp_next; apply (wp_slot _ _ _ _ _ _ _ _ Hn)).
  wp_next. apply wp_gets. rewrite (the_proc_other _ _ _ _ _ _ _ Hc Hne).
  do 2 (wp_next; apply (wp_slot _ _ _ _ _ _ _ _ Hn)).
  set (q := set_tf _ _).
  wp_next. eapply (wp_dup_files c n pc q).
  { simpl. by rewrite list_lookup_alter_ne. }
  { simpl. by rewrite (lookup_alter_at _ _ _ _ Hn). }
  { done. }
  intros e3 l E3. cbn [env set_mc with_slot set_env] in E3. change (ofile q) with (ofile p) in E3.
  pose proof (with_slot_upd s n p (fun _ => q) e3 (set_ofile l) Hn) as Heq.
  replace (set_env e3 _) with (set_mc m2 (with_slot s n (fun _ => set_ofile l q) e3));
    [|rewrite <- Heq; done].
  clear Heq.
  wp_next. apply wp_gets. rewrite (the_proc_other _ _ _ _ _ _ _ Hc Hne).
  wp_next. apply wp_env_run; [auto with env|]. intros d e4 E4. cbn in E4.
  change (set_env e4 (set_mc m2 (with_slot s n ?f e3))) with (set_mc m2 (with_slot s n f e4)).
  wp_next. apply (wp_slot _ _ _ _ _ _ _ _ Hn).
  wp_next. apply wp_gets. rewrite (the_proc_other _ _ _ _ _ _ _ Hc Hne).
  wp_next. apply (wp_slot _ _ _ _ _ _ _ _ Hn).
  wp_next. apply wp_gets. rewrite (the_proc_slot _ _ _ _ _ _ Hn).
  wp_next. eapply wp_acq1; [done|]. intros m3 Hm3 Hf3.
  change (set_mc m3 (set_mc m2 ?x)) with (set_mc m3 x).
  do 4 (wp_next; apply (wp_slot _ _ _ _ _ _ _ _ Hn)).
  wp_next. eapply wp_rel1; [done|]. intros m4 Hm4 Hf4.
  change (set_mc m4 (set_mc m3 ?x)) with (set_mc m4 x).
  apply wp_ret. assert (fork_env pc p (env s) = Ok (Some (ks, pd, l, d)) e4) as HE.
  { unfold fork_env. rewrite (bind_ok _ _ _ _ _ E1), (proj2 (Z.eqb_neq ks 0) Hks), (bind_ok _ _ _ _ _ E2), (proj2 (Z.eqb_neq pd 0) Hpd).
    by rewrite (bind_ok _ _ _ _ _ E3), (bind_ok _ _ _ _ _ E4). }
  assert (mframe (mc s) m4) as Hf by (by repeat (done || etrans)). specialize (Hok m4 e4 _ Hm4 Hf HE). simpl in Hok |- *. exact Hok.
Qed.

(** ** Fork keeps the invariant *)

Lemma still_unused_ok np p q : slot_ok np p -> state p = UNUSED -> still_unused p q ->
  slot_step p q /\ slot_ok np q.
Proof.
  intros [H1 H2 H3 H4 H5] Hu [E1 E2 E3 E4 E5]. destruct (H4 Hu) as [Hp0 Hpar]. split.
  - constructor; [congruence|done|]. left. rewrite E1, Hu. by split_and!.
  - constructor; [congruence|congruence|by rewrite E1|intros _; split; congruence|].
    intros Hl. congruence.
Qed.

Lemma dups_length fs ix l e l' e' : dups fs ix l e = Ok l' e' -> length l' = length l.
Proof.
  revert l e. induction ix as [|i ix IH]; intros l e; cbn [dups]; [by intros [= <- <-]|].
  destruct (_ =? 0); [apply IH|]. intros (g & e1 & _ & H)%bind_inv. by rewrite (IH _ _ H), length_insert.
Qed.

(** Where [filedup] returns its argument, the child has the parent's descriptors. *)
Lemma dups_same fs ix l e l' e' : (forall f e g e', filedup f e = Ok g e' -> g = f) -> dups fs ix l e = Ok l' e' ->
  forall i, l' !! i = if decide (i ∈ ix /\ default 0 (fs !! i) ≠ 0 /\ (i < length l)%nat) then fs !! i else l !! i.
Proof.
  intros Hd. revert l e. induction ix as [|k ix IH]; intros l e; cbn [dups].
  - intros [= <- <-] i. rewrite decide_False; [done|]. intros [H _]. by apply not_elem_of_nil in H.
  - destruct (Z.eqb_spec (default 0 (fs !! k)) 0) as [Hz|Hz].
    + intros H i. rewrite (IH _ _ H). apply decide_ext. rewrite elem_of_cons. split; [tauto|]. by intros ([->|?] & ? & ?).
    + intros (g & e1 & ->%Hd & H)%bind_inv i. rewrite (IH _ _ H), length_insert. destruct (decide (i = k)) as [->|Hik].
      * destruct (decide (k < length l)%nat) as [Hk|Hk].
        -- rewrite (decide_True (P := k ∈ k :: ix /\ _)) by (split; [left|done]).
           rewrite list_lookup_insert_eq by done. case_decide; [done|]. by destruct (fs !! k).
        -- rewrite !decide_False by tauto. by rewrite list_insert_ge by lia.
      * rewrite list_lookup_insert_ne by done. apply decide_ext. rewrite elem_of_cons. tauto.
Qed.

Lemma dups_all fs l e l' e' : (forall f e g e', filedup f e = Ok g e' -> g = f) -> length fs = NOFILE -> length l = NOFILE ->
  dups fs (seq 0 NOFILE) l e = Ok l' e' -> l' = zip_with (fun f o => if f =? 0 then o else f) fs l.
Proof.
  intros Hd Hf Hl H. apply list_eq. intros i. rewrite (dups_same _ _ _ _ _ _ Hd H), lookup_zip_with.
  generalize (elem_of_seq 0 NOFILE i). generalize (seq 0 NOFILE) as ix. intros ix Hix.
  destruct (fs !! i) as [f|] eqn:E1; cbn.
  - pose proof (lookup_lt_Some _ _ _ E1). destruct (lookup_lt_is_Some_2 l i) as [o Eo]; [lia|]. rewrite Eo. cbn.
    destruct (Z.eqb_spec f 0) as [->|?]; [rewrite decide_False by tauto|rewrite decide_True by (split_and!; [apply Hix; lia|done|lia])]; done.
  - rewrite decide_False by tauto. apply lookup_ge_None. apply lookup_ge_None in E1. lia.
Qed.

Lemma fork_env_some pc p e ks pd l d e' : fork_env pc p e = Ok (Some (ks, pd, l, d)) e' ->
  ks ≠ 0 /\ pd ≠ 0 /\ exists e1 e2, dups (ofile pc) (seq 0 NOFILE) (ofile p) e1 = Ok l e2 /\ idup (cwd pc) e2 = Ok d e'.
Proof.
  unfold fork_env. intros (k & e1 & _ & H)%bind_inv. destruct (Z.eqb_spec k 0); [done|].
  apply bind_inv in H as (g & e2 & _ & H). destruct (Z.eqb_spec g 0); [by apply bind_inv in H as (? & ? & _ & ?)|].
  apply bind_inv in H as (l' & e3 & H1 & H). apply bind_inv in H as (d' & e4 & H2 & [= <- <- <- <- <-]). eauto 10.
Qed.

Lemma child_ok c np pc p ks pd l d : 1 <= np -> slot_ok np p -> ks ≠ 0 -> pd ≠ 0 -> length l = length (ofile p) ->
  slot_ok (np + 1) (child c np pc p ks pd l d).
Proof.
  intros Hnp [H1 H2 H3 H4 H5] Hks Hpd Hl. constructor; cbn.
  - congruence.
  - rewrite KString.safestrcpy_length. done.
  - done.
  - done.
  - intros _. unfold DEFAULT_QUANTUM. split_and!; done || lia.
Qed.

Lemma inside_slot ls h c s n f e m :
  inside ip ls h c s -> msec ls m -> mframe (mc s) m -> nextpid s < 2147483647 ->
  tinv (alter f n (procs s)) (cps (mc s)) (initproc s) (nextpid s + 1) (sems s) (ticks s) ->
  inside ip ls h c (set_mc m (with_slot s n f e)).
Proof.
  intros [H1 H2 H3 [Ht Hr]] Hm (Fh & Fn & Fc) Hnp Ht'.
  destruct Ht as [Hf _]. pose proof (fam_np _ _ _ Hf).
  constructor; simpl; [done|congruence|by rewrite Fc|].
  split; [|done]. simpl. rewrite Fc, i32_small by lia. done.
Qed.

Lemma wp_in_fork h c s :
  inside ip ∅ h c s -> nextpid s < 2147483647 ->
  wp P fork s (fun _ s' => inside ip ∅ h c s').
Proof.
  intros Hi Hnp. destruct (inside_cur _ _ _ _ _ Hi) as (pc & Hc & Hr & Hok).
  pose proof (in_kt _ _ _ _ _ Hi) as [Ht _]. pose proof Ht as [Hf _].
  pose proof (fam_np _ _ _ Hf) as Hnp1.
  eapply wp_fork; [apply Hi|by eapply inside_running|done|done|..].
  - intros _ m Hm Hfr. by eapply inside_mc.
  - intros n p _ Hn Hu m e [[[[ks pd] l] d]|] Hm Hfr He; [|intros q Hs]; (eapply inside_slot; [done..|]).
    + pose proof (fam_slot _ _ _ Hf n p Hn) as Hsl. destruct (fork_env_some _ _ _ _ _ _ _ _ He) as (Hks & Hpd & ? & ? & Hl & _).
      pose proof (child_ok c (nextpid s) pc p ks pd l d Hnp1 Hsl Hks Hpd (dups_length _ _ _ _ _ _ Hl)).
      by apply (tinv_fork _ _ _ _ _ _ n p c pc (fun _ => child c (nextpid s) pc p ks pd l d)).
    + assert (slot_ok (nextpid s + 1) p) as Hsl.
      { eapply slot_ok_np; [|by eapply (fam_slot _ _ _ Hf)]. lia. }
      destruct (still_unused_ok _ _ _ Hsl Hu Hs).
      eapply tinv_upd; [|done..]. eapply tinv_np; [done|lia].
Qed.

End fork_spec.
