(* ===== verification/ProcThms.v ===== *)
(** * The process calls of proc.c: correctness

    [fork], [exit], [wait], [kill], the calls on quanta and statistics, and the
    semaphores: results and effects on every branch. *)

From stdpp Require Import base numbers gmap list strings.
From S2P Require Import Prelude CString Spinlock ProcState Proc ProcRules KInv ProcSpec KSpec.
From S2P Require Import ExitSpec ForkSpec.
Open Scope Z_scope.

Section thms.
Context {E : Type} `{EV : KEnv E}.
Implicit Types (s : kstate E) (m : mach).

(** C25. [fork()] by a RUNNING process [c], when the rest of the kernel does not
    fail and [filedup] and [idup] return their arguments.  Without an UNUSED slot it
    returns -1 and changes nothing.  Else it asks the rest of the kernel for exactly
    what [fork_env] lists: a kernel stack, a copy of the memory, a reference to each
    open file and one to the current directory.  When there is no stack or no copy, it
    returns -1, a stack it got is given back, and only the slot, still UNUSED, changed.
    Else the first UNUSED slot holds the child, RUNNABLE, with the next pid, which
    [fork] returns: the new stack and page table, [c] as parent, [c]'s size, name,
    current directory and open files, a copy of [c]'s trap frame that returns 0, the
    default quantum and zeroed statistics.  Nothing else changes. *)
Theorem fork_correct c pc s `{!KEnvOk no_failure E} :
  (forall f e g e', filedup f e = Ok g e' -> g = f) -> (forall i e d e', idup i e = Ok d e' -> d = i) ->
  msec ∅ (mc s) -> running s = Some c -> procs s !! c = Some pc -> state pc = RUNNING ->
  Forall (fun p => length (ofile p) = NOFILE) (procs s) ->
  exists r s', fork s = Ok r s' /\ msec ∅ (mc s') /\
    match list_find (fun p => state p = UNUSED) (procs s) with
    | None => r = -1 /\ s' = set_mc (mc s') s
    | Some (n, p) => exists x e', fork_env pc p (env s) = Ok x e' /\
        match x with
        | None => r = -1 /\ exists q, still_unused p q /\ s' = set_mc (mc s') (with_slot s n (fun _ => q) e')
        | Some (ks, pd, l, d) => r = nextpid s /\ d = cwd pc /\
            l = zip_with (fun f o => if f =? 0 then o else f) (ofile pc) (ofile p) /\
            s' = set_mc (mc s') (with_slot s n (fun _ => child c (nextpid s) pc p ks pd l d) e')
        end
    end.
Proof.
  intros Hdup Hid Hm Hr Hc Hst Hlen. apply wp_total. eapply (wp_fork no_failure); [done..| |].
  - intros Hl m Hm' Hf. rewrite Hl. done.
  - intros n p Hl Hn Hu m e x Hm' Hf He. rewrite Hl. destruct x as [[[[ks pd] l] d]|].
    + split; [done|]. eexists _, _. split; [exact He|]. cbn. destruct (fork_env_some _ _ _ _ _ _ _ _ He) as (_ & _ & e1 & e2 & Hd & Hi).
      split_and!; [done|by eapply Hid| |done]. rewrite Forall_lookup in Hlen. eapply dups_all; [done|by eapply Hlen|by eapply Hlen|done].
    + intros q Hq. split; [done|]. eexists _, _. split; [exact He|]. cbn. eauto.
Qed.

(** C26. [exit()] by process [c] (not init): it ends holding ptable.lock with the
    CPU given up.  [c] is a ZOMBIE without open files or working directory;
    every other slot keeps its pid, its data and its parent, except that the
    children of [c] now belong to init; and whoever slept in [wait()] as the
    parent of [c], or as init when [c] leaves it a zombie, is RUNNABLE. *)
Theorem exit_correct c p ip s `{!KEnvOk no_failure E} :
  msec ∅ (mc s) -> running s = Some c -> procs s !! c = Some p -> state p = RUNNING ->
  length (ofile p) = NOFILE -> length (procs s) = NPROC ->
  initproc s = Some ip -> ip ≠ c ->
  exists s', exit s = Ok tt s' /\ msec {[Lptable]} (mc s') /\
    (exists q, procs s' !! c = Some q /\ state q = ZOMBIE /\ pid q = pid p /\
       ofile q = replicate NOFILE 0 /\ cwd q = 0) /\
    (forall j q, procs s !! j = Some q -> j ≠ c -> exists q', procs s' !! j = Some q' /\
       adopted c (Some ip) q q' /\
       (state q' = SLEEPING -> parent p = Some j -> pchan q' ≠ Cproc j) /\
       (state q' = SLEEPING -> j = ip -> pchan q' = Cproc ip ->
        forall k r, k ≠ c -> procs s !! k = Some r -> parent r = Some c -> state r ≠ ZOMBIE)).
Proof.
  intros Hm Hr Hc Hst Hof Hlen Hip Hne.
  enough (wp no_failure exit s (fun _ s' => msec {[Lptable]} (mc s') /\
    exists m e, s' = set_mc m (set_env e (set_procs (exit_table c (Some ip) p (procs s)) s)))) as H.
  { destruct (wp_total _ _ _ H) as ([] & s' & He & Hm' & m & e & ->). exists (set_mc m
      (set_env e (set_procs (exit_table c (Some ip) p (procs s)) s))).
    split; [done|]. split; [done|]. simpl. split; [by apply exit_table_self|].
    intros j q Hj Hjc. by apply exit_table_other. }
  eapply (wp_exit no_failure c p); [done..| |].
  - intros Heq. congruence.
  - intros _ m e Hm' Hf. split; [done|]. exists m, e. by rewrite Hip.
Qed.

(** ** wait *)

Lemma wp_wait c p s `{!KEnvOk no_failure E} :
  msec ∅ (mc s) -> running s = Some c -> procs s !! c = Some p ->
  wp no_failure wait s (fun f s' =>
    match list_find (fun q => parent q = Some c /\ state q = ZOMBIE) (procs s) with
    | Some (j, q) => f = Back (pid q) /\ msec ∅ (mc s') /\
        procs s' = alter (fun x => reap (set_kstack 0 x)) j (procs s)
    | None =>
        if existsb (fun q => bool_decide (parent q = Some c)) (procs s) && (killed p =? 0)
        then f = Gone /\ msec {[Lptable]} (mc s') /\ exists n, procs s' =
          alter (sleep_update (Cproc c) (KSleep Lptable n AWait)) c (procs s)
        else f = Back (-1) /\ msec ∅ (mc s') /\ procs s' = procs s
    end).
Proof.
  intros Hm Hr Hc. unfold wait. wp_next. eapply wp_curproc; [done..|]. intros m1 Hm1 Hf1.
  wp_next. eapply wp_acq1; [done|]. intros m2 Hm2 Hf2. unfold wait_loop.
  wp_next. apply wp_gets. simpl.
  destruct (list_find _ (procs s)) as [[j q]|].
  - wp_next. apply wp_env; [auto with env|]. intros _ e1. wp_next. apply wp_upd.
    wp_next. apply wp_env; [auto with env|]. intros _ e2. wp_next. apply wp_upd.
    wp_next. eapply wp_rel1; [done|]. intros m3 Hm3 Hf3. apply wp_ret. simpl.
    by rewrite list_alter_alter_eq.
  - wp_next. apply wp_gets. unfold the_proc. simpl. rewrite Hc. simpl.
    destruct (existsb _ (procs s)), (killed p =? 0); simpl;
      try (wp_next; eapply wp_rel1; [done|]; intros m3 Hm3 Hf3; by apply wp_ret).
    wp_next. eapply wp_sleep; [done| |done|].
    { change (running (set_mc m2 s) = Some c). rewrite (running_mc ∅ {[Lptable]});
        [done|done|done|by repeat (done || etrans)]. }
    intros m3 n Hm3 Hf3. apply wp_ret. split_and!; [done..|]. by exists n.
Qed.

(** C27. [wait()] by process [c], when the rest of the kernel does not fail.  With a
    zombie child it returns the pid of one, whose slot becomes UNUSED with no
    pid, no parent and no kernel stack, and every other slot is as it was.
    Without children, or when [c] was killed, it returns -1 and changes
    nothing.  Otherwise [c] goes to sleep on itself, holding ptable.lock, and
    nothing else changes. *)
Theorem wait_correct c p s `{!KEnvOk no_failure E} :
  msec ∅ (mc s) -> running s = Some c -> procs s !! c = Some p -> state p = RUNNING ->
  exists f s', wait s = Ok f s' /\
  ((exists j q q', procs s !! j = Some q /\ parent q = Some c /\ state q = ZOMBIE /\
      f = Back (pid q) /\ msec ∅ (mc s') /\ procs s' = <[j := q']> (procs s) /\
      state q' = UNUSED /\ pid q' = 0 /\ parent q' = None /\ kstack q' = 0 /\ killed q' = 0) \/
   (f = Back (-1) /\ msec ∅ (mc s') /\ procs s' = procs s /\
      (forall j q, procs s !! j = Some q -> parent q = Some c -> state q ≠ ZOMBIE) /\
      (killed p ≠ 0 \/ forall j q, procs s !! j = Some q -> parent q ≠ Some c)) \/
   (f = Gone /\ msec {[Lptable]} (mc s') /\ killed p = 0 /\
      (forall j q, procs s !! j = Some q -> parent q = Some c -> state q ≠ ZOMBIE) /\
      (exists j q, procs s !! j = Some q /\ parent q = Some c) /\
      exists q, procs s' = <[c := q]> (procs s) /\ state q = SLEEPING /\ pchan q = Cproc c)).
Proof.
  intros Hm Hr Hc Hst.
  destruct (wp_total _ _ _ (wp_wait c p s Hm Hr Hc)) as (f & s' & Hrun & H).
  exists f, s'. split; [done|].
  destruct (list_find _ (procs s)) as [[j q]|] eqn:Hl.
  - apply list_find_Some in Hl as (Hj & [Hp Hz] & _). destruct H as (-> & Hm' & Hps).
    left. exists j, q, (reap (set_kstack 0 q)).
    rewrite (alter_insert_at _ _ _ _ Hj) in Hps. by split_and!.
  - apply list_find_None in Hl. right.
    assert (forall j q, procs s !! j = Some q -> parent q = Some c -> state q ≠ ZOMBIE) as Hnz.
    { intros j q Hj Hp Hz. eapply Forall_lookup_1 in Hl; [|done]. by apply Hl. }
    destruct (existsb _ (procs s)) eqn:He; simpl in H; [destruct (Z.eqb_spec (killed p) 0) as [Hk|Hk]|].
    + right. destruct H as (-> & Hm' & n & Hps). split_and!; [done..| |].
      * apply existsb_exists in He as (q & Hin & Hq). apply bool_decide_eq_true in Hq.
        apply list_elem_of_In, list_elem_of_lookup in Hin as [j Hj]. eauto.
      * rewrite (alter_insert_at _ _ _ _ Hc) in Hps. by eexists.
    + left. destruct H as (-> & Hm' & Hps). split_and!; [done..|]. by left.
    + left. destruct H as (-> & Hm' & Hps). split_and!; [done..|]. right.
      intros j q Hj Hp. apply not_true_iff_false in He. apply He, existsb_exists.
      exists q. split; [by eapply list_elem_of_In, list_elem_of_lookup_2|]. by apply bool_decide_eq_true.
Qed.

(** ** kill *)

Lemma at_mc_sec ls s s' : at_mc ls s s' -> msec ls (mc s') /\ procs s' = procs s /\ sems s' = sems s.
Proof. by intros (m & ? & ? & ->). Qed.

(** [kill(id)] on a table with unique pids: the process with that pid is marked
    killed, and made RUNNABLE if it was SLEEPING; nothing else changes and the
    call returns 0.  When no slot has that pid it returns -1 and changes
    nothing. *)
Theorem kill_correct id s ip np :
  msec ∅ (mc s) -> fam_ok (procs s) ip np -> id ≠ 0 ->
  exists r s', kill id s = Ok r s' /\ msec ∅ (mc s') /\
  ((r = 0 /\ exists i p p', procs s !! i = Some p /\ state p ≠ UNUSED /\ pid p = id /\
      (forall j q, procs s !! j = Some q -> pid q = id -> j = i) /\
      procs s' = <[i := p']> (procs s) /\ killed p' = 1 /\ pid p' = pid p /\
      state p' = (if decide (state p = SLEEPING) then RUNNABLE else state p)) \/
   (r = -1 /\ procs s' = procs s /\ forall j q, procs s !! j = Some q -> pid q ≠ id)).
Proof.
  intros Hm Hf Hid. destruct (wp_total _ _ _ (wp_kill no_failure id s Hm)) as (r & s' & Hk & H).
  exists r, s'. split; [done|].
  destruct (list_find _ (procs s)) as [[i p]|] eqn:Hl; destruct H as [-> H];
    apply at_mc_sec in H as (Hm' & Hps & _); (split; [done|]).
  - left. split; [done|]. apply list_find_Some in Hl as (Hi & Hp & _). simpl in Hps.
    assert (forall j q, procs s !! j = Some q -> pid q = id -> state q ≠ UNUSED) as Hlive.
    { intros j q Hj Hq Hu. destruct (slot_unused _ _ (fam_slot _ _ _ Hf j q Hj) Hu). congruence. }
    exists i, p, (kill_slot p). rewrite (alter_insert_at _ _ _ _ Hi) in Hps.
    split_and!; [done|by eapply Hlive|done| |done|..].
    + intros j q Hj Hq. eapply (fam_pid _ _ _ Hf j i q p); [done|done|by eapply Hlive..|congruence].
    + unfold kill_slot. simpl. by repeat case_decide.
    + unfold kill_slot. simpl. by repeat case_decide.
    + unfold kill_slot. simpl. by repeat case_decide.
  - right. split_and!; [done|done|]. apply list_find_None in Hl.
    intros j q Hj. by eapply Forall_lookup_1 in Hl.
Qed.

(** [kill(0)] does not fail as long as the table has an UNUSED slot: it marks
    that slot killed, returns 0, and the next process to use the slot starts
    out killed ([fork] keeps the field). *)
Theorem kill_zero_marks_unused s ip np :
  msec ∅ (mc s) -> fam_ok (procs s) ip np ->
  (exists i p, procs s !! i = Some p /\ state p = UNUSED) ->
  exists s' i p', kill 0 s = Ok 0 s' /\ procs s' !! i = Some p' /\
    state p' = UNUSED /\ killed p' = 1 /\
    forall c pid' pc ks pd l d, killed (child c pid' pc p' ks pd l d) = 1.
Proof.
  intros Hm Hf (i0 & p0 & Hi0 & Hu0).
  destruct (wp_total _ _ _ (wp_kill no_failure 0 s Hm)) as (r & s' & Hk & H).
  destruct (list_find _ (procs s)) as [[i p]|] eqn:Hl.
  - destruct H as [-> H]. apply at_mc_sec in H as (Hm' & Hps & _). simpl in Hps.
    apply list_find_Some in Hl as (Hi & Hp & _).
    assert (state p = UNUSED) as Hu.
    { destruct (decide (state p = UNUSED)) as [|Hne]; [done|].
      destruct (slot_live _ _ (fam_slot _ _ _ Hf i p Hi) Hne). lia. }
    exists s', i, (kill_slot p). split_and!; [done|..].
    + rewrite Hps. by apply lookup_alter_at.
    + unfold kill_slot. simpl. by rewrite Hu.
    + unfold kill_slot. simpl. by repeat case_decide.
    + intros c n pc ks pd l d. unfold kill_slot. simpl. by repeat case_decide.
  - apply list_find_None in Hl. exfalso.
    pose proof (Forall_lookup_1 _ _ _ _ Hl Hi0) as Hp. simpl in Hp.
    by destruct (slot_unused _ _ (fam_slot _ _ _ Hf i0 p0 Hi0) Hu0).
Qed.

(** ** Quanta and statistics *)

Lemma list_find_alter {A} (Q : A -> Prop) `{!forall x, Decision (Q x)} (f : A -> A) l i x :
  (forall x, Q (f x) <-> Q x) ->
  list_find Q l = Some (i, x) -> list_find Q (alter f i l) = Some (i, f x).
Proof.
  intros Hf Hl. apply list_find_Some in Hl as (Hi & Hq & Hlt). apply list_find_Some.
  split_and!; [by apply lookup_alter_at|by apply Hf|].
  intros j y Hj Hji. rewrite list_lookup_alter_ne in Hj by lia. eauto.
Qed.

(** [setquantum_pid] is refused, with no effect, for a quantum outside 1..100;
    otherwise, for a live process, [gettimeslice] gives back what was set, the
    quantum starts afresh, and no other slot of the table changes. *)
Theorem setquantum_gettimeslice id q i p s :
  msec ∅ (mc s) -> list_find (live_pid id) (procs s) = Some (i, p) ->
  (1 <= q <= 100 -> exists s1 s2,
     setquantum_pid id q s = Ok 0 s1 /\ gettimeslice id s1 = Ok q s2 /\
     procs s2 = <[i := set_ticks_used 0 (set_timeslice q p)]> (procs s)) /\
  (~ (1 <= q <= 100) -> setquantum_pid id q s = Ok (-1) s).
Proof.
  intros Hm Hl. destruct (wp_total _ _ _ (wp_setquantum no_failure id q s Hm)) as (r & s1 & H1 & H).
  split; intros Hq.
  - rewrite decide_True in H by done. rewrite Hl in H. destruct H as [-> (m & Hm1 & Hf1 & ->)].
    set (s1 := set_mc m _) in *.
    destruct (wp_total _ _ _ (wp_gettimeslice no_failure id s1 Hm1)) as (r2 & s2 & H2 & Hat & Hr).
    assert (list_find (live_pid id) (procs s1) = Some (i, quantum_slot q p)) as Hl1
      by (by apply list_find_alter).
    rewrite Hl1 in Hr. subst r2. exists s1, s2. split_and!; [done|done|].
    apply at_mc_sec in Hat as (_ & -> & _). simpl.
    apply list_find_Some in Hl as (Hi & _). exact (alter_insert_at (quantum_slot q) _ _ _ Hi).
  - rewrite decide_False in H by done. by destruct H as [-> ->].
Qed.

(** [getpstats] and [getprocinfo] report the process they are asked for as it
    is in the table, and change nothing; a null pointer or a pid no live
    process has gives -1. *)
Theorem getpstats_getprocinfo id out name0 s :
  msec ∅ (mc s) ->
  exists r1 s1 r2 s2, getpstats id out s = Ok r1 s1 /\ procs s1 = procs s /\
    getprocinfo id out name0 s = Ok r2 s2 /\ procs s2 = procs s /\
    match list_find (live_pid id) (procs s) with
    | Some (_, p) => if decide (out = 0) then r1 = (-1, None) /\ r2 = (-1, None) else
        r1 = (0, Some (stats p)) /\
        exists x, r2 = (0, Some x) /\ pi_pid x = id /\ pi_state x = procstate_int (state p) /\
          pi_timeslice x = timeslice p /\ pi_cpu_ticks x = cpu_ticks (stats p) /\
          pi_sleep_ticks x = sleep_ticks (stats p) /\
          pi_ctx_switches x = ctx_switches (stats p) /\
          pi_preemptions x = preemptions (stats p)
    | None => r1 = (-1, None) /\ r2 = (-1, None)
    end.
Proof.
  intros Hm.
  destruct (wp_total _ _ _ (wp_getpstats no_failure id out s Hm)) as (r1 & s1 & E1 & S1 & R1).
  destruct (wp_total _ _ _ (wp_getprocinfo no_failure id out name0 s Hm)) as (r2 & s2 & E2 & S2 & R2).
  exists r1, s1, r2, s2. split_and!; [done| |done| |].
  - destruct S1 as [->|S1]; [done|]. by apply at_mc_sec in S1 as (_ & -> & _).
  - destruct S2 as [->|S2]; [done|]. by apply at_mc_sec in S2 as (_ & -> & _).
  - destruct (list_find _ _) as [[i p]|] eqn:Hl; [|by case_decide].
    case_decide; [done|]. split; [done|]. eexists. split; [exact R2|].
    apply list_find_Some in Hl as (_ & [Hp _] & _). done.
Qed.

End thms.
