(* ===== verification/SemThms.v ===== *)
(** * Semaphores: sem_init, sem_wait and sem_signal of proc.c

    The count of a semaphore from [sem_init] on, over any sequence of operations by
    any processes: no unit is lost or made up, and no more waits complete than units
    exist. *)

From stdpp Require Import base numbers gmap list strings.
From S2P Require Import Prelude CString Spinlock ProcState Proc ProcRules KInv ProcSpec KSpec.
Open Scope Z_scope.

Section sem.
Context {E : Type} `{EV : KEnv E}.
Implicit Types (s : kstate E) (m : mach).

(** ** What each operation does to the semaphore table *)

Lemma acq_sems l s : wp any_failure (acq_k l) s (fun _ s' => sems s' = sems s).
Proof. apply wp_zoom, wp_any. done. Qed.

Lemma rel_sems l s : wp any_failure (rel_k l) s (fun _ s' => sems s' = sems s).
Proof. apply wp_zoom, wp_any. done. Qed.

Lemma curproc_sems s : wp any_failure curproc s (fun _ s' => sems s' = sems s).
Proof. wp_next. apply wp_zoom, wp_any. intros [i|] m; done. Qed.

Lemma sched_sems k s : wp any_failure (sched_enter k) s (fun _ s' => sems s' = sems s).
Proof.
  unfold sched_enter. wp_next. eapply wp_mono; [apply curproc_sems|]. intros i s1 H1.
  wp_next. apply wp_zoom, wp_any. intros [|] m; simpl; [|done].
  wp_next. apply wp_zoom, wp_any. intros n m2. destruct (negb _); [done|].
  wp_next. apply wp_gets. case_decide; [done|].
  wp_next. apply wp_zoom, wp_any. intros e m3. destruct (if_on e); [done|].
  wp_next. apply wp_zoom, wp_any. intros n2 m4. done.
Qed.

Lemma sleep_sems c lk a s : wp any_failure (sleep_enter c lk a) s (fun _ s' => sems s' = sems s).
Proof.
  unfold sleep_enter. wp_next. apply wp_zoom, wp_any. intros [i|] m; [|done].
  wp_next. apply (wp_mono _ _ _ (fun _ s' => sems s' = sems s)).
  { apply wp_when; intros _; [|done]. wp_next. apply wp_zoom, wp_any. intros [] m1.
    apply wp_zoom, wp_any. done. }
  intros [] s1 H1. do 3 (wp_next; apply wp_upd).
  eapply wp_mono; [apply sched_sems|]. intros [] s2 ->. exact H1.
Qed.

(** A wait that completes takes one unit, and only if there is one; a wait
    that sleeps takes none. *)
Lemma sem_wait_loop_sems id s :
  wp any_failure (sem_wait_loop id) s (fun f s' =>
    match f with
    | Back r => r = 0 /\ 0 < svalue (the_sem s (Z.to_nat id)) /\
        sems s' = alter sem_down (Z.to_nat id) (sems s)
    | Gone => svalue (the_sem s (Z.to_nat id)) <= 0 /\ sems s' = sems s
    end).
Proof.
  unfold sem_wait_loop. wp_next. apply wp_gets.
  destruct (Z.leb_spec (svalue (the_sem s (Z.to_nat id))) 0) as [Hle|Hgt].
  - wp_next. eapply wp_mono; [apply sleep_sems|]. intros [] s' Hs'. by apply wp_ret.
  - wp_next. apply wp_modify. wp_next. eapply wp_mono; [apply rel_sems|].
    intros [] s' Hs'. apply wp_ret. by split_and!.
Qed.

Lemma sem_signal_sems id s :
  wp any_failure (sem_signal id) s (fun r s' =>
    if decide (r = 0) then bad_sem (sems s) id = false /\ sems s' = alter sem_up (Z.to_nat id) (sems s) else sems s' = sems s).
Proof.
  unfold sem_signal. wp_next. apply wp_gets. change ((id <? 0) || _ || _) with (bad_sem (sems s) id).
  destruct (bad_sem (sems s) id) eqn:Eb; [done|].
  wp_next. eapply wp_mono; [apply acq_sems|]. intros [] s1 H1. wp_next. apply wp_modify.
  wp_next. unfold wakeup. wp_next. eapply wp_mono; [apply acq_sems|]. intros [] s2 H2.
  wp_next. apply wp_modify. eapply wp_mono; [apply rel_sems|]. intros [] s3 H3.
  wp_next. eapply wp_mono; [apply rel_sems|]. intros [] s4 H4. apply wp_ret.
  rewrite decide_True by done. split; [done|]. rewrite H4, H3. simpl. rewrite H2. simpl. by rewrite H1.
Qed.

Lemma sem_wait_sems id s :
  wp any_failure (sem_wait id) s (fun f s' =>
    match f with
    | Back r => if decide (r = 0) then bad_sem (sems s) id = false /\ 0 < svalue (the_sem s (Z.to_nat id)) /\
        sems s' = alter sem_down (Z.to_nat id) (sems s) else sems s' = sems s
    | Gone => sems s' = sems s
    end).
Proof.
  unfold sem_wait. wp_next. apply wp_gets. change ((id <? 0) || _ || _) with (bad_sem (sems s) id).
  destruct (bad_sem (sems s) id) eqn:Eb; [by apply wp_ret|]. wp_next. eapply wp_mono; [apply acq_sems|]. intros [] s1 H1.
  eapply wp_mono; [apply sem_wait_loop_sems|]. intros [r|] s2; unfold the_sem; rewrite H1; [|by intros [_ ->]].
  intros (-> & H2 & ->). by rewrite decide_True.
Qed.

Lemma sem_init_sems v s :
  wp any_failure (sem_init v) s (fun r s' =>
    match list_find (fun x => allocated x = 0) (sems s) with
    | Some (i, x) => r = Z.of_nat i /\ sems s' = <[i := mkSem v 1]> (sems s)
    | None => r = -1 /\ sems s' = sems s
    end).
Proof.
  unfold sem_init. wp_next. eapply wp_mono; [apply acq_sems|]. intros [] s1 H1. wp_next. apply wp_gets. rewrite H1.
  destruct (list_find _ (sems s)) as [[i x]|] eqn:El.
  - apply list_find_Some in El as (Hi & _). do 2 (wp_next; apply wp_modify). wp_next. eapply wp_mono; [apply rel_sems|].
    intros [] s2 H2. apply wp_ret. split; [done|]. rewrite H2. simpl. rewrite H1, list_alter_alter_eq.
    by rewrite (alter_insert_at _ _ _ _ Hi).
  - wp_next. eapply wp_mono; [apply rel_sems|]. intros [] s2 H2. apply wp_ret. split; [done|]. congruence.
Qed.

(** ** Sequences of operations *)

(** A call on semaphores by some process with its result, a wait that goes on after it
    was woken, or anything else the kernel does, which leaves the semaphores alone. *)
Inductive sem_event :=
  | SInit (v : Z) (r : Z)
  | SWait (id : Z) (f : flow Z)
  | SResume (id : Z) (f : flow Z)
  | SSignal (id : Z) (r : Z)
  | SOther.

Definition sem_step (ev : sem_event) s s' : Prop :=
  match ev with
  | SInit v r => sem_init v s = Ok r s'
  | SWait id f => sem_wait id s = Ok f s'
  | SResume id f => bad_sem (sems s) id = false /\ sem_wait_loop id s = Ok f s'
  | SSignal id r => sem_signal id s = Ok r s'
  | SOther => sems s' = sems s
  end.

Inductive sem_trace : list sem_event -> kstate E -> kstate E -> Prop :=
  | sem_trace_nil s : sem_trace [] s s
  | sem_trace_cons ev l s s1 s2 : sem_step ev s s1 -> sem_trace l s1 s2 ->
      sem_trace (ev :: l) s s2.

(** Completed waits on, and successful signals of, semaphore [i]. *)
Definition is_wait (i : nat) (ev : sem_event) : Z :=
  match ev with
  | SWait id (Back r) | SResume id (Back r) => if decide (r = 0 /\ Z.to_nat id = i) then 1 else 0
  | _ => 0
  end.

Definition is_signal (i : nat) (ev : sem_event) : Z :=
  match ev with
  | SSignal id r => if decide (r = 0 /\ Z.to_nat id = i) then 1 else 0
  | _ => 0
  end.

(** The value that the [sem_init] that returned [i] was given. *)
Fixpoint made_with (i : nat) (l : list sem_event) : option Z :=
  match l with
  | [] => None
  | SInit v r :: l => if decide (r = Z.of_nat i) then Some v else made_with i l
  | _ :: l => made_with i l
  end.

Fixpoint total (f : sem_event -> Z) (l : list sem_event) : Z :=
  match l with [] => 0 | ev :: l => f ev + total f l end.

Lemma total_nonneg f l : (forall ev, 0 <= f ev) -> 0 <= total f l.
Proof. intros Hf. induction l as [|ev l IH]; simpl; [lia|]. specialize (Hf ev). lia. Qed.

Lemma is_signal_range i ev : 0 <= is_signal i ev <= 1.
Proof. destruct ev; simpl; try lia. case_decide; lia. Qed.

Lemma is_wait_range i ev : 0 <= is_wait i ev <= 1.
Proof. destruct ev as [?|id [r|]|id [r|]| |]; simpl; try lia; case_decide; lia. Qed.

(** What a step does to semaphore [i]. *)
Definition sem_moved (i : nat) (ev : sem_event) (x x' : semaphore) : Prop :=
  match ev with
  | SInit v r => if decide (r = Z.of_nat i) then allocated x = 0 /\ x' = mkSem v 1 else x' = x
  | _ => (is_wait i ev = 0 /\ is_signal i ev = 0 /\ x' = x) \/
      allocated x ≠ 0 /\ ((is_wait i ev = 1 /\ is_signal i ev = 0 /\ 0 < svalue x /\ x' = sem_down x) \/
                          (is_wait i ev = 0 /\ is_signal i ev = 1 /\ x' = sem_up x))
  end.

Lemma bad_sem_false ss id i x : bad_sem ss id = false -> Z.to_nat id = i -> ss !! i = Some x -> allocated x ≠ 0.
Proof. unfold bad_sem. intros H <- Hx. rewrite Hx in H. simpl in H. apply orb_false_iff in H as [_ H]. lia. Qed.

(** A wait took a unit of semaphore [id]. *)
Lemma sem_taken i id s s' x :
  bad_sem (sems s) id = false -> 0 < svalue (the_sem s (Z.to_nat id)) -> sems s' = alter sem_down (Z.to_nat id) (sems s) ->
  sems s !! i = Some x -> exists x', sems s' !! i = Some x' /\
    if decide (Z.to_nat id = i) then allocated x ≠ 0 /\ 0 < svalue x /\ x' = sem_down x else x' = x.
Proof.
  intros Hb Hp Es Hx. rewrite Es. case_decide as Hd.
  - pose proof (bad_sem_false _ _ _ _ Hb Hd Hx). subst i. unfold the_sem in Hp. rewrite Hx in Hp. exists (sem_down x).
    split; [by apply lookup_alter_at|done].
  - exists x. by rewrite list_lookup_alter_ne.
Qed.

Lemma sem_step_moved i ev s s' x : sem_step ev s s' -> sems s !! i = Some x ->
  exists x', sems s' !! i = Some x' /\ sem_moved i ev x x'.
Proof.
  intros Hs Hx. destruct ev as [v r|id f|id f|id r|]; simpl in Hs |- *.
  - pose proof (wp_elim _ _ _ _ _ _ (sem_init_sems v s) Hs) as H. simpl in H.
    destruct (list_find _ (sems s)) as [[k y]|] eqn:El; destruct H as [-> ->].
    + apply list_find_Some in El as (Hk & Ha & _). destruct (decide (Z.of_nat k = Z.of_nat i)) as [Ek%Nat2Z.inj|Ek].
      * subst k. exists (mkSem v 1). split; [apply list_lookup_insert_eq; by eapply lookup_lt_Some|]. split; [congruence|done].
      * exists x. rewrite list_lookup_insert_ne by congruence. done.
    + exists x. split; [done|]. rewrite decide_False by lia. done.
  - pose proof (wp_elim _ _ _ _ _ _ (sem_wait_sems id s) Hs) as H. destruct f as [r|]; simpl in H; [|rewrite H; eauto 10].
    destruct (decide (r = 0)) as [->|Hr]; [|exists x; rewrite H; rewrite decide_False by tauto; eauto 10].
    destruct H as (Hb & Hp & Es). destruct (sem_taken i id s s' x Hb Hp Es Hx) as (x' & Hx' & H). exists x'. split; [done|].
    destruct (decide (Z.to_nat id = i)) as [Hi|Hi]; [rewrite decide_True by done; naive_solver|rewrite decide_False by tauto; auto].
  - destruct Hs as [Hb Hs]. pose proof (wp_elim _ _ _ _ _ _ (sem_wait_loop_sems id s) Hs) as H. destruct f as [r|]; simpl in H.
    2: { destruct H as [_ ->]. eauto 10. }
    destruct H as (-> & Hp & Es). destruct (sem_taken i id s s' x Hb Hp Es Hx) as (x' & Hx' & H). exists x'. split; [done|].
    destruct (decide (Z.to_nat id = i)) as [Hi|Hi]; [rewrite decide_True by done; naive_solver|rewrite decide_False by tauto; auto].
  - pose proof (wp_elim _ _ _ _ _ _ (sem_signal_sems id s) Hs) as H. simpl in H.
    destruct (decide (r = 0)) as [->|Hr]; [|exists x; rewrite H; rewrite decide_False by tauto; eauto 10].
    destruct H as [Hb ->]. destruct (decide (Z.to_nat id = i)) as [Hi|Hi].
    + rewrite decide_True by done. pose proof (bad_sem_false _ _ _ _ Hb Hi Hx). subst i. exists (sem_up x).
      split; [by apply lookup_alter_at|]. right. auto 10.
    + rewrite decide_False by tauto. exists x. rewrite list_lookup_alter_ne by done. auto 10.
  - rewrite Hs. eauto 10.
Qed.

(** A semaphore in use. *)
Lemma sem_trace_live i l s s' x :
  sem_trace l s s' -> sems s !! i = Some x -> allocated x ≠ 0 -> i32 (svalue x) = svalue x ->
  exists x', sems s' !! i = Some x' /\ allocated x' = allocated x /\
    svalue x' = i32 (svalue x + total (is_signal i) l - total (is_wait i) l) /\
    (svalue x + total (is_signal i) l < 2147483648 ->
     Z.min 0 (svalue x) <= svalue x' /\ total (is_wait i) l <= Z.max 0 (svalue x + total (is_signal i) l)).
Proof.
  intros Ht. revert x. induction Ht as [s|ev l s s1 s2 Hs Ht IH]; intros x Hx Ha Hv.
  { exists x. simpl. rewrite Z.sub_0_r, Z.add_0_r. split_and!; [done..|lia]. }
  pose proof (total_nonneg (is_signal i) l (fun ev => proj1 (is_signal_range i ev))) as Hsl.
  pose proof (i32_range (svalue x)) as Hr. rewrite Hv in Hr.
  destruct (sem_step_moved i ev s s1 x Hs Hx) as (x1 & Hx1 & Hm).
  assert (is_wait i ev = 0 /\ is_signal i ev = 0 /\ x1 = x \/
    (is_wait i ev = 1 /\ is_signal i ev = 0 /\ 0 < svalue x /\ x1 = sem_down x) \/ (is_wait i ev = 0 /\ is_signal i ev = 1 /\ x1 = sem_up x)) as Hm'.
  { destruct ev; simpl in Hm |- *; [case_decide; [tauto|auto]|tauto..]. }
  clear Hm. assert (allocated x1 = allocated x /\ i32 (svalue x1) = svalue x1 /\ svalue x1 = i32 (svalue x + is_signal i ev - is_wait i ev)) as (Ha1 & Hv1 & Ev1).
  { destruct Hm' as [(-> & -> & ->)|[(-> & -> & _ & ->)|(-> & -> & ->)]]; unfold sem_down, sem_up; cbn [svalue allocated];
      rewrite ?i32_idem; (split_and!; [done|done|]); [by rewrite Z.add_0_r, Z.sub_0_r|by rewrite Z.add_0_r|by rewrite Z.sub_0_r]. }
  destruct (IH x1 Hx1 ltac:(congruence) Hv1) as (x' & Hx' & Ha' & Ev' & Hb). exists x'. cbn [total]. split_and!; [done|congruence| |].
  - rewrite Ev', Ev1, <- Z.add_sub_assoc, i32_add_l. f_equal. lia.
  - intros Hmax. destruct Hm' as [(Ew & Es & ->)|[(Ew & Es & Hpos & ->)|(Ew & Es & ->)]]; rewrite Ew, Es in *; cbn [svalue sem_down sem_up] in *.
    + destruct Hb; [lia|]. lia.
    + rewrite i32_small in Hb by lia. destruct Hb; [lia|]. lia.
    + rewrite i32_small in Hb by lia. destruct Hb; [lia|]. lia.
Qed.

(** C28. Over any sequence of calls of [sem_init], [sem_wait] and [sem_signal], by any
    processes in any order, a semaphore number that was free stays free, and no wait
    on it completes, until [sem_init] gives it out.  From then on it is never given
    out again, and its value is the [int] that [sem_init] was given, plus the signals,
    minus the completed waits.  While the sum fits an [int], no more waits have completed
    than there were units (none before a negative first value is made up for), and the
    value is never negative unless the first one was. *)
Theorem semaphore_count i l s s' x :
  sem_trace l s s' -> sems s !! i = Some x -> allocated x = 0 ->
  match made_with i l with
  | None => sems s' !! i = Some x /\ total (is_signal i) l = 0 /\ total (is_wait i) l = 0
  | Some v => i32 v = v -> exists x', sems s' !! i = Some x' /\ allocated x' = 1 /\
      svalue x' = i32 (v + total (is_signal i) l - total (is_wait i) l) /\
      (v + total (is_signal i) l < 2147483648 ->
       Z.min 0 v <= svalue x' /\ total (is_wait i) l <= Z.max 0 (v + total (is_signal i) l))
  end.
Proof.
  intros Ht Hx Ha. induction Ht as [s|ev l s s1 s2 Hs Ht IH]; [done|].
  destruct (sem_step_moved i ev s s1 x Hs Hx) as (x1 & Hx1 & Hm).
  destruct ev as [v r|id f|id f|id r|]; cbn [made_with total]; simpl in Hm.
  1: { cbn [is_signal is_wait]. rewrite !Z.add_0_l. case_decide; [|subst x1; by apply IH]. destruct Hm as [_ ->]. intros Hv.
       by apply (sem_trace_live i l s1 s2 (mkSem v 1)). }
  all: destruct Hm as [(E1 & E2 & ->)|[? _]]; [|done]; cbn [is_wait is_signal] in *; rewrite ?E1, ?E2, !Z.add_0_l; by apply IH.
Qed.

(** ** sem_init and sem_signal *)

(** [sem_init(v)] gives out a semaphore that was free, sets its count to [v]
    and touches no other; when all [NSEM] are taken it returns -1 and changes
    nothing. *)
Theorem sem_init_correct v s :
  msec ∅ (mc s) -> length (sems s) = NSEM ->
  exists r s', sem_init v s = Ok r s' /\ msec ∅ (mc s') /\ procs s' = procs s /\
  ((exists i x, r = Z.of_nat i /\ (i < NSEM)%nat /\ sems s !! i = Some x /\ allocated x = 0 /\
      sems s' = <[i := mkSem v 1]> (sems s)) \/
   (r = -1 /\ sems s' = sems s /\ forall i x, sems s !! i = Some x -> allocated x ≠ 0)).
Proof.
  intros Hm Hlen. destruct (wp_total _ _ _ (wp_sem_init no_failure v s Hm)) as (r & s' & Hr & H).
  exists r, s'. split; [done|].
  destruct (list_find _ (sems s)) as [[i x]|] eqn:Hl; destruct H as [-> (m & Hm' & _ & ->)];
    (split; [done|]; split; [done|]).
  - left. apply list_find_Some in Hl as (Hi & Ha & _). exists i, x.
    pose proof (lookup_lt_Some _ _ _ Hi). split_and!; [done|lia|done|done|].
    exact (alter_insert_at (fun _ => mkSem v 1) _ _ _ Hi).
  - right. split_and!; [done..|]. intros i x Hi Ha. apply list_find_None in Hl.
    by eapply Forall_lookup_1 in Hl.
Qed.

(** [sem_signal(id)] on an allocated semaphore adds one unit and wakes exactly
    the processes that sleep on it; other processes and semaphores are as they
    were.  On any other number it returns -1 and changes nothing. *)
Theorem sem_signal_correct id s :
  msec ∅ (mc s) ->
  (bad_sem (sems s) id = true -> sem_signal id s = Ok (-1) s) /\
  (bad_sem (sems s) id = false -> exists s', sem_signal id s = Ok 0 s' /\ msec ∅ (mc s') /\
     sems s' = alter sem_up (Z.to_nat id) (sems s) /\
     forall j p, procs s !! j = Some p ->
       (state p = SLEEPING -> pchan p = Csem (Z.to_nat id) ->
        procs s' !! j = Some (set_ticks_used 0 (set_state RUNNABLE p))) /\
       (~ (state p = SLEEPING /\ pchan p = Csem (Z.to_nat id)) -> procs s' !! j = Some p)).
Proof.
  intros Hm. destruct (wp_total _ _ _ (wp_sem_signal no_failure id s Hm)) as (r & s' & Hr & H).
  split; intros Hb; rewrite Hb in H; destruct H as [-> H]; [by subst s'|].
  destruct H as (m & Hm' & _ & ->). eexists. split; [done|]. split_and!; [done..|].
  intros j p Hj. simpl. rewrite list_lookup_fmap, Hj. simpl. unfold wake. split; intros.
  - by rewrite decide_True.
  - by rewrite decide_False.
Qed.

End sem.
