(* ===== verification/SysSpec.v ===== *)
(** * System calls and traps: syscall.c, sysproc.c, trap.c

    Argument fetching reads only the process's own memory; every system call
    and every trap keeps the invariant of the process table. *)

From stdpp Require Import base numbers gmap list strings.
From S2P Require Import Prelude CString Spinlock ProcState Proc Syscall Trap ProcRules KInv.
From S2P Require Import ProcSpec KSpec ExitSpec ForkSpec.
Open Scope Z_scope.

Section sys_spec.
Context (P : failure -> Prop) {E : Type} `{EV : KEnv E} `{EO : !KEnvOk P E}.
Context (ip : nat).
Implicit Types (s : kstate E) (m : mach).

Lemma at_mc_trans ls ls' s1 s2 s3 : at_mc ls s1 s2 -> at_mc ls' s2 s3 -> at_mc ls' s1 s3.
Proof.
  intros (m & _ & Hf & ->) (m' & Hm' & Hf' & ->). exists m'. split_and!; [done| |done].
  by etrans.
Qed.

(** ** Fetching arguments *)

(** The value of [fetchint(addr)] for process [i]. *)
Definition int_at s (i : nat) (addr : Z) : option Z :=
  let z := sz (the_proc s i) in
  if (z <=? addr) || (z <? u32 (addr + 4)) then None
  else Some (i32 (le32 (umem i s) addr)).

Definition arg_at s (i : nat) (n : Z) : option Z :=
  int_at s i (u32 (tf_esp (tf (the_proc s i)) + 4 + 4 * n)).

Definition ptr_at s (i : nat) (n size : Z) : option Z :=
  match arg_at s i n with
  | None => None
  | Some v =>
      let z := sz (the_proc s i) in
      if (size <? 0) || (z <=? u32 v) || (z <? u32 (u32 v + size)) then None else Some (u32 v)
  end.

Lemma wp_fetchint a i s :
  msec ∅ (mc s) -> running s = Some i ->
  wp P (fetchint a) s (fun r s' => r = int_at s i a /\ at_mc ∅ s s').
Proof.
  intros Hm Hr. unfold fetchint, int_at. wp_next. eapply wp_curproc; [done..|]. intros m Hm' Hf.
  wp_next. apply wp_gets. change (the_proc (set_mc m s) i) with (the_proc s i).
  destruct (_ || _); [by split; [|exists m]|].
  wp_next. apply wp_gets. by split; [|exists m].
Qed.

Lemma wp_argint n i s :
  msec ∅ (mc s) -> running s = Some i ->
  wp P (argint n) s (fun r s' => r = arg_at s i n /\ at_mc ∅ s s').
Proof.
  intros Hm Hr. unfold argint, arg_at. wp_next. eapply wp_curproc; [done..|]. intros m Hm' Hf.
  wp_next. apply wp_gets. change (the_proc (set_mc m s) i) with (the_proc s i).
  eapply wp_mono; [apply (wp_fetchint _ i); [done|by erewrite running_mc]|].
  intros r s' [-> Hs']. split; [done|]. eapply at_mc_trans; [by exists m|done].
Qed.

Lemma wp_argptr n size i s :
  msec ∅ (mc s) -> running s = Some i ->
  wp P (argptr n size) s (fun r s' => r = ptr_at s i n size /\ at_mc ∅ s s').
Proof.
  intros Hm Hr. unfold argptr, ptr_at. wp_next. eapply wp_curproc; [done..|]. intros m Hm' Hf.
  wp_next. eapply wp_mono; [apply (wp_argint _ i); [done|by erewrite running_mc]|].
  change (arg_at (set_mc m s) i n) with (arg_at s i n).
  intros r s' [-> Hs']. assert (at_mc ∅ s s') as Hat by (eapply at_mc_trans; [by exists m|done]).
  destruct (arg_at s i n) as [v|]; [|done]. wp_next. apply wp_gets.
  destruct Hat as (m' & Hm1 & Hf' & ->). change (the_proc (set_mc m' s) i) with (the_proc s i).
  destruct (_ || _); split; try done; by exists m'.
Qed.

(** ** System calls *)

Lemma wp_in_argint n h i s :
  inside ip ∅ h i s ->
  wp P (argint n) s (fun _ s' => inside ip ∅ h i s' /\ at_mc ∅ s s').
Proof.
  intros Hi. eapply wp_mono; [apply wp_argint; [apply Hi|by eapply inside_running]|].
  intros r s' [_ Hs']. split; [by eapply inside_at|done].
Qed.

Lemma wp_in_argptr n z h i s :
  inside ip ∅ h i s -> wp P (argptr n z) s (fun _ s' => inside ip ∅ h i s' /\ at_mc ∅ s s').
Proof.
  intros Hi. eapply wp_mono; [apply wp_argptr; [apply Hi|by eapply inside_running]|].
  intros r s' [_ Hs']. split; [by eapply inside_at|done].
Qed.

Lemma wp_in_arg1 k h i s :
  inside ip ∅ h i s ->
  (forall v s', inside ip ∅ h i s' -> at_mc ∅ s s' -> wp P (k v) s' (handled ip h i)) ->
  wp P (arg1 k) s (handled ip h i).
Proof.
  intros Hi Hk. unfold arg1. wp_next. eapply wp_mono; [by apply wp_in_argint|].
  intros [v|] s' [Hi' Hat]; [auto|]. by apply wp_ret.
Qed.

Lemma wp_back op h i s :
  wp P op s (fun _ s' => inside ip ∅ h i s') -> wp P (back op) s (handled ip h i).
Proof.
  intros H. unfold back. wp_next. eapply wp_mono; [done|]. intros r s' Hi. by apply wp_ret.
Qed.

(** The calls of sysfile.c change the rest of the kernel and the caller's own
    slot, leaving what scheduling depends on. *)
Definition file_frame (sys_file : Z -> M (kstate E) (flow Z)) : Prop :=
  forall n i s, msec ∅ (mc s) -> running s = Some i ->
  wp P (sys_file n) s (fun r s' => exists v m e f,
    r = Back v /\ msec ∅ m /\ mframe (mc s) m /\ plain f /\
    s' = set_mc m (set_env e (set_procs (alter f i (procs s)) s))).

Context (sys_file : Z -> M (kstate E) (flow Z)) (Hfile : file_frame sys_file).

Lemma wp_in_sys_file n h i s : inside ip ∅ h i s -> wp P (sys_file n) s (handled ip h i).
Proof.
  intros Hi. eapply wp_mono; [apply Hfile; [apply Hi|by eapply inside_running]|].
  intros r s' (v & m & e & f & -> & Hm & Hf & Hpl & ->). simpl.
  apply (inside_mc _ ∅ ∅ _ _ (set_env e (set_procs (alter f i (procs s)) s))); [|done|done].
  by apply inside_env, inside_own.
Qed.

(** What a call may need to succeed: a pid left for [fork], and for [exit]
    that the caller is not init. *)
Definition may_fork s : Prop := nextpid s < 2147483647.

Definition may_exit (i : nat) : Prop := i = ip -> P (FPanic "init exiting").

Lemma wp_in_sys_sbrk h i s : inside ip ∅ h i s -> wp P sys_sbrk s (handled ip h i).
Proof.
  intros Hi. unfold sys_sbrk. apply wp_in_arg1; [done|]. intros v s1 Hi1 _.
  wp_next. eapply wp_in_curproc; [done|]. intros s2 Hi2 _. wp_next. apply wp_gets.
  wp_next. eapply wp_mono; [by eapply wp_in_growproc|]. intros r s3 Hi3.
  by destruct (r <? 0).
Qed.

Lemma wp_in_sys_sleep h i s : inside ip ∅ h i s -> wp P sys_sleep s (handled ip h i).
Proof.
  intros Hi. unfold sys_sleep. apply wp_in_arg1; [done|]. intros v s1 Hi1 _.
  wp_next. eapply wp_in_curproc; [done|]. intros s2 Hi2 _.
  wp_next. eapply wp_in_acq; [done|]. intros s3 Hi3 _. wp_next. apply wp_gets.
  by eapply wp_sys_sleep_loop.
Qed.

Lemma wp_in_sys_uptime h i s : inside ip ∅ h i s -> wp P sys_uptime s (handled ip h i).
Proof.
  intros Hi. unfold sys_uptime. wp_next. eapply wp_in_acq; [done|]. intros s1 Hi1 _.
  wp_next. apply wp_gets. wp_next. eapply wp_in_rel; [done|]. intros s2 Hi2 _. by apply wp_ret.
Qed.

Lemma wp_in_user_store c a bs h i s :
  inside ip ∅ h i s -> wp P (user_store c a bs) s (fun _ s' => inside ip ∅ h i s').
Proof.
  intros Hi. destruct bs as [bs|]; [|done]. unfold user_store. wp_next. apply wp_gets.
  eapply wp_in_env; [auto with env|done|]. by intros.
Qed.

Lemma wp_in_sys_getpstats h i s : inside ip ∅ h i s -> wp P sys_getpstats s (handled ip h i).
Proof.
  intros Hi. unfold sys_getpstats. apply wp_in_arg1; [done|]. intros v s1 Hi1 _.
  wp_next. eapply wp_mono; [by apply wp_in_argptr|]. intros [a|] s2 [Hi2 _]; [|by apply wp_ret].
  wp_next. eapply wp_in_curproc; [done|]. intros s3 Hi3 _.
  wp_next. eapply wp_mono; [apply wp_getpstats, Hi3|]. intros r s4 [Hs4 _].
  assert (inside ip ∅ h i s4) as Hi4 by (destruct Hs4 as [->|?]; [done|by eapply inside_at]).
  wp_next. eapply wp_mono; [by eapply wp_in_user_store|]. intros [] s5 Hi5. by apply wp_ret.
Qed.

Lemma wp_in_sys_getprocinfo h i s : inside ip ∅ h i s -> wp P sys_getprocinfo s (handled ip h i).
Proof.
  intros Hi. unfold sys_getprocinfo. apply wp_in_arg1; [done|]. intros v s1 Hi1 _.
  wp_next. eapply wp_mono; [by apply wp_in_argptr|]. intros [a|] s2 [Hi2 _]; [|by apply wp_ret].
  wp_next. eapply wp_in_curproc; [done|]. intros s3 Hi3 _. wp_next. apply wp_gets.
  wp_next. eapply wp_mono; [apply wp_getprocinfo, Hi3|]. intros r s4 [Hs4 _].
  assert (inside ip ∅ h i s4) as Hi4 by (destruct Hs4 as [->|?]; [done|by eapply inside_at]).
  wp_next. eapply wp_mono; [by eapply wp_in_user_store|]. intros [] s5 Hi5. by apply wp_ret.
Qed.

Lemma wp_in_sys_setquantum h i s : inside ip ∅ h i s -> wp P sys_setquantum_pid s (handled ip h i).
Proof.
  intros Hi. unfold sys_setquantum_pid. apply wp_in_arg1; [done|]. intros v s1 Hi1 _.
  wp_next. eapply wp_mono; [by apply wp_in_argint|]. intros [q|] s2 [Hi2 _]; [|by apply wp_ret].
  apply wp_back; by eapply wp_in_setquantum.
Qed.

Lemma wp_in_sys_gettimeslice h i s : inside ip ∅ h i s -> wp P sys_gettimeslice s (handled ip h i).
Proof.
  intros Hi. unfold sys_gettimeslice. apply wp_in_arg1; [done|]. intros v s1 Hi1 _.
  apply wp_back. eapply wp_mono; [apply wp_gettimeslice, Hi1|]. intros r s2 [Hs2 _].
  by eapply inside_at.
Qed.

Lemma wp_in_exit_flow {A} h i s : inside ip ∅ h i s -> may_exit i ->
  wp P (exit;; mret Gone) s (handled (A := A) ip h i).
Proof.
  intros Hi He. wp_next. eapply wp_mono; [by eapply wp_in_exit|]. intros [] s' Ho. by apply wp_ret.
Qed.

Lemma wp_in_syscalls num f h i s :
  inside ip ∅ h i s -> may_fork s -> may_exit i ->
  syscalls sys_file num = Some f -> wp P f s (handled ip h i).
Proof.
  intros Hi Hfk Hex. unfold syscalls.
  assert (wp P sys_fork s (handled ip h i)) by (by apply wp_back, wp_in_fork).
  assert (wp P sys_exit s (handled ip h i)) by (by apply wp_in_exit_flow).
  assert (wp P sys_wait s (handled ip h i)) by (by apply wp_in_wait).
  assert (wp P sys_kill s (handled ip h i))
    by (apply wp_in_arg1; [done|]; intros; apply wp_back; by eapply wp_in_kill).
  assert (wp P sys_getpid s (handled ip h i)).
  { unfold sys_getpid. wp_next. eapply wp_in_curproc; [done|]. intros s1 Hi1 _.
    wp_next. apply wp_gets. by apply wp_ret. }
  assert (wp P sys_sem_init s (handled ip h i))
    by (apply wp_in_arg1; [done|]; intros; apply wp_back; by eapply wp_in_sem_init).
  assert (wp P sys_sem_wait s (handled ip h i))
    by (apply wp_in_arg1; [done|]; intros; by eapply wp_in_sem_wait).
  assert (wp P sys_sem_signal s (handled ip h i))
    by (apply wp_in_arg1; [done|]; intros; apply wp_back; by eapply wp_in_sem_signal).
  repeat case_match; intros [= <-];
    auto using wp_in_sys_sbrk, wp_in_sys_sleep, wp_in_sys_uptime, wp_in_sys_setquantum,
      wp_in_sys_gettimeslice, wp_in_sys_getpstats, wp_in_sys_getprocinfo, wp_in_sys_file.
Qed.

Lemma wp_in_syscall h i s :
  inside ip ∅ h i s -> may_fork s -> may_exit i ->
  wp P (syscall sys_file) s (handled ip h i).
Proof.
  intros Hi Hfk Hex. unfold syscall. wp_next. eapply wp_in_curproc; [done|].
  intros s1 Hi1 (m & _ & _ & ->). wp_next. apply wp_gets.
  assert (forall (s : kstate E) v, inside ip ∅ h i s ->
    wp P (set_result i v;; mret (Back tt)) s (handled ip h i)) as Hres.
  { intros s2 v Hi2. wp_next. eapply wp_in_own; [done|apply plain_result|]. intros. by apply wp_ret. }
  case_match eqn:Hf; [|by apply Hres].
  assert (exists num, syscalls sys_file num = Some m0) as [num Hnum]
    by (case_match; [by eexists|done]).
  wp_next. eapply wp_mono; [by eapply (wp_in_syscalls num)|].
  intros [v|] s2 Hi2; [by apply Hres|by apply wp_ret].
Qed.

(** ** Traps *)

Lemma wp_in_killed_check cs h i s :
  inside ip ∅ h i s -> may_exit i -> wp P (killed_check cs) s (handled ip h i).
Proof.
  intros Hi Hex. unfold killed_check. wp_next. eapply wp_in_myproc; [done|]. intros s1 Hi1 _.
  wp_next. apply wp_gets. destruct (_ && _); [by apply wp_in_exit_flow|by apply wp_ret].
Qed.

Lemma wp_in_syscall_tail h i s :
  inside ip ∅ h i s -> may_exit i -> wp P (syscall_tail i) s (handled ip h i).
Proof.
  intros Hi Hex. unfold syscall_tail. wp_next. apply wp_gets.
  destruct (negb _); [by apply wp_in_exit_flow|by apply wp_ret].
Qed.

(** The timer: [ticks] advances and wakes whoever sleeps on it. *)
Lemma wp_cpuid ls m Q :
  msec ls m -> if_on (flags m) = false ->
  (Q (Z.of_nat (hart m)) m) -> wp P cpuid m Q.
Proof.
  intros [Hw _ _ _ _ _] Hoff HQ. unfold cpuid. wp_next.
  eapply wp_ok; [by apply mycpu_ok|]. by apply wp_ret.
Qed.

Lemma wp_global_tick h o s :
  atcpu ip ∅ h o s -> if_on (flags (mc s)) = false ->
  wp P global_tick s (fun _ s' => atcpu ip ∅ h o s').
Proof.
  intros Hi Hoff. unfold global_tick. wp_next. apply wp_zoom.
  eapply wp_cpuid; [apply Hi|done|]. replace (set_mc (mc s) s) with s by (by destruct s).
  apply wp_when; intros _; [|done].
  wp_next. eapply wp_in_acq; [done|]. clear Hoff. next_state s Hi. wp_next. apply wp_gets.
  wp_next. apply wp_modify.
  wp_next. eapply wp_wakeup; [apply Hi|set_solver|]. intros m Hm Hf.
  wp_next. eapply wp_in_rel with (h := h) (o := o).
  2: { intros s' Hi' _. eapply wp_mono; [apply wp_update_sleep_stats, Hi'|].
       intros [] s2 Hat. eapply inside_at; [|done].
       apply inside_map; [done|apply tick_sleep_step|apply tick_sleep_ok]. }
  pose proof (in_kt _ _ _ _ _ Hi) as [Ht _].
  assert (atcpu ip {[Lticks]} h o (set_procs (wake Cticks <$> procs s)
    (set_sems (sems s) (set_ticks (u32 (ticks s + 1)) s)))) as Hi2.
  { apply inside_procs; [done|]. eapply tinv_map; [done|auto..|done|].
    intros k p Hk Hs. split; [done|]. intros n t0 Hch.
    apply list_lookup_fmap_Some in Hk as (q & -> & _). by destruct (wake_awake Cticks q). }
  exact (inside_mc ip _ _ _ _ _ m Hi2 Hm Hf).
Qed.

End sys_spec.

(** ** Arguments of system calls: syscall.c *)

Section sys_thms.
Context {E : Type} `{EV : KEnv E}.
Implicit Types (s : kstate E) (m : mach).

Lemma fetchstr_loop_spec b a len n r :
  fetchstr_loop b a len n = r ->
  match r with
  | Some l => len <= l < len + Z.of_nat n /\ b (a + l) = 0 /\
      forall k, len <= k < l -> b (a + k) ≠ 0
  | None => forall k, len <= k < len + Z.of_nat n -> b (a + k) ≠ 0
  end.
Proof.
  revert len r. induction n as [|n IH]; intros len r; simpl.
  { intros <- k Hk. lia. }
  destruct (Z.eqb_spec (b (a + len)) 0) as [Hz|Hz].
  { intros <-. split; [lia|]. split; [done|]. intros k Hk. lia. }
  intros Hr. specialize (IH _ _ Hr). destruct r as [l|].
  - destruct IH as (? & ? & Hk). split; [lia|]. split; [done|]. intros k ?.
    destruct (decide (k = len)) as [->|]; [done|]. apply Hk. lia.
  - intros k ?. destruct (decide (k = len)) as [->|]; [done|]. apply IH. lia.
Qed.

(** [fetchint(addr)] succeeds exactly when the whole word lies inside the
    process, and then reads that word; it changes nothing. *)
Theorem fetchint_correct addr i s :
  msec ∅ (mc s) -> running s = Some i ->
  0 <= addr < 4294967296 -> 0 <= sz (the_proc s i) <= KERNBASE ->
  exists r s', fetchint addr s = Ok r s' /\ procs s' = procs s /\ msec ∅ (mc s') /\
    r = if decide (addr + 4 <= sz (the_proc s i))
        then Some (i32 (le32 (umem i s) addr)) else None.
Proof.
  intros Hm Hr Ha Hsz. unfold KERNBASE in Hsz.
  destruct (wp_total _ _ _ (wp_fetchint no_failure addr i s Hm Hr)) as (r & s' & Hf & -> & Hat).
  exists (int_at s i addr), s'. destruct Hat as (m & Hm' & _ & ->). split_and!; [done..|].
  unfold int_at. destruct (Z.leb_spec (sz (the_proc s i)) addr).
  - simpl. by rewrite decide_False by lia.
  - simpl. rewrite u32_small by lia.
    destruct (Z.ltb_spec (sz (the_proc s i)) (addr + 4)); [by rewrite decide_False by lia|].
    by rewrite decide_True by lia.
Qed.

(** A pointer [argptr(n, size)] accepts points to [size] bytes that all lie
    inside the calling process: neither the check nor a later access can wrap
    around the address space. *)
Theorem argptr_in_process n size i s :
  msec ∅ (mc s) -> running s = Some i ->
  0 <= sz (the_proc s i) <= KERNBASE -> size < 2147483648 ->
  exists r s', argptr n size s = Ok r s' /\ procs s' = procs s /\ msec ∅ (mc s') /\
    match r with
    | Some a => 0 <= size /\ 0 <= a < sz (the_proc s i) /\ a + size <= sz (the_proc s i)
    | None => True
    end.
Proof.
  intros Hm Hr Hsz Hs. unfold KERNBASE in Hsz.
  destruct (wp_total _ _ _ (wp_argptr no_failure n size i s Hm Hr)) as (r & s' & Hf & -> & Hat).
  exists (ptr_at s i n size), s'. destruct Hat as (m & Hm' & _ & ->). split_and!; [done..|].
  unfold ptr_at. destruct (arg_at s i n) as [v|]; [|done].
  destruct (_ || _) eqn:Hb; [done|].
  apply orb_false_iff in Hb as [Hb H3]. apply orb_false_iff in Hb as [H1 H2].
  pose proof (u32_range v). rewrite u32_small in H3 by lia. lia.
Qed.

(** [fetchstr(addr)] finds the terminating 0 of a string that starts inside
    the process, without reading past its end, and gives its length; it fails
    when the string is not terminated there. *)
Theorem fetchstr_correct addr i s :
  msec ∅ (mc s) -> running s = Some i -> 0 <= addr ->
  exists r s', fetchstr addr s = Ok r s' /\ procs s' = procs s /\
    match r with
    | Some len => 0 <= len /\ addr + len < sz (the_proc s i) /\ umem i s (addr + len) = 0 /\
        forall k, 0 <= k < len -> umem i s (addr + k) ≠ 0
    | None => forall k, 0 <= k -> addr + k < sz (the_proc s i) -> umem i s (addr + k) ≠ 0
    end.
Proof.
  intros Hm Hr Ha.
  enough (wp no_failure (fetchstr addr) s (fun r s' => at_mc ∅ s s' /\
    r = if sz (the_proc s i) <=? addr then None
        else fetchstr_loop (umem i s) addr 0 (Z.to_nat (sz (the_proc s i) - addr)))) as H.
  { destruct (wp_total _ _ _ H) as (r & s' & Hf & (m & _ & _ & ->) & Hr').
    exists r, (set_mc m s). split_and!; [done..|].
    destruct (Z.leb_spec (sz (the_proc s i)) addr); [subst r; intros; lia|].
    symmetry in Hr'. apply fetchstr_loop_spec in Hr'. destruct r as [len|].
    - destruct Hr' as (? & ? & ?). split_and!; [lia|lia|done..].
    - intros k Hk Hlt. apply Hr'. lia. }
  unfold fetchstr. wp_next. eapply wp_curproc; [done..|]. intros m Hm' Hf. wp_next. apply wp_gets.
  change (the_proc (set_mc m s) i) with (the_proc s i).
  destruct (_ <=? addr); [by split; [exists m|]|]. apply wp_gets. by split; [exists m|].
Qed.

End sys_thms.
