(* ===== verification/Kernel.v ===== *)
(** * The kernel as a whole: traps, context switches and the scheduler

    Every trap and every turn of a CPU's scheduler loop is shown to keep the
    invariant of the process table; [kstep] is the resulting transition
    relation between the states in which no CPU is inside the kernel. *)

From stdpp Require Import base numbers gmap list strings.
From S2P Require Import Prelude CString Spinlock ProcState Proc Syscall Trap ProcRules Sched.
From S2P Require Import KInv ProcSpec KSpec ExitSpec ForkSpec SysSpec.
Open Scope Z_scope.

(** Interrupts a CPU may take while it runs no process. *)
Definition device_irq (t : Z) : Prop :=
  t = T_IRQ0 + IRQ_TIMER \/ t = T_IRQ0 + IRQ_IDE \/ t = T_IRQ0 + IRQ_IDE + 1 \/
  t = T_IRQ0 + IRQ_KBD \/ t = T_IRQ0 + IRQ_COM1 \/ t = T_IRQ0 + 7 \/
  t = T_IRQ0 + IRQ_SPURIOUS.

Section kernel.
Context (P : failure -> Prop) {E : Type} `{EV : KEnv E} `{EO : !KEnvOk P E}.
Context (ip : nat).
Context (sys_file : Z -> M (kstate E) (flow Z)) (Hfile : file_frame P sys_file).
Implicit Types (s : kstate E) (m : mach).

(** ** Interrupts *)

Lemma wp_irq trapno cs h o s :
  atcpu ip ∅ h o s -> if_on (flags (mc s)) = false ->
  device_irq trapno \/ (exists i, o = Some i) /\ Z.land cs 3 ≠ 0 ->
  wp P (irq trapno cs) s (fun _ s' => atcpu ip ∅ h o s').
Proof.
  intros Hi Hoff Hok. unfold irq.
  assert (forall (op : M E unit) (s' : kstate E), (forall e, wp P op e (fun _ _ => True)) ->
    atcpu ip ∅ h o s' -> wp P (on_env op) s' (fun _ s' => atcpu ip ∅ h o s')) as Henv.
  { intros op s' Hop Hi'. eapply wp_in_env; [done|done|]. by intros. }
  assert (forall op1 op2 : M E unit, (forall e, wp P op1 e (fun _ _ => True)) ->
    (forall e, wp P op2 e (fun _ _ => True)) ->
    wp P (on_env op1;; on_env op2) s (fun _ s' => atcpu ip ∅ h o s')) as Henv2.
  { intros op1 op2 H1 H2. wp_next. eapply wp_mono; [by apply Henv|]. intros [] s' Hi'. by apply Henv. }
  case_match.
  { wp_next. eapply wp_mono; [by eapply wp_global_tick|]. intros [] s' Hi'.
    apply Henv; auto with env. }
  case_match; [apply Henv2; auto with env|]. case_match; [by apply wp_ret|].
  do 2 (case_match; [apply Henv2; auto with env|]).
  case_match; [apply Henv; auto with env|].
  destruct Hok as [Hd|[[i ->] Hcs]]; [exfalso; unfold device_irq in Hd; lia|].
  wp_next. eapply wp_in_myproc; [done|]. intros s1 Hi1 _.
  destruct (Z.eqb_spec (Z.land cs 3) 0); [done|].
  eapply wp_in_own; [done|apply plain_killed|]. by intros.
Qed.

(** ** The quantum *)

(** The slot of a process whose quantum is over. *)
Definition expired (p : proc) : proc :=
  let q := set_ticks_used 0 (quantum_tick p) in set_stats (inc_preemptions (stats q)) q.

Lemma expired_plain : plain expired.
Proof.
  intros np p Hr [H1 H2 H3 H4 H5]. split.
  - constructor; [done..|]. left. simpl. rewrite Hr. by split_and!.
  - constructor; simpl; try done. intros Hl. destruct (H5 Hl) as (? & ? & ? & ? & ?).
    split_and!; done || lia.
Qed.

Lemma ticked_step np p : state p = RUNNING -> slot_ok np p ->
  ticks_used p + 1 < timeslice p -> slot_step p (quantum_tick p) /\ slot_ok np (quantum_tick p).
Proof.
  intros Hr [H1 H2 H3 H4 H5] Hlt. split.
  - constructor; [done..|]. left. simpl. rewrite Hr. by split_and!.
  - constructor; simpl; try done. intros Hl. destruct (H5 Hl) as (? & ? & ? & ? & ?).
    split_and!; done || lia.
Qed.

Lemma wp_preempt trapno cs h i s :
  inside ip ∅ h i s ->
  wp P (preempt trapno cs) s (fun y s' => if y then outside ip h s' else inside ip ∅ h i s').
Proof.
  intros Hi. unfold preempt. wp_next. eapply wp_in_myproc; [done|]. next_state s Hi.
  wp_next. apply wp_gets. destruct (_ && _); [|by apply wp_ret].
  destruct (inside_cur _ _ _ _ _ Hi) as (p & Hp & Hr & Hok).
  wp_next. apply wp_upd. do 2 (wp_next; apply wp_gets).
  unfold the_proc. simpl. rewrite (lookup_alter_at _ _ _ _ Hp). simpl.
  destruct (Z.leb_spec (timeslice p) (ticks_used p + 1)) as [Hle|Hgt].
  - do 2 (wp_next; apply wp_upd). simpl. rewrite !list_alter_alter_eq.
    pose proof (inside_own _ _ _ _ _ _ Hi expired_plain) as Hi'.
    wp_next. eapply wp_mono; [eapply wp_yield_enter; exact Hi'|]. intros [] s' Ho. by apply wp_ret.
  - destruct (ticked_step _ _ Hr Hok Hgt). apply wp_ret. by eapply inside_upd.
Qed.

(** ** Traps *)

Lemma wp_trap t h i s :
  inside ip ∅ h i s -> may_fork s -> may_exit P ip i ->
  (tf_trapno t ≠ T_SYSCALL -> if_on (flags (mc s)) = false /\ Z.land (tf_cs t) 3 ≠ 0) ->
  wp P (trap sys_file t) s (handled ip h i).
Proof.
  intros Hi Hfk Hex Hirq. unfold trap. destruct (Z.eqb_spec (tf_trapno t) T_SYSCALL) as [Hs|Hs].
  - wp_next. eapply wp_in_curproc; [done|]. intros s1 Hi1 (m & _ & _ & ->).
    wp_next. apply wp_gets. destruct (negb _); [by apply wp_in_exit_flow|].
    wp_next. eapply wp_in_own; [done|apply plain_tf|]. intros Hi2.
    wp_next. eapply wp_mono; [by eapply wp_in_syscall|].
    intros [[]|] s3 Hi3; [by apply wp_in_syscall_tail|by apply wp_ret].
  - destruct (Hirq Hs) as [Hoff Hcs].
    wp_next. eapply wp_mono; [apply wp_irq; [done..|right; eauto]|]. intros [] s1 Hi1.
    wp_next. eapply wp_mono; [by apply wp_in_killed_check|].
    intros [[]|] s2 Hi2; [|by apply wp_ret].
    wp_next. eapply wp_mono; [by apply wp_preempt|]. intros [|] s3 Hi3; [by apply wp_ret|].
    by apply wp_in_killed_check.
Qed.

(** ** Back from [swtch()] *)

Lemma wp_sched_exit n ls h o s (Q : unit -> kstate E -> Prop) :
  atcpu ip ls h o s -> ls ≠ ∅ ->
  (forall s', atcpu ip ls h o s' -> at_mc ls s s' -> Q tt s') ->
  wp P (sched_exit n) s Q.
Proof.
  intros Hi Hne HQ. pose proof (in_sec _ _ _ _ _ Hi) as Hm.
  pose proof (msec_wf _ _ Hm) as Hw.
  unfold sched_exit, mycpu_upd. apply wp_zoom. wp_next.
  eapply wp_ok; [by apply mycpu_ok, (msec_off _ _ Hm)|]. apply wp_modify.
  assert (msec ls (upd_cpu (hart (mc s)) (set_intena n) (mc s))) as Hm' by (by apply msec_upd_cpu).
  assert (mframe (mc s) (upd_cpu (hart (mc s)) (set_intena n) (mc s))) as Hf.
  { unfold mframe. split_and!; [done..|]. by apply cps_set_cpu. }
  apply HQ; [by eapply inside_mc|by eexists].
Qed.

Lemma wp_syscall_done f h i s :
  handled ip h i f s -> may_exit P ip i -> wp P (syscall_done i f) s (handled ip h i).
Proof.
  intros Hi Hex. destruct f as [v|]; [|done]. simpl in *. wp_next.
  eapply wp_in_own; [done|apply plain_result|]. intros Hi'. by apply wp_in_syscall_tail.
Qed.

Lemma wp_sleep_exit a n h i s :
  inside ip {[Lptable]} h i s ->
  wp P (sleep_exit i (after_lock a) n) s (fun _ s' =>
    inside ip {[after_lock a]} h i s' /\ sems s' = sems s).
Proof.
  intros Hi. unfold sleep_exit. wp_next. eapply wp_sched_exit; [done|set_solver|].
  intros s1 Hi1 (m & _ & _ & ->). wp_next. eapply wp_in_own; [done|apply plain_pchan|].
  intros Hi2. apply wp_when; intros Hd.
  - wp_next. eapply wp_in_rel; [done|]. intros s3 Hi3 (m3 & _ & _ & ->).
    eapply wp_in_acq; [done|]. by intros s4 Hi4 (m4 & _ & _ & ->).
  - apply bool_decide_eq_false, dec_stable in Hd. by rewrite Hd.
Qed.

Lemma wp_resume h i p k s :
  inside ip {[Lptable]} h i s -> procs s !! i = Some p ->
  pcontext p = Some k -> kont_ok (sems s) k -> may_exit P ip i ->
  wp P (resume i) s (handled ip h i).
Proof.
  intros Hi Hp Hk Hok Hex. unfold resume. wp_next. apply wp_gets.
  unfold the_proc. rewrite Hp. simpl. rewrite Hk.
  destruct k as [|cs n|lk n a|]; simpl in Hok; [..|done].
  - unfold forkret. wp_next. wp_next. eapply wp_in_rel; [done|]. intros s1 Hi1 _.
    wp_next. apply wp_gets. apply wp_when; intros _; [|by apply wp_ret].
    wp_next. apply wp_modify. assert (inside ip ∅ h i (set_first_run 0 s1)) as Hi2 by (by destruct Hi1).
    wp_next. eapply wp_in_env; [auto with env|done|]. intros [] e Hi3.
    eapply wp_in_env; [auto with env|done|]. intros [] e' Hi4. by apply wp_ret.
  - unfold yield_exit. wp_next. wp_next. eapply wp_sched_exit; [done|set_solver|]. intros s1 Hi1 _.
    eapply wp_in_rel; [done|]. intros s2 Hi2 _. by apply wp_in_killed_check.
  - destruct Hok as [-> Hsem]. wp_next. eapply wp_mono; [by apply wp_sleep_exit|].
    intros [] s1 [Hi1 Hss]. wp_next.
    apply (wp_mono _ _ _ (handled ip h i)); [|intros f s2 Hi2; by apply wp_syscall_done].
    destruct a as [|id|n0 t0]; [by apply wp_wait_loop| |by eapply wp_sys_sleep_loop].
    apply (wp_sem_wait_loop P ip id h i s1); [done|]. by rewrite Hss.
Qed.

(** ** The scheduler *)

(** A CPU's process pointer changes, and the table with it. *)
Lemma atcpu_switch ls h o o' s m ps :
  atcpu ip ls h o s -> msec ls m -> mframe (mc s) m ->
  tinv ps (<[h := o']> (cps (mc s))) (initproc s) (nextpid s) (sems s) (ticks s) ->
  atcpu ip ls h o' (set_procs ps (set_mc (upd_cpu h (set_cproc o') m) s)).
Proof.
  intros [H1 H2 H3 (Ht & Hr)] Hm (Fh & Fn & Fc) Ht'.
  assert (hart m = h) as Hh by congruence. pose proof (msec_wf _ _ Hm) as Hw.
  assert (cps (upd_cpu h (set_cproc o') m) = <[h := o']> (cps (mc s))) as Hc
    by (rewrite <- Hh, cps_upd_cpu, Fc by done; done).
  constructor; simpl.
  - rewrite <- Hh. by apply msec_upd_cpu.
  - done.
  - rewrite Hc. apply list_lookup_insert_eq. by eapply lookup_lt_Some.
  - rewrite Hc. done.
Qed.

Lemma pick_slot np p : state p = RUNNABLE -> slot_ok np p -> slot_ok np (pick_update p).
Proof.
  intros Hr [H1 H2 H3 H4 H5]. constructor; simpl; try done. intros _.
  destruct H5 as (? & ? & ? & ? & ?); [congruence|]. split_and!; done || lia.
Qed.

Lemma wp_in_scheduler_pick h s :
  atcpu ip ∅ h None s ->
  wp P (scheduler_pick h) s (fun o s' =>
    match o with
    | None => atcpu ip ∅ h None s'
    | Some i => inside ip {[Lptable]} h i s' /\ exists p k,
        procs s' !! i = Some p /\ pcontext p = Some k /\ kont_ok (sems s') k
    end).
Proof.
  intros Hi. unfold scheduler_pick.
  wp_next. apply wp_zoom. eapply wp_ok; [done|].
  assert (atcpu ip ∅ h None (set_mc (set_flags (Z.lor (eflags (the_hw (mc s))) FL_IF) (mc s)) s)) as Hi1.
  { eapply inside_mc; [done|by apply msec_flags, Hi|apply mframe_flags]. }
  wp_next. eapply wp_in_acq; [exact Hi1|]. intros s' Hi' _.
  clear Hi Hi1 s. rename s' into s, Hi' into Hi.
  do 2 (wp_next; apply wp_gets).
  destruct (rr_scan (procs s) (rr_next s) 0 NPROC) as [i|] eqn:Hs.
  2: { wp_next. eapply wp_in_rel; [done|]. intros s' Hi' _. by apply wp_ret. }
  destruct Hi as [Hm Hh Hc (Ht & Hr & Hip)].
  destruct (rr_scan_Some (procs s) _ 0 NPROC i Hr) as (Hi & Hrun & _); [done..|].
  destruct (lookup_lt_is_Some_2 (procs s) i) as [p Hp].
  { destruct Ht as [Hf _]. by rewrite (fam_len _ _ _ Hf). }
  unfold runnable in Hrun. rewrite Hp in Hrun. simpl in Hrun.
  pose proof Ht as (Hf & _ & Hw). destruct (wait_ctx _ _ _ Hw i p Hp Hrun) as (k & Hk & Hok).
  wp_next. apply wp_modify. wp_next. apply wp_upd. simpl.
  wp_next. apply wp_zoom. eapply wp_modify. do 2 (wp_next; apply wp_upd).
  do 2 (wp_next; apply wp_gets). wp_next. apply wp_env; [auto with env|]. intros _ e.
  apply wp_ret. simpl. rewrite !list_alter_alter_eq. split.
  - eapply inside_env. set (s1 := set_rr_next (Z.rem (Z.of_nat i + 1) (Z.of_nat NPROC)) s).
    assert (atcpu ip {[Lptable]} h None s1) as Hi1.
    { constructor; [done..|]. refine (conj Ht (conj _ Hip)). simpl. unfold NPROC in *.
      rewrite Z.rem_mod_nonneg by lia. apply Z.mod_pos_bound. lia. }
    refine (atcpu_switch _ _ _ (Some i) s1 (mc s) (alter pick_update i (procs s)) Hi1 Hm _ _); [done|].
    eapply tinv_enter; [done..|]. apply pick_slot; [done|]. by eapply fam_slot.
  - exists (pick_update p), k. split_and!; [by apply lookup_alter_at|done|done].
Qed.

Lemma wp_in_scheduler_back h s :
  outside ip h s -> wp P (scheduler_back h) s (fun _ s' => atcpu ip ∅ h None s').
Proof.
  intros [Hm Hh [i Hc] (Ht & Hr & Hip)]. unfold scheduler_back.
  wp_next. apply wp_env; [auto with env|]. intros _ e.
  wp_next. apply wp_zoom. apply wp_modify. simpl.
  pose proof (msec_wf _ _ Hm) as Hw.
  assert (cps (upd_cpu h (set_cproc None) (mc s)) = <[h := None]> (cps (mc s))) as Hcps
    by (subst h; by rewrite cps_upd_cpu).
  eapply wp_in_rel with (h := h) (o := None); [|by intros].
  constructor; simpl.
  - subst h. by apply msec_upd_cpu.
  - done.
  - rewrite Hcps. apply list_lookup_insert_eq. by eapply lookup_lt_Some.
  - rewrite Hcps. done.
Qed.

(** ** One turn of a CPU *)

(** Between two kernel entries. *)
Definition resting s : Prop := msec ∅ (mc s) /\ kt ip (cps (mc s)) s.

Lemma atcpu_resting h o s : atcpu ip ∅ h o s -> resting s.
Proof. intros [H1 H2 H3 H4]. done. Qed.

Lemma wp_iret e h o s : atcpu ip ∅ h o s -> wp P (iret e) s (fun _ s' => resting s').
Proof.
  intros Hi. unfold iret. apply wp_zoom. apply wp_modify. eapply atcpu_resting, inside_mc;
    [done|by apply msec_flags, Hi|apply mframe_flags].
Qed.

Lemma wp_cpu_turn h s :
  atcpu ip ∅ h None s -> (forall i, may_exit P ip i) ->
  wp P (cpu_turn h) s (fun _ s' => resting s').
Proof.
  intros Hi Hex. unfold cpu_turn. wp_next. eapply wp_mono; [by apply wp_in_scheduler_pick|].
  intros [i|] s1 H1; [|by eapply atcpu_resting]. destruct H1 as [Hi1 (p & k & Hp & Hk & Hok)].
  wp_next. eapply wp_mono; [by eapply wp_resume|]. intros [[]|] s2 Hi2.
  - wp_next. apply wp_gets. by eapply wp_iret.
  - eapply wp_mono; [by apply wp_in_scheduler_back|]. intros [] s3 Hi3. by eapply atcpu_resting.
Qed.

(** A trap while CPU [h] is in user mode, or has no process. *)
Definition trap_ok (o : option nat) (t : trapframe) : Prop :=
  match o with
  | Some _ => Z.land (tf_cs t) 3 ≠ 0
  | None => device_irq (tf_trapno t)
  end.

Lemma device_not_syscall t : device_irq t -> t ≠ T_SYSCALL.
Proof. unfold device_irq, T_IRQ0, IRQ_TIMER, IRQ_IDE, IRQ_KBD, IRQ_COM1, IRQ_SPURIOUS, T_SYSCALL. lia. Qed.

Lemma wp_trap_idle t h s :
  atcpu ip ∅ h None s -> if_on (flags (mc s)) = false -> device_irq (tf_trapno t) ->
  wp P (trap sys_file t) s (fun f s' => atcpu ip ∅ h None s' /\ f = Back tt).
Proof.
  intros Hi Hoff Hd. unfold trap. pose proof (device_not_syscall _ Hd) as Hns.
  destruct (Z.eqb_spec (tf_trapno t) T_SYSCALL) as [|_]; [done|].
  assert (forall s1, atcpu ip ∅ h None s1 -> wp P (killed_check (tf_cs t)) s1
    (fun f s' => atcpu ip ∅ h None s' /\ f = Back tt)) as Hkc.
  { intros s1 Hi1. unfold killed_check. wp_next. eapply wp_in_myproc; [done|].
    intros s2 Hi2 _. by apply wp_ret. }
  wp_next. eapply wp_mono; [apply wp_irq; [done..|by left]|]. intros [] s1 Hi1.
  wp_next. eapply wp_mono; [by apply Hkc|]. intros f s2 [Hi2 ->].
  wp_next. unfold preempt. wp_next. eapply wp_in_myproc; [done|]. intros s3 Hi3 _.
  apply wp_ret. by apply Hkc.
Qed.

Lemma wp_cpu_trap h o t s :
  atcpu ip ∅ h o s -> trap_ok o t -> may_fork s -> (forall i, may_exit P ip i) ->
  wp P (cpu_trap sys_file h t) s (fun _ s' => resting s').
Proof.
  intros Hi Hok Hfk Hex. unfold cpu_trap.
  wp_next. apply (wp_mono _ _ _ (fun _ s' => atcpu ip ∅ h o s' /\ may_fork s' /\
    (tf_trapno t ≠ T_SYSCALL -> if_on (flags (mc s')) = false))).
  { apply wp_when; intros Hg.
    - apply wp_zoom. eapply wp_ok; [done|]. split_and!; [|done|].
      + eapply inside_mc; [done|by apply msec_flags, Hi|apply mframe_flags].
      + intros _. simpl. rewrite flags_set; [apply if_on_cli|].
        apply mwf_hart_hw, (msec_wf ∅), Hi.
    - split_and!; [done..|]. intros Hne. exfalso. revert Hg. unfold idt.
      destruct (Z.eqb_spec (tf_trapno t) T_SYSCALL); done. }
  intros [] s1 (Hi1 & Hfk1 & Hoff). wp_next. destruct o as [i|].
  - eapply wp_mono; [apply wp_trap; [done..|]; intros Hne; split; [by apply Hoff|done]|].
    intros [[]|] s2 Hi2; [by eapply wp_iret|].
    eapply wp_mono; [by apply wp_in_scheduler_back|]. intros [] s3 Hi3. by eapply atcpu_resting.
  - simpl in Hok. eapply wp_mono; [apply wp_trap_idle; [done| |done]; by apply Hoff, device_not_syscall|].
    intros f s2 [Hi2 ->]. by eapply wp_iret.
Qed.

(** ** The kernel as a transition system *)

(** What a CPU can do next: another turn of its scheduler loop, or a trap. *)
Inductive kaction := Turn (h : nat) | TrapOn (h : nat) (t : trapframe).

Definition act (a : kaction) : M (kstate E) unit :=
  match a with
  | Turn h => on_mach (modify (set_hart h));; cpu_turn h
  | TrapOn h t => on_mach (modify (set_hart h));; cpu_trap sys_file h t
  end.

(** The scheduler loops on a CPU without a process; traps come from user mode
    or, on such a CPU, from devices.  Pids are not used up. *)
Definition enabled (a : kaction) s : Prop :=
  match a with
  | Turn h => cps (mc s) !! h = Some None
  | TrapOn h t => may_fork s /\ exists o, cps (mc s) !! h = Some o /\ trap_ok o t
  end.

Definition kstep s s' : Prop := exists a, enabled a s /\ act a s = Ok tt s'.

Lemma resting_switch h o s :
  resting s -> cps (mc s) !! h = Some o -> atcpu ip ∅ h o (set_mc (set_hart h (mc s)) s).
Proof.
  intros [Hm Hk] Hc. constructor; simpl; try done. apply msec_hart; [done|].
  apply lookup_lt_Some in Hc. unfold cps in Hc. rewrite length_take in Hc. lia.
Qed.

Lemma wp_act a s :
  resting s -> enabled a s -> (forall i, may_exit P ip i) ->
  wp P (act a) s (fun _ s' => resting s').
Proof.
  intros Hr Ha Hex. destruct a as [h|h t]; simpl in Ha.
  - unfold act. wp_next. apply wp_zoom, wp_modify. apply wp_cpu_turn; [|done].
    by apply resting_switch.
  - destruct Ha as (Hfk & o & Hc & Ht). unfold act. wp_next. apply wp_zoom, wp_modify.
    by apply (wp_cpu_trap h o); [apply resting_switch|..].
Qed.

End kernel.
