(* ===== verification/System.v ===== *)
(** * The kernel from boot on

    The states the kernel reaches from boot by turns of the schedulers, traps
    and system calls on any of the CPUs, in any order, and what holds in all
    of them.  One entry of a CPU into the kernel is one step. *)

From stdpp Require Import base numbers gmap list strings relations.
From S2P Require Import Prelude CString Spinlock ProcState Proc Syscall Trap ProcRules Sched.
From S2P Require Import KInv ProcSpec KSpec ExitSpec ForkSpec SysSpec Kernel.
Open Scope Z_scope.

(** ** Boot: pinit and userinit of proc.c *)

(** The globals in zeroed storage and with their initial values; no CPU runs a
    process, no lock is held. *)
Record at_boot {E} (s : kstate E) : Prop := mkBoot {
  boot_sec : msec ∅ (mc s);
  boot_cpus : Forall (fun o => o = None) (cps (mc s));
  boot_procs : procs s = replicate NPROC proc0;
  boot_sems : sems s = replicate NSEM sem0;
  boot_pid : nextpid s = 1 }.

(** The slot [userinit()] makes. *)
Record init_slot (q : proc) : Prop := mkInit {
  is_state : state q = RUNNABLE;
  is_pid : pid q = 1;
  is_parent : parent q = None;
  is_context : pcontext q = Some KForkret;
  is_ok : slot_ok 2 q;
  is_tf : tf q = userinit_tf;
  is_sz : sz q = PGSIZE }.

Lemma tinv_boot cp n q ss tk :
  (n < NPROC)%nat -> init_slot q -> Forall (fun o => o = None) cp -> length ss = NSEM ->
  tinv (alter (fun _ => q) n (replicate NPROC proc0)) cp (Some n) 2 ss tk.
Proof.
  intros Hn Hq Hcp Hss.
  assert (forall i p, alter (fun _ => q) n (replicate NPROC proc0) !! i = Some p ->
    (i = n /\ p = q) \/ (i ≠ n /\ p = proc0)) as Hl.
  { intros i p Hi. apply lookup_alter_inv in Hi as [(-> & x & _ & ->)|(? & Hi)]; [by left|].
    apply lookup_replicate in Hi as [-> _]. by right. }
  assert (alter (fun _ => q) n (replicate NPROC proc0) !! n = Some q) as Hat.
  { apply (lookup_alter_at (fun _ => q) _ _ proc0). by apply lookup_replicate_2. }
  destruct Hq as [Hst Hpid Hpar Hctx Hok _ _]. split_and!.
  - constructor.
    + by rewrite length_alter, length_replicate.
    + lia.
    + intros i p Hi. destruct (Hl i p Hi) as [[_ ->]|[_ ->]]; [done|]. by constructor.
    + intros i j p p' Hi Hj Hlive Hlive' _.
      destruct (Hl i p Hi) as [[-> ->]|[_ ->]]; [|done].
      by destruct (Hl j p' Hj) as [[-> ->]|[_ ->]].
    + exists n, q. split_and!; [done|done| |done]. unfold active. auto.
    + intros i p j Hi Hp. destruct (Hl i p Hi) as [[_ ->]|[_ ->]]; [congruence|done].
    + intros i p Hi. destruct (Hl i p Hi) as [[_ ->]|[_ ->]]; [congruence|done].
    + intros i p Hi. by destruct (Hl i p Hi) as [[-> ->]|[_ ->]].
  - assert (forall h i, cp !! h ≠ Some (Some i)) as Hno.
    { intros h i Hh. eapply Forall_lookup_1 in Hcp; [|done]. done. }
    constructor.
    + intros h i Hh. by destruct (Hno h i).
    + intros h h' i Hh. by destruct (Hno h i).
    + intros i p Hi Hr. destruct (Hl i p Hi) as [[_ ->]|[_ ->]]; [congruence|done].
  - constructor; [done|..].
    + intros i p Hi Hr. destruct (Hl i p Hi) as [[_ ->]|[_ ->]]; [|done]. by exists KForkret.
    + intros i p Hi Hr. destruct (Hl i p Hi) as [[_ ->]|[_ ->]]; [congruence|done].
Qed.

Section boot.
Context {E : Type} `{EV : KEnv E}.
Implicit Types (s : kstate E) (m : mach).

Lemma wp_userinit s :
  at_boot s -> rr_next s = 0 ->
  wp any_failure userinit s (fun _ s' => exists n q,
    resting n s' /\ procs s' !! n = Some q /\ init_slot q).
Proof.
  intros [Hm Hcp Hps Hss Hnp] Hrr. unfold userinit.
  wp_next. apply (wp_allocproc any_failure s); [done|by intros; exact I|].
  intros n p _ Hn Hu m e ks Hm1 Hf1 _. destruct (Z.eqb_spec ks 0) as [|Hks]; [exact I|]. wp_next. apply wp_modify.
  wp_next. apply wp_env; [by apply wp_any|]. intros pd e1. wp_next. apply wp_upd. simpl.
  rewrite list_alter_alter_eq. destruct (Z.eqb_spec pd 0) as [|Hpd]; [exact I|].
  wp_next. apply wp_env; [by apply wp_any|]. intros [] e2.
  do 3 (wp_next; apply wp_upd). simpl. rewrite !list_alter_alter_eq.
  wp_next. apply wp_env; [by apply wp_any|]. intros d e3. wp_next. apply wp_upd. simpl.
  rewrite list_alter_alter_eq. wp_next. eapply wp_acq1; [done|]. intros m2 Hm2 Hf2.
  wp_next. apply wp_upd. simpl. rewrite list_alter_alter_eq.
  eapply wp_rel1; [done|]. intros m3 Hm3 Hf3. simpl.
  match goal with |- context [alter ?f n (procs s)] => set (g := f) end.
  assert (p = proc0) as -> by (rewrite Hps in Hn; by apply lookup_replicate in Hn as [-> _]).
  assert (init_slot (g proc0)) as Hq.
  { subst g. rewrite Hnp. by constructor. }
  exists n, (g proc0). split; [split|split].
  - done.
  - assert (mframe (mc s) m3) as (_ & _ & Fc) by (by repeat (done || etrans)).
    unfold kt. simpl. rewrite Fc, Hnp, Hrr. split; [|done].
    rewrite Hps in *. rewrite (alter_at_ext g (fun _ => g proc0) _ _ _ Hn eq_refl).
    apply tinv_boot; [|done|done|by rewrite Hss].
    by apply lookup_replicate in Hn as [_ ?].
  - simpl. by apply (lookup_alter_at g).
  - done.
Qed.

(** Boot ends, if memory suffices, with init RUNNABLE and the invariant. *)
Lemma boot_resting s s' :
  at_boot s -> (pinit;; userinit) s = Ok tt s' ->
  exists n q, resting n s' /\ procs s' !! n = Some q /\ init_slot q.
Proof.
  intros Hb Hrun. revert s' Hrun. enough (wp any_failure (pinit;; userinit) s
    (fun _ s' => exists n q, resting n s' /\ procs s' !! n = Some q /\ init_slot q)) as H
    by (intros s' Hs'; exact (wp_elim _ _ _ tt _ _ H Hs')).
  destruct Hb as [Hm Hcp Hps Hss Hnp]. unfold pinit.
  wp_next. wp_next. apply wp_zoom, wp_modify. wp_next. apply wp_zoom, wp_modify. apply wp_modify.
  apply wp_userinit; [|done]. constructor; simpl; try done. by do 2 apply msec_initlock.
Qed.

End boot.

Section system.
Context {E : Type} `{EV : KEnv E}.
Context (sys_file : Z -> M (kstate E) (flow Z)).
Implicit Types (s : kstate E).

(** The kernel has booted and its CPUs have taken some steps. *)
Definition reachable s : Prop :=
  exists s0 s1, at_boot s0 /\ (pinit;; userinit) s0 = Ok tt s1 /\ rtc (kstep sys_file) s1 s.

Context (Hfile : file_frame any_failure sys_file).

Lemma kstep_resting ip s s' : resting ip s -> kstep sys_file s s' -> resting ip s'.
Proof.
  intros Hr (a & Ha & Hs).
  assert (wp any_failure (act sys_file a) s (fun _ s' => resting ip s')) as H
    by (apply (wp_act any_failure); [done..|]; by intros i _).
  exact (wp_elim _ _ _ tt _ _ H Hs).
Qed.

Lemma reachable_resting s : reachable s -> exists ip, resting ip s.
Proof.
  intros (s0 & s1 & Hb & H0 & Hs). destruct (boot_resting s0 s1 Hb H0) as (n & q & Hr & _).
  exists n. clear Hb H0. induction Hs as [|x y z Hxy _ IH]; [done|].
  by apply IH, (kstep_resting n x).
Qed.

(** C2. In every state the kernel reaches from boot, all of [kt] holds: slots of
    the process table are well formed, pids unique, every process but init has
    a living parent, RUNNING is being run by one CPU, RUNNABLE can be resumed,
    SLEEPING has something to wait for, [rr_next] is an index of the table;
    and no CPU holds a lock. *)
Theorem kernel_invariant s :
  reachable s -> exists ip, msec ∅ (mc s) /\ kt ip (cps (mc s)) s.
Proof. apply reachable_resting. Qed.

(** C23. A process is RUNNING exactly when some CPU runs it, and no two CPUs ever
    run the same process. *)
Theorem running_on_one_cpu s i p :
  reachable s -> procs s !! i = Some p ->
  (state p = RUNNING <-> exists h, cps (mc s) !! h = Some (Some i)) /\
  (forall h h', cps (mc s) !! h = Some (Some i) -> cps (mc s) !! h' = Some (Some i) -> h = h').
Proof.
  intros Hs Hp. destruct (reachable_resting s Hs) as (ip & _ & (_ & Hc & _) & _). split.
  - split; [by apply (cpu_some _ _ Hc)|]. intros [h Hh].
    destruct (cpu_running _ _ Hc _ _ Hh) as (q & ? & ?). congruence.
  - intros h h'. apply (cpu_inj _ _ Hc).
Qed.

(** C12. No wakeup is lost: whenever a process sleeps in [wait()] it has no zombie
    child and was not killed; in [sem_wait(id)] the semaphore has no unit to
    give; in [sleep(n)] the time is not over and the process was not killed. *)
Theorem no_lost_wakeup s i p :
  reachable s -> procs s !! i = Some p -> state p = SLEEPING ->
  (pchan p = Cproc i /\ killed p = 0 /\
   forall j q, procs s !! j = Some q -> parent q = Some i -> state q ≠ ZOMBIE) \/
  (exists id x, pchan p = Csem (Z.to_nat id) /\ sems s !! Z.to_nat id = Some x /\
     allocated x ≠ 0 /\ svalue x <= 0) \/
  (exists n t0, pchan p = Cticks /\ killed p = 0 /\
     pcontext p = Some (KSleep Lticks n t0) /\
     match t0 with ASysSleep d b => u32 (ticks s - b) < u32 d | _ => False end).
Proof.
  intros Hs Hp Hst. destruct (reachable_resting s Hs) as (ip & _ & (_ & _ & Hw) & _).
  destruct (wait_sleep _ _ _ Hw i p Hp Hst) as (lk & n & a & Hc & [Hlk Hok] & Hw').
  destruct a as [|id|d b]; simpl in *; [by left|right; left|right; right].
  - destruct Hok as (_ & y & Hy & Ha), Hw' as (Hch & x & Hx & Hle).
    exists id, x. split_and!; [done|done|congruence|done].
  - destruct Hw' as (? & ? & ?). exists n, (ASysSleep d b). subst lk. done.
Qed.


(** Every live process has a quantum of 1 to 100 ticks and has used up less
    than it; its kernel stack and page table exist. *)
Theorem quantum_invariant s i p :
  reachable s -> procs s !! i = Some p -> state p ≠ UNUSED ->
  1 <= timeslice p <= 100 /\ 0 <= ticks_used p < timeslice p /\
  kstack p ≠ 0 /\ pgdir p ≠ 0.
Proof.
  intros Hs Hp Hl. destruct (reachable_resting s Hs) as (ip & _ & (Hf & _) & _).
  destruct (slot_live _ _ (fam_slot _ _ _ Hf i p Hp) Hl) as (_ & ? & ? & ? & ?). done.
Qed.

(** C13. The process code adds no failure of its own.  Let [P] be the panics of the rest
    of the kernel (memory, page tables, devices) and of the file system calls, and
    [FBlocked] if one of them can wait for ever.  A turn of a scheduler or a trap, in a
    state reached from boot, returns, or fails in a way of [P], or panics because init
    exits; the panics of proc.c, spinlock.c and trap.c ([sched], [acquire], [release],
    [popcli], [zombie exit] and the others) do not occur, and no lock is waited for. *)
Theorem kernel_no_panic (P : failure -> Prop) s a `{!KEnvOk P E} :
  file_frame P sys_file -> reachable s -> enabled a s ->
  match act sys_file a s with
  | Ok _ s' => exists ip, msec ∅ (mc s') /\ kt ip (cps (mc s')) s'
  | Panic e => P (FPanic e) \/ e = "init exiting"%string
  | Blocked => P FBlocked
  end.
Proof.
  intros Hf Hs Ha. destruct (reachable_resting s Hs) as (ip & Hr). set (P' f := P f \/ f = FPanic "init exiting").
  assert (KEnvOk P' E) as HE by (eapply KEnvOk_weaken; [|done]; by left).
  assert (file_frame P' sys_file) as Hf'.
  { intros n i t Hm Ht. eapply wp_weaken; [|by apply Hf]. by left. }
  assert (wp P' (act sys_file a) s (fun _ s' => resting ip s')) as H.
  { apply (wp_act P'); [done..|]. intros i _. by right. }
  unfold wp in H. destruct (act sys_file a s) as [[] s'|e|]; [by exists ip|..]; destruct H as [H|H]; [by left|right|done|done].
  by injection H.
Qed.

End system.
