(* ===== verification/Pipe.v ===== *)
(** * Pipes: pipe.c

    The ring buffer between readers and writers.  A call of [pipewrite] or
    [piperead] is a sequence of critical sections under [p->lock]: it runs from
    [acquire] (or from the return of [sleep]) to [release] (or to the next
    [sleep]).  One such section is one step; [wakeup] is recorded as the list
    of channels woken. *)

From stdpp Require Import base numbers gmap list.
From S2P Require Import Prelude.
Open Scope Z_scope.

Module Pipe.

Definition PIPESIZE : Z := 512.

Record pipe := mkPipe {
  pdata : list Z;
  nread : Z;
  nwrite : Z;
  readopen : Z;
  writeopen : Z }.

(** The two sleep channels, [&p->nread] and [&p->nwrite]. *)
Inductive pchan := Cread | Cwrite.

#[global] Instance pchan_eq_dec : EqDecision pchan.
Proof. solve_decision. Defined.

(** How a critical section ends: the call returns, or the process sleeps on a
    channel and goes on in the same place later. *)
Inductive outcome := Return (r : Z) | Sleep (c : pchan).

(** [p->data[p->nwrite++ % PIPESIZE] = b;] *)
Definition put (b : Z) (p : pipe) : pipe :=
  mkPipe (<[Z.to_nat (Z.rem (nwrite p) PIPESIZE) := b]> (pdata p))
    (nread p) (u32 (nwrite p + 1)) (readopen p) (writeopen p).

(** [p->data[p->nread % PIPESIZE]] and [p->nread++]. *)
Definition peek (p : pipe) : Z :=
  default 0 (pdata p !! Z.to_nat (Z.rem (nread p) PIPESIZE)).

Definition advance (p : pipe) : pipe :=
  mkPipe (pdata p) (u32 (nread p + 1)) (nwrite p) (readopen p) (writeopen p).

Definition full (p : pipe) : bool := nwrite p =? u32 (nread p + PIPESIZE).

Definition empty (p : pipe) : bool := nread p =? nwrite p.

(** The fields [pipealloc] sets in the page it gets; [page] is what is there. *)
Definition pipe_init (page : list Z) : pipe := mkPipe page 0 0 1 1.

(** [pipeclose]: the pipe, the channels woken, and whether the page is freed. *)
Definition pipeclose (p : pipe) (writable : bool) : pipe * list pchan * bool :=
  let p' := if writable
    then mkPipe (pdata p) (nread p) (nwrite p) (readopen p) 0
    else mkPipe (pdata p) (nread p) (nwrite p) 0 (writeopen p) in
  (p', [if writable then Cread else Cwrite],
   (readopen p' =? 0) && (writeopen p' =? 0)).

(** The rest of [pipewrite(p, addr, n)] with the bytes [todo] still to write:
    the pipe, the bytes still to write, the channels woken, how it ends. *)
Fixpoint pipewrite_loop (killed : bool) (n : Z) (todo : list Z) (p : pipe)
  : pipe * list Z * list pchan * outcome :=
  match todo with
  | [] => (p, [], [Cread], Return n)
  | b :: rest =>
      if full p then
        if (readopen p =? 0) || killed then (p, todo, [], Return (-1))
        else (p, todo, [Cread], Sleep Cwrite)
      else pipewrite_loop killed n rest (put b p)
  end.

Definition pipewrite (killed : bool) (addr : list Z) (p : pipe) :=
  pipewrite_loop killed (Z.of_nat (length addr)) addr p.

(** The copying loop of [piperead] for at most [n] bytes. *)
Fixpoint piperead_copy (n : nat) (p : pipe) : pipe * list Z :=
  match n with
  | O => (p, [])
  | S n =>
      if empty p then (p, [])
      else let r := piperead_copy n (advance p) in (r.1, peek p :: r.2)
  end.

(** [piperead(p, addr, n)]: the pipe, the bytes put in [addr], the channels
    woken, how it ends. *)
Definition piperead (killed : bool) (n : Z) (p : pipe)
  : pipe * list Z * list pchan * outcome :=
  if empty p && negb (writeopen p =? 0) then
    if killed then (p, [], [], Return (-1)) else (p, [], [], Sleep Cread)
  else
    let r := piperead_copy (Z.to_nat n) p in
    (r.1, r.2, [Cwrite], Return (Z.of_nat (length r.2))).

(** ** The buffer as a queue *)

Definition used (p : pipe) : Z := u32 (nwrite p - nread p).

Definition contents (p : pipe) : list Z :=
  (fun k => default 0 (pdata p !! Z.to_nat ((nread p + Z.of_nat k) mod PIPESIZE)))
    <$> seq 0 (Z.to_nat (used p)).

Record pipe_ok (p : pipe) : Prop := mkOk {
  ok_data : length (pdata p) = Z.to_nat PIPESIZE;
  ok_nread : 0 <= nread p < 4294967296;
  ok_nwrite : 0 <= nwrite p < 4294967296;
  ok_used : used p <= PIPESIZE }.

(** Wrapping around the counters does not disturb the index. *)
Lemma u32_mod_size x : u32 x mod PIPESIZE = x mod PIPESIZE.
Proof.
  unfold u32, PIPESIZE. change 4294967296 with (512 * 8388608).
  rewrite Z.rem_mul_r by lia. rewrite Z.mul_comm, Z_mod_plus_full. by rewrite Z.mod_mod by lia.
Qed.

Lemma used_range p : 0 <= used p < 4294967296.
Proof. apply u32_range. Qed.

Lemma nwrite_used p : 0 <= nwrite p < 4294967296 -> u32 (nread p + used p) = nwrite p.
Proof.
  intros H. unfold used. rewrite u32_add_r. replace (nread p + (nwrite p - nread p)) with (nwrite p) by lia.
  by apply u32_small.
Qed.

Lemma empty_used p : pipe_ok p -> empty p = true <-> used p = 0.
Proof.
  intros [_ Hr Hw _]. unfold empty. rewrite Z.eqb_eq. split.
  - intros H. unfold used. by rewrite H, Z.sub_diag.
  - intros H0. pose proof (nwrite_used p Hw) as H. rewrite H0, Z.add_0_r, u32_small in H by done. done.
Qed.

Lemma full_used p : pipe_ok p -> full p = true <-> used p = PIPESIZE.
Proof.
  intros [_ Hr Hw _]. unfold full. rewrite Z.eqb_eq. split.
  - intros H. unfold used. rewrite H, u32_sub_l.
    replace (nread p + PIPESIZE - nread p) with PIPESIZE by lia. done.
  - intros H. rewrite <- (nwrite_used p Hw), H. done.
Qed.

Lemma index_lt x : (Z.to_nat (x mod PIPESIZE) < Z.to_nat PIPESIZE)%nat.
Proof. unfold PIPESIZE. pose proof (Z.mod_pos_bound x 512). lia. Qed.

Lemma nwrite_index p : pipe_ok p ->
  Z.rem (nwrite p) PIPESIZE = (nread p + used p) mod PIPESIZE.
Proof.
  intros [_ Hr Hw _]. rewrite Z.rem_mod_nonneg by (unfold PIPESIZE; lia).
  rewrite <- (nwrite_used p Hw) at 1. apply u32_mod_size.
Qed.

Lemma put_used p b : pipe_ok p -> used p < PIPESIZE -> used (put b p) = used p + 1.
Proof.
  intros [_ Hr Hw _] Hlt. unfold used in *. simpl. rewrite u32_sub_l.
  replace (nwrite p + 1 - nread p) with ((nwrite p - nread p) + 1) by lia.
  rewrite <- u32_add_l. apply u32_small. pose proof (u32_range (nwrite p - nread p)).
  unfold PIPESIZE in Hlt. lia.
Qed.

Lemma put_ok p b : pipe_ok p -> used p < PIPESIZE -> pipe_ok (put b p).
Proof.
  intros Hp Hlt. pose proof (put_used p b Hp Hlt) as Hu. destruct Hp as [Hd Hr Hw _].
  constructor; simpl; [by rewrite length_insert|done|apply u32_range|lia].
Qed.

(** Writing a byte appends it. *)
Lemma put_contents p b : pipe_ok p -> used p < PIPESIZE -> contents (put b p) = contents p ++ [b].
Proof.
  intros Hp Hlt. pose proof (put_used p b Hp Hlt) as Hu. pose proof (used_range p).
  pose proof (nwrite_index p Hp) as Hix. pose proof Hp as [Hd Hr Hw _].
  unfold contents. rewrite Hu. replace (Z.to_nat (used p + 1)) with (Z.to_nat (used p) + 1)%nat by lia.
  rewrite seq_app, fmap_app. simpl. rewrite Hix. f_equal.
  - apply list_fmap_ext. intros i k Hk. apply lookup_seq in Hk as [-> Hk]. simpl.
    rewrite list_lookup_insert_ne; [done|]. intros Heq.
    apply (f_equal Z.of_nat) in Heq. unfold PIPESIZE in *.
    rewrite !Z2Nat.id in Heq by (apply Z.mod_pos_bound; lia).
    pose proof (Z.div_mod (nread p + used p) 512 ltac:(lia)).
    pose proof (Z.div_mod (nread p + Z.of_nat i) 512 ltac:(lia)). lia.
  - rewrite Z2Nat.id by lia. rewrite list_lookup_insert_eq; [done|]. rewrite Hd. apply index_lt.
Qed.

Lemma advance_used p : pipe_ok p -> 0 < used p -> used (advance p) = used p - 1.
Proof.
  intros [_ Hr Hw _] Hlt. unfold used in *. simpl. rewrite u32_sub_r.
  replace (nwrite p - (nread p + 1)) with ((nwrite p - nread p) - 1) by lia.
  rewrite <- u32_sub_l. apply u32_small. pose proof (u32_range (nwrite p - nread p)). lia.
Qed.

Lemma advance_ok p : pipe_ok p -> 0 < used p -> pipe_ok (advance p).
Proof.
  intros Hp Hlt. pose proof (advance_used p Hp Hlt) as Hu. destruct Hp as [Hd Hr Hw Hs].
  constructor; simpl; [done|apply u32_range|done|lia].
Qed.

(** Reading takes the first byte. *)
Lemma advance_contents p : pipe_ok p -> 0 < used p -> contents p = peek p :: contents (advance p).
Proof.
  intros Hp Hlt. pose proof (advance_used p Hp Hlt) as Hu. pose proof Hp as [Hd Hr Hw _].
  unfold contents. rewrite Hu.
  replace (Z.to_nat (used p)) with (S (Z.to_nat (used p - 1))) by lia. simpl. f_equal.
  - unfold peek. rewrite Z.add_0_r, Z.rem_mod_nonneg by (unfold PIPESIZE; lia). done.
  - rewrite <- fmap_S_seq, <- list_fmap_compose. apply list_fmap_ext. intros i k _. simpl.
    do 3 f_equal. rewrite <- (u32_mod_size (u32 (nread p + 1) + Z.of_nat k)).
    rewrite u32_add_l, u32_mod_size. f_equal. lia.
Qed.

(** ** What a critical section does *)

Lemma contents_nil p : pipe_ok p -> contents p = [] <-> empty p = true.
Proof.
  intros Hp. rewrite empty_used by done. unfold contents. pose proof (used_range p). split.
  - intros H0. apply fmap_nil_inv in H0. destruct (Z.to_nat (used p)) eqn:E; [lia|done].
  - intros ->. done.
Qed.

Lemma not_full p : pipe_ok p -> full p = false -> used p < PIPESIZE.
Proof.
  intros Hp Hf. pose proof (ok_used p Hp) as Hu. pose proof (full_used p Hp) as H.
  destruct (decide (used p = PIPESIZE)) as [He|]; [|lia]. apply H in He. congruence.
Qed.

Lemma not_empty p : pipe_ok p -> empty p = false -> 0 < used p.
Proof.
  intros Hp Hf. pose proof (used_range p). pose proof (empty_used p Hp) as H0.
  destruct (decide (used p = 0)) as [He|]; [|lia]. apply H0 in He. congruence.
Qed.

(** A writer appends a prefix of what it has left, all of it unless the pipe
    is full; it ends with everything written and readers woken, or asleep on a
    full pipe with readers woken, or with an error. *)
Lemma pipewrite_loop_spec killed n todo p p' rest wk o :
  pipe_ok p -> pipewrite_loop killed n todo p = (p', rest, wk, o) ->
  pipe_ok p' /\ readopen p' = readopen p /\ writeopen p' = writeopen p /\
  (exists done, todo = done ++ rest /\ contents p' = contents p ++ done) /\
  ((o = Return n /\ rest = [] /\ wk = [Cread]) \/
   (o = Return (-1) /\ rest ≠ [] /\ wk = [] /\ full p' = true /\
      (readopen p = 0 \/ killed = true)) \/
   (o = Sleep Cwrite /\ rest ≠ [] /\ wk = [Cread] /\ full p' = true /\
      readopen p ≠ 0 /\ killed = false)).
Proof.
  revert p. induction todo as [|b todo IH]; intros p Hp; simpl.
  { intros [= <- <- <- <-]. split_and!; [done..| |by left]. exists []. split; [done|by rewrite app_nil_r]. }
  destruct (full p) eqn:Hf.
  - assert (exists dn, b :: todo = dn ++ b :: todo /\ contents p = contents p ++ dn) as Hnil
      by (exists []; split; [done|by rewrite app_nil_r]).
    destruct ((readopen p =? 0) || killed) eqn:Hb; intros [= <- <- <- <-];
      (split_and!; [done..|]); right.
    + left. split_and!; [done..|]. apply orb_true_iff in Hb as [Hb|Hb]; [left; lia|by right].
    + right. apply orb_false_iff in Hb as [Hb ->]. split_and!; [done..|lia|done].
  - intros Hl. pose proof (not_full p Hp Hf) as Hlt.
    destruct (IH _ (put_ok p b Hp Hlt) Hl) as (H1 & H2 & H3 & (dn & -> & Hc) & Ho).
    split_and!; [done..| |done]. exists (b :: dn). split; [done|].
    by rewrite Hc, put_contents, <- app_assoc.
Qed.

Lemma piperead_copy_spec n p :
  pipe_ok p ->
  let r := piperead_copy n p in
  pipe_ok r.1 /\ readopen r.1 = readopen p /\ writeopen r.1 = writeopen p /\
  contents p = r.2 ++ contents r.1 /\
  length r.2 = Nat.min n (length (contents p)).
Proof.
  revert p. induction n as [|n IH]; intros p Hp; simpl; [done|].
  destruct (empty p) eqn:He; simpl.
  { split_and!; [done..|]. by rewrite (proj2 (contents_nil p Hp) He). }
  pose proof (not_empty p Hp He) as Hlt.
  destruct (IH _ (advance_ok p Hp Hlt)) as (H1 & H2 & H3 & H4 & H5).
  rewrite (advance_contents p Hp Hlt). split_and!; [done..| |].
  - by rewrite H4 at 1.
  - simpl. by rewrite H5.
Qed.

(** A reader takes a prefix of the contents: as many bytes as it asked for or
    as there are.  It waits on an empty pipe only while there is a writer. *)
Lemma piperead_spec killed n p p' bs wk o :
  pipe_ok p -> piperead killed n p = (p', bs, wk, o) ->
  pipe_ok p' /\ readopen p' = readopen p /\ writeopen p' = writeopen p /\
  contents p = bs ++ contents p' /\
  ((o = Return (Z.of_nat (length bs)) /\ wk = [Cwrite] /\
      length bs = Nat.min (Z.to_nat n) (length (contents p))) \/
   (o = Return (-1) /\ bs = [] /\ wk = [] /\ p' = p /\ killed = true) \/
   (o = Sleep Cread /\ bs = [] /\ wk = [] /\ p' = p /\ killed = false /\
      contents p = [] /\ writeopen p ≠ 0)).
Proof.
  intros Hp. unfold piperead. destruct (empty p && negb (writeopen p =? 0)) eqn:Hb.
  - apply andb_true_iff in Hb as [He Hw]. apply negb_true_iff, Z.eqb_neq in Hw.
    destruct killed; intros [= <- <- <- <-]; split_and!; try done; right; [by left|].
    right. split_and!; try done. by apply contents_nil.
  - intros [= <- <- <- <-]. destruct (piperead_copy_spec (Z.to_nat n) p Hp) as (? & ? & ? & ? & ?).
    split_and!; try done. left. done.
Qed.

(** ** Readers and writers together *)

(** A process with respect to one pipe: not using it, inside [pipewrite] with
    [todo] left, or inside [piperead]; asleep or about to go on. *)
Inductive thread :=
  | Idle
  | Writer (n : Z) (todo : list Z) (asleep : bool)
  | Reader (n : Z) (asleep : bool).

(** [wakeup(c)] *)
Definition wake1 (c : pchan) (t : thread) : thread :=
  match t, c with
  | Writer n todo _, Cwrite => Writer n todo false
  | Reader n _, Cread => Reader n false
  | _, _ => t
  end.

Definition wake_all (wk : list pchan) (ts : list thread) : list thread :=
  foldr (fun c ts => wake1 c <$> ts) ts wk.

(** The pipe, the processes, all bytes ever written and read. *)
Record psys := mkSys {
  the_pipe : pipe;
  threads : list thread;
  sent : list Z;
  got : list Z }.

Definition write_done (n : Z) (rest : list Z) (o : outcome) : thread :=
  match o with Return _ => Idle | Sleep _ => Writer n rest true end.

Definition read_done (n : Z) (o : outcome) : thread :=
  match o with Return _ => Idle | Sleep _ => Reader n true end.

(** [pstep killed]: one critical section of some process; [killed] is what it
    reads in [myproc()->killed].  An end is closed only when nobody uses it. *)
Inductive pstep (killed : bool) : psys -> psys -> Prop :=
  | p_write i n todo p ts sn gt p' rest wk o :
      (ts !! i = Some Idle /\ n = Z.of_nat (length todo) \/ ts !! i = Some (Writer n todo false)) ->
      writeopen p ≠ 0 ->
      pipewrite_loop killed n todo p = (p', rest, wk, o) ->
      pstep killed (mkSys p ts sn gt)
        (mkSys p' (wake_all wk (<[i := write_done n rest o]> ts))
          (sn ++ take (length todo - length rest) todo) gt)
  | p_read i n p ts sn gt p' bs wk o :
      (ts !! i = Some Idle \/ ts !! i = Some (Reader n false)) ->
      readopen p ≠ 0 ->
      piperead killed n p = (p', bs, wk, o) ->
      pstep killed (mkSys p ts sn gt)
        (mkSys p' (wake_all wk (<[i := read_done n o]> ts)) sn (gt ++ bs))
  | p_close w p ts sn gt p' wk fr :
      Forall (fun t => match t with
        | Idle => True | Writer _ _ _ => w = false | Reader _ _ => w = true end) ts ->
      pipeclose p w = (p', wk, fr) ->
      pstep killed (mkSys p ts sn gt) (mkSys p' (wake_all wk ts) sn gt).

(** A new pipe nobody uses yet. *)
Definition psys_init (page : list Z) (n : nat) : psys :=
  mkSys (pipe_init page) (replicate n Idle) [] [].

Inductive preach (killed : bool) (page : list Z) (n : nat) : psys -> Prop :=
  | preach_init : preach killed page n (psys_init page n)
  | preach_step k s s' : preach killed page n s -> (k = true -> killed = true) ->
      pstep k s s' -> preach killed page n s'.

Definition fifo (s : psys) : Prop :=
  pipe_ok (the_pipe s) /\ sent s = got s ++ contents (the_pipe s).

Lemma fifo_step k s s' : pstep k s s' -> fifo s -> fifo s'.
Proof.
  intros Hs [Hok Hq]. destruct Hs as [i n todo p ts sn gt p' rest wk o Hi Hw Hl|
    i n p ts sn gt p' bs wk o Hi Hr Hl|w p ts sn gt p' wk fr Hu Hl]; simpl in *.
  - destruct (pipewrite_loop_spec _ _ _ _ _ _ _ _ Hok Hl) as (H1 & _ & _ & (dn & -> & Hc) & _).
    split; [done|]. simpl. rewrite Hc, Hq, length_app, <- !app_assoc.
    replace (length dn + length rest - length rest)%nat with (length dn) by lia.
    by rewrite take_app_length.
  - destruct (piperead_spec _ _ _ _ _ _ _ Hok Hl) as (H1 & _ & _ & Hc & _).
    split; [done|]. simpl. by rewrite Hq, Hc, app_assoc.
  - unfold pipeclose in Hl. injection Hl as <- _ _. destruct w; (split; [|exact Hq]);
      destruct Hok; by constructor.
Qed.

Lemma fifo_init page n : length page = Z.to_nat PIPESIZE -> fifo (psys_init page n).
Proof. intros Hl. by repeat split. Qed.

(** C31. Bytes come out of a pipe in the order they went in, none lost, none made
    up, none twice, whatever the processes and in whatever order their
    critical sections run, and also when the counters wrap around: at any time
    what was written is what was read followed by the contents, of which there
    are never more than [PIPESIZE]. *)
Theorem pipe_fifo page n s :
  length page = Z.to_nat PIPESIZE -> preach true page n s ->
  sent s = got s ++ contents (the_pipe s) /\ (length (contents (the_pipe s)) <= Z.to_nat PIPESIZE)%nat.
Proof.
  intros Hl Hs. assert (fifo s) as [Hok Hq].
  { induction Hs as [|k s s' _ IH _ Hst]; [by apply fifo_init|by eapply fifo_step]. }
  split; [done|]. unfold contents. rewrite length_fmap, length_seq. pose proof (ok_used _ Hok). lia.
Qed.

(** ** Nobody sleeps for nothing *)

Definition waits_ok (p : pipe) (t : thread) : Prop :=
  match t with
  | Idle => True
  | Writer _ todo sl => writeopen p ≠ 0 /\
      (sl = true -> length (contents p) = Z.to_nat PIPESIZE /\ readopen p ≠ 0)
  | Reader _ sl => readopen p ≠ 0 /\ (sl = true -> contents p = [] /\ writeopen p ≠ 0)
  end.

Definition pwaits (s : psys) : Prop := fifo s /\ Forall (waits_ok (the_pipe s)) (threads s).

Lemma full_contents p : pipe_ok p -> full p = true -> length (contents p) = Z.to_nat PIPESIZE.
Proof.
  intros Hp Hf. unfold contents. rewrite length_fmap, length_seq.
  by rewrite (proj1 (full_used p Hp) Hf).
Qed.

Lemma contents_length p : pipe_ok p -> (length (contents p) <= Z.to_nat PIPESIZE)%nat.
Proof. intros Hp. unfold contents. rewrite length_fmap, length_seq. pose proof (ok_used _ Hp). lia. Qed.

(** Processes that were in order stay so when the pipe gets fuller and every
    reader is woken, and when it gets emptier and every writer is woken. *)
Lemma waits_more p p' t dn :
  pipe_ok p' -> readopen p' = readopen p -> writeopen p' = writeopen p ->
  contents p' = contents p ++ dn -> waits_ok p t -> waits_ok p' (wake1 Cread t).
Proof.
  intros Hp' Hro Hwo Hc. destruct t as [|n todo sl|n sl]; simpl; rewrite ?Hro, ?Hwo; [done| |].
  - intros [Hw Hs]. split; [done|]. intros ->. destruct Hs as [Hl Hr]; [done|].
    split; [|done]. pose proof (contents_length p' Hp'). rewrite Hc, length_app in *. lia.
  - intros [Hr _]. by split.
Qed.

Lemma waits_less p p' t bs :
  readopen p' = readopen p -> writeopen p' = writeopen p ->
  contents p = bs ++ contents p' -> waits_ok p t -> waits_ok p' (wake1 Cwrite t).
Proof.
  intros Hro Hwo Hc. destruct t as [|n todo sl|n sl]; simpl; rewrite ?Hro, ?Hwo; [done| |].
  - intros [Hw _]. by split.
  - intros [Hr Hs]. split; [done|]. intros ->. destruct Hs as [Hl Hw]; [done|].
    rewrite Hl in Hc. symmetry in Hc. by apply app_eq_nil in Hc as [_ ->].
Qed.

Lemma Forall_wake p (c : pchan) (ts : list thread) (R : thread -> Prop) :
  Forall R ts -> (forall t, R t -> waits_ok p (wake1 c t)) ->
  Forall (waits_ok p) (wake_all [c] ts).
Proof. intros Hts HR. simpl. apply Forall_fmap. eapply Forall_impl; [done|]. exact HR. Qed.

Lemma pwaits_step s s' : pstep false s s' -> pwaits s -> pwaits s'.
Proof.
  intros Hs [Hff Hts]. split; [by eapply fifo_step|]. destruct Hff as [Hok _].
  destruct Hs as [i n todo p ts sn gt p' rest wk o Hi Hw Hl|
    i n p ts sn gt p' bs wk o Hi Hr Hl|w p ts sn gt p' wk fr Hu Hl]; simpl in *.
  - destruct (pipewrite_loop_spec _ _ _ _ _ _ _ _ Hok Hl)
      as (Hok' & Hro & Hwo & (dn & _ & Hc) & Ho).
    assert (forall t, waits_ok p t -> waits_ok p' (wake1 Cread t)) as Hmore
      by (intros t; by apply (waits_more _ _ _ dn)).
    destruct Ho as [(-> & _ & ->)|[(-> & _ & -> & _ & Hz)|(-> & _ & -> & Hf & Hr & _)]]; simpl.
    + rewrite list_fmap_insert. apply Forall_insert; [|done]. apply Forall_fmap.
      by eapply Forall_impl.
    + destruct Hz as [Hz|]; [|done]. apply Forall_insert; [|done].
      eapply Forall_impl; [done|]. intros [|n' todo' sl|n' sl]; simpl; rewrite ?Hro, ?Hwo; [done| |].
      * intros [? Hs]. split; [done|]. intros ->. by destruct Hs as [_ ?].
      * by intros [? _].
    + rewrite list_fmap_insert. apply Forall_insert.
      * apply Forall_fmap. by eapply Forall_impl.
      * simpl. rewrite ?Hro, ?Hwo. split; [done|]. intros _. split; [by apply full_contents|done].
  - destruct (piperead_spec _ _ _ _ _ _ _ Hok Hl) as (Hok' & Hro & Hwo & Hc & Ho).
    destruct Ho as [(-> & -> & _)|[(_ & _ & _ & _ & ?)|(-> & _ & -> & -> & _ & Hce & Hwp)]]; [|done|];
      simpl.
    + rewrite list_fmap_insert. apply Forall_insert; [|done]. apply Forall_fmap.
      eapply Forall_impl; [done|]. intros t. by apply (waits_less _ _ _ bs).
    + apply Forall_insert; [done|]. simpl. done.
  - unfold pipeclose in Hl. injection Hl as <- <- _. simpl. apply Forall_fmap.
    rewrite Forall_forall in Hts, Hu |- *. intros t Ht. specialize (Hts t Ht). specialize (Hu t Ht).
    destruct w, t as [|n todo sl|n sl]; simpl in *; naive_solver.
Qed.

(** A call goes to sleep exactly when it has to. *)
Lemma piperead_sleeps n p : pipe_ok p -> (piperead false n p).2 = Sleep Cread <-> contents p = [] /\ writeopen p ≠ 0.
Proof.
  intros Hp. unfold piperead. rewrite (contents_nil p Hp). destruct (empty p), (Z.eqb_spec (writeopen p) 0); cbn; naive_solver.
Qed.

Lemma pipewrite_sleeps n todo p : pipe_ok p ->
  (pipewrite_loop false n todo p).2 = Sleep Cwrite <-> (Z.to_nat PIPESIZE < length (contents p) + length todo)%nat /\ readopen p ≠ 0.
Proof.
  revert p. induction todo as [|b todo IH]; intros p Hp; cbn [pipewrite_loop length].
  - pose proof (contents_length p Hp). split; [done|]. lia.
  - destruct (full p) eqn:Ef.
    + rewrite (full_contents p Hp Ef), orb_false_r. destruct (Z.eqb_spec (readopen p) 0); cbn; split; try done; [tauto|]. intros _. split; [lia|done].
    + apply (not_full p Hp) in Ef. rewrite IH by (by apply put_ok). rewrite put_contents, length_app by done. cbn [length readopen put].
      replace (length (contents p) + 1 + length todo)%nat with (length (contents p) + S (length todo))%nat by lia. done.
Qed.

(** C32. As long as no process is killed, no wakeup is lost: a process sleeps in
    [piperead] only while the pipe is empty and has a writer, in [pipewrite]
    only while the pipe is full and has a reader; so never are a reader and a
    writer of the same pipe asleep together.  And a call goes to sleep exactly then:
    a read when there is nothing to read but a writer, a write when the bytes do not fit
    and there is a reader. *)
Theorem pipe_no_lost_wakeup page n s :
  length page = Z.to_nat PIPESIZE -> preach false page n s ->
  (forall i m, threads s !! i = Some (Reader m true) ->
     contents (the_pipe s) = [] /\ writeopen (the_pipe s) ≠ 0) /\
  (forall i m todo, threads s !! i = Some (Writer m todo true) ->
     length (contents (the_pipe s)) = Z.to_nat PIPESIZE /\ readopen (the_pipe s) ≠ 0) /\
  (forall i j m m' todo, ~ (threads s !! i = Some (Reader m true) /\
     threads s !! j = Some (Writer m' todo true))) /\
  (forall m, (piperead false m (the_pipe s)).2 = Sleep Cread <->
     contents (the_pipe s) = [] /\ writeopen (the_pipe s) ≠ 0) /\
  (forall m todo, (pipewrite_loop false m todo (the_pipe s)).2 = Sleep Cwrite <->
     (Z.to_nat PIPESIZE < length (contents (the_pipe s)) + length todo)%nat /\ readopen (the_pipe s) ≠ 0).
Proof.
  intros Hl Hs. assert (pwaits s) as [[Hok _] Hts].
  { induction Hs as [|k s s' _ IH Hk Hst].
    - split; [by apply fifo_init|]. by apply Forall_replicate.
    - assert (k = false) as -> by (destruct k; [by destruct (Hk eq_refl)|done]).
      by eapply pwaits_step. }
  assert (forall i t, threads s !! i = Some t -> waits_ok (the_pipe s) t) as Ht
    by (intros i t; apply (Forall_lookup_1 _ _ _ _ Hts)).
  split_and!.
  - intros i m Hi. by apply (Ht _ _ Hi).
  - intros i m todo Hi. by apply (Ht _ _ Hi).
  - intros i j m m' todo [Hi Hj]. destruct (proj2 (Ht _ _ Hi) eq_refl) as [Hc _].
    destruct (proj2 (Ht _ _ Hj) eq_refl) as [Hj' _]. by rewrite Hc in Hj'.
  - intros m. by apply piperead_sleeps.
  - intros m todo. by apply pipewrite_sleeps.
Qed.

(** A killed writer loses a wakeup: when it fills the pipe and then finds it
    full, [pipewrite] returns -1 and wakes no reader. *)
Lemma killed_writer_wakes_nobody addr p :
  pipe_ok p -> readopen p ≠ 0 -> (Z.to_nat PIPESIZE < length (contents p ++ addr))%nat ->
  exists p' rest, pipewrite true addr p = (p', rest, [], Return (-1)) /\
    pipe_ok p' /\ length (contents p') = Z.to_nat PIPESIZE.
Proof.
  intros Hp Hr Hl. unfold pipewrite.
  destruct (pipewrite_loop true _ addr p) as [[[p' rest] wk] o] eqn:E. exists p', rest.
  destruct (pipewrite_loop_spec _ _ _ _ _ _ _ _ Hp E) as (Hok' & _ & _ & (dn & -> & Hc) & Ho).
  pose proof (contents_length p' Hok') as Hle. rewrite Hc, length_app in Hle.
  rewrite !length_app in Hl.
  destruct Ho as [(_ & -> & _)|[(-> & _ & -> & Hf & _)|(_ & _ & _ & _ & _ & ?)]];
    [|by auto using full_contents|done].
  simpl in Hl. lia.
Qed.

(** Without that condition the property fails: a reader sleeps on an empty
    pipe, a killed writer fills it and leaves, and the reader is still asleep
    with the pipe full (until another write, or the last close of the write
    end, wakes it). *)
Theorem killed_writer_strands_reader (page addr : list Z) :
  length page = Z.to_nat PIPESIZE -> (Z.to_nat PIPESIZE < length addr)%nat ->
  exists s, preach true page 2 s /\ threads s = [Reader 1 true; Idle] /\
    length (contents (the_pipe s)) = Z.to_nat PIPESIZE.
Proof.
  intros Hp Ha. destruct (fifo_init page 2 Hp) as [Hok _]. simpl in Hok.
  destruct (killed_writer_wakes_nobody addr (pipe_init page) Hok) as (p' & rest & Hw & _ & Hc);
    [done|exact Ha|].
  assert (pstep false (psys_init page 2) (mkSys (pipe_init page) [Reader 1 true; Idle] [] []))
    as H1 by (apply (p_read _ 0%nat 1 _ [Idle; Idle] [] [] _ [] [] (Sleep Cread)); [by left|discriminate|reflexivity]).
  pose proof (p_write true 1%nat (Z.of_nat (length addr)) addr (pipe_init page) [Reader 1 true; Idle] [] []
    p' rest [] (Return (-1)) (or_introl (conj eq_refl eq_refl)) ltac:(discriminate) Hw) as H2.
  eexists. split; [eapply (preach_step _ _ _ true); [|done|exact H2]|by split].
  apply (preach_step _ _ _ false _ _ (preach_init _ _ _)); [done|exact H1].
Qed.

End Pipe.
