(* ===== verification/File.v ===== *)
(** * Open files and file descriptors: file.c, and the calls of sysfile.c on descriptors

    The table [ftable] of open files with their reference counts, the pipes and
    inodes behind them, and the descriptor tables of the processes.  The state
    also has the pages [kalloc] has to give (the pages of pipes come from there
    and go back) and the reference counts of inodes, which [iput] lowers.  The
    sections under [ftable.lock] are atomic here. *)

From stdpp Require Import base numbers gmap sets list strings.
From S2P Require Import Prelude Pipe.
Open Scope Z_scope.

Module File.

Definition NFILE : nat := 100.
Definition NOFILE : nat := 16.

Definition O_WRONLY : Z := 1.
Definition O_RDWR : Z := 2.

Inductive ftype := FD_NONE | FD_PIPE | FD_INODE.

#[global] Instance ftype_eq_dec : EqDecision ftype.
Proof. solve_decision. Defined.

Record file := mkFile {
  type : ftype;
  ref : Z;
  readable : bool;
  writable : bool;
  fpipe : Z;
  ip : nat;
  off : Z }.

Definition set_ref (r : Z) (x : file) : file :=
  mkFile (type x) r (readable x) (writable x) (fpipe x) (ip x) (off x).

Definition set_type (t : ftype) (x : file) : file :=
  mkFile t (ref x) (readable x) (writable x) (fpipe x) (ip x) (off x).

Definition pipe_file (p : Z) (w : bool) (x : file) : file :=
  mkFile FD_PIPE (ref x) (negb w) w p (ip x) (off x).

Definition inode_file (i : nat) (r w : bool) (x : file) : file :=
  mkFile FD_INODE (ref x) r w (fpipe x) i 0.

Record fstate := mkFst {
  files : list file;
  pipes : gmap Z Pipe.pipe;
  free : list Z;
  iref : nat -> Z }.

Definition set_files (v : list file) (s : fstate) : fstate := mkFst v (pipes s) (free s) (iref s).
Definition set_pipes (v : gmap Z Pipe.pipe) (s : fstate) : fstate := mkFst (files s) v (free s) (iref s).
Definition set_free (v : list Z) (s : fstate) : fstate := mkFst (files s) (pipes s) v (iref s).
Definition set_iref (v : nat -> Z) (s : fstate) : fstate := mkFst (files s) (pipes s) (free s) v.

Definition upd_file (f : nat) (g : file -> file) : M fstate unit :=
  modify (fun s => set_files (alter g f (files s)) s).

Definition get_file (f : nat) : M fstate file := fun s =>
  match files s !! f with Some x => Ok x s | None => Panic "bad file pointer" end.

(** ** file.c *)

Definition filealloc : M fstate (option nat) :=
  s ← gets id;
  match list_find (fun x => ref x = 0) (files s) with
  | Some (f, _) => upd_file f (set_ref 1);; mret (Some f)
  | None => mret None
  end.

Definition filedup (f : nat) : M fstate nat :=
  x ← get_file f;
  if ref x <? 1 then panic "filedup" else
  upd_file f (set_ref (ref x + 1));; mret f.

(** [kalloc] and [kfree] on the list of free pages. *)
Definition kalloc : M fstate (option Z) :=
  l ← gets free;
  match l with p :: l => modify (set_free l);; mret (Some p) | [] => mret None end.

Definition kfree (p : Z) : M fstate unit := modify (fun s => set_free (p :: free s) s).

(** [pipeclose(p, writable)]; the wake-ups are of no concern here. *)
Definition pipeclose (p : Z) (w : bool) : M fstate unit :=
  s ← gets id;
  match pipes s !! p with
  | None => panic "pipe freed before"
  | Some pi =>
      let '(pi', _, gone) := Pipe.pipeclose pi w in
      if gone then modify (set_pipes (delete p (pipes s)));; kfree p
      else modify (set_pipes (<[p := pi']> (pipes s)))
  end.

Definition iput (i : nat) : M fstate unit :=
  modify (fun s => set_iref (fun j => if decide (j = i) then iref s j - 1 else iref s j) s).

Definition fileclose (f : nat) : M fstate unit :=
  ff ← get_file f;
  if ref ff <? 1 then panic "fileclose" else
  if ref ff - 1 >? 0 then upd_file f (set_ref (ref ff - 1)) else
  upd_file f (fun x => set_type FD_NONE (set_ref 0 x));;
  match type ff with
  | FD_PIPE => pipeclose (fpipe ff) (writable ff)
  | FD_INODE => iput (ip ff)
  | FD_NONE => mret tt
  end.

(** [pipealloc] (pipe.c): the read end and the write end. *)
Definition pipealloc : M fstate (option (nat * nat)) :=
  f0 ← filealloc;
  match f0 with None => mret None | Some f0 =>
  f1 ← filealloc;
  match f1 with None => fileclose f0;; mret None | Some f1 =>
  p ← kalloc;
  match p with
  | None => fileclose f0;; fileclose f1;; mret None
  | Some p =>
      modify (fun s => set_pipes (<[p := Pipe.pipe_init (replicate 512 1)]> (pipes s)) s);;
      upd_file f0 (pipe_file p false);;
      upd_file f1 (pipe_file p true);;
      mret (Some (f0, f1))
  end end end.

(** ** Descriptors *)

(** The first free entry of a table.  The type of what it holds is open: the
    shell is modelled on tables that hold something else. *)
Definition fdalloc {A} (f : A) (ofile : list (option A)) : option (nat * list (option A)) :=
  '(fd, _) ← list_find (fun o => o = None) ofile; Some (fd, <[fd := Some f]> ofile).

Definition argfd {A} (fd : Z) (ofile : list (option A)) : option (nat * A) :=
  if (fd <? 0) || (fd >=? Z.of_nat NOFILE) then None else
  f ← mjoin (ofile !! Z.to_nat fd); Some (Z.to_nat fd, f).

(** The open files, and the table of each process. *)
Record tstate := mkT { tfs : fstate; tabs : list (list (option nat)) }.

Definition on_fs {A} (m : M fstate A) : M tstate A :=
  zoom tfs (fun v s => mkT v (tabs s)) m.

Definition ofile (c : nat) (s : tstate) : list (option nat) := default [] (tabs s !! c).

Definition set_ofile (c : nat) (t : list (option nat)) (s : tstate) : tstate := mkT (tfs s) (<[c := t]> (tabs s)).

Definition sys_dup (c : nat) (fd : Z) : M tstate Z :=
  t ← gets (ofile c);
  match argfd fd t with None => mret (-1) | Some (_, f) =>
  match fdalloc f t with None => mret (-1) | Some (fd, t) =>
  modify (set_ofile c t);;
  on_fs (filedup f);;
  mret (Z.of_nat fd)
  end end.

Definition sys_close (c : nat) (fd : Z) : M tstate Z :=
  t ← gets (ofile c);
  match argfd fd t with None => mret (-1) | Some (fd, f) =>
  modify (set_ofile c (<[fd := None]> t));;
  on_fs (fileclose f);;
  mret 0
  end.

(** The two descriptors, or the error; [argptr] and the stores into the array of the
    caller are left out. *)
Definition sys_pipe (c : nat) : M tstate (option (nat * nat)) :=
  a ← on_fs pipealloc;
  match a with None => mret None | Some (rf, wf) =>
  t ← gets (ofile c);
  match fdalloc rf t with
  | None => on_fs (fileclose rf);; on_fs (fileclose wf);; mret None
  | Some (fd0, t) =>
      modify (set_ofile c t);;
      match fdalloc wf t with
      | None =>
          modify (set_ofile c (<[fd0 := None]> t));;
          on_fs (fileclose rf);; on_fs (fileclose wf);; mret None
      | Some (fd1, t) => modify (set_ofile c t);; mret (Some (fd0, fd1))
      end
  end end.

(** [sys_open] from [filealloc] on, with a reference to the inode [i]. *)
Definition open_inode (c : nat) (i : nat) (omode : Z) : M tstate Z :=
  f ← on_fs filealloc;
  match f with None => on_fs (iput i);; mret (-1) | Some f =>
  t ← gets (ofile c);
  match fdalloc f t with
  | None => on_fs (fileclose f);; on_fs (iput i);; mret (-1)
  | Some (fd, t) =>
      modify (set_ofile c t);;
      on_fs (upd_file f (inode_file i (Z.land omode O_WRONLY =? 0)
        (negb (Z.land omode O_WRONLY =? 0) || negb (Z.land omode O_RDWR =? 0))));;
      mret (Z.of_nat fd)
  end end.

(** [fork]: the child's table. *)
Definition fork_files (c n : nat) : M tstate unit :=
  mfor (seq 0 NOFILE) (fun i =>
    t ← gets (ofile c);
    match mjoin (t !! i) with
    | None => mret tt
    | Some f => g ← on_fs (filedup f); modify (fun s => set_ofile n (<[i := Some g]> (ofile n s)) s)
    end).

(** [exit]: all of the process's files are closed. *)
Definition exit_files (c : nat) : M tstate unit :=
  mfor (seq 0 NOFILE) (fun fd =>
    t ← gets (ofile c);
    match mjoin (t !! fd) with
    | None => mret tt
    | Some f => on_fs (fileclose f);; modify (fun s => set_ofile c (<[fd := None]> (ofile c s)) s)
    end).

End File.
