(* ===== verification/FileSpec.v ===== *)
(** * Open files: reference counts, pipe ends and pages

    [FI R I s]: the references to the open files of [s] are those of the list
    [R], one entry each.  The table's counts are the numbers of entries, every
    open end of a pipe belongs to one open file, the page of a pipe is free
    exactly when both ends are closed, and inode [i] has [I i] references besides
    those of open files. *)

From stdpp Require Import base numbers gmap sets list strings.
From S2P Require Import Prelude Pipe File.
Import File.
Open Scope Z_scope.

(** How often [a] occurs. *)
Definition cnt {A} `{EqDecision A} (a : A) (l : list A) : Z := Z.of_nat (length (filter (eq a) l)).

(** The end of a pipe, or the inode, an open file stands for. *)
Definition pend (x : file) : option (Z * bool) :=
  match type x with FD_PIPE => Some (fpipe x, writable x) | _ => None end.

Definition pino (x : file) : option nat := match type x with FD_INODE => Some (ip x) | _ => None end.

Definition flag (w : bool) (pi : Pipe.pipe) : Z := if w then Pipe.writeopen pi else Pipe.readopen pi.

(** [E]: the pipe end of each entry of the table. *)
Record PI (E : list (option (Z * bool))) (P : gmap Z Pipe.pipe) (fr : list Z) : Prop := mkPI {
  pi_one : forall f g e, E !! f = Some (Some e) -> E !! g = Some (Some e) -> f = g;
  pi_open : forall f a w, E !! f = Some (Some (a, w)) -> exists pi, P !! a = Some pi /\ flag w pi = 1;
  pi_owned : forall a pi w, P !! a = Some pi -> flag w pi ≠ 0 -> exists f, E !! f = Some (Some (a, w));
  pi_live : forall a pi, P !! a = Some pi -> flag true pi ≠ 0 \/ flag false pi ≠ 0;
  pi_nodup : NoDup fr;
  pi_free : forall a, a ∈ fr -> P !! a = None }.

(** The counts. *)
Record FR (R : list nat) (I : nat -> Z) (s : fstate) : Prop := mkFR {
  fr_len : length (files s) = NFILE;
  fr_in : forall f, f ∈ R -> (f < NFILE)%nat;
  fr_ref : forall f x, files s !! f = Some x -> ref x = cnt f R;
  fr_free : forall f x, files s !! f = Some x -> ref x = 0 -> type x = FD_NONE;
  fr_inode : forall i, iref s i = I i + cnt (Some i) (pino <$> files s) }.

Record FI (R : list nat) (I : nat -> Z) (s : fstate) : Prop := mkFI {
  fi_fr : FR R I s;
  fi_pipe : PI (pend <$> files s) (pipes s) (free s) }.

Section cnt.
Context {A : Type} `{EqDecision A}.
Implicit Types (a b : A) (l : list A).

#[export] Instance cnt_proper a : Proper ((≡ₚ) ==> (=)) (cnt a).
Proof. intros l l' H. unfold cnt. by rewrite H. Qed.

Lemma cnt_cons a b l : cnt a (b :: l) = (if decide (a = b) then 1 else 0) + cnt a l.
Proof. unfold cnt. rewrite filter_cons. case_decide; cbn [length]; lia. Qed.

Lemma cnt_pos a l : 0 <= cnt a l.
Proof. unfold cnt. lia. Qed.

Lemma cnt_zero a l : cnt a l = 0 <-> a ∉ l.
Proof.
  induction l as [|b l IH]; [by split; [intros _; set_solver|]|]. rewrite cnt_cons, elem_of_cons.
  pose proof (cnt_pos a l). case_decide; [|rewrite Z.add_0_l, IH]; [|tauto]. split; [lia|tauto].
Qed.

Lemma insert_perm l i b c : l !! i = Some b -> exists l', l ≡ₚ b :: l' /\ <[i := c]> l ≡ₚ c :: l'.
Proof.
  intros H. exists (take i l ++ drop (S i) l). split.
  - rewrite <- (take_drop_middle l i b H) at 1. by rewrite <- Permutation_middle.
  - rewrite insert_take_drop by (eapply lookup_lt_Some; done). by rewrite <- Permutation_middle.
Qed.

Lemma cnt_insert a l i b c : l !! i = Some b ->
  cnt a (<[i := c]> l) = cnt a l - (if decide (a = b) then 1 else 0) + (if decide (a = c) then 1 else 0).
Proof. intros H. destruct (insert_perm l i b c H) as (l' & H1 & H2). rewrite H2, H1, !cnt_cons. lia. Qed.

End cnt.

#[export] Instance FI_proper : Proper ((≡ₚ) ==> (=) ==> (=) ==> iff) FI.
Proof.
  assert (forall R R' I s, R ≡ₚ R' -> FI R I s -> FI R' I s) as H.
  { intros R R' I s HR [[H1 H2 H3 H4 H6] H5]. constructor; [|done]. constructor; [done| |intros; rewrite <- HR; eauto|done|done].
    intros f. rewrite <- HR. apply H2. }
  intros R R' HR I ? <- s ? <-. split; [by apply H|apply H]. by symmetry.
Qed.

(** ** Pipe ends *)

Lemma flag_close pi w v : let '(pi', _, _) := Pipe.pipeclose pi w in flag v pi' = if decide (v = w) then 0 else flag v pi.
Proof. unfold Pipe.pipeclose, flag. by destruct w, v. Qed.

Lemma gone_close pi w : let '(pi', _, gone) := Pipe.pipeclose pi w in gone = true <-> flag true pi' = 0 /\ flag false pi' = 0.
Proof. unfold Pipe.pipeclose, flag. destruct w; cbn [Pipe.readopen Pipe.writeopen]; rewrite andb_true_iff, !Z.eqb_eq; tauto. Qed.

Lemma PI_close E P fr f a w pi : PI E P fr -> E !! f = Some (Some (a, w)) -> P !! a = Some pi ->
  let '(pi', _, gone) := Pipe.pipeclose pi w in
  if gone : bool then PI (<[f := None]> E) (delete a P) (a :: fr) else PI (<[f := None]> E) (<[a := pi']> P) fr.
Proof.
  intros [H1 H2 H3 H4 H5 H6] Hf Ha. pose proof (flag_close pi w) as Hfl. pose proof (gone_close pi w) as Hgo.
  destruct (Pipe.pipeclose pi w) as [[pi' ch] gone].
  assert (forall g e, <[f := None]> E !! g = Some (Some e) -> g ≠ f /\ E !! g = Some (Some e) /\ e ≠ (a, w)) as Hin.
  { intros g e. rewrite list_lookup_insert_Some. intros [(-> & ? & _)|[Hne Hg]]; [done|]. split; [done|]. split; [done|].
    intros ->. apply Hne. by apply (H1 f g (a, w)). }
  assert (forall g e, e ≠ (a, w) -> E !! g = Some (Some e) -> <[f := None]> E !! g = Some (Some e)) as Hout.
  { intros g e Hne Hg. rewrite list_lookup_insert_ne; [done|]. intros ->. congruence. }
  assert (forall b v, (exists g, <[f := None]> E !! g = Some (Some (b, v))) <-> (b, v) ≠ (a, w) /\ exists g, E !! g = Some (Some (b, v))) as Hex.
  { intros b v. split; [intros [g Hg]; destruct (Hin _ _ Hg) as (_ & ? & ?); eauto|intros [Hne [g Hg]]; exists g; by apply Hout]. }
  assert (forall g h e, <[f := None]> E !! g = Some (Some e) -> <[f := None]> E !! h = Some (Some e) -> g = h) as H1'.
  { intros g h e Hg Hh. eapply H1; [by apply Hin in Hg as (_ & ? & _)|by apply Hin in Hh as (_ & ? & _)]. }
  destruct gone.
  - destruct (proj1 Hgo eq_refl) as [Hz1 Hz2]. constructor.
    + done.
    + intros g b v Hg. destruct (Hin _ _ Hg) as (_ & Hg' & Hne). destruct (H2 _ _ _ Hg') as (pb & Hb & Hv).
      destruct (decide (b = a)) as [->|Hba]; [|exists pb; by rewrite lookup_delete_ne]. simplify_eq.
      specialize (Hfl v). rewrite decide_False in Hfl by congruence. destruct v; lia.
    + intros b pb v Hb Hv. apply lookup_delete_Some in Hb as [Hba Hb]. apply Hex. split; [congruence|]. eauto.
    + intros b pb Hb. apply lookup_delete_Some in Hb as [_ Hb]. eauto.
    + constructor; [|done]. intros Hin'. apply H6 in Hin'. congruence.
    + intros b Hb. apply elem_of_cons in Hb as [->|Hb]; [apply lookup_delete_eq|]. apply lookup_delete_None. right. by apply H6.
  - constructor.
    + done.
    + intros g b v Hg. destruct (Hin _ _ Hg) as (_ & Hg' & Hne). destruct (H2 _ _ _ Hg') as (pb & Hb & Hv).
      destruct (decide (b = a)) as [->|Hba]; [|exists pb; by rewrite lookup_insert_ne]. simplify_eq.
      exists pi'. rewrite lookup_insert_eq. split; [done|]. rewrite Hfl, decide_False by congruence. done.
    + intros b pb v Hb Hv. apply Hex. apply lookup_insert_Some in Hb as [[<- <-]|[Hba Hb]].
      * rewrite Hfl in Hv. destruct (decide (v = w)); [done|]. split; [congruence|]. eauto.
      * split; [congruence|]. eauto.
    + intros b pb Hb. apply lookup_insert_Some in Hb as [[<- <-]|[Hba Hb]]; [|eauto].
      destruct (decide (flag true pi' = 0)); [|by left]. right. intros Hz. by apply diff_false_true, Hgo.
    + done.
    + intros b Hb. apply lookup_insert_None. split; [by apply H6|]. intros ->. apply H6 in Hb. congruence.
Qed.

Lemma PI_alloc E P fr f0 f1 a pg : PI E P (a :: fr) -> E !! f0 = Some None -> E !! f1 = Some None -> f0 ≠ f1 ->
  PI (<[f1 := Some (a, true)]> (<[f0 := Some (a, false)]> E)) (<[a := Pipe.pipe_init pg]> P) fr.
Proof.
  intros [H1 H2 H3 H4 H5 H6] Hf0 Hf1 Hne. assert (P !! a = None) as Ha by (apply H6; left).
  apply NoDup_cons in H5 as [Hn5 H5].
  set (E' := <[f1 := _]> _).
  assert (forall (g : nat) (b : Z) (v : bool), E' !! g = Some (Some (b, v)) <->
    (b ≠ a /\ E !! g = Some (Some (b, v))) \/ (b = a /\ g = if v then f1 else f0)) as Hin.
  { intros g b v. unfold E'. pose proof (lookup_lt_Some _ _ _ Hf0). pose proof (lookup_lt_Some _ _ _ Hf1).
    assert (forall g, E !! g = Some (Some (b, v)) -> b ≠ a) as Hba.
    { intros h Hh ->. destruct (H2 _ _ _ Hh) as (? & ? & _). congruence. }
    destruct (decide (g = f1)) as [->|G1]; [|rewrite list_lookup_insert_ne by done; destruct (decide (g = f0)) as [->|G0]].
    - rewrite list_lookup_insert_eq by (rewrite length_insert; lia). rewrite Hf1. destruct v; naive_solver.
    - rewrite list_lookup_insert_eq by lia. rewrite Hf0. destruct v; naive_solver.
    - rewrite list_lookup_insert_ne by done. destruct v; naive_solver. }
  constructor.
  - intros g h [b v]. rewrite !Hin. intros [[? Hg]|[-> ->]] [[? Hh]|[? ->]]; [by eapply H1|done..].
  - intros g b v. rewrite Hin. intros [[Hb Hg]|[-> ->]].
    + rewrite lookup_insert_ne by done. eauto.
    + rewrite lookup_insert_eq. exists (Pipe.pipe_init pg). split; [done|]. by destruct v.
  - intros b pb v Hb Hv. apply lookup_insert_Some in Hb as [[<- <-]|[Hba Hb]].
    + exists (if v then f1 else f0). apply Hin. by right.
    + destruct (H3 _ _ _ Hb Hv) as [g Hg]. exists g. apply Hin. left. done.
  - intros b pb Hb. apply lookup_insert_Some in Hb as [[<- <-]|[Hba Hb]]; [by left|eauto].
  - done.
  - intros b Hb. rewrite lookup_insert_ne by (intros ->; done). apply H6. by right.
Qed.

(** ** The operations of file.c *)

Lemma alter_insert {A} (g : A -> A) f (l : list A) x : l !! f = Some x -> alter g f l = <[f := g x]> l.
Proof.
  intros H. pose proof (lookup_lt_Some _ _ _ H). apply list_eq. intros i. destruct (decide (i = f)) as [->|Hi].
  - rewrite list_lookup_alter_eq, H, list_lookup_insert_eq by lia. done.
  - by rewrite list_lookup_alter_ne, list_lookup_insert_ne.
Qed.

(** One entry changes from [x] to [y]. *)
Lemma FR_update R I s f x y R' I' P' fr' iref' :
  FR R I s -> files s !! f = Some x -> (forall g, g ∈ R' -> (g < NFILE)%nat) ->
  ref y = cnt f R' -> (forall g, g ≠ f -> cnt g R' = cnt g R) -> (ref y = 0 -> type y = FD_NONE) ->
  (forall i, iref' i - I' i = iref s i - I i - (if decide (Some i = pino x) then 1 else 0) + (if decide (Some i = pino y) then 1 else 0)) ->
  FR R' I' (mkFst (<[f := y]> (files s)) P' fr' iref').
Proof.
  intros [H1 H2 H3 H4 H6] Hf Hin Hy Hne Hty Hi. constructor; cbn [files pipes free iref].
  - by rewrite length_insert.
  - done.
  - intros g z Hg. apply list_lookup_insert_Some in Hg as [(<- & <- & _)|[Hgf Hg]]; [done|]. rewrite Hne by done. eauto.
  - intros g z Hg. apply list_lookup_insert_Some in Hg as [(<- & <- & _)|[Hgf Hg]]; [done|eauto].
  - intros i. rewrite list_fmap_insert, (cnt_insert _ _ _ (pino x)) by (by rewrite list_lookup_fmap, Hf).
    specialize (Hi i). rewrite (H6 i) in Hi. lia.
Qed.

Lemma FI_update R I s f x y R' I' P' fr' iref' :
  FI R I s -> files s !! f = Some x -> (forall g, g ∈ R' -> (g < NFILE)%nat) ->
  ref y = cnt f R' -> (forall g, g ≠ f -> cnt g R' = cnt g R) -> (ref y = 0 -> type y = FD_NONE) ->
  PI (<[f := pend y]> (pend <$> files s)) P' fr' ->
  (forall i, iref' i - I' i = iref s i - I i - (if decide (Some i = pino x) then 1 else 0) + (if decide (Some i = pino y) then 1 else 0)) ->
  FI R' I' (mkFst (<[f := y]> (files s)) P' fr' iref').
Proof.
  intros HF Hf Hin Hy Hne Hty HP Hi. constructor; [by eapply FR_update; [apply HF|..]|]. cbn [files pipes free].
  by rewrite list_fmap_insert.
Qed.

(** Only its reference count changes. *)
Lemma FI_ref R I s f x r R' :
  FI R I s -> files s !! f = Some x -> (forall g, g ∈ R' -> (g < NFILE)%nat) ->
  r = cnt f R' -> (forall g, g ≠ f -> cnt g R' = cnt g R) -> (r = 0 -> type x = FD_NONE) ->
  FI R' I (set_files (<[f := set_ref r x]> (files s)) s).
Proof.
  intros HF Hf Hin Hr Hne Hty. eapply FI_update; [done|done|done|done|done|done| |].
  - change (pend (set_ref r x)) with (pend x). rewrite list_insert_id; [by destruct HF|]. by rewrite list_lookup_fmap, Hf.
  - intros i. change (pino (set_ref r x)) with (pino x). lia.
Qed.

Definition typed (t : ftype) (f : nat) (s : fstate) : Prop := exists x, files s !! f = Some x /\ type x = t.

(** The files that stay open stay what they are. *)
Definition keeps (R : list nat) (s s' : fstate) : Prop := forall f t, f ∈ R -> typed t f s -> typed t f s'.

Lemma keeps_others (f : nat) R s s' :
  (forall g, g ≠ f -> files s' !! g = files s !! g) -> (forall t, f ∈ R -> typed t f s -> typed t f s') -> keeps R s s'.
Proof.
  intros H1 H2 g t Hg (x & Hx & Ht). destruct (decide (g = f)) as [->|Hne]; [apply H2; [done|by exists x]|].
  exists x. by rewrite H1.
Qed.

Lemma cnt_cons_ne f (R : list nat) g : g ≠ f -> cnt g (f :: R) = cnt g R.
Proof. intros H. rewrite cnt_cons, decide_False by done. lia. Qed.

Lemma cnt_cons_eq f (R : list nat) : cnt f (f :: R) = 1 + cnt f R.
Proof. rewrite cnt_cons, decide_True by done. done. Qed.

Lemma in_cons f R : (f < NFILE)%nat -> (forall g, g ∈ R -> (g < NFILE)%nat) -> forall g, g ∈ f :: R -> (g < NFILE)%nat.
Proof. intros Hf HR g. rewrite elem_of_cons. intros [->|]; auto. Qed.

Section ops.
Context (P : failure -> Prop) (I : nat -> Z).

Lemma wp_filealloc R s Q :
  FI R I s -> Q None s ->
  (forall f s', f ∉ R -> FI (f :: R) I s' -> typed FD_NONE f s' -> keeps R s s' -> Q (Some f) s') ->
  wp P filealloc s Q.
Proof.
  intros HF HN HQ. unfold filealloc. wp_next. apply wp_gets. cbn [id].
  destruct (list_find _ _) as [[f x]|] eqn:E; [|by apply wp_ret]. apply list_find_Some in E as (Hf & Hr & _).
  pose proof (fr_ref _ _ _ (fi_fr _ _ _ HF) _ _ Hf) as Hc. rewrite Hr in Hc. pose proof (lookup_lt_Some _ _ _ Hf) as Hlt.
  rewrite (fr_len _ _ _ (fi_fr _ _ _ HF)) in Hlt.
  wp_next. apply wp_modify, wp_ret. rewrite (alter_insert _ _ _ _ Hf). apply HQ.
  - by apply cnt_zero.
  - eapply FI_ref; [done|done|by apply in_cons; [|apply HF]|rewrite cnt_cons_eq; lia|by apply cnt_cons_ne|done].
  - exists (set_ref 1 x). cbn [files set_files]. rewrite list_lookup_insert_eq by (rewrite (fr_len _ _ _ (fi_fr _ _ _ HF)); lia).
    split; [done|]. by apply (fr_free _ _ _ (fi_fr _ _ _ HF) f x).
  - apply (keeps_others f); [|intros t HfR; by apply cnt_zero in HfR].
    intros g Hg. cbn [files set_files]. by rewrite list_lookup_insert_ne.
Qed.

Lemma FI_lookup R s f : FI R I s -> f ∈ R -> exists x, files s !! f = Some x /\ ref x = cnt f R /\ 0 < ref x.
Proof.
  intros HF Hf. destruct (lookup_lt_is_Some_2 (files s) f) as [x Hx]; [rewrite (fr_len _ _ _ (fi_fr _ _ _ HF)); by apply (fr_in _ _ _ (fi_fr _ _ _ HF))|].
  exists x. pose proof (fr_ref _ _ _ (fi_fr _ _ _ HF) _ _ Hx) as Hr. split; [done|]. split; [done|].
  pose proof (cnt_pos f R). assert (cnt f R ≠ 0) by (rewrite cnt_zero; tauto). lia.
Qed.

Lemma wp_filedup R s f Q :
  FI R I s -> f ∈ R ->
  (forall s', FI (f :: R) I s' -> keeps R s s' -> Q f s') ->
  wp P (filedup f) s Q.
Proof.
  intros HF Hf HQ. destruct (FI_lookup _ _ _ HF Hf) as (x & Hx & Hr & Hp). unfold filedup.
  wp_next. apply (wp_ok _ _ _ x s); [unfold get_file; by rewrite Hx|]. replace (ref x <? 1) with false by lia.
  wp_next. apply wp_modify, wp_ret. rewrite (alter_insert _ _ _ _ Hx). apply HQ.
  - eapply FI_ref; [done|done|apply in_cons; [by apply (fr_in _ _ _ (fi_fr _ _ _ HF))|apply HF]|rewrite cnt_cons_eq; lia|by apply cnt_cons_ne|lia].
  - apply (keeps_others f); [intros g Hg; cbn [files set_files]; by rewrite list_lookup_insert_ne|].
    intros t _ (y & Hy & Ht). simplify_eq. exists (set_ref (ref x + 1) x). cbn [files set_files].
    rewrite list_lookup_insert_eq by (by eapply lookup_lt_Some). done.
Qed.

Lemma wp_fileclose R s f Q :
  FI (f :: R) I s ->
  (forall s', FI R I s' -> keeps R s s' -> Q tt s') ->
  wp P (fileclose f) s Q.
Proof.
  intros HF HQ. destruct (FI_lookup _ _ f HF) as (x & Hx & Hr & Hp); [by left|]. unfold fileclose.
  rewrite cnt_cons_eq in Hr. pose proof (lookup_lt_Some _ _ _ Hx) as Hlt.
  assert (forall g, g ∈ R -> (g < NFILE)%nat) as HR by (intros g Hg; apply (fr_in _ _ _ (fi_fr _ _ _ HF)); by right).
  assert (forall g, g ≠ f -> cnt g R = cnt g (f :: R)) as Hne by (intros g Hg; by rewrite cnt_cons_ne).
  wp_next. apply (wp_ok _ _ _ x s); [unfold get_file; by rewrite Hx|]. replace (ref x <? 1) with false by lia.
  destruct (ref x - 1 >? 0) eqn:E.
  { apply wp_modify. rewrite (alter_insert _ _ _ _ Hx). apply HQ.
    - eapply FI_ref; [done|done|done|lia|done|lia].
    - apply (keeps_others f); [intros g Hg; cbn [files set_files]; by rewrite list_lookup_insert_ne|].
      intros t _ (y & Hy & Ht). simplify_eq. exists (set_ref (ref x - 1) x). cbn [files set_files].
      by rewrite list_lookup_insert_eq by done. }
  assert (f ∉ R) as HfR by (apply cnt_zero; lia).
  wp_next. apply wp_modify. rewrite (alter_insert _ _ _ _ Hx). set (y := set_type FD_NONE (set_ref 0 x)).
  assert (forall P' fr' iref', PI (<[f := None]> (pend <$> files s)) P' fr' ->
    (forall i, iref' i = iref s i - (if decide (Some i = pino x) then 1 else 0)) ->
    Q tt (mkFst (<[f := y]> (files s)) P' fr' iref')) as Hdone.
  { intros P' fr' iref' HP Hi. apply HQ.
    - eapply FI_update; [done|done|done|cbn; lia|done|done|done|]. intros i. rewrite Hi.
      change (pino y) with (@None nat). rewrite (decide_False (P := Some i = None)) by done. lia.
    - apply (keeps_others f); [|done]. intros g Hg. cbn [files]. by rewrite list_lookup_insert_ne. }
  pose proof (fi_pipe _ _ _ HF) as HP. assert ((pend <$> files s) !! f = Some (pend x)) as HE by by rewrite list_lookup_fmap, Hx.
  destruct (type x) eqn:Et.
  - apply wp_ret. apply Hdone.
    + rewrite <- (list_insert_id (pend <$> files s) f (pend x)) in HP by done. unfold pend in HP at 1. by rewrite Et in HP.
    + intros i. unfold pino. rewrite Et, decide_False by done. cbn. lia.
  - assert (pend x = Some (fpipe x, writable x)) as Ex by (unfold pend; by rewrite Et). rewrite Ex in HE.
    destruct (pi_open _ _ _ HP _ _ _ HE) as (pi & Hpi & _). unfold pipeclose. wp_next. apply wp_gets. cbn [id pipes set_files].
    rewrite Hpi. pose proof (PI_close _ _ _ _ _ _ _ HP HE Hpi) as HC.
    destruct (Pipe.pipeclose pi (writable x)) as [[pi' ch] gone].
    assert (forall i, iref s i = iref s i - (if decide (Some i = pino x) then 1 else 0)) as Hi
      by (intros i; unfold pino; rewrite Et, decide_False by done; lia).
    destruct gone; [wp_next; apply wp_modify; unfold kfree|]; apply wp_modify; by apply Hdone.
  - apply wp_modify. apply Hdone.
    + rewrite <- (list_insert_id (pend <$> files s) f (pend x)) in HP by done. unfold pend in HP at 1. by rewrite Et in HP.
    + intros i. unfold pino. rewrite Et. cbn [iref set_files]. destruct (decide (i = ip x)) as [->|Hi].
      * rewrite decide_True by done. done.
      * rewrite decide_False by congruence. lia.
Qed.

(** The two ends of a new pipe are set up. *)
Lemma FI_ends R s f0 f1 a fr x0 x1 pg :
  FI R I s -> free s = a :: fr -> files s !! f0 = Some x0 -> files s !! f1 = Some x1 ->
  type x0 = FD_NONE -> type x1 = FD_NONE -> f0 ∈ R -> f1 ∈ R -> f0 ≠ f1 ->
  FI R I (mkFst (<[f1 := pipe_file a true x1]> (<[f0 := pipe_file a false x0]> (files s))) (<[a := Pipe.pipe_init pg]> (pipes s)) fr (iref s)).
Proof.
  intros HF Hfr H0 H1 T0 T1 R0 R1 Hne. destruct (FI_lookup _ _ _ HF R0) as (y & ? & Hr0 & Hp0). simplify_eq.
  destruct (FI_lookup _ _ _ HF R1) as (y & ? & Hr1 & Hp1). simplify_eq.
  assert (forall x a w i, type x = FD_NONE -> iref s i - I i = iref s i - I i - (if decide (Some i = pino x) then 1 else 0) +
    (if decide (Some i = pino (pipe_file a w x)) then 1 else 0)) as Hi.
  { intros x b w i Ht. assert (pino x = None) as Hn by (unfold pino; by rewrite Ht).
    rewrite (decide_False (P := Some i = pino x)) by congruence.
    rewrite (decide_False (P := Some i = pino (pipe_file b w x))) by done. lia. }
  set (s1 := mkFst (<[f0 := pipe_file a false x0]> (files s)) (pipes s) (free s) (iref s)).
  assert (FR R I s1) as HF1.
  { eapply FR_update; [apply HF|exact H0|apply HF|exact Hr0|done|cbn; lia|]. intros i. by apply (Hi x0 a false). }
  constructor.
  - eapply (FR_update _ _ s1); [done|cbn; by rewrite list_lookup_insert_ne|apply HF|exact Hr1|done|cbn; lia|]. intros i. by apply (Hi x1 a true).
  - cbn [files pipes free]. rewrite !list_fmap_insert. pose proof (fi_pipe _ _ _ HF) as HP. rewrite Hfr in HP.
    apply PI_alloc; [done| | |done]; rewrite list_lookup_fmap; [rewrite H0|rewrite H1]; cbn; unfold pend; by rewrite ?T0, ?T1.
Qed.

Lemma keeps_trans R R' s s' s'' : keeps R s s' -> keeps R' s' s'' -> (forall f, f ∈ R -> f ∈ R') -> keeps R s s''.
Proof. intros H1 H2 HR f t Hf Ht. apply H2; [by apply HR|]. by apply H1. Qed.

Lemma keeps_refl R s : keeps R s s.
Proof. by intros f t. Qed.

Lemma keeps_sub R R' s s' : keeps R' s s' -> (forall f, f ∈ R -> f ∈ R') -> keeps R s s'.
Proof. intros H HR f t Hf. apply H. auto. Qed.

Lemma wp_pipealloc R s Q :
  FI R I s -> (forall s', FI R I s' -> keeps R s s' -> Q None s') ->
  (forall f0 f1 s', FI (f1 :: f0 :: R) I s' -> keeps R s s' -> typed FD_PIPE f0 s' -> typed FD_PIPE f1 s' -> Q (Some (f0, f1)) s') ->
  wp P pipealloc s Q.
Proof.
  intros HF HN HQ. unfold pipealloc. wp_next. eapply wp_filealloc; [done| |].
  { apply wp_ret, HN; [done|apply keeps_refl]. }
  intros f0 s1 Hn0 HF1 T0 K1. wp_next. eapply wp_filealloc; [done| |].
  { wp_next. eapply wp_fileclose; [done|]. intros s2 HF2 K2. apply wp_ret, HN; [done|]. by eapply keeps_trans. }
  intros f1 s2 Hn1 HF2 T1 K2. wp_next. unfold kalloc. wp_next. apply wp_gets. destruct (free s2) as [|a fr] eqn:Ef.
  { apply wp_ret. wp_next. eapply (wp_fileclose (f1 :: R)); [by assert (f0 :: f1 :: R ≡ₚ f1 :: f0 :: R) as -> by apply perm_swap|]. intros s3 HF3 K3.
    wp_next. eapply wp_fileclose; [done|]. intros s4 HF4 K4. apply wp_ret, HN; [done|].
    eapply (keeps_trans R R); [|done|done]. eapply (keeps_trans R (f1 :: R)); [|done|by right].
    eapply keeps_trans; [done|done|by right]. }
  wp_next. apply wp_modify, wp_ret. wp_next. apply wp_modify. wp_next. apply wp_modify. wp_next. apply wp_modify, wp_ret.
  assert (f0 ≠ f1) as Hne by (intros ->; apply Hn1; by left).
  destruct (K2 f0 _ ltac:(by left) T0) as (x0 & Hx0 & Ht0). destruct T1 as (x1 & Hx1 & Ht1).
  pose proof (FI_ends _ _ f0 f1 a fr x0 x1 (replicate 512 1) HF2 Ef Hx0 Hx1 Ht0 Ht1 ltac:(right; by left) ltac:(by left) Hne) as HF3.
  pose proof (lookup_lt_Some _ _ _ Hx0). pose proof (lookup_lt_Some _ _ _ Hx1).
  cbn [files pipes free iref set_free set_pipes set_files].
  rewrite (alter_insert _ f0 _ _ Hx0), (alter_insert _ f1 _ x1) by (by rewrite list_lookup_insert_ne).
  apply HQ; [exact HF3| | |].
  - assert (f0 ∉ R /\ f1 ∉ R) as [] by (split; [done|]; intros ?; apply Hn1; by right).
    intros g t Hg Ht. destruct (K2 g t) as (x & Hx & Htx); [by right|by apply K1|]. exists x. cbn [files set_files].
    rewrite !list_lookup_insert_ne by congruence. done.
  - exists (pipe_file a false x0). cbn [files set_files]. by rewrite list_lookup_insert_ne, list_lookup_insert_eq.
  - exists (pipe_file a true x1). cbn [files set_files]. rewrite list_lookup_insert_eq by (by rewrite length_insert). done.
Qed.

End ops.
