(* ===== verification/FileThms.v ===== *)
(** * Descriptor tables and open files

    Every system call on descriptors keeps the invariant [TI]: the reference
    count of an open file is the number of descriptors for it in all the
    processes' tables, and what follows from that for pipes and inodes. *)

From stdpp Require Import base numbers gmap sets list strings.
From S2P Require Import Prelude Pipe File FileSpec.
Import File.
Open Scope Z_scope.

(** The references of all the tables. *)
Definition refs (T : list (list (option nat))) : list nat := omap id (concat T).

(** [T'] is [T] with one descriptor changed from [o] to [o']. *)
Definition changed (o o' : option nat) (T T' : list (list (option nat))) : Prop :=
  exists R, refs T ≡ₚ option_list o ++ R /\ refs T' ≡ₚ option_list o' ++ R.

Lemma omap_cons_id (o : option nat) l : omap id (o :: l) = option_list o ++ omap id l.
Proof. by destruct o. Qed.

Lemma refs_insert T c t fd o o' : T !! c = Some t -> t !! fd = Some o -> changed o o' T (<[c := <[fd := o']> t]> T).
Proof.
  intros Hc Hfd. pose proof (lookup_lt_Some _ _ _ Hc). pose proof (lookup_lt_Some _ _ _ Hfd).
  exists (refs (take c T) ++ omap id (take fd t) ++ omap id (drop (S fd) t) ++ refs (drop (S c) T)). unfold refs.
  rewrite insert_take_drop by done. rewrite <- (take_drop_middle T c t Hc) at 1.
  rewrite !concat_app. cbn [concat]. rewrite insert_take_drop by done. rewrite <- (take_drop_middle t fd o Hfd) at 1.
  rewrite !omap_app, !omap_cons_id. rewrite <- !(app_assoc (omap id (take fd t))), <- !(app_assoc (option_list _)).
  split; rewrite !(Permutation_app_swap_app (omap id (take fd t)) (option_list _)),
    !(Permutation_app_swap_app _ (option_list _)); done.
Qed.

(** The invariant, while the kernel holds the references [H] besides; [I] counts
    the other references to inodes. *)
Record TI (H : list nat) (I : nat -> Z) (s : tstate) : Prop := mkTI {
  ti_fi : FI (H ++ refs (tabs s)) I (tfs s);
  ti_len : Forall (fun t => length t = NOFILE) (tabs s);
  ti_typed : forall f, f ∈ refs (tabs s) -> exists t, t ≠ FD_NONE /\ typed t f (tfs s) }.

Section calls.
Context (P : failure -> Prop) (I : nat -> Z).

Lemma fdalloc_Some {A} (f : A) t fd t' :
  fdalloc f t = Some (fd, t') -> t !! fd = Some None /\ t' = <[fd := Some f]> t.
Proof.
  unfold fdalloc. destruct (list_find _ t) as [[i o]|] eqn:E; [|done]. simpl. intros [= <- <-].
  apply list_find_Some in E as (H & -> & _). done.
Qed.

Lemma argfd_Some {A} fd (t : list (option A)) i f :
  argfd fd t = Some (i, f) -> t !! i = Some (Some f) /\ fd = Z.of_nat i /\ (i < NOFILE)%nat.
Proof.
  unfold argfd. destruct ((fd <? 0) || (fd >=? Z.of_nat NOFILE)) eqn:E; [done|]. apply orb_false_iff in E as [E1 E2].
  destruct (t !! Z.to_nat fd) as [[g|]|] eqn:Et; simpl; [|done|done]. intros [= <- <-]. split; [done|lia].
Qed.

Lemma ofile_ne c s t : ofile c s = t -> t ≠ [] -> tabs s !! c = Some t.
Proof. unfold ofile. destruct (tabs s !! c); simpl; [by intros ->|by intros <-]. Qed.

Lemma ofile_lookup c s fd o : ofile c s !! fd = Some o -> tabs s !! c = Some (ofile c s).
Proof. intros H. apply ofile_ne; [done|]. intros E. by rewrite E in H. Qed.

(** One descriptor of a table is set. *)
Lemma changed_ofile c s fd o o' : ofile c s !! fd = Some o ->
  changed o o' (tabs s) (tabs (set_ofile c (<[fd := o']> (ofile c s)) s)).
Proof. intros H. by apply refs_insert; [eapply ofile_lookup|]. Qed.

Lemma len_ofile c s fd o : Forall (fun t => length t = NOFILE) (tabs s) -> 
  Forall (fun t => length t = NOFILE) (tabs (set_ofile c (<[fd := o]> (ofile c s)) s)).
Proof.
  intros H. cbn [tabs set_ofile]. unfold ofile. destruct (tabs s !! c) as [t|] eqn:E; simpl.
  - apply Forall_insert; [done|]. rewrite length_insert. rewrite Forall_lookup in H. eauto.
  - rewrite list_insert_ge; [done|]. by apply lookup_ge_None.
Qed.

(** A held reference gets a descriptor, and back. *)
Lemma TI_install H s c fd f :
  TI (f :: H) I s -> ofile c s !! fd = Some None -> (exists t, t ≠ FD_NONE /\ typed t f (tfs s)) ->
  TI H I (set_ofile c (<[fd := Some f]> (ofile c s)) s).
Proof.
  intros [H1 H2 H3] Hfd Hf. destruct (changed_ofile c s fd None (Some f) Hfd) as (R & E1 & E2).
  change (option_list (Some f) ++ R) with (f :: R) in E2. change (option_list (@None nat) ++ R) with R in E1. constructor.
  - rewrite E2. cbn [app] in H1. rewrite E1 in H1. by rewrite <- Permutation_middle.
  - by apply len_ofile.
  - intros g. rewrite E2, elem_of_cons. intros [->|Hg]; [done|]. apply H3. by rewrite E1.
Qed.

Lemma TI_clear H s c fd f :
  TI H I s -> ofile c s !! fd = Some (Some f) -> TI (f :: H) I (set_ofile c (<[fd := None]> (ofile c s)) s).
Proof.
  intros [H1 H2 H3] Hfd. destruct (changed_ofile c s fd (Some f) None Hfd) as (R & E1 & E2).
  change (option_list (Some f) ++ R) with (f :: R) in E1. change (option_list (@None nat) ++ R) with R in E2. constructor.
  - rewrite E2. rewrite E1, <- Permutation_middle in H1. exact H1.
  - by apply len_ofile.
  - intros g. rewrite E2. intros Hg. apply H3. rewrite E1. by right.
Qed.

(** The table of open files changes. *)
Lemma TI_fs H H' I' s fs :
  TI H I s -> FI (H' ++ refs (tabs s)) I' fs -> keeps (refs (tabs s)) (tfs s) fs -> TI H' I' (mkT fs (tabs s)).
Proof.
  intros [H1 H2 H3] HF HK. constructor; [done|done|]. intros f Hf. destruct (H3 f Hf) as (t & Ht & Hty). eauto.
Qed.

Lemma refs_in s c fd f : ofile c s !! fd = Some (Some f) -> f ∈ refs (tabs s).
Proof. intros H. destruct (changed_ofile c s fd (Some f) None H) as (R & E & _). rewrite E. by left. Qed.

(** The operations of file.c under the invariant. *)
Lemma wp_dup_fs H s f Q :
  TI H I s -> f ∈ refs (tabs s) ->
  (forall fs, TI (f :: H) I (mkT fs (tabs s)) -> (exists t, t ≠ FD_NONE /\ typed t f fs) -> Q f fs) ->
  wp P (filedup f) (tfs s) Q.
Proof.
  intros HT Hf HQ. eapply wp_filedup; [apply HT|rewrite elem_of_app; by right|]. intros fs HF HK. apply HQ.
  - eapply TI_fs; [done|done|]. eapply keeps_sub; [done|]. intros g Hg. rewrite elem_of_app. by right.
  - destruct (ti_typed _ _ _ HT f Hf) as (t & Ht & Hty). exists t. split; [done|]. apply HK; [rewrite elem_of_app; by right|done].
Qed.

Lemma wp_close_fs H s f Q :
  TI (f :: H) I s -> (forall fs, TI H I (mkT fs (tabs s)) -> Q tt fs) -> wp P (fileclose f) (tfs s) Q.
Proof.
  intros HT HQ. eapply wp_fileclose; [apply HT|]. intros fs HF HK. apply HQ. eapply TI_fs; [done|done|].
  eapply keeps_sub; [done|]. intros g Hg. rewrite elem_of_app. by right.
Qed.

Lemma wp_alloc_fs H s Q :
  TI H I s -> Q None (tfs s) ->
  (forall f fs, TI (f :: H) I (mkT fs (tabs s)) -> typed FD_NONE f fs -> f ∉ refs (tabs s) -> Q (Some f) fs) ->
  wp P filealloc (tfs s) Q.
Proof.
  intros HT HN HQ. eapply wp_filealloc; [apply HT|done|]. intros f fs Hn HF Ht HK. apply HQ; [|done|].
  - eapply TI_fs; [done|done|]. eapply keeps_sub; [done|]. intros g Hg. rewrite elem_of_app. by right.
  - intros Hf. apply Hn. rewrite elem_of_app. by right.
Qed.

Lemma wp_pipe_fs H s Q :
  TI H I s -> (forall fs, TI H I (mkT fs (tabs s)) -> Q None fs) ->
  (forall f0 f1 fs, TI (f1 :: f0 :: H) I (mkT fs (tabs s)) -> typed FD_PIPE f0 fs -> typed FD_PIPE f1 fs -> Q (Some (f0, f1)) fs) ->
  wp P pipealloc (tfs s) Q.
Proof.
  intros HT HN HQ. eapply wp_pipealloc; [apply HT| |].
  - intros fs HF HK. apply HN. eapply TI_fs; [done|done|]. eapply keeps_sub; [done|]. intros g Hg. rewrite elem_of_app. by right.
  - intros f0 f1 fs HF HK T0 T1. apply HQ; [|done|done]. eapply TI_fs; [done|done|].
    eapply keeps_sub; [done|]. intros g Hg. rewrite elem_of_app. by right.
Qed.

(** ** The system calls *)

Lemma wp_sys_dup s c fd : TI [] I s -> wp P (sys_dup c fd) s (fun _ s' => TI [] I s').
Proof.
  intros HT. unfold sys_dup. wp_next. apply wp_gets.
  destruct (argfd fd _) as [[i f]|] eqn:Ea; [|by apply wp_ret]. apply argfd_Some in Ea as (Hi & _ & _).
  destruct (fdalloc f _) as [[j t']|] eqn:Ef; [|by apply wp_ret]. apply fdalloc_Some in Ef as [Hj ->].
  wp_next. apply wp_modify. wp_next. apply wp_zoom. cbn [tfs set_ofile].
  eapply wp_dup_fs; [done|by eapply refs_in|]. intros fs HF Hf. apply wp_ret.
  exact (TI_install _ (mkT fs (tabs s)) c j f HF Hj Hf).
Qed.

Lemma wp_sys_close s c fd : TI [] I s -> wp P (sys_close c fd) s (fun _ s' => TI [] I s').
Proof.
  intros HT. unfold sys_close. wp_next. apply wp_gets.
  destruct (argfd fd _) as [[i f]|] eqn:Ea; [|by apply wp_ret]. apply argfd_Some in Ea as (Hi & _ & _).
  wp_next. apply wp_modify. wp_next. apply wp_zoom. eapply wp_close_fs; [by apply TI_clear|].
  intros fs HF. by apply wp_ret.
Qed.

(** Both references of a new pipe are dropped again. *)
Lemma wp_close2 s f0 f1 :
  TI [f1; f0] I s ->
  wp P (on_fs (fileclose f0);; on_fs (fileclose f1);; mret (@None (nat * nat))) s (fun _ s' => TI [] I s').
Proof.
  intros HT. wp_next. apply wp_zoom. eapply (wp_close_fs [f1]).
  - destruct HT as [H1 H2 H3]. constructor; [|done|done]. by assert ([f0; f1] ≡ₚ [f1; f0]) as -> by apply perm_swap.
  - intros fs HF. wp_next. apply wp_zoom. eapply wp_close_fs; [done|]. intros fs' HF'. by apply wp_ret.
Qed.

Lemma wp_sys_pipe s c : TI [] I s -> wp P (sys_pipe c) s (fun _ s' => TI [] I s').
Proof.
  intros HT. unfold sys_pipe. wp_next. apply wp_zoom. eapply wp_pipe_fs; [done| |].
  { intros fs HF. by apply wp_ret. }
  intros f0 f1 fs HF T0 T1. wp_next. apply wp_gets. set (s1 := mkT fs (tabs s)) in *.
  destruct (fdalloc f0 _) as [[i t']|] eqn:Ef; [|by apply wp_close2]. apply fdalloc_Some in Ef as [Hi ->].
  wp_next. apply wp_modify.
  assert (TI [f1] I (set_ofile c (<[i := Some f0]> (ofile c s1)) s1)) as HF1.
  { apply TI_install; [|done|by exists FD_PIPE]. destruct HF as [H1 H2 H3]. constructor; [|done|done].
    by assert ([f0; f1] ≡ₚ [f1; f0]) as -> by apply perm_swap. }
  set (s2 := set_ofile c _ s1) in *. pose proof (ofile_lookup _ _ _ _ Hi) as Hc.
  assert (<[i := Some f0]> (ofile c s1) = ofile c s2) as Et.
  { unfold s2, ofile at 2. cbn [tabs set_ofile]. rewrite list_lookup_insert_eq by (by eapply lookup_lt_Some). done. }
  rewrite Et. destruct (fdalloc f1 _) as [[j t']|] eqn:Ef; [apply fdalloc_Some in Ef as [Hj ->]|].
  - wp_next. apply wp_modify, wp_ret. apply TI_install; [done|done|by exists FD_PIPE].
  - wp_next. apply wp_modify. apply wp_close2.
    assert (TI [f0; f1] I (set_ofile c (<[i := None]> (ofile c s2)) s2)) as [H1 H2 H3].
    { apply TI_clear; [done|]. rewrite <- Et. apply list_lookup_insert_eq. by eapply lookup_lt_Some. }
    constructor; [|done|done]. by assert ([f1; f0] ≡ₚ [f0; f1]) as -> by apply perm_swap.
Qed.

(** A reference to inode [i] more. *)
Definition inc (i : nat) (I : nat -> Z) (j : nat) : Z := if decide (j = i) then I j + 1 else I j.

Lemma FI_iput R i s :
  FI R (inc i I) s -> FI R I (set_iref (fun j => if decide (j = i) then iref s j - 1 else iref s j) s).
Proof.
  intros [[H1 H2 H3 H4 H5] HP]. constructor; [|done]. constructor; [done..|]. intros j. cbn [iref set_iref files].
  specialize (H5 j). unfold inc in H5. case_decide; lia.
Qed.

Lemma FI_inode R i s f x r w :
  FI R (inc i I) s -> f ∈ R -> files s !! f = Some x -> type x = FD_NONE ->
  FI R I (set_files (<[f := inode_file i r w x]> (files s)) s).
Proof.
  intros HF Hf Hx Ht. destruct (FI_lookup _ _ _ _ HF Hf) as (y & ? & Hr & Hp). simplify_eq.
  assert (pend x = None /\ pino x = None) as [E1 E2] by (unfold pend, pino; by rewrite Ht).
  eapply FI_update; [done|done|apply HF|exact Hr|done|cbn; lia| |].
  - change (pend (inode_file i r w x)) with (@None (Z * bool)). rewrite <- E1, list_insert_id; [apply HF|]. by rewrite list_lookup_fmap, Hx.
  - intros j. rewrite (decide_False (P := Some j = pino x)) by congruence. change (pino (inode_file i r w x)) with (Some i). unfold inc.
    destruct (decide (j = i)) as [->|Hj]; [rewrite decide_True by done|rewrite decide_False by congruence]; lia.
Qed.

Lemma wp_open_inode s c i omode : TI [] (inc i I) s -> wp P (open_inode c i omode) s (fun _ s' => TI [] I s').
Proof.
  intros HT. unfold open_inode. 
  assert (forall s, TI [] (inc i I) s -> wp P (on_fs (iput i);; mret (-1)) s (fun _ s' => TI [] I s')) as Hput.
  { intros s' [H1 H2 H3]. wp_next. apply wp_zoom, wp_modify, wp_ret. constructor; [by apply FI_iput|done|done]. }
  wp_next. apply wp_zoom. eapply wp_filealloc; [apply HT|apply Hput; by destruct s|]. cbn [app].
  destruct s as [s0 T]. cbn [tfs tabs] in *. intros f fs Hn HF (x & Hx & Htx) HK. wp_next. apply wp_gets.
  destruct (fdalloc f _) as [[j t']|] eqn:Ef; [apply fdalloc_Some in Ef as [Hj ->]|].
  - wp_next. apply wp_modify. wp_next. apply wp_zoom, wp_modify, wp_ret. cbn [tfs set_ofile].
    rewrite (alter_insert _ _ _ _ Hx). set (y := inode_file _ _ _ _).
    apply (TI_install [] (mkT (set_files (<[f := y]> (files fs)) fs) T)); [|done|].
    + constructor; cbn [tabs tfs]; [by apply FI_inode; [|left| |]|apply HT|]. intros g Hg.
      destruct (ti_typed _ _ _ HT g Hg) as (t & Ht & Hty). exists t. split; [done|].
      destruct (HK g t Hg Hty) as (z & Hz & Htz). exists z. cbn [files set_files]. rewrite list_lookup_insert_ne by (intros ->; done). done.
    + exists FD_INODE. split; [done|]. exists y. cbn [tfs files set_files].
      rewrite list_lookup_insert_eq by (by eapply lookup_lt_Some). done.
  - wp_next. apply wp_zoom. eapply wp_fileclose; [done|]. intros fs' HF' HK'. apply Hput.
    constructor; cbn [tabs tfs]; [done|apply HT|]. intros g Hg. destruct (ti_typed _ _ _ HT g Hg) as (t & Ht & Hty). eauto.
Qed.

Lemma ofile_set c n s i o : ofile n s !! i = Some o -> forall o',
  ofile c (set_ofile n (<[i := o']> (ofile n s)) s) = if decide (c = n) then <[i := o']> (ofile n s) else ofile c s.
Proof.
  intros H o'. apply ofile_lookup, lookup_lt_Some in H. unfold ofile at 1. cbn [tabs set_ofile]. case_decide; subst.
  - by rewrite list_lookup_insert_eq.
  - by rewrite list_lookup_insert_ne.
Qed.

Lemma ofile_len c s : Forall (fun t => length t = NOFILE) (tabs s) -> (c < length (tabs s))%nat -> length (ofile c s) = NOFILE.
Proof. intros H Hc. apply lookup_lt_is_Some_2 in Hc as [t Ht]. unfold ofile. rewrite Ht. simpl. rewrite Forall_lookup in H. eauto. Qed.

(** The child's descriptors are the parent's. *)
Lemma wp_fork_files s c n :
  TI [] I s -> (c < length (tabs s))%nat -> (n < length (tabs s))%nat -> c ≠ n -> ofile n s = replicate NOFILE None ->
  wp P (fork_files c n) s (fun _ s' => TI [] I s' /\ length (tabs s') = length (tabs s) /\ ofile n s' = ofile c s /\ ofile c s' = ofile c s).
Proof.
  intros HT Hc Hn Hne Hemp. unfold fork_files.
  eapply (wp_mfor _ (fun l s' => TI [] I s' /\ length (tabs s') = length (tabs s) /\ ofile c s' = ofile c s /\ NoDup l /\
    (forall i, i ∈ l -> ofile n s' !! i = Some None) /\ (forall i, (i < NOFILE)%nat -> i ∉ l -> ofile n s' !! i = ofile c s !! i))).
  - split; [done|]. split; [done|]. split; [done|]. split; [apply NoDup_seq|]. rewrite Hemp. split.
    + intros i Hi%elem_of_seq. apply lookup_replicate_2. lia.
    + intros i Hi Hl. exfalso. apply Hl, elem_of_seq. lia.
  - intros i l s1 (HT1 & HL & Ec & Hnd & Hl & Hdone). apply NoDup_cons in Hnd as [Hil Hnd].
    pose proof (Hl i ltac:(by left)) as Hi. wp_next. apply wp_gets. rewrite Ec.
    pose proof (ofile_len n s1 (ti_len _ _ _ HT1) ltac:(lia)) as HLn.
    destruct (ofile c s !! i) as [[f|]|] eqn:Ef; cbn [mjoin option_join].
    + wp_next. apply wp_zoom. eapply (wp_dup_fs [] s1); [done|eapply (refs_in s1 c i); by rewrite Ec|].
      intros fs HF Hf. apply wp_modify. set (s2 := mkT fs (tabs s1)) in *. change (ofile n s1) with (ofile n s2) in *.
      pose proof (TI_install _ s2 n i f HF Hi Hf) as HT2. pose proof (ofile_set c n s2 i _ Hi (Some f)) as E1.
      pose proof (ofile_set n n s2 i _ Hi (Some f)) as E2. rewrite decide_False in E1 by done. rewrite decide_True in E2 by done.
      split; [exact HT2|]. split; [cbn; by rewrite length_insert|]. split; [rewrite E1; exact Ec|]. split; [done|].
      rewrite E2. split.
      * intros j Hj. rewrite list_lookup_insert_ne by (intros ->; done). apply Hl. by right.
      * intros j Hj Hjl. destruct (decide (j = i)) as [->|Hji]; [rewrite list_lookup_insert_eq by lia; done|].
        rewrite list_lookup_insert_ne by done. apply Hdone; [done|]. by apply not_elem_of_cons.
    + apply wp_ret. split; [done|]. split; [done|]. split; [done|]. split; [done|]. split; [intros j Hj; apply Hl; by right|].
      intros j Hj Hjl. destruct (decide (j = i)) as [->|Hji]; [congruence|]. apply Hdone; [done|]. by apply not_elem_of_cons.
    + apply lookup_ge_None in Ef. pose proof (lookup_lt_Some _ _ _ Hi). rewrite ofile_len in Ef by (apply HT || done). lia.
  - intros s' (HT' & HL & Ec & _ & _ & Hdone). split; [done|]. split; [done|]. split; [|done]. apply list_eq. intros i.
    destruct (decide (i < NOFILE)%nat) as [Hi|Hi]; [apply Hdone; [done|apply not_elem_of_nil]|].
    rewrite !lookup_ge_None_2; [done| |]; rewrite ofile_len; [lia|apply HT|lia|lia|apply HT'|lia].
Qed.

(** A process that has exited has no descriptors. *)
Lemma wp_exit_files s c :
  TI [] I s -> (c < length (tabs s))%nat ->
  wp P (exit_files c) s (fun _ s' => TI [] I s' /\ length (tabs s') = length (tabs s) /\ ofile c s' = replicate NOFILE None).
Proof.
  intros HT Hc. unfold exit_files.
  eapply (wp_mfor _ (fun l s' => TI [] I s' /\ length (tabs s') = length (tabs s) /\
    (forall i, i ∈ l -> (i < NOFILE)%nat) /\ (forall i, (i < NOFILE)%nat -> i ∉ l -> ofile c s' !! i = Some None))).
  - split; [done|]. split; [done|]. split; [intros i Hi%elem_of_seq; lia|]. intros i Hi Hl. exfalso. apply Hl, elem_of_seq. lia.
  - intros i l s1 (HT1 & HL & Hl & Hdone). pose proof (Hl i ltac:(by left)) as Hi. wp_next. apply wp_gets.
    pose proof (ofile_len c s1 (ti_len _ _ _ HT1) ltac:(lia)) as HLc.
    assert (forall j, j ∈ l -> (j < NOFILE)%nat) by (intros j Hj; apply Hl; by right).
    destruct (ofile c s1 !! i) as [[f|]|] eqn:Ef; cbn [mjoin option_join].
    + wp_next. apply wp_zoom. pose proof (TI_clear _ s1 c i f HT1 Ef) as HT2.
      eapply (wp_close_fs [] _ f _ HT2). intros fs HF. apply wp_modify. split; [exact HF|]. split; [cbn; by rewrite length_insert|].
      split; [done|]. intros j Hj Hjl. pose proof (ofile_set c c s1 i _ Ef None) as E2. rewrite decide_True in E2 by done.
      change (ofile c (set_ofile c (<[i := None]> (ofile c s1)) s1) !! j = Some None). rewrite E2.
      destruct (decide (j = i)) as [->|Hji]; [rewrite list_lookup_insert_eq by lia; done|].
      rewrite list_lookup_insert_ne by done. apply Hdone; [done|]. by apply not_elem_of_cons.
    + apply wp_ret. split; [done|]. split; [done|]. split; [done|]. intros j Hj Hjl.
      destruct (decide (j = i)) as [->|Hji]; [done|]. apply Hdone; [done|]. by apply not_elem_of_cons.
    + apply lookup_ge_None in Ef. lia.
  - intros s' (HT' & HL & _ & Hdone). split; [done|]. split; [done|]. apply list_eq. intros i.
    destruct (decide (i < NOFILE)%nat) as [Hi|Hi].
    + rewrite lookup_replicate_2 by done. apply Hdone; [done|apply not_elem_of_nil].
    + rewrite !lookup_ge_None_2; [done|rewrite length_replicate; lia|rewrite ofile_len; [lia|apply HT'|lia]].
Qed.

End calls.

(** ** Any sequence of calls *)

Definition NPROC : nat := 64.

(** The calls of the processes [c]; [namei] or [create] hands [sys_open] its
    inode with a reference of its own, and [fork] gets the slot of a process that
    has no descriptors. *)
Inductive fop :=
  | Dup (c : nat) (fd : Z)
  | Close (c : nat) (fd : Z)
  | MkPipe (c : nat)
  | Open (c i : nat) (omode : Z)
  | Fork (c n : nat)
  | Exit (c : nat).

Definition fcall (o : fop) : M tstate unit :=
  match o with
  | Dup c fd => sys_dup c fd;; mret tt
  | Close c fd => sys_close c fd;; mret tt
  | MkPipe c => sys_pipe c;; mret tt
  | Open c i omode =>
      modify (fun s => mkT (set_iref (inc i (iref (tfs s))) (tfs s)) (tabs s));;
      open_inode c i omode;; mret tt
  | Fork c n =>
      s ← gets id;
      when (bool_decide (c ≠ n /\ (c < length (tabs s))%nat /\ (n < length (tabs s))%nat /\ ofile n s = replicate NOFILE None)) (fork_files c n)
  | Exit c =>
      s ← gets id;
      when (bool_decide (c < length (tabs s))%nat) (exit_files c)
  end.

(** [ftable] as the boot finds it, the free [pages], and no descriptors. *)
Definition tinit (pages : list Z) (I : nat -> Z) : tstate :=
  mkT (mkFst (replicate NFILE (mkFile FD_NONE 0 false false 0 0 0)) ∅ pages I)
      (replicate NPROC (replicate NOFILE None)).

Lemma refs_none n : refs (replicate n (replicate NOFILE None)) = [].
Proof.
  unfold refs. induction n as [|n IH]; [done|]. rewrite replicate_S. cbn [concat]. by rewrite omap_app, IH.
Qed.

Lemma tinit_ok pages I : NoDup pages -> TI [] I (tinit pages I).
Proof.
  intros Hp. unfold tinit. constructor; cbn [tabs tfs]; rewrite ?refs_none; cbn [app].
  - constructor; [constructor; cbn [files pipes free iref]|].
    + by rewrite length_replicate.
    + intros f Hf. by apply elem_of_nil in Hf.
    + intros f x [-> _]%lookup_replicate_1. done.
    + intros f x [-> _]%lookup_replicate_1. done.
    + intros i. rewrite fmap_replicate. rewrite (proj2 (cnt_zero _ _)); [lia|]. rewrite elem_of_replicate. by intros [? _].
    + cbn [files pipes free]. rewrite fmap_replicate. constructor; [..|done|].
      * intros f g e [? _]%lookup_replicate_1. done.
      * intros f a w [? _]%lookup_replicate_1. done.
      * done.
      * done.
      * intros a _. apply lookup_empty.
  - apply Forall_replicate. apply length_replicate.
  - intros f Hf. by apply elem_of_nil in Hf.
Qed.

Lemma FI_iget R I i s : FI R I s -> FI R (inc i I) (set_iref (inc i (iref s)) s).
Proof.
  intros [[H1 H2 H3 H4 H5] HP]. constructor; [|done]. constructor; [done..|]. intros j. cbn [iref set_iref files].
  specialize (H5 j). unfold inc. case_decide; lia.
Qed.

Lemma wp_fcall P I s o : TI [] I s -> wp P (fcall o) s (fun _ s' => TI [] I s').
Proof.
  intros HT. destruct o as [c fd|c fd|c|c i omode|c n|c]; cbn [fcall]; wp_next.
  - eapply wp_mono; [by apply wp_sys_dup|]. intros. by apply wp_ret.
  - eapply wp_mono; [by apply wp_sys_close|]. intros. by apply wp_ret.
  - eapply wp_mono; [by apply wp_sys_pipe|]. intros. by apply wp_ret.
  - apply wp_modify. wp_next. eapply wp_mono; [apply (wp_open_inode P I)|intros; by apply wp_ret].
    destruct HT as [H1 H2 H3]. constructor; [by apply FI_iget|done|done].
  - apply wp_gets, wp_when; [|done]. intros H%bool_decide_eq_true. destruct H as (H1 & H2 & H3 & H4).
    eapply wp_mono; [by apply wp_fork_files|]. by intros _ s' [? _].
  - apply wp_gets, wp_when; [|done]. intros H%bool_decide_eq_true. eapply wp_mono; [by apply wp_exit_files|]. by intros _ s' [? _].
Qed.

Lemma frun_ok pages I ops : NoDup pages -> wp no_failure (mfor ops fcall) (tinit pages I) (fun _ s => TI [] I s).
Proof.
  intros Hp. eapply (wp_mfor _ (fun _ s => TI [] I s)); [by apply tinit_ok| |done]. intros o l s HT. by apply wp_fcall.
Qed.

Lemma refs_elem f s : f ∈ refs (tabs s) -> exists c fd, ofile c s !! fd = Some (Some f).
Proof.
  unfold refs. rewrite list_elem_of_omap. intros (o & Ho & E). cbn in E. subst o.
  apply list_elem_of_In, in_concat in Ho as (t & Ht & Hf). apply list_elem_of_In in Ht, Hf.
  apply list_elem_of_lookup in Hf as [fd Hfd]. apply list_elem_of_lookup in Ht as [c Hc]. exists c, fd. unfold ofile. by rewrite Hc.
Qed.

(** C20. Whatever calls the processes make on descriptors, in whatever order, none
    of them panics (in [filedup], [fileclose], or for a pipe whose page was freed),
    and the reference count of every open file is the number of descriptors for it
    in all the tables. *)
Theorem files_safe pages I ops :
  NoDup pages -> exists s, mfor ops fcall (tinit pages I) = Ok tt s /\ TI [] I s.
Proof.
  intros Hp. destruct (wp_total _ _ _ (frun_ok pages I ops Hp)) as ([] & s & E & HT). eauto.
Qed.

(** The last descriptor decides: in any state the processes can reach, a pipe
    is open for writing (reading) exactly as long as some process has a
    descriptor for its write (read) end, and a page that holds a pipe is not on
    the list of free pages. *)
Theorem pipe_open_iff_fd pages I ops s a pi w :
  NoDup pages -> mfor ops fcall (tinit pages I) = Ok tt s -> pipes (tfs s) !! a = Some pi ->
  (flag w pi ≠ 0 <-> exists c fd f x, ofile c s !! fd = Some (Some f) /\ files (tfs s) !! f = Some x /\
     type x = FD_PIPE /\ fpipe x = a /\ writable x = w) /\ a ∉ free (tfs s).
Proof.
  intros Hp E Ha. pose proof (wp_elim _ _ _ _ _ _ (frun_ok pages I ops Hp) E) as HT. cbn beta in HT.
  pose proof (ti_fi _ _ _ HT) as HF. cbn [app] in HF. pose proof (fi_pipe _ _ _ HF) as HP. split; [split|].
  - intros Hw. destruct (pi_owned _ _ _ HP _ _ _ Ha Hw) as [f Hf]. rewrite list_lookup_fmap in Hf.
    destruct (files (tfs s) !! f) as [x|] eqn:Hx; [|done]. injection Hf as Hf. unfold pend in Hf.
    destruct (type x) eqn:Et; [done| |done]. injection Hf as <- <-.
    assert (f ∈ refs (tabs s)) as Hin.
    { pose proof (fr_ref _ _ _ (fi_fr _ _ _ HF) _ _ Hx) as Hr. destruct (decide (f ∈ refs (tabs s))) as [|Hn]; [done|].
      apply cnt_zero in Hn. rewrite Hn in Hr. pose proof (fr_free _ _ _ (fi_fr _ _ _ HF) _ _ Hx Hr). congruence. }
    destruct (refs_elem _ _ Hin) as (c & fd & Hfd). by exists c, fd, f, x.
  - intros (c & fd & f & x & _ & Hx & Ht & <- & <-). destruct (pi_open _ _ _ HP f (fpipe x) (writable x)) as (pi' & Hpi & Hw).
    { rewrite list_lookup_fmap, Hx. cbn. unfold pend. by rewrite Ht. }
    simplify_eq. lia.
  - intros Hf. apply (pi_free _ _ _ HP) in Hf. congruence.
Qed.
