(* ===== verification/Kalloc.v ===== *)
(** * The physical page allocator: kalloc.c

    Free pages form a linked list threaded through the pages themselves: the
    first word of a free page is the address of the next one.  [kphys] is the
    memory as the kernel sees it, a byte per virtual address; [kend] stands
    for the linker symbol [end]. *)

From stdpp Require Import base numbers gmap list strings.
From S2P Require Import Prelude Spinlock ProcState.
Open Scope Z_scope.

Module Kalloc.

(** memlayout.h, mmu.h *)
Definition PHYSTOP : Z := 234881024.

Definition V2P (a : Z) : Z := u32 (a - KERNBASE).

Definition PGROUNDUP (sz : Z) : Z := Z.land (u32 (sz + PGSIZE - 1)) (Z.lnot (PGSIZE - 1)).

Record kmst := mkKm {
  kmach : mach;
  kphys : Z -> Z;
  use_lock : Z;
  freelist : Z }.

Definition set_kmach (m : mach) (s : kmst) : kmst :=
  mkKm m (kphys s) (use_lock s) (freelist s).

Definition set_kphys (f : Z -> Z) (s : kmst) : kmst :=
  mkKm (kmach s) f (use_lock s) (freelist s).

Definition set_use_lock (u : Z) (s : kmst) : kmst := mkKm (kmach s) (kphys s) u (freelist s).

Definition set_freelist (r : Z) (s : kmst) : kmst := mkKm (kmach s) (kphys s) (use_lock s) r.

Definition on_mach {A} (op : M mach A) : M kmst A := zoom kmach set_kmach op.

(** A 32-bit little-endian word of memory. *)
Definition load32 (mem : Z -> Z) (a : Z) : Z :=
  mem a + 256 * mem (a + 1) + 65536 * mem (a + 2) + 16777216 * mem (a + 3).

Definition store32 (a v : Z) (mem : Z -> Z) : Z -> Z := fun x =>
  if (a <=? x) && (x <? a + 4) then (v / 256 ^ (x - a)) mod 256 else mem x.

(** [memset(a, c, n)] on the memory. *)
Definition fill (a c n : Z) (mem : Z -> Z) : Z -> Z := fun x =>
  if (a <=? x) && (x <? a + n) then u8 c else mem x.

Section kalloc.
Variable kend : Z.

Definition kfree (v : Z) : M kmst unit :=
  if negb (v mod PGSIZE =? 0) || (v <? kend) || (V2P v >=? PHYSTOP)
  then panic "kfree" else
  modify (fun s => set_kphys (fill v 1 PGSIZE (kphys s)) s);;
  u ← gets use_lock;
  when (negb (u =? 0)) (on_mach (acquire Lkmem));;
  modify (fun s => set_kphys (store32 v (freelist s) (kphys s)) s);;
  modify (set_freelist v);;
  u ← gets use_lock;
  when (negb (u =? 0)) (on_mach (release Lkmem)).

Definition kalloc : M kmst Z :=
  u ← gets use_lock;
  when (negb (u =? 0)) (on_mach (acquire Lkmem));;
  r ← gets freelist;
  when (negb (r =? 0)) (modify (fun s => set_freelist (load32 (kphys s) r) s));;
  u ← gets use_lock;
  when (negb (u =? 0)) (on_mach (release Lkmem));;
  mret r.

(** [for(; p + PGSIZE <= vend; p += PGSIZE) kfree(p);] in at most [n] rounds. *)
Fixpoint freerange_loop (n : nat) (p vend : Z) : M kmst unit :=
  match n with
  | O => blocked
  | S n =>
      if u32 (p + PGSIZE) <=? vend
      then kfree p;; freerange_loop n (u32 (p + PGSIZE)) vend
      else mret tt
  end.

(** The address space has 2^20 pages; a round more sees the end of the range. *)
Definition freerange (vstart vend : Z) : M kmst unit :=
  freerange_loop (S (Z.to_nat (vend / PGSIZE))) (PGROUNDUP vstart) vend.

Definition kinit1 (vstart vend : Z) : M kmst unit :=
  on_mach (initlock Lkmem "kmem");;
  modify (set_use_lock 0);;
  freerange vstart vend.

Definition kinit2 (vstart vend : Z) : M kmst unit :=
  freerange vstart vend;;
  modify (set_use_lock 1).

(** ** The free list *)

Record page_ok (v : Z) : Prop := mkPage {
  page_al : v mod PGSIZE = 0;
  page_lo : kend <= v;
  page_base : KERNBASE <= v;
  page_hi : v < KERNBASE + PHYSTOP }.

Fixpoint chain (mem : Z -> Z) (h : Z) (l : list Z) : Prop :=
  match l with
  | [] => h = 0
  | p :: l => h = p /\ chain mem (load32 mem p) l
  end.

(** The free list of [s] is [l]. *)
Record kmem_ok (l : list Z) (s : kmst) : Prop := mkKok {
  ok_chain : chain (kphys s) (freelist s) l;
  ok_nodup : NoDup l;
  ok_pages : Forall page_ok l }.

Definition in_page (v x : Z) : Prop := v <= x < v + PGSIZE.

Lemma load32_ext mem mem' p :
  (forall x, in_page p x -> mem x = mem' x) -> load32 mem p = load32 mem' p.
Proof. intros H. unfold load32. rewrite !H; [done|unfold in_page, PGSIZE; lia..]. Qed.

(** The list only depends on what is in its pages. *)
Lemma chain_ext mem mem' h l :
  (forall p x, p ∈ l -> in_page p x -> mem x = mem' x) -> chain mem h l -> chain mem' h l.
Proof.
  revert h. induction l as [|p l IH]; intros h Hm; simpl; [done|].
  intros [-> Hc]. split; [done|]. rewrite <- (load32_ext mem) by (intros; apply (Hm p); set_solver).
  apply IH; [|done]. intros q x Hq. apply Hm. set_solver.
Qed.

Lemma pages_apart p q x : page_ok p -> page_ok q -> in_page p x -> in_page q x -> p = q.
Proof.
  intros [Hp _ _ _] [Hq _ _ _] H1 H2. unfold in_page, PGSIZE in *.
  pose proof (Z.div_mod p 4096 ltac:(lia)). pose proof (Z.div_mod q 4096 ltac:(lia)). lia.
Qed.

Lemma load_store mem v r : 0 <= r < 4294967296 -> load32 (store32 v r mem) v = r.
Proof.
  intros Hr. unfold load32, store32.
  replace ((v <=? v) && (v <? v + 4)) with true by lia.
  replace ((v <=? v + 1) && (v + 1 <? v + 4)) with true by lia.
  replace ((v <=? v + 2) && (v + 2 <? v + 4)) with true by lia.
  replace ((v <=? v + 3) && (v + 3 <? v + 4)) with true by lia.
  replace (v - v) with 0 by lia. replace (v + 1 - v) with 1 by lia.
  replace (v + 2 - v) with 2 by lia. replace (v + 3 - v) with 3 by lia.
  change (256 ^ 0) with 1. change (256 ^ 1) with 256. change (256 ^ 2) with 65536.
  change (256 ^ 3) with 16777216.
  pose proof (Z.div_mod r 256 ltac:(lia)). pose proof (Z.div_mod (r / 256) 256 ltac:(lia)).
  pose proof (Z.div_mod (r / 65536) 256 ltac:(lia)).
  pose proof (Z.div_mod (r / 16777216) 256 ltac:(lia)).
  replace (r / 65536) with (r / 256 / 256) in * by (rewrite Z.div_div by lia; done).
  replace (r / 16777216) with (r / 256 / 256 / 256) in * by (rewrite !Z.div_div by lia; done).
  replace (r / 256 / 256 / 256 / 256) with 0 in *; [rewrite Z.div_1_r; lia|].
  rewrite !Z.div_div by lia. symmetry. by apply Z.div_small.
Qed.

Lemma page_range v : page_ok v -> 0 < v < 4294967296.
Proof. intros [_ _ H1 H2]. unfold KERNBASE, PHYSTOP in *. lia. Qed.

Lemma kmem_head l s : kmem_ok l s -> 0 <= freelist s < 4294967296.
Proof.
  intros [Hc _ Hp]. destruct l as [|p l]; simpl in Hc; [lia|]. destruct Hc as [-> _].
  apply Forall_cons in Hp as [Hp _]. apply page_range in Hp. lia.
Qed.

(** The check of [kfree] is [page_ok]. *)
Lemma kfree_check v : 0 <= v < 4294967296 ->
  negb (v mod PGSIZE =? 0) || (v <? kend) || (V2P v >=? PHYSTOP) = false <-> page_ok v.
Proof.
  intros Hv. unfold V2P, u32. rewrite !orb_false_iff, negb_false_iff.
  pose proof (Z.div_mod (v - KERNBASE) 4294967296 ltac:(lia)).
  pose proof (Z.mod_pos_bound (v - KERNBASE) 4294967296 ltac:(lia)). split.
  - intros [[H1 H2] H3]. unfold KERNBASE, PHYSTOP in *. constructor; unfold KERNBASE, PHYSTOP; lia.
  - intros [H1 H2 H3 H4]. split_and!; [lia|lia|].
    rewrite Z.mod_small; unfold KERNBASE, PHYSTOP in *; lia.
Qed.

(** Freeing puts the page on the list, and changes no other page. *)
Lemma kmem_push l s v :
  kmem_ok l s -> page_ok v -> v ∉ l ->
  let mem := store32 v (freelist s) (fill v 1 PGSIZE (kphys s)) in
  kmem_ok (v :: l) (set_freelist v (set_kphys mem s)) /\
  (forall x, ~ in_page v x -> mem x = kphys s x).
Proof.
  intros Hk Hv Hn mem. pose proof (kmem_head l s Hk). destruct Hk as [Hc Hnd Hp].
  assert (forall x, ~ in_page v x -> mem x = kphys s x) as Hm.
  { intros x Hx. unfold mem, store32, fill, in_page, PGSIZE in *.
    replace ((v <=? x) && (x <? v + 4)) with false by lia.
    by replace ((v <=? x) && (x <? v + 4096)) with false by lia. }
  split; [|done]. constructor; simpl; [|by constructor|by constructor].
  split; [done|]. unfold mem. rewrite load_store by done. apply (chain_ext (kphys s)); [|done].
  intros p x Hin Hx. symmetry. apply Hm. intros Hx'. apply Hn.
  rewrite Forall_forall in Hp. by rewrite (pages_apart v p x) by auto.
Qed.

(** ** The operations *)

(** [if(kmem.use_lock) acquire(&kmem.lock)] and its counterpart. *)
Definition locks_of (u : Z) (ls : gset lockid) : gset lockid :=
  if u =? 0 then ls else {[Lkmem]} ∪ ls.

Lemma wp_lock P ls s Q :
  msec ls (kmach s) -> Lkmem ∉ ls ->
  (forall m, msec (locks_of (use_lock s) ls) m -> mframe (kmach s) m -> Q tt (set_kmach m s)) ->
  wp P (when (negb (use_lock s =? 0)) (on_mach (acquire Lkmem))) s Q.
Proof.
  intros Hs Hl HQ. unfold locks_of in HQ. apply wp_when.
  - intros Hu. apply negb_true_iff in Hu. rewrite Hu in HQ.
    apply wp_zoom. by apply (wp_acquire _ ls).
  - intros Hu. apply negb_false_iff in Hu. rewrite Hu in HQ.
    specialize (HQ (kmach s)). destruct s. by apply HQ.
Qed.

Lemma wp_unlock P ls s Q :
  msec (locks_of (use_lock s) ls) (kmach s) -> Lkmem ∉ ls ->
  (forall m, msec ls m -> mframe (kmach s) m -> Q tt (set_kmach m s)) ->
  wp P (when (negb (use_lock s =? 0)) (on_mach (release Lkmem))) s Q.
Proof.
  unfold locks_of. intros Hs Hl HQ. apply wp_when.
  - intros Hu. apply negb_true_iff in Hu. rewrite Hu in Hs.
    apply wp_zoom. apply (wp_release _ _ _ _ _ Hs); [set_solver|].
    replace (({[Lkmem]} ∪ ls) ∖ {[Lkmem]}) with ls by set_solver. done.
  - intros Hu. apply negb_false_iff in Hu. rewrite Hu in Hs.
    specialize (HQ (kmach s)). destruct s. by apply HQ.
Qed.

Lemma wp_kfree P ls l s v Q :
  msec ls (kmach s) -> Lkmem ∉ ls -> kmem_ok l s -> page_ok v -> v ∉ l ->
  (forall s', msec ls (kmach s') -> mframe (kmach s) (kmach s') -> kmem_ok (v :: l) s' ->
     use_lock s' = use_lock s -> (forall x, ~ in_page v x -> kphys s' x = kphys s x) -> Q tt s') ->
  wp P (kfree v) s Q.
Proof.
  intros Hs Hl Hk Hv Hn HQ. unfold kfree.
  rewrite (proj2 (kfree_check v ltac:(pose proof (page_range v Hv); lia)) Hv).
  destruct (kmem_push l s v Hk Hv Hn) as [Hk' Hm].
  wp_next. apply wp_modify. wp_next. apply wp_gets.
  wp_next. apply (wp_lock _ ls); [done|done|]. intros m1 Hm1 Hf1.
  wp_next. apply wp_modify. wp_next. apply wp_modify.
  wp_next. apply wp_gets. apply (wp_unlock _ ls); [done|done|]. intros m2 Hm2 Hf2.
  apply HQ; simpl; [done|by etrans| |done|done].
  destruct Hk'. by constructor.
Qed.

Lemma wp_kalloc P ls l s Q :
  msec ls (kmach s) -> Lkmem ∉ ls -> kmem_ok l s ->
  (forall s', msec ls (kmach s') -> mframe (kmach s) (kmach s') -> kmem_ok (tail l) s' ->
     use_lock s' = use_lock s -> kphys s' = kphys s -> Q (default 0 (head l)) s') ->
  wp P kalloc s Q.
Proof.
  intros Hs Hl Hk HQ. unfold kalloc. wp_next. apply wp_gets.
  wp_next. apply (wp_lock _ ls); [done|done|]. intros m1 Hm1 Hf1.
  wp_next. apply wp_gets. simpl. pose proof Hk as [Hc Hnd Hp].
  assert (freelist s = default 0 (head l)) as ->
    by (destruct l; simpl in Hc; [done|by destruct Hc]).
  wp_next. apply (wp_mono _ _ _ (fun _ s' => exists h, s' = set_freelist h (set_kmach m1 s) /\
    kmem_ok (tail l) s')).
  { destruct l as [|p l]; simpl in *.
    - exists (freelist s). split; [by destruct s|by constructor].
    - destruct Hc as [Hh Hc]. apply NoDup_cons in Hnd as [_ ?]. apply Forall_cons in Hp as [Hp ?].
      apply page_range in Hp. apply wp_when; [|lia]. intros _.
      exists (load32 (kphys s) p). split; [done|]. by constructor. }
  intros _ s' (h & -> & Hk'). wp_next. apply wp_gets. wp_next.
  apply (wp_unlock _ ls); [done|done|]. intros m2 Hm2 Hf2. apply wp_ret.
  apply HQ; simpl; [done|by etrans| |done|done]. destruct Hk'. by constructor.
Qed.

(** The pages [freerange(vstart, vend)] frees, in the order of the loop. *)
Definition range_pages (p : Z) (n : nat) : list Z :=
  (fun k => p + Z.of_nat k * PGSIZE) <$> seq 0 n.

Lemma range_pages_S p n : range_pages p (S n) = p :: range_pages (p + PGSIZE) n.
Proof.
  unfold range_pages. simpl. f_equal; [lia|].
  rewrite <- fmap_S_seq, <- list_fmap_compose. apply list_fmap_ext. intros i k _. simpl. lia.
Qed.

Lemma elem_range_pages p n x :
  x ∈ range_pages p n <-> exists k, 0 <= k < Z.of_nat n /\ x = p + k * PGSIZE.
Proof.
  unfold range_pages. rewrite list_elem_of_fmap. split.
  - intros (k & -> & Hk). apply elem_of_seq in Hk. exists (Z.of_nat k). lia.
  - intros (k & Hk & ->). exists (Z.to_nat k). rewrite elem_of_seq. split; [by rewrite Z2Nat.id by lia|lia].
Qed.

Lemma round_up a : 0 <= a -> a + 4095 < 4294967296 ->
  a <= PGROUNDUP a < a + PGSIZE /\ PGROUNDUP a mod PGSIZE = 0.
Proof.
  intros H1 H2. unfold PGROUNDUP, PGSIZE. rewrite u32_small by lia.
  replace (4096 - 1) with (Z.ones 12) by reflexivity.
  rewrite <- Z.ldiff_land, Z.ldiff_ones_r, Z.shiftr_div_pow2, Z.shiftl_mul_pow2 by lia.
  change (2 ^ 12) with 4096. pose proof (Z.div_mod (a + 4096 - 1) 4096 ltac:(lia)).
  pose proof (Z.mod_pos_bound (a + 4096 - 1) 4096 ltac:(lia)).
  rewrite Z.mod_mul by lia. lia.
Qed.

Definition range_end (p vend : Z) : nat := Z.to_nat ((vend - p) / PGSIZE).

Lemma range_fuel p vend : 0 <= p -> (range_end p vend < S (Z.to_nat (vend / PGSIZE)))%nat.
Proof.
  intros Hp. unfold range_end, PGSIZE.
  pose proof (Z.div_le_mono (vend - p) vend 4096 ltac:(lia) ltac:(lia)). lia.
Qed.

Lemma wp_freerange_loop P ls fuel p vend l s Q :
  msec ls (kmach s) -> Lkmem ∉ ls -> kmem_ok l s ->
  kend <= p -> KERNBASE <= p -> p mod PGSIZE = 0 -> vend <= KERNBASE + PHYSTOP ->
  (range_end p vend < fuel)%nat -> p <= vend + PGSIZE ->
  (forall x, x ∈ range_pages p (range_end p vend) -> x ∉ l) ->
  (forall s', msec ls (kmach s') -> mframe (kmach s) (kmach s') ->
     kmem_ok (reverse (range_pages p (range_end p vend)) ++ l) s' ->
     use_lock s' = use_lock s -> Q tt s') ->
  wp P (freerange_loop fuel p vend) s Q.
Proof.
  revert p l s. induction fuel as [|fuel IH]; intros p l s Hs Hl Hk Hp Hb Ha Hv Hf Hpv Hn HQ; [lia|].
  simpl. pose proof (Z.div_mod (vend - p) PGSIZE ltac:(done)) as Hdm.
  pose proof (Z.mod_pos_bound (vend - p) PGSIZE ltac:(done)) as Hmb.
  rewrite u32_small by (unfold KERNBASE, PHYSTOP, PGSIZE in *; lia).
  destruct (p + PGSIZE <=? vend) eqn:He.
  - assert (range_end p vend = S (range_end (p + PGSIZE) vend)) as Hr.
    { unfold range_end. replace (vend - (p + PGSIZE)) with (vend - p + (-1) * PGSIZE) by lia.
      rewrite Z.div_add by done. unfold PGSIZE in *. lia. }
    rewrite Hr, range_pages_S in *. wp_next.
    apply (wp_kfree _ ls l); [done|done|done| |apply Hn; set_solver|].
    { constructor; [done|done|done|]. unfold PGSIZE in *. lia. }
    intros s' Hs' Hf' Hk' Hu' _. apply (IH _ (p :: l)); try done.
    + unfold PGSIZE in *. lia.
    + unfold PGSIZE in *. lia.
    + by rewrite <- (Z.mul_1_l PGSIZE), Z_mod_plus_full.
    + lia.
    + lia.
    + intros x Hx Hin. apply elem_of_cons in Hin as [->|Hin]; [|by apply (Hn x); [set_solver|]].
      apply elem_range_pages in Hx as (k & Hk1 & Hk2). unfold PGSIZE in *. lia.
    + intros s'' H1 H2 H3 H4. apply HQ; [done|by etrans| |congruence].
      rewrite reverse_cons, <- app_assoc. done.
  - assert (range_end p vend = 0%nat) as Hr by (unfold range_end; unfold PGSIZE in *; lia).
    rewrite Hr in *. by apply HQ.
Qed.

(** ** Allocation never aliases *)

(** A run of the allocator's clients: they allocate, free what they have, and
    write to pages they have.  [live] lists the pages handed out. *)
Inductive krun (l0 : list Z) : list Z -> kmst -> Prop :=
  | krun_start s : kmem_ok l0 s -> msec ∅ (kmach s) -> krun l0 [] s
  | krun_alloc live s r s' :
      krun l0 live s -> kalloc s = Ok r s' -> krun l0 (if r =? 0 then live else r :: live) s'
  | krun_free live1 v live2 s s' :
      krun l0 (live1 ++ v :: live2) s -> kfree v s = Ok tt s' -> krun l0 (live1 ++ live2) s'
  | krun_write live s mem :
      krun l0 live s ->
      (forall x, (forall v, v ∈ live -> ~ in_page v x) -> mem x = kphys s x) ->
      krun l0 live (set_kphys mem s).

Definition kinv (l0 live : list Z) (s : kmst) : Prop :=
  msec ∅ (kmach s) /\ exists l, kmem_ok l s /\ live ++ l ≡ₚ l0.

Lemma kinv_perm l0 live s : NoDup l0 -> Forall page_ok l0 -> kinv l0 live s ->
  NoDup live /\ Forall page_ok live.
Proof.
  intros Hnd Hp (_ & l & _ & Hperm). rewrite <- Hperm in Hnd, Hp.
  apply NoDup_app in Hnd as [? _]. by apply Forall_app in Hp as [? _].
Qed.

Lemma krun_kinv l0 live s : krun l0 live s -> NoDup l0 /\ Forall page_ok l0 /\ kinv l0 live s.
Proof.
  induction 1 as [s Hk Hs|live s r s' Hr IH Ha|live1 v live2 s s' Hr IH Hf|live s mem Hr IH Hm].
  - split; [by destruct Hk|]. split; [by destruct Hk|]. split; [done|]. by exists l0.
  - destruct IH as (Hnd & Hp & Hs & l & Hk & Hperm). split; [done|]. split; [done|].
    refine (wp_elim no_failure kalloc s r s'
      (fun r s' => kinv l0 (if r =? 0 then live else r :: live) s') _ Ha).
    apply (wp_kalloc _ ∅ l); [done|set_solver|done|].
    intros s1 Hs1 _ Hk1 _ _. split; [done|]. exists (tail l). split; [done|].
    destruct l as [|p l]; [done|]. simpl.
    assert (p =? 0 = false) as ->.
    { destruct Hk as [_ _ Hpl]. apply Forall_cons in Hpl as [Hpl _]. apply page_range in Hpl. lia. }
    simpl. rewrite <- Hperm. by rewrite Permutation_middle.
  - destruct IH as (Hnd & Hp & Hs & l & Hk & Hperm). split; [done|]. split; [done|].
    assert (page_ok v) as Hv by (rewrite <- Hperm, !Forall_app, Forall_cons in Hp; tauto).
    assert (v ∉ l) as Hn.
    { rewrite <- Hperm in Hnd. apply NoDup_app in Hnd as (_ & Hd & _). apply Hd. set_solver. }
    refine (wp_elim no_failure (kfree v) s tt s' (fun _ s' => kinv l0 (live1 ++ live2) s') _ Hf).
    apply (wp_kfree _ ∅ l); [done|set_solver|done|done|done|].
    intros s1 Hs1 _ Hk1 _ _. split; [done|]. exists (v :: l). split; [done|].
    rewrite <- Hperm, <- !app_assoc. simpl. by rewrite Permutation_middle.
  - destruct IH as (Hnd & Hp & Hs & l & Hk & Hperm). split; [done|]. split; [done|].
    split; [done|]. exists l. split; [|done]. pose proof Hk as [Hc ? Hpl]. constructor; [|done..].
    apply (chain_ext (kphys s)); [|done]. intros p x Hpx Hx. symmetry. apply Hm. intros v Hv Hvx.
    rewrite <- Hperm in Hp, Hnd. apply Forall_app in Hp as [Hp1 Hp2].
    apply NoDup_app in Hnd as (_ & Hd & _). apply (Hd v Hv).
    rewrite Forall_forall in Hp1, Hp2. by rewrite (pages_apart v p x) by auto.
Qed.

(** [kalloc] hands out the first free page, or 0 when none is left; [kfree]
    takes back a page that is not free, and panics on an address that is not
    that of an allocatable page.  Neither can block nor leaves a lock held. *)
Theorem kalloc_kfree_correct ls l s :
  msec ls (kmach s) -> Lkmem ∉ ls -> kmem_ok l s ->
  (exists s', kalloc s = Ok (default 0 (head l)) s' /\ msec ls (kmach s') /\
     kmem_ok (tail l) s' /\ kphys s' = kphys s) /\
  (forall v, page_ok v -> v ∉ l -> exists s', kfree v s = Ok tt s' /\ msec ls (kmach s') /\
     kmem_ok (v :: l) s' /\ (forall x, ~ in_page v x -> kphys s' x = kphys s x)) /\
  (forall v, 0 <= v < 4294967296 -> ~ page_ok v -> kfree v s = Panic "kfree").
Proof.
  intros Hs Hl Hk. split_and!.
  - destruct (wp_total kalloc s (fun r s' => r = default 0 (head l) /\ msec ls (kmach s') /\
      kmem_ok (tail l) s' /\ kphys s' = kphys s)) as (r & s' & Hr & -> & H); [|eauto].
    by apply (wp_kalloc _ ls l).
  - intros v Hv Hn. destruct (wp_total (kfree v) s (fun _ s' => msec ls (kmach s') /\
      kmem_ok (v :: l) s' /\ (forall x, ~ in_page v x -> kphys s' x = kphys s x)))
      as ([] & s' & Hr & H); [|eauto]. by apply (wp_kfree _ ls l).
  - intros v Hv Hn. unfold kfree.
    pose proof (kfree_check v Hv). destruct (_ || _); [done|tauto].
Qed.

(** What main() does, in two phases around the start of the other CPUs. *)
Definition P2V (a : Z) : Z := u32 (a + KERNBASE).

Definition main_kinit : M kmst unit :=
  kinit1 kend (P2V (4 * 1024 * 1024));;
  kinit2 (P2V (4 * 1024 * 1024)) (P2V PHYSTOP).

Lemma elem_range p n vend x : p mod PGSIZE = 0 -> n = range_end p vend -> p <= vend + PGSIZE ->
  x ∈ range_pages p n <-> x mod PGSIZE = 0 /\ p <= x /\ x + PGSIZE <= vend.
Proof.
  intros Hp -> Hv. rewrite elem_range_pages. unfold range_end, PGSIZE in *.
  pose proof (Z.div_mod (vend - p) 4096 ltac:(lia)).
  pose proof (Z.mod_pos_bound (vend - p) 4096 ltac:(lia)). split.
  - intros (k & Hk & ->). rewrite Z_mod_plus_full. split_and!; [done|lia|lia].
  - intros (Hx & H1 & H2). pose proof (Z.div_mod x 4096 ltac:(lia)).
    pose proof (Z.div_mod p 4096 ltac:(lia)). exists (x / 4096 - p / 4096). lia.
Qed.

(** Booting puts on the free list exactly the whole pages from the end of the
    kernel image to the top of physical memory, each once. *)
Theorem kinit_correct s :
  msec ∅ (kmach s) -> freelist s = 0 -> KERNBASE <= kend <= P2V (4 * 1024 * 1024) ->
  exists s' l, main_kinit s = Ok tt s' /\ msec ∅ (kmach s') /\ use_lock s' = 1 /\
    kmem_ok l s' /\ (forall x, x ∈ l <-> x mod PGSIZE = 0 /\ kend <= x /\ x + PGSIZE <= P2V PHYSTOP).
Proof.
  intros Hs H0 Hke.
  assert (P2V (4 * 1024 * 1024) = KERNBASE + 4194304) as Hm4 by done.
  assert (P2V PHYSTOP = KERNBASE + PHYSTOP) as Hps by done.
  rewrite Hm4 in Hke. destruct (round_up kend) as [Hr Hra]; [unfold KERNBASE in *; lia..|].
  set (p := PGROUNDUP kend) in *.
  assert (p <= KERNBASE + 4194304) as Hpm.
  { pose proof (Z.div_mod p PGSIZE ltac:(done)). unfold PGSIZE, KERNBASE in *. lia. }
  assert (PGROUNDUP (KERNBASE + 4194304) = KERNBASE + 4194304) as Hm by done.
  destruct (wp_total main_kinit s (fun _ s' => exists l, msec ∅ (kmach s') /\ use_lock s' = 1 /\
    kmem_ok l s' /\ (forall x, x ∈ l <-> x mod PGSIZE = 0 /\ kend <= x /\ x + PGSIZE <= P2V PHYSTOP)))
    as ([] & s' & H1 & l & H2); [|by exists s', l].
  unfold main_kinit, kinit1, kinit2, freerange. rewrite Hm4, Hps, Hm. fold p.
  wp_next. wp_next. apply wp_zoom, wp_modify. wp_next. apply wp_modify.
  eapply (wp_freerange_loop _ ∅ _ _ _ []);
    [by apply msec_initlock|set_solver|by constructor; [|apply NoDup_nil_2|apply Forall_nil_2]|lia|lia|done
    |unfold PHYSTOP; lia|apply range_fuel; unfold KERNBASE in *; lia|unfold PGSIZE; lia
    |set_solver|].
  intros s1 Hs1 _ Hk1 _. rewrite app_nil_r in Hk1.
  assert (forall x, x ∈ range_pages p (range_end p (KERNBASE + 4194304)) <->
    x mod PGSIZE = 0 /\ p <= x /\ x + PGSIZE <= KERNBASE + 4194304) as He1
    by (intros x; apply elem_range; [done|done|unfold PGSIZE; lia]).
  set (q := KERNBASE + 4194304) in *.
  assert (forall x, x ∈ range_pages q (range_end q (KERNBASE + PHYSTOP)) <->
    x mod PGSIZE = 0 /\ q <= x /\ x + PGSIZE <= KERNBASE + PHYSTOP) as He2
    by (intros x; apply elem_range; [done|done|unfold q, PGSIZE, PHYSTOP; lia]).
  wp_next. eapply (wp_freerange_loop _ ∅); [done|set_solver|exact Hk1|lia|unfold q; lia|done|lia
    |apply range_fuel; unfold q, KERNBASE; lia|unfold q, PHYSTOP, PGSIZE; lia| |].
  { intros x Hx. apply He2 in Hx. rewrite elem_of_reverse, He1. unfold PGSIZE. lia. }
  intros s2 Hs2 _ Hk2 _. apply wp_modify. eexists. split; [exact Hs2|]. split; [done|].
  split; [destruct Hk2; by constructor|]. intros x.
  rewrite elem_of_app, !elem_of_reverse, He1, He2.
  pose proof (Z.div_mod x PGSIZE ltac:(done)). pose proof (Z.div_mod p PGSIZE ltac:(done)).
  assert (q = 525312 * PGSIZE) as Hq by done. assert (q <= KERNBASE + PHYSTOP) by done.
  clearbody q p. unfold PGSIZE in *. split; intros; lia.
Qed.

(** C30. No page is handed out twice: whatever the clients do with the pages they
    have, the pages in use are distinct, allocatable and not on the free list,
    and a page is neither lost nor made up. *)
Theorem kalloc_no_alias l0 live s :
  krun l0 live s ->
  NoDup live /\ Forall page_ok live /\
  exists l, kmem_ok l s /\ live ++ l ≡ₚ l0 /\ (forall v, v ∈ live -> v ∉ l).
Proof.
  intros Hr. apply krun_kinv in Hr as (Hnd & Hp & Hi).
  destruct (kinv_perm _ _ _ Hnd Hp Hi) as [H1 H2]. destruct Hi as (_ & l & Hk & Hperm).
  split_and!; [done..|]. exists l. split_and!; [done..|].
  rewrite <- Hperm in Hnd. by apply NoDup_app in Hnd as (_ & Hd & _).
Qed.

End kalloc.

End Kalloc.
