(* ===== verification/Vm.v ===== *)
(** * Page tables: vm.c

    A two-level page table lives in pages of the memory of Kalloc.v: the
    directory [pgdir] and the tables its entries point to hold 1024 32-bit
    entries each.  Addresses are those the kernel uses; [kend] and [kdata] stand
    for the linker symbols [end] and [data].

    [seginit], [switchkvm] and [switchuvm] load segment and page table registers
    and are not part of the model, nor is the message [allocuvm] prints.
    [loaduvm], which reads a file, is in Exec.v. *)

From stdpp Require Import base numbers gmap list strings.
From S2P Require Import Prelude CString Spinlock ProcState Kalloc.
Import Kalloc.
Open Scope Z_scope.

Module Vm.

(** mmu.h, memlayout.h *)
Definition PTE_P : Z := 1.
Definition PTE_W : Z := 2.
Definition PTE_U : Z := 4.
Definition EXTMEM : Z := 1048576.
Definition DEVSPACE : Z := 4261412864.
Definition KERNLINK : Z := KERNBASE + EXTMEM.
Definition NPDENTRIES : nat := 1024.

Definition PDX (va : Z) : Z := Z.land (Z.shiftr va 22) 1023.
Definition PTX (va : Z) : Z := Z.land (Z.shiftr va 12) 1023.
Definition PGADDR (d t o : Z) : Z := u32 (Z.lor (Z.lor (Z.shiftl d 22) (Z.shiftl t 12)) o).
Definition PGROUNDDOWN (a : Z) : Z := Z.land a (Z.lnot 4095).
Definition PTE_ADDR (pte : Z) : Z := Z.land pte (Z.lnot 4095).
Definition PTE_FLAGS (pte : Z) : Z := Z.land pte 4095.

(** Reading and writing a word, [memset] and [memmove]. *)
Definition peek (a : Z) : M kmst Z := gets (fun s => load32 (kphys s) a).

Definition poke (a v : Z) : M kmst unit :=
  modify (fun s => set_kphys (store32 a v (kphys s)) s).

Definition memset (a c n : Z) : M kmst unit :=
  modify (fun s => set_kphys (KString.memset (kphys s) a c n) s).

Definition memmove (dst src n : Z) : M kmst unit :=
  modify (fun s => set_kphys (KString.memmove (kphys s) dst src n) s).

(** Bytes from elsewhere, such as a file. *)
Definition put_bytes (dst : Z) (bs : list Z) (mem : Z -> Z) : Z -> Z := fun x =>
  if (dst <=? x) && (x <? dst + Z.of_nat (length bs)) then nth (Z.to_nat (x - dst)) bs 0 else mem x.

Section vm.
Variables kend kdata : Z.

Definition walkpgdir (pgdir va : Z) (alloc : bool) : M kmst Z :=
  let pde := pgdir + 4 * PDX va in
  e ← peek pde;
  if negb (Z.land e PTE_P =? 0) then mret (P2V (PTE_ADDR e) + 4 * PTX va) else
  if negb alloc then mret 0 else
  pgtab ← kalloc;
  if pgtab =? 0 then mret 0 else
  memset pgtab 0 PGSIZE;;
  poke pde (Z.lor (Z.lor (Z.lor (V2P pgtab) PTE_P) PTE_W) PTE_U);;
  mret (pgtab + 4 * PTX va).

(** The endless loop of [mappages]; [a] reaches [last] within [n] rounds. *)
Fixpoint mappages_loop (n : nat) (pgdir a last pa perm : Z) : M kmst Z :=
  match n with
  | O => blocked
  | S n =>
      pte ← walkpgdir pgdir a true;
      if pte =? 0 then mret (-1) else
      e ← peek pte;
      if negb (Z.land e PTE_P =? 0) then panic "remap" else
      poke pte (Z.lor (Z.lor pa perm) PTE_P);;
      if a =? last then mret 0 else
      mappages_loop n pgdir (u32 (a + PGSIZE)) last (u32 (pa + PGSIZE)) perm
  end.

Definition mappages (pgdir va size pa perm : Z) : M kmst Z :=
  let a := PGROUNDDOWN va in
  let last := PGROUNDDOWN (u32 (va + size - 1)) in
  mappages_loop (S (Z.to_nat (u32 (last - a) / PGSIZE))) pgdir a last pa perm.

(** A page further, or the next directory entry when there is no table. *)
Fixpoint deallocuvm_loop (n : nat) (pgdir a oldsz : Z) : M kmst unit :=
  match n with
  | O => blocked
  | S n =>
      if a <? oldsz then
        pte ← walkpgdir pgdir a false;
        if pte =? 0 then
          deallocuvm_loop n pgdir (u32 (u32 (PGADDR (PDX a + 1) 0 0 - PGSIZE) + PGSIZE)) oldsz
        else
          e ← peek pte;
          when (negb (Z.land e PTE_P =? 0)) (
            let pa := PTE_ADDR e in
            if pa =? 0 then panic "kfree" else
            kfree kend (P2V pa);;
            poke pte 0);;
          deallocuvm_loop n pgdir (u32 (a + PGSIZE)) oldsz
      else mret tt
  end.

(** The loop makes at most a round per page, and one that sees the end. *)
Definition deallocuvm (pgdir oldsz newsz : Z) : M kmst Z :=
  if newsz >=? oldsz then mret oldsz else
  deallocuvm_loop (S (Z.to_nat (oldsz / PGSIZE + 1))) pgdir (PGROUNDUP newsz) oldsz;;
  mret newsz.

Fixpoint allocuvm_loop (n : nat) (pgdir a oldsz newsz : Z) : M kmst Z :=
  match n with
  | O => blocked
  | S n =>
      if a <? newsz then
        mem ← kalloc;
        if mem =? 0 then deallocuvm pgdir newsz oldsz;; mret 0 else
        memset mem 0 PGSIZE;;
        r ← mappages pgdir a PGSIZE (V2P mem) (Z.lor PTE_W PTE_U);
        if r <? 0 then deallocuvm pgdir newsz oldsz;; kfree kend mem;; mret 0 else
        allocuvm_loop n pgdir (u32 (a + PGSIZE)) oldsz newsz
      else mret newsz
  end.

Definition allocuvm (pgdir oldsz newsz : Z) : M kmst Z :=
  if newsz >=? KERNBASE then mret 0 else
  if newsz <? oldsz then mret oldsz else
  allocuvm_loop (S (Z.to_nat (newsz / PGSIZE + 1))) pgdir (PGROUNDUP oldsz) oldsz newsz.

Definition freevm (pgdir : Z) : M kmst unit :=
  if pgdir =? 0 then panic "freevm: no pgdir" else
  deallocuvm pgdir KERNBASE 0;;
  mfor (seq 0 NPDENTRIES) (fun i =>
    e ← peek (pgdir + 4 * Z.of_nat i);
    when (negb (Z.land e PTE_P =? 0)) (kfree kend (P2V (PTE_ADDR e))));;
  kfree kend pgdir.

Record kmap := mkKmap { virt : Z; phys_start : Z; phys_end : Z; perm : Z }.

Definition kmaps : list kmap :=
  [ mkKmap KERNBASE 0 EXTMEM PTE_W;
    mkKmap KERNLINK (V2P KERNLINK) (V2P kdata) 0;
    mkKmap kdata (V2P kdata) PHYSTOP PTE_W;
    mkKmap DEVSPACE DEVSPACE 0 PTE_W ].

Fixpoint setupkvm_loop (pgdir : Z) (ks : list kmap) : M kmst Z :=
  match ks with
  | [] => mret pgdir
  | k :: ks =>
      r ← mappages pgdir (virt k) (u32 (phys_end k - phys_start k)) (phys_start k) (perm k);
      if r <? 0 then freevm pgdir;; mret 0 else setupkvm_loop pgdir ks
  end.

Definition setupkvm : M kmst Z :=
  pgdir ← kalloc;
  if pgdir =? 0 then mret 0 else
  memset pgdir 0 PGSIZE;;
  if P2V PHYSTOP >? DEVSPACE then panic "PHYSTOP too high" else
  setupkvm_loop pgdir kmaps.

(** [init] is the code to load. *)
Definition inituvm (pgdir : Z) (init : list Z) : M kmst unit :=
  if Z.of_nat (length init) >=? PGSIZE then panic "inituvm: more than a page" else
  mem ← kalloc;
  memset mem 0 PGSIZE;;
  mappages pgdir 0 PGSIZE (V2P mem) (Z.lor PTE_W PTE_U);;
  modify (fun s => set_kphys (put_bytes mem init (kphys s)) s).

Definition clearpteu (pgdir uva : Z) : M kmst unit :=
  pte ← walkpgdir pgdir uva false;
  if pte =? 0 then panic "clearpteu" else
  e ← peek pte;
  poke pte (Z.land e (Z.lnot PTE_U)).

Fixpoint copyuvm_loop (n : nat) (pgdir d i sz : Z) : M kmst Z :=
  match n with
  | O => blocked
  | S n =>
      if i <? sz then
        pte ← walkpgdir pgdir i false;
        if pte =? 0 then panic "copyuvm: pte should exist" else
        e ← peek pte;
        if Z.land e PTE_P =? 0 then panic "copyuvm: page not present" else
        let pa := PTE_ADDR e in
        let flags := PTE_FLAGS e in
        mem ← kalloc;
        if mem =? 0 then freevm d;; mret 0 else
        memmove mem (P2V pa) PGSIZE;;
        r ← mappages d i PGSIZE (V2P mem) flags;
        if r <? 0 then kfree kend mem;; freevm d;; mret 0 else
        copyuvm_loop n pgdir d (u32 (i + PGSIZE)) sz
      else mret d
  end.

Definition copyuvm (pgdir sz : Z) : M kmst Z :=
  d ← setupkvm;
  if d =? 0 then mret 0 else
  copyuvm_loop (S (Z.to_nat (sz / PGSIZE + 1))) pgdir d 0 sz.

(** When there is no table, [*pte] reads at address 0. *)
Definition uva2ka (pgdir uva : Z) : M kmst Z :=
  pte ← walkpgdir pgdir uva false;
  e ← peek pte;
  if Z.land e PTE_P =? 0 then mret 0 else
  if Z.land e PTE_U =? 0 then mret 0 else
  mret (P2V (PTE_ADDR e)).

(** [buf] is what is left to copy, [len] bytes. *)
Fixpoint copyout_loop (fuel : nat) (pgdir va : Z) (buf : list Z) : M kmst Z :=
  match fuel with
  | O => blocked
  | S fuel =>
      let len := Z.of_nat (length buf) in
      if len >? 0 then
        let va0 := PGROUNDDOWN va in
        pa0 ← uva2ka pgdir va0;
        if pa0 =? 0 then mret (-1) else
        let n0 := PGSIZE - (va - va0) in
        let n := if n0 >? len then len else n0 in
        modify (fun s => set_kphys (put_bytes (pa0 + (va - va0)) (take (Z.to_nat n) buf) (kphys s)) s);;
        copyout_loop fuel pgdir (u32 (va0 + PGSIZE)) (drop (Z.to_nat n) buf)
      else mret 0
  end.

Definition copyout (pgdir va : Z) (buf : list Z) : M kmst Z :=
  copyout_loop (S (length buf)) pgdir va buf.

End vm.

End Vm.
