(* ===== verification/VmTable.v ===== *)
(** * Page tables as maps from page numbers to entries

    The representation of a page table in memory, and what [walkpgdir] and
    [mappages] do to it. *)

From stdpp Require Import base numbers gmap sets list strings.
From S2P Require Import Prelude CString Spinlock ProcState Kalloc Vm.
Import Kalloc Vm.
Open Scope Z_scope.

(** ** Addresses and entries *)

Lemma land_ones_mod z n : 0 <= n -> Z.land z (Z.ones n) = z mod 2 ^ n.
Proof. apply Z.land_ones. Qed.

Lemma round_down_eq a : Z.land a (Z.lnot 4095) = 4096 * (a / 4096).
Proof.
  change 4095 with (Z.ones 12). rewrite <- Z.ldiff_land, Z.ldiff_ones_r, Z.shiftr_div_pow2, Z.shiftl_mul_pow2 by lia.
  change (2 ^ 12) with 4096. lia.
Qed.

Lemma page_off v f : 0 <= f < 4096 -> (4096 * v + f) / 4096 = v /\ (4096 * v + f) mod 4096 = f.
Proof.
  intros Hf. pose proof (Z.div_mod (4096 * v + f) 4096). pose proof (Z.mod_pos_bound (4096 * v + f) 4096). lia.
Qed.

Lemma PGROUNDDOWN_page v : PGROUNDDOWN (4096 * v) = 4096 * v.
Proof. unfold PGROUNDDOWN. rewrite round_down_eq. pose proof (page_off v 0). rewrite Z.add_0_r in *. lia. Qed.

Lemma PTX_eq va : PTX va = (va / 4096) mod 1024.
Proof. unfold PTX. rewrite Z.shiftr_div_pow2 by lia. by rewrite (Z.land_ones _ 10). Qed.

Lemma PDX_eq va : 0 <= va < 4294967296 -> PDX va = va / 4096 / 1024 /\ 0 <= PDX va < 1024.
Proof.
  intros H. unfold PDX. rewrite Z.shiftr_div_pow2, (Z.land_ones _ 10), Z.div_div by lia. change (2 ^ 22) with 4194304.
  change (2 ^ 10) with 1024. change (4096 * 1024) with 4194304.
  assert (0 <= va / 4194304 < 1024) by (split; [apply Z.div_pos; lia|apply Z.div_lt_upper_bound; lia]).
  rewrite Z.mod_small; lia.
Qed.

(** An address of a page and bits below it do not overlap. *)
Lemma lor_page k f : 0 <= f < 4096 -> Z.lor (4096 * k) f = 4096 * k + f.
Proof.
  intros Hf. rewrite Z.add_nocarry_lor; [done|]. apply Z.bits_inj'. intros i Hi.
  rewrite Z.land_spec, Z.bits_0, Z.mul_comm. change 4096 with (2 ^ 12).
  destruct (decide (i < 12)); [by rewrite Z.mul_pow2_bits_low|].
  rewrite <- (Z.mod_small f (2 ^ 12)) by (change (2 ^ 12) with 4096; lia).
  by rewrite (Z.mod_pow2_bits_high f), andb_false_r by lia.
Qed.

Lemma PTE_ADDR_page k f : 0 <= f < 4096 -> PTE_ADDR (4096 * k + f) = 4096 * k.
Proof. intros Hf. unfold PTE_ADDR. rewrite round_down_eq. pose proof (page_off k f Hf). lia. Qed.

Lemma PTE_FLAGS_page k f : 0 <= f < 4096 -> PTE_FLAGS (4096 * k + f) = f.
Proof.
  intros Hf. unfold PTE_FLAGS. rewrite (Z.land_ones _ 12) by lia. change (2 ^ 12) with 4096.
  by apply page_off.
Qed.

Lemma land_P e : Z.land e PTE_P = e mod 2.
Proof. apply (Z.land_ones e 1). lia. Qed.

(** Present: the lowest bit is set. *)
Definition present (e : Z) : bool := negb (e mod 2 =? 0).

Lemma present_page k f : present (4096 * k + f) = present f.
Proof. unfold present. do 2 f_equal. replace (4096 * k + f) with (f + 2048 * k * 2) by lia. apply Z_mod_plus_full. Qed.

Lemma page_div p : p mod PGSIZE = 0 -> p = 4096 * (p / 4096).
Proof. unfold PGSIZE. intros H. pose proof (Z.div_mod p 4096 ltac:(lia)). lia. Qed.

(** [pa | perm | PTE_P] *)
Definition pte (pa perm : Z) : Z := pa + Z.lor perm 1.

Lemma lor_1 f : 0 <= f < 4096 -> 0 <= Z.lor f 1 < 4096 /\ Z.lor f 1 mod 2 = 1.
Proof.
  intros Hf. assert (Z.lor f 1 = f + 1 - f mod 2) as ->.
  { replace (Z.lor f 1) with (Z.lor (2 * (f / 2)) 1).
    - rewrite <- Z.add_nocarry_lor.
      + pose proof (Z.div_mod f 2). lia.
      + apply Z.bits_inj'. intros i Hi. rewrite Z.land_spec, Z.bits_0.
        destruct (decide (i = 0)) as [->|]; [by rewrite Z.testbit_even_0|].
        change 1 with (2 ^ 0). rewrite Z.pow2_bits_false, andb_false_r by lia. done.
    - apply Z.bits_inj'. intros i Hi. rewrite !Z.lor_spec. destruct (decide (i = 0)) as [->|Hn].
      + by rewrite !orb_true_r.
      + f_equal. replace i with (Z.succ (i - 1)) by lia. rewrite Z.testbit_even_succ by lia.
        rewrite <- Z.div2_div, Z.div2_spec, Z.shiftr_spec by lia. f_equal; lia. }
  pose proof (Z.mod_pos_bound f 2). pose proof (Z.div_mod f 2). split; [lia|].
  replace (f + 1 - f mod 2) with (1 + f / 2 * 2) by lia. by rewrite Z_mod_plus_full.
Qed.

Lemma pte_lor pa perm : pa mod PGSIZE = 0 -> 0 <= perm < 4096 -> Z.lor (Z.lor pa perm) PTE_P = pte pa perm.
Proof.
  intros Hp Hf. rewrite <- Z.lor_assoc, (page_div pa Hp). unfold pte.
  apply lor_page. by apply lor_1.
Qed.

(** ** Words in pages *)

Lemma load_store_ne mem a b v : a + 4 <= b \/ b + 4 <= a -> load32 (store32 a v mem) b = load32 mem b.
Proof.
  intros H. unfold load32, store32. repeat (case_match; [lia|]). done.
Qed.

Definition slot_in (p a : Z) : Prop := exists i, 0 <= i < 1024 /\ a = p + 4 * i.

Lemma slot_apart kend p q a b : page_ok kend p -> page_ok kend q -> slot_in p a -> slot_in q b -> p ≠ q ->
  a + 4 <= b \/ b + 4 <= a.
Proof.
  intros [Hp _ _ _] [Hq _ _ _] (i & Hi & ->) (j & Hj & ->) Hn.
  apply page_div in Hp, Hq. lia.
Qed.

Lemma load32_same (mem mem' : Z -> Z) a : (forall x, a <= x < a + 4 -> mem x = mem' x) -> load32 mem a = load32 mem' a.
Proof. intros H. unfold load32. rewrite !H by lia. done. Qed.

Lemma slot_bytes p a x : slot_in p a -> a <= x < a + 4 -> in_page p x.
Proof. intros (i & Hi & ->) Hx. unfold in_page, PGSIZE. lia. Qed.

(** ** The representation *)

Section table.
Context (kend : Z) (ls : gset lockid) (Hls : Lkmem ∉ ls).
Implicit Types (s : kmst) (T : gmap Z Z) (E : Z -> Z) (l R : list Z).

(** The entry for page number [v]: [T] has the page tables. *)
Definition entry_at T (v : Z) : Z :=
  match T !! (v / 1024) with Some pt => pt + 4 * (v mod 1024) | None => 0 end.

Definition entry (mem : Z -> Z) T (v : Z) : Z :=
  match T !! (v / 1024) with Some pt => load32 mem (pt + 4 * (v mod 1024)) | None => 0 end.

Record dir_ok (mem : Z -> Z) (pd : Z) T : Prop := mkDir {
  d_some : forall i pt, T !! i = Some pt -> 0 <= i < 1024 /\ load32 mem (pd + 4 * i) = V2P pt + 7;
  d_none : forall i, 0 <= i < 1024 -> T !! i = None -> present (load32 mem (pd + 4 * i)) = false }.

(** The pages of the page table. *)
Definition own (pd : Z) T : list Z := pd :: (map_to_list T).*2.

Definition vpn (v : Z) : Prop := 0 <= v < 1048576.

(** A page table at [pd] with the tables [T] and the entries [E], next to the
    free list [l] and pages [R] in use for something else. *)
Record vst l s (pd : Z) T E R : Prop := mkVst {
  v_sec : msec ls (kmach s);
  v_free : kmem_ok kend l s;
  v_dir : dir_ok (kphys s) pd T;
  v_ent : forall v, vpn v -> entry (kphys s) T v = E v;
  v_nodup : NoDup (own pd T ++ R ++ l);
  v_pages : Forall (page_ok kend) (own pd T ++ R) }.

(** What may change: pages of the table and of the free list move, and only
    these are written to. *)
Record moved l s pd T l' s' T' : Prop := mkMoved {
  mv_frame : mframe (kmach s) (kmach s');
  mv_lock : use_lock s' = use_lock s;
  mv_perm : own pd T' ++ l' ≡ₚ own pd T ++ l;
  mv_mem : forall x, (forall p, p ∈ own pd T ++ l -> ~ in_page p x) -> kphys s' x = kphys s x }.

Lemma moved_refl l s pd T : moved l s pd T l s T.
Proof. by constructor. Qed.

Lemma moved_trans l s pd T l1 s1 T1 l2 s2 T2 :
  moved l s pd T l1 s1 T1 -> moved l1 s1 pd T1 l2 s2 T2 -> moved l s pd T l2 s2 T2.
Proof.
  intros [] []. constructor; [by etrans|congruence|by etrans|].
  intros x Hx. rewrite mv_mem1; [by apply mv_mem0|]. intros p. rewrite mv_perm0. apply Hx.
Qed.

Lemma vst_ext l s pd T E E' R : (forall v, vpn v -> E v = E' v) -> vst l s pd T E R -> vst l s pd T E' R.
Proof. intros H []. constructor; try done. intros v Hv. rewrite <- H by done. by apply v_ent0. Qed.

Lemma vst_perm l s pd T E R R' : R ≡ₚ R' -> vst l s pd T E R -> vst l s pd T E R'.
Proof. intros H []. constructor; try done; by rewrite <- H. Qed.

Lemma vst_free_ok l s pd T E R : vst l s pd T E R -> Forall (page_ok kend) (own pd T ++ R ++ l).
Proof. intros []. rewrite app_assoc. apply Forall_app. split; [done|]. apply v_free0. Qed.

Lemma own_pd pd T : pd ∈ own pd T.
Proof. left. Qed.

Lemma own_tab pd T i pt : T !! i = Some pt -> pt ∈ own pd T.
Proof. intros H. right. apply list_elem_of_fmap. exists (i, pt). split; [done|]. by apply elem_of_map_to_list. Qed.

Lemma own_insert pd T i pt : T !! i = None -> own pd (<[i := pt]> T) ≡ₚ pt :: own pd T.
Proof. intros H. unfold own. rewrite map_to_list_insert by done. simpl. apply Permutation_swap. Qed.

Lemma page_of l s pd T E R p : vst l s pd T E R -> p ∈ own pd T ++ R ++ l -> page_ok kend p.
Proof. intros V Hp. pose proof (vst_free_ok _ _ _ _ _ _ V) as H. rewrite Forall_forall in H. by apply H. Qed.

Lemma head_page p l s pd T E R : vst (p :: l) s pd T E R -> page_ok kend p.
Proof. intros V. apply (page_of _ _ _ _ _ _ _ V). set_solver. Qed.

Lemma tab_page l s pd T E R i pt : vst l s pd T E R -> T !! i = Some pt -> page_ok kend pt.
Proof. intros V H. apply (page_of _ _ _ _ _ _ _ V). apply elem_of_app. left. by eapply own_tab. Qed.

(** The tables are distinct pages, apart from the directory. *)
Lemma tab_inj l s pd T E R i j pt : vst l s pd T E R -> T !! i = Some pt -> T !! j = Some pt -> i = j.
Proof.
  intros V Hi Hj. destruct (decide (i = j)) as [|Hn]; [done|exfalso].
  pose proof (v_nodup _ _ _ _ _ _ V) as H. apply NoDup_app in H as [H _]. unfold own in H.
  apply NoDup_cons in H as [_ H]. revert H.
  rewrite <- (insert_id T i pt Hi), <- (insert_delete_eq T i pt).
  rewrite map_to_list_insert by apply lookup_delete_eq. simpl. intros [H _]%NoDup_cons. apply H.
  apply list_elem_of_fmap. exists (j, pt). split; [done|]. apply elem_of_map_to_list. by rewrite lookup_delete_ne.
Qed.

Lemma tab_ne_pd l s pd T E R i pt : vst l s pd T E R -> T !! i = Some pt -> pt ≠ pd.
Proof.
  intros V Hi ->. pose proof (v_nodup _ _ _ _ _ _ V) as H. apply NoDup_app in H as [H _].
  apply NoDup_cons in H as [H _]. apply H, list_elem_of_fmap. exists (i, pd). split; [done|].
  by apply elem_of_map_to_list.
Qed.

Lemma vpn_idx v : vpn v -> 0 <= v / 1024 < 1024 /\ 0 <= v mod 1024 < 1024.
Proof.
  intros [H1 H2]. split; [|apply Z.mod_pos_bound; lia].
  split; [apply Z.div_pos; lia|apply Z.div_lt_upper_bound; lia].
Qed.

Lemma entry_slot T v pt : vpn v -> T !! (v / 1024) = Some pt -> slot_in pt (entry_at T v).
Proof. intros Hv H. unfold entry_at. rewrite H. exists (v mod 1024). split; [by apply vpn_idx|done]. Qed.

(** The machine part of the state does not matter. *)
Lemma vst_mem l s pd T E R s' :
  vst l s pd T E R -> msec ls (kmach s') -> kmem_ok kend l s' -> kphys s' = kphys s -> vst l s' pd T E R.
Proof. intros [] H1 H2 H3. constructor; try done; by rewrite H3. Qed.

(** ** Writing an entry *)

Lemma kmem_phys l s mem : kmem_ok kend l s ->
  (forall p x, p ∈ l -> in_page p x -> mem x = kphys s x) -> kmem_ok kend l (set_kphys mem s).
Proof.
  intros [] H. constructor; try done. simpl. eapply chain_ext; [|done]. intros p x Hp Hx. symmetry. by apply (H p).
Qed.

Definition upd E (v x : Z) : Z -> Z := fun w => if decide (w = v) then x else E w.

Lemma vst_apart l s pd T E R p q x : vst l s pd T E R -> p ∈ own pd T ++ R ++ l -> q ∈ own pd T ++ R ++ l ->
  in_page p x -> in_page q x -> p = q.
Proof. intros V Hp Hq. apply (pages_apart kend); by eapply page_of. Qed.

Lemma free_not_own l s pd T E R p : vst l s pd T E R -> p ∈ own pd T -> p ∉ l.
Proof. intros V Hp Hl. pose proof (v_nodup _ _ _ _ _ _ V) as H. apply NoDup_app in H as (_ & H & _). set_solver. Qed.

Lemma store_outside a v mem p x : slot_in p a -> ~ in_page p x -> store32 a v mem x = mem x.
Proof.
  intros Hs Hx. unfold store32. case_match; [|done]. destruct Hx. apply (slot_bytes p a); [done|lia].
Qed.

Lemma vst_store l s pd T E R v pt val :
  vst l s pd T E R -> vpn v -> T !! (v / 1024) = Some pt -> 0 <= val < 4294967296 ->
  let s' := set_kphys (store32 (entry_at T v) val (kphys s)) s in
  vst l s' pd T (upd E v val) R /\ moved l s pd T l s' T.
Proof.
  intros V Hv HT Hval s'. pose proof V as []. pose proof (own_tab pd _ _ _ HT) as Ho.
  pose proof (entry_slot _ _ _ Hv HT) as Hs. pose proof (free_not_own _ _ _ _ _ _ _ V Ho) as Hl.
  assert (forall p, p ∈ own pd T -> page_ok kend p) as Hok by (intros; eapply page_of; [done|set_solver]).
  split.
  - constructor; try done; simpl.
    + apply kmem_phys; [done|]. intros p x Hp Hx. eapply store_outside; [exact Hs|]. intros Hx'. apply Hl.
      by rewrite (vst_apart _ _ _ _ _ _ pt p x V) by set_solver.
    + destruct v_dir0 as [D1 D2]. pose proof (tab_ne_pd _ _ _ _ _ _ _ _ V HT).
      assert (forall i, 0 <= i < 1024 ->
        load32 (store32 (entry_at T v) val (kphys s)) (pd + 4 * i) = load32 (kphys s) (pd + 4 * i)) as Hsame.
      { intros i Hi. apply load_store_ne. eapply (slot_apart kend pt pd); [by apply Hok|apply Hok, own_pd|done| |done]. by exists i. }
      constructor; intros i; [intros pt' Hi|intros Hi Hn].
      * destruct (D1 i pt' Hi) as [? ?]. by rewrite Hsame.
      * rewrite Hsame by done. by apply D2.
    + intros w Hw. unfold upd. destruct (decide (w = v)) as [->|Hne].
      { unfold entry, entry_at. rewrite HT. by apply load_store. }
      rewrite <- v_ent0 by done. unfold entry. destruct (T !! (w / 1024)) as [pt'|] eqn:Ew; [|done].
      apply load_store_ne. pose proof (entry_slot _ _ _ Hw Ew) as Hs'. unfold entry_at in *. rewrite HT, Ew in *.
      destruct (decide (pt = pt')) as [->|Hd].
      * pose proof (tab_inj _ _ _ _ _ _ _ _ _ V HT Ew) as He. pose proof (Z.div_mod v 1024). pose proof (Z.div_mod w 1024).
        destruct (vpn_idx v Hv), (vpn_idx w Hw). lia.
      * eapply (slot_apart kend pt pt'); [apply Hok|apply Hok|..]; try done. by eapply own_tab.
  - constructor; try done. intros x Hx. simpl. eapply store_outside; [exact Hs|]. apply Hx. set_solver.
Qed.

(** ** walkpgdir *)

Lemma tab_entry p : page_ok kend p ->
  Z.lor (Z.lor (Z.lor (V2P p) PTE_P) PTE_W) PTE_U = V2P p + 7 /\ V2P p mod PGSIZE = 0 /\ 0 <= V2P p < PHYSTOP /\
  P2V (V2P p) = p.
Proof.
  intros []. unfold V2P, P2V. assert (u32 (p - KERNBASE) = p - KERNBASE) as ->
    by (apply u32_small; unfold KERNBASE, PHYSTOP in *; lia).
  assert ((p - KERNBASE) mod PGSIZE = 0) as Hm.
  { unfold KERNBASE, PGSIZE in *. replace (p - 2147483648) with (p + (-524288) * 4096) by lia. by rewrite Z_mod_plus_full. }
  split_and!; [|done|unfold KERNBASE, PHYSTOP in *; lia..|].
  - rewrite <- !Z.lor_assoc, (page_div _ Hm). apply lor_page. done.
  - replace (p - KERNBASE + KERNBASE) with p by lia. apply u32_small. unfold KERNBASE, PHYSTOP in *. lia.
Qed.

(** The address of a table from its directory entry. *)
Lemma dir_addr p : page_ok kend p -> P2V (PTE_ADDR (V2P p + 7)) = p /\ present (V2P p + 7) = true.
Proof.
  intros Hp. destruct (tab_entry p Hp) as (_ & Hm & _ & Hv). rewrite (page_div _ Hm), PTE_ADDR_page by lia.
  rewrite <- (page_div _ Hm), Hv. split; [done|]. rewrite (page_div _ Hm), present_page. done.
Qed.

Lemma wp_peek_vm P a s Q : Q (load32 (kphys s) a) s -> wp P (peek a) s Q.
Proof. intros H. by apply wp_gets. Qed.

Lemma present_land e : negb (Z.land e PTE_P =? 0) = present e.
Proof. unfold present. by rewrite land_P. Qed.

(** Without [alloc], the entry's address or 0, and nothing changes. *)
Lemma wp_walk_look P l s pd T E R va Q :
  vst l s pd T E R -> 0 <= va < 4294967296 -> Q (entry_at T (va / 4096)) s -> wp P (walkpgdir pd va false) s Q.
Proof.
  intros V Hva HQ. destruct (PDX_eq va Hva) as [Hd Hr]. unfold walkpgdir. wp_next. apply wp_peek_vm.
  rewrite present_land, PTX_eq. unfold entry_at in HQ. destruct (v_dir _ _ _ _ _ _ V) as [D1 D2]. rewrite <- Hd in HQ.
  destruct (T !! PDX va) as [pt|] eqn:ET.
  - destruct (D1 _ _ ET) as [_ ->]. pose proof (tab_page _ _ _ _ _ _ _ _ V ET) as Hp.
    destruct (dir_addr pt Hp) as [-> ->]. by apply wp_ret.
  - rewrite (D2 _ Hr ET). cbn [negb]. by apply wp_ret.
Qed.

(** A page taken off the free list, zeroed, becomes the table of entry [i]. *)
Lemma vst_new_table p l s pd T E R i :
  vst (p :: l) s pd T E R -> forall s1, msec ls (kmach s1) -> kmem_ok kend l s1 -> kphys s1 = kphys s ->
  mframe (kmach s) (kmach s1) -> use_lock s1 = use_lock s ->
  0 <= i < 1024 -> T !! i = None ->
  let s' := set_kphys (store32 (pd + 4 * i) (V2P p + 7) (KString.memset (kphys s) p 0 PGSIZE)) s1 in
  vst l s' pd (<[i := p]> T) E R /\ moved (p :: l) s pd T l s' (<[i := p]> T).
Proof.
  intros V s1 Hs1 Hk1 Hm1 Hf1 Hu1 Hi HT s'. pose proof V as [].
  set (mem := KString.memset (kphys s) p 0 PGSIZE) in *.
  assert (forall x, ~ in_page p x -> mem x = kphys s x) as Hmem.
  { intros x Hx. unfold mem. rewrite KString.memset_spec. by rewrite decide_False. }
  assert (page_ok kend p) as Hp by (eapply page_of; [done|set_solver]).
  assert (page_ok kend pd) as Hpd by (eapply page_of; [done|set_solver]).
  assert (slot_in pd (pd + 4 * i)) as Hsl by (by exists i).
  assert (p ≠ pd) as Hne.
  { intros ->. apply (free_not_own _ _ _ _ _ _ pd V); [apply own_pd|left]. }
  assert (NoDup (own pd (<[i:=p]> T) ++ R ++ l)) as Hnd.
  { rewrite own_insert by done. simpl.
    assert (p :: own pd T ++ R ++ l ≡ₚ own pd T ++ R ++ p :: l) as -> by (rewrite !app_assoc; apply Permutation_middle). done. }
  assert (forall j, 0 <= j < 1024 -> j ≠ i -> load32 (kphys s') (pd + 4 * j) = load32 (kphys s) (pd + 4 * j)) as Hpde.
  { intros j Hj Hji. simpl. rewrite load_store_ne by lia. apply load32_same. intros x Hx. apply Hmem.
    intros Hx'. apply Hne. apply (pages_apart kend p pd x); [done|done|done|].
    apply (slot_bytes pd (pd + 4 * j)); [by exists j|done]. }
  assert (forall q x, q ∈ R ++ l \/ (q ∈ own pd T /\ q ≠ pd) -> in_page q x -> kphys s' x = kphys s x) as Hrest.
  { intros q x Hq Hx. simpl. assert (q ≠ p /\ q ≠ pd /\ page_ok kend q) as (Hqp & Hqd & Hqo).
    { rewrite own_insert in Hnd by done. simpl in Hnd. apply NoDup_cons in Hnd as [Hn1 Hnd]. apply NoDup_cons in Hnd as [Hn2 _].
      split_and!; [set_solver|set_solver|]. eapply page_of; [done|set_solver]. }
    rewrite (store_outside _ _ _ pd) by (done || intros H; apply Hqd; by apply (pages_apart kend q pd x)).
    apply Hmem. intros H. apply Hqp. by apply (pages_apart kend q p x). }
  split.
  - constructor; try done.
    + unfold s'. apply kmem_phys; [done|]. rewrite Hm1. intros q x Hq Hx. apply (Hrest q); [set_solver|done].
    + constructor; intros j.
      * intros pt Hj. destruct (decide (j = i)) as [->|Hji].
        { rewrite lookup_insert_eq in Hj. injection Hj as <-. split; [done|]. simpl. apply load_store.
          destruct (tab_entry p Hp) as (_ & _ & ? & _). unfold PHYSTOP in *. lia. }
        rewrite lookup_insert_ne in Hj by done. destruct (d_some _ _ _ v_dir0 j pt Hj) as [? <-]. split; [done|]. by apply Hpde.
      * intros Hj Hn. apply lookup_insert_None in Hn as [Hn Hji]. rewrite Hpde by done. by apply (d_none _ _ _ v_dir0).
    + intros v Hv. unfold entry. destruct (decide (v / 1024 = i)) as [Hvi|Hvi].
      * rewrite Hvi, lookup_insert_eq. rewrite <- v_ent0 by done. unfold entry. rewrite Hvi, HT.
        destruct (vpn_idx v Hv) as [_ Hx]. simpl. rewrite load_store_ne.
        2:{ apply (slot_apart kend pd p); [done|done|done| |done]. by exists (v mod 1024). }
        unfold load32, mem. rewrite !KString.memset_spec, !decide_True by (unfold PGSIZE; lia). done.
      * rewrite lookup_insert_ne by done. rewrite <- v_ent0 by done. unfold entry.
        destruct (T !! (v / 1024)) as [pt|] eqn:Ev; [|done]. destruct (vpn_idx v Hv) as [_ Hx].
        apply load32_same. intros x Hx'. apply (Hrest pt).
        { right. split; [by eapply own_tab|]. by eapply tab_ne_pd. }
        apply (slot_bytes pt (pt + 4 * (v mod 1024))); [by exists (v mod 1024)|done].
    + rewrite own_insert by done. simpl. by constructor.
  - constructor; [done|done| |].
    + rewrite own_insert by done. rewrite <- Permutation_middle. done.
    + intros x Hx. simpl. rewrite (store_outside _ _ _ pd) by (done || apply Hx; set_solver). apply Hmem, Hx. set_solver.
Qed.

(** With [alloc], the entry's address, with a new table if need be; or 0 when
    there is no page left. *)
Lemma wp_walk_alloc P l s pd T E R va Q :
  vst l s pd T E R -> 0 <= va < 4294967296 ->
  (forall s', l = [] -> T !! (va / 4096 / 1024) = None -> vst l s' pd T E R -> moved l s pd T l s' T -> Q 0 s') ->
  (forall l' s' T' pt, vst l' s' pd T' E R -> moved l s pd T l' s' T' -> T' !! (va / 4096 / 1024) = Some pt ->
     T' = T /\ l' = l \/ T !! (va / 4096 / 1024) = None /\ T' = <[va / 4096 / 1024 := pt]> T /\ l = pt :: l' ->
     Q (entry_at T' (va / 4096)) s') ->
  wp P (walkpgdir pd va true) s Q.
Proof.
  intros V Hva HQ0 HQ. destruct (PDX_eq va Hva) as [Hd Hr]. unfold walkpgdir. wp_next. apply wp_peek_vm.
  rewrite present_land, PTX_eq. destruct (v_dir _ _ _ _ _ _ V) as [D1 D2].
  destruct (T !! PDX va) as [pt|] eqn:ET.
  - destruct (D1 _ _ ET) as [_ ->]. pose proof (tab_page _ _ _ _ _ _ _ _ V ET) as Hp.
    destruct (dir_addr pt Hp) as [-> ->]. apply wp_ret.
    specialize (HQ l s T pt V (moved_refl _ _ _ _)). unfold entry_at in HQ. rewrite <- Hd, ET in HQ. apply HQ; [done|by left].
  - rewrite (D2 _ Hr ET). cbn [negb]. wp_next.
    apply (wp_kalloc kend _ ls l); [apply V|done|apply V|]. intros s1 Hs1 Hf1 Hk1 Hu1 Hm1.
    destruct l as [|p l]; cbn [head from_option id tail] in *.
    { apply wp_ret, HQ0; [done|by rewrite <- Hd|by eapply vst_mem|]. constructor; try done. intros. by rewrite Hm1. }
    pose proof (head_page _ _ _ _ _ _ _ V) as Hp.
    pose proof (page_range _ _ Hp). replace (p =? 0) with false by lia.
    wp_next. apply wp_modify. wp_next. apply wp_modify. apply wp_ret.
    destruct (tab_entry p Hp) as [-> _].
    destruct (vst_new_table p l s pd T E R (PDX va) V s1) as [V' M']; try done.
    specialize (HQ l _ _ p V' M'). unfold entry_at in HQ. rewrite <- Hd, lookup_insert_eq in HQ.
    rewrite <- Hm1 in HQ. apply HQ; [done|by right].
Qed.

(** ** mappages *)

(** The entries after [n] pages from [v] on were mapped to [pa] on. *)
Definition mapped E (v n pa perm : Z) : Z -> Z := fun w =>
  if decide (v <= w < v + n) then pte (pa + 4096 * (w - v)) perm else E w.

Lemma pte_range pa perm : 0 <= pa -> pa mod PGSIZE = 0 -> pa < 4294967296 -> 0 <= perm < 4096 ->
  0 <= pte pa perm < 4294967296.
Proof.
  intros H0 Ha Hm Hp. unfold pte. destruct (lor_1 perm Hp) as [? _]. unfold PGSIZE in *.
  pose proof (Z.div_mod pa 4096 ltac:(lia)). lia.
Qed.

Lemma pa_next pa : pa mod PGSIZE = 0 -> (pa + PGSIZE) mod PGSIZE = 0.
Proof. intros H. replace (pa + PGSIZE) with (pa + 1 * PGSIZE) by lia. by rewrite Z_mod_plus_full. Qed.

(** Whether there is a table for page [v] already. *)
Definition has T (v : Z) : Z := if decide (is_Some (T !! (v / 1024))) then 1 else 0.

Lemma has_bound T v : 0 <= has T v <= 1.
Proof. unfold has. case_decide; lia. Qed.

Lemma has_some T v pt : T !! (v / 1024) = Some pt -> has T v = 1.
Proof. intros H. unfold has. by rewrite decide_True by (rewrite H; eauto). Qed.

Lemma has_none T v : T !! (v / 1024) = None -> has T v = 0.
Proof. intros H. unfold has. rewrite decide_False; [done|]. rewrite H. by intros []. Qed.

Lemma next_dir_cases v : (v + 1) / 1024 = v / 1024 \/ (v + 1) / 1024 = v / 1024 + 1.
Proof.
  pose proof (Z.div_mod v 1024). pose proof (Z.mod_pos_bound v 1024). pose proof (Z.div_mod (v + 1) 1024).
  pose proof (Z.mod_pos_bound (v + 1) 1024). lia.
Qed.

(** The free pages used up by one step and by the rest of the loop. *)
Lemma used_step l l' T T' v pt D (m : Z) :
  T' = T /\ l' = l \/ T !! (v / 1024) = None /\ T' = <[v / 1024 := pt]> T /\ l = pt :: l' ->
  T' !! (v / 1024) = Some pt ->
  Z.of_nat (length l') + has T' (v + 1) <= D - (v + 1) / 1024 + m -> Z.of_nat (length l) + has T v <= D - v / 1024 + m.
Proof.
  intros Hc Hpt Hl. assert (has T' (v + 1) = 1 \/ (v + 1) / 1024 = v / 1024 + 1) as Hn.
  { destruct (next_dir_cases v) as [E|E]; [left|by right]. apply (has_some _ _ pt). by rewrite E. }
  pose proof (has_bound T' (v + 1)). pose proof (has_bound T v). destruct (next_dir_cases v).
  all: destruct Hc as [[-> ->]|(Hn0 & _ & ->)]; [|rewrite (has_none _ _ Hn0); simpl]; lia.
Qed.

Lemma wp_mappages_loop P n l s pd T E R v pa perm Q :
  vst l s pd T E R -> 0 <= v -> v + Z.of_nat n < 1048576 ->
  0 <= pa -> pa mod PGSIZE = 0 -> pa + 4096 * Z.of_nat n < 4294967296 -> 0 <= perm < 4096 ->
  (forall w, v <= w <= v + Z.of_nat n -> present (E w) = false) ->
  (forall l' s' T', vst l' s' pd T' (mapped E v (Z.of_nat n + 1) pa perm) R -> moved l s pd T l' s' T' ->
     Z.of_nat (length l) + has T v <= (v + Z.of_nat n) / 1024 - v / 1024 + (1 + Z.of_nat (length l')) -> Q 0 s') ->
  (forall j s' T', 0 <= j <= Z.of_nat n -> vst [] s' pd T' (mapped E v j pa perm) R -> moved l s pd T [] s' T' ->
     Z.of_nat (length l) + has T v <= (v + Z.of_nat n) / 1024 - v / 1024 + 0 -> Q (-1) s') ->
  wp P (mappages_loop (S n) pd (4096 * v) (4096 * (v + Z.of_nat n)) pa perm) s Q.
Proof.
  revert l s T E v pa. induction n as [|n IH]; intros l s T E v pa V Hv Hvn Hpa Hal Hpn Hperm HE HQ HQ1;
    assert (4096 * v / 4096 = v) as Hdv by (rewrite Z.mul_comm; apply Z.div_mul; lia);
    cbn [mappages_loop]; wp_next; (eapply wp_walk_alloc; [exact V|lia| |]; rewrite ?Hdv).
  1,3: intros s' -> Hno V' M'; apply wp_ret, (HQ1 0 s' T); [lia| |done|];
    [(eapply vst_ext; [|exact V']); intros w Hw; unfold mapped; by rewrite decide_False by lia|
     rewrite (has_none _ _ Hno); cbn [length];
     match goal with |- context [(?a + Z.of_nat ?k) / 1024] => pose proof (Z.div_le_mono a (a + Z.of_nat k) 1024) end; lia].
  all: intros l' s' T' pt V' M' Hpt Hcase;
    assert (vpn v) as Hvv by (unfold vpn; lia);
    pose proof (page_range _ _ (tab_page _ _ _ _ _ _ _ _ V' Hpt));
    assert (entry_at T' v ≠ 0) as Hnz by (unfold entry_at; rewrite Hpt; destruct (vpn_idx v Hvv); lia);
    replace (entry_at T' v =? 0) with false by lia; wp_next; apply wp_peek_vm;
    assert (load32 (kphys s') (entry_at T' v) = E v) as ->
      by (rewrite <- (v_ent _ _ _ _ _ _ V' v Hvv); unfold entry_at, entry; by rewrite Hpt);
    rewrite present_land, (HE v) by lia; wp_next; apply wp_modify; rewrite (pte_lor pa perm Hal Hperm);
    destruct (vst_store _ _ _ _ _ _ v pt (pte pa perm) V' Hvv Hpt) as [V2 M2]; [apply pte_range; (done || lia)|].
  - change (Z.of_nat 0) with 0 in *. rewrite Z.add_0_r, Z.eqb_refl. apply wp_ret.
    eapply HQ; [|by eapply moved_trans|].
    + eapply vst_ext; [|exact V2]. intros w Hw. unfold upd, mapped.
      repeat case_decide; try lia; try done; f_equal; lia.
    + rewrite Z.add_0_r. pose proof (has_bound T v).
      destruct Hcase as [[-> ->]|(Hn0 & _ & ->)]; [|rewrite (has_none _ _ Hn0); cbn [length]]; lia.
  - rewrite (proj2 (Z.eqb_neq (4096 * v) _)) by lia.
    rewrite (u32_small (pa + PGSIZE)) by (unfold PGSIZE; lia).
    rewrite u32_small by (unfold PGSIZE; lia). replace (4096 * v + PGSIZE) with (4096 * (v + 1)) by (unfold PGSIZE; lia).
    replace (v + Z.of_nat (S n)) with (v + 1 + Z.of_nat n) in * by lia.
    eapply IH; [exact V2|lia|lia|unfold PGSIZE; lia|by apply pa_next|unfold PGSIZE; lia|done| | |].
    + intros w Hw. unfold upd. rewrite decide_False by lia. apply HE. lia.
    + intros l3 s3 T3 V3 M3 L3. eapply HQ; [|do 2 (eapply moved_trans; [done|]); done|by apply (used_step _ _ _ _ _ pt _ _ Hcase Hpt)].
      eapply vst_ext; [|exact V3]. intros w Hw. unfold upd, mapped.
      repeat case_decide; try lia; try done; f_equal; unfold PGSIZE; lia.
    + intros j s3 T3 Hj V3 M3 L3.
      eapply (HQ1 (j + 1)); [lia| |do 2 (eapply moved_trans; [done|]); done|by apply (used_step _ _ _ _ _ pt _ _ Hcase Hpt)].
      eapply vst_ext; [|exact V3]. intros w Hw. unfold upd, mapped.
      repeat case_decide; try lia; try done; f_equal; unfold PGSIZE; lia.
Qed.

(** [mappages] of whole pages maps them all, or stops when memory runs out. *)
Lemma wp_mappages P n l s pd T E R v pa perm Q :
  vst l s pd T E R -> 0 <= v -> 0 < n -> v + n <= 1048576 ->
  0 <= pa -> pa mod PGSIZE = 0 -> pa + 4096 * n <= 4294967296 -> 0 <= perm < 4096 ->
  (forall w, v <= w < v + n -> present (E w) = false) ->
  let D := (v + n - 1) / 1024 - v / 1024 in
  (forall l' s' T', vst l' s' pd T' (mapped E v n pa perm) R -> moved l s pd T l' s' T' ->
     Z.of_nat (length l) + has T v <= D + 1 + Z.of_nat (length l') -> Q 0 s') ->
  (forall j s' T', 0 <= j < n -> vst [] s' pd T' (mapped E v j pa perm) R -> moved l s pd T [] s' T' ->
     Z.of_nat (length l) + has T v <= D -> Q (-1) s') ->
  wp P (mappages pd (4096 * v) (u32 (4096 * n)) pa perm) s Q.
Proof.
  intros V Hv Hn Hvn Hpa Hal Hpn Hperm HE D HQ HQ1. unfold mappages. rewrite PGROUNDDOWN_page.
  assert (u32 (4096 * v + u32 (4096 * n) - 1) = 4096 * (v + n - 1) + 4095) as ->.
  { replace (4096 * v + u32 (4096 * n) - 1) with (u32 (4096 * n) + (4096 * v - 1)) by lia.
    rewrite u32_add_l, u32_small by lia. lia. }
  unfold PGROUNDDOWN at 1 2. rewrite round_down_eq. destruct (page_off (v + n - 1) 4095 ltac:(lia)) as [-> _].
  replace (4096 * (v + n - 1) - 4096 * v) with ((n - 1) * PGSIZE) by (unfold PGSIZE; lia).
  rewrite u32_small, Z.div_mul by (unfold PGSIZE; lia).
  subst D. replace (v + n - 1) with (v + Z.of_nat (Z.to_nat (n - 1))) in * by lia.
  eapply wp_mappages_loop; [exact V|lia|lia|lia|done|lia|done|intros; apply HE; lia| |].
  - intros l' s' T' V' M' L'. eapply HQ; [|done|lia]. by replace (Z.of_nat (Z.to_nat (n - 1)) + 1) with n in V' by lia.
  - intros j s' T' Hj V' M' L'. eapply (HQ1 j); [lia|done|done|lia].
Qed.

End table.
