(* ===== verification/VmUser.v ===== *)
(** * The user part of an address space

    [allocuvm], [deallocuvm], [freevm], [setupkvm], [copyuvm] and [copyout]: the
    user pages of a page table as a map from page numbers to pages of memory. *)

From stdpp Require Import base numbers gmap sets list strings.
From S2P Require Import Prelude CString Spinlock ProcState Kalloc Vm VmTable.
Import Kalloc Vm.
Open Scope Z_scope.

(** The number of pages that [n] bytes need. *)
Definition pages (n : Z) : Z := (n + 4095) / 4096.

Lemma PGROUNDUP_eq n : 0 <= n -> n + 4095 < 4294967296 -> PGROUNDUP n = 4096 * pages n.
Proof.
  intros H1 H2. unfold PGROUNDUP, pages, PGSIZE. rewrite u32_small by lia.
  replace (n + 4096 - 1) with (n + 4095) by lia. apply round_down_eq.
Qed.

Lemma pages_lt n v : 4096 * v < n <-> v < pages n.
Proof.
  unfold pages. pose proof (Z.div_mod (n + 4095) 4096). pose proof (Z.mod_pos_bound (n + 4095) 4096). lia.
Qed.

Section user.
Context (kend : Z) (ls : gset lockid) (Hls : Lkmem ∉ ls) (Hkend : KERNBASE < kend).
Implicit Types (s : kmst) (T : gmap Z Z) (U : gmap Z (Z * Z)) (K : Z -> Z) (l R : list Z).
Notation vst := (vst kend ls).
Notation page_ok := (page_ok kend).

(** A change of memory outside of the page table, and of the use of pages. *)
Lemma vst_change l s pd T E R l' s' R' :
  vst l s pd T E R -> msec ls (kmach s') -> kmem_ok kend l' s' ->
  (forall q x, q ∈ own pd T -> in_page q x -> kphys s' x = kphys s x) ->
  own pd T ++ R' ++ l' ≡ₚ own pd T ++ R ++ l -> vst l' s' pd T E R'.
Proof.
  intros V Hs Hk Hm Hp. pose proof V as [].
  assert (forall q a, q ∈ own pd T -> slot_in q a -> load32 (kphys s') a = load32 (kphys s) a) as Hl.
  { intros q a Hq Ha. apply load32_same. intros x Hx. apply (Hm q); [done|]. by eapply slot_bytes. }
  constructor; try done.
  - destruct v_dir as [D1 D2]. constructor.
    + intros i pt Hi. destruct (D1 i pt Hi) as [Hr <-]. split; [done|]. apply (Hl pd); [apply own_pd|by exists i].
    + intros i Hi Hn. rewrite (Hl pd); [by apply D2|apply own_pd|by exists i].
  - intros v Hv. rewrite <- v_ent by done. unfold entry. destruct (T !! (v / 1024)) as [pt|] eqn:E1; [|done].
    apply (Hl pt); [by eapply own_tab|]. exists (v mod 1024). split; [by apply vpn_idx|done].
  - by rewrite Hp.
  - pose proof (vst_free_ok _ _ _ _ _ _ _ _ V) as H. rewrite <- Hp, app_assoc in H. by apply Forall_app in H as [H _].
Qed.

(** A page from the free list, and back. *)
Lemma vst_take p l s pd T E R s' :
  vst (p :: l) s pd T E R -> msec ls (kmach s') -> kmem_ok kend l s' -> kphys s' = kphys s ->
  vst l s' pd T E (p :: R).
Proof.
  intros V Hs Hk Hm. eapply vst_change; [exact V|done|done|by rewrite Hm|].
  f_equiv. simpl. apply Permutation_middle.
Qed.

Lemma vst_give p l s pd T E R s' :
  vst l s pd T E (p :: R) -> msec ls (kmach s') -> kmem_ok kend (p :: l) s' ->
  (forall x, ~ in_page p x -> kphys s' x = kphys s x) -> vst (p :: l) s' pd T E R.
Proof.
  intros V Hs Hk Hm. eapply vst_change; [exact V|done|done| |].
  - intros q x Hq Hx. apply Hm. intros Hx'. pose proof (v_nodup _ _ _ _ _ _ _ _ V) as Hn.
    apply NoDup_app in Hn as (_ & Hn & _). apply (Hn q Hq).
    rewrite (vst_apart _ _ _ _ _ _ _ _ q p x V) by (done || set_solver). left.
  - f_equiv. simpl. symmetry. apply Permutation_middle.
Qed.

Lemma vst_write p l s pd T E R mem :
  vst l s pd T E R -> p ∈ R -> (forall x, ~ in_page p x -> mem x = kphys s x) ->
  vst l (set_kphys mem s) pd T E R.
Proof.
  intros V Hp Hm. pose proof (v_nodup _ _ _ _ _ _ _ _ V) as Hn.
  assert (forall q x, q ∈ own pd T ++ l -> in_page q x -> mem x = kphys s x) as Hm'.
  { intros q x Hq Hx. apply Hm. intros Hx'.
    assert (q = p) as -> by (apply (vst_apart _ _ _ _ _ _ _ _ q p x V); (done || set_solver)).
    apply NoDup_app in Hn as (_ & Hn1 & Hn2). apply NoDup_app in Hn2 as (_ & Hn2 & _).
    apply elem_of_app in Hq as [Hq|Hq]; [apply (Hn1 p Hq); set_solver|by apply (Hn2 p)]. }
  eapply vst_change; [exact V|apply V| | |done].
  - apply kmem_phys; [apply V|]. intros q x Hq. apply Hm'. set_solver.
  - intros q x Hq. apply Hm'. set_solver.
Qed.

(** ** User pages *)

Definition KPAGE : Z := 524288.

(** The entries of a page table: those of the user pages [U], those of the
    kernel part [K]. *)
Definition uent U K (w : Z) : Z :=
  match U !! w with
  | Some (pg, f) => V2P pg + f
  | None => if decide (w < KPAGE) then 0 else K w
  end.

Definition uok U : Prop := forall w pg f, U !! w = Some (pg, f) -> 0 <= w < KPAGE /\ 0 <= f < 4096 /\ present f = true.

Definition upages U : list Z := (fun p => p.2.1) <$> map_to_list U.

Definition ust l s pd T U K R : Prop := vst l s pd T (uent U K) (upages U ++ R) /\ uok U.

Lemma upages_insert U w pg f : U !! w = None -> upages (<[w := (pg, f)]> U) ≡ₚ pg :: upages U.
Proof. intros H. unfold upages. by rewrite map_to_list_insert. Qed.

Lemma upages_delete U w pg f : U !! w = Some (pg, f) -> upages U ≡ₚ pg :: upages (delete w U).
Proof.
  intros H. rewrite <- (upages_insert (delete w U) w pg f) by apply lookup_delete_eq.
  by rewrite insert_delete_id.
Qed.

Lemma elem_upages U w pg f : U !! w = Some (pg, f) -> pg ∈ upages U.
Proof. intros H. rewrite (upages_delete U w pg f H). left. Qed.

Lemma upages_elem U pg : pg ∈ upages U -> exists w f, U !! w = Some (pg, f).
Proof.
  intros ([w [pg' f]] & -> & H)%list_elem_of_fmap. apply elem_of_map_to_list in H. by exists w, f.
Qed.

(** An entry of a user page: present, and the page's address and flags are in it. *)
Lemma upage_entry pg f : page_ok pg -> 0 <= f < 4096 ->
  P2V (PTE_ADDR (V2P pg + f)) = pg /\ PTE_ADDR (V2P pg + f) ≠ 0 /\ PTE_FLAGS (V2P pg + f) = f /\
  present (V2P pg + f) = present f /\ 0 <= V2P pg + f < 4294967296.
Proof.
  intros Hp Hf. destruct (tab_entry kend pg Hp) as (_ & Hm & Hr & Hv).
  rewrite (page_div _ Hm). rewrite PTE_ADDR_page, PTE_FLAGS_page, present_page by done. rewrite <- (page_div _ Hm).
  assert (V2P pg ≠ 0).
  { destruct Hp. unfold V2P. rewrite u32_small; unfold KERNBASE, PHYSTOP in *; lia. }
  unfold PHYSTOP in *. repeat split; try done; lia.
Qed.

Lemma ust_page l s pd T U K R w pg f : ust l s pd T U K R -> U !! w = Some (pg, f) -> page_ok pg.
Proof. intros [V _] H. apply (page_of _ _ _ _ _ _ _ _ _ V). pose proof (elem_upages _ _ _ _ H). set_solver. Qed.

(** A user page has a table. *)
Lemma ust_table l s pd T U K R w pg f : ust l s pd T U K R -> U !! w = Some (pg, f) ->
  exists pt, T !! (w / 1024) = Some pt.
Proof.
  intros US H. pose proof US as [V HU]. destruct (HU _ _ _ H) as (Hw & Hf & Hp).
  pose proof (v_ent _ _ _ _ _ _ _ _ V w ltac:(unfold vpn, KPAGE in *; lia)) as He. unfold uent in He. rewrite H in He.
  unfold entry in He. destruct (T !! (w / 1024)) as [pt|]; [eauto|].
  destruct (upage_entry pg f (ust_page _ _ _ _ _ _ _ _ _ _ US H) Hf) as (_ & _ & _ & Hq & _). by rewrite <- He, Hp in Hq.
Qed.

(** Changes of the whole address space.  Only its pages and the free list are
    touched, and no user page that stays. *)
Record umoved l s pd T U l' s' T' U' : Prop := mkUmoved {
  um_frame : mframe (kmach s) (kmach s');
  um_lock : use_lock s' = use_lock s;
  um_perm : own pd T' ++ upages U' ++ l' ≡ₚ own pd T ++ upages U ++ l;
  um_mem : forall x, (forall p, p ∈ own pd T ++ upages U ++ l -> ~ in_page p x) -> kphys s' x = kphys s x;
  um_keep : forall w pg f x, U !! w = Some (pg, f) -> U' !! w = Some (pg, f) -> in_page pg x -> kphys s' x = kphys s x }.

Lemma umoved_refl l s pd T U : umoved l s pd T U l s T U.
Proof. by constructor. Qed.

Lemma umoved_trans l s pd T U l1 s1 T1 U1 l2 s2 T2 U2 :
  umoved l s pd T U l1 s1 T1 U1 -> umoved l1 s1 pd T1 U1 l2 s2 T2 U2 ->
  (forall w e, U !! w = Some e -> U2 !! w = Some e -> U1 !! w = Some e) -> umoved l s pd T U l2 s2 T2 U2.
Proof.
  intros [F1 L1 P1 M1 K1] [F2 L2 P2 M2 K2] HU. constructor; [by etrans|congruence|by etrans| |].
  - intros x Hx. rewrite M2; [by apply M1|]. intros p. rewrite P1. apply Hx.
  - intros w pg f x H0 H2 Hx. pose proof (HU _ _ H0 H2) as H1. rewrite (K2 w pg f x); [|done..]. by apply (K1 w pg f).
Qed.

(** Two distinct user pages do not overlap; nor do they with the others. *)
Lemma upage_apart l s pd T U K R w pg f q x : ust l s pd T U K R -> U !! w = Some (pg, f) -> in_page pg x ->
  q ∈ own pd T ++ R ++ l -> ~ in_page q x.
Proof.
  intros [V _] H Hx Hq Hx'. pose proof (elem_upages _ _ _ _ H) as Hin. pose proof (v_nodup _ _ _ _ _ _ _ _ V) as Hn.
  assert (pg = q) as -> by (apply (vst_apart _ _ _ _ _ _ _ _ pg q x V); (done || set_solver)).
  apply NoDup_app in Hn as (_ & Hn1 & Hn2). rewrite <- app_assoc in Hn2, Hn1. apply NoDup_app in Hn2 as (_ & Hn2 & _).
  apply elem_of_app in Hq as [Hq|Hq]; [apply (Hn1 q Hq)|apply (Hn2 q Hin)]; set_solver.
Qed.

Lemma upage_inj l s pd T U K R w w' pg f f' : ust l s pd T U K R ->
  U !! w = Some (pg, f) -> U !! w' = Some (pg, f') -> w = w'.
Proof.
  intros [V _] H H'. destruct (decide (w = w')) as [|Hne]; [done|exfalso].
  pose proof (v_nodup _ _ _ _ _ _ _ _ V) as Hn. apply NoDup_app in Hn as (_ & _ & Hn). rewrite <- app_assoc in Hn.
  apply NoDup_app in Hn as (Hn & _). rewrite (upages_delete U w pg f H) in Hn. apply NoDup_cons in Hn as [Hn _].
  apply Hn. apply (elem_upages _ w' _ f'). by rewrite lookup_delete_ne.
Qed.

Lemma upages_distinct l s pd T U K R w w' pg f pg' f' x : ust l s pd T U K R ->
  U !! w = Some (pg, f) -> U !! w' = Some (pg', f') -> w ≠ w' -> in_page pg x -> ~ in_page pg' x.
Proof.
  intros US H H' Hne Hx Hx'. apply Hne. assert (pg = pg') as ->; [|by eapply upage_inj].
  apply (pages_apart kend pg pg' x); [by eapply ust_page|by eapply ust_page|done|done].
Qed.

(** *** deallocuvm *)

Definition ucut U (lo hi : Z) : gmap Z (Z * Z) := filter (fun p => ~ (lo <= p.1 < hi)) U.

Lemma ucut_lookup U lo hi w : ucut U lo hi !! w = if decide (lo <= w < hi) then None else U !! w.
Proof.
  unfold ucut. case_decide as H.
  - apply map_lookup_filter_None. right. intros e _. simpl. tauto.
  - destruct (U !! w) as [e|] eqn:E.
    + apply map_lookup_filter_Some. by split.
    + apply map_lookup_filter_None. by left.
Qed.

Lemma uok_sub U U' : uok U -> (forall w e, U' !! w = Some e -> U !! w = Some e) -> uok U'.
Proof. intros H HU w pg f Hw. apply (H w pg f). by apply HU. Qed.

(** One page freed. *)
Lemma wp_unmap P l s pd T U K R w pg f pt Q :
  ust l s pd T U K R -> U !! w = Some (pg, f) -> T !! (w / 1024) = Some pt ->
  (forall l' s', ust l' s' pd T (delete w U) K R -> umoved l s pd T U l' s' T (delete w U) -> Q tt s') ->
  wp P (kfree kend pg;; poke (entry_at T w) 0) s Q.
Proof.
  intros US H HT HQ. pose proof US as [V HU]. destruct (HU _ _ _ H) as (Hw & Hf & Hpr).
  assert (vpn w) as Hv by (unfold vpn, KPAGE in *; lia). pose proof (upages_delete U w pg f H) as Hperm.
  wp_next. apply (wp_kfree kend _ ls l); [apply V|done|apply V|by eapply ust_page| |].
  { intros Hl. pose proof (v_nodup _ _ _ _ _ _ _ _ V) as Hn. rewrite Hperm in Hn. apply NoDup_app in Hn as (_ & _ & Hn).
    simpl in Hn. apply NoDup_cons in Hn as [Hn _]. set_solver. }
  intros s1 Hs1 Hf1 Hk1 Hu1 Hm1. apply wp_modify.
  assert (vst (pg :: l) s1 pd T (uent U K) (upages (delete w U) ++ R)) as V1.
  { eapply vst_give; [|done|done|exact Hm1]. eapply vst_perm; [|exact V]. by rewrite Hperm. }
  destruct (vst_store kend ls Hls (pg :: l) s1 pd T _ _ w pt 0 V1 Hv HT ltac:(lia)) as [V2 M2]. apply (HQ (pg :: l)).
  - split; [|eapply uok_sub; [done|]; intros w' e; rewrite lookup_delete_Some; tauto].
    eapply vst_ext; [|exact V2]. intros w' Hw'. unfold upd, uent. destruct (decide (w' = w)) as [->|Hne].
    + rewrite lookup_delete_eq, decide_True by lia. done.
    + by rewrite lookup_delete_ne.
  - destruct M2. constructor; [by etrans|by etrans| | |].
    + rewrite Hperm. f_equiv. simpl. symmetry. apply Permutation_middle.
    + intros x Hx. rewrite mv_mem.
      * apply Hm1, Hx. rewrite Hperm. set_solver.
      * intros p Hp. apply Hx. rewrite Hperm. set_solver.
    + intros w' pg' f' x H1 H2 Hx. apply lookup_delete_Some in H2 as [Hne H2].
      assert (~ in_page pg x) as Hpg by (eapply upages_distinct; [exact US|exact H1|exact H|done|done]).
      rewrite mv_mem; [by apply Hm1|]. intros p Hp. apply elem_of_app in Hp as [Hp|Hp].
      * apply (upage_apart _ _ _ _ _ _ _ _ _ _ p x US H1 Hx). set_solver.
      * apply elem_of_cons in Hp as [->|Hp]; [done|]. apply (upage_apart _ _ _ _ _ _ _ _ _ _ p x US H1 Hx). set_solver.
Qed.

Lemma next_dir v : 0 <= v < KPAGE ->
  u32 (u32 (PGADDR (PDX (4096 * v) + 1) 0 0 - PGSIZE) + PGSIZE) = 4096 * (1024 * (v / 1024 + 1)).
Proof.
  intros Hv. unfold KPAGE in *. destruct (PDX_eq (4096 * v) ltac:(lia)) as [-> _].
  rewrite (Z.mul_comm 4096 v), Z.div_mul by lia. unfold PGADDR. rewrite Z.shiftl_0_l, !Z.lor_0_r, Z.shiftl_mul_pow2 by lia.
  change (2 ^ 22) with 4194304.
  assert (0 <= v / 1024 < 512) by (split; [apply Z.div_pos; lia|apply Z.div_lt_upper_bound; lia]).
  rewrite u32_add_l. replace (u32 ((v / 1024 + 1) * 4194304) - PGSIZE + PGSIZE) with (u32 ((v / 1024 + 1) * 4194304)) by lia.
  rewrite u32_idem, u32_small by lia. lia.
Qed.

Lemma no_table l s pd T U K R w : ust l s pd T U K R -> T !! (w / 1024) = None -> U !! w = None.
Proof.
  intros US H. destruct (U !! w) as [[pg f]|] eqn:E; [|done].
  destruct (ust_table _ _ _ _ _ _ _ _ _ _ US E) as [pt Hpt]. congruence.
Qed.

Lemma ucut_step U v v' hi : v <= v' -> (forall w, v <= w < v' -> w < hi -> U !! w = None) -> ucut U v' hi = ucut U v hi.
Proof.
  intros Hv HU. apply map_eq. intros w. rewrite !ucut_lookup. repeat case_decide; try lia; try done. apply HU; lia.
Qed.

Lemma wp_deallocuvm_loop P n l s pd T U K R v oldsz Q :
  ust l s pd T U K R -> 0 <= v -> 0 <= oldsz <= KERNBASE -> (Z.to_nat (pages oldsz - v) < n)%nat ->
  (forall l' s', ust l' s' pd T (ucut U v (pages oldsz)) K R ->
     umoved l s pd T U l' s' T (ucut U v (pages oldsz)) -> Q tt s') ->
  wp P (deallocuvm_loop kend n pd (4096 * v) oldsz) s Q.
Proof.
  revert l s U v. induction n as [|n IH]; intros l s U v US Hv Hsz Hn HQ; [lia|]. cbn [deallocuvm_loop].
  pose proof US as [V HU]. pose proof (pages_lt oldsz v) as Hlt.
  destruct (4096 * v <? oldsz) eqn:Ha.
  2:{ apply wp_ret. assert (ucut U v (pages oldsz) = U) as Hc
        by (apply map_eq; intros w; rewrite ucut_lookup, decide_False by lia; done).
      rewrite Hc in HQ. apply (HQ l); [done|apply umoved_refl]. }
  assert (0 <= v < KPAGE) as Hk by (unfold KPAGE, KERNBASE in *; lia).
  assert (vpn v) as Hvv by (unfold vpn, KPAGE in *; lia).
  assert (4096 * v / 4096 = v) as Hdv by (rewrite Z.mul_comm; apply Z.div_mul; lia).
  wp_next. eapply (wp_walk_look kend ls); [exact V|unfold KPAGE in *; lia|]. rewrite Hdv.
  destruct (T !! (v / 1024)) as [pt|] eqn:HT.
  - pose proof (page_range _ _ (tab_page _ _ _ _ _ _ _ _ _ _ V HT)).
    assert (entry_at T v ≠ 0) by (unfold entry_at; rewrite HT; destruct (vpn_idx v Hvv); lia).
    replace (entry_at T v =? 0) with false by lia. wp_next. apply wp_peek_vm.
    assert (load32 (kphys s) (entry_at T v) = uent U K v) as ->
      by (rewrite <- (v_ent _ _ _ _ _ _ _ _ V v Hvv); unfold entry_at, entry; by rewrite HT).
    rewrite present_land. rewrite u32_small by (unfold KPAGE, PGSIZE in *; lia).
    replace (4096 * v + PGSIZE) with (4096 * (v + 1)) by (unfold PGSIZE; lia). wp_next.
    destruct (U !! v) as [[pg f]|] eqn:EU.
    + destruct (HU _ _ _ EU) as (_ & Hf & Hpr). unfold uent. rewrite EU.
      destruct (upage_entry pg f (ust_page _ _ _ _ _ _ _ _ _ _ US EU) Hf) as (Ea & Enz & _ & Ep & _).
      rewrite Ep, Hpr. unfold when. replace (PTE_ADDR (V2P pg + f) =? 0) with false by lia. rewrite Ea.
      eapply wp_unmap; [exact US|exact EU|exact HT|]. intros l1 s1 US1 M1.
      assert (ucut (delete v U) (v + 1) (pages oldsz) = ucut U v (pages oldsz)) as Hc.
      { apply map_eq. intros w. rewrite !ucut_lookup. destruct (decide (w = v)) as [->|Hne].
        - rewrite decide_False, decide_True by lia. apply lookup_delete_eq.
        - rewrite lookup_delete_ne by done. repeat case_decide; try lia; done. }
      apply (IH _ _ _ _ US1); [lia|done|lia|]. rewrite Hc. intros l2 s2 US2 M2. apply (HQ l2); [done|].
      eapply umoved_trans; [done|done|]. intros w e _. rewrite ucut_lookup, lookup_delete_Some.
      case_decide; [done|]. intros He. split; [lia|done].
    + unfold uent. rewrite EU, decide_True by lia. change (present 0) with false. unfold when. apply wp_ret.
      apply (IH _ _ _ _ US); [lia|done|lia|]. rewrite (ucut_step U v (v + 1)); [done|lia|].
      intros w Hw _. by replace w with v by lia.
  - unfold entry_at. rewrite HT. rewrite Z.eqb_refl, next_dir by done.
    pose proof (Z.div_mod v 1024 ltac:(lia)). pose proof (Z.mod_pos_bound v 1024 ltac:(lia)).
    apply (IH _ _ _ _ US); [lia|done|lia|]. rewrite (ucut_step U v (1024 * (v / 1024 + 1))); [done|lia|].
    intros w Hw _. eapply no_table; [exact US|]. replace (w / 1024) with (v / 1024); [done|].
    apply (Z.div_unique w 1024 _ (w - 1024 * (v / 1024))); lia.
Qed.

Lemma wp_deallocuvm P l s pd T U K R oldsz newsz Q :
  ust l s pd T U K R -> 0 <= newsz -> 0 <= oldsz <= KERNBASE ->
  (newsz >= oldsz -> Q oldsz s) ->
  (forall l' s', newsz < oldsz -> ust l' s' pd T (ucut U (pages newsz) (pages oldsz)) K R ->
     umoved l s pd T U l' s' T (ucut U (pages newsz) (pages oldsz)) -> Q newsz s') ->
  wp P (deallocuvm kend pd oldsz newsz) s Q.
Proof.
  intros US Hn Ho HQ1 HQ2. unfold deallocuvm. destruct (newsz >=? oldsz) eqn:E; [apply wp_ret, HQ1; lia|].
  rewrite PGROUNDUP_eq by (unfold KERNBASE in *; lia). wp_next.
  eapply wp_deallocuvm_loop; [exact US| |done| |].
  - apply Z.div_pos; lia.
  - unfold pages, PGSIZE. pose proof (Z.div_mod (oldsz + 4095) 4096 ltac:(lia)).
    pose proof (Z.mod_pos_bound (oldsz + 4095) 4096 ltac:(lia)). pose proof (Z.div_mod oldsz 4096 ltac:(lia)).
    pose proof (Z.mod_pos_bound oldsz 4096 ltac:(lia)). pose proof (Z.div_pos (newsz + 4095) 4096). lia.
  - intros l' s' US' M'. apply wp_ret. eapply HQ2; [lia|done|done].
Qed.

(** *** allocuvm *)

(** A page that is not in use yet gets mapped. *)
Lemma wp_map_user P l s pd T U K R v pg perm Q :
  ust l s pd T U K (pg :: R) -> 0 <= v < KPAGE -> U !! v = None -> 0 <= perm < 4096 ->
  (forall l' s' T', ust l' s' pd T' (<[v := (pg, Z.lor perm 1)]> U) K R -> moved l s pd T l' s' T' ->
     (length l <= S (length l'))%nat -> Q 0 s') ->
  (forall s' T', l = [] -> ust [] s' pd T' U K (pg :: R) -> moved l s pd T [] s' T' -> Q (-1) s') ->
  wp P (mappages pd (4096 * v) PGSIZE (V2P pg) perm) s Q.
Proof.
  intros [V HU] Hv Hn Hp HQ HQ1. change PGSIZE with (u32 (4096 * 1)).
  assert (page_ok pg) as Hpg by (apply (page_of _ _ _ _ _ _ _ _ _ V); set_solver).
  destruct (tab_entry kend pg Hpg) as (_ & Hm & Hr & _). destruct (lor_1 perm Hp) as [Hl1 Hl2].
  eapply (wp_mappages kend ls Hls); [exact V|lia|lia|unfold KPAGE in *; lia|lia|done|unfold PHYSTOP in *; lia|done| | |].
  - intros w Hw. replace w with v by lia. unfold uent. rewrite Hn, decide_True by lia. done.
  - intros l' s' T' V' M' L'. eapply HQ; [|exact M'|].
    2:{ replace (v + 1 - 1) with v in L' by lia. pose proof (has_bound T v). lia. }
    split.
    + eapply vst_ext; [|eapply vst_perm; [|exact V']].
      * intros w Hw. unfold mapped, uent, pte. destruct (decide (w = v)) as [->|Hne].
        -- rewrite decide_True, lookup_insert_eq by lia. lia.
        -- rewrite decide_False, lookup_insert_ne by lia. done.
      * rewrite upages_insert by done. simpl. symmetry. apply Permutation_middle.
    + intros w pg' f Hw. destruct (decide (w = v)) as [->|Hne].
      * rewrite lookup_insert_eq in Hw. injection Hw as <- <-. split; [done|]. split; [done|]. unfold present. by rewrite Hl2.
      * rewrite lookup_insert_ne in Hw by done. by apply (HU w pg').
  - intros j s' T' Hj V' M' L'. eapply HQ1; [|split; [|done]|exact M'].
    { replace (v + 1 - 1) with v in L' by lia. pose proof (has_bound T v). destruct l; [done|simpl in L'; lia]. }
    eapply vst_ext; [|exact V'].
    intros w _. unfold mapped. by rewrite decide_False by lia.
Qed.

(** New pages [lo] to [hi], all zero. *)
Definition filled U U' (lo hi : Z) (mem : Z -> Z) : Prop :=
  (forall w, ~ (lo <= w < hi) -> U' !! w = U !! w) /\
  (forall w, lo <= w < hi -> exists pg, U' !! w = Some (pg, 7) /\ forall x, in_page pg x -> mem x = 0).

Lemma moved_user l s pd T U K R l' s' T' pg v f :
  ust (pg :: l) s pd T U K R -> U !! v = None ->
  forall s1, mframe (kmach s) (kmach s1) -> use_lock s1 = use_lock s ->
  (forall x, ~ in_page pg x -> kphys s1 x = kphys s x) -> moved l s1 pd T l' s' T' ->
  umoved (pg :: l) s pd T U l' s' T' (<[v := (pg, f)]> U).
Proof.
  intros US Hn s1 Hf1 Hu1 Hm1 []. constructor; [by etrans|by etrans| | |].
  - rewrite upages_insert by done. rewrite (Permutation_app_comm (pg :: upages U)), app_assoc, mv_perm. simpl.
    rewrite <- app_assoc. simpl. f_equiv. f_equiv. rewrite Permutation_app_comm. simpl.
    by rewrite <- Permutation_middle.
  - intros x Hx. rewrite mv_mem; [apply Hm1, Hx; set_solver|]. intros p Hp. apply Hx. set_solver.
  - intros w pg' f' x H1 H2 Hx. assert (w ≠ v) by (intros ->; congruence).
    assert (forall q, q ∈ own pd T ++ pg :: l -> ~ in_page q x) as Ha.
    { intros q Hq. apply (upage_apart _ _ _ _ _ _ _ _ _ _ q x US H1 Hx). set_solver. }
    rewrite mv_mem; [apply Hm1, Ha; set_solver|]. intros p Hp. apply Ha. set_solver.
Qed.

(** A page taken off the free list, with new contents. *)
Lemma ust_take pg l s pd T U K R s1 mem :
  ust (pg :: l) s pd T U K R -> msec ls (kmach s1) -> kmem_ok kend l s1 -> kphys s1 = kphys s ->
  (forall x, ~ in_page pg x -> mem x = kphys s1 x) -> ust l (set_kphys mem s1) pd T U K (pg :: R).
Proof.
  intros [V HU] Hs Hk Hm Hx. split; [|done]. apply (vst_write pg); [|set_solver|done].
  eapply vst_perm; [|eapply vst_take; [exact V|done..]]. apply Permutation_middle.
Qed.

Lemma ust_head pg l s pd T U K R : ust (pg :: l) s pd T U K R -> page_ok pg.
Proof. intros [V _]. by eapply head_page. Qed.

Lemma memset_page s1 pg x : ~ in_page pg x -> KString.memset (kphys s1) pg 0 PGSIZE x = kphys s1 x.
Proof. intros H. rewrite KString.memset_spec. by rewrite decide_False. Qed.

(** Freeing a page in hand. *)
Lemma ust_give pg l s pd T U K R s1 :
  ust l s pd T U K (pg :: R) -> msec ls (kmach s1) -> kmem_ok kend (pg :: l) s1 ->
  (forall x, ~ in_page pg x -> kphys s1 x = kphys s x) -> ust (pg :: l) s1 pd T U K R.
Proof.
  intros [V HU] Hs Hk Hm. split; [|done]. eapply vst_give; [|done..].
  eapply vst_perm; [|exact V]. symmetry. apply Permutation_middle.
Qed.

Lemma ust_hand pg l s pd T U K R : ust l s pd T U K (pg :: R) -> page_ok pg /\ pg ∉ l.
Proof.
  intros [V HU]. split; [apply (page_of _ _ _ _ _ _ _ _ _ V); set_solver|]. intros Hl.
  pose proof (v_nodup _ _ _ _ _ _ _ _ V) as Hn. apply NoDup_app in Hn as (_ & _ & Hn). apply NoDup_app in Hn as (_ & Hn & _).
  apply (Hn pg); [set_solver|done].
Qed.

Lemma hand_apart pg l s pd T U K R x q : ust l s pd T U K (pg :: R) -> in_page pg x -> q ∈ own pd T ++ l -> ~ in_page q x.
Proof.
  intros [V _] Hx Hq Hx'. pose proof (v_nodup _ _ _ _ _ _ _ _ V) as Hn.
  assert (q = pg) as -> by (apply (vst_apart _ _ _ _ _ _ _ _ q pg x V); [set_solver|set_solver|done|done]).
  apply NoDup_app in Hn as (_ & Hn1 & Hn2). apply NoDup_app in Hn2 as (_ & Hn2 & _).
  apply elem_of_app in Hq as [Hq|Hq]; [apply (Hn1 pg Hq)|apply (Hn2 pg)]; set_solver.
Qed.

Lemma wp_free_hand P pg l s pd T U K R Q :
  ust l s pd T U K (pg :: R) ->
  (forall s', ust (pg :: l) s' pd T U K R -> mframe (kmach s) (kmach s') -> use_lock s' = use_lock s ->
     (forall x, ~ in_page pg x -> kphys s' x = kphys s x) -> Q tt s') ->
  wp P (kfree kend pg) s Q.
Proof.
  intros US HQ. destruct (ust_hand _ _ _ _ _ _ _ _ US) as [Hp Hl]. apply (wp_kfree kend _ ls l); [apply US|done|apply US|done|done|].
  intros s' H1 H2 H3 H4 H5. apply HQ; try done. by eapply ust_give.
Qed.

(** Moves while a page is in hand, and when it is freed then. *)
Lemma umoved_hand l s pd T U pg l1 s1 T1 U1 l2 s2 T2 U2 :
  umoved l s pd T U (pg :: l1) s1 T1 U1 -> umoved l1 s1 pd T1 U1 l2 s2 T2 U2 ->
  (forall w e, U !! w = Some e -> U2 !! w = Some e -> U1 !! w = Some e) -> umoved l s pd T U (pg :: l2) s2 T2 U2.
Proof.
  intros [F1 L1 P1 M1 K1] [F2 L2 P2 M2 K2] HU. constructor; [by etrans|congruence| | |].
  - rewrite <- P1, !app_assoc, <- !Permutation_middle, <- !app_assoc. by f_equiv.
  - intros x Hx. rewrite M2; [by apply M1|]. intros p Hp. apply Hx. rewrite <- P1. set_solver.
  - intros w pg' f x H0 H2 Hx. pose proof (HU _ _ H0 H2) as H1. rewrite (K2 w pg' f x); [|done..]. by apply (K1 w pg' f).
Qed.

Lemma umoved_free l s pd T U pg l1 s1 T1 U1 K R s2 :
  umoved l s pd T U (pg :: l1) s1 T1 U1 -> ust l1 s1 pd T1 U1 K (pg :: R) ->
  mframe (kmach s1) (kmach s2) -> use_lock s2 = use_lock s1 ->
  (forall x, ~ in_page pg x -> kphys s2 x = kphys s1 x) -> umoved l s pd T U (pg :: l1) s2 T1 U1.
Proof.
  intros [F1 L1 P1 M1 K1] US Hf Hu Hm. constructor; [by etrans|congruence|done| |].
  - intros x Hx. rewrite Hm; [by apply M1|]. apply Hx. rewrite <- P1. set_solver.
  - intros w pg' f x H0 H1 Hx. rewrite Hm; [by apply (K1 w pg' f)|].
    apply (upage_apart _ _ _ _ _ _ _ _ _ _ pg x US H1 Hx). set_solver.
Qed.

Lemma moved_hand l s pd T U K R l' s' T' pg :
  ust (pg :: l) s pd T U K R ->
  forall s1, mframe (kmach s) (kmach s1) -> use_lock s1 = use_lock s ->
  (forall x, ~ in_page pg x -> kphys s1 x = kphys s x) -> moved l s1 pd T l' s' T' ->
  umoved (pg :: l) s pd T U (pg :: l') s' T' U.
Proof.
  intros US s1 Hf1 Hu1 Hm1 []. constructor; [by etrans|by etrans| | |].
  - rewrite !(Permutation_app_comm (upages U)). rewrite !app_assoc. f_equiv.
    rewrite <- !Permutation_middle. by f_equiv.
  - intros x Hx. rewrite mv_mem; [apply Hm1, Hx; set_solver|]. intros p Hp. apply Hx. set_solver.
  - intros w pg' f' x H1 H2 Hx.
    assert (forall q, q ∈ own pd T ++ pg :: l -> ~ in_page q x) as Ha.
    { intros q Hq. apply (upage_apart _ _ _ _ _ _ _ _ _ _ q x US H1 Hx). set_solver. }
    rewrite mv_mem; [apply Hm1, Ha; set_solver|]. intros p Hp. apply Ha. set_solver.
Qed.

Lemma umoved_same l s pd T U s' : mframe (kmach s) (kmach s') -> use_lock s' = use_lock s -> kphys s' = kphys s ->
  umoved l s pd T U l s' T U.
Proof. intros H1 H2 H3. constructor; try done; intros; by rewrite H3. Qed.

(** [kalloc], filling the page and [mappages] together: there is no page left, or
    none for a page table (then the page is still in hand), or it is mapped. *)
Lemma wp_new_page P {A} l s pd T U K R v perm (bytes : Z -> (Z -> Z) -> Z -> Z) (fail0 next : M kmst A)
    (fail : Z -> M kmst A) Q :
  ust l s pd T U K R -> 0 <= v < KPAGE -> U !! v = None -> 0 <= perm < 4096 ->
  (forall mem pg x, ~ in_page pg x -> bytes pg mem x = mem x) ->
  (forall s', l = [] -> ust [] s' pd T U K R -> umoved l s pd T U [] s' T U -> wp P fail0 s' Q) ->
  (forall pg s' T', l = [pg] -> ust [] s' pd T' U K (pg :: R) -> umoved l s pd T U [pg] s' T' U -> wp P (fail pg) s' Q) ->
  (forall pg l' s' T', ust l' s' pd T' (<[v := (pg, Z.lor perm 1)]> U) K R ->
     umoved l s pd T U l' s' T' (<[v := (pg, Z.lor perm 1)]> U) -> (length l <= S (S (length l')))%nat ->
     (forall x, in_page pg x -> kphys s' x = bytes pg (kphys s) x) -> wp P next s' Q) ->
  wp P (mem ← kalloc;
        if mem =? 0 then fail0 else
        modify (fun s => set_kphys (bytes mem (kphys s)) s);;
        r ← mappages pd (4096 * v) PGSIZE (V2P mem) perm;
        if r <? 0 then fail mem else next) s Q.
Proof.
  intros US Hv HU Hp Hb H0 H1 H2. pose proof US as [V _]. wp_next. apply (wp_kalloc kend _ ls l); [apply V|done|apply V|].
  intros s1 Hs1 Hf1 Hk1 Hu1 Hm1. destruct l as [|pg l]; cbn [head from_option id tail] in *.
  { apply H0; [done| |by apply umoved_same]. destruct US as [_ Hok]. split; [by eapply vst_mem|done]. }
  pose proof (ust_head _ _ _ _ _ _ _ _ US) as Hpg. pose proof (page_range _ _ Hpg). replace (pg =? 0) with false by lia.
  wp_next. apply wp_modify. set (s2 := set_kphys (bytes pg (kphys s1)) s1).
  assert (ust l s2 pd T U K (pg :: R)) as US2 by (eapply ust_take; [exact US|done|done|done|by apply Hb]).
  assert (forall x, ~ in_page pg x -> kphys s2 x = kphys s x) as Hm2.
  { intros x Hx. simpl. rewrite Hb, Hm1 by done. done. }
  wp_next. eapply wp_map_user; [exact US2|done|done|done| |].
  - intros l' s' T' US' M' L'. change (0 <? 0) with false. cbv iota. eapply H2; [exact US'| |simpl; lia|].
    + by eapply (moved_user _ _ _ _ _ _ _ _ _ _ _ _ _ US HU s2).
    + intros x Hx. destruct M'. rewrite mv_mem; [simpl; by rewrite Hm1|]. intros p Hin.
      by apply (hand_apart _ _ _ _ _ _ _ _ _ _ US2 Hx).
  - intros s' T' -> US' M'. change (-1 <? 0) with true. cbv iota. eapply H1; [done|exact US'|].
    by eapply (moved_hand _ _ _ _ _ _ _ _ _ _ _ US s2).
Qed.

Lemma wp_allocuvm_loop P n l s pd T U K R v oldsz newsz Q :
  ust l s pd T U K R -> 0 <= oldsz <= newsz -> newsz < KERNBASE -> pages oldsz <= v ->
  (Z.to_nat (pages newsz - v) < n)%nat -> (forall w, v <= w < pages newsz -> U !! w = None) ->
  (forall l' s' T' U', ust l' s' pd T' U' K R -> umoved l s pd T U l' s' T' U' ->
     filled U U' v (pages newsz) (kphys s') -> Z.of_nat (length l) <= Z.of_nat (length l') + 2 * Z.max 0 (pages newsz - v) -> Q newsz s') ->
  (forall l' s' T', Z.of_nat (length l) < 2 * (pages newsz - v) ->
     ust l' s' pd T' (ucut U (pages oldsz) (pages newsz)) K R ->
     umoved l s pd T U l' s' T' (ucut U (pages oldsz) (pages newsz)) -> Q 0 s') ->
  wp P (allocuvm_loop kend n pd (4096 * v) oldsz newsz) s Q.
Proof.
  revert l s T U v. induction n as [|n IH]; intros l s T U v US Hsz Hk Hv Hn HU HQ HQ0; [lia|]. cbn [allocuvm_loop].
  assert (0 <= pages oldsz) by (apply Z.div_pos; lia). pose proof (pages_lt newsz v) as Hlt.
  destruct (4096 * v <? newsz) eqn:Ha.
  2:{ apply wp_ret. apply (HQ l s T U US (umoved_refl _ _ _ _ _)); [|lia]. split; [done|]. intros w Hw. lia. }
  assert (0 <= v < KPAGE) as Hvk by (unfold KPAGE, KERNBASE in *; lia).
  assert (oldsz < newsz) as Hlt' by (pose proof (pages_lt newsz (pages oldsz)); pose proof (pages_lt oldsz (pages oldsz)); lia).
  apply (wp_new_page P l s pd T U K R v 6 (fun pg mem => KString.memset mem pg 0 PGSIZE)); [done|done|apply HU; lia|lia| | | |].
  - intros mem pg x Hx. rewrite KString.memset_spec. by rewrite decide_False.
  - intros s1 -> US1 M1. wp_next. eapply wp_deallocuvm; [exact US1|lia|lia|lia|]. intros l2 s2 _ US2 M2. apply wp_ret.
    eapply HQ0; [cbn [length]; lia|exact US2|]. eapply umoved_trans; [exact M1|exact M2|done].
  - intros pg s1 T1 -> US1 M1. wp_next. eapply wp_deallocuvm; [exact US1|lia|lia|lia|]. intros l2 s2 _ US2 M2.
    pose proof (umoved_hand _ _ _ _ _ _ _ _ _ _ _ _ _ _ M1 M2 ltac:(done)) as M3.
    wp_next. eapply wp_free_hand; [exact US2|]. intros s3 US3 Hf3 Hu3 Hm3. apply wp_ret.
    eapply HQ0; [cbn [length]; lia|exact US3|]. by eapply umoved_free.
  - intros pg l1 s1 T1 US1 M1 Hlen Hz. change (Z.lor 6 1) with 7 in *.
    rewrite u32_small by (unfold KPAGE, PGSIZE in *; lia).
    replace (4096 * v + PGSIZE) with (4096 * (v + 1)) by (unfold PGSIZE; lia).
    pose proof (HU v ltac:(lia)) as HUv.
    assert (ucut (<[v := (pg, 7)]> U) (pages oldsz) (pages newsz) = ucut U (pages oldsz) (pages newsz)) as Hc.
    { apply map_eq. intros w. rewrite !ucut_lookup. case_decide; [done|]. rewrite lookup_insert_ne by lia. done. }
    assert (forall w e, U !! w = Some e -> <[v := (pg, 7)]> U !! w = Some e) as Hsub.
    { intros w e Hw. rewrite lookup_insert_ne; [done|]. intros ->. congruence. }
    apply (IH _ _ _ _ _ US1); [done|done|lia|lia| | |].
    + intros w Hw. rewrite lookup_insert_ne by lia. apply HU. lia.
    + intros l2 s2 T2 U2 US2 M2 [F1 F2] L2. eapply HQ; [exact US2| | |lia].
      * eapply umoved_trans; [exact M1|exact M2|]. intros w e Hw _. by apply Hsub.
      * split.
        -- intros w Hw. rewrite F1 by lia. rewrite lookup_insert_ne by lia. done.
        -- intros w Hw. destruct (decide (w = v)) as [->|Hne]; [|apply F2; lia].
           assert (U2 !! v = Some (pg, 7)) as Hv2 by (rewrite F1 by lia; apply lookup_insert_eq).
           exists pg. split; [done|]. intros x Hx.
           rewrite (um_keep _ _ _ _ _ _ _ _ _ M2 v pg 7 x); [|apply lookup_insert_eq|done|done].
           rewrite Hz by done. rewrite KString.memset_spec, decide_True by done. done.
    + intros l2 s2 T2 Hl2. rewrite Hc. intros US2 M2. eapply HQ0; [lia|exact US2|].
      eapply umoved_trans; [exact M1|exact M2|]. intros w e Hw _. by apply Hsub.
Qed.

Lemma wp_allocuvm P l s pd T U K R oldsz newsz Q :
  ust l s pd T U K R -> 0 <= oldsz < KERNBASE -> 0 <= newsz -> (forall w, pages oldsz <= w -> U !! w = None) ->
  (newsz >= KERNBASE -> Q 0 s) -> (newsz < oldsz -> Q oldsz s) ->
  (forall l' s' T' U', oldsz <= newsz < KERNBASE -> ust l' s' pd T' U' K R -> umoved l s pd T U l' s' T' U' ->
     filled U U' (pages oldsz) (pages newsz) (kphys s') ->
     Z.of_nat (length l) <= Z.of_nat (length l') + 2 * Z.max 0 (pages newsz - pages oldsz) -> Q newsz s') ->
  (forall l' s' T', Z.of_nat (length l) < 2 * (pages newsz - pages oldsz) ->
     ust l' s' pd T' U K R -> umoved l s pd T U l' s' T' U -> Q 0 s') ->
  wp P (allocuvm kend pd oldsz newsz) s Q.
Proof.
  intros US Ho Hn HU H1 H2 HQ HQ0. unfold allocuvm. destruct (newsz >=? KERNBASE) eqn:E1; [apply wp_ret, H1; lia|].
  destruct (newsz <? oldsz) eqn:E2; [apply wp_ret, H2; lia|]. rewrite PGROUNDUP_eq by (unfold KERNBASE in *; lia).
  assert (ucut U (pages oldsz) (pages newsz) = U) as Hc.
  { apply map_eq. intros w. rewrite ucut_lookup. case_decide; [|done]. symmetry. apply HU. lia. }
  eapply wp_allocuvm_loop; [exact US|lia|lia|lia| | | |].
  - unfold pages, PGSIZE. pose proof (Z.div_mod (newsz + 4095) 4096 ltac:(lia)).
    pose proof (Z.mod_pos_bound (newsz + 4095) 4096 ltac:(lia)). pose proof (Z.div_mod newsz 4096 ltac:(lia)).
    pose proof (Z.mod_pos_bound newsz 4096 ltac:(lia)). pose proof (Z.div_pos (oldsz + 4095) 4096). lia.
  - intros w Hw. apply HU. lia.
  - intros l' s' T' U' US' M' F' L'. eapply HQ; [lia|done|done|done|done].
  - rewrite Hc. intros l' s' T' L' US' M'. by eapply HQ0.
Qed.

End user.
