(* ===== verification/VmSpace.v ===== *)
(** * Whole address spaces: [freevm], [setupkvm], [copyuvm] *)

From stdpp Require Import base numbers gmap sets list strings.
From S2P Require Import Prelude CString Spinlock ProcState Kalloc Vm VmTable VmUser.
Import Kalloc Vm.
Open Scope Z_scope.

Section space.
Context (kend kdata : Z) (ls : gset lockid) (Hls : Lkmem ∉ ls) (Hkend : KERNBASE < kend).
Implicit Types (s : kmst) (T : gmap Z Z) (U : gmap Z (Z * Z)) (K : Z -> Z) (l R : list Z).
Notation vst := (vst kend ls).
Notation ust := (ust kend ls).
Notation page_ok := (page_ok kend).

(** The pages [P] went back to the free list. *)
Record released (P : list Z) l s l' s' : Prop := mkRel {
  rl_sec : msec ls (kmach s');
  rl_free : kmem_ok kend l' s';
  rl_frame : mframe (kmach s) (kmach s');
  rl_lock : use_lock s' = use_lock s;
  rl_perm : l' ≡ₚ P ++ l;
  rl_mem : forall x, (forall p, p ∈ P ++ l -> ~ in_page p x) -> kphys s' x = kphys s x }.

(** *** freevm *)

Definition tabs T (todo : list nat) : list Z := omap (fun i => T !! Z.of_nat i) todo.

Lemma tabs_elem T todo pt : pt ∈ tabs T todo <-> exists i, i ∈ todo /\ T !! Z.of_nat i = Some pt.
Proof. unfold tabs. apply list_elem_of_omap. Qed.

Lemma tabs_all l s pd T E R : vst l s pd T E R -> tabs T (seq 0 NPDENTRIES) ≡ₚ (map_to_list T).*2.
Proof.
  intros V. apply NoDup_Permutation.
  - assert (forall todo, NoDup todo -> NoDup (tabs T todo)) as H; [|apply H, NoDup_seq].
    induction 1 as [|i todo Hi _ IH]; [constructor|]. cbn. destruct (T !! Z.of_nat i) as [pt|] eqn:E1; [|done].
    constructor; [|done]. intros Hin. apply tabs_elem in Hin as (j & Hj & E2).
    pose proof (tab_inj _ _ _ _ _ _ _ _ _ _ _ V E1 E2) as He. assert (i = j) as -> by lia. done.
  - pose proof (v_nodup _ _ _ _ _ _ _ _ V) as H. apply NoDup_app in H as [H _]. by apply NoDup_cons in H as [_ H].
  - intros pt. rewrite tabs_elem, list_elem_of_fmap. split.
    + intros (i & _ & H). exists (Z.of_nat i, pt). split; [done|]. by apply elem_of_map_to_list.
    + intros ([i pt'] & -> & H). apply elem_of_map_to_list in H. destruct (d_some _ _ _ (v_dir _ _ _ _ _ _ _ _ V) _ _ H) as [Hi _].
      exists (Z.to_nat i). rewrite elem_of_seq, Z2Nat.id by lia. unfold NPDENTRIES. split; [lia|done].
Qed.

Lemma own_nodup l s pd T E R : vst l s pd T E R -> page_ok pd /\ NoDup (pd :: (map_to_list T).*2 ++ l).
Proof.
  intros V. split; [apply (page_of _ _ _ _ _ _ _ _ _ V), elem_of_app; left; apply own_pd|].
  pose proof (v_nodup _ _ _ _ _ _ _ _ V) as Vn. unfold own in Vn. simpl in Vn.
  apply NoDup_cons in Vn as [N1 N2]. apply NoDup_app in N2 as (N2 & N3 & N4).
  apply NoDup_app in N4 as (_ & _ & N4). constructor; [set_solver|]. apply NoDup_app. split_and!; [done|set_solver|done].
Qed.

(** The loop that frees the tables. *)
Lemma wp_free_tables P l s pd T E R Q :
  vst l s pd T E R ->
  (forall l' s', released (map_to_list T).*2 l s l' s' -> NoDup (pd :: l') ->
     (forall x, in_page pd x -> kphys s' x = kphys s x) -> Q tt s') ->
  wp P (mfor (seq 0 NPDENTRIES) (fun i =>
    e ← peek (pd + 4 * Z.of_nat i);
    when (negb (Z.land e PTE_P =? 0)) (kfree kend (P2V (PTE_ADDR e))))) s Q.
Proof.
  intros V HQ. pose proof (tabs_all _ _ _ _ _ _ V) as Htabs. pose proof V as [Vs Vf [D1 D2] _ Vn Vp].
  destruct (own_nodup _ _ _ _ _ _ V) as [Hpd Hnd].
  apply (wp_mfor _ (fun todo s1 => todo `suffix_of` seq 0 NPDENTRIES /\ exists l1, msec ls (kmach s1) /\ mframe (kmach s) (kmach s1) /\
    use_lock s1 = use_lock s /\ kmem_ok kend l1 s1 /\ tabs T todo ++ l1 ≡ₚ (map_to_list T).*2 ++ l /\
    (forall x, in_page pd x -> kphys s1 x = kphys s x) /\
    (forall x, (forall p, p ∈ (map_to_list T).*2 ++ l -> ~ in_page p x) -> kphys s1 x = kphys s x))).
  - split; [done|]. exists l. rewrite Htabs. done.
  - intros i todo s1 [Hsuf (l1 & H1 & H2 & H3 & H4 & H5 & H6 & H7)].
    assert (0 <= Z.of_nat i < 1024) as Hi.
    { assert (i ∈ seq 0 NPDENTRIES) as Hin by (destruct Hsuf as [k ->]; apply elem_of_app; right; left). apply elem_of_seq in Hin. unfold NPDENTRIES in Hin. lia. }
    assert (todo `suffix_of` seq 0 NPDENTRIES) as Hsuf' by (eapply suffix_cons_l; exact Hsuf).
    wp_next. apply wp_peek_vm. rewrite present_land.
    assert (load32 (kphys s1) (pd + 4 * Z.of_nat i) = load32 (kphys s) (pd + 4 * Z.of_nat i)) as ->.
    { apply load32_same. intros x Hx. apply H6. eapply slot_bytes; [|exact Hx]. by exists (Z.of_nat i). }
    unfold tabs in H5. cbn in H5. destruct (T !! Z.of_nat i) as [pt|] eqn:ET.
    + destruct (D1 _ _ ET) as [_ ->]. assert (page_ok pt) as Hpt by (by eapply tab_page).
      destruct (dir_addr kend pt Hpt) as [-> ->]. unfold when. fold (tabs T todo) in H5.
      assert (NoDup (pd :: pt :: tabs T todo ++ l1)) as Hn1 by (rewrite <- H5 in Hnd; done).
      apply NoDup_cons in Hn1 as [Hn1 Hn2]. apply NoDup_cons in Hn2 as [Hn2 _].
      apply (wp_kfree kend _ ls l1); [done|done|done|done|intros ?; apply Hn2, elem_of_app; by right|]. intros s2 G1 G2 G3 G4 G5.
      split; [done|]. exists (pt :: l1). split_and!; [done|by etrans|congruence|done| | |].
      * rewrite <- H5. simpl. symmetry. apply Permutation_middle.
      * intros x Hx. rewrite G5; [by apply H6|]. intros Hx'. apply Hn1. rewrite (pages_apart kend pd pt x) by done. left.
      * intros x Hx. rewrite G5; [by apply H7|]. apply Hx. rewrite <- H5. left.
    + rewrite (D2 _ Hi ET). unfold when. apply wp_ret. split; [done|]. by exists l1.
  - intros s1 [_ (l1 & H1 & H2 & H3 & H4 & H5 & H6 & H7)]. cbn in H5. apply (HQ l1); [by constructor| |done]. by rewrite H5.
Qed.

Lemma wp_freevm P l s pd T U K R Q :
  ust l s pd T U K R -> (forall l' s', released (own pd T ++ upages U) l s l' s' -> Q tt s') -> wp P (freevm kend pd) s Q.
Proof.
  intros US HQ. pose proof US as [V HU]. destruct (own_nodup _ _ _ _ _ _ V) as [Hpd _].
  pose proof (page_range _ _ Hpd). unfold freevm. replace (pd =? 0) with false by lia.
  assert (ucut U (pages 0) (pages KERNBASE) = ∅) as Hc.
  { apply map_eq. intros w. rewrite ucut_lookup, lookup_empty. case_decide as Hw; [done|].
    destruct (U !! w) as [[pg f]|] eqn:E; [|done]. destruct (HU _ _ _ E) as (Hk & _). exfalso. apply Hw. exact Hk. }
  wp_next. eapply (wp_deallocuvm kend ls Hls Hkend); [exact US|lia|unfold KERNBASE; lia|unfold KERNBASE; lia|].
  rewrite Hc. intros l1 s1 _ [V1 _] [F1 L1 P1 M1 _]. cbn in V1, P1.
  wp_next. eapply wp_free_tables; [exact V1|]. intros l2 s2 [G1 G2 G3 G4 G5 G6] Hn2 Hm2.
  apply NoDup_cons in Hn2 as [Hn2 _]. apply (wp_kfree kend _ ls l2); [done|done|done|done|done|].
  intros s3 J1 J2 J3 J4 J5. apply (HQ (pd :: l2)).
  assert (pd :: l2 ≡ₚ (own pd T ++ upages U) ++ l) as Hperm.
  { rewrite <- app_assoc, <- P1. unfold own. simpl. by rewrite G5. }
  constructor; [done|done|by do 2 (etrans; [done|])|congruence|done|].
  intros x Hx. rewrite J5 by (apply Hx; rewrite <- Hperm; left). rewrite G6.
  - apply M1. intros p. rewrite app_assoc. apply Hx.
  - intros p Hp. apply Hx. rewrite <- app_assoc, <- P1. right. exact Hp.
Qed.

(** *** setupkvm *)

Context (Hdata : KERNLINK < kdata < KERNBASE + PHYSTOP) (Hdal : kdata mod PGSIZE = 0).

(** The entries [setupkvm] makes, by the comment above [kmap] in vm.c. *)
Definition kernel_entry (w : Z) : Z :=
  if decide (524288 <= w < 524544) then pte (4096 * (w - 524288)) PTE_W
  else if decide (524544 <= w < kdata / 4096) then pte (4096 * (w - 524288)) 0
  else if decide (kdata / 4096 <= w < 581632) then pte (4096 * (w - 524288)) PTE_W
  else if decide (1040384 <= w < 1048576) then pte (4096 * w) PTE_W
  else 0.

(** A directory that was just zeroed. *)
Lemma vst_empty p l s R s1 :
  kmem_ok kend (p :: l) s -> NoDup (R ++ p :: l) -> Forall page_ok R ->
  msec ls (kmach s1) -> kmem_ok kend l s1 ->
  vst l (set_kphys (KString.memset (kphys s1) p 0 PGSIZE) s1) p ∅ (fun _ => 0) R.
Proof.
  intros Hk0 Hn HR Hs1 Hk1. pose proof (ok_pages _ _ _ Hk0) as Hp. apply Forall_cons in Hp as [Hp Hl].
  constructor; try done.
  - apply kmem_phys; [done|]. intros q x Hq Hx. apply memset_page. intros Hx'.
    rewrite Forall_forall in Hl. assert (q = p) as -> by (apply (pages_apart kend q p x); auto).
    apply NoDup_app in Hn as (_ & _ & Hn). by apply NoDup_cons in Hn as [? _].
  - constructor; [intros i pt; by rewrite lookup_empty|]. intros i Hi _. simpl. unfold load32.
    rewrite !KString.memset_spec, !decide_True by (unfold PGSIZE; lia). done.
  - simpl. rewrite map_to_list_empty. simpl. by rewrite Permutation_middle.
  - simpl. rewrite map_to_list_empty. simpl. by constructor.
Qed.

Lemma released_moved l s pd T l1 s1 T1 l2 s2 :
  moved l s pd T l1 s1 T1 -> released (own pd T1) l1 s1 l2 s2 -> released (own pd T) l s l2 s2.
Proof.
  intros [] []. constructor; [done|done|by etrans|congruence|by etrans|].
  intros x Hx. rewrite rl_mem0; [by apply mv_mem|]. intros p. rewrite mv_perm. apply Hx.
Qed.

Definition low_clear (E : Z -> Z) : Prop := forall w, w < KPAGE -> E w = 0.

Lemma low_ust l s pd T E R : vst l s pd T E R -> low_clear E -> ust l s pd T ∅ E R.
Proof.
  intros V HE. split; [|intros w pg f; by rewrite lookup_empty]. cbn. eapply vst_ext; [|exact V].
  intros w _. unfold uent. rewrite lookup_empty. case_decide; [by apply HE|done].
Qed.

Lemma mapped_low E v n pa perm : KPAGE <= v -> low_clear E -> low_clear (mapped E v n pa perm).
Proof. intros Hv HE w Hw. unfold mapped. rewrite decide_False by lia. by apply HE. Qed.

(** One entry of [kmap]. *)
Lemma wp_kmap P l s pd T E R va pa v n ph pm size (rest : M kmst Z) Q :
  va = 4096 * v -> pa = 4096 * ph -> vst l s pd T E R -> low_clear E -> KPAGE <= v -> 0 < n -> v + n <= 1048576 -> 0 <= ph -> ph + n <= 1048576 ->
  0 <= pm < 4096 -> size = u32 (4096 * n) -> (forall w, v <= w < v + n -> E w = 0) ->
  let D := (v + n - 1) / 1024 - v / 1024 in
  (forall l' s', Z.of_nat (length l) <= D -> released (own pd T) l s l' s' -> Q 0 s') ->
  (forall l' s' T', Z.of_nat (length l) <= D + 1 + Z.of_nat (length l') ->
     vst l' s' pd T' (mapped E v n (4096 * ph) pm) R -> low_clear (mapped E v n (4096 * ph) pm) ->
     moved l s pd T l' s' T' -> wp P rest s' Q) ->
  wp P (r ← mappages pd va size pa pm; if r <? 0 then freevm kend pd;; mret 0 else rest) s Q.
Proof.
  intros -> -> V HE Hv Hn Hvn Hp Hpn Hpm -> He D HQ0 HQ. pose proof (has_bound T v). wp_next.
  eapply (wp_mappages kend ls Hls); [exact V|unfold KPAGE in *; lia|lia|lia|lia| |lia|done| | |].
  - unfold PGSIZE. rewrite Z.mul_comm. apply Z.mod_mul. lia.
  - intros w Hw. by rewrite He.
  - intros l' s' T' V' M' L'. change (0 <? 0) with false. cbv iota. eapply HQ; [|exact V'| |exact M']; [lia|by apply mapped_low].
  - intros j s' T' Hj V' M' L'. change (-1 <? 0) with true. cbv iota. wp_next.
    eapply wp_freevm; [eapply low_ust; [exact V'|by apply mapped_low]|]. intros l2 s2 HR. apply wp_ret.
    eapply HQ0; [lia|]. eapply released_moved; [exact M'|]. cbn in HR. by rewrite app_nil_r in HR.
Qed.

(** A new address space, all from the free list [l]. *)
Record built l s pd T U l' s' : Prop := mkBuilt {
  bt_frame : mframe (kmach s) (kmach s');
  bt_lock : use_lock s' = use_lock s;
  bt_perm : own pd T ++ upages U ++ l' ≡ₚ l;
  bt_mem : forall x, (forall p, p ∈ l -> ~ in_page p x) -> kphys s' x = kphys s x }.

Lemma built_moved l s pd T U l1 s1 l2 s2 T2 U2 :
  built l s pd T U l1 s1 -> umoved l1 s1 pd T U l2 s2 T2 U2 -> built l s pd T2 U2 l2 s2.
Proof.
  intros [] []. constructor; [by etrans|congruence|by rewrite um_perm|].
  intros x Hx. rewrite um_mem; [by apply bt_mem0|]. intros p. rewrite bt_perm0. apply Hx.
Qed.

Lemma built_released l s pd T U l1 s1 l2 s2 :
  built l s pd T U l1 s1 -> released (own pd T ++ upages U) l1 s1 l2 s2 -> released [] l s l2 s2.
Proof.
  intros [] []. constructor; [done|done|by etrans|congruence|by rewrite rl_perm0, <- app_assoc|].
  intros x Hx. rewrite rl_mem0; [by apply bt_mem0|]. intros p. rewrite <- app_assoc, bt_perm0. apply Hx.
Qed.

Lemma moved_built l s pd T l1 s1 l2 s2 T2 :
  built l s pd T ∅ l1 s1 -> moved l1 s1 pd T l2 s2 T2 -> built l s pd T2 ∅ l2 s2.
Proof.
  intros [F1 L1 P1 M1] []. cbn in P1. constructor; [by etrans|congruence|cbn; by rewrite mv_perm|].
  intros x Hx. rewrite mv_mem; [by apply M1|]. intros p. rewrite P1. apply Hx.
Qed.

Lemma kdata_pages : kdata = 4096 * (kdata / 4096) /\ 524544 < kdata / 4096 < 581632.
Proof.
  pose proof (page_div kdata Hdal) as H. unfold KERNLINK, KERNBASE, EXTMEM, PHYSTOP in Hdata. split; [done|]. lia.
Qed.

(** The directory entries of the four ranges. *)
Lemma kdata_dirs :
  (524288 + 256 - 1) / 1024 - 524288 / 1024 = 0 /\
  (524544 + (kdata / 4096 - 524544) - 1) / 1024 - 524544 / 1024 +
    ((kdata / 4096 + (581632 - kdata / 4096) - 1) / 1024 - kdata / 4096 / 1024) <= 55 /\
  0 <= (524544 + (kdata / 4096 - 524544) - 1) / 1024 - 524544 / 1024 /\
  0 <= (kdata / 4096 + (581632 - kdata / 4096) - 1) / 1024 - kdata / 4096 / 1024 /\
  (1040384 + 8192 - 1) / 1024 - 1040384 / 1024 = 7.
Proof.
  destruct kdata_pages as [_ H]. set (k := kdata / 4096) in *.
  replace (524544 + (k - 524544) - 1) with (k - 1) by lia. replace (k + (581632 - k) - 1) with 581631 by lia.
  change (524544 / 1024) with 512. change (581631 / 1024) with 567.
  pose proof (Z.div_le_mono (k - 1) k 1024). pose proof (Z.div_le_mono 524544 (k - 1) 1024 ltac:(lia) ltac:(lia)).
  pose proof (Z.div_le_mono k 581631 1024 ltac:(lia) ltac:(lia)).
  change (524544 / 1024) with 512 in *. change (581631 / 1024) with 567 in *. repeat split; try reflexivity; lia.
Qed.

(** [setupkvm] needs at most this many pages. *)
Definition KPAGES : Z := 67.

Lemma wp_setupkvm P l s R Q :
  msec ls (kmach s) -> kmem_ok kend l s -> NoDup (R ++ l) -> Forall page_ok R ->
  (forall l' s', Z.of_nat (length l) < KPAGES -> released [] l s l' s' -> Q 0 s') ->
  (forall pd T l' s', Z.of_nat (length l) <= KPAGES + Z.of_nat (length l') ->
     ust l' s' pd T ∅ kernel_entry R -> built l s pd T ∅ l' s' -> pd ≠ 0 -> Q pd s') ->
  wp P (setupkvm kend kdata) s Q.
Proof.
  intros Hs Hk Hnd HR HQ0 HQ. destruct kdata_pages as [Hkd Hkr]. unfold setupkvm. wp_next.
  apply (wp_kalloc kend _ ls l); [done|done|done|]. intros s1 Hs1 Hf1 Hk1 Hu1 Hm1.
  destruct l as [|pd l]; cbn [head from_option id tail] in *.
  { apply wp_ret, (HQ0 []); [done|]. constructor; try done. intros. by rewrite Hm1. }
  pose proof (vst_empty pd l s R s1 Hk Hnd HR Hs1 Hk1) as V0.
  assert (page_ok pd) as Hpd by (apply (page_of _ _ _ _ _ _ _ _ _ V0), elem_of_app; left; apply own_pd).
  pose proof (page_range _ _ Hpd). replace (pd =? 0) with false by lia.
  wp_next. apply wp_modify. set (s2 := set_kphys _ s1) in *.
  assert (built (pd :: l) s pd ∅ ∅ l s2) as B0.
  { constructor; try done. intros x Hx. simpl. rewrite memset_page, Hm1; [done|]. apply Hx. left. }
  clearbody s2. clear Hm1 Hu1 Hf1 Hk1 Hs1 s1.
  assert (forall l1 s1 T1, built (pd :: l) s pd T1 ∅ l1 s1 ->
    forall l' s', Z.of_nat (length l) < KPAGES - 1 -> released (own pd T1) l1 s1 l' s' -> Q 0 s') as HF.
  { intros l1 s1 T1 B1 l' s' HL1 HR1. apply (HQ0 l'); [cbn [length]; lia|]. eapply built_released; [exact B1|]. cbn. by rewrite app_nil_r. }
  replace (P2V PHYSTOP >? DEVSPACE) with false by reflexivity. unfold kmaps. cbn [setupkvm_loop virt phys_start phys_end perm].
  pose proof kdata_dirs as HD.
  assert (V2P kdata = 4096 * (kdata / 4096 - 524288)) as Hvd.
  { unfold V2P. rewrite u32_small; unfold KERNLINK, EXTMEM, KERNBASE, PHYSTOP in *; lia. }
  eapply (wp_kmap P l s2 pd ∅ _ R _ _ 524288 256 0);
    [done|done|exact V0|done|unfold KPAGE; lia|lia|lia|lia|lia|unfold PTE_W; lia|reflexivity|done| |].
  { intros l1 s1 C1. apply (HF _ _ _ B0). unfold KPAGES in *. lia. }
  intros l1 s1 T1 C1 V1 L1 M1. pose proof (moved_built _ _ _ _ _ _ _ _ _ B0 M1) as B1.
  set (n2 := kdata / 4096 - 524544) in *. set (n3 := 581632 - kdata / 4096) in *.
  eapply (wp_kmap P l1 s1 pd T1 _ R _ _ 524544 n2 256);
    [done|done|exact V1|done|unfold KPAGE; lia|lia|lia|lia|lia|lia| | | |].
  { change (V2P KERNLINK) with 1048576. rewrite Hvd. f_equal. lia. }
  { intros w Hw. unfold mapped. by rewrite decide_False by lia. }
  { intros l3 s3 C3. apply (HF _ _ _ B1). unfold KPAGES in *. lia. }
  intros l3 s3 T3 C3 V3 L3 M3. pose proof (moved_built _ _ _ _ _ _ _ _ _ B1 M3) as B3.
  eapply (wp_kmap P l3 s3 pd T3 _ R _ _ (kdata / 4096) n3 (kdata / 4096 - 524288));
    [done|done|exact V3|done|unfold KPAGE; lia|lia|lia|lia|lia|unfold PTE_W; lia| | | |].
  { rewrite Hvd. f_equal. unfold PHYSTOP. lia. }
  { intros w Hw. unfold mapped. by rewrite !decide_False by lia. }
  { intros l4 s4 C4. apply (HF _ _ _ B3). unfold KPAGES in *. lia. }
  intros l4 s4 T4 C4 V4 L4 M4. pose proof (moved_built _ _ _ _ _ _ _ _ _ B3 M4) as B4.
  eapply (wp_kmap P l4 s4 pd T4 _ R _ _ 1040384 8192 1040384);
    [done|done|exact V4|done|unfold KPAGE; lia|lia|lia|lia|lia|unfold PTE_W; lia|reflexivity| | |].
  { intros w Hw. unfold mapped. by rewrite !decide_False by lia. }
  { intros l5 s5 C5. apply (HF _ _ _ B4). unfold KPAGES in *. lia. }
  intros l5 s5 T5 C5 V5 L5 M5. pose proof (moved_built _ _ _ _ _ _ _ _ _ B4 M5) as B5.
  apply wp_ret. apply (HQ pd T5 l5); [cbn [length]; unfold KPAGES in *; lia| |exact B5|lia]. apply low_ust; [|intros w Hw; unfold kernel_entry, KPAGE in *; by rewrite !decide_False by lia].
  eapply vst_ext; [|exact V5]. intros w Hw. unfold mapped, kernel_entry. unfold vpn in Hw.
  repeat case_decide; try lia; try done; f_equal; lia.
Qed.

(** *** copyuvm *)

Section copy.
Context (l : list Z) (s : kmst) (pd : Z) (T : gmap Z Z) (U : gmap Z (Z * Z)) (K : Z -> Z) (R : list Z).
Context (US : ust l s pd T U K R).

(** What the parent uses is not free, and so does not change. *)
Definition in_use : list Z := own pd T ++ upages U ++ R.

Lemma use_apart p q x : p ∈ in_use -> q ∈ l -> in_page p x -> ~ in_page q x.
Proof.
  intros Hp Hq Hx Hx'. destruct US as [V _]. pose proof (v_nodup _ _ _ _ _ _ _ _ V) as Hn. unfold in_use in Hp.
  assert (p = q) as -> by (apply (vst_apart _ _ _ _ _ _ _ _ p q x V); (done || set_solver)).
  rewrite app_assoc in Hn. apply NoDup_app in Hn as (_ & Hn & _). apply (Hn q); [|done]. set_solver.
Qed.

Lemma parent_same d Td Ud l1 s1 p x : built l s d Td Ud l1 s1 -> p ∈ in_use -> in_page p x -> kphys s1 x = kphys s x.
Proof. intros B Hp Hx. apply (bt_mem _ _ _ _ _ _ _ B). intros q Hq. by apply (use_apart p). Qed.

Lemma parent_ust d Td Ud l1 s1 : built l s d Td Ud l1 s1 -> msec ls (kmach s1) -> kmem_ok kend l1 s1 ->
  ust l1 s1 pd T U K (own d Td ++ upages Ud ++ R).
Proof.
  intros B Hs Hk. destruct US as [V HU]. split; [|done]. eapply vst_change; [exact V|done|done| |].
  - intros q x Hq Hx. apply (parent_same d Td Ud l1 s1 q x B); [|done]. unfold in_use. set_solver.
  - rewrite <- (bt_perm _ _ _ _ _ _ _ B), <- !app_assoc. do 2 f_equiv.
    generalize (own d Td) as A, (upages Ud) as B'. intros A B'. rewrite (app_assoc A B' l1).
    rewrite (app_assoc A B' (R ++ l1)). generalize (A ++ B') as C. intros C.
    by rewrite !app_assoc, (Permutation_app_comm R).
Qed.

(** The first [v] pages of the child are copies, and it has no others. *)
Definition copied (Ud : gmap Z (Z * Z)) (v : Z) (mem : Z -> Z) : Prop :=
  (forall w, 0 <= w < v -> exists pg f pg', U !! w = Some (pg, f) /\ Ud !! w = Some (pg', f) /\
     forall o, 0 <= o < PGSIZE -> mem (pg' + o) = kphys s (pg + o)) /\
  (forall w, ~ (0 <= w < v) -> Ud !! w = None).

Lemma lor_present f : 0 <= f < 4096 -> present f = true -> Z.lor f 1 = f.
Proof.
  intros Hf Hp. destruct (lor_1 f Hf) as [_ H]. apply Z.bits_inj'. intros i Hi. rewrite Z.lor_spec.
  destruct (decide (i = 0)) as [->|Hne].
  - unfold present in Hp. apply negb_true_iff, Z.eqb_neq in Hp. rewrite orb_true_r, Z.bit0_odd. symmetry.
    destruct (Z.odd f) eqn:E; [done|]. rewrite Zmod_odd, E in Hp. done.
  - change 1 with (2 ^ 0). rewrite Z.pow2_bits_false, orb_false_r by lia. done.
Qed.

Lemma wp_copyuvm_loop P n d Td Ud l1 s1 v sz Q :
  ust l1 s1 d Td Ud kernel_entry in_use -> built l s d Td Ud l1 s1 -> copied Ud v (kphys s1) ->
  0 <= v -> 0 <= sz <= KERNBASE -> (Z.to_nat (pages sz - v) < n)%nat ->
  (forall w, 0 <= w < pages sz -> is_Some (U !! w)) -> v <= pages sz ->
  (forall l' s', Z.of_nat (length l1) < 2 * (pages sz - v) -> released [] l s l' s' -> Q 0 s') ->
  (forall l' s' Td' Ud', ust l' s' d Td' Ud' kernel_entry in_use -> built l s d Td' Ud' l' s' ->
     copied Ud' (pages sz) (kphys s') -> Q d s') ->
  wp P (copyuvm_loop kend n pd d (4096 * v) sz) s1 Q.
Proof.
  revert Td Ud l1 s1 v. induction n as [|n IH]; intros Td Ud l1 s1 v UD B C Hv Hsz Hn HU Hvs HQ0 HQ; [lia|].
  cbn [copyuvm_loop]. pose proof (pages_lt sz v) as Hlt. destruct (4096 * v <? sz) eqn:Ha.
  2:{ apply wp_ret. apply (HQ l1 s1 Td Ud UD B). by replace (pages sz) with v by lia. }
  pose proof UD as [VD _].
  pose proof (parent_ust d Td Ud l1 s1 B (v_sec _ _ _ _ _ _ _ _ VD) (v_free _ _ _ _ _ _ _ _ VD)) as UP. pose proof UP as [VP HUo].
  destruct (HU v ltac:(lia)) as [[pg f] EU]. destruct (HUo _ _ _ EU) as (Hk & Hf & Hpr).
  assert (4096 * v / 4096 = v) as Hdv by (rewrite Z.mul_comm; apply Z.div_mul; lia).
  assert (vpn v) as Hvv by (unfold vpn, KPAGE in *; lia).
  wp_next. eapply (wp_walk_look kend ls); [exact VP|unfold KPAGE in *; lia|]. rewrite Hdv.
  destruct (ust_table kend ls Hls Hkend _ _ _ _ _ _ _ _ _ _ UP EU) as [pt HT].
  pose proof (page_range _ _ (tab_page _ _ _ _ _ _ _ _ _ _ VP HT)).
  assert (entry_at T v ≠ 0) by (unfold entry_at; rewrite HT; destruct (vpn_idx v Hvv); lia).
  replace (entry_at T v =? 0) with false by lia. wp_next. apply wp_peek_vm.
  assert (load32 (kphys s1) (entry_at T v) = V2P pg + f) as ->.
  { transitivity (uent U K v); [|unfold uent; by rewrite EU].
    rewrite <- (v_ent _ _ _ _ _ _ _ _ VP v Hvv). unfold entry_at, entry. by rewrite HT. }
  assert (page_ok pg) as Hpg by (by eapply ust_page).
  destruct (upage_entry kend Hkend pg f Hpg Hf) as (Ea & _ & Ef & Ep & _).
  rewrite <- (negb_involutive (Z.land _ _ =? 0)), present_land, Ep, Hpr. cbn [negb]. rewrite Ea, Ef.
  destruct C as [C1 C2].
  apply (wp_new_page kend ls Hls Hkend P l1 s1 d Td Ud kernel_entry in_use v f (fun dst mem => KString.memmove mem dst pg PGSIZE));
    [done|done|apply C2; lia|done| | | |].
  - intros mem dst x Hx. rewrite KString.memmove_spec. by rewrite decide_False.
  - intros s2 -> U2 M2. wp_next. eapply wp_freevm; [exact U2|]. intros l3 s3 HR. apply wp_ret.
    apply (HQ0 l3); [cbn [length]; lia|]. eapply built_released; [|exact HR]. by eapply built_moved.
  - intros pg2 s2 T2 -> U2 M2. wp_next. eapply wp_free_hand; [done|done|exact U2|]. intros s3 U3 F3 L3 M3.
    assert (umoved [pg2] s1 d Td Ud [pg2] s3 T2 Ud) as M4 by (eapply umoved_free; [..|exact M2|exact U2| | |]; done).
    wp_next. eapply wp_freevm; [exact U3|]. intros l4 s4 HR. apply wp_ret.
    apply (HQ0 l4); [cbn [length]; lia|]. eapply built_released; [|exact HR]. by eapply built_moved.
  - intros pg2 l2 s2 T2 U2 M2 Hlen Hb. rewrite (lor_present f Hf Hpr) in *.
    rewrite u32_small by (unfold KPAGE, PGSIZE in *; lia).
    replace (4096 * v + PGSIZE) with (4096 * (v + 1)) by (unfold PGSIZE; lia).
    apply (IH T2 _ l2 s2 (v + 1) U2); [by eapply built_moved| |lia|done|lia|done|lia| |done].
    2:{ intros l' s' L'. apply HQ0. lia. }
    split.
    + intros w Hw. destruct (decide (w = v)) as [->|Hne].
      * exists pg, f, pg2. split; [done|]. split; [apply lookup_insert_eq|]. intros o Ho.
        assert (in_page pg2 (pg2 + o)) as Hin by (unfold in_page; lia).
        rewrite Hb, KString.memmove_spec, decide_True by done. replace (pg + (pg2 + o - pg2)) with (pg + o) by lia.
        apply (parent_same d Td Ud l1 s1 pg _ B); [|unfold in_page; lia].
        unfold in_use. apply elem_of_app. right. apply elem_of_app. left. by eapply elem_upages.
      * destruct (C1 w ltac:(lia)) as (pg1 & f1 & pg' & E1 & E2 & Hc). exists pg1, f1, pg'. split; [done|].
        assert (<[v := (pg2, f)]> Ud !! w = Some (pg', f1)) as E3 by (by rewrite lookup_insert_ne).
        split; [done|]. intros o Ho. rewrite <- (Hc o Ho).
        apply (um_keep _ _ _ _ _ _ _ _ _ M2 w pg' f1); [done|done|unfold in_page; lia].
    + intros w Hw. rewrite lookup_insert_ne by lia. apply C2. lia.
Qed.

Lemma wp_copyuvm P sz Q :
  0 <= sz <= KERNBASE -> (forall w, 0 <= w < pages sz -> is_Some (U !! w)) ->
  (forall l' s', Z.of_nat (length l) < KPAGES + 2 * pages sz -> released [] l s l' s' -> Q 0 s') ->
  (forall d l' s' Td Ud, d ≠ 0 -> ust l' s' d Td Ud kernel_entry in_use -> built l s d Td Ud l' s' ->
     copied Ud (pages sz) (kphys s') -> Q d s') ->
  wp P (copyuvm kend kdata pd sz) s Q.
Proof.
  intros Hsz HU HQ0 HQ. destruct US as [V _]. unfold copyuvm. wp_next.
  assert (0 <= pages sz) as Hps by (apply Z.div_pos; lia).
  apply (wp_setupkvm _ l _ in_use); [apply V|apply V| | |intros l' s' L'; apply HQ0; lia|].
  - unfold in_use. rewrite <- app_assoc. apply V.
  - apply V.
  - intros d Td l1 s1 L1 UD B Hd. replace (d =? 0) with false by lia. change 0 with (4096 * 0) at 1.
    eapply (wp_copyuvm_loop P _ d Td ∅ l1 s1 0); [exact UD|exact B| |lia|done| |done|done|intros l' s' L'; apply HQ0; lia|].
    + split; [lia|]. intros. apply lookup_empty.
    + unfold pages, PGSIZE. pose proof (Z.div_mod (sz + 4095) 4096 ltac:(lia)).
      pose proof (Z.mod_pos_bound (sz + 4095) 4096 ltac:(lia)). pose proof (Z.div_mod sz 4096 ltac:(lia)).
      pose proof (Z.mod_pos_bound sz 4096 ltac:(lia)). lia.
    + intros l' s' Td' Ud' UD' B' C'. by eapply HQ.
Qed.

End copy.

End space.
