(* ===== verification/VmThms.v ===== *)
(** * What vm.c promises

    An address space is the map [U] from user page numbers to pages of memory;
    [uread] is what a user program reads through it. *)

From stdpp Require Import base numbers gmap sets list strings.
From S2P Require Import Prelude CString Spinlock ProcState Kalloc Vm VmTable VmUser VmSpace.
Import Kalloc Vm.
Open Scope Z_scope.

Definition uread (mem : Z -> Z) (U : gmap Z (Z * Z)) (va : Z) : option Z :=
  match U !! (va / 4096) with Some (pg, _) => Some (mem (pg + va mod 4096)) | None => None end.

(** A user page that user code may access. *)
Definition user_page (U : gmap Z (Z * Z)) (w : Z) : Prop :=
  exists pg f, U !! w = Some (pg, f) /\ Z.land f PTE_U ≠ 0.

Definition over (va : Z) (buf : list Z) (g : Z -> option Z) (a : Z) : option Z :=
  if decide (va <= a < va + Z.of_nat (length buf)) then Some (nth (Z.to_nat (a - va)) buf 0) else g a.

Lemma over_split va n buf g a : (n <= length buf)%nat ->
  over (va + Z.of_nat n) (drop n buf) (over va (take n buf) g) a = over va buf g a.
Proof.
  intros Hn. unfold over. rewrite length_drop, length_take. repeat case_decide; try lia; try done; f_equal.
  - rewrite <- (take_drop n buf) at 2. rewrite app_nth2; rewrite length_take; [f_equal; lia|lia].
  - rewrite <- (take_drop n buf) at 2. rewrite app_nth1; [done|]. rewrite length_take. lia.
Qed.

Lemma over_ext va buf (g g' : Z -> option Z) a : g a = g' a -> over va buf g a = over va buf g' a.
Proof. intros H. unfold over. by case_decide. Qed.

Section out.
Context (kend : Z) (ls : gset lockid) (Hls : Lkmem ∉ ls) (Hkend : KERNBASE < kend).
Implicit Types (s : kmst) (T : gmap Z Z) (U : gmap Z (Z * Z)) (K : Z -> Z) (l R : list Z).
Notation ust := (ust kend ls).

Lemma land_user k f : 0 <= f < 4096 -> Z.land (4096 * k + f) PTE_U = Z.land f PTE_U.
Proof.
  intros Hf. pose proof (PTE_FLAGS_page k f Hf) as H. unfold PTE_FLAGS in H.
  rewrite <- H at 2. by rewrite <- Z.land_assoc.
Qed.

Lemma wp_uva2ka P l s pd T U K R v pg f Q :
  ust l s pd T U K R -> 0 <= v < KPAGE -> U !! v = Some (pg, f) -> Z.land f PTE_U ≠ 0 -> Q pg s ->
  wp P (uva2ka pd (4096 * v)) s Q.
Proof.
  intros US Hk EU Hf HQ. pose proof US as [V HU]. destruct (HU _ _ _ EU) as (_ & Hfr & Hpr).
  assert (vpn v) as Hvv by (unfold vpn, KPAGE in *; lia).
  edestruct (ust_table kend ls Hls Hkend) as [pt HT]; [exact US|exact EU|].
  assert (page_ok kend pg) as Hpg by (by eapply ust_page).
  unfold uva2ka. wp_next. eapply wp_walk_look; [exact V|unfold KPAGE in *; lia|].
  rewrite Z.mul_comm, Z.div_mul by lia. wp_next. apply wp_peek_vm.
  assert (load32 (kphys s) (entry_at T v) = V2P pg + f) as ->.
  { transitivity (uent U K v); [|unfold uent; by rewrite EU].
    rewrite <- (v_ent _ _ _ _ _ _ _ _ V v Hvv). unfold entry_at, entry. by rewrite HT. }
  destruct (upage_entry kend Hkend pg f Hpg Hfr) as (Ea & _ & _ & Ep & _).
  rewrite <- (negb_involutive (Z.land _ PTE_P =? 0)), present_land, Ep, Hpr. cbn [negb]. rewrite Ea.
  destruct (tab_entry kend pg Hpg) as (_ & Hm & _). rewrite (page_div _ Hm), land_user by done.
  replace (Z.land f PTE_U =? 0) with false by lia. by apply wp_ret.
Qed.

(** Bytes written into a page of the user. *)
Lemma put_bytes_out dst bs mem x : ~ (dst <= x < dst + Z.of_nat (length bs)) -> put_bytes dst bs mem x = mem x.
Proof. intros H. unfold put_bytes. case_match; [lia|done]. Qed.

Lemma ust_put l s pd T U K R v pg f off bs :
  ust l s pd T U K R -> U !! v = Some (pg, f) -> 0 <= off -> off + Z.of_nat (length bs) <= 4096 ->
  ust l (set_kphys (put_bytes (pg + off) bs (kphys s)) s) pd T U K R.
Proof.
  intros [V HU] EU Ho Hb. split; [|done]. apply (vst_write kend ls Hls Hkend pg); [done| |].
  - apply elem_of_app. left. by eapply elem_upages.
  - intros x Hx. apply put_bytes_out. unfold in_page, PGSIZE in Hx. lia.
Qed.

Lemma uread_put l s pd T U K R v pg f off bs a :
  ust l s pd T U K R -> U !! v = Some (pg, f) -> 0 <= off -> off + Z.of_nat (length bs) <= 4096 ->
  uread (put_bytes (pg + off) bs (kphys s)) U a = over (4096 * v + off) bs (uread (kphys s) U) a.
Proof.
  intros US EU Ho Hb. unfold over, uread. pose proof (Z.div_mod a 4096 ltac:(lia)) as Hdm.
  pose proof (Z.mod_pos_bound a 4096 ltac:(lia)) as Hmb.
  case_decide as Hr.
  - assert (a / 4096 = v) as -> by lia. rewrite EU. f_equal. unfold put_bytes.
    replace ((pg + off <=? pg + a mod 4096) && (pg + a mod 4096 <? pg + off + Z.of_nat (length bs))) with true by lia.
    f_equal. lia.
  - destruct (U !! (a / 4096)) as [[pg' f']|] eqn:E; [|done]. f_equal. apply put_bytes_out. intros Hin.
    destruct (decide (a / 4096 = v)) as [Hv|Hne].
    + rewrite Hv, EU in E. injection E as <- <-. lia.
    + eapply (upages_distinct kend ls Hls Hkend) with (x := pg' + a mod 4096); [exact US|exact E|exact EU|done| |];
        unfold in_page, PGSIZE; lia.
Qed.

Lemma wp_copyout_loop P n l s pd T U K R va buf Q :
  ust l s pd T U K R -> 0 <= va -> va + Z.of_nat (length buf) <= KERNBASE -> (length buf < n)%nat ->
  (forall w, va / 4096 <= w -> 4096 * w < va + Z.of_nat (length buf) -> user_page U w) ->
  (forall s', ust l s' pd T U K R -> kmach s' = kmach s -> use_lock s' = use_lock s ->
     (forall a, uread (kphys s') U a = over va buf (uread (kphys s) U) a) ->
     (forall x, (forall p, p ∈ upages U -> ~ in_page p x) -> kphys s' x = kphys s x) -> Q 0 s') ->
  wp P (copyout_loop n pd va buf) s Q.
Proof.
  revert s va buf. induction n as [|n IH]; intros s va buf US Hva Hkb Hn HU HQ; [lia|]. cbn [copyout_loop].
  destruct buf as [|b buf'] eqn:Eb; [|rewrite <- Eb in *].
  { apply wp_ret, HQ; [done|done|done| |done]. intros a. unfold over. simpl. by rewrite decide_False by lia. }
  assert (0 < Z.of_nat (length buf)) as Hlen by (rewrite Eb; simpl; lia). clear Eb b buf'.
  replace (Z.of_nat (length buf) >? 0) with true by lia. unfold PGROUNDDOWN. rewrite !round_down_eq.
  pose proof (Z.div_mod va 4096 ltac:(lia)) as Hdm. pose proof (Z.mod_pos_bound va 4096 ltac:(lia)) as Hmb.
  set (v := va / 4096) in *. destruct (HU v ltac:(lia) ltac:(lia)) as (pg & f & EU & Hf).
  assert (0 <= v < KPAGE) as Hk by (unfold KPAGE, KERNBASE in *; lia).
  wp_next. eapply wp_uva2ka; [exact US|done|exact EU|done|].
  assert (page_ok kend pg) as Hpg by (by eapply ust_page). pose proof (page_range _ _ Hpg).
  replace (pg =? 0) with false by lia. replace (va - 4096 * v) with (va mod 4096) by lia. wp_next. apply wp_modify.
  set (n0 := PGSIZE - va mod 4096). set (k := if n0 >? Z.of_nat (length buf) then Z.of_nat (length buf) else n0).
  assert (0 < k <= Z.of_nat (length buf) /\ k <= n0) as [Hk1 Hk2].
  { unfold k. destruct (n0 >? Z.of_nat (length buf)) eqn:E; unfold n0, PGSIZE in *; lia. }
  assert (Z.of_nat (length (take (Z.to_nat k) buf)) = k) as Hlt by (rewrite length_take; lia).
  assert (va mod 4096 + Z.of_nat (length (take (Z.to_nat k) buf)) <= 4096) as Hfit by (unfold n0, PGSIZE in *; lia).
  pose proof (ust_put _ _ _ _ _ _ _ _ _ _ (va mod 4096) (take (Z.to_nat k) buf) US EU ltac:(lia) Hfit) as US1.
  rewrite u32_small by (unfold KPAGE, PGSIZE in *; lia).
  assert (forall a, over (4096 * v + PGSIZE) (drop (Z.to_nat k) buf)
    (over va (take (Z.to_nat k) buf) (uread (kphys s) U)) a = over va buf (uread (kphys s) U) a) as Hov.
  { intros a. destruct (decide (k = n0)) as [->|Hne].
    - rewrite <- (over_split va (Z.to_nat n0) buf) by lia. f_equal. unfold n0. lia.
    - assert (k = Z.of_nat (length buf)) as -> by (unfold k in *; destruct (n0 >? Z.of_nat (length buf)); lia).
      rewrite Nat2Z.id, drop_all, firstn_all. unfold over at 1. simpl. by rewrite decide_False by lia. }
  apply (IH _ _ _ US1); [unfold PGSIZE; lia| | | |].
  - rewrite length_drop. unfold k. destruct (n0 >? Z.of_nat (length buf)) eqn:E; unfold n0, PGSIZE, KERNBASE, KPAGE in *; lia.
  - rewrite length_drop. lia.
  - rewrite length_drop. intros w Hw1 Hw2.
    replace (4096 * v + PGSIZE) with (4096 * (v + 1) + 0) in Hw1 by (unfold PGSIZE; lia).
    destruct (page_off (v + 1) 0 ltac:(lia)) as [E _]. rewrite E in Hw1. apply HU; [lia|].
    unfold k in *. destruct (n0 >? Z.of_nat (length buf)) eqn:E2; unfold n0, PGSIZE in *; lia.
  - intros s2 US2 Hm2 Hl2 Hu2 Hf2. apply HQ; [done|by rewrite Hm2|by rewrite Hl2| |].
    + intros a. rewrite Hu2, <- Hov. apply over_ext. simpl.
      erewrite uread_put; [|exact US|exact EU|lia|exact Hfit]. f_equal. lia.
    + intros x Hx. rewrite Hf2 by done. simpl. apply put_bytes_out. intros Hin. apply (Hx pg); [by eapply elem_upages|].
      unfold in_page, PGSIZE. lia.
Qed.

End out.

(** C40. [allocuvm] grows a process: with enough free pages it returns the new size,
    with fresh zeroed pages for exactly the new part, writable and accessible to
    the user; otherwise it returns 0 with the user part as it was.  No page is
    lost or shared, and nothing outside of the address space and the free list
    is written. *)
Theorem allocuvm_correct kend l s pd T U K R oldsz newsz :
  KERNBASE < kend -> ust kend ∅ l s pd T U K R -> 0 <= oldsz <= newsz -> newsz < KERNBASE ->
  (forall w, pages oldsz <= w -> U !! w = None) ->
  exists r l' s' T' U', allocuvm kend pd oldsz newsz s = Ok r s' /\
    ust kend ∅ l' s' pd T' U' K R /\ umoved l s pd T U l' s' T' U' /\
    ((r = newsz /\ filled U U' (pages oldsz) (pages newsz) (kphys s')) \/
     (r = 0 /\ U' = U /\ Z.of_nat (length l) < 2 * (pages newsz - pages oldsz))).
Proof.
  intros Hk US Ho Hn HU.
  destruct (wp_total (allocuvm kend pd oldsz newsz) s (fun r s' => exists l' T' U',
    ust kend ∅ l' s' pd T' U' K R /\ umoved l s pd T U l' s' T' U' /\
    ((r = newsz /\ filled U U' (pages oldsz) (pages newsz) (kphys s')) \/
     (r = 0 /\ U' = U /\ Z.of_nat (length l) < 2 * (pages newsz - pages oldsz)))))
    as (r & s' & Hr & l' & T' & U' & H); [|by exists r, l', s', T', U'].
  apply (wp_allocuvm kend ∅ ltac:(set_solver) Hk _ l s pd T U K R); [done|lia|lia|done|lia|lia| |].
  - intros l' s' T' U' _ US' M' F' _. exists l', T', U'. split_and!; [done..|]. by left.
  - intros l' s' T' L' US' M'. exists l', T', U. split_and!; [done..|]. by right.
Qed.

(** [deallocuvm] shrinks a process: exactly the pages of the part given up go
    back to the free list, and the others keep their contents. *)
Theorem deallocuvm_correct kend l s pd T U K R oldsz newsz :
  KERNBASE < kend -> ust kend ∅ l s pd T U K R -> 0 <= newsz < oldsz -> oldsz <= KERNBASE ->
  exists l' s', deallocuvm kend pd oldsz newsz s = Ok newsz s' /\
    ust kend ∅ l' s' pd T (ucut U (pages newsz) (pages oldsz)) K R /\
    umoved l s pd T U l' s' T (ucut U (pages newsz) (pages oldsz)).
Proof.
  intros Hk US Hn Ho.
  destruct (wp_total (deallocuvm kend pd oldsz newsz) s (fun r s' => r = newsz /\ exists l',
    ust kend ∅ l' s' pd T (ucut U (pages newsz) (pages oldsz)) K R /\
    umoved l s pd T U l' s' T (ucut U (pages newsz) (pages oldsz)))) as (r & s' & Hr & -> & l' & H); [|by exists l', s'].
  apply (wp_deallocuvm kend ∅ ltac:(set_solver) Hk _ l s pd T U K R); [done|lia|lia|lia|].
  intros l' s' _ US' M'. split; [done|]. by exists l'.
Qed.

(** C22. [copyuvm], the memory part of [fork]: the child's address space has the
    kernel mappings, and in the first [sz] bytes the pages of the parent's: the same bytes
    to read, with the same flags (present, writable, user) in the entry of each page,
    through pages that are all different from the parent's, whose memory is untouched;
    it has no other user page.  It fails only when memory is short, and then every
    page is back on the free list. *)
Theorem copyuvm_correct kend kdata l s pd T U K R sz :
  KERNBASE < kend -> KERNLINK < kdata < KERNBASE + PHYSTOP -> kdata mod PGSIZE = 0 ->
  ust kend ∅ l s pd T U K R -> 0 <= sz <= KERNBASE -> (forall w, 0 <= w < pages sz -> is_Some (U !! w)) ->
  exists r s', copyuvm kend kdata pd sz s = Ok r s' /\
    ((r = 0 /\ Z.of_nat (length l) < KPAGES + 2 * pages sz /\ exists l', released kend ∅ [] l s l' s') \/
     (r ≠ 0 /\ exists l' Td Ud, ust kend ∅ l' s' r Td Ud (kernel_entry kdata) (in_use pd T U R) /\
        built l s r Td Ud l' s' /\
        (forall va, 0 <= va < 4096 * pages sz -> uread (kphys s') Ud va = uread (kphys s) U va) /\
        (forall w, 0 <= w -> snd <$> Ud !! w = if decide (w < pages sz) then snd <$> U !! w else None) /\
        (forall p x, p ∈ in_use pd T U R -> in_page p x -> kphys s' x = kphys s x) /\
        (forall p, p ∈ upages Ud -> p ∉ in_use pd T U R))).
Proof.
  intros Hk Hd Hda US Hsz HU.
  apply (wp_total (copyuvm kend kdata pd sz) s (fun r s' =>
    (r = 0 /\ Z.of_nat (length l) < KPAGES + 2 * pages sz /\ exists l', released kend ∅ [] l s l' s') \/
     (r ≠ 0 /\ exists l' Td Ud, ust kend ∅ l' s' r Td Ud (kernel_entry kdata) (in_use pd T U R) /\
        built l s r Td Ud l' s' /\
        (forall va, 0 <= va < 4096 * pages sz -> uread (kphys s') Ud va = uread (kphys s) U va) /\
        (forall w, 0 <= w -> snd <$> Ud !! w = if decide (w < pages sz) then snd <$> U !! w else None) /\
        (forall p x, p ∈ in_use pd T U R -> in_page p x -> kphys s' x = kphys s x) /\
        (forall p, p ∈ upages Ud -> p ∉ in_use pd T U R)))).
  eapply (wp_copyuvm kend kdata ∅ ltac:(set_solver) Hk Hd Hda l s pd T U K R US); [done|done| |].
  - intros l' s' L' HR. left. split_and!; [done..|]. by exists l'.
  - intros d l' s' Td Ud Hd0 UD B [C C2]. right. split; [done|]. exists l', Td, Ud. split_and!; [done|done| | | |].
    + intros va Hva. unfold uread. pose proof (Z.div_mod va 4096 ltac:(lia)). pose proof (Z.mod_pos_bound va 4096 ltac:(lia)).
      destruct (C (va / 4096) ltac:(lia)) as (pg & f & pg' & -> & -> & Hc). f_equal. apply Hc. unfold PGSIZE. lia.
    + intros w Hw. case_decide; [|by rewrite C2 by lia]. by destruct (C w ltac:(lia)) as (pg & f & pg' & -> & -> & _).
    + intros p x Hp Hx. eapply parent_same; [..|exact US|exact B|exact Hp|exact Hx]; set_solver.
    + intros p Hp Hin. destruct UD as [V _]. pose proof (v_nodup _ _ _ _ _ _ _ _ V) as Hn.
      apply NoDup_app in Hn as (_ & _ & Hn). rewrite <- app_assoc in Hn. apply NoDup_app in Hn as (_ & Hn & _).
      apply (Hn p Hp). set_solver.
Qed.

(** [setupkvm] and [freevm] lose no page: what [setupkvm] built, [freevm] gives
    back, and the kernel part of every new page table is that of [kmap]. *)
Theorem setupkvm_freevm kend kdata l s :
  KERNBASE < kend -> KERNLINK < kdata < KERNBASE + PHYSTOP -> kdata mod PGSIZE = 0 ->
  msec ∅ (kmach s) -> kmem_ok kend l s -> KPAGES <= Z.of_nat (length l) ->
  exists pd l1 s1 T l2 s2,
    setupkvm kend kdata s = Ok pd s1 /\ ust kend ∅ l1 s1 pd T ∅ (kernel_entry kdata) [] /\ built l s pd T ∅ l1 s1 /\
    freevm kend pd s1 = Ok tt s2 /\ kmem_ok kend l2 s2 /\ l2 ≡ₚ l.
Proof.
  intros Hk Hd Hda Hs Hok Hl.
  destruct (wp_total (setupkvm kend kdata) s (fun pd s1 => exists l1 T,
    ust kend ∅ l1 s1 pd T ∅ (kernel_entry kdata) [] /\ built l s pd T ∅ l1 s1)) as (pd & s1 & Hr & l1 & T & UD & B).
  { apply (wp_setupkvm kend kdata ∅ ltac:(set_solver) Hk Hd Hda _ l s []); [done|done| |done| |].
    - apply Hok.
    - intros l' s' L'. lia.
    - intros pd T l' s' _ UD B _. by exists l', T. }
  destruct (wp_total (freevm kend pd) s1 (fun _ s2 => exists l2, released kend ∅ (own pd T ++ upages ∅) l1 s1 l2 s2))
    as ([] & s2 & Hr2 & l2 & HR).
  { apply (wp_freevm kend ∅ ltac:(set_solver) Hk _ l1 s1 pd T ∅ _ [] _ UD). intros l2 s2 H. by exists l2. }
  exists pd, l1, s1, T, l2, s2. split_and!; [done..|apply HR|]. pose proof (built_released _ _ _ _ _ _ _ _ _ _ _ B HR) as [].
  by rewrite rl_perm.
Qed.

(** [copyout] writes into a user's memory as the user sees it: the bytes at
    [va] become those of the buffer and all others stay. *)
Theorem copyout_correct kend l s pd T U K R va buf :
  KERNBASE < kend -> ust kend ∅ l s pd T U K R -> 0 <= va -> va + Z.of_nat (length buf) <= KERNBASE ->
  (forall w, va / 4096 <= w -> 4096 * w < va + Z.of_nat (length buf) -> user_page U w) ->
  exists s', copyout pd va buf s = Ok 0 s' /\ ust kend ∅ l s' pd T U K R /\
    (forall a, uread (kphys s') U a = over va buf (uread (kphys s) U) a) /\
    (forall x, (forall p, p ∈ upages U -> ~ in_page p x) -> kphys s' x = kphys s x).
Proof.
  intros Hk US Hva Hb HU.
  destruct (wp_total (copyout pd va buf) s (fun r s' => r = 0 /\ ust kend ∅ l s' pd T U K R /\
    (forall a, uread (kphys s') U a = over va buf (uread (kphys s) U) a) /\
    (forall x, (forall p, p ∈ upages U -> ~ in_page p x) -> kphys s' x = kphys s x))) as (r & s' & Hr & -> & H); [|by exists s'].
  eapply (wp_copyout_loop kend ∅ ltac:(set_solver) Hk); [exact US|done|done|lia|done|].
  intros s' US' _ _ H1 H2. by split.
Qed.

(** Without a page table for the address, [uva2ka] does not report an error but
    looks at the word at address 0: when that happens to have the bits of a
    present user page, it answers with an address. *)
Theorem uva2ka_null kend l s pd T U K R v k :
  ust kend ∅ l s pd T U K R -> 0 <= v < KPAGE -> T !! (v / 1024) = None -> load32 (kphys s) 0 = 4096 * k + 7 ->
  uva2ka pd (4096 * v) s = Ok (P2V (4096 * k)) s.
Proof.
  intros [V _] Hv HT H0.
  destruct (wp_total (uva2ka pd (4096 * v)) s (fun r s' => r = P2V (4096 * k) /\ s' = s)) as (r & s' & Hr & -> & ->); [|done].
  unfold uva2ka. wp_next. eapply wp_walk_look; [exact V|unfold KPAGE in *; lia|].
  rewrite (Z.mul_comm 4096 v), Z.div_mul by lia. unfold entry_at. rewrite HT. wp_next. apply wp_peek_vm. rewrite H0.
  rewrite <- (negb_involutive (Z.land _ PTE_P =? 0)), present_land, present_page.
  change (present 7) with true. cbn [negb]. rewrite land_user, PTE_ADDR_page by lia. by apply wp_ret.
Qed.
