(* ===== verification/Sleeplock.v ===== *)
(** * Sleeping locks: sleeplock.c

    A sleep lock is a word and the pid of its holder, guarded by a spinlock.
    The code of this and of the following files runs a process [me]; a step
    that would put it to sleep does not happen ([Blocked]): the process is
    still before the call, and another one runs. *)

From stdpp Require Import base numbers gmap list strings.
From S2P Require Import Prelude Spinlock.
Open Scope Z_scope.

(** ** Critical sections

    Code between [acquire(l)] and [release(l)] that only works on [X]. *)

Definition on_mach_of {X A} (op : M mach A) : M (mach * X) A :=
  zoom fst (fun m s => (m, s.2)) op.

Definition on_data {X A} (op : M X A) : M (mach * X) A :=
  zoom snd (fun x s => (s.1, x)) op.

Definition critical {X A} (l : lockid) (op : M X A) : M (mach * X) A :=
  on_mach_of (acquire l);;
  a ← on_data op;
  on_mach_of (release l);;
  mret a.

(** The same, on a part of the data. *)
Definition part {X Y A} (g : X -> Y) (p : Y -> X -> X) (op : M (mach * Y) A) : M (mach * X) A :=
  zoom (fun s => (s.1, g s.2)) (fun t s => (t.1, p t.2 s.2)) op.

Section critical.
Context (P : failure -> Prop).

(** [quiet m m']: no lock is held and the CPUs run what they ran. *)
Definition quiet (ls : gset lockid) (m m' : mach) : Prop := msec ls m' /\ mframe m m'.

Lemma quiet_refl ls m : msec ls m -> quiet ls m m.
Proof. by split. Qed.

Lemma wp_data {X A} (op : M X A) m x Q :
  wp P op x (fun a x' => Q a (m, x')) -> wp P (on_data op) (m, x) Q.
Proof. intros H. apply wp_zoom. done. Qed.

Lemma wp_critical {X A} ls l (op : M X A) m x Q :
  msec ls m -> l ∉ ls ->
  wp P op x (fun a x' => forall m', quiet ls m m' -> Q a (m', x')) ->
  wp P (critical l op) (m, x) Q.
Proof.
  intros Hs Hl Hop. unfold critical. wp_next. apply wp_zoom. apply (wp_acquire _ ls); [done|done|].
  intros m1 Hm1 Hf1. wp_next. apply wp_data. eapply wp_mono; [exact Hop|]. intros a x' HQ.
  wp_next. apply wp_zoom. apply (wp_release _ _ _ _ _ Hm1); [set_solver|]. intros m2 Hm2 Hf2.
  apply wp_ret, HQ. split; [|by etrans].
  by replace (({[l]} ∪ ls) ∖ {[l]}) with ls in Hm2 by set_solver.
Qed.

Lemma wp_part {X Y A} (g : X -> Y) p (op : M (mach * Y) A) m x Q :
  wp P op (m, g x) (fun a t => Q a (t.1, p t.2 x)) -> wp P (part g p op) (m, x) Q.
Proof. intros H. by apply wp_zoom. Qed.

End critical.

(** ** The lock *)

(** sleeplock.h; [lk] is the spinlock [Lsleep id] of the machine. *)
Record sleeplock := mkSl {
  slocked : Z;
  slname : string;
  spid : Z }.

Section sleeplock.
Context (me : Z).

Definition initsleeplock (id : Z) (name : string) : M (mach * sleeplock) unit :=
  on_mach_of (initlock (Lsleep id) "sleep lock");;
  on_data (modify (fun lk => mkSl (slocked lk) name (spid lk)));;
  on_data (modify (fun lk => mkSl 0 (slname lk) (spid lk)));;
  on_data (modify (fun lk => mkSl (slocked lk) (slname lk) 0)).

(** [while(lk->locked) sleep(lk, &lk->lk);] and what follows. *)
Definition acquiresleep (id : Z) : M (mach * sleeplock) unit :=
  critical (Lsleep id) (
    l ← gets slocked;
    if negb (l =? 0) then blocked else
    modify (fun lk => mkSl 1 (slname lk) (spid lk));;
    modify (fun lk => mkSl (slocked lk) (slname lk) me)).

Definition releasesleep (id : Z) : M (mach * sleeplock) unit :=
  critical (Lsleep id) (
    modify (fun lk => mkSl 0 (slname lk) (spid lk));;
    modify (fun lk => mkSl (slocked lk) (slname lk) 0)).

Definition holdingsleep (id : Z) : M (mach * sleeplock) bool :=
  critical (Lsleep id) (
    gets (fun lk => negb (slocked lk =? 0) && (spid lk =? me))).

Definition holds (lk : sleeplock) : Prop := slocked lk ≠ 0 /\ spid lk = me.

Context (P : failure -> Prop).

Lemma wp_acquiresleep id m lk Q :
  msec ∅ m -> (slocked lk ≠ 0 -> P FBlocked) ->
  (forall m', quiet ∅ m m' -> slocked lk = 0 -> Q tt (m', mkSl 1 (slname lk) me)) ->
  wp P (acquiresleep id) (m, lk) Q.
Proof.
  intros Hs Hb HQ. unfold acquiresleep. eapply wp_critical; [done|apply not_elem_of_empty|]. wp_next. apply wp_gets.
  destruct (decide (slocked lk = 0)) as [H0|H0].
  - rewrite H0. simpl. intros m' Hm'. by apply HQ.
  - replace (slocked lk =? 0) with false by lia. by apply Hb.
Qed.

Lemma wp_releasesleep id m lk Q :
  msec ∅ m -> (forall m', quiet ∅ m m' -> Q tt (m', mkSl 0 (slname lk) 0)) ->
  wp P (releasesleep id) (m, lk) Q.
Proof. intros Hs HQ. unfold releasesleep. eapply wp_critical; [done|apply not_elem_of_empty|]. done. Qed.

Lemma wp_holdingsleep id m lk Q :
  msec ∅ m -> holds lk -> (forall m', quiet ∅ m m' -> Q true (m', lk)) ->
  wp P (holdingsleep id) (m, lk) Q.
Proof.
  intros Hs [Hl Hp] HQ. unfold holdingsleep. eapply wp_critical; [done|apply not_elem_of_empty|].
  unfold wp, gets. replace (slocked lk =? 0) with false by lia. by rewrite Hp, Z.eqb_refl.
Qed.

End sleeplock.
