(* ===== verification/Bio.v ===== *)
(** * The buffer cache and the memory disk: bio.c, memide.c, buf.h

    [bufs] holds the NBUF buffers and, at index [HEAD], [bcache.head]; the
    list pointers [prev] and [next] are indices into it.  [disk] is the array
    of blocks behind memide.c's [iderw]; [dwrites] records the blocks written
    to it, in order, so that what a crash leaves can be stated. *)

From stdpp Require Import base numbers gmap list strings.
From S2P Require Import Prelude Spinlock Sleeplock.
Open Scope Z_scope.

(** param.h, fs.h, buf.h *)
Definition BSIZE : Z := 512.

Definition MAXOPBLOCKS : Z := 10.

Definition NBUF : nat := 30.

Definition B_VALID : Z := 2.

Definition B_DIRTY : Z := 4.

(** [bcache.head] *)
Definition HEAD : nat := NBUF.

Record buf := mkBuf {
  bflags : Z;
  bdev : Z;
  blockno : Z;
  block : sleeplock;
  refcnt : Z;
  bprev : nat;
  bnext : nat;
  bdata : list Z }.

Definition set_bflags (v : Z) (b : buf) : buf :=
  mkBuf v (bdev b) (blockno b) (block b) (refcnt b) (bprev b) (bnext b) (bdata b).

Definition set_bdev (v : Z) (b : buf) : buf :=
  mkBuf (bflags b) v (blockno b) (block b) (refcnt b) (bprev b) (bnext b) (bdata b).

Definition set_blockno (v : Z) (b : buf) : buf :=
  mkBuf (bflags b) (bdev b) v (block b) (refcnt b) (bprev b) (bnext b) (bdata b).

Definition set_block (v : sleeplock) (b : buf) : buf :=
  mkBuf (bflags b) (bdev b) (blockno b) v (refcnt b) (bprev b) (bnext b) (bdata b).

Definition set_refcnt (v : Z) (b : buf) : buf :=
  mkBuf (bflags b) (bdev b) (blockno b) (block b) v (bprev b) (bnext b) (bdata b).

Definition set_bprev (v : nat) (b : buf) : buf :=
  mkBuf (bflags b) (bdev b) (blockno b) (block b) (refcnt b) v (bnext b) (bdata b).

Definition set_bnext (v : nat) (b : buf) : buf :=
  mkBuf (bflags b) (bdev b) (blockno b) (block b) (refcnt b) (bprev b) v (bdata b).

Definition set_bdata (v : list Z) (b : buf) : buf :=
  mkBuf (bflags b) (bdev b) (blockno b) (block b) (refcnt b) (bprev b) (bnext b) v.

(** A zeroed [struct buf]. *)
Definition buf0 : buf := mkBuf 0 0 0 (mkSl 0 "" 0) 0 0 0 (replicate (Z.to_nat BSIZE) 0).

Record bio := mkBio {
  bufs : list buf;
  disk : list (list Z);
  dwrites : list (Z * list Z) }.

Definition buf_at (i : nat) (st : bio) : buf := default buf0 (bufs st !! i).

Definition upd_buf (i : nat) (f : buf -> buf) (st : bio) : bio :=
  mkBio (alter f i (bufs st)) (disk st) (dwrites st).

(** Reads and writes of the buffer [b]; the sleep lock inside it. *)
Definition bget_field {A} (f : buf -> A) (b : nat) : M (mach * bio) A :=
  on_data (gets (fun st => f (buf_at b st))).

Definition bset (f : buf -> buf) (b : nat) : M (mach * bio) unit :=
  on_data (modify (upd_buf b f)).

Definition on_block {A} (b : nat) (op : M (mach * sleeplock) A) : M (mach * bio) A :=
  part (fun st => block (buf_at b st)) (fun l => upd_buf b (set_block l)) op.

(** ** memide.c *)

Section bio.
Context (me : Z).

(** [memmove(memdisk + blockno*BSIZE, data, BSIZE)] *)
Definition disk_put (n : Z) (data : list Z) (st : bio) : bio :=
  mkBio (bufs st) (<[Z.to_nat n := data]> (disk st)) (dwrites st ++ [(n, data)]).

Definition iderw (b : nat) : M (mach * bio) unit :=
  h ← on_block b (holdingsleep me (Z.of_nat b));
  if negb (h : bool) then panic "iderw: buf not locked" else
  x ← bget_field id b;
  if Z.land (bflags x) (Z.lor B_VALID B_DIRTY) =? B_VALID then panic "iderw: nothing to do" else
  if negb (bdev x =? 1) then panic "iderw: request not for disk 1" else
  n ← on_data (gets (fun st => Z.of_nat (length (disk st))));
  if blockno x >=? n then panic "iderw: block out of range" else
  (if negb (Z.land (bflags x) B_DIRTY =? 0) then
     bset (set_bflags (Z.land (bflags x) (Z.lnot B_DIRTY))) b;;
     on_data (modify (disk_put (blockno x) (bdata x)))
   else
     d ← on_data (gets (fun st => default [] (disk st !! Z.to_nat (blockno x))));
     bset (set_bdata d) b);;
  bset (fun x => set_bflags (Z.lor (bflags x) B_VALID) x) b.

(** ** bio.c *)

(** One round of the loop of [binit]. *)
Definition binit1 (b : nat) : M (mach * bio) unit :=
  h ← bget_field bnext HEAD;
  bset (set_bnext h) b;;
  bset (set_bprev HEAD) b;;
  on_block b (initsleeplock (Z.of_nat b) "buffer");;
  h ← bget_field bnext HEAD;
  bset (set_bprev b) h;;
  bset (set_bnext b) HEAD.

Definition binit : M (mach * bio) unit :=
  on_mach_of (initlock Lbcache "bcache");;
  bset (set_bprev HEAD) HEAD;;
  bset (set_bnext HEAD) HEAD;;
  mfor (seq 0 NBUF) binit1.

(** The two searches of [bget]: from [b] along [next] for the block, and along
    [prev] for a buffer to recycle.  The list has NBUF entries, so S NBUF
    rounds reach its end. *)
Fixpoint bget_cached (n : nat) (st : bio) (dev bn : Z) (b : nat) : option nat :=
  match n with
  | O => None
  | S n =>
      if decide (b = HEAD) then None
      else if (bdev (buf_at b st) =? dev) && (blockno (buf_at b st) =? bn) then Some b
      else bget_cached n st dev bn (bnext (buf_at b st))
  end.

Fixpoint bget_free (n : nat) (st : bio) (b : nat) : option nat :=
  match n with
  | O => None
  | S n =>
      if decide (b = HEAD) then None
      else if (refcnt (buf_at b st) =? 0) && (Z.land (bflags (buf_at b st)) B_DIRTY =? 0)
      then Some b
      else bget_free n st (bprev (buf_at b st))
  end.

Definition bget (dev bn : Z) : M (mach * bio) nat :=
  b ← critical Lbcache (
    st ← gets id;
    match bget_cached (S NBUF) st dev bn (bnext (buf_at HEAD st)) with
    | Some b =>
        modify (upd_buf b (fun x => set_refcnt (u32 (refcnt x + 1)) x));;
        mret b
    | None =>
        match bget_free (S NBUF) st (bprev (buf_at HEAD st)) with
        | Some b =>
            modify (upd_buf b (set_bdev dev));;
            modify (upd_buf b (set_blockno bn));;
            modify (upd_buf b (set_bflags 0));;
            modify (upd_buf b (set_refcnt 1));;
            mret b
        | None => panic "bget: no buffers"
        end
    end);
  on_block b (acquiresleep me (Z.of_nat b));;
  mret b.

Definition bread (dev bn : Z) : M (mach * bio) nat :=
  b ← bget dev bn;
  f ← bget_field bflags b;
  (if Z.land f B_VALID =? 0 then iderw b else mret tt);;
  mret b.

Definition bwrite (b : nat) : M (mach * bio) unit :=
  h ← on_block b (holdingsleep me (Z.of_nat b));
  if negb (h : bool) then panic "bwrite" else
  bset (fun x => set_bflags (Z.lor (bflags x) B_DIRTY) x) b;;
  iderw b.

(** [b->next->prev = b->prev; ... bcache.head.next = b;] *)
Definition unlink_front (b : nat) : M bio unit :=
  x ← gets (buf_at b);
  modify (upd_buf (bnext x) (set_bprev (bprev x)));;
  x ← gets (buf_at b);
  modify (upd_buf (bprev x) (set_bnext (bnext x)));;
  h ← gets (buf_at HEAD);
  modify (upd_buf b (set_bnext (bnext h)));;
  modify (upd_buf b (set_bprev HEAD));;
  h ← gets (buf_at HEAD);
  modify (upd_buf (bnext h) (set_bprev b));;
  modify (upd_buf HEAD (set_bnext b)).

Definition brelse (b : nat) : M (mach * bio) unit :=
  h ← on_block b (holdingsleep me (Z.of_nat b));
  if negb (h : bool) then panic "brelse" else
  on_block b (releasesleep (Z.of_nat b));;
  critical Lbcache (
    modify (upd_buf b (fun x => set_refcnt (u32 (refcnt x - 1)) x));;
    r ← gets (fun st => refcnt (buf_at b st));
    when (r =? 0) (unlink_front b)).

End bio.
