(* ===== verification/BioRing.v ===== *)
(** * The list of the buffer cache

    bio.c keeps the buffers on a doubly linked circular list through
    [bcache.head].  [ring st l] says that the pointers of [st] form the list
    [l], most recently used first; the searches of [bget] and the pointer
    updates of [brelse] and [binit] are proved to be list operations. *)

From stdpp Require Import base numbers gmap list strings.
From S2P Require Import Prelude Spinlock Sleeplock Bio.
Open Scope Z_scope.

(** ** Segments *)

(** From [x] through [l] to [y], both ways. *)
Fixpoint seg (nx pv : nat -> nat) (x : nat) (l : list nat) (y : nat) : Prop :=
  match l with
  | [] => nx x = y /\ pv y = x
  | z :: l => nx x = z /\ pv z = x /\ seg nx pv z l y
  end.

Definition upd (x v : nat) (f : nat -> nat) : nat -> nat := fun y => if decide (y = x) then v else f y.

Lemma upd_eq x v f : upd x v f x = v.
Proof. unfold upd. by rewrite decide_True. Qed.

Lemma upd_ne x v f y : y ≠ x -> upd x v f y = f y.
Proof. intros. unfold upd. by rewrite decide_False. Qed.

Lemma seg_app nx pv x l1 z l2 y :
  seg nx pv x (l1 ++ z :: l2) y <-> seg nx pv x l1 z /\ seg nx pv z l2 y.
Proof. revert x. induction l1 as [|w l1 IH]; intros x; simpl; [tauto|]. rewrite IH. tauto. Qed.

Lemma seg_ext nx pv nx' pv' x l y :
  (forall z, z ∈ x :: l -> nx' z = nx z) -> (forall z, z ∈ l ++ [y] -> pv' z = pv z) ->
  seg nx pv x l y -> seg nx' pv' x l y.
Proof.
  revert x. induction l as [|z l IH]; intros x Hn Hp; simpl.
  - rewrite Hn, Hp by set_solver. done.
  - rewrite (Hn x), (Hp z) by set_solver. intros (H1 & H2 & H3). split_and!; [done..|].
    apply IH; [set_solver..|done].
Qed.

(** [b->next->prev = b->prev; b->prev->next = b->next;] *)
Lemma seg_unlink nx pv x l1 i l2 y :
  seg nx pv x l1 i -> seg nx pv i l2 y ->
  NoDup (x :: l1 ++ i :: l2) -> y ∉ l1 ++ i :: l2 ->
  seg (upd (pv i) (nx i) nx) (upd (nx i) (pv i) pv) x (l1 ++ l2) y.
Proof.
  revert x. induction l1 as [|z l1 IH]; intros x H1 H2 Hnd Hy; simpl in *.
  - destruct H1 as [H1 ->]. apply NoDup_cons in Hnd as [Hx Hnd]. apply NoDup_cons in Hnd as [Hi Hnd].
    destruct l2 as [|w l2]; simpl in *.
    + destruct H2 as [-> H2]. by rewrite !upd_eq.
    + destruct H2 as (-> & H2 & H3). rewrite !upd_eq. split_and!; [done..|].
      apply NoDup_cons in Hnd as [Hw _].
      apply (seg_ext nx pv); [| |done]; intros v Hv; rewrite upd_ne; set_solver.
  - destruct H1 as (H1 & Hz & H3). apply NoDup_cons in Hnd as [Hx Hnd].
    assert (pv i ∈ z :: l1 /\ nx i ∈ l2 ++ [y]) as [Hp Hn].
    { clear -H2 H3. split.
      - clear H2. revert z H3. induction l1 as [|w l1 IH]; intros z; simpl.
        + intros [_ ->]. set_solver.
        + intros (_ & _ & H). specialize (IH w H). set_solver.
      - destruct l2 as [|w l2]; simpl in H2; destruct H2 as [-> _]; set_solver. }
    pose proof (NoDup_cons_1_1 _ _ Hnd) as Hzn.
    assert (x ≠ pv i) as Hxp by (intros Heq; rewrite <- Heq in Hp; set_solver).
    assert (z ≠ nx i) as Hzx.
    { intros Heq. rewrite <- Heq in Hn. apply elem_of_app in Hn as [Hn|Hn%list_elem_of_singleton].
      - set_solver.
      - subst. apply Hy. by left. }
    rewrite (upd_ne (pv i) _ _ x), (upd_ne (nx i) _ _ z) by done.
    split_and!; [done..|]. apply IH; [done..|set_solver].
Qed.

(** [b->next = head.next; b->prev = &head; head.next->prev = b; head.next = b;] *)
Lemma seg_push nx pv h l i :
  seg nx pv h l h -> NoDup (h :: l) -> i ∉ h :: l ->
  seg (upd h i (upd i (nx h) nx)) (upd (nx h) i (upd i h pv)) h (i :: l) h.
Proof.
  intros Hs Hnd Hi. apply not_elem_of_cons in Hi as [Hih Hil].
  apply NoDup_cons in Hnd as [Hh Hnd]. simpl. rewrite upd_eq.
  destruct l as [|z l]; simpl in *.
  - destruct Hs as [-> Hp]. rewrite (upd_ne h i _ i), upd_eq, upd_eq, (upd_ne h i _ i), upd_eq by done.
    done.
  - destruct Hs as (-> & Hp & Hs). apply NoDup_cons in Hnd as [Hz Hnd].
    rewrite (upd_ne h i _ i), upd_eq, upd_eq, (upd_ne z i _ i), upd_eq by set_solver.
    split_and!; [done..|]. apply (seg_ext nx pv); [| |done]; intros v Hv; rewrite !upd_ne; set_solver.
Qed.

(** ** The pointers of the cache *)

Definition nx (st : bio) (i : nat) : nat := bnext (buf_at i st).

Definition pv (st : bio) (i : nat) : nat := bprev (buf_at i st).

Record ring (l : list nat) (st : bio) : Prop := mkRing {
  ring_len : length (bufs st) = S NBUF;
  ring_seg : seg (nx st) (pv st) HEAD l HEAD;
  ring_perm : l ≡ₚ seq 0 NBUF }.

Lemma ring_nodup l st : ring l st -> NoDup (HEAD :: l).
Proof.
  intros [_ _ Hp]. apply NoDup_cons. rewrite Hp. split; [|apply NoDup_seq].
  rewrite elem_of_seq. unfold HEAD. lia.
Qed.

Lemma ring_elem l st i : ring l st -> i ∈ l <-> (i < NBUF)%nat.
Proof. intros [_ _ ->]. rewrite elem_of_seq. lia. Qed.

Lemma buf_at_upd i j f st : (i < length (bufs st))%nat ->
  buf_at j (upd_buf i f st) = if decide (j = i) then f (buf_at i st) else buf_at j st.
Proof.
  intros Hi. unfold buf_at, upd_buf. simpl. destruct (decide (j = i)) as [->|Hne].
  - rewrite list_lookup_alter_eq. apply lookup_lt_is_Some in Hi as [x ->]. done.
  - by rewrite list_lookup_alter_ne.
Qed.

Lemma buf_at_lookup i st x : bufs st !! i = Some x -> buf_at i st = x.
Proof. unfold buf_at. by intros ->. Qed.

Lemma lookup_buf_at i st : (i < length (bufs st))%nat -> bufs st !! i = Some (buf_at i st).
Proof. unfold buf_at. intros [x ->]%lookup_lt_is_Some. done. Qed.

(** The walks of [bget] find the first match along the list. *)
Lemma cached_walk st dev bn n l x : seg (nx st) (pv st) x l HEAD -> HEAD ∉ l -> (length l < n)%nat ->
  match bget_cached n st dev bn (nx st x) with
  | Some b => b ∈ l /\ bdev (buf_at b st) = dev /\ blockno (buf_at b st) = bn
  | None => forall b, b ∈ l -> ~ (bdev (buf_at b st) = dev /\ blockno (buf_at b st) = bn)
  end.
Proof.
  revert x n. induction l as [|z l IH]; intros x [|n] Hs Hh Hn; simpl in *; try lia.
  - destruct Hs as [-> _]. rewrite decide_True by done. set_solver.
  - destruct Hs as (-> & _ & Hs). rewrite decide_False by set_solver.
    destruct (_ && _) eqn:E.
    + apply andb_true_iff in E as [E1 E2]. apply Z.eqb_eq in E1, E2. set_solver.
    + specialize (IH z n Hs ltac:(set_solver) ltac:(lia)). unfold nx in IH.
      destruct (bget_cached _ _ _ _ _) as [b|]; [set_solver|]. intros b [->|Hb]%elem_of_cons; [|by apply IH].
      intros [H1 H2]. rewrite H1, H2, !Z.eqb_refl in E. done.
Qed.

Lemma free_walk st n l y : seg (nx st) (pv st) HEAD l y -> HEAD ∉ l -> (length l < n)%nat ->
  match bget_free n st (pv st y) with
  | Some b => b ∈ l /\ refcnt (buf_at b st) = 0 /\ Z.land (bflags (buf_at b st)) B_DIRTY = 0
  | None => forall b, b ∈ l ->
      ~ (refcnt (buf_at b st) = 0 /\ Z.land (bflags (buf_at b st)) B_DIRTY = 0)
  end.
Proof.
  revert y n. induction l as [|z l IH] using rev_ind; intros y [|n] Hs Hh Hn; simpl in *; try lia.
  - destruct Hs as [_ ->]. rewrite decide_True by done. set_solver.
  - apply seg_app in Hs as [Hs [_ ->]]. rewrite decide_False by set_solver.
    rewrite length_app in Hn. simpl in Hn. destruct (_ && _) eqn:E.
    + apply andb_true_iff in E as [E1 E2]. apply Z.eqb_eq in E1, E2. set_solver.
    + specialize (IH z n Hs ltac:(set_solver) ltac:(lia)). unfold pv in IH.
      destruct (bget_free _ _ _) as [b|]; [set_solver|].
      intros b [Hb| ->%list_elem_of_singleton]%elem_of_app; [by apply IH|].
      intros [H1 H2]. rewrite H1, H2 in E. done.
Qed.

(** ** What the pointer updates leave alone *)

Definition core (b : buf) : buf := set_bprev 0 (set_bnext 0 b).

Definition cores (st : bio) : list buf := core <$> bufs st.

(** [relinked st st']: only list pointers changed. *)
Definition relinked (st st' : bio) : Prop :=
  cores st' = cores st /\ disk st' = disk st /\ dwrites st' = dwrites st.

#[global] Instance relinked_preorder : PreOrder relinked.
Proof.
  split; [by intros st; split_and!|].
  intros s1 s2 s3 (? & ? & ?) (? & ? & ?). split_and!; congruence.
Qed.

Lemma fmap_alter_same {A B} (g : A -> B) (f : A -> A) (l : list A) (i : nat) :
  (forall x, g (f x) = g x) -> g <$> alter f i l = g <$> l.
Proof.
  intros Hg. apply list_eq. intros j. rewrite !list_lookup_fmap.
  destruct (decide (j = i)) as [->|Hne].
  - rewrite list_lookup_alter_eq. destruct (l !! i); simpl; [by rewrite Hg|done].
  - by rewrite list_lookup_alter_ne.
Qed.

Lemma relinked_next i v st : relinked st (upd_buf i (set_bnext v) st).
Proof. split_and!; [|done..]. by apply fmap_alter_same. Qed.

Lemma relinked_prev i v st : relinked st (upd_buf i (set_bprev v) st).
Proof. split_and!; [|done..]. by apply fmap_alter_same. Qed.

Lemma upd_next_ptr i v st : (i < length (bufs st))%nat ->
  (forall j, nx (upd_buf i (set_bnext v) st) j = upd i v (nx st) j) /\
  (forall j, pv (upd_buf i (set_bnext v) st) j = pv st j).
Proof.
  intros Hi. unfold nx, pv, upd. split; intros j; rewrite buf_at_upd by done;
    destruct (decide (j = i)) as [->|]; done.
Qed.

Lemma upd_prev_ptr i v st : (i < length (bufs st))%nat ->
  (forall j, nx (upd_buf i (set_bprev v) st) j = nx st j) /\
  (forall j, pv (upd_buf i (set_bprev v) st) j = upd i v (pv st) j).
Proof.
  intros Hi. unfold nx, pv, upd. split; intros j; rewrite buf_at_upd by done;
    destruct (decide (j = i)) as [->|]; done.
Qed.

Lemma length_upd_buf i f st : length (bufs (upd_buf i f st)) = length (bufs st).
Proof. apply length_alter. Qed.

Lemma upd_ext x v f g : (forall j, f j = g j) -> forall j, upd x v f j = upd x v g j.
Proof. intros H j. unfold upd. by rewrite H. Qed.

Lemma ring_next_lt l st i : ring l st -> i ∈ HEAD :: l ->
  (nx st i < S NBUF)%nat /\ (pv st i < S NBUF)%nat.
Proof.
  intros Hr Hi. assert (forall j, j ∈ HEAD :: l -> (j < S NBUF)%nat) as Hlt.
  { intros j [->|Hj]%elem_of_cons; [unfold HEAD; lia|]. apply (ring_elem _ _ _ Hr) in Hj. lia. }
  assert (seg (nx st) (pv st) HEAD l HEAD) as Hs by apply Hr.
  assert (forall x y l', seg (nx st) (pv st) x l' y -> (forall j, j ∈ x :: l' -> nx st j ∈ l' ++ [y]) /\
    (forall j, j ∈ l' ++ [y] -> pv st j ∈ x :: l')) as Hin.
  { clear. intros x y l'. revert x. induction l' as [|z l' IH]; intros x; simpl.
    - intros [H1 H2]. split; intros j Hj; apply list_elem_of_singleton in Hj as ->; set_solver.
    - intros (H1 & H2 & H3). destruct (IH z H3) as [Ha Hb]. split; intros j Hj.
      + apply elem_of_cons in Hj as [->|Hj]; [rewrite H1; set_solver|]. specialize (Ha j Hj). set_solver.
      + apply elem_of_cons in Hj as [->|Hj]; [rewrite H2; set_solver|]. specialize (Hb j Hj). set_solver. }
  destruct (Hin _ _ _ Hs) as [Ha Hb]. split.
  - apply Hlt. specialize (Ha i Hi). set_solver.
  - apply Hlt, Hb. set_solver.
Qed.

(** The two halves of [unlink_front], as states. *)
Definition unlinked (b : nat) (st : bio) : bio :=
  upd_buf (pv st b) (set_bnext (nx st b)) (upd_buf (nx st b) (set_bprev (pv st b)) st).

Definition pushed_front (b : nat) (st : bio) : bio :=
  upd_buf HEAD (set_bnext b) (upd_buf (nx st HEAD) (set_bprev b)
    (upd_buf b (set_bprev HEAD) (upd_buf b (set_bnext (nx st HEAD)) st))).

Lemma seg_pointwise st f g x l y :
  (forall j, nx st j = f j) -> (forall j, pv st j = g j) -> seg f g x l y -> seg (nx st) (pv st) x l y.
Proof. intros H1 H2. by apply seg_ext. Qed.

Lemma unlinked_seg l1 b l2 st :
  ring (l1 ++ b :: l2) st -> seg (nx (unlinked b st)) (pv (unlinked b st)) HEAD (l1 ++ l2) HEAD.
Proof.
  intros Hr. pose proof (ring_nodup _ _ Hr) as Hnd. pose proof Hr as [Hlen Hs _].
  destruct (ring_next_lt _ _ b Hr) as [Hn1 Hn2]; [set_solver|].
  destruct (upd_prev_ptr (nx st b) (pv st b) st) as [N1 P1]; [lia|].
  set (st1 := upd_buf (nx st b) (set_bprev (pv st b)) st) in *.
  destruct (upd_next_ptr (pv st b) (nx st b) st1) as [N2 P2]; [unfold st1; rewrite length_upd_buf; lia|].
  apply (seg_pointwise _ (upd (pv st b) (nx st b) (nx st)) (upd (nx st b) (pv st b) (pv st))).
  - intros j. unfold unlinked. fold st1. rewrite N2. by apply upd_ext.
  - intros j. unfold unlinked. fold st1. by rewrite P2, P1.
  - apply seg_app in Hs as [H1 H2]. apply seg_unlink; [done..|]. apply NoDup_cons in Hnd as [? _]. done.
Qed.

Lemma pushed_front_seg l b st :
  length (bufs st) = S NBUF -> seg (nx st) (pv st) HEAD l HEAD -> NoDup (HEAD :: l) ->
  b ∉ HEAD :: l -> (b < S NBUF)%nat -> (nx st HEAD < S NBUF)%nat ->
  seg (nx (pushed_front b st)) (pv (pushed_front b st)) HEAD (b :: l) HEAD.
Proof.
  intros Hlen Hs Hnd Hb Hbl Hh. assert (b ≠ HEAD) as Hbh by set_solver.
  destruct (upd_next_ptr b (nx st HEAD) st) as [N1 P1]; [lia|].
  set (st1 := upd_buf b (set_bnext (nx st HEAD)) st) in *.
  destruct (upd_prev_ptr b HEAD st1) as [N2 P2]; [unfold st1; rewrite length_upd_buf; lia|].
  set (st2 := upd_buf b (set_bprev HEAD) st1) in *.
  destruct (upd_prev_ptr (nx st HEAD) b st2) as [N3 P3];
    [unfold st2, st1; rewrite !length_upd_buf; lia|].
  set (st3 := upd_buf (nx st HEAD) (set_bprev b) st2) in *.
  destruct (upd_next_ptr HEAD b st3) as [N4 P4];
    [unfold st3, st2, st1; rewrite !length_upd_buf; unfold HEAD; lia|].
  apply (seg_pointwise _ (upd HEAD b (upd b (nx st HEAD) (nx st)))
    (upd (nx st HEAD) b (upd b HEAD (pv st)))).
  - intros j. unfold pushed_front. fold st1 st2 st3. rewrite N4. apply upd_ext. intros k.
    by rewrite N3, N2, N1.
  - intros j. unfold pushed_front. fold st1 st2 st3. rewrite P4, P3. apply upd_ext. intros k.
    rewrite P2. by apply upd_ext.
  - by apply seg_push.
Qed.

Lemma unlinked_relinked b st : relinked st (unlinked b st).
Proof. etrans; [apply relinked_prev|apply relinked_next]. Qed.

Lemma pushed_front_relinked b st : relinked st (pushed_front b st).
Proof.
  etrans; [apply relinked_next|]. etrans; [apply relinked_prev|].
  etrans; [apply relinked_prev|apply relinked_next].
Qed.

Lemma length_relinked st st' : relinked st st' -> length (bufs st') = length (bufs st).
Proof.
  intros [H _]. apply (f_equal length) in H. unfold cores in H. by rewrite !length_fmap in H.
Qed.

(** What the code reads again between its updates has not changed. *)
Lemma unlink_front_run b st :
  length (bufs st) = S NBUF -> (b < NBUF)%nat -> (nx st b < S NBUF)%nat -> nx st b ≠ b ->
  unlink_front b st = Ok tt (pushed_front b (unlinked b st)).
Proof.
  intros Hlen Hb Hn Hnb. unfold unlink_front, unlinked, mbind, M_bind, gets, modify.
  fold (nx st b) (pv st b). set (st1 := upd_buf (nx st b) (set_bprev (pv st b)) st).
  assert (buf_at b st1 = buf_at b st) as ->
    by (unfold st1; rewrite buf_at_upd, decide_False by (lia || done); done).
  fold (nx st b) (pv st b). set (st2 := upd_buf (pv st b) (set_bnext (nx st b)) st1).
  fold (nx st2 HEAD). unfold pushed_front. do 2 f_equal.
  set (st4 := upd_buf b (set_bprev HEAD) _). assert (length (bufs st4) = S NBUF) as Hl4
    by (unfold st4, st2, st1; by rewrite !length_upd_buf).
  assert (bnext (buf_at HEAD st4) = nx st2 HEAD) as ->; [|done].
  unfold st4. rewrite !buf_at_upd, !decide_False by
    (unfold HEAD; rewrite ?length_upd_buf; unfold st2, st1; rewrite ?length_upd_buf; lia). done.
Qed.

(** [brelse] moves the buffer to the front of the list. *)
Lemma wp_unlink_front P l1 b l2 st (Q : unit -> bio -> Prop) :
  ring (l1 ++ b :: l2) st ->
  (forall st', ring (b :: l1 ++ l2) st' -> relinked st st' -> Q tt st') ->
  wp P (unlink_front b) st Q.
Proof.
  intros Hr HQ. pose proof (ring_nodup _ _ Hr) as Hnd. pose proof Hr as [Hlen Hs Hp].
  destruct (ring_next_lt _ _ b Hr) as [Hn1 Hn2]; [set_solver|].
  assert (b < NBUF)%nat as Hbl by (apply (ring_elem _ _ b Hr); set_solver).
  assert (nx st b ≠ b) as Hnb.
  { apply seg_app in Hs as [_ Hs]. apply NoDup_cons in Hnd as [_ Hnd].
    apply NoDup_app in Hnd as (_ & _ & Hnd). apply NoDup_cons in Hnd as [Hb2 _].
    destruct l2 as [|z l2]; simpl in Hs; destruct Hs as [-> _]; [unfold HEAD; lia|set_solver]. }
  apply (wp_ok _ _ _ tt (pushed_front b (unlinked b st))); [by apply unlink_front_run|].
  pose proof (unlinked_relinked b st) as Hrl.
  pose proof (length_relinked _ _ Hrl) as Hlu. rewrite Hlen in Hlu.
  assert (NoDup (HEAD :: l1 ++ l2) /\ b ∉ HEAD :: l1 ++ l2) as [Hnd' Hb'].
  { assert (HEAD :: l1 ++ b :: l2 ≡ₚ b :: HEAD :: l1 ++ l2) as Hpm
      by (rewrite <- Permutation_middle; apply Permutation_swap).
    rewrite Hpm in Hnd. by apply NoDup_cons in Hnd as [? ?]. }
  pose proof (unlinked_seg _ _ _ _ Hr) as Hu.
  apply HQ; [|by etrans; [|apply pushed_front_relinked]]. constructor.
  - by rewrite (length_relinked _ _ (pushed_front_relinked b _)).
  - apply pushed_front_seg; [done|done|done|done|lia|].
    destruct (l1 ++ l2) as [|z l] eqn:El; simpl in Hu; destruct Hu as [-> _]; [unfold HEAD; lia|].
    assert (z < NBUF)%nat; [|lia]. apply (ring_elem _ _ z Hr).
    assert (z ∈ l1 ++ l2) by (rewrite El; set_solver). set_solver.
  - rewrite <- Hp. by rewrite Permutation_middle.
Qed.
