(* ===== verification/BioSpec.v ===== *)
(** * The buffer cache as a logical disk

    [acache] is what the cache promises its clients: a logical disk [alog]
    (each block as last written into its buffer), the blocks pinned by
    B_DIRTY, the blocks in use and by which process, and the physical disk
    with the history of its writes.  [cacheR a st] relates it to the code's
    state; each operation of bio.c is proved to be its abstract counterpart. *)

From stdpp Require Import base numbers gmap list strings.
From S2P Require Import Prelude Spinlock Sleeplock Bio BioRing.
Open Scope Z_scope.

Record acache := mkA {
  alog : list (list Z);
  apin : gset Z;
  aheld : gmap Z Z;
  adisk : list (list Z);
  awr : list (Z * list Z) }.

(** The number of blocks. *)
Definition asize (a : acache) : Z := Z.of_nat (length (adisk a)).

(** A buffer nothing was read into yet. *)
Definition fresh_buf (b : buf) : Prop :=
  bdev b = 0 /\ bflags b = 0 /\ refcnt b = 0 /\ slocked (block b) = 0.

Record buf_for (a : acache) (b : buf) : Prop := mkFor {
  bf_dev : bdev b = 1;
  bf_no : 0 <= blockno b < asize a;
  bf_flags : bflags b = 0 \/ bflags b = B_VALID \/ bflags b = Z.lor B_VALID B_DIRTY;
  bf_lock : (slocked (block b) = 0 /\ refcnt b = 0 /\ aheld a !! blockno b = None) \/
            (slocked (block b) = 1 /\ refcnt b = 1 /\ aheld a !! blockno b = Some (spid (block b)));
  bf_pin : bflags b = Z.lor B_VALID B_DIRTY <-> blockno b ∈ apin a;
  bf_valid : bflags b ≠ 0 -> alog a !! Z.to_nat (blockno b) = Some (bdata b);
  bf_invalid : bflags b = 0 -> alog a !! Z.to_nat (blockno b) = adisk a !! Z.to_nat (blockno b) }.

Record a_ok (a : acache) : Prop := mkAok {
  a_len : length (alog a) = length (adisk a);
  a_log : Forall (fun d => length d = Z.to_nat BSIZE) (alog a);
  a_disk : Forall (fun d => length d = Z.to_nat BSIZE) (adisk a);
  a_clean : forall n, 0 <= n -> n ∉ apin a -> aheld a !! n = None ->
    alog a !! Z.to_nat n = adisk a !! Z.to_nat n }.

Record cacheR (a : acache) (st : bio) : Prop := mkR {
  R_ring : exists l, ring l st;
  R_disk : disk st = adisk a;
  R_wr : dwrites st = awr a;
  R_ok : a_ok a;
  R_bufs : forall i b, (i < NBUF)%nat -> bufs st !! i = Some b -> fresh_buf b \/ buf_for a b;
  R_uniq : forall i j b c, (i < NBUF)%nat -> (j < NBUF)%nat ->
    bufs st !! i = Some b -> bufs st !! j = Some c ->
    bdev b = 1 -> bdev c = 1 -> blockno b = blockno c -> i = j;
  R_cached : forall n, n ∈ apin a \/ n ∈ dom (aheld a) ->
    exists i b, (i < NBUF)%nat /\ bufs st !! i = Some b /\ bdev b = 1 /\ blockno b = n }.

(** [i] is the index of a buffer with the contents of block [n]. *)
Definition owns (st : bio) (i : nat) (n : Z) : Prop :=
  (i < NBUF)%nat /\ exists b, bufs st !! i = Some b /\ bdev b = 1 /\ blockno b = n /\ bflags b ≠ 0.

(** [a] and [a'] agree off the block [n]. *)
Record off (n : Z) (a a' : acache) : Prop := mkOff {
  off_len : length (adisk a') = length (adisk a);
  off_log : forall k, 0 <= k -> k ≠ n -> alog a' !! Z.to_nat k = alog a !! Z.to_nat k;
  off_disk : forall k, 0 <= k -> k ≠ n -> adisk a' !! Z.to_nat k = adisk a !! Z.to_nat k;
  off_held : forall k, k ≠ n -> aheld a' !! k = aheld a !! k;
  off_pin : forall k, k ≠ n -> k ∈ apin a' <-> k ∈ apin a }.

Lemma buf_for_off n a a' b : off n a a' -> blockno b ≠ n -> buf_for a b -> buf_for a' b.
Proof.
  intros [H1 H2 H3 H4 H5] Hn [F1 F2 F3 F4 F5 F6 F7]. unfold asize in *.
  constructor; unfold asize; rewrite ?H1, ?H2, ?H3, ?H4, ?H5 by lia; done.
Qed.

Lemma a_ok_off n a a' : 0 <= n < asize a -> off n a a' ->
  length (alog a') = length (adisk a') ->
  (forall d, alog a' !! Z.to_nat n = Some d -> length d = Z.to_nat BSIZE) ->
  (forall d, adisk a' !! Z.to_nat n = Some d -> length d = Z.to_nat BSIZE) ->
  (n ∉ apin a' -> aheld a' !! n = None -> alog a' !! Z.to_nat n = adisk a' !! Z.to_nat n) ->
  a_ok a -> a_ok a'.
Proof.
  intros Hn [H1 H2 H3 H4 H5] Hl Hlog Hdisk Hc [A1 A2 A3 A4]. constructor; [done| | |].
  - apply Forall_lookup_2. intros k d Hd. destruct (decide (k = Z.to_nat n)) as [->|Hne]; [by apply Hlog|].
    rewrite <- (Nat2Z.id k) in Hd. rewrite H2 in Hd by lia. by apply (Forall_lookup_1 _ _ _ _ A2 Hd).
  - apply Forall_lookup_2. intros k d Hd. destruct (decide (k = Z.to_nat n)) as [->|Hne]; [by apply Hdisk|].
    rewrite <- (Nat2Z.id k) in Hd. rewrite H3 in Hd by lia. by apply (Forall_lookup_1 _ _ _ _ A3 Hd).
  - intros k Hk Hp Hh. destruct (decide (k = n)) as [->|Hne]; [by apply Hc|].
    rewrite H2, H3 by done. apply A4; [done|by intros Hin%H5|by rewrite <- (H4 k Hne)].
Qed.

(** Only list pointers changed. *)
Lemma cores_lookup st st' i b : cores st' = cores st -> bufs st' !! i = Some b ->
  exists c, bufs st !! i = Some c /\ core c = core b.
Proof.
  intros Hc Hb. apply (f_equal (fun l => l !! i)) in Hc. unfold cores in Hc.
  rewrite !list_lookup_fmap, Hb in Hc. simpl in Hc. destruct (bufs st !! i) as [c|]; [|done].
  exists c. split; [done|]. by apply (inj Some) in Hc.
Qed.

Lemma fresh_core b c : core c = core b -> fresh_buf c -> fresh_buf b.
Proof. destruct b, c. unfold fresh_buf. intros [=]. simpl. by subst. Qed.

Lemma buf_for_core a b c : core c = core b -> buf_for a c -> buf_for a b.
Proof. destruct b, c. intros [=]. subst. intros []. by constructor. Qed.

Lemma core_id b c : core c = core b -> bdev c = bdev b /\ blockno c = blockno b /\ bflags c = bflags b.
Proof. destruct b, c. intros [=]. by subst. Qed.

Lemma owns_relinked st st' i n : relinked st st' -> owns st i n -> owns st' i n.
Proof.
  intros [Hc _] (Hi & b & Hb & Hd). split; [done|]. symmetry in Hc.
  destruct (cores_lookup _ _ _ _ Hc Hb) as (c & Hc' & Hcc). exists c. split; [done|].
  destruct (core_id _ _ Hcc) as (-> & -> & ->). done.
Qed.

Lemma cacheR_relinked a st st' l : relinked st st' -> ring l st' -> cacheR a st -> cacheR a st'.
Proof.
  intros (Hc & Hd & Hw) Hr [_ R1 R2 R3 R4 R5 R6]. constructor; [by exists l|congruence|congruence|done| | |].
  - intros i b Hi Hb. destruct (cores_lookup _ _ _ _ Hc Hb) as (c & Hc' & Hcc).
    destruct (R4 i c Hi Hc') as [H|H]; [left; by eapply fresh_core|right; by eapply buf_for_core].
  - intros i j b c Hi Hj Hb Hc' H1 H2 H3. destruct (cores_lookup _ _ _ _ Hc Hb) as (b0 & Hb0 & E1).
    destruct (cores_lookup _ _ _ _ Hc Hc') as (c0 & Hc0 & E2).
    destruct (core_id _ _ E1) as (? & ? & _). destruct (core_id _ _ E2) as (? & ? & _).
    apply (R5 i j b0 c0); congruence.
  - intros n Hn. destruct (R6 n Hn) as (i & b & Hi & Hb & H1 & H2). symmetry in Hc.
    destruct (cores_lookup _ _ _ _ Hc Hb) as (c & Hc' & Hcc). destruct (core_id _ _ Hcc) as (E1 & E2 & _).
    exists i, c. split_and!; congruence.
Qed.

(** ** Changing one buffer *)

Lemma ring_same_links l st st' :
  ring l st -> length (bufs st') = length (bufs st) ->
  (forall j, bprev (buf_at j st') = bprev (buf_at j st) /\ bnext (buf_at j st') = bnext (buf_at j st)) ->
  ring l st'.
Proof.
  intros [H1 H2 H3] Hl Hj. constructor; [congruence| |done].
  apply (seg_ext (nx st) (pv st)); [| |done]; intros z _; unfold nx, pv; apply Hj.
Qed.

Lemma buf_at_insert st st' i x y j :
  bufs st !! i = Some x -> bufs st' = <[i := y]> (bufs st) ->
  buf_at j st' = if decide (j = i) then y else buf_at j st.
Proof.
  intros Hx Hs. unfold buf_at. rewrite Hs. destruct (decide (j = i)) as [->|Hne].
  - rewrite list_lookup_insert_eq; [done|]. by eapply lookup_lt_Some.
  - by rewrite list_lookup_insert_ne.
Qed.

Lemma ring_insert l st st' i x y :
  ring l st -> bufs st !! i = Some x -> bufs st' = <[i := y]> (bufs st) ->
  bprev y = bprev x -> bnext y = bnext x -> ring l st'.
Proof.
  intros Hr Hx Hs Hp Hn. apply (ring_same_links _ st); [done|by rewrite Hs, length_insert|].
  intros j. rewrite (buf_at_insert _ _ _ _ _ _ Hx Hs).
  destruct (decide (j = i)) as [->|]; [|done]. by rewrite (buf_at_lookup _ _ _ Hx).
Qed.

Lemma cacheR_upd a a' st st' i x y :
  cacheR a st -> (i < NBUF)%nat -> bufs st !! i = Some x ->
  bufs st' = <[i := y]> (bufs st) -> bprev y = bprev x -> bnext y = bnext x ->
  disk st' = adisk a' -> dwrites st' = awr a' -> a_ok a' ->
  off (blockno y) a a' -> buf_for a' y ->
  (forall j c, (j < NBUF)%nat -> j ≠ i -> bufs st !! j = Some c -> bdev c = 1 ->
     blockno c ≠ blockno y) ->
  (bdev x = 1 -> blockno x ≠ blockno y -> blockno x ∉ apin a /\ aheld a !! blockno x = None) ->
  cacheR a' st'.
Proof.
  intros [[l R0] R1 R2 R3 R4 R5 R6] Hi Hx Hs Hp Hn Hd Hw Hok Hoff Hy Hu Hold.
  assert (i < length (bufs st))%nat as Hlt by (by eapply lookup_lt_Some).
  constructor; [exists l; by eapply ring_insert|done|done|done| | |].
  - intros j b Hj Hb. rewrite Hs in Hb. apply list_lookup_insert_Some in Hb as [(<- & <- & _)|[Hne Hb]];
      [by right|]. destruct (R4 j b Hj Hb) as [H|H]; [by left|right].
    apply (buf_for_off (blockno y) a); [done| |done]. apply (Hu j b); [done|done|done|apply H].
  - intros j k b c Hj Hk Hb Hc Db Dc Hno. rewrite Hs in Hb, Hc.
    apply list_lookup_insert_Some in Hb as [(<- & <- & _)|[Hne1 Hb]];
      apply list_lookup_insert_Some in Hc as [(<- & <- & _)|[Hne2 Hc]].
    + done.
    + destruct (Hu k c); [done|by intros ->|done|done|done].
    + destruct (Hu j b); [done|by intros ->|done|done|done].
    + by apply (R5 j k b c).
  - intros n Hnn. destruct (decide (n = blockno y)) as [->|Hne].
    { exists i, y. split_and!; [done| |apply Hy|done]. rewrite Hs. by apply list_lookup_insert_eq. }
    assert (n ∈ apin a \/ n ∈ dom (aheld a)) as Hin.
    { destruct Hoff as [_ _ _ H4 H5]. destruct Hnn as [Hnn|Hnn]; [left; by apply H5|right].
      by rewrite elem_of_dom, <- H4, <- elem_of_dom by done. }
    destruct (R6 n Hin) as (j & b & Hj & Hb & Db & <-). exists j, b. split_and!; [done| |done|done].
    rewrite Hs, list_lookup_insert_ne; [done|]. intros <-. simplify_eq.
    destruct (Hold Db Hne) as [H1 H2]. destruct Hin as [?|Hin]; [done|].
    apply elem_of_dom in Hin as [? Hin]. congruence.
Qed.

(** The case where the buffer stays with its block. *)
Lemma cacheR_upd_same a a' st st' i x y :
  cacheR a st -> (i < NBUF)%nat -> bufs st !! i = Some x -> bdev x = 1 -> blockno y = blockno x ->
  bufs st' = <[i := y]> (bufs st) -> bprev y = bprev x -> bnext y = bnext x ->
  disk st' = adisk a' -> dwrites st' = awr a' -> a_ok a' -> off (blockno x) a a' -> buf_for a' y ->
  cacheR a' st'.
Proof.
  intros HR Hi Hx Dx Hno Hs Hp Hn Hd Hw Hok Hoff Hy.
  apply (cacheR_upd a a' st st' i x y); try done; [by rewrite Hno|].
  intros j c Hj Hne Hc Dc Heq. apply Hne. apply (R_uniq _ _ HR j i c x); congruence.
Qed.

Lemma upd_buf_insert i f st x : bufs st !! i = Some x ->
  bufs (upd_buf i f st) = <[i := f x]> (bufs st).
Proof. intros Hx. by apply alter_insert_at. Qed.

Lemma upd_buf_twice i f g st : upd_buf i g (upd_buf i f st) = upd_buf i (fun x => g (f x)) st.
Proof.
  unfold upd_buf. simpl. f_equal. apply list_eq. intros j. destruct (decide (j = i)) as [->|Hne].
  - rewrite !list_lookup_alter_eq. by destruct (bufs st !! i).
  - by rewrite !list_lookup_alter_ne.
Qed.

(** ** A free buffer exists unless NBUF blocks are in use *)

Lemma no_free_full a st :
  cacheR a st ->
  (forall i b, (i < NBUF)%nat -> bufs st !! i = Some b ->
     ~ (refcnt b = 0 /\ Z.land (bflags b) B_DIRTY = 0)) ->
  (NBUF <= size (apin a ∪ dom (aheld a)))%nat.
Proof.
  intros HR Hb. pose proof (R_ring _ _ HR) as [l [Hlen _ _]].
  assert (forall i, (i < NBUF)%nat -> bufs st !! i = Some (buf_at i st)) as Hat
    by (intros i Hi; apply lookup_buf_at; lia).
  assert (forall i, (i < NBUF)%nat -> buf_for a (buf_at i st)) as Hfor.
  { intros i Hi. destruct (R_bufs _ _ HR i _ Hi (Hat i Hi)) as [(_ & Hf & Hr & _)|H]; [|done].
    destruct (Hb i _ Hi (Hat i Hi)). by rewrite Hf, Hr. }
  set (ns := (fun i => blockno (buf_at i st)) <$> seq 0 NBUF).
  assert (NoDup ns) as Hnd.
  { apply NoDup_fmap_2_strong; [|apply NoDup_seq]. intros i j Hi Hj Heq.
    apply elem_of_seq in Hi, Hj. apply (R_uniq _ _ HR i j (buf_at i st) (buf_at j st)); try lia;
      [apply Hat; lia|apply Hat; lia|apply Hfor; lia|apply Hfor; lia]. }
  rewrite <- (length_seq NBUF 0), <- (length_fmap (fun i => blockno (buf_at i st))). fold ns.
  rewrite <- (size_list_to_set (C := gset Z) ns Hnd). apply subseteq_size. intros n Hn.
  apply elem_of_list_to_set, list_elem_of_fmap in Hn as (i & -> & Hi). apply elem_of_seq in Hi.
  destruct (Hfor i) as [_ _ Hf Hl Hp _ _]; [lia|]. apply elem_of_union.
  destruct Hl as [(_ & Hr & _)|(_ & _ & Hh)]; [left|right; apply elem_of_dom; by eexists].
  apply Hp. destruct Hf as [Hf|[Hf|Hf]]; [| |done];
    (destruct (Hb i _ ltac:(lia) (Hat i ltac:(lia))); by rewrite Hf, Hr).
Qed.

(** ** The operations on the logical disk *)

Definition a_hold (n p : Z) (a : acache) : acache :=
  mkA (alog a) (apin a) (<[n := p]> (aheld a)) (adisk a) (awr a).

Definition a_drop (n : Z) (a : acache) : acache :=
  mkA (alog a) (apin a) (delete n (aheld a)) (adisk a) (awr a).

Definition a_set (n : Z) (d : list Z) (a : acache) : acache :=
  mkA (<[Z.to_nat n := d]> (alog a)) (apin a) (aheld a) (adisk a) (awr a).

Definition a_pin (n : Z) (a : acache) : acache :=
  mkA (alog a) ({[n]} ∪ apin a) (aheld a) (adisk a) (awr a).

(** The contents of block [n]. *)
Definition a_get (n : Z) (a : acache) : list Z := default [] (alog a !! Z.to_nat n).

Definition a_flush (n : Z) (a : acache) : acache :=
  mkA (alog a) (apin a ∖ {[n]}) (aheld a) (<[Z.to_nat n := a_get n a]> (adisk a))
    (awr a ++ [(n, a_get n a)]).

Lemma off_a_hold n p a : off n a (a_hold n p a).
Proof. constructor; simpl; try done. intros k Hk. by rewrite lookup_insert_ne. Qed.

Lemma off_a_drop n a : off n a (a_drop n a).
Proof. constructor; simpl; try done. intros k Hk. by rewrite lookup_delete_ne. Qed.

Lemma off_a_set n d a : 0 <= n -> off n a (a_set n d a).
Proof. intros. constructor; simpl; try done. intros k Hk ?. rewrite list_lookup_insert_ne; [done|lia]. Qed.

Lemma off_a_pin n a : off n a (a_pin n a).
Proof. constructor; simpl; try done. set_solver. Qed.

Lemma off_a_flush n a : 0 <= n -> off n a (a_flush n a).
Proof.
  intros. constructor; simpl; try done; [by rewrite length_insert| |set_solver].
  intros k Hk ?. rewrite list_lookup_insert_ne; [done|lia].
Qed.

Lemma a_get_lookup a n : a_ok a -> 0 <= n < asize a -> alog a !! Z.to_nat n = Some (a_get n a).
Proof.
  intros [H1 _ _ _] Hn. unfold asize in Hn. unfold a_get.
  destruct (lookup_lt_is_Some_2 (alog a) (Z.to_nat n)) as [d Hd]; [lia|]. by rewrite Hd.
Qed.

Lemma a_get_length a n : a_ok a -> 0 <= n < asize a -> length (a_get n a) = Z.to_nat BSIZE.
Proof.
  intros Ha Hn. pose proof (a_get_lookup _ _ Ha Hn). by apply (Forall_lookup_1 _ _ _ _ (a_log _ Ha) H).
Qed.

Lemma a_ok_hold n p a : a_ok a -> a_ok (a_hold n p a).
Proof.
  intros [H1 H2 H3 H4]. constructor; try done. simpl. intros k Hk Hp Hh.
  apply H4; [done|done|]. by apply lookup_insert_None in Hh as [? _].
Qed.

Lemma a_ok_drop n a : a_ok a -> 
  (n ∈ apin a \/ alog a !! Z.to_nat n = adisk a !! Z.to_nat n) -> a_ok (a_drop n a).
Proof.
  intros [H1 H2 H3 H4] Hn. constructor; try done. simpl. intros k Hk Hp Hh.
  apply lookup_delete_None in Hh as [->|Hh]; [by destruct Hn|by apply H4].
Qed.

Lemma a_ok_set n d a p : a_ok a -> aheld a !! n = Some p -> length d = Z.to_nat BSIZE -> 0 <= n ->
  a_ok (a_set n d a).
Proof.
  intros [H1 H2 H3 H4] Hn Hd H0. constructor; simpl; [by rewrite length_insert|by apply Forall_insert|done|].
  intros k Hk Hp Hh. rewrite list_lookup_insert_ne; [by apply H4|]. intros Heq.
  assert (n = k) as -> by lia. congruence.
Qed.

Lemma a_ok_pin n a : a_ok a -> a_ok (a_pin n a).
Proof. intros [H1 H2 H3 H4]. constructor; try done. simpl. intros k Hk Hp Hh. apply H4; set_solver. Qed.

Lemma a_ok_flush n a : a_ok a -> 0 <= n < asize a -> a_ok (a_flush n a).
Proof.
  intros Ha Hn. pose proof Ha as [H1 H2 H3 H4]. pose proof (a_get_lookup _ _ Ha Hn) as Hg.
  constructor; simpl; [by rewrite length_insert|done| |].
  - apply Forall_insert; [done|]. by apply a_get_length.
  - intros k Hk Hp Hh. destruct (decide (k = n)) as [->|Hne].
    + rewrite list_lookup_insert_eq; [done|]. unfold asize in Hn. lia.
    + rewrite list_lookup_insert_ne by lia. apply H4; [done| |done]. set_solver.
Qed.

(** ** Steps of the code *)

Section steps.
Context (me : Z) (P : failure -> Prop).

Lemma upd_buf_id b st x : bufs st !! b = Some x -> upd_buf b (set_block (block x)) st = st.
Proof.
  intros Hx. destruct st as [bs d w]. unfold upd_buf. simpl in *. f_equal.
  rewrite (alter_insert_at _ _ _ _ Hx). apply list_insert_id. rewrite Hx. by destruct x.
Qed.

Lemma wp_holding b m st x Q :
  msec ∅ m -> bufs st !! b = Some x -> holds me (block x) ->
  (forall m', quiet ∅ m m' -> Q true (m', st)) ->
  wp P (on_block b (holdingsleep me (Z.of_nat b))) (m, st) Q.
Proof.
  intros Hm Hx Hh HQ. unfold on_block. apply wp_part. rewrite (buf_at_lookup _ _ _ Hx).
  apply wp_holdingsleep; [done|done|]. intros m' Hm'. simpl. rewrite upd_buf_id by done. by apply HQ.
Qed.

Lemma wp_bset b f m st Q : Q tt (m, upd_buf b f st) -> wp P (bset f b) (m, st) Q.
Proof. done. Qed.

Lemma wp_bfield {A} (f : buf -> A) b m st x (Q : A -> mach * bio -> Prop) :
  bufs st !! b = Some x -> Q (f x) (m, st) -> wp P (bget_field f b) (m, st) Q.
Proof.
  intros Hx HQ. unfold bget_field. apply wp_data, wp_gets. by rewrite (buf_at_lookup _ _ _ Hx).
Qed.

Lemma quiet_trans m1 m2 m3 : quiet ∅ m1 m2 -> quiet ∅ m2 m3 -> quiet ∅ m1 m3.
Proof. intros [_ H1] [H2 H3]. split; [done|by etrans]. Qed.

(** [iderw] on a buffer to read, and on one to write. *)
Lemma wp_iderw_read b m st x d Q :
  msec ∅ m -> bufs st !! b = Some x -> holds me (block x) -> bflags x = 0 -> bdev x = 1 ->
  0 <= blockno x -> disk st !! Z.to_nat (blockno x) = Some d ->
  (forall m' st', quiet ∅ m m' -> bufs st' = <[b := set_bflags B_VALID (set_bdata d x)]> (bufs st) ->
     disk st' = disk st -> dwrites st' = dwrites st -> Q tt (m', st')) ->
  wp P (iderw me b) (m, st) Q.
Proof.
  intros Hm Hx Hh Hf Hd H0 Hdk HQ. unfold iderw. wp_next. apply (wp_holding _ _ _ x); [done..|].
  intros m' Hm'. simpl. wp_next. apply (wp_bfield _ _ _ _ x); [done|]. simpl. rewrite Hf, Hd. simpl.
  wp_next. apply wp_data, wp_gets.
  pose proof (lookup_lt_Some _ _ _ Hdk) as Hlt. rewrite Z.geb_leb.
  replace (Z.of_nat (length (disk st)) <=? blockno x) with false by lia. simpl.
  wp_next. wp_next. apply wp_data, wp_gets. rewrite Hdk. simpl. apply wp_bset, wp_bset.
  rewrite upd_buf_twice. apply HQ; [done| |done|done]. rewrite (upd_buf_insert _ _ _ _ Hx). simpl.
  by rewrite Hf.
Qed.

Lemma wp_iderw_write b m st x Q :
  msec ∅ m -> bufs st !! b = Some x -> holds me (block x) -> bflags x = Z.lor B_VALID B_DIRTY ->
  bdev x = 1 -> 0 <= blockno x < Z.of_nat (length (disk st)) ->
  (forall m' st', quiet ∅ m m' -> bufs st' = <[b := set_bflags B_VALID x]> (bufs st) ->
     disk st' = <[Z.to_nat (blockno x) := bdata x]> (disk st) ->
     dwrites st' = dwrites st ++ [(blockno x, bdata x)] -> Q tt (m', st')) ->
  wp P (iderw me b) (m, st) Q.
Proof.
  intros Hm Hx Hh Hf Hd H0 HQ. unfold iderw. wp_next. apply (wp_holding _ _ _ x); [done..|].
  intros m' Hm'. simpl. wp_next. apply (wp_bfield _ _ _ _ x); [done|]. simpl. rewrite Hf, Hd. simpl.
  wp_next. apply wp_data, wp_gets. rewrite Z.geb_leb.
  replace (Z.of_nat (length (disk st)) <=? blockno x) with false by lia. simpl.
  wp_next. wp_next. apply wp_bset, wp_data, wp_modify, wp_bset.
  apply HQ; [done| |done|done]. simpl. rewrite (alter_insert_at _ _ _ _ Hx).
  rewrite (alter_insert_at _ _ _ (set_bflags (Z.land (Z.lor B_VALID B_DIRTY) (Z.lnot B_DIRTY)) x)).
  - by rewrite list_insert_insert_eq.
  - apply list_lookup_insert_eq. by eapply lookup_lt_Some.
Qed.

(** A buffer [a] holds for block [n], by [me]. *)
Lemma buf_holds a x : buf_for a x -> aheld a !! blockno x = Some me -> holds me (block x).
Proof.
  intros [_ _ _ Hl _ _ _] Hh. destruct Hl as [(_ & _ & ?)|(H1 & _ & H3)]; [congruence|].
  split; [lia|congruence].
Qed.

Lemma owns_for a st i n : cacheR a st -> owns st i n ->
  exists x, bufs st !! i = Some x /\ buf_for a x /\ blockno x = n /\ bflags x ≠ 0.
Proof.
  intros HR (Hi & x & Hx & Hd & Hn & Hf). exists x. split; [done|].
  destruct (R_bufs _ _ HR i x Hi Hx) as [(H0 & _)|H]; [congruence|done].
Qed.

(** Handles on blocks in use survive. *)
Definition keeps (a : acache) (st st' : bio) : Prop :=
  forall j k, k ∈ dom (aheld a) -> owns st j k -> owns st' j k.

Lemma keeps_insert a st st' i x y :
  bufs st !! i = Some x -> bufs st' = <[i := y]> (bufs st) ->
  (bdev x = 1 -> bflags x ≠ 0 -> blockno x ∈ dom (aheld a) ->
     bdev y = 1 /\ blockno y = blockno x /\ bflags y ≠ 0) ->
  keeps a st st'.
Proof.
  intros Hx Hs Hy j k Hk (Hj & b & Hb & D1 & D2 & D3). split; [done|]. rewrite Hs.
  destruct (decide (j = i)) as [->|Hne].
  - simplify_eq. destruct Hy as (? & ? & ?); [done..|]. exists y. split; [|done].
    apply list_lookup_insert_eq. by eapply lookup_lt_Some.
  - exists b. by rewrite list_lookup_insert_ne.
Qed.

(** What [bget] leaves: block [n] in use by [me], in the buffer [i]. *)
Definition got_buf (a : acache) (n : Z) (st : bio) (i : nat) (st' : bio) : Prop :=
  aheld a !! n = None /\ cacheR (a_hold n me a) st' /\ keeps a st st' /\
  (i < NBUF)%nat /\ exists y, bufs st' !! i = Some y /\ bdev y = 1 /\ blockno y = n.

Lemma got_hit a st i x y st' :
  cacheR a st -> (i < NBUF)%nat -> bufs st !! i = Some x -> buf_for a x -> slocked (block x) = 0 ->
  y = set_block (mkSl 1 (slname (block x)) me) (set_refcnt (u32 (refcnt x + 1)) x) ->
  bufs st' = <[i := y]> (bufs st) -> disk st' = disk st -> dwrites st' = dwrites st ->
  got_buf a (blockno x) st i st'.
Proof.
  intros HR Hi Hx Hf Hl Hy Hs Hd Hw.
  pose proof (bf_lock _ _ Hf) as [(_ & Hr & Hh)|(? & _)]; [|congruence].
  pose proof (bf_dev _ _ Hf) as Hdv. split; [done|]. split; [|split; [|split; [done|]]].
  - apply (cacheR_upd_same a _ st st' i x y); try done; try (by subst y);
      [rewrite Hd; apply HR|rewrite Hw; apply HR|apply a_ok_hold, HR|apply off_a_hold|].
    subst y. destruct Hf as [F1 F2 F3 F4 F5 F6 F7]. constructor; simpl; try done.
    right. rewrite Hr. split; [done|]. split; [done|]. by rewrite lookup_insert_eq.
  - apply (keeps_insert _ _ _ i x y); [done|done|]. by subst y.
  - exists y. subst y. split; [|done]. rewrite Hs. apply list_lookup_insert_eq. by eapply lookup_lt_Some.
Qed.

Lemma got_free a st i x y st' n :
  cacheR a st -> 0 <= n < asize a -> (i < NBUF)%nat -> bufs st !! i = Some x ->
  refcnt x = 0 -> Z.land (bflags x) B_DIRTY = 0 ->
  (forall j c, (j < NBUF)%nat -> bufs st !! j = Some c -> ~ (bdev c = 1 /\ blockno c = n)) ->
  y = set_block (mkSl 1 (slname (block x)) me)
        (set_refcnt 1 (set_bflags 0 (set_blockno n (set_bdev 1 x)))) ->
  bufs st' = <[i := y]> (bufs st) -> disk st' = disk st -> dwrites st' = dwrites st ->
  got_buf a n st i st'.
Proof.
  intros HR Hn Hi Hx Hr Hdt Hun Hy Hs Hd Hw.
  assert (n ∉ apin a /\ n ∉ dom (aheld a)) as [Hp Hh].
  { split; intros Hin; (destruct (R_cached _ _ HR n) as (j & c & Hj & Hc & ? & ?); [auto|]);
      by apply (Hun j c). }
  apply not_elem_of_dom in Hh.
  assert (bdev x = 1 -> blockno x ∉ apin a /\ aheld a !! blockno x = None) as Hfree.
  { intros D1. destruct (R_bufs _ _ HR i x Hi Hx) as [(? & _)|[_ _ F3 F4 F5 _ _]]; [congruence|].
    destruct F4 as [(_ & _ & ?)|(_ & ? & _)]; [|congruence]. split; [|done]. intros Hin.
    apply F5 in Hin. by rewrite Hin in Hdt. }
  split; [done|]. split; [|split; [|split; [done|]]].
  - apply (cacheR_upd a _ st st' i x y); try done; try (by subst y);
      [rewrite Hd; apply HR|rewrite Hw; apply HR|apply a_ok_hold, HR|subst y; apply off_a_hold| |
       |intros D1 _; by apply Hfree].
    + subst y. constructor; simpl; try done; [by left| |].
      * right. split; [done|]. split; [done|]. by rewrite lookup_insert_eq.
      * intros _. apply (a_clean _ (R_ok _ _ HR)); [lia|done|done].
    + intros j c Hj _ Hc D1. subst y. simpl. intros Heq. by apply (Hun j c).
  - apply (keeps_insert _ _ _ i x y); [done|done|]. intros D1 _ Hin.
    destruct (Hfree D1) as [_ H0]. by apply elem_of_dom in Hin as [? ?]; congruence.
  - exists y. subst y. split; [|done]. rewrite Hs. apply list_lookup_insert_eq. by eapply lookup_lt_Some.
Qed.

Lemma wp_lock_buf i m st x Q :
  msec ∅ m -> bufs st !! i = Some x -> (slocked (block x) ≠ 0 -> P FBlocked) ->
  (forall m', quiet ∅ m m' -> slocked (block x) = 0 ->
     Q tt (m', upd_buf i (set_block (mkSl 1 (slname (block x)) me)) st)) ->
  wp P (on_block i (acquiresleep me (Z.of_nat i))) (m, st) Q.
Proof.
  intros Hm Hx Hb HQ. unfold on_block. apply wp_part. rewrite (buf_at_lookup _ _ _ Hx).
  by apply wp_acquiresleep.
Qed.

(** The searches of [bget]. *)
Lemma search_cached a st n : cacheR a st ->
  match bget_cached (S NBUF) st 1 n (bnext (buf_at HEAD st)) with
  | Some b => (b < NBUF)%nat /\ exists x, bufs st !! b = Some x /\ buf_for a x /\ blockno x = n
  | None => forall j c, (j < NBUF)%nat -> bufs st !! j = Some c -> ~ (bdev c = 1 /\ blockno c = n)
  end.
Proof.
  intros HR. destruct (R_ring _ _ HR) as [l Hr]. pose proof Hr as [Hlen Hs Hp].
  pose proof (ring_nodup _ _ Hr) as Hnd. apply NoDup_cons in Hnd as [Hh _].
  pose proof (cached_walk st 1 n (S NBUF) l HEAD Hs Hh) as Hw.
  rewrite (Permutation_length Hp), length_seq in Hw. specialize (Hw (Nat.lt_succ_diag_r _)).
  unfold nx in Hw. destruct (bget_cached _ _ _ _ _) as [b|].
  - destruct Hw as (Hb & Hd & Hn). apply (ring_elem _ _ _ Hr) in Hb. split; [done|].
    exists (buf_at b st). assert (bufs st !! b = Some (buf_at b st)) as Hx by (apply lookup_buf_at; lia).
    split_and!; [done| |done]. destruct (R_bufs _ _ HR b _ Hb Hx) as [(? & _)|?]; [congruence|done].
  - intros j c Hj Hc. apply (ring_elem _ _ _ Hr) in Hj. specialize (Hw j Hj).
    by rewrite (buf_at_lookup _ _ _ Hc) in Hw.
Qed.

Lemma search_free a st : cacheR a st ->
  match bget_free (S NBUF) st (bprev (buf_at HEAD st)) with
  | Some b => (b < NBUF)%nat /\ exists x, bufs st !! b = Some x /\ refcnt x = 0 /\
      Z.land (bflags x) B_DIRTY = 0
  | None => (NBUF <= size (apin a ∪ dom (aheld a)))%nat
  end.
Proof.
  intros HR. destruct (R_ring _ _ HR) as [l Hr]. pose proof Hr as [Hlen Hs Hp].
  pose proof (ring_nodup _ _ Hr) as Hnd. apply NoDup_cons in Hnd as [Hh _].
  pose proof (free_walk st (S NBUF) l HEAD Hs Hh) as Hw.
  rewrite (Permutation_length Hp), length_seq in Hw. specialize (Hw (Nat.lt_succ_diag_r _)).
  unfold pv in Hw. destruct (bget_free _ _ _) as [b|].
  - destruct Hw as (Hb & Hd & Hn). apply (ring_elem _ _ _ Hr) in Hb. split; [done|].
    exists (buf_at b st). split; [apply lookup_buf_at; lia|done].
  - apply (no_free_full _ _ HR). intros i b Hi Hb. apply (ring_elem _ _ _ Hr) in Hi.
    specialize (Hw i Hi). by rewrite (buf_at_lookup _ _ _ Hb) in Hw.
Qed.

(** [bget(1, n)]: the process sleeps if the block is in use, and the kernel
    panics only if it is not cached and no buffer can be recycled. *)
Lemma wp_bget a m st n Q :
  msec ∅ m -> cacheR a st -> 0 <= n < asize a ->
  (aheld a !! n ≠ None -> P FBlocked) ->
  (n ∉ apin a -> (NBUF <= size (apin a ∪ dom (aheld a)))%nat -> P (FPanic "bget: no buffers")) ->
  (forall i m' st', quiet ∅ m m' -> got_buf a n st i st' -> Q i (m', st')) ->
  wp P (bget me 1 n) (m, st) Q.
Proof.
  intros Hm HR Hn Hb Hp HQ. unfold bget. wp_next. eapply wp_critical; [done|apply not_elem_of_empty|].
  wp_next. apply wp_gets. unfold id. pose proof (search_cached a st n HR) as Hsc.
  destruct (bget_cached _ _ _ _ _) as [i|].
  - destruct Hsc as (Hi & x & Hx & Hf & <-). wp_next. apply wp_modify, wp_ret. intros m1 Hm1.
    wp_next. eapply wp_lock_buf;
      [apply Hm1|rewrite (upd_buf_insert _ _ _ _ Hx); apply list_lookup_insert_eq;
        by eapply lookup_lt_Some|simpl|simpl].
    + intros Hl. apply Hb. destruct (bf_lock _ _ Hf) as [(? & _)|(_ & _ & ->)]; [done|done].
    + intros m2 Hm2 Hl. apply wp_ret, HQ; [by eapply quiet_trans|].
      rewrite upd_buf_twice. apply (got_hit _ _ _ x _ _ HR Hi Hx Hf Hl eq_refl); [|done|done].
      by rewrite (upd_buf_insert _ _ _ _ Hx).
  - pose proof (search_free a st HR) as Hsf. destruct (bget_free _ _ _) as [i|].
    + destruct Hsf as (Hi & x & Hx & Hr & Hd). do 4 (wp_next; apply wp_modify).
      rewrite !upd_buf_twice. apply wp_ret. intros m1 Hm1.
      wp_next. eapply wp_lock_buf;
        [apply Hm1|rewrite (upd_buf_insert _ _ _ _ Hx); apply list_lookup_insert_eq;
          by eapply lookup_lt_Some|simpl|simpl].
      * intros Hl. exfalso. apply Hl. destruct (R_bufs _ _ HR i x Hi Hx) as [(_ & _ & _ & ?)|F]; [done|].
        destruct (bf_lock _ _ F) as [(? & _)|(_ & ? & _)]; congruence.
      * intros m2 Hm2 _. apply wp_ret, HQ; [by eapply quiet_trans|].
        rewrite upd_buf_twice. apply (got_free _ _ _ x _ _ n HR Hn Hi Hx Hr Hd Hsc eq_refl); [|done|done].
        by rewrite (upd_buf_insert _ _ _ _ Hx).
    + apply Hp; [|done]. intros Hin. destruct (R_cached _ _ HR n) as (j & c & Hj & Hc & ? & ?); [auto|].
      by apply (Hsc j c).
Qed.

Definition keeps_all (st st' : bio) : Prop := forall j k, owns st j k -> owns st' j k.

Lemma keeps_all_insert st st' i x y :
  bufs st !! i = Some x -> bufs st' = <[i := y]> (bufs st) ->
  bdev y = bdev x -> blockno y = blockno x -> (bflags x ≠ 0 -> bflags y ≠ 0) -> keeps_all st st'.
Proof.
  intros Hx Hs H1 H2 H3 j k Ho.
  apply (keeps_insert (mkA [] ∅ {[k := 0]} [] []) st st' i x y Hx Hs); [|set_solver|done].
  intros. split_and!; [congruence|done|by apply H3].
Qed.

(** [bread] returns the buffer of the block, with its contents. *)
Lemma wp_bread a m st n Q :
  msec ∅ m -> cacheR a st -> 0 <= n < asize a ->
  (aheld a !! n ≠ None -> P FBlocked) ->
  (n ∉ apin a -> (NBUF <= size (apin a ∪ dom (aheld a)))%nat -> P (FPanic "bget: no buffers")) ->
  (forall i m' st', quiet ∅ m m' -> aheld a !! n = None -> cacheR (a_hold n me a) st' ->
     owns st' i n -> keeps a st st' -> Q i (m', st')) ->
  wp P (bread me 1 n) (m, st) Q.
Proof.
  intros Hm HR Hn Hb Hp HQ. unfold bread. wp_next. apply (wp_bget a); [done..|].
  intros i m1 st1 Hm1 (Hh & HR1 & Hk & Hi & y & Hy & Hd & Hno).
  destruct (R_bufs _ _ HR1 i y Hi Hy) as [(? & _)|F]; [congruence|].
  wp_next. apply (wp_bfield _ _ _ _ y); [done|]. wp_next.
  destruct (decide (bflags y = 0)) as [H0|H0].
  - rewrite H0. simpl. pose proof (bf_no _ _ F) as Hno'. subst n.
    assert (adisk a !! Z.to_nat (blockno y) = Some (a_get (blockno y) a)) as Hdk.
    { transitivity (alog a !! Z.to_nat (blockno y)); [symmetry; exact (bf_invalid _ _ F H0)|].
      apply a_get_lookup; [apply HR|done]. }
    apply (wp_iderw_read _ _ _ y (a_get (blockno y) a)); [apply Hm1|done| |done|done|lia| |].
    { apply (buf_holds _ _ F). simpl. by rewrite lookup_insert_eq. }
    { by rewrite (R_disk _ _ HR1). }
    intros m2 st2 Hm2 Hs Hd2 Hw2. apply wp_ret, HQ; [by eapply quiet_trans|done| | |].
    + eapply (cacheR_upd_same _ _ st1 st2 i y); [done|done|done|done| |exact Hs|..]; try done.
      * rewrite Hd2. apply HR1.
      * rewrite Hw2. apply HR1.
      * apply HR1.
      * destruct F as [F1 F2 F3 F4 F5 F6 F7]. constructor; simpl; try done; [by auto| |].
        -- split; [done|]. intros Hin. apply F5 in Hin. by rewrite H0 in Hin.
        -- intros _. apply a_get_lookup; [apply HR|done].
    + split; [done|]. eexists. rewrite Hs, list_lookup_insert_eq by (by eapply lookup_lt_Some). done.
    + intros j k Hjk Ho. apply (keeps_all_insert st1 st2 i y _ Hy Hs); [done..|]. by apply Hk.
  - assert (Z.land (bflags y) B_VALID =? 0 = false) as ->.
    { destruct (bf_flags _ _ F) as [?|[-> | ->]]; done. }
    apply wp_ret, wp_ret, HQ; [done|done|done| |done]. split; [done|]. by exists y.
Qed.

Lemma held_range a st n p : cacheR a st -> aheld a !! n = Some p -> 0 <= n < asize a.
Proof.
  intros HR Hh. destruct (R_cached _ _ HR n) as (i & b & Hi & Hb & Hd & <-).
  { right. apply elem_of_dom. by eexists. }
  destruct (R_bufs _ _ HR i b Hi Hb) as [(? & _)|F]; [congruence|apply F].
Qed.

Lemma owns_data a st i n x : cacheR a st -> owns st i n -> bufs st !! i = Some x -> bdata x = a_get n a.
Proof.
  intros HR Ho Hx. destruct (owns_for _ _ _ _ HR Ho) as (y & Hy & F & <- & Hf). simplify_eq.
  unfold a_get. by rewrite (bf_valid _ _ F Hf).
Qed.

(** [bwrite] puts the contents of the block on the disk, and unpins it. *)
Lemma wp_bwrite a m st i n Q :
  msec ∅ m -> cacheR a st -> owns st i n -> aheld a !! n = Some me ->
  (forall m' st', quiet ∅ m m' -> cacheR (a_flush n a) st' -> keeps_all st st' -> Q tt (m', st')) ->
  wp P (bwrite me i) (m, st) Q.
Proof.
  intros Hm HR Ho Hh HQ. destruct (owns_for _ _ _ _ HR Ho) as (x & Hx & F & <- & Hf).
  pose proof (buf_holds _ _ F Hh) as Hhs. pose proof (bf_no _ _ F) as Hno.
  unfold bwrite. wp_next. apply (wp_holding _ _ _ x); [done..|].
  intros m1 Hm1. simpl. wp_next. apply wp_bset.
  set (y := set_bflags (Z.lor B_VALID B_DIRTY) x).
  set (st1 := upd_buf i _ st).
  assert (bufs st1 = <[i := y]> (bufs st)) as Hs1.
  { unfold st1. rewrite (upd_buf_insert _ _ _ _ Hx). unfold y. do 2 f_equal.
    destruct (bf_flags _ _ F) as [?|[-> | ->]]; done. }
  assert (i < length (bufs st))%nat as Hlt by (by eapply lookup_lt_Some).
  apply (wp_iderw_write _ _ _ y); try done.
  - apply Hm1.
  - rewrite Hs1. by apply list_lookup_insert_eq.
  - apply F.
  - change (disk st1) with (disk st). rewrite (R_disk _ _ HR). apply Hno.
  - intros m2 st2 Hm2 Hs2 Hd2 Hw2. simpl in Hd2, Hw2.
    rewrite Hs1, list_insert_insert_eq in Hs2.
    rewrite (owns_data _ _ _ _ _ HR Ho Hx) in Hd2, Hw2.
    apply HQ; [by eapply quiet_trans| |by eapply (keeps_all_insert _ _ i x)].
    eapply (cacheR_upd_same a _ st st2 i x); [done|apply Ho|done|apply F| |exact Hs2|..]; try done.
    + rewrite Hd2. by rewrite (R_disk _ _ HR).
    + rewrite Hw2. by rewrite (R_wr _ _ HR).
    + apply a_ok_flush; [apply HR|done].
    + apply off_a_flush. lia.
    + destruct F as [F1 F2 F3 F4 F5 F6 F7]. constructor; simpl; try done.
      * unfold asize in *. simpl. by rewrite length_insert.
      * auto.
      * set_solver.
      * intros _. by apply F6.
Qed.

(** Writing into [b->data] of a buffer in use. *)
Lemma cacheR_set a st i n d :
  cacheR a st -> owns st i n -> aheld a !! n = Some me -> length d = Z.to_nat BSIZE ->
  cacheR (a_set n d a) (upd_buf i (set_bdata d) st) /\ keeps_all st (upd_buf i (set_bdata d) st).
Proof.
  intros HR Ho Hh Hd. destruct (owns_for _ _ _ _ HR Ho) as (x & Hx & F & <- & Hf).
  pose proof (bf_no _ _ F) as Hno. pose proof (upd_buf_insert i (set_bdata d) _ _ Hx) as Hs.
  split; [|by eapply (keeps_all_insert _ _ i x)].
  eapply (cacheR_upd_same a _ st _ i x); [done|apply Ho|done|apply F| |exact Hs|..]; try done.
  - apply HR.
  - apply HR.
  - eapply a_ok_set; [apply HR|done|done|lia].
  - apply off_a_set. lia.
  - destruct F as [F1 F2 F3 F4 F5 F6 F7]. constructor; simpl; try done. intros _.
    apply list_lookup_insert_eq. rewrite (a_len _ (R_ok _ _ HR)). unfold asize in *. lia.
Qed.

(** [b->flags |= B_DIRTY] of a buffer in use. *)
Lemma cacheR_pin a st i n :
  cacheR a st -> owns st i n ->
  let st' := upd_buf i (fun x => set_bflags (Z.lor (bflags x) B_DIRTY) x) st in
  cacheR (a_pin n a) st' /\ keeps_all st st'.
Proof.
  intros HR Ho st'. destruct (owns_for _ _ _ _ HR Ho) as (x & Hx & F & <- & Hf).
  assert (bufs st' = <[i := set_bflags (Z.lor B_VALID B_DIRTY) x]> (bufs st)) as Hs.
  { unfold st'. rewrite (upd_buf_insert _ _ _ _ Hx).
    destruct (bf_flags _ _ F) as [?|[-> | ->]]; done. }
  split; [|by eapply (keeps_all_insert _ _ i x)].
  eapply (cacheR_upd_same a _ st _ i x); [done|apply Ho|done|apply F| |exact Hs|..]; try done.
  - apply HR.
  - apply HR.
  - apply a_ok_pin, HR.
  - apply off_a_pin.
  - destruct F as [F1 F2 F3 F4 F5 F6 F7]. constructor; simpl; try done; [by auto|set_solver|].
    intros _. by apply F6.
Qed.

(** [brelse] gives the block back: it must be pinned, or as on the disk. *)
Lemma wp_brelse a m st i n Q :
  msec ∅ m -> cacheR a st -> owns st i n -> aheld a !! n = Some me ->
  (n ∈ apin a \/ alog a !! Z.to_nat n = adisk a !! Z.to_nat n) ->
  (forall m' st', quiet ∅ m m' -> cacheR (a_drop n a) st' -> keeps_all st st' -> Q tt (m', st')) ->
  wp P (brelse me i) (m, st) Q.
Proof.
  intros Hm HR Ho Hh Hcl HQ. destruct (owns_for _ _ _ _ HR Ho) as (x & Hx & F & <- & Hf).
  pose proof (buf_holds _ _ F Hh) as Hhs. pose proof Ho as [Hi _].
  assert (refcnt x = 1) as Hr by (destruct (bf_lock _ _ F) as [(_ & _ & ?)|(_ & ? & _)]; congruence).
  unfold brelse. wp_next. apply (wp_holding _ _ _ x); [done..|]. intros m1 Hm1. simpl.
  wp_next. unfold on_block. apply wp_part. rewrite (buf_at_lookup _ _ _ Hx).
  apply wp_releasesleep; [apply Hm1|]. intros m2 Hm2. simpl.
  eapply wp_critical; [apply Hm2|apply not_elem_of_empty|].
  wp_next. apply wp_modify. rewrite upd_buf_twice. set (st1 := upd_buf i _ st).
  set (y := set_refcnt 0 (set_block (mkSl 0 (slname (block x)) 0) x)).
  assert (bufs st1 = <[i := y]> (bufs st)) as Hs.
  { unfold st1. rewrite (upd_buf_insert _ _ _ _ Hx). simpl. by rewrite Hr. }
  assert (cacheR (a_drop (blockno x) a) st1) as HR1.
  { eapply (cacheR_upd_same a _ st _ i x); [done|apply Ho|done|apply F| |exact Hs|..]; try done.
    - apply HR.
    - apply HR.
    - apply a_ok_drop; [apply HR|done].
    - apply off_a_drop.
    - destruct F as [F1 F2 F3 F4 F5 F6 F7]. constructor; simpl; try done. left.
      split; [done|]. split; [done|]. by rewrite lookup_delete_eq. }
  assert (keeps_all st st1) as Hk by (by eapply (keeps_all_insert _ _ i x)).
  wp_next. apply wp_gets. assert (refcnt (buf_at i st1) = 0) as ->.
  { rewrite (buf_at_insert _ _ _ _ _ i Hx Hs), decide_True by done. done. }
  simpl. destruct (R_ring _ _ HR1) as [l Hl].
  assert (i ∈ l) as (l1 & l2 & ->)%list_elem_of_split by (by apply (ring_elem _ _ _ Hl)).
  apply (wp_unlink_front _ _ _ _ _ _ Hl). intros st2 Hl2 Hrl m3 Hm3.
  apply HQ; [do 2 (eapply quiet_trans; [done|]); done| |].
  - by eapply cacheR_relinked.
  - intros j k Hjk. eapply owns_relinked; [done|]. by apply Hk.
Qed.

End steps.

(** ** The cache at boot *)

(** A state of [binit]: the buffers [dn] are on the list, last one first. *)
Record binit_inv (d : list (list Z)) (dn : list nat) (st : bio) : Prop := mkBi {
  bi_len : length (bufs st) = S NBUF;
  bi_seg : seg (nx st) (pv st) HEAD (reverse dn) HEAD;
  bi_fresh : Forall fresh_buf (bufs st);
  bi_disk : disk st = d;
  bi_wr : dwrites st = [] }.

Lemma upd_block_ptr i v st : (i < length (bufs st))%nat ->
  (forall j, nx (upd_buf i (set_block v) st) j = nx st j) /\
  (forall j, pv (upd_buf i (set_block v) st) j = pv st j).
Proof.
  intros Hi. unfold nx, pv. split; intros j; rewrite buf_at_upd by done;
    destruct (decide (j = i)) as [->|]; done.
Qed.

Lemma Forall_upd_buf (F : buf -> Prop) i f st :
  (forall x, F x -> F (f x)) -> Forall F (bufs st) -> Forall F (bufs (upd_buf i f st)).
Proof.
  intros Hf Hs. apply Forall_lookup_2. intros j y Hy. simpl in Hy.
  apply lookup_alter_inv in Hy as [(-> & x & Hx & ->)|[_ Hy]]; [apply Hf|]; by eapply Forall_lookup_1.
Qed.

Lemma wp_binit1 P d dn b m st Q :
  msec ∅ m -> binit_inv d dn st -> NoDup (b :: dn) -> Forall (fun i => i < NBUF)%nat (b :: dn) ->
  (forall m' st', quiet ∅ m m' -> binit_inv d (dn ++ [b]) st' -> Q tt (m', st')) ->
  wp P (binit1 b) (m, st) Q.
Proof.
  intros Hm [Hlen Hs Hf Hd Hw] Hnd Hlt HQ. apply NoDup_cons in Hnd as [Hb Hnd].
  apply Forall_cons in Hlt as [Hbl Hlt]. assert (b ≠ HEAD) as Hbh by (unfold HEAD; lia).
  assert (nx st HEAD < S NBUF)%nat as Hh.
  { destruct (reverse dn) as [|z l] eqn:E; simpl in Hs; destruct Hs as [-> _]; [unfold HEAD; lia|].
    rewrite Forall_forall in Hlt. assert (z ∈ dn) as Hz%Hlt; [|lia].
    apply elem_of_reverse. rewrite E. set_solver. }
  unfold binit1. wp_next. unfold bget_field. apply wp_data, wp_gets. fold (nx st HEAD).
  wp_next. apply wp_bset. wp_next. apply wp_bset. wp_next. unfold on_block. apply wp_part.
  unfold initsleeplock. wp_next. unfold on_mach_of, initlock. apply wp_zoom, wp_modify.
  wp_next. apply wp_data, wp_modify. wp_next. apply wp_data, wp_modify. apply wp_data, wp_modify. simpl.
  set (h := nx st HEAD). set (st1 := upd_buf b (set_bnext h) st).
  destruct (upd_next_ptr b h st ltac:(lia)) as [N1 P1]. fold st1 in N1, P1.
  assert (length (bufs st1) = S NBUF) as L1 by (unfold st1; by rewrite length_upd_buf).
  set (st2 := upd_buf b (set_bprev HEAD) st1).
  destruct (upd_prev_ptr b HEAD st1 ltac:(lia)) as [N2 P2]. fold st2 in N2, P2.
  assert (length (bufs st2) = S NBUF) as L2 by (unfold st2; by rewrite length_upd_buf).
  set (st3 := upd_buf b (set_block (mkSl 0 "buffer" 0)) st2).
  destruct (upd_block_ptr b (mkSl 0 "buffer" 0) st2 ltac:(lia)) as [N3 P3]. fold st3 in N3, P3.
  assert (length (bufs st3) = S NBUF) as L3 by (unfold st3; by rewrite length_upd_buf).
  wp_next. apply wp_data, wp_gets. fold (nx st3 HEAD).
  assert (nx st3 HEAD = h) as -> by (rewrite N3, N2, N1; by apply upd_ne).
  wp_next. apply wp_bset, wp_bset. set (st4 := upd_buf h (set_bprev b) st3).
  destruct (upd_prev_ptr h b st3 ltac:(lia)) as [N4 P4]. fold st4 in N4, P4.
  assert (length (bufs st4) = S NBUF) as L4 by (unfold st4; by rewrite length_upd_buf).
  destruct (upd_next_ptr HEAD b st4 ltac:(unfold HEAD; lia)) as [N5 P5].
  apply HQ.
  { split; [by apply msec_initlock|]. done. }
  constructor.
  - by rewrite length_upd_buf.
  - rewrite reverse_app. change (reverse [b] ++ reverse dn) with (b :: reverse dn).
    apply (seg_pointwise _ (upd HEAD b (upd b h (nx st))) (upd h b (upd b HEAD (pv st)))).
    + intros j. rewrite N5. apply upd_ext. intros k. by rewrite N4, N3, N2, N1.
    + intros j. rewrite P5, P4. apply upd_ext. intros k. rewrite P3, P2. by apply upd_ext.
    + apply seg_push; [done| |].
      * apply NoDup_cons. rewrite elem_of_reverse. split; [|by rewrite reverse_Permutation].
        intros Hin. rewrite Forall_forall in Hlt. specialize (Hlt _ Hin). unfold HEAD in Hlt. lia.
      * rewrite elem_of_cons, elem_of_reverse. tauto.
  - do 5 (apply Forall_upd_buf; [by intros [] (? & ? & ? & ?)|]). done.
  - done.
  - done.
Qed.

Lemma binit_start d st :
  length (bufs st) = S NBUF -> Forall fresh_buf (bufs st) -> disk st = d -> dwrites st = [] ->
  binit_inv d [] (upd_buf HEAD (set_bnext HEAD) (upd_buf HEAD (set_bprev HEAD) st)).
Proof.
  intros Hl Hf Hd Hw. destruct (upd_prev_ptr HEAD HEAD st ltac:(unfold HEAD; lia)) as [N1 P1].
  set (st1 := upd_buf HEAD (set_bprev HEAD) st) in *.
  assert (length (bufs st1) = S NBUF) as L1 by (unfold st1; by rewrite length_upd_buf).
  destruct (upd_next_ptr HEAD HEAD st1 ltac:(unfold HEAD; lia)) as [N2 P2].
  constructor; [by rewrite length_upd_buf| | |done|done].
  - simpl. by rewrite N2, P2, P1, !upd_eq.
  - do 2 (apply Forall_upd_buf; [by intros [] (? & ? & ? & ?)|]). done.
Qed.

(** The static array, and [bcache.head]. *)
Definition bufs0 : list buf := replicate (S NBUF) buf0.

Lemma bufs0_ok : length bufs0 = S NBUF /\ Forall fresh_buf bufs0.
Proof. split; [apply length_replicate|by apply Forall_replicate]. Qed.

Opaque bufs0.

(** [binit] sets up the list: the cache then holds nothing, and the logical
    disk is the physical one. *)
Theorem binit_correct m d :
  msec ∅ m -> Forall (fun b => length b = Z.to_nat BSIZE) d ->
  exists m' st, binit (m, mkBio bufs0 d []) = Ok tt (m', st) /\
    quiet ∅ m m' /\ cacheR (mkA d ∅ ∅ d []) st /\ ring (reverse (seq 0 NBUF)) st.
Proof.
  intros Hm Hd.
  destruct bufs0_ok as [H0l H0f].
  destruct (wp_total binit (m, mkBio bufs0 d [])
    (fun _ s => quiet ∅ m s.1 /\ binit_inv d (seq 0 NBUF) s.2)) as ([] & [m' st] & Hr & Hq & Hi).
  - unfold binit. wp_next. unfold on_mach_of, initlock. apply wp_zoom, wp_modify.
    wp_next. apply wp_bset. wp_next. apply wp_bset.
    apply (wp_mfor _ (fun todo s => exists dn, dn ++ todo = seq 0 NBUF /\ quiet ∅ m s.1 /\
      binit_inv d dn s.2)).
    + exists []. split; [done|]. split; [split; [by apply msec_initlock|done]|].
      by apply binit_start.
    + intros b todo [m1 st1] (dn & Hdn & Hq1 & Hi1).
      assert (NoDup (dn ++ b :: todo)) as Hnd by (rewrite Hdn; apply NoDup_seq).
      assert (forall i, i ∈ dn ++ b :: todo -> (i < NBUF)%nat) as Hlt
        by (intros i; rewrite Hdn, elem_of_seq; lia).
      apply (wp_binit1 _ d dn); [apply Hq1|done| | |].
      * rewrite <- Permutation_middle in Hnd. apply NoDup_cons in Hnd as [Hb Hnd].
        apply NoDup_app in Hnd as [Hnd _]. apply NoDup_cons. set_solver.
      * apply Forall_forall. intros i Hin. apply Hlt. set_solver.
      * intros m2 st2 Hq2 Hi2. exists (dn ++ [b]). rewrite <- app_assoc. split; [done|].
        split; [by eapply quiet_trans|done].
    + intros [m1 st1] (dn & Hdn & Hq1 & Hi1). rewrite app_nil_r in Hdn. by subst dn.
  - destruct Hi as [H1 H2 H3 H4 H5].
    assert (ring (reverse (seq 0 NBUF)) st) as Hring
      by (constructor; [done|done|apply reverse_Permutation]).
    exists m', st. split; [done|]. split; [done|]. split; [|done].
    constructor; simpl; [by eexists|done|done|by constructor| | |].
    + intros i b _ Hb. left. by eapply Forall_lookup_1.
    + intros i j b c _ _ Hb _ Hdv. pose proof (Forall_lookup_1 _ _ _ _ H3 Hb) as [? _]. congruence.
    + clear. intros n Hn. exfalso. revert Hn. rewrite dom_empty_L. set_solver.
Qed.

Transparent bufs0.
