(* ===== verification/Ide.v ===== *)
(** * The disk driver: ide.c

    The controller is a parameter: [Ata] has its ports, and [AtaLaws] says what ide.c
    relies on (a disk without errors that gets ready within [patience] polls of the
    status, takes the number of a sector in its registers, and does one command at a
    time).  The sections under [idelock] are atomic, so [iderw] is [iderw_enter], up to
    the first sleep, and [iderw_done], the test of its loop; [qnext] is beside the
    buffers of bio.c.

    [ide_refines]: the driver is a queue of requests, each of which does, when its turn
    comes, what [iderw] of memide.c does at once ([serve_memide]). *)

From stdpp Require Import base numbers gmap sets list strings.
From S2P Require Import Prelude Spinlock Sleeplock Bio BioSpec.
Open Scope Z_scope.

Module Ide.

Notation SECTOR_SIZE := 512.
Notation FSSIZE := 1000.
Definition IDE_BSY : Z := 128.
Definition IDE_DRDY : Z := 64.
Definition IDE_DF : Z := 32.
Definition IDE_ERR : Z := 1.
Definition IDE_CMD_READ : Z := 32.
Definition IDE_CMD_WRITE : Z := 48.
Notation IDE_CMD_RDMUL := 196.
Notation IDE_CMD_WRMUL := 197.

(** The ports, as x86.h uses them: [insl] and [outsl] move a block. *)
Class Ata (V : Type) := mkAta {
  inb : Z -> V -> Z * V;
  outb : Z -> Z -> V -> V;
  insl : Z -> V -> list Z * V;
  outsl : Z -> list Z -> V -> V }.

Record ide (V : Type) := mkIde {
  ibufs : list buf;
  qnext : nat -> option nat;
  idequeue : option nat;
  havedisk1 : bool;
  ctl : V }.
Arguments mkIde {V} ibufs qnext idequeue havedisk1 ctl.
Arguments ibufs {V} i.
Arguments qnext {V} i.
Arguments idequeue {V} i.
Arguments havedisk1 {V} i.
Arguments ctl {V} i.

Section driver.
Context {V : Type} `{AT : Ata V} (patience : nat) (me : Z).

Definition set_ctl (v : V) (s : ide V) : ide V := mkIde (ibufs s) (qnext s) (idequeue s) (havedisk1 s) v.
Definition set_idequeue (q : option nat) (s : ide V) : ide V := mkIde (ibufs s) (qnext s) q (havedisk1 s) (ctl s).
Definition set_qnext (b : nat) (q : option nat) (s : ide V) : ide V :=
  mkIde (ibufs s) (fun i => if decide (i = b) then q else qnext s i) (idequeue s) (havedisk1 s) (ctl s).
Definition set_ibuf (b : nat) (f : buf -> buf) (s : ide V) : ide V :=
  mkIde (alter f b (ibufs s)) (qnext s) (idequeue s) (havedisk1 s) (ctl s).
Definition set_havedisk1 (s : ide V) : ide V := mkIde (ibufs s) (qnext s) (idequeue s) true (ctl s).

Definition ibuf (b : nat) (s : ide V) : buf := default buf0 (ibufs s !! b).

Definition outp (port data : Z) : M (ide V) unit := modify (fun s => set_ctl (outb port data (ctl s)) s).

Definition inp (port : Z) : M (ide V) Z := fun s => let (r, v) := inb port (ctl s) in Ok r (set_ctl v s).

(** The loop of [idewait], with [n] polls left. *)
Fixpoint idewait_loop (n : nat) : M (ide V) Z :=
  match n with
  | O => blocked
  | S n =>
      r ← inp 503;
      if Z.land r (Z.lor IDE_BSY IDE_DRDY) =? IDE_DRDY then mret r else idewait_loop n
  end.

Definition idewait (checkerr : bool) : M (ide V) Z :=
  r ← idewait_loop patience;
  if checkerr && negb (Z.land r (Z.lor IDE_DF IDE_ERR) =? 0) then mret (-1) else mret 0.

(** [for(i=0; i<1000; i++)] of [ideinit]. *)
Fixpoint find_disk1 (n : nat) : M (ide V) unit :=
  match n with
  | O => mret tt
  | S n =>
      r ← inp 503;
      if negb (r =? 0) then modify set_havedisk1 else find_disk1 n
  end.

(** ... without [initlock] and [ioapicenable]. *)
Definition ideinit : M (ide V) unit :=
  idewait false;;
  outp 502 (Z.lor 224 (Z.shiftl 1 4));;
  find_disk1 1000;;
  outp 502 (Z.lor 224 (Z.shiftl 0 4)).

Definition idestart (b : option nat) : M (ide V) unit :=
  match b with
  | None => panic "idestart"
  | Some b =>
      x ← gets (ibuf b);
      if blockno x >=? FSSIZE then panic "incorrect blockno" else
      let sector_per_block := BSIZE / SECTOR_SIZE in
      let sector := blockno x * sector_per_block in
      let read_cmd := if sector_per_block =? 1 then IDE_CMD_READ else IDE_CMD_RDMUL in
      let write_cmd := if sector_per_block =? 1 then IDE_CMD_WRITE else IDE_CMD_WRMUL in
      if sector_per_block >? 7 then panic "idestart" else
      idewait false;;
      outp 1014 0;;
      outp 498 sector_per_block;;
      outp 499 (Z.land sector 255);;
      outp 500 (Z.land (Z.shiftr sector 8) 255);;
      outp 501 (Z.land (Z.shiftr sector 16) 255);;
      outp 502 (Z.lor (Z.lor 224 (Z.shiftl (Z.land (bdev x) 1) 4)) (Z.land (Z.shiftr sector 24) 15));;
      if negb (Z.land (bflags x) B_DIRTY =? 0) then
        outp 503 write_cmd;;
        modify (fun s => set_ctl (outsl 496 (bdata x) (ctl s)) s)
      else outp 503 read_cmd
  end.

(** The interrupt handler; the result is the channel of [wakeup]. *)
Definition ideintr : M (ide V) (option nat) :=
  q ← gets idequeue;
  match q with
  | None => mret None
  | Some b =>
      n ← gets (fun s => qnext s b);
      modify (set_idequeue n);;
      x ← gets (ibuf b);
      (if negb (Z.land (bflags x) B_DIRTY =? 0) then mret tt else
       r ← idewait true;
       if r >=? 0 then
         modify (fun s => let (d, v) := insl 496 (ctl s) in set_ibuf b (set_bdata d) (set_ctl v s))
       else mret tt);;
      modify (set_ibuf b (fun x => set_bflags (Z.lor (bflags x) B_VALID) x));;
      modify (set_ibuf b (fun x => set_bflags (Z.land (bflags x) (Z.lnot B_DIRTY)) x));;
      (if bool_decide (n = None) then mret tt else idestart n);;
      mret (Some b)
  end.

(** [for(pp=&idequeue; *pp; pp=&( *pp)->qnext);] from [*pp] on: the buffer whose
    [qnext] is the last pointer. *)
Fixpoint queue_end (n : nat) (s : ide V) (b : nat) : option nat :=
  match n with
  | O => None
  | S n => match qnext s b with
           | None => Some b
           | Some b' => queue_end n s b'
           end
  end.

Definition append (b : nat) : M (ide V) unit :=
  s ← gets id;
  match idequeue s with
  | None => modify (set_idequeue (Some b))
  | Some b0 =>
      match queue_end (length (ibufs s)) s b0 with
      | None => blocked
      | Some l => modify (set_qnext l (Some b))
      end
  end.

(** [while((b->flags & (B_VALID|B_DIRTY)) != B_VALID)] *)
Definition iderw_done (b : nat) : M (ide V) bool :=
  x ← gets (ibuf b);
  mret (Z.land (bflags x) (Z.lor B_VALID B_DIRTY) =? B_VALID).

Definition iderw_enter (b : nat) : M (ide V) bool :=
  x ← gets (ibuf b);
  if (slocked (block x) =? 0) || negb (spid (block x) =? me) then panic "iderw: buf not locked" else
  if Z.land (bflags x) (Z.lor B_VALID B_DIRTY) =? B_VALID then panic "iderw: nothing to do" else
  d ← gets havedisk1;
  if negb (bdev x =? 0) && negb d then panic "iderw: ide disk 1 not present" else
  modify (set_qnext b None);;
  append b;;
  q ← gets idequeue;
  (if bool_decide (q = Some b) then idestart (Some b) else mret tt);;
  iderw_done b.

End driver.

(** ** What the driver relies on *)

(** Between commands, after a command to write, and with the data of a command to read. *)
Inductive phase := Ready | Wrote | Reading (data : list Z).

(** The disk and the sector that the registers name. *)
Definition reg_disk (r : Z -> Z) : Z := Z.land (Z.shiftr (r 502) 4) 1.
Definition reg_sector (r : Z -> Z) : Z := r 499 + 256 * r 500 + 65536 * r 501 + 16777216 * Z.land (r 502) 15.

Notation disks := (Z -> list (list Z)).

Definition write_sector (d n : Z) (data : list Z) (D : disks) : disks := fun d' => if decide (d' = d) then <[Z.to_nat n := data]> (D d) else D d'.

(** Within [n] polls the status says ready, without an error, and [Q] holds then. *)
Fixpoint settles {V} `{Ata V} (n : nat) (v : V) (Q : V -> Prop) : Prop :=
  match n with
  | O => False
  | S n => let (r, v') := inb 503 v in
      if Z.land r (Z.lor IDE_BSY IDE_DRDY) =? IDE_DRDY then Z.land r (Z.lor IDE_DF IDE_ERR) = 0 /\ Q v' else settles n v' Q
  end.

Class AtaLaws (V : Type) `{AT : Ata V} (patience : nat) := {
  ata : V -> disks -> phase -> (Z -> Z) -> Prop;
  ata_settles v D p r : ata v D p r -> settles patience v (fun v' => ata v' D (match p with Wrote => Ready | _ => p end) r);
  ata_status v D r : ata v D Ready r -> ata (inb 503 v).2 D Ready r;
  ata_reg v D r port x : ata v D Ready r -> port ∈ [1014; 498; 499; 500; 501; 502] ->
    ata (outb port x v) D Ready (fun p => if decide (p = port) then x else r p);
  ata_read v D r d : ata v D Ready r -> r 498 = 1 -> D (reg_disk r) !! Z.to_nat (reg_sector r) = Some d ->
    ata (outb 503 IDE_CMD_READ v) D (Reading d) r;
  ata_write v D r d : ata v D Ready r -> r 498 = 1 -> is_Some (D (reg_disk r) !! Z.to_nat (reg_sector r)) ->
    ata (outsl 496 d (outb 503 IDE_CMD_WRITE v)) (write_sector (reg_disk r) (reg_sector r) d D) Wrote r;
  ata_insl v D r d : ata v D (Reading d) r -> (insl 496 v).1 = d /\ ata (insl 496 v).2 D Ready r }.

(** ** The queue *)

Record dq := mkDq { abufs : list buf; adisks : disks; aqueue : list nat }.

Definition dirty (x : buf) : bool := negb (Z.land (bflags x) B_DIRTY =? 0).

(** What a request does to its buffer and to the disks. *)
Definition served (x : buf) (D : disks) : buf * disks :=
  let f := Z.land (Z.lor (bflags x) B_VALID) (Z.lnot B_DIRTY) in
  if dirty x then (set_bflags f x, write_sector (bdev x) (blockno x) (bdata x) D)
  else (set_bflags f (set_bdata (default [] (D (bdev x) !! Z.to_nat (blockno x))) x), D).

Inductive op := Request (me : Z) (b : nat) | Interrupt | Touch (b : nat) (f : buf -> buf).

Definition astep (o : op) (a : dq) : dq :=
  match o with
  | Request _ b => mkDq (abufs a) (adisks a) (aqueue a ++ [b])
  | Interrupt => match aqueue a with
                 | [] => a
                 | b :: q => let x := default buf0 (abufs a !! b) in
                     mkDq (<[b := (served x (adisks a)).1]> (abufs a)) (served x (adisks a)).2 q
                 end
  | Touch b f => mkDq (alter f b (abufs a)) (adisks a) (aqueue a)
  end.

(** A buffer that [iderw] takes. *)
Record fit (hd : bool) (D : disks) (x : buf) : Prop := mkFit {
  ft_todo : Z.land (bflags x) (Z.lor B_VALID B_DIRTY) ≠ B_VALID;
  ft_block : 0 <= blockno x < FSSIZE;
  ft_dev : bdev x = 0 \/ (bdev x = 1 /\ hd = true);
  ft_disk : is_Some (D (bdev x) !! Z.to_nat (blockno x)) }.

(** The callers: a request is made by the holder of the buffer's lock, who leaves the
    buffer alone until it is served. *)
Definition callers (hd : bool) (o : op) (a : dq) : Prop :=
  match o with
  | Request me b => b ∉ aqueue a /\ exists x, abufs a !! b = Some x /\ slocked (block x) ≠ 0 /\ spid (block x) = me /\ fit hd (adisks a) x
  | Interrupt => True
  | Touch b _ => b ∉ aqueue a
  end.

Section proof.
Context {V : Type} `{AL : AtaLaws V patience}.

Definition dstep (o : op) : M (ide V) unit :=
  match o with
  | Request me b => iderw_enter patience me b;; mret tt
  | Interrupt => ideintr patience;; mret tt
  | Touch b f => modify (set_ibuf b f)
  end.

Fixpoint linked (nx : nat -> option nat) (p : option nat) (q : list nat) : Prop :=
  match q with
  | [] => p = None
  | b :: q => p = Some b /\ linked nx (nx b) q
  end.

(** The controller has what the first request gave it. *)
Definition started (v : V) (D : disks) (x : buf) : Prop := exists r,
  if dirty x then ata v (served x D).2 Wrote r else ata v D (Reading (default [] (D (bdev x) !! Z.to_nat (blockno x)))) r.

Record rep (a : dq) (s : ide V) : Prop := mkRep {
  rp_bufs : ibufs s = abufs a;
  rp_queue : linked (qnext s) (idequeue s) (aqueue a);
  rp_nodup : NoDup (aqueue a);
  rp_fit : forall b, b ∈ aqueue a -> exists x, abufs a !! b = Some x /\ fit (havedisk1 s) (adisks a) x;
  rp_ctl : match aqueue a with
           | [] => exists p r, ata (ctl s) (adisks a) p r /\ (p = Ready \/ p = Wrote)
           | b :: _ => started (ctl s) (adisks a) (default buf0 (abufs a !! b))
           end }.

Section ops.
Context (P : failure -> Prop).

Lemma wp_idewait_loop n s (R : V -> Prop) Q : settles n (ctl s) R ->
  (forall r v, Z.land r (Z.lor IDE_DF IDE_ERR) = 0 -> R v -> Q r (set_ctl v s)) -> wp P (idewait_loop n) s Q.
Proof.
  revert s. induction n as [|n IH]; intros s Hs HQ; [done|]. cbn [idewait_loop]. cbn [settles] in Hs. wp_next. unfold inp, wp.
  destruct (inb 503 (ctl s)) as [r v]. destruct (_ =? IDE_DRDY); [destruct Hs; by apply HQ|]. apply (IH (set_ctl v s)); [done|]. intros r' v' H1 H2. by apply (HQ r' v').
Qed.

Lemma wp_idewait c s D p r Q : ata (ctl s) D p r ->
  (forall v, ata v D (match p with Wrote => Ready | _ => p end) r -> Q 0 (set_ctl v s)) -> wp P (idewait patience c) s Q.
Proof.
  intros Ha HQ. unfold idewait. wp_next. eapply wp_idewait_loop; [by apply (ata_settles _ D p r)|]. intros r' v Hr Hv.
  rewrite Hr. cbn [negb Z.eqb]. rewrite andb_false_r. by apply wp_ret, HQ.
Qed.

(** The registers name the sector of the buffer. *)
Lemma sector_regs n d (r : Z -> Z) : 0 <= n < FSSIZE -> d = 0 \/ d = 1 ->
  r 499 = Z.land n 255 -> r 500 = Z.land (Z.shiftr n 8) 255 -> r 501 = Z.land (Z.shiftr n 16) 255 ->
  r 502 = Z.lor (Z.lor 224 (Z.shiftl (Z.land d 1) 4)) (Z.land (Z.shiftr n 24) 15) -> reg_disk r = d /\ reg_sector r = n.
Proof.
  intros Hn Hd E1 E2 E3 E4. unfold reg_disk, reg_sector. rewrite E1, E2, E3, E4.
  rewrite !Z.shiftr_div_pow2 by lia. rewrite (Z.div_small n (2 ^ 16)), (Z.div_small n (2 ^ 24)) by lia. rewrite !Z.land_0_l, Z.lor_0_r.
  change 255 with (Z.ones 8). rewrite !Z.land_ones by lia. rewrite (Z.mod_small (n / 2 ^ 8)) by (change (2 ^ 8) with 256; Z.div_mod_to_equations; lia).
  change (2 ^ 8) with 256. pose proof (Z.div_mod n 256 ltac:(lia)). destruct Hd as [->| ->].
  - split; [reflexivity|]. change (Z.land (Z.lor 224 (Z.shiftl (Z.land 0 1) 4)) 15) with 0. lia.
  - split; [reflexivity|]. change (Z.land (Z.lor 224 (Z.shiftl (Z.land 1 1) 4)) 15) with 0. lia.
Qed.

Lemma wp_outp port x s Q : Q tt (set_ctl (outb port x (ctl s)) s) -> wp P (outp port x) s Q.
Proof. intros HQ. by apply wp_modify. Qed.

Lemma wp_idestart b s D x p r Q : ibufs s !! b = Some x -> fit (havedisk1 s) D x -> ata (ctl s) D p r -> p = Ready \/ p = Wrote ->
  (forall v, started v D x -> Q tt (set_ctl v s)) -> wp P (idestart patience (Some b)) s Q.
Proof.
  intros Hb [Ht Hn Hd Hs] Ha Hp HQ. unfold idestart. wp_next. apply wp_gets. unfold ibuf. rewrite Hb. cbn [default from_option]. unfold id.
  rewrite (Z.geb_leb (blockno x) FSSIZE), (proj2 (Z.leb_gt FSSIZE (blockno x))) by lia. change (BSIZE / SECTOR_SIZE) with 1. change (1 =? 1) with true. change (1 >? 7) with false. cbn iota.
  rewrite Z.mul_1_r. wp_next. apply (wp_idewait _ _ D p r); [done|]. intros v0 Ha0. assert (ata v0 D Ready r) as Ha1 by (by destruct Hp as [-> | ->]).
  do 6 (wp_next; apply wp_outp). cbn [ctl set_ctl].
  set (v6 := outb 502 _ _). assert (exists r6, ata v6 D Ready r6 /\ r6 498 = 1 /\ reg_disk r6 = bdev x /\ reg_sector r6 = blockno x) as (r6 & Ha6 & E1 & E2 & E3).
  { eexists. split; [unfold v6; do 6 (apply ata_reg; [|set_solver]); exact Ha1|]. split; [done|]. apply sector_regs; [done|by destruct Hd as [?|[? _]]; auto|done..]. }
  destruct Hs as [d Hd']. fold (dirty x). destruct (dirty x) eqn:E; cbn [negb].
  - wp_next. apply wp_outp, wp_modify. cbn [ctl set_ctl]. apply HQ. exists r6. unfold served. rewrite E. cbn [snd]. rewrite <- E2, <- E3. apply ata_write; [done|done|]. rewrite E2, E3. by exists d.
  - apply wp_outp. cbn [ctl set_ctl]. apply HQ. exists r6. rewrite E, Hd'. apply ata_read; [done|done|]. by rewrite E2, E3.
Qed.

(** *** The list of requests *)

Lemma linked_ext nx nx' p q : (forall b, b ∈ q -> nx' b = nx b) -> linked nx p q -> linked nx' p q.
Proof.
  revert p. induction q as [|b q IH]; intros p He; [done|]. cbn. intros [-> H]. split; [done|]. rewrite He by left. apply IH; [|done]. intros b' Hb'. apply He. by right.
Qed.

Lemma linked_end n (s : ide V) b q : linked (qnext s) (Some b) (b :: q) -> (length q < n)%nat -> exists l, queue_end n s b = Some l /\ last (b :: q) = Some l.
Proof.
  revert b n. induction q as [|b' q IH]; intros b n [_ H] Hn; (destruct n as [|n]; [cbn in Hn; lia|]); cbn [queue_end].
  - cbn in H. rewrite H. by exists b.
  - destruct H as [E H]. rewrite E. destruct (IH b' n) as (l & H1 & H2); [by split|cbn in Hn; lia|]. by exists l.
Qed.

Lemma linked_snoc nx p q l b : linked nx p q -> NoDup q -> b ∉ q -> nx b = None -> last q = Some l ->
  linked (fun i => if decide (i = l) then Some b else nx i) p (q ++ [b]).
Proof.
  revert p. induction q as [|c q IH]; intros p; [done|]. intros [-> H] [Hc Hnd]%NoDup_cons Hb Hn Hl. cbn [app linked]. split; [done|].
  destruct q as [|c' q].
  - injection Hl as ->. rewrite decide_True by done. cbn. split; [done|]. rewrite decide_False by set_solver. done.
  - rewrite last_cons_cons in Hl. rewrite decide_False by (intros ->; apply Hc, last_Some_elem_of; done). apply IH; [done|done|set_solver|done|done].
Qed.

(** [append] puts the buffer at the end. *)
Lemma wp_append b (s : ide V) q Q : linked (qnext s) (idequeue s) q -> NoDup q -> b ∉ q -> qnext s b = None -> Forall (fun i => (i < length (ibufs s))%nat) q ->
  (forall s', linked (qnext s') (idequeue s') (q ++ [b]) -> ibufs s' = ibufs s -> havedisk1 s' = havedisk1 s -> ctl s' = ctl s -> Q tt s') ->
  wp P (append b) s Q.
Proof.
  intros Hl Hnd Hb Hn Hlt HQ. unfold append. wp_next. apply wp_gets. unfold id. destruct q as [|b0 q].
  - cbn in Hl. rewrite Hl. apply wp_modify, HQ; [|done..]. cbn. done.
  - pose proof Hl as [E _]. rewrite E in *. destruct (linked_end (length (ibufs s)) s b0 q Hl) as (l & H1 & H2).
    { assert (length (b0 :: q) <= length (ibufs s))%nat as H; [|done]. rewrite <- (length_seq (length (ibufs s)) 0). apply submseteq_length, NoDup_submseteq; [done|].
      intros i Hi. apply elem_of_seq. rewrite Forall_forall in Hlt. specialize (Hlt i Hi). lia. }
    rewrite H1. apply wp_modify, HQ; [|done..]. cbn [qnext idequeue set_qnext]. rewrite E. by apply linked_snoc.
Qed.

Lemma wp_iderw_enter me a s b x Q : rep a s -> b ∉ aqueue a -> abufs a !! b = Some x -> slocked (block x) ≠ 0 -> spid (block x) = me ->
  fit (havedisk1 s) (adisks a) x -> (forall s', rep (astep (Request me b) a) s' -> havedisk1 s' = havedisk1 s -> Q false s') -> wp P (iderw_enter patience me b) s Q.
Proof.
  intros [R1 R2 R3 R4 R5] Hb Hx Hl1 Hl2 Hfit HQ. assert (ibuf b s = x) as Ex by (unfold ibuf; by rewrite R1, Hx). pose proof Hfit as [Ht _ Hd _].
  assert ((Z.land (bflags x) (Z.lor B_VALID B_DIRTY) =? B_VALID) = false) as Htf by lia.
  unfold iderw_enter. wp_next. apply wp_gets. rewrite Ex. replace (slocked (block x) =? 0) with false by lia. rewrite Hl2, Z.eqb_refl. cbn [orb negb]. rewrite Htf.
  wp_next. apply wp_gets. assert (negb (bdev x =? 0) && negb (havedisk1 s) = false) as -> by (destruct Hd as [->|[_ ->]]; [done|apply andb_false_r]).
  wp_next. apply wp_modify. wp_next. apply (wp_append b (set_qnext b None s) (aqueue a)); [|done|done| | |].
  { apply (linked_ext (qnext s)); [|done]. intros b' Hb'. cbn. rewrite decide_False; [done|]. by intros ->. }
  { cbn. by rewrite decide_True. }
  { apply Forall_forall. intros i Hi. cbn [ibufs set_qnext]. rewrite R1. destruct (R4 i Hi) as (y & Hy & _). by eapply lookup_lt_Some. }
  intros s1 L1 B1 H1 C1. cbn [ibufs havedisk1 ctl set_qnext] in B1, H1, C1. wp_next. apply wp_gets. wp_next.
  assert (forall v, (match aqueue a with [] => started v (adisks a) x | _ => v = ctl s end) -> rep (astep (Request me b) a) (set_ctl v s1)) as Hrep.
  { intros v Hv. constructor; cbn [astep abufs adisks aqueue ibufs qnext idequeue havedisk1 ctl set_ctl].
    - by rewrite B1.
    - done.
    - apply NoDup_app. split_and!; [done|set_solver|apply NoDup_singleton].
    - rewrite H1. intros b' [H| ->%list_elem_of_singleton]%elem_of_app; [by apply R4|by exists x].
    - destruct (aqueue a) as [|b0 q]; cbn [app]; [by rewrite Hx|by rewrite Hv]. }
  assert (forall v, wp P (iderw_done b) (set_ctl v s1) (fun r s' => r = false /\ s' = set_ctl v s1)) as Hdone.
  { intros v. unfold iderw_done. wp_next. apply wp_gets. apply wp_ret. unfold ibuf. cbn [ibufs set_ctl]. by rewrite B1, R1, Hx. }
  destruct (aqueue a) as [|b0 q] eqn:Eq; cbn [app linked] in L1; destruct L1 as [L1 L2]; rewrite L1.
  - rewrite bool_decide_true by done. destruct R5 as (p & r & Ha & Hp). apply (wp_idestart b s1 (adisks a) x p r); [by rewrite B1, R1|by rewrite H1|by rewrite C1|done|].
    intros v Hv. eapply wp_mono; [apply Hdone|]. intros r' s' [-> ->]. by apply HQ; [apply Hrep|].
  - rewrite bool_decide_false by set_solver. apply wp_ret. replace s1 with (set_ctl (ctl s) s1) at 1 by (rewrite <- C1; by destruct s1).
    eapply wp_mono; [apply Hdone|]. intros r' s' [-> ->]. by apply HQ; [apply Hrep|].
Qed.

Lemma fit_served hd D x y : fit hd D x -> fit hd (served y D).2 x.
Proof.
  intros [H1 H2 H3 H4]. constructor; try done. unfold served. destruct (dirty y); [|done]. cbn [snd]. unfold write_sector.
  case_decide as E; [|done]. rewrite <- E. apply lookup_lt_is_Some. rewrite length_insert. by apply lookup_lt_is_Some.
Qed.

(** The end of the handler, once the data is there: [v] is the controller. *)
Lemma wp_next_request a s b q n x v p r Q :
  rep a s -> aqueue a = b :: q -> abufs a !! b = Some x -> qnext s b = n -> ata v (served x (adisks a)).2 p r -> p = Ready \/ p = Wrote ->
  let s1 := mkIde (<[b := (served x (adisks a)).1]> (ibufs s)) (qnext s) n (havedisk1 s) v in
  (forall s', rep (astep Interrupt a) s' -> havedisk1 s' = havedisk1 s -> Q (Some b) s') ->
  wp P ((if bool_decide (n = None) then mret tt else idestart patience n);; mret (Some b)) s1 Q.
Proof.
  intros [R1 R2 R3 R4 R5] Eq Hx En Ha Hp s1 HQ. rewrite Eq in R2, R3, R4. destruct R2 as [_ R2]. rewrite En in R2. apply NoDup_cons in R3 as [R3 R3'].
  assert (forall v', match q with [] => v' = v | c :: _ => started v' (served x (adisks a)).2 (default buf0 (abufs a !! c)) end -> rep (astep Interrupt a) (set_ctl v' s1)) as Hrep.
  { intros v' Hv. unfold astep. rewrite Eq, Hx. cbn [default from_option]. unfold id. constructor; cbn [abufs adisks aqueue ibufs qnext idequeue havedisk1 ctl set_ctl s1].
    - by rewrite R1.
    - done.
    - done.
    - intros c Hc. destruct (R4 c) as (y & Hy & Hf); [by right|]. exists y. split; [|by apply fit_served]. rewrite list_lookup_insert_ne; [done|]. by intros ->.
    - destruct q as [|c q]; [subst v'; by exists p, r|]. rewrite list_lookup_insert_ne; [done|]. intros ->. apply R3. left. }
  destruct q as [|c q]; cbn in R2.
  - rewrite (bool_decide_true (n = None)) by congruence. wp_next. apply wp_ret, wp_ret. apply (HQ (set_ctl v s1)); [by apply Hrep|done].
  - destruct R2 as [E2 _]. rewrite E2 in *. rewrite bool_decide_false by done. destruct (R4 c) as (y & Hy & Hf); [right; left|].
    wp_next. apply (wp_idestart c _ (served x (adisks a)).2 y p r); [|by apply fit_served|done|done|].
    { cbn [ibufs s1]. rewrite R1, list_lookup_insert_ne; [done|]. intros ->. apply R3. left. }
    intros v' Hv'. apply wp_ret. apply HQ; [|done]. apply Hrep. by rewrite Hy.
Qed.

Lemma done_flags (bs : list buf) nx n hd (v : V) b y : (b < length bs)%nat ->
  set_ibuf b (fun x => set_bflags (Z.land (bflags x) (Z.lnot B_DIRTY)) x)
    (set_ibuf b (fun x => set_bflags (Z.lor (bflags x) B_VALID) x) (mkIde (<[b := y]> bs) nx n hd v)) =
  mkIde (<[b := set_bflags (Z.land (Z.lor (bflags y) B_VALID) (Z.lnot B_DIRTY)) y]> bs) nx n hd v.
Proof.
  intros Hb. unfold set_ibuf. cbn [ibufs qnext idequeue havedisk1 ctl]. f_equal.
  rewrite (alter_insert_at _ (<[b := y]> bs) b y), list_insert_insert_eq by by apply list_lookup_insert_eq.
  erewrite alter_insert_at by by apply list_lookup_insert_eq. by rewrite list_insert_insert_eq.
Qed.

Lemma wp_ideintr a s Q : rep a s ->
  (forall s', rep (astep Interrupt a) s' -> havedisk1 s' = havedisk1 s -> Q (head (aqueue a)) s') -> wp P (ideintr patience) s Q.
Proof.
  intros R HQ. pose proof R as [R1 R2 R3 R4 R5]. unfold ideintr. wp_next. apply wp_gets. destruct (aqueue a) as [|b q] eqn:Eq.
  - cbn in R2. rewrite R2. apply wp_ret. apply HQ; [|done]. unfold astep. by rewrite Eq.
  - destruct R2 as [E2 R2]. rewrite E2. destruct (R4 b) as (x & Hx & Hf); [left|]. rewrite Hx in R5. cbn [default from_option] in R5. unfold id in R5.
    wp_next. apply wp_gets. wp_next. apply wp_modify. wp_next. apply wp_gets. unfold ibuf. cbn [ibufs set_idequeue]. rewrite R1, Hx. cbn [default from_option]. unfold id.
    pose proof (lookup_lt_Some _ _ _ Hx) as Hlt. rewrite <- R1 in Hlt.
    destruct R5 as [r R5]. fold (dirty x). destruct (dirty x) eqn:Ed; cbn [negb].
    + wp_next. apply wp_ret. wp_next. apply wp_modify. wp_next. apply wp_modify. unfold set_idequeue.
      replace (ibufs s) with (<[b := x]> (ibufs s)) at 1 by (apply list_insert_id; by rewrite R1). rewrite done_flags by done.
      pose proof (wp_next_request a s b q _ x (ctl s) Wrote r Q R Eq Hx eq_refl) as H. unfold served in R5. rewrite Ed in R5. unfold served in H. rewrite Ed in H. apply H; [done|by right|done].
    + wp_next. wp_next. apply (wp_idewait _ _ (adisks a) (Reading (default [] (adisks a (bdev x) !! Z.to_nat (blockno x)))) r); [done|]. intros v Hv. change (0 >=? 0) with true. cbn iota.
      apply wp_modify. cbn [ctl set_ctl]. destruct (ata_insl _ _ _ _ Hv) as [Ed1 Ha]. destruct (insl 496 v) as [d v'] eqn:Ei. cbn [fst snd] in Ed1, Ha. subst d.
      wp_next. apply wp_modify. wp_next. apply wp_modify. set (d := default [] _).
      replace (set_ibuf b (set_bdata d) (set_ctl v' (set_ctl v (set_idequeue (qnext s b) s)))) with (mkIde (<[b := set_bdata d x]> (ibufs s)) (qnext s) (qnext s b) (havedisk1 s) v').
      2: { unfold set_ibuf, set_ctl, set_idequeue. cbn [ibufs qnext idequeue havedisk1 ctl]. f_equal. symmetry. apply alter_insert_at. by rewrite R1. }
      rewrite done_flags by done. pose proof (wp_next_request a s b q _ x v' Ready r Q R Eq Hx eq_refl) as H. unfold served in H. rewrite Ed in H. apply H; [done|by left|done].
Qed.

End ops.

(** ** The driver is the queue *)

Lemma wp_dstep P o a s : rep a s -> callers (havedisk1 s) o a -> wp P (dstep o) s (fun _ s' => rep (astep o a) s' /\ havedisk1 s' = havedisk1 s).
Proof.
  intros R Hc. destruct o as [me b| |b f]; cbn [dstep].
  - destruct Hc as (Hb & x & Hx & Hl1 & Hl2 & Hf). wp_next. apply (wp_iderw_enter P me a s b x); [done..|]. intros s' H1 H2. by apply wp_ret.
  - wp_next. apply (wp_ideintr P a s); [done|]. intros s' H1 H2. by apply wp_ret.
  - apply wp_modify. split; [|done]. destruct R as [R1 R2 R3 R4 R5]. cbn in Hc. constructor; cbn [astep abufs adisks aqueue ibufs qnext idequeue havedisk1 ctl set_ibuf].
    + by rewrite R1.
    + done.
    + done.
    + intros c H. rewrite list_lookup_alter_ne by (by intros ->). by apply R4.
    + destruct (aqueue a) as [|c q]; [done|]. rewrite list_lookup_alter_ne; [done|]. intros ->. apply Hc. left.
Qed.

(** The callers keep to their part all the way. *)
Fixpoint all_callers (hd : bool) (os : list op) (a : dq) : Prop :=
  match os with
  | [] => True
  | o :: os => callers hd o a /\ all_callers hd os (astep o a)
  end.

Notation aruns os a := (foldl (flip astep) a os).

Lemma wp_drun P os a s : rep a s -> all_callers (havedisk1 s) os a ->
  wp P (mfor os dstep) s (fun _ s' => rep (aruns os a) s' /\ havedisk1 s' = havedisk1 s).
Proof.
  revert a s. induction os as [|o os IH]; intros a s R; cbn [mfor all_callers foldl]; [intros _; by apply wp_ret|]. intros [Hc Hcs].
  wp_next. eapply wp_mono; [by apply wp_dstep|]. intros [] s1 [R1 E1]. rewrite <- E1 in *. by apply IH.
Qed.

(** Every request in the queue is served, after as many interrupts as there are
    requests up to it. *)
Lemma served_done x D : Z.land (bflags (served x D).1) (Z.lor B_VALID B_DIRTY) =? B_VALID = true.
Proof.
  assert (bflags (served x D).1 = Z.land (Z.lor (bflags x) B_VALID) (Z.lnot B_DIRTY)) as -> by (unfold served; by destruct (dirty x)).
  apply Z.eqb_eq. rewrite <- Z.land_assoc. change (Z.land (Z.lnot B_DIRTY) (Z.lor B_VALID B_DIRTY)) with B_VALID.
  apply Z.bits_inj'. intros n _. rewrite Z.land_spec, Z.lor_spec. by destruct (Z.testbit (bflags x) n), (Z.testbit B_VALID n).
Qed.

Lemma all_interrupts hd n a : all_callers hd (replicate n Interrupt) a.
Proof. revert a. induction n as [|n IH]; intros a; [done|]. by split. Qed.

Lemma interrupts_serve k a b : aqueue a !! k = Some b -> NoDup (aqueue a) -> (forall c, c ∈ aqueue a -> is_Some (abufs a !! c)) ->
  exists x D, abufs (aruns (replicate (S k) Interrupt) a) !! b = Some (served x D).1.
Proof.
  revert a. induction k as [|k IH]; intros a Hk Hnd Hb; (destruct (aqueue a) as [|c q] eqn:Eq; [done|]); cbn in Hk.
  - injection Hk as ->. destruct (Hb b ltac:(left)) as [x Hx]. exists x, (adisks a). cbn. rewrite Eq, Hx. cbn.
    apply list_lookup_insert_eq. by eapply lookup_lt_Some.
  - assert (aqueue (astep Interrupt a) = q) as Eq' by (cbn; by rewrite Eq).
    change (replicate (S (S k)) Interrupt) with (Interrupt :: replicate (S k) Interrupt). cbn [foldl flip]. apply NoDup_cons in Hnd as [Hc Hnd].
    apply IH; rewrite ?Eq'; [done..|]. intros c' Hc'. cbn. rewrite Eq. cbn. rewrite list_lookup_insert_ne by (by intros ->). apply Hb. by right.
Qed.

Lemma wp_waits P a s k b : rep a s -> aqueue a !! k = Some b ->
  wp P (mfor (replicate (S k) Interrupt) dstep;; iderw_done b) s (fun r s' => r = true /\ rep (aruns (replicate (S k) Interrupt) a) s').
Proof.
  intros R Hk. wp_next. eapply wp_mono; [apply wp_drun; [done|apply all_interrupts]|]. intros [] s1 [R1 _].
  unfold iderw_done. wp_next. apply wp_gets, wp_ret. split; [|done]. destruct R as [_ _ R3 R4 _].
  destruct (interrupts_serve k a b Hk R3) as (x & D & Hx). { intros c Hc. destruct (R4 c Hc) as (x & Hx & _). by exists x. }
  unfold ibuf. rewrite (rp_bufs _ _ R1), Hx. apply served_done.
Qed.

(** *** The start *)

Definition ide0 (bs : list buf) (v : V) : ide V := mkIde bs (fun _ => None) None false v.

Lemma wp_find_disk1 P n s D r Q : ata (ctl s) D Ready r ->
  (forall v h, ata v D Ready r -> Q tt (mkIde (ibufs s) (qnext s) (idequeue s) h v)) -> wp P (find_disk1 n) s Q.
Proof.
  revert s. induction n as [|n IH]; intros s Ha HQ; cbn [find_disk1].
  - apply wp_ret. destruct s. by apply HQ.
  - wp_next. unfold inp, wp. pose proof (ata_status _ _ _ Ha) as Ha'. destruct (inb 503 (ctl s)) as [x v]. cbn [snd] in Ha'.
    destruct (negb (x =? 0)); [by apply HQ|]. by apply (IH (set_ctl v s)).
Qed.

Lemma wp_ideinit P bs v D r : ata v D Ready r -> wp P (ideinit patience) (ide0 bs v) (fun _ s => rep (mkDq bs D []) s).
Proof.
  intros Ha. unfold ideinit. wp_next. apply (wp_idewait P _ _ D Ready r); [done|]. intros v1 H1. wp_next. apply wp_outp. wp_next.
  eapply wp_find_disk1; [apply ata_reg; [exact H1|set_solver]|]. intros v2 h H2. apply wp_outp. constructor; cbn.
  - done.
  - done.
  - apply NoDup_nil_2.
  - intros b Hb. by apply not_elem_of_nil in Hb.
  - do 2 eexists. split; [apply ata_reg; [exact H2|set_solver]|]. by left.
Qed.

(** C29. The disk driver.  From [ideinit] on, whatever requests [iderw] queues, whatever
    interrupts arrive and whatever is done to buffers that are not queued, no panic is
    reached, no poll goes on for ever, and the driver's linked list, its buffers and
    the disks are those of a queue that serves its requests one at a time in the order
    they were made.  Of the [k]-th request of the queue, [iderw] finds the buffer done
    after [k + 1] more interrupts. *)
Theorem ide_refines (bs : list buf) (v : V) (D : disks) (r : Z -> Z) (os : list op) :
  ata v D Ready r ->
  exists s0, ideinit patience (ide0 bs v) = Ok tt s0 /\
    (all_callers (havedisk1 s0) os (mkDq bs D []) ->
     exists s, mfor os dstep s0 = Ok tt s /\ rep (aruns os (mkDq bs D [])) s /\
       forall k b, aqueue (aruns os (mkDq bs D [])) !! k = Some b ->
         exists s', (mfor (replicate (S k) Interrupt) dstep;; iderw_done b) s = Ok true s').
Proof.
  intros Ha. destruct (wp_total _ _ _ (wp_ideinit no_failure bs v D r Ha)) as ([] & s0 & E0 & R0). exists s0. split; [done|]. intros Hc.
  destruct (wp_total _ _ _ (wp_drun no_failure os _ _ R0 Hc)) as ([] & s & E & R & _). exists s. split_and!; [done..|]. intros k b Hk.
  destruct (wp_total _ _ _ (wp_waits no_failure _ _ _ _ R Hk)) as (x & s' & E' & -> & _). by exists s'.
Qed.

End proof.

(** A request served is a call of [iderw] of memide.c, on disk 1. *)
Theorem serve_memide me b m st x D :
  msec ∅ m -> bufs st !! b = Some x -> holds me (block x) -> bflags x = 0 \/ bflags x = Z.lor B_VALID B_DIRTY ->
  bdev x = 1 -> fit true D x -> D 1 = disk st ->
  exists m' st', iderw me b (m, st) = Ok tt (m', st') /\ bufs st' = <[b := (served x D).1]> (bufs st) /\ disk st' = (served x D).2 1.
Proof.
  intros Hm Hx Hh Hf Hd [_ Hn _ Hk] HD. rewrite Hd, HD in Hk. destruct Hk as [d Hk].
  assert (wp no_failure (iderw me b) (m, st) (fun _ p => bufs p.2 = <[b := (served x D).1]> (bufs st) /\ disk p.2 = (served x D).2 1)) as H.
  { destruct Hf as [Hf|Hf].
    - apply (wp_iderw_read me no_failure b m st x d); [done..|lia|done|]. intros m' st' _ E1 E2 _. cbn [snd]. unfold served, dirty. rewrite E1, E2, Hf, Hd, HD, Hk. done.
    - apply (wp_iderw_write me no_failure b m st x); [done..| |].
      { apply lookup_lt_Some in Hk. lia. }
      intros m' st' _ E1 E2 _. cbn [snd]. unfold served, dirty, write_sector. rewrite E1, E2, Hf, Hd. change (negb _) with true. cbn [fst snd]. rewrite decide_True by done. by rewrite HD. }
  destruct (wp_total _ _ _ H) as ([] & [m' st'] & E & H1 & H2). by exists m', st'.
Qed.

(** ** A controller *)

(** After a command the first look at the status finds it busy. *)
Record simple := mkSimple { sdisks : disks; sregs : Z -> Z; sphase : phase; sbusy : bool }.

#[export] Instance simple_ata : Ata simple := {
  inb _ v := if sbusy v then (IDE_BSY, mkSimple (sdisks v) (sregs v) (sphase v) false)
             else (IDE_DRDY, mkSimple (sdisks v) (sregs v) (match sphase v with Wrote => Ready | p => p end) false);
  outb port x v :=
    if port =? 503 then
      mkSimple (sdisks v) (sregs v)
        (if x =? IDE_CMD_READ then Reading (default [] (sdisks v (reg_disk (sregs v)) !! Z.to_nat (reg_sector (sregs v)))) else Wrote) true
    else mkSimple (sdisks v) (fun p => if decide (p = port) then x else sregs v p) (sphase v) (sbusy v);
  insl _ v := match sphase v with
              | Reading d => (d, mkSimple (sdisks v) (sregs v) Ready (sbusy v))
              | _ => ([], v)
              end;
  outsl _ d v := mkSimple (write_sector (reg_disk (sregs v)) (reg_sector (sregs v)) d (sdisks v)) (sregs v) (sphase v) (sbusy v) }.

#[export] Program Instance simple_laws : AtaLaws simple 2 := {
  ata v D p r := exists c, v = mkSimple D r p c }.
Next Obligation. intros v D p r [c ->]. destruct c; cbn; (split; [done|]); exists false; by destruct p. Qed.
Next Obligation. intros v D r [c ->]. destruct c; by exists false. Qed.
Next Obligation. intros v D r port x [c ->] Hp. unfold outb, simple_ata. replace (port =? 503) with false by (symmetry; apply Z.eqb_neq; intros ->; set_solver). by exists c. Qed.
Next Obligation. intros v D r d [c ->] _ Hd. exists true. cbn. by rewrite Hd. Qed.
Next Obligation. intros v D r d [c ->] _ _. by exists true. Qed.
Next Obligation. intros v D r d [c ->]. split; [done|]. by exists c. Qed.

Definition ex_lock : sleeplock := mkSl 1 "buffer" 7.
Definition ex_bufs : list buf := [mkBuf (Z.lor B_VALID B_DIRTY) 1 2 ex_lock 1 0 0 [5]; mkBuf 0 1 2 ex_lock 1 0 0 [9]].
Definition ex_disks : disks := fun _ => replicate 4 [0].
Definition ex_ops : list op := [Request 7 0; Request 7 1; Interrupt; Touch 0 (set_bdata [6])].

(** A block is written through one buffer and read through another. *)
Lemma ide_refines_witness : exists (s0 s s' : ide simple),
  ideinit 2 (ide0 ex_bufs (mkSimple ex_disks (fun _ => 0) Ready false)) = Ok tt s0 /\ mfor ex_ops (dstep (patience := 2)) s0 = Ok tt s /\
  (mfor (replicate 1 Interrupt) (dstep (patience := 2));; iderw_done 1) s = Ok true s' /\ ibufs s' = [mkBuf B_VALID 1 2 ex_lock 1 0 0 [6]; mkBuf B_VALID 1 2 ex_lock 1 0 0 [5]].
Proof.
  destruct (ide_refines (V := simple) (patience := 2) ex_bufs (mkSimple ex_disks (fun _ => 0) Ready false) ex_disks (fun _ => 0) ex_ops) as (s0 & E0 & H); [by exists false|].
  pose proof E0 as E. vm_compute in E. injection E as <-. destruct H as (s & E1 & _ & H).
  - cbn. split_and!; try done; try set_solver.
    + eexists. split; [reflexivity|]. do 2 (split; [done|]). constructor; [done|done|by right|by eexists].
    + eexists. split; [reflexivity|]. do 2 (split; [done|]). constructor; [done|done|by right|by eexists].
  - destruct (H 0%nat 1%nat) as (s' & E2); [reflexivity|]. eexists _, s, s'. split; [exact E0|]. split; [exact E1|]. split; [exact E2|].
    vm_compute in E1. injection E1 as <-. vm_compute in E2. by injection E2 as <-.
Defined.

End Ide.
