(* ===== verification/Log.v ===== *)
(** * The redo log: log.c

    [lst] is [struct log] on top of the buffer cache.  A call of [begin_op]
    that would sleep does not happen ([Blocked]); a commit runs in the process
    that ends the last operation. *)

From stdpp Require Import base numbers gmap list strings.
From S2P Require Import Prelude Spinlock Sleeplock Bio.
Open Scope Z_scope.

(** param.h *)
Definition LOGSIZE : Z := MAXOPBLOCKS * 3.

Record lst := mkL {
  lbio : bio;
  lstart : Z;
  lsize : Z;
  outstanding : Z;
  committing : Z;
  ldev : Z;
  lhn : Z;
  lhblock : list Z }.

Definition set_lbio (x : bio) (l : lst) : lst :=
  mkL x (lstart l) (lsize l) (outstanding l) (committing l) (ldev l) (lhn l) (lhblock l).

Definition set_outstanding (v : Z) (l : lst) : lst :=
  mkL (lbio l) (lstart l) (lsize l) v (committing l) (ldev l) (lhn l) (lhblock l).

Definition set_committing (v : Z) (l : lst) : lst :=
  mkL (lbio l) (lstart l) (lsize l) (outstanding l) v (ldev l) (lhn l) (lhblock l).

Definition set_lhn (v : Z) (l : lst) : lst :=
  mkL (lbio l) (lstart l) (lsize l) (outstanding l) (committing l) (ldev l) v (lhblock l).

Definition set_lhblock (v : list Z) (l : lst) : lst :=
  mkL (lbio l) (lstart l) (lsize l) (outstanding l) (committing l) (ldev l) (lhn l) v.

Definition set_where (start size dev : Z) (l : lst) : lst :=
  mkL (lbio l) start size (outstanding l) (committing l) dev (lhn l) (lhblock l).

Definition on_bio {A} (op : M (mach * bio) A) : M (mach * lst) A := part lbio set_lbio op.

(** An [int] in the bytes of a block, at the byte offset [o]. *)
Definition get32 (d : list Z) (o : nat) : Z :=
  i32 (default 0 (d !! o) + 256 * default 0 (d !! (o + 1)%nat) +
       65536 * default 0 (d !! (o + 2)%nat) + 16777216 * default 0 (d !! (o + 3)%nat)).

Definition put32 (o : nat) (v : Z) (d : list Z) : list Z :=
  <[(o + 3)%nat := u32 v / 16777216 mod 256]> (<[(o + 2)%nat := u32 v / 65536 mod 256]>
    (<[(o + 1)%nat := u32 v / 256 mod 256]> (<[o := u32 v mod 256]> d))).

(** [struct logheader] in a block: [n], then [block[0]], [block[1]], ... *)
Definition head_n (d : list Z) : Z := get32 d 0.

Definition head_block (d : list Z) (i : nat) : Z := get32 d (4 + 4 * i).

Section log.
Context (me : Z).

(** [for (i = 0; i < log.lh.n; i++) log.lh.block[i] = lh->block[i];] *)
Definition load_blocks (n : Z) (d : list Z) (bs : list Z) : list Z :=
  foldl (fun bs i => <[i := head_block d i]> bs) bs (seq 0 (Z.to_nat n)).

(** [hb->n = log.lh.n; for (...) hb->block[i] = log.lh.block[i];] *)
Definition store_blocks (n : Z) (bs : list Z) (d : list Z) : list Z :=
  foldl (fun d i => put32 (4 + 4 * i) (default 0 (bs !! i)) d) (put32 0 n d) (seq 0 (Z.to_nat n)).

Definition read_head : M (mach * lst) unit :=
  l ← on_data (gets id);
  buf ← on_bio (bread me (ldev l) (lstart l));
  d ← on_bio (bget_field bdata buf);
  on_data (modify (set_lhn (head_n d)));;
  on_data (modify (fun l => set_lhblock (load_blocks (lhn l) d (lhblock l)) l));;
  on_bio (brelse me buf).

Definition write_head : M (mach * lst) unit :=
  l ← on_data (gets id);
  buf ← on_bio (bread me (ldev l) (lstart l));
  on_bio (bset (fun x => set_bdata (store_blocks (lhn l) (lhblock l) (bdata x)) x) buf);;
  on_bio (bwrite me buf);;
  on_bio (brelse me buf).

Definition install_trans : M (mach * lst) unit :=
  n ← on_data (gets lhn);
  mfor (seq 0 (Z.to_nat n)) (fun tail =>
    l ← on_data (gets id);
    lbuf ← on_bio (bread me (ldev l) (lstart l + Z.of_nat tail + 1));
    dbuf ← on_bio (bread me (ldev l) (default 0 (lhblock l !! tail)));
    d ← on_bio (bget_field bdata lbuf);
    on_bio (bset (set_bdata d) dbuf);;
    on_bio (bwrite me dbuf);;
    on_bio (brelse me lbuf);;
    on_bio (brelse me dbuf)).

Definition recover_from_log : M (mach * lst) unit :=
  read_head;;
  install_trans;;
  on_data (modify (set_lhn 0));;
  write_head.

(** [initlog(dev)], after [readsb]: [start] and [size] are the superblock's
    [logstart] and [nlog].  sizeof(struct logheader) is 4 + 4*LOGSIZE. *)
Definition initlog (dev start size : Z) : M (mach * lst) unit :=
  if 4 + 4 * LOGSIZE >=? BSIZE then panic "initlog: too big logheader" else
  on_mach_of (initlock Llog "log");;
  on_data (modify (set_where start size dev));;
  recover_from_log.

Definition begin_op : M (mach * lst) unit :=
  critical Llog (
    l ← gets id;
    if negb (committing l =? 0) then blocked else
    if lhn l + (outstanding l + 1) * MAXOPBLOCKS >? LOGSIZE then blocked else
    modify (set_outstanding (outstanding l + 1))).

Definition write_log : M (mach * lst) unit :=
  n ← on_data (gets lhn);
  mfor (seq 0 (Z.to_nat n)) (fun tail =>
    l ← on_data (gets id);
    to ← on_bio (bread me (ldev l) (lstart l + Z.of_nat tail + 1));
    from ← on_bio (bread me (ldev l) (default 0 (lhblock l !! tail)));
    d ← on_bio (bget_field bdata from);
    on_bio (bset (set_bdata d) to);;
    on_bio (bwrite me to);;
    on_bio (brelse me from);;
    on_bio (brelse me to)).

Definition commit : M (mach * lst) unit :=
  n ← on_data (gets lhn);
  if n >? 0 then
    write_log;;
    write_head;;
    install_trans;;
    on_data (modify (set_lhn 0));;
    write_head
  else mret tt.

Definition end_op : M (mach * lst) unit :=
  do_commit ← critical Llog (
    modify (fun l => set_outstanding (outstanding l - 1) l);;
    l ← gets id;
    if negb (committing l =? 0) then panic "log.committing" else
    if outstanding l =? 0 then modify (set_committing 1);; mret true
    else mret false);
  if do_commit : bool then
    commit;;
    critical Llog (modify (set_committing 0))
  else mret tt.

(** The index at which [log_write] stops: that of the block, or [lh.n]. *)
Definition log_slot (n : Z) (bs : list Z) (b : Z) : nat :=
  match list_find (fun x => x = b) (take (Z.to_nat n) bs) with
  | Some (i, _) => i
  | None => Z.to_nat n
  end.

Definition log_write (b : nat) : M (mach * lst) unit :=
  l ← on_data (gets id);
  if (lhn l >=? LOGSIZE) || (lhn l >=? lsize l - 1) then panic "too big a transaction" else
  if outstanding l <? 1 then panic "log_write outside of trans" else
  critical Llog (
    l ← gets id;
    let bn := blockno (buf_at b (lbio l)) in
    let i := log_slot (lhn l) (lhblock l) bn in
    modify (set_lhblock (<[i := bn]> (lhblock l)));;
    when (Z.of_nat i =? lhn l) (modify (set_lhn (lhn l + 1)));;
    modify (fun l => set_lbio (upd_buf b (fun x => set_bflags (Z.lor (bflags x) B_DIRTY) x) (lbio l)) l)).

End log.
