(* ===== verification/LogSpec.v ===== *)
(** * What the log's routines do to the logical disk

    Writing a block through the cache is [a_write]; [write_log],
    [install_trans] and [write_head] are sequences of such writes, which are
    listed here.  The file also holds the encoding of the header block. *)

From stdpp Require Import base numbers gmap list strings.
From S2P Require Import Prelude Spinlock Sleeplock Bio BioRing BioSpec Log.
Open Scope Z_scope.

(** ** Integers in a block *)

Lemma length_put32 o v d : length (put32 o v d) = length d.
Proof. unfold put32. by rewrite !length_insert. Qed.

Lemma put32_other o v d i : (i < o \/ o + 4 <= i)%nat -> put32 o v d !! i = d !! i.
Proof. intros Hi. unfold put32. rewrite !list_lookup_insert_ne by lia. done. Qed.

Lemma i32_word v : -2147483648 <= v < 2147483648 ->
  i32 (u32 v mod 256 + 256 * (u32 v / 256 mod 256) + 65536 * (u32 v / 65536 mod 256) +
    16777216 * (u32 v / 16777216 mod 256)) = v.
Proof.
  intros Hv. pose proof (u32_range v) as Hu. set (u := u32 v) in *.
  replace (u mod 256 + _ + _ + _) with u.
  - unfold i32, u, u32. rewrite Zplus_mod_idemp_l, Z.mod_small; lia.
  - pose proof (Z.div_mod u 256 ltac:(lia)). pose proof (Z.div_mod (u / 256) 256 ltac:(lia)).
    pose proof (Z.div_mod (u / 65536) 256 ltac:(lia)).
    pose proof (Z.div_mod (u / 16777216) 256 ltac:(lia)).
    replace (u / 65536) with (u / 256 / 256) in * by (rewrite Z.div_div by lia; done).
    replace (u / 16777216) with (u / 256 / 256 / 256) in * by (rewrite !Z.div_div by lia; done).
    replace (u / 256 / 256 / 256 / 256) with 0 in * by
      (rewrite !Z.div_div by lia; symmetry; by apply Z.div_small). lia.
Qed.

Lemma get_put32 o v d : (o + 4 <= length d)%nat -> -2147483648 <= v < 2147483648 ->
  get32 (put32 o v d) o = v.
Proof.
  intros Ho Hv. unfold get32, put32.
  rewrite (list_lookup_insert_eq _ (o + 3)) by (rewrite !length_insert; lia).
  rewrite (list_lookup_insert_ne _ (o + 3) (o + 2)), (list_lookup_insert_eq _ (o + 2))
    by (rewrite ?length_insert; lia).
  rewrite (list_lookup_insert_ne _ (o + 3) (o + 1)), (list_lookup_insert_ne _ (o + 2) (o + 1)),
    (list_lookup_insert_eq _ (o + 1)) by (rewrite ?length_insert; lia).
  rewrite !(list_lookup_insert_ne _ _ o), list_lookup_insert_eq by lia.
  by apply i32_word.
Qed.

Lemma get_put32_other o o' v d : (o' + 4 <= o \/ o + 4 <= o')%nat -> get32 (put32 o v d) o' = get32 d o'.
Proof. intros Ho. unfold get32. rewrite !put32_other by lia. done. Qed.

(** The header block keeps what was stored in it. *)
Lemma store_blocks_fold k (bs d : list Z) :
  let d' := foldl (fun d i => put32 (4 + 4 * i) (default 0 (bs !! i)) d) d (seq 0 k) in
  length d' = length d /\ (forall o, (o + 4 <= 4)%nat -> get32 d' o = get32 d o) /\
  ((4 + 4 * k <= length d)%nat ->
   (forall i, (i < k)%nat -> -2147483648 <= default 0 (bs !! i) < 2147483648) ->
   forall i, (i < k)%nat -> head_block d' i = default 0 (bs !! i)).
Proof.
  induction k as [|k IH]; [by split_and!; [| |lia]|].
  cbv zeta in *. rewrite seq_S, foldl_snoc. simpl plus. destruct IH as (IH1 & IH2 & IH3).
  set (d1 := foldl _ d (seq 0 k)) in *. split_and!.
  - by rewrite length_put32.
  - intros o Ho. rewrite get_put32_other by lia. by apply IH2.
  - intros Hl Hbs i Hi. unfold head_block. destruct (decide (i = k)) as [->|Hne].
    + rewrite get_put32; [done|lia|]. apply Hbs. lia.
    + rewrite get_put32_other by lia. apply IH3; [lia| |lia]. intros j Hj. apply Hbs. lia.
Qed.

Lemma length_store_blocks n bs d : length (store_blocks n bs d) = length d.
Proof.
  unfold store_blocks. destruct (store_blocks_fold (Z.to_nat n) bs (put32 0 n d)) as [-> _].
  apply length_put32.
Qed.

(** Reading back a header. *)
Lemma store_blocks_head n bs d :
  0 <= n < 2147483648 -> (4 + 4 * Z.to_nat n <= length d)%nat ->
  (forall i, (i < Z.to_nat n)%nat -> -2147483648 <= default 0 (bs !! i) < 2147483648) ->
  head_n (store_blocks n bs d) = n /\
  forall i, (i < Z.to_nat n)%nat -> head_block (store_blocks n bs d) i = default 0 (bs !! i).
Proof.
  intros Hn Hl Hbs. unfold store_blocks.
  destruct (store_blocks_fold (Z.to_nat n) bs (put32 0 n d)) as (_ & H2 & H3). split.
  - unfold head_n. rewrite H2 by lia. apply get_put32; lia.
  - apply H3; [by rewrite length_put32|done].
Qed.

Lemma load_blocks_lookup n d bs i :
  (Z.to_nat n <= length bs)%nat ->
  load_blocks n d bs !! i = if decide (i < Z.to_nat n)%nat then Some (head_block d i) else bs !! i.
Proof.
  unfold load_blocks. generalize (Z.to_nat n) as k. intros k. revert i.
  assert (forall j, length (foldl (fun bs i => <[i := head_block d i]> bs) bs (seq 0 j)) = length bs) as Hlen.
  { induction j as [|j IH]; [done|]. rewrite seq_S, foldl_snoc. by rewrite length_insert. }
  induction k as [|k IH]; intros i Hk; [done|]. rewrite seq_S, foldl_snoc. simpl plus.
  destruct (decide (i = k)) as [->|Hne].
  - rewrite list_lookup_insert_eq, decide_True by (rewrite ?Hlen; lia). done.
  - rewrite list_lookup_insert_ne by done. rewrite IH by lia.
    destruct (decide (i < k)%nat), (decide (i < S k)%nat); try done; lia.
Qed.

(** ** Blocks written through the cache *)

Definition blk (d : list (list Z)) (n : Z) : list Z := default [] (d !! Z.to_nat n).

Definition bput (n : Z) (v : list Z) (d : list (list Z)) : list (list Z) := <[Z.to_nat n := v]> d.

Definition apply_writes (ws : list (Z * list Z)) (d : list (list Z)) : list (list Z) :=
  foldl (fun d w => bput w.1 w.2 d) d ws.

Definition a_write (n : Z) (d : list Z) (a : acache) : acache :=
  mkA (bput n d (alog a)) (apin a ∖ {[n]}) (aheld a) (bput n d (adisk a)) (awr a ++ [(n, d)]).

Definition a_writes (ws : list (Z * list Z)) (a : acache) : acache :=
  foldl (fun a w => a_write w.1 w.2 a) a ws.

Lemma a_writes_app ws ws' a : a_writes (ws ++ ws') a = a_writes ws' (a_writes ws a).
Proof. apply foldl_app. Qed.

Lemma apply_writes_app ws ws' d : apply_writes (ws ++ ws') d = apply_writes ws' (apply_writes ws d).
Proof. apply foldl_app. Qed.

Lemma a_writes_fields ws a :
  adisk (a_writes ws a) = apply_writes ws (adisk a) /\
  alog (a_writes ws a) = apply_writes ws (alog a) /\
  awr (a_writes ws a) = awr a ++ ws /\ aheld (a_writes ws a) = aheld a /\
  apin (a_writes ws a) = apin a ∖ list_to_set ws.*1.
Proof.
  revert a. induction ws as [|w ws IH]; intros a; simpl.
  - split_and!; [done|done|by rewrite app_nil_r|done|set_solver].
  - destruct (IH (a_write w.1 w.2 a)) as (-> & -> & -> & -> & ->). simpl.
    split_and!; [done|done|rewrite <- app_assoc; by destruct w|done|set_solver].
Qed.

Lemma length_apply_writes ws d : length (apply_writes ws d) = length d.
Proof.
  revert d. induction ws as [|w ws IH]; intros d; [done|].
  unfold apply_writes in *. simpl. rewrite IH. apply length_insert.
Qed.

Lemma asize_writes ws a : asize (a_writes ws a) = asize a.
Proof. unfold asize. destruct (a_writes_fields ws a) as [-> _]. by rewrite length_apply_writes. Qed.

Lemma blk_bput n v d k : 0 <= n < Z.of_nat (length d) -> 0 <= k ->
  blk (bput n v d) k = if decide (k = n) then v else blk d k.
Proof.
  intros Hn Hk. unfold blk, bput. destruct (decide (k = n)) as [->|Hne].
  - rewrite list_lookup_insert_eq by lia. done.
  - rewrite list_lookup_insert_ne by lia. done.
Qed.

(** Blocks no write of the list is for keep their contents. *)
Lemma blk_writes_other ws d k :
  0 <= k -> Forall (fun w => 0 <= w.1 /\ w.1 ≠ k) ws -> blk (apply_writes ws d) k = blk d k.
Proof.
  intros Hk. revert d. induction ws as [|w ws IH]; intros d Hw; [done|].
  apply Forall_cons in Hw as [[H1 H2] Hw]. unfold apply_writes in *. simpl. rewrite IH by done.
  unfold blk, bput. rewrite list_lookup_insert_ne by lia. done.
Qed.

Lemma a_get_blk n a : a_get n a = blk (alog a) n.
Proof. done. Qed.

Lemma a_write_eq n d p a :
  a_ok a -> 0 <= n < asize a -> aheld a !! n = None ->
  a_drop n (a_flush n (a_set n d (a_hold n p a))) = a_write n d a.
Proof.
  intros Ha Hn Hh. unfold a_drop, a_flush, a_set, a_hold, a_write, a_get, asize in *. simpl.
  rewrite list_lookup_insert_eq by (rewrite (a_len _ Ha); lia). simpl.
  by rewrite delete_insert_id.
Qed.

Lemma a_hold_ok n p a st : cacheR (a_hold n p a) st -> a_ok (a_hold n p a).
Proof. by intros []. Qed.

Lemma size_hold n p a : (size (apin (a_hold n p a) ∪ dom (aheld (a_hold n p a))) <=
  S (size (apin a ∪ dom (aheld a))))%nat.
Proof.
  simpl. rewrite dom_insert_L.
  replace (apin a ∪ ({[n]} ∪ dom (aheld a))) with ({[n]} ∪ (apin a ∪ dom (aheld a))) by set_solver.
  rewrite size_union_alt, size_singleton. apply le_n_S. apply subseteq_size. set_solver.
Qed.

(** ** The routines, step by step *)

Section steps.
Context (me : Z) (P : failure -> Prop).

(** Data written into a buffer in use, as a function of what is there. *)
Lemma cacheR_update a st i n f :
  cacheR a st -> owns st i n -> aheld a !! n = Some me -> length (f (a_get n a)) = Z.to_nat BSIZE ->
  let st' := upd_buf i (fun x => set_bdata (f (bdata x)) x) st in
  cacheR (a_set n (f (a_get n a)) a) st' /\ keeps_all st st'.
Proof.
  intros HR Ho Hh Hl st'. destruct (owns_for _ _ _ _ HR Ho) as (x & Hx & _).
  assert (st' = upd_buf i (set_bdata (f (a_get n a))) st) as ->.
  { unfold st', upd_buf. f_equal. apply (alter_at_ext _ _ _ _ x Hx).
    by rewrite (owns_data _ _ _ _ _ HR Ho Hx). }
  by apply (cacheR_set me).
Qed.

Definition room (k : nat) (a : acache) : Prop := (size (apin a ∪ dom (aheld a)) + k <= NBUF)%nat.

(** A block that nobody uses and that is not pinned is as on the disk. *)
Definition idle (n : Z) (a : acache) : Prop :=
  0 <= n < asize a /\ aheld a !! n = None /\ n ∉ apin a.

Lemma wp_write_head a m st l Q :
  msec ∅ m -> cacheR a st -> ldev l = 1 -> idle (lstart l) a -> room 1 a ->
  (forall m' st', quiet ∅ m m' ->
     cacheR (a_write (lstart l) (store_blocks (lhn l) (lhblock l) (a_get (lstart l) a)) a) st' ->
     Q tt (m', set_lbio st' l)) ->
  wp P (write_head me) (m, set_lbio st l) Q.
Proof.
  intros Hm HR Hd (Hn & Hh & Hp) Hroom HQ. unfold room in Hroom. set (n := lstart l) in *.
  assert (a_ok a) as Ha by apply HR. unfold write_head. wp_next. apply wp_data, wp_gets. simpl.
  wp_next. unfold on_bio at 1. apply wp_part. rewrite Hd. simpl. fold n.
  apply (wp_bread _ _ a); [done|done|done|by rewrite Hh|intros _; lia|].
  intros i m1 st1 Hm1 _ HR1 Ho1 _. simpl.
  assert (aheld (a_hold n me a) !! n = Some me) as Hme by (simpl; by rewrite lookup_insert_eq).
  wp_next. unfold on_bio at 1. apply wp_part, wp_bset. simpl.
  destruct (cacheR_update (a_hold n me a) st1 i n (store_blocks (lhn l) (lhblock l))) as [HR2 Hk2];
    [done|done|done|rewrite length_store_blocks; exact (a_get_length a n Ha Hn)|].
  wp_next. unfold on_bio at 1. apply wp_part. simpl.
  eapply (wp_bwrite _ _ _ _ _ i n); [apply Hm1|exact HR2|by apply Hk2|done|].
  intros m3 st3 Hm3 HR3 Hk3. simpl. unfold on_bio. apply wp_part. simpl.
  eapply (wp_brelse _ _ _ _ _ i n); [apply Hm3|exact HR3|by apply Hk3, Hk2|done| |].
  { right. simpl. unfold asize in Hn. rewrite !list_lookup_insert_eq by (rewrite ?(a_len _ Ha); lia).
    unfold a_get. simpl. by rewrite list_lookup_insert_eq by (rewrite ?(a_len _ Ha); lia). }
  intros m4 st4 Hm4 HR4 _. simpl. rewrite a_write_eq in HR4 by done.
  apply (HQ m4 st4); [do 2 (eapply quiet_trans; [done|]); done|exact HR4].
Qed.

(** A block copied through the cache, with its two buffers released in either
    order (the log blocks are [x], the home blocks [y]). *)
Lemma a_copy_eq x y d p a :
  a_ok a -> 0 <= x < asize a -> 0 <= y < asize a -> x ≠ y -> aheld a !! x = None -> aheld a !! y = None ->
  a_drop x (a_drop y (a_flush x (a_set x d (a_hold y p (a_hold x p a))))) = a_write x d a /\
  a_drop y (a_drop x (a_flush y (a_set y d (a_hold y p (a_hold x p a))))) = a_write y d a.
Proof.
  intros Ha Hx Hy Hne Hhx Hhy. unfold a_drop, a_flush, a_set, a_hold, a_write, a_get, asize in *. simpl.
  rewrite !list_lookup_insert_eq by (rewrite (a_len _ Ha); lia). simpl.
  assert (delete x (delete y (<[y:=p]> (<[x:=p]> (aheld a)))) = aheld a) as E.
  { rewrite delete_insert_eq, (delete_id _ y) by (by rewrite lookup_insert_ne).
    by rewrite delete_insert_id. }
  split; f_equal; [exact E|]. by rewrite delete_delete.
Qed.

(** The first two reads of a copy: [x] then [y]. *)
Lemma wp_read_two a m st l x y (k : nat -> nat -> M (mach * lst) unit) Q :
  msec ∅ m -> cacheR a st -> idle x a -> 0 <= y < asize a -> x ≠ y -> aheld a !! y = None ->
  room 1 a -> (y ∈ apin a \/ room 2 a) ->
  (forall i j m' st', quiet ∅ m m' -> cacheR (a_hold y me (a_hold x me a)) st' ->
     owns st' i x -> owns st' j y -> wp P (k i j) (m', set_lbio st' l) Q) ->
  wp P (b1 ← on_bio (bread me 1 x); b2 ← on_bio (bread me 1 y); k b1 b2) (m, set_lbio st l) Q.
Proof.
  intros Hm HR (Hx & Hhx & Hpx) Hy Hne Hhy Hroom Hr2 Hk. unfold room in *.
  wp_next. unfold on_bio at 1. apply wp_part. simpl.
  apply (wp_bread _ _ a); [done|done|done|by rewrite Hhx|intros _; lia|].
  intros i m1 st1 Hm1 _ HR1 Ho1 _. simpl. wp_next. unfold on_bio at 1. apply wp_part. simpl.
  assert (aheld (a_hold x me a) !! y = None) as Hhy' by (simpl; by rewrite lookup_insert_ne).
  apply (wp_bread _ _ (a_hold x me a)); [apply Hm1|done|done|by rewrite Hhy'| |].
  { intros Hpy. simpl in Hpy. destruct Hr2 as [?|Hr2]; [done|]. pose proof (size_hold x me a). lia. }
  intros j m2 st2 Hm2 _ HR2 Ho2 Hk2. simpl. apply Hk; [by eapply quiet_trans|done| |done].
  apply Hk2; [|done]. simpl. rewrite dom_insert_L. set_solver.
Qed.

(** Copying between two buffers in use, to the disk. *)
Lemma wp_copy_out a m st l src dst i j (k : M (mach * lst) unit) Q :
  msec ∅ m -> cacheR a st -> owns st i src -> owns st j dst -> aheld a !! dst = Some me ->
  (forall m' st', quiet ∅ m m' -> cacheR (a_flush dst (a_set dst (a_get src a) a)) st' ->
     owns st' i src -> owns st' j dst -> wp P k (m', set_lbio st' l) Q) ->
  wp P (d ← on_bio (bget_field bdata i); on_bio (bset (set_bdata d) j);; on_bio (bwrite me j);; k)
    (m, set_lbio st l) Q.
Proof.
  intros Hm HR Hi Hj Hh Hk. destruct (owns_for _ _ _ _ HR Hi) as (x & Hx & Fx & Hn & _).
  wp_next. unfold on_bio at 1. apply wp_part. simpl. apply (wp_bfield _ _ _ _ _ x); [done|]. simpl.
  rewrite (owns_data _ _ _ _ _ HR Hi Hx).
  assert (length (a_get src a) = Z.to_nat BSIZE) as Hl.
  { apply a_get_length; [apply HR|]. rewrite <- Hn. apply Fx. }
  wp_next. unfold on_bio at 1. apply wp_part, wp_bset. simpl.
  destruct (cacheR_set me a st j dst (a_get src a)) as [HR2 Hk2]; [done..|].
  wp_next. unfold on_bio at 1. apply wp_part. simpl.
  eapply (wp_bwrite _ _ _ _ _ j dst); [done|exact HR2|by apply Hk2|done|].
  intros m3 st3 Hm3 HR3 Hk3. simpl. apply Hk; [done|done|by apply Hk3, Hk2|by apply Hk3, Hk2].
Qed.

(** Releasing both. *)
Lemma wp_release_two a m st l n1 n2 i j Q :
  msec ∅ m -> cacheR a st -> owns st i n1 -> owns st j n2 -> n1 ≠ n2 ->
  aheld a !! n1 = Some me -> aheld a !! n2 = Some me ->
  (n1 ∈ apin a \/ alog a !! Z.to_nat n1 = adisk a !! Z.to_nat n1) ->
  (n2 ∈ apin a \/ alog a !! Z.to_nat n2 = adisk a !! Z.to_nat n2) ->
  (forall m' st', quiet ∅ m m' -> cacheR (a_drop n2 (a_drop n1 a)) st' -> Q tt (m', set_lbio st' l)) ->
  wp P (on_bio (brelse me i);; on_bio (brelse me j)) (m, set_lbio st l) Q.
Proof.
  intros Hm HR Hi Hj Hne H1 H2 Hc1 Hc2 HQ. wp_next. unfold on_bio at 1. apply wp_part. simpl.
  eapply (wp_brelse _ _ _ _ _ i n1); [done|done|done|done|done|]. intros m1 st1 Hm1 HR1 Hk1. simpl.
  unfold on_bio. apply wp_part. simpl.
  eapply (wp_brelse _ _ _ _ _ j n2); [apply Hm1|exact HR1|by apply Hk1| |done|].
  { simpl. by rewrite lookup_delete_ne. }
  intros m2 st2 Hm2 HR2 _. simpl. apply HQ; [by eapply quiet_trans|done].
Qed.

Lemma clean_hold a x y p : a_ok a -> idle x a ->
  alog (a_hold y p a) !! Z.to_nat x = adisk (a_hold y p a) !! Z.to_nat x.
Proof. intros Ha (Hx & Hh & Hp). simpl. apply (a_clean _ Ha); [lia|done|done]. Qed.

Lemma flushed_clean n d a : a_ok a -> 0 <= n < asize a ->
  alog (a_flush n (a_set n d a)) !! Z.to_nat n = adisk (a_flush n (a_set n d a)) !! Z.to_nat n.
Proof.
  intros Ha Hn. unfold asize in Hn. simpl. unfold a_get. simpl.
  rewrite !list_lookup_insert_eq by (rewrite ?(a_len _ Ha); lia). done.
Qed.

(** The bodies of the loops of [write_log] and of [install_trans]. *)
Lemma wp_log_body a m st l tail y Q :
  msec ∅ m -> cacheR a st -> ldev l = 1 -> default 0 (lhblock l !! tail) = y ->
  idle (lstart l + Z.of_nat tail + 1) a -> 0 <= y < asize a -> lstart l + Z.of_nat tail + 1 ≠ y ->
  aheld a !! y = None -> y ∈ apin a -> room 1 a ->
  (forall m' st', quiet ∅ m m' ->
     cacheR (a_write (lstart l + Z.of_nat tail + 1) (a_get y a) a) st' -> Q tt (m', set_lbio st' l)) ->
  wp P (l ← on_data (gets id);
    to ← on_bio (bread me (ldev l) (lstart l + Z.of_nat tail + 1));
    from ← on_bio (bread me (ldev l) (default 0 (lhblock l !! tail)));
    d ← on_bio (bget_field bdata from);
    on_bio (bset (set_bdata d) to);;
    on_bio (bwrite me to);;
    on_bio (brelse me from);;
    on_bio (brelse me to)) (m, set_lbio st l) Q.
Proof.
  intros Hm HR Hd Hy Hx Hyr Hne Hhy Hpy Hroom HQ. pose proof Hx as (Hxr & Hhx & Hpx).
  assert (a_ok a) as Ha by apply HR. wp_next. apply wp_data, wp_gets. simpl. rewrite Hd, Hy.
  set (x := lstart l + Z.of_nat tail + 1) in *.
  apply (wp_read_two a); [done..|by left|]. intros i j m1 st1 Hm1 HR1 Hi Hj.
  assert (a_ok (a_hold y me (a_hold x me a))) as Ha1 by apply HR1.
  eapply wp_copy_out; [apply Hm1|done|exact Hj|exact Hi| |].
  { simpl. rewrite lookup_insert_ne, lookup_insert_eq by done. done. }
  intros m2 st2 Hm2 HR2 Hj2 Hi2.
  eapply wp_release_two; [apply Hm2|exact HR2|exact Hj2|exact Hi2|done| | | | |].
  - simpl. by rewrite lookup_insert_eq.
  - simpl. rewrite lookup_insert_ne, lookup_insert_eq by done. done.
  - left. simpl. set_solver.
  - right. by apply flushed_clean.
  - intros m3 st3 Hm3 HR3. apply HQ; [do 2 (eapply quiet_trans; [done|]); done|].
    rewrite (proj1 (a_copy_eq x y _ me a Ha Hxr Hyr Hne Hhx Hhy)) in HR3. exact HR3.
Qed.

Lemma wp_install_body a m st l tail y Q :
  msec ∅ m -> cacheR a st -> ldev l = 1 -> default 0 (lhblock l !! tail) = y ->
  idle (lstart l + Z.of_nat tail + 1) a -> 0 <= y < asize a -> lstart l + Z.of_nat tail + 1 ≠ y ->
  aheld a !! y = None -> room 1 a -> (y ∈ apin a \/ room 2 a) ->
  (forall m' st', quiet ∅ m m' ->
     cacheR (a_write y (a_get (lstart l + Z.of_nat tail + 1) a) a) st' -> Q tt (m', set_lbio st' l)) ->
  wp P (l ← on_data (gets id);
    lbuf ← on_bio (bread me (ldev l) (lstart l + Z.of_nat tail + 1));
    dbuf ← on_bio (bread me (ldev l) (default 0 (lhblock l !! tail)));
    d ← on_bio (bget_field bdata lbuf);
    on_bio (bset (set_bdata d) dbuf);;
    on_bio (bwrite me dbuf);;
    on_bio (brelse me lbuf);;
    on_bio (brelse me dbuf)) (m, set_lbio st l) Q.
Proof.
  intros Hm HR Hd Hy Hx Hyr Hne Hhy Hroom Hr2 HQ. pose proof Hx as (Hxr & Hhx & Hpx).
  assert (a_ok a) as Ha by apply HR. wp_next. apply wp_data, wp_gets. simpl. rewrite Hd, Hy.
  set (x := lstart l + Z.of_nat tail + 1) in *.
  apply (wp_read_two a); [done..|]. intros i j m1 st1 Hm1 HR1 Hi Hj.
  assert (a_ok (a_hold y me (a_hold x me a))) as Ha1 by apply HR1.
  eapply wp_copy_out; [apply Hm1|done|exact Hi|exact Hj| |].
  { simpl. by rewrite lookup_insert_eq. }
  intros m2 st2 Hm2 HR2 Hi2 Hj2.
  eapply wp_release_two; [apply Hm2|exact HR2|exact Hi2|exact Hj2|done| | | | |].
  - simpl. rewrite lookup_insert_ne, lookup_insert_eq by done. done.
  - simpl. by rewrite lookup_insert_eq.
  - right. simpl. rewrite !list_lookup_insert_ne by lia. apply (a_clean _ Ha); [lia|done|done].
  - right. by apply flushed_clean.
  - intros m3 st3 Hm3 HR3. apply HQ; [do 2 (eapply quiet_trans; [done|]); done|].
    rewrite (proj2 (a_copy_eq x y _ me a Ha Hxr Hyr Hne Hhx Hhy)) in HR3. exact HR3.
Qed.

(** A loop whose [k]-th round writes the [k]-th block of [W]. *)
Lemma wp_writes_loop (f : nat -> M (mach * lst) unit) W a m st l Q :
  msec ∅ m -> cacheR a st ->
  (forall k w m1 st1 R, W !! k = Some w -> msec ∅ m1 -> cacheR (a_writes (take k W) a) st1 ->
     (forall m2 st2, quiet ∅ m1 m2 -> cacheR (a_write w.1 w.2 (a_writes (take k W) a)) st2 ->
        R tt (m2, set_lbio st2 l)) ->
     wp P (f k) (m1, set_lbio st1 l) R) ->
  (forall m' st', quiet ∅ m m' -> cacheR (a_writes W a) st' -> Q tt (m', set_lbio st' l)) ->
  wp P (mfor (seq 0 (length W)) f) (m, set_lbio st l) Q.
Proof.
  intros Hm HR Hf HQ.
  apply (wp_mfor _ (fun todo s => exists k st1, todo = seq k (length W - k) /\ (k <= length W)%nat /\
    quiet ∅ m s.1 /\ s.2 = set_lbio st1 l /\ cacheR (a_writes (take k W) a) st1)).
  - exists 0%nat, st. rewrite Nat.sub_0_r. split_and!; [done|lia|by apply quiet_refl|done|done].
  - intros k' todo [m1 s1] (k & st1 & Ht & Hk & Hm1 & Hs & HR1). simpl in *. subst s1.
    destruct (length W - k)%nat as [|r] eqn:Er; [done|]. simpl in Ht. injection Ht as <- ->.
    destruct (lookup_lt_is_Some_2 W k') as [w Hw]; [lia|].
    apply (Hf k' w); [done|apply Hm1|done|]. intros m2 st2 Hm2 HR2. exists (S k'), st2.
    replace (length W - S k')%nat with r by lia. split_and!; [done|lia|by eapply quiet_trans|done|].
    rewrite (take_S_r _ _ _ Hw), a_writes_app. done.
  - intros [m1 s1] (k & st1 & Ht & Hk & Hm1 & Hs & HR1). simpl in *. subst s1.
    assert (k = length W) as -> by (destruct (length W - k)%nat eqn:E; [lia|done]).
    rewrite take_ge in HR1 by lia. by apply HQ.
Qed.

End steps.

(** ** The log between a header and its blocks *)

(** The in-memory header lists [bs]; they are outside the log, each once, and
    neither they nor the log are in use. *)
Record log_geom (l : lst) (a : acache) (bs : list Z) : Prop := mkGeom {
  g_dev : ldev l = 1;
  g_n : lhn l = Z.of_nat (length bs);
  g_max : (length bs <= Z.to_nat LOGSIZE)%nat;
  g_len : length (lhblock l) = Z.to_nat LOGSIZE;
  g_blocks : forall j b, bs !! j = Some b -> lhblock l !! j = Some b;
  g_head : idle (lstart l) a;
  g_log : forall j, (j < length bs)%nat -> idle (lstart l + Z.of_nat j + 1) a;
  g_home : forall b, b ∈ bs -> 0 <= b < asize a /\ aheld a !! b = None /\
    (b < lstart l \/ lstart l + lsize l <= b);
  g_size : Z.of_nat (length bs) < lsize l;
  g_nodup : NoDup bs }.

(** The writes of [write_log], of [install_trans], and of [write_head]. *)
Definition log_writes (start : Z) (a : acache) (bs : list Z) : list (Z * list Z) :=
  imap (fun j b => (start + Z.of_nat j + 1, a_get b a)) bs.

Definition install_writes (start : Z) (a : acache) (bs : list Z) : list (Z * list Z) :=
  imap (fun j b => (b, a_get (start + Z.of_nat j + 1) a)) bs.

Definition head_write (l : lst) (a : acache) : Z * list Z :=
  (lstart l, store_blocks (lhn l) (lhblock l) (a_get (lstart l) a)).

Lemma lookup_log_writes start a bs k w : log_writes start a bs !! k = Some w ->
  exists b, bs !! k = Some b /\ w = (start + Z.of_nat k + 1, a_get b a).
Proof.
  unfold log_writes. rewrite list_lookup_imap. destruct (bs !! k) as [b|]; [|done].
  intros [= <-]. by exists b.
Qed.

Lemma lookup_install_writes start a bs k w : install_writes start a bs !! k = Some w ->
  exists b, bs !! k = Some b /\ w = (b, a_get (start + Z.of_nat k + 1) a).
Proof.
  unfold install_writes. rewrite list_lookup_imap. destruct (bs !! k) as [b|]; [|done].
  intros [= <-]. by exists b.
Qed.

Lemma Forall_take_lookup {A} (F : A -> Prop) k (l : list A) :
  (forall j x, (j < k)%nat -> l !! j = Some x -> F x) -> Forall F (take k l).
Proof.
  intros H. apply Forall_lookup_2. intros j x Hx. destruct (decide (j < k)%nat).
  - rewrite lookup_take_lt in Hx by done. by apply (H j).
  - rewrite lookup_take_ge in Hx by lia. done.
Qed.

(** Blocks and their state after writes to other blocks. *)
Lemma a_get_writes ws a k : 0 <= k -> Forall (fun w => 0 <= w.1 /\ w.1 ≠ k) ws ->
  a_get k (a_writes ws a) = a_get k a.
Proof.
  intros Hk Hw. rewrite !a_get_blk. destruct (a_writes_fields ws a) as (_ & -> & _).
  by apply blk_writes_other.
Qed.

Lemma idle_writes ws a k : idle k a -> idle k (a_writes ws a).
Proof.
  intros (H1 & H2 & H3). destruct (a_writes_fields ws a) as (_ & _ & _ & Hh & Hp).
  split_and!; [lia|rewrite asize_writes; lia|by rewrite Hh|rewrite Hp; set_solver].
Qed.

Lemma room_writes ws a k : room k a -> room k (a_writes ws a).
Proof.
  unfold room. destruct (a_writes_fields ws a) as (_ & _ & _ & -> & ->). intros H.
  assert (size ((apin a ∖ list_to_set ws.*1) ∪ dom (aheld a)) <= size (apin a ∪ dom (aheld a)))%nat;
    [|lia]. apply subseteq_size. set_solver.
Qed.

Section loops.
Context (me : Z) (P : failure -> Prop).

Lemma wp_write_log a m st l bs Q :
  msec ∅ m -> cacheR a st -> log_geom l a bs -> (forall b, b ∈ bs -> b ∈ apin a) -> room 1 a ->
  (forall m' st', quiet ∅ m m' -> cacheR (a_writes (log_writes (lstart l) a bs) a) st' ->
     Q tt (m', set_lbio st' l)) ->
  wp P (write_log me) (m, set_lbio st l) Q.
Proof.
  intros Hm HR G Hpin Hroom HQ. unfold write_log. wp_next. apply wp_data, wp_gets. simpl.
  rewrite (g_n _ _ _ G), Nat2Z.id.
  replace (length bs) with (length (log_writes (lstart l) a bs)) by (apply length_imap).
  apply (wp_writes_loop _ _ _ a); [done|done| |done].
  intros k w m1 st1 R Hw Hm1 HR1 HR'. set (W := log_writes (lstart l) a bs) in *.
  apply lookup_log_writes in Hw as (b & Hb & ->). pose proof (list_elem_of_lookup_2 _ _ _ Hb) as Hin.
  destruct (g_home _ _ _ G b Hin) as (Hbr & Hbh & Hbo). pose proof (lookup_lt_Some _ _ _ Hb) as Hk.
  pose proof (a_writes_fields (take k W) a) as (_ & _ & _ & Hh & Hp).
  assert (Forall (fun w => 0 <= w.1 /\ w.1 ≠ b) (take k W)) as Hoff.
  { apply Forall_take_lookup. intros j w Hj Hw. apply lookup_log_writes in Hw as (c & Hc & ->). simpl.
    pose proof (g_head _ _ _ G) as ((? & _) & _). pose proof (lookup_lt_Some _ _ _ Hc).
    pose proof (g_size _ _ _ G). lia. }
  pose proof (g_size _ _ _ G) as Hsz.
  apply (wp_log_body _ _ (a_writes (take k W) a) _ _ _ _ b); try done.
  - apply G.
  - by rewrite (g_blocks _ _ _ G k b Hb).
  - by apply idle_writes, G.
  - by rewrite asize_writes.
  - lia.
  - by rewrite Hh.
  - rewrite Hp. apply elem_of_difference. split; [by apply Hpin|].
    rewrite elem_of_list_to_set, list_elem_of_fmap. intros ([c d] & -> & Hc).
    rewrite Forall_forall in Hoff. destruct (Hoff _ Hc). done.
  - by apply room_writes.
  - rewrite a_get_writes by (done || lia). exact HR'.
Qed.

Lemma wp_install_trans a m st l bs Q :
  msec ∅ m -> cacheR a st -> log_geom l a bs -> room 1 a ->
  ((forall b, b ∈ bs -> b ∈ apin a) \/ room 2 a) ->
  (forall m' st', quiet ∅ m m' -> cacheR (a_writes (install_writes (lstart l) a bs) a) st' ->
     Q tt (m', set_lbio st' l)) ->
  wp P (install_trans me) (m, set_lbio st l) Q.
Proof.
  intros Hm HR G Hroom Hr2 HQ. unfold install_trans. wp_next. apply wp_data, wp_gets. simpl.
  rewrite (g_n _ _ _ G), Nat2Z.id.
  replace (length bs) with (length (install_writes (lstart l) a bs)) by (apply length_imap).
  apply (wp_writes_loop _ _ _ a); [done|done| |done].
  intros k w m1 st1 R Hw Hm1 HR1 HR'. set (W := install_writes (lstart l) a bs) in *.
  apply lookup_install_writes in Hw as (b & Hb & ->). pose proof (list_elem_of_lookup_2 _ _ _ Hb) as Hin.
  destruct (g_home _ _ _ G b Hin) as (Hbr & Hbh & Hbo). pose proof (lookup_lt_Some _ _ _ Hb) as Hk.
  pose proof (a_writes_fields (take k W) a) as (_ & _ & _ & Hh & Hp).
  assert (Forall (fun w => 0 <= w.1 /\ w.1 ≠ b) (take k W)) as Hoff.
  { apply Forall_take_lookup. intros j w Hj Hw. apply lookup_install_writes in Hw as (c & Hc & ->). simpl.
    pose proof (list_elem_of_lookup_2 _ _ _ Hc) as Hcin. destruct (g_home _ _ _ G c Hcin) as (? & _).
    split; [lia|]. intros ->. pose proof (NoDup_lookup _ _ _ _ (g_nodup _ _ _ G) Hb Hc). lia. }
  assert (Forall (fun w => 0 <= w.1 /\ w.1 ≠ lstart l + Z.of_nat k + 1) (take k W)) as Hoff2.
  { apply Forall_take_lookup. intros j w Hj Hw. apply lookup_install_writes in Hw as (c & Hc & ->). simpl.
    pose proof (list_elem_of_lookup_2 _ _ _ Hc) as Hcin. destruct (g_home _ _ _ G c Hcin) as (? & _ & ?).
    pose proof (g_size _ _ _ G). split; lia. }
  pose proof (g_size _ _ _ G) as Hsz.
  pose proof (g_head _ _ _ G) as ((? & _) & _).
  apply (wp_install_body _ _ (a_writes (take k W) a) _ _ _ _ b); try done.
  - apply G.
  - by rewrite (g_blocks _ _ _ G k b Hb).
  - by apply idle_writes, G.
  - by rewrite asize_writes.
  - lia.
  - by rewrite Hh.
  - by apply room_writes.
  - destruct Hr2 as [Hpin|Hr2]; [left|right; by apply room_writes].
    rewrite Hp. apply elem_of_difference. split; [by apply Hpin|].
    rewrite elem_of_list_to_set, list_elem_of_fmap. intros ([c d] & -> & Hc).
    rewrite Forall_forall in Hoff. destruct (Hoff _ Hc). done.
  - rewrite a_get_writes by (done || lia). exact HR'.
Qed.

End loops.
