(* ===== verification/LogThms.v ===== *)
(** * Crash safety of the log

    A crash keeps a prefix of the disk writes.  [recovered start d] is the disk
    [d] after recovery; [commit] is shown to be all or nothing under every
    crash, and recovery to be repeatable. *)

From stdpp Require Import base numbers gmap list strings.
From S2P Require Import Prelude Spinlock Sleeplock Bio BioRing BioSpec Log LogSpec.
Open Scope Z_scope.

(** ** Lists of writes *)

Lemma blk_writes_value ws d b v :
  0 <= b < Z.of_nat (length d) -> Forall (fun w => 0 <= w.1) ws ->
  Forall (fun w => w.1 = b -> w.2 = v) ws -> (b ∈ ws.*1 \/ blk d b = v) ->
  blk (apply_writes ws d) b = v.
Proof.
  intros Hb H0. revert d Hb. induction ws as [|w ws IH]; intros d Hb Hw Hin.
  - destruct Hin as [Hin|?]; [by apply elem_of_nil in Hin|done].
  - apply Forall_cons in Hw as [Hw1 Hw]. apply Forall_cons in H0 as [Hw0 H0].
    change (apply_writes (w :: ws) d) with (apply_writes ws (bput w.1 w.2 d)).
    apply IH; [done|unfold bput; by rewrite length_insert|done|].
    destruct (decide (w.1 = b)) as [He|He].
    + right. unfold blk, bput. rewrite He, list_lookup_insert_eq by lia. by apply Hw1.
    + destruct Hin as [Hin|Hin]; [left|right].
      * simpl in Hin. by apply elem_of_cons in Hin as [?|?].
      * unfold blk, bput in *. by rewrite list_lookup_insert_ne by lia.
Qed.

Lemma prefix_app_cases {A} (ws l1 l2 : list A) : ws `prefix_of` l1 ++ l2 ->
  ws `prefix_of` l1 \/ exists ws', ws = l1 ++ ws' /\ ws' `prefix_of` l2.
Proof.
  revert ws. induction l1 as [|x l1 IH]; intros ws Hp; simpl in *; [right; by exists ws|].
  destruct ws as [|w ws]; [left; apply prefix_nil|].
  pose proof (prefix_cons_inv_1 _ _ _ _ Hp) as ->. apply prefix_cons_inv_2 in Hp.
  destruct (IH ws Hp) as [H|(ws' & -> & H)]; [left; by apply prefix_cons|right; by exists ws'].
Qed.

Lemma prefix_snoc_cases {A} (ws l : list A) x : ws `prefix_of` l ++ [x] ->
  ws `prefix_of` l \/ ws = l ++ [x].
Proof.
  intros [H|(ws' & -> & Hp)]%prefix_app_cases; [by left|].
  destruct ws' as [|y ws']; [left; by rewrite app_nil_r|right].
  pose proof (prefix_cons_inv_1 _ _ _ _ Hp) as ->. apply prefix_cons_inv_2 in Hp.
  by rewrite (prefix_nil_inv _ Hp).
Qed.

Lemma Forall_prefix {A} (F : A -> Prop) (ws l : list A) : ws `prefix_of` l -> Forall F l -> Forall F ws.
Proof. intros [k ->]. by rewrite Forall_app; intros [? _]. Qed.

(** ** Recovery on the disk alone *)

Definition head_list (h : list Z) : list Z := head_block h <$> seq 0 (Z.to_nat (head_n h)).

Definition recover_installs (start : Z) (d : list (list Z)) : list (Z * list Z) :=
  imap (fun j b => (b, blk d (start + Z.of_nat j + 1))) (head_list (blk d start)).

Definition recover_writes (start : Z) (d : list (list Z)) : list (Z * list Z) :=
  recover_installs start d ++ [(start, put32 0 0 (blk d start))].

Definition recovered (start : Z) (d : list (list Z)) : list (list Z) :=
  apply_writes (recover_writes start d) d.

(** A block outside of the log. *)
Definition home (start size b : Z) (d : list (list Z)) : Prop :=
  0 <= b < Z.of_nat (length d) /\ (b < start \/ start + size <= b).

(** The header on disk [d] can be recovered from. *)
Record head_ok (start size : Z) (d : list (list Z)) : Prop := mkHok {
  h_start : 0 <= start;
  h_n : 0 <= head_n (blk d start) <= LOGSIZE;
  h_size : head_n (blk d start) < size;
  h_fit : start + size <= Z.of_nat (length d);
  h_home : forall b, b ∈ head_list (blk d start) -> home start size b d;
  h_nodup : NoDup (head_list (blk d start)) }.

Lemma head_zero h : (4 <= length h)%nat -> head_n (put32 0 0 h) = 0.
Proof. intros. unfold head_n. by apply get_put32. Qed.

Lemma head_list_zero h : head_n h = 0 -> head_list h = [].
Proof. intros H. unfold head_list. by rewrite H. Qed.

Lemma recovered_zero start d : head_n (blk d start) = 0 ->
  recovered start d = bput start (put32 0 0 (blk d start)) d.
Proof.
  intros H. unfold recovered, recover_writes, recover_installs. by rewrite head_list_zero.
Qed.

Lemma blk_recovered_zero start size d b : 0 <= start -> 0 < size -> head_n (blk d start) = 0 ->
  home start size b d -> blk (recovered start d) b = blk d b.
Proof.
  intros Hs Hz H [Hb Ho]. rewrite recovered_zero by done. unfold blk, bput.
  rewrite list_lookup_insert_ne by lia. done.
Qed.

Lemma length_head_list h : length (head_list h) = Z.to_nat (head_n h).
Proof. unfold head_list. by rewrite length_fmap, length_seq. Qed.

(** The header of a disk with the count [n] and the blocks [bs]. *)
Lemma head_list_eq h bs : head_n h = Z.of_nat (length bs) ->
  (forall i b, bs !! i = Some b -> head_block h i = b) -> head_list h = bs.
Proof.
  intros Hn Hb. apply list_eq. intros i. unfold head_list. rewrite Hn, Nat2Z.id, list_lookup_fmap.
  destruct (bs !! i) as [b|] eqn:E.
  - rewrite lookup_seq_lt by (by eapply lookup_lt_Some). simpl. by rewrite (Hb i b).
  - apply lookup_ge_None in E. rewrite lookup_seq_ge by done. done.
Qed.

(** What a recovery puts in the home blocks. *)
Lemma blk_recovered start size d bs v b :
  0 <= start -> Z.of_nat (length bs) < size -> head_list (blk d start) = bs ->
  (forall c, c ∈ bs -> home start size c d) ->
  home start size b d ->
  (forall j, bs !! j = Some b -> blk d (start + Z.of_nat j + 1) = v) ->
  (b ∈ bs \/ blk d b = v) -> blk (recovered start d) b = v.
Proof.
  intros Hs Hl Hbs Hh Hb Hv Hin. unfold recovered, recover_writes. rewrite apply_writes_app.
  change (apply_writes [_] ?d') with (bput start (put32 0 0 (blk d start)) d').
  unfold blk at 1, bput. destruct Hb as [Hb Ho]. rewrite list_lookup_insert_ne by lia.
  change (default [] (?d' !! Z.to_nat b)) with (blk d' b).
  apply blk_writes_value; [done| | |].
  - unfold recover_installs. rewrite Hbs. apply Forall_lookup_2. intros j w Hw.
    rewrite list_lookup_imap in Hw. destruct (bs !! j) as [c|] eqn:E; [|done].
    injection Hw as <-. simpl. destruct (Hh c) as [? _]; [by eapply list_elem_of_lookup_2|lia].
  - unfold recover_installs. rewrite Hbs. apply Forall_lookup_2. intros j w Hw.
    rewrite list_lookup_imap in Hw. destruct (bs !! j) as [c|] eqn:E; [|done].
    injection Hw as <-. simpl. intros ->. by apply Hv.
  - destruct Hin as [Hin|Hin]; [left|by right]. unfold recover_installs. rewrite Hbs.
    apply list_elem_of_lookup in Hin as [j Hj]. apply list_elem_of_fmap.
    exists (b, blk d (start + Z.of_nat j + 1)). split; [done|]. apply list_elem_of_lookup. exists j.
    by rewrite list_lookup_imap, Hj.
Qed.

(** ** Recovery can be repeated *)

Lemma recover_installs_other start size d ws k :
  head_ok start size d -> ws `prefix_of` recover_installs start d ->
  start <= k < start + size -> blk (apply_writes ws d) k = blk d k.
Proof.
  intros [H1 H2 H3 H4 H5 H6] Hp Hk. apply blk_writes_other; [lia|].
  apply (Forall_prefix _ _ _ Hp). apply Forall_lookup_2. intros j w Hw.
  unfold recover_installs in Hw. rewrite list_lookup_imap in Hw.
  destruct (head_list (blk d start) !! j) as [c|] eqn:E; [|done]. injection Hw as <-. simpl.
  destruct (H5 c) as [? ?]; [by eapply list_elem_of_lookup_2|]. lia.
Qed.

Lemma home_length start size b d d' : length d' = length d -> home start size b d -> home start size b d'.
Proof. unfold home. by intros ->. Qed.

Lemma recovered_value start size d b :
  head_ok start size d -> home start size b d ->
  (forall j, head_list (blk d start) !! j = Some b ->
     blk (recovered start d) b = blk d (start + Z.of_nat j + 1)) /\
  (b ∉ head_list (blk d start) -> blk (recovered start d) b = blk d b).
Proof.
  intros [H1 H2 H3 H4 H5 H6] Hb. set (bs := head_list (blk d start)) in *.
  assert (Z.of_nat (length bs) < size) as Hl by (unfold bs; rewrite length_head_list; lia).
  split.
  - intros j Hj. apply (blk_recovered _ size _ bs); try done.
    + intros j' Hj'. by rewrite (NoDup_lookup _ _ _ _ H6 Hj Hj').
    + left. by eapply list_elem_of_lookup_2.
  - intros Hn. apply (blk_recovered _ size _ bs); try done; [|by right].
    intros j Hj. destruct Hn. by eapply list_elem_of_lookup_2.
Qed.

Lemma recovered_head start size d : head_ok start size d -> (4 <= length (blk d start))%nat ->
  head_n (blk (recovered start d) start) = 0.
Proof.
  intros [H1 H2 H3 H4 H5 H6] Hl. unfold recovered, recover_writes. rewrite apply_writes_app.
  change (apply_writes [_] ?d') with (bput start (put32 0 0 (blk d start)) d').
  unfold blk at 1, bput. rewrite list_lookup_insert_eq by (rewrite length_apply_writes; lia).
  by apply head_zero.
Qed.

(** A crash in the middle of recovery does no harm: recovering again from any
    prefix of its writes gives the same home blocks. *)
Theorem recovery_repeatable start size d ws b :
  head_ok start size d -> (4 <= length (blk d start))%nat ->
  ws `prefix_of` recover_writes start d -> home start size b d ->
  blk (recovered start (apply_writes ws d)) b = blk (recovered start d) b.
Proof.
  intros Hok Hl Hp Hb. pose proof Hok as [H1 H2 H3 H4 H5 H6].
  assert (forall ws, home start size b (apply_writes ws d)) as Hb'
    by (intros; eapply home_length; [apply length_apply_writes|done]).
  apply prefix_snoc_cases in Hp as [Hp| ->].
  - set (d' := apply_writes ws d). set (bs := head_list (blk d start)).
    assert (forall k, start <= k < start + size -> blk d' k = blk d k) as Hlog
      by (intros k Hk; by apply (recover_installs_other start size)).
    assert (Z.of_nat (length bs) < size) as Hlen by (unfold bs; rewrite length_head_list; lia).
    destruct (recovered_value start size d b Hok Hb) as [Hv1 Hv2].
    apply (blk_recovered _ size _ bs); [done|done|by rewrite Hlog by lia| |by apply Hb'| |].
    + intros c Hc. eapply home_length; [apply length_apply_writes|by apply H5].
    + intros j Hj. rewrite (Hv1 j Hj). apply Hlog. apply lookup_lt_Some in Hj. lia.
    + destruct (decide (b ∈ bs)) as [Hin|Hin]; [by left|right]. rewrite Hv2 by done.
      unfold d'. apply blk_writes_other; [destruct Hb; lia|]. apply (Forall_prefix _ _ _ Hp).
      apply Forall_lookup_2. intros j w Hw. unfold recover_installs in Hw.
      rewrite list_lookup_imap in Hw. fold bs in Hw. destruct (bs !! j) as [c|] eqn:E; [|done].
      injection Hw as <-. simpl. pose proof (list_elem_of_lookup_2 _ _ _ E) as Hc.
      destruct (H5 c Hc) as [? _]. split; [lia|congruence].
  - change (apply_writes (recover_writes start d) d) with (recovered start d).
    apply (blk_recovered_zero start size); [done|lia|by apply (recovered_head start size)|apply Hb'].
Qed.

(** ** The code of recovery *)

Lemma a_hold_drop n p a : aheld a !! n = None -> a_drop n (a_hold n p a) = a.
Proof. intros H. destruct a. unfold a_drop, a_hold. simpl in *. by rewrite delete_insert_id. Qed.

Lemma wp_read_head me P a m st l Q :
  msec ∅ m -> cacheR a st -> ldev l = 1 -> idle (lstart l) a -> room 1 a ->
  (forall m' st', quiet ∅ m m' -> cacheR a st' ->
     Q tt (m', set_lbio st' (set_lhblock (load_blocks (head_n (a_get (lstart l) a))
       (a_get (lstart l) a) (lhblock l)) (set_lhn (head_n (a_get (lstart l) a)) l)))) ->
  wp P (read_head me) (m, set_lbio st l) Q.
Proof.
  intros Hm HR Hd Hidle Hroom HQ. pose proof Hidle as (Hn & Hh & Hp). unfold room in Hroom.
  unfold read_head. wp_next. apply wp_data, wp_gets. simpl. rewrite Hd.
  wp_next. unfold on_bio at 1. apply wp_part. simpl.
  apply (wp_bread _ _ a); [done|done|done|by rewrite Hh|intros _; lia|].
  intros i m1 st1 Hm1 _ HR1 Ho1 _. simpl.
  destruct (owns_for _ _ _ _ HR1 Ho1) as (x & Hx & _).
  wp_next. unfold on_bio at 1. apply wp_part. simpl. apply (wp_bfield _ _ _ _ _ x); [done|]. simpl.
  rewrite (owns_data _ _ _ _ _ HR1 Ho1 Hx).
  wp_next. apply wp_data, wp_modify. wp_next. apply wp_data, wp_modify. simpl.
  unfold on_bio. apply wp_part. simpl.
  eapply (wp_brelse _ _ _ _ _ i); [apply Hm1|exact HR1|exact Ho1| | |].
  - simpl. by rewrite lookup_insert_eq.
  - right. simpl. apply (a_clean _ (R_ok _ _ HR)); [lia|done|done].
  - intros m2 st2 Hm2 HR2 _. rewrite a_hold_drop in HR2 by done.
    apply (HQ m2 st2); [by eapply quiet_trans|done].
Qed.

(** Nothing in use, nothing pinned. *)
Definition a_clean_disk (d : list (list Z)) (a : acache) : Prop :=
  alog a = d /\ adisk a = d /\ apin a = ∅ /\ aheld a = ∅.

Lemma clean_idle d a k : a_clean_disk d a -> 0 <= k < Z.of_nat (length d) -> idle k a.
Proof.
  intros (H1 & H2 & H3 & H4) Hk. unfold idle, asize. rewrite H2, H3, H4.
  split_and!; [lia|lia|by rewrite lookup_empty|apply not_elem_of_empty].
Qed.

Lemma clean_room d a : a_clean_disk d a -> room 2 a.
Proof. intros (_ & _ & H3 & H4). unfold room. rewrite H3, H4, dom_empty_L, union_empty_l_L, size_empty. unfold NBUF. lia. Qed.

(** The header in memory after [read_head]. *)
Lemma recover_geom d a start size l h :
  a_clean_disk d a -> head_ok start size d -> h = blk d start ->
  ldev l = 1 -> lstart l = start -> lsize l = size -> length (lhblock l) = Z.to_nat LOGSIZE ->
  log_geom (set_lhblock (load_blocks (head_n h) h (lhblock l)) (set_lhn (head_n h) l)) a (head_list h).
Proof.
  intros Hc [H1 H2 H3 H4 H5 H6] -> Hd Hs Hz Hl. pose proof (length_head_list (blk d start)) as Hlen.
  assert (Z.of_nat (length d) = asize a) as Hsz by (unfold asize; by destruct Hc as (_ & -> & _)).
  constructor; simpl; try done.
  - lia.
  - rewrite Hlen. lia.
  - rewrite <- Hl. unfold load_blocks. clear. generalize (Z.to_nat (head_n (blk d start))) as k.
    induction k as [|k IH]; [done|]. rewrite seq_S, foldl_snoc. by rewrite length_insert.
  - intros j b Hb. rewrite load_blocks_lookup by (rewrite Hl; lia).
    pose proof (lookup_lt_Some _ _ _ Hb). rewrite decide_True by lia.
    unfold head_list in Hb. rewrite list_lookup_fmap, lookup_seq_lt in Hb by lia. simpl in Hb. done.
  - rewrite Hs. apply (clean_idle d); [done|lia].
  - intros j Hj. rewrite Hs. apply (clean_idle d); [done|lia].
  - intros b Hb. destruct (H5 b Hb) as [Hb1 Hb2]. rewrite <- Hsz, Hs, Hz. split; [done|]. split; [|done].
    destruct Hc as (_ & _ & _ & ->). apply lookup_empty.
  - lia.
Qed.

Lemma wp_recover me P d a start size m st l Q :
  msec ∅ m -> cacheR a st -> a_clean_disk d a -> head_ok start size d ->
  ldev l = 1 -> lstart l = start -> lsize l = size -> length (lhblock l) = Z.to_nat LOGSIZE ->
  (forall m' st' l', quiet ∅ m m' -> cacheR (a_writes (recover_writes start d) a) st' ->
     lbio l' = st' -> lhn l' = 0 -> lstart l' = start -> lsize l' = size -> ldev l' = 1 ->
     length (lhblock l') = Z.to_nat LOGSIZE ->
     outstanding l' = outstanding l -> committing l' = committing l -> Q tt (m', l')) ->
  wp P (recover_from_log me) (m, set_lbio st l) Q.
Proof.
  intros Hm HR Hc Hok Hd Hs Hz Hl HQ. pose proof Hok as [H1 H2 H3 H4 H5 H6].
  assert (room 1 a) as Hr1 by (pose proof (clean_room _ _ Hc); unfold room in *; lia).
  assert (idle (lstart l) a) as Hi by (rewrite Hs; apply (clean_idle d); [done|lia]).
  assert (a_get (lstart l) a = blk d start) as Hg.
  { rewrite a_get_blk, Hs. by destruct Hc as (-> & _). }
  unfold recover_from_log. wp_next. apply (wp_read_head _ _ a); [done..|].
  intros m1 st1 Hm1 HR1. rewrite Hg. set (h := blk d start) in *.
  set (l1 := set_lhblock _ (set_lhn _ l)).
  assert (log_geom l1 a (head_list h)) as G by (by eapply recover_geom).
  wp_next. apply (wp_install_trans _ _ a _ _ _ (head_list h)); [apply Hm1|done|done|done| |].
  { right. by eapply clean_room. }
  intros m2 st2 Hm2 HR2. wp_next. apply wp_data, wp_modify.
  change (wp P (write_head me) (m2, set_lbio st2 (set_lhn 0 l1)) Q).
  set (W := install_writes (lstart l1) a (head_list h)) in *.
  assert (W = recover_installs start d) as HW.
  { unfold W, install_writes, recover_installs. fold h. apply imap_ext. intros j b _. rewrite a_get_blk.
    destruct Hc as (-> & _). simpl. by rewrite Hs. }
  assert (lstart (set_lhn 0 l1) = start) as Hst by done.
  apply (wp_write_head me P (a_writes W a) m2 st2 (set_lhn 0 l1)); [apply Hm2|done|done| |by apply room_writes|].
  { apply idle_writes. exact Hi. }
  intros m3 st3 Hm3 HR3. apply (HQ m3 st3); try done.
  - do 2 (eapply quiet_trans; [done|]). done.
  - unfold recover_writes. rewrite a_writes_app, <- HW. simpl. fold h.
    rewrite Hst in HR3.
    replace (put32 0 0 h) with (store_blocks (lhn (set_lhn 0 l1)) (lhblock (set_lhn 0 l1))
      (a_get start (a_writes W a))); [exact HR3|].
    unfold store_blocks. simpl. f_equal. rewrite <- Hg, Hs. apply a_get_writes; [done|].
    rewrite HW. apply Forall_lookup_2. intros j w Hw. unfold recover_installs in Hw.
    rewrite list_lookup_imap in Hw. destruct (head_list _ !! j) as [c|] eqn:E; [|done].
    injection Hw as <-. simpl. destruct (H5 c) as [? ?]; [by eapply list_elem_of_lookup_2|]. lia.
  - apply G.
Qed.

(** C39. [initlog] on a disk whose header is in order performs exactly the recovery:
    it ends, without a panic, with the disk [recovered], an empty log and every
    block as on the disk. *)
Theorem initlog_recovers me m l d start size :
  msec ∅ m -> cacheR (mkA d ∅ ∅ d []) (lbio l) -> length (lhblock l) = Z.to_nat LOGSIZE ->
  head_ok start size d ->
  exists m' l', initlog me 1 start size (m, l) = Ok tt (m', l') /\ msec ∅ m' /\
    disk (lbio l') = recovered start d /\ dwrites (lbio l') = recover_writes start d /\
    lhn l' = 0 /\ lstart l' = start /\ lsize l' = size /\
    cacheR (mkA (recovered start d) ∅ ∅ (recovered start d) (recover_writes start d)) (lbio l').
Proof.
  intros Hm HR Hl Hok. set (a := mkA d ∅ ∅ d []) in *.
  assert (a_clean_disk d a) as Hc by done.
  destruct (wp_total (initlog me 1 start size) (m, l) (fun _ s => msec ∅ s.1 /\
    cacheR (a_writes (recover_writes start d) a) (lbio s.2) /\ lhn s.2 = 0 /\
    lstart s.2 = start /\ lsize s.2 = size)) as ([] & [m' l'] & Hr & Hm' & HR' & H1 & H2 & H3).
  { unfold initlog. change (4 + 4 * LOGSIZE >=? BSIZE) with false. cbn iota.
    wp_next. unfold on_mach_of, initlock. apply wp_zoom, wp_modify. wp_next. apply wp_data, wp_modify.
    change (set_where start size 1 (_, l).2) with (set_lbio (lbio l) (set_where start size 1 l)).
    apply (wp_recover _ _ d a start size); try done; [by apply msec_initlock|].
    intros m' st' l' Hq HR' <- H1 H2 H3 _ _ _ _. split_and!; try done. apply Hq. }
  pose proof (a_writes_fields (recover_writes start d) a) as (E1 & E2 & E3 & E4 & E5).
  assert (a_writes (recover_writes start d) a =
    mkA (recovered start d) ∅ ∅ (recovered start d) (recover_writes start d)) as Ha.
  { destruct (a_writes _ _). simpl in *. subst. f_equal. set_solver. }
  rewrite Ha in HR'. exists m', l'. split_and!; try done; [apply HR'|apply HR'].
Qed.

(** ** The code of a commit *)

(** The disk writes of [commit]: the log blocks, the header, the home blocks,
    the empty header. *)
Definition commit_writes (l : lst) (a : acache) (bs : list Z) : list (Z * list Z) :=
  log_writes (lstart l) a bs ++ [head_write l a] ++ ((fun b => (b, a_get b a)) <$> bs) ++
    [(lstart l, put32 0 0 (head_write l a).2)].

Lemma geom_writes ws l a bs : log_geom l a bs -> log_geom l (a_writes ws a) bs.
Proof.
  intros [G1 G2 G3 G4 G5 G6 G7 G8 G9 G10]. pose proof (a_writes_fields ws a) as (_ & _ & _ & Hh & _).
  constructor; try done.
  - by apply idle_writes.
  - intros j Hj. by apply idle_writes, G7.
  - intros b Hb. rewrite asize_writes, Hh. by apply G8.
Qed.

Lemma log_writes_off start a bs k : 0 <= start -> (k <= start \/ start + Z.of_nat (length bs) < k) ->
  Forall (fun w => 0 <= w.1 /\ w.1 ≠ k) (log_writes start a bs).
Proof.
  intros Hs Hk. apply Forall_lookup_2. intros j w Hw. apply lookup_log_writes in Hw as (b & Hb & ->).
  simpl. apply lookup_lt_Some in Hb. lia.
Qed.

(** The log block of [b] holds [b] once [write_log] is done. *)
Lemma log_writes_value start a bs j b d :
  0 <= start -> start + Z.of_nat (length bs) < Z.of_nat (length d) -> bs !! j = Some b ->
  blk (apply_writes (log_writes start a bs) d) (start + Z.of_nat j + 1) = a_get b a.
Proof.
  intros Hs Hf Hj. pose proof (lookup_lt_Some _ _ _ Hj). apply blk_writes_value; [lia| | |].
  - apply Forall_lookup_2. intros i w Hw. apply lookup_log_writes in Hw as (c & Hc & ->). simpl. lia.
  - apply Forall_lookup_2. intros i w Hw. apply lookup_log_writes in Hw as (c & Hc & ->). simpl.
    intros Heq. assert (i = j) as -> by lia. congruence.
  - left. apply list_elem_of_fmap. exists (start + Z.of_nat j + 1, a_get b a). split; [done|].
    apply list_elem_of_lookup. exists j. unfold log_writes. by rewrite list_lookup_imap, Hj.
Qed.

Lemma geom_start l a bs : log_geom l a bs -> 0 <= lstart l /\
  (bs ≠ [] -> lstart l + Z.of_nat (length bs) < asize a).
Proof.
  intros G. destruct (g_head _ _ _ G) as [[? _] _]. split; [done|]. intros Hne.
  destruct (g_log _ _ _ G (length bs - 1)) as [[_ Hlt] _].
  - destruct bs; [done|simpl; lia].
  - destruct bs; [done|]. simpl length in *. lia.
Qed.

Lemma wp_commit me P a m st l bs Q :
  msec ∅ m -> cacheR a st -> log_geom l a bs -> (forall b, b ∈ bs -> b ∈ apin a) -> room 1 a ->
  bs ≠ [] ->
  (forall m' st', quiet ∅ m m' -> cacheR (a_writes (commit_writes l a bs) a) st' ->
     Q tt (m', set_lbio st' (set_lhn 0 l))) ->
  wp P (commit me) (m, set_lbio st l) Q.
Proof.
  intros Hm HR G Hpin Hroom Hne HQ. destruct (geom_start _ _ _ G) as [Hs Hfit]. specialize (Hfit Hne).
  assert (a_ok a) as Ha by apply HR. unfold commit. wp_next. apply wp_data, wp_gets.
  assert (0 < Z.of_nat (length bs)) as Hpos by (destruct bs; [done|simpl length; lia]).
  cbn [snd]. replace (lhn (set_lbio st l) >? 0) with true by (simpl; rewrite (g_n _ _ _ G); lia).
  wp_next. apply (wp_write_log _ _ a _ _ _ bs); [done..|]. intros m1 st1 Hm1 HR1.
  set (W1 := log_writes (lstart l) a bs) in *.
  assert (a_get (lstart l) (a_writes W1 a) = a_get (lstart l) a) as Hg1
    by (apply a_get_writes; [done|]; apply log_writes_off; lia).
  wp_next. apply (wp_write_head me P (a_writes W1 a) m1 st1 l);
    [apply Hm1|done|apply G|apply idle_writes, G|by apply room_writes|].
  intros m2 st2 Hm2 HR2. rewrite Hg1 in HR2.
  change (a_write _ _ (a_writes W1 a)) with (a_writes [head_write l a] (a_writes W1 a)) in HR2.
  rewrite <- a_writes_app in HR2. set (W2 := W1 ++ [head_write l a]) in *.
  assert (forall b, b ∈ bs -> 0 <= b /\ Forall (fun w => 0 <= w.1 /\ w.1 ≠ b) W2) as Hoff.
  { intros b Hb. destruct (g_home _ _ _ G b Hb) as (? & _ & ?). pose proof (g_size _ _ _ G).
    split; [lia|]. apply Forall_app. split; [apply log_writes_off; lia|].
    apply Forall_cons. simpl. split; [lia|done]. }
  wp_next. apply (wp_install_trans _ _ (a_writes W2 a) _ _ _ bs);
    [apply Hm2|done|by apply geom_writes|by apply room_writes| |].
  { left. intros b Hb. destruct (a_writes_fields W2 a) as (_ & _ & _ & _ & ->).
    apply elem_of_difference. split; [by apply Hpin|]. rewrite elem_of_list_to_set, list_elem_of_fmap.
    intros (w & -> & Hw). destruct (Hoff _ Hb) as [_ Hf]. rewrite Forall_forall in Hf. by destruct (Hf w Hw). }
  intros m3 st3 Hm3 HR3.
  assert (install_writes (lstart l) (a_writes W2 a) bs = (fun b => (b, a_get b a)) <$> bs) as HW3.
  { apply list_eq. intros j. unfold install_writes. rewrite list_lookup_imap, list_lookup_fmap.
    destruct (bs !! j) as [b|] eqn:E; [|done]. simpl. do 2 f_equal. unfold W2. rewrite a_writes_app.
    rewrite a_get_writes; [|apply lookup_lt_Some in E; lia|].
    - rewrite a_get_blk. destruct (a_writes_fields W1 a) as (_ & -> & _).
      apply log_writes_value; [done|rewrite (a_len _ Ha); unfold asize in Hfit; lia|done].
    - apply Forall_cons. simpl. split; [lia|done]. }
  rewrite HW3, <- a_writes_app in HR3. set (W3 := W2 ++ _) in *.
  wp_next. apply wp_data, wp_modify. change (wp P (write_head me) (m3, set_lbio st3 (set_lhn 0 l)) Q).
  apply (wp_write_head me P (a_writes W3 a) m3 st3 (set_lhn 0 l));
    [apply Hm3|done|apply G|apply idle_writes, G|by apply room_writes|].
  intros m4 st4 Hm4 HR4. apply HQ; [do 3 (eapply quiet_trans; [done|]); done|].
  replace (commit_writes l a bs) with (W3 ++ [(lstart l, put32 0 0 (head_write l a).2)])
    by (unfold W3, W2, commit_writes; by rewrite <- !app_assoc).
  rewrite a_writes_app. simpl. unfold store_blocks in HR4. simpl in HR4.
  replace (a_get (lstart l) (a_writes W3 a)) with (head_write l a).2 in HR4; [exact HR4|].
  unfold W3. rewrite a_writes_app, a_get_writes; [|done|].
  - unfold W2. rewrite a_writes_app, a_get_blk. simpl. rewrite blk_bput, decide_True; [done|done| |done].
    destruct (a_writes_fields W1 a) as (_ & -> & _). rewrite length_apply_writes, (a_len _ Ha).
    destruct (g_head _ _ _ G) as [? _]. done.
  - apply Forall_fmap, Forall_forall. intros b Hb. simpl.
    destruct (g_home _ _ _ G b Hb) as (? & _ & ?). pose proof (g_size _ _ _ G). lia.
Qed.

(** ** Crashes during a commit *)

(** The header written by [write_head] lists the blocks. *)
Lemma head_write_list l a bs :
  log_geom l a bs -> a_ok a -> asize a <= 2147483648 ->
  head_n (head_write l a).2 = Z.of_nat (length bs) /\ head_list (head_write l a).2 = bs.
Proof.
  intros G Ha Hsz. pose proof (g_max _ _ _ G) as Hmax. pose proof (g_n _ _ _ G) as Hn.
  assert (length (a_get (lstart l) a) = Z.to_nat BSIZE) as Hl by (apply a_get_length; [done|apply G]).
  destruct (store_blocks_head (lhn l) (lhblock l) (a_get (lstart l) a)) as [H1 H2].
  - unfold LOGSIZE, MAXOPBLOCKS in *. lia.
  - rewrite Hl, Hn, Nat2Z.id. unfold LOGSIZE, MAXOPBLOCKS, BSIZE in *. lia.
  - intros i Hi. rewrite Hn, Nat2Z.id in Hi. destruct (lookup_lt_is_Some_2 bs i Hi) as [b Hb].
    rewrite (g_blocks _ _ _ G i b Hb). simpl.
    destruct (g_home _ _ _ G b) as [? _]; [by eapply list_elem_of_lookup_2|]. lia.
  - simpl. split; [by rewrite H1|]. apply head_list_eq; [by rewrite H1|].
    intros i b Hb. rewrite H2 by (rewrite Hn, Nat2Z.id; by eapply lookup_lt_Some).
    by rewrite (g_blocks _ _ _ G i b Hb).
Qed.

(** The home blocks after the transaction: its blocks new, the others as they
    were on disk. *)
Definition committed (a : acache) (bs : list Z) (b : Z) : list Z :=
  if decide (b ∈ bs) then a_get b a else blk (adisk a) b.

Section crash.
Context (l : lst) (a : acache) (bs : list Z).
Hypothesis G : log_geom l a bs.
Hypothesis Ha : a_ok a.
Hypothesis Hne : bs ≠ [].
Hypothesis Hsz : asize a <= 2147483648.
Hypothesis Hfit : lstart l + lsize l <= asize a.
Hypothesis Hempty : head_n (blk (adisk a) (lstart l)) = 0.

Let d0 := adisk a.
Let W1 := log_writes (lstart l) a bs.
Let hw := head_write l a.
Let W3 := (fun b => (b, a_get b a)) <$> bs.

Lemma crash_facts : 0 <= lstart l /\ Z.of_nat (length bs) < lsize l /\
  asize a = Z.of_nat (length d0) /\
  (forall b, b ∈ bs -> 0 <= b < asize a /\ (b < lstart l \/ lstart l + lsize l <= b)).
Proof using G.
  destruct (geom_start _ _ _ G) as [? _]. split_and!; [done|apply G|done|].
  intros b Hb. destruct (g_home _ _ _ G b Hb) as (? & _ & ?). done.
Qed.

(** Writes to the log do not touch home blocks. *)
Lemma log_writes_home b : (b < lstart l \/ lstart l + lsize l <= b) ->
  Forall (fun w => 0 <= w.1 /\ w.1 ≠ b) (W1 ++ [hw]).
Proof using G.
  intros Hb. destruct crash_facts as (H1 & H2 & _ & _). apply Forall_app. split.
  - apply log_writes_off; lia.
  - apply Forall_cons. simpl. split; [lia|done].
Qed.

(** Before the header is written. *)
Lemma crash_before ws b : ws `prefix_of` W1 -> home (lstart l) (lsize l) b d0 ->
  blk (recovered (lstart l) (apply_writes ws d0)) b = blk d0 b.
Proof using G Hempty.
  intros Hp Hb. destruct crash_facts as (H1 & H2 & _ & _).
  rewrite (blk_recovered_zero _ (lsize l)); [| | | |].
  - apply blk_writes_other; [destruct Hb; lia|]. apply (Forall_prefix _ _ _ Hp).
    eapply (Forall_app _ W1 [hw]), log_writes_home. apply Hb.
  - done.
  - lia.
  - rewrite blk_writes_other; [done|done|]. apply (Forall_prefix _ _ _ Hp). apply log_writes_off; lia.
  - eapply home_length; [apply length_apply_writes|done].
Qed.

(** After it, before the header is erased. *)
Lemma crash_after ws b : ws `prefix_of` W3 -> home (lstart l) (lsize l) b d0 ->
  blk (recovered (lstart l) (apply_writes (W1 ++ [hw] ++ ws) d0)) b = committed a bs b.
Proof using G Ha Hne Hsz Hfit.
  intros Hp Hb. destruct crash_facts as (H1 & H2 & H3 & H4). set (d := apply_writes _ d0).
  assert (length d = length d0) as Hlen by apply length_apply_writes.
  destruct (head_write_list l a bs G Ha Hsz) as [_ Hhl].
  assert (forall k, lstart l <= k < lstart l + lsize l -> Forall (fun w => 0 <= w.1 /\ w.1 ≠ k) ws) as Hws.
  { intros k Hk. apply (Forall_prefix _ _ _ Hp). apply Forall_fmap, Forall_forall. intros c Hc. simpl.
    specialize (H4 c Hc). lia. }
  assert (blk d (lstart l) = hw.2) as Hh.
  { unfold d. rewrite !apply_writes_app, blk_writes_other by (done || apply Hws; lia). simpl.
    rewrite blk_bput, decide_True; [done|done|rewrite length_apply_writes; lia|done]. }
  unfold committed. apply (blk_recovered _ (lsize l) _ bs); [done|done|by rewrite Hh| | | |].
  - intros c Hc. specialize (H4 c Hc). split; [rewrite Hlen|]; lia.
  - eapply home_length; [|done]. done.
  - intros j Hj. pose proof (lookup_lt_Some _ _ _ Hj).
    rewrite decide_True by (by eapply list_elem_of_lookup_2).
    unfold d. rewrite !apply_writes_app, blk_writes_other by (lia || apply Hws; lia). simpl.
    rewrite blk_bput, decide_False by (rewrite ?length_apply_writes; lia).
    apply log_writes_value; [done|lia|done].
  - destruct (decide (b ∈ bs)) as [Hin|Hin]; [by left|right].
    unfold d. apply blk_writes_other; [destruct Hb; lia|]. rewrite app_assoc. apply Forall_app.
    split; [apply log_writes_home, Hb|]. apply (Forall_prefix _ _ _ Hp). apply Forall_fmap, Forall_forall.
    intros c Hc. simpl. specialize (H4 c Hc). split; [lia|]. congruence.
Qed.

(** After the commit. *)
Lemma commit_head : head_n (blk (apply_writes (commit_writes l a bs) d0) (lstart l)) = 0.
Proof using G Ha.
  assert (length (a_get (lstart l) a) = Z.to_nat BSIZE) as Hl by (apply a_get_length; [done|apply G]).
  destruct (g_head _ _ _ G) as [Hs _].
  unfold commit_writes. rewrite !app_assoc, apply_writes_app. simpl.
  rewrite blk_bput, decide_True; [|done|rewrite length_apply_writes; exact Hs|lia]. apply head_zero.
  rewrite length_store_blocks, Hl. unfold BSIZE. lia.
Qed.

Lemma crash_done b : home (lstart l) (lsize l) b d0 ->
  blk (recovered (lstart l) (apply_writes (commit_writes l a bs) d0)) b = committed a bs b /\
  blk (apply_writes (commit_writes l a bs) d0) b = committed a bs b.
Proof using G Ha Hne Hsz Hfit.
  intros Hb. destruct crash_facts as (H1 & H2 & H3 & H4). pose proof commit_head as Hz.
  set (d := apply_writes _ d0) in *.
  assert (blk d b = committed a bs b) as Hd.
  { unfold d, commit_writes. rewrite !app_assoc, apply_writes_app. simpl. destruct Hb as [Hb Ho].
    rewrite blk_bput, decide_False by (rewrite ?length_apply_writes; lia).
    rewrite apply_writes_app. fold W1 hw W3. unfold committed. apply blk_writes_value.
    - by rewrite length_apply_writes.
    - apply Forall_fmap, Forall_forall. intros c Hc. simpl. specialize (H4 c Hc). lia.
    - apply Forall_fmap, Forall_forall. intros c Hc. simpl. intros ->. by rewrite decide_True.
    - destruct (decide (b ∈ bs)) as [Hin|Hin]; [left|right].
      + apply list_elem_of_fmap. exists (b, a_get b a). split; [done|]. apply list_elem_of_fmap. by exists b.
      + apply blk_writes_other; [lia|]. by apply log_writes_home. }
  split; [|done]. rewrite <- Hd. apply (blk_recovered_zero _ (lsize l)); [done|lia|done|].
  eapply home_length; [apply length_apply_writes|done].
Qed.

(** Every crash point. *)
Lemma crash_points ws : ws `prefix_of` commit_writes l a bs ->
  let d := recovered (lstart l) (apply_writes ws d0) in
  (forall b, home (lstart l) (lsize l) b d0 -> blk d b = blk d0 b) \/
  (forall b, home (lstart l) (lsize l) b d0 -> blk d b = committed a bs b).
Proof using G Ha Hne Hsz Hfit Hempty.
  intros Hp. cbv zeta. unfold commit_writes in Hp.
  apply prefix_app_cases in Hp as [Hp|(w1 & -> & Hp)]; [left; intros b Hb; by apply crash_before|].
  destruct w1 as [|w w1].
  { rewrite app_nil_r. left. intros b Hb. by apply crash_before. }
  pose proof (prefix_cons_inv_1 _ _ _ _ Hp) as ->. apply prefix_cons_inv_2 in Hp.
  right. intros b Hb. apply prefix_snoc_cases in Hp as [Hp| ->].
  - by apply crash_after.
  - by apply crash_done.
Qed.

End crash.

(** [commit] is atomic: it ends without a panic, and whatever prefix of its disk
    writes a crash leaves, recovery gives either every home block as before the
    transaction or every home block as after it; when all writes are done, the
    disk itself is as after it. *)
Theorem commit_atomic me m l a bs :
  msec ∅ m -> cacheR a (lbio l) -> log_geom l a bs -> (forall b, b ∈ bs -> b ∈ apin a) ->
  room 1 a -> bs ≠ [] -> asize a <= 2147483648 -> lstart l + lsize l <= asize a ->
  head_n (blk (disk (lbio l)) (lstart l)) = 0 ->
  exists m' l' W, commit me (m, l) = Ok tt (m', l') /\ msec ∅ m' /\ lhn l' = 0 /\
    dwrites (lbio l') = dwrites (lbio l) ++ W /\
    disk (lbio l') = apply_writes W (disk (lbio l)) /\
    (forall b, home (lstart l) (lsize l) b (disk (lbio l)) ->
       blk (disk (lbio l')) b = committed a bs b) /\
    forall ws, ws `prefix_of` W ->
      let d := recovered (lstart l) (apply_writes ws (disk (lbio l))) in
      (forall b, home (lstart l) (lsize l) b (disk (lbio l)) -> blk d b = blk (disk (lbio l)) b) \/
      (forall b, home (lstart l) (lsize l) b (disk (lbio l)) -> blk d b = committed a bs b).
Proof.
  intros Hm HR G Hpin Hroom Hne Hsz Hfit Hz. assert (a_ok a) as Ha by apply HR.
  rewrite (R_disk _ _ HR) in *.
  assert (l = set_lbio (lbio l) l) as Hl by (by destruct l).
  destruct (wp_total (commit me) (m, l) (fun _ s => msec ∅ s.1 /\ lhn s.2 = 0 /\
    cacheR (a_writes (commit_writes l a bs) a) (lbio s.2))) as ([] & [m' l'] & Hr & Hm' & Hn & HR').
  { rewrite Hl at 1. apply (wp_commit _ _ a _ _ _ bs); [done..|].
    intros m' st' Hq HR'. split_and!; [apply Hq|done|done]. }
  exists m', l', (commit_writes l a bs).
  destruct (a_writes_fields (commit_writes l a bs) a) as (E1 & _ & E3 & _).
  simpl in *. rewrite (R_disk _ _ HR'), (R_wr _ _ HR'), (R_wr _ _ HR), E1, E3.
  split_and!; [done..| |].
  - intros b Hb. by apply (crash_done l a bs).
  - intros ws Hp. by apply (crash_points l a bs).
Qed.
