(* ===== verification/LogTxn.v ===== *)
(** * Transactions: begin_op, log_write and end_op together

    Processes bracket their updates of blocks by [begin_op] and [end_op].  The
    relation [tstep] runs the code of these calls in any order the log admits;
    its invariant says what is in the log, and with it that the disk only ever
    changes from one committed state to the next. *)

From stdpp Require Import base numbers gmap list strings.
From S2P Require Import Prelude Spinlock Sleeplock Bio BioRing BioSpec.
From S2P Require Import Log LogSpec LogThms.
Open Scope Z_scope.

(** The pattern given in the comment on [log_write], used by all of fs.c:
    read a block, change its data, log it, release it. *)
Definition op_write (me b : Z) (f : list Z -> list Z) : M (mach * lst) unit :=
  bp ← on_bio (bread me 1 b);
  on_bio (bset (fun x => set_bdata (f (bdata x)) x) bp);;
  log_write bp;;
  on_bio (brelse me bp).

(** The log in memory lists [bs]; no buffer is in use between the steps. *)
Record log_rep (l : lst) (a : acache) (bs : list Z) : Prop := mkRep {
  r_cache : cacheR a (lbio l);
  r_free : aheld a = ∅;
  r_pin : apin a = list_to_set bs;
  r_dev : ldev l = 1;
  r_n : lhn l = Z.of_nat (length bs);
  r_len : length (lhblock l) = Z.to_nat LOGSIZE;
  r_take : take (length bs) (lhblock l) = bs;
  r_nodup : NoDup bs;
  r_home : forall b, b ∈ bs -> home (lstart l) (lsize l) b (adisk a);
  r_start : 0 <= lstart l;
  r_size : Z.of_nat (length bs) < lsize l;
  r_fit : lstart l + lsize l <= asize a;
  r_empty : head_n (blk (adisk a) (lstart l)) = 0 }.

Lemma rep_idle l a bs k : log_rep l a bs -> lstart l <= k < lstart l + lsize l -> idle k a.
Proof.
  intros [] Hk. split; [lia|]. rewrite r_free0, r_pin0. split; [apply lookup_empty|].
  rewrite elem_of_list_to_set. intros Hin. destruct (r_home0 k Hin). lia.
Qed.

Lemma rep_max l a bs : log_rep l a bs -> (length bs <= Z.to_nat LOGSIZE)%nat.
Proof.
  intros R. rewrite <- (r_len _ _ _ R), <- (r_take _ _ _ R) at 1. rewrite length_take. lia.
Qed.

Lemma rep_geom l a bs : log_rep l a bs -> log_geom l a bs.
Proof.
  intros R. pose proof R as []. constructor; try done.
  - by apply (rep_max l a).
  - intros j b Hb. rewrite <- r_take0, lookup_take_Some in Hb. by destruct Hb.
  - apply (rep_idle l a bs); [done|lia].
  - intros j Hj. apply (rep_idle l a bs); [done|lia].
  - intros b Hb. destruct (r_home0 b Hb) as [? ?]. rewrite r_free0. split; [done|]. split; [apply lookup_empty|done].
Qed.

Lemma rep_room l a bs : log_rep l a bs -> (length bs < NBUF)%nat -> room 1 a.
Proof.
  intros [] Hb. unfold room. rewrite r_free0, r_pin0, dom_empty_L, union_empty_r_L.
  rewrite size_list_to_set by done. lia.
Qed.

(** ** log_write *)

(** The list of blocks in the header in memory is [bs]. *)
Record log_list (l : lst) (bs : list Z) : Prop := mkList {
  ll_dev : ldev l = 1;
  ll_n : lhn l = Z.of_nat (length bs);
  ll_len : length (lhblock l) = Z.to_nat LOGSIZE;
  ll_take : take (length bs) (lhblock l) = bs;
  ll_nodup : NoDup bs }.

Lemma rep_list l a bs : log_rep l a bs -> log_list l bs.
Proof. intros []. by constructor. Qed.

Lemma log_slot_spec l bs b : log_list l bs ->
  (b ∈ bs /\ exists i, log_slot (lhn l) (lhblock l) b = i /\ (i < length bs)%nat /\
     lhblock l !! i = Some b) \/
  (b ∉ bs /\ log_slot (lhn l) (lhblock l) b = length bs).
Proof.
  intros R. unfold log_slot. rewrite (ll_n _ _ R), Nat2Z.id, (ll_take _ _ R).
  destruct (list_find _ bs) as [[i x]|] eqn:E.
  - apply list_find_Some in E as (Hi & -> & _). left. split; [by eapply list_elem_of_lookup_2|].
    exists i. split_and!; [done|by eapply lookup_lt_Some|].
    rewrite <- (ll_take _ _ R), lookup_take_Some in Hi. by destruct Hi.
  - apply list_find_None in E. right. split; [|done]. intros Hin.
    rewrite Forall_forall in E. by apply (E b).
Qed.

(** The list of logged blocks after logging [b]. *)
Definition logged (b : Z) (bs : list Z) : list Z := if decide (b ∈ bs) then bs else bs ++ [b].

(** [log_write] of a buffer in use appends its block to the header, unless it
    is there already (absorption), and pins it. *)
Lemma wp_log_write P l bs m st i b Q :
  msec ∅ m -> log_list l bs -> owns st i b -> 1 <= outstanding l -> lhn l < LOGSIZE ->
  lhn l < lsize l - 1 ->
  (forall m', quiet ∅ m m' ->
     Q tt (m', set_lbio (upd_buf i (fun x => set_bflags (Z.lor (bflags x) B_DIRTY) x) st)
       (set_lhn (Z.of_nat (length (logged b bs)))
         (set_lhblock (<[log_slot (lhn l) (lhblock l) b := b]> (lhblock l)) l)))) ->
  wp P (log_write i) (m, set_lbio st l) Q.
Proof.
  intros Hm R (Hi & x & Hx & Hd & Hno & Hf) Ho Hn Hs HQ. unfold log_write.
  wp_next. apply wp_data, wp_gets. unfold id. cbn [snd set_lbio lhn lsize outstanding].
  replace (lhn l >=? LOGSIZE) with false by lia. replace (lhn l >=? lsize l - 1) with false by lia.
  replace (outstanding l <? 1) with false by lia. cbn [orb].
  eapply wp_critical; [done|apply not_elem_of_empty|]. wp_next. apply wp_gets. unfold id.
  cbn [lbio set_lbio lhn lhblock]. rewrite (buf_at_lookup _ _ _ Hx), Hno.
  set (k := log_slot (lhn l) (lhblock l) b) in *. wp_next. apply wp_modify. wp_next.
  apply wp_when.
  - intros Hk. apply wp_modify, wp_modify. intros m' Hm'. cbn.
    replace (lhn l + 1) with (Z.of_nat (length (logged b bs))); [by apply HQ|].
    destruct (log_slot_spec _ _ b R) as [(Hin & j & Hj & Hlt & _)|[Hin Hj]]; fold k in Hj.
    + pose proof (ll_n _ _ R). lia.
    + unfold logged. rewrite decide_False, length_app by done. pose proof (ll_n _ _ R). simpl. lia.
  - intros Hk. apply wp_modify. intros m' Hm'. cbn. specialize (HQ m' Hm').
    replace (Z.of_nat (length (logged b bs))) with (lhn l) in HQ; [by destruct l|].
    destruct (log_slot_spec _ _ b R) as [(Hin & j & Hj & Hlt & _)|[Hin Hj]]; fold k in Hj.
    + unfold logged. rewrite decide_True by done. apply R.
    + pose proof (ll_n _ _ R). lia.
Qed.

(** The header after it. *)
Lemma logged_take l bs b : log_list l bs -> lhn l < LOGSIZE ->
  take (length (logged b bs)) (<[log_slot (lhn l) (lhblock l) b := b]> (lhblock l)) = logged b bs.
Proof.
  intros R Hn. unfold logged. destruct (log_slot_spec _ _ b R) as [(Hin & j & -> & Hlt & Hj)|[Hin ->]].
  - rewrite decide_True by done. rewrite list_insert_id by done. apply R.
  - rewrite decide_False by done. pose proof (ll_n _ _ R). pose proof (ll_len _ _ R) as Hl.
    rewrite length_app. simpl. rewrite Nat.add_1_r, (take_S_r _ _ b).
    + rewrite take_insert_ge by lia. by rewrite (ll_take _ _ R).
    + apply list_lookup_insert_eq. unfold LOGSIZE, MAXOPBLOCKS in *. lia.
Qed.

(** ** The steps of a transaction *)

Definition a_update (b : Z) (d : list Z) (a : acache) : acache :=
  mkA (bput b d (alog a)) ({[b]} ∪ apin a) (aheld a) (adisk a) (awr a).

Lemma a_update_eq b d p a : aheld a !! b = None ->
  a_drop b (a_pin b (a_set b d (a_hold b p a))) = a_update b d a.
Proof.
  intros Hh. unfold a_drop, a_pin, a_set, a_hold, a_update. simpl. by rewrite delete_insert_id.
Qed.

Lemma logged_set b bs : (list_to_set (logged b bs) : gset Z) = {[b]} ∪ list_to_set bs.
Proof. unfold logged. destruct (decide (b ∈ bs)); set_solver. Qed.

Lemma elem_logged b c bs : c ∈ logged b bs <-> c = b \/ c ∈ bs.
Proof. unfold logged. destruct (decide (b ∈ bs)); set_solver. Qed.

Lemma length_logged b bs : length (logged b bs) = (length bs + if decide (b ∈ bs) then 0 else 1)%nat.
Proof. unfold logged. destruct (decide (b ∈ bs)); [lia|]. rewrite length_app. simpl. lia. Qed.

Lemma NoDup_logged b bs : NoDup bs -> NoDup (logged b bs).
Proof.
  intros Hn. unfold logged. destruct (decide (b ∈ bs)); [done|]. apply NoDup_app. split; [done|].
  split; [set_solver|apply NoDup_singleton].
Qed.

(** The fields of the log a write leaves alone. *)
Definition same_log (l l' : lst) : Prop :=
  lstart l' = lstart l /\ lsize l' = lsize l /\ outstanding l' = outstanding l /\
  committing l' = committing l.

Lemma wp_op_write me P l a bs m b f Q :
  msec ∅ m -> log_rep l a bs -> 1 <= outstanding l -> lhn l < LOGSIZE -> lhn l < lsize l - 1 ->
  home (lstart l) (lsize l) b (adisk a) -> (length (f (a_get b a)) = Z.to_nat BSIZE) ->
  (forall m' l', quiet ∅ m m' -> log_rep l' (a_update b (f (a_get b a)) a) (logged b bs) ->
     same_log l l' -> Q tt (m', l')) ->
  wp P (op_write me b f) (m, l) Q.
Proof.
  intros Hm R Ho Hn Hs [Hb Hho] Hf HQ. pose proof R as [].
  assert (length bs < NBUF)%nat as Hlt by (unfold LOGSIZE, MAXOPBLOCKS, NBUF in *; lia).
  pose proof (rep_room _ _ _ R Hlt) as Hroom. unfold room in Hroom.
  assert (aheld a !! b = None) as Hh by (rewrite r_free0; apply lookup_empty).
  assert (l = set_lbio (lbio l) l) as Hl by (by destruct l).
  unfold op_write. wp_next. unfold on_bio at 1. apply wp_part. simpl.
  apply (wp_bread _ _ a); [done|done|done|by rewrite Hh|intros _; lia|].
  intros i m1 st1 Hm1 _ HR1 Ho1 _. simpl. wp_next. unfold on_bio at 1. apply wp_part, wp_bset. simpl.
  assert (aheld (a_hold b me a) !! b = Some me) as Hme by (simpl; by rewrite lookup_insert_eq).
  destruct (cacheR_update me (a_hold b me a) st1 i b f) as [HR2 Hk2]; [done|done|done|exact Hf|].
  change (a_get b (a_hold b me a)) with (a_get b a) in HR2.
  wp_next. change (mkL _ _ _ _ _ _ _ _) with (set_lbio (upd_buf i (fun x => set_bdata (f (bdata x)) x) st1) l).
  apply (wp_log_write _ l bs _ _ _ b); [apply Hm1|by apply (rep_list l a)|by apply Hk2|done|done|done|].
  intros m3 Hm3.
  destruct (cacheR_pin _ _ i b HR2) as [HR3 Hk3]; [by apply Hk2|].
  set (st3 := upd_buf i _ (upd_buf i _ st1)) in *. unfold on_bio. apply wp_part. cbn [lbio set_lbio].
  apply (wp_brelse _ _ (a_pin b (a_set b (f (a_get b a)) (a_hold b me a))) _ _ i b);
    [apply Hm3|done|by apply Hk3, Hk2|done|left; simpl; set_solver|].
  intros m4 st4 Hm4 HR4 _. rewrite a_update_eq in HR4 by done.
  apply HQ; [do 2 (eapply quiet_trans; [done|]); done| |done].
  constructor; cbn; try done.
  - by rewrite logged_set, r_pin0.
  - by rewrite length_insert.
  - apply logged_take; [by apply (rep_list l a)|done].
  - by apply NoDup_logged.
  - intros c Hc. apply elem_logged in Hc as [->|Hc]; [done|by apply r_home0].
  - rewrite length_logged. destruct (decide _); lia.
Qed.

Lemma wp_begin_op P l m Q :
  msec ∅ m ->
  (committing l ≠ 0 \/ LOGSIZE < lhn l + (outstanding l + 1) * MAXOPBLOCKS -> P FBlocked) ->
  (forall m', quiet ∅ m m' -> committing l = 0 ->
     lhn l + (outstanding l + 1) * MAXOPBLOCKS <= LOGSIZE ->
     Q tt (m', set_outstanding (outstanding l + 1) l)) ->
  wp P begin_op (m, l) Q.
Proof.
  intros Hm Hb HQ. unfold begin_op. eapply wp_critical; [done|apply not_elem_of_empty|].
  wp_next. apply wp_gets. unfold id. destruct (committing l =? 0) eqn:E; cbn [negb].
  - destruct (_ >? LOGSIZE) eqn:E2; [apply Hb; lia|]. intros m' Hm'. apply HQ; [done|lia|lia].
  - apply Hb. lia.
Qed.

(** What a commit of the transaction [bs] writes, and what crashes leave. *)
Definition atomic_to (l : lst) (a : acache) (bs : list Z) (W : list (Z * list Z)) : Prop :=
  (forall b, home (lstart l) (lsize l) b (adisk a) ->
     blk (apply_writes W (adisk a)) b = committed a bs b) /\
  forall ws, ws `prefix_of` W ->
    let d := recovered (lstart l) (apply_writes ws (adisk a)) in
    (forall b, home (lstart l) (lsize l) b (adisk a) -> blk d b = blk (adisk a) b) \/
    (forall b, home (lstart l) (lsize l) b (adisk a) -> blk d b = committed a bs b).

Lemma pin_committed l a bs : list_to_set bs ∖ list_to_set (commit_writes l a bs).*1 =@{gset Z} ∅.
Proof.
  apply set_eq. intros b. rewrite elem_of_difference, !elem_of_list_to_set. split; [|set_solver].
  intros [Hb Hn]. destruct Hn. unfold commit_writes. rewrite !fmap_app, !elem_of_app. right; right; left.
  apply list_elem_of_fmap. exists (b, a_get b a). split; [done|]. apply list_elem_of_fmap. by exists b.
Qed.

(** The log after a commit: empty, on a disk with an empty header. *)
Lemma wp_commit_rep me P l a bs m Q :
  msec ∅ m -> log_rep l a bs -> (length bs < NBUF)%nat -> asize a <= 2147483648 ->
  (forall m' l' W, quiet ∅ m m' -> log_rep l' (a_writes W a) [] -> same_log l l' ->
     atomic_to l a bs W -> Q tt (m', l')) ->
  wp P (commit me) (m, l) Q.
Proof.
  intros Hm R Hlt Hsz HQ. pose proof R as []. assert (a_ok a) as Ha by apply r_cache0.
  destruct (decide (bs = [])) as [->|Hne].
  { unfold commit. wp_next. apply wp_data, wp_gets. cbn [snd]. rewrite r_n0. apply wp_ret.
    apply (HQ m l []); [by apply quiet_refl|done|done|]. split; [done|].
    intros ws Hp. rewrite (prefix_nil_inv _ Hp). left. intros b Hb. cbn.
    apply (blk_recovered_zero _ (lsize l)); [done|lia|done|done]. }
  pose proof (rep_geom _ _ _ R) as G. assert (l = set_lbio (lbio l) l) as Hl by (by destruct l).
  rewrite Hl at 1.
  apply (wp_commit _ _ a _ _ _ bs); [done|done|done| |by apply (rep_room l a bs)|done|].
  { intros b Hb. rewrite r_pin0. by apply elem_of_list_to_set. }
  intros m' st' Hq HR'. apply (HQ m' _ (commit_writes l a bs)); [done| |done|].
  - destruct (a_writes_fields (commit_writes l a bs) a) as (E1 & _ & _ & E4 & E5).
    constructor; cbn; try done.
    + by rewrite E4.
    + by rewrite E5, r_pin0, pin_committed.
    + apply NoDup_nil_2.
    + intros b Hb. by apply elem_of_nil in Hb.
    + lia.
    + by rewrite asize_writes.
    + rewrite E1. by apply commit_head.
  - split; [intros b Hb; by apply (crash_done l a bs)|]. intros ws Hp. by apply (crash_points l a bs).
Qed.

(** [end_op], of an operation that is not the last one, and of the last one. *)
Lemma wp_end_op me P l a bs m Q :
  msec ∅ m -> log_rep l a bs -> (length bs < NBUF)%nat -> asize a <= 2147483648 ->
  committing l = 0 ->
  (forall m' l', quiet ∅ m m' -> outstanding l ≠ 1 -> log_rep l' a bs ->
     l' = set_outstanding (outstanding l - 1) l -> Q tt (m', l')) ->
  (forall m' l' W, quiet ∅ m m' -> outstanding l = 1 -> log_rep l' (a_writes W a) [] ->
     outstanding l' = 0 -> committing l' = 0 -> lstart l' = lstart l -> lsize l' = lsize l ->
     atomic_to l a bs W -> Q tt (m', l')) ->
  wp P (end_op me) (m, l) Q.
Proof.
  intros Hm R Hlt Hsz Hc HQ1 HQ2. unfold end_op. wp_next.
  eapply wp_critical; [done|apply not_elem_of_empty|]. wp_next. apply wp_modify. wp_next. apply wp_gets.
  unfold id. cbn [committing set_outstanding outstanding]. rewrite Hc. cbn [Z.eqb negb].
  destruct (outstanding l - 1 =? 0) eqn:E.
  - wp_next. apply wp_modify, wp_ret. intros m1 Hm1. wp_next.
    set (l1 := set_committing 1 (set_outstanding (outstanding l - 1) l)).
    assert (log_rep l1 a bs) as R1 by (destruct R; by constructor).
    apply (wp_commit_rep _ _ l1 a bs); [apply Hm1|done|done|done|]. intros m2 l2 W Hm2 R2 (S1 & S2 & S3 & S4) HA.
    eapply wp_critical; [apply Hm2|apply not_elem_of_empty|]. apply wp_modify. intros m3 Hm3.
    apply (HQ2 m3 _ W); [do 2 (eapply quiet_trans; [done|]); done|lia|by destruct R2; constructor| |done|done|done|done].
    cbn. rewrite S3. simpl. lia.
  - apply wp_ret. intros m1 Hm1. apply wp_ret. apply HQ1; [done|lia|by destruct R; constructor|done].
Qed.

(** ** Running operations *)

(** Operations in progress are listed with the number of blocks they added to
    the log.  What [begin_op] reserves is enough if an operation adds at most
    MAXOPBLOCKS - 2 of them: [log_write] refuses any block, also one that is in
    the log already, once [lh.n] has reached [log.size - 1], and mkfs makes
    [log.size] LOGSIZE. *)
Definition op_max : nat := Z.to_nat MAXOPBLOCKS - 2.

Record tstate := mkT { t_mach : mach; t_log : lst; t_ops : list nat }.

Inductive label := LBegin | LWrite (b : Z) (f : list Z -> list Z) | LEnd.

Definition is_logged (b : Z) (l : lst) : Prop := b ∈ take (Z.to_nat (lhn l)) (lhblock l).

#[global] Instance is_logged_dec b l : Decision (is_logged b l).
Proof. unfold is_logged. apply _. Defined.

(** The block count of an operation that writes [b]. *)
Definition op_next (b : Z) (l : lst) (u : nat) : nat := if decide (is_logged b l) then u else S u.

Inductive tstep : label -> tstate -> tstate -> Prop :=
  | t_begin m l ops m' l' :
      begin_op (m, l) = Ok tt (m', l') ->
      tstep LBegin (mkT m l ops) (mkT m' l' (0%nat :: ops))
  | t_write me b f m l ops1 u ops2 m' l' :
      home (lstart l) (lsize l) b (disk (lbio l)) ->
      (forall d, length d = Z.to_nat BSIZE -> length (f d) = Z.to_nat BSIZE) ->
      (op_next b l u <= op_max)%nat ->
      op_write me b f (m, l) = Ok tt (m', l') ->
      tstep (LWrite b f) (mkT m l (ops1 ++ u :: ops2)) (mkT m' l' (ops1 ++ op_next b l u :: ops2))
  | t_end me m l ops1 u ops2 m' l' :
      end_op me (m, l) = Ok tt (m', l') ->
      tstep LEnd (mkT m l (ops1 ++ u :: ops2)) (mkT m' l' (ops1 ++ ops2)).

(** What is reserved for the operations in progress. *)
Definition reserved (ops : list nat) : nat := sum_list_with (fun u => Z.to_nat MAXOPBLOCKS - u)%nat ops.

Record tinv (s : tstate) (a : acache) (bs : list Z) : Prop := mkTinv {
  ti_mach : msec ∅ (t_mach s);
  ti_rep : log_rep (t_log s) a bs;
  ti_out : outstanding (t_log s) = Z.of_nat (length (t_ops s));
  ti_comm : committing (t_log s) = 0;
  ti_ops : Forall (fun u => u <= op_max)%nat (t_ops s);
  ti_room : (length bs + reserved (t_ops s) <= Z.to_nat LOGSIZE)%nat;
  ti_none : t_ops s = [] -> bs = [];
  ti_lsize : LOGSIZE <= lsize (t_log s);
  ti_asize : asize a <= 2147483648 }.

Lemma reserved_app ops1 u ops2 :
  reserved (ops1 ++ u :: ops2) = (Z.to_nat MAXOPBLOCKS - u + reserved (ops1 ++ ops2))%nat.
Proof. unfold reserved. rewrite !sum_list_with_app. simpl. lia. Qed.

Lemma reserved_bound ops : Forall (fun u => u <= op_max)%nat ops -> (length ops <= reserved ops)%nat.
Proof.
  unfold reserved, op_max, MAXOPBLOCKS. induction 1; simpl; lia.
Qed.

Lemma reserved_max ops : (reserved ops <= length ops * Z.to_nat MAXOPBLOCKS)%nat.
Proof. unfold reserved. induction ops; simpl; [lia|]. unfold MAXOPBLOCKS in *. lia. Qed.

Lemma rep_is_logged l a bs b : log_rep l a bs -> is_logged b l <-> b ∈ bs.
Proof. intros R. unfold is_logged. by rewrite (r_n _ _ _ R), Nat2Z.id, (r_take _ _ _ R). Qed.

(** With an operation in progress the log is not full. *)
Lemma tinv_lt s a bs ops1 u ops2 : tinv s a bs -> t_ops s = ops1 ++ u :: ops2 ->
  (S (length bs) < Z.to_nat LOGSIZE)%nat.
Proof.
  intros [] Hops. rewrite Hops in *. rewrite reserved_app in *. rewrite Forall_app, Forall_cons in *.
  unfold op_max, MAXOPBLOCKS in *. lia.
Qed.

(** ** The invariant, call by call *)

Lemma wp_tinv_begin P s a bs Q :
  tinv s a bs -> P FBlocked ->
  (forall m' l', tinv (mkT m' l' (0%nat :: t_ops s)) a bs -> lbio l' = lbio (t_log s) ->
     lstart l' = lstart (t_log s) -> lsize l' = lsize (t_log s) -> Q tt (m', l')) ->
  wp P begin_op (t_mach s, t_log s) Q.
Proof.
  intros [] HP HQ. apply wp_begin_op; [done|done|]. intros m1 Hm1 Hc Hb. apply HQ; [|done..].
  constructor; cbn [t_mach t_log t_ops fst snd]; try done;
    [apply Hm1|by destruct ti_rep0; constructor|cbn; lia|by constructor; [unfold op_max; lia|]|].
  rewrite (r_n _ _ _ ti_rep0) in Hb. pose proof (reserved_max (t_ops s)).
  pose proof (reserved_app [] 0 (t_ops s)) as Hr0. cbn [app] in Hr0. rewrite Hr0.
  unfold LOGSIZE, MAXOPBLOCKS in *. lia.
Qed.

Lemma wp_tinv_write P me b f s a bs ops1 u ops2 Q :
  tinv s a bs -> t_ops s = ops1 ++ u :: ops2 ->
  home (lstart (t_log s)) (lsize (t_log s)) b (adisk a) ->
  (forall d, length d = Z.to_nat BSIZE -> length (f d) = Z.to_nat BSIZE) ->
  (op_next b (t_log s) u <= op_max)%nat ->
  (forall m' l', let a' := a_update b (f (a_get b a)) a in
     tinv (mkT m' l' (ops1 ++ op_next b (t_log s) u :: ops2)) a' (logged b bs) ->
     lstart l' = lstart (t_log s) -> lsize l' = lsize (t_log s) -> Q tt (m', l')) ->
  wp P (op_write me b f) (t_mach s, t_log s) Q.
Proof.
  intros T Hops Hb Hf Hu HQ. pose proof (tinv_lt _ _ _ _ _ _ T Hops) as Hlt. pose proof T as [].
  assert (a_ok a) as Ha by apply ti_rep0. pose proof (r_n _ _ _ ti_rep0) as Hn.
  apply (wp_op_write _ _ _ a bs);
    [done|done| |lia|lia|done|apply Hf, a_get_length; [done|apply Hb]|].
  { rewrite ti_out0, Hops, length_app. simpl. lia. }
  intros m' l' Hm' R' (S1 & S2 & S3 & S4). apply HQ; [|done..].
  rewrite Hops in *. rewrite reserved_app, Forall_app, Forall_cons in *.
  pose proof (rep_is_logged _ _ _ b ti_rep0) as Hlog.
  assert (length (logged b bs) + u = length bs + op_next b (t_log s) u)%nat as Hle.
  { rewrite length_logged. unfold op_next. repeat destruct (decide _); try tauto; lia. }
  constructor; cbn [t_mach t_log t_ops]; try done.
  - apply Hm'.
  - rewrite S3, ti_out0, !length_app. done.
  - by rewrite S4.
  - rewrite Forall_app, Forall_cons. tauto.
  - rewrite reserved_app. unfold op_max in *. lia.
  - by destruct ops1.
  - by rewrite S2.
Qed.

Lemma wp_tinv_end P me s a bs ops1 u ops2 Q :
  tinv s a bs -> t_ops s = ops1 ++ u :: ops2 ->
  (forall m' l', ops1 ++ ops2 ≠ [] -> tinv (mkT m' l' (ops1 ++ ops2)) a bs ->
     lbio l' = lbio (t_log s) ->
     lstart l' = lstart (t_log s) -> lsize l' = lsize (t_log s) -> Q tt (m', l')) ->
  (forall m' l' W, ops1 ++ ops2 = [] -> tinv (mkT m' l' []) (a_writes W a) [] ->
     atomic_to (t_log s) a bs W ->
     lstart l' = lstart (t_log s) -> lsize l' = lsize (t_log s) -> Q tt (m', l')) ->
  wp P (end_op me) (t_mach s, t_log s) Q.
Proof.
  intros T Hops HQ1 HQ2. pose proof (tinv_lt _ _ _ _ _ _ T Hops) as Hlt. pose proof T as [].
  assert (outstanding (t_log s) = 1 + Z.of_nat (length (ops1 ++ ops2))) as Hout
    by (rewrite ti_out0, Hops, !length_app; simpl; lia).
  rewrite Hops in *. rewrite reserved_app, Forall_app, Forall_cons in *.
  apply (wp_end_op _ _ _ a bs); [done|done|unfold LOGSIZE, MAXOPBLOCKS, NBUF in *; lia|done|done| |].
  - intros m' l' Hm' Ho R' ->. assert (ops1 ++ ops2 ≠ []) as Hne.
    { intros H0. rewrite H0 in Hout. simpl in Hout. lia. }
    apply HQ1; [done| |done|done|done]. constructor; cbn [t_mach t_log t_ops]; try done.
    + apply Hm'.
    + cbn. lia.
    + rewrite Forall_app. tauto.
    + lia.
  - intros m' l' W Hm' Ho R' O' C' S1 S2 HA.
    assert (ops1 ++ ops2 = []) as H0 by (destruct (ops1 ++ ops2); [done|simpl length in Hout; lia]).
    apply (HQ2 m' l' W); [done| |done|done|done]. constructor; cbn [t_mach t_log t_ops]; try done.
    + apply Hm'.
    + unfold LOGSIZE. simpl. lia.
    + by rewrite S2.
    + by rewrite asize_writes.
Qed.

(** ** The specification: atomic transactions *)

(** What the log promises: a disk in memory that writes go to, and the disk
    that survives a crash, which takes over the former when the last operation
    in progress ends. *)
Record spec := mkSpec {
  s_mem : Z -> list Z;
  s_dsk : Z -> list Z;
  s_open : nat }.

Definition spec_do (lab : label) (σ : spec) : spec :=
  match lab with
  | LBegin => mkSpec (s_mem σ) (s_dsk σ) (S (s_open σ))
  | LWrite b f =>
      mkSpec (fun x => if decide (x = b) then f (s_mem σ b) else s_mem σ x) (s_dsk σ) (s_open σ)
  | LEnd => mkSpec (s_mem σ) (if decide (s_open σ = 1%nat) then s_mem σ else s_dsk σ) (s_open σ - 1)
  end.

(** The blocks outside of the log of a state. *)
Definition t_home (s : tstate) (b : Z) : Prop :=
  home (lstart (t_log s)) (lsize (t_log s)) b (disk (lbio (t_log s))).

(** The state [s] implements [σ]. *)
Definition implements (s : tstate) (σ : spec) : Prop :=
  exists a bs, tinv s a bs /\ s_open σ = length (t_ops s) /\
    forall b, t_home s b -> s_mem σ b = a_get b a /\ s_dsk σ b = blk (adisk a) b.

(** The crash states of the step from [s] to [s'] recover to one of two specs. *)
Definition crash_to (s s' : tstate) (σ σ' : spec) : Prop :=
  exists W, dwrites (lbio (t_log s')) = dwrites (lbio (t_log s)) ++ W /\
    disk (lbio (t_log s')) = apply_writes W (disk (lbio (t_log s))) /\
    forall ws, ws `prefix_of` W ->
      let d := recovered (lstart (t_log s)) (apply_writes ws (disk (lbio (t_log s)))) in
      (forall b, t_home s b -> blk d b = s_dsk σ b) \/ (forall b, t_home s b -> blk d b = s_dsk σ' b).

Lemma tinv_disk s a bs : tinv s a bs -> disk (lbio (t_log s)) = adisk a.
Proof. intros []. apply ti_rep0. Qed.

(** A step that writes nothing. *)
Lemma crash_none s s' σ σ' a bs :
  tinv s a bs -> (forall b, t_home s b -> s_dsk σ b = blk (adisk a) b) ->
  dwrites (lbio (t_log s')) = dwrites (lbio (t_log s)) ->
  disk (lbio (t_log s')) = disk (lbio (t_log s)) -> crash_to s s' σ σ'.
Proof.
  intros T Hd Hw Hk. exists []. rewrite app_nil_r. split_and!; [done|done|].
  intros ws Hp. rewrite (prefix_nil_inv _ Hp). left. intros b Hb. rewrite Hd by done.
  pose proof (tinv_disk _ _ _ T) as HD. destruct T as []. destruct ti_rep0. cbn.
  rewrite (blk_recovered_zero _ (lsize (t_log s))); [by rewrite HD|done|lia|by rewrite HD|done].
Qed.

(** Logical contents of blocks that are not pinned. *)
Lemma rep_committed l a bs b : log_rep l a bs -> 0 <= b < asize a -> committed a bs b = a_get b a.
Proof.
  intros R Hb. unfold committed. destruct (decide (b ∈ bs)) as [|Hn]; [done|].
  unfold a_get, blk. f_equal. symmetry. destruct R as []. apply (a_clean _ (R_ok _ _ r_cache0)); [lia| |].
  - rewrite r_pin0. by rewrite elem_of_list_to_set.
  - rewrite r_free0. apply lookup_empty.
Qed.

Lemma a_get_update b d a c : 0 <= b < Z.of_nat (length (alog a)) -> 0 <= c ->
  a_get c (a_update b d a) = if decide (c = b) then d else a_get c a.
Proof. intros Hb Hc. by apply blk_bput. Qed.

(** One step of the code as one of the specification, with what a crash in it
    leaves. *)
Definition simulates (lab : label) (s s' : tstate) (σ : spec) : Prop :=
  implements s' (spec_do lab σ) /\ crash_to s s' σ (spec_do lab σ).

Lemma implements_disk s σ a b : (forall b, t_home s b -> s_mem σ b = a_get b a /\ s_dsk σ b = blk (adisk a) b) ->
  t_home s b -> s_dsk σ b = blk (adisk a) b.
Proof. intros H Hb. by apply H. Qed.

Lemma sim_begin m l ops m' l' σ :
  implements (mkT m l ops) σ -> begin_op (m, l) = Ok tt (m', l') ->
  simulates LBegin (mkT m l ops) (mkT m' l' (0%nat :: ops)) σ.
Proof.
  set (s := mkT m l ops). intros (a & bs & T & Ho & Hv) Hr.
  refine (wp_elim any_failure begin_op (m, l) tt (m', l')
    (fun _ x => simulates LBegin s (mkT x.1 x.2 (0%nat :: ops)) σ) _ Hr).
  apply (wp_tinv_begin _ s a bs); [done|done|]. intros m1 l1 T1 HB S1 S2. split.
  - exists a, bs. split; [done|]. split; [cbn; by rewrite Ho|]. intros c Hc. apply Hv.
    unfold t_home in *. cbn in *. by rewrite <- S1, <- S2, <- HB.
  - apply (crash_none _ _ _ _ a bs); [done|intros c Hc; by apply Hv|cbn; by rewrite HB..].
Qed.

Lemma sim_write me b f m l ops1 u ops2 m' l' σ :
  let s := mkT m l (ops1 ++ u :: ops2) in
  implements s σ -> t_home s b ->
  (forall d, length d = Z.to_nat BSIZE -> length (f d) = Z.to_nat BSIZE) ->
  (op_next b l u <= op_max)%nat -> op_write me b f (m, l) = Ok tt (m', l') ->
  simulates (LWrite b f) s (mkT m' l' (ops1 ++ op_next b l u :: ops2)) σ.
Proof.
  intros s (a & bs & T & Ho & Hv) Hb Hf Hu Hr. pose proof (tinv_disk _ _ _ T) as HD.
  set (ops' := ops1 ++ op_next b l u :: ops2).
  refine (wp_elim any_failure (op_write me b f) (m, l) tt (m', l')
    (fun _ x => simulates (LWrite b f) s (mkT x.1 x.2 ops') σ) _ Hr).
  assert (home (lstart l) (lsize l) b (adisk a)) as Hb' by (rewrite <- HD; exact Hb).
  apply (wp_tinv_write _ _ _ _ s a bs ops1 u ops2); [done|done|done|done|done|].
  cbv zeta. intros m1 l1 T1 S1 S2. pose proof (tinv_disk _ _ _ T1) as HD1.
  pose proof (r_cache _ _ _ (ti_rep _ _ _ T)) as C. pose proof (r_cache _ _ _ (ti_rep _ _ _ T1)) as C1.
  split.
  - eexists _, _. split; [exact T1|]. split.
    { cbn. rewrite Ho. cbn. unfold ops'. by rewrite !length_app. }
    intros c Hc. assert (t_home s c) as Hc'.
    { unfold t_home, s in *. cbn in *. rewrite HD1 in Hc. by rewrite HD, <- S1, <- S2. }
    rewrite a_get_update; [|rewrite (a_len _ (R_ok _ _ C)); apply Hb'|apply Hc']. cbn.
    destruct (decide (c = b)) as [->|]; [|by apply Hv]. split; [|by apply Hv]. f_equal. by apply Hv.
  - apply (crash_none _ _ _ _ a bs); [done|intros c Hc; by apply Hv|cbn|].
    + exact (eq_trans (R_wr _ _ C1) (eq_sym (R_wr _ _ C))).
    + exact (eq_trans HD1 (eq_sym HD)).
Qed.

(** The end of the last operation in progress: the commit. *)
Lemma sim_commit m l m1 l1 u a bs W σ :
  let s := mkT m l [u] in
  tinv s a bs -> s_open σ = 1%nat ->
  (forall b, t_home s b -> s_mem σ b = a_get b a /\ s_dsk σ b = blk (adisk a) b) ->
  tinv (mkT m1 l1 []) (a_writes W a) [] -> atomic_to l a bs W ->
  lstart l1 = lstart l -> lsize l1 = lsize l -> simulates LEnd s (mkT m1 l1 []) σ.
Proof.
  intros s T Ho Hv T1 [HA1 HA2] S1 S2.
  pose proof (tinv_disk _ _ _ T) as HD. pose proof (tinv_disk _ _ _ T1) as HD1.
  pose proof (r_cache _ _ _ (ti_rep _ _ _ T)) as C. pose proof (r_cache _ _ _ (ti_rep _ _ _ T1)) as C1.
  destruct (a_writes_fields W a) as (E1 & _ & E3 & _). rewrite E1 in HD1.
  assert (forall c, t_home s c -> home (lstart l) (lsize l) c (adisk a)) as Hh
    by (intros c Hc; rewrite <- HD; exact Hc).
  assert (forall c, t_home s c -> s_mem σ c = committed a bs c) as Hmem.
  { intros c Hc. rewrite (rep_committed l a bs); [by apply Hv|apply T|apply (Hh c Hc)]. }
  split.
  - eexists _, _. split; [exact T1|]. split; [cbn; by rewrite Ho|]. cbn.
    rewrite decide_True by done. intros c Hc.
    assert (t_home s c) as Hc'.
    { unfold t_home in *. cbn in Hc |- *. rewrite <- S1, <- S2.
      eapply home_length; [|exact Hc]. cbn in HD1. by rewrite HD1, <- HD, length_apply_writes. }
    rewrite (Hmem c Hc'), E1, HA1 by (by apply Hh). split; [|done].
    rewrite <- (rep_committed l1 (a_writes W a) []); [|apply T1|rewrite asize_writes; apply (Hh c Hc')].
    unfold committed at 2. rewrite decide_False by (apply not_elem_of_nil). rewrite E1.
    by rewrite HA1 by (by apply Hh).
  - exists W. rewrite (R_wr _ _ C), (R_wr _ _ C1), HD, HD1, E3.
    split_and!; [done|done|]. intros ws Hp. cbn. rewrite decide_True by done.
    destruct (HA2 ws Hp) as [H|H]; [left|right]; intros c Hc; cbn in H; rewrite H by (by apply Hh).
    + symmetry. by apply Hv.
    + symmetry. by apply Hmem.
Qed.

Lemma sim_end me m l ops1 u ops2 m' l' σ :
  let s := mkT m l (ops1 ++ u :: ops2) in
  implements s σ -> end_op me (m, l) = Ok tt (m', l') ->
  simulates LEnd s (mkT m' l' (ops1 ++ ops2)) σ.
Proof.
  intros s (a & bs & T & Ho & Hv) Hr.
  refine (wp_elim any_failure (end_op me) (m, l) tt (m', l')
    (fun _ x => simulates LEnd s (mkT x.1 x.2 (ops1 ++ ops2)) σ) _ Hr).
  assert (s_open σ = S (length (ops1 ++ ops2))) as Ho'
    by (rewrite Ho; cbn; rewrite !length_app; simpl; lia).
  apply (wp_tinv_end _ _ s a bs ops1 u ops2); [done|done| |].
  - intros m1 l1 Hne T1 HB S1 S2. assert (s_open σ ≠ 1%nat) as Hn1
      by (rewrite Ho'; destruct (ops1 ++ ops2); [done|simpl; lia]).
    split.
    + exists a, bs. split; [done|]. split; [cbn; rewrite Ho'; lia|]. cbn. rewrite decide_False by done.
      intros c Hc. apply Hv. unfold t_home in *. cbn in *. by rewrite <- S1, <- S2, <- HB.
    + apply (crash_none _ _ _ _ a bs); [done|intros c Hc; by apply Hv|cbn; by rewrite HB..].
  - intros m1 l1 W H0 T1 HA S1 S2. rewrite H0 in *. apply app_eq_nil in H0 as [-> ->].
    by apply (sim_commit _ _ _ _ _ a bs W).
Qed.

(** Runs. *)
Inductive trun : list label -> tstate -> tstate -> Prop :=
  | trun_nil s : trun [] s s
  | trun_snoc tr lab s s' s'' : trun tr s s' -> tstep lab s' s'' -> trun (tr ++ [lab]) s s''.

(** The log after [initlog]: nothing in it, nothing in progress. *)
Definition log_started (s : tstate) : Prop := t_ops s = [] /\ exists a, tinv s a [].

Definition spec_of (s : tstate) : spec :=
  let d := blk (disk (lbio (t_log s))) in mkSpec d d 0.

Definition spec_run (tr : list label) (σ : spec) : spec := foldl (fun σ lab => spec_do lab σ) σ tr.

Lemma started_implements s : log_started s -> implements s (spec_of s).
Proof.
  intros [Ho [a T]]. exists a, []. split; [done|]. split; [by rewrite Ho|]. intros b Hb.
  pose proof (tinv_disk _ _ _ T) as HD. unfold spec_of. cbn. rewrite HD. split; [|done].
  rewrite <- (rep_committed (t_log s) a []); [|apply T|].
  - unfold committed. by rewrite decide_False by (apply not_elem_of_nil).
  - unfold t_home in Hb. rewrite HD in Hb. apply Hb.
Qed.

Lemma step_simulates lab s s' σ : implements s σ -> tstep lab s s' -> simulates lab s s' σ.
Proof.
  intros HI Hst. destruct Hst; [by apply sim_begin|by eapply sim_write|by eapply sim_end].
Qed.

Lemma run_implements tr s s' : log_started s -> trun tr s s' -> implements s' (spec_run tr (spec_of s)).
Proof.
  intros Hs Hr. induction Hr as [s|tr lab s s' s'' Hr IH Hst]; [by apply started_implements|].
  unfold spec_run. rewrite foldl_snoc. exact (proj1 (step_simulates lab s' s'' _ (IH Hs) Hst)).
Qed.

(** C4. The log refines atomic transactions: after any run of file system
    operations the logical disk (what [bread] returns) and the disk are those of
    the specification, which moves all writes to the disk at once when the last
    operation in progress ends. *)
Theorem log_refines_spec tr s s' :
  log_started s -> trun tr s s' ->
  let σ := spec_run tr (spec_of s) in
  exists a bs, cacheR a (lbio (t_log s')) /\ apin a = list_to_set bs /\
    s_open σ = length (t_ops s') /\
    (forall b, t_home s' b -> a_get b a = s_mem σ b /\ blk (disk (lbio (t_log s'))) b = s_dsk σ b) /\
    (t_ops s' = [] -> bs = []).
Proof.
  intros Hs Hr σ. destruct (run_implements _ _ _ Hs Hr) as (a & bs & T & Ho & Hv).
  exists a, bs. split_and!; [apply T|apply T|done| |apply T]. intros b Hb.
  rewrite (tinv_disk _ _ _ T). destruct (Hv b Hb). done.
Qed.

(** C3. Crash safety of whole runs: a crash in the middle of any step leaves a disk
    that recovers to the specification's disk before or after that step. *)
Theorem log_crash_safe tr lab s s' s'' :
  log_started s -> trun tr s s' -> tstep lab s' s'' ->
  let σ := spec_run tr (spec_of s) in
  exists W, dwrites (lbio (t_log s'')) = dwrites (lbio (t_log s')) ++ W /\
    forall ws, ws `prefix_of` W ->
      let d := recovered (lstart (t_log s')) (apply_writes ws (disk (lbio (t_log s')))) in
      (forall b, t_home s' b -> blk d b = s_dsk σ b) \/
      (forall b, t_home s' b -> blk d b = s_dsk (spec_do lab σ) b).
Proof.
  intros Hs Hr Hst σ. pose proof (run_implements _ _ _ Hs Hr) as HI.
  destruct (step_simulates _ _ _ _ HI Hst) as [_ (W & HW & _ & Hc)]. by exists W.
Qed.

(** The reservation of [begin_op] is enough: no operation that adds at most
    [op_max] blocks to the log ever panics, in [log_write] or in the commit, and
    only [begin_op] can make it wait. *)
Theorem log_no_panic tr s s' me b f ops1 u ops2 :
  log_started s -> trun tr s s' -> t_ops s' = ops1 ++ u :: ops2 ->
  (forall e, begin_op (t_mach s', t_log s') ≠ Panic e) /\
  (exists x, end_op me (t_mach s', t_log s') = Ok tt x) /\
  (t_home s' b -> (forall d, length d = Z.to_nat BSIZE -> length (f d) = Z.to_nat BSIZE) ->
   (op_next b (t_log s') u <= op_max)%nat ->
   exists x, op_write me b f (t_mach s', t_log s') = Ok tt x).
Proof.
  intros Hs Hr Hops. destruct (run_implements _ _ _ Hs Hr) as (a & bs & T & _). split_and!.
  - intros e He. assert (wp (fun f => f = FBlocked) begin_op (t_mach s', t_log s') (fun _ _ => True)) as Hw
      by (by eapply wp_tinv_begin). unfold wp in Hw. by rewrite He in Hw.
  - destruct (wp_total (end_op me) (t_mach s', t_log s') (fun _ _ => True)) as ([] & x & Hx & _);
      [by eapply wp_tinv_end|by exists x].
  - intros Hb Hf Hu. destruct (wp_total (op_write me b f) (t_mach s', t_log s') (fun _ _ => True))
      as ([] & x & Hx & _); [|by exists x].
    eapply (wp_tinv_write _ _ _ _ s' a bs ops1 u ops2); try done.
    rewrite <- (tinv_disk _ _ _ T). exact Hb.
Qed.
