(* ===== verification/ULib.v ===== *)
(** * The user library: ulib.c and printf.c

    A C string argument is the list of its characters before the NUL; a buffer
    that is written is a list of bytes updated by index.  [memmove] and
    [memset] work on the byte map [mem] of CString.v because their arguments
    may overlap.  What is printed is the list of characters passed to
    [write]. *)

From stdpp Require Import base numbers sets list.
From S2P Require Import Prelude CString.
Open Scope Z_scope.

Module ULib.

(** ** ulib.c *)

Fixpoint strcpy_loop (s : list Z) (i : nat) (t : list Z) : list Z :=
  match t with
  | [] => <[i := 0]> s
  | c :: t => strcpy_loop (<[i := c]> s) (S i) t
  end.

Definition strcpy (s t : list Z) : list Z := strcpy_loop s 0 t.

(** [while( *p && *p == *q) p++, q++; return (uchar)*p - (uchar)*q;] *)
Fixpoint strcmp (p q : list Z) : Z :=
  match p, q with
  | c :: p', d :: q' => if c =? d then strcmp p' q' else u8 c - u8 d
  | c :: _, [] => u8 c - 0
  | [], d :: _ => 0 - u8 d
  | [], [] => 0
  end.

Fixpoint strlen_loop (s : list Z) (n : Z) : Z :=
  match s with [] => n | _ :: s => strlen_loop s (n + 1) end.

Definition strlen (s : list Z) : Z := strlen_loop s 0.

Definition memset (m : mem) (dst c n : Z) : mem := KString.stosb m dst c (Z.to_nat n).

(** The offset of the first [c], if there is one before the NUL. *)
Fixpoint strchr (s : list Z) (c : Z) : option nat :=
  match s with
  | [] => None
  | x :: s => if x =? c then Some 0%nat else S <$> strchr s c
  end.

(** [gets(buf, max)] with the input [inp] still to be read: what is put in
    [buf] before the NUL, and the input left.  [n] is [max - 1 - i]. *)
Fixpoint gets_loop (n : nat) (inp : list Z) : list Z * list Z :=
  match n, inp with
  | O, _ => ([], inp)
  | S _, [] => ([], [])
  | S n, c :: inp =>
      if (c =? 10) || (c =? 13) then ([c], inp)
      else let r := gets_loop n inp in (c :: r.1, r.2)
  end.

Definition gets (max : Z) (inp : list Z) : list Z * list Z := gets_loop (Z.to_nat (max - 1)) inp.

(** [while('0' <= *s && *s <= '9') n = n*10 + *s++ - '0';] *)
Fixpoint atoi_loop (n : Z) (s : list Z) : Z :=
  match s with
  | c :: s => if (48 <=? c) && (c <=? 57) then atoi_loop (i32 (n * 10 + c - 48)) s else n
  | [] => n
  end.

Definition atoi (s : list Z) : Z := atoi_loop 0 s.

(** [while(n-- > 0) *dst++ = *src++;]: always upwards. *)
Definition memmove (m : mem) (dst src n : Z) : mem := KString.copy_up m dst src (Z.to_nat n).

(** ** printf.c *)

(** [digits[d]]: 0-9, then A-F. *)
Definition digit (d : Z) : Z := if d <? 10 then 48 + d else 55 + d.

(** [do{ buf[i++] = digits[x % base]; }while((x /= base) != 0);], the least
    digit first.  A uint has at most 32 digits. *)
Fixpoint printint_loop (fuel : nat) (x base : Z) : list Z :=
  match fuel with
  | O => []
  | S fuel =>
      digit (x mod base) :: (if x / base =? 0 then [] else printint_loop fuel (x / base) base)
  end.

Definition printint (xx base sgn : Z) : list Z :=
  let neg := negb (sgn =? 0) && (xx <? 0) in
  let x := if neg then u32 (- xx) else u32 xx in
  let buf := printint_loop 32 x base ++ (if neg then [45] else []) in
  reverse buf.

(** [printf(fd, fmt, ...)]: [ap] are the words of the arguments, [str] gives
    the string at a (non-null) address.  [pct] is [state == '%']. *)
Definition null_str : list Z := [40; 110; 117; 108; 108; 41].

Fixpoint printf_loop (str : Z -> list Z) (pct : bool) (fmt : list Z) (ap : list Z) : list Z :=
  match fmt with
  | [] => []
  | c :: fmt =>
      if negb pct then
        if c =? 37 then printf_loop str true fmt ap else c :: printf_loop str false fmt ap
      else
        let a := default 0 (head ap) in
        if c =? 100 then printint (i32 a) 10 1 ++ printf_loop str false fmt (tail ap)
        else if (c =? 120) || (c =? 112) then printint (i32 a) 16 0 ++ printf_loop str false fmt (tail ap)
        else if c =? 115 then
          (if a =? 0 then null_str else str a) ++ printf_loop str false fmt (tail ap)
        else if c =? 99 then u8 a :: printf_loop str false fmt (tail ap)
        else if c =? 37 then c :: printf_loop str false fmt ap
        else 37 :: c :: printf_loop str false fmt ap
  end.

Definition printf (str : Z -> list Z) (fmt : list Z) (ap : list Z) : list Z :=
  printf_loop str false fmt ap.

(** ** Theorems *)

(** Bytes of a string: not NUL. *)
Definition chars (s : list Z) : Prop := Forall (fun c => 0 < c < 256) s.

Lemma strcmp_zero_iff p q : chars p -> chars q -> strcmp p q = 0 <-> p = q.
Proof.
  intros Hp. revert q. induction Hp as [|c p Hc Hp IH]; intros q Hq; destruct Hq as [|d q Hd Hq]; simpl.
  - done.
  - rewrite u8_small by lia. split; [lia|done].
  - rewrite u8_small by lia. split; [lia|done].
  - destruct (c =? d) eqn:E.
    + apply Z.eqb_eq in E as ->. rewrite IH by done. split; [by intros ->|by intros [=]].
    + rewrite !u8_small by lia. split; [lia|]. intros [= -> ->]. by rewrite Z.eqb_refl in E.
Qed.

Lemma strlen_loop_length s n : strlen_loop s n = n + Z.of_nat (length s).
Proof. revert n. induction s as [|c s IH]; intros n; simpl; [lia|]. rewrite IH. lia. Qed.

Lemma strcpy_loop_spec s i t : (i + length t < length s)%nat ->
  strcpy_loop s i t = take i s ++ t ++ [0] ++ drop (S (i + length t)) s.
Proof.
  revert s i. induction t as [|c t IH]; intros s i Hl; simpl in *.
  - rewrite Nat.add_0_r in *. by rewrite insert_take_drop by lia.
  - rewrite IH by (rewrite length_insert; lia).
    rewrite (take_S_r _ _ c) by (rewrite list_lookup_insert_eq; [done|lia]).
    rewrite take_insert_ge by lia. rewrite drop_insert_lt by lia. rewrite <- app_assoc. simpl.
    by rewrite Nat.add_succ_r.
Qed.

(** [strcpy] puts the string and its NUL at the start of the buffer, and leaves
    the rest, when it fits. *)
Lemma strcpy_spec s t : (length t < length s)%nat ->
  strcpy s t = t ++ [0] ++ drop (S (length t)) s.
Proof. intros. unfold strcpy. by rewrite strcpy_loop_spec. Qed.

Lemma strchr_spec s c :
  match strchr s c with
  | Some i => s !! i = Some c /\ c ∉ take i s
  | None => c ∉ s
  end.
Proof.
  induction s as [|x s IH]; simpl; [set_solver|]. destruct (x =? c) eqn:E.
  - apply Z.eqb_eq in E as ->. split; [done|set_solver].
  - apply Z.eqb_neq in E. destruct (strchr s c) as [i|]; simpl; set_solver.
Qed.

(** ** Numbers *)

(** The value of digits, least one first. *)
Fixpoint value (base : Z) (ds : list Z) : Z :=
  match ds with
  | [] => 0
  | d :: ds => (if d <? 58 then d - 48 else d - 55) + base * value base ds
  end.

Lemma digit_value d : 0 <= d < 16 -> (if digit d <? 58 then digit d - 48 else digit d - 55) = d.
Proof.
  intros Hd. unfold digit. destruct (d <? 10) eqn:E.
  - replace (48 + d <? 58) with true by lia. lia.
  - replace (55 + d <? 58) with false by lia. lia.
Qed.

Lemma printint_loop_value fuel x base :
  2 <= base <= 16 -> 0 <= x < 2 ^ Z.of_nat fuel -> (0 < fuel)%nat ->
  value base (printint_loop fuel x base) = x.
Proof.
  intros Hb. revert x. induction fuel as [|fuel IH]; intros x Hx Hf; [lia|]. simpl printint_loop.
  pose proof (Z.div_mod x base ltac:(lia)). pose proof (Z.mod_pos_bound x base ltac:(lia)).
  cbn [value]. rewrite digit_value by lia. destruct (x / base =? 0) eqn:E; cbn [value]; [lia|].
  rewrite Nat2Z.inj_succ, Z.pow_succ_r in Hx by lia.
  assert (0 <= x / base < 2 ^ Z.of_nat fuel).
  { split; [apply Z.div_pos; lia|]. apply Z.div_lt_upper_bound; [lia|]. nia. }
  destruct fuel; [simpl in *; lia|]. rewrite IH by lia. lia.
Qed.

Lemma printint_loop_digits fuel x base : 2 <= base <= 10 -> 0 <= x ->
  Forall (fun d => 48 <= d <= 57) (printint_loop fuel x base).
Proof.
  intros Hb. revert x. induction fuel as [|fuel IH]; intros x Hx; simpl; [done|].
  pose proof (Z.mod_pos_bound x base ltac:(lia)). constructor.
  - unfold digit. replace (x mod base <? 10) with true by lia. lia.
  - destruct (_ =? 0); [done|]. apply IH. apply Z.div_pos; lia.
Qed.

Lemma value_snoc base ds d : value base (ds ++ [d]) =
  value base ds + base ^ Z.of_nat (length ds) * (if d <? 58 then d - 48 else d - 55).
Proof.
  induction ds as [|x ds IH]; [simpl; lia|]. cbn [app value length]. rewrite IH.
  rewrite Nat2Z.inj_succ, Z.pow_succ_r by lia. lia.
Qed.

Lemma value_bound ds : Forall (fun d => 48 <= d <= 57) ds -> 0 <= value 10 ds.
Proof.
  induction 1 as [|d ds Hd _ IH]; simpl; [done|]. replace (d <? 58) with true by lia. lia.
Qed.

(** [atoi] of digits is their value, as long as it fits an [int]. *)
Lemma atoi_digits n ds :
  Forall (fun d => 48 <= d <= 57) ds -> 0 <= n ->
  n * 10 ^ Z.of_nat (length ds) + value 10 (reverse ds) < 2147483648 ->
  atoi_loop n ds = n * 10 ^ Z.of_nat (length ds) + value 10 (reverse ds).
Proof.
  intros Hds. revert n. induction Hds as [|d ds Hd Hds IH]; intros n Hn Hb; [simpl in *; lia|].
  rewrite reverse_cons, value_snoc in *. rewrite length_reverse in *. cbn [length] in *.
  rewrite Nat2Z.inj_succ, Z.pow_succ_r in * by lia. replace (d <? 58) with true in * by lia.
  pose proof (value_bound (reverse ds) ltac:(by rewrite reverse_Permutation)).
  pose proof (Z.pow_pos_nonneg 10 (Z.of_nat (length ds)) ltac:(lia) ltac:(lia)).
  simpl. replace ((48 <=? d) && (d <=? 57)) with true by lia.
  rewrite i32_small by nia. rewrite IH by nia. nia.
Qed.

(** Printing an integer and reading it back: for every [int] that is not
    negative, [atoi] of what [printint] prints in base 10 is the integer; a
    negative one is printed as a minus sign before its absolute value. *)
Theorem printint_atoi n :
  0 <= n < 2147483648 ->
  atoi (printint n 10 1) = n /\
  (0 < n -> printint (- n) 10 1 = 45 :: printint n 10 1).
Proof.
  intros Hn. unfold atoi, printint. change (negb (1 =? 0)) with true. cbn [andb].
  replace (n <? 0) with false by lia. rewrite u32_small by lia. rewrite app_nil_r.
  pose proof (printint_loop_value 32 n 10 ltac:(lia) ltac:(simpl; lia) ltac:(lia)) as Hv.
  pose proof (printint_loop_digits 32 n 10 ltac:(lia) ltac:(lia)) as Hd. split.
  - rewrite atoi_digits; rewrite ?reverse_involutive; [lia|by rewrite reverse_Permutation|lia|lia].
  - intros H0. replace (- n <? 0) with true by lia. rewrite Z.opp_involutive, u32_small by lia.
    by rewrite reverse_app.
Qed.

(** A format without a percent sign is printed as it is. *)
Lemma printf_plain str fmt rest ap : 37 ∉ fmt ->
  printf str (fmt ++ rest) ap = fmt ++ printf str rest ap.
Proof.
  unfold printf. induction fmt as [|c fmt IH]; intros Hn; [done|]. simpl.
  apply not_elem_of_cons in Hn as [Hc Hn]. replace (c =? 37) with false by lia. by rewrite IH.
Qed.

(** One conversion after another, in the order of the arguments. *)
Inductive piece := PText (s : list Z) | PDec (n : Z) | PHex (n : Z) | PStr (a : Z) | PChar (c : Z) | PPct.

(** Their format, arguments and output. *)
Definition piece_fmt (p : piece) : list Z :=
  match p with
  | PText s => s | PDec _ => [37; 100] | PHex _ => [37; 120] | PStr _ => [37; 115]
  | PChar _ => [37; 99] | PPct => [37; 37]
  end.

Definition piece_arg (p : piece) : list Z :=
  match p with
  | PText _ | PPct => [] | PDec n | PHex n => [u32 n] | PStr a => [a] | PChar c => [c]
  end.

Definition piece_out (str : Z -> list Z) (p : piece) : list Z :=
  match p with
  | PText s => s | PDec n => printint n 10 1 | PHex n => printint n 16 0
  | PStr a => if a =? 0 then null_str else str a | PChar c => [u8 c] | PPct => [37]
  end.

Definition piece_ok (p : piece) : Prop :=
  match p with
  | PText s => 37 ∉ s | PDec n | PHex n => -2147483648 <= n < 2147483648 | _ => True
  end.

Lemma i32_u32 n : -2147483648 <= n < 2147483648 -> i32 (u32 n) = n.
Proof.
  intros Hn. unfold i32, u32. rewrite Zplus_mod_idemp_l, Z.mod_small; lia.
Qed.

(** [printf] prints its format piece by piece: text as it is, each conversion
    replaced by its argument, in order, whatever the arguments. *)
Theorem printf_pieces str ps :
  Forall piece_ok ps ->
  printf str (concat (piece_fmt <$> ps)) (concat (piece_arg <$> ps)) = concat (piece_out str <$> ps).
Proof.
  intros Hps. induction Hps as [|p ps Hp _ IH]; [done|]. cbn [fmap list_fmap concat].
  destruct p as [s|n|n|a|c|]; cbn [piece_fmt piece_arg piece_out].
  - rewrite printf_plain by done. by rewrite <- IH.
  - rewrite <- IH. unfold printf. cbn. by rewrite i32_u32.
  - rewrite <- IH. unfold printf. cbn. by rewrite i32_u32.
  - rewrite <- IH. done.
  - rewrite <- IH. done.
  - rewrite <- IH. done.
Qed.

End ULib.
