(* ===== verification/Grep.v ===== *)
(** * Text tools: grep.c and wc.c

    The regular expression matcher of grep (Kernighan and Pike's), the line
    buffering around it, and the counting loop of wc.  Strings are lists of
    characters up to the NUL; the input is the sequence of what the calls of
    [read] return. *)

From stdpp Require Import base numbers sets list.
From S2P Require Import Prelude CString ULib.
Open Scope Z_scope.

Module Grep.

(** Characters of patterns. *)
Definition CARET : Z := 94.
Definition DOT : Z := 46.
Definition STAR : Z := 42.
Definition DOLLAR : Z := 36.
Definition NL : Z := 10.

(** [matchstar(c, re, text)], [mh] being [matchhere(re, .)]. *)
Definition matchstar (mh : list Z -> bool) (c : Z) : list Z -> bool :=
  fix star (text : list Z) : bool :=
    if mh text then true
    else match text with
         | [] => false
         | t :: text => if (t =? c) || (c =? DOT) then star text else false
         end.

(** The last two tests of [matchhere(c :: re, text)]. *)
Definition matchchar (mh : list Z -> bool) (c : Z) (last : bool) (text : list Z) : bool :=
  if (c =? DOLLAR) && last then match text with [] => true | _ => false end
  else match text with
       | t :: text => if (c =? DOT) || (c =? t) then mh text else false
       | [] => false
       end.

Fixpoint matchhere (re : list Z) (text : list Z) : bool :=
  match re with
  | [] => true
  | c :: re1 =>
      match re1 with
      | s :: re2 =>
          if s =? STAR then matchstar (matchhere re2) c text
          else matchchar (matchhere re1) c false text
      | [] => matchchar (matchhere re1) c true text
      end
  end.

(** [do{ if(matchhere(re, text)) return 1; }while( *text++ != 0);] *)
Fixpoint match_loop (re : list Z) (text : list Z) : bool :=
  if matchhere re text then true
  else match text with [] => false | _ :: text => match_loop re text end.

Definition matches (re text : list Z) : bool :=
  match re with
  | c :: re' => if c =? CARET then matchhere re' text else match_loop re text
  | [] => match_loop re text
  end.

(** The loop over the lines in [buf], from [p] on: what is written, and the
    text from the last [p].  At each round [p] moves past a newline; [strchr]
    sees the text up to a NUL. *)
Fixpoint grep_lines (fuel : nat) (pattern p : list Z) : list (list Z) * list Z :=
  match fuel with
  | O => ([], p)
  | S fuel =>
      match ULib.strchr (KString.cstr p) NL with
      | None => ([], p)
      | Some q =>
          let line := take q p in
          let r := grep_lines fuel pattern (drop (S q) p) in
          (if matches pattern line then (line ++ [NL]) :: r.1 else r.1, r.2)
      end
  end.

(** One round of the outer loop: [old] is in the buffer (m bytes), [chunk] is
    what [read] returned.  When no line ended, everything is dropped. *)
Definition grep_round (pattern old chunk : list Z) : list (list Z) * list Z :=
  let buf := old ++ chunk in
  let r := grep_lines (S (length buf)) pattern buf in
  (r.1, if decide (length r.2 = length buf) then [] else r.2).

Fixpoint grep_rounds (pattern old : list Z) (chunks : list (list Z)) : list (list Z) :=
  match chunks with
  | [] => []
  | chunk :: chunks =>
      let r := grep_round pattern old chunk in r.1 ++ grep_rounds pattern r.2 chunks
  end.

(** [grep(pattern, fd)] with the results of the calls of [read] up to the end
    of the file. *)
Definition grep (pattern : list Z) (chunks : list (list Z)) : list (list Z) :=
  grep_rounds pattern [] chunks.

(** ** What a pattern means *)

(** [c] stands for the character [t]. *)
Definition stands (c t : Z) : Prop := c = DOT \/ c = t.

(** [sem re text]: the pattern matches at the start of the text. *)
Inductive sem : list Z -> list Z -> Prop :=
  | sem_nil text : sem [] text
  | sem_star c re pre text :
      Forall (stands c) pre -> sem re text -> sem (c :: STAR :: re) (pre ++ text)
  | sem_end : sem [DOLLAR] []
  | sem_char c re t text :
      head re ≠ Some STAR -> ~ (c = DOLLAR /\ re = []) -> stands c t -> sem re text ->
      sem (c :: re) (t :: text).

Lemma stands_star c t : (t =? c) || (c =? DOT) = true <-> stands c t.
Proof. unfold stands. rewrite orb_true_iff, !Z.eqb_eq. intuition. Qed.

Lemma stands_char c t : (c =? DOT) || (c =? t) = true <-> stands c t.
Proof. unfold stands. rewrite orb_true_iff, !Z.eqb_eq. intuition. Qed.

Lemma matchstar_cons mh c t text : matchstar mh c (t :: text) =
  if mh (t :: text) then true else if (t =? c) || (c =? DOT) then matchstar mh c text else false.
Proof. done. Qed.

Lemma matchstar_spec mh c text :
  matchstar mh c text = true <-> exists pre rest, text = pre ++ rest /\ Forall (stands c) pre /\ mh rest = true.
Proof.
  split.
  - induction text as [|t text IH].
    + simpl. destruct (mh []) eqn:E; [|done]. intros _. by exists [], [].
    + rewrite matchstar_cons. destruct (mh (t :: text)) eqn:E; [intros _; by exists [], (t :: text)|].
      destruct (_ || _) eqn:Es; [|done]. intros H. destruct (IH H) as (pre & rest & -> & Hp & Hr).
      exists (t :: pre), rest. split; [done|]. split; [|done]. constructor; [by apply stands_star|done].
  - intros (pre & rest & -> & Hp & Hr). induction Hp as [|t pre Ht Hp IH].
    + destruct rest; simpl; by rewrite Hr.
    + cbn [app]. rewrite matchstar_cons. apply stands_star in Ht. rewrite Ht, IH.
      by destruct (mh (t :: pre ++ rest)).
Qed.

Lemma matchchar_spec mh c last text :
  matchchar mh c last text = true <->
  (c = DOLLAR /\ last = true /\ text = []) \/
  (~ (c = DOLLAR /\ last = true) /\ exists t rest, text = t :: rest /\ stands c t /\ mh rest = true).
Proof.
  unfold matchchar. destruct ((c =? DOLLAR) && last) eqn:E.
  - apply andb_true_iff in E as [E ->]. apply Z.eqb_eq in E. destruct text; naive_solver.
  - apply andb_false_iff in E. assert (~ (c = DOLLAR /\ last = true)) as Hn.
    { intros [-> ->]. destruct E as [E|E]; [by rewrite Z.eqb_refl in E|done]. }
    destruct text as [|t text]; [naive_solver|]. destruct (_ || _) eqn:Es.
    + apply stands_char in Es. naive_solver.
    + split; [done|]. intros [?|(_ & t' & rest & [= <- <-] & Hs & _)]; [naive_solver|].
      apply stands_char in Hs. congruence.
Qed.

(** The matcher decides the meaning of patterns. *)
Lemma matchhere_sem re text : matchhere re text = true <-> sem re text.
Proof.
  revert text. assert (forall n re, (length re <= n)%nat -> forall text,
    matchhere re text = true <-> sem re text) as H; [|by intros; apply (H (length re))].
  clear. induction n as [|n IH]; intros re Hl text.
  { destruct re; [|simpl in Hl; lia]. split; [intros; constructor|done]. }
  destruct re as [|c re]; [split; [intros; constructor|done]|]. simpl in Hl.
  destruct re as [|s re2]; simpl matchhere.
  - rewrite matchchar_spec. split.
    + intros [(-> & _ & ->)|(Hn & t & rest & -> & Hs & _)]; [constructor|].
      constructor; [done|naive_solver|done|constructor].
    + intros Hs. inversion Hs as [|c' re pre text' Hp Hs'| |c' re t text' Hh Hn Hst Hs']; subst.
      * left. done.
      * right. split; [naive_solver|]. by exists t, text'.
  - destruct (s =? STAR) eqn:E.
    + apply Z.eqb_eq in E as ->. rewrite matchstar_spec. split.
      * intros (pre & rest & -> & Hp & Hr). constructor; [done|]. apply IH; [simpl in Hl; lia|done].
      * intros Hs. inversion Hs as [|c' re pre text' Hp Hs'| |c' re t text' Hh Hn Hst Hs']; subst; [|done].
        exists pre, text'. split; [done|]. split; [done|]. apply IH; [simpl in Hl; lia|done].
    + apply Z.eqb_neq in E. rewrite matchchar_spec. split.
      * intros [(_ & ? & _)|(Hn & t & rest & -> & Hs & Hm)]; [done|].
        constructor; [by intros [=]|by intros [_ ?]|done|]. apply (IH (s :: re2)); [simpl in *; lia|done].
      * intros Hs. inversion Hs as [|c' re pre text' Hp Hs'| |c' re t text' Hh Hn Hst Hs']; subst; [done|].
        right. split; [by intros [_ ?]|]. exists t, text'. split_and!; [done|done|].
        apply (IH (s :: re2)); [simpl in *; lia|done].
Qed.

Lemma match_loop_spec re text :
  match_loop re text = true <-> exists pre rest, text = pre ++ rest /\ sem re rest.
Proof.
  split.
  - induction text as [|t text IH]; simpl; destruct (matchhere re _) eqn:E.
    + intros _. exists [], []. split; [done|by apply matchhere_sem].
    + done.
    + intros _. exists [], (t :: text). split; [done|by apply matchhere_sem].
    + intros H. destruct (IH H) as (pre & rest & -> & Hs). by exists (t :: pre), rest.
  - intros (pre & rest & -> & Hs). apply matchhere_sem in Hs. induction pre as [|t pre IH]; simpl.
    + destruct rest; simpl; by rewrite Hs.
    + destruct (matchhere re (t :: pre ++ rest)); [done|exact IH].
Qed.

(** C36. grep's matcher agrees with the meaning of its patterns: a pattern that
    starts with a caret must match at the start of the text, any other one
    somewhere in it. *)
Theorem match_correct re text :
  matches re text = true <->
  match re with
  | c :: re' => if c =? CARET then sem re' text
                else exists pre rest, text = pre ++ rest /\ sem re rest
  | [] => True
  end.
Proof.
  unfold matches. destruct re as [|c re].
  - rewrite match_loop_spec. split; [done|]. intros _. exists [], text. split; [done|constructor].
  - destruct (c =? CARET); [apply matchhere_sem|apply match_loop_spec].
Qed.

(** ** Lines *)

(** The complete lines of a text, and what follows the last newline. *)
Fixpoint lines (p : list Z) : list (list Z) * list Z :=
  match p with
  | [] => ([], [])
  | c :: p =>
      let r := lines p in
      if c =? NL then ([] :: r.1, r.2)
      else match r.1 with
           | [] => ([], c :: r.2)
           | l :: ls => ((c :: l) :: ls, r.2)
           end
  end.

(** The lines to be printed. *)
Definition selected (pattern : list Z) (ls : list (list Z)) : list (list Z) :=
  (fun l => l ++ [NL]) <$> filter (fun l => matches pattern l = true) ls.

Lemma lines_no_nl p : NL ∉ p -> lines p = ([], p).
Proof.
  induction p as [|c p IH]; [done|]. intros Hn. apply not_elem_of_cons in Hn as [Hc Hn]. simpl.
  replace (c =? NL) with false by lia. by rewrite IH.
Qed.

Lemma lines_line l p : NL ∉ l -> lines (l ++ NL :: p) = (l :: (lines p).1, (lines p).2).
Proof.
  induction l as [|c l IH]; [done|]. intros Hn. apply not_elem_of_cons in Hn as [Hc Hn]. simpl.
  replace (c =? NL) with false by lia. by rewrite IH.
Qed.

Lemma lines_rest p : NL ∉ (lines p).2.
Proof.
  induction p as [|c p IH]; simpl; [set_solver|]. destruct (c =? NL) eqn:E; [done|].
  destruct (lines p).1 as [|l ls]; simpl; [|done].
  intros [Hx|Hx]%elem_of_cons; [|done]. rewrite <- Hx in E. done.
Qed.

Lemma lines_app p q :
  lines (p ++ q) = ((lines p).1 ++ (lines ((lines p).2 ++ q)).1, (lines ((lines p).2 ++ q)).2).
Proof.
  induction p as [|c p IH]; simpl; [by destruct (lines q)|]. rewrite IH.
  destruct (c =? NL) eqn:E; [done|].
  destruct (lines p) as [[|l ls] tl] eqn:El; simpl; [|done]. rewrite E.
  by destruct (lines (tl ++ q)) as [[|??] ?].
Qed.

Lemma lines_shorter p : NL ∈ p -> (length (lines p).2 < length p)%nat.
Proof.
  induction p as [|c p IH]; intros Hin; [by apply elem_of_nil in Hin|]. simpl.
  assert (length (lines p).2 <= length p)%nat as Hle.
  { clear. induction p as [|c p IH]; simpl; [lia|]. destruct (c =? NL); simpl; [lia|].
    destruct (lines p).1; simpl; lia. }
  destruct (c =? NL) eqn:E; simpl; [lia|].
  apply elem_of_cons in Hin as [<-|Hin]; [by rewrite Z.eqb_refl in E|]. specialize (IH Hin).
  destruct (lines p).1; simpl; lia.
Qed.

Lemma cstr_id p : 0 ∉ p -> KString.cstr p = p.
Proof.
  induction p as [|c p IH]; [done|]. intros Hn. apply not_elem_of_cons in Hn as [Hc Hn]. simpl.
  repeat case_decide; try lia. by rewrite IH.
Qed.

Lemma grep_lines_spec fuel pattern p : 0 ∉ p -> (length p < fuel)%nat ->
  grep_lines fuel pattern p = (selected pattern (lines p).1, (lines p).2).
Proof.
  revert p. induction fuel as [|fuel IH]; intros p H0 Hf; [lia|]. simpl. rewrite cstr_id by done.
  pose proof (ULib.strchr_spec p NL) as Hs. destruct (ULib.strchr p NL) as [q|].
  - destruct Hs as [Hq Hn]. pose proof (take_drop_middle _ _ _ Hq) as Hp.
    rewrite IH; [|intros Hin; apply H0; rewrite <- Hp; set_solver|
      rewrite length_drop; pose proof (lookup_lt_Some _ _ _ Hq); lia].
    assert (lines p = (take q p :: (lines (drop (S q) p)).1, (lines (drop (S q) p)).2)) as ->
      by (rewrite <- Hp at 1; by apply lines_line).
    cbn [fst snd]. unfold selected.
    rewrite filter_cons. destruct (matches pattern (take q p)); by repeat case_decide.
  - by rewrite lines_no_nl.
Qed.

Lemma grep_rounds_spec pattern chunks old :
  NL ∉ old -> 0 ∉ old ++ concat chunks -> Forall (fun ch => NL ∈ ch) chunks ->
  grep_rounds pattern old chunks = selected pattern (lines (old ++ concat chunks)).1.
Proof.
  revert old. induction chunks as [|ch chunks IH]; intros old Hold H0 Hnl;
    cbn [grep_rounds concat] in *.
  { by rewrite app_nil_r, lines_no_nl. }
  apply Forall_cons in Hnl as [Hch Hnl]. unfold grep_round.
  rewrite grep_lines_spec by (set_solver || lia). cbn [fst snd].
  assert (NL ∈ old ++ ch) as Hin by set_solver. pose proof (lines_shorter _ Hin) as Hlt.
  rewrite decide_False by lia. rewrite app_assoc, (lines_app (old ++ ch)). cbn [fst].
  assert (forall x, x ∈ (lines (old ++ ch)).2 -> x ∈ old ++ ch) as Hsub.
  { clear. generalize (old ++ ch) as p. induction p as [|c p IH]; intros x; simpl; [set_solver|].
    destruct (c =? NL); simpl; [set_solver|]. destruct (lines p).1; simpl; set_solver. }
  rewrite IH; [|apply lines_rest| |done].
  - unfold selected. by rewrite filter_app, fmap_app.
  - intros Hx. apply H0. apply elem_of_app in Hx as [Hx|Hx]; [apply Hsub in Hx|]; set_solver.
Qed.

(** grep prints exactly the complete lines of its input that match, in order,
    however the input is cut by the calls of [read], provided each piece has a
    newline in it. *)
Theorem grep_correct pattern chunks :
  0 ∉ concat chunks -> Forall (fun ch => NL ∈ ch) chunks ->
  grep pattern chunks = selected pattern (lines (concat chunks)).1.
Proof. intros. apply (grep_rounds_spec pattern chunks []); [set_solver|done|done]. Qed.

(** Without that it loses text: a piece that does not complete a line is
    dropped when nothing was left over from before, so that grep ab does not
    find the line "ab" when it arrives as "a" and "b". *)
Theorem grep_drops_pieces :
  grep [97; 98] [[97]; [98; NL]] = [] /\
  selected [97; 98] (lines (concat [[97]; [98; NL]])).1 = [[97; 98; NL]].
Proof. split; reflexivity. Qed.

End Grep.

Module Wc.

(** The counters of wc: lines, words, characters, and whether the last
    character was inside a word. *)
Record counts := mkC { c_l : Z; c_w : Z; c_c : Z; inword : bool }.

(** [strchr(" \r\t\n\v", buf[i])] is not null: one of the five blanks.
    The terminating NUL is not searched for. *)
Definition blank (c : Z) : bool :=
  match ULib.strchr [32; 13; 9; 10; 11] c with Some _ => true | None => false end.

Definition wc_char (k : counts) (ch : Z) : counts :=
  let l := if ch =? 10 then i32 (c_l k + 1) else c_l k in
  let c := i32 (c_c k + 1) in
  if blank ch then mkC l (c_w k) c false
  else if inword k then mkC l (c_w k) c true
  else mkC l (i32 (c_w k + 1)) c true.

Definition wc_chunk (k : counts) (chunk : list Z) : counts := foldl wc_char k chunk.

(** [wc(fd, name)] on what the calls of [read] return. *)
Definition wc (chunks : list (list Z)) : counts := foldl wc_chunk (mkC 0 0 0 false) chunks.

(** A word starts at a character that is not blank after a blank one, or at
    the start of the text. *)
Fixpoint words (prev : bool) (s : list Z) : Z :=
  match s with
  | [] => 0
  | c :: s => (if negb (blank c) && prev then 1 else 0) + words (blank c) s
  end.

Lemma words_bound prev s : 0 <= words prev s <= Z.of_nat (length s).
Proof.
  revert prev. induction s as [|c s IH]; intros prev; cbn [words length]; [lia|].
  specialize (IH (blank c)). destruct (negb (blank c) && prev); lia.
Qed.

Definition newlines (s : list Z) : Z := Z.of_nat (length (filter (fun c => c = 10) s)).

Lemma newlines_cons c s : newlines (c :: s) = (if c =? 10 then 1 else 0) + newlines s.
Proof.
  unfold newlines. rewrite filter_cons. destruct (c =? 10) eqn:E; case_decide; simpl; lia.
Qed.

Lemma wc_chunk_spec s k :
  0 <= c_l k -> 0 <= c_w k -> 0 <= c_c k -> c_l k <= c_c k -> c_w k <= c_c k ->
  c_c k + Z.of_nat (length s) < 2147483648 ->
  let r := wc_chunk k s in
  c_l r = c_l k + newlines s /\ c_w r = c_w k + words (negb (inword k)) s /\
  c_c r = c_c k + Z.of_nat (length s).
Proof.
  revert k. induction s as [|c s IH]; intros k Hl Hw Hc Hlc Hwc Hb; cbn zeta.
  { cbn. unfold newlines. cbn. lia. }
  change (wc_chunk k (c :: s)) with (wc_chunk (wc_char k c) s).
  rewrite newlines_cons. cbn [length words] in *. unfold wc_char.
  assert (i32 (c_l k + 1) = c_l k + 1) as E1 by (apply i32_small; lia).
  assert (i32 (c_c k + 1) = c_c k + 1) as E2 by (apply i32_small; lia).
  assert (i32 (c_w k + 1) = c_w k + 1) as E3 by (apply i32_small; lia).
  rewrite E1, E2, E3.
  destruct (blank c) eqn:Eb, (inword k) eqn:Ei, (c =? 10) eqn:En;
    (match goal with |- context [wc_chunk ?k' s] =>
       destruct (IH k') as (-> & -> & ->); cbn; lia end).
Qed.

(** wc counts: as long as the counts fit an [int], it returns the numbers of
    newlines, words and characters of the whole input, however it is cut. *)
Theorem wc_correct chunks :
  let s := concat chunks in
  Z.of_nat (length s) < 2147483648 ->
  c_l (wc chunks) = newlines s /\ c_w (wc chunks) = words true s /\
  c_c (wc chunks) = Z.of_nat (length s).
Proof.
  intros s Hs. assert (wc chunks = wc_chunk (mkC 0 0 0 false) s) as ->.
  { unfold wc, s. generalize (mkC 0 0 0 false) as k. clear.
    induction chunks as [|ch chunks IH]; intros k; [done|]. simpl. rewrite IH.
    unfold wc_chunk. by rewrite foldl_app. }
  by apply (wc_chunk_spec s (mkC 0 0 0 false)).
Qed.

End Wc.
