(* ===== verification/Umalloc.v ===== *)
(** * The memory allocator of user programs: umalloc.c

    A block is a header, [ptr] and [size] in units of 8 bytes, and what follows it.
    The state has the two fields of the headers by their addresses, [freep], the
    break of the process, and what [sbrk] will say: it fails when its next outcome
    says so or when the process would get as large as KERNBASE, and otherwise moves
    the break.  [base] is the address of the static header.

    The free blocks are a circular list sorted by address; [heap_ok] is the
    invariant, and [malloc] and [free] keep it, with the blocks in use disjoint
    from each other and from the free ones. *)

From stdpp Require Import base numbers list strings relations.
From S2P Require Import Prelude CString.
Import KString (store_eq, store_ne).
Open Scope Z_scope.

Module Umalloc.

Definition KERNBASE : Z := 2147483648.

(** [sizeof(Header)] *)
Definition HSIZE : Z := 8.

Record heap := mkHeap {
  hptr : Z -> Z;
  hsize : Z -> Z;
  freep : Z;
  brk : Z;
  outcomes : list bool }.

(** [p->s.ptr = v], [p->s.size = v], [freep = v] *)
Definition set_ptr (p v : Z) : M heap unit :=
  modify (fun h => mkHeap (store (hptr h) p v) (hsize h) (freep h) (brk h) (outcomes h)).
Definition set_size (p v : Z) : M heap unit :=
  modify (fun h => mkHeap (hptr h) (store (hsize h) p v) (freep h) (brk h) (outcomes h)).
Definition set_freep (v : Z) : M heap unit :=
  modify (fun h => mkHeap (hptr h) (hsize h) v (brk h) (outcomes h)).

Definition ptr_of (p : Z) : M heap Z := gets (fun h => hptr h p).
Definition size_of (p : Z) : M heap Z := gets (fun h => hsize h p).

(** [p + n] for a [Header*] *)
Definition plus (p n : Z) : Z := u32 (p + HSIZE * n).

(** How many turns the loops can take at most: the list has a block for every 8
    bytes at most. *)
Definition turns (h : heap) : nat := Z.to_nat (2 * (brk h / HSIZE) + 4).

(** The loop of [free]. *)
Fixpoint free_walk (n : nat) (bp p : Z) : M heap Z :=
  match n with
  | O => blocked
  | S n =>
      q ← ptr_of p;
      if (bp >? p) && (bp <? q) then mret p else
      if (p >=? q) && ((bp >? p) || (bp <? q)) then mret p else
      free_walk n bp q
  end.

Definition free (ap : Z) : M heap unit :=
  let bp := u32 (ap - HSIZE) in
  n ← gets turns;
  p ← gets freep;
  p ← free_walk n bp p;
  q ← ptr_of p;
  bs ← size_of bp;
  (if plus bp bs =? q then
     qs ← size_of q;
     set_size bp (u32 (bs + qs));;
     qq ← ptr_of q;
     set_ptr bp qq
   else set_ptr bp q);;
  ps ← size_of p;
  (if plus p ps =? bp then
     bs ← size_of bp;
     set_size p (u32 (ps + bs));;
     bq ← ptr_of bp;
     set_ptr p bq
   else set_ptr p bp);;
  set_freep p.

(** [sbrk(n)]: the old break, or -1. *)
Definition sbrk (n : Z) : M heap Z := fun h =>
  let '(ok, l) := match outcomes h with [] => (true, []) | b :: l => (b, l) end in
  if ok && (brk h + n <? KERNBASE)
  then Ok (brk h) (mkHeap (hptr h) (hsize h) (freep h) (brk h + n) l)
  else Ok (-1) (mkHeap (hptr h) (hsize h) (freep h) (brk h) l).

Definition morecore (nu : Z) : M heap Z :=
  let nu := if nu <? 4096 then 4096 else nu in
  p ← sbrk (i32 (u32 (nu * HSIZE)));
  if p =? -1 then mret 0 else
  set_size p nu;;
  free (plus p 1);;
  gets freep.

Fixpoint malloc_loop (n : nat) (nunits prevp p : Z) : M heap Z :=
  match n with
  | O => blocked
  | S n =>
      s ← size_of p;
      if s >=? nunits then
        p ← (if s =? nunits then
               q ← ptr_of p;
               set_ptr prevp q;;
               mret p
             else
               set_size p (u32 (s - nunits));;
               let p := plus p (u32 (s - nunits)) in
               set_size p nunits;;
               mret p);
        set_freep prevp;;
        mret (plus p 1)
      else
        f ← gets freep;
        if p =? f then
          p ← morecore nunits;
          if p =? 0 then mret 0 else
          q ← ptr_of p;
          malloc_loop n nunits p q
        else
          q ← ptr_of p;
          malloc_loop n nunits p q
  end.

Definition units (nbytes : Z) : Z := u32 (u32 (u32 (nbytes + HSIZE) - 1) / HSIZE + 1).

(** Two rounds over the list, the second after [morecore] (which makes it longer
    by one block at most). *)
Definition malloc (base nbytes : Z) : M heap Z :=
  let nunits := units nbytes in
  f ← gets freep;
  when (f =? 0) (set_ptr base base;; set_freep base;; set_size base 0);;
  prevp ← gets freep;
  p ← ptr_of prevp;
  n ← gets turns;
  malloc_loop (n + n) nunits prevp p.

End Umalloc.

(** ** The allocator keeps its blocks apart *)

Import Umalloc KString.

(** A block: its address and its size in units. *)
Notation block := (Z * Z)%type.

Definition fin (b : block) : Z := b.1 + HSIZE * b.2.

Definition apart (a b : block) : Prop := fin a <= b.1 \/ fin b <= a.1.

Fixpoint pairwise (l : list block) : Prop :=
  match l with [] => True | b :: l => Forall (apart b) l /\ pairwise l end.

(** The free blocks after [lo], sorted, no two of them adjacent. *)
Fixpoint gaps (lo : Z) (l : list block) : Prop :=
  match l with [] => True | b :: l => lo < b.1 /\ gaps (fin b) l end.

Definition first (base : Z) (l : list block) : Z := match l with b :: _ => b.1 | [] => base end.

(** The headers of the blocks, each linked to the next one, the last to [stop]. *)
Fixpoint chain (h : heap) (stop : Z) (l : list block) : Prop :=
  match l with
  | [] => True
  | b :: l => hsize h b.1 = b.2 /\ hptr h b.1 = first stop l /\ chain h stop l
  end.

(** [F] are the free blocks besides [base], [A] the blocks in use. *)
Record heap_ok (base : Z) (F A : list block) (h : heap) : Prop := mkOk {
  ok_base : 0 < base;
  ok_chain : chain h base ((base, 0) :: F);
  ok_gaps : gaps base F;
  ok_apart : pairwise (F ++ A);
  ok_range : Forall (fun b => base + HSIZE <= b.1 /\ 1 <= b.2 /\ fin b <= brk h) (F ++ A);
  ok_brk : base + HSIZE <= brk h < KERNBASE;
  ok_used : Forall (fun b => hsize h b.1 = b.2) A;
  ok_freep : freep h ∈ ((base, 0) :: F).*1 }.

(** ** Lists of blocks *)

Lemma apart_sym a b : apart a b -> apart b a.
Proof. unfold apart. tauto. Qed.

Lemma pairwise_perm l l' : l ≡ₚ l' -> pairwise l -> pairwise l'.
Proof.
  induction 1 as [|b l l' HP IH|a b l|l1 l2 l3 H1 IH1 H2 IH2]; simpl; [done| | |auto].
  - intros [H1 H2]. split; [by rewrite <- HP|auto].
  - intros [H1 [H2 H3]]. apply Forall_cons in H1 as [H1 H4]. split; [constructor; [by apply apart_sym|done]|done].
Qed.

#[export] Instance pairwise_proper : Proper ((≡ₚ) ==> iff) pairwise.
Proof. intros l l' H. split; apply pairwise_perm; [done|by symmetry]. Qed.

Lemma chain_app h stop l1 l2 : chain h stop (l1 ++ l2) <-> chain h (first stop l2) l1 /\ chain h stop l2.
Proof.
  induction l1 as [|b l1 IH]; simpl; [tauto|]. rewrite IH.
  assert (first stop (l1 ++ l2) = first (first stop l2) l1) as -> by by destruct l1. tauto.
Qed.

Lemma chain_same h h' stop l :
  (forall b, b ∈ l -> hptr h' b.1 = hptr h b.1 /\ hsize h' b.1 = hsize h b.1) -> chain h stop l -> chain h' stop l.
Proof.
  induction l as [|b l IH]; simpl; intros He; [done|]. destruct (He b) as [-> ->]; [by left|]. intros (? & ? & ?).
  split; [done|]. split; [done|]. apply IH; [|done]. intros b' Hb. apply He. by right.
Qed.

Lemma gaps_app lo l1 l2 : gaps lo (l1 ++ l2) <-> gaps lo l1 /\ gaps (default lo (fin <$> last l1)) l2.
Proof.
  revert lo. induction l1 as [|b l1 IH]; intros lo; simpl; [tauto|]. rewrite IH, last_cons. destruct (last l1); simpl; tauto.
Qed.

(** A list is sorted: everything after a block is behind it. *)
Lemma gaps_behind lo l b : gaps lo l -> Forall (fun b => 0 <= b.2) l -> b ∈ l -> lo < b.1.
Proof.
  intros H HF. revert lo H. induction HF as [|c l Hc HF IH]; intros lo H Hb; [by apply elem_of_nil in Hb|].
  destruct H as [H1 H2]. apply elem_of_cons in Hb as [->|Hb]; [done|]. specialize (IH _ H2 Hb). unfold fin, HSIZE in *. lia.
Qed.

Lemma gaps_weaken lo lo' l : gaps lo l -> lo' <= lo -> gaps lo' l.
Proof. destruct l; simpl; [done|]. intros [? ?] ?. split; [lia|done]. Qed.

Lemma pairwise_app l1 l2 : pairwise (l1 ++ l2) <-> pairwise l1 /\ pairwise l2 /\ Forall (fun a => Forall (apart a) l2) l1.
Proof.
  induction l1 as [|b l1 IH]; simpl; [split; [intros; split_and!; [done|done|constructor]|tauto]|].
  rewrite IH, Forall_app, Forall_cons. tauto.
Qed.

(** Where a new block goes: after the last one before it. *)
Lemma split_at (lo : block) (l : list block) x : lo.1 < x ->
  exists l1 a l2, lo :: l = l1 ++ a :: l2 /\ a.1 < x /\ (forall b, head l2 = Some b -> x <= b.1).
Proof.
  revert lo. induction l as [|b l IH]; intros lo Hlo.
  - exists [], lo, []. done.
  - destruct (decide (b.1 < x)) as [Hb|Hb].
    + destruct (IH b Hb) as (l1 & a & l2 & E & H1 & H2). exists (lo :: l1), a, l2. simpl. by rewrite E.
    + exists [], lo, (b :: l). split; [done|]. split; [done|]. intros c [= <-]. lia.
Qed.

Lemma chain_lookup h stop l k b : chain h stop l -> l !! k = Some b ->
  hsize h b.1 = b.2 /\ hptr h b.1 = first stop (drop (S k) l).
Proof.
  revert k. induction l as [|c l IH]; intros k; [done|]. intros (H1 & H2 & H3). destruct k as [|k]; simpl; [|by apply IH].
  intros [= <-]. by rewrite drop_0.
Qed.

Lemma gaps_sorted lo l i j a b : gaps lo l -> Forall (fun b => 0 <= b.2) l -> l !! i = Some a -> l !! j = Some b ->
  (i < j)%nat -> fin a < b.1.
Proof.
  intros Hg HF Hi Hj Hij. rewrite <- (take_drop_middle l i a Hi) in Hg. apply gaps_app in Hg as [_ [_ Hg]].
  apply (gaps_behind _ _ _ Hg); [by apply Forall_drop|]. apply list_elem_of_lookup. exists (j - S i)%nat.
  rewrite lookup_drop. by replace (S i + (j - S i))%nat with j by lia.
Qed.

Lemma ok_sorted base F A h i j a b : heap_ok base F A h ->
  ((base, 0) :: F) !! i = Some a -> ((base, 0) :: F) !! j = Some b -> (i < j)%nat -> fin a < b.1.
Proof.
  intros [] Hi Hj Hij. apply (gaps_sorted (base - 1) ((base, 0) :: F) i j); [|constructor; [done|]|done|done|done].
  - split; [simpl; lia|]. unfold fin. simpl. by replace (base + HSIZE * 0) with base by lia.
  - apply Forall_app in ok_range0 as [H _]. apply (Forall_impl _ _ _ H). intros c (_ & H2 & _). lia.
Qed.

Lemma ok_size base F A h i a : heap_ok base F A h -> ((base, 0) :: F) !! i = Some a -> 0 <= a.2.
Proof.
  intros [] Hi. destruct i as [|i]; [by injection Hi as <-|]. apply Forall_app in ok_range0 as [H _].
  rewrite Forall_lookup in H. apply H in Hi. lia.
Qed.

Lemma ok_lt base F A h i j a b : heap_ok base F A h ->
  ((base, 0) :: F) !! i = Some a -> ((base, 0) :: F) !! j = Some b -> (i <= j)%nat -> a.1 <= b.1 /\ (i ≠ j -> a.1 < b.1).
Proof.
  intros HO Hi Hj Hij. destruct (decide (i = j)) as [->|Hne].
  - rewrite Hi in Hj. injection Hj as ->. split; [lia|done].
  - pose proof (ok_sorted _ _ _ _ i j a b HO Hi Hj ltac:(lia)). pose proof (ok_size _ _ _ _ i a HO Hi).
    unfold fin, HSIZE in *. lia.
Qed.

(** The list has no more blocks than [turns] allows for. *)
Lemma gaps_length lo l hi : gaps lo l -> Forall (fun b => 1 <= b.2 /\ fin b <= hi) l -> lo <= hi ->
  8 * Z.of_nat (length l) <= hi - lo.
Proof.
  revert lo. induction l as [|b l IH]; intros lo Hg HF Hh; [simpl; lia|]. destruct Hg as [H1 H2].
  apply Forall_cons in HF as [[H3 H4] HF]. specialize (IH _ H2 HF H4). unfold fin, HSIZE in *. cbn [length]. lia.
Qed.

Lemma turns_enough base F A h : heap_ok base F A h -> (2 * length F + 4 <= turns h)%nat.
Proof.
  intros []. unfold turns. assert (8 * Z.of_nat (length F) <= brk h - base).
  { apply gaps_length; [done| |unfold HSIZE in *; lia]. apply Forall_app in ok_range0 as [H _]. apply (Forall_impl _ _ _ H). tauto. }
  assert (Z.of_nat (length F) <= brk h / HSIZE) by (apply Z.div_le_lower_bound; unfold HSIZE in *; lia). lia.
Qed.

(** ** The walk of [free] *)

Section walk.
Context (P : failure -> Prop) (base : Z) (F A : list block) (h : heap) (HO : heap_ok base F A h).
Notation L := ((base, 0) :: F).

(** The steps from the block number [k] to the block number [j]. *)
Definition dist (k j : nat) : nat := if decide (k <= j)%nat then j - k else length L - k + j.

Lemma next_block k b : L !! k = Some b ->
  (exists c, L !! S k = Some c /\ hptr h b.1 = c.1 /\ b.1 < c.1) \/ (length L = S k /\ hptr h b.1 = base /\ base <= b.1).
Proof.
  intros Hk. destruct (chain_lookup _ _ _ _ _ (ok_chain _ _ _ _ HO) Hk) as [Hs Hp].
  destruct (L !! S k) as [c|] eqn:Hc.
  - left. exists c. split; [done|]. rewrite (drop_S _ _ _ Hc) in Hp. split; [done|].
    by apply (ok_lt _ _ _ _ k (S k) b c HO Hk Hc); lia.
  - right. apply lookup_ge_None in Hc. rewrite drop_ge in Hp by done. pose proof (lookup_lt_Some _ _ _ Hk).
    split; [lia|]. split; [done|]. apply (ok_lt _ _ _ _ 0 k (base, 0) b HO eq_refl Hk). lia.
Qed.

Lemma wp_free_walk j a bp n k b Q :
  L !! j = Some a -> a.1 < bp -> (forall c, L !! S j = Some c -> bp < c.1) -> L !! k = Some b -> (dist k j < n)%nat ->
  Q a.1 h -> wp P (free_walk n bp b.1) h Q.
Proof.
  intros Hj Ha Hnext. revert k b. induction n as [|n IH]; intros k b Hk Hn HQ; [lia|]. cbn [free_walk].
  wp_next. apply wp_gets. pose proof (lookup_lt_Some _ _ _ Hk) as Hlt. pose proof (lookup_lt_Some _ _ _ Hj) as Hltj.
  assert (base < bp) as Hb0 by (pose proof (ok_lt _ _ _ _ 0 j (base, 0) a HO eq_refl Hj ltac:(lia)) as [? _]; simpl in *; lia).
  assert ((j < k)%nat -> bp < b.1) as Hafter.
  { intros Hjk. destruct (lookup_lt_is_Some_2 L (S j)) as [d Hd]; [lia|]. pose proof (Hnext d Hd).
    pose proof (ok_lt _ _ _ _ (S j) k d b HO Hd Hk ltac:(lia)) as [? _]. lia. }
  destruct (decide (k = j)) as [->|Hkj].
  { rewrite Hj in Hk. injection Hk as <-. destruct (next_block j a Hj) as [(c & Hc & -> & Hac)|(_ & -> & Hab)].
    - apply Hnext in Hc. replace ((bp >? a.1) && (bp <? c.1)) with true by lia. by apply wp_ret.
    - replace ((bp >? a.1) && (bp <? base)) with false by lia.
      replace ((a.1 >=? base) && ((bp >? a.1) || (bp <? base))) with true by lia. by apply wp_ret. }
  unfold dist in Hn. destruct (next_block k b Hk) as [(c & Hc & -> & Hbc)|(Hlast & -> & Hab)].
  - assert ((bp >? b.1) && (bp <? c.1) = false) as ->.
    { destruct (decide (k < j)%nat); [|specialize (Hafter ltac:(lia)); lia].
      pose proof (ok_lt _ _ _ _ (S k) j c a HO Hc Hj ltac:(lia)) as [? _]. lia. }
    replace (b.1 >=? c.1) with false by lia. cbn [andb]. apply (IH (S k)); [done| |done].
    unfold dist. pose proof (lookup_lt_Some _ _ _ Hc). repeat case_decide; lia.
  - specialize (Hafter ltac:(lia)).
    replace ((bp >? b.1) && (bp <? base)) with false by lia.
    replace ((b.1 >=? base) && ((bp >? b.1) || (bp <? base))) with false by lia.
    apply (IH 0%nat (base, 0)); [done| |done]. unfold dist. repeat case_decide; lia.
Qed.

End walk.

(** ** Joining adjacent blocks *)

Lemma apart_join (x : block) n r : apart x r -> apart (fin x, n) r -> 0 <= x.2 -> 1 <= n -> 1 <= r.2 -> apart (x.1, x.2 + n) r.
Proof. unfold apart, fin, HSIZE. cbn [fst snd]. lia. Qed.

Lemma pairwise_join (x : block) n R : pairwise (x :: (fin x, n) :: R) -> 0 <= x.2 -> 1 <= n -> Forall (fun b => 1 <= b.2) R ->
  pairwise ((x.1, x.2 + n) :: R).
Proof.
  intros [H1 [H2 H3]] Hx Hn HR. apply Forall_cons in H1 as [_ H1]. split; [|done]. rewrite Forall_lookup in *.
  intros i r Hi. apply apart_join; eauto.
Qed.

(** The upper neighbour joins: the new block is [(bp, s')], and [l2'] what is left. *)
Record upper (bp s : Z) (l2 : list block) (s' : Z) (l2' : list block) (hi : Z) : Prop := mkUpper {
  up_case : (s' = s /\ l2' = l2 /\ first hi l2 ≠ bp + HSIZE * s) \/
            (exists t, l2 = (bp + HSIZE * s, t) :: l2' /\ s' = s + t);
  up_gaps : gaps (bp + HSIZE * s') l2';
  up_size : s <= s' }.

Lemma upper_ex bp s l2 hi : gaps (bp + HSIZE * s - 1) l2 -> hi ≠ bp + HSIZE * s -> Forall (fun b => 1 <= b.2) l2 ->
  exists s' l2', upper bp s l2 s' l2' hi.
Proof.
  intros Hg Hh HF. destruct l2 as [|[b t] l2].
  - exists s, []. constructor; [by left|done|lia].
  - destruct Hg as [H1 H2]. apply Forall_cons in HF as [Ht HF]. cbn [fst snd] in *.
    destruct (decide (b = bp + HSIZE * s)) as [->|Hne].
    + exists (s + t), l2. constructor; [right; by exists t| |lia]. unfold fin in H2. cbn [fst snd] in H2.
      by replace (bp + HSIZE * (s + t)) with (bp + HSIZE * s + HSIZE * t) by lia.
    + exists s, ((b, t) :: l2). constructor; [left; done| |lia]. split; [cbn [fst]; lia|done].
Qed.

Lemma upper_pairwise bp s l2 s' l2' hi R : upper bp s l2 s' l2' hi -> 1 <= s -> Forall (fun b => 1 <= b.2) (l2 ++ R) ->
  pairwise ((bp, s) :: l2 ++ R) -> pairwise ((bp, s') :: l2' ++ R).
Proof.
  intros [[(-> & -> & _)|(t & -> & ->)] _ _] Hs HF HP; [done|]. cbn [app] in *. apply Forall_cons in HF as [Ht HF].
  exact (pairwise_join (bp, s) t _ HP ltac:(cbn [fst snd] in *; lia) Ht HF).
Qed.

Lemma upper_range bp s l2 s' l2' hi (base top : Z) R : upper bp s l2 s' l2' hi ->
  Forall (fun b => base <= b.1 /\ 1 <= b.2 /\ fin b <= top) ((bp, s) :: l2 ++ R) ->
  Forall (fun b => base <= b.1 /\ 1 <= b.2 /\ fin b <= top) ((bp, s') :: l2' ++ R).
Proof.
  intros [[(-> & -> & _)|(t & -> & ->)] _ Hs] HF; [done|]. cbn [app] in *.
  apply Forall_cons in HF as [(? & ? & _) HF]. apply Forall_cons in HF as [(? & ? & Ht) HF]. constructor; [|done].
  unfold fin, HSIZE in *. cbn [fst snd] in *. lia.
Qed.

(** The free blocks afterwards. *)
Definition joined (a : block) (bp s' : Z) : list block :=
  if fin a =? bp then [(a.1, a.2 + s')] else [a; (bp, s')].

Lemma joined_gaps lo a bp s' l2' : lo < a.1 -> fin a <= bp -> gaps (bp + HSIZE * s') l2' -> 1 <= s' ->
  gaps lo (joined a bp s' ++ l2').
Proof.
  intros H1 H2 H3 Hs. unfold joined. destruct (fin a =? bp) eqn:E; cbn [app gaps fst].
  - split; [done|]. apply Z.eqb_eq in E. unfold fin in *. cbn [fst snd]. by replace (a.1 + HSIZE * (a.2 + s')) with (bp + HSIZE * s') by lia.
  - split; [done|]. split; [lia|done].
Qed.

(** ** free *)

(** Only the header at [p] changes. *)
Record patched (h h' : heap) (p sz nx : Z) : Prop := mkPatched {
  pa_size : hsize h' p = sz;
  pa_ptr : hptr h' p = nx;
  pa_other : forall x, x ≠ p -> hptr h' x = hptr h x /\ hsize h' x = hsize h x;
  pa_freep : freep h' = freep h;
  pa_brk : brk h' = brk h;
  pa_out : outcomes h' = outcomes h }.

Lemma patched_chain h h' p sz nx stop l : patched h h' p sz nx -> p ∉ l.*1 -> chain h stop l -> chain h' stop l.
Proof.
  intros HP Hp. apply chain_same. intros b Hb. apply (pa_other _ _ _ _ _ HP). intros <-. apply Hp, list_elem_of_fmap. by exists b.
Qed.

Lemma wp_set_ptr P p v h Q : (forall h', patched h h' p (hsize h p) v -> Q tt h') -> wp P (set_ptr p v) h Q.
Proof.
  intros HQ. apply wp_modify, HQ. constructor; cbn; [done|apply store_eq| |done..]. intros x Hx. by rewrite store_ne.
Qed.

(** Join [b] with the block after it, [c], when they touch: half of [free]. *)
Definition join_next (b c : Z) : M heap unit :=
  bs ← size_of b;
  if plus b bs =? c then
    cs ← size_of c;
    set_size b (u32 (bs + cs));;
    cq ← ptr_of c;
    set_ptr b cq
  else set_ptr b c.

Lemma wp_join P b c h Q :
  0 <= b -> 0 <= hsize h b -> b + HSIZE * hsize h b < KERNBASE -> b ≠ c ->
  (b + HSIZE * hsize h b = c -> 0 <= hsize h b + hsize h c < 4294967296) ->
  (forall h', patched h h' b (if b + HSIZE * hsize h b =? c then hsize h b + hsize h c else hsize h b)
       (if b + HSIZE * hsize h b =? c then hptr h c else c) -> Q tt h') ->
  wp P (join_next b c) h Q.
Proof.
  intros Hb Hs Hk Hbc Hsum HQ. unfold join_next. wp_next. apply wp_gets.
  assert (plus b (hsize h b) = b + HSIZE * hsize h b) as -> by (unfold plus; apply u32_small; unfold HSIZE, KERNBASE in *; lia).
  destruct (b + HSIZE * hsize h b =? c) eqn:E.
  - wp_next. apply wp_gets. wp_next. apply wp_modify. wp_next. apply wp_gets. apply wp_modify, HQ. rewrite u32_small by (apply Hsum; lia).
    constructor; cbn; [apply store_eq|apply store_eq| |done..]. intros x Hx. by rewrite !store_ne.
  - apply wp_set_ptr. intros h' HP. by apply HQ.
Qed.

Lemma free_eq ap : free ap =
  (let bp := u32 (ap - HSIZE) in
   n ← gets turns; p ← gets freep; p ← free_walk n bp p; q ← ptr_of p;
   join_next bp q;; join_next p bp;; set_freep p).
Proof. reflexivity. Qed.

Definition total (l : list block) : Z := foldr (fun b n => b.2 + n) 0 l.

Lemma total_app l1 l2 : total (l1 ++ l2) = total l1 + total l2.
Proof. induction l1 as [|b l1 IH]; simpl; [done|]. rewrite IH. lia. Qed.

Lemma upper_total bp s l2 s' l2' hi : upper bp s l2 s' l2' hi -> total l2' + s' = total l2 + s.
Proof. intros [[(-> & -> & _)|(t & -> & ->)] _ _]; simpl; lia. Qed.

Lemma joined_total a bp s' : total (joined a bp s') = a.2 + s'.
Proof. unfold joined. destruct (fin a =? bp); simpl; lia. Qed.

(** What is known where [free] finds the place. *)
Record place (base : Z) (F A : list block) (h : heap) (bp s : Z) (l1 : list block) (a : block) (l2 : list block) : Prop := mkPlace {
  pl_list : (base, 0) :: F = l1 ++ a :: l2;
  pl_before : a.1 < bp;
  pl_fin : fin a <= bp;
  pl_after : gaps (bp + HSIZE * s - 1) l2;
  pl_l1 : forall b, b ∈ l1 -> b.1 < a.1;
  pl_gaps : gaps (base - 1) (l1 ++ [a]);
  pl_base : l1 = [] -> a = (base, 0) }.

Lemma find_place base F A h bp s : heap_ok base F ((bp, s) :: A) h -> exists l1 a l2, place base F A h bp s l1 a l2.
Proof.
  intros HO. pose proof HO as []. pose proof ok_range0 as HR. apply Forall_app in HR as [HR1 HR2].
  apply Forall_cons in HR2 as [(Hb1 & Hb2 & Hb3) HR2]. cbn [fst snd] in *.
  assert (pairwise ((bp, s) :: F ++ A)) as [HA _] by by rewrite Permutation_middle.
  apply Forall_app in HA as [HA _].
  destruct (split_at (base, 0) F bp) as (l1 & a & l2 & E & H1 & H2); [cbn; unfold HSIZE in *; lia|].
  assert (gaps (base - 1) ((base, 0) :: F)) as HG.
  { split; [cbn; lia|]. unfold fin. cbn [fst snd]. by rewrite Z.mul_0_r, Z.add_0_r. }
  pose proof HG as HG'. rewrite E in HG'. pose proof HG' as [Hg1 [Hg2 Hg3]]%gaps_app.
  assert (l1 = [] -> a = (base, 0)) as Hbase by (intros ->; by injection E).
  assert (forall b, b ∈ F -> 1 <= b.2 /\ apart (bp, s) b) as HFp.
  { intros b Hb. rewrite Forall_forall in HA, HR1. split; [by apply HR1|by apply HA]. }
  assert (a = (base, 0) \/ a ∈ F) as Ha.
  { destruct l1 as [|c l1]; [by left; apply Hbase|right]. injection E as _ ->. rewrite elem_of_app. right. by left. }
  exists l1, a, l2. constructor; try done.
  - destruct Ha as [->|Ha]; [unfold fin; cbn [fst snd] in *; lia|]. destruct (HFp _ Ha) as [? [Hap|Hap]]; unfold fin, HSIZE in *; cbn [fst snd] in *; lia.
  - destruct l2 as [|b l2]; [done|]. destruct Hg3 as [_ Hg3]. split; [|done]. specialize (H2 b eq_refl).
    destruct (HFp b) as [? [Hap|Hap]]; [|unfold fin, HSIZE in *; cbn [fst snd] in *; lia..].
    destruct l1 as [|c l1]; injection E as _ ->; [by left|]. rewrite elem_of_app. right. right. by left.
  - intros b Hb. apply list_elem_of_lookup in Hb as [i Hi]. pose proof (lookup_lt_Some _ _ _ Hi).
    apply (ok_lt _ _ _ _ i (length l1) b a HO); [rewrite E; by apply lookup_app_l_Some|rewrite E; by rewrite list_lookup_middle|lia|lia].
  - apply gaps_app. split; [done|]. split; [done|done].
Qed.

Definition in_range (base top : Z) (b : block) : Prop := base <= b.1 /\ 1 <= b.2 /\ fin b <= top.

Lemma in_range_sizes base top l : Forall (in_range base top) l -> Forall (fun b => 1 <= b.2) l.
Proof. intros H. apply (Forall_impl _ _ _ H). unfold in_range. tauto. Qed.

(** Blocks apart and in range stay so when [bp] joins its neighbours. *)
Lemma join_blocks base top R a bp s s' l2 l2' hi :
  upper bp s l2 s' l2' hi -> 1 <= s -> fin a <= bp ->
  pairwise ((bp, s) :: l2 ++ a :: R) -> Forall (in_range base top) ((bp, s) :: l2 ++ a :: R) ->
  pairwise (joined a bp s' ++ l2' ++ R) /\ Forall (in_range base top) (joined a bp s' ++ l2' ++ R).
Proof.
  intros HU Hs Hfin HP HR. pose proof (up_size _ _ _ _ _ _ HU) as Hs'.
  assert (Forall (fun b => 1 <= b.2) (l2 ++ a :: R)) as HS by (apply Forall_cons in HR as [_ HR]; by eapply in_range_sizes).
  pose proof (upper_pairwise _ _ _ _ _ _ _ HU Hs HS HP) as HP1. pose proof (upper_range _ _ _ _ _ _ _ _ _ HU HR) as HR1.
  change (Forall (in_range base top) ((bp, s') :: l2' ++ a :: R)) in HR1.
  assert (a :: (bp, s') :: l2' ++ R ≡ₚ (bp, s') :: l2' ++ a :: R) as HPm by (rewrite <- Permutation_middle; apply perm_swap).
  rewrite <- HPm in HP1, HR1. unfold joined. destruct (fin a =? bp) eqn:E; [|done]. apply Z.eqb_eq in E.
  apply Forall_cons in HR1 as [Ha HR1]. apply Forall_cons in HR1 as [Hbp HR1]. unfold in_range in Ha, Hbp. cbn [fst snd app] in *. split.
  - apply pairwise_join; [by rewrite E|lia|lia|by eapply in_range_sizes].
  - constructor; [|done]. unfold in_range, fin, HSIZE in *. cbn [fst snd] in *. lia.
Qed.

Lemma free_blocks base F A h bp s l1 a l2 s' l2' :
  heap_ok base F ((bp, s) :: A) h -> place base F A h bp s l1 a l2 -> upper bp s l2 s' l2' base ->
  exists F', (base, 0) :: F' = l1 ++ joined a bp s' ++ l2' /\ pairwise (F' ++ A) /\
    Forall (in_range (base + HSIZE) (brk h)) (F' ++ A) /\ total F' = total F + s /\ (length F' <= S (length F))%nat.
Proof.
  intros [] [] HU. pose proof (upper_total _ _ _ _ _ _ HU) as Ht. pose proof (joined_total a bp s') as Hj.
  assert (length l2' <= length l2)%nat as Hl2 by (destruct HU as [[(_ & -> & _)|(t & -> & _)] _ _]; simpl; lia).
  rewrite <- Permutation_middle in ok_apart0, ok_range0.
  assert (1 <= s) as Hs by (apply Forall_cons in ok_range0 as [(_ & ? & _) _]; done).
  destruct l1 as [|c l1].
  - specialize (pl_base0 eq_refl) as ->. injection pl_list0 as ->. 
    assert (joined (base, 0) bp s' = [(base, 0); (bp, s')]) as Ej.
    { unfold joined. rewrite (proj2 (Z.eqb_neq _ _)); [done|]. unfold fin. cbn [fst snd] in *. lia. }
    exists ((bp, s') :: l2'). rewrite Ej in *. split; [done|]. split; [|split; [|split]].
    + eapply upper_pairwise; [done|done| |done]. apply Forall_cons in ok_range0 as [_ HR]. apply (Forall_impl _ _ _ HR). tauto.
    + eapply upper_range; done.
    + simpl in *. lia.
    + simpl. lia.
  - injection pl_list0 as <- ->. exists (l1 ++ joined a bp s' ++ l2'). split; [done|].
    assert ((bp, s) :: (l1 ++ a :: l2) ++ A ≡ₚ (bp, s) :: l2 ++ a :: l1 ++ A) as HPm.
    { f_equiv. rewrite <- !Permutation_middle. cbn [app]. f_equiv. rewrite app_assoc, (Permutation_app_comm l2 l1). done. }
    rewrite HPm in ok_apart0, ok_range0.
    destruct (join_blocks _ _ _ _ _ _ _ _ _ _ HU Hs pl_fin0 ok_apart0 ok_range0) as [HP HR].
    assert ((l1 ++ joined a bp s' ++ l2') ++ A ≡ₚ joined a bp s' ++ l2' ++ l1 ++ A) as HPm2.
    { rewrite <- !app_assoc. rewrite (Permutation_app_swap_app l1 (joined a bp s')). f_equiv. apply Permutation_app_swap_app. }
    rewrite HPm2. split; [done|]. split; [done|]. split.
    + rewrite !total_app, Hj. simpl. lia.
    + rewrite !length_app. unfold joined. destruct (fin a =? bp); simpl; lia.
Qed.

Lemma joined_mem a bp s s' l2 l2' hi : upper bp s l2 s' l2' hi -> 0 <= a.2 -> exists b, b ∈ joined a bp s' /\ s <= b.2.
Proof.
  intros HU Ha. pose proof (up_size _ _ _ _ _ _ HU). unfold joined. destruct (fin a =? bp).
  - exists (a.1, a.2 + s'). split; [by left|]. cbn. lia.
  - exists (bp, s'). split; [right; by left|]. done.
Qed.

(** The headers once both neighbours are joined. *)
Lemma join_chain base h h1 h2 l1 a bp s' l2' s :
  patched h h1 bp s' (first base l2') ->
  patched h1 h2 a.1 (if fin a =? bp then a.2 + s' else a.2) (if fin a =? bp then first base l2' else bp) ->
  a.1 < bp -> 1 <= s <= s' -> (forall b, b ∈ l1 -> b.1 < a.1) -> gaps (bp + HSIZE * s') l2' -> Forall (fun b => 1 <= b.2) l2' ->
  chain h a.1 l1 -> chain h base l2' -> chain h2 base (l1 ++ joined a bp s' ++ l2').
Proof.
  intros HP1 HP2 Hlt Hs Hl1 Hg HF HC1 HC2.
  assert (forall b, b ∈ l2' -> bp < b.1) as Hl2.
  { intros b Hb. pose proof (gaps_behind _ _ b Hg ltac:(apply (Forall_impl _ _ _ HF); intros; lia) Hb). unfold HSIZE in *. lia. }
  assert (bp ∉ l1.*1 /\ a.1 ∉ l1.*1 /\ bp ∉ l2'.*1 /\ a.1 ∉ l2'.*1) as (N1 & N2 & N3 & N4).
  { split_and!; rewrite list_elem_of_fmap; intros (b & E & Hb); (apply Hl1 in Hb || apply Hl2 in Hb); lia. }
  assert (first (first base l2') (joined a bp s') = a.1) as Hj by (unfold joined; by destruct (fin a =? bp)).
  apply chain_app. split.
  - assert (first base (joined a bp s' ++ l2') = a.1) as -> by (unfold joined; by destruct (fin a =? bp)).
    eapply patched_chain; [done|done|]. by eapply patched_chain.
  - assert (chain h2 base l2') as HC2' by (eapply patched_chain; [done|done|]; by eapply patched_chain).
    unfold joined. destruct (fin a =? bp) eqn:E; cbn [app chain first fst snd].
    + split; [apply (pa_size _ _ _ _ _ HP2)|]. split; [apply (pa_ptr _ _ _ _ _ HP2)|done].
    + split; [apply (pa_size _ _ _ _ _ HP2)|]. split; [apply (pa_ptr _ _ _ _ _ HP2)|].
      destruct (pa_other _ _ _ _ _ HP2 bp ltac:(lia)) as [-> ->].
      split; [apply (pa_size _ _ _ _ _ HP1)|]. split; [apply (pa_ptr _ _ _ _ _ HP1)|done].
Qed.

(** A block in use has its header neither in the block that is freed nor at the
    front of a free block. *)
Lemma used_apart base F A h bp s a y :
  heap_ok base F ((bp, s) :: A) h -> a ∈ (base, 0) :: F -> y ∈ A -> y.1 ≠ bp /\ y.1 ≠ a.1.
Proof.
  intros [] HaL Hy. apply Forall_app in ok_range0 as [HRF HRA]. apply Forall_cons in HRA as [(Hb1 & Hs & Hb3) HRA].
  rewrite Forall_forall in HRA, HRF. apply pairwise_app in ok_apart0 as (_ & [Hbp' _] & HFA).
  rewrite Forall_forall in Hbp', HFA. pose proof (Hbp' y Hy) as Hy1. destruct (HRA y Hy) as (Hy2 & Hy3 & _).
  split; [unfold apart, fin, HSIZE in *; cbn [fst snd] in *; lia|].
  apply elem_of_cons in HaL as [->|HaF]; [cbn; unfold HSIZE in *; lia|].
  specialize (HFA a HaF). rewrite Forall_forall in HFA. specialize (HFA y ltac:(by right)).
  destruct (HRF a HaF) as (? & ? & ?). unfold apart, fin, HSIZE in *. lia.
Qed.

(** What [free] leaves, once both neighbours are joined. *)
Lemma free_ok base F A h bp s l1 a l2 s' l2' h1 h2 F' :
  heap_ok base F ((bp, s) :: A) h -> place base F A h bp s l1 a l2 -> upper bp s l2 s' l2' base ->
  (base, 0) :: F' = l1 ++ joined a bp s' ++ l2' -> pairwise (F' ++ A) -> Forall (in_range (base + HSIZE) (brk h)) (F' ++ A) ->
  patched h h1 bp s' (first base l2') ->
  patched h1 h2 a.1 (if fin a =? bp then a.2 + s' else a.2) (if fin a =? bp then first base l2' else bp) ->
  chain h2 base (l1 ++ joined a bp s' ++ l2') -> 0 <= a.2 -> 1 <= s' ->
  heap_ok base F' A (mkHeap (hptr h2) (hsize h2) a.1 (brk h2) (outcomes h2)).
Proof.
  intros HO PL HUp EF HP' HR' HP1 HP2 HC Ha2 Hs'. pose proof PL as []. pose proof HO as [].
  assert (brk h2 = brk h) as Hbk by (rewrite (pa_brk _ _ _ _ _ HP2); apply HP1).
  constructor; cbn [brk freep hsize]; [done| | |done|by rewrite Hbk|by rewrite Hbk|..].
  - rewrite EF. by apply (chain_same h2).
  - assert (gaps (base - 1) ((base, 0) :: F')) as [_ HG].
    { rewrite EF. apply gaps_app in pl_gaps0 as [Hg1 [Hg2 _]]. apply gaps_app. split; [done|].
      apply joined_gaps; [done|unfold fin, HSIZE in *; lia|apply HUp|lia]. }
    unfold fin in HG. cbn [fst snd] in HG. by rewrite Z.mul_0_r, Z.add_0_r in HG.
  - apply Forall_cons in ok_used0 as [_ HU]. rewrite Forall_forall in HU |- *. intros y Hy.
    destruct (used_apart base F A h bp s a y HO) as [N1 N2]; [rewrite pl_list0, elem_of_app; right; by left|done|].
    destruct (pa_other _ _ _ _ _ HP2 y.1 N2) as [_ ->]. destruct (pa_other _ _ _ _ _ HP1 y.1 N1) as [_ ->]. by apply HU.
  - rewrite EF. apply list_elem_of_fmap. unfold joined.
    destruct (_ =? bp); [exists (a.1, a.2 + s')|exists a]; (split; [reflexivity|]); rewrite elem_of_app; right; left.
Qed.

Lemma place_behind base F A h bp s l1 a l2 (P : block -> Prop) :
  place base F A h bp s l1 a l2 -> Forall P F -> Forall P l2.
Proof.
  intros [] H. destruct l1; injection pl_list0 as _ ->; [done|]. apply Forall_app in H as [_ H]. by apply Forall_cons in H as [_ H].
Qed.

(** The header of the freed block, once it is joined with the block behind it. *)
Lemma upper_patch h h1 bp s l2 s' l2' base :
  upper bp s l2 s' l2' base -> chain h base l2 ->
  patched h h1 bp (if bp + HSIZE * s =? first base l2 then s + hsize h (first base l2) else s)
    (if bp + HSIZE * s =? first base l2 then hptr h (first base l2) else first base l2) ->
  patched h h1 bp s' (first base l2').
Proof.
  intros [[(-> & -> & Hne)|(t & -> & ->)] _ _] HC HP1.
  - by rewrite (proj2 (Z.eqb_neq _ _)) in HP1 by (intros E; by apply Hne).
  - cbn [first fst] in HP1. rewrite Z.eqb_refl in HP1. destruct HC as (H1 & H2 & _). cbn [fst snd] in *. by rewrite H1, H2 in HP1.
Qed.

Lemma wp_free P base F A h bp s Q :
  heap_ok base F ((bp, s) :: A) h ->
  (forall F' h', heap_ok base F' A h' -> brk h' = brk h -> outcomes h' = outcomes h -> total F' = total F + s ->
     (exists b, b ∈ F' /\ s <= b.2) -> (length F' <= S (length F))%nat -> Q tt h') ->
  wp P (free (bp + HSIZE)) h Q.
Proof.
  intros HO HQ. destruct (find_place _ _ _ _ _ _ HO) as (l1 & a & l2 & PL). pose proof PL as []. pose proof HO as [].
  apply Forall_app in ok_range0 as [HRF HRA]. apply Forall_cons in HRA as [(Hb1 & Hs & Hb3) HRA]. cbn [fst snd] in *.
  apply Forall_cons in ok_used0 as [Hbs HU]. cbn [fst snd] in *.
  pose proof (place_behind _ _ _ _ _ _ _ _ _ _ PL HRF) as HR2. pose proof (in_range_sizes _ _ _ HR2) as HS2.
  assert (base < bp < KERNBASE) as Hbp by (unfold fin, HSIZE in *; cbn [fst snd] in *; lia).
  destruct (upper_ex bp s l2 base pl_after0 ltac:(unfold HSIZE; lia) HS2) as (s' & l2' & HUp).
  destruct (free_blocks _ _ _ _ _ _ _ _ _ _ _ HO PL HUp) as (F' & EF & HP' & HR' & HT' & HL').
  assert (((base, 0) :: F) !! length l1 = Some a) as Hj by (rewrite pl_list0; apply list_lookup_middle; done).
  rewrite free_eq. cbv zeta. rewrite u32_small by (unfold HSIZE, KERNBASE in *; lia).
  replace (bp + HSIZE - HSIZE) with bp by lia. wp_next. apply wp_gets. wp_next. apply wp_gets.
  apply list_elem_of_fmap in ok_freep0 as (b & -> & Hb). apply list_elem_of_lookup in Hb as [k Hk].
  wp_next. eapply (wp_free_walk P base F _ h HO (length l1) a bp _ k b _ Hj pl_before0); [|done| |].
  { intros c Hc. rewrite pl_list0, lookup_app_r in Hc by lia. replace (S (length l1) - length l1)%nat with 1%nat in Hc by lia.
    destruct l2 as [|c' l2]; [done|]. cbn in Hc. injection Hc as ->. destruct pl_after0 as [? _]. unfold HSIZE in *. lia. }
  { pose proof (turns_enough _ _ _ _ HO). pose proof (lookup_lt_Some _ _ _ Hk). pose proof (lookup_lt_Some _ _ _ Hj).
    unfold dist. cbn [length] in *. case_decide; lia. }
  rewrite pl_list0 in ok_chain0. apply chain_app in ok_chain0 as [HC1 (Has & Hap & HC2)]. cbn [first] in HC1.
  assert (Forall (in_range (base + HSIZE) (brk h)) ((bp, s') :: l2' ++ [])) as HRs.
  { eapply upper_range; [done|]. constructor; [done|]. by rewrite app_nil_r. }
  rewrite app_nil_r in HRs. apply Forall_cons in HRs as [(_ & Hs' & Hs'') HR2'].
  assert (0 <= a.2) as Ha2 by (by apply (ok_size _ _ _ _ _ _ HO Hj)).
  assert (base <= a.1) as Hba by (pose proof (ok_lt _ _ _ _ 0 _ (base, 0) a HO eq_refl Hj ltac:(lia)) as [? _]; done).
  unfold fin, HSIZE, KERNBASE in *. cbn [fst snd] in *.
  wp_next. apply wp_gets. rewrite Hap. wp_next. apply wp_join; rewrite ?Hbs; [lia|lia|unfold HSIZE, KERNBASE; lia| | |].
  { destruct l2 as [|c l2]; cbn [first]; [lia|]. destruct pl_after0 as [? _]. lia. }
  { intros Ec. destruct l2 as [|c l2]; cbn [first] in *; [unfold HSIZE in *; lia|]. destruct HC2 as [-> _].
    apply Forall_cons in HR2 as [(? & ? & ?) _]. unfold fin, HSIZE in *. lia. }
  intros h1 HP1. apply (upper_patch h h1 bp s l2 s' l2' base HUp HC2) in HP1 as HP1'.
  destruct (pa_other _ _ _ _ _ HP1' a.1 ltac:(lia)) as [_ Has1]. rewrite Has in Has1.
  wp_next. apply wp_join; rewrite ?Has1; [lia|lia|unfold HSIZE, KERNBASE; lia|lia| |].
  { rewrite (pa_size _ _ _ _ _ HP1'). lia. }
  intros h2 HP2. rewrite (pa_size _ _ _ _ _ HP1'), (pa_ptr _ _ _ _ _ HP1') in HP2.
  assert (chain h base l2') as HC2' by (destruct HUp as [[(_ & -> & _)|(t & -> & _)] _ _]; [done|apply HC2]).
  pose proof (join_chain base h h1 h2 l1 a bp s' l2' s HP1' HP2 pl_before0 ltac:(pose proof (up_size _ _ _ _ _ _ HUp); lia) (pl_l1 _ _ _ _ _ _ _ _ _ PL)
    (up_gaps _ _ _ _ _ _ HUp) (in_range_sizes _ _ _ HR2') HC1 HC2') as HC.
  apply wp_modify. destruct (joined_mem a bp s s' l2 l2' base HUp Ha2) as (x & Hx & Hsx).
  assert (forall y, y ∈ l1 ++ joined a bp s' ++ l2' -> y = (base, 0) \/ y ∈ F') as HF'.
  { intros y. rewrite <- EF, elem_of_cons. tauto. }
  assert (brk h2 = brk h) as Hbk by (rewrite (pa_brk _ _ _ _ _ HP2); apply HP1').
  assert (outcomes h2 = outcomes h) as Hout by (rewrite (pa_out _ _ _ _ _ HP2); apply HP1').
  apply (HQ F'); cbn [brk outcomes]; [|done|done|done| |done].
  2: { exists x. split; [|done]. destruct (HF' x) as [->|?]; [rewrite !elem_of_app; tauto|cbn in Hsx; lia|done]. }
  by apply (free_ok base F A h bp s l1 a l2 s' l2' h1).
Qed.

(** ** morecore *)

Lemma ok_fresh base F A h b : heap_ok base F A h -> b ∈ ((base, 0) :: F) ++ A -> b.1 < brk h.
Proof.
  intros [] Hb. cbn [app] in Hb. apply elem_of_cons in Hb as [->|Hb]; [cbn; unfold HSIZE in *; lia|].
  rewrite Forall_forall in ok_range0. destruct (ok_range0 b Hb) as (? & ? & ?). unfold fin, HSIZE in *. lia.
Qed.

(** The blocks stay where they are when the headers do. *)
Lemma ok_same base F A h h' : heap_ok base F A h ->
  (forall b, b ∈ ((base, 0) :: F) ++ A -> hptr h' b.1 = hptr h b.1 /\ hsize h' b.1 = hsize h b.1) ->
  freep h' = freep h -> brk h <= brk h' < KERNBASE -> heap_ok base F A h'.
Proof.
  intros [] Hh Hf Hb. constructor; [done| |done|done| |unfold HSIZE in *; lia| |by rewrite Hf].
  - apply (chain_same h); [|done]. intros b HbL. apply Hh. rewrite elem_of_app. by left.
  - apply (Forall_impl _ _ _ ok_range0). intros b (? & ? & ?). lia.
  - rewrite Forall_forall in *. intros b HbA. rewrite (proj2 (Hh b ltac:(rewrite elem_of_app; by right))). by apply ok_used0.
Qed.

Lemma wp_sbrk P n h Q :
  (forall l, Q (-1) (mkHeap (hptr h) (hsize h) (freep h) (brk h) l)) ->
  (forall l, brk h + n < KERNBASE -> Q (brk h) (mkHeap (hptr h) (hsize h) (freep h) (brk h + n) l)) ->
  wp P (sbrk n) h Q.
Proof.
  intros HQ0 HQ. unfold wp, sbrk. destruct (match outcomes h with [] => (true, []) | b :: l => (b, l) end) as [ok l].
  destruct (ok && (brk h + n <? KERNBASE)) eqn:E; [|apply HQ0]. apply HQ. apply andb_prop in E as [_ E]. lia.
Qed.

(** The new memory as one block in use. *)
Lemma ok_grow base F A h nu l : heap_ok base F A h -> 1 <= nu -> brk h + nu * HSIZE < KERNBASE ->
  heap_ok base F ((brk h, nu) :: A) (mkHeap (hptr h) (store (hsize h) (brk h) nu) (freep h) (brk h + nu * HSIZE) l).
Proof.
  intros HO Hnu Hb. set (h' := mkHeap _ _ _ _ _).
  assert (heap_ok base F A h') as [].
  { eapply ok_same; [done| |done|cbn; unfold HSIZE, KERNBASE in *; lia]. intros b Hbl. pose proof (ok_fresh _ _ _ _ _ HO Hbl).
    cbn. by rewrite store_ne by lia. }
  pose proof (ok_brk _ _ _ _ HO) as Hbrk. unfold HSIZE in *. constructor; try done.
  - rewrite <- Permutation_middle. split; [|done].
    pose proof (ok_range _ _ _ _ HO) as HR. apply (Forall_impl _ _ _ HR). intros b (_ & _ & ?). right. done.
  - rewrite <- Permutation_middle. constructor; [|done]. unfold fin, HSIZE. cbn. lia.
  - constructor; [|done]. cbn. by rewrite store_eq.
Qed.

Lemma wp_morecore P base F A h nunits Q :
  heap_ok base F A h -> 1 <= nunits -> nunits * HSIZE < KERNBASE ->
  (forall h', heap_ok base F A h' -> Q 0 h') ->
  (forall F' h', heap_ok base F' A h' -> (exists b, b ∈ F' /\ nunits <= b.2) -> (length F' <= S (length F))%nat ->
     brk h <= brk h' -> freep h' ≠ 0 -> Q (freep h') h') ->
  wp P (morecore nunits) h Q.
Proof.
  intros HO H1 H2 HQ0 HQ. unfold morecore. set (nu := if nunits <? 4096 then 4096 else nunits).
  assert (nunits <= nu /\ 1 <= nu /\ nu * HSIZE < KERNBASE) as (Hnu & Hnu1 & Hnu2)
    by (unfold nu, HSIZE, KERNBASE in *; destruct (nunits <? 4096) eqn:E; lia).
  assert (i32 (u32 (nu * HSIZE)) = nu * HSIZE) as ->.
  { unfold HSIZE, KERNBASE in *. rewrite u32_small by lia. apply i32_small. lia. }
  pose proof (ok_brk _ _ _ _ HO) as Hbrk. pose proof (ok_base _ _ _ _ HO) as Hb0. wp_next. apply wp_sbrk; intros l.
  { apply wp_ret, HQ0. eapply ok_same; [done|done|done|cbn; lia]. }
  intros Hl. rewrite (proj2 (Z.eqb_neq _ _)) by (unfold HSIZE in *; lia). wp_next. apply wp_modify. cbn [hptr hsize freep brk outcomes].
  wp_next. replace (plus (brk h) 1) with (brk h + HSIZE) by (unfold plus; rewrite u32_small; unfold HSIZE, KERNBASE in *; lia).
  eapply wp_free; [by apply ok_grow|]. intros F' h' HO' Hb' _ _ (b & Hb & Hs) HL. apply wp_gets, (HQ F'); [done| |done| |].
  - exists b. split; [done|lia].
  - rewrite Hb'. cbn. unfold HSIZE in *. lia.
  - pose proof (ok_freep _ _ _ _ HO') as Hf. intros E. rewrite E in Hf. apply list_elem_of_fmap in Hf as (c & Ec & Hc).
    apply elem_of_cons in Hc as [->|Hc]; [cbn in Ec; lia|]. pose proof (ok_range _ _ _ _ HO') as HR. rewrite Forall_forall in HR.
    destruct (HR c) as (? & _); [rewrite elem_of_app; by left|]. unfold HSIZE in *. lia.
Qed.

(** ** malloc *)

(** Replacing the block behind [pv] in the list. *)
Lemma replace_block (base : Z) (F l1 : list block) (pv b : block) (l2 m : list block) :
  (base, 0) :: F = l1 ++ pv :: b :: l2 ->
  exists F' G, (base, 0) :: F' = l1 ++ pv :: m ++ l2 /\ F ≡ₚ b :: G /\ F' ≡ₚ m ++ G /\ (base, 0) :: G = l1 ++ pv :: l2.
Proof.
  intros E. destruct l1 as [|c l1]; injection E as <- ->.
  - exists (m ++ l2), l2. done.
  - exists (l1 ++ pv :: m ++ l2), (l1 ++ pv :: l2). split; [done|]. split; [|split; [|done]].
    + by rewrite <- !Permutation_middle, perm_swap.
    + rewrite <- !Permutation_middle. f_equiv. by rewrite Permutation_app_swap_app.
Qed.

Lemma base_gaps base F : gaps base F <-> gaps (base - 1) ((base, 0) :: F).
Proof.
  simpl. unfold fin. cbn [fst snd]. rewrite Z.mul_0_r, Z.add_0_r. split; [split; [lia|done]|tauto].
Qed.

(** What is needed of [m] (nothing, or the first part of [b]) and of the block [u]
    now in use. *)
Record parts (base top lo : Z) (b : block) (m : list block) (u : block) : Prop := mkParts {
  pt_pairwise : forall R, Forall (fun b => 1 <= b.2) R -> pairwise (b :: R) -> pairwise (m ++ u :: R);
  pt_range : in_range base top b -> Forall (in_range base top) (m ++ [u]);
  pt_gaps : forall l2, gaps lo (b :: l2) -> gaps lo (m ++ l2) }.

Lemma take_ok base F A h l1 pv b l2 m u h' :
  heap_ok base F A h -> (base, 0) :: F = l1 ++ pv :: b :: l2 -> parts (base + HSIZE) (brk h) (fin pv) b m u ->
  (chain h base l2 -> chain h' base (m ++ l2)) ->
  hsize h' pv.1 = pv.2 -> hptr h' pv.1 = first base (m ++ l2) -> hsize h' u.1 = u.2 ->
  (forall x, x ≠ pv.1 -> (x < b.1 \/ fin b <= x) -> hptr h' x = hptr h x /\ hsize h' x = hsize h x) ->
  freep h' = pv.1 -> brk h' = brk h ->
  exists F', heap_ok base F' (u :: A) h'.
Proof.
  intros HO E [Hpw Hrg Hgp] Hch Hps Hpp Hu Hother Hfp Hbk.
  destruct (replace_block _ _ _ _ _ _ m E) as (F' & G & E' & HF & HF' & EG). pose proof HO as [].
  exists F'.
  assert (F' ++ u :: A ≡ₚ m ++ u :: (G ++ A)) as HP1 by (rewrite HF', <- app_assoc; f_equiv; by rewrite <- Permutation_middle).
  assert (F ++ A ≡ₚ b :: (G ++ A)) as HP2 by by rewrite HF.
  rewrite HP2 in ok_apart0, ok_range0. pose proof ok_range0 as HRb. apply Forall_cons in HRb as [Hb HR].
  assert (forall y, y ∈ ((base, 0) :: G) ++ A -> y.1 < b.1 \/ fin b <= y.1) as Hout.
  { intros y Hy. cbn [app] in Hy. destruct Hb as (Hb1 & Hb2 & _).
    apply elem_of_cons in Hy as [->|Hy]; [left; cbn; unfold HSIZE in *; lia|].
    destruct ok_apart0 as [Hab _]. rewrite Forall_forall in Hab, HR. specialize (Hab y Hy). destruct (HR y Hy) as (_ & ? & _).
    unfold apart, fin, HSIZE in *. lia. }
  apply base_gaps in ok_gaps0. rewrite E in ok_gaps0. apply gaps_app in ok_gaps0 as [Hg1 [Hg2 Hg3]].
  assert (forall y, y ∈ l1 -> y.1 < pv.1) as Hl1.
  { intros y Hy. apply list_elem_of_lookup in Hy as [i Hi]. pose proof (lookup_lt_Some _ _ _ Hi).
    apply (ok_lt _ _ _ _ i (length l1) y pv HO); rewrite ?E; [by apply lookup_app_l_Some|by apply list_lookup_middle|lia|lia]. }
  rewrite E in ok_chain0. apply chain_app in ok_chain0 as [HC1 (HCs & HCp & HCb & HCq & HC2)].
  constructor; rewrite ?Hbk; [done| | | | |done| |].
  - rewrite E'. apply chain_app. split; [|split; [done|split; [done|by apply Hch]]].
    apply (chain_same h); [|exact HC1]. intros y Hy. pose proof (Hl1 y Hy). apply Hother; [lia|]. apply Hout. rewrite elem_of_app.
    left. rewrite EG, elem_of_app. by left.
  - apply base_gaps. rewrite E'. apply gaps_app. split; [done|]. split; [done|]. by apply Hgp.
  - rewrite HP1. apply Hpw; [|done]. apply (Forall_impl _ _ _ HR). tauto.
  - rewrite HP1.
    assert (m ++ u :: G ++ A ≡ₚ (m ++ [u]) ++ (G ++ A)) as -> by by rewrite <- app_assoc. apply Forall_app. split; [by apply Hrg|exact HR].
  - constructor; [done|]. rewrite Forall_forall in ok_used0 |- *. intros y Hy.
    assert (y.1 ≠ pv.1) as Hne.
    { assert (pv ∈ (base, 0) :: G) as HpG by (rewrite EG, elem_of_app; right; by left). rewrite Forall_forall in HR.
      destruct (HR y ltac:(rewrite elem_of_app; by right)) as (? & ? & _).
      apply elem_of_cons in HpG as [->|HpG]; [cbn; unfold HSIZE in *; lia|]. destruct ok_apart0 as [_ Hga].
      apply pairwise_app in Hga as (_ & _ & Hga). rewrite Forall_forall in Hga. specialize (Hga pv HpG). rewrite Forall_forall in Hga.
      specialize (Hga y Hy). destruct (HR pv ltac:(rewrite elem_of_app; by left)) as (? & ? & _). unfold apart, fin, HSIZE in *. lia. }
    destruct (Hother y.1 Hne) as [_ ->]; [|by apply ok_used0]. apply Hout. rewrite elem_of_app. by right.
  - rewrite E', Hfp. apply list_elem_of_fmap. exists pv. split; [done|]. rewrite elem_of_app. right. by left.
Qed.

Lemma parts_all base top lo b : 1 <= b.2 -> parts base top lo b [] b.
Proof.
  intros Hb. constructor; [done|intros H; by apply Forall_singleton|]. intros l2 [H1 H2]. cbn [app].
  apply (gaps_weaken _ _ _ H2). unfold fin, HSIZE. lia.
Qed.

Lemma parts_tail base top lo a s n : 1 <= n < s -> parts base top lo (a, s) [(a, s - n)] (a + HSIZE * (s - n), n).
Proof.
  intros Hn. constructor.
  - intros R HR [H1 H2]. cbn [app pairwise]. rewrite Forall_forall in HR, H1. split; [constructor|split; [|done]].
    + left. unfold fin. cbn. lia.
    + rewrite Forall_forall. intros r Hr. specialize (H1 r Hr). specialize (HR r Hr). unfold apart, fin, HSIZE in *. cbn [fst snd] in *. lia.
    + rewrite Forall_forall. intros r Hr. specialize (H1 r Hr). specialize (HR r Hr). unfold apart, fin, HSIZE in *. cbn [fst snd] in *. lia.
  - intros (H1 & H2 & H3). cbn [app]. rewrite Forall_cons, Forall_singleton. unfold in_range, fin, HSIZE in *. cbn [fst snd] in *. lia.
  - intros l2 [H1 H2]. split; [done|]. apply (gaps_weaken _ _ _ H2). unfold fin, HSIZE. cbn [fst snd]. lia.
Qed.

(** The end of [malloc], once a block [(a, s)] is large enough. *)
Definition take_block (nunits prevp p s : Z) : M heap Z :=
  p ← (if s =? nunits then q ← ptr_of p; set_ptr prevp q;; mret p
       else set_size p (u32 (s - nunits));; let p := plus p (u32 (s - nunits)) in set_size p nunits;; mret p);
  set_freep prevp;;
  mret (plus p 1).

Lemma wp_take_block P base F A h k pv b nunits Q :
  heap_ok base F A h -> ((base, 0) :: F) !! k = Some pv -> ((base, 0) :: F) !! S k = Some b -> 1 <= nunits <= b.2 ->
  (forall F' p h', heap_ok base F' ((p, nunits) :: A) h' -> outcomes h' = outcomes h -> Q (p + HSIZE) h') ->
  wp P (take_block nunits pv.1 b.1 b.2) h Q.
Proof.
  intros HO Hk Hb Hn HQ. pose proof (ok_lt _ _ _ _ k (S k) pv b HO Hk Hb ltac:(lia)) as [_ Hlt]. specialize (Hlt ltac:(lia)).
  destruct (chain_lookup _ _ _ _ _ (ok_chain _ _ _ _ HO) Hk) as [Hps _].
  destruct (chain_lookup _ _ _ _ _ (ok_chain _ _ _ _ HO) Hb) as [Hbs Hbp].
  assert ((base, 0) :: F = take k ((base, 0) :: F) ++ pv :: b :: drop (S (S k)) ((base, 0) :: F)) as E.
  { rewrite <- (drop_S _ _ _ Hb). symmetry. by apply take_drop_middle. }
  set (l1 := take k _) in *. set (l2 := drop (S (S k)) _) in *.
  assert (in_range (base + HSIZE) (brk h) b) as (Hb1 & Hb2 & Hb3).
  { pose proof (ok_range _ _ _ _ HO) as HR. rewrite Forall_lookup in HR. apply (HR k). by apply lookup_app_l_Some. }
  pose proof (ok_brk _ _ _ _ HO) as Hbk. pose proof (ok_base _ _ _ _ HO) as Hb0. unfold fin, HSIZE, KERNBASE in *.
  destruct b as [a s]. cbn [fst snd] in *. unfold take_block. wp_next. destruct (s =? nunits) eqn:Es.
  - assert (s = nunits) as -> by lia. wp_next. apply wp_gets. wp_next. apply wp_modify, wp_ret. wp_next. apply wp_modify, wp_ret.
    rewrite Hbp. cbn [hptr hsize freep brk outcomes]. set (h' := mkHeap _ _ _ _ _).
    destruct (take_ok base F A h l1 pv (a, nunits) l2 [] (a, nunits) h' HO E) as [F' HO']; cbn [fst snd app]; try done.
    + apply parts_all. cbn. lia.
    + intros HC. apply (chain_same h); [|done]. intros y Hy. cbn. rewrite store_ne; [done|].
      apply list_elem_of_lookup in Hy as [i Hi]. unfold l2 in Hi. rewrite lookup_drop in Hi.
      pose proof (ok_lt _ _ _ _ k _ pv y HO Hk Hi ltac:(lia)) as [_ H]. specialize (H ltac:(lia)). lia.
    + cbn. by rewrite store_eq.
    + intros x Hx _. cbn. by rewrite store_ne.
    + replace (plus a 1) with (a + HSIZE) by (unfold plus, HSIZE; rewrite u32_small; lia). by apply (HQ F').
  - rewrite u32_small by lia. set (p := plus a (s - nunits)).
    assert (p = a + HSIZE * (s - nunits)) as Hp by (unfold p, plus, HSIZE; rewrite u32_small; lia).
    wp_next. apply wp_modify. fold p. wp_next. apply wp_modify, wp_ret. wp_next. apply wp_modify, wp_ret.
    cbn [hptr hsize freep brk outcomes]. set (h' := mkHeap _ _ _ _ _). unfold HSIZE in *.
    destruct (take_ok base F A h l1 pv (a, s) l2 [(a, s - nunits)] (p, nunits) h' HO E) as [F' HO']; cbn [fst snd app]; try done.
    + rewrite Hp. apply parts_tail. lia.
    + intros HC. cbn [chain fst snd first hptr hsize h']. split; [rewrite store_ne, store_eq by lia; done|]. split; [exact Hbp|].
      apply (chain_same h); [|done]. intros y Hy. cbn. apply list_elem_of_lookup in Hy as [i Hi]. unfold l2 in Hi. rewrite lookup_drop in Hi.
      pose proof (ok_sorted _ _ _ _ (S k) _ (a, s) y HO Hb Hi ltac:(lia)) as H. unfold fin, HSIZE in H. cbn [fst snd] in H.
      rewrite !store_ne by lia. done.
    + cbn. rewrite !store_ne by lia. done.
    + cbn. destruct (next_block _ _ _ _ HO k pv Hk) as [(c & Hc & -> & _)|(Hl & _)]; [by rewrite Hb in Hc; injection Hc as <-|].
      apply lookup_lt_Some in Hb. cbn [length] in *. lia.
    + cbn. by rewrite store_eq.
    + intros x Hx Hr. unfold fin, HSIZE in Hr. cbn [fst snd] in Hr. cbn. rewrite !store_ne by lia. done.
    + replace (plus p 1) with (p + 8) by (unfold plus, HSIZE; rewrite u32_small; lia). by apply (HQ F').
Qed.

(** How many blocks the loop looks at, the one after number [i] first, until it
    looks at number [j], in a list of [len]. *)
Definition steps (len i j : nat) : nat := if decide (i < j)%nat then (j - i)%nat else (len - i + j)%nat.

Definition next (len i : nat) : nat := if decide (S i = len) then 0%nat else S i.

Lemma steps_next len i j : (i < len)%nat -> (j < len)%nat ->
  (steps len i j = 1 /\ next len i = j)%nat \/ (steps len (next len i) j = steps len i j - 1 /\ 1 < steps len i j)%nat.
Proof. intros Hi Hj. unfold steps, next. repeat case_decide; lia. Qed.

Section scan.
Context (P : failure -> Prop) (base : Z) (F A : list block) (h : heap) (HO : heap_ok base F A h).
Context (nunits : Z) (Hn : 1 <= nunits).
Notation L := ((base, 0) :: F).

Lemma next_ptr i pv : L !! i = Some pv -> exists b, L !! next (length L) i = Some b /\ hptr h pv.1 = b.1.
Proof.
  intros Hi. unfold next. destruct (next_block _ _ _ _ HO i pv Hi) as [(c & Hc & -> & _)|(Hl & -> & _)].
  - exists c. rewrite decide_False; [done|]. apply lookup_lt_Some in Hc. cbn [length] in *. lia.
  - exists (base, 0). rewrite decide_True by (cbn [length] in *; lia). done.
Qed.

Lemma wp_scan n i pv k fp Q :
  L !! i = Some pv -> L !! k = Some fp -> fp.1 = freep h -> (steps (length L) i k <= n)%nat ->
  (forall F' p h', heap_ok base F' ((p, nunits) :: A) h' -> outcomes h' = outcomes h -> Q (p + HSIZE) h') ->
  (forall n', (n - steps (length L) i k <= n')%nat ->
     (forall j b, L !! j = Some b -> (steps (length L) i j <= steps (length L) i k)%nat -> b.2 < nunits) ->
     wp P (p ← morecore nunits; if p =? 0 then mret 0 else q ← ptr_of p; malloc_loop n' nunits p q) h Q) ->
  wp P (malloc_loop n nunits pv.1 (hptr h pv.1)) h Q.
Proof.
  intros Hi Hk Hfp. revert i pv Hi. pose proof (lookup_lt_Some _ _ _ Hk) as Hkl.
  induction n as [|n IH]; intros i pv Hi Hst HQ HK; pose proof (lookup_lt_Some _ _ _ Hi) as Hil.
  { unfold steps in Hst. case_decide; lia. }
  destruct (next_ptr i pv Hi) as (b & Hb & ->). destruct (chain_lookup _ _ _ _ _ (ok_chain _ _ _ _ HO) Hb) as [Hbs _].
  cbn [malloc_loop]. wp_next. apply wp_gets. rewrite Hbs. destruct (b.2 >=? nunits) eqn:Es.
  { apply (wp_take_block P base F A h i pv b); [done|done| |lia|done]. unfold next in Hb. case_decide; [|done].
    injection Hb as <-. cbn in Es. lia. }
  assert (forall j c, L !! j = Some c -> next (length L) i = j -> c.2 < nunits) as Hthis.
  { intros j c Hj <-. rewrite Hb in Hj. injection Hj as <-. lia. }
  wp_next. apply wp_gets. rewrite <- Hfp. destruct (steps_next (length L) i k Hil Hkl) as [[H1 H2]|[H1 H2]].
  - rewrite H2, Hk in Hb. injection Hb as ->. rewrite Z.eqb_refl. apply HK; [lia|].
    intros j c Hj Hle. apply (Hthis j c Hj). pose proof (lookup_lt_Some _ _ _ Hj) as Hjl.
    destruct (steps_next (length L) i j Hil Hjl) as [[_ E]|[_ E]]; [done|lia].
  - rewrite (proj2 (Z.eqb_neq _ _)).
    + wp_next. apply wp_gets. apply (IH (next (length L) i)); [done|lia|done|]. intros n' Hn' Hall. apply HK; [lia|].
      intros j c Hj Hle. pose proof (lookup_lt_Some _ _ _ Hj) as Hjl.
      destruct (steps_next (length L) i j Hil Hjl) as [[_ E]|[E1 E2]]; [by apply (Hthis j)|]. apply (Hall j c Hj). lia.
    + intros E. assert (next (length L) i = k); [|unfold steps, next in *; repeat case_decide; lia].
      destruct (decide (next (length L) i < k)%nat) as [Hlt|Hge].
      * pose proof (ok_lt _ _ _ _ _ _ _ _ HO Hb Hk ltac:(lia)) as [_ H]. specialize (H ltac:(lia)). lia.
      * destruct (decide (next (length L) i = k)) as [|Hne]; [done|].
        pose proof (ok_lt _ _ _ _ _ _ _ _ HO Hk Hb ltac:(lia)) as [_ H]. specialize (H ltac:(lia)). lia.
Qed.

End scan.

Lemma steps_le len i j : (i < len)%nat -> (j < len)%nat -> (steps len i j <= len)%nat.
Proof. intros. unfold steps. case_decide; lia. Qed.

(** The units of a request, when it is not too large. *)
Lemma units_small nbytes : 0 <= nbytes -> nbytes + 16 <= KERNBASE ->
  units nbytes = (nbytes + 7) / 8 + 1 /\ 1 <= units nbytes /\ nbytes + HSIZE <= units nbytes * HSIZE < KERNBASE.
Proof.
  intros H0 H1. assert (units nbytes = (nbytes + 7) / 8 + 1) as ->.
  { unfold units, HSIZE, KERNBASE in *. rewrite (u32_small (nbytes + 8)), (u32_small (nbytes + 8 - 1)) by lia.
    replace (nbytes + 8 - 1) with (nbytes + 7) by lia. apply u32_small.
    pose proof (Z.div_pos (nbytes + 7) 8 ltac:(lia) ltac:(lia)). pose proof (Z.mul_div_le (nbytes + 7) 8 ltac:(lia)). lia. }
  pose proof (Z.div_pos (nbytes + 7) 8 ltac:(lia) ltac:(lia)). pose proof (Z.div_mod (nbytes + 7) 8 ltac:(lia)).
  pose proof (Z.mod_pos_bound (nbytes + 7) 8 ltac:(lia)). unfold HSIZE, KERNBASE in *. lia.
Qed.

(** [malloc] once the list exists. *)
Definition malloc_go (nbytes : Z) : M heap Z :=
  prevp ← gets freep;
  p ← ptr_of prevp;
  n ← gets turns;
  malloc_loop (n + n) (units nbytes) prevp p.

Lemma wp_malloc_go P base F A h nbytes Q :
  heap_ok base F A h -> 0 <= nbytes -> nbytes + 16 <= KERNBASE ->
  (forall F' h', heap_ok base F' A h' -> Q 0 h') ->
  (forall F' p h', heap_ok base F' ((p, units nbytes) :: A) h' -> Q (p + HSIZE) h') ->
  wp P (malloc_go nbytes) h Q.
Proof.
  intros HO H0 H1 HQ0 HQ. unfold malloc_go. destruct (units_small nbytes H0 H1) as (_ & Hn1 & _ & Hn2).
  set (nunits := units nbytes) in *.
  pose proof (ok_freep _ _ _ _ HO) as Hf. apply list_elem_of_fmap in Hf as (fp & Hfp & Hf).
  apply list_elem_of_lookup in Hf as [k Hk]. wp_next. apply wp_gets. wp_next. apply wp_gets. wp_next. apply wp_gets. rewrite Hfp.
  pose proof (lookup_lt_Some _ _ _ Hk) as Hkl. pose proof (steps_le _ k k Hkl Hkl) as Hst. pose proof (turns_enough _ _ _ _ HO) as Htu.
  cbn [length] in *. apply (wp_scan P base F A h HO nunits Hn1 _ k fp k fp); [done|done|done|cbn [length]; lia|intros; by eapply HQ|].
  intros n' Hn' _. wp_next. apply (wp_morecore P base F A h); [done|done|done|intros h' HO'; by eapply wp_ret, HQ0|].
  intros F' h' HO' (b & HbF & Hbs) HL Hbr Hnz. rewrite (proj2 (Z.eqb_neq _ _)) by done. wp_next. apply wp_gets.
  pose proof (ok_freep _ _ _ _ HO') as Hf'. apply list_elem_of_fmap in Hf' as (fp' & Hfp' & Hf'). rewrite Hfp'.
  apply list_elem_of_lookup in Hf' as [k' Hk']. pose proof (lookup_lt_Some _ _ _ Hk') as Hkl'. pose proof (steps_le _ k' k' Hkl' Hkl') as Hst'.
  cbn [length] in *. apply (wp_scan P base F' A h' HO' nunits Hn1 n' k' fp' k' fp'); [done|done|done|cbn [length]; lia|intros; by eapply HQ|].
  intros n2 _ Hall. exfalso. apply list_elem_of_lookup in HbF as [j Hj].
  assert (b.2 < nunits); [|lia]. apply (Hall (S j) b Hj). pose proof (lookup_lt_Some _ _ _ Hj). cbn [length] in *.
  unfold steps. repeat case_decide; lia.
Qed.

(** ** The allocator and its clients *)

(** Before the first call of [malloc]. *)
Record heap_new (base : Z) (h : heap) : Prop := mkNew {
  nw_freep : freep h = 0;
  nw_base : 0 < base;
  nw_brk : base + HSIZE <= brk h < KERNBASE }.

(** [A] are the blocks in use. *)
Definition Inv (base : Z) (A : list block) (h : heap) : Prop :=
  (heap_new base h /\ A = []) \/ exists F, heap_ok base F A h.

Lemma ok_freep_nz base F A h : heap_ok base F A h -> freep h ≠ 0.
Proof.
  intros HO E. pose proof (ok_freep _ _ _ _ HO) as Hf. rewrite E in Hf. apply list_elem_of_fmap in Hf as (b & Eb & Hb).
  apply list_elem_of_lookup in Hb as [k Hk]. pose proof (ok_lt _ _ _ _ 0 k (base, 0) b HO eq_refl Hk ltac:(lia)) as [H _].
  pose proof (ok_base _ _ _ _ HO). cbn in H. lia.
Qed.

Lemma wp_malloc P base A h nbytes Q :
  Inv base A h -> 0 <= nbytes -> nbytes + 16 <= KERNBASE ->
  (forall h', Inv base A h' -> Q 0 h') ->
  (forall p h', Inv base ((p, units nbytes) :: A) h' -> 0 < p -> Q (p + HSIZE) h') ->
  wp P (malloc base nbytes) h Q.
Proof.
  intros HI H0 H1 HQ0 HQ. change (malloc base nbytes) with
    (f ← gets freep; when (f =? 0) (set_ptr base base;; set_freep base;; set_size base 0);; malloc_go nbytes).
  assert (forall F h1, heap_ok base F A h1 -> wp P (malloc_go nbytes) h1 Q) as Hgo.
  { intros F h1 HO. eapply wp_malloc_go; [done|done|done|intros F' h' HO'; apply HQ0; right; eauto|]. intros F' p h' HO'. apply HQ; [right; eauto|].
    pose proof (ok_range _ _ _ _ HO') as HR. rewrite <- Permutation_middle in HR. apply Forall_cons in HR as [(? & _) _].
    pose proof (ok_base _ _ _ _ HO'). unfold HSIZE in *. cbn in *. lia. }
  wp_next. apply wp_gets. wp_next. destruct HI as [[[E1 E2 E3] ->]|[F HO]].
  - rewrite E1. apply wp_when; [intros _|done]. wp_next. apply wp_modify. wp_next. apply wp_modify, wp_modify. cbn [hptr hsize freep brk outcomes].
    apply (Hgo []). constructor; cbn; try done; [|by apply list_elem_of_singleton]. rewrite !store_eq. done.
  - apply wp_when; [|intros _; by apply (Hgo F)]. intros E. by destruct (ok_freep_nz _ _ _ _ HO); lia.
Qed.

Lemma wp_free_inv P base A h b Q :
  Inv base (b :: A) h -> (forall h', Inv base A h' -> Q tt h') -> wp P (free (b.1 + HSIZE)) h Q.
Proof.
  intros [[_ ?]|[F HO]] HQ; [done|]. destruct b as [bp s]. eapply wp_free; [done|]. intros F' h' HO' _ _ _ _ _. apply HQ. right. eauto.
Qed.

Lemma Inv_perm base A A' h : A ≡ₚ A' -> Inv base A h -> Inv base A' h.
Proof.
  intros HP [[H ->]|[F []]]; [left; split; [done|]; by apply Permutation_nil in HP|]. right. exists F.
  constructor; try done; [by rewrite <- HP..|]. by rewrite <- HP.
Qed.

(** A program that calls [malloc] and [free] and stores what it likes in the
    blocks it has, behind their headers. *)
Inductive ustep (base : Z) : list block * heap -> list block * heap -> Prop :=
  | u_malloc A h nbytes r h' : 0 <= nbytes -> nbytes + 16 <= KERNBASE -> malloc base nbytes h = Ok r h' ->
      ustep base (A, h) (if decide (r = 0) then A else (r - HSIZE, units nbytes) :: A, h')
  | u_free A A' b h h' : A ≡ₚ b :: A' -> free (b.1 + HSIZE) h = Ok tt h' -> ustep base (A, h) (A', h')
  | u_store A b x v w h : b ∈ A -> b.1 < x < fin b ->
      ustep base (A, h) (A, mkHeap (store (hptr h) x v) (store (hsize h) x w) (freep h) (brk h) (outcomes h)).

Lemma Inv_store base A b x v w h : Inv base A h -> b ∈ A -> b.1 < x < fin b ->
  Inv base A (mkHeap (store (hptr h) x v) (store (hsize h) x w) (freep h) (brk h) (outcomes h)).
Proof.
  intros [[_ ->]|[F HO]] Hb Hx; [by apply elem_of_nil in Hb|]. right. exists F.
  eapply ok_same; [done| |done|cbn; pose proof (ok_brk _ _ _ _ HO); lia]. intros y Hy. cbn.
  assert (y.1 ≠ x); [|by rewrite !store_ne]. cbn [app] in Hy. pose proof (ok_range _ _ _ _ HO) as HR. rewrite Forall_forall in HR.
  destruct (HR b ltac:(rewrite elem_of_app; by right)) as (? & ? & _). apply elem_of_cons in Hy as [->|Hy]; [cbn; unfold HSIZE in *; lia|].
  destruct (HR y Hy) as (_ & ? & _). destruct (decide (y = b)) as [->|Hne]; [lia|].
  assert (apart b y) as Hap; [|unfold apart, fin, HSIZE in *; lia].
  pose proof (ok_apart _ _ _ _ HO) as HP. assert (b ∈ F ++ A) as HbF by (rewrite elem_of_app; by right).
  apply elem_of_Permutation in HbF as [R HPm]. rewrite HPm in HP, Hy. destruct HP as [HP _]. rewrite Forall_forall in HP.
  apply HP. by apply elem_of_cons in Hy as [->|?].
Qed.

Lemma ustep_inv base A h A' h' : Inv base A h -> ustep base (A, h) (A', h') -> Inv base A' h'.
Proof.
  intros HI HS. inversion HS as [? ? n r ? H0 H1 E|? ? b ? ? HP E|? b x v w ? Hb Hx]; subst.
  - apply (wp_elim any_failure (malloc base n) h r h' (fun r h' => Inv base (if decide (r = 0) then A else (r - HSIZE, units n) :: A) h')); [|done].
    apply (wp_malloc _ base A); [done|done|done|intros; by rewrite decide_True|]. intros p h2 HI2 Hp.
    rewrite decide_False by (unfold HSIZE; lia). by replace (p + HSIZE - HSIZE) with p by lia.
  - apply (wp_elim any_failure (free (b.1 + HSIZE)) h tt h' (fun _ h' => Inv base A' h')); [|done].
    apply (wp_free_inv _ base A'); [by apply (Inv_perm _ A)|done].
  - by eapply Inv_store.
Qed.

(** C21. The allocator as a program sees it, for requests of at most KERNBASE - 16 bytes
    (2 GB, more than a process can have; see [malloc_wraps] for larger ones).  After any
    sequence of such calls of [malloc], of calls of [free] and of stores into the blocks
    handed out, the blocks in use do not overlap, [malloc] ends and returns either 0 or
    a new block that is apart from all of them and has room for the request, and [free]
    of any of them ends. *)
Theorem umalloc_safe base h0 A h :
  heap_new base h0 -> rtc (ustep base) ([], h0) (A, h) ->
  pairwise A /\
  (forall nbytes, 0 <= nbytes -> nbytes + 16 <= KERNBASE ->
     exists r h', malloc base nbytes h = Ok r h' /\
       (r = 0 \/ exists s, pairwise ((r - HSIZE, s) :: A) /\ nbytes + HSIZE <= HSIZE * s /\ r - HSIZE + HSIZE * s <= brk h')) /\
  (forall b, b ∈ A -> exists h', free (b.1 + HSIZE) h = Ok tt h').
Proof.
  intros H0 HR.
  assert (Inv base A h) as HI.
  { remember (([], h0) : list block * heap) as s0 eqn:E0. remember (A, h) as s1 eqn:E1.
    assert (forall s s', rtc (ustep base) s s' -> Inv base s.1 s.2 -> Inv base s'.1 s'.2) as HInd.
    { clear. induction 1 as [|[A h] [A1 h1] s2 HS _ IH]; [done|]. intros HI. apply IH. cbn. by eapply ustep_inv. }
    pose proof (HInd _ _ HR) as H. subst. apply H. left. done. }
  split; [|split].
  - destruct HI as [[_ ->]|[F []]]; [done|]. by apply pairwise_app in ok_apart0 as (_ & ? & _).
  - intros nbytes Hn1 Hn2. destruct (units_small nbytes Hn1 Hn2) as (_ & _ & Hu & _).
    destruct (wp_total (malloc base nbytes) h (fun r h' => r = 0 \/
      exists s, pairwise ((r - HSIZE, s) :: A) /\ nbytes + HSIZE <= HSIZE * s /\ r - HSIZE + HSIZE * s <= brk h')) as (r & h' & E & H); [|eauto].
    apply (wp_malloc _ base A); [done|done|done|by left|]. intros p h' [[_ ?]|[F []]] Hp; [done|]. right. exists (units nbytes).
    replace (p + HSIZE - HSIZE) with p by lia. apply pairwise_app in ok_apart0 as (_ & ? & _). split; [done|]. split; [lia|].
    apply Forall_app in ok_range0 as [_ HRA]. apply Forall_cons in HRA as [(_ & _ & ?) _]. done.
  - intros b Hb. apply elem_of_Permutation in Hb as [A' HP]. apply (Inv_perm _ _ _ _ HP) in HI.
    destruct (wp_total (free (b.1 + HSIZE)) h (fun _ _ => True)) as ([] & h' & E & _); [|eauto]. by eapply wp_free_inv.
Qed.

(** A request so large that the computation of its size wraps around gets a block
    with no room at all: one unit is the header. *)
Theorem malloc_wraps nbytes : 4294967296 - 8 < nbytes < 4294967296 -> units nbytes = 1.
Proof.
  intros H. unfold units, HSIZE. assert (u32 (nbytes + 8) = nbytes + 8 - 4294967296) as ->.
  { unfold u32. symmetry. apply (Z.mod_unique_pos _ _ 1); lia. }
  rewrite (u32_small (nbytes + 8 - 4294967296 - 1)), Z.div_small by lia. done.
Qed.
