(* ===== verification/Console.v ===== *)
(** * The console: console.c

    Output: [cprintf] and [printint] give the characters to print, [consputc]
    sends them to the serial line and to the screen, whose cells and cursor
    [cgaputc] keeps.  Input: [consoleintr] edits the line in the ring buffer
    [input], [consoleread] takes bytes out of it.  The sections under [cons.lock]
    are atomic here, as in Pipe.v: a read goes on until it returns or has to
    sleep.  [panicked] is only set by a CPU that stops for good. *)

From stdpp Require Import base numbers list strings.
From S2P Require Import Prelude.
Open Scope Z_scope.

Module Console.

(** ** Formatted output *)

(** [digits[d]] *)
Definition digit (d : Z) : Z := if d <? 10 then 48 + d else 87 + d.

(** [do{ buf[i++] = digits[x % base]; }while((x /= base) != 0);]  A [uint] has at
    most 32 digits. *)
Fixpoint printint_loop (fuel : nat) (x base : Z) : list Z :=
  match fuel with
  | O => []
  | S fuel => digit (x mod base) :: (if x / base =? 0 then [] else printint_loop fuel (x / base) base)
  end.

(** What is in [buf] before it is printed from its end. *)
Definition printint_buf (xx base sign : Z) : list Z :=
  let neg := negb (sign =? 0) && (xx <? 0) in
  let x := if neg then u32 (- xx) else u32 xx in
  printint_loop 32 x base ++ (if neg then [45] else []).

Definition printint (xx base sign : Z) : list Z := reverse (printint_buf xx base sign).

(** "(null)" *)
Definition null_str : list Z := [40; 110; 117; 108; 108; 41].

(** The characters [cprintf] prints; [args] are the words after the format, [str]
    is the string at an address. *)
Fixpoint cprintf_out (str : Z -> list Z) (fmt : list Z) (args : list Z) : list Z :=
  match fmt with
  | [] => []
  | c :: fmt =>
      if negb (c =? 37) then c :: cprintf_out str fmt args else
      match fmt with
      | [] => []
      | c :: fmt =>
          let a := default 0 (head args) in
          if c =? 100 then printint (i32 a) 10 1 ++ cprintf_out str fmt (tail args)
          else if (c =? 120) || (c =? 112) then printint (i32 a) 16 0 ++ cprintf_out str fmt (tail args)
          else if c =? 115 then (if a =? 0 then null_str else str a) ++ cprintf_out str fmt (tail args)
          else if c =? 37 then 37 :: cprintf_out str fmt args
          else 37 :: c :: cprintf_out str fmt args
      end
  end.

(** ** The screen *)

Definition BACKSPACE : Z := 256.

(** The cells of the CGA memory that are shown, and the cursor. *)
Record screen := mkScreen { crt : list Z; pos : Z }.

(** [c & 0xff | 0x0700] *)
Definition cell (c : Z) : Z := Z.lor (Z.land c 255) 1792.

(** Where the cursor goes, and the character. *)
Definition cga_put (c : Z) (s : screen) : screen :=
  if c =? 10 then mkScreen (crt s) (pos s + (80 - pos s mod 80))
  else if c =? BACKSPACE then mkScreen (crt s) (if pos s >? 0 then pos s - 1 else pos s)
  else mkScreen (<[Z.to_nat (pos s) := cell c]> (crt s)) (pos s + 1).

(** [memmove(crt, crt+80, 23*80 cells); pos -= 80; memset(crt+pos, 0, 24*80 - pos cells);] *)
Definition cga_scroll (s : screen) : screen :=
  let m := take (23 * 80) (drop 80 (crt s)) ++ drop (23 * 80) (crt s) in
  let p := pos s - 80 in
  let n := Z.to_nat (24 * 80 - p) in
  mkScreen (take (Z.to_nat p) m ++ replicate n 0 ++ drop (Z.to_nat p + n) m) p.

Definition cgaputc (c : Z) : M screen unit :=
  modify (cga_put c);;
  p ← gets pos;
  if (p <? 0) || (p >? 25 * 80) then panic "pos under/overflow" else
  when (p / 80 >=? 24) (modify cga_scroll);;
  modify (fun s => mkScreen (<[Z.to_nat (pos s) := cell 32]> (crt s)) (pos s)).

(** The screen and the bytes sent to the serial line. *)
Record output := mkOut { scr : screen; serial : list Z }.

Definition uartputc (c : Z) : M output unit := modify (fun s => mkOut (scr s) (serial s ++ [u8 c])).

Definition consputc (c : Z) : M output unit :=
  (if c =? BACKSPACE then uartputc 8;; uartputc 32;; uartputc 8 else uartputc c);;
  zoom scr (fun v s => mkOut v (serial s)) (cgaputc c).

Definition cprintf (str : Z -> list Z) (fmt args : list Z) : M output unit :=
  mfor (cprintf_out str fmt args) consputc.

Definition consolewrite (buf : list Z) (n : Z) : M output Z :=
  mfor (take (Z.to_nat n) buf) (fun c => consputc (Z.land c 255));;
  mret n.

(** ** Input *)

Definition INPUT_BUF : Z := 128.

(** The read, write and edit indices are [uint]s. *)
Record input := mkIn { buf : list Z; r : Z; w : Z; e : Z }.

Definition set_e (v : Z) (s : input) : input := mkIn (buf s) (r s) (w s) v.

Definition slot (i : Z) : nat := Z.to_nat (i mod INPUT_BUF).

(** [C(x)] *)
Definition C (x : Z) : Z := x - 64.

Record console := mkCons { inp : input; out : output }.

Definition on_in {A} (m : M input A) : M console A := zoom inp (fun v s => mkCons v (out s)) m.
Definition on_out {A} (m : M output A) : M console A := zoom out (fun v s => mkCons (inp s) v) m.

(** [while(input.e != input.w && input.buf[(input.e-1) % INPUT_BUF] != '\n'){ ... }];
    [n] bounds the length of the line. *)
Fixpoint kill_line (n : nat) : M console unit :=
  match n with
  | O => mret tt
  | S n =>
      i ← on_in (gets id);
      when (negb (e i =? w i) && negb (default 0 (buf i !! slot (u32 (e i - 1))) =? 10)) (
        on_in (modify (set_e (u32 (e i - 1))));;
        on_out (consputc BACKSPACE);;
        kill_line n)
  end.

(** One turn of the loop: whether [procdump] is wanted, whether the readers are
    woken. *)
Definition consoleintr_char (c : Z) : M console (bool * bool) :=
  if c =? C 80 then mret (true, false)
  else if c =? C 85 then kill_line (Z.to_nat INPUT_BUF);; mret (false, false)
  else if (c =? C 72) || (c =? 127) then
    i ← on_in (gets id);
    when (negb (e i =? w i)) (on_in (modify (set_e (u32 (e i - 1))));; on_out (consputc BACKSPACE));;
    mret (false, false)
  else
    i ← on_in (gets id);
    if negb (c =? 0) && (u32 (e i - r i) <? INPUT_BUF) then
      let c := if c =? 13 then 10 else c in
      on_in (modify (fun s => mkIn (<[slot (e s) := u8 c]> (buf s)) (r s) (w s) (u32 (e s + 1))));;
      on_out (consputc c);;
      i ← on_in (gets id);
      if (c =? 10) || (c =? C 68) || (e i =? u32 (r i + INPUT_BUF)) then
        on_in (modify (fun s => mkIn (buf s) (r s) (e s) (e s)));;
        mret (false, true)
      else mret (false, false)
    else mret (false, false).

(** [cs] are the characters [getc] returns before it returns a negative value. *)
Fixpoint consoleintr (cs : list Z) : M console (bool * bool) :=
  match cs with
  | [] => mret (false, false)
  | c :: cs =>
      a ← consoleintr_char c;
      b ← consoleintr cs;
      mret (a.1 || b.1, a.2 || b.2)
  end.

(** How a section of [consoleread] ends: with the result and the bytes stored, or
    asleep with [n] bytes still wanted. *)
Inductive outcome := Return (v : Z) (dst : list Z) | Sleep (n : Z) (dst : list Z).

(** The loop, from [n] on; [dst] are the bytes stored so far. *)
Fixpoint consoleread_loop (killed : bool) (target : Z) (k : nat) (dst : list Z) : M input outcome :=
  let n := Z.of_nat k in
  match k with
  | O => mret (Return target dst)
  | S k =>
      i ← gets id;
      if r i =? w i then
        if killed then mret (Return (-1) dst) else mret (Sleep n dst)
      else
        let c := default 0 (buf i !! slot (r i)) in
        modify (fun s => mkIn (buf s) (u32 (r s + 1)) (w s) (e s));;
        if c =? C 68 then
          when (n <? target) (modify (fun s => mkIn (buf s) (u32 (r s - 1)) (w s) (e s)));;
          mret (Return (target - n) dst)
        else if c =? 10 then mret (Return (target - (n - 1)) (dst ++ [c]))
        else consoleread_loop killed target k (dst ++ [c])
  end.

(** A call, [n] bytes of [target] being still wanted, from the start or after a
    sleep. *)
Definition consoleread (killed : bool) (target n : Z) (dst : list Z) : M input outcome :=
  if n <=? 0 then mret (Return (target - n) dst) else consoleread_loop killed target (Z.to_nat n) dst.

End Console.
