(* ===== verification/ConsoleThms.v ===== *)
(** * The console: the screen stays in bounds, input is edited lines; the keyboard *)

From stdpp Require Import base numbers list strings.
From S2P Require Import Prelude Console.
Import Console.
Open Scope Z_scope.

(** ** The screen *)

Record screen_ok (s : screen) : Prop := mkScrOk {
  so_len : length (crt s) = 2000%nat;
  so_pos : 0 <= pos s < 1920 }.

(** The cells before the cursor. *)
Definition before (s : screen) : list Z := take (Z.to_nat (pos s)) (crt s).

(** What a character adds to them. *)
Definition typed (c : Z) (s : screen) : list Z :=
  if c =? 10 then take (Z.to_nat (pos s + (80 - pos s mod 80))) (crt s)
  else if c =? BACKSPACE then take (Z.to_nat (pos s - 1)) (crt s)
  else before s ++ [cell c].

Lemma cga_put_ok c s : screen_ok s -> let t := cga_put c s in
  length (crt t) = 2000%nat /\ 0 <= pos t <= 1920 /\ before t = typed c s.
Proof.
  intros [H1 H2]. unfold cga_put, typed, before. pose proof (Z.mod_pos_bound (pos s) 80 ltac:(lia)).
  pose proof (Z.div_mod (pos s) 80 ltac:(lia)). assert (pos s / 80 < 24) by (apply Z.div_lt_upper_bound; lia).
  destruct (c =? 10); cbn [crt pos].
  { split; [done|]. split; [nia|done]. }
  destruct (c =? BACKSPACE); cbn [crt pos].
  { split; [done|]. split; [case_match; lia|]. destruct (pos s >? 0) eqn:E; [done|]. by replace (pos s) with 0 by lia. }
  rewrite length_insert. split; [done|]. split; [lia|]. replace (Z.to_nat (pos s + 1)) with (S (Z.to_nat (pos s))) by lia.
  rewrite (take_S_r _ _ (cell c)) by (rewrite list_lookup_insert_eq; [done|lia]). f_equal. apply take_insert_ge. lia.
Qed.

Lemma cga_scroll_ok s : length (crt s) = 2000%nat -> pos s = 1920 -> let t := cga_scroll s in
  length (crt t) = 2000%nat /\ pos t = 1840 /\ before t = drop 80 (before s).
Proof.
  intros H1 H2. unfold cga_scroll, before. rewrite H2. cbn [crt pos].
  change (Z.to_nat (1920 - 80)) with 1840%nat. change (Z.to_nat (24 * 80 - (1920 - 80))) with 80%nat.
  change (Z.to_nat 1920) with 1920%nat.
  assert (length (take (23 * 80) (drop 80 (crt s)) ++ drop (23 * 80) (crt s)) = 2000%nat) as Hm.
  { rewrite length_app, length_take, !length_drop, H1. done. }
  split; [rewrite !length_app, length_take, length_replicate, length_drop, Hm; done|]. split; [done|].
  rewrite take_app_le by (rewrite length_take, Hm; lia). rewrite take_take, Nat.min_id.
  rewrite take_app_le by (rewrite length_take, length_drop, H1; lia). rewrite take_take.
  change (1840 `min` (23 * 80))%nat with 1840%nat. by rewrite take_drop_commute.
Qed.

(** The cursor stays on the screen, whatever is printed: no panic, and no store
    outside of the 25 rows.  What was before the cursor is still there, with what
    the character adds to it, moved up by one row when the cursor would leave the
    24th. *)
Lemma wp_cgaputc P c s Q : screen_ok s ->
  (forall s', screen_ok s' ->
     before s' = (if (length (typed c s) <? 1920)%nat then typed c s else drop 80 (typed c s)) -> Q tt s') ->
  wp P (cgaputc c) s Q.
Proof.
  intros Hs HQ. destruct (cga_put_ok c s Hs) as (H1 & H2 & H3). set (t := cga_put c s) in *. unfold cgaputc.
  wp_next. apply wp_modify. fold t. wp_next. apply wp_gets.
  replace ((pos t <? 0) || (pos t >? 25 * 80)) with false by lia.
  assert (length (typed c s) = Z.to_nat (pos t)) as Hl by (rewrite <- H3; unfold before; rewrite length_take; lia).
  assert (forall u, length (crt u) = 2000%nat -> 0 <= pos u < 1920 ->
    before u = (if (length (typed c s) <? 1920)%nat then typed c s else drop 80 (typed c s)) ->
    wp P (modify (fun s => mkScreen (<[Z.to_nat (pos s) := cell 32]> (crt s)) (pos s))) u Q) as Hend.
  { intros u Hu Hpu Hb. apply wp_modify, HQ; [constructor; cbn [crt pos]; [by rewrite length_insert|done]|].
    rewrite <- Hb. unfold before. cbn [crt pos]. apply take_insert_ge. lia. }
  wp_next. apply wp_when; intros E.
  - assert (1920 <= pos t) by (pose proof (Z.mul_div_le (pos t) 80 ltac:(lia)); lia). apply wp_modify.
    destruct (cga_scroll_ok t H1 ltac:(lia)) as (H4 & H5 & H6). apply Hend; [done|lia|].
    rewrite H6, H3. rewrite (proj2 (Nat.ltb_ge _ _)) by lia. done.
  - assert (pos t < 1920).
    { destruct (decide (pos t < 1920)); [done|]. assert (24 <= pos t / 80) by (apply Z.div_le_lower_bound; lia). lia. }
    apply Hend; [done|lia|]. rewrite (proj2 (Nat.ltb_lt _ _)) by lia. done.
Qed.

Definition out_ok (o : output) : Prop := screen_ok (scr o).

Lemma wp_consputc P c o Q : out_ok o -> (forall o', out_ok o' -> Q tt o') -> wp P (consputc c) o Q.
Proof.
  intros Ho HQ. unfold consputc. wp_next.
  assert (forall o', scr o' = scr o -> wp P (zoom scr (fun v s => mkOut v (serial s)) (cgaputc c)) o' Q) as H.
  { intros o' E. apply wp_zoom. rewrite E. apply wp_cgaputc; [done|]. intros s' Hs' _. by apply HQ. }
  destruct (c =? BACKSPACE); [|by apply wp_modify, H].
  wp_next. apply wp_modify. wp_next. apply wp_modify, wp_modify. by apply H.
Qed.

(** ** The line discipline *)

(** Complete lines that can be read, and the line being edited. *)
Record tty := mkTty { ready : list Z; edit : list Z }.

Definition tty_len (t : tty) : nat := (length (ready t) + length (edit t))%nat.

(** A key; whether the readers are woken. *)
Definition tty_key (c : Z) (t : tty) : tty * bool :=
  if c =? C 80 then (t, false)
  else if c =? C 85 then (mkTty (ready t) [], false)
  else if (c =? C 72) || (c =? 127) then (mkTty (ready t) (removelast (edit t)), false)
  else if negb (c =? 0) && (tty_len t <? 128)%nat then
    let c := if c =? 13 then 10 else c in
    if (c =? 10) || (c =? C 68) || (S (tty_len t) =? 128)%nat
    then (mkTty (ready t ++ edit t ++ [c]) [], true)
    else (mkTty (ready t) (edit t ++ [c]), false)
  else (t, false).

(** A read of at most [n] bytes: up to a newline, or to control-D, which only
    counts at the start of a read. *)
Fixpoint tty_read (killed : bool) (target : Z) (k : nat) (dst l : list Z) : outcome * list Z :=
  match k, l with
  | O, l => (Return target dst, l)
  | S _, [] => (if killed then Return (-1) dst else Sleep (Z.of_nat k) dst, [])
  | S k', c :: l' =>
      if c =? C 68 then (Return (target - Z.of_nat k) dst, if Z.of_nat k <? target then l else l')
      else if c =? 10 then (Return (target - Z.of_nat k') (dst ++ [c]), l')
      else tty_read killed target k' (dst ++ [c]) l'
  end.

(** The ring buffer holds the two, one after the other. *)
Record in_rep (t : tty) (i : input) : Prop := mkRep {
  ir_len : length (buf i) = 128%nat;
  ir_w : w i = u32 (r i + Z.of_nat (length (ready t)));
  ir_e : e i = u32 (r i + Z.of_nat (tty_len t));
  ir_r : 0 <= r i < 4294967296;
  ir_max : (tty_len t <= 128)%nat;
  ir_buf : forall k c, (ready t ++ edit t) !! k = Some c -> buf i !! slot (r i + Z.of_nat k) = Some c;
  ir_line : 10 ∉ edit t }.

Lemma slot_u32 x : slot (u32 x) = slot x.
Proof.
  unfold slot, u32, INPUT_BUF. change 4294967296 with (128 * 33554432). rewrite Z.rem_mul_r by lia.
  rewrite Z.mul_comm, Z_mod_plus_full. by rewrite Z.mod_mod by lia.
Qed.

Lemma slot_lt x : (slot x < 128)%nat.
Proof. unfold slot, INPUT_BUF. pose proof (Z.mod_pos_bound x 128 ltac:(lia)). lia. Qed.

Lemma slot_inj x j k : 0 <= j < 128 -> 0 <= k < 128 -> slot (x + j) = slot (x + k) -> j = k.
Proof.
  unfold slot, INPUT_BUF. intros Hj Hk H. pose proof (Z.mod_pos_bound (x + j) 128 ltac:(lia)).
  pose proof (Z.mod_pos_bound (x + k) 128 ltac:(lia)). pose proof (Z.div_mod (x + j) 128 ltac:(lia)).
  pose proof (Z.div_mod (x + k) 128 ltac:(lia)). apply Z2Nat.inj in H; [|lia|lia]. nia.
Qed.

Lemma u32_eq_add x a b : 0 <= a < 4294967296 -> 0 <= b < 4294967296 -> u32 (x + a) = u32 (x + b) -> a = b.
Proof.
  unfold u32. intros Ha Hb H. pose proof (Z.div_mod (x + a) 4294967296 ltac:(lia)).
  pose proof (Z.div_mod (x + b) 4294967296 ltac:(lia)). nia.
Qed.

Lemma u32_dist x a : 0 <= a < 4294967296 -> u32 (u32 (x + a) - x) = a.
Proof. intros Ha. rewrite u32_sub_l. replace (x + a - x) with a by lia. by apply u32_small. Qed.

Section rep.
Context (t : tty) (i : input) (HR : in_rep t i).

Lemma rep_empty : (e i =? w i) = bool_decide (edit t = []).
Proof.
  destruct HR as [H1 H2 H3 H4 H5 H6 H7]. unfold tty_len in *. rewrite H2, H3. case_bool_decide as E.
  - rewrite E. cbn [length]. rewrite Nat.add_0_r. apply Z.eqb_refl.
  - apply Z.eqb_neq. intros H. apply u32_eq_add in H; [|lia|lia]. apply E. apply nil_length_inv. lia.
Qed.

Lemma rep_none : (r i =? w i) = bool_decide (ready t = []).
Proof.
  destruct HR as [H1 H2 H3 H4 H5 H6 H7]. unfold tty_len in *. rewrite H2. case_bool_decide as E.
  - rewrite E. cbn [length]. rewrite Z.add_0_r, u32_small by lia. apply Z.eqb_refl.
  - apply Z.eqb_neq. intros H. rewrite <- (u32_small (r i)) in H at 1 by lia. rewrite <- (Z.add_0_r (r i)) in H at 1.
    apply u32_eq_add in H; [|lia|lia]. apply E. apply nil_length_inv. lia.
Qed.

(** The last character of the line is dropped. *)
Lemma rep_back ed c : edit t = ed ++ [c] ->
  in_rep (mkTty (ready t) ed) (set_e (u32 (e i - 1)) i) /\ default 0 (buf i !! slot (u32 (e i - 1))) = c /\ c ≠ 10.
Proof.
  destruct HR as [H1 H2 H3 H4 H5 H6 H7]. unfold tty_len in *. intros E. rewrite E in *. rewrite length_app in *. cbn [length] in *.
  assert (u32 (e i - 1) = u32 (r i + Z.of_nat (length (ready t) + length ed))) as Ee.
  { rewrite H3, u32_sub_l. f_equal. lia. }
  split; [|split].
  - constructor; unfold tty_len; cbn [buf r w e ready edit set_e]; try done; [lia| |].
    + intros k c' Hk. apply H6. rewrite app_assoc. by apply lookup_app_l_Some.
    + intros Hin. apply H7. rewrite elem_of_app. by left.
  - rewrite Ee, slot_u32. rewrite (H6 _ c); [done|]. rewrite app_assoc, lookup_app_r by (rewrite length_app; lia).
    rewrite length_app. by replace (_ - _)%nat with 0%nat by lia.
  - intros ->. apply H7. rewrite elem_of_app. right. by left.
Qed.

(** A character is stored behind the others. *)
Lemma rep_store c k c' : (tty_len t < 128)%nat -> (ready t ++ edit t ++ [c]) !! k = Some c' ->
  <[slot (e i) := c]> (buf i) !! slot (r i + Z.of_nat k) = Some c'.
Proof.
  destruct HR as [H1 H2 H3 H4 H5 H6 H7]. unfold tty_len in *. intros Hl Hk. rewrite H3, slot_u32.
  rewrite app_assoc in Hk. apply lookup_app_Some in Hk as [Hk|[Hk1 Hk]].
  - apply lookup_lt_Some in Hk as Hk2. rewrite length_app in Hk2. rewrite list_lookup_insert_ne; [by apply H6|].
    intros Hs. apply slot_inj in Hs; lia.
  - rewrite length_app in *. apply list_lookup_singleton_Some in Hk as [Hk2 ->].
    replace k with (length (ready t) + length (edit t))%nat by lia. apply list_lookup_insert_eq. rewrite H1. apply slot_lt.
Qed.

Lemma rep_next c : u32 (e i + 1) = u32 (r i + Z.of_nat (length (ready t ++ edit t ++ [c]))).
Proof.
  destruct HR as [H1 H2 H3 H4 H5 H6 H7]. rewrite H3, u32_add_l. f_equal. unfold tty_len. rewrite !length_app. cbn [length]. lia.
Qed.

Lemma rep_add c : (tty_len t < 128)%nat -> c ≠ 10 -> in_rep (mkTty (ready t) (edit t ++ [c]))
  (mkIn (<[slot (e i) := c]> (buf i)) (r i) (w i) (u32 (e i + 1))).
Proof.
  intros Hl Hc. pose proof (fun k c' => rep_store c k c' Hl) as HS. pose proof (rep_next c) as HN.
  destruct HR as [H1 H2 H3 H4 H5 H6 H7]. unfold tty_len in *.
  constructor; unfold tty_len; cbn [buf r w e ready edit]; try done.
  - by rewrite length_insert.
  - rewrite HN. f_equal. f_equal. by rewrite length_app.
  - rewrite length_app. cbn [length]. lia.
  - rewrite elem_of_app, list_elem_of_singleton. intros [?|?]; [done|]. by apply Hc.
Qed.

(** The line is complete with it. *)
Lemma rep_commit c : (tty_len t < 128)%nat -> in_rep (mkTty (ready t ++ edit t ++ [c]) [])
  (mkIn (<[slot (e i) := c]> (buf i)) (r i) (u32 (e i + 1)) (u32 (e i + 1))).
Proof.
  intros Hl. pose proof (fun k c' => rep_store c k c' Hl) as HS. pose proof (rep_next c) as HN.
  destruct HR as [H1 H2 H3 H4 H5 H6 H7]. unfold tty_len in *.
  constructor; unfold tty_len; cbn [buf r w e ready edit length]; try done.
  - by rewrite length_insert.
  - rewrite HN. f_equal. lia.
  - rewrite !length_app. cbn [length]. lia.
  - intros k c'. rewrite app_nil_r. apply HS.
  - apply not_elem_of_nil.
Qed.

(** The first character is read. *)
Lemma rep_read c l : ready t = c :: l ->
  default 0 (buf i !! slot (r i)) = c /\ in_rep (mkTty l (edit t)) (mkIn (buf i) (u32 (r i + 1)) (w i) (e i)) /\
  u32 (u32 (r i + 1) - 1) = r i.
Proof.
  destruct HR as [H1 H2 H3 H4 H5 H6 H7]. unfold tty_len in *. intros E. rewrite E in *. cbn [length] in *. split; [|split].
  - pose proof (H6 0%nat c ltac:(done)) as H. rewrite Z.add_0_r in H. by rewrite H.
  - constructor; unfold tty_len; cbn [buf r w e ready edit]; try done.
    + rewrite H2, u32_add_l. f_equal. lia.
    + rewrite H3, u32_add_l. f_equal. lia.
    + apply u32_range.
    + lia.
    + intros k c' Hk. rewrite <- slot_u32, u32_add_l, slot_u32.
      replace (r i + 1 + Z.of_nat k) with (r i + Z.of_nat (S k)) by lia. by apply H6.
  - rewrite u32_sub_l. replace (r i + 1 - 1) with (r i) by lia. by apply u32_small.
Qed.

End rep.

Definition con_ok (t : tty) (s : console) : Prop := in_rep t (inp s) /\ out_ok (out s).

Lemma wp_echo P c s Q : out_ok (out s) -> (forall o, out_ok o -> Q tt (mkCons (inp s) o)) -> wp P (on_out (consputc c)) s Q.
Proof. intros Ho HQ. apply wp_zoom, wp_consputc; [done|]. intros o' Ho'. by apply HQ. Qed.

Lemma wp_kill_line P n t s Q :
  con_ok t s -> (length (edit t) <= n)%nat -> (forall s', con_ok (mkTty (ready t) []) s' -> Q tt s') ->
  wp P (kill_line n) s Q.
Proof.
  revert t s. induction n as [|n IH]; intros t s [HR Ho] Hn HQ; cbn [kill_line].
  { apply wp_ret, HQ. destruct t as [rd [|]]; [done|cbn in Hn; lia]. }
  wp_next. apply wp_zoom, wp_gets. cbn [id]. destruct s as [i o]. cbn [inp out] in *.
  rewrite (rep_empty t i HR). case_bool_decide as E; cbn [negb andb].
  { apply wp_when; [done|]. intros _. apply HQ. destruct t. cbn in *. by subst. }
  destruct (exists_last E) as (ed & c & Ed). destruct (rep_back t i HR ed c Ed) as (HR' & -> & Hc).
  rewrite (proj2 (Z.eqb_neq _ _) Hc). cbn [negb]. apply wp_when; [intros _|done].
  wp_next. apply wp_zoom, wp_modify. wp_next. apply wp_echo; [done|]. intros o' Ho'.
  apply (IH (mkTty (ready t) ed)); [done|cbn [edit]; rewrite Ed, length_app in Hn; cbn [length] in Hn; lia|exact HQ].
Qed.

(** One key has the effect it has on the abstract line. *)
Lemma wp_key P c t s Q :
  con_ok t s -> 0 <= c < 256 ->
  (forall s' d, con_ok (tty_key c t).1 s' -> Q (d, (tty_key c t).2) s') -> wp P (consoleintr_char c) s Q.
Proof.
  intros [HR Ho] Hc HQ. unfold consoleintr_char, tty_key in *. destruct (c =? C 80); [by apply wp_ret, HQ|].
  destruct (c =? C 85).
  { wp_next. eapply wp_kill_line; [by split| |].
    - pose proof (ir_max _ _ HR). unfold tty_len in *. change (Z.to_nat INPUT_BUF) with 128%nat. lia.
    - intros s' Hs'. by apply wp_ret, HQ. }
  destruct s as [i o]. cbn [inp out] in *.
  destruct ((c =? C 72) || (c =? 127)).
  { wp_next. apply wp_zoom, wp_gets. cbn [id inp]. rewrite (rep_empty t i HR). wp_next.
    case_bool_decide as E; cbn [negb]; (apply wp_when; [|done] || (apply wp_when; [done|]); intros _).
    - apply wp_ret, HQ. cbn [fst]. rewrite E. destruct t. cbn in *. by subst.
    - destruct (exists_last E) as (ed & c' & Ed). destruct (rep_back t i HR ed c' Ed) as (HR' & _ & _).
      wp_next. apply wp_zoom, wp_modify. apply wp_echo; [done|]. intros o' Ho'. apply wp_ret, HQ. cbn [fst].
      rewrite Ed, removelast_last. done. }
  wp_next. apply wp_zoom, wp_gets. cbn [id inp]. pose proof (ir_max _ _ HR) as Hmax.
  rewrite (ir_e _ _ HR), u32_dist by lia.
  assert ((Z.of_nat (tty_len t) <? INPUT_BUF) = (tty_len t <? 128)%nat) as ->.
  { unfold INPUT_BUF. destruct (Nat.ltb_spec (tty_len t) 128); [apply Z.ltb_lt|apply Z.ltb_ge]; lia. }
  destruct (negb (c =? 0) && (tty_len t <? 128)%nat) eqn:E; [|by apply wp_ret, HQ].
  apply andb_prop in E as [_ Hl]. apply Nat.ltb_lt in Hl. set (c' := if c =? 13 then 10 else c) in *.
  assert (u8 c' = c') as Hc' by (apply u8_small; unfold c'; destruct (c =? 13); lia).
  wp_next. apply wp_zoom, wp_modify. wp_next. apply wp_echo; [done|]. intros o' Ho'.
  wp_next. apply wp_zoom, wp_gets. cbn [id inp out e r]. rewrite Hc' in *.
  assert ((u32 (e i + 1) =? u32 (r i + INPUT_BUF)) = (S (tty_len t) =? 128)%nat) as ->.
  { rewrite (rep_next t i HR 0), !length_app. cbn [length]. unfold INPUT_BUF, tty_len in *.
    destruct (decide (length (ready t) + length (edit t) = 127)%nat) as [E|E].
    - replace (Z.of_nat _) with 128 by lia. rewrite Z.eqb_refl. symmetry. apply Nat.eqb_eq. lia.
    - rewrite (proj2 (Nat.eqb_neq _ _)) by lia. apply Z.eqb_neq. intros H. apply u32_eq_add in H; lia. }
  destruct ((c' =? 10) || (c' =? C 68) || (S (tty_len t) =? 128)%nat) eqn:E.
  - wp_next. apply wp_zoom, wp_modify, wp_ret, HQ. split; [|done]. cbn [inp out buf r w e fst]. by apply rep_commit.
  - apply wp_ret, HQ. split; [|done]. cbn [inp out fst]. apply rep_add; [done|done|]. lia.
Qed.

Fixpoint tty_keys (cs : list Z) (t : tty) : tty * bool :=
  match cs with
  | [] => (t, false)
  | c :: cs => let '(t1, a) := tty_key c t in let '(t2, b) := tty_keys cs t1 in (t2, a || b)
  end.

Lemma wp_keys P cs t s Q :
  con_ok t s -> Forall (fun c => 0 <= c < 256) cs ->
  (forall s' d, con_ok (tty_keys cs t).1 s' -> Q (d, (tty_keys cs t).2) s') -> wp P (consoleintr cs) s Q.
Proof.
  intros Ht Hcs. revert t s Q Ht. induction Hcs as [|c cs Hc Hcs IH]; intros t s Q Ht HQ; cbn [consoleintr tty_keys] in *.
  { by apply wp_ret, HQ. }
  wp_next. eapply wp_key; [done|done|]. intros s1 d1 Ht1. destruct (tty_key c t) as [t1 a]. cbn [fst snd] in *.
  wp_next. eapply IH; [done|]. intros s2 d2 Ht2. destruct (tty_keys cs t1) as [t2 b]. cbn [fst snd] in *. by apply wp_ret, HQ.
Qed.

Lemma wp_read P killed target k dst t i Q :
  in_rep t i ->
  (forall o l i', tty_read killed target k dst (ready t) = (o, l) -> in_rep (mkTty l (edit t)) i' -> Q o i') ->
  wp P (consoleread_loop killed target k dst) i Q.
Proof.
  revert dst t i. induction k as [|k IH]; intros dst t i HR HQ; cbn [consoleread_loop].
  { apply wp_ret. eapply HQ; [done|]. by destruct t. }
  wp_next. apply wp_gets. cbn [id]. rewrite (rep_none t i HR). case_bool_decide as E.
  { cbn [tty_read] in HQ. rewrite E in HQ. destruct killed; apply wp_ret; (eapply HQ; [done|]); destruct t; cbn in *; by subst. }
  destruct (ready t) as [|c l] eqn:El; [done|]. destruct (rep_read t i HR c l El) as (-> & HR' & Hback).
  cbn [tty_read] in HQ. wp_next. apply wp_modify. destruct (c =? C 68).
  - wp_next. apply wp_when; intros Hn; rewrite Hn in HQ.
    + apply wp_modify, wp_ret. eapply HQ; [done|]. cbn [buf r w e]. rewrite Hback.
      rewrite <- El. destruct t, i. exact HR.
    + apply wp_ret. by eapply HQ.
  - destruct (c =? 10).
    + apply wp_ret. eapply HQ; [|exact HR']. do 2 f_equal. lia.
    + apply (IH _ (mkTty l (edit t))); [exact HR'|exact HQ].
Qed.

(** ** The driver as a whole *)

(** An interrupt with the characters it brings, or a section of a read. *)
Inductive cevent := Keys (cs : list Z) | Read (killed : bool) (target n : Z) (dst : list Z).

(** What it results in: whether readers are woken, or how the read goes on. *)
Inductive cresult := RKeys (woken : bool) | RRead (o : outcome).

Definition cstep (ev : cevent) : M console cresult :=
  match ev with
  | Keys cs => x ← consoleintr cs; mret (RKeys x.2)
  | Read killed target n dst => o ← on_in (consoleread killed target n dst); mret (RRead o)
  end.

Definition tstep (ev : cevent) (t : tty) : tty * cresult :=
  match ev with
  | Keys cs => let '(t, b) := tty_keys cs t in (t, RKeys b)
  | Read killed target n dst =>
      if n <=? 0 then (t, RRead (Return (target - n) dst)) else
      let '(o, l) := tty_read killed target (Z.to_nat n) dst (ready t) in (mkTty l (edit t), RRead o)
  end.

Fixpoint crun (evs : list cevent) : M console (list cresult) :=
  match evs with
  | [] => mret []
  | ev :: evs => x ← cstep ev; l ← crun evs; mret (x :: l)
  end.

Fixpoint trun (evs : list cevent) (t : tty) : tty * list cresult :=
  match evs with
  | [] => (t, [])
  | ev :: evs => let '(t, x) := tstep ev t in let '(t, l) := trun evs t in (t, x :: l)
  end.

Definition ev_ok (ev : cevent) : Prop := match ev with Keys cs => Forall (fun c => 0 <= c < 256) cs | _ => True end.

Lemma wp_crun evs t s : con_ok t s -> Forall ev_ok evs ->
  wp no_failure (crun evs) s (fun l s' => l = (trun evs t).2 /\ con_ok (trun evs t).1 s').
Proof.
  intros Ht Hev. revert t s Ht. induction Hev as [|ev evs Hev Hevs IH]; intros t s Ht; cbn [crun trun]; [by apply wp_ret|].
  wp_next. assert (wp no_failure (cstep ev) s (fun x s' => x = (tstep ev t).2 /\ con_ok (tstep ev t).1 s')) as HS.
  { destruct ev as [cs|killed target n dst]; cbn [cstep tstep]; wp_next.
    - eapply wp_keys; [done|done|]. intros s' d Hs'. apply wp_ret. by destruct (tty_keys cs t).
    - destruct Ht as [HR Ho]. apply wp_zoom. unfold consoleread. destruct (n <=? 0); [by apply wp_ret, wp_ret|]. eapply wp_read; [done|]. intros o l i' E HR'. apply wp_ret. rewrite E. done. }
  eapply wp_mono; [exact HS|]. intros x s1 [-> H1]. destruct (tstep ev t) as [t1 x]. cbn [fst snd] in *.
  wp_next. eapply wp_mono; [by apply IH|]. intros l s2 [-> H2]. apply wp_ret. by destruct (trun evs t1).
Qed.

(** C33. The console driver implements a line discipline: over any sequence of
    interrupts and reads, what is read and when readers are woken is what the
    abstract terminal says, on which editing keys change the line that is not yet
    complete and reads take complete lines.  The ring buffer's indices may wrap
    around; the echo never runs off the screen. *)
Theorem console_refines evs t s :
  con_ok t s -> Forall ev_ok evs ->
  exists s', crun evs s = Ok (trun evs t).2 s' /\ con_ok (trun evs t).1 s'.
Proof.
  intros Ht Hev. destruct (wp_total _ _ _ (wp_crun evs t s Ht Hev)) as (l & s' & E & -> & H). eauto.
Qed.

(** A character that is not an editing key. *)
Definition plain (c : Z) : Prop := 0 < c < 256 /\ c ∉ [C 80; C 85; C 72; 127; 13; 10; C 68].

Ltac neq_tests c := repeat match goal with |- context [c =? ?x] => rewrite (proj2 (Z.eqb_neq c x)) by (done || lia) end.

Lemma tty_key_plain c t : plain c -> (S (tty_len t) < 128)%nat ->
  tty_key c t = (mkTty (ready t) (edit t ++ [c]), false).
Proof.
  intros [Hc Hn] Hl. repeat (apply not_elem_of_cons in Hn as [? Hn]). unfold tty_key.
  neq_tests c. cbn [orb negb andb]. rewrite (proj2 (Nat.ltb_lt _ _)) by lia. neq_tests c. cbn [orb].
  by rewrite (proj2 (Nat.eqb_neq _ _)) by lia.
Qed.

Lemma tty_keys_plain cs rest t : Forall plain cs -> (S (tty_len t + length cs) <= 128)%nat ->
  tty_keys (cs ++ rest) t = tty_keys rest (mkTty (ready t) (edit t ++ cs)).
Proof.
  intros Hcs. revert t. induction Hcs as [|c cs Hc Hcs IH]; intros t Hl; cbn [app tty_keys length] in *.
  { rewrite app_nil_r. by destruct t. }
  rewrite tty_key_plain by (done || lia). cbn beta iota. rewrite IH; [|unfold tty_len in *; cbn [ready edit]; rewrite length_app; cbn [length]; lia].
  cbn [ready edit]. rewrite <- app_assoc. cbn [app]. by destruct (tty_keys rest _).
Qed.

Lemma tty_read_line killed target k dst l rest :
  Forall plain l -> (length l < k)%nat ->
  tty_read killed target k dst (l ++ 10 :: rest) = (Return (target - Z.of_nat k + Z.of_nat (S (length l))) (dst ++ l ++ [10]), rest).
Proof.
  intros Hl. revert k dst. induction Hl as [|c l [Hc Hn] Hl IH]; intros k dst Hk; (destruct k as [|k]; [cbn in Hk; lia|]); cbn [tty_read app length] in *.
  - change (10 =? C 68) with false. change (10 =? 10) with true. cbn beta iota. f_equal. f_equal. lia.
  - repeat (apply not_elem_of_cons in Hn as [? Hn]). neq_tests c.
    rewrite IH by lia. rewrite <- app_assoc. cbn [app]. f_equal. f_equal. lia.
Qed.

(** A code of 0 is no character. *)
Lemma tty_keys_zero cs t : tty_keys cs t = tty_keys (filter (fun c => c ≠ 0) cs) t.
Proof.
  revert t. induction cs as [|c cs IH]; intros t; [done|]. rewrite filter_cons. case_decide as E; cbn [tty_keys].
  - destruct (tty_key c t) as [t1 a]. by rewrite IH.
  - assert (c = 0) as -> by lia. change (tty_key 0 t) with (t, false). rewrite <- IH. by destruct (tty_keys cs t).
Qed.

Lemma type_line cs l enter n s :
  con_ok (mkTty [] []) s -> Forall (fun c => 0 <= c < 256) cs -> filter (fun c => c ≠ 0) cs = l ++ [enter] ->
  Forall plain l -> enter = 10 \/ enter = 13 -> (length l < 127)%nat -> Z.of_nat (length l) < n ->
  exists s', crun [Keys cs; Read false n n []] s =
    Ok [RKeys true; RRead (Return (Z.of_nat (S (length l))) (l ++ [10]))] s' /\ con_ok (mkTty [] []) s'.
Proof.
  intros Hs Hcs Hf Hl Hent Hlen Hn.
  assert (forall rd, (length l < 127)%nat -> tty_key enter (mkTty rd l) =
    if (tty_len (mkTty rd l) <? 128)%nat then (mkTty (rd ++ l ++ [10]) [], true) else (mkTty rd l, false)) as Hk.
  { intros rd _. destruct Hent as [->| ->]; unfold tty_key; by destruct (tty_len (mkTty rd l) <? 128)%nat. }
  assert (trun [Keys cs; Read false n n []] (mkTty [] []) =
    (mkTty [] [], [RKeys true; RRead (Return (Z.of_nat (S (length l))) (l ++ [10]))])) as E.
  { cbn [trun tstep]. rewrite (proj2 (Z.leb_gt n 0)) by lia. rewrite tty_keys_zero, Hf. rewrite tty_keys_plain by (done || (unfold tty_len; cbn [ready edit length]; lia)).
    cbn [ready edit app tty_keys]. rewrite Hk by done. rewrite (proj2 (Nat.ltb_lt _ _)) by (unfold tty_len; cbn [ready edit length]; lia).
    cbn [orb ready edit app]. rewrite tty_read_line by (done || lia). cbn [app]. do 4 f_equal. f_equal. lia. }
  assert (Forall ev_ok [Keys cs; Read false n n []]) as Hev by (constructor; [done|by repeat constructor]).
  destruct (wp_total _ _ _ (wp_crun _ _ s Hs Hev)) as (r & s' & Er & -> & H). rewrite E in *. eauto.
Qed.

(** ** Output in bounds *)

(** C35. A character on the screen, from any state the driver gets into: no panic,
    the cursor stays inside the 24 rows, and the text before it is the text before
    with what the character adds, moved up a row when it would run out. *)
Theorem cgaputc_correct c s :
  screen_ok s ->
  exists s', cgaputc c s = Ok tt s' /\ screen_ok s' /\
    before s' = (if (length (typed c s) <? 1920)%nat then typed c s else drop 80 (typed c s)).
Proof.
  intros Hs. destruct (wp_total (cgaputc c) s (fun _ s' => screen_ok s' /\
    before s' = (if (length (typed c s) <? 1920)%nat then typed c s else drop 80 (typed c s)))) as ([] & s' & E & H); [|eauto].
  by apply wp_cgaputc.
Qed.

Lemma printint_loop_length fuel x base k :
  2 <= base -> 0 <= x < base ^ Z.of_nat (S k) -> (length (printint_loop fuel x base) <= S k)%nat.
Proof.
  intros Hb. revert x k. induction fuel as [|fuel IH]; intros x k Hx; cbn [printint_loop length]; [lia|].
  destruct (x / base =? 0) eqn:E; cbn [length]; [lia|].
  destruct k as [|k]; [rewrite Z.pow_1_r in Hx; rewrite Z.div_small in E by lia; done|].
  apply le_n_S, IH. rewrite Nat2Z.inj_succ, Z.pow_succ_r in Hx by lia. split; [apply Z.div_pos; lia|apply Z.div_lt_upper_bound; lia].
Qed.

(** [buf] in [printint] is large enough for every [int] in the bases [cprintf]
    uses. *)
Theorem printint_fits xx base sign :
  -2147483648 <= xx < 2147483648 -> 10 <= base <= 16 -> (length (printint_buf xx base sign) <= 16)%nat.
Proof.
  intros Hx Hb. unfold printint_buf. set (neg := negb (sign =? 0) && (xx <? 0)).
  set (x := if neg then u32 (- xx) else u32 xx).
  assert (0 <= x < 4294967296) by (unfold x; destruct neg; apply u32_range).
  rewrite length_app. assert (length (printint_loop 32 x base) <= 10)%nat.
  { apply printint_loop_length; [lia|]. split; [lia|]. change (Z.of_nat 10) with 10.
    pose proof (Z.pow_le_mono_l 10 base 10 ltac:(lia)). lia. }
  destruct neg; cbn [length]; lia.
Qed.

(** ** The keyboard: kbd.c, kbd.h

    [kbdgetc] turns the codes the controller sends into characters; its static
    variable [shift] is an argument and a result.  [kbdintr] gives the characters
    to the console. *)

Module Kbd.

Definition KBS_DIB : Z := 1.
Definition SHIFT : Z := 1.
Definition CTL : Z := 2.
Definition ALT : Z := 4.
Definition CAPSLOCK : Z := 8.
Definition NUMLOCK : Z := 16.
Definition SCROLLLOCK : Z := 32.
Definition E0ESC : Z := 64.

(** An initialised array of 256 bytes: its first entries, and those given by
    their index. *)
Definition table (rows : list Z) (sets : list (nat * Z)) : list Z :=
  foldl (fun l x => <[x.1 := x.2]> l) (rows ++ replicate (256 - length rows) 0) sets.

Definition shiftcode : list Z :=
  table [] [(29%nat, CTL); (42%nat, SHIFT); (54%nat, SHIFT); (56%nat, ALT); (157%nat, CTL); (184%nat, ALT)].

Definition togglecode : list Z := table [] [(58%nat, CAPSLOCK); (69%nat, NUMLOCK); (70%nat, SCROLLLOCK)].

Definition normalmap : list Z := table
  [0; 27; 49; 50; 51; 52; 53; 54; 55; 56; 57; 48; 45; 61; 8; 9;
   113; 119; 101; 114; 116; 121; 117; 105; 111; 112; 91; 93; 10; 0; 97; 115;
   100; 102; 103; 104; 106; 107; 108; 59; 39; 96; 0; 92; 122; 120; 99; 118;
   98; 110; 109; 44; 46; 47; 0; 42; 0; 32; 0; 0; 0; 0; 0; 0;
   0; 0; 0; 0; 0; 0; 0; 55; 56; 57; 45; 52; 53; 54; 43; 49;
   50; 51; 48; 46; 0; 0; 0; 0]
  [(156%nat, 10); (181%nat, 47); (200%nat, 226); (208%nat, 227); (201%nat, 230); (209%nat, 231); (203%nat, 228); (205%nat, 229); (151%nat, 224); (207%nat, 225); (210%nat, 232); (211%nat, 233)].

Definition shiftmap : list Z := table
  [0; 27; 33; 64; 35; 36; 37; 94; 38; 42; 40; 41; 95; 43; 8; 9;
   81; 87; 69; 82; 84; 89; 85; 73; 79; 80; 123; 125; 10; 0; 65; 83;
   68; 70; 71; 72; 74; 75; 76; 58; 34; 126; 0; 124; 90; 88; 67; 86;
   66; 78; 77; 60; 62; 63; 0; 42; 0; 32; 0; 0; 0; 0; 0; 0;
   0; 0; 0; 0; 0; 0; 0; 55; 56; 57; 45; 52; 53; 54; 43; 49;
   50; 51; 48; 46; 0; 0; 0; 0]
  [(156%nat, 10); (181%nat, 47); (200%nat, 226); (208%nat, 227); (201%nat, 230); (209%nat, 231); (203%nat, 228); (205%nat, 229); (151%nat, 224); (207%nat, 225); (210%nat, 232); (211%nat, 233)].

Definition ctlmap : list Z := table
  [0; 0; 0; 0; 0; 0; 0; 0; 0; 0; 0; 0; 0; 0; 0; 0;
   17; 23; 5; 18; 20; 25; 21; 9; 15; 16; 0; 0; 13; 0; 1; 19;
   4; 6; 7; 8; 10; 11; 12; 0; 0; 0; 0; 28; 26; 24; 3; 22;
   2; 14; 13; 0; 0; 239; 0; 0]
  [(156%nat, 13); (181%nat, 239); (200%nat, 226); (208%nat, 227); (201%nat, 230); (209%nat, 231); (203%nat, 228); (205%nat, 229); (151%nat, 224); (207%nat, 225); (210%nat, 232); (211%nat, 233)].


Definition at_code (t : list Z) (data : Z) : Z := default 0 (t !! Z.to_nat data).

(** [charcode[shift & (CTL | SHIFT)]] *)
Definition charcode (shift : Z) : list Z :=
  let k := Z.land shift (Z.lor CTL SHIFT) in
  if k =? 0 then normalmap else if k =? 1 then shiftmap else ctlmap.

(** [st] and [data] are what the ports give; the result and [shift]. *)
Definition kbdgetc (st data shift : Z) : Z * Z :=
  if Z.land st KBS_DIB =? 0 then (-1, shift) else
  if data =? 224 then (0, Z.lor shift E0ESC) else
  if negb (Z.land data 128 =? 0) then
    let data := if negb (Z.land shift E0ESC =? 0) then data else Z.land data 127 in
    (0, Z.land shift (Z.lnot (Z.lor (at_code shiftcode data) E0ESC)))
  else
    let '(data, shift) :=
      if negb (Z.land shift E0ESC =? 0) then (Z.lor data 128, Z.land shift (Z.lnot E0ESC)) else (data, shift) in
    let shift := Z.lor shift (at_code shiftcode data) in
    let shift := Z.lxor shift (at_code togglecode data) in
    let c := at_code (charcode shift) data in
    let c :=
      if negb (Z.land shift CAPSLOCK =? 0) then
        if (97 <=? c) && (c <=? 122) then c - 32
        else if (65 <=? c) && (c <=? 90) then c + 32 else c
      else c in
    (c, shift).

(** The values [kbdgetc] returns while the controller has the codes [ds]. *)
Fixpoint kbd_chars (ds : list Z) (shift : Z) : list Z * Z :=
  match ds with
  | [] => ([], shift)
  | d :: ds =>
      let '(c, shift) := kbdgetc KBS_DIB d shift in
      let '(cs, shift) := kbd_chars ds shift in (c :: cs, shift)
  end.

Definition kbdintr (ds : list Z) (shift : Z) : M console (bool * bool) := consoleintr (kbd_chars ds shift).1.

(** ** Theorems *)

(** All codes and all states of the modifiers. *)
Definition codes : list Z := Z.of_nat <$> seq 0 256.
Definition shifts : list Z := Z.of_nat <$> seq 0 128.

Lemma elem_codes n x : 0 <= x < Z.of_nat n -> x ∈ Z.of_nat <$> seq 0 n.
Proof. intros H. apply list_elem_of_fmap. exists (Z.to_nat x). rewrite elem_of_seq. lia. Qed.

(** A property of every code in every state, by computation. *)
Lemma all_codes (f : Z -> Z -> bool) :
  forallb (fun sh => forallb (fun d => f sh d) codes) shifts = true ->
  forall sh d, 0 <= sh < 128 -> 0 <= d < 256 -> f sh d = true.
Proof.
  intros H sh d Hs Hd. rewrite forallb_forall in H. specialize (H sh). rewrite forallb_forall in H.
  apply H; apply list_elem_of_In; [apply (elem_codes 128)|apply (elem_codes 256)]; lia.
Qed.

Definition letter (d : Z) : bool := let c := at_code normalmap d in (97 <=? c) && (c <=? 122).

Lemma kbdgetc_ok : forall sh d, 0 <= sh < 128 -> 0 <= d < 256 ->
  let '(c, sh') := kbdgetc KBS_DIB d sh in 0 <= c < 256 /\ 0 <= sh' < 128.
Proof.
  intros sh d Hs Hd.
  pose proof (all_codes (fun sh d => let '(c, sh') := kbdgetc KBS_DIB d sh in (0 <=? c) && (c <? 256) && (0 <=? sh') && (sh' <? 128))
    ltac:(vm_compute; reflexivity) sh d Hs Hd) as H. cbn beta in H. destruct (kbdgetc KBS_DIB d sh) as [c sh']. lia.
Qed.

(** C37. Every code the controller can send, in every state of the modifier keys,
    gives a byte (0 for none) and a state of the modifier keys again; and a letter
    key that is pressed without control gives the capital letter exactly when one
    of shift and caps lock is on. *)
Theorem kbdgetc_correct sh d :
  0 <= sh < 128 -> 0 <= d < 256 ->
  (let '(c, sh') := kbdgetc KBS_DIB d sh in 0 <= c < 256 /\ 0 <= sh' < 128) /\
  (letter d = true -> d < 128 -> Z.land sh (Z.lor E0ESC CTL) = 0 ->
   (kbdgetc KBS_DIB d sh).1 =
     if xorb (Z.testbit sh 0) (Z.testbit sh 3) then at_code normalmap d - 32 else at_code normalmap d).
Proof.
  intros Hs Hd. split; [by apply kbdgetc_ok|].
  pose proof (all_codes (fun sh d => implb (letter d && (d <? 128) && (Z.land sh (Z.lor E0ESC CTL) =? 0))
    ((kbdgetc KBS_DIB d sh).1 =? if xorb (Z.testbit sh 0) (Z.testbit sh 3) then at_code normalmap d - 32 else at_code normalmap d))
    ltac:(vm_compute; reflexivity) sh d Hs Hd) as H. cbn beta in H. intros H1 H2 H3. rewrite H1, H3 in H.
  replace (d <? 128) with true in H by lia. cbn [andb implb] in H. change (0 =? 0) with true in H. cbn [implb] in H. by apply Z.eqb_eq in H.
Qed.

(** Pressing and releasing a key. *)
Definition stroke (d : Z) : list Z := [d; d + 128].

Definition same2 (x y : Z * Z) : bool := (x.1 =? y.1) && (x.2 =? y.2).

Lemma same2_eq x y : same2 x y = true -> x = y.
Proof. destruct x, y. unfold same2. cbn. rewrite andb_true_iff, !Z.eqb_eq. by intros [-> ->]. Qed.

Lemma kbd_chars_strokes ds rest sh :
  Forall (fun d => 0 <= d < 128 /\ letter d = true) ds -> sh = 0 ->
  kbd_chars (concat (stroke <$> ds) ++ rest) sh =
    (concat ((fun d => [at_code normalmap d; 0]) <$> ds) ++ (kbd_chars rest 0).1, (kbd_chars rest 0).2).
Proof.
  intros H ->. induction H as [|d ds [Hd Hl] H IH]; cbn [fmap list_fmap concat app].
  { by destruct (kbd_chars rest 0). }
  assert (kbdgetc KBS_DIB d 0 = (at_code normalmap d, 0) /\ kbdgetc KBS_DIB (d + 128) 0 = (0, 0)) as [E1 E2].
  { pose proof (all_codes (fun _ d => implb (letter d && (d <? 128)) (same2 (kbdgetc KBS_DIB d 0) (at_code normalmap d, 0) &&
      same2 (kbdgetc KBS_DIB (d + 128) 0) (0, 0))) ltac:(vm_compute; reflexivity) 0 d ltac:(lia) ltac:(lia)) as E.
    cbn beta in E. rewrite Hl in E. replace (d <? 128) with true in E by lia. cbn [andb implb] in E.
    apply andb_prop in E as [E1%same2_eq E2%same2_eq]. done. }
  unfold stroke at 1. cbn [app kbd_chars]. rewrite E1, E2, IH. done.
Qed.

(** From the keys to the reader: the letter keys [ds] and then Enter, each
    pressed and released, give a process that reads the console the line of those
    letters. *)
Theorem keys_to_reader ds n s :
  con_ok (mkTty [] []) s -> Forall (fun d => 0 <= d < 128 /\ letter d = true) ds -> (length ds < 127)%nat ->
  Z.of_nat (length ds) < n ->
  exists s', crun [Keys (kbd_chars (concat (stroke <$> ds) ++ stroke 28) 0).1; Read false n n []] s =
    Ok [RKeys true; RRead (Return (Z.of_nat (S (length ds))) ((at_code normalmap <$> ds) ++ [10]))] s'.
Proof.
  intros Hs Hds Hlen Hn. set (l := at_code normalmap <$> ds).
  assert (Forall plain l) as Hl.
  { unfold l. apply Forall_fmap. apply (Forall_impl _ _ _ Hds). intros d [Hd Hlt]. unfold letter in Hlt. unfold plain, compose.
    split; [lia|]. intros Hin. assert (at_code normalmap d <= 32 \/ at_code normalmap d = 127); [|lia].
    apply elem_of_cons in Hin as [->|Hin]; [by left|]. repeat (apply elem_of_cons in Hin as [->|Hin]; [(by left) || (by right)|]).
    by apply elem_of_nil in Hin. }
  assert (length l = length ds) as Hll by apply length_fmap.
  destruct (type_line (kbd_chars (concat (stroke <$> ds) ++ stroke 28) 0).1 l 10 n s) as (s' & E & _); [done| | |done|by left|lia|lia|].
  - rewrite kbd_chars_strokes by done. cbn [fst]. apply Forall_app. split; [|by repeat constructor].
    apply Forall_concat, Forall_fmap, (Forall_impl _ _ _ Hds). intros d [Hd Hlt]. unfold compose. unfold letter in Hlt.
    repeat constructor; lia.
  - rewrite kbd_chars_strokes by done. cbn [fst]. rewrite filter_app. f_equal. unfold l. clear -Hds.
    induction Hds as [|d ds [Hd Hlt] Hds IH]; [done|]. cbn [fmap list_fmap concat app]. unfold letter in Hlt.
    rewrite filter_cons_True by lia. rewrite filter_cons_False by lia. by rewrite IH.
  - exists s'. rewrite E, Hll. done.
Qed.

End Kbd.
