(* ===== verification/Sh.v ===== *)
(** * The shell: sh.c

    The parser works in place on the line read: [mem] is the buffer, [es] the
    offset of the NUL that ends the line.  A [char*] into the buffer is an offset,
    the parser's state is the offset the C code keeps in [*ps].  The nodes
    [malloc] returns are values of type [cmd]; [panic] prints its message and
    exits, which ends the parse.

    [runcmd] is modelled on tables of file descriptors: the result is the list
    of the programs started, each with its arguments and its descriptors.  The
    outcomes of [fork], [pipe] and [open] are taken from a list, in the order of
    the calls here; a call past its end succeeds.  A process that has to wait for
    its children is not delayed by it in the model.  The loop of [main], with the
    [cd] it handles itself, is not modelled. *)

From stdpp Require Import base numbers list strings.
From S2P Require Import Prelude CString File.
Open Scope Z_scope.

Module Sh.

Definition MAXARGS : nat := 10.

(** fcntl.h *)
Definition O_RDONLY : Z := 0.
Definition O_WRONLY : Z := 1.
Definition O_CREATE : Z := 512.

(** [argv] and [eargv] together, without the final null pointers. *)
Inductive cmd :=
  | EXEC (argv : list (nat * nat))
  | REDIR (c : cmd) (file efile : nat) (mode fd : Z)
  | PIPE (left right : cmd)
  | LIST (left right : cmd)
  | BACK (c : cmd).

(** The constructors; [execcmd]'s arguments come later. *)
Definition execcmd : cmd := EXEC [].
Definition pipecmd (left right : cmd) : cmd := PIPE left right.
Definition listcmd (left right : cmd) : cmd := LIST left right.
Definition backcmd (c : cmd) : cmd := BACK c.

(** [cmd->argv[argc] = q; cmd->eargv[argc] = eq;] for each of [argv]. *)
Definition set_argv (argv : list (nat * nat)) (c : cmd) : cmd :=
  match c with EXEC _ => EXEC argv | c => c end.

(** " \t\r\n\v" and "<|>&;()" *)
Definition whitespace : list Z := [32; 9; 13; 10; 11].
Definition symbols : list Z := [60; 124; 62; 38; 59; 40; 41].

Definition LT : Z := 60.
Definition BAR : Z := 124.
Definition GT : Z := 62.
Definition AMP : Z := 38.
Definition SEMI : Z := 59.
Definition LPAR : Z := 40.
Definition RPAR : Z := 41.
Definition PLUS : Z := 43.
Definition WORD : Z := 97.

(** [strchr(toks, c) != 0]; it is 0 for the NUL. *)
Definition strchr (toks : list Z) (c : Z) : bool := existsb (Z.eqb c) toks.

Definition is_ws (c : Z) : bool := strchr whitespace c.
Definition is_word (c : Z) : bool := negb (is_ws c) && negb (strchr symbols c).

(** How far the two loops of [gettoken] get on what is left of the line. *)
Fixpoint ws_len (l : list Z) : nat :=
  match l with c :: l => if is_ws c then S (ws_len l) else 0 | [] => 0 end.

Fixpoint word_len (l : list Z) : nat :=
  match l with c :: l => if is_word c then S (word_len l) else 0 | [] => 0 end.

Section parse.
Context (mem : list Z) (es : nat).

(** The line, and the character at an offset. *)
Definition line : list Z := take es mem.

Definition char_at (s : nat) : Z := nth s mem 0.

(** [while(s < es && strchr(whitespace, *s)) s++;] *)
Definition skip_ws (s : nat) : nat := (s + ws_len (drop s line))%nat.

Definition skip_word (s : nat) : nat := (s + word_len (drop s line))%nat.

(** The kind of the token, where it starts and ends. *)
Definition gettoken : M nat (Z * nat * nat) := fun ps =>
  let s := skip_ws ps in
  let c := char_at s in
  let '(ret, e) :=
    if c =? 0 then (0, s)
    else if strchr [BAR; LPAR; RPAR; SEMI; AMP; LT] c then (c, S s)
    else if c =? GT then
      if char_at (S s) =? GT then (PLUS, S (S s)) else (GT, S s)
    else (WORD, skip_word s) in
  Ok (ret, s, e) (skip_ws e).

Definition peek (toks : list Z) : M nat bool := fun ps =>
  let s := skip_ws ps in
  Ok (negb (char_at s =? 0) && strchr toks (char_at s)) s.

(** [cmd = redircmd(cmd, q, eq, mode, fd)] for each of [rs] in turn. *)
Definition redir : Type := nat * nat * Z * Z.

Definition redircmd (c : cmd) (r : redir) : cmd :=
  let '(q, eq, mode, fd) := r in REDIR c q eq mode fd.

(** The redirections [parseredirs] wraps around its command; each round takes a
    token off the line, so that [n] bounds their number. *)
Fixpoint parseredirs (n : nat) (rs : list redir) : M nat (list redir) :=
  match n with
  | O => blocked
  | S n =>
      b ← peek [LT; GT];
      if b : bool then
        t ← gettoken;
        f ← gettoken;
        if negb (f.1.1 =? WORD) then panic "missing file for redirection" else
        let r := if t.1.1 =? LT then (f.1.2, f.2, O_RDONLY, 0)
                 else (f.1.2, f.2, Z.lor O_WRONLY O_CREATE, 1) in
        parseredirs n (rs ++ [r])
      else mret rs
  end.

(** The loop of [parseexec]. *)
Fixpoint parseargs (n : nat) (argv : list (nat * nat)) (rs : list redir) : M nat (list (nat * nat) * list redir) :=
  match n with
  | O => blocked
  | S n =>
      b ← peek [BAR; RPAR; AMP; SEMI];
      if b : bool then mret (argv, rs) else
      t ← gettoken;
      if t.1.1 =? 0 then mret (argv, rs) else
      if negb (t.1.1 =? WORD) then panic "syntax" else
      let argv := argv ++ [(t.1.2, t.2)] in
      if (MAXARGS <=? length argv)%nat then panic "too many args" else
      rs ← parseredirs (S es) rs;
      parseargs n argv rs
  end.

(** [while(peek(ps, es, "&")){ gettoken(ps, es, 0, 0); cmd = backcmd(cmd); }] *)
Fixpoint parsebacks (n : nat) (c : cmd) : M nat cmd :=
  match n with
  | O => blocked
  | S n =>
      b ← peek [AMP];
      if b : bool then gettoken;; parsebacks n (backcmd c) else mret c
  end.

(** The four functions call each other.  Each body is given the calls it makes. *)
Definition parseline_body (parsepipe parseline : M nat cmd) : M nat cmd :=
  c ← parsepipe;
  c ← parsebacks (S es) c;
  b ← peek [SEMI];
  if b : bool then gettoken;; r ← parseline; mret (listcmd c r) else mret c.

Definition parsepipe_body (parseexec parsepipe : M nat cmd) : M nat cmd :=
  c ← parseexec;
  b ← peek [BAR];
  if b : bool then gettoken;; r ← parsepipe; mret (pipecmd c r) else mret c.

Definition parseexec_body (parseblock : M nat cmd) : M nat cmd :=
  b ← peek [LPAR];
  if b : bool then parseblock else
  rs ← parseredirs (S es) [];
  a ← parseargs (S es) [] rs;
  mret (foldl redircmd (set_argv a.1 execcmd) a.2).

Definition parseblock_body (parseline : M nat cmd) : M nat cmd :=
  b ← peek [LPAR];
  if negb b then panic "parseblock" else
  gettoken;;
  c ← parseline;
  b ← peek [RPAR];
  if negb b then panic "syntax - missing )" else
  gettoken;;
  rs ← parseredirs (S es) [];
  mret (foldl redircmd c rs).

(** [n] bounds the depth of the calls. *)
Fixpoint parseline (n : nat) : M nat cmd :=
  match n with
  | O => blocked
  | S n => parseline_body (fun s => parsepipe n s) (fun s => parseline n s)
  end
with parsepipe (n : nat) : M nat cmd :=
  match n with
  | O => blocked
  | S n => parsepipe_body (fun s => parseexec n s) (fun s => parsepipe n s)
  end
with parseexec (n : nat) : M nat cmd :=
  match n with
  | O => blocked
  | S n => parseexec_body (fun s => parseblock n s)
  end
with parseblock (n : nat) : M nat cmd :=
  match n with
  | O => blocked
  | S n => parseblock_body (fun s => parseline n s)
  end.

End parse.

(** Storing the NULs: the buffer afterwards. *)
Fixpoint nulterminate (c : cmd) (mem : list Z) : list Z :=
  match c with
  | EXEC argv => foldl (fun mem a => <[a.2 := 0]> mem) mem argv
  | REDIR c _ efile _ _ => <[efile := 0]> (nulterminate c mem)
  | PIPE l r => nulterminate r (nulterminate l mem)
  | LIST l r => nulterminate r (nulterminate l mem)
  | BACK c => nulterminate c mem
  end.

(** Four calls per character at most, and a few at the end of the line. *)
Definition depth (es : nat) : nat := (4 * es + 4)%nat.

(** The line ends at the first NUL.  The command, and the buffer then. *)
Definition parsecmd (mem : list Z) (es : nat) : res nat (cmd * list Z) :=
  (c ← parseline mem es (depth es);
   peek mem es [];;
   s ← gets id;
   if negb (s =? es)%nat then panic "syntax" else
   mret (c, nulterminate c mem)) 0%nat.

(** ** Running a command *)

(** What a descriptor stands for: something inherited, a file, the ends of the
    pipe number [n]. *)
Inductive desc := Inherited (n : nat) | Opened (path : list Z) (mode : Z) | PipeR (n : nat) | PipeW (n : nat).

Definition fds : Type := list (option desc).

(** The programs started so far, the pipes made, the outcomes to come. *)
Record world := mkW {
  started : list (list (list Z) * fds);
  npipes : nat;
  outcomes : list bool }.

(** Whether the next system call succeeds. *)
Definition attempt (w : world) : bool * world :=
  match outcomes w with
  | [] => (true, w)
  | b :: l => (b, mkW (started w) (npipes w) l)
  end.

Definition exec (argv : list (list Z)) (t : fds) (w : world) : world :=
  mkW (started w ++ [(argv, t)]) (npipes w) (outcomes w).

Definition close (fd : nat) (t : fds) : fds := <[fd := None]> t.

(** [dup(fd)], whose result the shell does not look at. *)
Definition dup (fd : nat) (t : fds) : fds :=
  match mjoin (t !! fd) with
  | Some d => match File.fdalloc d t with Some (_, t) => t | None => t end
  | None => t
  end.

(** [open(path, mode)] *)
Definition open (path : list Z) (mode : Z) (t : fds) (w : world) : option fds * world :=
  let '(ok, w) := attempt w in
  (if ok : bool then snd <$> File.fdalloc (Opened path mode) t else None, w).

(** [pipe(p)]: the two descriptors and the table. *)
Definition pipe (t : fds) (w : world) : option (nat * nat * fds) * world :=
  let '(ok, w) := attempt w in
  let n := npipes w in
  match (if ok : bool then File.fdalloc (PipeR n) t else None) with
  | Some (p0, t) =>
      match File.fdalloc (PipeW n) t with
      | Some (p1, t) => (Some (p0, p1, t), mkW (started w) (S n) (outcomes w))
      | None => (None, w)
      end
  | None => (None, w)
  end.

(** [if(fork1() == 0) child]: what the child does, and whether there is a parent
    to go on: when [fork] fails the shell process prints a message and exits. *)
Definition fork1 (child : world -> world) (w : world) : bool * world :=
  let '(ok, w) := attempt w in
  if ok : bool then (true, child w) else (false, w).

(** The string at an offset of the buffer. *)
Definition str (mem : list Z) (q : nat) : list Z := KString.cstr (drop q mem).

(** All that the process [runcmd] runs in, and its children, start. *)
Fixpoint runcmd (mem : list Z) (c : cmd) (t : fds) (w : world) : world :=
  match c with
  | EXEC [] => w
  | EXEC argv => exec (map (fun qe => str mem qe.1) argv) t w
  | REDIR c file _ mode fd =>
      match open (str mem file) mode (close (Z.to_nat fd) t) w with
      | (None, w) => w
      | (Some t, w) => runcmd mem c t w
      end
  | LIST l r =>
      match fork1 (runcmd mem l t) w with
      | (false, w) => w
      | (true, w) => runcmd mem r t w
      end
  | PIPE l r =>
      match pipe t w with
      | (None, w) => w
      | (Some (p0, p1, t), w) =>
          match fork1 (runcmd mem l (close p1 (close p0 (dup p1 (close 1 t))))) w with
          | (false, w) => w
          | (true, w) => snd (fork1 (runcmd mem r (close p1 (close p0 (dup p0 (close 0 t))))) w)
          end
      end
  | BACK c => snd (fork1 (runcmd mem c t) w)
  end.

End Sh.
