(* ===== verification/ShParse.v ===== *)
(** * The shell's parser against its grammar

    Tokens, the grammar of command lines over them, and the proof that
    [parsecmd] is a parser for it. *)

From stdpp Require Import base numbers sets list strings.
From S2P Require Import Prelude Sh.
Import Sh.
Open Scope Z_scope.

(** ** Tokens *)

Inductive tok := Sym (c : Z) | Gt | Gtgt | Word (w : list Z).

Definition singles : list Z := [BAR; LPAR; RPAR; SEMI; AMP; LT].

Definition in_word (l : list Z) : bool := match l with c :: _ => is_word c | [] => false end.

Fixpoint lex (l : list Z) : list tok :=
  match l with
  | [] => []
  | c :: l =>
      if is_ws c then lex l
      else if strchr singles c then Sym c :: lex l
      else if c =? GT then
        match l with
        | c' :: l' => if c' =? GT then Gtgt :: lex l' else Gt :: lex l
        | [] => [Gt]
        end
      else
        match lex l with
        | Word w :: ts => if in_word l then Word (c :: w) :: ts else Word [c] :: Word w :: ts
        | ts => Word [c] :: ts
        end
  end.

(** ** The grammar *)

Inductive rkind := RIn | ROut | RApp.

Definition rtok (k : rkind) : tok := match k with RIn => Sym LT | ROut => Gt | RApp => Gtgt end.

Inductive ast :=
  | AExec (argv : list (list Z))
  | ARedir (a : ast) (k : rkind) (file : list Z)
  | APipe (l r : ast)
  | AList (l r : ast)
  | ABack (a : ast).

Definition aredirs (a : ast) (rs : list (rkind * list Z)) : ast := foldl (fun a r => ARedir a r.1 r.2) a rs.

Inductive g_redirs : list tok -> list (rkind * list Z) -> Prop :=
  | gr_nil : g_redirs [] []
  | gr_cons k w ts rs : g_redirs ts rs -> g_redirs (rtok k :: Word w :: ts) ((k, w) :: rs).

(** Arguments with redirections anywhere between them. *)
Inductive g_args : list tok -> list (list Z) -> list (rkind * list Z) -> Prop :=
  | ga_redirs ts rs : g_redirs ts rs -> g_args ts [] rs
  | ga_word ts0 rs0 w ts ws rs : g_redirs ts0 rs0 -> g_args ts ws rs ->
      g_args (ts0 ++ Word w :: ts) (w :: ws) (rs0 ++ rs).

Inductive g_line : list tok -> ast -> Prop :=
  | gl_backs ts a : g_backs ts a -> g_line ts a
  | gl_list ts a ts' a' : g_backs ts a -> g_line ts' a' -> g_line (ts ++ Sym SEMI :: ts') (AList a a')
with g_backs : list tok -> ast -> Prop :=
  | gb_pipe ts a : g_pipe ts a -> g_backs ts a
  | gb_back ts a : g_backs ts a -> g_backs (ts ++ [Sym AMP]) (ABack a)
with g_pipe : list tok -> ast -> Prop :=
  | gp_exec ts a : g_exec ts a -> g_pipe ts a
  | gp_pipe ts a ts' a' : g_exec ts a -> g_pipe ts' a' -> g_pipe (ts ++ Sym BAR :: ts') (APipe a a')
with g_exec : list tok -> ast -> Prop :=
  | ge_simple ts ws rs : g_args ts ws rs -> (length ws < MAXARGS)%nat -> g_exec ts (aredirs (AExec ws) rs)
  | ge_block ts a ts' rs : g_line ts a -> g_redirs ts' rs ->
      g_exec (Sym LPAR :: ts ++ Sym RPAR :: ts') (aredirs a rs).

Scheme g_line_mut := Minimality for g_line Sort Prop
with g_backs_mut := Minimality for g_backs Sort Prop
with g_pipe_mut := Minimality for g_pipe Sort Prop
with g_exec_mut := Minimality for g_exec Sort Prop.

(** ** Lexing *)

Lemma word_not_sym c : is_word c = true -> is_ws c = false /\ strchr symbols c = false.
Proof. unfold is_word. rewrite andb_true_iff, !negb_true_iff. done. Qed.

Lemma strchr_in toks c : strchr toks c = true <-> c ∈ toks.
Proof.
  unfold strchr. rewrite existsb_exists. setoid_rewrite Z.eqb_eq. split; [intros (x & Hx & ->); by apply list_elem_of_In|].
  intros H. exists c. split; [by apply list_elem_of_In|done].
Qed.

Lemma word_char c : is_word c = true -> strchr singles c = false /\ (c =? GT) = false.
Proof.
  intros H. destruct (word_not_sym c H) as [_ Hs]. split.
  - apply not_true_iff_false. rewrite strchr_in. intros Hin. apply not_true_iff_false in Hs. apply Hs, strchr_in.
    unfold singles, symbols, BAR, LPAR, RPAR, SEMI, AMP, LT in *. set_solver.
  - apply Z.eqb_neq. intros ->. by vm_compute in Hs.
Qed.

(** Every character is white space, a symbol or part of a word. *)
Lemma char_kinds c : is_ws c = false -> strchr singles c = false -> (c =? GT) = false -> is_word c = true.
Proof.
  intros H1 H2 H3. unfold is_word. rewrite H1. cbn [negb andb]. apply negb_true_iff, not_true_iff_false. rewrite strchr_in.
  apply not_true_iff_false in H2. rewrite strchr_in in H2. apply Z.eqb_neq in H3.
  unfold singles, symbols, BAR, LPAR, RPAR, SEMI, AMP, LT, GT in *. set_solver.
Qed.

Lemma lex_ws l : lex (drop (ws_len l) l) = lex l.
Proof. induction l as [|c l IH]; [done|]. simpl. destruct (is_ws c) eqn:E; [done|]. simpl. by rewrite E. Qed.

Lemma lex_word w l : w ≠ [] -> Forall (fun c => is_word c = true) w -> in_word l = false -> lex (w ++ l) = Word w :: lex l.
Proof.
  intros Hne Hw Hl. induction Hw as [|c w Hc Hw IH]; [done|]. clear Hne.
  destruct (word_not_sym c Hc) as [H1 _]. destruct (word_char c Hc) as [H2 H3]. cbn [lex app]. rewrite H1, H2, H3.
  destruct w as [|c' w]; cbn [app].
  - rewrite Hl. by destruct (lex l) as [|[]].
  - specialize (IH ltac:(done)). cbn [app] in IH. rewrite IH. apply Forall_cons in Hw as [Hc' _]. cbn [in_word]. by rewrite Hc'.
Qed.

Lemma word_len_spec l : Forall (fun c => is_word c = true) (take (word_len l) l) /\ in_word (drop (word_len l) l) = false /\
  (word_len l <= length l)%nat.
Proof.
  induction l as [|c l (H1 & H2 & H3)]; [by repeat constructor|]. simpl. destruct (is_word c) eqn:E; simpl.
  - split_and!; [by constructor|done|lia].
  - split_and!; [constructor|done|lia].
Qed.

Lemma ws_len_spec l : (ws_len l <= length l)%nat /\ match drop (ws_len l) l with c :: _ => is_ws c = false | [] => True end.
Proof.
  induction l as [|c l [H1 H2]]; [done|]. simpl. destruct (is_ws c) eqn:E; simpl; [split; [lia|done]|split; [lia|done]].
Qed.

(** Whether the next token starts with one of the characters. *)
Definition looks (cs : list Z) (ts : list tok) : bool :=
  match ts with Sym c :: _ => strchr cs c | (Gt | Gtgt) :: _ => strchr cs GT | _ => false end.

Section buffer.
Context (mem : list Z) (es : nat).
Context (Hes : nth es mem 0 = 0) (Hlen : (es < length mem)%nat) (Hnz : Forall (fun c => c ≠ 0) (line mem es)).
Context (P : failure -> Prop).
Notation rest p := (drop p (line mem es)).
Notation char_at := (char_at mem).

(** What is left of the line, as tokens. *)
Definition toks (p : nat) : list tok := lex (rest p).

Lemma length_line : length (line mem es) = es.
Proof. unfold line. rewrite length_take. lia. Qed.

Lemma rest_cons p : (p < es)%nat -> rest p = char_at p :: rest (S p) /\ char_at p ≠ 0.
Proof.
  intros Hp. destruct (lookup_lt_is_Some_2 (line mem es) p) as [c Hc]; [rewrite length_line; lia|].
  assert (char_at p = c) as ->.
  { unfold Sh.char_at. unfold line in Hc. rewrite lookup_take_Some in Hc. destruct Hc as [Hc _]. by apply nth_lookup_Some. }
  split; [by apply drop_S|]. rewrite Forall_lookup in Hnz. by apply (Hnz p).
Qed.

Lemma rest_end : rest es = [] /\ char_at es = 0.
Proof. split; [apply drop_ge; rewrite length_line; lia|done]. Qed.

Lemma length_rest p : length (rest p) = (es - p)%nat.
Proof. rewrite length_drop, length_line. done. Qed.

(** Skipping white space. *)
Lemma skip_ws_spec p : (p <= es)%nat -> let s := skip_ws mem es p in
  (p <= s <= es)%nat /\ toks s = toks p /\ (s = es \/ (s < es)%nat /\ is_ws (char_at s) = false).
Proof.
  intros Hp s. destruct (ws_len_spec (rest p)) as [H1 H2]. rewrite length_rest in H1.
  assert (rest s = drop (ws_len (rest p)) (rest p)) as Hs by (unfold s, skip_ws; rewrite drop_drop; f_equal; lia).
  assert (p <= s <= es)%nat as Hr by (unfold s, skip_ws; lia). split; [done|]. split.
  - unfold toks. by rewrite Hs, lex_ws.
  - destruct (decide (s = es)) as [|Hne]; [by left|right]. split; [lia|].
    destruct (rest_cons s ltac:(lia)) as [E _]. rewrite Hs in E. by rewrite E in H2.
Qed.

(** The word [w] at the offsets [q] to [e]. *)
Record word_at (q e : nat) (w : list Z) : Prop := mkWordAt {
  wa_slice : take (e - q) (rest q) = w;
  wa_ne : w ≠ [];
  wa_chars : Forall (fun c => is_word c = true) w;
  wa_le : (q < e <= es)%nat;
  wa_end : in_word (rest e) = false }.

Definition tok_at (t : tok) (q e : nat) : Prop :=
  match t with Word w => word_at q e w | Sym c => strchr singles c = true | _ => True end.

Definition kind (t : tok) : Z := match t with Sym c => c | Gt => GT | Gtgt => PLUS | Word _ => WORD end.

(** A word token, where there is one. *)
Lemma skip_word_spec s : (s < es)%nat -> is_word (char_at s) = true ->
  let e := skip_word mem es s in
  (s < e <= es)%nat /\ toks s = Word (take (e - s) (rest s)) :: toks e /\ word_at s e (take (e - s) (rest s)).
Proof.
  intros Hs Hw e. destruct (word_len_spec (rest s)) as (H1 & H2 & H3). rewrite length_rest in H3.
  destruct (rest_cons s Hs) as [E _]. assert (word_len (rest s) ≠ 0)%nat as Hn by (rewrite E; simpl; by rewrite Hw).
  assert (e - s = word_len (rest s))%nat as He by (unfold e, skip_word; lia).
  assert (rest e = drop (word_len (rest s)) (rest s)) as Hd by (rewrite drop_drop; f_equal; unfold e, skip_word; lia).
  rewrite He. set (w := take (word_len (rest s)) (rest s)) in *.
  assert (w ≠ []) as Hne by (unfold w; destruct (word_len (rest s)); [lia|rewrite E; done]).
  assert (s < e <= es)%nat by (unfold e, skip_word; lia). split; [done|]. split.
  - unfold toks. rewrite <- (take_drop (word_len (rest s)) (rest s)) at 1. fold w. rewrite lex_word; [|done|done|done].
    by rewrite Hd.
  - constructor; [by rewrite He|done|done|done|by rewrite Hd].
Qed.

Lemma wp_peek_tok ts0 p Q :
  (p <= es)%nat -> (forall c, strchr ts0 c = true -> strchr symbols c = true) ->
  (forall p', (p <= p' <= es)%nat -> toks p' = toks p ->
     Q (looks ts0 (toks p)) p') ->
  wp P (peek mem es ts0) p Q.
Proof.
  intros Hp Hsub HQ. unfold wp, peek. destruct (skip_ws_spec p Hp) as (Hr & Ht & Hc).
  specialize (HQ (skip_ws mem es p) Hr Ht). set (s := skip_ws mem es p) in *. rewrite <- Ht in HQ.
  destruct Hc as [->|[Hs Hws]].
  { unfold toks in HQ. rewrite (proj1 rest_end) in HQ. rewrite (proj2 rest_end). exact HQ. }
  destruct (rest_cons s Hs) as [E Hne]. unfold toks in HQ. rewrite E in HQ. cbn [lex] in HQ. rewrite Hws in HQ.
  replace (char_at s =? 0) with false by lia. cbn [negb andb]. set (c := char_at s) in *.
  destruct (strchr singles c) eqn:E1; [exact HQ|]. destruct (c =? GT) eqn:E2.
  { assert (c = GT) as -> by lia. destruct (rest (S s)) as [|c' l]; [exact HQ|]. by destruct (c' =? GT). }
  assert (strchr ts0 c = false) as ->.
  { apply not_true_iff_false. intros H. apply Hsub in H. pose proof (char_kinds c Hws E1 E2) as Hw.
    destruct (word_not_sym c Hw) as [_ H']. congruence. }
  destruct (lex (rest (S s))) as [|[] ]; try exact HQ. by destruct (in_word (rest (S s))).
Qed.

Lemma wp_gettoken p Q :
  (p <= es)%nat ->
  (toks p = [] -> forall q e p', (p <= p' <= es)%nat -> toks p' = [] -> Q (0, q, e) p') ->
  (forall t ts q e p', toks p = t :: ts -> (p < p' <= es)%nat -> toks p' = ts -> tok_at t q e -> Q (kind t, q, e) p') ->
  wp P (gettoken mem es) p Q.
Proof.
  intros Hp HQ0 HQ. unfold wp, gettoken. destruct (skip_ws_spec p Hp) as (Hr & Ht & Hc).
  set (s := skip_ws mem es p) in *. rewrite <- Ht in HQ0, HQ.
  destruct Hc as [->|[Hs Hws]].
  { rewrite (proj2 rest_end). cbn [Z.eqb]. unfold toks in HQ0. rewrite (proj1 rest_end) in HQ0.
    destruct (skip_ws_spec es ltac:(lia)) as (Hr' & Ht' & _). apply HQ0; [done|lia|]. unfold toks in Ht'.
    by rewrite (proj1 rest_end) in Ht'. }
  destruct (rest_cons s Hs) as [E Hne]. replace (char_at s =? 0) with false by lia.
  assert (forall t e, toks s = t :: toks e -> (s < e <= es)%nat -> tok_at t s e ->
    Q (kind t, s, e) (skip_ws mem es e)) as Hdone.
  { intros t e Ets He Hta. destruct (skip_ws_spec e ltac:(lia)) as (Hr' & Ht' & _). eapply HQ; [exact Ets|lia|done|done]. }
  assert (toks s = lex (char_at s :: rest (S s))) as Hts by (unfold toks; by rewrite E).
  cbn [lex] in Hts. rewrite Hws in Hts. fold singles. set (c := char_at s) in *.
  destruct (strchr singles c) eqn:E1.
  { change c with (kind (Sym c)) at 1. apply Hdone; [done|lia|done]. }
  destruct (c =? GT) eqn:E2.
  - destruct (decide (S s < es)%nat) as [Hs'|Hs'].
    + destruct (rest_cons (S s) Hs') as [E' _]. rewrite E' in Hts. destruct (char_at (S s) =? GT) eqn:E3.
      * change PLUS with (kind Gtgt). apply Hdone; [done|lia|done].
      * change GT with (kind Gt) at 1. apply Hdone; [|lia|done]. rewrite Hts. unfold toks. by rewrite E'.
    + assert (S s = es) as Hse by lia. rewrite Hse in *. rewrite (proj1 rest_end) in Hts.
      rewrite (proj2 rest_end). change (0 =? GT) with false. change GT with (kind Gt) at 1. apply Hdone; [|lia|done].
      rewrite Hts. unfold toks. by rewrite (proj1 rest_end).
  - pose proof (char_kinds c Hws E1 E2) as Hw. destruct (skip_word_spec s Hs Hw) as (He & Htw & Hwa).
    change WORD with (kind (Word (take (skip_word mem es s - s) (rest s)))). by apply Hdone.
Qed.

Lemma kind_word t q e : tok_at t q e -> kind t = WORD -> exists w, t = Word w /\ word_at q e w.
Proof.
  destruct t as [c| | |w]; simpl; intros H E; [by subst; vm_compute in H|done|done|by exists w].
Qed.

Lemma kind_nz t q e : tok_at t q e -> kind t ≠ 0.
Proof. destruct t as [c| | |w]; simpl; intros H E; [by subst; vm_compute in H|done..]. Qed.

Lemma looks_sym c ts : c ≠ GT -> looks [c] ts = true -> exists ts', ts = Sym c :: ts'.
Proof.
  intros Hc. destruct ts as [|[c'| | |w] ts]; cbn [looks]; rewrite ?strchr_in, ?list_elem_of_singleton; try done.
  intros ->. by exists ts.
Qed.

Lemma looks_redir t ts q e : tok_at t q e -> looks [LT; GT] (t :: ts) = true -> exists k, t = rtok k.
Proof.
  destruct t as [c| | |w]; cbn [looks tok_at]; intros Hc H; [|by exists ROut|by exists RApp|done].
  apply strchr_in in H. apply elem_of_cons in H as [->|H]; [by exists RIn|].
  apply list_elem_of_singleton in H as ->. by vm_compute in Hc.
Qed.

(** The words a command's offsets delimit. *)
Definition rreads (r : redir) (x : rkind * list Z) : Prop :=
  let '(q, e, mode, fd) := r in
  word_at q e x.2 /\ (mode, fd) = match x.1 with RIn => (O_RDONLY, 0) | _ => (Z.lor O_WRONLY O_CREATE, 1) end.

Fixpoint creads (c : cmd) (a : ast) : Prop :=
  match c, a with
  | EXEC argv, AExec ws => Forall2 (fun qe w => word_at qe.1 qe.2 w) argv ws
  | REDIR c q e mode fd, ARedir a k w => creads c a /\ rreads (q, e, mode, fd) (k, w)
  | PIPE l r, APipe l' r' => creads l l' /\ creads r r'
  | LIST l r, AList l' r' => creads l l' /\ creads r r'
  | BACK c, ABack a => creads c a
  | _, _ => False
  end.

Lemma creads_redirs c a rs ars :
  creads c a -> Forall2 rreads rs ars -> creads (foldl redircmd c rs) (aredirs a ars).
Proof.
  intros Hc H. revert c a Hc. induction H as [|[[[q e] mode] fd] [k w] rs ars Hr H IH]; intros c a Hc; [done|].
  apply (IH (REDIR c q e mode fd) (ARedir a k w)). done.
Qed.

(** ** Every parse is a parse of the grammar, and the parser always ends *)

Lemma one_symbol c0 : strchr symbols c0 = true -> forall c, strchr [c0] c = true -> strchr symbols c = true.
Proof. intros H c. rewrite strchr_in, list_elem_of_singleton. by intros ->. Qed.

Lemma redir_symbols c : strchr [LT; GT] c = true -> strchr symbols c = true.
Proof. rewrite !strchr_in. unfold LT, GT, symbols. set_solver. Qed.

Lemma stop_symbols c : strchr [BAR; RPAR; AMP; SEMI] c = true -> strchr symbols c = true.
Proof. rewrite !strchr_in. unfold BAR, RPAR, AMP, SEMI, symbols. set_solver. Qed.

(** Peeking at, and then taking, one symbol. *)
Lemma wp_sym {A} c (m1 m2 : M nat A) p Q :
  (p <= es)%nat -> strchr symbols c = true -> c ≠ GT ->
  (forall ts p', toks p = Sym c :: ts -> (p < p' <= es)%nat -> toks p' = ts -> wp P m1 p' Q) ->
  (forall p', looks [c] (toks p) = false -> (p <= p' <= es)%nat -> toks p' = toks p -> wp P m2 p' Q) ->
  wp P (b ← peek mem es [c]; if b : bool then gettoken mem es;; m1 else m2) p Q.
Proof.
  intros Hp Hc Hgt H1 H2. wp_next. apply wp_peek_tok; [done|by apply one_symbol|]. intros p' Hp' Ht.
  destruct (looks [c] (toks p)) eqn:E; [|by apply H2]. apply looks_sym in E as [ts E]; [|done].
  wp_next. apply wp_gettoken; [lia|rewrite Ht, E; done|]. intros t ts' q e p'' Ets Hp'' Ht'' _. rewrite Ht, E in Ets.
  simplify_eq. eapply H1; [done|lia|done].
Qed.

Section sound.
Context (HP : forall msg, P (FPanic msg)).

Lemma wp_parseredirs n p rs ars :
  (p <= es)%nat -> (es - p < n)%nat -> Forall2 rreads rs ars ->
  wp P (parseredirs mem es n rs) p (fun rs' p' => (p <= p' <= es)%nat /\
    exists ts ars', toks p = ts ++ toks p' /\ g_redirs ts ars' /\ Forall2 rreads rs' (ars ++ ars')).
Proof.
  revert p rs ars. induction n as [|n IH]; intros p rs ars Hp Hn Hr; [lia|]. cbn [parseredirs].
  wp_next. apply wp_peek_tok; [done|apply redir_symbols|]. intros p1 Hp1 Ht1.
  destruct (looks [LT; GT] (toks p)) eqn:E.
  2: { apply wp_ret. split; [done|]. exists [], []. rewrite app_nil_r. split; [by rewrite Ht1|]. split; [constructor|done]. }
  wp_next. apply wp_gettoken; [lia|rewrite Ht1; intros E'; by rewrite E' in E|].
  intros t ts q e p2 Et Hp2 Ht2 Hta. rewrite Ht1 in Et. rewrite Et in E. destruct (looks_redir _ _ _ _ Hta E) as [k ->].
  wp_next. apply wp_gettoken; [lia|intros; by apply wp_panic|].
  intros t' ts' q' e' p3 Et' Hp3 Ht3 Hta'. cbn [fst snd]. destruct (kind t' =? WORD) eqn:Ek; [|by apply wp_panic].
  apply Z.eqb_eq in Ek. destruct (kind_word _ _ _ Hta' Ek) as (w & -> & Hw). cbn [negb].
  eapply wp_mono; [eapply (IH _ _ (ars ++ [(k, w)])); [lia|lia|]|].
  - apply Forall2_app; [done|]. constructor; [|constructor]. by destruct k.
  - intros rs' p' (Hp' & ts'' & ars' & Ht' & Hg & Hrs). split; [lia|]. exists (rtok k :: Word w :: ts''), ((k, w) :: ars').
    rewrite <- app_assoc in Hrs. split; [|split; [by constructor|done]]. rewrite Et. cbn [app]. congruence.
Qed.

Lemma wp_parseargs n p argv ws rs ars :
  (p <= es)%nat -> (es - p < n)%nat -> Forall2 rreads rs ars -> Forall2 (fun qe w => word_at qe.1 qe.2 w) argv ws ->
  (length argv < MAXARGS)%nat ->
  wp P (parseargs mem es n argv rs) p (fun a p' => (p <= p' <= es)%nat /\
    exists ts ws' ars', toks p = ts ++ toks p' /\
      (forall ts0 rs0, g_redirs ts0 rs0 -> g_args (ts0 ++ ts) ws' (rs0 ++ ars')) /\
      Forall2 (fun qe w => word_at qe.1 qe.2 w) a.1 (ws ++ ws') /\ Forall2 rreads a.2 (ars ++ ars') /\
      (length a.1 < MAXARGS)%nat).
Proof.
  revert p argv ws rs ars. induction n as [|n IH]; intros p argv ws rs ars Hp Hn Hr Ha HM; [lia|]. cbn [parseargs].
  assert (forall p', (p <= p' <= es)%nat -> toks p' = toks p -> wp P (mret (argv, rs)) p' (fun a p' => (p <= p' <= es)%nat /\
    exists ts ws' ars', toks p = ts ++ toks p' /\
      (forall ts0 rs0, g_redirs ts0 rs0 -> g_args (ts0 ++ ts) ws' (rs0 ++ ars')) /\
      Forall2 (fun qe w => word_at qe.1 qe.2 w) a.1 (ws ++ ws') /\ Forall2 rreads a.2 (ars ++ ars') /\
      (length a.1 < MAXARGS)%nat)) as Hend.
  { intros p' Hp' Ht'. apply wp_ret. split; [done|]. exists [], [], []. rewrite !app_nil_r. split; [by rewrite Ht'|].
    split; [|done]. intros ts0 rs0 Hg. rewrite !app_nil_r. by constructor. }
  wp_next. apply wp_peek_tok; [done|apply stop_symbols|]. intros p1 Hp1 Ht1.
  destruct (looks _ (toks p)); [by apply Hend|].
  wp_next. apply wp_gettoken; [lia|intros Hnil q e p' Hp' Ht'; apply Hend; [lia|congruence]|].
  intros t ts q e p2 Et Hp2 Ht2 Hta. cbn [fst snd]. rewrite (proj2 (Z.eqb_neq _ _) (kind_nz _ _ _ Hta)).
  destruct (kind t =? WORD) eqn:Ek; [|by apply wp_panic]. apply Z.eqb_eq in Ek.
  destruct (kind_word _ _ _ Hta Ek) as (w & -> & Hw). cbn [negb].
  destruct (MAXARGS <=? length (argv ++ [(q, e)]))%nat eqn:EM; [by apply wp_panic|]. apply Nat.leb_gt in EM.
  wp_next. eapply wp_mono; [by apply wp_parseredirs with (ars := ars); [lia|lia|]|].
  intros rs1 p3 (Hp3 & ts1 & ars1 & Ht3 & Hg1 & Hr1). cbn beta.
  eapply wp_mono; [apply (IH _ _ (ws ++ [w]) _ (ars ++ ars1)); [lia|lia|done| |done]|].
  { apply Forall2_app; [done|]. by constructor. }
  intros a p' (Hp' & ts2 & ws2 & ars2 & Ht' & Hg2 & Ha2 & Hr2 & HM2). split; [lia|].
  exists (Word w :: ts1 ++ ts2), (w :: ws2), (ars1 ++ ars2). rewrite <- app_assoc in Ha2, Hr2.
  split; [|split; [|done]].
  - cbn [app]. rewrite <- app_assoc. congruence.
  - intros ts0 rs0 Hg0. constructor; [done|]. by apply Hg2.
Qed.

(** The command read from [p] on is one of [G]. *)
Definition parsed (G : list tok -> ast -> Prop) (p : nat) (c : cmd) (p' : nat) : Prop :=
  (p <= p' <= es)%nat /\ exists ts a, toks p = ts ++ toks p' /\ G ts a /\ creads c a.

Lemma wp_parsebacks n p0 p c :
  (p <= es)%nat -> (es - p < n)%nat -> parsed g_backs p0 c p ->
  wp P (parsebacks mem es n c) p (parsed g_backs p0).
Proof.
  revert p c. induction n as [|n IH]; intros p c Hp Hn (Hp0 & ts & a & Ht & Hg & Hc); [lia|]. cbn [parsebacks].
  apply wp_sym; [done|done|done| |].
  - intros ts1 p1 E1 Hp1 Ht1. apply IH; [lia|lia|]. split; [lia|]. exists (ts ++ [Sym AMP]), (ABack a).
    split; [|split; [by constructor|done]]. rewrite <- app_assoc. cbn [app]. congruence.
  - intros p1 _ Hp1 Ht1. apply wp_ret. split; [lia|]. exists ts, a. by rewrite Ht1.
Qed.

Lemma wp_parse n :
  (forall p, (p <= es)%nat -> (4 * (es - p) + 4 <= n)%nat -> wp P (parseline mem es n) p (parsed g_line p)) /\
  (forall p, (p <= es)%nat -> (4 * (es - p) + 3 <= n)%nat -> wp P (parsepipe mem es n) p (parsed g_pipe p)) /\
  (forall p, (p <= es)%nat -> (4 * (es - p) + 2 <= n)%nat -> wp P (parseexec mem es n) p (parsed g_exec p)) /\
  (forall p, (p <= es)%nat -> (4 * (es - p) + 1 <= n)%nat -> wp P (parseblock mem es n) p (parsed g_exec p)).
Proof.
  induction n as [|n (IHl & IHp & IHe & IHb)]; [split_and!; intros; lia|]. split_and!; intros p Hp Hn; cbn [parseline parsepipe parseexec parseblock].
  - wp_next. eapply wp_mono; [apply IHp; [done|lia]|]. intros c p1 (Hp1 & ts1 & a1 & Ht1 & Hg1 & Hc1). cbn beta.
    wp_next. eapply wp_mono; [apply (wp_parsebacks _ p); [lia|lia|]|].
    { split; [done|]. exists ts1, a1. split; [done|]. split; [by constructor|done]. }
    intros c2 p2 (Hp2 & ts2 & a2 & Ht2 & Hg2 & Hc2). cbn beta. apply wp_sym; [lia|done|done| |].
    + intros ts3 p3 E3 Hp3 Ht3. wp_next. eapply wp_mono; [apply IHl; [lia|lia]|].
      intros c4 p4 (Hp4 & ts4 & a4 & Ht4 & Hg4 & Hc4). apply wp_ret. split; [lia|].
      exists (ts2 ++ Sym SEMI :: ts4), (AList a2 a4). rewrite <- app_assoc. cbn [app].
      split; [congruence|]. split; [by constructor|done].
    + intros p3 _ Hp3 Ht3. apply wp_ret. split; [lia|]. exists ts2, a2. rewrite Ht3. split; [done|]. split; [by constructor|done].
  - wp_next. eapply wp_mono; [apply IHe; [done|lia]|]. intros c p1 (Hp1 & ts1 & a1 & Ht1 & Hg1 & Hc1). cbn beta.
    apply wp_sym; [lia|done|done| |].
    + intros ts3 p3 E3 Hp3 Ht3. wp_next. eapply wp_mono; [apply IHp; [lia|lia]|].
      intros c4 p4 (Hp4 & ts4 & a4 & Ht4 & Hg4 & Hc4). apply wp_ret. split; [lia|].
      exists (ts1 ++ Sym BAR :: ts4), (APipe a1 a4). rewrite <- app_assoc. cbn [app].
      split; [congruence|]. split; [by constructor|done].
    + intros p3 _ Hp3 Ht3. apply wp_ret. split; [lia|]. exists ts1, a1. rewrite Ht3. split; [done|]. split; [by constructor|done].
  - wp_next. apply wp_peek_tok; [done|by apply one_symbol|]. intros p1 Hp1 Ht1.
    destruct (looks [LPAR] (toks p)).
    { eapply wp_mono; [apply IHb; lia|]. intros c p2 (Hp2 & H). split; [lia|]. by rewrite Ht1 in H. }
    wp_next. eapply wp_mono; [apply (wp_parseredirs _ _ [] []); [lia|lia|constructor]|].
    intros rs p2 (Hp2 & ts2 & ars & Ht2 & Hg2 & Hr2). cbn beta.
    wp_next. eapply wp_mono; [apply (wp_parseargs _ _ [] [] rs ars); [lia|lia|done|constructor|unfold MAXARGS; simpl; lia]|].
    intros [argv rs'] p3 (Hp3 & ts3 & ws & ars' & Ht3 & Hg3 & Ha3 & Hr3 & HM). cbn [fst snd] in *. apply wp_ret. split; [lia|].
    exists (ts2 ++ ts3), (aredirs (AExec ws) (ars ++ ars')). rewrite <- app_assoc. split; [congruence|].
    split; [|by apply creads_redirs]. constructor; [by apply Hg3|]. apply Forall2_length in Ha3. simpl in Ha3. lia.
  - wp_next. apply wp_peek_tok; [done|by apply one_symbol|]. intros p1 Hp1 Ht1.
    destruct (looks [LPAR] (toks p)) eqn:E; [|by apply wp_panic]. apply looks_sym in E as [ts E]; [|done]. cbn [negb].
    wp_next. apply wp_gettoken; [lia|rewrite Ht1, E; done|]. intros t ts' q e p2 Ets Hp2 Ht2 _. rewrite Ht1, E in Ets.
    simplify_eq. wp_next. eapply wp_mono; [apply IHl; [lia|lia]|]. intros c p3 (Hp3 & ts3 & a3 & Ht3 & Hg3 & Hc3). cbn beta.
    wp_next. apply wp_peek_tok; [lia|by apply one_symbol|]. intros p4 Hp4 Ht4.
    destruct (looks [RPAR] (toks p3)) eqn:E'; [|by apply wp_panic]. apply looks_sym in E' as [ts4 E']; [|done]. cbn [negb].
    wp_next. apply wp_gettoken; [lia|rewrite Ht4, E'; done|]. intros t ts' q' e' p5 Ets Hp5 Ht5 _. rewrite Ht4, E' in Ets.
    simplify_eq. wp_next. eapply wp_mono; [apply (wp_parseredirs _ _ [] []); [lia|lia|constructor]|].
    intros rs p6 (Hp6 & ts6 & ars & Ht6 & Hg6 & Hr6). cbn beta. apply wp_ret. split; [lia|].
    exists (Sym LPAR :: ts3 ++ Sym RPAR :: ts6), (aredirs a3 ars). cbn [app]. rewrite <- app_assoc. cbn [app].
    split; [congruence|]. split; [by constructor|by apply creads_redirs].
Qed.

End sound.

(** ** Every sentence of the grammar is parsed *)

Definition ends (cs : list Z) (k : list tok) : Prop :=
  match k with [] => True | Sym c :: _ => strchr cs c = true | _ => False end.

Lemma ends_mono cs cs' k : ends cs k -> (forall c, strchr cs c = true -> strchr cs' c = true) -> ends cs' k.
Proof. destruct k as [|[]]; simpl; auto. Qed.

Lemma ends_looks cs cs' k : ends cs k -> Forall (fun c => strchr cs' c = false) cs -> looks cs' k = false.
Proof.
  destruct k as [|[c| | |w] k]; simpl; try done. rewrite strchr_in, Forall_forall. auto.
Qed.

Definition stops : list Z := [BAR; RPAR; AMP; SEMI].

Lemma redirs_complete ts ars' k n p rs ars Q :
  g_redirs ts ars' -> toks p = ts ++ k -> looks [LT; GT] k = false -> (p <= es)%nat -> (es - p < n)%nat ->
  Forall2 rreads rs ars ->
  (forall rs' p', (p <= p' <= es)%nat -> toks p' = k -> Forall2 rreads rs' (ars ++ ars') -> Q rs' p') ->
  wp P (parseredirs mem es n rs) p Q.
Proof.
  intros Hg. revert n p rs ars. induction Hg as [|kd w ts ars' Hg IH]; intros n p rs ars Ht Hk Hp Hn Hr HQ;
    (destruct n as [|n]; [lia|]); cbn [parseredirs]; wp_next; (apply wp_peek_tok; [done|apply redir_symbols|]);
    intros p1 Hp1 Ht1; rewrite Ht in Ht1 |- *; cbn [app] in *.
  { rewrite Hk. apply wp_ret, HQ; [done..|]. by rewrite app_nil_r. }
  assert (looks [LT; GT] (rtok kd :: Word w :: ts ++ k) = true) as -> by by destruct kd.
  wp_next. apply wp_gettoken; [lia|by rewrite Ht1|]. intros t ts' q e p2 E2 Hp2 Ht2 _. rewrite Ht1 in E2. injection E2 as <- <-.
  wp_next. apply wp_gettoken; [lia|by rewrite Ht2|]. intros t ts' q' e' p3 E3 Hp3 Ht3 Hw. rewrite Ht2 in E3. injection E3 as <- <-.
  cbn [fst snd]. change (negb (kind (Word w) =? WORD)) with false. cbn beta iota.
  apply (IH _ _ _ (ars ++ [(kd, w)])); [done|done|lia|lia| |].
  - apply Forall2_app; [done|]. constructor; [|constructor]. by destruct kd.
  - intros rs' p' Hp' Ht' Hr'. rewrite <- app_assoc in Hr'. apply HQ; [lia|done|done].
Qed.

Lemma args_complete ts ws ars k n p argv ws0 rs0 ars0 Q :
  g_args ts ws ars -> toks p = ts ++ k -> ends stops k -> (p <= es)%nat -> (es - p < n)%nat ->
  Forall2 rreads rs0 ars0 -> Forall2 (fun qe w => word_at qe.1 qe.2 w) argv ws0 -> (length ws0 + length ws < MAXARGS)%nat ->
  (forall a p', (p <= p' <= es)%nat -> toks p' = k -> Forall2 (fun qe w => word_at qe.1 qe.2 w) a.1 (ws0 ++ ws) ->
     Forall2 rreads a.2 (ars0 ++ ars) -> Q a p') ->
  wp P (parseredirs mem es (S es) rs0) p (fun rs p' => wp P (parseargs mem es n argv rs) p' Q).
Proof.
  intros Hg. revert n p argv ws0 rs0 ars0.
  induction Hg as [ts ars Hg|ts1 rs1 w ts ws ars Hg1 Hg IH]; intros n p argv ws0 rs0 ars0 Ht Hk Hp Hn Hr Ha HM HQ;
    (destruct n as [|n]; [lia|]).
  - eapply redirs_complete; [done|done|apply (ends_looks stops); [done|by repeat constructor]|done|lia|done|]. intros rs' p1 Hp1 Ht1 Hr'. cbn [parseargs].
    wp_next. apply wp_peek_tok; [lia|apply stop_symbols|]. intros p2 Hp2 Ht2. fold stops. rewrite Ht1 in Ht2 |- *.
    assert (forall p3, (p <= p3 <= es)%nat -> toks p3 = k -> Q (argv, rs') p3) as Hend.
    { intros p3 Hp3 Ht3. apply HQ; [lia|done|by rewrite app_nil_r|done]. }
    destruct k as [|[c| | |w] k]; cbn [ends] in Hk; [|cbn [looks]; rewrite Hk; apply wp_ret, Hend; [lia|done]|done..].
    cbn [looks]. wp_next. apply wp_gettoken; [lia| |by rewrite Ht2]. intros _ q e p3 Hp3 Ht3. apply wp_ret, Hend; [lia|done].
  - rewrite <- app_assoc in Ht. cbn [app] in Ht.
    eapply redirs_complete; [done|done|done|done|lia|done|]. intros rs' p1 Hp1 Ht1 Hr'. cbn [parseargs].
    wp_next. apply wp_peek_tok; [lia|apply stop_symbols|]. intros p2 Hp2 Ht2. rewrite Ht1 in Ht2 |- *. cbn [looks].
    wp_next. apply wp_gettoken; [lia|by rewrite Ht2|]. intros t ts' q e p3 E3 Hp3 Ht3 Hw. rewrite Ht2 in E3. injection E3 as <- <-.
    cbn [fst snd]. change (kind (Word w) =? 0) with false. change (negb (kind (Word w) =? WORD)) with false. cbn beta iota.
    pose proof (Forall2_length _ _ _ Ha) as Hl. cbn [length] in HM.
    rewrite (proj2 (Nat.leb_gt _ _)) by (rewrite length_app; simpl; lia).
    wp_next. apply (IH _ _ _ (ws0 ++ [w]) _ (ars0 ++ rs1)); [done|done|lia|lia|done| | |].
    + apply Forall2_app; [done|]. by constructor.
    + rewrite length_app. simpl. lia.
    + intros a p' Hp' Ht' Ha' Hr''. rewrite <- app_assoc in Ha', Hr''. apply HQ; [lia|done|done|done].
Qed.

Definition parses (k : list tok) (a : ast) (p : nat) (c : cmd) (p' : nat) : Prop :=
  (p <= p' <= es)%nat /\ toks p' = k /\ creads c a.

Definition line_ok (ts : list tok) (a : ast) : Prop := forall p k n,
  (p <= es)%nat -> toks p = ts ++ k -> ends [RPAR] k -> (4 * (es - p) + 4 <= n)%nat ->
  wp P (parseline mem es n) p (parses k a p).

Definition backs_ok (ts : list tok) (a : ast) : Prop := forall p k n m Q,
  (p <= es)%nat -> toks p = ts ++ k -> ends [RPAR; AMP; SEMI] k -> (4 * (es - p) + 3 <= n)%nat -> (es - p < m)%nat ->
  (forall c p' m', parses k a p c p' -> (es - p' < m')%nat -> wp P (parsebacks mem es m' c) p' Q) ->
  wp P (parsepipe mem es n) p (fun c p' => wp P (parsebacks mem es m c) p' Q).

Definition pipe_ok (ts : list tok) (a : ast) : Prop := forall p k n,
  (p <= es)%nat -> toks p = ts ++ k -> ends [RPAR; AMP; SEMI] k -> (4 * (es - p) + 3 <= n)%nat ->
  wp P (parsepipe mem es n) p (parses k a p).

Definition exec_ok (ts : list tok) (a : ast) : Prop := forall p k n,
  (p <= es)%nat -> toks p = ts ++ k -> ends stops k -> (4 * (es - p) + 2 <= n)%nat ->
  wp P (parseexec mem es n) p (parses k a p).

Lemma sub_stops cs c : Forall (fun c => strchr stops c = true) cs -> strchr cs c = true -> strchr stops c = true.
Proof. intros H. rewrite strchr_in. rewrite Forall_forall in H. auto. Qed.

(** The end of [parseline]: an optional list tail. *)
Lemma line_tail {A} (m1 : M nat A) (m2 : M nat A) c p k Q :
  (p <= es)%nat -> toks p = k -> ends [RPAR] k -> strchr symbols c = true -> c ≠ GT -> c ≠ RPAR ->
  (forall p', (p <= p' <= es)%nat -> toks p' = k -> wp P m2 p' Q) ->
  wp P (b ← peek mem es [c]; if b : bool then gettoken mem es;; m1 else m2) p Q.
Proof.
  intros Hp Ht Hk Hc Hgt Hr H. apply wp_sym; [done..| |].
  - intros ts p' E. rewrite Ht in E. subst k. rewrite E in Hk. cbn [ends] in Hk.
    apply strchr_in, list_elem_of_singleton in Hk. done.
  - intros p' _ Hp' Ht'. apply H; [done|congruence].
Qed.

Lemma backs_stop p c k m a p0 :
  ends [RPAR; SEMI] k -> parses k a p0 c p -> (es - p < m)%nat -> wp P (parsebacks mem es m c) p (parses k a p0).
Proof.
  intros Hk (Hp & Ht & Hc) Hm. destruct m as [|m]; [lia|]. cbn [parsebacks]. apply wp_sym; [lia|done|done| |].
  - intros ts p' E. rewrite Ht in E. subst k. rewrite E in Hk. by vm_compute in Hk.
  - intros p' _ Hp' Ht'. apply wp_ret. split; [lia|]. split; [congruence|done].
Qed.

Lemma line_backs ts a : backs_ok ts a -> line_ok ts a.
Proof.
  intros Hb p k n Hp Ht Hk Hn. destruct n as [|n]; [lia|]. cbn [parseline]. wp_next.
  eapply wp_mono; [eapply (Hb p k n (S es) (parses k a p)); [done|done| |lia|lia|]|].
  - apply (ends_mono _ _ _ Hk). intros c. rewrite !strchr_in. set_solver.
  - intros c p' m' Hc Hm'. apply backs_stop; [|done|done]. apply (ends_mono _ _ _ Hk). intros c'. rewrite !strchr_in. set_solver.
  - intros c p' H. wp_next. eapply wp_mono; [exact H|]. intros c2 p2 (Hp2 & Ht2 & Hc2). cbn beta.
    apply (line_tail _ _ _ _ k); [lia|done|done|done|done|done|]. intros p3 Hp3 Ht3. apply wp_ret. split; [lia|done].
Qed.

Lemma line_list ts a ts' a' : backs_ok ts a -> line_ok ts' a' -> line_ok (ts ++ Sym SEMI :: ts') (AList a a').
Proof.
  intros Hb Hl p k n Hp Ht Hk Hn. rewrite <- app_assoc in Ht. cbn [app] in Ht. destruct n as [|n]; [lia|]. cbn [parseline]. wp_next.
  eapply wp_mono; [eapply (Hb p (Sym SEMI :: ts' ++ k) n (S es) (parses (Sym SEMI :: ts' ++ k) a p)); [done|done|done|lia|lia|]|].
  - intros c p' m' Hc Hm'. by apply backs_stop.
  - intros c p' H. wp_next. eapply wp_mono; [exact H|]. intros c2 p2 (Hp2 & Ht2 & Hc2). cbn beta.
    apply wp_sym; [lia|done|done| |intros p3 E3; by rewrite Ht2 in E3].
    intros ts3 p3 E3 Hp3 Ht3. rewrite Ht2 in E3. injection E3 as <-.
    wp_next. eapply wp_mono; [apply Hl; [lia|done|done|lia]|]. intros c4 p4 (Hp4 & Ht4 & Hc4). apply wp_ret.
    split; [lia|done].
Qed.

Lemma backs_pipe ts a : pipe_ok ts a -> backs_ok ts a.
Proof.
  intros Hpi p k n m Q Hp Ht Hk Hn Hm HQ. eapply wp_mono; [by apply (Hpi p k)|]. intros c p' Hc. apply HQ; [done|].
  destruct Hc as [? _]. lia.
Qed.

Lemma backs_back ts a : backs_ok ts a -> backs_ok (ts ++ [Sym AMP]) (ABack a).
Proof.
  intros Hb p k n m Q Hp Ht Hk Hn Hm HQ. rewrite <- app_assoc in Ht. cbn [app] in Ht.
  eapply Hb; [done|done|done|done|done|]. intros c p' m' (Hp' & Ht' & Hc) Hm'. destruct m' as [|m']; [lia|]. cbn [parsebacks].
  apply wp_sym; [lia|done|done| |intros p3 E3; by rewrite Ht' in E3].
  intros ts3 p3 E3 Hp3 Ht3. rewrite Ht' in E3. injection E3 as <-. apply HQ; [|lia]. split; [lia|done].
Qed.

Lemma pipe_exec ts a : exec_ok ts a -> pipe_ok ts a.
Proof.
  intros He p k n Hp Ht Hk Hn. destruct n as [|n]; [lia|]. cbn [parsepipe]. wp_next.
  eapply wp_mono; [apply (He p k); [done|done| |lia]|].
  { apply (ends_mono _ _ _ Hk). intros c. apply sub_stops. by repeat constructor. }
  intros c p1 (Hp1 & Ht1 & Hc). cbn beta. apply wp_sym; [lia|done|done| |].
  - intros ts1 p' E. rewrite Ht1 in E. rewrite E in Hk. by vm_compute in Hk.
  - intros p' _ Hp' Ht'. apply wp_ret. split; [lia|]. split; [congruence|done].
Qed.

Lemma pipe_pipe ts a ts' a' : exec_ok ts a -> pipe_ok ts' a' -> pipe_ok (ts ++ Sym BAR :: ts') (APipe a a').
Proof.
  intros He Hpi p k n Hp Ht Hk Hn. rewrite <- app_assoc in Ht. cbn [app] in Ht. destruct n as [|n]; [lia|]. cbn [parsepipe]. wp_next.
  eapply wp_mono; [apply (He p (Sym BAR :: ts' ++ k)); [done|done|done|lia]|].
  intros c p1 (Hp1 & Ht1 & Hc). cbn beta. apply wp_sym; [lia|done|done| |intros p3 E3; by rewrite Ht1 in E3].
  intros ts3 p3 E3 Hp3 Ht3. rewrite Ht1 in E3. injection E3 as <-.
  wp_next. eapply wp_mono; [apply (Hpi p3 k); [lia|done|done|lia]|]. intros c4 p4 (Hp4 & Ht4 & Hc4). apply wp_ret. split; [lia|done].
Qed.

Lemma args_head ts ws rs k : g_args ts ws rs -> ends stops k -> looks [LPAR] (ts ++ k) = false.
Proof.
  assert (forall ts' rs' k', g_redirs ts' rs' -> looks [LPAR] k' = false -> looks [LPAR] (ts' ++ k') = false) as Hr.
  { intros ts' rs' k' []; [done|]. by destruct k0. }
  intros [ts' rs' Hg|] Hk.
  - apply (Hr _ _ _ Hg). apply (ends_looks _ _ _ Hk). by repeat constructor.
  - rewrite <- app_assoc. by apply (Hr _ rs0).
Qed.

Lemma exec_simple ts ws rs : g_args ts ws rs -> (length ws < MAXARGS)%nat -> exec_ok ts (aredirs (AExec ws) rs).
Proof.
  intros Hg HM p k n Hp Ht Hk Hn. destruct n as [|n]; [lia|]. cbn [parseexec]. wp_next.
  apply wp_peek_tok; [done|by apply one_symbol|]. intros p1 Hp1 Ht1. rewrite Ht, (args_head _ _ _ _ Hg Hk).
  wp_next. eapply wp_mono; [eapply (args_complete _ _ _ k (S es) p1 [] [] [] [] (fun a p' => parses k (aredirs (AExec ws) rs) p (foldl redircmd (EXEC a.1) a.2) p') Hg);
    [congruence|done|lia|lia|constructor|constructor|done|]|].
  - intros a p' Hp' Ht' Ha Hr. split; [lia|]. split; [done|]. by apply creads_redirs.
  - intros a p' H. wp_next. eapply wp_mono; [exact H|]. intros a' p'' H'. by apply wp_ret.
Qed.

Lemma exec_block ts a ts' rs : line_ok ts a -> g_redirs ts' rs -> exec_ok (Sym LPAR :: ts ++ Sym RPAR :: ts') (aredirs a rs).
Proof.
  intros Hl Hg p k n Hp Ht Hk Hn. cbn [app] in Ht. rewrite <- app_assoc in Ht. cbn [app] in Ht.
  destruct n as [|[|n]]; [lia|lia|]. cbn [parseexec parseblock]. wp_next.
  apply wp_peek_tok; [done|by apply one_symbol|]. intros p1 Hp1 Ht1. rewrite Ht in Ht1 |- *. change (looks [LPAR] _) with true. cbn beta iota.
  wp_next. apply wp_peek_tok; [lia|by apply one_symbol|]. intros p2 Hp2 Ht2. rewrite Ht1 in Ht2 |- *. change (looks [LPAR] _) with true. cbn [negb].
  wp_next. apply wp_gettoken; [lia|by rewrite Ht2|]. intros t ts3 q e p3 E3 Hp3 Ht3 _. rewrite Ht2 in E3. injection E3 as <- <-.
  wp_next. eapply wp_mono; [apply Hl; [lia|done|done|lia]|]. intros c p4 (Hp4 & Ht4 & Hc). cbn beta.
  wp_next. apply wp_peek_tok; [lia|by apply one_symbol|]. intros p5 Hp5 Ht5. rewrite Ht4 in Ht5 |- *. change (looks [RPAR] _) with true. cbn [negb].
  wp_next. apply wp_gettoken; [lia|by rewrite Ht5|]. intros t ts6 q' e' p6 E6 Hp6 Ht6 _. rewrite Ht5 in E6. injection E6 as <- <-.
  wp_next. eapply redirs_complete; [done|done|apply (ends_looks stops); [done|by repeat constructor]|lia|lia|constructor|].
  intros rs' p7 Hp7 Ht7 Hr. apply wp_ret. split; [lia|]. split; [done|]. by apply creads_redirs.
Qed.

Lemma line_complete ts a : g_line ts a -> line_ok ts a.
Proof.
  apply (g_line_mut line_ok backs_ok pipe_ok exec_ok); intros.
  - by apply line_backs.
  - by apply line_list.
  - by apply backs_pipe.
  - by apply backs_back.
  - by apply pipe_exec.
  - by apply pipe_pipe.
  - by apply exec_simple.
  - by apply exec_block.
Qed.

End buffer.
