(* ===== verification/ShThms.v ===== *)
(** * The shell, from the line to the programs it starts

    [parsecmd] is a parser for the grammar of ShParse.v, and [runcmd], on tables of
    descriptors, implements the meaning [sem] of command lines in terms of
    standard input, output and error alone. *)

From stdpp Require Import base numbers sets list strings.
From S2P Require Import Prelude CString File Sh ShParse.
Import Sh.
Open Scope Z_scope.

(** ** Terminating the words *)

(** The command's strings are the words of the tree. *)
Fixpoint reads (mem : list Z) (c : cmd) (a : ast) : Prop :=
  match c, a with
  | EXEC argv, AExec ws => map (fun qe => str mem qe.1) argv = ws
  | REDIR c q e mode fd, ARedir a k w =>
      reads mem c a /\ str mem q = w /\
      (mode, fd) = match k with RIn => (O_RDONLY, 0) | _ => (Z.lor O_WRONLY O_CREATE, 1) end
  | PIPE l r, APipe l' r' => reads mem l l' /\ reads mem r r'
  | LIST l r, AList l' r' => reads mem l l' /\ reads mem r r'
  | BACK c, ABack a => reads mem c a
  | _, _ => False
  end.

(** Where the words of a command start and end. *)
Fixpoint spans (c : cmd) : list (nat * nat) :=
  match c with
  | EXEC argv => argv
  | REDIR c q e _ _ => spans c ++ [(q, e)]
  | PIPE l r | LIST l r => spans l ++ spans r
  | BACK c => spans c
  end.

Definition nuls (l : list (nat * nat)) (mem : list Z) : list Z := foldl (fun m x => <[x.2 := 0]> m) mem l.

Lemma nulterminate_spans c mem : nulterminate c mem = nuls (spans c) mem.
Proof.
  revert mem. induction c as [argv|c IH q e mode fd|l IHl r IHr|l IHl r IHr|c IH]; intros mem; simpl; [done| | | |done].
  - rewrite IH. unfold nuls. by rewrite foldl_app.
  - rewrite IHl, IHr. unfold nuls. by rewrite foldl_app.
  - rewrite IHl, IHr. unfold nuls. by rewrite foldl_app.
Qed.

Lemma nuls_length l mem : length (nuls l mem) = length mem.
Proof. revert mem. induction l as [|x l IH]; intros mem; simpl; [done|]. by rewrite IH, length_insert. Qed.

Lemma nuls_other l mem j : j ∉ l.*2 -> nuls l mem !! j = mem !! j.
Proof.
  revert mem. induction l as [|x l IH]; intros mem; simpl; [done|]. rewrite not_elem_of_cons. intros [H1 H2].
  rewrite IH by done. by rewrite list_lookup_insert_ne.
Qed.

Lemma nuls_at l mem j : j ∈ l.*2 -> (j < length mem)%nat -> nuls l mem !! j = Some 0.
Proof.
  revert mem. induction l as [|x l IH]; intros mem; simpl; [by rewrite elem_of_nil|]. intros Hj Hl.
  destruct (decide (j ∈ l.*2)) as [H|H]; [by apply IH; [|rewrite length_insert]|].
  apply elem_of_cons in Hj as [->|?]; [|done]. rewrite nuls_other by done. by apply list_lookup_insert_eq.
Qed.

Lemma cstr_app w r : Forall (fun c => c ≠ 0) w -> KString.cstr (w ++ 0 :: r) = w.
Proof. induction 1 as [|c w Hc Hw IH]; [done|]. simpl. rewrite decide_False by done. by rewrite IH. Qed.

Section terminate.
Context (mem : list Z) (es : nat).
Context (Hes : nth es mem 0 = 0) (Hlen : (es < length mem)%nat) (Hnz : Forall (fun c => c ≠ 0) (line mem es)).

Lemma word_len_at q e w : word_at mem es q e w -> length w = (e - q)%nat.
Proof. intros [H _ _ Hle _]. rewrite <- H, length_take, (length_rest mem es Hlen). lia. Qed.

(** A character of a word is not where a word ends. *)
Lemma inside q e w j : word_at mem es q e w -> (q <= j < e)%nat -> in_word (drop j (line mem es)) = true /\ mem !! j = w !! (j - q)%nat.
Proof.
  intros H Hj. pose proof (word_len_at _ _ _ H) as Hw. destruct H as [H1 _ H3 Hle _].
  destruct (lookup_lt_is_Some_2 w (j - q)) as [c Hc]; [lia|].
  assert (line mem es !! j = Some c) as El.
  { rewrite <- H1, lookup_take_lt, lookup_drop in Hc by lia. by replace (q + (j - q))%nat with j in Hc by lia. }
  rewrite (drop_S _ _ _ El). rewrite Forall_lookup in H3. split; [by apply (H3 (j - q)%nat)|]. rewrite Hc.
  unfold line in El. by apply lookup_take_Some in El as [? _].
Qed.

Lemma str_word l q e w :
  (forall x, x ∈ l -> exists w, word_at mem es x.1 x.2 w) -> (q, e) ∈ l -> word_at mem es q e w -> str (nuls l mem) q = w.
Proof.
  intros Hl Hqe Hw. pose proof (word_len_at _ _ _ Hw) as Hlw. pose proof (wa_le _ _ _ _ _ Hw) as Hle.
  assert (forall j, (q <= j < e)%nat -> j ∉ l.*2) as Hin.
  { intros j Hj Hjl. apply list_elem_of_fmap in Hjl as ([q' e'] & -> & Hx). destruct (Hl _ Hx) as [w' Hw'].
    destruct (inside _ _ _ _ Hw Hj) as [Hi _]. pose proof (wa_end _ _ _ _ _ Hw') as He. cbn in *. congruence. }
  unfold str. assert (drop q (nuls l mem) = w ++ 0 :: drop (S e) (nuls l mem)) as ->.
  - rewrite <- (take_drop (e - q) (drop q (nuls l mem))). rewrite drop_drop. replace (q + (e - q))%nat with e by lia.
    rewrite (drop_S (nuls l mem) 0 e); [|apply nuls_at; [|lia]; apply list_elem_of_fmap; by exists (q, e)]. f_equal.
    apply list_eq. intros j. destruct (decide (j < e - q)%nat) as [Hj|Hj].
    + rewrite lookup_take_lt, lookup_drop by lia. rewrite nuls_other by (apply Hin; lia).
      destruct (inside _ _ _ (q + j) Hw ltac:(lia)) as [_ ->]. f_equal. lia.
    + rewrite lookup_take_ge by lia. symmetry. apply lookup_ge_None. lia.
  - apply cstr_app. rewrite <- (wa_slice _ _ _ _ _ Hw). by apply Forall_take, Forall_drop.
Qed.

Lemma creads_spans c a : creads mem es c a -> forall x, x ∈ spans c -> exists w, word_at mem es x.1 x.2 w.
Proof.
  revert a. induction c as [argv|c IH q e mode fd|l IHl r IHr|l IHl r IHr|c IH]; intros [ws|a k w|l' r'|l' r'|a]; simpl; try done.
  - intros H x Hx. apply list_elem_of_lookup in Hx as [i Hi]. destruct (Forall2_lookup_l _ _ _ _ _ H Hi) as (w & _ & Hw). eauto.
  - intros [H1 [H2 _]] x. rewrite elem_of_app, list_elem_of_singleton. intros [Hx| ->]; [eauto|]. by exists w.
  - intros [H1 H2] x. rewrite elem_of_app. intros [Hx|Hx]; eauto.
  - intros [H1 H2] x. rewrite elem_of_app. intros [Hx|Hx]; eauto.
  - eauto.
Qed.

Lemma creads_reads c a l :
  (forall x, x ∈ l -> exists w, word_at mem es x.1 x.2 w) -> (forall x, x ∈ spans c -> x ∈ l) ->
  creads mem es c a -> reads (nuls l mem) c a.
Proof.
  intros Hl. revert a. induction c as [argv|c IH q e mode fd|l1 IHl r IHr|l1 IHl r IHr|c IH]; intros [ws|a k w|l' r'|l' r'|a] Hs; simpl in *; try done.
  - intros H. induction H as [|[q e] w argv ws Hw H IH]; [done|]. cbn [map]. f_equal; [|apply IH; intros; apply Hs; by right].
    apply (str_word l q e w); [done|apply Hs; by left|done].
  - intros [H1 [H2 H3]]. split; [apply IH; [|done]; intros x Hx; apply Hs; rewrite elem_of_app; by left|]. split; [|done].
    apply (str_word l q e); [done|apply Hs; rewrite elem_of_app; right; by left|done].
  - intros [H1 H2]. split; [apply IHl|apply IHr]; try done; intros x Hx; apply Hs; rewrite elem_of_app; tauto.
  - intros [H1 H2]. split; [apply IHl|apply IHr]; try done; intros x Hx; apply Hs; rewrite elem_of_app; tauto.
  - auto.
Qed.

Lemma terminated c a : creads mem es c a -> reads (nulterminate c mem) c a.
Proof.
  intros H. rewrite nulterminate_spans. apply creads_reads; [by apply (creads_spans c a)|done|done].
Qed.

End terminate.

(** ** Parsing *)

(** The buffer holds a string of length [es]. *)
Record holds_line (mem : list Z) (es : nat) : Prop := mkLine {
  hl_nul : mem !! es = Some 0;
  hl_nz : Forall (fun c => c ≠ 0) (line mem es) }.

Lemma hl_nth mem es : holds_line mem es -> nth es mem 0 = 0 /\ (es < length mem)%nat.
Proof. intros [H _]. split; [by apply nth_lookup_Some|by eapply lookup_lt_Some]. Qed.

(** After the last token only white space is left, and the parser gets to the end. *)
Lemma wp_peek_end P mem es p Q : holds_line mem es -> (p <= es)%nat -> toks mem es p = [] ->
  Q false es -> wp P (peek mem es []) p Q.
Proof.
  intros HL Hp Ht HQ. destruct (hl_nth _ _ HL) as [Hes Hlen]. unfold wp, peek.
  destruct (skip_ws_spec mem es Hlen (hl_nz _ _ HL) p Hp) as (Hr & Ht' & Hc).
  destruct Hc as [->|[Hs Hws]].
  - destruct (rest_end mem es Hes Hlen) as [_ E0]. rewrite E0. exact HQ.
  - exfalso. rewrite Ht in Ht'. unfold toks in Ht'. destruct (rest_cons mem es Hlen (hl_nz _ _ HL) _ Hs) as [E _].
    rewrite E in Ht'. cbn [lex] in Ht'. rewrite Hws in Ht'.
    destruct (strchr singles _); [done|]. destruct (_ =? GT).
    + destruct (drop _ _) as [|c l]; [done|]. by destruct (c =? GT).
    + destruct (lex _) as [|[]]; try done. by destruct (in_word _).
Qed.

Lemma parsecmd_wp mem es : holds_line mem es ->
  wp (fun f => f ≠ FBlocked) (fun p => parsecmd mem es) 0%nat (fun r _ =>
    exists a, g_line (lex (line mem es)) a /\ reads r.2 r.1 a).
Proof.
  intros HL. destruct (hl_nth _ _ HL) as [Hes Hlen]. pose proof (hl_nz _ _ HL) as Hnz.
  unfold parsecmd. apply wp_bind. 
  eapply wp_mono; [apply (wp_parse mem es Hes Hlen Hnz (fun f => f ≠ FBlocked) ltac:(done)); [lia|unfold depth; lia]|].
  intros c p (Hp & ts & a & Ht & Hg & Hc). cbn beta. wp_next. unfold wp at 1, peek.
  destruct (skip_ws_spec mem es Hlen Hnz p ltac:(lia)) as (Hr & Ht' & _). set (s := skip_ws mem es p) in *.
  wp_next. apply wp_gets. cbn [id]. destruct (s =? es)%nat eqn:E; [|done]. apply Nat.eqb_eq in E. cbn [negb]. apply wp_ret.
  exists a. cbn [fst snd]. split; [|by apply (terminated mem es)].
  replace (lex (line mem es)) with ts; [done|]. unfold toks in Ht at 1. rewrite drop_0 in Ht. rewrite Ht, <- Ht', E.
  unfold toks. by rewrite (proj1 (rest_end mem es Hes Hlen)), app_nil_r.
Qed.

(** C34. The parser always ends, with a command or with a syntax error (the bound on
    the depth of its calls is never reached); and the command it returns is one
    the grammar gives the line, its words the NUL-terminated strings the command
    points to. *)
Theorem parsecmd_sound mem es :
  holds_line mem es ->
  match parsecmd mem es with
  | Ok (c, mem') _ => exists a, g_line (lex (line mem es)) a /\ reads mem' c a
  | Panic _ => True
  | Blocked => False
  end.
Proof.
  intros HL. pose proof (parsecmd_wp mem es HL) as H. unfold wp in H. by destruct (parsecmd mem es) as [[c mem'] s|m|].
Qed.

Lemma parsecmd_ok mem es a : holds_line mem es -> g_line (lex (line mem es)) a ->
  exists c mem' s, parsecmd mem es = Ok (c, mem') s /\ reads mem' c a.
Proof.
  intros HL Hg. destruct (hl_nth _ _ HL) as [Hes Hlen]. pose proof (hl_nz _ _ HL) as Hnz.
  destruct (wp_total (fun p => parsecmd mem es) 0%nat (fun r _ => reads r.2 r.1 a)) as ([c mem'] & s & E & H).
  - unfold parsecmd. wp_next. eapply wp_mono; [apply (line_complete mem es Hes Hlen Hnz no_failure _ _ Hg 0%nat []);
      [lia|by rewrite app_nil_r; unfold toks; rewrite drop_0|done|unfold depth; lia]|].
    intros c p (Hp & Ht & Hc). cbn beta. wp_next. apply wp_peek_end; [done|lia|done|]. wp_next. apply wp_gets. cbn [id].
    rewrite Nat.eqb_refl. cbn [negb]. apply wp_ret. cbn [fst snd]. by apply (terminated mem es).
  - exists c, mem', s. done.
Qed.

(** ** Running *)

(** Three descriptors, and no others. *)
Definition table (i o e : desc) : fds := [Some i; Some o; Some e] ++ replicate 13 None.

(** What a command line means: each program gets the standard input, output and
    error that redirections and pipes give it. *)
Fixpoint sem (a : ast) (i o e : desc) (w : world) : world :=
  match a with
  | AExec [] => w
  | AExec argv => exec argv (table i o e) w
  | ARedir a k file =>
      let '(ok, w) := attempt w in
      if ok : bool then
        match k with
        | RIn => sem a (Opened file O_RDONLY) o e w
        | ROut | RApp => sem a i (Opened file (Z.lor O_WRONLY O_CREATE)) e w
        end
      else w
  | APipe l r =>
      let '(ok, w) := attempt w in
      if ok : bool then
        let n := npipes w in
        let '(parent, w) := fork1 (sem l i (PipeW n) e) (mkW (started w) (S n) (outcomes w)) in
        if parent : bool then snd (fork1 (sem r (PipeR n) o e) w) else w
      else w
  | AList l r =>
      let '(parent, w) := fork1 (sem l i o e) w in
      if parent : bool then sem r i o e w else w
  | ABack a => snd (fork1 (sem a i o e) w)
  end.

Lemma fork1_ext f g w : (forall w, f w = g w) -> fork1 f w = fork1 g w.
Proof. intros H. unfold fork1. destruct (attempt w) as [[] w']; [by rewrite H|done]. Qed.

(** The shuffling of descriptors around a pipe: four steps each. *)
Lemma left_end i o e n : close 4 (close 3 (dup 4 (close 1 (<[4%nat := Some (PipeW n)]> (<[3%nat := Some (PipeR n)]> (table i o e)))))) = table i (PipeW n) e.
Proof. reflexivity. Qed.

Lemma right_end i o e n : close 4 (close 3 (dup 3 (close 0 (<[4%nat := Some (PipeW n)]> (<[3%nat := Some (PipeR n)]> (table i o e)))))) = table (PipeR n) o e.
Proof. reflexivity. Qed.

Lemma pipe_table i o e w : pipe (table i o e) w =
  let '(ok, w) := attempt w in
  if ok : bool then
    (Some (3%nat, 4%nat, <[4%nat := Some (PipeW (npipes w))]> (<[3%nat := Some (PipeR (npipes w))]> (table i o e))),
     mkW (started w) (S (npipes w)) (outcomes w))
  else (None, w).
Proof. unfold pipe. by destruct (attempt w) as [[] w']. Qed.

Lemma open_table path mode i o e w : open path mode (close 0 (table i o e)) w =
  (let '(ok, w) := attempt w in (if ok : bool then Some (table (Opened path mode) o e) else None, w)) /\
  open path mode (close 1 (table i o e)) w =
  (let '(ok, w) := attempt w in (if ok : bool then Some (table i (Opened path mode) e) else None, w)).
Proof. unfold open. by destruct (attempt w) as [[] w']. Qed.

Lemma runcmd_sem mem c a : reads mem c a -> forall i o e w, runcmd mem c (table i o e) w = sem a i o e w.
Proof.
  revert c. induction a as [ws|a IH k f|l IHl r IHr|l IHl r IHr|a IH]; intros [argv|c q eq mode fd|cl cr|cl cr|c] Hr i o e w;
    simpl in Hr; try done; cbn [runcmd sem].
  - subst ws. by destruct argv.
  - destruct Hr as (Hr & Hf & Em). destruct k; injection Em as -> ->;
      [change (Z.to_nat 0) with 0%nat|change (Z.to_nat 1) with 1%nat|change (Z.to_nat 1) with 1%nat];
      [rewrite (proj1 (open_table _ _ i o e w))|rewrite (proj2 (open_table _ _ i o e w))..];
      rewrite Hf; destruct (attempt w) as [[] w']; try done; by apply IH.
  - destruct Hr as [H1 H2]. rewrite pipe_table. destruct (attempt w) as [[] w']; [|done].
    rewrite left_end, right_end. rewrite (fork1_ext _ (sem l i (PipeW (npipes w')) e)) by (intros; by apply IHl).
    destruct (fork1 _ _) as [[] w2]; [|done]. by rewrite (fork1_ext _ (sem r (PipeR (npipes w')) o e)) by (intros; by apply IHr).
  - destruct Hr as [H1 H2]. rewrite (fork1_ext _ (sem l i o e)) by (intros; by apply IHl).
    destruct (fork1 _ _) as [[] w2]; [|done]. by apply IHr.
  - by rewrite (fork1_ext _ (sem a i o e)) by (intros; by apply IH).
Qed.

(** C19. The shell as a whole: a line of the grammar is parsed, and running the
    command in a process with three descriptors starts the programs of the line's
    meaning, each with the right standard input, output and error and with no
    other descriptor (so that the reader of a pipe sees its end), whichever of the
    calls of [fork], [pipe] and [open] fail. *)
Theorem shell_correct mem es a i o e w :
  holds_line mem es -> g_line (lex (line mem es)) a ->
  exists c mem' s, parsecmd mem es = Ok (c, mem') s /\ runcmd mem' c (table i o e) w = sem a i o e w.
Proof.
  intros HL Hg. destruct (parsecmd_ok mem es a HL Hg) as (c & mem' & s & E & Hr). exists c, mem', s. split; [done|].
  by apply runcmd_sem.
Qed.
