(* ===== verification/Fs.v ===== *)
(** * The file system: fs.c, fs.h, file.h

    Inodes, their contents, directories and paths, on top of an interface to
    blocks ([BlockLayer]): [bread], the data of a buffer, [log_write] and
    [brelse].  FsLog.v is the instance made of bio.c and log.c.

    The state is the block layer's and the inode cache; [struct inode*] is an
    index into the latter.  [sb] is the superblock, which [iinit] reads before
    any other function of fs.c runs.  The memory [dst] and [src] of [readi] and
    [writei] are lists of bytes. *)

From stdpp Require Import base numbers gmap list strings.
From S2P Require Import Prelude CString Spinlock Sleeplock Bio Log.
Open Scope Z_scope.

(** ** Constants and types *)

Definition ROOTINO : Z := 1.
Definition NDIRECT : Z := 12.
Definition NINDIRECT : Z := 128.
Definition MAXFILE : Z := NDIRECT + NINDIRECT.
Definition DIRSIZ : nat := 14.
Definition NINODE : nat := 50.
Definition NDEV : Z := 10.
Definition T_DIR : Z := 1.
Definition T_FILE : Z := 2.
Definition T_DEV : Z := 3.

(** Sizes of the structures: [struct dinode] has 64 bytes, [struct dirent] 16. *)
Definition IPB : Z := 8.
Definition BPB : Z := BSIZE * 8.
Definition DESIZE : Z := 16.

Record superblock := mkSb {
  sb_size : Z;
  sb_nblocks : Z;
  sb_ninodes : Z;
  sb_nlog : Z;
  sb_logstart : Z;
  sb_inodestart : Z;
  sb_bmapstart : Z }.

(** The part of an inode that lives on the disk. *)
Record dinode := mkDi {
  d_type : Z;
  d_major : Z;
  d_minor : Z;
  d_nlink : Z;
  d_size : Z;
  d_addrs : list Z }.

Record inode := mkI {
  i_dev : Z;
  i_num : Z;
  i_ref : Z;
  i_lock : sleeplock;
  i_valid : Z;
  i_d : dinode }.

Definition dinode0 : dinode := mkDi 0 0 0 0 0 (replicate 13 0).
Definition inode0 : inode := mkI 0 0 0 (mkSl 0 "" 0) 0 dinode0.

Definition set_d_type (v : Z) (d : dinode) : dinode :=
  mkDi v (d_major d) (d_minor d) (d_nlink d) (d_size d) (d_addrs d).
Definition set_d_nums (major minor nlink : Z) (d : dinode) : dinode :=
  mkDi (d_type d) major minor nlink (d_size d) (d_addrs d).
Definition set_d_size (v : Z) (d : dinode) : dinode :=
  mkDi (d_type d) (d_major d) (d_minor d) (d_nlink d) v (d_addrs d).
Definition set_d_addrs (v : list Z) (d : dinode) : dinode :=
  mkDi (d_type d) (d_major d) (d_minor d) (d_nlink d) (d_size d) v.

Definition set_i_id (dev num : Z) (i : inode) : inode :=
  mkI dev num (i_ref i) (i_lock i) (i_valid i) (i_d i).
Definition set_i_ref (v : Z) (i : inode) : inode :=
  mkI (i_dev i) (i_num i) v (i_lock i) (i_valid i) (i_d i).
Definition set_i_lock (v : sleeplock) (i : inode) : inode :=
  mkI (i_dev i) (i_num i) (i_ref i) v (i_valid i) (i_d i).
Definition set_i_valid (v : Z) (i : inode) : inode :=
  mkI (i_dev i) (i_num i) (i_ref i) (i_lock i) v (i_d i).
Definition set_i_d (f : dinode -> dinode) (i : inode) : inode :=
  mkI (i_dev i) (i_num i) (i_ref i) (i_lock i) (i_valid i) (f (i_d i)).

(** ** Integers in a block *)

Definition i16 (z : Z) : Z := (z + 32768) mod 65536 - 32768.

Definition get16 (d : list Z) (o : nat) : Z :=
  default 0 (d !! o) + 256 * default 0 (d !! (o + 1)%nat).

Definition put16 (o : nat) (v : Z) (d : list Z) : list Z :=
  <[(o + 1)%nat := v mod 65536 / 256]> (<[o := v mod 65536 mod 256]> d).

(** A [uint]. *)
Definition getu32 (d : list Z) (o : nat) : Z := u32 (get32 d o).

(** [memmove(dip->addrs, ip->addrs, sizeof(ip->addrs))] *)
Definition put_addrs (o : nat) (l : list Z) (d : list Z) : list Z :=
  foldl (fun d k => put32 (o + 4 * k) (default 0 (l !! k)) d) d (seq 0 13).

Definition get_addrs (d : list Z) (o : nat) : list Z := (fun k => getu32 d (o + 4 * k)) <$> seq 0 13.

(** [dip->type = ip->type; ... memmove(dip->addrs, ...)], for [dip] at [o]. *)
Definition put_dinode (o : nat) (di : dinode) (d : list Z) : list Z :=
  put_addrs (o + 12) (d_addrs di)
    (put32 (o + 8) (d_size di)
      (put16 (o + 6) (d_nlink di)
        (put16 (o + 4) (d_minor di) (put16 (o + 2) (d_major di) (put16 o (d_type di) d))))).

Definition get_dinode (d : list Z) (o : nat) : dinode :=
  mkDi (i16 (get16 d o)) (i16 (get16 d (o + 2))) (i16 (get16 d (o + 4))) (i16 (get16 d (o + 6)))
    (getu32 d (o + 8)) (get_addrs d (o + 12)).

(** [memset(dip, 0, sizeof( *dip))] *)
Definition zero_dinode (o : nat) (d : list Z) : list Z := take o d ++ replicate 64 0 ++ drop (o + 64) d.

(** [memmove(d + o, s, length s)] *)
Definition splice (o : nat) (s d : list Z) : list Z := take o d ++ s ++ drop (o + length s) d.

(** The bit of block [bi] of a bitmap block. *)
Definition bit_mask (bi : Z) : Z := Z.shiftl 1 (bi mod 8).

Definition bit_clear (d : list Z) (bi : Z) : bool :=
  Z.land (default 0 (d !! Z.to_nat (bi / 8))) (bit_mask bi) =? 0.

Definition set_bit (bi : Z) (d : list Z) : list Z :=
  alter (fun x => Z.lor x (bit_mask bi)) (Z.to_nat (bi / 8)) d.

Definition unset_bit (bi : Z) (d : list Z) : list Z :=
  alter (fun x => Z.land x (Z.lnot (bit_mask bi))) (Z.to_nat (bi / 8)) d.

(** A string of [n] bytes as the functions of string.c see it. *)
Definition cbytes (s : list Z) : nat -> Z := fun k => default 0 (s !! k).

(** ** The interface to blocks *)

Class BlockLayer (X : Type) := mkBlockLayer {
  b_read : Z -> Z -> M (mach * X) nat;
  b_data : nat -> M (mach * X) (list Z);
  b_modify : nat -> (list Z -> list Z) -> M (mach * X) unit;
  b_log : nat -> M (mach * X) unit;
  b_rel : nat -> M (mach * X) unit }.

Record fs (X : Type) := mkFs { fblk : X; icache : list inode }.
Arguments mkFs {X} fblk icache.
Arguments fblk {X} f.
Arguments icache {X} f.

Section state.
Context {X : Type}.

Definition set_fblk (x : X) (s : fs X) : fs X := mkFs x (icache s).

Definition inode_at (ip : nat) (s : fs X) : inode := default inode0 (icache s !! ip).

Definition upd_inode (ip : nat) (f : inode -> inode) (s : fs X) : fs X :=
  mkFs (fblk s) (alter f ip (icache s)).

Definition on_blk {A} (op : M (mach * X) A) : M (mach * fs X) A := part fblk set_fblk op.

Definition on_ilock {A} (ip : nat) (op : M (mach * sleeplock) A) : M (mach * fs X) A :=
  part (fun s => i_lock (inode_at ip s)) (fun l => upd_inode ip (set_i_lock l)) op.

(** [ip->f] and assignments to [*ip]. *)
Definition iread {A} (f : inode -> A) (ip : nat) : M (mach * fs X) A :=
  on_data (gets (fun s => f (inode_at ip s))).

Definition iset (f : inode -> inode) (ip : nat) : M (mach * fs X) unit :=
  on_data (modify (upd_inode ip f)).

End state.

(** The sleep lock of an inode; the ids below NBUF are those of the buffers. *)
Definition ilock_id (ip : nat) : Z := Z.of_nat (NBUF + ip).

Section fs.
Context {X : Type} `{BL : BlockLayer X} (me : Z) (sb : superblock).

(** ** Blocks *)

Definition BBLOCK (b : Z) : Z := b / BPB + sb_bmapstart sb.
Definition IBLOCK (i : Z) : Z := i / IPB + sb_inodestart sb.

(** Where the inode [inum] is in its block. *)
Definition ioff (inum : Z) : nat := Z.to_nat (64 * (inum mod IPB)).

Definition readsb (dev : Z) : M (mach * fs X) superblock :=
  bp ← on_blk (b_read dev 1);
  d ← on_blk (b_data bp);
  on_blk (b_rel bp);;
  mret (mkSb (getu32 d 0) (getu32 d 4) (getu32 d 8) (getu32 d 12) (getu32 d 16) (getu32 d 20)
          (getu32 d 24)).

Definition bzero (dev bno : Z) : M (mach * X) unit :=
  bp ← b_read dev bno;
  b_modify bp (fun d => replicate (Z.to_nat BSIZE) 0);;
  b_log bp;;
  b_rel bp.

(** [for(bi = 0; bi < BPB && b + bi < sb.size; bi++)], up to the first clear
    bit; [n] is the number of turns left. *)
Fixpoint free_bit (d : list Z) (b : Z) (n : nat) (bi : Z) : option Z :=
  match n with
  | O => None
  | S n =>
      if b + bi <? sb_size sb then
        if bit_clear d bi then Some bi else free_bit d b n (bi + 1)
      else None
  end.

Fixpoint balloc_loop (dev : Z) (bs : list Z) : M (mach * X) Z :=
  match bs with
  | [] => panic "balloc: out of blocks"
  | b :: bs =>
      bp ← b_read dev (BBLOCK b);
      d ← b_data bp;
      match free_bit d b (Z.to_nat BPB) 0 with
      | Some bi =>
          b_modify bp (set_bit bi);;
          b_log bp;;
          b_rel bp;;
          bzero dev (b + bi);;
          mret (b + bi)
      | None => b_rel bp;; balloc_loop dev bs
      end
  end.

(** [for(b = 0; b < sb.size; b += BPB)] *)
Definition groups : list Z :=
  (fun k => Z.of_nat k * BPB) <$> seq 0 (Z.to_nat ((sb_size sb + BPB - 1) / BPB)).

Definition balloc (dev : Z) : M (mach * X) Z := balloc_loop dev groups.

Definition bfree (dev b : Z) : M (mach * X) unit :=
  bp ← b_read dev (BBLOCK b);
  d ← b_data bp;
  if bit_clear d (b mod BPB) then panic "freeing free block" else
  b_modify bp (unset_bit (b mod BPB));;
  b_log bp;;
  b_rel bp.

(** ** Inodes *)

Definition iinit (dev : Z) : M (mach * fs X) superblock :=
  on_mach_of (initlock Licache "icache");;
  mfor (seq 0 NINODE) (fun i => on_ilock i (initsleeplock (ilock_id i) "inode"));;
  readsb dev.

(** The loop of [iget]: the entry that is in use for the inode, or else the
    first free one. *)
Fixpoint iget_scan (dev inum : Z) (l : list inode) (k : nat) (empty : option nat) : option nat * option nat :=
  match l with
  | [] => (None, empty)
  | ip :: l =>
      if (i_ref ip >? 0) && (i_dev ip =? dev) && (i_num ip =? inum) then (Some k, empty)
      else iget_scan dev inum l (S k)
             (match empty with Some e => Some e | None => if i_ref ip =? 0 then Some k else None end)
  end.

Definition iget (dev inum : Z) : M (mach * fs X) nat :=
  critical Licache (
    l ← gets icache;
    match iget_scan dev inum l 0 None with
    | (Some ip, _) => modify (upd_inode ip (fun i => set_i_ref (i_ref i + 1) i));; mret ip
    | (None, None) => panic "iget: no inodes"
    | (None, Some ip) =>
        modify (upd_inode ip (set_i_id dev inum));;
        modify (upd_inode ip (set_i_ref 1));;
        modify (upd_inode ip (set_i_valid 0));;
        mret ip
    end).

Fixpoint ialloc_loop (dev type : Z) (nums : list Z) : M (mach * fs X) nat :=
  match nums with
  | [] => panic "ialloc: no inodes"
  | inum :: nums =>
      bp ← on_blk (b_read dev (IBLOCK inum));
      d ← on_blk (b_data bp);
      if d_type (get_dinode d (ioff inum)) =? 0 then
        on_blk (b_modify bp (zero_dinode (ioff inum)));;
        on_blk (b_modify bp (put16 (ioff inum) type));;
        on_blk (b_log bp);;
        on_blk (b_rel bp);;
        iget dev inum
      else
        on_blk (b_rel bp);;
        ialloc_loop dev type nums
  end.

(** [for(inum = 1; inum < sb.ninodes; inum++)] *)
Definition inums : list Z := Z.of_nat <$> seq 1 (Z.to_nat (sb_ninodes sb) - 1).

Definition ialloc (dev type : Z) : M (mach * fs X) nat := ialloc_loop dev type inums.

Definition iupdate (ip : nat) : M (mach * fs X) unit :=
  i ← iread id ip;
  bp ← on_blk (b_read (i_dev i) (IBLOCK (i_num i)));
  on_blk (b_modify bp (put_dinode (ioff (i_num i)) (i_d i)));;
  on_blk (b_log bp);;
  on_blk (b_rel bp).

Definition idup (ip : nat) : M (mach * fs X) nat :=
  critical Licache (modify (upd_inode ip (fun i => set_i_ref (i_ref i + 1) i)));;
  mret ip.

(** The entries of the array are never null pointers. *)
Definition ilock (ip : nat) : M (mach * fs X) unit :=
  r ← iread i_ref ip;
  if r <? 1 then panic "ilock" else
  on_ilock ip (acquiresleep me (ilock_id ip));;
  i ← iread id ip;
  when (i_valid i =? 0) (
    bp ← on_blk (b_read (i_dev i) (IBLOCK (i_num i)));
    d ← on_blk (b_data bp);
    iset (set_i_d (fun _ => get_dinode d (ioff (i_num i)))) ip;;
    on_blk (b_rel bp);;
    iset (set_i_valid 1) ip;;
    t ← iread (fun i => d_type (i_d i)) ip;
    if t =? 0 then panic "ilock: no type" else mret tt).

Definition iunlock (ip : nat) : M (mach * fs X) unit :=
  h ← on_ilock ip (holdingsleep me (ilock_id ip));
  if negb h then panic "iunlock" else
  r ← iread i_ref ip;
  if r <? 1 then panic "iunlock" else
  on_ilock ip (releasesleep (ilock_id ip)).

(** ** Contents *)

Definition addr_at (ip : nat) (k : nat) : M (mach * fs X) Z :=
  iread (fun i => default 0 (d_addrs (i_d i) !! k)) ip.

Definition set_addr (ip : nat) (k : nat) (v : Z) : M (mach * fs X) unit :=
  iset (set_i_d (fun d => set_d_addrs (<[k := v]> (d_addrs d)) d)) ip.

(** [if((addr = ip->addrs[k]) == 0) ip->addrs[k] = addr = balloc(ip->dev);] *)
Definition addr_alloc (ip : nat) (k : nat) : M (mach * fs X) Z :=
  addr ← addr_at ip k;
  if addr =? 0 then
    dev ← iread i_dev ip;
    addr ← on_blk (balloc dev);
    set_addr ip k addr;;
    mret addr
  else mret addr.

Definition bmap (ip : nat) (bn : Z) : M (mach * fs X) Z :=
  if bn <? NDIRECT then addr_alloc ip (Z.to_nat bn) else
  let bn := bn - NDIRECT in
  if bn <? NINDIRECT then
    addr ← addr_alloc ip (Z.to_nat NDIRECT);
    dev ← iread i_dev ip;
    bp ← on_blk (b_read dev addr);
    d ← on_blk (b_data bp);
    let a := getu32 d (Z.to_nat (4 * bn)) in
    if a =? 0 then
      a ← on_blk (balloc dev);
      on_blk (b_modify bp (put32 (Z.to_nat (4 * bn)) a));;
      on_blk (b_log bp);;
      on_blk (b_rel bp);;
      mret a
    else
      on_blk (b_rel bp);;
      mret a
  else panic "bmap: out of range".

Definition itrunc (ip : nat) : M (mach * fs X) unit :=
  mfor (seq 0 (Z.to_nat NDIRECT)) (fun k =>
    addr ← addr_at ip k;
    when (negb (addr =? 0)) (
      dev ← iread i_dev ip;
      on_blk (bfree dev addr);;
      set_addr ip k 0));;
  ind ← addr_at ip (Z.to_nat NDIRECT);
  when (negb (ind =? 0)) (
    dev ← iread i_dev ip;
    bp ← on_blk (b_read dev ind);
    mfor (seq 0 (Z.to_nat NINDIRECT)) (fun j =>
      d ← on_blk (b_data bp);
      when (negb (getu32 d (4 * j) =? 0)) (on_blk (bfree dev (getu32 d (4 * j)))));;
    on_blk (b_rel bp);;
    on_blk (bfree dev ind);;
    set_addr ip (Z.to_nat NDIRECT) 0);;
  iset (set_i_d (set_d_size 0)) ip;;
  iupdate ip.

Definition iput (ip : nat) : M (mach * fs X) unit :=
  on_ilock ip (acquiresleep me (ilock_id ip));;
  i ← iread id ip;
  when (negb (i_valid i =? 0) && (d_nlink (i_d i) =? 0)) (
    r ← critical Licache (gets (fun s => i_ref (inode_at ip s)));
    when (r =? 1) (
      itrunc ip;;
      iset (set_i_d (set_d_type 0)) ip;;
      iupdate ip;;
      iset (set_i_valid 0) ip));;
  on_ilock ip (releasesleep (ilock_id ip));;
  critical Licache (modify (upd_inode ip (fun i => set_i_ref (i_ref i - 1) i))).

Definition iunlockput (ip : nat) : M (mach * fs X) unit := iunlock ip;; iput ip.

(** [struct stat]: type, dev, ino, nlink, size *)
Record stat := mkStat { st_type : Z; st_dev : Z; st_ino : Z; st_nlink : Z; st_size : Z }.

Definition stati (ip : nat) : M (mach * fs X) stat :=
  i ← iread id ip;
  mret (mkStat (d_type (i_d i)) (i_dev i) (i_num i) (d_nlink (i_d i)) (d_size (i_d i))).

(** The table of device drivers: what [devsw[major].read] and [.write] do, if
    they are not null.  [read] gives its result and the bytes it stored. *)
Record devsw := mkDevsw {
  dev_read : option (nat -> Z -> M (mach * fs X) (Z * list Z));
  dev_write : option (nat -> list Z -> M (mach * fs X) Z) }.

Context (devs : Z -> devsw).

(** The loop of [readi]: [out] is what was copied so far. *)
Fixpoint readi_loop (fuel : nat) (ip : nat) (tot off n : Z) (out : list Z) : M (mach * fs X) (list Z) :=
  match fuel with
  | O => mret out
  | S fuel =>
      if tot <? n then
        addr ← bmap ip (off / BSIZE);
        dev ← iread i_dev ip;
        bp ← on_blk (b_read dev addr);
        let m := Z.min (n - tot) (BSIZE - off mod BSIZE) in
        d ← on_blk (b_data bp);
        on_blk (b_rel bp);;
        readi_loop fuel ip (tot + m) (off + m) n
          (out ++ take (Z.to_nat m) (drop (Z.to_nat (off mod BSIZE)) d))
      else mret out
  end.

(** Every turn but the first and the last copies BSIZE bytes. *)
Definition copy_fuel (n : Z) : nat := Z.to_nat (n / BSIZE + 2).

Definition readi (ip : nat) (off n : Z) : M (mach * fs X) (Z * list Z) :=
  i ← iread id ip;
  if d_type (i_d i) =? T_DEV then
    let major := d_major (i_d i) in
    if (major <? 0) || (major >=? NDEV) then mret (-1, []) else
    match dev_read (devs major) with
    | None => mret (-1, [])
    | Some r => r ip n
    end
  else
  let size := d_size (i_d i) in
  if (off >? size) || (u32 (off + n) <? off) then mret (-1, []) else
  let n := if u32 (off + n) >? size then size - off else n in
  out ← readi_loop (copy_fuel n) ip 0 off n [];
  mret (i32 n, out).

(** The loop of [writei]; it ends with the new [off]. *)
Fixpoint writei_loop (fuel : nat) (ip : nat) (tot off n : Z) (src : list Z) : M (mach * fs X) Z :=
  match fuel with
  | O => mret off
  | S fuel =>
      if tot <? n then
        addr ← bmap ip (off / BSIZE);
        dev ← iread i_dev ip;
        bp ← on_blk (b_read dev addr);
        let m := Z.min (n - tot) (BSIZE - off mod BSIZE) in
        on_blk (b_modify bp (splice (Z.to_nat (off mod BSIZE)) (take (Z.to_nat m) src)));;
        on_blk (b_log bp);;
        on_blk (b_rel bp);;
        writei_loop fuel ip (tot + m) (off + m) n (drop (Z.to_nat m) src)
      else mret off
  end.

Definition writei (ip : nat) (src : list Z) (off n : Z) : M (mach * fs X) Z :=
  i ← iread id ip;
  if d_type (i_d i) =? T_DEV then
    let major := d_major (i_d i) in
    if (major <? 0) || (major >=? NDEV) then mret (-1) else
    match dev_write (devs major) with
    | None => mret (-1)
    | Some w => w ip (take (Z.to_nat n) src)
    end
  else
  let size := d_size (i_d i) in
  if (off >? size) || (u32 (off + n) <? off) then mret (-1) else
  if u32 (off + n) >? MAXFILE * BSIZE then mret (-1) else
  off ← writei_loop (copy_fuel n) ip 0 off n src;
  when ((n >? 0) && (off >? size)) (
    iset (set_i_d (set_d_size off)) ip;;
    iupdate ip);;
  mret (i32 n).

(** ** Directories *)

Definition namecmp (s t : list Z) : Z := KString.strncmp (cbytes s) (cbytes t) (Z.of_nat DIRSIZ).

Definition de_inum (de : list Z) : Z := get16 de 0.

Definition de_name (de : list Z) : list Z := drop 2 de.

(** The offsets of the entries of a directory of [size] bytes. *)
Definition dir_offs (size : Z) : list Z :=
  (fun k => Z.of_nat k * DESIZE) <$> seq 0 (Z.to_nat ((size + DESIZE - 1) / DESIZE)).

Fixpoint dirlookup_loop (dp : nat) (name : list Z) (offs : list Z) : M (mach * fs X) (option (nat * Z)) :=
  match offs with
  | [] => mret None
  | off :: offs =>
      r ← readi dp off DESIZE;
      if negb (r.1 =? DESIZE) then panic "dirlookup read" else
      if de_inum r.2 =? 0 then dirlookup_loop dp name offs else
      if namecmp name (de_name r.2) =? 0 then
        dev ← iread i_dev dp;
        ip ← iget dev (de_inum r.2);
        mret (Some (ip, off))
      else dirlookup_loop dp name offs
  end.

(** The inode of an entry, and the offset that is stored in [*poff]. *)
Definition dirlookup (dp : nat) (name : list Z) : M (mach * fs X) (option (nat * Z)) :=
  d ← iread i_d dp;
  if negb (d_type d =? T_DIR) then panic "dirlookup not DIR" else
  dirlookup_loop dp name (dir_offs (d_size d)).

(** The offset of the first empty entry, else the end; and the bytes of [de]
    then. *)
Fixpoint dirlink_loop (dp : nat) (offs : list Z) (fin : Z) (de : list Z) : M (mach * fs X) (Z * list Z) :=
  match offs with
  | [] => mret (fin, de)
  | off :: offs =>
      r ← readi dp off DESIZE;
      if negb (r.1 =? DESIZE) then panic "dirlink read" else
      if de_inum r.2 =? 0 then mret (off, r.2) else dirlink_loop dp offs fin r.2
  end.

(** [de0] is what the local variable [de] holds at first. *)
Definition dirlink (dp : nat) (name : list Z) (inum : Z) (de0 : list Z) : M (mach * fs X) Z :=
  r ← dirlookup dp name;
  match r with
  | Some (ip, _) => iput ip;; mret (-1)
  | None =>
      size ← iread (fun i => d_size (i_d i)) dp;
      q ← dirlink_loop dp (dir_offs size) (DESIZE * ((size + DESIZE - 1) / DESIZE)) de0;
      let nm := KString.strncpy (de_name q.2) (cbytes name) (Z.of_nat DIRSIZ) in
      w ← writei dp (put16 0 inum (replicate 2 0) ++ nm) q.1 DESIZE;
      if negb (w =? DESIZE) then panic "dirlink" else mret 0
  end.

(** ** Paths *)

Definition SLASH : Z := 47.

(** [while( *path == '/') path++;] *)
Fixpoint skip_slashes (path : list Z) : list Z :=
  match path with
  | c :: path' => if c =? SLASH then skip_slashes path' else path
  | [] => []
  end.

(** [while( *path != '/' && *path != 0) path++;]: the element and the rest. *)
Fixpoint take_elem (path : list Z) : list Z * list Z :=
  match path with
  | c :: path' => if c =? SLASH then ([], path) else let (e, r) := take_elem path' in (c :: e, r)
  | [] => ([], [])
  end.

(** [skipelem(path, name)]: the rest of the path and the new contents of the
    buffer [name], of DIRSIZ bytes. *)
Definition skipelem (path name : list Z) : option (list Z * list Z) :=
  match skip_slashes path with
  | [] => None
  | path =>
      let (s, rest) := take_elem path in
      let len := length s in
      let name :=
        if (DIRSIZ <=? len)%nat then splice 0 (take DIRSIZ s) name
        else <[len := 0]> (splice 0 s name) in
      Some (skip_slashes rest, name)
  end.

(** The loop of [namex].  Each turn takes an element off the path. *)
Fixpoint namex_loop (fuel : nat) (ip : nat) (path : list Z) (nameiparent : bool) (name : list Z) :
    M (mach * fs X) (option nat * list Z) :=
  match fuel with
  | O => mret (None, name)
  | S fuel =>
      match skipelem path name with
      | None =>
          if nameiparent then iput ip;; mret (None, name) else mret (Some ip, name)
      | Some (path, name) =>
          ilock ip;;
          t ← iread (fun i => d_type (i_d i)) ip;
          if negb (t =? T_DIR) then iunlockput ip;; mret (None, name) else
          if nameiparent && bool_decide (path = []) then iunlock ip;; mret (Some ip, name) else
          next ← dirlookup ip name;
          match next with
          | None => iunlockput ip;; mret (None, name)
          | Some (next, _) => iunlockput ip;; namex_loop fuel next path nameiparent name
          end
      end
  end.

(** [cwd] is [myproc()->cwd]. *)
Definition namex (cwd : nat) (path : list Z) (nameiparent : bool) (name : list Z) :
    M (mach * fs X) (option nat * list Z) :=
  ip ← (match path with
        | c :: _ => if c =? SLASH then iget 1 ROOTINO else idup cwd
        | [] => idup cwd
        end);
  namex_loop (S (length path)) ip path nameiparent name.

(** [name] is what the local variable of this name holds at first. *)
Definition namei (cwd : nat) (path name : list Z) : M (mach * fs X) (option nat) :=
  r ← namex cwd path false name;
  mret r.1.

Definition nameiparent (cwd : nat) (path name : list Z) : M (mach * fs X) (option nat * list Z) :=
  namex cwd path true name.

End fs.
