(* ===== verification/FsBlock.v ===== *)
(** * Blocks and the bitmap: what fs.c relies on, and balloc, bfree

    [BlockLaws] says what the file system may assume of the block layer, in
    terms of the contents of the disk as the callers of [bread] see it
    ([blks]).  The lemmas of this and the next files are proved against it. *)

From stdpp Require Import base numbers gmap sets list strings.
From S2P Require Import Prelude CString Spinlock Sleeplock Bio BioRing BioSpec.
From S2P Require Import Log LogSpec Fs.
Open Scope Z_scope.

(** ** The interface *)

(** [k_data]: the contents of the blocks; [k_held]: the blocks whose buffer is
    in use, with the buffer and whether nothing was stored in it since the
    last [log_write]; [k_logged]: the blocks in the log; [k_cap]: how many it
    takes; [k_lo .. k_hi]: the blocks of the log itself; [k_disk], [k_wr]: the
    disk under the log and the writes to it, [k_ops]: the operations in
    progress, which do not change. *)
Record blks := mkK {
  k_data : list (list Z);
  k_held : gmap Z (nat * bool);
  k_logged : gset Z;
  k_cap : nat;
  k_lo : Z;
  k_hi : Z;
  k_disk : list (list Z);
  k_wr : list (Z * list Z);
  k_ops : Z }.

Definition k_size (k : blks) : Z := Z.of_nat (length (k_data k)).

Definition k_get (n : Z) (k : blks) : list Z := blk (k_data k) n.

Definition k_put (n : Z) (d : list Z) (k : blks) : blks :=
  mkK (bput n d (k_data k)) (k_held k) (k_logged k) (k_cap k) (k_lo k) (k_hi k) (k_disk k) (k_wr k)
    (k_ops k).

Definition k_hold (n : Z) (i : nat) (clean : bool) (k : blks) : blks :=
  mkK (k_data k) (<[n := (i, clean)]> (k_held k)) (k_logged k) (k_cap k) (k_lo k) (k_hi k)
    (k_disk k) (k_wr k)
    (k_ops k).

Definition k_drop (n : Z) (k : blks) : blks :=
  mkK (k_data k) (delete n (k_held k)) (k_logged k) (k_cap k) (k_lo k) (k_hi k) (k_disk k) (k_wr k)
    (k_ops k).

Definition k_log (n : Z) (k : blks) : blks :=
  mkK (k_data k) (k_held k) ({[n]} ∪ k_logged k) (k_cap k) (k_lo k) (k_hi k) (k_disk k) (k_wr k)
    (k_ops k).

(** The log has no room left. *)
Definition k_full (k : blks) : Prop := (k_cap k <= size (k_logged k))%nat.

Class BlockLaws (X : Type) `{BL : BlockLayer X} := {
  b_rep : X -> blks -> Prop;
  b_rep_len x k : b_rep x k -> Forall (fun d => length d = Z.to_nat BSIZE) (k_data k);
  wp_b_read P m x k n Q :
    msec ∅ m -> b_rep x k -> 0 <= n < k_size k -> k_held k !! n = None ->
    (k_full k \/ (1 < size (k_held k))%nat -> P (FPanic "bget: no buffers")) ->
    (forall i m' x', quiet ∅ m m' -> b_rep x' (k_hold n i true k) -> Q i (m', x')) ->
    wp P (b_read 1 n) (m, x) Q;
  wp_b_data P m x k n i c (Q : list Z -> mach * X -> Prop) :
    b_rep x k -> k_held k !! n = Some (i, c) -> Q (k_get n k) (m, x) ->
    wp P (b_data i) (m, x) Q;
  wp_b_modify P m x k n i c f Q :
    b_rep x k -> k_held k !! n = Some (i, c) -> length (f (k_get n k)) = Z.to_nat BSIZE ->
    (forall x', b_rep x' (k_hold n i false (k_put n (f (k_get n k)) k)) -> Q tt (m, x')) ->
    wp P (b_modify i f) (m, x) Q;
  wp_b_log P m x k n i c Q :
    msec ∅ m -> b_rep x k -> k_held k !! n = Some (i, c) -> ~ (k_lo k <= n < k_hi k) ->
    (k_full k -> P (FPanic "too big a transaction")) ->
    (forall m' x', quiet ∅ m m' -> b_rep x' (k_hold n i true (k_log n k)) -> Q tt (m', x')) ->
    wp P (b_log i) (m, x) Q;
  wp_b_rel P m x k n i Q :
    msec ∅ m -> b_rep x k -> k_held k !! n = Some (i, true) ->
    (forall m' x', quiet ∅ m m' -> b_rep x' (k_drop n k) -> Q tt (m', x')) ->
    wp P (b_rel i) (m, x) Q }.

(** A block replaced, and logged. *)
Definition k_upd (n : Z) (d : list Z) (k : blks) : blks := k_log n (k_put n d k).

Section blocks.
Context {X : Type} `{BW : BlockLaws X} (P : failure -> Prop).

(** The panics of an operation that runs out of log, buffers or blocks. *)
Definition lax : Prop :=
  P (FPanic "too big a transaction") /\ P (FPanic "bget: no buffers") /\
  P (FPanic "balloc: out of blocks").

(** Not enough room: at most one block is in use, and [c] more than those of
    [T] go to the log. *)
Definition short (T : gset Z) (c : nat) (k : blks) : Prop :=
  (k_cap k <= size (k_logged k ∪ T) + c)%nat.

(** At most one buffer is in use, so that there is one more. *)
Definition one_held (k : blks) : Prop := (size (k_held k) <= 1)%nat.

Lemma full_short T c k : k_full k -> short T c k.
Proof.
  unfold k_full, short. intros H. assert (size (k_logged k) <= size (k_logged k ∪ T))%nat; [|lia].
  apply subseteq_size. set_solver.
Qed.

(** What follows [bread] when a block is changed. *)
Lemma wp_store {A} x k m n i f (K : M (mach * X) A) Q :
  msec ∅ m -> b_rep x (k_hold n i true k) -> k_held k !! n = None ->
  ~ (k_lo k <= n < k_hi k) -> length (f (k_get n k)) = Z.to_nat BSIZE -> (k_full k -> lax) ->
  (forall m' x', quiet ∅ m m' -> b_rep x' (k_upd n (f (k_get n k)) k) -> wp P K (m', x') Q) ->
  wp P (b_modify i f;; b_log i;; b_rel i;; K) (m, x) Q.
Proof.
  intros Hm HR Hh Hlo Hf Hlax HQ. wp_next.
  apply (wp_b_modify _ _ _ (k_hold n i true k) n i true); [done|cbn; by rewrite lookup_insert_eq|exact Hf|].
  intros x2 R2. wp_next. eapply wp_b_log; [done|exact R2|cbn; apply lookup_insert_eq|exact Hlo| |].
  { intros H. by apply Hlax. }
  intros m3 x3 Hm3 R3. wp_next. eapply wp_b_rel; [apply Hm3|exact R3|cbn; apply lookup_insert_eq|].
  intros m4 x4 Hm4 R4. apply HQ; [by eapply quiet_trans|].
  change (k_get n (k_hold n i true k)) with (k_get n k) in R4.
  replace (k_upd n (f (k_get n k)) k) with
    (k_drop n (k_hold n i true (k_log n (k_hold n i false (k_put n (f (k_get n k)) (k_hold n i true k))))));
    [done|].
  unfold k_drop, k_hold, k_log, k_put, k_upd. cbn. by rewrite !insert_insert_eq, delete_insert_id.
Qed.

Lemma wp_open {A} x k m n (K : nat -> M (mach * X) A) Q :
  msec ∅ m -> b_rep x k -> 0 <= n < k_size k -> k_held k !! n = None -> one_held k ->
  (k_full k -> lax) ->
  (forall i m' x', quiet ∅ m m' -> b_rep x' (k_hold n i true k) -> wp P (K i) (m', x') Q) ->
  wp P (bp ← b_read 1 n; K bp) (m, x) Q.
Proof.
  intros Hm HR Hn Hh H1 Hlax HQ. wp_next. apply (wp_b_read _ _ _ k); [done|done|done|done| |done].
  intros [H|H]; [by apply Hlax|unfold one_held in H1; lia].
Qed.

Lemma wp_look {A} x k m n i (K : list Z -> M (mach * X) A) Q :
  b_rep x (k_hold n i true k) -> wp P (K (k_get n k)) (m, x) Q ->
  wp P (d ← b_data i; K d) (m, x) Q.
Proof.
  intros HR HQ. wp_next.
  apply (wp_b_data _ _ _ (k_hold n i true k) n i true); [done|cbn; by rewrite lookup_insert_eq|done].
Qed.

Lemma wp_close {A} x k m n i (K : M (mach * X) A) Q :
  msec ∅ m -> b_rep x (k_hold n i true k) -> k_held k !! n = None ->
  (forall m' x', quiet ∅ m m' -> b_rep x' k -> wp P K (m', x') Q) ->
  wp P (b_rel i;; K) (m, x) Q.
Proof.
  intros Hm HR Hh HQ. wp_next. eapply wp_b_rel; [done|exact HR|cbn; by rewrite lookup_insert_eq|].
  intros m2 x2 Hm2 R2. apply HQ; [done|].
  replace (k_drop n (k_hold n i true k)) with k in R2; [done|].
  destruct k. unfold k_drop, k_hold. cbn in *. by rewrite delete_insert_id.
Qed.

(** An operation that ends without a value. *)
Lemma wp_unit_tail (op : M (mach * X) unit) s Q : wp P (op;; mret tt) s Q -> wp P op s Q.
Proof. unfold wp, mbind, M_bind. destruct (op s) as [[] ?| |]; done. Qed.

Lemma wp_assoc3 {A B C D} (a : M (mach * X) A) (b : M (mach * X) B) (c : M (mach * X) C)
    (d : M (mach * X) D) s Q :
  wp P (a;; b;; c;; d) s Q -> wp P ((a;; b;; c);; d) s Q.
Proof. unfold wp, mbind, M_bind. destruct (a s) as [? s1| |]; [|done..]. by destruct (b s1). Qed.

Lemma wp_update x k m n f Q :
  msec ∅ m -> b_rep x k -> 0 <= n < k_size k -> k_held k !! n = None -> one_held k ->
  ~ (k_lo k <= n < k_hi k) -> length (f (k_get n k)) = Z.to_nat BSIZE ->
  (k_full k -> lax) ->
  (forall m' x', quiet ∅ m m' -> b_rep x' (k_upd n (f (k_get n k)) k) -> Q tt (m', x')) ->
  wp P (bp ← b_read 1 n; b_modify bp f;; b_log bp;; b_rel bp) (m, x) Q.
Proof.
  intros Hm HR Hn Hh H1 Hlo Hf Hlax HQ. apply (wp_open x k); [done..|]. intros i m1 x1 Hm1 R1.
  apply wp_unit_tail.
  apply wp_assoc3, (wp_store x1 k _ n); [apply Hm1|done|done|done|done|done|].
  intros m2 x2 Hm2 R2. apply wp_ret, HQ; [by eapply quiet_trans|done].
Qed.

(** The parts of a block state that block operations other than [log_write]
    and stores leave alone. *)
Definition same_blocks (k k' : blks) : Prop :=
  k_held k' = k_held k /\ k_cap k' = k_cap k /\ k_lo k' = k_lo k /\ k_hi k' = k_hi k /\
  k_disk k' = k_disk k /\ k_wr k' = k_wr k /\ k_ops k' = k_ops k /\ length (k_data k') = length (k_data k).

Lemma wp_bzero x k m n Q :
  msec ∅ m -> b_rep x k -> 0 <= n < k_size k -> k_held k !! n = None -> one_held k ->
  ~ (k_lo k <= n < k_hi k) -> (k_full k -> lax) ->
  (forall m' x', quiet ∅ m m' -> b_rep x' (k_upd n (replicate (Z.to_nat BSIZE) 0) k) -> Q tt (m', x')) ->
  wp P (bzero 1 n) (m, x) Q.
Proof.
  intros. by apply (wp_update x k).
Qed.

End blocks.

#[global] Instance same_blocks_preorder : PreOrder same_blocks.
Proof.
  unfold same_blocks. split; [done|]. intros a b c (?&?&?&?&?&?&?&?) (?&?&?&?&?&?&?&?).
  split_and!; congruence.
Qed.

Lemma same_blocks_upd n d k : same_blocks k (k_upd n d k).
Proof. unfold same_blocks. split_and!; try done. apply length_insert. Qed.

(** ** Bits *)

Lemma testbit_mask bi t : 0 <= t -> Z.testbit (bit_mask bi) t = bool_decide (t = bi mod 8).
Proof.
  intros Ht. unfold bit_mask. pose proof (Z.mod_pos_bound bi 8 ltac:(lia)) as Hb.
  rewrite Z.shiftl_spec by lia. case_bool_decide as E.
  - by rewrite E, Z.sub_diag.
  - destruct (decide (t < bi mod 8)); [by rewrite Z.testbit_neg_r by lia|].
    apply Z.bits_above_log2; simpl; lia.
Qed.

Lemma bit_clear_testbit d bi :
  bit_clear d bi = negb (Z.testbit (default 0 (d !! Z.to_nat (bi / 8))) (bi mod 8)).
Proof.
  unfold bit_clear. pose proof (Z.mod_pos_bound bi 8 ltac:(lia)) as Hb. set (x := default 0 _).
  destruct (Z.testbit x (bi mod 8)) eqn:E; simpl.
  - apply Z.eqb_neq. intros H. apply (f_equal (fun z => Z.testbit z (bi mod 8))) in H.
    rewrite Z.land_spec, E, testbit_mask, Z.bits_0, bool_decide_true in H by lia. done.
  - apply Z.eqb_eq, Z.bits_inj'. intros t Ht. rewrite Z.land_spec, testbit_mask, Z.bits_0 by lia.
    case_bool_decide as E2; [by rewrite E2, E|apply andb_false_r].
Qed.

(** Two bits of a block: the same byte and the same place in it. *)
Lemma bit_place bi bj : 0 <= bi -> 0 <= bj ->
  Z.to_nat (bi / 8) = Z.to_nat (bj / 8) -> bi mod 8 = bj mod 8 -> bi = bj.
Proof.
  intros Hi Hj H1 H2. pose proof (Z.div_pos bi 8). pose proof (Z.div_pos bj 8).
  rewrite (Z.div_mod bi 8), (Z.div_mod bj 8) by lia. lia.
Qed.

Lemma bit_clear_set d bi bj : 0 <= bi -> 0 <= bj -> (Z.to_nat (bi / 8) < length d)%nat ->
  bit_clear (set_bit bi d) bj = if decide (bj = bi) then false else bit_clear d bj.
Proof.
  intros Hi Hj Hl. rewrite !bit_clear_testbit. unfold set_bit.
  pose proof (Z.mod_pos_bound bj 8 ltac:(lia)) as Hb.
  destruct (lookup_lt_is_Some_2 _ _ Hl) as [x Hx].
  destruct (decide (Z.to_nat (bj / 8) = Z.to_nat (bi / 8))) as [E|E].
  - rewrite E, list_lookup_alter_eq, Hx. simpl. rewrite Z.lor_spec, testbit_mask by lia.
    case_bool_decide as E2.
    + rewrite decide_True by (by apply bit_place). by rewrite orb_true_r.
    + rewrite decide_False by congruence. by rewrite orb_false_r.
  - rewrite list_lookup_alter_ne by done. by rewrite decide_False by congruence.
Qed.

Lemma bit_clear_unset d bi bj : 0 <= bi -> 0 <= bj -> (Z.to_nat (bi / 8) < length d)%nat ->
  bit_clear (unset_bit bi d) bj = if decide (bj = bi) then true else bit_clear d bj.
Proof.
  intros Hi Hj Hl. rewrite !bit_clear_testbit. unfold unset_bit.
  pose proof (Z.mod_pos_bound bj 8 ltac:(lia)) as Hb.
  destruct (lookup_lt_is_Some_2 _ _ Hl) as [x Hx].
  destruct (decide (Z.to_nat (bj / 8) = Z.to_nat (bi / 8))) as [E|E].
  - rewrite E, list_lookup_alter_eq, Hx. simpl.
    rewrite Z.land_spec, Z.lnot_spec, testbit_mask by lia. case_bool_decide as E2; simpl.
    + rewrite decide_True by (by apply bit_place). by rewrite andb_false_r.
    + rewrite decide_False by congruence. by rewrite andb_true_r.
  - rewrite list_lookup_alter_ne by done. by rewrite decide_False by congruence.
Qed.

(** ** The bitmap *)

Section bitmap.
Context (sb : superblock).

(** Is block [b] in use? *)
Definition used (D : list (list Z)) (b : Z) : bool := negb (bit_clear (blk D (BBLOCK sb b)) (b mod BPB)).

(** The first block after the bitmap. *)
Definition data0 : Z := sb_bmapstart sb + (sb_size sb - 1) / BPB + 1.

Definition is_bm (n : Z) : Prop := sb_bmapstart sb <= n < data0.

(** The layout of fs.h: log, inodes, bitmap, data. *)
Record geom (k : blks) : Prop := mkGeom {
  g_size : 0 < sb_size sb <= k_size k;
  g_max : k_size k < 2147483648;
  g_lo : 0 <= k_lo k;
  g_hi : k_lo k <= k_hi k <= sb_inodestart sb;
  g_inodes : sb_inodestart sb + (sb_ninodes sb - 1) / IPB < sb_bmapstart sb;
  g_ninodes : 0 < sb_ninodes sb;
  g_data : data0 <= sb_size sb;
  g_len : Forall (fun d => length d = Z.to_nat BSIZE) (k_data k) }.

(** The blocks before the data are marked as used. *)
Definition meta_used (D : list (list Z)) : Prop := forall b, 0 <= b < data0 -> used D b = true.

Definition frees (D : list (list Z)) : list Z := filter (fun b => used D b = false) (seqZ 0 (sb_size sb)).

Definition nfree (k : blks) : nat := length (frees (k_data k)).

Definition k_alloc (b : Z) (k : blks) : blks :=
  k_upd b (replicate (Z.to_nat BSIZE) 0)
    (k_upd (BBLOCK sb b) (set_bit (b mod BPB) (k_get (BBLOCK sb b) k)) k).

Definition k_free (b : Z) (k : blks) : blks :=
  k_upd (BBLOCK sb b) (unset_bit (b mod BPB) (k_get (BBLOCK sb b) k)) k.

Lemma BBLOCK_bm b : 0 <= b < sb_size sb -> is_bm (BBLOCK sb b).
Proof.
  intros Hb. unfold is_bm, BBLOCK, data0, BPB, BSIZE in *.
  pose proof (Z.div_pos b (512 * 8)). pose proof (Z.div_le_mono b (sb_size sb - 1) (512 * 8)). lia.
Qed.

Lemma geom_order k : geom k -> 0 <= sb_inodestart sb < sb_bmapstart sb /\ sb_bmapstart sb < data0.
Proof.
  intros []. pose proof (Z.div_pos (sb_ninodes sb - 1) IPB). pose proof (Z.div_pos (sb_size sb - 1) BPB).
  unfold data0, IPB, BPB, BSIZE in *. lia.
Qed.

Lemma geom_bm k n : geom k -> is_bm n -> 0 <= n < sb_size sb /\ ~ (k_lo k <= n < k_hi k).
Proof.
  intros G [H1 H2]. pose proof (geom_order k G). destruct G. lia.
Qed.

Lemma geom_data k n : geom k -> data0 <= n < sb_size sb ->
  0 <= n < k_size k /\ ~ (k_lo k <= n < k_hi k) /\ ~ is_bm n.
Proof.
  intros G Hn. pose proof (geom_order k G). destruct G. unfold is_bm. lia.
Qed.

Lemma bbyte b : 0 <= b -> (Z.to_nat (b mod BPB / 8) < Z.to_nat BSIZE)%nat.
Proof.
  intros Hb. unfold BPB, BSIZE. pose proof (Z.mod_pos_bound b (512 * 8) ltac:(lia)).
  pose proof (Z.div_pos (b mod (512 * 8)) 8). pose proof (Z.div_lt_upper_bound (b mod (512 * 8)) 8 512). lia.
Qed.

Lemma k_get_len k n : Forall (fun d => length d = Z.to_nat BSIZE) (k_data k) -> 0 <= n < k_size k ->
  length (k_get n k) = Z.to_nat BSIZE.
Proof.
  intros Hf Hn. unfold k_size in Hn. unfold k_get, blk.
  destruct (lookup_lt_is_Some_2 (k_data k) (Z.to_nat n)) as [d Hd]; [lia|]. rewrite Hd. simpl.
  by apply (Forall_lookup_1 _ _ _ _ Hf Hd).
Qed.

(** Two blocks with their bits in the same place are the same. *)
Lemma bitmap_place b c : 0 <= b -> 0 <= c -> BBLOCK sb b = BBLOCK sb c -> b mod BPB = c mod BPB -> b = c.
Proof.
  intros Hb Hc H1 H2. unfold BBLOCK in H1. rewrite (Z.div_mod b BPB), (Z.div_mod c BPB) by (unfold BPB, BSIZE; lia).
  rewrite H2. f_equal. f_equal. lia.
Qed.

Lemma used_upd_other D n d b : ~ is_bm n -> 0 <= b < sb_size sb -> 0 <= n ->
  0 <= sb_bmapstart sb -> used (bput n d D) b = used D b.
Proof.
  intros Hn Hb H0 H1. unfold used. pose proof (BBLOCK_bm b Hb) as Hbm. unfold blk, bput.
  rewrite list_lookup_insert_ne; [done|]. intros E. apply Hn.
  replace n with (BBLOCK sb b); [done|]. destruct Hbm. lia.
Qed.

Lemma used_bit D b c (set : bool) :
  0 <= b < sb_size sb -> 0 <= c < sb_size sb -> 0 <= BBLOCK sb b < Z.of_nat (length D) ->
  0 <= BBLOCK sb c ->
  length (blk D (BBLOCK sb b)) = Z.to_nat BSIZE ->
  used (bput (BBLOCK sb b) ((if set then set_bit else unset_bit) (b mod BPB) (blk D (BBLOCK sb b))) D) c =
  if decide (c = b) then set else used D c.
Proof.
  intros Hb Hc Hr Hr' Hl. unfold used. rewrite blk_bput by done.
  assert (0 <= b mod BPB /\ 0 <= c mod BPB) as [H1 H2]
    by (split; apply Z.mod_pos_bound; unfold BPB, BSIZE; lia).
  pose proof (bbyte b ltac:(lia)) as Hby. rewrite <- Hl in Hby.
  destruct (decide (BBLOCK sb c = BBLOCK sb b)) as [E|E].
  - destruct set; [rewrite bit_clear_set by done|rewrite bit_clear_unset by done];
      (destruct (decide (c mod BPB = b mod BPB)) as [E2|E2];
       [rewrite decide_True by (apply bitmap_place; [lia|lia|done|done]); done|
        rewrite decide_False by congruence; by rewrite E]).
  - by rewrite decide_False by congruence.
Qed.

End bitmap.
