(* ===== verification/FsAlloc.v ===== *)
(** * The block allocator: balloc and bfree

    [balloc] returns a block that was free, marked and zeroed; [bfree] marks a
    block free.  [k_alloc] and [k_free] are their effects on the disk. *)

From stdpp Require Import base numbers gmap sets list strings.
From S2P Require Import Prelude CString Spinlock Sleeplock Bio BioRing BioSpec.
From S2P Require Import Log LogSpec Fs FsBlock.
Open Scope Z_scope.

(** Filters that differ at one element. *)
Lemma filter_one {A} `{EqDecision A} (P Q : A -> Prop) `{!forall x, Decision (P x)} `{!forall x, Decision (Q x)} (l : list A) b :
  NoDup l -> b ∈ l -> P b -> (forall x, x ∈ l -> Q x <-> P x /\ x ≠ b) ->
  length (filter P l) = S (length (filter Q l)).
Proof.
  intros Hn Hb HP HQ. change (S (length (filter Q l))) with (length (b :: filter Q l)).
  apply Permutation_length, NoDup_Permutation; [by apply NoDup_filter| |].
  - apply NoDup_cons. split; [|by apply NoDup_filter]. rewrite list_elem_of_filter. intros [Hq _].
    by apply HQ in Hq as [_ ?].
  - intros x. rewrite elem_of_cons, !list_elem_of_filter. split.
    + intros [Hp Hx]. destruct (decide (x = b)); [by left|right]. split; [|done]. by apply HQ.
    + intros [->|[Hq Hx]]; [done|]. split; [|done]. by apply HQ in Hq as [? _].
Qed.

Lemma filter_ext_in {A} (P Q : A -> Prop) `{!forall x, Decision (P x)} `{!forall x, Decision (Q x)} (l : list A) :
  (forall x, x ∈ l -> P x <-> Q x) -> filter P l = filter Q l.
Proof.
  induction l as [|a l IH]; intros Hl; [done|]. rewrite !filter_cons.
  rewrite IH by (intros x Hx; apply Hl; by right).
  destruct (decide (P a)), (decide (Q a)); try done; naive_solver (eauto using list_elem_of_here).
Qed.

Section alloc.
Context {X : Type} `{BW : BlockLaws X} (sb : superblock).

Lemma geom_same k k' : same_blocks k k' -> Forall (fun d => length d = Z.to_nat BSIZE) (k_data k') ->
  geom sb k -> geom sb k'.
Proof.
  intros (_ & _ & E1 & E2 & _ & _ & _ & E3) Hl []. unfold k_size in *.
  constructor; rewrite ?E1, ?E2; unfold k_size; rewrite ?E3; done.
Qed.

Lemma geom_upd n d k : geom sb k -> length d = Z.to_nat BSIZE -> geom sb (k_upd n d k).
Proof.
  intros G Hd. apply (geom_same k); [apply same_blocks_upd| |done]. apply Forall_insert; [apply G|done].
Qed.

Lemma k_size_upd n d k : k_size (k_upd n d k) = k_size k.
Proof. unfold k_size. cbn. unfold bput. by rewrite length_insert. Qed.

Lemma k_get_upd n d k c : 0 <= n < k_size k -> 0 <= c ->
  k_get c (k_upd n d k) = if decide (c = n) then d else k_get c k.
Proof. intros Hn Hc. by apply blk_bput. Qed.

Lemma geom_BBLOCK k b : geom sb k -> 0 <= b < sb_size sb -> 0 <= BBLOCK sb b < k_size k.
Proof.
  intros G Hb. destruct (geom_bm sb k (BBLOCK sb b) G (BBLOCK_bm sb b Hb)). destruct G. lia.
Qed.

Lemma length_set_bit bi d : length (set_bit bi d) = length d.
Proof. apply length_alter. Qed.

Lemma length_unset_bit bi d : length (unset_bit bi d) = length d.
Proof. apply length_alter. Qed.

(** *** The effects *)

Lemma used_mark k b c (set : bool) : geom sb k -> 0 <= b < sb_size sb -> 0 <= c < sb_size sb ->
  used sb (k_data (k_upd (BBLOCK sb b)
    ((if set then set_bit else unset_bit) (b mod BPB) (k_get (BBLOCK sb b) k)) k)) c =
  if decide (c = b) then set else used sb (k_data k) c.
Proof.
  intros G Hb Hc. pose proof (geom_BBLOCK k b G Hb). pose proof (geom_BBLOCK k c G Hc).
  apply used_bit; [done|done|done|lia|]. apply k_get_len; [apply G|done].
Qed.

Lemma geom_mark k b (set : bool) : geom sb k -> 0 <= b < sb_size sb ->
  geom sb (k_upd (BBLOCK sb b) ((if set then set_bit else unset_bit) (b mod BPB) (k_get (BBLOCK sb b) k)) k).
Proof.
  intros G Hb. apply geom_upd; [done|]. destruct set; [rewrite length_set_bit|rewrite length_unset_bit];
    (apply k_get_len; [apply G|by apply geom_BBLOCK]).
Qed.

Lemma geom_alloc k b : geom sb k -> 0 <= b < sb_size sb -> geom sb (k_alloc sb b k).
Proof. intros G Hb. apply geom_upd; [by apply (geom_mark k b true)|done]. Qed.

Lemma used_alloc k b c : geom sb k -> data0 sb <= b < sb_size sb -> 0 <= c < sb_size sb ->
  used sb (k_data (k_alloc sb b k)) c = if decide (c = b) then true else used sb (k_data k) c.
Proof.
  intros G Hb Hc. destruct (geom_data sb k b G Hb) as (H1 & _ & H3). pose proof (geom_order sb k G).
  unfold k_alloc. cbn [k_data k_upd k_put k_log]. rewrite used_upd_other by (done || lia).
  apply (used_mark k b c true); [done|lia|done].
Qed.

Lemma get_alloc k b n : geom sb k -> data0 sb <= b < sb_size sb -> 0 <= n -> ~ is_bm sb n ->
  k_get n (k_alloc sb b k) = if decide (n = b) then replicate (Z.to_nat BSIZE) 0 else k_get n k.
Proof.
  intros G Hb Hn Hbm. destruct (geom_data sb k b G Hb) as (H1 & _ & H3).
  assert (0 <= b < sb_size sb) as Hb0 by (pose proof (geom_order sb k G); lia).
  pose proof (BBLOCK_bm sb b Hb0). pose proof (geom_BBLOCK k b G Hb0).
  unfold k_alloc. rewrite k_get_upd by (rewrite ?k_size_upd; done).
  destruct (decide (n = b)); [done|]. rewrite k_get_upd by done. by rewrite decide_False by congruence.
Qed.

Lemma same_alloc k b : same_blocks k (k_alloc sb b k).
Proof. unfold k_alloc. etrans; apply same_blocks_upd. Qed.

Lemma elem_seqZ0 b n : b ∈ seqZ 0 n <-> 0 <= b < n.
Proof. rewrite elem_of_seqZ. lia. Qed.

Lemma nfree_alloc k b : geom sb k -> data0 sb <= b < sb_size sb -> used sb (k_data k) b = false ->
  nfree sb k = S (nfree sb (k_alloc sb b k)).
Proof.
  intros G Hb Hf. unfold nfree, frees. apply (filter_one _ _ _ b); [apply NoDup_seqZ| |done|].
  - apply elem_seqZ0. pose proof (geom_order sb k G). lia.
  - intros x Hx%elem_seqZ0. rewrite used_alloc by done.
    destruct (decide (x = b)) as [->|]; [|tauto]. split; [done|by intros [_ ?]].
Qed.

Lemma used_free k b c : geom sb k -> 0 <= b < sb_size sb -> 0 <= c < sb_size sb ->
  used sb (k_data (k_free sb b k)) c = if decide (c = b) then false else used sb (k_data k) c.
Proof. intros G Hb Hc. by apply (used_mark k b c false). Qed.

Lemma get_free k b n : geom sb k -> 0 <= b < sb_size sb -> 0 <= n -> ~ is_bm sb n ->
  k_get n (k_free sb b k) = k_get n k.
Proof.
  intros G Hb Hn Hbm. pose proof (BBLOCK_bm sb b Hb). unfold k_free. rewrite k_get_upd by (done || by apply geom_BBLOCK).
  by rewrite decide_False by congruence.
Qed.

Lemma nfree_free k b : geom sb k -> 0 <= b < sb_size sb -> used sb (k_data k) b = true ->
  nfree sb (k_free sb b k) = S (nfree sb k).
Proof.
  intros G Hb Hf. unfold nfree, frees. apply (filter_one _ _ _ b); [apply NoDup_seqZ| | |].
  - by apply elem_seqZ0.
  - rewrite used_free by done. by rewrite decide_True.
  - intros x Hx%elem_seqZ0. rewrite used_free by done.
    destruct (decide (x = b)) as [->|]; [|tauto]. rewrite Hf. split; [done|by intros [_ ?]].
Qed.

(** *** Costs *)

(** The blocks of the bitmap. *)
Definition bm_set : gset Z := list_to_set (seqZ (sb_bmapstart sb) (data0 sb - sb_bmapstart sb)).

Lemma elem_bm_set n : is_bm sb n -> n ∈ bm_set.
Proof. intros Hn. apply elem_of_list_to_set, elem_of_seqZ. unfold is_bm in Hn. lia. Qed.

(** Less than [c] blocks besides those of [T] fit the log, or less than [f]
    blocks are free. *)
Definition poor (T : gset Z) (c f : nat) (k : blks) : Prop := short T c k \/ (nfree sb k < f)%nat.

(** At most that much was used up. *)
Definition spent (T : gset Z) (c f : nat) (k k' : blks) : Prop :=
  k_cap k' = k_cap k /\ (size (k_logged k' ∪ T) <= size (k_logged k ∪ T) + c)%nat /\
  (nfree sb k <= nfree sb k' + f)%nat.

Lemma spent_poor T c f c' f' k k' : spent T c f k k' -> poor T c' f' k' -> poor T (c + c') (f + f') k.
Proof. unfold spent, poor, short. lia. Qed.

Lemma spent_refl T k : spent T 0 0 k k.
Proof. unfold spent. lia. Qed.

Lemma spent_trans T c f c' f' k k' k'' :
  spent T c f k k' -> spent T c' f' k' k'' -> spent T (c + c') (f + f') k k''.
Proof. unfold spent. intros (H1 & H2 & H3) (H4 & H5 & H6). rewrite H4. lia. Qed.

Lemma spent_mono T c f c' f' k k' : spent T c f k k' -> (c <= c')%nat -> (f <= f')%nat -> spent T c' f' k k'.
Proof. unfold spent. lia. Qed.

Lemma poor_mono T c f c' f' k : poor T c f k -> (c <= c')%nat -> (f <= f')%nat -> poor T c' f' k.
Proof. unfold poor, short. lia. Qed.

Lemma spent_not_full T c f k k' : spent T c f k k' -> ~ poor T c f k -> ~ k_full k'.
Proof.
  intros (E & H1 & _) Hp Hf. apply Hp. left. unfold k_full, short in *.
  assert (size (k_logged k') <= size (k_logged k' ∪ T))%nat by (apply subseteq_size; set_solver). lia.
Qed.

(** A block of [T] costs nothing, any other one at most one. *)
Lemma spent_log T n d k : nfree sb (k_upd n d k) = nfree sb k -> n ∈ T -> spent T 0 0 k (k_upd n d k).
Proof.
  intros Hf Hn. unfold spent. rewrite Hf. cbn. replace ({[n]} ∪ k_logged k ∪ T) with (k_logged k ∪ T); [lia|].
  set_solver.
Qed.

Lemma size_union_one (A : gset Z) n : (size ({[n]} ∪ A) <= size A + 1)%nat.
Proof. rewrite size_union_alt, size_singleton. assert (size (A ∖ {[n]}) <= size A)%nat; [|lia].
  apply subseteq_size. set_solver. Qed.

Lemma nfree_upd_other n d k : geom sb k -> 0 <= n -> ~ is_bm sb n -> nfree sb (k_upd n d k) = nfree sb k.
Proof.
  intros G Hn Hbm. unfold nfree, frees. f_equal. apply filter_ext_in.
  intros x Hx%elem_seqZ0. cbn. rewrite used_upd_other; [done|done|done|done|].
  pose proof (geom_order sb k G). lia.
Qed.

Lemma spent_data T n d k : geom sb k -> 0 <= n -> ~ is_bm sb n -> spent T 1 0 k (k_upd n d k).
Proof.
  intros G Hn Hbm. unfold spent. rewrite nfree_upd_other by done. cbn.
  replace ({[n]} ∪ k_logged k ∪ T) with ({[n]} ∪ (k_logged k ∪ T)) by set_solver.
  pose proof (size_union_one (k_logged k ∪ T) n). lia.
Qed.

Lemma spent_alloc T k b : geom sb k -> data0 sb <= b < sb_size sb -> used sb (k_data k) b = false ->
  (forall n, is_bm sb n -> n ∈ T) -> spent T 1 1 k (k_alloc sb b k).
Proof.
  intros G Hb Hf HT. pose proof (nfree_alloc k b G Hb Hf) as Hn. unfold spent.
  split; [done|]. split; [|lia]. cbn.
  assert (BBLOCK sb b ∈ T) as Hin by (apply HT, BBLOCK_bm; pose proof (geom_order sb k G); lia).
  replace ({[b]} ∪ ({[BBLOCK sb b]} ∪ k_logged k) ∪ T) with ({[b]} ∪ (k_logged k ∪ T)) by set_solver.
  pose proof (size_union_one (k_logged k ∪ T) b). lia.
Qed.

Lemma spent_free T k b : geom sb k -> 0 <= b < sb_size sb -> used sb (k_data k) b = true ->
  (forall n, is_bm sb n -> n ∈ T) -> spent T 0 0 k (k_free sb b k).
Proof.
  intros G Hb Hf HT. pose proof (nfree_free k b G Hb Hf) as Hn. unfold spent.
  split; [done|]. split; [|lia]. cbn. pose proof (HT _ (BBLOCK_bm sb b Hb)).
  replace ({[BBLOCK sb b]} ∪ k_logged k ∪ T) with (k_logged k ∪ T) by set_solver. lia.
Qed.

(** *** The code *)

Lemma free_bit_some d b n bi r : free_bit sb d b n bi = Some r ->
  bi <= r < bi + Z.of_nat n /\ b + r < sb_size sb /\ bit_clear d r = true.
Proof.
  revert bi. induction n as [|n IH]; intros bi; cbn [free_bit]; [done|].
  destruct (b + bi <? sb_size sb) eqn:E; [|done]. destruct (bit_clear d bi) eqn:E2.
  - intros [= ->]. split; [lia|]. split; [lia|done].
  - intros (H1 & H2 & H3)%IH. split; [lia|]. by split.
Qed.

Lemma free_bit_none d b n bi r : free_bit sb d b n bi = None ->
  bi <= r < bi + Z.of_nat n -> b + r < sb_size sb -> bit_clear d r = false.
Proof.
  revert bi. induction n as [|n IH]; intros bi; cbn [free_bit]; [lia|].
  destruct (b + bi <? sb_size sb) eqn:E; [|lia]. destruct (bit_clear d bi) eqn:E2; [done|].
  intros H Hr Hs. destruct (decide (r = bi)) as [->|]; [done|]. apply (IH (bi + 1)); [done|lia|done].
Qed.

(** A block by its group and its place in the group. *)
Lemma group_block g bi : (BPB | g) -> 0 <= bi < BPB ->
  BBLOCK sb (g + bi) = BBLOCK sb g /\ (g + bi) mod BPB = bi.
Proof.
  intros [q ->] Hb. unfold BBLOCK. rewrite (Z.add_comm (q * BPB) bi), Z.div_add, Z.mod_add by (unfold BPB, BSIZE; lia).
  rewrite Z.div_small, Z.mod_small, Z.div_mul by (done || unfold BPB, BSIZE; lia). done.
Qed.

(** What is in use while the allocator runs: data blocks. *)
Definition held_ok (k : blks) : Prop :=
  forall n, k_held k !! n ≠ None -> data0 sb <= n < sb_size sb /\ used sb (k_data k) n = true.

Lemma held_bm k n : held_ok k -> is_bm sb n -> k_held k !! n = None.
Proof.
  intros Hk [_ Hn]. destruct (k_held k !! n) eqn:E; [|done]. destruct (Hk n); [by rewrite E|lia].
Qed.

Lemma held_free k b : held_ok k -> used sb (k_data k) b = false -> k_held k !! b = None.
Proof.
  intros Hk Hb. destruct (k_held k !! b) eqn:E; [|done]. destruct (Hk b); [by rewrite E|congruence].
Qed.

Context (P : failure -> Prop).

Lemma wp_balloc_loop T m x k gs Q :
  msec ∅ m -> b_rep x k -> geom sb k -> meta_used sb (k_data k) -> held_ok k -> one_held k ->
  (forall n, is_bm sb n -> n ∈ T) -> (poor T 1 1 k -> lax P) ->
  (forall g, g ∈ gs -> (BPB | g) /\ 0 <= g < sb_size sb) ->
  (forall b, 0 <= b < sb_size sb -> used sb (k_data k) b = false -> exists g, g ∈ gs /\ g <= b < g + BPB) ->
  (forall b m' x', quiet ∅ m m' -> data0 sb <= b < sb_size sb -> used sb (k_data k) b = false ->
     b_rep x' (k_alloc sb b k) -> Q b (m', x')) ->
  wp P (balloc_loop sb 1 gs) (m, x) Q.
Proof.
  intros Hm HR G Hmeta Hheld H1 HT Hlax. revert m x Hm HR. induction gs as [|g gs IH]; intros m x Hm HR Hgs Hcov HQ.
  { apply wp_panic, Hlax. right. unfold nfree. destruct (frees sb (k_data k)) as [|b l] eqn:E; [simpl; lia|].
    assert (b ∈ frees sb (k_data k)) as Hb by (rewrite E; left).
    apply list_elem_of_filter in Hb as [Hb Hr%elem_seqZ0]. destruct (Hcov b Hr Hb) as (g & Hg & _).
    by apply elem_of_nil in Hg. }
  destruct (Hgs g) as [Hdiv Hg]; [by left|]. pose proof (BBLOCK_bm sb g Hg) as Hbm.
  pose proof (geom_BBLOCK k g G Hg) as Hrange. cbn [balloc_loop].
  assert (k_full k -> lax P) as Hfull by (intros; apply Hlax; left; by apply full_short).
  apply (wp_open _ _ k); [done|done|done|by apply held_bm|done|done|].
  intros i m1 x1 Hm1 R1. apply (wp_look _ _ k _ (BBLOCK sb g)); [done|].
  destruct (free_bit sb _ g _ 0) as [bi|] eqn:E.
  - apply free_bit_some in E as (Hbi & Hs & Hc). rewrite Z2Nat.id in Hbi by (unfold BPB, BSIZE; lia).
    destruct (group_block g bi Hdiv) as [E1 E2]; [lia|].
    assert (used sb (k_data k) (g + bi) = false) as Hu.
    { unfold used. rewrite E1, E2. unfold k_get in Hc. by rewrite Hc. }
    assert (data0 sb <= g + bi < sb_size sb) as Hb.
    { split; [|lia]. destruct (decide (data0 sb <= g + bi)); [done|]. rewrite Hmeta in Hu; [done|lia]. }
    destruct (geom_bm sb k _ G Hbm) as [_ Hlo].
    apply (wp_store _ _ k _ (BBLOCK sb g)); [apply Hm1|done|by apply held_bm|done| |done|].
    { rewrite length_set_bit. apply k_get_len; [apply G|done]. }
    intros m2 x2 Hm2 R2. wp_next. destruct (geom_data sb k _ G Hb) as (D1 & D2 & D3).
    apply (wp_bzero _ _ (k_upd (BBLOCK sb g) (set_bit bi (k_get (BBLOCK sb g) k)) k));
      [apply Hm2|done|by rewrite k_size_upd|exact (held_free k _ Hheld Hu)|done|done| |].
    { intros Hf2. apply Hlax. left. unfold k_full in Hf2. cbn in Hf2. unfold short.
      assert (size ({[BBLOCK sb g]} ∪ k_logged k) <= size (k_logged k ∪ T))%nat; [|lia].
      apply subseteq_size. pose proof (HT _ Hbm). set_solver. }
    intros m3 x3 Hm3 R3. apply wp_ret, HQ; [|done|done|].
    + do 2 (eapply quiet_trans; [done|]). done.
    + unfold k_alloc. by rewrite E1, E2.
  - apply (wp_close _ _ k _ (BBLOCK sb g)); [apply Hm1|done|by apply held_bm|]. intros m2 x2 Hm2 R2.
    apply IH; [apply Hm2|done|intros g' Hg'; apply Hgs; by right| |].
    + intros b Hb Hu. destruct (Hcov b Hb Hu) as (g' & Hg' & Hr). exists g'. split; [|done].
      apply elem_of_cons in Hg' as [->|]; [|done]. exfalso.
      destruct (group_block g (b - g) Hdiv) as [E1 E2]; [lia|]. replace (g + (b - g)) with b in * by lia.
      pose proof (free_bit_none _ _ _ _ (b - g) E) as Hn. unfold used in Hu. rewrite E1, E2 in Hu.
      unfold k_get in Hn. rewrite Hn in Hu; [done|unfold BPB, BSIZE in *; lia|lia].
    + intros b m' x' Hm'. apply HQ. do 2 (eapply quiet_trans; [done|]). done.
Qed.

Lemma groups_elem g : g ∈ groups sb <-> exists k, 0 <= k /\ g = k * BPB /\ k < (sb_size sb + BPB - 1) / BPB.
Proof.
  unfold groups. rewrite list_elem_of_fmap. split.
  - intros (k & -> & Hk%elem_of_seq). exists (Z.of_nat k). lia.
  - intros (k & H0 & -> & Hk). exists (Z.to_nat k). split; [by rewrite Z2Nat.id|]. apply elem_of_seq. lia.
Qed.

Lemma groups_ok g : g ∈ groups sb -> (BPB | g) /\ 0 <= g < sb_size sb.
Proof.
  intros (k & H0 & -> & Hk)%groups_elem. split; [by exists k|]. unfold BPB, BSIZE in *.
  pose proof (Z.mul_div_le (sb_size sb + 512 * 8 - 1) (512 * 8)). lia.
Qed.

Lemma groups_cover b : 0 <= b < sb_size sb -> exists g, g ∈ groups sb /\ g <= b < g + BPB.
Proof.
  intros Hb. exists (b / BPB * BPB). unfold BPB, BSIZE.
  pose proof (Z.div_mod b (512 * 8) ltac:(lia)). pose proof (Z.mod_pos_bound b (512 * 8) ltac:(lia)). split; [|lia].
  apply groups_elem. exists (b / (512 * 8)). split; [apply Z.div_pos; lia|]. split; [done|].
  unfold BPB, BSIZE. assert (b / (512 * 8) + 1 <= (sb_size sb + 512 * 8 - 1) / (512 * 8)); [|lia].
  apply Z.div_le_lower_bound; lia.
Qed.

Lemma wp_balloc T m x k Q :
  msec ∅ m -> b_rep x k -> geom sb k -> meta_used sb (k_data k) -> held_ok k -> one_held k ->
  (forall n, is_bm sb n -> n ∈ T) -> (poor T 1 1 k -> lax P) ->
  (forall b m' x', quiet ∅ m m' -> data0 sb <= b < sb_size sb -> used sb (k_data k) b = false ->
     b_rep x' (k_alloc sb b k) -> Q b (m', x')) ->
  wp P (balloc sb 1) (m, x) Q.
Proof.
  intros. apply (wp_balloc_loop T _ _ k); try done; [apply groups_ok|].
  intros b Hb _. by apply groups_cover.
Qed.

Lemma wp_bfree m x k b Q :
  msec ∅ m -> b_rep x k -> geom sb k -> held_ok k -> one_held k ->
  0 <= b < sb_size sb -> used sb (k_data k) b = true -> (k_full k -> lax P) ->
  (forall m' x', quiet ∅ m m' -> b_rep x' (k_free sb b k) -> Q tt (m', x')) ->
  wp P (bfree sb 1 b) (m, x) Q.
Proof.
  intros Hm HR G Hheld H1 Hb Hu Hlax HQ. pose proof (BBLOCK_bm sb b Hb) as Hbm.
  pose proof (geom_BBLOCK k b G Hb) as Hrange. destruct (geom_bm sb k _ G Hbm) as [_ Hlo]. unfold bfree.
  apply (wp_open _ _ k); [done|done|done|by apply held_bm|done|done|].
  intros i m1 x1 Hm1 R1. apply (wp_look _ _ k _ (BBLOCK sb b)); [done|].
  unfold used in Hu. unfold k_get at 1. destruct (bit_clear _ _) eqn:E; [done|].
  apply wp_unit_tail, wp_assoc3, (wp_store _ _ k _ (BBLOCK sb b)); [apply Hm1|done|by apply held_bm|done| |done|].
  { rewrite length_unset_bit. apply k_get_len; [apply G|done]. }
  intros m2 x2 Hm2 R2. apply wp_ret, HQ; [by eapply quiet_trans|done].
Qed.

End alloc.
