(* ===== verification/FsFile.v ===== *)
(** * The blocks of a file

    [nth_addr D l bn] is the address of block [bn] of the inode with the
    addresses [l] on the disk [D] (0: none), [fbyte] the bytes of the file.
    [file_ok] says that the blocks are distinct, in use, and not metadata;
    [turned] is what an operation on one file may do to the disk. *)

From stdpp Require Import base numbers gmap sets list strings.
From S2P Require Import Prelude CString Spinlock Sleeplock Bio BioRing BioSpec.
From S2P Require Import Log LogSpec Fs FsBlock FsAlloc.
Open Scope Z_scope.

Definition ind (l : list Z) : Z := default 0 (l !! Z.to_nat NDIRECT).

Definition nth_addr (D : list (list Z)) (l : list Z) (bn : Z) : Z :=
  if bn <? NDIRECT then default 0 (l !! Z.to_nat bn)
  else if ind l =? 0 then 0
  else getu32 (blk D (ind l)) (Z.to_nat (4 * (bn - NDIRECT))).

Definition fbyte (D : list (list Z)) (l : list Z) (off : Z) : Z :=
  let a := nth_addr D l (off / BSIZE) in
  if a =? 0 then 0 else default 0 (blk D a !! Z.to_nat (off mod BSIZE)).

(** The block numbers of a file, and the offsets. *)
Definition in_file (bn : Z) : Prop := 0 <= bn < MAXFILE.

Definition off_ok (off : Z) : Prop := 0 <= off < MAXFILE * BSIZE.

Lemma off_block off : off_ok off -> in_file (off / BSIZE).
Proof.
  unfold off_ok, in_file. intros H. split; [apply Z.div_pos; unfold BSIZE; lia|].
  apply Z.div_lt_upper_bound; unfold BSIZE in *; lia.
Qed.

Section file.
Context (sb : superblock).

(** A data block that is in use. *)
Definition live (D : list (list Z)) (a : Z) : Prop := data0 sb <= a < sb_size sb /\ used sb D a = true.

Record layout_ok (U : Z -> Prop) (ad : Z -> Z) (i : Z) : Prop := mkLay {
  lo_used : forall bn, in_file bn -> ad bn ≠ 0 -> U (ad bn);
  lo_ind : i ≠ 0 -> U i;
  lo_inj : forall bn bn', in_file bn -> in_file bn' -> ad bn = ad bn' -> ad bn ≠ 0 -> bn = bn';
  lo_ne : forall bn, in_file bn -> ad bn ≠ 0 -> ad bn ≠ i }.

Record file_ok (D : list (list Z)) (l : list Z) : Prop := mkFile {
  fo_len : length l = 13%nat;
  fo_lay : layout_ok (live D) (nth_addr D l) (ind l) }.

(** The blocks of the file, the indirect block included. *)
Definition owned (D : list (list Z)) (l : list Z) (a : Z) : Prop :=
  a ≠ 0 /\ (a = ind l \/ exists bn, in_file bn /\ nth_addr D l bn = a).

Lemma owned_live D l a : file_ok D l -> owned D l a -> live D a.
Proof.
  intros [_ []] [H0 [->|(bn & Hb & <-)]]; [by apply lo_ind0|by apply lo_used0].
Qed.

Lemma owned_addr D l bn : in_file bn -> nth_addr D l bn ≠ 0 -> owned D l (nth_addr D l bn).
Proof. intros Hb H0. split; [done|]. right. by exists bn. Qed.

Lemma owned_ind D l : ind l ≠ 0 -> owned D l (ind l).
Proof. intros H0. split; [done|by left]. Qed.

(** *** Changes elsewhere *)

Lemma nth_addr_ext D D' l bn : (ind l ≠ 0 -> blk D' (ind l) = blk D (ind l)) ->
  nth_addr D' l bn = nth_addr D l bn.
Proof.
  intros H. unfold nth_addr. destruct (bn <? NDIRECT); [done|].
  destruct (ind l =? 0) eqn:E; [done|]. rewrite H; [done|lia].
Qed.

Section other.
Context (D D' : list (list Z)) (l : list Z).
Context (Hown : forall a, owned D l a -> blk D' a = blk D a).

Lemma other_addr bn : nth_addr D' l bn = nth_addr D l bn.
Proof. apply nth_addr_ext. intros H. by apply Hown, owned_ind. Qed.

Lemma other_owned a : owned D' l a <-> owned D l a.
Proof.
  unfold owned. split; (intros [H0 [?|(bn & Hb & E)]]; split; [done|by left|done|right]);
    exists bn; rewrite other_addr in *; done.
Qed.

Lemma other_byte off : off_ok off -> fbyte D' l off = fbyte D l off.
Proof.
  intros Ho. unfold fbyte. rewrite other_addr. destruct (nth_addr D l _ =? 0) eqn:E; [done|].
  rewrite Hown; [done|]. apply owned_addr; [by apply off_block|lia].
Qed.

Lemma other_ok : (forall a, owned D l a -> used sb D' a = true) -> file_ok D l -> file_ok D' l.
Proof.
  intros Hu F. pose proof F as [Hl []]. split; [done|]. 
  assert (forall a, owned D l a -> live D' a) as Hlive.
  { intros a Ha. split; [by apply (owned_live D l)|by apply Hu]. }
  constructor.
  - intros bn Hb. rewrite other_addr. intros H0. by apply Hlive, owned_addr.
  - intros H0. by apply Hlive, owned_ind.
  - intros bn bn'. rewrite !other_addr. apply lo_inj0.
  - intros bn. rewrite other_addr. apply lo_ne0.
Qed.

End other.

(** *** A block more *)

Lemma layout_ext U ad ad' i : (forall bn, in_file bn -> ad' bn = ad bn) -> layout_ok U ad i -> layout_ok U ad' i.
Proof.
  intros E []. constructor; intros bn.
  - intros Hb. rewrite E by done. by apply lo_used0.
  - by apply lo_ind0.
  - intros bn' Hb Hb'. rewrite !E by done. by apply lo_inj0.
  - intros Hb. rewrite E by done. by apply lo_ne0.
Qed.

Lemma layout_add U ad i bn0 b :
  layout_ok U ad i -> U b -> b ≠ 0 -> b ≠ i -> (forall bn, in_file bn -> ad bn ≠ b) -> 
  layout_ok U (fun bn => if decide (bn = bn0) then b else ad bn) i.
Proof.
  intros [] Hb H0 Hi Hn. constructor.
  - intros bn Hbn. destruct (decide (bn = bn0)); [done|by apply lo_used0].
  - done.
  - intros bn bn' Hbn Hbn'. destruct (decide (bn = bn0)) as [->|], (decide (bn' = bn0)) as [->|]; try done.
    + intros E. by destruct (Hn bn').
    + intros E. by destruct (Hn bn).
    + by apply lo_inj0.
  - intros bn Hbn. destruct (decide (bn = bn0)) as [->|]; [done|by apply lo_ne0].
Qed.

(** The same file with one more block, full of zeros. *)
Section add.
Context (D D' : list (list Z)) (l l' : list Z) (bn b : Z).
Context (F : file_ok D l) (Hbn : in_file bn) (Hz : nth_addr D l bn = 0).
Context (Hb : ~ owned D l b) (Hb0 : b ≠ 0).
Context (Hlen : length l' = 13%nat) (Hind : ind l' = ind l).
Context (Hlive : forall a, live D a -> live D' a) (Hlb : live D' b).
Context (Haddr : forall bn', in_file bn' -> nth_addr D' l' bn' = if decide (bn' = bn) then b else nth_addr D l bn').
Context (Hblk : forall a, a ≠ ind l -> owned D l a -> blk D' a = blk D a).
Context (Hzero : forall k, default 0 (blk D' b !! k) = 0).

Lemma add_ok : file_ok D' l'.
Proof.
  split; [done|]. rewrite Hind.
  apply (layout_ext _ (fun bn' => if decide (bn' = bn) then b else nth_addr D l bn')); [done|].
  apply layout_add; [|done|done| |].
  - destruct F as [_ []]. constructor; [..|done|done].
    + intros bn' H1 H2. by apply Hlive, lo_used0.
    + intros H. by apply Hlive, lo_ind0.
  - intros ->. by apply Hb, owned_ind.
  - intros bn' H1 <-. by apply Hb, owned_addr.
Qed.

Lemma add_owned a : owned D' l' a <-> owned D l a \/ a = b.
Proof.
  unfold owned. rewrite Hind. split.
  - intros [H0 [?|(bn' & H1 & E)]]; [left; auto|]. rewrite Haddr in E by done.
    destruct (decide (bn' = bn)); [by right|]. left. eauto.
  - intros [[H0 [?|(bn' & H1 & E)]]| ->]; [by auto|..].
    + split; [done|]. right. exists bn'. split; [done|]. rewrite Haddr by done.
      destruct (decide (bn' = bn)) as [->|]; congruence.
    + split; [done|]. right. exists bn. split; [done|]. rewrite Haddr by done. by rewrite decide_True.
Qed.

Lemma add_byte off : off_ok off -> fbyte D' l' off = fbyte D l off.
Proof.
  intros Ho. pose proof (off_block off Ho) as Hf. unfold fbyte. rewrite Haddr by done.
  destruct (decide (off / BSIZE = bn)) as [->|].
  - rewrite Hz. simpl. destruct (b =? 0); [done|apply Hzero].
  - destruct (nth_addr D l _ =? 0) eqn:E; [done|].
    assert (nth_addr D l (off / BSIZE) ≠ 0) as H0 by lia.
    rewrite Hblk; [done| |by apply owned_addr]. by apply F.
Qed.

Lemma add_addr bn' : in_file bn' -> nth_addr D l bn' ≠ 0 -> nth_addr D' l' bn' = nth_addr D l bn'.
Proof. intros H1 H2. rewrite Haddr by done. destruct (decide (bn' = bn)); congruence. Qed.

End add.

(** *** What operations do to a file *)

(** The file [l] on [D] becomes the file [l'] on [D'], with the bytes [g];
    blocks in use that are not the file's are as before. *)
Record turned (D : list (list Z)) (l : list Z) (D' : list (list Z)) (l' : list Z) (g : Z -> Z) : Prop := mkTurned {
  tu_ok : file_ok D' l';
  tu_bytes : forall off, off_ok off -> fbyte D' l' off = g off;
  tu_addr : forall bn, in_file bn -> nth_addr D l bn ≠ 0 -> nth_addr D' l' bn = nth_addr D l bn;
  tu_keep : forall a, owned D l a -> owned D' l' a;
  tu_own : forall a, owned D' l' a -> owned D l a \/ used sb D a = false;
  tu_used : forall a, 0 <= a < sb_size sb -> used sb D a = true -> used sb D' a = true;
  tu_new : forall a, 0 <= a < sb_size sb -> used sb D' a = true -> used sb D a = true \/ owned D' l' a;
  tu_frame : forall n, 0 <= n < sb_size sb -> ~ is_bm sb n -> used sb D n = true -> ~ owned D l n ->
    blk D' n = blk D n }.

Lemma turned_refl D l : file_ok D l -> turned D l D l (fbyte D l).
Proof. intros F. constructor; auto. Qed.

Lemma turned_trans D l D1 l1 g1 D2 l2 g2 : 0 <= data0 sb ->
  file_ok D l -> turned D l D1 l1 g1 -> turned D1 l1 D2 l2 g2 -> turned D l D2 l2 g2.
Proof.
  intros H0 F T1 T2. constructor.
  - apply T2.
  - apply T2.
  - intros bn Hb Ha. rewrite <- (tu_addr _ _ _ _ _ T1 bn) by done. apply (tu_addr _ _ _ _ _ T2); [done|].
    by rewrite (tu_addr _ _ _ _ _ T1).
  - intros a Ha. by apply (tu_keep _ _ _ _ _ T2), (tu_keep _ _ _ _ _ T1).
  - intros a Ha. apply (tu_own _ _ _ _ _ T2) in Ha as Ha2. destruct Ha2 as [Ha2|Hu].
    + by apply (tu_own _ _ _ _ _ T1).
    + right. destruct (used sb D a) eqn:E; [|done].
      assert (0 <= a < sb_size sb) as Hr by (destruct (owned_live _ _ _ (tu_ok _ _ _ _ _ T2) Ha); lia).
      rewrite (tu_used _ _ _ _ _ T1 a Hr E) in Hu. done.
  - intros a Hr Hu. by apply (tu_used _ _ _ _ _ T2), (tu_used _ _ _ _ _ T1).
  - intros a Hr Hu. apply (tu_new _ _ _ _ _ T2) in Hu as [Hu|?]; [|by right|done].
    apply (tu_new _ _ _ _ _ T1) in Hu as [?|?]; [by left| |done]. right. by apply (tu_keep _ _ _ _ _ T2).
  - intros n Hr Hbm Hu Ho. rewrite <- (tu_frame _ _ _ _ _ T1 n) by done. apply (tu_frame _ _ _ _ _ T2); [done|done| |].
    + by apply (tu_used _ _ _ _ _ T1).
    + intros [Ho'|Hu']%(tu_own _ _ _ _ _ T1); [done|congruence].
Qed.

Lemma turned_ext D l D' l' g g' : (forall off, off_ok off -> g off = g' off) ->
  turned D l D' l' g -> turned D l D' l' g'.
Proof. intros E []. constructor; try done. intros off Ho. rewrite <- E by done. by apply tu_bytes0. Qed.

(** *** Allocating a block for a file *)

Section alloc.
Context (k : blks) (l : list Z) (b : Z).
Context (G : geom sb k) (F : file_ok (k_data k) l).
Context (Hb : data0 sb <= b < sb_size sb) (Hu : used sb (k_data k) b = false).
Let D := k_data k.
Let D1 := k_data (k_alloc sb b k).

Lemma alloc_b0 : b ≠ 0.
Proof. pose proof (geom_order sb k G). lia. Qed.

Lemma live_not_bm a : live D a -> 0 <= a < sb_size sb /\ ~ is_bm sb a.
Proof.
  intros [Ha _]. destruct (geom_data sb k a G Ha) as (H1 & _ & H3). split; [lia|done].
Qed.

Lemma alloc_blk a : live D a -> blk D1 a = blk D a.
Proof.
  intros La. destruct (live_not_bm a La) as [Hr Hbm]. pose proof (get_alloc sb k b a G Hb ltac:(lia) Hbm) as E.
  rewrite decide_False in E; [done|]. intros ->. destruct La as [_ La]. unfold D in *. congruence.
Qed.

Lemma alloc_zero : blk D1 b = replicate (Z.to_nat BSIZE) 0.
Proof.
  destruct (geom_data sb k b G Hb) as (H1 & _ & H3).
  pose proof (get_alloc sb k b b G Hb ltac:(lia) H3) as E. by rewrite decide_True in E.
Qed.

Lemma alloc_zero_at j : default 0 (blk D1 b !! j) = 0.
Proof.
  rewrite alloc_zero. destruct (_ !! j) as [v|] eqn:E; [|done]. by apply lookup_replicate in E as [-> _].
Qed.

Lemma alloc_live a : live D a -> live D1 a.
Proof.
  intros La. destruct (live_not_bm a La) as [Hr _]. destruct La as [Hd La]. split; [done|].
  unfold D1. rewrite used_alloc by done. by destruct (decide (a = b)).
Qed.

Lemma alloc_live_b : live D1 b.
Proof. split; [done|]. unfold D1. rewrite used_alloc; [by rewrite decide_True|done|done|]. pose proof (geom_order sb k G). lia. Qed.

Lemma alloc_not_owned : ~ owned D l b.
Proof. intros Ho. destruct (owned_live D l b F Ho) as [_ Hb']. unfold D in *. congruence. Qed.

Lemma alloc_used a : 0 <= a < sb_size sb -> used sb D a = true -> used sb D1 a = true.
Proof. intros Ha Hua. unfold D1. rewrite used_alloc by done. by destruct (decide (a = b)). Qed.

Lemma alloc_new a : 0 <= a < sb_size sb -> used sb D1 a = true -> used sb D a = true \/ (owned D l a \/ a = b).
Proof. intros Ha. unfold D1. rewrite used_alloc by done. destruct (decide (a = b)); auto. Qed.

Lemma alloc_frame n : 0 <= n < sb_size sb -> ~ is_bm sb n -> used sb D n = true -> blk D1 n = blk D n.
Proof.
  intros Hn Hbm Hun. pose proof (get_alloc sb k b n G Hb ltac:(lia) Hbm) as E.
  rewrite decide_False in E; [done|]. intros ->. unfold D in *. congruence.
Qed.

(** As a direct block. *)
Lemma turned_direct bn : 0 <= bn < NDIRECT -> nth_addr D l bn = 0 ->
  turned D l D1 (<[Z.to_nat bn := b]> l) (fbyte D l) /\ nth_addr D1 (<[Z.to_nat bn := b]> l) bn = b.
Proof.
  intros Hbn Hz. pose proof alloc_b0 as Hb0. pose proof alloc_not_owned as Hno. pose proof (fo_len _ _ F) as Hl.
  set (l' := <[Z.to_nat bn := b]> l).
  assert (length l' = 13%nat) as Hl' by (by unfold l'; rewrite length_insert).
  assert (ind l' = ind l) as Hind.
  { unfold ind, l', NDIRECT in *. rewrite list_lookup_insert_ne; [done|lia]. }
  assert (in_file bn) as Hf by (unfold in_file, MAXFILE, NDIRECT, NINDIRECT in *; lia).
  assert (forall bn', in_file bn' ->
    nth_addr D1 l' bn' = if decide (bn' = bn) then b else nth_addr D l bn') as Haddr.
  { intros bn' Hbn'. rewrite (nth_addr_ext D D1) by
      (intros H; apply alloc_blk; rewrite Hind in *; by apply (fo_lay _ _ F)).
    unfold nth_addr. rewrite Hind. unfold in_file in Hbn'. destruct (bn' <? NDIRECT) eqn:E.
    - unfold l'. destruct (decide (bn' = bn)) as [->|].
      + rewrite list_lookup_insert_eq; [done|]. unfold NDIRECT in *. lia.
      + rewrite list_lookup_insert_ne; [done|lia].
    - rewrite decide_False by lia. done. }
  split; [|rewrite Haddr by done; by rewrite decide_True].
  assert (forall a, a ≠ ind l -> owned D l a -> blk D1 a = blk D a) as Hblk.
  { intros a _ Ha. apply alloc_blk. by apply (owned_live D l). }
  assert (forall a, owned D1 l' a <-> owned D l a \/ a = b) as Hown by (by apply add_owned with bn).
  constructor.
  - apply (add_ok D D1 l l' bn b); try done; [apply alloc_live|apply alloc_live_b|apply alloc_zero_at].
  - intros off Ho. apply (add_byte D D1 l l' bn b); try done. apply alloc_zero_at.
  - intros bn' H1 H2. by apply (add_addr D D1 l l' bn b).
  - intros a Ha. apply Hown. by left.
  - intros a [?| ->]%Hown; [by left|by right].
  - apply alloc_used.
  - intros a Ha. rewrite Hown. by apply alloc_new.
  - intros n Hn Hbm Hun _. by apply alloc_frame.
Qed.

(** As the indirect block. *)
Lemma nth_addr_new bn : in_file bn -> ind l = 0 -> nth_addr D1 (<[Z.to_nat NDIRECT := b]> l) bn = nth_addr D l bn.
Proof.
  intros Hbn Hi. unfold nth_addr at 1. pose proof (fo_len _ _ F) as Hl. unfold in_file in Hbn.
  assert (ind (<[Z.to_nat NDIRECT := b]> l) = b) as Hind.
  { unfold ind. rewrite list_lookup_insert_eq; [done|]. unfold NDIRECT. lia. }
  rewrite Hind. destruct (bn <? NDIRECT) eqn:E.
  - rewrite list_lookup_insert_ne by lia. unfold nth_addr. by rewrite E.
  - unfold nth_addr. rewrite E, Hi. simpl. destruct (b =? 0); [done|].
    unfold getu32, get32. by rewrite !alloc_zero_at.
Qed.

Lemma turned_ind : ind l = 0 ->
  turned D l D1 (<[Z.to_nat NDIRECT := b]> l) (fbyte D l).
Proof.
  intros Hi. pose proof alloc_b0 as Hb0. pose proof alloc_not_owned as Hno. pose proof (fo_len _ _ F) as Hl.
  set (l' := <[Z.to_nat NDIRECT := b]> l).
  assert (forall bn, in_file bn -> nth_addr D1 l' bn = nth_addr D l bn) as Haddr by (intros; by apply nth_addr_new).
  assert (ind l' = b) as Hind.
  { unfold l', ind. rewrite list_lookup_insert_eq; [done|]. unfold NDIRECT. lia. }
  assert (forall a, owned D1 l' a <-> owned D l a \/ a = b) as Hown.
  { intros a. unfold owned. rewrite Hind, Hi. split.
    - intros [H0 [->|(bn & H1 & E)]]; [by right|]. rewrite Haddr in E by done. left. eauto.
    - intros [[H0 [->|(bn & H1 & E)]]| ->]; [done|..|by auto]. split; [done|]. right. exists bn. by rewrite Haddr. }
  constructor.
  - split; [unfold l'; by rewrite length_insert|]. rewrite Hind.
    apply (layout_ext _ (nth_addr D l)); [done|]. destruct F as [_ []]. constructor; [..|done|].
    + intros bn H1 H2. by apply alloc_live, lo_used0.
    + intros _. apply alloc_live_b.
    + intros bn H1 H2 E. apply Hno. rewrite <- E. by apply owned_addr.
  - intros off Ho. unfold fbyte. rewrite Haddr by (by apply off_block).
    destruct (nth_addr D l _ =? 0) eqn:E; [done|]. rewrite alloc_blk; [done|].
    apply (owned_live D l); [done|]. apply owned_addr; [by apply off_block|lia].
  - intros bn H1 _. by apply Haddr.
  - intros a Ha. apply Hown. by left.
  - intros a [?| ->]%Hown; [by left|by right].
  - apply alloc_used.
  - intros a Ha. rewrite Hown. by apply alloc_new.
  - intros n Hn Hbm Hun _. by apply alloc_frame.
Qed.

(** As a block listed in the indirect block. *)
Section entry.
Context (bn : Z).
Let o := Z.to_nat (4 * (bn - NDIRECT)).
Let D2 := bput (ind l) (put32 o b (blk D1 (ind l))) D1.

Context (Hbn : NDIRECT <= bn < MAXFILE) (Hi : ind l ≠ 0) (Hz : nth_addr D l bn = 0).

Lemma entry_live : live D (ind l).
Proof. by apply (fo_lay _ _ F). Qed.

Lemma entry_blk a : 0 <= a -> blk D2 a = if decide (a = ind l) then put32 o b (blk D (ind l)) else blk D1 a.
Proof.
  intros Ha. destruct (live_not_bm _ entry_live) as [Hr _]. pose proof (g_size _ _ G).
  unfold D2. rewrite blk_bput; [|split; [lia|]|done].
  - by rewrite (alloc_blk (ind l) entry_live).
  - destruct (same_alloc sb k b) as (_ & _ & _ & _ & _ & _ & _ & E). unfold D1. rewrite E. unfold k_size in *. lia.
Qed.

Lemma entry_used a : 0 <= a < sb_size sb -> used sb D2 a = used sb D1 a.
Proof.
  intros Ha. destruct (live_not_bm _ entry_live) as [Hr Hbm]. pose proof (geom_order sb k G).
  apply used_upd_other; [done|done|lia|lia].
Qed.

Lemma entry_addr bn' : in_file bn' -> nth_addr D2 l bn' = if decide (bn' = bn) then b else nth_addr D l bn'.
Proof.
  intros Hbn'. unfold nth_addr. destruct (live_not_bm _ entry_live) as [Hr _].
  replace (ind l =? 0) with false by lia. rewrite entry_blk by lia. rewrite decide_True by done.
  unfold in_file in Hbn'. destruct (bn' <? NDIRECT) eqn:E; [rewrite decide_False by lia; done|].
  assert (length (blk D (ind l)) = 512%nat) as Hlen
    by (apply (k_get_len k); [apply G|pose proof (g_size _ _ G); lia]).
  unfold getu32. unfold MAXFILE, NDIRECT, NINDIRECT in *. destruct (decide (bn' = bn)) as [->|].
  - pose proof (g_size _ _ G). pose proof (g_max _ _ G). pose proof (geom_order sb k G).
    rewrite get_put32; [apply u32_small; lia|unfold o; lia|lia].
  - rewrite get_put32_other; [done|]. unfold o. lia.
Qed.

Lemma turned_entry : turned D l D2 l (fbyte D l) /\ nth_addr D2 l bn = b.
Proof.
  pose proof alloc_b0 as Hb0. pose proof alloc_not_owned as Hno. pose proof entry_live as Li.
  pose proof (fo_len _ _ F) as Hl. pose proof entry_addr as Haddr.
  destruct (live_not_bm _ Li) as [Hri _].
  assert (in_file bn) as Hf by (unfold in_file, NDIRECT in *; lia).
  split; [|rewrite entry_addr by done; by rewrite decide_True].
  assert (b ≠ ind l) as Hbi by (intros ->; by apply Hno, owned_ind).
  assert (forall a, a ≠ ind l -> owned D l a -> blk D2 a = blk D a) as Hblk.
  { intros a Hn Ha. apply (owned_live D l) in Ha; [|done]. destruct (live_not_bm a Ha).
    rewrite entry_blk, decide_False by (lia || done). by apply alloc_blk. }
  assert (forall j, default 0 (blk D2 b !! j) = 0) as Hzero.
  { intros j. rewrite entry_blk, decide_False by (pose proof (geom_order sb k G); lia || done). apply alloc_zero_at. }
  assert (forall a, owned D2 l a <-> owned D l a \/ a = b) as Hown
    by (by apply add_owned with bn).
  assert (forall a, live D a -> live D2 a) as Hlive.
  { intros a Ha. destruct (live_not_bm a Ha). destruct (alloc_live a Ha) as [? Hua]. split; [done|]. by rewrite entry_used. }
  constructor.
  - apply (add_ok D D2 l l bn b); try done.
    split; [done|]. rewrite entry_used by (pose proof (geom_order sb k G); lia). apply alloc_live_b.
  - intros off Ho. by apply (add_byte D D2 l l bn b).
  - intros bn' H1 H2. by apply (add_addr D D2 l l bn b).
  - intros a Ha. apply Hown. by left.
  - intros a [?| ->]%Hown; [by left|by right].
  - intros a Ha Hua. rewrite entry_used by done. by apply alloc_used.
  - intros a Ha. rewrite Hown, entry_used by done. by apply alloc_new.
  - intros n Hn Hbm Hun Ho. rewrite entry_blk, decide_False by (lia || (intros ->; by apply Ho, owned_ind)).
    by apply alloc_frame.
Qed.

End entry.

End alloc.

End file.
