(* ===== verification/FsInode.v ===== *)
(** * Contents of inodes: bmap, readi, writei, itrunc

    [file_st s k ip i]: the inode [ip] of the cache is [i], with a well-formed
    file on the disk [k], and no buffer is in use. *)

From stdpp Require Import base numbers gmap sets list strings.
From S2P Require Import Prelude CString Spinlock Sleeplock Bio BioRing BioSpec.
From S2P Require Import Log LogSpec Fs FsBlock FsAlloc FsFile.
Open Scope Z_scope.

Definition addrs (i : inode) : list Z := d_addrs (i_d i).

Definition with_addrs (l : list Z) (i : inode) : inode := set_i_d (set_d_addrs l) i.

Lemma with_addrs_id i : with_addrs (addrs i) i = i.
Proof. by destruct i as [? ? ? ? ? []]. Qed.

Section inode.
Context {X : Type} `{BW : BlockLaws X} (sb : superblock) (P : failure -> Prop).
Implicit Types (s : fs X) (k : blks).

Lemma wp_on_blk {A} (op : M (mach * X) A) m s Q :
  wp P op (m, fblk s) (fun a t => Q a (t.1, mkFs t.2 (icache s))) -> wp P (on_blk op) (m, s) Q.
Proof. intros H. unfold on_blk. by apply wp_part. Qed.

(** Opening, reading, changing and closing a block from the functions that
    also use the inode cache. *)
Lemma fwp_open {A} m s k n (K : nat -> M (mach * fs X) A) Q :
  msec ∅ m -> b_rep (fblk s) k -> 0 <= n < k_size k -> k_held k !! n = None -> one_held k ->
  (k_full k -> lax P) ->
  (forall i m' x', quiet ∅ m m' -> b_rep x' (k_hold n i true k) -> wp P (K i) (m', mkFs x' (icache s)) Q) ->
  wp P (bp ← on_blk (b_read 1 n); K bp) (m, s) Q.
Proof.
  intros Hm HR Hn Hh H1 Hlax HQ. wp_next. apply wp_on_blk, (wp_b_read _ _ _ k); [done|done|done|done| |done].
  intros [H|H]; [by apply Hlax|unfold one_held in H1; lia].
Qed.

Lemma fwp_look {A} m s k n i (K : list Z -> M (mach * fs X) A) Q :
  b_rep (fblk s) (k_hold n i true k) -> wp P (K (k_get n k)) (m, s) Q ->
  wp P (d ← on_blk (b_data i); K d) (m, s) Q.
Proof.
  intros HR HQ. wp_next.
  apply wp_on_blk, (wp_b_data _ _ _ (k_hold n i true k) n i true); [done|cbn; by rewrite lookup_insert_eq|].
  by destruct s.
Qed.

Lemma fwp_close {A} m s k n i (K : M (mach * fs X) A) Q :
  msec ∅ m -> b_rep (fblk s) (k_hold n i true k) -> k_held k !! n = None ->
  (forall m' x', quiet ∅ m m' -> b_rep x' k -> wp P K (m', mkFs x' (icache s)) Q) ->
  wp P (on_blk (b_rel i);; K) (m, s) Q.
Proof.
  intros Hm HR Hh HQ. wp_next. apply wp_on_blk, wp_unit_tail, (wp_close _ _ k _ n); [done|done|done|].
  intros m' x' Hm' R'. by apply wp_ret, HQ.
Qed.

Lemma fwp_store {A} m s k n i f (K : M (mach * fs X) A) Q :
  msec ∅ m -> b_rep (fblk s) (k_hold n i true k) -> k_held k !! n = None ->
  ~ (k_lo k <= n < k_hi k) -> length (f (k_get n k)) = Z.to_nat BSIZE -> (k_full k -> lax P) ->
  (forall m' x', quiet ∅ m m' -> b_rep x' (k_upd n (f (k_get n k)) k) ->
     wp P K (m', mkFs x' (icache s)) Q) ->
  wp P (on_blk (b_modify i f);; on_blk (b_log i);; on_blk (b_rel i);; K) (m, s) Q.
Proof.
  intros Hm HR Hh Hlo Hf Hlax HQ.
  assert (wp P (on_blk (b_modify i f;; b_log i;; b_rel i);; K) (m, s) Q ->
    wp P (on_blk (b_modify i f);; on_blk (b_log i);; on_blk (b_rel i);; K) (m, s) Q) as Hassoc.
  { unfold on_blk, part, zoom, wp, mbind, M_bind. cbn. destruct (b_modify i f _) as [? [m1 x1]| |]; [|done..]. cbn.
    destruct (b_log i _) as [? [m2 x2]| |]; [|done..]. cbn. by destruct (b_rel i _) as [? [m3 x3]| |]. }
  apply Hassoc. wp_next. apply wp_on_blk, wp_unit_tail, wp_assoc3, (wp_store _ _ k _ n); [done..|].
  intros m' x' Hm' R'. by apply wp_ret, HQ.
Qed.

(** A function that ends with the update. *)
Lemma fwp_unit_tail m s i f Q :
  wp P (on_blk (b_modify i f);; on_blk (b_log i);; on_blk (b_rel i);; mret tt) (m, s) Q ->
  wp P (on_blk (b_modify i f);; on_blk (b_log i);; on_blk (b_rel i)) (m, s) Q.
Proof.
  unfold wp, mbind, M_bind. destruct (on_blk (b_modify i f) (m, s)) as [? s1| |]; [|done..].
  destruct (on_blk (b_log i) s1) as [? s2| |]; [|done..]. by destruct (on_blk (b_rel i) s2) as [[] ?| |].
Qed.

Lemma wp_iread {A} (f : inode -> A) ip i m s (Q : A -> mach * fs X -> Prop) :
  icache s !! ip = Some i -> Q (f i) (m, s) -> wp P (iread f ip) (m, s) Q.
Proof.
  intros Hi HQ. unfold iread. apply wp_data, wp_gets. unfold inode_at. by rewrite Hi.
Qed.

Lemma wp_iset f ip i m s Q : icache s !! ip = Some i ->
  Q tt (m, mkFs (fblk s) (<[ip := f i]> (icache s))) -> wp P (iset f ip) (m, s) Q.
Proof.
  intros Hi HQ. unfold iset. apply wp_data, wp_modify. unfold upd_inode. by rewrite (alter_insert_at _ _ _ _ Hi).
Qed.

Record file_st s k (ip : nat) (i : inode) : Prop := mkFst {
  fs_rep : b_rep (fblk s) k;
  fs_geom : geom sb k;
  fs_meta : meta_used sb (k_data k);
  fs_held : k_held k = ∅;
  fs_in : icache s !! ip = Some i;
  fs_dev : i_dev i = 1;
  fs_file : file_ok sb (k_data k) (addrs i) }.

Lemma no_held k n : k_held k = ∅ -> k_held k !! n = None /\ one_held k /\ held_ok sb k.
Proof.
  intros E. unfold one_held, held_ok. rewrite E. split; [apply lookup_empty|].
  split; [rewrite map_size_empty; lia|]. intros n'. by rewrite lookup_empty.
Qed.

Lemma same_held k k' : same_blocks k k' -> k_held k = ∅ -> k_held k' = ∅.
Proof. intros (E & _) H. by rewrite E. Qed.

(** *** bmap *)

Lemma wp_addr_alloc T m s k ip i j Q :
  msec ∅ m -> file_st s k ip i -> (forall n, is_bm sb n -> n ∈ T) ->
  (default 0 (addrs i !! j) = 0 -> poor sb T 1 1 k -> lax P) ->
  (default 0 (addrs i !! j) ≠ 0 -> Q (default 0 (addrs i !! j)) (m, s)) ->
  (forall b m' x', quiet ∅ m m' -> default 0 (addrs i !! j) = 0 ->
     data0 sb <= b < sb_size sb -> used sb (k_data k) b = false -> b_rep x' (k_alloc sb b k) ->
     Q b (m', mkFs x' (<[ip := with_addrs (<[j := b]> (addrs i)) i]> (icache s)))) ->
  wp P (addr_alloc sb ip j) (m, s) Q.
Proof.
  intros Hm [] HT Hlax HQ1 HQ2. unfold addr_alloc, addr_at. wp_next. apply (wp_iread _ _ i); [done|].
  fold (addrs i). destruct (_ =? 0) eqn:E; [|apply wp_ret, HQ1; lia].
  destruct (no_held k 0 fs_held0) as (_ & H1 & H2).
  wp_next. apply (wp_iread _ _ i); [done|]. rewrite fs_dev0. wp_next. apply wp_on_blk.
  apply (wp_balloc sb P T _ _ k); try done; [intros; apply Hlax; [lia|done]|]. intros b m1 x1 Hm1 Hb Hu R1. cbn [fst snd]. wp_next.
  apply (wp_iset _ _ i); [done|]. apply wp_ret. cbn [fblk icache]. apply HQ2; [done|lia|done|done|done].
Qed.

Lemma data0_pos k : geom sb k -> 0 <= data0 sb.
Proof. intros G. pose proof (geom_order sb k G). lia. Qed.

Lemma file_st_alloc s k ip i b x' l' :
  file_st s k ip i -> 0 <= b < sb_size sb -> b_rep x' (k_alloc sb b k) ->
  turned sb (k_data k) (addrs i) (k_data (k_alloc sb b k)) l' (fbyte (k_data k) (addrs i)) ->
  file_st (mkFs x' (<[ip := with_addrs l' i]> (icache s))) (k_alloc sb b k) ip (with_addrs l' i).
Proof.
  intros [] Hb HR T. constructor; try done.
  - by apply geom_alloc.
  - intros c Hc. apply T; [|by apply fs_meta0]. pose proof (g_data _ _ fs_geom0). lia.
  - apply list_lookup_insert_eq. by eapply lookup_lt_Some.
  - apply T.
Qed.

(** The inode and the disk after an operation on the file, which has the
    bytes [g] then. *)
Record mapped_st (T : gset Z) (c f : nat) (m : mach) s k ip i (m' : mach) s' k' (l' : list Z) (g : Z -> Z) : Prop := mkMapped {
  ms_quiet : quiet ∅ m m';
  ms_st : file_st s' k' ip (with_addrs l' i);
  ms_ic : icache s' = <[ip := with_addrs l' i]> (icache s);
  ms_same : same_blocks k k';
  ms_spent : spent sb T c f k k';
  ms_turned : turned sb (k_data k) (addrs i) (k_data k') l' g }.

Lemma mapped_file T c f m s k ip i m' x' k' g :
  quiet ∅ m m' -> file_st s k ip i -> b_rep x' k' -> geom sb k' -> same_blocks k k' -> spent sb T c f k k' ->
  turned sb (k_data k) (addrs i) (k_data k') (addrs i) g ->
  mapped_st T c f m s k ip i m' (mkFs x' (icache s)) k' (addrs i) g.
Proof.
  intros Hm [] HR G Hs Hc HT. pose proof Hs as (Hh & _). constructor; try done.
  - rewrite with_addrs_id. constructor; try done; [|by rewrite Hh|apply HT].
    intros c' Hc'. apply HT; [|by apply fs_meta0]. pose proof (g_data _ _ fs_geom0). lia.
  - rewrite with_addrs_id. symmetry. by apply list_insert_id.
Qed.

Lemma mapped_same T m s k ip i m' x' : quiet ∅ m m' -> file_st s k ip i -> b_rep x' k ->
  mapped_st T 0 0 m s k ip i m' (mkFs x' (icache s)) k (addrs i) (fbyte (k_data k) (addrs i)).
Proof.
  intros Hm F HR. pose proof F as []. apply mapped_file; try done; [apply spent_refl|by apply turned_refl].
Qed.

Lemma mapped_mono T c f c' f' m s k ip i m' s' k' l' g :
  mapped_st T c f m s k ip i m' s' k' l' g -> (c <= c')%nat -> (f <= f')%nat ->
  mapped_st T c' f' m s k ip i m' s' k' l' g.
Proof. intros [] Hc Hf. constructor; try done. by eapply spent_mono. Qed.

(** The result of [bmap]; nothing changes if the block was there. *)
Definition bmap_post T c f bn m s k ip i (Q : Z -> mach * fs X -> Prop) : Prop :=
  forall a m' s' k' l', mapped_st T c f m s k ip i m' s' k' l' (fbyte (k_data k) (addrs i)) ->
    nth_addr (k_data k') l' bn = a -> a ≠ 0 ->
    (nth_addr (k_data k) (addrs i) bn ≠ 0 -> k' = k /\ l' = addrs i) -> Q a (m', s').

(** The part of [bmap] after the indirect block is there. *)
Lemma wp_bmap_entry T m s k ip i bn n Q :
  msec ∅ m -> file_st s k ip i -> NDIRECT <= bn < MAXFILE -> n = ind (addrs i) -> n ≠ 0 ->
  (forall n, is_bm sb n -> n ∈ T) -> (k_full k -> lax P) ->
  (nth_addr (k_data k) (addrs i) bn = 0 -> poor sb T 2 1 k -> lax P) -> bmap_post T 2 1 bn m s k ip i Q ->
  wp P (dev ← iread i_dev ip;
        bp ← on_blk (b_read dev n);
        d ← on_blk (b_data bp);
        let a := getu32 d (Z.to_nat (4 * (bn - NDIRECT))) in
        if a =? 0 then
          a ← on_blk (balloc sb dev);
          on_blk (b_modify bp (put32 (Z.to_nat (4 * (bn - NDIRECT))) a));;
          on_blk (b_log bp);;
          on_blk (b_rel bp);;
          mret a
        else
          on_blk (b_rel bp);;
          mret a) (m, s) Q.
Proof.
  intros Hm F Hbn -> Hi HT Hfull Hlax HQ. pose proof F as []. wp_next. apply (wp_iread _ _ i); [done|]. rewrite fs_dev0.
  set (n := ind (addrs i)) in *. set (o := Z.to_nat _).
  assert (live sb (k_data k) n) as Li by (by apply (fo_lay _ _ _ fs_file0)).
  destruct (geom_data sb k n fs_geom0 (proj1 Li)) as (Hr & Hlo & Hbm).
  destruct (no_held k n fs_held0) as (Hn & H1 & Hok).
  apply (fwp_open _ _ k); [done..|]. intros bp m1 x1 Hm1 R1.
  apply (fwp_look _ _ k n); [done|]. cbv zeta.
  assert (nth_addr (k_data k) (addrs i) bn = getu32 (k_get n k) o) as Haddr.
  { unfold nth_addr. replace (bn <? NDIRECT) with false by lia. fold n. by replace (n =? 0) with false by lia. }
  rewrite <- Haddr. destruct (nth_addr _ _ bn =? 0) eqn:E.
  - wp_next. apply wp_on_blk. cbn [fblk].
    apply (wp_balloc sb P T _ _ (k_hold n bp true k)); [apply Hm1|done| |done| | |done| |].
    { destruct fs_geom0. by constructor. }
    { intros n'. cbn. rewrite fs_held0. destruct (decide (n' = n)) as [->|]; [by intros _|].
      rewrite lookup_insert_ne by done. by rewrite lookup_empty. }
    { unfold one_held. cbn. rewrite fs_held0. by rewrite insert_empty, map_size_singleton. }
    { intros Hp. apply Hlax; [lia|]. by apply (poor_mono sb T 1 1 2 1) in Hp; [|lia..]. }
    intros b m2 x2 Hm2 Hb Hu R2. change (k_data (k_hold n bp true k)) with (k_data k) in Hu.
    change (k_alloc sb b (k_hold n bp true k)) with (k_hold n bp true (k_alloc sb b k)) in R2.
    cbn [fst snd]. destruct (turned_entry sb k (addrs i) b fs_geom0 fs_file0 Hb Hu bn Hbn Hi) as [HTu Hab]; [lia|].
    pose proof (spent_alloc sb T k b fs_geom0 Hb Hu HT) as Hs1.
    assert (0 <= b < sb_size sb) as Hb0 by (pose proof (geom_order sb k fs_geom0); lia).
    pose proof (geom_alloc sb k b fs_geom0 Hb0) as G1.
    assert (length (put32 o b (k_get n (k_alloc sb b k))) = Z.to_nat BSIZE) as Hlen.
    { rewrite length_put32. apply k_get_len; [apply G1|]. by destruct (geom_data sb _ n G1 (proj1 Li)). }
    apply (fwp_store _ _ (k_alloc sb b k) n bp); [apply Hm2|done|done|done|done| |].
    { intros Hf. apply Hlax; [lia|]. apply (spent_poor sb T 1 1 1 0 _ _ Hs1). left. by apply full_short. }
    intros m3 x3 Hm3 R3. apply wp_ret.
    apply (HQ b m3 _ (k_upd n (put32 o b (k_get n (k_alloc sb b k))) (k_alloc sb b k)) (addrs i)); [|done| |lia].
    + apply (mapped_file T 2 1 m s); [do 2 (eapply quiet_trans; [done|]); done|done|done|by apply geom_upd| | |done].
      * etrans; [apply same_alloc|apply same_blocks_upd].
      * apply (spent_trans sb T 1 1 1 0 _ _ _ Hs1). apply spent_data; [done|lia|done].
    + pose proof (geom_order sb k fs_geom0). lia.
  - apply (fwp_close _ _ k n); [apply Hm1|done|done|]. intros m2 x2 Hm2 R2. apply wp_ret.
    apply (HQ _ m2 _ k (addrs i)); [|done|lia|done].
    apply (mapped_mono T 0 0); [|lia..]. apply (mapped_same T m s); [by eapply quiet_trans|done|done].
Qed.

Lemma mapped_ext T c f m s k ip i m' s' k' l' g g' :
  (forall off, off_ok off -> g off = g' off) ->
  mapped_st T c f m s k ip i m' s' k' l' g -> mapped_st T c f m s k ip i m' s' k' l' g'.
Proof. intros E []. constructor; try done. by eapply turned_ext. Qed.

Lemma mapped_trans T c f c' f' m s k ip i m1 s1 k1 l1 g1 m2 s2 k2 l2 g2 :
  file_st s k ip i -> mapped_st T c f m s k ip i m1 s1 k1 l1 g1 ->
  mapped_st T c' f' m1 s1 k1 ip (with_addrs l1 i) m2 s2 k2 l2 g2 ->
  mapped_st T (c + c') (f + f') m s k ip i m2 s2 k2 l2 g2.
Proof.
  intros F [Q1 S1 I1 E1 C1 T1] [Q2 S2 I2 E2 C2 T2]. constructor.
  - by eapply quiet_trans.
  - exact S2.
  - rewrite I2, I1, list_insert_insert_eq. done.
  - by etrans.
  - by eapply spent_trans.
  - eapply turned_trans; [apply (data0_pos k), F|apply F|exact T1|exact T2].
Qed.

(** After a block was allocated and put into the inode. *)
Lemma mapped_alloc T m s k ip i b m' x' l' :
  quiet ∅ m m' -> file_st s k ip i -> data0 sb <= b < sb_size sb -> used sb (k_data k) b = false ->
  (forall n, is_bm sb n -> n ∈ T) -> b_rep x' (k_alloc sb b k) ->
  turned sb (k_data k) (addrs i) (k_data (k_alloc sb b k)) l' (fbyte (k_data k) (addrs i)) ->
  mapped_st T 1 1 m s k ip i m' (mkFs x' (<[ip := with_addrs l' i]> (icache s))) (k_alloc sb b k) l'
    (fbyte (k_data k) (addrs i)).
Proof.
  intros Hm F Hb Hu HT HR Ht. pose proof (data0_pos k (fs_geom _ _ _ _ F)). constructor; try done.
  - apply file_st_alloc; [done|lia|done|done].
  - apply same_alloc.
  - by apply spent_alloc; [apply F|..].
Qed.

(** [bmap] gives the address of block [bn], which is a new block of zeros if
    there was none. *)
Lemma wp_bmap T m s k ip i bn Q :
  msec ∅ m -> file_st s k ip i -> in_file bn -> (forall n, is_bm sb n -> n ∈ T) ->
  (k_full k -> lax P) -> (nth_addr (k_data k) (addrs i) bn = 0 -> poor sb T 3 2 k -> lax P) ->
  bmap_post T 3 2 bn m s k ip i Q ->
  wp P (bmap sb ip bn) (m, s) Q.
Proof.
  intros Hm F Hbn HT Hfull Hlax HQ. pose proof F as []. unfold in_file in Hbn.
  pose proof (geom_order sb k fs_geom0) as Hord.
  unfold bmap. destruct (bn <? NDIRECT) eqn:E.
  - assert (nth_addr (k_data k) (addrs i) bn = default 0 (addrs i !! Z.to_nat bn)) as Ha
      by (unfold nth_addr; by rewrite E).
    apply (wp_addr_alloc T _ _ k _ i); [done|done|done| | |].
    { intros H0 Hp. apply Hlax; [by rewrite Ha|]. eapply poor_mono; [done|lia..]. }
    + intros H0. apply (HQ _ m s k (addrs i)); [|done|done|done].
      apply (mapped_mono T 0 0); [|lia..]. destruct s. apply mapped_same; [by apply quiet_refl|done|done].
    + intros b m1 x1 Hm1 H0 Hb Hu R1.
      destruct (turned_direct sb k (addrs i) b fs_geom0 fs_file0 Hb Hu bn) as [HTu Hab]; [lia|by rewrite Ha|].
      eapply HQ; [|exact Hab|lia|by rewrite Ha].
      apply (mapped_mono T 1 1); [|lia..]. by apply mapped_alloc.
  - replace (bn - NDIRECT <? NINDIRECT) with true by (unfold MAXFILE in *; lia). wp_next.
    assert (NDIRECT <= bn < MAXFILE) as Hbn' by lia.
    assert (ind (addrs i) = 0 -> nth_addr (k_data k) (addrs i) bn = 0) as Hi0
      by (intros H; unfold nth_addr; by rewrite E, H).
    apply (wp_addr_alloc T _ _ k _ i); [done|done|done| | |].
    { intros H0 Hp. apply Hlax; [by apply Hi0|]. eapply poor_mono; [done|lia..]. }
    + intros H0. apply (wp_bmap_entry T _ _ k _ i); [done|done|done|done|done|done|done| |].
      { intros Hz H. apply Hlax; [done|]. eapply poor_mono; [done|lia..]. }
      intros a m' s' k' l' HM. apply HQ. eapply mapped_mono; [done|lia..].
    + intros b m1 x1 Hm1 H0 Hb Hu R1. set (l1 := <[Z.to_nat NDIRECT := b]> (addrs i)).
      assert (mapped_st T 1 1 m s k ip i m1 (mkFs x1 (<[ip := with_addrs l1 i]> (icache s))) (k_alloc sb b k) l1
        (fbyte (k_data k) (addrs i))) as HM1.
      { apply mapped_alloc; [done..|]. by apply turned_ind. }
      assert (ind (addrs (with_addrs l1 i)) = b) as Hind.
      { unfold addrs, with_addrs, l1, ind. cbn. rewrite list_lookup_insert_eq; [done|].
        rewrite (fo_len _ _ _ fs_file0). unfold NDIRECT. lia. }
      apply (wp_bmap_entry T _ _ (k_alloc sb b k) _ (with_addrs l1 i)); [apply Hm1|apply HM1|done|done|lia|done| | |].
      { intros H. apply Hlax; [by apply Hi0|].
        apply (spent_poor sb T 1 1 2 1 _ _ (ms_spent _ _ _ _ _ _ _ _ _ _ _ _ _ HM1)). left. by apply full_short. }
      { intros _ H. apply Hlax; [by apply Hi0|].
        by apply (spent_poor sb T 1 1 2 1 _ _ (ms_spent _ _ _ _ _ _ _ _ _ _ _ _ _ HM1)). }
      intros a m2 s2 k2 l2 HM2 Ha Hne _. apply (HQ a m2 s2 k2 l2); [|done|done|].
      * apply (mapped_trans T 1 1 2 1 _ _ _ _ _ _ _ _ _ _ _ _ _ _ _ F HM1). eapply mapped_ext; [|exact HM2].
        intros off Ho. exact (tu_bytes _ _ _ _ _ _ (ms_turned _ _ _ _ _ _ _ _ _ _ _ _ _ HM1) off Ho).
      * intros Hc. destruct Hc. by apply Hi0.
Qed.

End inode.
