(* ===== verification/FsDinode.v ===== *)
(** * Inodes on the disk: encoding, iupdate

    [put_dinode] and [get_dinode] are inverse; different inodes of a block do
    not overlap. *)

From stdpp Require Import base numbers gmap sets list strings.
From S2P Require Import Prelude CString Spinlock Sleeplock Bio BioRing BioSpec.
From S2P Require Import Log LogSpec Fs FsBlock FsAlloc FsFile FsInode.
Open Scope Z_scope.

(** ** Words *)

Lemma u32_i32 v : u32 (i32 v) = u32 v.
Proof. unfold u32, i32. rewrite Zminus_mod_idemp_l. f_equal. lia. Qed.

Lemma getu32_put o v d : (o + 4 <= length d)%nat -> getu32 (put32 o v d) o = u32 v.
Proof.
  intros Ho. unfold getu32. replace (put32 o v d) with (put32 o (i32 v) d) by (unfold put32; by rewrite u32_i32).
  rewrite get_put32; [apply u32_i32|done|apply i32_range].
Qed.

Lemma length_put16 o v d : length (put16 o v d) = length d.
Proof. unfold put16. by rewrite !length_insert. Qed.

Lemma put16_other o v d j : (j < o \/ o + 2 <= j)%nat -> put16 o v d !! j = d !! j.
Proof. intros Hj. unfold put16. rewrite !list_lookup_insert_ne by lia. done. Qed.

Lemma get16_put o v d : (o + 2 <= length d)%nat -> get16 (put16 o v d) o = v mod 65536.
Proof.
  intros Ho. unfold get16, put16. rewrite (list_lookup_insert_ne _ (o + 1) o) by lia.
  rewrite !list_lookup_insert_eq by (rewrite ?length_insert; lia). simpl.
  pose proof (Z.div_mod (v mod 65536) 256). lia.
Qed.

Lemma i16_mod v : i16 (v mod 65536) = i16 v.
Proof. unfold i16. by rewrite Zplus_mod_idemp_l. Qed.

Lemma i16_small v : -32768 <= v < 32768 -> i16 v = v.
Proof. intros Hv. unfold i16. rewrite Z.mod_small; lia. Qed.

(** Reads depend on their bytes only. *)
Lemma get16_ext d d' o : (forall j, (o <= j < o + 2)%nat -> d !! j = d' !! j) -> get16 d o = get16 d' o.
Proof. intros H. unfold get16. by rewrite !H by lia. Qed.

Lemma getu32_ext d d' o : (forall j, (o <= j < o + 4)%nat -> d !! j = d' !! j) -> getu32 d o = getu32 d' o.
Proof. intros H. unfold getu32, get32. by rewrite !H by lia. Qed.

(** ** The addresses *)

Lemma put_addrs_step o (l d : list Z) n :
  let d' := foldl (fun d k => put32 (o + 4 * k) (default 0 (l !! k)) d) d (seq 0 n) in
  length d' = length d /\ (forall j, (j < o \/ o + 4 * n <= j)%nat -> d' !! j = d !! j) /\
  ((o + 4 * n <= length d)%nat -> forall k, (k < n)%nat -> getu32 d' (o + 4 * k) = u32 (default 0 (l !! k))).
Proof.
  induction n as [|n (IH1 & IH2 & IH3)]; [split; [done|]; split; [done|]; intros _ k Hk; lia|]. cbv zeta. rewrite seq_S, foldl_snoc. simpl plus.
  set (d1 := foldl _ d _) in *. split; [by rewrite length_put32|]. split.
  - intros j Hj. rewrite put32_other by lia. apply IH2. lia.
  - intros Hl k Hk. destruct (decide (k = n)) as [->|].
    + apply getu32_put. lia.
    + rewrite <- IH3 by lia. apply getu32_ext. intros j Hj. apply put32_other. lia.
Qed.

Lemma length_put_addrs o l d : length (put_addrs o l d) = length d.
Proof. apply put_addrs_step. Qed.

Lemma put_addrs_other o l d j : (j < o \/ o + 52 <= j)%nat -> put_addrs o l d !! j = d !! j.
Proof. apply (put_addrs_step o l d 13). Qed.

Lemma get_put_addrs o l d : (o + 52 <= length d)%nat -> length l = 13%nat ->
  Forall (fun v => 0 <= v < 4294967296) l -> get_addrs (put_addrs o l d) o = l.
Proof.
  intros Ho Hl Hr. apply list_eq. intros k. unfold get_addrs. rewrite list_lookup_fmap.
  destruct (decide (k < 13)%nat) as [Hk|Hk].
  - rewrite lookup_seq_lt by done. change (Some (getu32 (put_addrs o l d) (o + 4 * k)) = l !! k). destruct (lookup_lt_is_Some_2 l k) as [v Hv]; [lia|].
    destruct (put_addrs_step o l d 13) as (_ & _ & H). unfold put_addrs. rewrite H by lia. rewrite Hv. simpl.
    rewrite u32_small; [done|]. by apply (Forall_lookup_1 _ _ _ _ Hr Hv).
  - rewrite lookup_seq_ge by lia. simpl. symmetry. apply lookup_ge_None_2. lia.
Qed.

(** ** Inodes *)

(** What fits the fields of [struct dinode]. *)
Record dinode_ok (di : dinode) : Prop := mkDok {
  do_type : -32768 <= d_type di < 32768;
  do_major : -32768 <= d_major di < 32768;
  do_minor : -32768 <= d_minor di < 32768;
  do_nlink : -32768 <= d_nlink di < 32768;
  do_size : 0 <= d_size di < 4294967296;
  do_len : length (d_addrs di) = 13%nat;
  do_addrs : Forall (fun v => 0 <= v < 4294967296) (d_addrs di) }.

Lemma length_put_dinode o di d : length (put_dinode o di d) = length d.
Proof. unfold put_dinode. by rewrite length_put_addrs, length_put32, !length_put16. Qed.

Lemma put_dinode_other o di d j : (j < o \/ o + 64 <= j)%nat -> put_dinode o di d !! j = d !! j.
Proof.
  intros Hj. unfold put_dinode. rewrite put_addrs_other, put32_other by lia. rewrite !put16_other by lia. done.
Qed.

Lemma get_dinode_ext d d' o : (forall j, (o <= j < o + 64)%nat -> d !! j = d' !! j) -> get_dinode d o = get_dinode d' o.
Proof.
  intros H. unfold get_dinode, get_addrs.
  rewrite (get16_ext d d' o), (get16_ext d d' (o + 2)), (get16_ext d d' (o + 4)), (get16_ext d d' (o + 6)),
    (getu32_ext d d' (o + 8)) by (intros; apply H; lia).
  f_equal. apply list_fmap_ext. intros i k Hk. apply lookup_seq in Hk as [-> ?].
  apply getu32_ext. intros j Hj. apply H. lia.
Qed.

(** Reading back an inode. *)
Lemma get_put_dinode o di d : (o + 64 <= length d)%nat -> dinode_ok di -> get_dinode (put_dinode o di d) o = di.
Proof.
  intros Ho []. unfold get_dinode. destruct di as [t ma mi nl sz l]. cbn [d_type d_major d_minor d_nlink d_size d_addrs] in *.
  unfold put_dinode. cbn [d_type d_major d_minor d_nlink d_size d_addrs].
  rewrite get_put_addrs by (rewrite ?length_put32, ?length_put16; done || lia).
  set (d1 := put16 o t d). set (d2 := put16 (o + 2) ma d1). set (d3 := put16 (o + 4) mi d2).
  set (d4 := put16 (o + 6) nl d3). set (d5 := put32 (o + 8) sz d4).
  assert (forall j, (j < o + 12)%nat -> put_addrs (o + 12) l d5 !! j = d5 !! j) as E5
    by (intros; apply put_addrs_other; lia).
  assert (forall j, (j < o + 8)%nat -> d5 !! j = d4 !! j) as E4 by (intros; apply put32_other; lia).
  assert (forall j, (j < o + 6)%nat -> d4 !! j = d3 !! j) as E3 by (intros; apply put16_other; lia).
  assert (forall j, (j < o + 4)%nat -> d3 !! j = d2 !! j) as E2 by (intros; apply put16_other; lia).
  assert (forall j, (j < o + 2)%nat -> d2 !! j = d1 !! j) as E1 by (intros; apply put16_other; lia).
  f_equal.
  - rewrite (get16_ext _ d1) by (intros; rewrite E5, E4, E3, E2, E1 by lia; done).
    unfold d1. rewrite get16_put by lia. rewrite i16_mod. by apply i16_small.
  - rewrite (get16_ext _ d2) by (intros; rewrite E5, E4, E3, E2 by lia; done).
    unfold d2. rewrite get16_put by (unfold d1; rewrite length_put16; lia). rewrite i16_mod. by apply i16_small.
  - rewrite (get16_ext _ d3) by (intros; rewrite E5, E4, E3 by lia; done).
    unfold d3. rewrite get16_put by (unfold d2, d1; rewrite !length_put16; lia). rewrite i16_mod. by apply i16_small.
  - rewrite (get16_ext _ d4) by (intros; rewrite E5, E4 by lia; done).
    unfold d4. rewrite get16_put by (unfold d3, d2, d1; rewrite !length_put16; lia). rewrite i16_mod. by apply i16_small.
  - rewrite (getu32_ext _ d5) by (intros; rewrite E5 by lia; done).
    unfold d5. rewrite getu32_put by (unfold d4, d3, d2, d1; rewrite !length_put16; lia). by apply u32_small.
Qed.

Lemma ioff_bound num : 0 <= num -> (ioff num + 64 <= Z.to_nat BSIZE)%nat.
Proof.
  intros H. unfold ioff, IPB, BSIZE. pose proof (Z.mod_pos_bound num 8 ltac:(lia)). lia.
Qed.

(** Two inodes of one block are apart. *)
Lemma ioff_apart a b : 0 <= a -> 0 <= b -> a / IPB = b / IPB -> a ≠ b ->
  (ioff a + 64 <= ioff b \/ ioff b + 64 <= ioff a)%nat.
Proof.
  intros Ha Hb E Hne. unfold ioff. unfold IPB in *.
  pose proof (Z.div_mod a 8 ltac:(lia)). pose proof (Z.div_mod b 8 ltac:(lia)).
  pose proof (Z.mod_pos_bound a 8 ltac:(lia)). pose proof (Z.mod_pos_bound b 8 ltac:(lia)). lia.
Qed.

Section dinode.
Context (sb : superblock).

(** The inode [num] of the disk. *)
Definition dinode_of (D : list (list Z)) (num : Z) : dinode := get_dinode (blk D (IBLOCK sb num)) (ioff num).

Definition is_inum (num : Z) : Prop := 0 <= num < sb_ninodes sb.

Lemma geom_iblock k num : geom sb k -> is_inum num ->
  sb_inodestart sb <= IBLOCK sb num < sb_bmapstart sb /\ 0 <= IBLOCK sb num < k_size k /\
  ~ (k_lo k <= IBLOCK sb num < k_hi k) /\ ~ is_bm sb (IBLOCK sb num) /\ IBLOCK sb num < data0 sb.
Proof.
  intros G [H1 H2]. pose proof (geom_order sb k G). destruct G. unfold IBLOCK.
  pose proof (Z.div_pos num IPB H1 ltac:(unfold IPB; lia)).
  pose proof (Z.div_le_mono num (sb_ninodes sb - 1) IPB ltac:(unfold IPB; lia) ltac:(lia)). unfold is_bm. lia.
Qed.

(** The disk with the inode [num] replaced. *)
Definition k_iupd (num : Z) (di : dinode) (k : blks) : blks :=
  k_upd (IBLOCK sb num) (put_dinode (ioff num) di (k_get (IBLOCK sb num) k)) k.

Lemma iupd_len num di k : geom sb k -> is_inum num ->
  length (put_dinode (ioff num) di (k_get (IBLOCK sb num) k)) = Z.to_nat BSIZE.
Proof.
  intros G Hn. rewrite length_put_dinode. apply k_get_len; [apply G|]. by destruct (geom_iblock k num G Hn) as (_ & ? & _).
Qed.

Lemma geom_iupd num di k : geom sb k -> is_inum num -> geom sb (k_iupd num di k).
Proof. intros G Hn. apply geom_upd; [done|by apply iupd_len]. Qed.

Lemma blk_iupd num di k n : geom sb k -> is_inum num -> 0 <= n -> n ≠ IBLOCK sb num ->
  blk (k_data (k_iupd num di k)) n = blk (k_data k) n.
Proof.
  intros G Hn H0 Hne. destruct (geom_iblock k num G Hn) as (_ & Hr & _).
  pose proof (k_get_upd (IBLOCK sb num) (put_dinode (ioff num) di (k_get (IBLOCK sb num) k)) k n Hr H0) as E.
  rewrite decide_False in E by done. exact E.
Qed.

Lemma dinode_iupd num di k j : geom sb k -> is_inum num -> is_inum j -> dinode_ok di ->
  dinode_of (k_data (k_iupd num di k)) j = if decide (j = num) then di else dinode_of (k_data k) j.
Proof.
  intros G Hn Hj Hok. destruct (geom_iblock k num G Hn) as (_ & Hr & _). destruct (geom_iblock k j G Hj) as (_ & Hrj & _).
  pose proof (k_get_upd (IBLOCK sb num) (put_dinode (ioff num) di (k_get (IBLOCK sb num) k)) k (IBLOCK sb j) Hr ltac:(lia)) as E.
  unfold dinode_of. change (blk (k_data (k_iupd num di k)) (IBLOCK sb j)) with (k_get (IBLOCK sb j) (k_iupd num di k)).
  unfold k_iupd. rewrite E. unfold is_inum in *. destruct (decide (j = num)) as [->|Hne].
  - rewrite decide_True by done. apply get_put_dinode; [|done].
    rewrite (k_get_len k) by (apply G || done). apply ioff_bound. lia.
  - destruct (decide (IBLOCK sb j = IBLOCK sb num)) as [Eb|]; [|done]. rewrite Eb.
    apply get_dinode_ext. intros t Ht. rewrite put_dinode_other; [done|].
    destruct (ioff_apart num j); [lia|lia|unfold IBLOCK in Eb; lia|done|lia|lia].
Qed.

Lemma used_iupd num di k b : geom sb k -> is_inum num -> 0 <= b < sb_size sb ->
  used sb (k_data (k_iupd num di k)) b = used sb (k_data k) b.
Proof.
  intros G Hn Hb. destruct (geom_iblock k num G Hn) as (_ & Hr & _ & Hbm & _). pose proof (geom_order sb k G).
  apply used_upd_other; [done|done|lia|lia].
Qed.

(** An inode block holds nothing of a file. *)
Lemma iupd_file num di k l : geom sb k -> is_inum num -> file_ok sb (k_data k) l ->
  forall a, owned (k_data k) l a -> blk (k_data (k_iupd num di k)) a = blk (k_data k) a.
Proof.
  intros G Hn F a Ha. destruct (owned_live sb _ _ a F Ha) as [Hd _]. destruct (geom_iblock k num G Hn) as (? & ? & _ & _ & ?).
  apply blk_iupd; [done|done|lia|lia].
Qed.

Lemma iupd_file_ok num di k l : geom sb k -> is_inum num -> file_ok sb (k_data k) l ->
  file_ok sb (k_data (k_iupd num di k)) l.
Proof.
  intros G Hn F. apply (other_ok sb (k_data k)); [by apply iupd_file| |done].
  intros a Ha. destruct (owned_live sb _ _ a F Ha) as [Hd Hu]. pose proof (geom_order sb k G). by rewrite used_iupd by (done || lia).
Qed.

Lemma meta_iupd num di k : geom sb k -> is_inum num -> meta_used sb (k_data k) -> meta_used sb (k_data (k_iupd num di k)).
Proof.
  intros G Hn Hm b Hb. rewrite used_iupd; [by apply Hm|done|done|]. pose proof (g_data _ _ G). lia.
Qed.

End dinode.

Section iupdate.
Context {X : Type} `{BW : BlockLaws X} (sb : superblock) (P : failure -> Prop).
Implicit Types (s : fs X) (k : blks).

Lemma wp_iupdate m s k ip i Q :
  msec ∅ m -> file_st sb s k ip i -> is_inum sb (i_num i) -> (k_full k -> lax P) ->
  (forall m' x', quiet ∅ m m' -> b_rep x' (k_iupd sb (i_num i) (i_d i) k) ->
     file_st sb (mkFs x' (icache s)) (k_iupd sb (i_num i) (i_d i) k) ip i ->
     Q tt (m', mkFs x' (icache s))) ->
  wp P (iupdate sb ip) (m, s) Q.
Proof.
  intros Hm F Hn Hlax HQ. pose proof F as []. destruct (geom_iblock sb k _ fs_geom Hn) as (_ & Hr & Hlo & _).
  destruct (no_held sb k (IBLOCK sb (i_num i)) fs_held) as (Hh & H1 & _).
  unfold iupdate. wp_next. apply (wp_iread _ _ _ i); [done|]. unfold id. rewrite fs_dev.
  apply (fwp_open _ _ _ k); [done..|]. intros bp m1 x1 Hm1 R1. apply fwp_unit_tail.
  apply (fwp_store _ _ _ k (IBLOCK sb (i_num i))); [apply Hm1|done|done|done|by apply iupd_len|done|].
  intros m2 x2 Hm2 R2. apply wp_ret, HQ; [by eapply quiet_trans|done|].
  constructor; try done; [by apply geom_iupd|by apply meta_iupd|by apply iupd_file_ok].
Qed.

End iupdate.
