(* ===== verification/FsRW.v ===== *)
(** * Reading and writing files: readi and writei

    A file is an array of bytes.  [readi] returns those of a range, cut off at
    the end of the file; [writei] replaces those of a range and moves the end. *)

From stdpp Require Import base numbers gmap sets list strings.
From S2P Require Import Prelude CString Spinlock Sleeplock Bio BioRing BioSpec.
From S2P Require Import Log LogSpec Fs FsBlock FsAlloc FsFile FsInode FsDinode.
Open Scope Z_scope.

(** [n] bytes of a file. *)
Definition bytes (D : list (list Z)) (l : list Z) (off n : Z) : list Z := fbyte D l <$> seqZ off n.

(** Files have no holes. *)
Definition whole (D : list (list Z)) (l : list Z) (size : Z) : Prop :=
  0 <= size <= MAXFILE * BSIZE /\ forall bn, 0 <= bn -> bn * BSIZE < size -> nth_addr D l bn ≠ 0.

Lemma whole_block D l size off : whole D l size -> 0 <= off < size -> nth_addr D l (off / BSIZE) ≠ 0.
Proof.
  intros [_ H] Ho. apply H; [apply Z.div_pos; unfold BSIZE; lia|].
  pose proof (Z.mul_div_le off BSIZE). unfold BSIZE in *. lia.
Qed.

(** The bytes of one block. *)
Lemma same_block off j : 0 <= off -> 0 <= j -> off mod BSIZE + j < BSIZE ->
  (off + j) / BSIZE = off / BSIZE /\ (off + j) mod BSIZE = off mod BSIZE + j.
Proof.
  intros Ho Hj H. pose proof (Z.div_mod off BSIZE ltac:(unfold BSIZE; lia)) as E.
  pose proof (Z.mod_pos_bound off BSIZE ltac:(unfold BSIZE; lia)).
  replace (off + j) with (off mod BSIZE + j + off / BSIZE * BSIZE) by lia.
  rewrite Z.div_add, Z.mod_add, Z.div_small, Z.mod_small by (unfold BSIZE in *; lia). lia.
Qed.

Lemma bytes_block D l off m : 0 <= off -> 0 <= m -> off mod BSIZE + m <= BSIZE ->
  nth_addr D l (off / BSIZE) ≠ 0 -> length (blk D (nth_addr D l (off / BSIZE))) = Z.to_nat BSIZE ->
  take (Z.to_nat m) (drop (Z.to_nat (off mod BSIZE)) (blk D (nth_addr D l (off / BSIZE)))) = bytes D l off m.
Proof.
  intros Ho Hm Hb Ha Hl. pose proof (Z.mod_pos_bound off BSIZE ltac:(unfold BSIZE; lia)) as Hr.
  apply list_eq. intros j. unfold bytes. rewrite list_lookup_fmap.
  destruct (decide (j < Z.to_nat m)%nat) as [Hj|Hj].
  - rewrite lookup_take_lt, lookup_drop, lookup_seqZ_lt by lia. simpl. unfold fbyte.
    destruct (same_block off (Z.of_nat j)) as [-> ->]; [lia|lia|lia|].
    replace (nth_addr D l (off / BSIZE) =? 0) with false by lia.
    destruct (lookup_lt_is_Some_2 (blk D (nth_addr D l (off / BSIZE))) (Z.to_nat (off mod BSIZE) + j)) as [v Hv]; [lia|].
    replace (Z.to_nat (off mod BSIZE + Z.of_nat j)) with (Z.to_nat (off mod BSIZE) + j)%nat by lia. by rewrite Hv.
  - rewrite lookup_take_ge by lia. rewrite lookup_seqZ_ge by lia. done.
Qed.

Lemma bytes_app D l off n1 n2 : 0 <= n1 -> 0 <= n2 ->
  bytes D l off n1 ++ bytes D l (off + n1) n2 = bytes D l off (n1 + n2).
Proof. intros H1 H2. unfold bytes. by rewrite <- fmap_app, <- seqZ_app. Qed.

Lemma length_bytes D l off n : length (bytes D l off n) = Z.to_nat n.
Proof. unfold bytes. by rewrite length_fmap, length_seqZ. Qed.

(** The part of a transfer that one turn of the loops does. *)
Lemma turn_size tot off n fuel m : 0 <= off -> tot < n -> n - tot + off mod BSIZE <= BSIZE * Z.of_nat (S fuel) ->
  m = Z.min (n - tot) (BSIZE - off mod BSIZE) ->
  0 < m /\ tot + m <= n /\ off mod BSIZE + m <= BSIZE /\
  (tot + m < n -> n - (tot + m) + (off + m) mod BSIZE <= BSIZE * Z.of_nat fuel).
Proof.
  intros Ho Ht Hf ->. pose proof (Z.mod_pos_bound off BSIZE ltac:(unfold BSIZE; lia)) as Hr.
  split; [lia|]. split; [lia|]. split; [lia|]. intros Hlt.
  assert (Z.min (n - tot) (BSIZE - off mod BSIZE) = BSIZE - off mod BSIZE) as -> by lia.
  replace (off + (BSIZE - off mod BSIZE)) with ((off / BSIZE + 1) * BSIZE)
    by (pose proof (Z.div_mod off BSIZE ltac:(unfold BSIZE; lia)); lia).
  rewrite Z.mod_mul by (unfold BSIZE; lia). lia.
Qed.

Lemma copy_fuel_enough off n : 0 <= off -> 0 <= n -> n - 0 + off mod BSIZE <= BSIZE * Z.of_nat (copy_fuel n).
Proof.
  intros Ho Hn. unfold copy_fuel. pose proof (Z.mod_pos_bound off BSIZE ltac:(unfold BSIZE; lia)).
  pose proof (Z.div_mod n BSIZE ltac:(unfold BSIZE; lia)). pose proof (Z.mod_pos_bound n BSIZE ltac:(unfold BSIZE; lia)).
  pose proof (Z.div_pos n BSIZE Hn ltac:(unfold BSIZE; lia)). rewrite Z2Nat.id by lia. lia.
Qed.

Section rw.
Context {X : Type} `{BW : BlockLaws X} (sb : superblock) (P : failure -> Prop).
Implicit Types (s : fs X) (k : blks).

Lemma file_block s k ip i bn : file_st sb s k ip i -> in_file bn -> nth_addr (k_data k) (addrs i) bn ≠ 0 ->
  let a := nth_addr (k_data k) (addrs i) bn in
  0 <= a < k_size k /\ ~ (k_lo k <= a < k_hi k) /\ ~ is_bm sb a /\ length (k_get a k) = Z.to_nat BSIZE.
Proof.
  intros [] Hb H0 a. destruct (owned_live sb _ _ a fs_file) as [Hd _]; [by apply owned_addr|].
  destruct (geom_data sb k a fs_geom Hd) as (H1 & H2 & H3). split; [done|]. split; [done|]. split; [done|].
  apply k_get_len; [apply fs_geom|done].
Qed.

(** *** readi *)

Lemma wp_readi_loop fuel ip i size tot off n out m s k Q :
  msec ∅ m -> file_st sb s k ip i -> whole (k_data k) (addrs i) size ->
  0 <= off -> tot <= n -> off + (n - tot) <= size ->
  (tot < n -> n - tot + off mod BSIZE <= BSIZE * Z.of_nat fuel) -> (k_full k -> lax P) ->
  (forall m' x', quiet ∅ m m' -> b_rep x' k ->
     Q (out ++ bytes (k_data k) (addrs i) off (n - tot)) (m', mkFs x' (icache s))) ->
  wp P (readi_loop sb fuel ip tot off n out) (m, s) Q.
Proof.
  revert tot off out m s. induction fuel as [|fuel IH]; intros tot off out m s Hm F W Ho Ht Hs Hf Hlax HQ;
    cbn [readi_loop].
  { pose proof (Z.mod_pos_bound off BSIZE ltac:(unfold BSIZE; lia)).
    assert (tot = n) as -> by (destruct (decide (tot < n)); [specialize (Hf ltac:(done)); lia|lia]).
    specialize (HQ m (fblk s) (quiet_refl _ _ Hm) (fs_rep _ _ _ _ _ F)). rewrite Z.sub_diag in HQ. cbn in HQ.
    rewrite app_nil_r in HQ. by destruct s. }
  destruct (tot <? n) eqn:E.
  2:{ assert (tot = n) as -> by lia. specialize (HQ m (fblk s) (quiet_refl _ _ Hm) (fs_rep _ _ _ _ _ F)).
      rewrite Z.sub_diag in HQ. cbn in HQ. rewrite app_nil_r in HQ. by destruct s. }
  assert (nth_addr (k_data k) (addrs i) (off / BSIZE) ≠ 0) as Ha by (apply (whole_block _ _ size); [done|lia]).
  assert (in_file (off / BSIZE)) as Hin by (apply off_block; unfold off_ok; destruct W; lia).
  wp_next. apply (wp_bmap sb P (bm_set sb) _ _ k _ i);
    [done|done|done|apply elem_bm_set|done|by intros|].
  intros a m1 s1 k1 l1 HM Haddr _ Hkeep. destruct (Hkeep Ha) as [-> ->].
  destruct HM as [Hm1 F1 Hic _ _ _]. rewrite with_addrs_id in F1.
  rewrite with_addrs_id, list_insert_id in Hic by apply F.
  wp_next. apply (wp_iread _ _ _ i); [apply F1|]. rewrite (fs_dev _ _ _ _ _ F).
  destruct (file_block _ _ _ _ _ F Hin Ha) as (Hr & Hlo & Hbm & Hlen). rewrite Haddr in *.
  destruct (no_held sb k a (fs_held _ _ _ _ _ F)) as (Hn & H1 & _).
  apply (fwp_open _ _ _ k); [apply Hm1|apply F1|done|done|done|done|]. intros bp m2 x2 Hm2 R2. cbv zeta.
  apply (fwp_look _ _ _ k a); [done|]. apply (fwp_close _ _ _ k a); [apply Hm2|done|done|].
  intros m3 x3 Hm3 R3. cbn [icache]. rewrite Hic.
  destruct (turn_size tot off n fuel _ Ho ltac:(lia) (Hf ltac:(lia)) eq_refl) as (T1 & T2 & T3 & T4).
  set (d := Z.min _ _) in *.
  assert (file_st sb (mkFs x3 (icache s)) k ip i) as F3 by (destruct F; by constructor).
  apply IH; [apply Hm3|done|done|lia|lia|lia|done|done|].
  intros m4 x4 Hm4 R4. cbn [icache]. rewrite <- app_assoc.
  replace (take (Z.to_nat d) (drop (Z.to_nat (off mod BSIZE)) (k_get a k))) with (bytes (k_data k) (addrs i) off d).
  - rewrite bytes_app by lia. replace (d + (n - (tot + d))) with (n - tot) by lia.
    apply HQ; [|done]. do 3 (eapply quiet_trans; [done|]). done.
  - rewrite <- bytes_block; [by rewrite Haddr|done|lia|done|by rewrite Haddr|by rewrite Haddr].
Qed.

Lemma wp_readi devs ip i off n m s k Q :
  msec ∅ m -> file_st sb s k ip i -> d_type (i_d i) ≠ T_DEV ->
  whole (k_data k) (addrs i) (d_size (i_d i)) ->
  0 <= off < 4294967296 -> 0 <= n < 4294967296 -> (k_full k -> lax P) ->
  (d_size (i_d i) < off \/ 4294967296 <= off + n -> Q (-1, []) (m, s)) ->
  (forall m' x', quiet ∅ m m' -> b_rep x' k -> off <= d_size (i_d i) -> off + n < 4294967296 ->
     let c := Z.min n (d_size (i_d i) - off) in
     Q (c, bytes (k_data k) (addrs i) off c) (m', mkFs x' (icache s))) ->
  wp P (readi sb devs ip off n) (m, s) Q.
Proof.
  intros Hm F Ht W Ho Hn Hlax HQ1 HQ2. unfold readi. wp_next. apply (wp_iread _ _ _ i); [apply F|]. unfold id.
  replace (d_type (i_d i) =? T_DEV) with false by lia. set (size := d_size (i_d i)) in *. pose proof W as [Hsz _].
  assert (MAXFILE * BSIZE = 71680) as Hmax by done.
  destruct (off >? size) eqn:E1; [apply wp_ret, HQ1; lia|]. cbn [orb].
  destruct (decide (off + n < 4294967296)) as [Hlt|Hge].
  2:{ assert (u32 (off + n) = off + n - 4294967296) as ->.
      { unfold u32. rewrite <- (Z.mod_small (off + n - 4294967296) 4294967296) by lia.
        rewrite <- (Z.mod_add (off + n - 4294967296) 1) by lia. f_equal. lia. }
      replace (off + n - 4294967296 <? off) with true by lia. apply wp_ret, HQ1. lia. }
  rewrite u32_small by lia. replace (off + n <? off) with false by lia.
  assert ((if off + n >? size then size - off else n) = Z.min n (size - off)) as ->
    by (destruct (off + n >? size) eqn:E2; lia).
  set (c := Z.min n (size - off)) in *. wp_next.
  apply (wp_readi_loop _ _ i size _ _ _ _ _ _ k); [done|done|done|lia|lia|lia| |done|].
  { intros _. apply copy_fuel_enough; lia. }
  intros m' x' Hm' R'. apply wp_ret. rewrite Z.sub_0_r, i32_small by lia. cbn [app].
  apply HQ2; [done|done|lia|done].
Qed.

(** *** writei *)

End rw.

(** The bytes [g] with [src] written at [off]. *)
Definition over (off : Z) (src : list Z) (g : Z -> Z) : Z -> Z := fun o =>
  if decide (off <= o < off + Z.of_nat (length src)) then default 0 (src !! Z.to_nat (o - off)) else g o.

Lemma over_nil off g o : over off [] g o = g o.
Proof. unfold over. rewrite decide_False; [done|]. simpl. lia. Qed.

Lemma over_app off s1 s2 g o :
  over (off + Z.of_nat (length s1)) s2 (over off s1 g) o = over off (s1 ++ s2) g o.
Proof.
  unfold over. rewrite length_app. 
  destruct (decide (off <= o < off + Z.of_nat (length s1))) as [H1|H1].
  - rewrite decide_False, decide_True by lia. by rewrite lookup_app_l by lia.
  - destruct (decide (off + Z.of_nat (length s1) <= o < off + Z.of_nat (length s1) + Z.of_nat (length s2))) as [H2|H2].
    + rewrite decide_True by lia. rewrite lookup_app_r by lia. do 2 f_equal. lia.
    + by rewrite decide_False by lia.
Qed.

Lemma length_splice o s d : (o + length s <= length d)%nat -> length (splice o s d) = length d.
Proof. intros H. unfold splice. rewrite !length_app, length_take, length_drop. lia. Qed.

Lemma lookup_splice o s d j : (o + length s <= length d)%nat ->
  splice o s d !! j = if decide (o <= j < o + length s)%nat then s !! (j - o)%nat else d !! j.
Proof.
  intros H. unfold splice. destruct (decide (j < o)%nat).
  - rewrite decide_False by lia. rewrite lookup_app_l by (rewrite length_take; lia). by rewrite lookup_take_lt by lia.
  - rewrite lookup_app_r by (rewrite length_take; lia). rewrite length_take_le by lia.
    destruct (decide (j < o + length s)%nat).
    + rewrite decide_True by lia. by rewrite lookup_app_l by lia.
    + rewrite decide_False by lia. rewrite lookup_app_r by lia. rewrite lookup_drop. f_equal. lia.
Qed.

Section store.
Context (sb : superblock) (k : blks) (l : list Z) (bn : Z) (d' : list Z).
Context (G : geom sb k) (F : file_ok sb (k_data k) l) (Hbn : in_file bn).
Let D := k_data k.
Let a := nth_addr D l bn.
Context (Ha : a ≠ 0).

Lemma store_facts : live sb D a /\ 0 <= a < sb_size sb /\ 0 <= a < k_size k /\ ~ is_bm sb a /\ a ≠ ind l.
Proof.
  assert (live sb D a) as La by (apply (owned_live sb D l); [done|by apply owned_addr]).
  destruct (live_not_bm sb k G a La). destruct (geom_data sb k a G (proj1 La)) as (? & _).
  split; [done|]. split; [done|]. split; [done|]. split; [done|]. by apply (fo_lay _ _ _ F).
Qed.

(** A block of a file replaced. *)
Lemma turned_store :
  turned sb D l (bput a d' D) l
    (fun o => if decide (o / BSIZE = bn) then default 0 (d' !! Z.to_nat (o mod BSIZE)) else fbyte D l o).
Proof.
  destruct store_facts as (La & Hr & Hrk & Hbm & Hai). pose proof (geom_order sb k G) as Hord.
  assert (forall n, 0 <= n -> blk (bput a d' D) n = if decide (n = a) then d' else blk D n) as Hblk
    by (intros; by apply blk_bput).
  assert (forall bn', nth_addr (bput a d' D) l bn' = nth_addr D l bn') as Haddr.
  { intros bn'. apply nth_addr_ext. intros Hi. assert (live sb D (ind l)) as [Hd _] by (by apply (fo_lay _ _ _ F)).
    rewrite Hblk by lia. by rewrite decide_False. }
  assert (forall b, 0 <= b < sb_size sb -> used sb (bput a d' D) b = used sb D b) as Hused
    by (intros; apply used_upd_other; [done|done|lia|lia]).
  assert (forall b, owned (bput a d' D) l b <-> owned D l b) as Hown
    by (intros b; unfold owned; by setoid_rewrite Haddr).
  assert (forall b, live sb D b -> live sb (bput a d' D) b) as Hlive.
  { intros b Hb. destruct (live_not_bm sb k G b Hb) as [Hb2 _]. destruct Hb. split; [done|]. by rewrite Hused. }
  constructor.
  - split; [apply F|]. apply (layout_ext _ (nth_addr D l)); [done|]. destruct F as [_ []]. constructor; try done.
    + intros bn' H1 H2. by apply Hlive, lo_used.
    + intros H. by apply Hlive, lo_ind.
  - intros off Ho. unfold fbyte. rewrite Haddr. pose proof (off_block off Ho) as Hin.
    destruct (decide (off / BSIZE = bn)) as [->|Hne].
    + fold a. replace (a =? 0) with false by lia. rewrite Hblk by lia. by rewrite decide_True.
    + destruct (nth_addr D l (off / BSIZE) =? 0) eqn:E; [done|].
      assert (live sb D (nth_addr D l (off / BSIZE))) as [Hd _]
        by (apply (owned_live sb D l); [done|apply owned_addr; [done|lia]]).
      rewrite Hblk by lia. rewrite decide_False; [done|]. intros Heq. apply Hne.
      apply (lo_inj _ _ _ (fo_lay _ _ _ F)); [done|done|done|fold D; lia].
  - intros bn' _ _. apply Haddr.
  - intros b Hb. by apply Hown.
  - intros b Hb. left. by apply Hown.
  - intros b Hb Hu. by rewrite Hused.
  - intros b Hb Hu. rewrite Hused in Hu by done. by left.
  - intros n Hn _ _ Ho. rewrite Hblk by lia. rewrite decide_False; [done|]. intros ->. apply Ho. by apply owned_addr.
Qed.

End store.

(** The stored block seen as bytes of the file. *)
Lemma over_block D l off chunk o :
  0 <= off -> 0 <= o -> off mod BSIZE + Z.of_nat (length chunk) <= BSIZE ->
  let a := nth_addr D l (off / BSIZE) in
  a ≠ 0 -> length (blk D a) = Z.to_nat BSIZE ->
  (if decide (o / BSIZE = off / BSIZE)
   then default 0 (splice (Z.to_nat (off mod BSIZE)) chunk (blk D a) !! Z.to_nat (o mod BSIZE))
   else fbyte D l o) = over off chunk (fbyte D l) o.
Proof.
  intros Ho Ho2 Hc a Ha Hl. pose proof (Z.mod_pos_bound off BSIZE ltac:(unfold BSIZE; lia)) as Hr.
  pose proof (Z.mod_pos_bound o BSIZE ltac:(unfold BSIZE; lia)) as Hr2.
  pose proof (Z.div_mod o BSIZE ltac:(unfold BSIZE; lia)) as E2.
  pose proof (Z.div_mod off BSIZE ltac:(unfold BSIZE; lia)) as E1. unfold over.
  destruct (decide (o / BSIZE = off / BSIZE)) as [E|E].
  - rewrite lookup_splice by lia. rewrite E in E2.
    destruct (decide (off <= o < off + Z.of_nat (length chunk))) as [H|H].
    + rewrite decide_True by lia. do 2 f_equal. lia.
    + rewrite decide_False by lia. unfold fbyte. rewrite E. fold a. by replace (a =? 0) with false by lia.
  - rewrite decide_False; [done|]. intros H.
    destruct (same_block off (o - off)) as [E3 _]; [lia|lia|lia|]. apply E. rewrite <- E3. f_equal. lia.
Qed.

Section write.
Context {X : Type} `{BW : BlockLaws X} (sb : superblock) (P : failure -> Prop).
Implicit Types (s : fs X) (k : blks).

(** One turn of the loop of [writei]. *)
Lemma wp_write_block {A} T ip i off chunk m s k (K : M (mach * fs X) A) Q :
  msec ∅ m -> file_st sb s k ip i -> off_ok off -> off mod BSIZE + Z.of_nat (length chunk) <= BSIZE ->
  (forall n, is_bm sb n -> n ∈ T) -> (poor sb T 4 2 k -> lax P) ->
  (forall m' s' k' l', mapped_st sb T 4 2 m s k ip i m' s' k' l' (over off chunk (fbyte (k_data k) (addrs i))) ->
     nth_addr (k_data k') l' (off / BSIZE) ≠ 0 ->
     (nth_addr (k_data k) (addrs i) (off / BSIZE) ≠ 0 -> l' = addrs i) -> wp P K (m', s') Q) ->
  wp P (addr ← bmap sb ip (off / BSIZE);
        dev ← iread i_dev ip;
        bp ← on_blk (b_read dev addr);
        on_blk (b_modify bp (splice (Z.to_nat (off mod BSIZE)) chunk));;
        on_blk (b_log bp);;
        on_blk (b_rel bp);; K) (m, s) Q.
Proof.
  intros Hm F Ho Hc HT Hlax HQ. pose proof (off_block off Ho) as Hin. wp_next.
  apply (wp_bmap sb P T _ _ k _ i); [done|done|done|done| | |].
  { intros H. apply Hlax. left. by apply full_short. }
  { intros _ H. apply Hlax. eapply poor_mono; [done|lia..]. }
  intros a m1 s1 k1 l1 HM Haddr Ha Hkeep. pose proof HM as [Hm1 F1 Hic HS1 Hsp1 HT1].
  wp_next. apply (wp_iread _ _ _ (with_addrs l1 i)); [apply F1|]. rewrite (fs_dev _ _ _ _ _ F1).
  change l1 with (addrs (with_addrs l1 i)) in Haddr. rewrite <- Haddr in Ha.
  destruct (file_block sb _ _ _ _ _ F1 Hin Ha) as (Hr & Hlo & Hbm & Hlen). cbv zeta in Hr, Hlo, Hbm, Hlen.
  rewrite Haddr in *. destruct (no_held sb k1 a (fs_held _ _ _ _ _ F1)) as (Hn & H1 & _).
  assert (k_full k1 -> lax P) as Hfull.
  { intros H. apply Hlax, (spent_poor sb T 3 2 1 0 _ _ Hsp1). left. by apply full_short. }
  apply (fwp_open _ _ _ k1); [apply Hm1|apply F1|done|done|done|done|]. intros bp m2 x2 Hm2 R2.
  pose proof (Z.mod_pos_bound off BSIZE ltac:(unfold BSIZE; lia)) as Hmod.
  assert (length (splice (Z.to_nat (off mod BSIZE)) chunk (k_get a k1)) = Z.to_nat BSIZE) as Hlen2
    by (rewrite length_splice; lia).
  apply (fwp_store _ _ _ k1 a); [apply Hm2|done|done|done|done|done|].
  intros m3 x3 Hm3 R3. cbn [icache]. set (k2 := k_upd a _ k1) in *.
  pose proof (turned_store sb k1 l1 (off / BSIZE) (splice (Z.to_nat (off mod BSIZE)) chunk (k_get a k1))
    (fs_geom _ _ _ _ _ F1) (fs_file _ _ _ _ _ F1) Hin) as HTs.
  change (nth_addr (k_data k1) l1 (off / BSIZE)) with (nth_addr (k_data k1) (addrs (with_addrs l1 i)) (off / BSIZE)) in HTs.
  rewrite Haddr in HTs. specialize (HTs Ha).
  apply (HQ m3 _ k2 l1).
  - apply (mapped_ext sb T 4 2 _ _ _ _ _ _ _ _ _ (over off chunk (fbyte (k_data k1) l1))).
    { intros o Hoo. unfold over. destruct (decide _); [done|]. exact (tu_bytes _ _ _ _ _ _ HT1 o Hoo). }
    apply (mapped_trans sb T 3 2 1 0 _ _ _ _ _ _ _ _ _ _ _ _ _ _ _ F HM).
    apply (mapped_file sb T 1 0 m1 s1 k1 ip (with_addrs l1 i)); [by eapply quiet_trans|done|done| | | |].
    + apply geom_upd; [apply F1|done].
    + apply same_blocks_upd.
    + apply spent_data; [apply F1|lia|done].
    + eapply turned_ext; [|exact HTs]. intros o [Hoo _]. cbv beta.
      change (blk (k_data k1) a) with (k_get a k1). rewrite <- Haddr in Hlen, Ha |- *.
      apply over_block; [unfold off_ok in Ho; lia|done|done|done|done].
  - assert (nth_addr (k_data k1) l1 (off / BSIZE) = a) as Hal by exact Haddr.
    rewrite (tu_addr _ _ _ _ _ _ HTs); [by rewrite Hal|done|by rewrite Hal].
  - intros H. by destruct (Hkeep H).
Qed.

(** The blocks of a range are there. *)
Definition covered (D : list (list Z)) (l : list Z) (off n : Z) : Prop :=
  forall o, off <= o < off + n -> nth_addr D l (o / BSIZE) ≠ 0.

(** What [writei_loop] leaves after writing [src]. *)
Definition wrote_range (T : gset Z) (c f : nat) m s k ip i off (src : list Z) m' s' k' l' : Prop :=
  mapped_st sb T c f m s k ip i m' s' k' l' (over off src (fbyte (k_data k) (addrs i))) /\
  covered (k_data k') l' off (Z.of_nat (length src)) /\
  (covered (k_data k) (addrs i) off (Z.of_nat (length src)) -> l' = addrs i).

Lemma wrote_nil T c f m s k ip i off : msec ∅ m -> file_st sb s k ip i ->
  wrote_range T c f m s k ip i off [] m s k (addrs i).
Proof.
  intros Hm F. split; [|split; [intros o; simpl; lia|done]]. apply (mapped_mono sb T 0 0); [|lia..].
  apply (mapped_ext sb T 0 0 _ _ _ _ _ _ _ _ _ (fbyte (k_data k) (addrs i))).
  - intros o _. symmetry. apply over_nil.
  - destruct s. apply mapped_same; [by apply quiet_refl|done|apply F].
Qed.

(** One block, then the rest. *)
Lemma wrote_cons T c f c' f' m s k ip i off (u1 u2 : list Z) m1 st1 k1 l1 m2 st2 k2 l2 :
  file_st sb s k ip i -> 0 <= off -> off + Z.of_nat (length (u1 ++ u2)) <= MAXFILE * BSIZE ->
  wrote_range T c f m s k ip i off u1 m1 st1 k1 l1 ->
  wrote_range T c' f' m1 st1 k1 ip (with_addrs l1 i) (off + Z.of_nat (length u1)) u2 m2 st2 k2 l2 ->
  wrote_range T (c + c') (f + f') m s k ip i off (u1 ++ u2) m2 st2 k2 l2.
Proof.
  intros F Ho Hmax (M1 & C1 & K1) (M2 & C2 & K2). change (addrs (with_addrs l1 i)) with l1 in *.
  pose proof (ms_turned _ _ _ _ _ _ _ _ _ _ _ _ _ _ M1) as T1. pose proof (ms_turned _ _ _ _ _ _ _ _ _ _ _ _ _ _ M2) as T2.
  rewrite length_app in *. change (addrs (with_addrs l1 i)) with l1 in *.
  assert (forall o, off <= o < off + Z.of_nat (length u1 + length u2) -> in_file (o / BSIZE)) as Hin
    by (intros o Ho2; apply off_block; unfold off_ok; lia).
  split; [|split].
  - eapply mapped_ext; [|by eapply mapped_trans]. intros o Hoo. rewrite <- over_app.
    pose proof (tu_bytes _ _ _ _ _ _ T1 o Hoo) as E. revert E. generalize (over off u1 (fbyte (k_data k) (addrs i))) as g.
    intros g E. unfold over. by destruct (decide _).
  - intros o Ho2. rewrite length_app in Ho2. destruct (decide (o < off + Z.of_nat (length u1))); [|apply C2; lia].
    rewrite (tu_addr _ _ _ _ _ _ T2); [apply C1; lia|apply Hin; lia|apply C1; lia].
  - intros Hc. rewrite length_app in Hc. assert (l1 = addrs i) as E by (apply K1; intros o Ho2; apply Hc; lia).
    rewrite K2; [done|]. intros o Ho2. rewrite (tu_addr _ _ _ _ _ _ T1); [apply Hc; lia|apply Hin; lia|apply Hc; lia].
Qed.

Lemma wp_writei_loop T fuel ip i tot off n src m s k Q :
  msec ∅ m -> file_st sb s k ip i -> 0 <= off -> tot <= n -> off + (n - tot) <= MAXFILE * BSIZE ->
  n - tot <= Z.of_nat (length src) ->
  (tot < n -> n - tot + off mod BSIZE <= BSIZE * Z.of_nat fuel) ->
  (forall n, is_bm sb n -> n ∈ T) -> (poor sb T (4 * fuel) (2 * fuel) k -> lax P) ->
  (forall m' s' k' l',
     wrote_range T (4 * fuel) (2 * fuel) m s k ip i off (take (Z.to_nat (n - tot)) src) m' s' k' l' ->
     Q (off + (n - tot)) (m', s')) ->
  wp P (writei_loop sb fuel ip tot off n src) (m, s) Q.
Proof.
  revert tot off src m s k i. induction fuel as [|fuel IH];
    intros tot off src m s k i Hm F Ho Ht Hmax Hsrc Hf HT Hlax HQ; cbn [writei_loop];
    pose proof (Z.mod_pos_bound off BSIZE ltac:(unfold BSIZE; lia)) as Hmod;
    (assert (tot = n -> Q off (m, s)) as Hdone;
      [intros ->; specialize (HQ m s k (addrs i)); rewrite Z.sub_diag, Z.add_0_r in HQ; by apply HQ, wrote_nil|]).
  { apply Hdone. destruct (decide (tot < n)); [specialize (Hf ltac:(done)); lia|lia]. }
  destruct (tot <? n) eqn:E; [|apply Hdone; lia]. clear Hdone.
  destruct (turn_size tot off n fuel _ Ho ltac:(lia) (Hf ltac:(lia)) eq_refl) as (T1 & T2 & T3 & T4).
  set (d := Z.min _ _) in *. cbv zeta.
  assert (length (take (Z.to_nat d) src) = Z.to_nat d) as Hlen by (rewrite length_take; lia).
  apply (wp_write_block T _ i _ _ _ _ k); [done|done|unfold off_ok; lia|rewrite Hlen; lia|done| |].
  { intros H. apply Hlax. eapply poor_mono; [done|lia..]. }
  intros m1 s1 k1 l1 HM Ha Hkeep. pose proof HM as [Hm1 F1 _ _ Hsp _].
  assert (wrote_range T 4 2 m s k ip i off (take (Z.to_nat d) src) m1 s1 k1 l1) as W1.
  { split; [done|]. rewrite Hlen. split.
    - intros o Ho2. replace o with (off + (o - off)) by lia.
      destruct (same_block off (o - off)) as [-> _]; [lia|lia|lia|done].
    - intros Hc. apply Hkeep, Hc. lia. }
  apply (IH _ _ _ _ _ k1 (with_addrs l1 i)); [apply Hm1|done|lia|lia|lia|rewrite length_drop; lia|done|done| |].
  { intros H. apply Hlax. replace (4 * S fuel)%nat with (4 + 4 * fuel)%nat by lia.
    replace (2 * S fuel)%nat with (2 + 2 * fuel)%nat by lia. by apply (spent_poor sb T 4 2 _ _ _ _ Hsp). }
  intros m2 s2 k2 l2 W2. replace (off + d + (n - (tot + d))) with (off + (n - tot)) by lia.
  assert (take (Z.to_nat (n - tot)) src =
    take (Z.to_nat d) src ++ take (Z.to_nat (n - (tot + d))) (drop (Z.to_nat d) src)) as Hsplit.
  { rewrite take_take_drop. f_equal. lia. }
  apply (HQ m2 s2 k2 l2). rewrite Hsplit. replace (4 * S fuel)%nat with (4 + 4 * fuel)%nat by lia.
  replace (2 * S fuel)%nat with (2 + 2 * fuel)%nat by lia.
  eapply wrote_cons; [done|done| |exact W1|].
  - rewrite <- Hsplit, length_take. lia.
  - rewrite Hlen, Z2Nat.id by lia. exact W2.
Qed.

(** The inode with new addresses and a new size. *)
Definition resized (l : list Z) (size : Z) (i : inode) : inode :=
  set_i_d (fun d => set_d_size size (set_d_addrs l d)) i.

(** What a successful [writei] of [src] at [off] leaves. *)
Record wrote (T : gset Z) (c f : nat) m s k ip i off (src : list Z) m' s' k' (i' : inode) : Prop := mkWrote {
  w_quiet : quiet ∅ m m';
  w_st : file_st sb s' k' ip i';
  w_ic : icache s' = <[ip := i']> (icache s);
  w_same : same_blocks k k';
  w_spent : spent sb T c f k k';
  w_i : exists l', i' = resized l' (Z.max (d_size (i_d i)) (off + Z.of_nat (length src))) i;
  w_ok : dinode_ok (i_d i');
  w_whole : whole (k_data k') (addrs i') (d_size (i_d i'));
  w_bytes : forall o, off_ok o -> fbyte (k_data k') (addrs i') o = over off src (fbyte (k_data k) (addrs i)) o;
  w_sync : dinode_of sb (k_data k) (i_num i) = i_d i -> dinode_of sb (k_data k') (i_num i) = i_d i';
  w_dinodes : forall j, is_inum sb j -> j ≠ i_num i -> dinode_of sb (k_data k') j = dinode_of sb (k_data k) j;
  w_own : forall a, owned (k_data k') (addrs i') a -> owned (k_data k) (addrs i) a \/ used sb (k_data k) a = false;
  w_keep : forall a, owned (k_data k) (addrs i) a -> owned (k_data k') (addrs i') a;
  w_used : forall a, 0 <= a < sb_size sb -> used sb (k_data k) a = true -> used sb (k_data k') a = true;
  w_new : forall a, 0 <= a < sb_size sb -> used sb (k_data k') a = true ->
    used sb (k_data k) a = true \/ owned (k_data k') (addrs i') a;
  w_frame : forall n, live sb (k_data k) n -> ~ owned (k_data k) (addrs i) n -> blk (k_data k') n = blk (k_data k) n }.

Lemma file_addrs_range k l : geom sb k -> file_ok sb (k_data k) l -> Forall (fun v => 0 <= v < 4294967296) l.
Proof.
  intros G F. apply Forall_lookup_2. intros j v Hj. pose proof (geom_order sb k G). pose proof (g_size _ _ G). pose proof (g_max _ _ G).
  destruct (decide (v = 0)) as [->|Hv]; [lia|]. pose proof (fo_len _ _ _ F). pose proof (lookup_lt_Some _ _ _ Hj).
  assert (owned (k_data k) l v) as Ho.
  { split; [done|]. destruct (decide (j = 12%nat)) as [->|].
    - left. unfold ind. change (Z.to_nat NDIRECT) with 12%nat. by rewrite Hj.
    - right. exists (Z.of_nat j). split; [unfold in_file, MAXFILE, NDIRECT, NINDIRECT; lia|].
      unfold nth_addr. replace (Z.of_nat j <? NDIRECT) with true by (unfold NDIRECT; lia). rewrite Nat2Z.id, Hj. done. }
  destruct (owned_live sb _ _ _ F Ho). lia.
Qed.

Lemma resized_id i : resized (addrs i) (d_size (i_d i)) i = i.
Proof. by destruct i as [? ? ? ? ? []]. Qed.

Lemma resized_ok k l size i : geom sb k -> file_ok sb (k_data k) l -> 0 <= size < 4294967296 ->
  dinode_ok (i_d i) -> dinode_ok (i_d (resized l size i)).
Proof. intros G F Hs []. constructor; try done; [apply F|by apply (file_addrs_range k)]. Qed.

(** Inodes are not touched by what is done to the blocks of a file. *)
Lemma turned_dinode k l D' l' g j : geom sb k -> meta_used sb (k_data k) -> file_ok sb (k_data k) l ->
  turned sb (k_data k) l D' l' g -> is_inum sb j -> dinode_of sb D' j = dinode_of sb (k_data k) j.
Proof.
  intros G Hm F HT Hj. unfold dinode_of. destruct (geom_iblock sb k j G Hj) as (? & ? & ? & ? & Hd).
  pose proof (g_data _ _ G). rewrite (tu_frame _ _ _ _ _ _ HT); [done|lia|done|apply Hm; lia|].
  intros Ho. destruct (owned_live sb _ _ _ F Ho). lia.
Qed.

(** The size grows to what was covered. *)
Lemma whole_covered D l D' l' off n size g : file_ok sb D l -> whole D l size -> 0 <= off <= size -> 0 <= n ->
  off + n <= MAXFILE * BSIZE -> turned sb D l D' l' g -> covered D' l' off n -> whole D' l' (Z.max size (off + n)).
Proof.
  intros F [Hs W] Ho Hn Hmax HT Hc. split; [lia|]. intros bn H0 Hb.
  destruct (decide (bn * BSIZE < size)) as [Hlt|Hge].
  - rewrite (tu_addr _ _ _ _ _ _ HT); [by apply W| |by apply W]. unfold in_file, BSIZE in *. lia.
  - replace bn with (bn * BSIZE / BSIZE) by (apply Z.div_mul; unfold BSIZE; lia). apply Hc. lia.
Qed.

(** The end of [writei]: the inode is written when the file has grown. *)
Lemma wrote_same T c f m s k ip i off src m' s' k' l' :
  file_st sb s k ip i -> is_inum sb (i_num i) -> dinode_ok (i_d i) -> whole (k_data k) (addrs i) (d_size (i_d i)) ->
  0 <= off <= d_size (i_d i) -> off + Z.of_nat (length src) <= d_size (i_d i) ->
  wrote_range T c f m s k ip i off src m' s' k' l' -> wrote T (c + 1) f m s k ip i off src m' s' k' i.
Proof.
  intros F Hn Hok W Ho Hle (HM & Hc & Hkeep). pose proof HM as [Hq F' Hic Hsm Hsp HT].
  assert (l' = addrs i) as -> by (apply Hkeep; intros o Ho2; apply (whole_block _ _ (d_size (i_d i))); [done|lia]).
  rewrite with_addrs_id in *. pose proof F as [].
  constructor; try done; try apply HT.
  - eapply spent_mono; [done|lia..].
  - exists (addrs i). rewrite Z.max_l by lia. by rewrite resized_id.
  - replace (d_size (i_d i)) with (Z.max (d_size (i_d i)) (off + Z.of_nat (length src))) by lia.
    eapply whole_covered; try done; [lia|]. destruct W. lia.
  - intros E. rewrite <- E. by eapply turned_dinode.
  - intros j Hj _. by eapply turned_dinode.
  - intros n Hn0 Hno. destruct (live_not_bm sb k fs_geom n Hn0). apply (tu_frame _ _ _ _ _ _ HT); [done|done|apply Hn0|done].
Qed.

Lemma wrote_grown T c f m s k ip i off src m1 s1 k1 l1 m2 x2 :
  file_st sb s k ip i -> is_inum sb (i_num i) -> dinode_ok (i_d i) -> whole (k_data k) (addrs i) (d_size (i_d i)) ->
  0 <= off <= d_size (i_d i) -> d_size (i_d i) < off + Z.of_nat (length src) <= MAXFILE * BSIZE ->
  wrote_range T c f m s k ip i off src m1 s1 k1 l1 ->
  let i' := resized l1 (off + Z.of_nat (length src)) i in
  let k2 := k_iupd sb (i_num i) (i_d i') k1 in
  let s2 := mkFs x2 (<[ip := i']> (icache s)) in
  quiet ∅ m1 m2 -> file_st sb s2 k2 ip i' -> wrote T (c + 1) f m s k ip i off src m2 s2 k2 i'.
Proof.
  intros F Hn Hok W Ho Hsz (HM & Hc & _) i' k2 s2 Hq F2. pose proof HM as [Hq1 F1 _ Hsm Hsp HT].
  pose proof F as [_ G Hme _ _ _ FF]. pose proof F1 as [_ G1 Hme1 _ _ _ FF1].
  change (addrs (with_addrs l1 i)) with l1 in *. assert (MAXFILE * BSIZE = 71680) as Hmax by done.
  assert (dinode_ok (i_d i')) as Hok' by (apply (resized_ok k1); [done|done|lia|done]).
  pose proof (iupd_file sb (i_num i) (i_d i') k1 l1 G1 Hn FF1) as Hblk.
  assert (forall j, is_inum sb j -> dinode_of sb (k_data k2) j =
    if decide (j = i_num i) then i_d i' else dinode_of sb (k_data k) j) as Hdi.
  { intros j Hj. unfold k2. rewrite dinode_iupd by done. destruct (decide _); [done|]. by eapply turned_dinode. }
  constructor; try done.
  - by eapply quiet_trans.
  - etrans; [done|apply same_blocks_upd].
  - replace f with (f + 0)%nat by lia. eapply spent_trans; [done|].
    destruct (geom_iblock sb k1 _ G1 Hn) as (? & ? & ? & ? & ?). apply spent_data; [done|lia|done].
  - exists l1. by rewrite Z.max_r by lia.
  - cbn. destruct (whole_covered _ _ _ _ off (Z.of_nat (length src)) _ _ FF W ltac:(lia) ltac:(lia) ltac:(lia) HT Hc) as [Hs Hw].
    rewrite Z.max_r in Hs, Hw by lia. split; [done|]. intros bn H0 Hb.
    rewrite (other_addr (k_data k1) (k_data k2) l1 Hblk). by apply Hw.
  - intros o Hoo. change (addrs i') with l1. rewrite (other_byte (k_data k1) (k_data k2) l1 Hblk o Hoo).
    exact (tu_bytes _ _ _ _ _ _ HT o Hoo).
  - intros _. rewrite Hdi by done. by rewrite decide_True.
  - intros j Hj Hne. rewrite Hdi by done. by rewrite decide_False.
  - intros a Ha. apply (tu_own _ _ _ _ _ _ HT). by apply (other_owned (k_data k1) (k_data k2) l1 Hblk).
  - intros a Ha. apply (other_owned (k_data k1) (k_data k2) l1 Hblk). by apply (tu_keep _ _ _ _ _ _ HT).
  - intros a Ha Hu. unfold k2. rewrite used_iupd by done. by apply (tu_used _ _ _ _ _ _ HT).
  - intros a Ha Hu. unfold k2 in Hu. rewrite used_iupd in Hu by done. apply (tu_new _ _ _ _ _ _ HT) in Hu as [?|?]; [by left| |done].
    right. by apply (other_owned (k_data k1) (k_data k2) l1 Hblk).
  - intros n Hln Hno. destruct (live_not_bm sb k G n Hln) as [Hr Hbm].
    destruct (geom_iblock sb k1 _ G1 Hn) as (? & ? & ? & ? & ?). destruct Hln as [Hd Hu].
    unfold k2. rewrite blk_iupd by (done || lia). by apply (tu_frame _ _ _ _ _ _ HT).
Qed.

Lemma wp_writei T devs ip i src off n m s k Q :
  msec ∅ m -> file_st sb s k ip i -> is_inum sb (i_num i) -> dinode_ok (i_d i) ->
  d_type (i_d i) ≠ T_DEV -> whole (k_data k) (addrs i) (d_size (i_d i)) ->
  0 <= off < 4294967296 -> 0 <= n < 4294967296 -> n <= Z.of_nat (length src) ->
  (forall n, is_bm sb n -> n ∈ T) ->
  (poor sb T (4 * copy_fuel n + 1) (2 * copy_fuel n) k -> lax P) ->
  (d_size (i_d i) < off \/ MAXFILE * BSIZE < off + n -> Q (-1) (m, s)) ->
  (forall m' s' k' i', off <= d_size (i_d i) -> off + n <= MAXFILE * BSIZE ->
     wrote T (4 * copy_fuel n + 1) (2 * copy_fuel n) m s k ip i off (take (Z.to_nat n) src) m' s' k' i' ->
     Q n (m', s')) ->
  wp P (writei sb devs ip src off n) (m, s) Q.
Proof.
  intros Hm F Hnum Hok Ht W Ho Hn Hsrc HT Hlax HQ1 HQ2. unfold writei. wp_next.
  apply (wp_iread _ _ _ i); [apply F|]. unfold id. replace (d_type (i_d i) =? T_DEV) with false by lia.
  pose proof W as [Hsz _]. assert (MAXFILE * BSIZE = 71680) as Hmax by done.
  destruct (off >? d_size (i_d i)) eqn:E1; [apply wp_ret, HQ1; lia|]. cbn [orb].
  destruct (decide (off + n <= 71680)) as [Hle|Hgt].
  2:{ destruct (u32 (off + n) <? off) eqn:E2; [apply wp_ret, HQ1; lia|].
      destruct (u32 (off + n) >? MAXFILE * BSIZE) eqn:E3; [apply wp_ret, HQ1; lia|]. exfalso. unfold u32 in *.
      destruct (decide (off + n < 4294967296)); [rewrite Z.mod_small in * by lia; lia|].
      rewrite <- (Z.mod_add (off + n) (-1)), (Z.mod_small (off + n + -1 * 4294967296)) in E2 by lia. lia. }
  rewrite u32_small by lia. replace (off + n <? off) with false by lia.
  replace (off + n >? MAXFILE * BSIZE) with false by lia. wp_next.
  apply (wp_writei_loop T _ _ i _ _ _ _ _ _ k); [done|done|lia|lia|lia|lia| |done| |].
  { intros _. apply copy_fuel_enough; lia. }
  { intros H. apply Hlax. eapply poor_mono; [done|lia..]. }
  intros m1 s1 k1 l1 HW. rewrite Z.sub_0_r in *. pose proof HW as (HM & _). pose proof HM as [Hm1 F1 Hic _ Hsp _].
  assert (Z.of_nat (length (take (Z.to_nat n) src)) = n) as Hlen by (rewrite length_take; lia).
  wp_next. apply wp_when.
  - intros Hg. wp_next. apply (wp_iset _ _ _ (with_addrs l1 i)); [apply F1|].
    rewrite Hic, list_insert_insert_eq. set (src' := take (Z.to_nat n) src) in *.
    assert (set_i_d (set_d_size (off + n)) (with_addrs l1 i) = resized l1 (off + Z.of_nat (length src')) i) as ->
      by (by rewrite Hlen).
    set (i' := resized l1 (off + Z.of_nat (length src')) i).
    assert (file_st sb (mkFs (fblk s1) (<[ip := i']> (icache s))) k1 ip i') as F2.
    { destruct F1. constructor; try done. cbn. apply list_lookup_insert_eq. eapply lookup_lt_Some, F. }
    apply (wp_iupdate sb P _ _ k1 _ i'); [apply Hm1|done|done| |].
    { intros H. apply Hlax. replace (2 * copy_fuel n)%nat with (2 * copy_fuel n + 0)%nat by lia.
      apply (spent_poor sb T _ _ 1 0 _ _ Hsp). left. by apply full_short. }
    intros m2 x2 Hm2 R2 F3. apply wp_ret. rewrite i32_small by lia. apply (HQ2 m2 _ (k_iupd sb (i_num i) (i_d i') k1) i');
      [lia|lia|]. apply (wrote_grown T _ _ m s k ip i off _ m1 s1); try done; lia.
  - intros Hg. apply wp_ret. rewrite i32_small by lia. 
    apply (HQ2 m1 s1 k1 i); [lia|lia|]. eapply wrote_same; try done; lia.
Qed.

(** Reading what was written. *)
Lemma over_bytes off src g D' l' :
  (forall o, off_ok o -> fbyte D' l' o = over off src g o) -> 0 <= off -> off + Z.of_nat (length src) <= MAXFILE * BSIZE ->
  bytes D' l' off (Z.of_nat (length src)) = src.
Proof.
  intros Hb Ho Hmax. apply list_eq. intros j. unfold bytes. rewrite list_lookup_fmap.
  destruct (decide (j < length src)%nat) as [Hj|Hj].
  - rewrite lookup_seqZ_lt by lia. simpl. rewrite Hb by (unfold off_ok; lia). unfold over.
    rewrite decide_True by lia. replace (Z.to_nat (off + Z.of_nat j - off)) with j by lia.
    destruct (lookup_lt_is_Some_2 src j Hj) as [v Hv]. by rewrite Hv.
  - rewrite lookup_seqZ_ge by lia. simpl. symmetry. apply lookup_ge_None_2. lia.
Qed.

End write.

(** C14. A file is an array of bytes: with enough free blocks and log space,
    [writei] stores [n] bytes at [off], [readi] then returns them, all other
    bytes of the file are as before, and so are the blocks and inodes of other
    files. *)
Theorem writei_readi {X} `{BW : BlockLaws X} sb devs m (s : fs X) k ip i src off n :
  msec ∅ m -> file_st sb s k ip i -> is_inum sb (i_num i) -> dinode_ok (i_d i) ->
  d_type (i_d i) ≠ T_DEV -> whole (k_data k) (addrs i) (d_size (i_d i)) ->
  0 <= off <= d_size (i_d i) -> 0 <= n <= Z.of_nat (length src) -> off + n <= MAXFILE * BSIZE ->
  ~ poor sb (bm_set sb) (4 * copy_fuel n + 1) (2 * copy_fuel n) k ->
  exists m' s' k' i' s1 m1,
    (r ← writei sb devs ip src off n; q ← readi sb devs ip off n; mret (r, q)) (m, s) =
      Ok (n, (n, take (Z.to_nat n) src)) (m', s') /\
    wrote sb (bm_set sb) (4 * copy_fuel n + 1) (2 * copy_fuel n) m s k ip i off (take (Z.to_nat n) src) m1 s1 k' i' /\
    file_st sb s' k' ip i' /\ icache s' = <[ip := i']> (icache s).
Proof.
  intros Hm F Hnum Hok Ht W Ho Hn Hmax Hrich. assert (MAXFILE * BSIZE = 71680) as Hmx by done. pose proof W as [Hsz _].
  set (src' := take (Z.to_nat n) src).
  assert (Z.of_nat (length src') = n) as Hlen by (unfold src'; rewrite length_take; lia).
  assert (wp no_failure (r ← writei sb devs ip src off n; q ← readi sb devs ip off n; mret (r, q)) (m, s)
    (fun r t => r = (n, (n, src')) /\ exists k' i' s1 m1,
       wrote sb (bm_set sb) (4 * copy_fuel n + 1) (2 * copy_fuel n) m s k ip i off src' m1 s1 k' i' /\
       file_st sb t.2 k' ip i' /\ icache t.2 = <[ip := i']> (icache s))) as HWP.
  2:{ apply wp_total in HWP as (r & [m' s'] & Hr & -> & k' & i' & s1 & m1 & H). by exists m', s', k', i', s1, m1. }
  wp_next. apply (wp_writei sb no_failure (bm_set sb) _ _ i _ _ _ _ _ k);
    [done|done|done|done|done|done|lia|lia|lia|apply elem_bm_set|by intros|lia|].
  intros m1 s1 k1 i' _ _ HW. pose proof HW as []. destruct w_i0 as [l' Hi'].
  assert (d_size (i_d i') = Z.max (d_size (i_d i)) (off + n)) as Hs' by (rewrite Hi'; cbn; fold src'; lia).
  assert (d_type (i_d i') ≠ T_DEV) as Ht' by (by rewrite Hi').
  wp_next. apply (wp_readi sb no_failure _ _ i' _ _ _ _ k1); [apply w_quiet0|done|done|done|lia|lia| |lia|].
  { intros Hf. by destruct (spent_not_full sb _ _ _ _ _ w_spent0 Hrich). }
  intros m2 x2 Hm2 R2 _ _. cbv zeta. apply wp_ret. replace (Z.min n (d_size (i_d i') - off)) with n by lia. split.
  - f_equal. f_equal. rewrite <- Hlen at 1. eapply over_bytes; [exact w_bytes0|lia|fold src'; lia].
  - exists k1, i', s1, m1. split; [done|]. split; [|done]. destruct w_st0. by constructor.
Qed.
