(* ===== verification/FsTrunc.v ===== *)
(** * itrunc

    The blocks of the file, and no others, become free; the inode is empty. *)

From stdpp Require Import base numbers gmap sets list strings.
From S2P Require Import Prelude CString Spinlock Sleeplock Bio BioRing BioSpec.
From S2P Require Import Log LogSpec Fs FsBlock FsAlloc FsFile FsInode FsDinode FsRW.
Open Scope Z_scope.

Section trunc.
Context {X : Type} `{BW : BlockLaws X} (sb : superblock) (P : failure -> Prop).
Implicit Types (s : fs X) (k : blks).

(** [k'] is [k] with the blocks [S] freed. *)
Record freed k k' (S : Z -> Prop) : Prop := mkFreed {
  fd_geom : geom sb k';
  fd_same : same_blocks k k';
  fd_blk : forall n, 0 <= n -> ~ is_bm sb n -> blk (k_data k') n = blk (k_data k) n;
  fd_used : forall b, 0 <= b < sb_size sb -> used sb (k_data k') b = true <-> used sb (k_data k) b = true /\ ~ S b;
  fd_spent : spent sb (bm_set sb) 0 0 k k' }.

Lemma freed_nil k (S : Z -> Prop) : geom sb k -> (forall b, ~ S b) -> freed k k S.
Proof.
  intros G HS. constructor; try done; [|apply spent_refl]. intros b Hb. split; [|by intros [? _]]. intros H. by split.
Qed.

Lemma freed_ext k k' (S S' : Z -> Prop) : (forall b, S b <-> S' b) -> freed k k' S -> freed k k' S'.
Proof. intros E []. constructor; try done. intros b Hb. rewrite <- E. by apply fd_used0. Qed.

Lemma freed_step k k' (S : Z -> Prop) b : freed k k' S -> live sb (k_data k) b -> ~ S b ->
  freed k (k_free sb b k') (fun x => S x \/ x = b).
Proof.
  intros [] Lb Hb. pose proof (geom_order sb k' fd_geom0). assert (0 <= b < sb_size sb) as Hr by (destruct Lb; lia).
  assert (used sb (k_data k') b = true) as Hu by (apply fd_used0; [done|]; split; [apply Lb|done]).
  constructor.
  - by apply (geom_mark sb k' b false).
  - etrans; [done|apply same_blocks_upd].
  - intros n Hn Hbm. change (blk (k_data (k_free sb b k')) n) with (k_get n (k_free sb b k')).
    rewrite get_free by done. by apply fd_blk0.
  - intros c Hc. rewrite used_free by done. destruct (decide (c = b)) as [->|].
    + split; [done|]. intros [_ H0]. destruct H0. by right.
    + rewrite fd_used0 by done. split; intros [H1 H2]; (split; [done|]); [by intros [?|?]|]. intros ?. apply H2. by left.
  - eapply (spent_trans sb _ 0 0 0 0); [done|]. apply spent_free; [done|done|done|apply elem_bm_set].
Qed.

(** The blocks of the file with a number below [j]. *)
Definition below (D : list (list Z)) (l : list Z) (j : Z) (b : Z) : Prop :=
  exists bn, 0 <= bn < j /\ nth_addr D l bn = b /\ b ≠ 0.

Lemma below_S D l j b : 0 <= j -> below D l (j + 1) b <-> below D l j b \/ (b = nth_addr D l j /\ b ≠ 0).
Proof.
  intros Hj. unfold below. split.
  - intros (bn & Hb & E & H0). destruct (decide (bn = j)) as [->|]; [right; by rewrite E|left].
    exists bn. split; [lia|done].
  - intros [(bn & Hb & E & H0)|[-> H0]]; [exists bn|exists j]; (split; [lia|done]).
Qed.

Lemma below_new D l j : file_ok sb D l -> in_file j -> nth_addr D l j ≠ 0 -> ~ below D l j (nth_addr D l j).
Proof.
  intros F Hj H0 (bn & Hb & E & _). unfold in_file in *.
  assert (bn = j); [|lia]. apply (lo_inj _ _ _ (fo_lay _ _ _ F)); [unfold in_file; lia|done|done|by rewrite E].
Qed.

Lemma below_all D l b : file_ok sb D l -> owned D l b <-> below D l MAXFILE b \/ (b = ind l /\ b ≠ 0).
Proof.
  intros F. unfold owned, below, in_file. split.
  - intros [H0 [->|(bn & Hb & E)]]; [by right|]. left. by exists bn.
  - intros [(bn & Hb & E & H0)|[-> H0]]; split; try done; [right; by exists bn|by left].
Qed.

(** The addresses while the direct blocks are freed. *)
Definition zeroed (j : nat) (l : list Z) : list Z := replicate j 0 ++ drop j l.

Lemma zeroed_S j l : (j < length l)%nat -> <[j := 0]> (zeroed j l) = zeroed (S j) l.
Proof.
  intros Hj. unfold zeroed. rewrite insert_app_r_alt by (rewrite length_replicate; lia).
  rewrite length_replicate, Nat.sub_diag. destruct (lookup_lt_is_Some_2 l j Hj) as [v Hv].
  rewrite (drop_S _ _ _ Hv). cbn [list_insert insert]. rewrite replicate_S_end, <- app_assoc. done.
Qed.

Lemma zeroed_at j l t : (j <= t)%nat -> (j <= length l)%nat -> zeroed j l !! t = l !! t.
Proof.
  intros Ht Hl. unfold zeroed. rewrite lookup_app_r by (rewrite length_replicate; lia).
  rewrite length_replicate, lookup_drop. f_equal. lia.
Qed.

(** The state in the middle of [itrunc]. *)
Record cut (m : mach) s k ip i (S : Z -> Prop) (l' : list Z) (m' : mach) s' k' : Prop := mkCut {
  ct_quiet : quiet ∅ m m';
  ct_rep : b_rep (fblk s') k';
  ct_freed : freed k k' S;
  ct_ic : icache s' = <[ip := with_addrs l' i]> (icache s) }.

Lemma cut_in m s k ip i S l' m' s' k' : file_st sb s k ip i -> cut m s k ip i S l' m' s' k' ->
  icache s' !! ip = Some (with_addrs l' i).
Proof. intros F []. rewrite ct_ic0. apply list_lookup_insert_eq. eapply lookup_lt_Some, F. Qed.

Lemma cut_full k k' S : freed k k' S -> (poor sb (bm_set sb) 1 0 k -> lax P) -> k_full k' -> lax P.
Proof.
  intros [] Hlax Hf. apply Hlax, (poor_mono sb _ (0 + 0) (0 + 0)); [|lia..].
  apply (spent_poor sb _ 0 0 0 0 _ _ fd_spent0). left. by apply full_short.
Qed.

(** One turn of [for(i = 0; i < NDIRECT; i++)]. *)
Lemma wp_trunc_one m s k ip i j m1 s1 k1 Q :
  file_st sb s k ip i -> (poor sb (bm_set sb) 1 0 k -> lax P) -> (j < 12)%nat ->
  cut m s k ip i (below (k_data k) (addrs i) (Z.of_nat j)) (zeroed j (addrs i)) m1 s1 k1 ->
  (forall m2 s2 k2,
     cut m s k ip i (below (k_data k) (addrs i) (Z.of_nat (S j))) (zeroed (S j) (addrs i)) m2 s2 k2 -> Q tt (m2, s2)) ->
  wp P (addr ← addr_at ip j;
        when (negb (addr =? 0)) (
          dev ← iread i_dev ip;
          on_blk (bfree sb dev addr);;
          set_addr ip j 0)) (m1, s1) Q.
Proof.
  intros F Hlax Hj C HQ. pose proof F as [FR FG FM FH FI FD FF]. pose proof (fo_len _ _ _ FF) as Hlen.
  pose proof (cut_in _ _ _ _ _ _ _ _ _ _ F C) as Hin1. pose proof C as [Cq CR CF CI].
  set (D := k_data k) in *. set (l := addrs i) in *.
  assert (nth_addr D l (Z.of_nat j) = default 0 (l !! j)) as Ha.
  { unfold nth_addr. replace (Z.of_nat j <? NDIRECT) with true by (unfold NDIRECT; lia). by rewrite Nat2Z.id. }
  assert (in_file (Z.of_nat j)) as Hf by (unfold in_file, MAXFILE, NDIRECT, NINDIRECT; lia).
  unfold addr_at. wp_next. apply (wp_iread _ _ _ (with_addrs (zeroed j l) i)); [done|].
  change (d_addrs (i_d (with_addrs (zeroed j l) i))) with (zeroed j l). rewrite zeroed_at by lia.
  rewrite <- Ha. apply wp_when; intros H0.
  - assert (nth_addr D l (Z.of_nat j) ≠ 0) as Hne by (destruct (_ =? 0) eqn:E; [done|lia]).
    assert (live sb D (nth_addr D l (Z.of_nat j))) as Lb by (apply (owned_live sb D l); [done|by apply owned_addr]).
    wp_next. apply (wp_iread _ _ _ (with_addrs (zeroed j l) i)); [done|]. cbn [i_dev with_addrs set_i_d]. rewrite FD.
    destruct (live_not_bm sb k FG _ Lb) as [Hr _]. pose proof (below_new D l _ FF Hf Hne) as Hnew.
    destruct (fd_same _ _ _ CF) as (Eh & _). rewrite FH in Eh.
    destruct (no_held sb k1 0 Eh) as (_ & H1 & Hok). wp_next. apply wp_on_blk.
    apply (wp_bfree sb P _ _ k1); [apply Cq|done|apply CF|done|done|done| |by eapply cut_full|].
    { apply (fd_used _ _ _ CF); [done|]. by split; [apply Lb|]. }
    intros m2 x2 Hm2 R2. cbn [fst snd]. apply (wp_iset _ _ _ (with_addrs (zeroed j l) i)); [done|].
    apply (HQ m2 _ (k_free sb (nth_addr D l (Z.of_nat j)) k1)).
    constructor; cbn [fblk icache]; [by eapply quiet_trans|done| |].
    + eapply freed_ext; [|by apply freed_step]. intros b. rewrite Nat2Z.inj_succ, <- Z.add_1_r, below_S by lia.
      split; (intros [?|H]; [by left|right]); [subst b; by split|by destruct H].
    + rewrite CI, list_insert_insert_eq. f_equal.
      change (with_addrs (<[j := 0]> (zeroed j l)) i = with_addrs (zeroed (S j) l) i). by rewrite zeroed_S by lia.
  - assert (nth_addr D l (Z.of_nat j) = 0) as Hz by (destruct (_ =? 0) eqn:E; [lia|done]).
    apply (HQ m1 s1 k1). constructor; [done|done| |].
    + eapply freed_ext; [|exact CF]. intros b. rewrite Nat2Z.inj_succ, <- Z.add_1_r, below_S by lia.
      split; [by left|]. intros [?|[-> ?]]; [done|congruence].
    + rewrite <- zeroed_S, CI by lia. rewrite (list_insert_id _ j); [done|]. rewrite zeroed_at by lia.
      rewrite Hz in Ha. destruct (lookup_lt_is_Some_2 l j) as [v Hv]; [lia|]. rewrite Hv in *. simpl in Ha. congruence.
Qed.

(** A counting loop keeps an invariant over the counter. *)
Lemma wp_count {S0 : Type} (J : nat -> S0 -> Prop) n (f : nat -> M S0 unit) st Q :
  J 0%nat st -> (forall j st', (j < n)%nat -> J j st' -> wp P (f j) st' (fun _ st2 => J (S j) st2)) ->
  (forall st', J n st' -> Q tt st') -> wp P (mfor (seq 0 n) f) st Q.
Proof.
  intros H0 Hs Hn. apply (wp_mfor _ (fun rest st' => exists j, (j <= n)%nat /\ rest = seq j (n - j) /\ J j st')).
  - exists 0%nat. rewrite Nat.sub_0_r. split; [lia|done].
  - intros t rest st' (j & Hj & Hseq & HJ). destruct (n - j)%nat as [|r] eqn:Er; [done|].
    injection Hseq as E1 E2. subst t rest. eapply wp_mono; [apply Hs; [lia|done]|]. intros ? st2 H2. exists (S j).
    split; [lia|]. split; [|done]. f_equal. lia.
  - intros st' (j & Hj & Hseq & HJ). destruct (n - j)%nat eqn:Er; [|done]. replace j with n in HJ by lia. by apply Hn.
Qed.

Lemma wp_trunc_direct m s k ip i Q :
  msec ∅ m -> file_st sb s k ip i -> (poor sb (bm_set sb) 1 0 k -> lax P) ->
  (forall m' s' k', cut m s k ip i (below (k_data k) (addrs i) NDIRECT) (zeroed 12 (addrs i)) m' s' k' ->
     Q tt (m', s')) ->
  wp P (mfor (seq 0 (Z.to_nat NDIRECT)) (fun j =>
          addr ← addr_at ip j;
          when (negb (addr =? 0)) (
            dev ← iread i_dev ip;
            on_blk (bfree sb dev addr);;
            set_addr ip j 0))) (m, s) Q.
Proof.
  intros Hm F Hlax HQ. pose proof F as [].
  apply (wp_count (fun j st => exists k',
    cut m s k ip i (below (k_data k) (addrs i) (Z.of_nat j)) (zeroed j (addrs i)) st.1 st.2 k')).
  - exists k. constructor; [by apply quiet_refl|done| |].
    + apply freed_nil; [done|]. intros b (bn & Hb & _). lia.
    + unfold zeroed. cbn [snd replicate app]. rewrite drop_0, with_addrs_id. symmetry. by apply list_insert_id.
  - intros j [m1 s1] Hj (k1 & C). eapply wp_trunc_one; [done|done|unfold NDIRECT in Hj; lia|exact C|].
    intros m2 s2 k2 C2. by exists k2.
  - intros [m1 s1] (k1 & C). by apply (HQ m1 s1 k1).
Qed.

(** *** The indirect block *)

Lemma wp_trunc_assoc {S0 A : Type} (op : M S0 A) (g : A -> M S0 unit) (K : M S0 unit) st Q :
  wp P ((x ← op; g x);; K) st Q -> wp P (x ← op; g x;; K) st Q.
Proof. unfold wp, mbind, M_bind. by destruct (op st). Qed.

Section indirect.
Context (k : blks) (l : list Z).
Let D := k_data k.
Let n := ind l.
Context (G : geom sb k) (F : file_ok sb D l) (Hheld : k_held k = ∅) (Hi : n ≠ 0).
Context (Hlax : poor sb (bm_set sb) 1 0 k -> lax P).

Lemma ind_live : live sb D n.
Proof. by apply (fo_lay _ _ _ F). Qed.

Lemma ind_not_below j : 0 <= j <= MAXFILE -> ~ below D l j n.
Proof.
  intros Hj (bn & Hb & E & H0). apply (lo_ne _ _ _ (fo_lay _ _ _ F) bn); [unfold in_file; lia|by rewrite E|done].
Qed.

(** The state while the indirect block is in use. *)
Definition entries_st (m : mach) bp (ic : list inode) (j : nat) (st : mach * fs X) : Prop :=
  exists k', quiet ∅ m st.1 /\ b_rep (fblk st.2) (k_hold n bp true k') /\
    freed k k' (below D l (NDIRECT + Z.of_nat j)) /\ icache st.2 = ic.

Lemma wp_trunc_entry m bp ic j st : (j < 128)%nat -> entries_st m bp ic j st ->
  wp P (d ← on_blk (b_data bp);
        when (negb (getu32 d (4 * j) =? 0)) (on_blk (bfree sb 1 (getu32 d (4 * j))))) st
     (fun _ st' => entries_st m bp ic (S j) st').
Proof.
  destruct st as [m1 s1]. intros Hj (k1 & Hm & HR & CF & Hic). cbn [fst snd] in *.
  pose proof ind_live as Ln. destruct (live_not_bm sb k G n Ln) as [Hr Hbm].
  destruct (fd_same _ _ _ CF) as (Eh & _). rewrite Hheld in Eh.
  apply (fwp_look _ _ _ k1 n); [done|].
  assert (getu32 (k_get n k1) (4 * j) = nth_addr D l (NDIRECT + Z.of_nat j)) as ->.
  { unfold k_get. rewrite (fd_blk _ _ _ CF) by (lia || done). unfold nth_addr.
    replace (NDIRECT + Z.of_nat j <? NDIRECT) with false by lia. fold n. replace (n =? 0) with false by lia.
    f_equal. lia. }
  set (b := nth_addr D l (NDIRECT + Z.of_nat j)).
  assert (in_file (NDIRECT + Z.of_nat j)) as Hf by (unfold in_file, MAXFILE, NDIRECT, NINDIRECT; lia).
  apply wp_when; intros H0.
  - assert (b ≠ 0) as Hne by (destruct (b =? 0) eqn:E; [done|lia]).
    assert (live sb D b) as Lb by (apply (owned_live sb D l); [done|by apply owned_addr]).
    destruct (live_not_bm sb k G b Lb) as [Hrb _]. pose proof (below_new D l _ F Hf Hne) as Hnew.
    apply wp_on_blk, (wp_bfree sb P _ _ (k_hold n bp true k1)); [apply Hm|done| | | |done| | |].
    { destruct (fd_geom _ _ _ CF). by constructor. }
    { intros n'. cbn. rewrite Eh. destruct (decide (n' = n)) as [->|].
      - intros _. split; [apply Ln|]. apply (fd_used _ _ _ CF); [lia|]. split; [apply Ln|].
        apply ind_not_below. unfold in_file in Hf. lia.
      - rewrite lookup_insert_ne by done. by rewrite lookup_empty. }
    { unfold one_held. cbn. by rewrite Eh, insert_empty, map_size_singleton. }
    { apply (fd_used _ _ _ CF); [done|]. by split; [apply Lb|]. }
    { by apply (cut_full _ _ _ CF). }
    intros m2 x2 Hm2 R2. exists (k_free sb b k1). cbn [fst snd fblk icache]. split; [by eapply quiet_trans|].
    split; [exact R2|]. split; [|done]. eapply freed_ext; [|by apply freed_step]. intros c.
    replace (NDIRECT + Z.of_nat (S j)) with (NDIRECT + Z.of_nat j + 1) by lia.
    rewrite below_S by (unfold NDIRECT; lia). fold b. split; (intros [?|H]; [by left|right]); [subst c; by split|by destruct H].
  - assert (b = 0) as Hz by (destruct (b =? 0) eqn:E; [lia|done]). exists k1. split; [done|]. split; [done|].
    split; [|done]. eapply freed_ext; [|exact CF]. intros c.
    replace (NDIRECT + Z.of_nat (S j)) with (NDIRECT + Z.of_nat j + 1) by lia.
    rewrite below_S by (unfold NDIRECT; lia). fold b. split; [by left|]. intros [?|[-> ?]]; [done|congruence].
Qed.

End indirect.

(** The part of [itrunc] for the indirect block. *)
Lemma wp_trunc_indirect m s k ip i m1 s1 k1 Q :
  file_st sb s k ip i -> (poor sb (bm_set sb) 1 0 k -> lax P) ->
  cut m s k ip i (below (k_data k) (addrs i) NDIRECT) (zeroed 12 (addrs i)) m1 s1 k1 ->
  (forall m2 s2 k2, cut m s k ip i (owned (k_data k) (addrs i)) (replicate 13 0) m2 s2 k2 -> Q tt (m2, s2)) ->
  wp P (ind ← addr_at ip (Z.to_nat NDIRECT);
        when (negb (ind =? 0)) (
          dev ← iread i_dev ip;
          bp ← on_blk (b_read dev ind);
          mfor (seq 0 (Z.to_nat NINDIRECT)) (fun j =>
            d ← on_blk (b_data bp);
            when (negb (getu32 d (4 * j) =? 0)) (on_blk (bfree sb dev (getu32 d (4 * j)))));;
          on_blk (b_rel bp);;
          on_blk (bfree sb dev ind);;
          set_addr ip (Z.to_nat NDIRECT) 0)) (m1, s1) Q.
Proof.
  intros F Hlax C HQ. pose proof F as [FR FG FM FH FI FD FF]. pose proof (fo_len _ _ _ FF) as Hlen.
  pose proof (cut_in _ _ _ _ _ _ _ _ _ _ F C) as Hin1. pose proof C as [Cq CR CF CI].
  change (Z.to_nat NDIRECT) with 12%nat. set (l := addrs i) in *. set (i1 := with_addrs (zeroed 12 l) i) in *.
  assert (zeroed 13 l = replicate 13 0) as Hz13 by (unfold zeroed; rewrite drop_ge by lia; apply app_nil_r).
  assert (<[12%nat := 0]> (zeroed 12 l) = replicate 13 0) as Hz12 by (rewrite zeroed_S by lia; done).
  unfold addr_at. wp_next. apply (wp_iread _ _ _ i1); [done|].
  change (d_addrs (i_d i1)) with (zeroed 12 l). rewrite zeroed_at by lia. fold (ind l).
  assert (default 0 (l !! 12%nat) = ind l) as -> by done. apply wp_when; intros H0.
  - assert (ind l ≠ 0) as Hi by (destruct (ind l =? 0) eqn:E; [done|lia]). pose proof (ind_live k l FF Hi) as Ln.
    destruct (live_not_bm sb k FG _ Ln) as [Hr Hbm]. destruct (geom_data sb k1 _ (fd_geom _ _ _ CF) (proj1 Ln)) as (Hr1 & _).
    destruct (fd_same _ _ _ CF) as (Eh & _). rewrite FH in Eh. destruct (no_held sb k1 (ind l) Eh) as (Hn1 & H1 & _).
    wp_next. apply (wp_iread _ _ _ i1); [done|]. change (i_dev i1) with (i_dev i). rewrite FD.
    apply (fwp_open _ _ _ k1); [apply Cq|done|done|done|done|by apply (cut_full _ _ _ CF)|]. intros bp m2 x2 Hm2 R2. wp_next.
    apply (wp_count (entries_st k l m bp (icache s1))).
    { exists k1. split; [by eapply quiet_trans|done]. }
    { intros j st Hj Hst. apply wp_trunc_entry; done || (unfold NINDIRECT in Hj; lia). }
    intros [m3 s3] (k3 & Hm3 & R3 & CF3 & Hic). cbn [fst snd] in *. 
    destruct (fd_same _ _ _ CF3) as (Eh3 & _). rewrite FH in Eh3. destruct (no_held sb k3 (ind l) Eh3) as (Hn3 & H3 & Hok3).
    apply (fwp_close _ _ _ k3 (ind l)); [apply Hm3|done|done|]. intros m4 x4 Hm4 R4.
    assert (~ below (k_data k) l (NDIRECT + Z.of_nat (Z.to_nat NINDIRECT)) (ind l)) as Hnb
      by (by apply ind_not_below).
    wp_next. apply wp_on_blk, (wp_bfree sb P _ _ k3); [apply Hm4|done|apply CF3|done|done|done| |by apply (cut_full _ _ _ CF3)|].
    { apply (fd_used _ _ _ CF3); [done|]. by split; [apply Ln|]. }
    intros m5 x5 Hm5 R5. cbn [fst snd icache]. apply (wp_iset _ _ _ i1); [cbn; by rewrite Hic|].
    apply (HQ m5 _ (k_free sb (ind l) k3)). constructor; cbn [fblk icache];
      [do 2 (eapply quiet_trans; [done|]); done|done| |].
    + eapply freed_ext; [|by apply freed_step]. intros b. rewrite below_all by done.
      split; (intros [?|H]; [by left|right]); [subst b; by split|by destruct H].
    + rewrite Hic, CI, list_insert_insert_eq. f_equal.
      change (with_addrs (<[12%nat := 0]> (zeroed 12 l)) i = with_addrs (replicate 13 0) i). by rewrite Hz12.
  - assert (ind l = 0) as Hi by (destruct (ind l =? 0) eqn:E; [lia|done]). apply (HQ m1 s1 k1). constructor; [done|done| |].
    + eapply freed_ext; [|exact CF]. intros b. rewrite below_all by done. rewrite Hi. split.
      * intros (bn & Hb & E & Hb0). left. exists bn. unfold MAXFILE, NINDIRECT. split; [lia|done].
      * intros [(bn & Hb & E & Hb0)|[-> ?]]; [|done]. exists bn. split; [|done].
        destruct (decide (bn < NDIRECT)); [lia|]. unfold nth_addr in E. replace (bn <? NDIRECT) with false in E by lia.
        fold l in Hi. rewrite Hi in E. simpl in E. congruence.
    + rewrite CI. unfold i1. rewrite <- Hz12, (list_insert_id _ 12); [done|]. rewrite zeroed_at by lia.
      unfold ind in Hi. change (Z.to_nat NDIRECT) with 12%nat in Hi.
      destruct (lookup_lt_is_Some_2 l 12) as [v Hv]; [lia|]. rewrite Hv in *. simpl in Hi. congruence.
Qed.

(** An inode without blocks. *)
Lemma empty_addr D bn : nth_addr D (replicate 13 0) bn = 0.
Proof.
  unfold nth_addr, ind. destruct (bn <? NDIRECT); [|done]. destruct (_ !! Z.to_nat bn) eqn:E; [|done].
  by apply lookup_replicate in E as [-> _].
Qed.

Lemma empty_owned D b : ~ owned D (replicate 13 0) b.
Proof. intros [H0 [->|(bn & _ & E)]]; [done|]. by rewrite empty_addr in E. Qed.

Lemma empty_file D : file_ok sb D (replicate 13 0).
Proof.
  split; [done|]. constructor; try done; intros bn; intros; by rewrite empty_addr in *.
Qed.

(** What [itrunc] leaves. *)
Record truncated (m : mach) s k ip i (m' : mach) s' k' : Prop := mkTrunc {
  tc_quiet : quiet ∅ m m';
  tc_st : file_st sb s' k' ip (resized (replicate 13 0) 0 i);
  tc_ic : icache s' = <[ip := resized (replicate 13 0) 0 i]> (icache s);
  tc_same : same_blocks k k';
  tc_spent : spent sb (bm_set sb) 1 0 k k';
  tc_used : forall b, 0 <= b < sb_size sb ->
    used sb (k_data k') b = true <-> used sb (k_data k) b = true /\ ~ owned (k_data k) (addrs i) b;
  tc_dinodes : forall j, is_inum sb j -> dinode_of sb (k_data k') j =
    if decide (j = i_num i) then i_d (resized (replicate 13 0) 0 i) else dinode_of sb (k_data k) j;
  tc_blk : forall n, data0 sb <= n -> blk (k_data k') n = blk (k_data k) n }.

Lemma wp_itrunc m s k ip i Q :
  msec ∅ m -> file_st sb s k ip i -> is_inum sb (i_num i) -> dinode_ok (i_d i) ->
  (poor sb (bm_set sb) 1 0 k -> lax P) ->
  (forall m' s' k', truncated m s k ip i m' s' k' -> Q tt (m', s')) ->
  wp P (itrunc sb ip) (m, s) Q.
Proof.
  intros Hm F Hnum Hok Hlax HQ. pose proof F as [FR FG FM FH FI FD FF]. unfold itrunc. wp_next.
  apply (wp_trunc_direct m s k ip i); [done|done|done|]. intros m1 s1 k1 C1.
  apply wp_trunc_assoc. wp_next. eapply wp_trunc_indirect; [done|done|exact C1|]. intros m2 s2 k2 C2.
  pose proof (cut_in _ _ _ _ _ _ _ _ _ _ F C2) as Hin2. pose proof C2 as [Cq CR CF CI].
  wp_next. apply (wp_iset _ _ _ (with_addrs (replicate 13 0) i)); [done|]. rewrite CI, list_insert_insert_eq.
  set (i2 := resized (replicate 13 0) 0 i).
  change (set_i_d (set_d_size 0) (with_addrs (replicate 13 0) i)) with i2.
  destruct (fd_same _ _ _ CF) as (Eh & _). rewrite FH in Eh.
  assert (meta_used sb (k_data k2)) as HM2.
  { intros b Hb. pose proof (g_data _ _ FG). apply (fd_used _ _ _ CF); [lia|]. split; [by apply FM|].
    intros Ho. destruct (owned_live sb _ _ _ FF Ho). lia. }
  assert (file_st sb (mkFs (fblk s2) (<[ip := i2]> (icache s))) k2 ip i2) as F2.
  { constructor; try done; [apply CF| |apply empty_file]. cbn. apply list_lookup_insert_eq. by eapply lookup_lt_Some. }
  apply (wp_iupdate sb P _ _ k2 _ i2); [apply Cq|done|done|by apply (cut_full _ _ _ CF)|].
  intros m3 x3 Hm3 R3 F3. apply (HQ m3 _ (k_iupd sb (i_num i) (i_d i2) k2)).
  assert (dinode_ok (i_d i2)) as Hok2 by (destruct Hok; constructor; try done; by repeat constructor).
  destruct (geom_iblock sb k2 _ (fd_geom _ _ _ CF) Hnum) as (? & ? & ? & Hib & ?).
  constructor; try done.
  - by eapply quiet_trans.
  - etrans; [apply CF|apply same_blocks_upd].
  - apply (spent_trans sb _ 0 0 1 0 _ _ _ (fd_spent _ _ _ CF)). apply spent_data; [apply CF|lia|done].
  - intros b Hb. rewrite used_iupd by (apply CF || done). by apply (fd_used _ _ _ CF).
  - intros j Hj. rewrite dinode_iupd by (apply CF || done). destruct (decide (j = i_num i)); [done|].
    unfold dinode_of. destruct (geom_iblock sb k2 j (fd_geom _ _ _ CF) Hj) as (? & ? & ? & Hjb & ?).
    by rewrite (fd_blk _ _ _ CF) by (lia || done).
  - intros n Hn. rewrite blk_iupd; [|apply CF|done|lia|lia]. pose proof (geom_order sb k2 (fd_geom _ _ _ CF)).
    apply (fd_blk _ _ _ CF); [lia|]. unfold is_bm. lia.
Qed.

End trunc.

(** [itrunc] gives back exactly the blocks of the file: afterwards the file is
    empty, in the cache and on the disk, the bitmap has lost its blocks (the
    indirect one included) and no others, and the contents of all data blocks
    and the other inodes are as before. *)
Theorem itrunc_correct {X} `{BW : BlockLaws X} sb m (s : fs X) k ip i :
  msec ∅ m -> file_st sb s k ip i -> is_inum sb (i_num i) -> dinode_ok (i_d i) ->
  ~ poor sb (bm_set sb) 1 0 k ->
  exists m' s' k', itrunc sb ip (m, s) = Ok tt (m', s') /\ truncated sb m s k ip i m' s' k'.
Proof.
  intros Hm F Hn Hok Hrich.
  destruct (wp_total (itrunc sb ip) (m, s) (fun _ t => exists k', truncated sb m s k ip i t.1 t.2 k'))
    as ([] & [m' s'] & Hr & k' & H); [|by exists m', s', k'].
  apply (wp_itrunc sb no_failure m s k ip i); [done..|by intros|]. intros m' s' k' H. by exists k'.
Qed.
