(* ===== verification/FsIcache.v ===== *)
(** * The inode cache: iget, idup, ilock, iunlock, iput

    An entry is in use while its reference count is positive; at most one
    entry in use is for one inode. *)

From stdpp Require Import base numbers gmap sets list strings.
From S2P Require Import Prelude CString Spinlock Sleeplock Bio BioRing BioSpec.
From S2P Require Import Log LogSpec Fs FsBlock FsAlloc FsFile FsInode FsDinode FsRW FsTrunc.
Open Scope Z_scope.

(** The entry [i] is the one of an inode. *)
Definition is_for (dev inum : Z) (i : inode) : Prop := 0 < i_ref i /\ i_dev i = dev /\ i_num i = inum.

Record ic_ok (ic : list inode) : Prop := mkIcok {
  ic_len : length ic = NINODE;
  ic_ref : Forall (fun i => 0 <= i_ref i) ic;
  ic_uniq : forall a b i j dev inum, ic !! a = Some i -> ic !! b = Some j ->
    is_for dev inum i -> is_for dev inum j -> a = b }.

Lemma iget_scan_spec dev inum l k e :
  match iget_scan dev inum l k e with
  | (Some j, _) => exists t i, j = (k + t)%nat /\ l !! t = Some i /\ is_for dev inum i
  | (None, r) => (forall t i, l !! t = Some i -> ~ is_for dev inum i) /\
      match e with
      | Some x => r = Some x
      | None => match r with
                | Some j => exists t i, j = (k + t)%nat /\ l !! t = Some i /\ i_ref i = 0
                | None => forall t i, l !! t = Some i -> i_ref i ≠ 0
                end
      end
  end.
Proof.
  revert k e. induction l as [|i l IH]; intros k e; cbn [iget_scan].
  { split; [done|]. by destruct e. }
  destruct ((i_ref i >? 0) && (i_dev i =? dev) && (i_num i =? inum)) eqn:E.
  { exists 0%nat, i. split; [lia|]. split; [done|]. unfold is_for. lia. }
  assert (~ is_for dev inum i) as Hi by (unfold is_for; intros (? & ? & ?); lia).
  set (e' := match e with Some _ => _ | None => _ end). specialize (IH (S k) e').
  destruct (iget_scan dev inum l (S k) e') as [[j|] r].
  - destruct IH as (t & x & -> & Hx & Hf). exists (S t), x. split; [lia|]. done.
  - destruct IH as [IH1 IH2]. split.
    { intros [|t] x Hx; simpl in Hx; [congruence|]. by apply (IH1 t). }
    destruct e as [x|]; [done|]. subst e'. destruct (i_ref i =? 0) eqn:E2.
    + subst r. exists 0%nat, i. split; [lia|]. split; [done|lia].
    + destruct r as [j|].
      * destruct IH2 as (t & x & -> & Hx & Hr). exists (S t), x. split; [lia|done].
      * intros [|t] x Hx; simpl in Hx; [simplify_eq; lia|]. by apply (IH2 t).
Qed.

(** The entry made for an inode that was not in the cache. *)
Definition fresh_entry (dev inum : Z) (i : inode) : inode := mkI dev inum 1 (i_lock i) 0 (i_d i).

Lemma upd_inode_at {X} ip f (s : fs X) i : icache s !! ip = Some i ->
  upd_inode ip f s = mkFs (fblk s) (<[ip := f i]> (icache s)).
Proof. intros Hi. unfold upd_inode. by rewrite (alter_insert_at _ _ _ _ Hi). Qed.

Lemma upd_inode_twice {X} ip f g (s : fs X) : upd_inode ip g (upd_inode ip f s) = upd_inode ip (fun i => g (f i)) s.
Proof.
  unfold upd_inode. cbn. f_equal. apply list_eq. intros j. destruct (decide (j = ip)) as [->|Hne].
  - rewrite !list_lookup_alter_eq. by destruct (icache s !! ip).
  - by rewrite !list_lookup_alter_ne.
Qed.

Lemma lookup_at {A} (l : list A) ip x y : l !! ip = Some x -> <[ip := y]> l !! ip = Some y.
Proof. intros H. apply list_lookup_insert_eq. by eapply lookup_lt_Some. Qed.

Section icache.
Context {X : Type} `{BL : BlockLayer X} (P : failure -> Prop).
Implicit Types (s : fs X).

Lemma wp_iget m s dev inum Q :
  msec ∅ m ->
  ((forall t i, icache s !! t = Some i -> ~ is_for dev inum i) ->
   (forall t i, icache s !! t = Some i -> i_ref i ≠ 0) -> P (FPanic "iget: no inodes")) ->
  (forall ip i m', quiet ∅ m m' -> icache s !! ip = Some i -> is_for dev inum i ->
     Q ip (m', mkFs (fblk s) (<[ip := set_i_ref (i_ref i + 1) i]> (icache s)))) ->
  (forall ip i m', quiet ∅ m m' -> (forall t i, icache s !! t = Some i -> ~ is_for dev inum i) ->
     icache s !! ip = Some i -> i_ref i = 0 ->
     Q ip (m', mkFs (fblk s) (<[ip := fresh_entry dev inum i]> (icache s)))) ->
  wp P (iget dev inum) (m, s) Q.
Proof.
  intros Hm HP HQ1 HQ2. unfold iget. eapply wp_critical; [done|apply not_elem_of_empty|].
  wp_next. apply wp_gets. pose proof (iget_scan_spec dev inum (icache s) 0 None) as H.
  destruct (iget_scan dev inum (icache s) 0 None) as [[ip|] r].
  - destruct H as (t & i & -> & Hi & Hf). wp_next. apply wp_modify. apply wp_ret. intros m' Hm'.
    rewrite (upd_inode_at _ _ _ i) by done. by apply HQ1.
  - destruct H as [Hno Hr]. destruct r as [ip|]; [|apply wp_panic; by apply HP].
    destruct Hr as (t & i & -> & Hi & H0). do 3 (wp_next; apply wp_modify). apply wp_ret. intros m' Hm'.
    rewrite !upd_inode_twice, (upd_inode_at _ _ s i) by done. by apply (HQ2 t i).
Qed.

End icache.

(** The uniqueness of entries. *)
Lemma ic_ok_ref ic ip i r : ic_ok ic -> ic !! ip = Some i -> 0 < i_ref i -> 0 <= r ->
  ic_ok (<[ip := set_i_ref r i]> ic).
Proof.
  intros [H1 H2 H3] Hi Hp Hr. constructor; [by rewrite length_insert|by apply Forall_insert|].
  intros a b x y dev inum Ha Hb Fx Fy. 
  assert (forall c z, <[ip := set_i_ref r i]> ic !! c = Some z -> is_for dev inum z ->
    exists w, ic !! c = Some w /\ is_for dev inum w) as Hw.
  { intros c z Hc Fz. destruct (decide (c = ip)) as [->|].
    - rewrite (lookup_at _ _ i) in Hc by done. simplify_eq. exists i. split; [done|].
      destruct Fz as (? & ? & ?). by split.
    - rewrite list_lookup_insert_ne in Hc by done. by exists z. }
  destruct (Hw a x Ha Fx) as (x' & ? & ?). destruct (Hw b y Hb Fy) as (y' & ? & ?). by eapply H3.
Qed.

Lemma ic_ok_fresh ic ip i dev inum : ic_ok ic -> ic !! ip = Some i ->
  (forall t j, ic !! t = Some j -> ~ is_for dev inum j) -> i_ref i = 0 ->
  ic_ok (<[ip := fresh_entry dev inum i]> ic).
Proof.
  intros [H1 H2 H3] Hi Hno H0. constructor; [by rewrite length_insert|by apply Forall_insert|].
  intros a b x y d n Ha Hb Fx Fy. destruct (decide (a = ip)) as [->|Ha'], (decide (b = ip)) as [->|Hb']; try done.
  - rewrite (lookup_at _ _ i) in Ha by done. rewrite list_lookup_insert_ne in Hb by done. simplify_eq.
    destruct Fx as (_ & <- & <-). by destruct (Hno b y Hb).
  - rewrite (lookup_at _ _ i) in Hb by done. rewrite list_lookup_insert_ne in Ha by done. simplify_eq.
    destruct Fy as (_ & <- & <-). by destruct (Hno a x Ha).
  - rewrite list_lookup_insert_ne in Ha, Hb by done. by eapply H3.
Qed.

(** ** Locking *)

(** The lock of an inode as [initsleeplock] and [releasesleep] leave it. *)
Definition unlocked (i : inode) : Prop := slocked (i_lock i) = 0.

Definition locked_by (me : Z) (i : inode) : inode := set_i_lock (mkSl 1 (slname (i_lock i)) me) i.

Definition unlock (i : inode) : inode := set_i_lock (mkSl 0 (slname (i_lock i)) 0) i.

Section locks.
Context {X : Type} `{BW : BlockLaws X} (me : Z) (sb : superblock) (P : failure -> Prop).
Implicit Types (s : fs X) (k : blks).

Lemma wp_on_ilock {A} (op : M (mach * sleeplock) A) ip i m s Q :
  icache s !! ip = Some i ->
  wp P op (m, i_lock i) (fun a t => Q a (t.1, mkFs (fblk s) (<[ip := set_i_lock t.2 i]> (icache s)))) ->
  wp P (on_ilock ip op) (m, s) Q.
Proof.
  intros Hi H. unfold on_ilock. apply wp_part. unfold inode_at. rewrite Hi. cbn [default]. eapply wp_mono; [exact H|].
  intros a [m' lk] HQ. cbn [fst snd]. by rewrite (upd_inode_at _ _ s i).
Qed.

Lemma wp_lock_inode ip i m s Q :
  msec ∅ m -> icache s !! ip = Some i -> (~ unlocked i -> P FBlocked) ->
  (forall m', quiet ∅ m m' -> unlocked i -> Q tt (m', mkFs (fblk s) (<[ip := locked_by me i]> (icache s)))) ->
  wp P (on_ilock ip (acquiresleep me (ilock_id ip))) (m, s) Q.
Proof.
  intros Hm Hi Hb HQ. apply (wp_on_ilock _ _ i); [done|]. apply wp_acquiresleep; [done|exact Hb|].
  intros m' Hm' H0. by apply HQ.
Qed.

Lemma wp_unlock_inode ip i m s Q :
  msec ∅ m -> icache s !! ip = Some i ->
  (forall m', quiet ∅ m m' -> Q tt (m', mkFs (fblk s) (<[ip := unlock i]> (icache s)))) ->
  wp P (on_ilock ip (releasesleep (ilock_id ip))) (m, s) Q.
Proof.
  intros Hm Hi HQ. apply (wp_on_ilock _ _ i); [done|]. apply wp_releasesleep; [done|]. intros m' Hm'. by apply HQ.
Qed.

(** The state of the disk between operations. *)
Record fs_idle s k : Prop := mkIdle {
  id_rep : b_rep (fblk s) k;
  id_geom : geom sb k;
  id_meta : meta_used sb (k_data k);
  id_held : k_held k = ∅ }.

(** The inode read in by [ilock]. *)
Definition loaded (D : list (list Z)) (i : inode) : inode :=
  mkI (i_dev i) (i_num i) (i_ref i) (i_lock i) 1 (dinode_of sb D (i_num i)).

Lemma wp_ilock m s k ip i Q :
  msec ∅ m -> fs_idle s k -> icache s !! ip = Some i -> 1 <= i_ref i -> i_dev i = 1 -> is_inum sb (i_num i) ->
  (~ unlocked i -> P FBlocked) -> (k_full k -> lax P) ->
  (i_valid i = 0 -> d_type (dinode_of sb (k_data k) (i_num i)) = 0 -> P (FPanic "ilock: no type")) ->
  (forall m' x', quiet ∅ m m' -> b_rep x' k -> unlocked i ->
     let i' := locked_by me (if i_valid i =? 0 then loaded (k_data k) i else i) in
     Q tt (m', mkFs x' (<[ip := i']> (icache s)))) ->
  wp P (ilock me sb ip) (m, s) Q.
Proof.
  intros Hm [IR IG IM IH] Hi Hr Hd Hn Hb Hlax Hty HQ. unfold ilock. wp_next. apply (wp_iread _ _ _ i); [done|].
  replace (i_ref i <? 1) with false by lia. wp_next. apply (wp_lock_inode _ i); [done|done|done|].
  intros m1 Hm1 Hu. wp_next. apply (wp_iread _ _ _ (locked_by me i)); [cbn; by apply (lookup_at _ _ i)|]. unfold id.
  change (i_valid (locked_by me i)) with (i_valid i). apply wp_when; intros Hv.
  2:{ apply (HQ m1 (fblk s)) in Hu; [|done|done]. cbv zeta in Hu. by rewrite Hv in Hu. }
  change (i_dev (locked_by me i)) with (i_dev i). change (i_num (locked_by me i)) with (i_num i). rewrite Hd.
  destruct (geom_iblock sb k _ IG Hn) as (_ & Hrg & _). destruct (no_held sb k (IBLOCK sb (i_num i)) IH) as (Hh & H1 & _).
  apply (fwp_open _ _ _ k); [apply Hm1|done|done|done|done|done|]. intros bp m2 x2 Hm2 R2.
  apply (fwp_look _ _ _ k (IBLOCK sb (i_num i))); [done|].
  wp_next. apply (wp_iset _ _ _ (locked_by me i)); [cbn; by apply (lookup_at _ _ i)|]. cbn [fblk icache].
  rewrite list_insert_insert_eq. set (i2 := set_i_d _ (locked_by me i)).
  apply (fwp_close _ _ _ k (IBLOCK sb (i_num i))); [apply Hm2|done|done|]. intros m3 x3 Hm3 R3. cbn [icache].
  wp_next. apply (wp_iset _ _ _ i2); [cbn; by apply (lookup_at _ _ i)|]. cbn [fblk icache]. rewrite list_insert_insert_eq.
  wp_next. apply (wp_iread _ _ _ (set_i_valid 1 i2)); [cbn; by apply (lookup_at _ _ i)|].
  change (d_type (i_d (set_i_valid 1 i2))) with (d_type (dinode_of sb (k_data k) (i_num i))).
  destruct (d_type (dinode_of sb (k_data k) (i_num i)) =? 0) eqn:Et; [apply wp_panic, Hty; lia|]. apply wp_ret.
  assert (quiet ∅ m m3) as Hq by (do 2 (eapply quiet_trans; [done|]); done).
  specialize (HQ m3 x3 Hq R3 Hu). cbv zeta in HQ. by rewrite Hv in HQ.
Qed.

Lemma wp_iunlock m s ip i Q :
  msec ∅ m -> icache s !! ip = Some i -> 1 <= i_ref i -> holds me (i_lock i) ->
  (forall m', quiet ∅ m m' -> Q tt (m', mkFs (fblk s) (<[ip := unlock i]> (icache s)))) ->
  wp P (iunlock me ip) (m, s) Q.
Proof.
  intros Hm Hi Hr Hh HQ. unfold iunlock. wp_next. apply (wp_on_ilock _ _ i); [done|].
  apply wp_holdingsleep; [done|done|]. intros m1 Hm1. cbn [fst snd negb].
  assert (<[ip := set_i_lock (i_lock i) i]> (icache s) = icache s) as ->.
  { apply list_insert_id. rewrite Hi. by destruct i. }
  wp_next. apply (wp_iread _ _ _ i); [done|]. replace (i_ref i <? 1) with false by lia.
  apply (wp_unlock_inode _ i); [apply Hm1|done|]. intros m2 Hm2. apply HQ. by eapply quiet_trans.
Qed.

(** ** iput *)

(** The last reference to an inode without links. *)
Definition last_ref (i : inode) : Prop := i_valid i ≠ 0 /\ d_nlink (i_d i) = 0 /\ i_ref i = 1.

(** A reference dropped, and the inode unlocked. *)
Definition dropped (i : inode) : inode := set_i_ref (i_ref i - 1) (unlock i).

Lemma wp_drop_ref ip i m s Q :
  msec ∅ m -> icache s !! ip = Some i ->
  (forall m', quiet ∅ m m' -> Q tt (m', mkFs (fblk s) (<[ip := dropped i]> (icache s)))) ->
  wp P (on_ilock ip (releasesleep (ilock_id ip));;
        critical Licache (modify (upd_inode ip (fun i => set_i_ref (i_ref i - 1) i)))) (m, s) Q.
Proof.
  intros Hm Hi HQ. wp_next. apply (wp_unlock_inode _ i); [done|done|]. intros m1 Hm1.
  eapply wp_critical; [apply Hm1|apply not_elem_of_empty|]. apply wp_modify. intros m2 Hm2.
  rewrite (upd_inode_at _ _ _ (unlock i)) by (cbn; by apply (lookup_at _ _ i)). cbn [fblk icache].
  rewrite list_insert_insert_eq. apply HQ. by eapply quiet_trans.
Qed.

(** [iput] of any other reference only drops it. *)
Lemma wp_iput_keep m s ip i Q :
  msec ∅ m -> icache s !! ip = Some i -> (~ unlocked i -> P FBlocked) -> ~ last_ref i ->
  (forall m', quiet ∅ m m' -> unlocked i -> Q tt (m', mkFs (fblk s) (<[ip := dropped (locked_by me i)]> (icache s)))) ->
  wp P (iput me sb ip) (m, s) Q.
Proof.
  intros Hm Hi Hb Hl HQ. unfold iput. wp_next. apply (wp_lock_inode _ i); [done|done|done|]. intros m1 Hm1 Hu.
  assert (icache (mkFs (fblk s) (<[ip := locked_by me i]> (icache s))) !! ip = Some (locked_by me i)) as Hi1
    by (cbn; by apply (lookup_at _ _ i)).
  wp_next. apply (wp_iread _ _ _ (locked_by me i)); [done|]. unfold id.
  change (i_valid (locked_by me i)) with (i_valid i). change (i_d (locked_by me i)) with (i_d i).
  assert (forall m2, quiet ∅ m1 m2 -> wp P (on_ilock ip (releasesleep (ilock_id ip));;
    critical Licache (modify (upd_inode ip (fun i => set_i_ref (i_ref i - 1) i))))
    (m2, mkFs (fblk s) (<[ip := locked_by me i]> (icache s))) Q) as Hend.
  { intros m2 Hm2. apply (wp_drop_ref _ (locked_by me i)); [apply Hm2|done|]. intros m3 Hm3. cbn [fblk icache].
    rewrite list_insert_insert_eq. apply HQ; [|done]. do 2 (eapply quiet_trans; [done|]). done. }
  wp_next. apply wp_when; [|intros _; apply Hend, quiet_refl, Hm1]. intros Hc. wp_next.
  eapply wp_critical; [apply Hm1|apply not_elem_of_empty|]. apply wp_gets. intros m2 Hm2.
  unfold inode_at. rewrite Hi1. change (i_ref (default inode0 (Some (locked_by me i)))) with (i_ref i).
  apply wp_when; [|intros _; by apply Hend]. intros Hr. destruct Hl. split; [|split]; lia.
Qed.

(** The inode that [iput] frees. *)
Definition freed_inode (i : inode) : inode := set_i_d (set_d_type 0) (resized (replicate 13 0) 0 i).

(** What [iput] of the last reference to a file without links does to the disk. *)
Record reclaimed k i k' : Prop := mkRecl {
  rc_geom : geom sb k';
  rc_same : same_blocks k k';
  rc_used : forall b, 0 <= b < sb_size sb ->
    used sb (k_data k') b = true <-> used sb (k_data k) b = true /\ ~ owned (k_data k) (addrs i) b;
  rc_dinodes : forall j, is_inum sb j -> dinode_of sb (k_data k') j =
    if decide (j = i_num i) then i_d (freed_inode i) else dinode_of sb (k_data k) j;
  rc_blk : forall n, data0 sb <= n -> blk (k_data k') n = blk (k_data k) n }.

Lemma file_st_set s k ip i i' : file_st sb s k ip i -> i_dev i' = i_dev i -> addrs i' = addrs i ->
  file_st sb (mkFs (fblk s) (<[ip := i']> (icache s))) k ip i'.
Proof.
  intros [] H1 H2. constructor; try done; [cbn; by apply (lookup_at _ _ i)|congruence|by rewrite H2].
Qed.

Lemma reclaimed_iupd k1 k2 i m s m' s' ip :
  truncated sb m s k1 ip (locked_by me i) m' s' k2 -> is_inum sb (i_num i) -> dinode_ok (i_d i) ->
  reclaimed k1 i (k_iupd sb (i_num i) (i_d (freed_inode (locked_by me i))) k2).
Proof.
  intros [] Hn Hok. pose proof (fs_geom _ _ _ _ _ tc_st) as G.
  assert (dinode_ok (i_d (freed_inode (locked_by me i)))) as Hok2.
  { destruct Hok. constructor; cbn; try done. by repeat constructor. }
  constructor.
  - by apply geom_iupd.
  - etrans; [done|apply same_blocks_upd].
  - intros b Hb. rewrite used_iupd by done. by apply tc_used.
  - intros j Hj. rewrite dinode_iupd by done. destruct (decide (j = i_num i)) as [->|]; [done|].
    rewrite tc_dinodes by done. by rewrite decide_False.
  - intros n Hn'. destruct (geom_iblock sb k2 _ G Hn) as (? & ? & ? & ? & ?). rewrite blk_iupd by (done || lia). by apply tc_blk.
Qed.

Lemma wp_iput_last m s k ip i Q :
  msec ∅ m -> file_st sb s k ip i -> is_inum sb (i_num i) -> dinode_ok (i_d i) ->
  (~ unlocked i -> P FBlocked) -> last_ref i -> (poor sb (bm_set sb) 2 0 k -> lax P) ->
  (forall m' x' k', quiet ∅ m m' -> unlocked i -> b_rep x' k' -> reclaimed k i k' ->
     Q tt (m', mkFs x' (<[ip := dropped (set_i_valid 0 (freed_inode (locked_by me i)))]> (icache s)))) ->
  wp P (iput me sb ip) (m, s) Q.
Proof.
  intros Hm F Hn Hok Hb (Hv & Hl & Hr) Hlax HQ. pose proof (fs_in _ _ _ _ _ F) as Hi. unfold iput. wp_next.
  apply (wp_lock_inode _ i); [done|done|done|]. intros m1 Hm1 Hu.
  pose proof (file_st_set _ _ _ _ (locked_by me i) F eq_refl eq_refl) as F1.
  set (s1 := mkFs (fblk s) _) in *. pose proof (fs_in _ _ _ _ _ F1) as Hi1.
  wp_next. apply (wp_iread _ _ _ (locked_by me i)); [done|]. unfold id.
  change (i_valid (locked_by me i)) with (i_valid i). change (i_d (locked_by me i)) with (i_d i).
  replace (i_valid i =? 0) with false by lia. rewrite Hl. cbn [negb andb Z.eqb]. wp_next. unfold when at 1. wp_next.
  eapply wp_critical; [apply Hm1|apply not_elem_of_empty|]. apply wp_gets. intros m2 Hm2. unfold inode_at at 1. rewrite Hi1.
  change (i_ref (default inode0 (Some (locked_by me i)))) with (i_ref i). rewrite Hr. cbn [Z.eqb Pos.eqb]. unfold when.
  wp_next. apply (wp_itrunc sb P _ _ k _ (locked_by me i)); [apply Hm2|done|done|done| |].
  { intros H. apply Hlax. eapply poor_mono; [done|lia..]. }
  intros m3 s3 k3 T. pose proof T as [Tq TF Tic _ Tsp _ _ _]. pose proof (fs_in _ _ _ _ _ TF) as Hi3.
  wp_next. apply (wp_iset _ _ _ (resized (replicate 13 0) 0 (locked_by me i))); [done|].
  pose proof (file_st_set _ _ _ _ (freed_inode (locked_by me i)) TF eq_refl eq_refl) as F4.
  wp_next. apply (wp_iupdate sb P _ _ k3 _ (freed_inode (locked_by me i))); [apply Tq|done|done| |].
  { intros H. apply Hlax, (spent_poor sb _ 1 0 1 0 _ _ Tsp). left. by apply full_short. }
  intros m5 x5 Hm5 R5 F5. cbn [icache fblk] in *.
  apply (wp_iset _ _ _ (freed_inode (locked_by me i))); [apply (fs_in _ _ _ _ _ F5)|].
  cbn [icache fblk]. rewrite Tic, !list_insert_insert_eq.
  apply (wp_drop_ref _ (set_i_valid 0 (freed_inode (locked_by me i)))); [apply Hm5|cbn; by apply (lookup_at _ _ (locked_by me i))|].
  intros m6 Hm6. cbn [icache fblk]. unfold s1. cbn [icache]. rewrite !list_insert_insert_eq.
  eapply HQ; [|done|exact R5|exact (reclaimed_iupd k k3 i _ _ _ _ ip T Hn Hok)]. do 4 (eapply quiet_trans; [done|]). done.
Qed.

End locks.

(** [iput] drops a reference.  When it was the last one to a file without
    links, the file's blocks and its inode are free afterwards, and nothing else
    of the disk changed; otherwise the disk is untouched. *)
Theorem iput_correct {X} `{BW : BlockLaws X} me sb m (s : fs X) k ip i :
  msec ∅ m -> file_st sb s k ip i -> is_inum sb (i_num i) -> dinode_ok (i_d i) -> unlocked i ->
  ~ poor sb (bm_set sb) 2 0 k ->
  exists m' s' i' k', iput me sb ip (m, s) = Ok tt (m', s') /\ quiet ∅ m m' /\
    icache s' = <[ip := i']> (icache s) /\ i_ref i' = i_ref i - 1 /\ unlocked i' /\ b_rep (fblk s') k' /\
    ((last_ref i /\ reclaimed sb k i k' /\ i_valid i' = 0) \/ (~ last_ref i /\ k' = k /\ i_d i' = i_d i)).
Proof.
  intros Hm F Hn Hok Hu Hrich.
  destruct (wp_total (iput me sb ip) (m, s) (fun _ t => exists i' k', quiet ∅ m t.1 /\
    icache t.2 = <[ip := i']> (icache s) /\ i_ref i' = i_ref i - 1 /\ unlocked i' /\ b_rep (fblk t.2) k' /\
    ((last_ref i /\ reclaimed sb k i k' /\ i_valid i' = 0) \/ (~ last_ref i /\ k' = k /\ i_d i' = i_d i))))
    as ([] & [m' s'] & Hr & i' & k' & H); [|by exists m', s', i', k'].
  assert (last_ref i \/ ~ last_ref i) as [Hl|Hl] by (unfold last_ref; lia).
  - apply (wp_iput_last me sb no_failure m s k ip i); [done..|by intros| done|by intros|].
    intros m' x' k' Hq _ HR HC. eexists _, k'. split; [done|]. split; [reflexivity|].
    split; [done|]. split; [done|]. split; [done|]. by left.
  - apply (wp_iput_keep me sb no_failure m s ip i); [done|apply F|by intros|done|].
    intros m' Hq _. eexists _, k. split; [done|]. split; [reflexivity|].
    split; [done|]. split; [done|]. split; [apply F|]. by right.
Qed.
