(* ===== verification/FsDir.v ===== *)
(** * Directories: dirlookup and dirlink

    A directory is a file of 16-byte entries.  [dir_find] is what a directory
    says about a name: the offset and the inode number of the first entry for
    it.  [dirlookup] returns it, [dirlink] adds to it. *)

From stdpp Require Import base numbers gmap sets list strings.
From S2P Require Import Prelude CString Spinlock Sleeplock Bio BioRing BioSpec.
From S2P Require Import Log LogSpec Fs FsBlock FsAlloc FsFile FsInode FsDinode FsRW FsTrunc FsIcache.
Open Scope Z_scope.

(** ** Names *)

(** [namecmp] says that an entry is for a name. *)
Definition names (name de : list Z) : bool := namecmp name (de_name de) =? 0.

(** A name compares equal to its copy. *)
Lemma strncmp_padded t q n i :
  (forall j, (i <= j < i + n)%nat -> q j = KString.padded t i j) -> KString.strncmp_loop t q n i = 0.
Proof.
  revert i. induction n as [|n IH]; intros i Hq; cbn [KString.strncmp_loop]; [done|].
  assert (q i = t i) as E by (rewrite Hq by lia; unfold KString.padded; by rewrite Nat.sub_diag).
  destruct (decide (t i = 0)) as [H0|H0].
  - rewrite bool_decide_false by tauto. simpl. rewrite E. lia.
  - rewrite !bool_decide_true by done. simpl. apply IH. intros j Hj. rewrite Hq by lia.
    by rewrite KString.padded_step by (done || lia).
Qed.

Lemma length_strncpy_loop s t i n : length (KString.strncpy_loop s t i n) = length s.
Proof.
  revert s i. induction n as [|n IH]; intros s i; cbn [KString.strncpy_loop]; [done|].
  destruct (decide _); [rewrite IH; apply length_insert|].
  assert (forall m (u : list Z) j, length (KString.zero_fill u j m) = length u) as Hz.
  { clear. induction m as [|m IH]; intros u j; simpl; [done|]. rewrite IH. apply length_insert. }
  rewrite Hz. apply length_insert.
Qed.

(** The entry that [dirlink] writes. *)
Definition new_entry (name : list Z) (inum : Z) (old : list Z) : list Z :=
  put16 0 inum (replicate 2 0) ++ KString.strncpy (de_name old) (cbytes name) (Z.of_nat DIRSIZ).

Lemma length_new_entry name inum old : length old = 16%nat -> length (new_entry name inum old) = 16%nat.
Proof.
  intros Ho. unfold new_entry, KString.strncpy, de_name.
  rewrite length_app, length_strncpy_loop, length_drop, Ho. done.
Qed.

Lemma new_entry_inum name inum old : de_inum (new_entry name inum old) = inum mod 65536.
Proof.
  unfold de_inum, new_entry. rewrite <- (FsDinode.get16_put 0 inum (replicate 2 0)) by (simpl; lia).
  apply get16_ext. intros j Hj. apply lookup_app_l. rewrite length_put16. simpl. lia.
Qed.

Lemma new_entry_name name inum old : length old = 16%nat -> names name (new_entry name inum old) = true.
Proof.
  intros Ho. unfold names, namecmp. apply Z.eqb_eq. unfold KString.strncmp. apply strncmp_padded. intros j Hj.
  change (Z.to_nat (Z.of_nat DIRSIZ)) with 14%nat in *. unfold cbytes at 1.
  assert (de_name (new_entry name inum old) = KString.strncpy (de_name old) (cbytes name) (Z.of_nat DIRSIZ)) as -> by done.
  unfold KString.strncpy. rewrite KString.strncpy_loop_lookup.
  - by rewrite decide_True by (change (Z.to_nat (Z.of_nat DIRSIZ)) with 14%nat; lia).
  - unfold de_name. rewrite length_drop, Ho. change (Z.to_nat (Z.of_nat DIRSIZ)) with 14%nat. lia.
Qed.

(** ** What a directory says *)

(** The first entry for [name] at one of the offsets. *)
Fixpoint find_at (ent : Z -> list Z) (name : list Z) (offs : list Z) : option (Z * Z) :=
  match offs with
  | [] => None
  | off :: offs =>
      if negb (de_inum (ent off) =? 0) && names name (ent off) then Some (de_inum (ent off), off)
      else find_at ent name offs
  end.

(** The bytes of the entry at [off]. *)
Definition entry (D : list (list Z)) (l : list Z) (off : Z) : list Z := bytes D l off DESIZE.

Definition dir_find (D : list (list Z)) (l : list Z) (size : Z) (name : list Z) : option (Z * Z) :=
  find_at (entry D l) name (dir_offs size).

(** The first empty entry. *)
Fixpoint empty_at (ent : Z -> list Z) (offs : list Z) (fin : Z) : Z :=
  match offs with
  | [] => fin
  | off :: offs => if de_inum (ent off) =? 0 then off else empty_at ent offs fin
  end.

Lemma find_at_ext ent ent' name offs : (forall off, off ∈ offs -> ent off = ent' off) ->
  find_at ent name offs = find_at ent' name offs.
Proof.
  induction offs as [|o offs IH]; intros H; cbn [find_at]; [done|]. rewrite (H o) by left.
  rewrite IH; [done|]. intros off Ho. apply H. by right.
Qed.

Lemma find_at_app ent name o1 o2 :
  find_at ent name (o1 ++ o2) = match find_at ent name o1 with Some r => Some r | None => find_at ent name o2 end.
Proof. induction o1 as [|o o1 IH]; cbn [find_at app]; [done|]. by destruct (_ && _). Qed.

(** The entry at [o] replaced by one for [name]. *)
Lemma find_at_new ent ent' name offs o :
  (forall off, off ∈ offs -> off ≠ o -> ent' off = ent off) -> o ∈ offs ->
  find_at ent name offs = None -> de_inum (ent' o) ≠ 0 -> names name (ent' o) = true ->
  find_at ent' name offs = Some (de_inum (ent' o), o).
Proof.
  intros Hoff Ho Hn Hi Hm. induction offs as [|x offs IH]; [by apply elem_of_nil in Ho|]. cbn [find_at] in *.
  destruct (decide (x = o)) as [->|Hne].
  - replace (de_inum (ent' o) =? 0) with false by lia. by rewrite Hm.
  - rewrite (Hoff x) by (done || left). destruct (_ && _); [done|]. apply IH; [|by apply elem_of_cons in Ho as [->|]|done].
    intros off Hin. apply Hoff. by right.
Qed.

(** An empty entry replaced by one for another name. *)
Lemma find_at_other ent ent' name offs o :
  (forall off, off ∈ offs -> off ≠ o -> ent' off = ent off) -> 
  (o ∈ offs -> de_inum (ent o) = 0) -> names name (ent' o) = false ->
  find_at ent' name offs = find_at ent name offs.
Proof.
  intros Hoff He Hm. induction offs as [|x offs IH]; [done|]. cbn [find_at].
  assert (find_at ent' name offs = find_at ent name offs) as IH'.
  { apply IH; [intros off Hin; apply Hoff; by right|]. intros Hin. apply He. by right. }
  rewrite IH'. destruct (decide (x = o)) as [->|Hne].
  - rewrite Hm, He by left. by rewrite andb_false_r.
  - by rewrite (Hoff x) by (done || left).
Qed.

Lemma empty_at_spec ent offs fin : let o := empty_at ent offs fin in
  (o ∈ offs /\ de_inum (ent o) = 0) \/ (o = fin /\ forall off, off ∈ offs -> de_inum (ent off) ≠ 0).
Proof.
  cbv zeta. induction offs as [|x offs IH]; cbn [empty_at].
  - right. split; [done|]. intros off Ho. by apply elem_of_nil in Ho.
  - destruct (de_inum (ent x) =? 0) eqn:E; [left; split; [left|lia]|]. destruct IH as [[H1 H2]|[H1 H2]].
    + left. split; [by right|done].
    + right. split; [done|]. intros off [->|Ho]%elem_of_cons; [lia|by apply H2].
Qed.

(** The entries before the empty one are not empty. *)
Lemma empty_at_first ent n fin j : (Z.of_nat j * DESIZE < empty_at ent ((fun k => Z.of_nat k * DESIZE) <$> seq 0 n) fin) ->
  (j < n)%nat -> de_inum (ent (Z.of_nat j * DESIZE)) ≠ 0.
Proof.
  assert (forall a, (a <= j < a + n)%nat -> Z.of_nat j * DESIZE < empty_at ent ((fun k => Z.of_nat k * DESIZE) <$> seq a n) fin ->
    de_inum (ent (Z.of_nat j * DESIZE)) ≠ 0) as H; [|intros; apply (H 0%nat); [lia|done]].
  induction n as [|n IH]; intros a Ha; [lia|]. cbn [seq fmap list_fmap empty_at].
  destruct (de_inum (ent (Z.of_nat a * DESIZE)) =? 0) eqn:E; [unfold DESIZE; lia|].
  destruct (decide (j = a)) as [->|]; [lia|]. apply IH. lia.
Qed.

(** The offsets of a directory. *)
Lemma elem_dir_offs size off : 0 <= size -> off ∈ dir_offs (DESIZE * size) <-> exists j, off = DESIZE * j /\ 0 <= j < size.
Proof.
  intros Hs. unfold dir_offs. rewrite list_elem_of_fmap.
  replace ((DESIZE * size + DESIZE - 1) / DESIZE) with size.
  - unfold DESIZE. split.
    + intros (j & -> & Hj%elem_of_seq). exists (Z.of_nat j). lia.
    + intros (j & -> & Hj). exists (Z.to_nat j). split; [lia|]. apply elem_of_seq. lia.
  - unfold DESIZE. apply Z.div_unique with 15; lia.
Qed.

Lemma dir_offs_S size : 0 <= size -> dir_offs (DESIZE * (size + 1)) = dir_offs (DESIZE * size) ++ [DESIZE * size].
Proof.
  intros Hs. unfold dir_offs.
  assert (forall z, 0 <= z -> (DESIZE * z + DESIZE - 1) / DESIZE = z) as E
    by (intros z Hz; unfold DESIZE; symmetry; apply Z.div_unique with 15; lia).
  rewrite !E by lia. rewrite Z2Nat.inj_add by lia. change (Z.to_nat 1) with 1%nat. rewrite Nat.add_1_r, seq_S, fmap_app.
  simpl. do 2 f_equal. unfold DESIZE. lia.
Qed.

(** ** The code *)

Section dir.
Context {X : Type} `{BW : BlockLaws X} (me : Z) (sb : superblock) (P : failure -> Prop) (devs : Z -> @devsw X).
Implicit Types (s : fs X) (k : blks).

(** The inode [dp] is a directory of [sz] entries. *)
Record dir_st s k (dp : nat) (i : inode) (sz : Z) : Prop := mkDir {
  dr_file : file_st sb s k dp i;
  dr_type : d_type (i_d i) = T_DIR;
  dr_size : d_size (i_d i) = DESIZE * sz;
  dr_sz : 0 <= sz;
  dr_whole : whole (k_data k) (addrs i) (d_size (i_d i)) }.

Lemma dir_st_rep s k dp i sz x' : dir_st s k dp i sz -> b_rep x' k -> dir_st (mkFs x' (icache s)) k dp i sz.
Proof. intros [[] ? ? ?] HR. by constructor. Qed.

Notation ent k i := (entry (k_data k) (addrs i)).

(** One entry read. *)
Lemma wp_read_entry {A} s k dp i sz off m (K : Z * list Z -> M (mach * fs X) A) Q :
  msec ∅ m -> dir_st s k dp i sz -> off ∈ dir_offs (DESIZE * sz) -> (k_full k -> lax P) ->
  (forall m' x', quiet ∅ m m' -> b_rep x' k -> wp P (K (DESIZE, ent k i off)) (m', mkFs x' (icache s)) Q) ->
  wp P (r ← readi sb devs dp off DESIZE; K r) (m, s) Q.
Proof.
  intros Hm [F Ht Hs Hz W] Ho Hlax HK. apply elem_dir_offs in Ho as (j & -> & Hj); [|done]. pose proof W as [Hsz _].
  assert (MAXFILE * BSIZE = 71680) as Hmx by done. wp_next.
  apply (wp_readi sb P devs _ i _ _ _ _ k); [done|done|rewrite Ht; done|done|unfold DESIZE in *; lia|done|done| |].
  - unfold DESIZE in *. lia.
  - intros m' x' Hm' R' _ _. replace (Z.min DESIZE _) with DESIZE by (unfold DESIZE in *; lia). by apply HK.
Qed.

Lemma wp_dirlookup_loop s k dp i sz name offs m Q :
  msec ∅ m -> dir_st s k dp i sz -> (forall off, off ∈ offs -> off ∈ dir_offs (DESIZE * sz)) -> (k_full k -> lax P) ->
  (forall m' x', quiet ∅ m m' -> b_rep x' k -> find_at (ent k i) name offs = None ->
     Q None (m', mkFs x' (icache s))) ->
  (forall m' x' inum off, quiet ∅ m m' -> b_rep x' k -> find_at (ent k i) name offs = Some (inum, off) ->
     wp P (iget 1 inum) (m', mkFs x' (icache s)) (fun ip t => Q (Some (ip, off)) t)) ->
  wp P (dirlookup_loop sb devs dp name offs) (m, s) Q.
Proof.
  revert s m. induction offs as [|off offs IH]; intros s m Hm DS Hin Hlax HQ1 HQ2; cbn [dirlookup_loop find_at] in *.
  { apply wp_ret. destruct s as [x ic]. apply HQ1; [by apply quiet_refl|apply DS|done]. }
  eapply (wp_read_entry s k dp i sz); [done|done|apply Hin; left|done|]. intros m1 x1 Hm1 R1. cbn [fst snd].
  rewrite Z.eqb_refl. cbn [negb]. pose proof (dir_st_rep _ _ _ _ _ _ DS R1) as DS1.
  assert (forall off', off' ∈ offs -> off' ∈ dir_offs (DESIZE * sz)) as Hin' by (intros; apply Hin; by right).
  assert (negb (de_inum (ent k i off) =? 0) && names name (ent k i off) = false ->
    wp P (dirlookup_loop sb devs dp name offs) (m1, mkFs x1 (icache s)) Q) as Hnext.
  { intros E. rewrite E in *. apply IH; [apply Hm1|done|done|done| |].
    - intros m2 x2 Hm2 R2 Hf. apply HQ1; [by eapply quiet_trans|done|done].
    - intros m2 x2 inum off' Hm2 R2 Hf. apply HQ2; [by eapply quiet_trans|done|done]. }
  unfold names in Hnext at 1. destruct (de_inum _ =? 0) eqn:E0; [by apply Hnext|].
  destruct (namecmp name _ =? 0) eqn:E1; [|by apply Hnext].
  wp_next. apply (wp_iread _ _ _ i); [apply DS1|]. rewrite (fs_dev _ _ _ _ _ (dr_file _ _ _ _ _ DS)). wp_next.
  unfold names in HQ2 at 1. rewrite E1 in HQ2. cbn [negb andb] in HQ2.
  eapply wp_mono; [by apply (HQ2 m1 x1 _ off)|]. intros ip t Ht. by apply wp_ret.
Qed.

Lemma wp_dirlookup s k dp i sz name m Q :
  msec ∅ m -> dir_st s k dp i sz -> (k_full k -> lax P) ->
  (forall m' x', quiet ∅ m m' -> b_rep x' k -> dir_find (k_data k) (addrs i) (DESIZE * sz) name = None ->
     Q None (m', mkFs x' (icache s))) ->
  (forall m' x' inum off, quiet ∅ m m' -> b_rep x' k ->
     dir_find (k_data k) (addrs i) (DESIZE * sz) name = Some (inum, off) ->
     wp P (iget 1 inum) (m', mkFs x' (icache s)) (fun ip t => Q (Some (ip, off)) t)) ->
  wp P (dirlookup sb devs dp name) (m, s) Q.
Proof.
  intros Hm DS Hlax HQ1 HQ2. pose proof DS as [F Ht Hs _ _]. unfold dirlookup. wp_next.
  apply (wp_iread _ _ _ i); [apply F|]. rewrite Ht, Hs. cbn [negb Z.eqb T_DIR Pos.eqb].
  by apply (wp_dirlookup_loop s k dp i sz).
Qed.

Lemma wp_dirlink_loop s k dp i sz offs fin de m Q :
  msec ∅ m -> dir_st s k dp i sz -> (forall off, off ∈ offs -> off ∈ dir_offs (DESIZE * sz)) -> (k_full k -> lax P) ->
  length de = 16%nat ->
  (forall m' x' de', quiet ∅ m m' -> b_rep x' k -> length de' = 16%nat ->
     Q (empty_at (ent k i) offs fin, de') (m', mkFs x' (icache s))) ->
  wp P (dirlink_loop sb devs dp offs fin de) (m, s) Q.
Proof.
  revert s m de. induction offs as [|off offs IH]; intros s m de Hm DS Hin Hlax Hde HQ; cbn [dirlink_loop empty_at] in *.
  { apply wp_ret. destruct s as [x ic]. apply HQ; [by apply quiet_refl|apply DS|done]. }
  eapply (wp_read_entry s k dp i sz); [done|done|apply Hin; left|done|]. intros m1 x1 Hm1 R1. cbn [fst snd].
  rewrite Z.eqb_refl. cbn [negb]. assert (length (ent k i off) = 16%nat) as Hl by apply length_bytes.
  destruct (de_inum _ =? 0) eqn:E0; [apply wp_ret; by apply HQ|].
  apply (IH (mkFs x1 (icache s))); [apply Hm1|by apply dir_st_rep|intros; apply Hin; by right|done|done|].
  intros m2 x2 de' Hm2 R2 Hl'. apply HQ; [by eapply quiet_trans|done|done].
Qed.

(** Where [dirlink] puts a new entry. *)
Definition slot_of k i sz : Z := empty_at (ent k i) (dir_offs (DESIZE * sz)) (DESIZE * sz).

Lemma slot_range k i sz : 0 <= sz -> exists j, slot_of k i sz = DESIZE * j /\ 0 <= j <= sz.
Proof.
  intros Hz. destruct (empty_at_spec (ent k i) (dir_offs (DESIZE * sz)) (DESIZE * sz)) as [[H _]|[H _]].
  - apply elem_dir_offs in H as (j & E & Hj); [|done]. exists j. split; [exact E|lia].
  - exists sz. split; [exact H|lia].
Qed.

Lemma slot_first k i sz j : 0 <= sz -> 0 <= j -> DESIZE * j < slot_of k i sz -> de_inum (ent k i (DESIZE * j)) ≠ 0.
Proof.
  intros Hz Hj Hlt. pose proof (slot_range k i sz Hz) as (t & Et & Ht). assert (j < sz) by (unfold DESIZE in *; lia).
  unfold slot_of, dir_offs in Hlt. replace ((DESIZE * sz + DESIZE - 1) / DESIZE) with sz in Hlt by (unfold DESIZE; apply Z.div_unique with 15; lia).
  replace (DESIZE * j) with (Z.of_nat (Z.to_nat j) * DESIZE) in * by (unfold DESIZE; lia). eapply empty_at_first; [done|lia].
Qed.

Lemma wp_dirlink s k dp i sz name inum de0 m Q :
  msec ∅ m -> dir_st s k dp i sz -> is_inum sb (i_num i) -> dinode_ok (i_d i) -> length de0 = 16%nat ->
  dir_find (k_data k) (addrs i) (DESIZE * sz) name = None ->
  (poor sb (bm_set sb) 9 4 k -> lax P) -> (MAXFILE * BSIZE < slot_of k i sz + DESIZE -> P (FPanic "dirlink")) ->
  (forall m1 x1 m' s' k' i' de, quiet ∅ m m1 -> length de = 16%nat -> slot_of k i sz + DESIZE <= MAXFILE * BSIZE ->
     wrote sb (bm_set sb) 9 4 m1 (mkFs x1 (icache s)) k dp i (slot_of k i sz) (new_entry name inum de) m' s' k' i' ->
     Q 0 (m', s')) ->
  wp P (dirlink me sb devs dp name inum de0) (m, s) Q.
Proof.
  intros Hm DS Hn Hok Hde Hf Hlax Hmax HQ. pose proof DS as [F Ht Hs Hz W]. pose proof (slot_range k i sz Hz) as (j & Ej & Hj).
  assert (k_full k -> lax P) as Hfull by (intros; apply Hlax; left; by apply full_short).
  assert (MAXFILE * BSIZE = 71680) as Hmx by done. pose proof (proj1 W) as Hsm. rewrite Hs in Hsm. unfold dirlink. wp_next.
  apply (wp_dirlookup s k dp i sz); [done|done|done| |intros; congruence]. intros m1 x1 Hm1 R1 _.
  pose proof (dir_st_rep _ _ _ _ _ _ DS R1) as DS1. wp_next. apply (wp_iread _ _ _ i); [apply DS1|]. rewrite Hs.
  replace (DESIZE * ((DESIZE * sz + DESIZE - 1) / DESIZE)) with (DESIZE * sz)
    by (f_equal; unfold DESIZE; apply Z.div_unique with 15; lia).
  wp_next. apply (wp_dirlink_loop (mkFs x1 (icache s)) k dp i sz); [apply Hm1|done|done|done|done|].
  intros m2 x2 de Hm2 R2 Hl. cbn [fst snd icache]. change (empty_at _ _ _) with (slot_of k i sz).
  pose proof (dir_st_rep _ _ _ _ _ _ DS R2) as DS2. pose proof DS2 as [F2 _ _ _ _].
  change (put16 0 inum (replicate 2 0) ++ _) with (new_entry name inum de). pose proof (length_new_entry name inum de Hl) as Hln.
  wp_next.
  apply (wp_writei sb P (bm_set sb) devs _ i _ _ _ _ _ k);
    [apply Hm2|done|done|done|rewrite Ht; done|done|unfold DESIZE in *; lia|done|rewrite Hln; done|apply elem_bm_set|done| |].
  - intros Hbig. apply wp_panic, Hmax. unfold DESIZE in *. lia.
  - intros m3 s3 k3 i3 _ Hfit HW. cbn [negb Z.eqb]. rewrite Z.eqb_refl. apply wp_ret.
    rewrite take_ge in HW by (rewrite Hln; unfold DESIZE; lia).
    apply (HQ m2 x2 m3 s3 k3 i3 de); [by eapply quiet_trans|done|done|exact HW].
Qed.

(** The entries after one of them is written. *)
Lemma entry_over D l D' l' o e t : length e = 16%nat -> (forall x, off_ok x -> fbyte D' l' x = over o e (fbyte D l) x) ->
  (DESIZE | o) -> 0 <= t -> DESIZE * t + DESIZE <= MAXFILE * BSIZE ->
  entry D' l' (DESIZE * t) = if decide (DESIZE * t = o) then e else entry D l (DESIZE * t).
Proof.
  intros Hl HB [u Hu] Ht Hm. assert (MAXFILE * BSIZE = 71680) as Hmx by done.
  apply list_eq. intros q. destruct (decide (q < 16)%nat) as [Hq|Hq].
  - unfold entry at 1, bytes at 1. rewrite list_lookup_fmap, lookup_seqZ_lt by (unfold DESIZE; lia). simpl.
    rewrite HB by (unfold off_ok, DESIZE in *; lia). unfold over. rewrite Hl.
    destruct (decide (DESIZE * t = o)) as [E|E].
    + rewrite decide_True by lia. replace (Z.to_nat (DESIZE * t + Z.of_nat q - o)) with q by lia.
      destruct (lookup_lt_is_Some_2 e q) as [v Hv]; [lia|]. by rewrite Hv.
    + rewrite decide_False by (unfold DESIZE in *; lia). unfold entry, bytes.
      by rewrite list_lookup_fmap, lookup_seqZ_lt by (unfold DESIZE; lia).
  - rewrite !lookup_ge_None_2; [done| |].
    + destruct (decide (DESIZE * t = o)); [lia|]. unfold entry. rewrite length_bytes. change (Z.to_nat DESIZE) with 16%nat. lia.
    + unfold entry. rewrite length_bytes. change (Z.to_nat DESIZE) with 16%nat. lia.
Qed.

(** The directory after [dirlink]. *)
Section linked.
Context (s0 : fs X) (k : blks) (dp : nat) (i : inode) (sz : Z) (name : list Z) (inum : Z) (de : list Z).
Context (m' : mach) (s' : fs X) (k' : blks) (i' : inode) (c f : nat) (m0 : mach) (x0 : X).
Context (DS : dir_st s0 k dp i sz) (Hde : length de = 16%nat) (Hmax : DESIZE * sz + DESIZE <= MAXFILE * BSIZE).
Let o := slot_of k i sz.
Let e := new_entry name inum de.
Context (HW : wrote sb (bm_set sb) c f m0 (mkFs x0 (icache s0)) k dp i o e m' s' k' i').
Let sz' := if decide (o = DESIZE * sz) then sz + 1 else sz.

Lemma linked_len : length e = 16%nat.
Proof. by apply length_new_entry. Qed.

Lemma linked_ent off : off ∈ dir_offs (DESIZE * sz) \/ off = DESIZE * sz ->
  ent k' i' off = if decide (off = o) then e else ent k i off.
Proof.
  intros Ho. pose proof linked_len as Hl. pose proof DS as [_ _ _ Hz _].
  destruct (slot_range k i sz Hz) as (j & Ej & Hj). fold o in Ej.
  assert (exists t, off = DESIZE * t /\ 0 <= t <= sz) as (t & -> & Ht).
  { destruct Ho as [Ho| ->]; [|by exists sz]. apply elem_dir_offs in Ho as (t & -> & Ht); [|done]. exists t. split; [done|lia]. }
  apply entry_over; [done|apply HW|exists j; lia|lia|unfold DESIZE in *; lia].
Qed.

Lemma linked_dir : dir_st s' k' dp i' sz'.
Proof.
  pose proof DS as [F Ht Hs Hz W]. destruct (slot_range k i sz Hz) as (j & Ej & Hj). fold o in Ej.
  destruct (w_i _ _ _ _ _ _ _ _ _ _ _ _ _ _ _ HW) as [l' Hi']. constructor; [apply HW|by rewrite Hi'| | |apply HW].
  - rewrite Hi'. change (Z.max (d_size (i_d i)) (o + Z.of_nat (length e)) = DESIZE * sz').
    rewrite linked_len, Hs. unfold sz'. destruct (decide (o = DESIZE * sz)); unfold DESIZE in *; lia.
  - unfold sz'. destruct (decide _); lia.
Qed.

Lemma linked_offs : dir_offs (DESIZE * sz') = dir_offs (DESIZE * sz) ++ (if decide (o = DESIZE * sz) then [o] else []).
Proof.
  pose proof DS as [_ _ _ Hz _]. unfold sz'. destruct (decide _) as [E|]; [|by rewrite app_nil_r].
  rewrite dir_offs_S by done. by rewrite E.
Qed.

Lemma slot_empty : o ∈ dir_offs (DESIZE * sz) -> de_inum (ent k i o) = 0.
Proof.
  intros Ho. pose proof DS as [_ _ _ Hz _].
  destruct (empty_at_spec (ent k i) (dir_offs (DESIZE * sz)) (DESIZE * sz)) as [[_ H]|[H _]]; [exact H|].
  apply elem_dir_offs in Ho as (j & E & Hj); [|done]. change (empty_at _ _ _) with o in H. unfold DESIZE in *. lia.
Qed.

Lemma slot_in : o ∈ dir_offs (DESIZE * sz').
Proof.
  rewrite linked_offs. destruct (empty_at_spec (ent k i) (dir_offs (DESIZE * sz)) (DESIZE * sz)) as [[H _]|[H _]].
  - apply elem_of_app. by left.
  - change (empty_at _ _ _) with o in H. rewrite decide_True by done. apply elem_of_app. right. left.
Qed.

Lemma linked_slot : ent k' i' o = e.
Proof.
  rewrite linked_ent; [by rewrite decide_True|]. pose proof slot_in as H. rewrite linked_offs in H.
  apply elem_of_app in H as [H|H]; [by left|right]. destruct (decide _); [done|by apply elem_of_nil in H].
Qed.

Lemma linked_off off : off ∈ dir_offs (DESIZE * sz) -> off ≠ o -> ent k' i' off = ent k i off.
Proof. intros Ho Hne. rewrite linked_ent by (by left). by rewrite decide_False. Qed.

Lemma slot_cases : o ∈ dir_offs (DESIZE * sz) /\ o ≠ DESIZE * sz \/ o ∉ dir_offs (DESIZE * sz) /\ o = DESIZE * sz.
Proof.
  pose proof DS as [_ _ _ Hz _].
  assert (forall x, x ∈ dir_offs (DESIZE * sz) -> x ≠ DESIZE * sz) as Hlt.
  { intros x Hx. apply elem_dir_offs in Hx as (j & E & Hj); [|done]. unfold DESIZE in *. lia. }
  destruct (empty_at_spec (ent k i) (dir_offs (DESIZE * sz)) (DESIZE * sz)) as [[H _]|[H _]];
    change (empty_at _ _ _) with o in H; [left|right].
  - split; [done|by apply Hlt].
  - split; [|done]. intros Hin. by apply (Hlt o).
Qed.

(** The new name is found. *)
Lemma linked_find : 0 < inum < 65536 -> dir_find (k_data k) (addrs i) (DESIZE * sz) name = None ->
  dir_find (k_data k') (addrs i') (DESIZE * sz') name = Some (inum, o).
Proof.
  intros Hi Hf. assert (de_inum e = inum) as Ei by (unfold e; rewrite new_entry_inum; apply Z.mod_small; lia).
  assert (names name e = true) as En by (by apply new_entry_name). unfold dir_find in *.
  rewrite linked_offs, find_at_app. destruct slot_cases as [[Ho Hne]|[Ho He]].
  - rewrite (find_at_new (ent k i) (ent k' i') name _ o); [by rewrite linked_slot, Ei|apply linked_off|done|done| |];
      rewrite linked_slot; [lia|done].
  - rewrite (find_at_ext _ (ent k i)), Hf by (intros off Hin; apply linked_off; [done|congruence]).
    rewrite decide_True by done. cbn [find_at]. rewrite linked_slot, En, Ei.
    by replace (inum =? 0) with false by lia.
Qed.

(** What the directory says of other names is as before. *)
Lemma linked_other name' : names name' e = false ->
  dir_find (k_data k') (addrs i') (DESIZE * sz') name' = dir_find (k_data k) (addrs i) (DESIZE * sz) name'.
Proof.
  intros Hn. unfold dir_find. rewrite linked_offs, find_at_app. destruct slot_cases as [[Ho Hne]|[Ho He]].
  - rewrite (find_at_other (ent k i) (ent k' i') name' _ o);
      [|apply linked_off|intros _; by apply slot_empty|by rewrite linked_slot].
    rewrite decide_False by done. by destruct (find_at _ _ _).
  - rewrite (find_at_ext _ (ent k i)) by (intros off Hin; apply linked_off; [done|congruence]).
    rewrite decide_True by done. cbn [find_at]. rewrite linked_slot, Hn, andb_false_r. by destruct (find_at _ _ _).
Qed.

End linked.

End dir.

(** A directory is a map from names to inodes: [dirlink] of a name that is not
    there succeeds (with room for the entry), [dirlookup] then finds the inode
    under that name, and what the directory says of other names is as before. *)
Theorem dirlink_dirlookup {X} `{BW : BlockLaws X} me sb devs m (s : fs X) k dp i sz name inum de0 t j :
  msec ∅ m -> dir_st sb s k dp i sz -> is_inum sb (i_num i) -> dinode_ok (i_d i) -> length de0 = 16%nat ->
  dir_find (k_data k) (addrs i) (DESIZE * sz) name = None -> 0 < inum < 65536 ->
  ~ poor sb (bm_set sb) 9 4 k -> DESIZE * sz + DESIZE <= MAXFILE * BSIZE ->
  icache s !! t = Some j -> i_ref j = 0 -> i_ref i ≠ 0 ->
  exists m' s' k' i' sz' ip e o en,
    (r ← dirlink me sb devs dp name inum de0; q ← dirlookup sb devs dp name; mret (r, q)) (m, s) =
      Ok (0, Some (ip, o)) (m', s') /\
    icache s' !! ip = Some e /\ is_for 1 inum e /\ b_rep (fblk s') k' /\
    dir_find (k_data k') (addrs i') (DESIZE * sz') name = Some (inum, o) /\ names name en = true /\
    forall name', names name' en = false ->
      dir_find (k_data k') (addrs i') (DESIZE * sz') name' = dir_find (k_data k) (addrs i) (DESIZE * sz) name'.
Proof.
  intros Hm DS Hn Hok Hde Hf Hi Hrich Hmax Ht Hj Hri.
  assert (wp no_failure (r ← dirlink me sb devs dp name inum de0; q ← dirlookup sb devs dp name; mret (r, q)) (m, s)
    (fun r st => exists k' i' sz' ip e o en, r = (0, Some (ip, o)) /\
      icache st.2 !! ip = Some e /\ is_for 1 inum e /\ b_rep (fblk st.2) k' /\
      dir_find (k_data k') (addrs i') (DESIZE * sz') name = Some (inum, o) /\ names name en = true /\
      forall name', names name' en = false ->
        dir_find (k_data k') (addrs i') (DESIZE * sz') name' = dir_find (k_data k) (addrs i) (DESIZE * sz) name')) as HWP.
  2:{ apply wp_total in HWP as (r & [m' s'] & Hr & k' & i' & sz' & ip & e & o & en & -> & H).
      by exists m', s', k', i', sz', ip, e, o, en. }
  wp_next. apply (wp_dirlink me sb _ devs s k dp i sz); [done|done|done|done|done|done|by intros| |].
  { destruct (slot_range k i sz ltac:(apply DS)) as (q & -> & ?). unfold DESIZE in *. lia. }
  intros m1 x1 m2 s2 k2 i2 de Hm1 Hl _ HW. set (o := slot_of k i sz) in *. set (en := new_entry name inum de) in *.
  pose proof (linked_dir sb s k dp i sz name inum de m2 s2 k2 i2 9 4 m1 x1 DS Hl HW) as DS2.
  pose proof (linked_find sb s k dp i sz name inum de m2 s2 k2 i2 9 4 m1 x1 DS Hl Hmax HW Hi Hf) as Hf2.
  pose proof (linked_other sb s k dp i sz name inum de m2 s2 k2 i2 9 4 m1 x1 DS Hl Hmax HW) as Ho2.
  fold o en in DS2, Hf2, Ho2. set (sz' := if decide _ then _ else _) in *. 
  assert (icache s2 = <[dp := i2]> (icache s)) as Hic by apply HW.
  pose proof (fs_in _ _ _ _ _ (dr_file _ _ _ _ _ _ DS)) as Hdp.
  wp_next. apply (wp_dirlookup sb _ devs s2 k2 dp i2 sz'); [apply HW|done| |intros; congruence|].
  { intros Hfu. by destruct (spent_not_full sb _ _ _ _ _ (w_spent _ _ _ _ _ _ _ _ _ _ _ _ _ _ _ HW) Hrich). }
  intros m3 x3 inum' o' Hm3 R3 Hfind. rewrite Hf2 in Hfind. injection Hfind as <- <-.
  apply wp_iget; [apply Hm3| | |].
  - intros _ Hall. cbn [icache] in Hall. destruct (Hall t j); [|done]. rewrite Hic, list_lookup_insert_ne; [done|]. congruence.
  - intros ip e m4 Hm4 Hip Hfor. apply wp_ret. exists k2, i2, sz', ip, (set_i_ref (i_ref e + 1) e), o, en.
    cbn [snd icache fblk] in *. split; [done|]. split; [by apply (lookup_at _ _ e)|].
    split; [destruct Hfor as (? & ? & ?); split; [cbn; lia|done]|]. split; [done|]. split; [done|].
    split; [by apply new_entry_name|exact Ho2].
  - intros ip e m4 Hm4 _ Hip H0. apply wp_ret. exists k2, i2, sz', ip, (fresh_entry 1 inum e), o, en.
    cbn [snd icache fblk] in *. split; [done|]. split; [by apply (lookup_at _ _ e)|].
    split; [by split|]. split; [done|]. split; [done|]. split; [by apply new_entry_name|exact Ho2].
Qed.
