(* ===== verification/SysFile.v ===== *)
(** * System calls on the file system: sysfile.c and the rest of file.c

    [sys_link], [sys_unlink], [create], [sys_open], [sys_mkdir], [sys_mknod],
    [sys_chdir], and [fileread], [filewrite], [filestat] of file.c on the inode
    behind an open file, over the functions of Fs.v.

    The arguments are what [argstr] and [argint] fetched, [None] when they failed.
    [cwd] is [curproc->cwd].  [name0] and [de0] are what the local variables [name]
    and [de] hold at first.  The table of open files is File.v: here [got] says
    whether [filealloc] and [fdalloc] succeed. *)

From stdpp Require Import base numbers gmap list strings.
From S2P Require Import Prelude CString Spinlock Sleeplock Bio Log Pipe File Fs.
Open Scope Z_scope.

(** ** The transactions around the calls *)

Class TxnLayer (X : Type) := mkTxnLayer {
  t_begin : M (mach * X) unit;
  t_end : M (mach * X) unit }.

Definition O_RDONLY : Z := 0.
Definition O_CREATE : Z := 512.

Definition DOT : list Z := [46].
Definition DOTDOT : list Z := [46; 46].

(** [ip->nlink += n], a [short]. *)
Definition add_nlink (n : Z) (d : dinode) : dinode := set_d_nums (d_major d) (d_minor d) (i16 (d_nlink d + n)) d.

Section sysfile.
Context {X : Type} `{BL : BlockLayer X} `{TL : TxnLayer X} (me : Z) (sb : superblock) (devs : Z -> @devsw X).
Context (name0 de0 : list Z).

Notation MF := (M (mach * fs X)).

Definition begin_op : MF unit := on_blk t_begin.
Definition end_op : MF unit := on_blk t_end.

Definition itype (ip : nat) : MF Z := iread (fun i => d_type (i_d i)) ip.

(** ** link *)

(** The label [bad] of [sys_link]. *)
Definition link_bad (ip : nat) : MF Z :=
  ilock me sb ip;;
  iset (set_i_d (add_nlink (-1))) ip;;
  iupdate sb ip;;
  iunlockput me sb ip;;
  end_op;;
  mret (-1).

(** [dp->dev != ip->dev || dirlink(dp, name, ip->inum) < 0] *)
Definition link_fails (dp ip : nat) (name : list Z) : MF bool :=
  d1 ← iread i_dev dp;
  d2 ← iread i_dev ip;
  if negb (d1 =? d2) then mret true else
  inum ← iread i_num ip;
  r ← dirlink me sb devs dp name inum de0;
  mret (r <? 0).

Definition sys_link (cwd : nat) (old new : option (list Z)) : MF Z :=
  match old, new with
  | Some old, Some new =>
      begin_op;;
      r ← namei me sb devs cwd old name0;
      match r with
      | None => end_op;; mret (-1)
      | Some ip =>
          ilock me sb ip;;
          t ← itype ip;
          if t =? T_DIR then iunlockput me sb ip;; end_op;; mret (-1) else
          iset (set_i_d (add_nlink 1)) ip;;
          iupdate sb ip;;
          iunlock me ip;;
          r ← nameiparent me sb devs cwd new name0;
          match r with
          | (None, _) => link_bad ip
          | (Some dp, name) =>
              ilock me sb dp;;
              b ← link_fails dp ip name;
              if (b : bool) then iunlockput me sb dp;; link_bad ip else
              iunlockput me sb dp;;
              iput me sb ip;;
              end_op;;
              mret 0
          end
      end
  | _, _ => mret (-1)
  end.

(** ** unlink *)

Fixpoint isdirempty_loop (dp : nat) (offs : list Z) : MF bool :=
  match offs with
  | [] => mret true
  | off :: offs =>
      r ← readi sb devs dp off DESIZE;
      if negb (r.1 =? DESIZE) then panic "isdirempty: readi" else
      if negb (de_inum r.2 =? 0) then mret false else isdirempty_loop dp offs
  end.

(** [for(off=2*sizeof(de); off<dp->size; off+=sizeof(de))] *)
Definition isdirempty (dp : nat) : MF bool :=
  size ← iread (fun i => d_size (i_d i)) dp;
  isdirempty_loop dp (drop 2 (dir_offs size)).

(** The label [bad] of [sys_unlink]. *)
Definition unlink_bad (dp : nat) : MF Z :=
  iunlockput me sb dp;;
  end_op;;
  mret (-1).

Definition sys_unlink (cwd : nat) (path : option (list Z)) : MF Z :=
  match path with
  | None => mret (-1)
  | Some path =>
      begin_op;;
      r ← nameiparent me sb devs cwd path name0;
      match r with
      | (None, _) => end_op;; mret (-1)
      | (Some dp, name) =>
          ilock me sb dp;;
          if (namecmp name DOT =? 0) || (namecmp name DOTDOT =? 0) then unlink_bad dp else
          r ← dirlookup sb devs dp name;
          match r with
          | None => unlink_bad dp
          | Some (ip, off) =>
              ilock me sb ip;;
              n ← iread (fun i => d_nlink (i_d i)) ip;
              if n <? 1 then panic "unlink: nlink < 1" else
              t ← itype ip;
              full ← (if t =? T_DIR then b ← isdirempty ip; mret (negb b) else mret false);
              if (full : bool) then iunlockput me sb ip;; unlink_bad dp else
              w ← writei sb devs dp (replicate 16 0) off DESIZE;
              if negb (w =? DESIZE) then panic "unlink: writei" else
              t ← itype ip;
              when (t =? T_DIR) (iset (set_i_d (add_nlink (-1))) dp;; iupdate sb dp);;
              iunlockput me sb dp;;
              iset (set_i_d (add_nlink (-1))) ip;;
              iupdate sb ip;;
              iunlockput me sb ip;;
              end_op;;
              mret 0
          end
      end
  end.

(** ** create *)

(** [ialloc] never returns a null pointer. *)
Definition create (cwd : nat) (path : list Z) (type major minor : Z) : MF (option nat) :=
  r ← nameiparent me sb devs cwd path name0;
  match r with
  | (None, _) => mret None
  | (Some dp, name) =>
      ilock me sb dp;;
      r ← dirlookup sb devs dp name;
      match r with
      | Some (ip, _) =>
          iunlockput me sb dp;;
          ilock me sb ip;;
          t ← itype ip;
          if (type =? T_FILE) && (t =? T_FILE) then mret (Some ip) else
          iunlockput me sb ip;;
          mret None
      | None =>
          dev ← iread i_dev dp;
          ip ← ialloc sb dev type;
          ilock me sb ip;;
          iset (set_i_d (set_d_nums major minor 1)) ip;;
          iupdate sb ip;;
          when (type =? T_DIR) (
            iset (set_i_d (add_nlink 1)) dp;;
            iupdate sb dp;;
            inum ← iread i_num ip;
            r ← dirlink me sb devs ip DOT inum de0;
            b ← (if r <? 0 then mret true else
                 dnum ← iread i_num dp;
                 r ← dirlink me sb devs ip DOTDOT dnum de0;
                 mret (r <? 0));
            if (b : bool) then panic "create dots" else mret tt);;
          inum ← iread i_num ip;
          r ← dirlink me sb devs dp name inum de0;
          if r <? 0 then panic "create: dirlink" else
          iunlockput me sb dp;;
          mret (Some ip)
      end
  end.

(** ** open, mkdir, mknod, chdir *)

(** The inode for the path, locked. *)
Definition open_path (cwd : nat) (path : list Z) (omode : Z) : MF (option nat) :=
  if negb (Z.land omode O_CREATE =? 0) then create cwd path T_FILE 0 0 else
  r ← namei me sb devs cwd path name0;
  match r with
  | None => mret None
  | Some ip =>
      ilock me sb ip;;
      t ← itype ip;
      if (t =? T_DIR) && negb (omode =? O_RDONLY) then iunlockput me sb ip;; mret None else
      mret (Some ip)
  end.

(** The inode of the new open file. *)
Definition sys_open (cwd : nat) (path : option (list Z)) (omode : option Z) (got : bool) : MF (option nat) :=
  match path, omode with
  | Some path, Some omode =>
      begin_op;;
      r ← open_path cwd path omode;
      match r with
      | None => end_op;; mret None
      | Some ip =>
          if negb got then iunlockput me sb ip;; end_op;; mret None else
          iunlock me ip;;
          end_op;;
          mret (Some ip)
      end
  | _, _ => mret None
  end.

(** [sys_mkdir] and [sys_mknod] after [begin_op]. *)
Definition make (cwd : nat) (path : option (list Z)) (type : Z) (nums : option (Z * Z)) : MF Z :=
  begin_op;;
  r ← (match path, nums with
       | Some path, Some (major, minor) => create cwd path type (i16 major) (i16 minor)
       | _, _ => mret None
       end);
  match r with
  | None => end_op;; mret (-1)
  | Some ip => iunlockput me sb ip;; end_op;; mret 0
  end.

Definition sys_mkdir (cwd : nat) (path : option (list Z)) : MF Z := make cwd path T_DIR (Some (0, 0)).

Definition sys_mknod (cwd : nat) (path : option (list Z)) (nums : option (Z * Z)) : MF Z :=
  make cwd path T_DEV nums.

(** The result and the new [cwd]. *)
Definition sys_chdir (cwd : nat) (path : option (list Z)) : MF (Z * nat) :=
  begin_op;;
  r ← (match path with Some path => namei me sb devs cwd path name0 | None => mret None end);
  match r with
  | None => end_op;; mret (-1, cwd)
  | Some ip =>
      ilock me sb ip;;
      t ← itype ip;
      if negb (t =? T_DIR) then iunlockput me sb ip;; end_op;; mret (-1, cwd) else
      iunlock me ip;;
      iput me sb cwd;;
      end_op;;
      mret (0, ip)
  end.

(** ** Open files *)

(** The end of [fileclose] for the last reference to a file with an inode. *)
Definition close_inode (ip : nat) : MF unit :=
  begin_op;;
  iput me sb ip;;
  end_op.

Definition filestat (f : File.file) : MF (option stat) :=
  match File.type f with
  | File.FD_INODE =>
      ilock me sb (File.ip f);;
      st ← stati (File.ip f);
      iunlock me (File.ip f);;
      mret (Some st)
  | _ => mret None
  end.

Definition set_off (v : Z) (f : File.file) : File.file :=
  File.mkFile (File.type f) (File.ref f) (File.readable f) (File.writable f) (File.fpipe f) (File.ip f) v.

(** [piperead] and [pipewrite] on a pipe (Pipe.v). *)
Context (piperead : Z -> Z -> MF (Z * list Z)) (pipewrite : Z -> list Z -> Z -> MF Z).

(** The result, the bytes stored, and the file. *)
Definition fileread (f : File.file) (n : Z) : MF (Z * list Z * File.file) :=
  if negb (File.readable f) then mret (-1, [], f) else
  match File.type f with
  | File.FD_PIPE => r ← piperead (File.fpipe f) n; mret (r, f)
  | File.FD_INODE =>
      ilock me sb (File.ip f);;
      r ← readi sb devs (File.ip f) (File.off f) (u32 n);
      iunlock me (File.ip f);;
      mret (r, if r.1 >? 0 then set_off (u32 (File.off f + r.1)) f else f)
  | File.FD_NONE => panic "fileread"
  end.

(** [((MAXOPBLOCKS-1-1-2) / 2) * 512] *)
Definition write_max : Z := (MAXOPBLOCKS - 1 - 1 - 2) / 2 * 512.

(** The loop: [addr] are the bytes from [i] on. *)
Fixpoint filewrite_loop (fuel : nat) (f : File.file) (addr : list Z) (i n : Z) : MF (Z * File.file) :=
  match fuel with
  | O => mret (i, f)
  | S fuel =>
      if i <? n then
        let n1 := if n - i >? write_max then write_max else n - i in
        begin_op;;
        ilock me sb (File.ip f);;
        r ← writei sb devs (File.ip f) addr (File.off f) n1;
        iunlock me (File.ip f);;
        end_op;;
        let f := if r >? 0 then set_off (u32 (File.off f + r)) f else f in
        if r <? 0 then mret (i, f) else
        if negb (r =? n1) then panic "short filewrite" else
        filewrite_loop fuel f (drop (Z.to_nat r) addr) (i + r) n
      else mret (i, f)
  end.

(** Every turn but the last writes [write_max] bytes. *)
Definition write_fuel (n : Z) : nat := Z.to_nat (n / write_max + 2).

Definition filewrite (f : File.file) (addr : list Z) (n : Z) : MF (Z * File.file) :=
  if negb (File.writable f) then mret (-1, f) else
  match File.type f with
  | File.FD_PIPE => r ← pipewrite (File.fpipe f) addr n; mret (r, f)
  | File.FD_INODE =>
      r ← filewrite_loop (write_fuel n) f addr 0 n;
      mret (if r.1 =? n then n else -1, r.2)
  | File.FD_NONE => panic "filewrite"
  end.

End sysfile.
