(* ===== verification/Exec.v ===== *)
(** * Starting a program: exec.c, elf.h, [loaduvm] of vm.c and [sys_exec] of sysfile.c

    [exec] reads an ELF file through the file system of Fs.v and SysFile.v and builds
    an address space with the page tables of Vm.v.  The two share the machine: its
    state is part of [ekm].

    Strings are lists of bytes without their NUL; [argv] is the vector up to its null
    pointer.  The strings lie in the memory of the old address space, which stays
    as it is until the new one is in place.  [cwd] is the inode [curproc->cwd].  The
    message for a missing file and [switchuvm] are not part of the model. *)

From stdpp Require Import base numbers gmap list strings.
From S2P Require Import Prelude CString Spinlock ProcState Syscall Sleeplock Bio Log Kalloc Vm Pipe File Fs SysFile.
Import Kalloc Vm.
Open Scope Z_scope.

(** ** elf.h *)

(** 0x464C457F *)
Definition ELF_MAGIC : Z := 1179403647.
Definition ELF_PROG_LOAD : Z := 1.
Definition MAXARG : nat := 32.

Record elfhdr := mkElf { e_magic : Z; e_entry : Z; e_phoff : Z; e_phnum : Z }.
Definition ELFSIZE : Z := 52.

Definition elfhdr_of (b : list Z) : elfhdr := mkElf (getu32 b 0) (getu32 b 24) (getu32 b 28) (get16 b 44).

Record proghdr := mkPh { p_type : Z; p_off : Z; p_vaddr : Z; p_filesz : Z; p_memsz : Z }.
Definition PHSIZE : Z := 32.

Definition proghdr_of (b : list Z) : proghdr :=
  mkPh (getu32 b 0) (getu32 b 4) (getu32 b 8) (getu32 b 16) (getu32 b 20).

(** [curproc->tf->eip = eip; curproc->tf->esp = esp;] *)
Definition set_start (eip esp : Z) (t : trapframe) : trapframe :=
  mkTf (tf_edi t) (tf_esi t) (tf_ebp t) (tf_oesp t) (tf_ebx t) (tf_edx t) (tf_ecx t) (tf_eax t)
    (tf_gs t) (tf_fs t) (tf_es t) (tf_ds t) (tf_trapno t) (tf_err t) eip (tf_cs t) (tf_eflags t) esp (tf_ss t).

(** [for(last=s=path; *s; s++) if( *s == '/') last = s+1;] *)
Fixpoint last_elem (last s : list Z) : list Z :=
  match s with
  | [] => last
  | c :: s => last_elem (if c =? SLASH then s else last) s
  end.

(** The bytes of a string in memory. *)
Definition str_byte (s : list Z) (i : nat) : Z := default 0 (s !! i).

(** ** The state *)

(** The file system, the memory and the machine, the process that calls. *)
Record est (X : Type) := mkE { efs : fs X; ekm : kmst; ep : proc }.
Arguments mkE {X} efs ekm ep.
Arguments efs {X} e.
Arguments ekm {X} e.
Arguments ep {X} e.

Section exec.
Context {X : Type} `{BL : BlockLayer X} `{TL : TxnLayer X} (me : Z) (sb : superblock) (devs : Z -> @devsw X).
Context (kend kdata : Z).

Notation ME := (M (est X)).

Definition on_fs {A} (op : M (mach * fs X) A) : ME A :=
  zoom (fun s => (kmach (ekm s), efs s)) (fun t s => mkE t.2 (set_kmach t.1 (ekm s)) (ep s)) op.

Definition on_km {A} (op : M kmst A) : ME A := zoom ekm (fun k s => mkE (efs s) k (ep s)) op.

(** ** loaduvm *)

Fixpoint loaduvm_loop (fuel : nat) (pgdir addr : Z) (ip : nat) (offset i sz : Z) : ME Z :=
  match fuel with
  | O => blocked
  | S fuel =>
      if i <? sz then
        pte ← on_km (walkpgdir pgdir (u32 (addr + i)) false);
        if pte =? 0 then panic "loaduvm: address should exist" else
        e ← on_km (peek pte);
        let pa := PTE_ADDR e in
        let n := if sz - i <? PGSIZE then sz - i else PGSIZE in
        r ← on_fs (readi sb devs ip (u32 (offset + i)) n);
        on_km (modify (fun s => set_kphys (put_bytes (P2V pa) r.2 (kphys s)) s));;
        if negb (r.1 =? n) then mret (-1) else
        loaduvm_loop fuel pgdir addr ip offset (u32 (i + PGSIZE)) sz
      else mret 0
  end.

(** A turn for each page, and one that sees the end. *)
Definition loaduvm (pgdir addr : Z) (ip : nat) (offset sz : Z) : ME Z :=
  if negb (addr mod PGSIZE =? 0) then panic "loaduvm: addr must be page aligned" else
  loaduvm_loop (S (Z.to_nat (sz / PGSIZE + 1))) pgdir addr ip offset 0 sz.

(** ** exec *)

(** The label [bad]: [ip] is the inode that is still locked. *)
Definition exec_bad (pgdir : Z) (ip : option nat) : ME Z :=
  when (negb (pgdir =? 0)) (on_km (freevm kend pgdir));;
  match ip with
  | Some ip => on_fs (iunlockput me sb ip);; on_fs end_op
  | None => mret tt
  end;;
  mret (-1).

(** The loop over the program headers, [n] of them left; [None] is [goto bad]. *)
Fixpoint exec_load (n : nat) (ip : nat) (pgdir off sz : Z) : ME (option Z) :=
  match n with
  | O => mret (Some sz)
  | S n =>
      r ← on_fs (readi sb devs ip off PHSIZE);
      if negb (r.1 =? PHSIZE) then mret None else
      let ph := proghdr_of r.2 in
      if negb (p_type ph =? ELF_PROG_LOAD) then exec_load n ip pgdir (u32 (off + PHSIZE)) sz else
      if p_memsz ph <? p_filesz ph then mret None else
      if u32 (p_vaddr ph + p_memsz ph) <? p_vaddr ph then mret None else
      sz ← on_km (allocuvm kend pgdir sz (u32 (p_vaddr ph + p_memsz ph)));
      if sz =? 0 then mret None else
      if negb (p_vaddr ph mod PGSIZE =? 0) then mret None else
      r ← loaduvm pgdir (p_vaddr ph) ip (p_off ph) (p_filesz ph);
      if r <? 0 then mret None else
      exec_load n ip pgdir (u32 (off + PHSIZE)) sz
  end.

(** [ustack]: the pointers pushed so far, [ustack[3]] to [ustack[3+argc-1]]. *)
Fixpoint exec_args (argv : list (list Z)) (pgdir sp : Z) (ustack : list Z) : ME (option (Z * list Z)) :=
  match argv with
  | [] => mret (Some (sp, ustack))
  | s :: argv =>
      if (MAXARG <=? length ustack)%nat then mret None else
      let sp := Z.land (u32 (sp - (Z.of_nat (length s) + 1))) (Z.lnot 3) in
      r ← on_km (copyout pgdir sp (s ++ [0]));
      if r <? 0 then mret None else
      exec_args argv pgdir sp (ustack ++ [sp])
  end.

(** [ustack], with its first three words and its null pointer. *)
Definition stack_words (sp : Z) (ustack : list Z) : list Z :=
  let argc := Z.of_nat (length ustack) in
  [4294967295; argc; u32 (sp - (argc + 1) * 4)] ++ ustack ++ [0].

(** From the stack of the new program on. *)
Definition exec_start (path : list Z) (argv : list (list Z)) (pgdir entry sz : Z) : ME Z :=
  let sz := PGROUNDUP sz in
  sz ← on_km (allocuvm kend pgdir sz (u32 (sz + 2 * PGSIZE)));
  if sz =? 0 then exec_bad pgdir None else
  on_km (clearpteu pgdir (u32 (sz - 2 * PGSIZE)));;
  a ← exec_args argv pgdir sz [];
  match a with
  | None => exec_bad pgdir None
  | Some (sp, ustack) =>
      let sp' := u32 (sp - (3 + Z.of_nat (length ustack) + 1) * 4) in
      r ← on_km (copyout pgdir sp' (concat (map bytes32 (stack_words sp ustack))));
      if r <? 0 then exec_bad pgdir None else
      modify (fun s => mkE (efs s) (ekm s) (set_pname (KString.safestrcpy (pname (ep s)) (str_byte (last_elem path path)) 16) (ep s)));;
      oldpgdir ← gets (fun s => ProcState.pgdir (ep s));
      modify (fun s => mkE (efs s) (ekm s) (set_tf (set_start entry sp' (tf (ep s))) (set_sz sz (set_pgdir pgdir (ep s)))));;
      on_km (freevm kend oldpgdir);;
      mret 0
  end.

Definition exec (cwd : nat) (name0 path : list Z) (argv : list (list Z)) : ME Z :=
  on_fs begin_op;;
  r ← on_fs (namei me sb devs cwd path name0);
  match r with
  | None => on_fs end_op;; mret (-1)
  | Some ip =>
      on_fs (ilock me sb ip);;
      r ← on_fs (readi sb devs ip 0 ELFSIZE);
      if negb (r.1 =? ELFSIZE) then exec_bad 0 (Some ip) else
      let elf := elfhdr_of r.2 in
      if negb (e_magic elf =? ELF_MAGIC) then exec_bad 0 (Some ip) else
      pgdir ← on_km (setupkvm kend kdata);
      if pgdir =? 0 then exec_bad 0 (Some ip) else
      r ← exec_load (Z.to_nat (e_phnum elf)) ip pgdir (e_phoff elf) 0;
      match r with
      | None => exec_bad pgdir (Some ip)
      | Some sz =>
          on_fs (iunlockput me sb ip);;
          on_fs end_op;;
          exec_start path argv pgdir (e_entry elf) sz
      end
  end.

(** ** sys_exec *)

(** [um] is the memory that the process sees, [sz] its size.  [fetchint] and
    [fetchstr], the string itself. *)
Definition fetch_word (um : Z -> Z) (sz addr : Z) : option Z :=
  if (sz <=? addr) || (sz <? u32 (addr + 4)) then None else Some (u32 (le32 um addr)).

Definition fetch_string (um : Z -> Z) (sz addr : Z) : option (list Z) :=
  if sz <=? addr then None else
  match fetchstr_loop um addr 0 (Z.to_nat (sz - addr)) with
  | Some len => Some ((fun i => um (addr + Z.of_nat i)) <$> seq 0 (Z.to_nat len))
  | None => None
  end.

(** The loop of [sys_exec], [n] places of [argv] left. *)
Fixpoint fetch_argv (n : nat) (um : Z -> Z) (sz uargv : Z) : option (list (list Z)) :=
  match n with
  | O => None
  | S n =>
      match fetch_word um sz uargv with
      | None => None
      | Some uarg =>
          if uarg =? 0 then Some [] else
          match fetch_string um sz uarg, fetch_argv n um sz (u32 (uargv + 4)) with
          | Some s, Some argv => Some (s :: argv)
          | _, _ => None
          end
      end
  end.

Definition sys_exec (cwd : nat) (name0 : list Z) (um : Z -> Z) : ME Z :=
  z ← gets (fun s => sz (ep s));
  esp ← gets (fun s => tf_esp (tf (ep s)));
  match fetch_word um z (u32 (esp + 4)), fetch_word um z (u32 (esp + 8)) with
  | Some upath, Some uargv =>
      match fetch_string um z upath with
      | None => mret (-1)
      | Some path =>
          match fetch_argv MAXARG um z uargv with
          | None => mret (-1)
          | Some argv => exec cwd name0 path argv
          end
      end
  | _, _ => mret (-1)
  end.

End exec.
