(* ===== verification/ExecSpec.v ===== *)
(** * The memory of a new program

    What [exec] does to an address space that is being built: pages filled with zeros,
    with the bytes of a file, with the arguments; the page below the stack that the
    program may not use.  [uread] is the memory as the program sees it. *)

From stdpp Require Import base numbers gmap sets list strings.
From S2P Require Import Prelude CString Spinlock ProcState Syscall Sleeplock Bio Log Kalloc Vm VmTable VmUser VmSpace VmThms.
From S2P Require Import Pipe File Fs SysFile Exec.
Import Kalloc Vm.
Open Scope Z_scope.

Section pages.
Context (kend kdata : Z) (ls : gset lockid) (Hls : Lkmem ∉ ls) (Hkend : KERNBASE < kend).
Implicit Types (s : kmst) (T : gmap Z Z) (U : gmap Z (Z * Z)) (K : Z -> Z) (l R : list Z).
Notation ust := (ust kend ls).

(** ** The entry of a user page *)

Lemma ust_entry l s pd T U K R v pg f : ust l s pd T U K R -> U !! v = Some (pg, f) ->
  entry_at T v ≠ 0 /\ load32 (kphys s) (entry_at T v) = V2P pg + f.
Proof.
  intros US EU. pose proof US as [V HU]. destruct (HU _ _ _ EU) as (Hv & _ & _).
  assert (vpn v) as Hvv by (unfold vpn, KPAGE in *; lia).
  edestruct (ust_table kend ls Hls Hkend) as [pt HT]; [exact US|exact EU|].
  pose proof (tab_page _ _ _ _ _ _ _ _ _ _ V HT) as Hp. pose proof (page_range _ _ Hp). split.
  - unfold entry_at. rewrite HT. pose proof (Z.mod_pos_bound v 1024). lia.
  - transitivity (uent U K v); [|unfold uent; by rewrite EU].
    rewrite <- (v_ent _ _ _ _ _ _ _ _ V v Hvv). unfold entry_at, entry. by rewrite HT.
Qed.

(** Without [PTE_U]. *)
Definition shut (f : Z) : Z := Z.land f (Z.lnot PTE_U).

Lemma land_4095 z : Z.land z 4095 = z mod 4096.
Proof. change 4095 with (Z.ones 12). by apply land_ones_mod. Qed.

Lemma shut_range f : 0 <= f < 4096 -> 0 <= shut f < 4096.
Proof.
  intros Hf. unfold shut. assert (Z.land f (Z.lnot PTE_U) = Z.land (Z.land f (Z.lnot PTE_U)) 4095) as ->.
  { rewrite <- (Z.mod_small f 4096) at 1 by lia. rewrite <- land_4095, <- !Z.land_assoc. done. }
  rewrite land_4095. apply Z.mod_pos_bound. lia.
Qed.

Lemma shut_flags f : present (shut f) = present f /\ Z.land (shut f) PTE_U = 0.
Proof.
  unfold shut. split.
  - rewrite <- !present_land, <- Z.land_assoc. done.
  - rewrite <- Z.land_assoc. change (Z.land (Z.lnot PTE_U) PTE_U) with 0. apply Z.land_0_r.
Qed.

Lemma shut_entry pg f : page_ok kend pg -> 0 <= f < 4096 -> Z.land (V2P pg + f) (Z.lnot PTE_U) = V2P pg + shut f.
Proof.
  intros Hp Hf. destruct (tab_entry kend pg Hp) as (_ & Hm & Hr & _). rewrite (page_div _ Hm). unfold shut.
  rewrite <- (lor_page _ f) by done. rewrite Z.land_lor_distr_l.
  assert (Z.land (4096 * (V2P pg / 4096)) (Z.lnot PTE_U) = 4096 * (V2P pg / 4096)) as ->.
  { rewrite (Z.mul_comm 4096). change 4096 with (2 ^ 12). rewrite <- !Z.shiftl_mul_pow2 by lia.
    apply Z.bits_inj'. intros i Hi. rewrite Z.land_spec, Z.lnot_spec by done. destruct (decide (i = 2)) as [->|Hne].
    - rewrite Z.shiftl_spec by lia. rewrite (Z.testbit_neg_r (V2P pg / 2 ^ 12) (2 - 12)) by lia. done.
    - replace (Z.testbit PTE_U i) with false; [by rewrite andb_true_r|]. symmetry. apply (Z.pow2_bits_false 2). lia. }
  apply lor_page, shut_range, Hf.
Qed.

(** ** clearpteu *)

Lemma wp_clearpteu P l s pd T U K R v pg f Q :
  ust l s pd T U K R -> U !! v = Some (pg, f) ->
  (forall s', ust l s' pd T (<[v := (pg, shut f)]> U) K R -> kmach s' = kmach s -> use_lock s' = use_lock s ->
     (forall x, (forall p, p ∈ own pd T -> ~ in_page p x) -> kphys s' x = kphys s x) -> Q tt s') ->
  wp P (clearpteu pd (4096 * v)) s Q.
Proof.
  intros US EU HQ. pose proof US as [V HU]. destruct (HU _ _ _ EU) as (Hv & Hf & Hp).
  assert (vpn v) as Hvv by (unfold vpn, KPAGE in *; lia). destruct (ust_entry _ _ _ _ _ _ _ _ _ _ US EU) as [Hn He].
  edestruct (ust_table kend ls Hls Hkend) as [pt HT]; [exact US|exact EU|].
  assert (page_ok kend pg) as Hpg by (by eapply ust_page).
  unfold clearpteu. wp_next. eapply wp_walk_look; [exact V|unfold KPAGE in *; lia|].
  rewrite (Z.mul_comm 4096 v), Z.div_mul by lia. replace (entry_at T v =? 0) with false by lia.
  wp_next. apply wp_peek_vm. rewrite He, shut_entry by done. apply wp_modify.
  pose proof (shut_range f Hf) as Hr. destruct (upage_entry kend Hkend pg (shut f) Hpg Hr) as (_ & _ & _ & _ & Hb).
  destruct (vst_store kend ls Hls l s pd T _ _ v pt (V2P pg + shut f) V Hvv HT Hb) as [V2 M2]. apply HQ; [|done|done|].
  - split.
    + eapply vst_ext; [|eapply vst_perm; [|exact V2]].
      * intros w Hw. unfold VmTable.upd, uent. destruct (decide (w = v)) as [->|Hne]; [by rewrite lookup_insert_eq|by rewrite lookup_insert_ne].
      * f_equiv. rewrite (upages_delete U v pg f EU). rewrite <- insert_delete_eq. rewrite upages_insert by apply lookup_delete_eq. done.
    + intros w pg' f' Hw. destruct (decide (w = v)) as [->|Hne].
      * rewrite lookup_insert_eq in Hw. injection Hw as <- <-. destruct (shut_flags f) as [-> _]. done.
      * rewrite lookup_insert_ne in Hw by done. by apply (HU w pg').
  - intros x Hx. cbn. eapply store_outside; [by eapply entry_slot|]. apply Hx. by eapply own_tab.
Qed.

(** ** copyout that meets a page the program may not use *)

Lemma wp_uva2ka_shut P l s pd T U K R v pt Q :
  ust l s pd T U K R -> vpn v -> T !! (v / 1024) = Some pt -> Z.land (uent U K v) PTE_U = 0 -> Q 0 s ->
  wp P (uva2ka pd (4096 * v)) s Q.
Proof.
  intros [V _] Hv HT Hu HQ. unfold uva2ka. wp_next. eapply wp_walk_look; [exact V|unfold vpn in *; lia|].
  rewrite (Z.mul_comm 4096 v), Z.div_mul by lia. wp_next. apply wp_peek_vm.
  assert (load32 (kphys s) (entry_at T v) = uent U K v) as ->.
  { rewrite <- (v_ent _ _ _ _ _ _ _ _ V v Hv). unfold entry_at, entry. by rewrite HT. }
  rewrite Hu. cbn. destruct (Z.land _ PTE_P =? 0); by apply wp_ret.
Qed.

Lemma shut_uent l s pd T U K R v pg f : ust l s pd T U K R -> U !! v = Some (pg, f) -> Z.land f PTE_U = 0 ->
  Z.land (uent U K v) PTE_U = 0.
Proof.
  intros US EU Hf. pose proof US as [_ HU]. destruct (HU _ _ _ EU) as (_ & Hr & _). unfold uent. rewrite EU.
  assert (page_ok kend pg) as Hpg by (by eapply ust_page). destruct (tab_entry kend pg Hpg) as (_ & Hm & _).
  rewrite (page_div _ Hm). by rewrite land_user.
Qed.

Lemma wp_copyout_shut P n l s pd T U K R va buf w pg f Q :
  ust l s pd T U K R -> 0 <= va -> (0 < length buf < n)%nat ->
  va / 4096 <= w -> 4096 * w < va + Z.of_nat (length buf) -> U !! w = Some (pg, f) -> Z.land f PTE_U = 0 ->
  (forall v, va / 4096 <= v < w -> is_Some (U !! v)) ->
  (forall s', ust l s' pd T U K R -> kmach s' = kmach s -> use_lock s' = use_lock s ->
     (forall x, (forall p, p ∈ upages U -> ~ in_page p x) -> kphys s' x = kphys s x) -> Q (-1) s') ->
  wp P (copyout_loop n pd va buf) s Q.
Proof.
  revert s va buf. induction n as [|n IH]; intros s va buf US Hva Hn Hw1 Hw2 EU Hf HU HQ; [lia|]. cbn [copyout_loop].
  pose proof (Z.div_mod va 4096 ltac:(lia)) as Hdm. pose proof (Z.mod_pos_bound va 4096 ltac:(lia)) as Hmb.
  pose proof US as [_ Hok]. destruct (Hok _ _ _ EU) as (Hwk & _).
  replace (Z.of_nat (length buf) >? 0) with true by lia. unfold PGROUNDDOWN. rewrite !round_down_eq. set (v := va / 4096) in *.
  assert (is_Some (U !! v)) as [[pg0 f0] EU0] by (destruct (decide (v = w)) as [->|]; [eauto|apply HU; lia]).
  assert (0 <= v < KPAGE) as Hk by (by apply (Hok _ _ _ EU0)). assert (vpn v) as Hvv by (unfold vpn, KPAGE in *; lia).
  edestruct (ust_table kend ls Hls Hkend) as [pt HT]; [exact US|exact EU0|].
  wp_next. destruct (decide (Z.land f0 PTE_U = 0)) as [Hs0|Hu0].
  { eapply wp_uva2ka_shut; [exact US|done|exact HT|by eapply shut_uent|]. apply wp_ret, HQ; done. }
  assert (v < w) as Hvw by (destruct (decide (v = w)); [congruence|lia]).
  eapply (wp_uva2ka kend ls Hls Hkend); [exact US|done|exact EU0|done|].
  assert (page_ok kend pg0) as Hpg by (by eapply ust_page). pose proof (page_range _ _ Hpg).
  replace (pg0 =? 0) with false by lia. replace (va - 4096 * v) with (va mod 4096) by lia. wp_next. apply wp_modify.
  replace (PGSIZE - va mod 4096 >? Z.of_nat (length buf)) with false by (unfold PGSIZE; lia).
  set (k := PGSIZE - va mod 4096). assert (Z.of_nat (length (take (Z.to_nat k) buf)) = k) as Hlt by (rewrite length_take; unfold k, PGSIZE; lia).
  assert (va mod 4096 + Z.of_nat (length (take (Z.to_nat k) buf)) <= 4096) as Hfit by (unfold k, PGSIZE in *; lia).
  pose proof (ust_put kend ls Hls Hkend _ _ _ _ _ _ _ _ _ _ (va mod 4096) (take (Z.to_nat k) buf) US EU0 ltac:(lia) Hfit) as US1.
  rewrite u32_small by (unfold KPAGE, PGSIZE in *; lia).
  replace (4096 * v + PGSIZE) with (4096 * (v + 1)) by (unfold PGSIZE; lia).
  assert (4096 * (v + 1) / 4096 = v + 1) as Hdiv by (rewrite Z.mul_comm; apply Z.div_mul; lia).
  apply (IH _ _ _ US1); rewrite ?length_drop, ?Hdiv; [lia|unfold k, PGSIZE in *; lia|lia|unfold k, PGSIZE in *; lia|done|done| |].
  - intros v' Hv'. apply HU. lia.
  - intros s2 US2 Hm2 Hl2 Hx2. apply HQ; [done|by rewrite Hm2|by rewrite Hl2|]. intros x Hx. rewrite Hx2 by done. cbn.
    apply put_bytes_out. intros Hin. apply (Hx pg0); [by eapply elem_upages|]. unfold in_page, PGSIZE in *. lia.
Qed.

End pages.

(** ** What the program is to see *)

Notation view := (Z -> option Z).

Definition slice (f : list Z) (off n : Z) : list Z := take (Z.to_nat n) (drop (Z.to_nat off) f).

(** New pages are zero. *)
Definition zeros (a b : Z) (g : view) : view := fun va => if decide (a <= va / 4096 < b) then Some 0 else g va.

(** The segments that the [n] program headers at [off] of the file [f] describe: the size of
    the program and its memory; [None] when the file is not a program. *)
Fixpoint load_image (n : nat) (f : list Z) (off sz : Z) (g : view) : option (Z * view) :=
  match n with
  | O => Some (sz, g)
  | S n =>
      let size := Z.of_nat (length f) in
      if size <? off + PHSIZE then None else
      let ph := proghdr_of (slice f off PHSIZE) in
      if negb (p_type ph =? ELF_PROG_LOAD) then load_image n f (off + PHSIZE) sz g else
      let hi := p_vaddr ph + p_memsz ph in
      let sz' := Z.max sz hi in
      if (p_memsz ph <? p_filesz ph) || (KERNBASE <=? hi) || (sz' =? 0) || negb (p_vaddr ph mod PGSIZE =? 0)
         || ((0 <? p_filesz ph) && (size <? p_off ph + p_filesz ph)) then None else
      load_image n f (off + PHSIZE) sz' (over (p_vaddr ph) (slice f (p_off ph) (p_filesz ph)) (zeros (pages sz) (pages sz') g))
  end.

(** With the entry point; there must be room for the stack. *)
Definition elf_image (f : list Z) : option (Z * Z * view) :=
  if Z.of_nat (length f) <? ELFSIZE then None else
  let elf := elfhdr_of (take 52 f) in
  if negb (e_magic elf =? ELF_MAGIC) then None else
  match load_image (Z.to_nat (e_phnum elf)) f (e_phoff elf) 0 (fun _ => None) with
  | Some (sz, g) => if KERNBASE <=? 4096 * pages sz + 8192 then None else Some (e_entry elf, sz, g)
  | None => None
  end.

(** Where the arguments go: from [sp] down, to multiples of 4, not below [base]. *)
Definition arg_sp (sp : Z) (s : list Z) : Z := 4 * ((sp - (Z.of_nat (length s) + 1)) / 4).

Fixpoint push_args (base sp : Z) (argv : list (list Z)) (ptrs : list Z) : option (Z * list Z) :=
  match argv with
  | [] => Some (sp, ptrs)
  | s :: argv =>
      if (MAXARG <=? length ptrs)%nat then None else
      if arg_sp sp s <? base then None else
      push_args base (arg_sp sp s) argv (ptrs ++ [arg_sp sp s])
  end.

(** The stack pointer, with the page from [base] on for the stack. *)
Definition stack_of (base : Z) (argv : list (list Z)) : option Z :=
  match push_args base (base + 4096) argv [] with
  | Some (sp, ptrs) =>
      let esp := sp - (3 + Z.of_nat (length ptrs) + 1) * 4 in
      if esp <? base then None else Some esp
  | None => None
  end.

Definition string_at (g : view) (a : Z) (s : list Z) : Prop :=
  forall i, (i <= length s)%nat -> g (a + Z.of_nat i) = (s ++ [0]) !! i.

Definition word_at (g : view) (a v : Z) : Prop :=
  forall i, (i < 4)%nat -> g (a + Z.of_nat i) = bytes32 v !! i.

(** The stack at the start of [main]: a return address, [argc], [argv]; the pointers
    and the strings. *)
Definition args_at (g : view) (esp : Z) (argv : list (list Z)) : Prop :=
  word_at g esp 4294967295 /\ word_at g (esp + 4) (Z.of_nat (length argv)) /\ word_at g (esp + 8) (esp + 12) /\
  (forall i s, argv !! i = Some s -> exists p, word_at g (esp + 12 + 4 * Z.of_nat i) p /\ string_at g p s) /\
  word_at g (esp + 12 + 4 * Z.of_nat (length argv)) 0.

(** ** Lemmas on these *)

Lemma no_lock : Lkmem ∉ (∅ : gset lockid).
Proof. set_solver. Qed.

Lemma zeros_same a (g : view) va : zeros a a g va = g va.
Proof. unfold zeros. case_decide; [lia|done]. Qed.

(** The pages from 0 to [n] are there, open to the program. *)
Definition flat (U : gmap Z (Z * Z)) (n : Z) : Prop :=
  (forall w, 0 <= w < n -> exists pg, U !! w = Some (pg, 7)) /\ (forall w, ~ (0 <= w < n) -> U !! w = None).

Lemma flat_filled U U' a b mem : flat U a -> filled U U' a b mem -> 0 <= a <= b -> flat U' b.
Proof.
  intros [H1 H2] [F1 F2] Hab. split; intros w Hw.
  - destruct (decide (a <= w < b)) as [Hin|Hout]; [destruct (F2 w Hin) as (pg & E & _); eauto|]. rewrite F1 by done. apply H1. lia.
  - rewrite F1 by lia. apply H2. lia.
Qed.

Lemma pages_mono a b : a <= b -> pages a <= pages b.
Proof. intros H. unfold pages. apply Z.div_le_mono; lia. Qed.

Lemma pages_nonneg a : 0 <= a -> 0 <= pages a.
Proof. intros H. unfold pages. apply Z.div_pos; lia. Qed.

(** What [readi] gives for a file with the bytes [f]. *)
Definition file_read (f : list Z) (off n : Z) : Z * list Z :=
  let size := Z.of_nat (length f) in
  if (size <? off) || (4294967296 <=? off + n) then (-1, []) else
  let c := Z.min n (size - off) in (c, slice f off c).

Lemma length_slice f off n : 0 <= off -> 0 <= n -> off + n <= Z.of_nat (length f) -> Z.of_nat (length (slice f off n)) = n.
Proof. intros H1 H2 H3. unfold slice. rewrite length_take, length_drop. lia. Qed.

Lemma slice_length_le f off n : 0 <= n -> Z.of_nat (length (slice f off n)) <= n.
Proof. intros H. unfold slice. rewrite length_take. lia. Qed.

Lemma slice_split f off a n (g : view) addr va : 0 <= off -> 0 <= a -> 0 <= n -> off + a <= Z.of_nat (length f) ->
  over (addr + a) (slice f (off + a) n) (over addr (slice f off a) g) va = over addr (slice f off (a + n)) g va.
Proof.
  intros Ho Ha Hn Hl. assert (Z.to_nat a <= length (slice f off (a + n)))%nat as Hle.
  { unfold slice. rewrite length_take, length_drop. lia. }
  rewrite <- (over_split addr (Z.to_nat a) (slice f off (a + n)) g va Hle). rewrite Z2Nat.id by done. f_equal; [|f_equal].
  - unfold slice. rewrite skipn_firstn_comm, drop_drop. f_equal; [lia|f_equal; lia].
  - unfold slice. rewrite take_take. f_equal. lia.
Qed.

Lemma over_none addr (g : view) va : over addr [] g va = g va.
Proof. unfold over. cbn. case_decide; [lia|done]. Qed.

Lemma getu32_range d o : 0 <= getu32 d o < 4294967296.
Proof. unfold getu32, u32. apply Z.mod_pos_bound. lia. Qed.

Lemma file_read_all f off n r bs : 0 <= n -> file_read f off n = (r, bs) -> r = n ->
  off + n <= Z.of_nat (length f) /\ bs = slice f off n.
Proof.
  intros Hn E ->. unfold file_read in E. destruct ((_ <? off) || _) eqn:Eb; [injection E as E1 _; lia|].
  injection E as E1 <-. rewrite E1. split; [lia|done].
Qed.

Lemma file_read_short f off n r bs : Z.of_nat (length f) <= 2147483648 -> 0 <= off -> 0 <= n < 4294967296 -> file_read f off n = (r, bs) -> r ≠ n ->
  Z.of_nat (length f) < off + n /\ Z.of_nat (length bs) <= n.
Proof.
  intros Hf Ho Hn E Hr. unfold file_read in E. destruct ((_ <? off) || _) eqn:Eb; injection E as <- <-; cbn.
  - lia.
  - split; [lia|]. etrans; [apply slice_length_le; lia|lia].
Qed.

Lemma load_image_mono f n off sz g sz' g' : load_image n f off sz g = Some (sz', g') -> sz <= sz' /\ (sz < KERNBASE -> sz' < KERNBASE).
Proof.
  revert off sz g. induction n as [|n IH]; intros off sz g; cbn [load_image]; [by intros [= <- _]|].
  destruct (_ <? off + PHSIZE); [done|]. destruct (negb _); [apply IH|]. destruct (_ || _) eqn:E; [done|]. intros H%IH. lia.
Qed.

(** ** The state of exec *)

Section steps.
Context {X : Type} `{BL : BlockLayer X}.
Context (kend kdata : Z) (Hkend : KERNBASE < kend).
(** The process before the call: its address space and the free pages. *)
Context (l0 : list Z) (s0 : kmst) (p0 : proc) (pd0 : Z) (T0 : gmap Z Z) (U0 : gmap Z (Z * Z)) (R0 : list Z).
Context (P : failure -> Prop).
(** What is known of the file system. *)
Context (F : mach -> fs X -> Prop) (HF : forall m f m', F m f -> quiet ∅ m m' -> F m' f).
Implicit Types (e : est X) (T : gmap Z Z) (U : gmap Z (Z * Z)) (l : list Z) (g : view).

Notation used0 := (in_use pd0 T0 U0 R0).

(** The new address space: [pd], with the tables [T] and the user pages [U]. *)
Record xst l pd T U e : Prop := mkX {
  x_fs : F (kmach (ekm e)) (efs e);
  x_vm : ust kend ∅ l (ekm e) pd T U (kernel_entry kdata) used0;
  x_built : built l0 s0 pd T U l (ekm e);
  x_proc : ep e = p0 }.

Definition sees U e g : Prop := forall va, uread (kphys (ekm e)) U va = g va.

Lemma wp_on_km {A} (op : M kmst A) e Q :
  wp P op (ekm e) (fun a s => Q a (mkE (efs e) s (ep e))) -> wp P (on_km op) e Q.
Proof. unfold wp, on_km, zoom. by destruct (op (ekm e)). Qed.

Lemma wp_on_fs {A} (op : M (mach * fs X) A) e Q :
  wp P op (kmach (ekm e), efs e) (fun a t => Q a (mkE t.2 (set_kmach t.1 (ekm e)) (ep e))) -> wp P (on_fs op) e Q.
Proof. unfold wp, on_fs, zoom. by destruct (op (kmach (ekm e), efs e)). Qed.

(** Memory written, in pages of the new address space only. *)
Lemma x_write l pd T U U' e s' :
  xst l pd T U e -> ust kend ∅ l s' pd T U' (kernel_entry kdata) used0 -> upages U' ≡ₚ upages U ->
  kmach s' = kmach (ekm e) -> use_lock s' = use_lock (ekm e) ->
  (forall x, (forall p, p ∈ own pd T ++ upages U -> ~ in_page p x) -> kphys s' x = kphys (ekm e) x) ->
  xst l pd T U' (mkE (efs e) s' (ep e)).
Proof.
  intros [Xf Xv [B1 B2 B3 B4] Xp] US Hp Hm Hl Hx. constructor; cbn; [by rewrite Hm|done| |done].
  constructor; [by rewrite Hm|congruence|by rewrite Hp|]. intros x Hq. rewrite Hx; [by apply B4|].
  intros p Hin. apply Hq. rewrite <- B3. rewrite app_assoc. apply elem_of_app. by left.
Qed.

(** Pages moved between the new address space and the free list. *)
Lemma x_moved l pd T U e l' T' U' s' :
  xst l pd T U e -> ust kend ∅ l' s' pd T' U' (kernel_entry kdata) used0 -> umoved l (ekm e) pd T U l' s' T' U' ->
  xst l' pd T' U' (mkE (efs e) s' (ep e)).
Proof.
  intros [Xf Xv Xb Xp] US M. constructor; cbn; [|done|by eapply built_moved|done].
  apply (HF (kmach (ekm e))); [done|]. split; [apply US|apply M].
Qed.

Lemma sees_filled l e U U' a b s' g pd T l' T' :
  sees U e g -> umoved l (ekm e) pd T U l' s' T' U' -> filled U U' a b (kphys s') ->
  sees U' (mkE (efs e) s' (ep e)) (zeros a b g).
Proof.
  intros HS M [F1 F2] va. cbn [ekm]. pose proof (Z.mod_pos_bound va 4096 ltac:(lia)) as Hm. unfold zeros, uread. case_decide as Hva.
  - destruct (F2 _ Hva) as (pg & -> & Hz). f_equal. apply Hz. unfold in_page, PGSIZE. lia.
  - rewrite F1 by done. rewrite <- HS. unfold uread. destruct (U !! (va / 4096)) as [[pg f]|] eqn:E; [|done]. f_equal.
    apply (um_keep _ _ _ _ _ _ _ _ _ M (va / 4096) pg f); [done|by rewrite F1|]. unfold in_page, PGSIZE. lia.
Qed.

(** [allocuvm]: the new size, or 0. *)
Lemma wp_x_alloc l pd T U e sz newsz g Q :
  xst l pd T U e -> flat U (pages sz) -> sees U e g -> 0 <= sz < KERNBASE -> 0 <= newsz ->
  (forall l' T' e', xst l' pd T' U e' -> KERNBASE <= newsz \/ Z.of_nat (length l) < 2 * (pages newsz - pages sz) -> Q 0 e') ->
  (forall l' T' U' e', newsz < KERNBASE -> xst l' pd T' U' e' -> flat U' (pages (Z.max sz newsz)) ->
     sees U' e' (zeros (pages sz) (pages (Z.max sz newsz)) g) ->
     Z.of_nat (length l) <= Z.of_nat (length l') + 2 * (pages (Z.max sz newsz) - pages sz) -> Q (Z.max sz newsz) e') ->
  wp P (on_km (allocuvm kend pd sz newsz)) e Q.
Proof.
  intros HX HU HS Hsz Hn HQ0 HQ. apply wp_on_km. eapply (wp_allocuvm kend ∅ no_lock Hkend); [apply HX|done|done| | | | |].
  - intros w Hw. apply HU. lia.
  - intros Hbig. destruct e. eapply HQ0; [done|left; lia].
  - intros Hlt. pose proof HQ as HQ'. assert (Z.max sz newsz = sz) as E by lia. rewrite E in HQ'. destruct e as [f s p].
    apply (HQ' l T U); [lia|done|done| |lia]. intros va. rewrite zeros_same. apply HS.
  - intros l' s' T' U' Hle US M Fl Hlen. assert (Z.max sz newsz = newsz) as E by lia. rewrite E in HQ.
    pose proof (pages_mono sz newsz (proj1 Hle)). pose proof (pages_nonneg sz ltac:(lia)).
    apply (HQ l' T' U'); [lia|by eapply x_moved|by eapply flat_filled|by eapply sees_filled|lia].
  - intros l' s' T' Hlen US M. eapply HQ0; [by eapply x_moved|right; done].
Qed.

(** ** Reading the program *)

Context (sb : superblock) (devs : Z -> @devsw X) (ip : nat) (f : list Z) (Hf : Z.of_nat (length f) <= 2147483648).
Context (Hread : forall m fs off n Q, F m fs -> 0 <= off < 4294967296 -> 0 <= n < 4294967296 ->
  (forall m' fs', F m' fs' -> quiet ∅ m m' -> Q (file_read f off n) (m', fs')) ->
  wp P (readi sb devs ip off n) (m, fs) Q).

Lemma ust_mach l s pd T U K R m : ust kend ∅ l s pd T U K R -> msec ∅ m -> ust kend ∅ l (set_kmach m s) pd T U K R.
Proof. intros [[] HU] Hm. split; [|done]. by constructor; try done; destruct v_free; constructor. Qed.

Lemma x_mach l pd T U e m fs : xst l pd T U e -> F m fs -> quiet ∅ (kmach (ekm e)) m -> xst l pd T U (mkE fs (set_kmach m (ekm e)) (ep e)).
Proof.
  intros [Xf Xv [B1 B2 B3 B4] Xp] H1 [H2 H3]. constructor; cbn; [done|by apply ust_mach| |done]. constructor; [by etrans|done|done|done].
Qed.

Lemma wp_x_read l pd T U e off n Q :
  xst l pd T U e -> 0 <= off < 4294967296 -> 0 <= n < 4294967296 ->
  (forall e', xst l pd T U e' -> kphys (ekm e') = kphys (ekm e) -> Q (file_read f off n) e') ->
  wp P (on_fs (readi sb devs ip off n)) e Q.
Proof.
  intros HX Ho Hn HQ. apply wp_on_fs. apply Hread; [apply HX|done|done|]. intros m' fs' H1 H2. apply HQ; [|done]. by apply x_mach.
Qed.

(** Bytes put at the start of a page. *)
Lemma x_put l pd T U e v pg fl bs g : xst l pd T U e -> sees U e g -> U !! v = Some (pg, fl) -> Z.of_nat (length bs) <= 4096 ->
  let e' := mkE (efs e) (set_kphys (put_bytes pg bs (kphys (ekm e))) (ekm e)) (ep e) in
  xst l pd T U e' /\ sees U e' (over (4096 * v) bs g).
Proof.
  intros HX HS EU Hb. pose proof (x_vm _ _ _ _ _ HX) as US.
  pose proof (ust_put kend ∅ no_lock Hkend _ _ _ _ _ _ _ _ _ _ 0 bs US EU ltac:(lia) ltac:(lia)) as US1. rewrite Z.add_0_r in US1. split.
  - eapply x_write; [done|exact US1|done|done|done|]. intros x Hx. apply put_bytes_out. intros Hin.
    apply (Hx pg); [apply elem_of_app; right; by eapply elem_upages|]. unfold in_page, PGSIZE. lia.
  - intros va. cbn [ekm kphys set_kphys]. pose proof (uread_put kend ∅ no_lock Hkend _ _ _ _ _ _ _ _ _ _ 0 bs va US EU ltac:(lia) ltac:(lia)) as E.
    rewrite !Z.add_0_r in E. rewrite E. apply over_ext, HS.
Qed.

Lemma wp_loaduvm_loop fuel l pd T U n v0 off sz j e g Q :
  xst l pd T U e -> flat U n -> n <= KPAGE -> 0 <= v0 -> 0 <= off < 4294967296 -> 0 <= sz -> 4096 * v0 + sz <= 4096 * n ->
  0 <= j -> 4096 * j < sz + 4096 -> sz - 4096 * j <= 4096 * (Z.of_nat fuel - 1) -> (j = 0 \/ off + Z.min (4096 * j) sz <= Z.of_nat (length f)) ->
  sees U e (over (4096 * v0) (slice f off (Z.min (4096 * j) sz)) g) ->
  (forall e', xst l pd T U e' -> sees U e' (over (4096 * v0) (slice f off sz) g) -> sz = 0 \/ off + sz <= Z.of_nat (length f) -> Q 0 e') ->
  (forall e', xst l pd T U e' -> 0 < sz -> Z.of_nat (length f) < off + sz -> Q (-1) e') ->
  wp P (loaduvm_loop sb devs fuel pd (4096 * v0) ip off (4096 * j) sz) e Q.
Proof.
  intros HX HU Hn Hv0 Ho Hsz Hfit. revert j e HX.
  induction fuel as [|fuel IH]; intros j e HX Hj Hj2 Hfuel Hin HS HQ HQ1.
  { cbn [loaduvm_loop]. lia. }
  cbn [loaduvm_loop]. destruct (4096 * j <? sz) eqn:E.
  2:{ apply wp_ret. replace (Z.min (4096 * j) sz) with sz in HS, Hin by lia. apply HQ; [done|done|]. lia. }
  replace (Z.min (4096 * j) sz) with (4096 * j) in HS, Hin by lia. unfold KPAGE in *.
  destruct (proj1 HU (v0 + j) ltac:(lia)) as [pg EU]. pose proof (x_vm _ _ _ _ _ HX) as US.
  destruct (ust_entry kend ∅ no_lock Hkend _ _ _ _ _ _ _ _ _ _ US EU) as [Hne He]. pose proof US as [V _].
  assert (page_ok kend pg) as Hpg by (by eapply (ust_page kend ∅ no_lock Hkend)).
  rewrite (u32_small (4096 * v0 + 4096 * j)) by lia. replace (4096 * v0 + 4096 * j) with (4096 * (v0 + j)) by lia.
  wp_next. apply wp_on_km. eapply wp_walk_look; [exact V|lia|]. rewrite (Z.mul_comm 4096 (v0 + j)), Z.div_mul by lia.
  replace (entry_at T (v0 + j) =? 0) with false by lia. wp_next. apply wp_on_km, wp_peek_vm. cbn [ekm efs ep]. rewrite He.
  destruct (upage_entry kend Hkend pg 7 Hpg ltac:(lia)) as (Ea & _). destruct e as [fs0 s1 p1]. cbn [ekm efs ep] in *.
  set (m := if sz - 4096 * j <? PGSIZE then sz - 4096 * j else PGSIZE).
  assert (m = Z.min 4096 (sz - 4096 * j)) as Hm by (unfold m, PGSIZE; destruct (sz - 4096 * j <? 4096) eqn:?; lia).
  rewrite (u32_small (off + 4096 * j)) by lia. wp_next. eapply wp_x_read; [exact HX|lia|lia|]. intros e1 HX1 Hk1.
  destruct (file_read f (off + 4096 * j) m) as [r bs] eqn:Er. cbn [fst snd]. wp_next. apply wp_on_km, wp_modify. rewrite Ea.
  assert (Z.of_nat (length bs) <= 4096) as Hbs.
  { destruct (decide (r = m)) as [Hrm|Hrm].
    - destruct (file_read_all f (off + 4096 * j) m r bs ltac:(lia) Er Hrm) as [_ ->]. etrans; [apply slice_length_le; lia|lia].
    - destruct (file_read_short f (off + 4096 * j) m r bs Hf ltac:(lia) ltac:(lia) Er Hrm). lia. }
  assert (sees U e1 (over (4096 * v0) (slice f off (4096 * j)) g)) as HS1 by (intros va; rewrite Hk1; apply HS).
  destruct (x_put l pd T U e1 _ pg 7 bs _ HX1 HS1 EU Hbs) as [HX2 HS2].
  destruct (r =? m) eqn:Erm; cbn [negb].
  2:{ apply wp_ret, HQ1; [done|lia|]. destruct (file_read_short f (off + 4096 * j) m r bs Hf ltac:(lia) ltac:(lia) Er ltac:(lia)). lia. }
  destruct (file_read_all f (off + 4096 * j) m r bs ltac:(lia) Er ltac:(lia)) as [Hle ->].
  rewrite u32_small by (unfold PGSIZE; lia). replace (4096 * j + PGSIZE) with (4096 * (j + 1)) by (unfold PGSIZE; lia).
  apply (IH (j + 1)); [done|lia|lia|lia|lia| |done|done].
  intros va. rewrite (HS2 va). replace (4096 * (v0 + j)) with (4096 * v0 + 4096 * j) by lia.
  rewrite slice_split by lia. do 2 f_equal. lia.
Qed.

Lemma wp_x_loaduvm l pd T U n v0 off sz e g Q :
  xst l pd T U e -> flat U n -> n <= KPAGE -> 0 <= v0 -> 0 <= off < 4294967296 -> 0 <= sz -> 4096 * v0 + sz <= 4096 * n ->
  sees U e g ->
  (forall e', xst l pd T U e' -> sees U e' (over (4096 * v0) (slice f off sz) g) -> sz = 0 \/ off + sz <= Z.of_nat (length f) -> Q 0 e') ->
  (forall e', xst l pd T U e' -> 0 < sz -> Z.of_nat (length f) < off + sz -> Q (-1) e') ->
  wp P (loaduvm sb devs pd (4096 * v0) ip off sz) e Q.
Proof.
  intros HX HU Hn Hv0 Ho Hsz Hfit HS HQ HQ1. unfold loaduvm.
  replace (4096 * v0 mod PGSIZE =? 0) with true by (unfold PGSIZE; rewrite (Z.mul_comm 4096), Z.mod_mul by lia; done). cbn [negb].
  apply (wp_loaduvm_loop _ l pd T U n v0 off sz 0 e g); try done; [lia| |by left|].
  - unfold PGSIZE. pose proof (Z.div_mod sz 4096 ltac:(lia)). pose proof (Z.mod_pos_bound sz 4096 ltac:(lia)). pose proof (Z.div_pos sz 4096). lia.
  - intros va. replace (Z.min (4096 * 0) sz) with 0 by lia. unfold slice. rewrite take_0, over_none. apply HS.
Qed.

Definition loads (n : nat) (off sz c : Z) (g : view) pd (Q : option Z -> est X -> Prop) : Prop :=
  match load_image n f off sz g with
  | Some (sz', g') =>
      (forall l T U e, xst l pd T U e -> flat U (pages sz') -> sees U e g' -> 0 <= sz' < KERNBASE ->
         c <= Z.of_nat (length l) + 2 * pages sz' -> Q (Some sz') e) /\
      (forall l T U e, xst l pd T U e -> c < 2 * pages sz' -> Q None e)
  | None => forall l T U e, xst l pd T U e -> Q None e
  end.

Lemma loads_fails n off sz c g pd Q l T U e : loads n off sz c g pd Q -> xst l pd T U e ->
  (forall sz' g', load_image n f off sz g = Some (sz', g') -> c < 2 * pages sz') -> Q None e.
Proof.
  intros HQ HX Hc. unfold loads in HQ. destruct (load_image n f off sz g) as [[sz' g']|]; [|by eapply HQ].
  eapply HQ; [done|]. by eapply Hc.
Qed.

(** The conditions on a segment, in the order of the code. *)
Lemma loads_segment n off sz c g pd Q : off + PHSIZE <= Z.of_nat (length f) ->
  let ph := proghdr_of (slice f off PHSIZE) in
  let hi := p_vaddr ph + p_memsz ph in
  let sz' := Z.max sz hi in
  p_type ph = ELF_PROG_LOAD -> loads (S n) off sz c g pd Q ->
  (forall l T U e, xst l pd T U e -> p_memsz ph < p_filesz ph \/ KERNBASE <= hi \/ sz' = 0 \/ p_vaddr ph mod PGSIZE ≠ 0 \/
     (0 < p_filesz ph /\ Z.of_nat (length f) < p_off ph + p_filesz ph) -> Q None e) /\
  (forall l T U e, xst l pd T U e -> c < 2 * pages sz' -> Q None e) /\
  (p_filesz ph <= p_memsz ph -> hi < KERNBASE -> sz' ≠ 0 -> p_vaddr ph mod PGSIZE = 0 ->
     (p_filesz ph <= 0 \/ p_off ph + p_filesz ph <= Z.of_nat (length f)) ->
     loads n (off + PHSIZE) sz' c (over (p_vaddr ph) (slice f (p_off ph) (p_filesz ph)) (zeros (pages sz) (pages sz') g)) pd Q).
Proof.
  intros Hle ph hi sz' Hty. unfold loads. cbn [load_image]. fold ph. fold hi. fold sz'.
  rewrite (proj2 (Z.ltb_ge _ _) Hle), Hty. cbn [negb Z.eqb ELF_PROG_LOAD Pos.eqb].
  destruct (_ || _ || _ || _ || _) eqn:E; intros HQ; split_and!.
  - intros l T U e HX _. by eapply HQ.
  - intros l T U e HX _. by eapply HQ.
  - intros. lia.
  - intros. lia.
  - intros l T U e HX Hc. destruct (load_image n f (off + PHSIZE) sz' _) as [[szF gF]|] eqn:EL; [|by eapply HQ].
    apply load_image_mono in EL as [Hm _]. eapply HQ; [done|]. pose proof (pages_mono sz' szF Hm). lia.
  - done.
Qed.

Lemma wp_exec_load n l pd T U e off sz g c Q :
  xst l pd T U e -> flat U (pages sz) -> sees U e g -> 0 <= sz < KERNBASE -> 0 <= off < 4294967296 ->
  c <= Z.of_nat (length l) + 2 * pages sz -> loads n off sz c g pd Q ->
  wp P (exec_load sb devs kend n ip pd off sz) e Q.
Proof.
  revert l T U e off sz g. induction n as [|n IH]; intros l T U e off sz g HX HU HS Hsz Ho Hc HQ; cbn [exec_load].
  { apply wp_ret. cbn in HQ. by eapply HQ. }
  wp_next. eapply wp_x_read; [exact HX|done|done|]. intros e1 HX1 Hk1.
  destruct (file_read f off PHSIZE) as [r bs] eqn:Er. cbn [fst snd]. destruct (r =? PHSIZE) eqn:E1; cbn [negb].
  2:{ apply wp_ret, (loads_fails _ _ _ _ _ _ _ _ _ _ _ HQ HX1). intros sz' g' EL. exfalso. cbn [load_image] in EL.
      destruct (file_read_short f off PHSIZE r bs Hf ltac:(lia) ltac:(done) Er ltac:(lia)) as [Hs _]. by rewrite (proj2 (Z.ltb_lt _ _) Hs) in EL. }
  destruct (file_read_all f off PHSIZE r bs ltac:(done) Er ltac:(lia)) as [Hle ->].
  assert (forall va, uread (kphys (ekm e1)) U va = g va) as HS1 by (intros va; rewrite Hk1; apply HS).
  set (ph := proghdr_of (slice f off PHSIZE)). change PHSIZE with 32 in *.
  rewrite (u32_small (off + 32)) by lia.
  destruct (p_type ph =? ELF_PROG_LOAD) eqn:E2; cbn [negb].
  2:{ apply (IH l T U e1 (off + 32) sz g); try done; [lia|]. revert HQ. unfold loads. cbn [load_image]. change PHSIZE with 32.
      fold ph. rewrite E2, (proj2 (Z.ltb_ge _ _) Hle). done. }
  destruct (loads_segment n off sz c g pd Q Hle ltac:(by apply Z.eqb_eq) HQ) as (HB & HM & HN). change PHSIZE with 32 in *. fold ph in HB, HM, HN.
  pose proof (getu32_range (slice f off 32) 4) as R1. pose proof (getu32_range (slice f off 32) 8) as R2.
  pose proof (getu32_range (slice f off 32) 16) as R3. pose proof (getu32_range (slice f off 32) 20) as R4.
  change (getu32 (slice f off 32) 4) with (p_off ph) in R1. change (getu32 (slice f off 32) 8) with (p_vaddr ph) in R2.
  change (getu32 (slice f off 32) 16) with (p_filesz ph) in R3. change (getu32 (slice f off 32) 20) with (p_memsz ph) in R4.
  destruct (p_memsz ph <? p_filesz ph) eqn:E3; [apply wp_ret; eapply HB; [done|lia]|].
  destruct (decide (4294967296 <= p_vaddr ph + p_memsz ph)) as [Hov|Hov].
  { replace (u32 (p_vaddr ph + p_memsz ph) <? p_vaddr ph) with true; [apply wp_ret; eapply HB; [done|unfold KERNBASE; lia]|].
    unfold u32. rewrite <- (Z.mod_add _ (-1)), Z.mod_small by lia. lia. }
  rewrite u32_small by lia. replace (p_vaddr ph + p_memsz ph <? p_vaddr ph) with false by lia.
  wp_next. eapply wp_x_alloc; [exact HX1|done|exact HS1|done|lia| |].
  { intros l' T' e' HX' [Hb|Hb]; (apply wp_ret); [eapply HB; [done|tauto]|]. eapply HM; [done|].
    pose proof (pages_mono (p_vaddr ph + p_memsz ph) (Z.max sz (p_vaddr ph + p_memsz ph)) ltac:(lia)). lia. }
  intros l' T' U' e' Hlt HX' HU' HS' Hlen. set (sz' := Z.max sz (p_vaddr ph + p_memsz ph)) in *.
  destruct (sz' =? 0) eqn:E4; [apply wp_ret; eapply HB; [done|lia]|].
  destruct (p_vaddr ph mod PGSIZE =? 0) eqn:E5; cbn [negb]; [|apply wp_ret; eapply HB; [done|lia]].
  assert (p_vaddr ph = 4096 * (p_vaddr ph / 4096)) as Hv by (apply page_div; lia).
  assert (pages sz' < KPAGE + 1) as Hpk by (unfold pages, KPAGE, KERNBASE in *; apply Z.div_lt_upper_bound; lia).
  wp_next. rewrite Hv. eapply (wp_x_loaduvm l' pd T' U' (pages sz')); [exact HX'|exact HU'|lia|lia|lia|lia| |exact HS'| |].
  - unfold pages. pose proof (Z.div_mod (sz' + 4095) 4096 ltac:(lia)). pose proof (Z.mod_pos_bound (sz' + 4095) 4096 ltac:(lia)). lia.
  - intros e2 HX2 HS2 Hin. cbn [Z.ltb Z.compare]. rewrite <- Hv in HS2. eapply IH; [exact HX2|exact HU'|exact HS2|lia|lia|lia|].
    apply HN; [lia|lia|lia|lia|lia].
  - intros e2 HX2 Hpos Hsh. apply wp_ret. eapply HB; [done|]. lia.
Qed.

End steps.
