(* ===== verification/FsNames.v ===== *)
(** * The directory tree

    The entries of all directories as a finite map [G]: the entry of directory [d]
    at offset [o] is for inode [G !! (d, o)].  Entry 0 of a directory is [.], the
    next one [..].  [names_ok] says that the entries form a tree of directories with
    files as leaves, and that the link counts [N] count the entries; the directories
    of [Y] are not part of the tree.  The lemmas are the changes that the system calls
    make to it. *)

From stdpp Require Import base numbers gmap sets list.
From S2P Require Import Prelude Fs.
Open Scope Z_scope.

Notation graph := (gmap (Z * Z) Z).

(** The entries for [j], other than [.]. *)
Definition links (G : graph) (j : Z) : nat := size (filter (fun x => x.1.2 ≠ 0 /\ x.2 = j) G).

Definition upd (f : Z -> Z) (j v : Z) : Z -> Z := fun i => if decide (i = j) then v else f i.

Definition bump (f : Z -> Z) (j n : Z) : Z -> Z := fun i => if decide (i = j) then f i + n else f i.

(** Which entries count for [j]. *)
Definition counts (o v j : Z) : bool := bool_decide (o ≠ 0 /\ v = j).

Lemma links_insert G d o v j : G !! (d, o) = None ->
  links (<[(d, o) := v]> G) j = (links G j + if counts o v j then 1 else 0)%nat.
Proof.
  intros H. unfold links, counts. case_bool_decide as E.
  - rewrite map_filter_insert_True by done. rewrite map_size_insert_None; [lia|]. apply map_lookup_filter_None. by left.
  - rewrite map_filter_insert_False by done. rewrite delete_id by done. lia.
Qed.

Lemma links_delete G d o v j : G !! (d, o) = Some v ->
  links G j = (links (delete (d, o) G) j + if counts o v j then 1 else 0)%nat.
Proof.
  intros H. rewrite <- (insert_delete_id G (d, o) v H) at 1. apply links_insert, lookup_delete_eq.
Qed.

Lemma links_none G j : links G j = 0%nat -> forall d o, G !! (d, o) = Some j -> o = 0.
Proof.
  unfold links. rewrite map_size_empty_iff. intros H d o E. destruct (decide (o = 0)); [done|].
  assert (filter (fun x : (Z * Z) * Z => x.1.2 ≠ 0 /\ x.2 = j) G !! (d, o) = Some j) as H2 by (by apply map_lookup_filter_Some).
  by rewrite H, lookup_empty in H2.
Qed.

Lemma links_zero G j : (forall d o, G !! (d, o) = Some j -> o = 0) -> links G j = 0%nat.
Proof.
  intros H. unfold links. apply map_size_empty_iff, map_empty. intros [d o]. apply map_lookup_filter_None. right.
  intros v E [H0 H1]. cbn in *. subst v. by apply H0, (H d).
Qed.

Record names_ok (Y : gset Z) (ex T N : Z -> Z) (G : graph) : Prop := mkNames {
  nk_live : forall d o j, G !! (d, o) = Some j -> T d = T_DIR /\ T j ≠ 0;
  nk_off : forall d o j, G !! (d, o) = Some j -> o = 0 \/ o = 16 \/ 32 <= o;
  nk_links : forall j, T j ≠ 0 -> N j = Z.of_nat (links G j) + ex j;
  nk_self : forall d j, G !! (d, 0) = Some j -> j = d;
  nk_dots : forall d, T d = T_DIR -> d ∉ Y -> G !! (d, 0) = Some d /\ G !! (d, 16) ≠ None;
  nk_up : forall d p, G !! (d, 16) = Some p -> T p = T_DIR;
  nk_child : forall d o c, G !! (d, o) = Some c -> 32 <= o -> T c = T_DIR ->
    c ≠ ROOTINO /\ c ≠ d /\ c ∉ Y /\ G !! (c, 16) = Some d;
  nk_uniq : forall d o d' o' c, G !! (d, o) = Some c -> G !! (d', o') = Some c -> 32 <= o -> 32 <= o' ->
    T c = T_DIR -> (d, o) = (d', o');
  nk_parent : forall c d, T c = T_DIR -> c ∉ Y -> c ≠ ROOTINO -> G !! (c, 16) = Some d ->
    exists o, 32 <= o /\ G !! (d, o) = Some c;
  nk_root : T ROOTINO = T_DIR /\ ROOTINO ∉ Y /\ G !! (ROOTINO, 16) = Some ROOTINO }.

Lemma names_ext Y ex ex' T T' N N' G :
  (forall j, ex j = ex' j) -> (forall j, T j = T' j) -> (forall j, N j = N' j) ->
  names_ok Y ex T N G -> names_ok Y ex' T' N' G.
Proof.
  intros E1 E2 E3 []. constructor; try done.
  - intros d o j H. rewrite <- !E2. by eapply nk_live0.
  - intros j H. rewrite <- E2 in H. rewrite <- E1, <- E3. by apply nk_links0.
  - intros d H. rewrite <- E2 in H. by apply nk_dots0.
  - intros d p H. rewrite <- E2. by eapply nk_up0.
  - intros d o c H H0 H1. rewrite <- E2 in H1. by eapply nk_child0.
  - intros d o d' o' c H1 H2 H3 H4 H5. rewrite <- E2 in H5. by eapply nk_uniq0.
  - intros c d H. rewrite <- E2 in H. by apply nk_parent0.
  - by rewrite <- E2.
Qed.

(** A link count changed. *)
Lemma names_nlink Y ex T N G j n : names_ok Y ex T N G -> names_ok Y (bump ex j n) T (bump N j n) G.
Proof.
  intros []. constructor; try done. intros i Hi. unfold bump. rewrite nk_links0 by done. destruct (decide (i = j)); lia.
Qed.

(** An entry added; the directories of [Y] that are not in [Y'] are complete then. *)
Lemma names_insert Y Y' ex T N G d o v :
  names_ok Y ex T N G -> G !! (d, o) = None -> T d = T_DIR -> T v ≠ 0 -> o = 0 \/ o = 16 \/ 32 <= o ->
  (o = 0 -> v = d) -> (o = 16 -> T v = T_DIR /\ d ∈ Y') -> Y' ⊆ Y ->
  (forall c, c ∈ Y -> c ∉ Y' -> T c = T_DIR /\ G !! (c, 0) = Some c /\ G !! (c, 16) = Some d /\ c = v /\ 32 <= o) ->
  (32 <= o -> T v = T_DIR -> v ≠ ROOTINO /\ v ≠ d /\ v ∉ Y' /\ G !! (v, 16) = Some d /\
     forall d' o', 32 <= o' -> G !! (d', o') ≠ Some v) ->
  names_ok Y' (fun i => ex i - if counts o v i then 1 else 0) T N (<[(d, o) := v]> G).
Proof.
  intros [] Hn Hd Hv Ho H0 H16 HYY Hdone Hdir.
  assert (forall d' o' w, <[(d, o) := v]> G !! (d', o') = Some w -> (d' = d /\ o' = o /\ w = v) \/ G !! (d', o') = Some w) as Hin.
  { intros d' o' w [[E1 E2]|[_ E]]%lookup_insert_Some; [simplify_eq; by left|by right]. }
  assert (forall d' o' w, G !! (d', o') = Some w -> <[(d, o) := v]> G !! (d', o') = Some w) as Hkeep.
  { intros d' o' w E. apply lookup_insert_Some. right. split; [|done]. intros [= <- <-]. congruence. }
  constructor.
  - intros d' o' w [(-> & -> & ->)|E]%Hin; [done|by eapply nk_live0].
  - intros d' o' w [(-> & -> & ->)|E]%Hin; [done|by eapply nk_off0].
  - intros i Hi. rewrite links_insert, nk_links0 by done. destruct (counts o v i); lia.
  - intros d' w [(-> & <- & ->)|E]%Hin; [auto|by apply nk_self0].
  - intros c H1 H2. destruct (decide (c ∈ Y)) as [HY|HY].
    + destruct (Hdone c HY H2) as (_ & H3 & H4 & _). split; [by apply Hkeep|]. by rewrite (Hkeep _ _ _ H4).
    + destruct (nk_dots0 c H1 HY) as [H3 H4]. destruct (G !! (c, 16)) as [p|] eqn:E; [|done].
      split; [by apply Hkeep|]. by rewrite (Hkeep _ _ _ E).
  - intros d' p [(-> & <- & ->)|E]%Hin; [by apply H16|by eapply nk_up0].
  - intros d' o' c [(-> & -> & ->)|E]%Hin Ho' Hc; [destruct (Hdir Ho' Hc) as (?&?&?&?&?); auto|].
    destruct (nk_child0 _ _ _ E Ho' Hc) as (?&?&?&?). split_and!; [done|done|set_solver|by apply Hkeep].
  - intros d1 o1 d2 o2 c [(-> & -> & ->)|E1]%Hin [(-> & -> & E)|E2]%Hin H1 H2 H3; [done|..|by eapply nk_uniq0].
    + destruct (Hdir H1 H3) as (_ & _ & _ & _ & Hu). by destruct (Hu d2 o2 H2).
    + subst. destruct (Hdir H2 H3) as (_ & _ & _ & _ & Hu). by destruct (Hu d1 o1 H1).
  - intros c p Hc HY HR [(-> & <- & ->)|E]%Hin; [by destruct (HY (proj2 (H16 eq_refl)))|].
    destruct (decide (c ∈ Y)) as [HcY|HcY].
    + destruct (Hdone c HcY HY) as (_ & _ & H4 & -> & H5). assert (p = d) as -> by congruence. exists o.
      split; [done|]. apply lookup_insert_eq.
    + destruct (nk_parent0 c p Hc HcY HR E) as (o' & ? & ?). eauto.
  - destruct nk_root0 as (?&?&?). split_and!; [done|set_solver|auto].
Qed.

(** A file gets an entry. *)
Lemma names_link Y ex T N G d o j :
  names_ok Y ex T N G -> G !! (d, o) = None -> 32 <= o -> T d = T_DIR -> T j ≠ 0 -> T j ≠ T_DIR ->
  names_ok Y (bump ex j (-1)) T N (<[(d, o) := j]> G).
Proof.
  intros NK Hn Ho Hd Hj Hjd. eapply (names_ext _ (fun i => ex i - if counts o j i then 1 else 0)); [..|apply (names_insert Y Y)];
    try done; try lia.
  - intros i. unfold bump, counts. destruct (decide (i = j)) as [->|]; [rewrite bool_decide_true by lia; lia|].
    rewrite bool_decide_false by (intros [_ ?]; congruence). lia.
Qed.

(** The entries [.] and [..] of a new directory, and its entry in another one. *)
Lemma names_dot Y ex T N G d : names_ok Y ex T N G -> d ∈ Y -> T d = T_DIR -> G !! (d, 0) = None ->
  names_ok Y ex T N (<[(d, 0) := d]> G).
Proof.
  intros NK HY Hd Hn. eapply (names_ext _ (fun i => ex i - if counts 0 d i then 1 else 0)); [..|apply (names_insert Y Y)];
    try done; try lia.
  - intros i. unfold counts. rewrite bool_decide_false by (by intros []). lia.
  - by rewrite Hd.
Qed.

Lemma names_dotdot Y ex T N G d p : names_ok Y ex T N G -> d ∈ Y -> T d = T_DIR -> T p = T_DIR -> G !! (d, 16) = None ->
  names_ok Y (bump ex p (-1)) T N (<[(d, 16) := p]> G).
Proof.
  intros NK HY Hd Hp Hn. eapply (names_ext _ (fun i => ex i - if counts 16 p i then 1 else 0)); [..|apply (names_insert Y Y)];
    try done; try lia.
  - intros i. unfold bump, counts. destruct (decide (i = p)) as [->|]; [rewrite bool_decide_true by lia; lia|].
    rewrite bool_decide_false by (intros [_ ?]; congruence). lia.
  - by rewrite Hp.
Qed.

Lemma names_mkdir Y ex T N G d o c :
  names_ok ({[c]} ∪ Y) ex T N G -> G !! (d, o) = None -> 32 <= o -> T d = T_DIR -> T c = T_DIR ->
  G !! (c, 0) = Some c -> G !! (c, 16) = Some d -> c ∉ Y -> c ≠ d -> c ≠ ROOTINO ->
  names_ok Y (bump ex c (-1)) T N (<[(d, o) := c]> G).
Proof.
  intros NK Hn Ho Hd Hc H0 H16 HY Hcd HR. eapply (names_ext _ (fun i => ex i - if counts o c i then 1 else 0));
    [..|apply (names_insert ({[c]} ∪ Y) Y)]; try done; try lia.
  - intros i. unfold bump, counts. destruct (decide (i = c)) as [->|]; [rewrite bool_decide_true by lia; lia|].
    rewrite bool_decide_false by (intros [_ ?]; congruence). lia.
  - by rewrite Hc.
  - set_solver.
  - intros c' HcY HcY'. assert (c' = c) as -> by set_solver. done.
  - intros _ _. split_and!; [done..|]. intros d' o' Ho' E.
    destruct (nk_child _ _ _ _ _ NK _ _ _ E Ho' Hc) as (_ & _ & HcY & _). set_solver.
Qed.

(** An inode in use from now on; directories are incomplete at first. *)
Lemma names_new Y ex T N G j t n :
  names_ok Y ex T N G -> T j = 0 -> t ≠ 0 ->
  names_ok (if decide (t = T_DIR) then {[j]} ∪ Y else Y) (upd ex j n) (upd T j t) (upd N j n) G.
Proof.
  intros [] Hj Ht. unfold upd.
  assert (forall d o v, G !! (d, o) = Some v -> d ≠ j /\ v ≠ j) as Hne.
  { intros d o v E. destruct (nk_live0 _ _ _ E) as [H1 H2]. split; intros ->; [by rewrite Hj in H1|done]. }
  set (Y' := if decide (t = T_DIR) then {[j]} ∪ Y else Y).
  assert (forall i, i ≠ j -> i ∈ Y' <-> i ∈ Y) as HY by (intros i Hi; unfold Y'; case_decide; set_solver).
  assert (t = T_DIR -> j ∈ Y') as HjY by (intros E; unfold Y'; rewrite decide_True by done; set_solver).
  constructor; try done.
  - intros d o v E. destruct (Hne _ _ _ E). rewrite !decide_False by done. by eapply nk_live0.
  - intros i. destruct (decide (i = j)) as [->|]; [|apply nk_links0]. intros _.
    rewrite links_zero; [lia|]. intros d o E. destruct (Hne _ _ _ E). done.
  - intros d. destruct (decide (d = j)) as [->|Hd]; [intros E H; by destruct (H (HjY E))|]. intros H1 H2. apply nk_dots0; [done|]. by rewrite <- HY.
  - intros d p E. destruct (Hne _ _ _ E). rewrite decide_False by done. by eapply nk_up0.
  - intros d o c E Ho. destruct (Hne _ _ _ E). rewrite decide_False by done. intros Hc. rewrite HY by done. by eapply nk_child0.
  - intros d o d' o' c E1 E2 H1 H2. destruct (Hne _ _ _ E1). rewrite decide_False by done. by eapply nk_uniq0.
  - intros c d. destruct (decide (c = j)) as [->|Hc]; [intros E H; by destruct (H (HjY E))|]. rewrite HY by done. apply nk_parent0.
  - destruct nk_root0 as (H1 & H2 & H3). destruct (Hne _ _ _ H3). rewrite decide_False by done. by rewrite HY.
Qed.

(** An entry removed; a directory is detached then. *)
Lemma names_unlink Y ex T N G d o j :
  names_ok Y ex T N G -> G !! (d, o) = Some j -> 32 <= o ->
  names_ok (if decide (T j = T_DIR) then {[j]} ∪ Y else Y) (bump ex j 1) T N (delete (d, o) G).
Proof.
  intros NK Hn Ho. pose proof NK as []. set (Y' := if decide (T j = T_DIR) then {[j]} ∪ Y else Y).
  assert (forall c, c ∉ Y' -> c ∉ Y) as HY by (intros c; unfold Y'; case_decide; set_solver).
  assert (forall d' o' v, delete (d, o) G !! (d', o') = Some v -> G !! (d', o') = Some v) as Hin.
  { intros d' o' v [_ E]%lookup_delete_Some. done. }
  assert (forall d' o' v, G !! (d', o') = Some v -> v ≠ j \/ o' < 32 -> delete (d, o) G !! (d', o') = Some v) as Hkeep.
  { intros d' o' v E H. apply lookup_delete_Some. split; [|done]. intros [= <- <-]. destruct H; [congruence|lia]. }
  constructor.
  - intros d' o' v E%Hin. by eapply nk_live0.
  - intros d' o' v E%Hin. by eapply nk_off0.
  - intros i Hi. rewrite nk_links0 by done. rewrite (links_delete _ _ _ _ i Hn). unfold bump, counts.
    destruct (decide (i = j)) as [->|Hne]; [rewrite bool_decide_true by lia; lia|].
    rewrite bool_decide_false by (intros [_ ?]; congruence). lia.
  - intros d' v E%Hin. by apply nk_self0.
  - intros d' H1 H2. destruct (nk_dots0 d' H1 (HY _ H2)) as [H3 H4]. destruct (G !! (d', 16)) as [p|] eqn:E; [|done].
    split; [apply Hkeep; [done|lia]|]. rewrite (Hkeep _ _ _ E) by lia. done.
  - intros d' p E%Hin. by eapply nk_up0.
  - intros d' o' c E Ho' Hc. apply Hin in E as E'. destruct (nk_child0 _ _ _ E' Ho' Hc) as (?&?&?&?).
    split_and!; [done|done| |apply Hkeep; [done|lia]]. unfold Y'. case_decide as Hj; [|done].
    assert (c ≠ j); [|set_solver]. intros ->. pose proof (nk_uniq0 _ _ _ _ _ Hn E' Ho Ho' Hj) as [= <- <-].
    by rewrite lookup_delete_eq in E.
  - intros d1 o1 d2 o2 c E1%Hin E2%Hin H1 H2 H3. by eapply nk_uniq0.
  - intros c p Hc HcY HR E%Hin. destruct (nk_parent0 c p Hc (HY _ HcY) HR E) as (o' & ? & ?). exists o'. split; [done|]. apply Hkeep; [done|].
    left. intros ->. unfold Y' in HcY. rewrite decide_True in HcY by done. set_solver.
  - destruct nk_root0 as (?&?&?). split_and!; [done| |apply Hkeep; [done|lia]]. unfold Y'. case_decide as Hj; [|done].
    destruct (nk_child0 _ _ _ Hn Ho Hj) as (? & _). set_solver.
Qed.

(** A directory without entries other than its own two is in one place only. *)
Lemma links_empty Y ex T N G d o c :
  names_ok Y ex T N G -> (forall d' o' v, G !! (d', o') = Some v -> d' ∉ Y) -> G !! (d, o) = Some c -> 32 <= o -> T c = T_DIR ->
  (forall o', 32 <= o' -> G !! (c, o') = None) -> links G c = 1%nat.
Proof.
  intros [] HY Hn Ho Hc He. destruct (nk_child0 _ _ _ Hn Ho Hc) as (HR & Hcd & _ & H16).
  rewrite (links_delete _ _ _ _ c Hn). unfold counts. rewrite bool_decide_true by lia.
  rewrite links_zero; [done|]. intros d' o' [Hne E]%lookup_delete_Some. destruct (nk_off0 _ _ _ E) as [?|[->|Ho']]; [done|..].
  - destruct (nk_live0 _ _ _ E) as [Hd' _]. destruct (decide (d' = ROOTINO)) as [->|HR'].
    + destruct nk_root0 as (_ & _ & E'). congruence.
    + destruct (nk_parent0 d' c Hd' (HY _ _ _ E) HR' E) as (o2 & H1 & H2). by rewrite He in H2.
  - by destruct Hne; apply (nk_uniq0 _ _ _ _ _ Hn E).
Qed.

(** An inode without entries is no longer in use. *)
Lemma names_free Y ex T N G j :
  names_ok Y ex T N G -> links G j = 0%nat -> T j ≠ T_DIR ->
  names_ok Y ex (upd T j 0) N G.
Proof.
  intros [] Hl Hj. unfold upd.
  assert (forall d o v, G !! (d, o) = Some v -> d ≠ j /\ v ≠ j) as Hne.
  { intros d o v E. destruct (nk_live0 _ _ _ E) as [H1 H2]. split; intros ->; [done|].
    rewrite (links_none _ _ Hl _ _ E) in E. by rewrite (nk_self0 _ _ E) in Hj. }
  constructor; try done.
  - intros d o v E. destruct (Hne _ _ _ E). rewrite !decide_False by done. by eapply nk_live0.
  - intros i. destruct (decide (i = j)); [done|apply nk_links0].
  - intros d. destruct (decide (d = j)); [done|apply nk_dots0].
  - intros d p E. destruct (Hne _ _ _ E). rewrite decide_False by done. by eapply nk_up0.
  - intros d o c E Ho. destruct (Hne _ _ _ E). rewrite decide_False by done. by eapply nk_child0.
  - intros d o d' o' c E1 E2 H1 H2. destruct (Hne _ _ _ E1). rewrite decide_False by done. by eapply nk_uniq0.
  - intros c d. destruct (decide (c = j)); [done|apply nk_parent0].
  - destruct nk_root0 as (H1 & H2 & H3). destruct (Hne _ _ _ H3). by rewrite decide_False.
Qed.

(** The entries of a directory gone. *)
Definition drop_dir {A} (c : Z) (G : gmap (Z * Z) A) : gmap (Z * Z) A := filter (fun x => x.1.1 ≠ c) G.

Lemma drop_dir_other {A} (c : Z) (G : gmap (Z * Z) A) d o : d ≠ c -> drop_dir c G !! (d, o) = G !! (d, o).
Proof.
  intros H. apply option_eq. intros v. unfold drop_dir. rewrite map_lookup_filter_Some. cbn. naive_solver.
Qed.

Lemma drop_dir_same {A} (c : Z) (G : gmap (Z * Z) A) o : drop_dir c G !! (c, o) = None.
Proof. apply eq_None_not_Some. intros [v [_ H]%map_lookup_filter_Some]. done. Qed.

(** The two entries of a detached directory are gone. *)
Lemma names_detach Y ex T N G c p :
  names_ok ({[c]} ∪ Y) ex T N G -> links G c = 0%nat -> G !! (c, 0) = Some c -> G !! (c, 16) = Some p ->
  (forall o, 32 <= o -> G !! (c, o) = None) -> p ≠ c ->
  names_ok ({[c]} ∪ Y) (bump ex p 1) T N (drop_dir c G).
Proof.
  intros [] Hl H0 H16 He Hpc. assert (drop_dir c G = delete (c, 0) (delete (c, 16) G)) as ->.
  { apply map_eq. intros [d o]. apply option_eq. intros v. unfold drop_dir. rewrite map_lookup_filter_Some, !lookup_delete_Some. cbn.
    split; [intros [H1 H2]; split; [congruence|split; [congruence|done]]|]. intros (H1 & H2 & H3). split; [done|]. intros ->.
    destruct (nk_off0 _ _ _ H3) as [->|[->|Ho]]; [done..|]. by rewrite He in H3. }
  set (G' := delete (c, 0) (delete (c, 16) G)).
  assert (forall d o v, G' !! (d, o) = Some v -> G !! (d, o) = Some v /\ d ≠ c /\ v ≠ c) as Hin.
  { intros d o v [H1 [H2 E]%lookup_delete_Some]%lookup_delete_Some. assert (d ≠ c) as Hd.
    { intros ->. destruct (nk_off0 _ _ _ E) as [->|[->|Ho]]; [done..|]. by rewrite He in E. }
    split_and!; [done..|]. intros ->. rewrite (links_none _ _ Hl _ _ E) in E. by rewrite (nk_self0 _ _ E) in Hd. }
  assert (forall d o v, G !! (d, o) = Some v -> d ≠ c -> G' !! (d, o) = Some v) as Hkeep.
  { intros d o v E Hd. unfold G'. by rewrite !lookup_delete_ne by congruence. }
  constructor.
  - intros d o v (E & ? & ?)%Hin. by eapply nk_live0.
  - intros d o v (E & _)%Hin. by eapply nk_off0.
  - intros i HT. rewrite nk_links0 by done. rewrite (links_delete _ _ _ _ i H16). unfold G'.
    rewrite (links_delete (delete (c, 16) G) c 0 c i) by (by rewrite lookup_delete_ne).
    unfold bump, counts. rewrite (bool_decide_false (0 ≠ 0 /\ _)) by (by intros []).
    destruct (decide (i = p)) as [->|Hne]; [rewrite bool_decide_true by lia; lia|].
    rewrite bool_decide_false by (intros [_ ?]; congruence). lia.
  - intros d v (E & _)%Hin. by apply nk_self0.
  - intros d H1 H2. destruct (nk_dots0 d H1 H2) as [H3 H4]. assert (d ≠ c) by set_solver.
    split; [by apply Hkeep|]. destruct (G !! (d, 16)) as [q|] eqn:E; [|done]. by rewrite (Hkeep _ _ _ E).
  - intros d q (E & ? & ?)%Hin. by eapply nk_up0.
  - intros d o c' (E & ? & ?)%Hin Ho Hc'. destruct (nk_child0 _ _ _ E Ho Hc') as (?&?&?&?). split_and!; [done..|by apply Hkeep].
  - intros d1 o1 d2 o2 c' (E1 & _ & Hv)%Hin (E2 & _)%Hin H1 H2. by eapply nk_uniq0.
  - intros c' d HT HY HR (E & _ & ?)%Hin. destruct (nk_parent0 c' d HT HY HR E) as (o & ? & ?). exists o. split; [done|]. by apply Hkeep.
  - destruct nk_root0 as (H1 & H2 & H3). split_and!; [done..|]. apply Hkeep; [done|]. set_solver.
Qed.

(** A detached directory is no longer in use. *)
Lemma names_free_dir Y ex T N G c :
  names_ok ({[c]} ∪ Y) ex T N G -> c ∉ Y -> (forall d o v, G !! (d, o) = Some v -> d ≠ c /\ v ≠ c) ->
  names_ok Y ex (upd T c 0) N G.
Proof.
  intros [] HcY Hne. unfold upd. constructor.
  - intros d o v E. destruct (Hne _ _ _ E). rewrite !decide_False by done. by eapply nk_live0.
  - done.
  - intros i. destruct (decide (i = c)); [done|]. apply nk_links0.
  - done.
  - intros d. destruct (decide (d = c)) as [|Hd]; [done|]. intros H1 H2. apply nk_dots0; [done|set_solver].
  - intros d q E. destruct (Hne _ _ _ E). rewrite decide_False by done. by eapply nk_up0.
  - intros d o c' E Ho. destruct (Hne _ _ _ E). rewrite decide_False by done. intros Hc'.
    destruct (nk_child0 _ _ _ E Ho Hc') as (?&?&?&?). split_and!; [done|done|set_solver|done].
  - intros d1 o1 d2 o2 c' E1 E2 H1 H2. destruct (Hne _ _ _ E1). rewrite decide_False by done. by eapply nk_uniq0.
  - intros c' d. destruct (decide (c' = c)) as [|Hc']; [done|]. intros HT HY HR E. apply (nk_parent0 c' d HT ltac:(set_solver) HR E).
  - destruct nk_root0 as (H1 & H2 & H3). assert (ROOTINO ≠ c) by set_solver. rewrite decide_False by done. split_and!; [done|set_solver|done].
Qed.

(** The entries of the directories that are not in [O]. *)
Definition attached {A} (O : gset Z) (G : gmap (Z * Z) A) : gmap (Z * Z) A := filter (fun x => x.1.1 ∉ O) G.

Section attached.
Context {A : Type} (O : gset Z).
Implicit Types (G : gmap (Z * Z) A).

Lemma attached_some G d o v : attached O G !! (d, o) = Some v <-> G !! (d, o) = Some v /\ d ∉ O.
Proof. unfold attached. by rewrite map_lookup_filter_Some. Qed.

Lemma attached_other G d o : d ∉ O -> attached O G !! (d, o) = G !! (d, o).
Proof. intros H. apply option_eq. intros v. rewrite attached_some. tauto. Qed.

Lemma attached_none G d o : G !! (d, o) = None -> attached O G !! (d, o) = None.
Proof. intros H. apply eq_None_not_Some. intros [v [E _]%attached_some]. congruence. Qed.

Lemma attached_insert G d o v : d ∉ O -> attached O (<[(d, o) := v]> G) = <[(d, o) := v]> (attached O G).
Proof. intros H. unfold attached. by rewrite map_filter_insert_True. Qed.

Lemma attached_delete G x : attached O (delete x G) = delete x (attached O G).
Proof. apply map_filter_delete. Qed.

Lemma attached_drop G c : attached O (drop_dir c G) = drop_dir c (attached O G).
Proof.
  apply map_eq. intros [d o]. apply option_eq. intros v. unfold drop_dir, attached. rewrite !map_lookup_filter_Some. cbn. tauto.
Qed.

Lemma attached_add G c : attached ({[c]} ∪ O) G = drop_dir c (attached O G).
Proof.
  apply map_eq. intros [d o]. apply option_eq. intros v. unfold drop_dir, attached. rewrite !map_lookup_filter_Some. cbn. set_solver.
Qed.

End attached.

Lemma attached_empty {A} (G : gmap (Z * Z) A) : attached ∅ G = G.
Proof. apply map_eq. intros [d o]. apply attached_other. set_solver. Qed.
