(* ===== verification/FsCheck.v ===== *)
(** * Consistency of the disk

    What a checker of the file system would check: every block in use belongs to
    one inode and no other, every inode in use has a well-formed file, the entries
    of directories are those of [G], and types and link counts are those of the name
    space [A] ([disk_ok]).  [changed]
    is what an operation on one inode may do to the disk; the lemmas say what is
    left to show after it. *)

From stdpp Require Import base numbers gmap sets list strings.
From S2P Require Import Prelude CString Spinlock Sleeplock Bio BioRing BioSpec.
From S2P Require Import Log LogSpec Fs FsBlock FsAlloc FsFile FsInode FsDinode FsRW FsTrunc FsIcache FsDir SysFile FsNames.
Open Scope Z_scope.

(** ** The name space *)

(** What the disk says about names: the type and the link count of each inode, and
    the entries of the directories that are not empty. *)
Notation entries := (gmap (Z * Z) (list Z)).

Record ns := mkNs { nT : Z -> Z; nN : Z -> Z; nG : entries }.

(** The names of the first two entries. *)
Definition dots_named (G : entries) : Prop := forall d e name,
  (G !! (d, 0) = Some e -> names name e = true -> namecmp name DOT = 0) /\
  (G !! (d, 16) = Some e -> names name e = true -> namecmp name DOTDOT = 0).

(** Directories that were removed while they were in use: they have no links, no names
    and no entries but [.] and [..], which say nothing any more. *)
Definition orphans_ok (O : gset Z) (A : ns) : Prop := forall c, c ∈ O ->
  nT A c = T_DIR /\ nN A c = 0 /\ forall o, 32 <= o -> nG A !! (c, o) = None.

(** The other directories form a tree, except for those of [Y], which are being made or
    removed; [ex j] is what the link count of [j] has too much. *)
Definition tree_ok (O Y : gset Z) (ex : Z -> Z) (A : ns) : Prop :=
  names_ok (Y ∪ O) ex (nT A) (nN A) (de_inum <$> attached O (nG A)) /\ dots_named (attached O (nG A)) /\ orphans_ok O A.

(** What a directory says of a name. *)
Definition nfind (G : entries) (d : Z) (name : list Z) : option (Z * Z) :=
  find_at (fun o => default [] (G !! (d, o))) name (dir_offs (MAXFILE * BSIZE)).

(** An entry written. *)
Definition put_ent (d o : Z) (e : list Z) (G : entries) : entries :=
  if decide (de_inum e = 0) then delete (d, o) G else <[(d, o) := e]> G.

Section check.
Context (sb : superblock).
Implicit Types (D : list (list Z)) (G : entries) (k : blks).

(** The type of an inode; 0 if it is not in use. *)
Definition ity D (j : Z) : Z := if decide (0 <= j < sb_ninodes sb) then d_type (dinode_of sb D j) else 0.

Definition inl D (j : Z) : Z := if decide (0 <= j < sb_ninodes sb) then d_nlink (dinode_of sb D j) else 0.

(** Its blocks and its size. *)
Definition iad D (j : Z) : list Z := if ity D j =? 0 then replicate 13 0 else d_addrs (dinode_of sb D j).

Definition isz D (j : Z) : Z := if ity D j =? 0 then 0 else d_size (dinode_of sb D j).

Record blocks_ok D : Prop := mkBok {
  bo_di : forall j, ity D j ≠ 0 -> dinode_ok (dinode_of sb D j);
  bo_file : forall j, file_ok sb D (iad D j);
  bo_whole : forall j, whole D (iad D j) (isz D j);
  bo_apart : forall j j' a, owned D (iad D j) a -> owned D (iad D j') a -> j = j';
  bo_used : forall a, data0 sb <= a < sb_size sb -> used sb D a = true -> exists j, owned D (iad D j) a }.

(** The entries of the directories. *)
Definition is_ent D (d o : Z) (e : list Z) : Prop :=
  ity D d = T_DIR /\ o ∈ dir_offs (isz D d) /\ entry D (iad D d) o = e /\ de_inum e ≠ 0.

Record graph_ok D G : Prop := mkGok {
  gr_ent : forall d o v, G !! (d, o) = Some v <-> is_ent D d o v;
  gr_size : forall d, ity D d = T_DIR -> exists n, 0 <= n /\ isz D d = DESIZE * n }.

Record disk_ok D (A : ns) : Prop := mkDisk {
  dk_blocks : blocks_ok D;
  dk_graph : graph_ok D (nG A);
  dk_T : forall j, ity D j = nT A j;
  dk_N : forall j, inl D j = nN A j }.

Lemma ity_inum D j : ity D j ≠ 0 -> is_inum sb j.
Proof. unfold ity, is_inum. case_decide; lia. Qed.

Lemma ity_eq D j : is_inum sb j -> ity D j = d_type (dinode_of sb D j).
Proof. intros H. unfold ity. by rewrite decide_True. Qed.

Lemma iad_live D j : ity D j ≠ 0 -> iad D j = d_addrs (dinode_of sb D j) /\ isz D j = d_size (dinode_of sb D j).
Proof. intros H. unfold iad, isz. by rewrite (proj2 (Z.eqb_neq _ _)). Qed.

(** ** Changes of one inode *)

Record changed D D' (j : Z) : Prop := mkChanged {
  ch_di : forall i, is_inum sb i -> i ≠ j -> dinode_of sb D' i = dinode_of sb D i;
  ch_frame : forall a, live sb D a -> ~ owned D (iad D j) a -> blk D' a = blk D a;
  ch_own : forall a, owned D' (iad D' j) a -> owned D (iad D j) a \/ used sb D a = false;
  ch_used : forall a, data0 sb <= a < sb_size sb ->
    used sb D' a = true <-> (used sb D a = true /\ ~ owned D (iad D j) a) \/ owned D' (iad D' j) a }.

Section change.
Context (D D' : list (list Z)) (j : Z) (B : blocks_ok D) (C : changed D D' j).

Lemma ch_ity i : i ≠ j -> ity D' i = ity D i.
Proof. intros Hi. unfold ity. case_decide as H; [|done]. by rewrite (ch_di _ _ _ C). Qed.

Lemma ch_iad i : i ≠ j -> iad D' i = iad D i /\ isz D' i = isz D i.
Proof.
  intros Hi. unfold iad, isz. rewrite ch_ity by done. destruct (ity D i =? 0) eqn:E; [done|].
  rewrite (ch_di _ _ _ C) by (done || (apply (ity_inum D); lia)). done.
Qed.

Lemma ch_blk i a : i ≠ j -> owned D (iad D i) a -> blk D' a = blk D a.
Proof.
  intros Hi Ha. apply (ch_frame _ _ _ C); [by apply (owned_live sb D (iad D i)), Ha; apply B|].
  intros Hj. by destruct Hi; apply (bo_apart _ B i j a).
Qed.

Lemma ch_other_owned i a : i ≠ j -> owned D' (iad D' i) a <-> owned D (iad D i) a.
Proof. intros Hi. destruct (ch_iad i Hi) as [-> _]. apply other_owned. intros b Hb. by eapply ch_blk. Qed.

Lemma ch_byte i off : i ≠ j -> off_ok off -> fbyte D' (iad D' i) off = fbyte D (iad D i) off.
Proof. intros Hi Ho. destruct (ch_iad i Hi) as [-> _]. apply other_byte; [|done]. intros b Hb. by eapply ch_blk. Qed.

Lemma ch_file_ok i : i ≠ j -> file_ok sb D' (iad D' i).
Proof.
  intros Hi. destruct (ch_iad i Hi) as [-> _]. apply (other_ok sb D); [intros b Hb; by eapply ch_blk| |apply B].
  intros a Ha. pose proof (owned_live sb D _ a (bo_file _ B i) Ha) as [H1 H2]. apply (ch_used _ _ _ C); [done|]. left. split; [done|].
  intros Hj. by destruct Hi; apply (bo_apart _ B i j a).
Qed.

Lemma blocks_change : (ity D' j ≠ 0 -> dinode_ok (dinode_of sb D' j)) -> file_ok sb D' (iad D' j) ->
  whole D' (iad D' j) (isz D' j) -> blocks_ok D'.
Proof.
  intros H1 H2 H3. constructor.
  - intros i Hi. destruct (decide (i = j)) as [->|Hne]; [by apply H1|].
    rewrite (ch_di _ _ _ C) by (done || by eapply ity_inum). apply B. by rewrite <- ch_ity.
  - intros i. destruct (decide (i = j)) as [->|Hne]; [done|]. by apply ch_file_ok.
  - intros i. destruct (decide (i = j)) as [->|Hne]; [done|]. destruct (bo_whole _ B i) as [Hs Hw]. destruct (ch_iad i Hne) as [-> ->].
    split; [done|]. intros bn Hb Hlt. rewrite (other_addr D D'); [by apply Hw|]. intros b Hb2. by eapply ch_blk.
  - assert (forall i a, i ≠ j -> owned D' (iad D' i) a -> ~ owned D' (iad D' j) a) as Hij.
    { intros i a Hne Ha Hj. apply ch_other_owned in Ha; [|done]. destruct (ch_own _ _ _ C a Hj) as [Ho|Hu].
      - by destruct Hne; apply (bo_apart _ B i j a).
      - destruct (owned_live sb D _ a (bo_file _ B i) Ha) as [_ Hu']. congruence. }
    intros i i' a Hi Hi'. destruct (decide (i = j)) as [->|Hne], (decide (i' = j)) as [->|Hne']; [done|..].
    + by destruct (Hij i' a Hne' Hi').
    + by destruct (Hij i a Hne Hi).
    + apply ch_other_owned in Hi; [|done]. apply ch_other_owned in Hi'; [|done]. by apply (bo_apart _ B i i' a).
  - intros a Ha Hu. apply (ch_used _ _ _ C) in Hu as [[Hu Hn]|Ho]; [| by exists j|done].
    destruct (bo_used _ B a Ha Hu) as [i Hi]. exists i. destruct (decide (i = j)) as [->|Hne]; [done|]. by apply ch_other_owned.
Qed.

Lemma entry_same D1 l1 D2 l2 n o : (forall x, off_ok x -> fbyte D1 l1 x = fbyte D2 l2 x) ->
  0 <= n -> DESIZE * n <= MAXFILE * BSIZE -> o ∈ dir_offs (DESIZE * n) -> entry D1 l1 o = entry D2 l2 o.
Proof.
  intros HB Hn Hm Ho. apply elem_dir_offs in Ho as (t & -> & Ht); [|done]. unfold entry, bytes. apply list_fmap_ext. intros x y Hx.
  apply lookup_seqZ in Hx as [-> Hx]. apply HB. unfold off_ok, DESIZE in *. lia.
Qed.

Lemma ch_entry d o : d ≠ j -> o ∈ dir_offs (isz D d) -> (exists n, 0 <= n /\ isz D d = DESIZE * n) ->
  entry D' (iad D' d) o = entry D (iad D d) o.
Proof.
  intros Hd Ho (n & Hn & E). rewrite E in Ho. destruct (bo_whole _ B d) as [Hs _]. rewrite E in Hs.
  apply (entry_same _ _ _ _ n); [intros; by apply ch_byte|done|lia|done].
Qed.

Lemma graph_change G G' : graph_ok D G ->
  (forall d o, d ≠ j -> G' !! (d, o) = G !! (d, o)) -> (forall o v, G' !! (j, o) = Some v <-> is_ent D' j o v) ->
  (ity D' j = T_DIR -> exists n, 0 <= n /\ isz D' j = DESIZE * n) -> graph_ok D' G'.
Proof.
  intros [HG HS] Hother Hj Hsz. constructor.
  - intros d o v. destruct (decide (d = j)) as [->|Hd]; [apply Hj|]. rewrite Hother, HG by done. unfold is_ent.
    destruct (ch_iad d Hd) as [_ ->]. rewrite ch_ity by done.
    split; intros (H1 & H2 & H3 & H4); (split_and!; [done|done| |done]); [by rewrite ch_entry by auto|by rewrite <- ch_entry by auto].
  - intros d Hd. destruct (decide (d = j)) as [->|Hne]; [by apply Hsz|]. destruct (ch_iad d Hne) as [_ ->]. apply HS. by rewrite <- ch_ity.
Qed.

End change.

Lemma whole_nil D l : whole D l 0.
Proof. split; [done|]. unfold BSIZE. lia. Qed.

(** An inode that keeps its blocks. *)
Lemma changed_keep D D' j : blocks_ok D ->
  (forall i, is_inum sb i -> i ≠ j -> dinode_of sb D' i = dinode_of sb D i) -> iad D' j = iad D j ->
  (forall a, live sb D a -> blk D' a = blk D a) -> (forall a, data0 sb <= a < sb_size sb -> used sb D' a = used sb D a) ->
  changed D D' j /\ file_ok sb D' (iad D' j) /\ (forall off, off_ok off -> fbyte D' (iad D' j) off = fbyte D (iad D j) off) /\
  (forall sz, whole D (iad D j) sz -> whole D' (iad D' j) sz).
Proof.
  intros B Hdi Had Hblk Hu. rewrite Had.
  assert (forall a, owned D (iad D j) a -> live sb D a) as Hl by (intros a; apply owned_live, B).
  assert (forall a, owned D (iad D j) a -> blk D' a = blk D a) as Hob by (intros a Ha; by apply Hblk, Hl).
  assert (file_ok sb D' (iad D j)) as HF.
  { apply (other_ok sb D); [done| |apply B]. intros a Ha. destruct (Hl a Ha) as [H1 H2]. by rewrite Hu. }
  split_and!; [|done| |].
  - constructor; rewrite ?Had; [done|by intros; apply Hblk| |].
    + intros a Ha. left. by apply (other_owned D D' _ Hob).
    + intros a Ha. rewrite Hu by done. rewrite (other_owned D D' _ Hob). split.
      * intros Hua. destruct (bo_used _ B a Ha Hua) as [i Hi]. destruct (decide (i = j)) as [->|Hne]; [by right|]. left. split; [done|].
        intros Hj. by destruct Hne; apply (bo_apart _ B i j a).
      * intros [[? _]|Ho]; [done|]. by apply Hl.
  - intros off Ho. by apply other_byte.
  - intros sz [Hs Hw]. split; [done|]. intros bn Hb Hlt. rewrite (other_addr D D' _ Hob). by apply Hw.
Qed.

(** *** Attributes of an inode *)

Lemma iupd_ity k num di j : geom sb k -> is_inum sb num -> dinode_ok di ->
  ity (k_data (k_iupd sb num di k)) j = if decide (j = num) then d_type di else ity (k_data k) j.
Proof.
  intros Gm Hn Hok. unfold ity. destruct (decide (j = num)) as [->|Hne].
  - rewrite decide_True by done. rewrite dinode_iupd by done. by rewrite decide_True.
  - case_decide; [|done]. rewrite dinode_iupd by done. by rewrite decide_False.
Qed.

Lemma disk_attr k A num di n :
  geom sb k -> disk_ok (k_data k) A -> nT A num ≠ 0 -> dinode_ok di ->
  let d0 := dinode_of sb (k_data k) num in
  d_type di = d_type d0 -> d_size di = d_size d0 -> d_addrs di = d_addrs d0 -> d_nlink di = d_nlink d0 + n ->
  disk_ok (k_data (k_iupd sb num di k)) (mkNs (nT A) (bump (nN A) num n) (nG A)).
Proof.
  intros Gm [B HG HT HN] Hal Hok d0 Et Es Ea En. rewrite <- HT in Hal. pose proof (ity_inum _ _ Hal) as Hn.
  set (D' := k_data (k_iupd sb num di k)).
  assert (dinode_of sb D' num = di) as Hdi by (unfold D'; rewrite dinode_iupd by done; by rewrite decide_True).
  assert (forall j, ity D' j = ity (k_data k) j) as Hity.
  { intros j. unfold D'. rewrite iupd_ity by done. destruct (decide _) as [->|]; [|done]. by rewrite Et, ity_eq. }
  assert (iad D' num = iad (k_data k) num /\ isz D' num = isz (k_data k) num) as [Had Hsz].
  { unfold iad, isz. rewrite Hity, Hdi, Ea, Es. done. }
  destruct (geom_iblock sb k num Gm Hn) as (Hib1 & Hib2 & Hib3 & Hib4 & Hib5).
  assert (forall a, live sb (k_data k) a -> blk D' a = blk (k_data k) a) as Hblk.
  { intros a [Ha _]. unfold D'. apply blk_iupd; [done|done| |]; lia. }
  destruct (changed_keep (k_data k) D' num B) as (C & HF & HB & HW); [|done|done| |].
  { intros i Hi Hne. unfold D'. rewrite dinode_iupd by done. by rewrite decide_False. }
  { intros a Ha. unfold D'. apply used_iupd; [done|done|]. pose proof (geom_order sb k Gm). lia. }
  split; cbn [nT nN nG].
  - apply (blocks_change (k_data k) D' num B C); [by rewrite Hdi|done|]. rewrite Hsz. apply HW, B.
  - apply (graph_change (k_data k) D' num B C (nG A)); [done|done| |].
    + intros o v. rewrite (gr_ent _ _ HG). unfold is_ent. rewrite Hity, Hsz. pose proof (proj1 (bo_whole _ B num)) as Hm.
      split; intros (H1 & H2 & H3 & H4); (split_and!; [done|done| |done]); rewrite <- H3;
        destruct (gr_size _ _ HG num H1) as (t & Ht & Et'); rewrite Et' in *; [|symmetry]; apply (entry_same _ _ _ _ t); (done || lia).
    + rewrite Hity, Hsz. apply HG.
  - intros j. by rewrite Hity.
  - intros j. unfold bump. rewrite <- HN. unfold inl. destruct (decide (j = num)) as [->|Hne]; [rewrite !decide_True by done; by rewrite Hdi, En|].
    case_decide; [|done]. unfold D'. rewrite dinode_iupd by done. by rewrite decide_False.
Qed.

(** *** A new inode *)

Definition fresh_dinode (t : Z) : dinode := mkDi t 0 0 0 0 (replicate 13 0).

Definition k_new (num t : Z) k : blks :=
  k_upd (IBLOCK sb num) (put16 (ioff num) t (zero_dinode (ioff num) (k_get (IBLOCK sb num) k))) k.

Lemma zero_dinode_at o d j : (o + 64 <= length d)%nat ->
  zero_dinode o d !! j = if decide (o <= j < o + 64)%nat then Some 0 else d !! j.
Proof.
  intros Ho. pose proof (lookup_splice o (replicate 64 0) d j) as H. unfold splice in H. rewrite length_replicate in H.
  unfold zero_dinode. rewrite H by lia. case_decide; [|done]. apply lookup_replicate_2. lia.
Qed.

Lemma get_fresh o d t : (o + 64 <= length d)%nat -> -32768 <= t < 32768 ->
  get_dinode (put16 o t (zero_dinode o d)) o = fresh_dinode t.
Proof.
  intros Ho Ht. assert (length (zero_dinode o d) = length d) as Hl.
  { unfold zero_dinode. rewrite !length_app, length_take, length_replicate, length_drop. lia. }
  assert (forall j, (o + 2 <= j < o + 64)%nat -> default 0 (put16 o t (zero_dinode o d) !! j) = 0) as Hz.
  { intros j Hj. rewrite put16_other by lia. rewrite zero_dinode_at by done. by rewrite decide_True by lia. }
  unfold get_dinode, fresh_dinode. rewrite get16_put by lia. f_equal.
  - by rewrite i16_mod, i16_small.
  - unfold get16. by rewrite !Hz by lia.
  - unfold get16. by rewrite !Hz by lia.
  - unfold get16. by rewrite !Hz by lia.
  - unfold getu32, get32. by rewrite !Hz by lia.
  - unfold get_addrs. apply list_eq. intros q. destruct (decide (q < 13)%nat) as [Hq|Hq].
    + rewrite list_lookup_fmap, lookup_seq_lt by done. rewrite lookup_replicate_2 by done. cbn. f_equal.
      unfold getu32, get32. by rewrite !Hz by lia.
    + rewrite !lookup_ge_None_2; [done|rewrite length_replicate; lia|rewrite length_fmap, length_seq; lia].
Qed.

Lemma dinode_new k num t j : geom sb k -> is_inum sb num -> is_inum sb j -> -32768 <= t < 32768 ->
  dinode_of sb (k_data (k_new num t k)) j = if decide (j = num) then fresh_dinode t else dinode_of sb (k_data k) j.
Proof.
  intros Gm Hn Hj Ht. destruct (geom_iblock sb k num Gm Hn) as (_ & Hib & _). destruct (geom_iblock sb k j Gm Hj) as (_ & Hjb & _).
  pose proof (k_get_len k (IBLOCK sb num) ltac:(apply Gm) Hib) as Hl. pose proof (ioff_bound num ltac:(apply Hn)) as Hb.
  unfold dinode_of. change (blk (k_data ?k') ?n) with (k_get n k'). unfold k_new. rewrite k_get_upd by (done || lia).
  destruct (decide (j = num)) as [->|Hne]; [rewrite decide_True by done; apply get_fresh; [lia|done]|].
  case_decide as E; [|done]. rewrite E. apply get_dinode_ext. intros q Hq.
  destruct (ioff_apart num j) as [H|H]; [apply Hn|apply Hj| |congruence|..].
  - unfold IBLOCK in E. lia.
  - rewrite put16_other by lia. rewrite zero_dinode_at by lia. by rewrite decide_False by lia.
  - rewrite put16_other by lia. rewrite zero_dinode_at by lia. by rewrite decide_False by lia.
Qed.

Lemma disk_new k A num t :
  geom sb k -> disk_ok (k_data k) A -> is_inum sb num -> nT A num = 0 -> 0 < t < 32768 ->
  let D' := k_data (k_new num t k) in
  disk_ok D' (mkNs (upd (nT A) num t) (upd (nN A) num 0) (nG A)) /\ dinode_of sb D' num = fresh_dinode t.
Proof.
  intros Gm [B HG HT HN] Hn Hdead Ht D'. rewrite <- HT in Hdead. pose proof (dinode_new k num t) as Hdi. fold D' in Hdi.
  assert (dinode_of sb D' num = fresh_dinode t) as Hnum by (rewrite Hdi by (done || lia); by rewrite decide_True).
  destruct (geom_iblock sb k num Gm Hn) as (Hib1 & Hib2 & Hib3 & Hib4 & Hib5).
  pose proof (geom_order sb k Gm) as Hord.
  assert (ity D' num = t) as Hty by (rewrite ity_eq by done; by rewrite Hnum).
  assert (iad D' num = iad (k_data k) num /\ isz D' num = 0) as [Had Hsz].
  { unfold iad, isz. rewrite Hty, Hdead, Hnum. by rewrite (proj2 (Z.eqb_neq t 0)) by lia. }
  destruct (changed_keep (k_data k) D' num B) as (C & HF & HB & HW); [|done| | |].
  { intros i Hi Hne. rewrite Hdi by (done || lia). by rewrite decide_False. }
  { intros a [Ha _]. change (k_get a (k_new num t k) = k_get a k). unfold k_new. rewrite k_get_upd by lia. by rewrite decide_False by lia. }
  { intros a Ha. apply (used_upd_other sb); [done|lia|lia|lia]. }
  split; [|done]. split; cbn [nT nN nG].
  - apply (blocks_change (k_data k) D' num B C); [|done|].
    + rewrite Hnum. intros _. constructor; cbn; try lia. by repeat constructor.
    + rewrite Hsz. apply whole_nil.
  - apply (graph_change (k_data k) D' num B C (nG A)); [done|done| |].
    + intros o v. rewrite (gr_ent _ _ HG). unfold is_ent. rewrite Hsz, Hdead. split; [by intros []|].
      intros (_ & H & _). change 0 with (DESIZE * 0) in H. apply elem_dir_offs in H as (? & _ & ?); lia.
    + intros _. exists 0. split; [lia|]. by rewrite Hsz.
  - intros j. unfold upd. destruct (decide (j = num)) as [->|Hne]; [done|]. rewrite <- HT. by apply (ch_ity _ _ _ C).
  - intros j. unfold upd. rewrite <- HN. unfold inl. destruct (decide (j = num)) as [->|Hne]; [rewrite decide_True by done; by rewrite Hnum|].
    case_decide; [|done]. rewrite Hdi by (done || lia). by rewrite decide_False.
Qed.

(** *** A file written *)

Record touched D D' (num off : Z) (src : list Z) : Prop := mkTouched {
  th_di : forall i, is_inum sb i -> i ≠ num -> dinode_of sb D' i = dinode_of sb D i;
  th_num : exists l', dinode_of sb D' num =
    set_d_size (Z.max (d_size (dinode_of sb D num)) (off + Z.of_nat (length src))) (set_d_addrs l' (dinode_of sb D num));
  th_ok : dinode_ok (dinode_of sb D' num);
  th_file : file_ok sb D' (d_addrs (dinode_of sb D' num));
  th_whole : whole D' (d_addrs (dinode_of sb D' num)) (d_size (dinode_of sb D' num));
  th_bytes : forall o, off_ok o ->
    fbyte D' (d_addrs (dinode_of sb D' num)) o = over off src (fbyte D (d_addrs (dinode_of sb D num))) o;
  th_own : forall a, owned D' (d_addrs (dinode_of sb D' num)) a ->
    owned D (d_addrs (dinode_of sb D num)) a \/ used sb D a = false;
  th_keep : forall a, owned D (d_addrs (dinode_of sb D num)) a -> owned D' (d_addrs (dinode_of sb D' num)) a;
  th_used : forall a, 0 <= a < sb_size sb -> used sb D a = true -> used sb D' a = true;
  th_new : forall a, 0 <= a < sb_size sb -> used sb D' a = true ->
    used sb D a = true \/ owned D' (d_addrs (dinode_of sb D' num)) a;
  th_frame : forall n, live sb D n -> ~ owned D (d_addrs (dinode_of sb D num)) n -> blk D' n = blk D n }.

Section touched.
Context (D D' : list (list Z)) (num off : Z) (src : list Z).
Context (B : blocks_ok D) (Hal : ity D num ≠ 0) (TH : touched D D' num off src) (Hpos : 0 <= data0 sb).

Lemma touched_ity j : ity D' j = ity D j.
Proof.
  unfold ity. case_decide as H; [|done]. destruct (decide (j = num)) as [->|Hne]; [|by rewrite (th_di _ _ _ _ _ TH)].
  by destruct (th_num _ _ _ _ _ TH) as [l' ->].
Qed.

Lemma touched_inl j : inl D' j = inl D j.
Proof.
  unfold inl. case_decide as H; [|done]. destruct (decide (j = num)) as [->|Hne]; [|by rewrite (th_di _ _ _ _ _ TH)].
  by destruct (th_num _ _ _ _ _ TH) as [l' ->].
Qed.

Lemma touched_sz : isz D' num = Z.max (isz D num) (off + Z.of_nat (length src)).
Proof.
  destruct (iad_live D num Hal) as [_ ->]. destruct (iad_live D' num) as [_ ->]; [by rewrite touched_ity|].
  by destruct (th_num _ _ _ _ _ TH) as [l' ->].
Qed.

Lemma touched_changed : changed D D' num.
Proof.
  destruct (iad_live D num Hal) as [Ha _]. destruct (iad_live D' num) as [Ha' _]; [by rewrite touched_ity|].
  pose proof TH as []. constructor; rewrite ?Ha, ?Ha'; try done. intros a Hr. split.
  - intros Hu. apply th_new0 in Hu as [Hu|?]; [|by right|lia]. destruct (bo_used _ B a Hr Hu) as [i Hi].
    destruct (decide (i = num)) as [->|Hne]; [right; apply th_keep0; by rewrite <- Ha|]. left. split; [done|]. rewrite <- Ha. intros Hj.
    by destruct Hne; apply (bo_apart _ B i num a).
  - intros [[Hu _]|Ho]; [apply th_used0; [lia|done]|]. by apply (owned_live sb D' _ a th_file0).
Qed.

Lemma touched_blocks : blocks_ok D'.
Proof.
  destruct (iad_live D' num) as [Ha' Hs']; [by rewrite touched_ity|].
  apply (blocks_change D D' num B touched_changed); rewrite ?Ha', ?Hs'; try intros _; apply TH.
Qed.

(** The contents of other inodes than directories are not looked at. *)
Lemma disk_write A : disk_ok D A -> nT A num ≠ T_DIR -> disk_ok D' A.
Proof.
  intros [_ HG HT HN] Ht. rewrite <- HT in Ht. split; [apply touched_blocks| |intros; by rewrite touched_ity|intros; by rewrite touched_inl].
  apply (graph_change D D' num B touched_changed (nG A)); [done|done| |by rewrite touched_ity].
  intros o v. rewrite (gr_ent _ _ HG). unfold is_ent. rewrite touched_ity. split; by intros [].
Qed.

(** An entry of a directory written. *)
Lemma touched_dir G n t : graph_ok D G -> ity D num = T_DIR -> isz D num = DESIZE * n -> 0 <= n ->
  off = DESIZE * t -> 0 <= t <= n -> length src = 16%nat -> graph_ok D' (put_ent num off src G).
Proof.
  intros HG Ht Hn Hn0 Eo Htn Hl. rewrite Eo.
  destruct (iad_live D num Hal) as [Ha _]. destruct (iad_live D' num) as [Ha' _]; [by rewrite touched_ity|].
  assert (isz D' num = DESIZE * Z.max n (t + 1)) as Hsz by (rewrite touched_sz, Hn, Hl, Eo; unfold DESIZE; lia).
  pose proof (proj1 (bo_whole _ touched_blocks num)) as Hmax. rewrite Hsz in Hmax.
  assert (forall u, 0 <= u < Z.max n (t + 1) ->
    entry D' (iad D' num) (DESIZE * u) = if decide (DESIZE * u = DESIZE * t) then src else entry D (iad D num) (DESIZE * u)) as Hent.
  { intros u Hu. apply entry_over; [done| |by exists t; lia|lia|unfold DESIZE in *; lia]. rewrite Ha, Ha', <- Eo. apply TH. }
  apply (graph_change D D' num B touched_changed G); [done| | |].
  - intros d o Hd. unfold put_ent. case_decide; [apply lookup_delete_ne|apply lookup_insert_ne]; congruence.
  - intros o w. unfold is_ent. rewrite touched_ity, Hsz. rewrite elem_dir_offs by lia.
    destruct (decide (o = DESIZE * t)) as [->|Ho].
    + rewrite Hent, decide_True by (done || lia). unfold put_ent.
      case_decide as Ev; [rewrite lookup_delete_eq; split; [done|intros (_ & _ & H1 & H2); congruence]|].
      rewrite lookup_insert_eq. split; [intros [= <-]|by intros (_ & _ & -> & _)]. split_and!; [done| |done|done]. exists t. lia.
    + assert (put_ent num (DESIZE * t) src G !! (num, o) = G !! (num, o)) as ->.
      { unfold put_ent. case_decide; [apply lookup_delete_ne|apply lookup_insert_ne]; congruence. }
      rewrite (gr_ent _ _ HG). unfold is_ent. rewrite Hn, elem_dir_offs by lia.
      split; intros (H1 & (u & -> & Hu) & H3 & H4); (split_and!; [done|exists u; unfold DESIZE in *; lia| |done]).
      * rewrite Hent by lia. by rewrite decide_False.
      * rewrite Hent in H3 by lia. by rewrite decide_False in H3.
  - intros _. exists (Z.max n (t + 1)). split; [lia|done].
Qed.

Lemma disk_entry A n t :
  disk_ok D A -> nT A num = T_DIR -> isz D num = DESIZE * n -> 0 <= n ->
  off = DESIZE * t -> 0 <= t <= n -> length src = 16%nat ->
  disk_ok D' (mkNs (nT A) (nN A) (put_ent num off src (nG A))).
Proof.
  intros [_ HG HT HN] Ht Hn Hn0 Ho Htn Hl. rewrite <- HT in Ht.
  split; [apply touched_blocks|by apply (touched_dir _ n t)|intros; by rewrite touched_ity|intros; by rewrite touched_inl].
Qed.

End touched.

(** *** An inode given back *)

Section freed.
Context (k k' : blks) (i : inode) (B : blocks_ok (k_data k)) (Hal : ity (k_data k) (i_num i) ≠ 0).
Context (Hsync : i_d i = dinode_of sb (k_data k) (i_num i)) (RC : reclaimed sb k i k').
Let D := k_data k.
Let D' := k_data k'.
Let num := i_num i.

Lemma freed_di j : is_inum sb j -> dinode_of sb D' j = if decide (j = num) then i_d (freed_inode i) else dinode_of sb D j.
Proof. apply RC. Qed.

Lemma freed_ity j : ity D' j = if decide (j = num) then 0 else ity D j.
Proof.
  unfold ity. case_decide as H; [|by destruct (decide (j = num))]. rewrite freed_di by done. by destruct (decide (j = num)).
Qed.

Lemma freed_inl j : inl D' j = inl D j.
Proof.
  unfold inl. case_decide as H; [|done]. rewrite freed_di by done. destruct (decide (j = num)) as [->|]; [|done].
  unfold D, num. by rewrite <- Hsync.
Qed.

Lemma freed_iad : iad D' num = replicate 13 0 /\ isz D' num = 0.
Proof. unfold iad, isz. rewrite freed_ity, decide_True by done. done. Qed.

Lemma freed_changed : 0 <= data0 sb -> changed D D' num.
Proof.
  intros H0. destruct freed_iad as [Ha' _]. destruct (iad_live D num Hal) as [Ha _].
  assert (addrs i = iad D num) as Had by (rewrite Ha; unfold addrs; by rewrite Hsync).
  constructor; rewrite ?Ha'.
  - intros j Hj Hne. rewrite freed_di by done. by rewrite decide_False.
  - intros a [Hr _] _. apply (rc_blk _ _ _ _ RC). lia.
  - intros a Ho. by destruct (empty_owned D' a).
  - intros a Hr. unfold D'. rewrite (rc_used _ _ _ _ RC) by lia. rewrite Had. split; [by left|].
    intros [?|Ho]; [done|]. by destruct (empty_owned D' a).
Qed.

Lemma freed_blocks : 0 <= data0 sb -> blocks_ok D'.
Proof.
  intros H0. destruct freed_iad as [Ha' Hs']. apply (blocks_change D D' num B (freed_changed H0)); rewrite ?Ha', ?Hs'.
  - by rewrite freed_ity, decide_True.
  - apply empty_file.
  - apply whole_nil.
Qed.

Lemma disk_free A : 0 <= data0 sb -> disk_ok D A -> disk_ok D' (mkNs (upd (nT A) num 0) (nN A) (drop_dir num (nG A))).
Proof.
  intros H0 [_ HG HT HN]. split; cbn [nT nN nG]; [by apply freed_blocks| | |intros j; by rewrite freed_inl].
  - apply (graph_change D D' num B (freed_changed H0) (nG A)); [done|by intros; apply drop_dir_other| |].
    + intros o v. rewrite drop_dir_same. split; [done|]. intros [H _]. by rewrite freed_ity, decide_True in H.
    + by rewrite freed_ity, decide_True.
  - intros j. rewrite freed_ity, HT. done.
Qed.

End freed.

(** ** How many entries there can be *)

(** An entry by its block and its place there. *)
Lemma ent_split t : let o := DESIZE * t in
  0 <= o mod BSIZE / DESIZE < 32 /\ o = BSIZE * (o / BSIZE) + DESIZE * (o mod BSIZE / DESIZE).
Proof.
  intros o. pose proof (Z.div_mod o BSIZE ltac:(done)) as E. pose proof (Z.mod_pos_bound o BSIZE ltac:(done)) as Hm.
  assert (exists u, o mod BSIZE = DESIZE * u) as [u Hu].
  { exists (t - 32 * (o / BSIZE)). unfold o, BSIZE, DESIZE in *. lia. }
  rewrite Hu in *. replace (DESIZE * u / DESIZE) with u by (unfold DESIZE; rewrite Z.mul_comm, Z.div_mul; lia).
  unfold BSIZE, DESIZE in *. lia.
Qed.

(** Where an entry is on the disk. *)
Definition ent_pos D (x : Z * Z) : Z := 32 * nth_addr D (iad D x.1) (x.2 / BSIZE) + x.2 mod BSIZE / DESIZE.

Lemma ent_pos_facts D G d o v : blocks_ok D -> graph_ok D G -> G !! (d, o) = Some v ->
  let a := nth_addr D (iad D d) (o / BSIZE) in
  owned D (iad D d) a /\ in_file (o / BSIZE) /\ a ≠ 0 /\ data0 sb <= a < sb_size sb /\ exists t, o = DESIZE * t.
Proof.
  intros B HG E. apply (gr_ent _ _ HG) in E as (Ht & Ho & _). destruct (gr_size _ _ HG d Ht) as (n & Hn & Es).
  rewrite Es in Ho. apply elem_dir_offs in Ho as (t & -> & Htn); [|done].
  pose proof (bo_whole _ B d) as W. rewrite Es in W. pose proof (proj1 W) as Hm.
  assert (MAXFILE * BSIZE = 71680) as Hmx by done.
  assert (in_file (DESIZE * t / BSIZE)) as Hin by (apply off_block; unfold off_ok, DESIZE in *; lia).
  assert (nth_addr D (iad D d) (DESIZE * t / BSIZE) ≠ 0) as Hnz by (apply (whole_block _ _ _ _ W); unfold DESIZE in *; lia).
  pose proof (owned_addr _ _ _ Hin Hnz) as Hown. destruct (owned_live sb D _ _ (bo_file _ B d) Hown) as [Hr _].
  split_and!; try done; try apply Hin; try lia. by exists t.
Qed.

Lemma ent_pos_inj D G x y v w : blocks_ok D -> graph_ok D G -> G !! x = Some v -> G !! y = Some w ->
  ent_pos D x = ent_pos D y -> x = y.
Proof.
  destruct x as [d o], y as [d' o']. intros B HG E E' Hp. unfold ent_pos in Hp. cbn [fst snd] in Hp.
  destruct (ent_pos_facts _ _ _ _ _ B HG E) as (Ho & Hin & Hnz & _ & t & ->).
  destruct (ent_pos_facts _ _ _ _ _ B HG E') as (Ho' & Hin' & Hnz' & _ & t' & ->).
  destruct (ent_split t) as [H1 H2]. destruct (ent_split t') as [H1' H2'].
  assert (nth_addr D (iad D d) (DESIZE * t / BSIZE) = nth_addr D (iad D d') (DESIZE * t' / BSIZE)) as Ha by lia.
  rewrite <- Ha in Ho'. pose proof (bo_apart _ B d d' _ Ho Ho') as <-.
  assert (DESIZE * t / BSIZE = DESIZE * t' / BSIZE) as Hb by (by apply (lo_inj _ _ _ (fo_lay _ _ _ (bo_file _ B d)))).
  f_equal. rewrite H2, H2', Hb. lia.
Qed.

Lemma graph_bound D G : blocks_ok D -> graph_ok D G -> 0 <= data0 sb -> 0 <= sb_size sb -> Z.of_nat (size G) <= 32 * sb_size sb.
Proof.
  intros B HG H0 Hs0. set (l := (fun x => ent_pos D x.1) <$> map_to_list G).
  assert (length l = size G) as Hl by (unfold l; rewrite length_fmap; apply length_map_to_list).
  assert (NoDup l) as Hnd.
  { unfold l. apply NoDup_fmap_2_strong; [|apply NoDup_map_to_list]. intros [x v] [y w] Hx%elem_of_map_to_list Hy%elem_of_map_to_list Hp.
    cbn in Hp. pose proof (ent_pos_inj _ _ _ _ _ _ B HG Hx Hy Hp) as <-. congruence. }
  assert (l ⊆+ seqZ 0 (32 * sb_size sb)) as Hsub.
  { apply NoDup_submseteq; [done|]. intros p ([[d o] v] & -> & Hx%elem_of_map_to_list)%list_elem_of_fmap. apply elem_of_seqZ.
    destruct (ent_pos_facts _ _ _ _ _ B HG Hx) as (_ & _ & _ & Ha & t & ->). destruct (ent_split t) as [H1 _].
    unfold ent_pos. cbn [fst snd]. lia. }
  apply submseteq_length in Hsub. rewrite length_seqZ, Hl in Hsub. lia.
Qed.

Lemma links_bound (G : graph) j : (links G j <= size G)%nat.
Proof.
  unfold links. rewrite <- !length_map_to_list. apply submseteq_length, map_to_list_submseteq, map_filter_subseteq.
Qed.

(** ** Names *)

Lemma find_at_same ent ent' name offs :
  (forall off, off ∈ offs -> ent off = ent' off \/ (de_inum (ent off) = 0 /\ de_inum (ent' off) = 0)) ->
  find_at ent name offs = find_at ent' name offs.
Proof.
  induction offs as [|o offs IH]; intros H; [done|]. cbn. rewrite IH by (intros; apply H; by right).
  destruct (H o ltac:(left)) as [->|[-> ->]]; done.
Qed.

Lemma find_at_none ent name offs : (forall off, off ∈ offs -> de_inum (ent off) = 0) -> find_at ent name offs = None.
Proof.
  induction offs as [|o offs IH]; intros H; [done|]. cbn. rewrite (H o) by left. apply IH. intros. apply H. by right.
Qed.

Lemma find_at_spec ent name offs v o : find_at ent name offs = Some (v, o) ->
  o ∈ offs /\ de_inum (ent o) = v /\ v ≠ 0 /\ names name (ent o) = true.
Proof.
  induction offs as [|o' offs IH]; cbn; [done|]. destruct (negb _ && _) eqn:E.
  - intros [= <- <-]. apply andb_true_iff in E as [E1 E2]. split_and!; [left|done|lia|done].
  - intros (? & ? & ? & ?)%IH. split_and!; [by right|done..].
Qed.

Lemma dir_offs_split n m : 0 <= n <= m -> exists rest, dir_offs (DESIZE * m) = dir_offs (DESIZE * n) ++ rest /\
  forall o, o ∈ rest -> o ∉ dir_offs (DESIZE * n).
Proof.
  intros [Hn Hm]. assert (exists q : nat, m = n + Z.of_nat q) as [q ->] by (exists (Z.to_nat (m - n)); lia). clear Hm.
  induction q as [|q (rest & E1 & E2)].
  - exists []. rewrite Z.add_0_r, app_nil_r. split; [done|]. intros o Ho. by apply elem_of_nil in Ho.
  - exists (rest ++ [DESIZE * (n + Z.of_nat q)]).
    replace (n + Z.of_nat (S q)) with (n + Z.of_nat q + 1) by lia. rewrite dir_offs_S by lia. rewrite E1. split; [by rewrite <- app_assoc|].
    intros o [Ho| ->%list_elem_of_singleton]%elem_of_app; [by apply E2|]. rewrite elem_dir_offs by done. unfold DESIZE. intros (j & ? & ?). lia.
Qed.

(** The abstract lookup is what [dirlookup] computes. *)
Lemma find_nfind D G d name : blocks_ok D -> graph_ok D G -> ity D d = T_DIR ->
  dir_find D (iad D d) (isz D d) name = nfind G d name.
Proof.
  intros B HG Ht. destruct (gr_size _ _ HG d Ht) as (n & Hn & Es). pose proof (proj1 (bo_whole _ B d)) as Hm. rewrite Es in Hm.
  unfold dir_find, nfind. assert (MAXFILE * BSIZE = DESIZE * 4480) as Hmx by done. rewrite Hmx in *.
  destruct (dir_offs_split n 4480) as (rest & E1 & E2); [unfold DESIZE in *; lia|]. rewrite E1, Es, find_at_app.
  assert (forall o e, G !! (d, o) = Some e -> o ∈ dir_offs (DESIZE * n)) as Hin.
  { intros o e H. apply (gr_ent _ _ HG) in H as (_ & H & _). by rewrite Es in H. }
  assert (find_at (fun o => default [] (G !! (d, o))) name rest = None) as ->.
  { apply find_at_none. intros o Ho. destruct (G !! (d, o)) as [e|] eqn:E; [|done]. by destruct (E2 o Ho); eapply Hin. }
  rewrite (find_at_same (entry D (iad D d)) (fun o => default [] (G !! (d, o)))).
  { by destruct (find_at _ _ _). }
  intros o Ho. destruct (decide (de_inum (entry D (iad D d) o) = 0)) as [H0|H0].
  - right. split; [done|]. destruct (G !! (d, o)) as [e|] eqn:E; [|done]. apply (gr_ent _ _ HG) in E as (_ & _ & <- & ?). done.
  - left. assert (G !! (d, o) = Some (entry D (iad D d) o)) as ->; [|done]. apply (gr_ent _ _ HG). by rewrite <- Es in Ho.
Qed.

Lemma nfind_some G d name v o : nfind G d name = Some (v, o) ->
  exists e, G !! (d, o) = Some e /\ de_inum e = v /\ v ≠ 0 /\ names name e = true.
Proof.
  intros (_ & H1 & H2 & H3)%find_at_spec. destruct (G !! (d, o)) as [e|]; [by exists e|]. by rewrite <- H1 in H2.
Qed.

End check.

(** ** What writei does *)

Section wrote.
Context {X : Type} `{BW : BlockLaws X} (sb : superblock).

Lemma wrote_touched T c f m (s : fs X) k ip i off src m' (s' : fs X) k' i' :
  dinode_of sb (k_data k) (i_num i) = i_d i -> wrote sb T c f m s k ip i off src m' s' k' i' ->
  touched sb (k_data k) (k_data k') (i_num i) off src /\ dinode_of sb (k_data k') (i_num i) = i_d i'.
Proof.
  intros Hs []. pose proof (w_sync Hs) as Hs'. split; [|done]. constructor; rewrite ?Hs, ?Hs'; try done.
  - destruct w_i as [l' ->]. by exists l'.
  - apply w_st.
Qed.

End wrote.
