(* ===== verification/Mkfs.v ===== *)
(** * The program that makes the file system image (mkfs.c)

    [mkst] is the image, a list of blocks, with the counters [freeinode] and
    [freeblock]; a failing [assert] and [exit(1)] are panics.  The host gives the
    files: [contents name] is what successive calls of [read] return, [None] if
    [open] fails.  The host is little-endian, as the uses of [sb] in [IBLOCK]
    require. *)

From stdpp Require Import base numbers gmap sets list strings.
From S2P Require Import Prelude CString Spinlock Sleeplock Bio Log Syscall Fs SysFile.
Open Scope Z_scope.

Module Mkfs.

Definition FSSIZE : Z := 1000.
Definition NINODES : Z := 200.

Definition nbitmap : Z := FSSIZE / (BSIZE * 8) + 1.
Definition ninodeblocks : Z := NINODES / IPB + 1.
Definition nlog : Z := LOGSIZE.

Record mkst := mkMk { img : list (list Z); freeinode : Z; freeblock : Z }.

Definition set_img (v : list (list Z)) (s : mkst) : mkst := mkMk v (freeinode s) (freeblock s).
Definition set_freeinode (v : Z) (s : mkst) : mkst := mkMk (img s) v (freeblock s).
Definition set_freeblock (v : Z) (s : mkst) : mkst := mkMk (img s) (freeinode s) v.

Definition zeroes : list Z := replicate (Z.to_nat BSIZE) 0.

Record host := mkHost { creates : list Z -> bool; contents : list Z -> option (list (list Z)) }.

Definition xshort (x : Z) : Z := get16 [u8 x; u8 (x ≫ 8)] 0.

Definition xint (x : Z) : Z := getu32 [u8 x; u8 (x ≫ 8); u8 (x ≫ 16); u8 (x ≫ 24)] 0.

Definition nmeta : Z := 2 + nlog + ninodeblocks + nbitmap.
Definition nblocks : Z := FSSIZE - nmeta.

Definition sb : superblock :=
  mkSb (xint FSSIZE) (xint nblocks) (xint NINODES) (xint nlog) (xint 2) (xint (2 + nlog)) (xint (2 + nlog + ninodeblocks)).

(** A write past the end leaves zeros in between. *)
Definition wsect (sec : Z) (buf : list Z) : M mkst unit :=
  modify (fun s => let d := img s in
    set_img (if decide (Z.to_nat sec < length d)%nat then <[Z.to_nat sec := buf]> d
             else d ++ replicate (Z.to_nat sec - length d) zeroes ++ [buf]) s).

Definition rsect (sec : Z) : M mkst (list Z) :=
  d ← gets (fun s => img s !! Z.to_nat sec);
  match d with
  | Some buf => mret buf
  | None => panic "read"
  end.

Definition winode (inum : Z) (ip : dinode) : M mkst unit :=
  let bn := IBLOCK sb inum in
  buf ← rsect bn;
  wsect bn (put_dinode (ioff inum) ip buf).

Definition rinode (inum : Z) : M mkst dinode :=
  let bn := IBLOCK sb inum in
  buf ← rsect bn;
  mret (get_dinode buf (ioff inum)).

Definition ialloc (type : Z) : M mkst Z :=
  inum ← gets freeinode;
  modify (set_freeinode (u32 (inum + 1)));;
  let din := mkDi (i16 (xshort type)) 0 0 (i16 (xshort 1)) (xint 0) (replicate 13 0) in
  winode inum din;;
  mret inum.

(** [for(i = 0; i < used; i++) buf[i/8] = buf[i/8] | (0x1 << (i%8));] *)
Fixpoint mark_used (used : nat) : list Z :=
  match used with
  | O => zeroes
  | S i => set_bit (Z.of_nat i) (mark_used i)
  end.

Definition balloc (used : Z) : M mkst unit :=
  if negb (used <? BSIZE * 8) then panic "assert" else
  wsect (sb_bmapstart sb) (mark_used (Z.to_nat used)).

(** [freeblock++] *)
Definition next_block : M mkst Z :=
  b ← gets freeblock;
  modify (set_freeblock (u32 (b + 1)));;
  mret b.

(** The address in [din.addrs[j]], a new block if there is none. *)
Definition din_block (j : nat) (din : dinode) : M mkst dinode :=
  if xint (default 0 (d_addrs din !! j)) =? 0 then
    b ← next_block;
    mret (set_d_addrs (<[j := xint b]> (d_addrs din)) din)
  else mret din.

(** The block [fbn] of the file, listed in the indirect block. *)
Definition indirect_block (fbn : Z) (din : dinode) : M mkst (Z * dinode) :=
  let i := xint (default 0 (d_addrs din !! Z.to_nat NDIRECT)) in
  let o := Z.to_nat (4 * (fbn - NDIRECT)) in
  indirect ← rsect i;
  if getu32 indirect o =? 0 then
    b ← next_block;
    let indirect := put32 o (xint b) indirect in
    wsect i indirect;;
    mret (xint (getu32 indirect o), din)
  else mret (xint (getu32 indirect o), din).

Definition file_block (fbn : Z) (din : dinode) : M mkst (Z * dinode) :=
  if fbn <? NDIRECT then
    din ← din_block (Z.to_nat fbn) din;
    mret (xint (default 0 (d_addrs din !! Z.to_nat fbn)), din)
  else
    din ← din_block (Z.to_nat NDIRECT) din;
    indirect_block fbn din.

(** [while(n > 0)], with the [n] bytes that are left. *)
Fixpoint iappend_loop (fuel : nat) (din : dinode) (off : Z) (p : list Z) : M mkst (dinode * Z) :=
  match p, fuel with
  | [], _ => mret (din, off)
  | _, O => panic "fuel"
  | _, S fuel =>
      let fbn := off / BSIZE in
      if negb (fbn <? MAXFILE) then panic "assert" else
      r ← file_block fbn din;
      let '(x, din) := r in
      let n1 := Z.to_nat (Z.min (Z.of_nat (length p)) ((fbn + 1) * BSIZE - off)) in
      buf ← rsect x;
      wsect x (splice (Z.to_nat (off - fbn * BSIZE)) (take n1 p) buf);;
      iappend_loop fuel din (u32 (off + Z.of_nat n1)) (drop n1 p)
  end.

Definition iappend (inum : Z) (p : list Z) : M mkst unit :=
  din ← rinode inum;
  let off := xint (d_size din) in
  r ← iappend_loop (length p) din off p;
  let '(din, off) := r in
  winode inum (set_d_size (xint off) din).

(** [struct dirent] with the bytes [name] of its name. *)
Definition dirent (inum : Z) (name : list Z) : list Z := put16 0 (xshort inum) (replicate 2 0) ++ name.

(** [bzero(&de, sizeof(de)); strcpy(de.name, name);] *)
Definition strcpy_name (name : list Z) : list Z := splice 0 (name ++ [0]) (replicate DIRSIZ 0).

(** ... with [strncpy(de.name, name, DIRSIZ)]. *)
Definition strncpy_name (name : list Z) : list Z :=
  KString.strncpy (replicate DIRSIZ 0) (cbytes name) (Z.of_nat DIRSIZ).

Definition SLASH : Z := 47.
Definition UNDERSCORE : Z := 95.

(** [if(argv[i][0] == '_') ++argv[i];] *)
Definition skip_underscore (name : list Z) : list Z :=
  match name with
  | c :: name' => if c =? UNDERSCORE then name' else name
  | [] => []
  end.

(** The body of the loop over the files. *)
Definition add_file (h : host) (rootino : Z) (name : list Z) : M mkst unit :=
  if bool_decide (SLASH ∈ name) then panic "assert" else
  match contents h name with
  | None => panic "open"
  | Some chunks =>
      inum ← ialloc T_FILE;
      iappend rootino (dirent inum (strncpy_name (skip_underscore name)));;
      mfor chunks (fun buf => iappend inum buf)
  end.

Definition fix_root (rootino : Z) : M mkst unit :=
  din ← rinode rootino;
  let off := xint (d_size din) in
  let off := u32 ((off / BSIZE + 1) * BSIZE) in
  winode rootino (set_d_size (xint off) din).

(** The seven words of [sb], as [memmove(buf, &sb, sizeof(sb))] copies them. *)
Definition sb_block : list Z :=
  let words := [sb_size sb; sb_nblocks sb; sb_ninodes sb; sb_nlog sb; sb_logstart sb; sb_inodestart sb; sb_bmapstart sb] in
  splice 0 (concat (map bytes32 words)) zeroes.

Definition main (h : host) (argv : list (list Z)) : M mkst unit :=
  match argv with
  | [] => panic "Usage: mkfs fs.img files..."
  | image :: files =>
      if negb (BSIZE mod 64 =? 0) || negb (BSIZE mod DESIZE =? 0) then panic "assert" else
      if negb (creates h image) then panic "open" else
      modify (set_img []);;
      modify (set_freeblock nmeta);;
      mfor (seqZ 0 FSSIZE) (fun i => wsect i zeroes);;
      wsect 1 sb_block;;
      rootino ← ialloc T_DIR;
      if negb (rootino =? ROOTINO) then panic "assert" else
      iappend rootino (dirent rootino (strcpy_name DOT));;
      iappend rootino (dirent rootino (strcpy_name DOTDOT));;
      mfor files (add_file h rootino);;
      fix_root rootino;;
      fb ← gets freeblock;
      balloc fb
  end.

(** [uint freeinode = 1; uint freeblock;] *)
Definition start : mkst := mkMk [] 1 0.

End Mkfs.
