(* ===== verification/MkfsSpec.v ===== *)
(** * The image while mkfs builds it

    mkfs writes the bitmap last, in one piece, after it took blocks in order.
    [marked fb D] is the image [D] with the bitmap it would get now, the blocks
    before [fb] in use; on it [iappend] does to a file what [writei] of the kernel
    does ([touched]), and the lemmas on consistent disks apply. *)

From stdpp Require Import base numbers gmap sets list strings.
From S2P Require Import Prelude CString Spinlock Sleeplock Bio BioRing BioSpec.
From S2P Require Import Log LogSpec Syscall Fs FsBlock FsAlloc FsFile FsInode FsDinode FsRW FsTrunc FsIcache FsDir SysFile FsNames FsCheck.
From S2P Require Import Mkfs.
Import Mkfs.
Open Scope Z_scope.

(** ** The layout *)

Lemma sb_is : sb = mkSb 1000 941 200 30 2 32 58.
Proof. vm_compute. reflexivity. Qed.

Lemma data0_is : data0 sb = 59.
Proof. vm_compute. reflexivity. Qed.

Lemma sb_facts : sb_size sb = 1000 /\ sb_ninodes sb = 200 /\ sb_inodestart sb = 32 /\ sb_bmapstart sb = 58 /\ data0 sb = 59.
Proof. rewrite data0_is, sb_is. done. Qed.

Lemma bm_is n : is_bm sb n <-> n = 58.
Proof. unfold is_bm. rewrite data0_is, sb_is. cbn [sb_bmapstart]. lia. Qed.

Lemma xint_id x : 0 <= x < 4294967296 -> xint x = x.
Proof.
  intros Hx. unfold xint, getu32, get32. cbn [lookup list_lookup default from_option Nat.add]. unfold id, u8. rewrite u32_i32.
  rewrite !Z.shiftr_div_pow2 by lia. change (2 ^ 8) with 256. change (2 ^ 16) with 65536. change (2 ^ 24) with 16777216.
  change 16777216 with (256 * 256 * 256). change 65536 with (256 * 256). rewrite <- !Z.div_div by lia.
  pose proof (Z.div_mod x 256 ltac:(lia)). pose proof (Z.div_mod (x / 256) 256 ltac:(lia)). pose proof (Z.div_mod (x / 256 / 256) 256 ltac:(lia)).
  rewrite (Z.mod_small (x / 256 / 256 / 256) 256) by (clear -Hx; Z.div_mod_to_equations; lia). rewrite u32_small; lia.
Qed.

Lemma xshort_id x : 0 <= x < 65536 -> xshort x = x.
Proof.
  intros Hx. unfold xshort, get16. cbn [lookup list_lookup default from_option Nat.add]. unfold id, u8.
  rewrite !Z.shiftr_div_pow2 by lia. change (2 ^ 8) with 256. Z.div_mod_to_equations. lia.
Qed.

(** ** The image with its bitmap *)

Definition marked (fb : Z) (D : list (list Z)) : list (list Z) := bput (sb_bmapstart sb) (mark_used (Z.to_nat fb)) D.

Definition kof (fb : Z) (D : list (list Z)) : blks := mkK (marked fb D) ∅ ∅ 0 2 32 [] [] 0.

(** The image has its size, and the blocks that were not taken are zeros. *)
Record image (fb : Z) (D : list (list Z)) : Prop := mkImage {
  im_len : length D = 1000%nat;
  im_blk : Forall (fun b => length b = Z.to_nat BSIZE) D;
  im_fb : 59 <= fb <= 1000;
  im_zero : forall b, fb <= b < 1000 -> blk D b = zeroes }.

Lemma length_mark n : length (mark_used n) = 512%nat.
Proof. induction n as [|n IH]; [done|]. cbn [mark_used]. by rewrite length_set_bit. Qed.

Section marked.
Context (fb : Z) (D : list (list Z)) (Im : image fb D).

Lemma blk_marked b : 0 <= b -> b ≠ 58 -> blk (marked fb D) b = blk D b.
Proof.
  intros Hb Hne. unfold marked. rewrite blk_bput; [|rewrite (im_len _ _ Im), sb_is; cbn; lia|done].
  rewrite sb_is. cbn [sb_bmapstart]. by rewrite decide_False.
Qed.

Lemma kof_geom : geom sb (kof fb D).
Proof.
  destruct sb_facts as (E1 & E2 & E3 & E4 & E5). constructor; rewrite ?E1, ?E2, ?E3, ?E4, ?E5; cbn [kof k_lo k_hi k_data]; try done;
    unfold k_size; cbn [k_data kof]; unfold marked, bput; rewrite ?length_insert, ?(im_len _ _ Im); try done.
  apply Forall_insert; [apply Im|apply length_mark].
Qed.

Lemma bit_mark n b : 0 <= b < 4096 -> bit_clear (mark_used n) b = negb (b <? Z.of_nat n).
Proof.
  intros Hb. induction n as [|n IH].
  - cbn [mark_used]. change (Z.of_nat 0) with 0. rewrite (proj2 (Z.ltb_ge b 0)) by lia. unfold bit_clear, zeroes.
    destruct (_ !! Z.to_nat (b / 8)) as [v|] eqn:E; cbn [default]; [|by rewrite Z.land_0_l].
    apply lookup_replicate_1 in E as [-> _]. by rewrite Z.land_0_l.
  - cbn [mark_used]. destruct (decide (Z.of_nat n < 4096)) as [Hn|Hn].
    + assert (Z.of_nat n / 8 < 512) by (apply Z.div_lt_upper_bound; lia).
      rewrite bit_clear_set; [|lia|lia|rewrite length_mark; lia]. rewrite IH, Nat2Z.inj_succ. destruct (decide (b = Z.of_nat n)), (Z.ltb_spec b (Z.of_nat n)), (Z.ltb_spec b (Z.succ (Z.of_nat n))); (done || lia).
    + assert (set_bit (Z.of_nat n) (mark_used n) = mark_used n) as ->; [|rewrite IH, Nat2Z.inj_succ; destruct (Z.ltb_spec b (Z.of_nat n)), (Z.ltb_spec b (Z.succ (Z.of_nat n))); (done || lia)].
      unfold set_bit. apply list_eq. intros i. destruct (decide (i = Z.to_nat (Z.of_nat n / 8))) as [->|Hi].
      * rewrite list_lookup_alter_eq. rewrite lookup_ge_None_2; [done|]. rewrite length_mark.
        assert (512 <= Z.of_nat n / 8) by (apply Z.div_le_lower_bound; lia). lia.
      * by rewrite list_lookup_alter_ne.
Qed.

Lemma used_marked b : 0 <= b < 1000 -> used sb (marked fb D) b = (b <? fb).
Proof.
  intros Hb. unfold used. destruct sb_facts as (_ & _ & _ & E4 & _). assert (BPB = 4096) as Ep by done.
  unfold BBLOCK. rewrite E4, Ep. rewrite Z.div_small, Z.mod_small by lia.
  unfold marked. rewrite E4. rewrite blk_bput by (rewrite ?(im_len _ _ Im); lia). rewrite decide_True by done.
  rewrite bit_mark by lia. pose proof (im_fb _ _ Im). rewrite negb_involutive. by rewrite Z2Nat.id by lia.
Qed.

Lemma meta_marked : meta_used sb (marked fb D).
Proof. intros b Hb. rewrite data0_is in Hb. pose proof (im_fb _ _ Im). rewrite used_marked; lia. Qed.

(** Other blocks can be written before or after the bitmap. *)
Lemma marked_put x v : 0 <= x -> x ≠ 58 -> marked fb (bput x v D) = bput x v (marked fb D).
Proof. intros H0 Hx. unfold marked, bput. rewrite sb_is. cbn [sb_bmapstart]. apply list_insert_insert_ne. lia. Qed.

Lemma image_put x v : 0 <= x < fb -> length v = Z.to_nat BSIZE -> image fb (bput x v D).
Proof.
  intros Hx Hv. pose proof Im as []. constructor; [by unfold bput; rewrite length_insert|by apply Forall_insert|done|].
  intros b Hb. rewrite blk_bput by lia. rewrite decide_False by lia. by apply im_zero0.
Qed.

(** The next block taken. *)
Lemma image_next : fb < 1000 -> image (fb + 1) D.
Proof. intros Hf. pose proof Im as []. constructor; [done|done|lia|]. intros b Hb. apply im_zero0. lia. Qed.

Lemma marked_next : fb < 1000 -> k_data (k_alloc sb fb (kof fb D)) = marked (fb + 1) D.
Proof.
  intros Hf. pose proof Im as []. destruct sb_facts as (_ & _ & _ & E4 & _). assert (BPB = 4096) as Ep by done.
  unfold k_alloc. cbn [k_data k_upd k_put k_log]. unfold BBLOCK. rewrite E4, Ep, Z.div_small, Z.mod_small by lia.
  assert (k_get (0 + 58) (kof fb D) = mark_used (Z.to_nat fb)) as ->.
  { unfold k_get. cbn [k_data kof]. unfold marked. rewrite E4. rewrite blk_bput by lia. by rewrite decide_True. }
  cbn [kof k_data]. unfold marked. rewrite E4. replace (Z.to_nat (fb + 1)) with (S (Z.to_nat fb)) by lia. cbn [mark_used].
  rewrite Z2Nat.id by lia. unfold bput. rewrite list_insert_insert_eq. rewrite list_insert_insert_ne by lia.
  f_equal. apply list_insert_id. specialize (im_zero0 fb ltac:(lia)). unfold blk in im_zero0.
  destruct (D !! Z.to_nat fb) as [v|] eqn:E; [cbn in im_zero0; by rewrite im_zero0|].
  apply lookup_ge_None_1 in E. lia.
Qed.

End marked.

(** ** The blocks of a file *)

(** How many blocks a file of [n] bytes has, and how many with the indirect one. *)
Definition nblk (n : Z) : Z := (n + BSIZE - 1) / BSIZE.

Definition need (c : Z) : Z := c + (if NDIRECT <? c then 1 else 0).

Lemma need_small c : c <= NDIRECT -> need c = c.
Proof. intros H. unfold need. rewrite (proj2 (Z.ltb_ge NDIRECT c)) by lia. lia. Qed.

Lemma need_big c : NDIRECT < c -> need c = c + 1.
Proof. intros H. unfold need. by rewrite (proj2 (Z.ltb_lt NDIRECT c)) by lia. Qed.

(** The file has its first [c] blocks, and no others. *)
Record tight (D : list (list Z)) (l : list Z) (c : Z) : Prop := mkTight {
  ti_addr : forall bn, in_file bn -> nth_addr D l bn ≠ 0 <-> bn < c;
  ti_ind : ind l ≠ 0 <-> NDIRECT < c }.

Lemma tight_addr D l c bn : tight D l c -> in_file bn -> c <= bn -> nth_addr D l bn = 0.
Proof. intros HT Hb Hc. destruct (decide (nth_addr D l bn = 0)) as [|Hn]; [done|]. apply (ti_addr _ _ _ HT) in Hn; [lia|done]. Qed.

Lemma tight_ind D l c : tight D l c -> c <= NDIRECT -> ind l = 0.
Proof. intros HT Hc. destruct (decide (ind l = 0)) as [|Hn]; [done|]. apply (ti_ind _ _ _ HT) in Hn. lia. Qed.

Lemma set_d_addrs_id di : set_d_addrs (d_addrs di) di = di.
Proof. by destruct di. Qed.

Lemma nblk_bounds off : 0 <= off -> off / BSIZE <= nblk off <= off / BSIZE + 1.
Proof. intros H. unfold nblk, BSIZE. Z.div_mod_to_equations. lia. Qed.

Lemma nblk_in fbn n : fbn * BSIZE < n <= (fbn + 1) * BSIZE -> nblk n = fbn + 1.
Proof. unfold nblk, BSIZE. intros H. Z.div_mod_to_equations. lia. Qed.

Lemma need_mono c c' : c <= c' -> need c <= need c'.
Proof. intros H. unfold need. destruct (NDIRECT <? c) eqn:E, (NDIRECT <? c') eqn:E'; lia. Qed.

Lemma nblk_mono n n' : n <= n' -> nblk n <= nblk n'.
Proof. intros H. unfold nblk, BSIZE. apply Z.div_le_mono; lia. Qed.

Lemma over_same off u (g g' : Z -> Z) o : g o = g' o -> over off u g o = over off u g' o.
Proof. intros H. unfold over. by destruct (decide _). Qed.

(** A part of a block of the file stored. *)
Lemma stored D fb l off u : image fb D -> file_ok sb (marked fb D) l -> off_ok off ->
  let fbn := off / BSIZE in let x := nth_addr (marked fb D) l fbn in
  let D' := bput x (splice (Z.to_nat (off - fbn * BSIZE)) u (blk D x)) D in
  tight (marked fb D) l (fbn + 1) -> off + Z.of_nat (length u) <= (fbn + 1) * BSIZE ->
  0 <= x < 1000 /\ image fb D' /\ tight (marked fb D') l (fbn + 1) /\
  turned sb (marked fb D) l (marked fb D') l (over off u (fbyte (marked fb D) l)).
Proof.
  intros Im F Ho fbn x D' HT Hu. pose proof (off_block off Ho) as Hin. fold fbn in Hin. unfold off_ok in Ho.
  assert (x ≠ 0) as Hx by (apply (ti_addr _ _ _ HT); [done|lia]).
  destruct (store_facts sb (kof fb D) l fbn (kof_geom _ _ Im) F Hin Hx) as ([Hl Hlu] & _ & Hk & _ & Hi). cbn [k_data kof] in *.
  fold x in Hl, Hlu, Hk, Hi. rewrite data0_is, sb_is in Hl. cbn [sb_size] in Hl. rewrite (used_marked _ _ Im) in Hlu by lia.
  assert (length (blk D x) = 512%nat) as Hbl.
  { rewrite <- (blk_marked _ _ Im) by lia. apply (k_get_len (kof fb D)); [apply kof_geom; done|done]. }
  assert (off - fbn * BSIZE = off mod BSIZE) as Em by (unfold fbn, BSIZE; Z.div_mod_to_equations; lia).
  pose proof (Z.mod_pos_bound off BSIZE ltac:(done)) as Hm. assert (BSIZE = 512) as EB by done.
  assert (Z.of_nat (length u) + off mod BSIZE <= 512) as Hle by lia.
  assert (marked fb D' = bput x (splice (Z.to_nat (off mod BSIZE)) u (blk (marked fb D) x)) (marked fb D)) as ED.
  { unfold D'. rewrite marked_put by lia. by rewrite (blk_marked _ _ Im), Em by lia. }
  split; [lia|]. split; [apply image_put; [done|lia|]; rewrite length_splice; lia|]. rewrite ED. split.
  - constructor; [|apply HT]. intros bn Hbn. rewrite <- (ti_addr _ _ _ HT) by done.
    rewrite (nth_addr_ext (marked fb D)); [done|]. intros Hi0. unfold bput, blk. rewrite list_lookup_insert_ne; [done|].
    assert (live sb (marked fb D) (ind l)) as [Hli _] by (by apply (fo_lay _ _ _ F)). rewrite data0_is in Hli. lia.
  - eapply turned_ext; [|exact (turned_store sb (kof fb D) l fbn _ (kof_geom _ _ Im) F Hin Hx)].
    intros o Hoo. unfold off_ok in Hoo. cbn [k_data kof]. apply over_block; [lia|lia|lia|done|]. fold fbn x. rewrite (blk_marked _ _ Im) by lia. done.
Qed.

Section blocks.
Context (P : failure -> Prop) (fi : Z).
Implicit Types (D : list (list Z)) (fb : Z).

Lemma wp_rsect D fb sec Q : 0 <= sec < Z.of_nat (length D) -> Q (blk D sec) (mkMk D fi fb) -> wp P (rsect sec) (mkMk D fi fb) Q.
Proof.
  intros Hs HQ. unfold rsect. wp_next. apply wp_gets. cbn [img]. unfold blk in HQ.
  destruct (D !! Z.to_nat sec) as [v|] eqn:E; [by apply wp_ret|]. apply lookup_ge_None_1 in E. lia.
Qed.

Lemma wp_wsect D fb sec buf Q : 0 <= sec < Z.of_nat (length D) -> Q tt (mkMk (bput sec buf D) fi fb) -> wp P (wsect sec buf) (mkMk D fi fb) Q.
Proof. intros Hs HQ. unfold wsect. apply wp_modify. cbn. by rewrite decide_True by lia. Qed.

Lemma wp_next_block D fb Q : 0 <= fb < 1000 -> Q fb (mkMk D fi (fb + 1)) -> wp P next_block (mkMk D fi fb) Q.
Proof.
  intros Hf HQ. unfold next_block. wp_next. apply wp_gets. wp_next. apply wp_modify, wp_ret.
  unfold set_freeblock. cbn [img freeinode freeblock]. by rewrite u32_small by lia.
Qed.

Section file.
Context D fb (din : dinode) (Im : image fb D).
Let l := d_addrs din.
Context (F : file_ok sb (marked fb D) l).

Lemma addr_range j : 0 <= default 0 (l !! j) < 4294967296.
Proof.
  pose proof (file_addrs_range sb (kof fb D) l (kof_geom _ _ Im) F) as H.
  destruct (l !! j) as [v|] eqn:E; [|cbn; lia]. exact (proj1 (Forall_lookup _ _) H j v E).
Qed.

Lemma wp_din_block j Q :
  (default 0 (l !! j) ≠ 0 -> Q din (mkMk D fi fb)) ->
  (default 0 (l !! j) = 0 -> fb < 1000 /\ Q (set_d_addrs (<[j := fb]> l) din) (mkMk D fi (fb + 1))) ->
  wp P (din_block j din) (mkMk D fi fb) Q.
Proof.
  intros H1 H2. unfold din_block. fold l. rewrite xint_id by apply addr_range. pose proof (im_fb _ _ Im).
  destruct (_ =? 0) eqn:E; [|apply wp_ret, H1; lia]. destruct H2 as [Hf HQ]; [lia|].
  wp_next. apply wp_next_block; [lia|]. apply wp_ret. by rewrite xint_id by lia.
Qed.

(** A file keeps its first [c] blocks when it gets block [c]. *)
Lemma tight_next D' l' c : tight (marked fb D) l c -> in_file c -> nth_addr D' l' c ≠ 0 ->
  (forall bn, in_file bn -> bn ≠ c -> nth_addr D' l' bn = nth_addr (marked fb D) l bn) ->
  (ind l' ≠ 0 <-> NDIRECT < c + 1) -> tight D' l' (c + 1).
Proof.
  intros [H1 H2] Hc Hn Ho Hi. split; [|done]. intros bn Hb. destruct (decide (bn = c)) as [->|Hne]; [split; [lia|done]|].
  rewrite Ho by done. rewrite H1 by done. lia.
Qed.

(** The block [c] of a file, new unless the file has it. *)
Definition file_block_post (c fbn : Z) (Q : Z * dinode -> mkst -> Prop) : Prop :=
  forall x D' l', let fb' := fb + need (fbn + 1) - need c in
    image fb' D' -> turned sb (marked fb D) l (marked fb' D') l' (fbyte (marked fb D) l) ->
    tight (marked fb' D') l' (fbn + 1) -> nth_addr (marked fb' D') l' fbn = x -> Q (x, set_d_addrs l' din) (mkMk D' fi fb').

Lemma block_there c fbn Q : tight (marked fb D) l c -> fbn + 1 = c -> file_block_post c fbn Q ->
  Q (nth_addr (marked fb D) l fbn, din) (mkMk D fi fb).
Proof.
  intros HT <- HQ. rewrite <- (set_d_addrs_id din). fold l. specialize (HQ (nth_addr (marked fb D) l fbn) D l). cbv zeta in HQ.
  replace (fb + need (fbn + 1) - need (fbn + 1)) with fb in HQ by lia. apply HQ; [done|by apply turned_refl|done|done].
Qed.

Lemma direct_addr bn bn' : fb < 1000 -> 0 <= bn < NDIRECT -> in_file bn' -> bn' ≠ bn ->
  nth_addr (marked (fb + 1) D) (<[Z.to_nat bn := fb]> l) bn' = nth_addr (marked fb D) l bn'.
Proof.
  intros Hf Hb Hb' Hne. assert (ind (<[Z.to_nat bn := fb]> l) = ind l) as Hi.
  { unfold ind. rewrite list_lookup_insert_ne; [done|]. unfold NDIRECT in *. lia. }
  unfold nth_addr. rewrite Hi. destruct (bn' <? NDIRECT) eqn:E; [rewrite list_lookup_insert_ne; [done|unfold in_file in *; lia]|].
  destruct (ind l =? 0) eqn:E0; [done|]. assert (live sb (marked fb D) (ind l)) as [Hl _] by (apply (fo_lay _ _ _ F); lia).
  rewrite data0_is in Hl. by rewrite (blk_marked _ _ (image_next _ _ Im Hf)), (blk_marked _ _ Im) by lia.
Qed.

Lemma wp_direct c fbn Q : tight (marked fb D) l c -> 0 <= fbn < NDIRECT -> fbn <= c <= fbn + 1 -> fb + need (fbn + 1) - need c <= 1000 ->
  file_block_post c fbn Q -> wp P (file_block fbn din) (mkMk D fi fb) Q.
Proof.
  intros HT Hb Hc Hroom HQ. assert (in_file fbn) as Hin by (unfold in_file, MAXFILE, NINDIRECT, NDIRECT in *; lia).
  assert (nth_addr (marked fb D) l fbn = default 0 (l !! Z.to_nat fbn)) as Ha by (unfold nth_addr; by replace (fbn <? NDIRECT) with true by lia).
  unfold file_block. replace (fbn <? NDIRECT) with true by lia. wp_next. apply wp_din_block.
  - intros H0. apply wp_ret. fold l. rewrite xint_id by apply addr_range. rewrite <- Ha in *. apply (block_there c); [done| |done].
    apply (ti_addr _ _ _ HT) in H0; [lia|done].
  - rewrite <- Ha. intros H0. assert (c = fbn) as ->.
    { destruct (decide (fbn < c)) as [Hlt|]; [|lia]. by apply (ti_addr _ _ _ HT) in Hlt. }
    pose proof (need_small (fbn + 1) ltac:(lia)) as En. pose proof (need_small fbn ltac:(lia)) as En'.
    pose proof (im_fb _ _ Im). split; [lia|]. apply wp_ret. cbn [d_addrs set_d_addrs].
    destruct (turned_direct sb (kof fb D) l fb (kof_geom _ _ Im) F ltac:(rewrite data0_is, sb_is; cbn; lia)) with (bn := fbn) as [HTu Hx];
      [cbn [k_data kof]; rewrite (used_marked _ _ Im) by lia; lia|done|done|].
    rewrite (marked_next _ _ Im) in HTu, Hx by lia. cbn [k_data kof] in HTu.
    assert (fb + 1 = fb + need (fbn + 1) - need fbn) as Ef by lia.
    assert (default 0 (<[Z.to_nat fbn := fb]> l !! Z.to_nat fbn) = fb) as ->.
    { rewrite list_lookup_insert_eq; [done|]. rewrite (fo_len _ _ _ F). unfold NDIRECT in *. lia. }
    rewrite xint_id by lia. rewrite Ef in *. apply HQ; [rewrite <- Ef; apply image_next; [done|lia]|done| |done].
    apply tight_next; [done|done|rewrite Hx; lia| |].
    + intros bn Hbn Hne. rewrite <- Ef. apply direct_addr; [lia|done|done|done].
    + assert (ind (<[Z.to_nat fbn := fb]> l) = ind l) as ->; [|rewrite (ti_ind _ _ _ HT); lia].
      unfold ind. rewrite list_lookup_insert_ne; [done|]. unfold NDIRECT in *. lia.
Qed.

(** A block listed in the indirect block. *)
Lemma wp_indirect c fbn Q : ind l ≠ 0 -> (forall bn, in_file bn -> nth_addr (marked fb D) l bn ≠ 0 <-> bn < c) ->
  NDIRECT <= fbn < MAXFILE -> fbn <= c <= fbn + 1 -> fb + (fbn + 1 - c) <= 1000 ->
  (forall D', let fb' := fb + (fbn + 1 - c) in image fb' D' -> turned sb (marked fb D) l (marked fb' D') l (fbyte (marked fb D) l) ->
    (forall bn, in_file bn -> nth_addr (marked fb' D') l bn ≠ 0 <-> bn < fbn + 1) ->
    Q (nth_addr (marked fb' D') l fbn, din) (mkMk D' fi fb')) ->
  wp P (indirect_block fbn din) (mkMk D fi fb) Q.
Proof.
  intros Hi HA Hb Hc Hroom HQ. assert (in_file fbn) as Hin by (unfold in_file, NDIRECT in *; lia).
  pose proof (addr_range (Z.to_nat NDIRECT)) as Hr. fold (ind l) in Hr.
  assert (live sb (marked fb D) (ind l)) as [Hl Hlu] by (by apply (fo_lay _ _ _ F)). rewrite data0_is, sb_is in Hl. cbn [sb_size] in Hl.
  pose proof (im_len _ _ Im) as Hlen. pose proof (im_fb _ _ Im) as Hfb.
  assert (ind l < fb) as Hlt by (rewrite (used_marked _ _ Im) in Hlu by lia; lia).
  set (o := Z.to_nat (4 * (fbn - NDIRECT))).
  assert (nth_addr (marked fb D) l fbn = getu32 (blk D (ind l)) o) as Ha.
  { unfold nth_addr. replace (fbn <? NDIRECT) with false by lia. replace (ind l =? 0) with false by lia. by rewrite (blk_marked _ _ Im) by lia. }
  unfold indirect_block. fold l. fold (ind l). fold o. rewrite (xint_id (ind l)) by done. wp_next. apply wp_rsect; [lia|].
  pose proof (u32_range (get32 (blk D (ind l)) o)) as Hu. fold (getu32 (blk D (ind l)) o) in Hu. rewrite <- Ha in *.
  destruct (_ =? 0) eqn:E.
  - assert (c = fbn) as ->. { destruct (decide (fbn < c)) as [H|]; [|lia]. apply HA in H; [lia|done]. }
    wp_next. apply wp_next_block; [lia|]. wp_next. apply wp_wsect; [lia|]. apply wp_ret. rewrite (xint_id fb) by lia.
    assert (data0 sb <= fb < sb_size sb) as Hd by (rewrite data0_is, sb_is; cbn; lia).
    assert (used sb (k_data (kof fb D)) fb = false) as Hun by (cbn [k_data kof]; rewrite (used_marked _ _ Im) by lia; lia).
    destruct (turned_entry sb (kof fb D) l fb (kof_geom _ _ Im) F Hd Hun fbn Hb Hi) as [HTu Hx]; [cbn; lia|].
    pose proof (entry_addr sb (kof fb D) l fb (kof_geom _ _ Im) F Hd Hun fbn Hb Hi) as Hea.
    rewrite (marked_next _ _ Im) in HTu, Hx, Hea by lia. fold o in HTu, Hx, Hea. cbn [k_data kof] in HTu, Hea.
    pose proof (image_next _ _ Im ltac:(lia)) as Im'. rewrite (blk_marked _ _ Im') in HTu, Hx, Hea by lia.
    rewrite <- marked_put in HTu, Hx, Hea by lia.
    replace (fb + (fbn + 1 - fbn)) with (fb + 1) in HQ by lia. set (D2 := bput (ind l) (put32 o fb (blk D (ind l))) D) in *.
    assert (length (blk D (ind l)) = 512%nat) as Hbl.
    { pose proof (k_get_len (kof fb D) (ind l) (g_len _ _ (kof_geom _ _ Im)) ltac:(unfold k_size; cbn; unfold marked, bput; rewrite length_insert; lia)) as H.
      unfold k_get in H. cbn [k_data kof] in H. by rewrite (blk_marked _ _ Im) in H by lia. }
    assert (xint (getu32 (put32 o fb (blk D (ind l))) o) = nth_addr (marked (fb + 1) D2) l fbn) as ->.
    { rewrite Hx, getu32_put by (rewrite Hbl; unfold o, MAXFILE, NDIRECT, NINDIRECT in *; lia). rewrite u32_small by lia. apply xint_id. lia. }
    apply HQ; [apply image_put; [done|lia|by rewrite length_put32]|done|].
    intros bn Hbn. rewrite Hea by done. destruct (decide (bn = fbn)) as [->|Hne]; [split; lia|]. rewrite HA by done. lia.
  - rewrite xint_id by lia. assert (c = fbn + 1) as ->. { assert (fbn < c); [|lia]. apply HA; [done|lia]. }
    specialize (HQ D). cbv zeta in HQ. replace (fb + (fbn + 1 - (fbn + 1))) with fb in HQ by lia.
    apply wp_ret, HQ; [done|by apply turned_refl|done].
Qed.

End file.

(** With a new indirect block. *)
Lemma wp_new_indirect D fb din Q : image fb D -> let l := d_addrs din in file_ok sb (marked fb D) l -> tight (marked fb D) l NDIRECT -> fb + 2 <= 1000 ->
  file_block_post D fb din NDIRECT NDIRECT Q ->
  wp P (indirect_block NDIRECT (set_d_addrs (<[Z.to_nat NDIRECT := fb]> l) din)) (mkMk D fi (fb + 1)) Q.
Proof.
  intros Im l F HT Hroom HQ. pose proof (im_fb _ _ Im) as Hfb. set (l1 := <[Z.to_nat NDIRECT := fb]> l).
  assert (data0 sb <= fb < sb_size sb) as Hd by (rewrite data0_is, sb_is; cbn; lia).
  assert (used sb (k_data (kof fb D)) fb = false) as Hun by (cbn [k_data kof]; rewrite (used_marked _ _ Im) by lia; lia).
  pose proof (tight_ind _ _ _ HT ltac:(lia)) as Hi0.
  pose proof (turned_ind sb (kof fb D) l fb (kof_geom _ _ Im) F Hd Hun Hi0) as HT1.
  pose proof (fun bn H => nth_addr_new sb (kof fb D) l fb (kof_geom _ _ Im) F Hd bn H Hi0) as Hna.
  rewrite (marked_next _ _ Im) in HT1, Hna by lia. cbn [k_data kof] in HT1, Hna. fold l1 in HT1, Hna.
  assert (ind l1 = fb) as Hi1.
  { unfold l1, ind. rewrite list_lookup_insert_eq; [done|]. rewrite (fo_len _ _ _ F). unfold NDIRECT. lia. }
  apply (wp_indirect D (fb + 1) (set_d_addrs l1 din) (image_next _ _ Im ltac:(lia)) (tu_ok _ _ _ _ _ _ HT1) NDIRECT);
    cbn [d_addrs set_d_addrs]; [lia| |unfold MAXFILE, NDIRECT, NINDIRECT; lia|lia|lia|].
  { intros bn Hb. rewrite Hna by done. by apply HT. }
  intros D' Im' HT2 HA'. set (fb' := fb + 1 + (NDIRECT + 1 - NDIRECT)) in *. assert (fb' = fb + need (NDIRECT + 1) - need NDIRECT) as Ef.
  { unfold fb'. rewrite (need_big (NDIRECT + 1)), (need_small NDIRECT) by lia. lia. }
  rewrite Ef in *.
  apply HQ; [done| |split; [done|]|done].
  - eapply turned_ext; [|eapply turned_trans; [|exact F|exact HT1|exact HT2]]; [|rewrite data0_is; lia].
    intros o Ho. exact (tu_bytes _ _ _ _ _ _ HT1 o Ho).
  - rewrite Hi1. lia.
Qed.

Lemma wp_file_block D fb din c fbn Q : image fb D -> file_ok sb (marked fb D) (d_addrs din) -> tight (marked fb D) (d_addrs din) c ->
  in_file fbn -> fbn <= c <= fbn + 1 -> fb + need (fbn + 1) - need c <= 1000 ->
  file_block_post D fb din c fbn Q -> wp P (file_block fbn din) (mkMk D fi fb) Q.
Proof.
  intros Im F HT Hin Hc Hroom HQ. unfold in_file in Hin. destruct (decide (fbn < NDIRECT)) as [Hlt|Hge]; [apply (wp_direct D fb din Im F c); (done || lia)|].
  unfold file_block. replace (fbn <? NDIRECT) with false by lia. wp_next. apply (wp_din_block D fb din Im F); fold (ind (d_addrs din)).
  - intros Hi. apply (ti_ind _ _ _ HT) in Hi as Hc'. rewrite !need_big in * by lia.
    apply (wp_indirect D fb din Im F c); [done|apply HT|lia|lia|lia|]. intros D' fb' Im' HT' HA'.
    rewrite <- (set_d_addrs_id din) at 2. assert (fb' = fb + need (fbn + 1) - need c) as Ef by (unfold fb'; rewrite !need_big by lia; lia). rewrite Ef in *.
    apply HQ; [done|done| |done]. split; [done|]. rewrite (ti_ind _ _ _ HT). lia.
  - intros Hi. assert (c = NDIRECT) as ->. { destruct (decide (NDIRECT < c)) as [H|]; [|lia]. by apply (ti_ind _ _ _ HT) in H. }
    assert (fbn = NDIRECT) as -> by lia. rewrite (need_big (NDIRECT + 1)), (need_small NDIRECT) in Hroom by lia. split; [lia|]. apply wp_new_indirect; [done|done|done|lia|done].
Qed.

(** The loop of [iappend]: the file gets the bytes [p] at its end. *)
Lemma wp_iappend_loop fuel D fb din off p Q :
  image fb D -> let l := d_addrs din in file_ok sb (marked fb D) l -> tight (marked fb D) l (nblk off) ->
  let n := Z.of_nat (length p) in 0 <= off -> off + n <= MAXFILE * BSIZE -> (length p <= fuel)%nat ->
  let fb' := fb + need (nblk (off + n)) - need (nblk off) in fb' <= 1000 ->
  (forall D' l', image fb' D' -> turned sb (marked fb D) l (marked fb' D') l' (over off p (fbyte (marked fb D) l)) ->
    tight (marked fb' D') l' (nblk (off + n)) -> Q (set_d_addrs l' din, off + n) (mkMk D' fi fb')) ->
  wp P (iappend_loop fuel din off p) (mkMk D fi fb) Q.
Proof.
  revert D fb din off p. induction fuel as [|fuel IH]; intros D fb din off p Im l F HT n Ho Hmax Hfuel fb' Hroom HQ.
  all: destruct p as [|c p0].
  1,3: assert (fb' = fb /\ off + n = off) as [-> En] by (subst fb' n; cbn [length Z.of_nat]; rewrite Z.add_0_r; lia); rewrite En in *;
    rewrite <- (set_d_addrs_id din); apply wp_ret, HQ; [done| |done]; (eapply turned_ext; [|by apply turned_refl]); intros; by rewrite over_nil.
  - cbn in Hfuel. lia.
  - set (p := c :: p0) in *. cbn [iappend_loop]. fold p. set (fbn := off / BSIZE). assert (MAXFILE * BSIZE = 71680 /\ BSIZE = 512 /\ MAXFILE = 140) as (E1 & E2 & E3) by done.
    assert (n = Z.of_nat (S (length p0))) as En by done. assert (off_ok off) as Hoo by (unfold off_ok; lia).
    pose proof (off_block off Hoo) as Hin. fold fbn in Hin. pose proof (nblk_bounds off Ho) as Hnb. fold fbn in Hnb.
    replace (fbn <? MAXFILE) with true by (unfold in_file in Hin; lia). cbn [negb]. fold n.
    set (n1 := Z.to_nat (Z.min n ((fbn + 1) * BSIZE - off))).
    assert (fbn * BSIZE <= off < (fbn + 1) * BSIZE) as Hfb by (unfold fbn; rewrite E2; Z.div_mod_to_equations; lia).
    assert ((1 <= n1 <= length p)%nat) as Hn1 by lia. assert (off + Z.of_nat n1 <= (fbn + 1) * BSIZE) as Hend by lia.
    pose proof (nblk_in fbn (off + Z.of_nat n1) ltac:(lia)) as Hnb1.
    pose proof (need_mono _ _ (nblk_mono (off + Z.of_nat n1) (off + n) ltac:(lia))) as Hmono. rewrite Hnb1 in Hmono.
    wp_next. apply (wp_file_block D fb din (nblk off) fbn); [done|done|done|done|lia|lia|].
    intros x D1 l1 fb1 Im1 HT1 Ht1 Hx. pose proof (tu_ok _ _ _ _ _ _ HT1) as F1.
    assert (length (take n1 p) = n1) as Htk by (rewrite length_take; lia).
    destruct (stored D1 fb1 l1 off (take n1 p) Im1 F1 Hoo Ht1) as (Hxr & Im2 & Ht2 & HT2); [rewrite Htk; lia|]. fold fbn in Hxr, Im2, Ht2, HT2. rewrite Hx in *.
    pose proof (im_len _ _ Im1) as Hl1. wp_next. apply wp_rsect; [lia|]. wp_next. apply wp_wsect; [lia|]. set (D2 := bput x _ D1) in *.
    rewrite u32_small by lia. rewrite <- Hnb1 in Ht2.
    apply (IH D2 fb1 (set_d_addrs l1 din)); cbn [d_addrs set_d_addrs]; [done|exact (tu_ok _ _ _ _ _ _ HT2)|done|lia|..]; rewrite ?length_drop.
    1-2: lia.
    all: replace (off + Z.of_nat n1 + Z.of_nat (length p - n1)) with (off + n) by lia.
    all: assert (fb1 + need (nblk (off + n)) - need (nblk (off + Z.of_nat n1)) = fb') as -> by (unfold fb', fb1; rewrite Hnb1; lia).
    { done. }
    intros D3 l3 Im3 HT3 Ht3. apply HQ; [done| |done].
    eapply turned_ext; [|eapply turned_trans; [rewrite data0_is; lia|exact F|exact HT1|eapply turned_trans; [rewrite data0_is; lia|exact F1|exact HT2|exact HT3]]].
    intros o Hor. rewrite <- Htk at 1. rewrite (over_same _ _ _ _ _ (tu_bytes _ _ _ _ _ _ HT2 o Hor)), over_app, take_drop.
    apply over_same. exact (tu_bytes _ _ _ _ _ _ HT1 o Hor).
Qed.

End blocks.
