(* ===== verification/FsCache.v ===== *)
(** * The inode cache and the name space

    [at_fs L H A]: the disk is the one of the name space [A]; the entries [H] of the
    inode cache are in use, each for an inode and with a number of references; the
    process [me] holds the locks of the entries [L], and no other lock is taken.  The
    lemmas say what the functions of fs.c do in these terms.  [P] are the panics for
    want of room: log, buffers, blocks, inodes. *)

From stdpp Require Import base numbers gmap sets list strings.
From S2P Require Import Prelude CString Spinlock Sleeplock Bio BioRing BioSpec.
From S2P Require Import Log LogSpec Fs FsBlock FsAlloc FsFile FsInode FsDinode FsRW FsTrunc FsIcache FsDir.
From S2P Require Import SysFile FsNames FsCheck.
Open Scope Z_scope.

(** The panics for want of room. *)
Class short_of (P : failure -> Prop) : Prop := mkShortOf {
  so_lax : lax P;
  so_iget : P (FPanic "iget: no inodes");
  so_ialloc : P (FPanic "ialloc: no inodes");
  so_dirlink : P (FPanic "dirlink") }.

(** Sets of blocks that writes do not leave. *)
Class writes_in (KR : blks -> Prop) : Prop := writes_in_same k k' : KR k -> same_blocks k k' -> KR k'.

#[export] Instance same_writes k0 : writes_in (same_blocks k0).
Proof. intros k k' H1 H2. by etrans. Qed.

(** To apply a lemma with [short_of] or [writes_in] among its premises. *)
Tactic Notation "call" uconstr(lem) :=
  eapply lem; try match goal with |- short_of _ => assumption | |- writes_in _ => typeclasses eauto end.

#[export] Hint Extern 0 (lax _) => apply so_lax : core.

(** An entry in use: the inode, the references. *)
Notation refs := (gmap nat (Z * Z)).

(** A reference more, and one less. *)
Definition got (H : refs) (inum : Z) (ip : nat) (H' : refs) : Prop :=
  (exists r, H !! ip = Some (inum, r) /\ H' = <[ip := (inum, r + 1)]> H) \/
  (H !! ip = None /\ (forall a r, H !! a ≠ Some (inum, r)) /\ H' = <[ip := (inum, 1)]> H).

Definition unref (ip : nat) (H : refs) : refs :=
  match H !! ip with
  | Some (num, r) => if decide (r = 1) then delete ip H else <[ip := (num, r - 1)]> H
  | None => H
  end.

(** Every entry in use has a reference. *)
Definition refs_pos (H : refs) : Prop := forall a n r, H !! a = Some (n, r) -> 0 < r.

Lemma got_at H inum ip H' : got H inum ip H' -> exists r, H' !! ip = Some (inum, r).
Proof. intros [(r & _ & ->)|(_ & _ & ->)]; rewrite lookup_insert_eq; eauto. Qed.

Lemma got_unref H inum ip H' : refs_pos H -> got H inum ip H' -> unref ip H' = H.
Proof.
  intros HP [(r & HH & ->)|(HH & _ & ->)]; unfold unref; rewrite lookup_insert_eq.
  - specialize (HP _ _ _ HH). rewrite decide_False by lia. rewrite insert_insert_eq. replace (r + 1 - 1) with r by lia. by apply insert_id.
  - rewrite decide_True by done. by rewrite delete_insert_id.
Qed.

(** To the next inode of a path. *)
Lemma got_move H num ip H1 num2 next H2 : refs_pos H -> got H num ip H1 -> got H1 num2 next H2 -> got H num2 next (unref ip H2).
Proof.
  intros HP Hg Hg2. assert (refs_pos H1) as HP1.
  { destruct Hg as [(r & HH & ->)|(HH & _ & ->)]; intros a n r' Ha; apply lookup_insert_Some in Ha as [[_ [= <- <-]]|[_ Ha]]; [|by eapply HP|lia|by eapply HP].
    specialize (HP _ _ _ HH). lia. }
  destruct (decide (next = ip)) as [->|Hne].
  - rewrite (got_unref H1 num2 ip H2 HP1 Hg2). destruct Hg2 as [(r2 & HH2 & _)|(HH2 & _)].
    + destruct (got_at _ _ _ _ Hg) as [r1 E]. rewrite E in HH2. by injection HH2 as <- <-.
    + destruct (got_at _ _ _ _ Hg) as [r1 E]. congruence.
  - assert (H2 !! ip = H1 !! ip) as E2 by (destruct Hg2 as [(r2 & _ & ->)|(_ & _ & ->)]; by rewrite lookup_insert_ne).
    assert (forall v : Z * Z, unref ip (<[next := v]> H1) = <[next := v]> H) as Hun.
    { intros v. rewrite <- (got_unref H num ip H1 HP Hg). unfold unref. rewrite lookup_insert_ne by done.
      destruct (H1 !! ip) as [[n r]|]; [|done]. case_decide; [by rewrite delete_insert_ne|by rewrite insert_insert_ne]. }
    assert (H1 !! next = H !! next) as E3 by (destruct Hg as [(r & _ & ->)|(_ & _ & ->)]; by rewrite lookup_insert_ne).
    destruct Hg2 as [(r2 & HH2 & ->)|(HH2 & Hno & ->)]; rewrite Hun, E3 in *; [left; eauto|]. right. split_and!; [done| |done].
    intros a r Ha. destruct Hg as [(r' & HH & ->)|(HH & _ & ->)].
    + destruct (decide (a = ip)) as [->|Ha']; [|apply (Hno a r); by rewrite lookup_insert_ne].
      rewrite HH in Ha. injection Ha as -> ->. apply (Hno ip (r + 1)). by rewrite lookup_insert_eq.
    + apply (Hno a r). rewrite lookup_insert_ne; [done|]. intros ->. congruence.
Qed.

Section cache.
Context {X : Type} `{BW : BlockLaws X} (me : Z) (sb : superblock).
Implicit Types (s : fs X) (k : blks) (D : list (list Z)).

Definition ent_ok (h : option (Z * Z)) (locked : bool) D (i : inode) : Prop :=
  match h with
  | Some (num, r) => i_num i = num /\ i_ref i = r /\ 0 < r /\ i_dev i = 1 /\ ity sb D num ≠ 0 /\
      (i_valid i ≠ 0 -> i_d i = dinode_of sb D num)
  | None => i_ref i = 0 /\ locked = false
  end /\ if locked then holds me (i_lock i) /\ i_valid i ≠ 0 else unlocked i.

Record cached (L : gset nat) (H : refs) D (ic : list inode) : Prop := mkCached {
  ca_len : length ic = NINODE;
  ca_ent : forall ip i, ic !! ip = Some i -> ent_ok (H !! ip) (bool_decide (ip ∈ L)) D i;
  ca_dom : forall ip, H !! ip ≠ None -> (ip < NINODE)%nat;
  ca_uniq : forall a b num r r', H !! a = Some (num, r) -> H !! b = Some (num, r') -> a = b;
  ca_orph : forall j, ity sb D j ≠ 0 -> inl sb D j = 0 ->
    exists ip i r, ic !! ip = Some i /\ H !! ip = Some (j, r) /\ i_valid i ≠ 0 }.

(** The change of one entry. *)
Lemma cached_upd L L' H H' D D' ic ip i i' :
  cached L H D ic -> ic !! ip = Some i ->
  (forall a, a ≠ ip -> H' !! a = H !! a /\ (a ∈ L' <-> a ∈ L)) ->
  (forall a num r, a ≠ ip -> H !! a = Some (num, r) -> ity sb D' num ≠ 0 /\ dinode_of sb D' num = dinode_of sb D num) ->
  ent_ok (H' !! ip) (bool_decide (ip ∈ L')) D' i' ->
  (forall num r a r', H' !! ip = Some (num, r) -> H !! a = Some (num, r') -> a = ip) ->
  (forall j, ity sb D' j ≠ 0 -> inl sb D' j = 0 -> (exists r, H' !! ip = Some (j, r) /\ i_valid i' ≠ 0) \/
     (ity sb D j ≠ 0 /\ inl sb D j = 0 /\ forall r, H !! ip ≠ Some (j, r))) ->
  cached L' H' D' (<[ip := i']> ic).
Proof.
  intros [] Hi HHL HD Hip Huniq Horph. pose proof (lookup_lt_Some _ _ _ Hi) as Hlt. constructor.
  - by rewrite length_insert.
  - intros a x Hx. destruct (decide (a = ip)) as [->|Hne].
    + rewrite list_lookup_insert_eq in Hx by done. by injection Hx as <-.
    + rewrite list_lookup_insert_ne in Hx by done. destruct (HHL a Hne) as [-> HL].
      rewrite (bool_decide_ext _ _ HL). destruct (ca_ent0 a x Hx) as [H1 H2]. split; [|done].
      destruct (H !! a) as [[num r]|] eqn:E; [|done]. destruct (HD a num r Hne E) as [? ->]. naive_solver.
  - intros a Ha. destruct (decide (a = ip)) as [->|Hne]; [lia|]. destruct (HHL a Hne) as [E _]. rewrite E in Ha. by apply ca_dom0.
  - intros a b num r r' Ha Hb. destruct (decide (a = ip)) as [->|Ha'], (decide (b = ip)) as [->|Hb']; [done|..].
    + destruct (HHL b Hb') as [E _]. rewrite E in Hb. symmetry. by eapply Huniq.
    + destruct (HHL a Ha') as [E _]. rewrite E in Ha. by eapply Huniq.
    + destruct (HHL a Ha') as [E _]. destruct (HHL b Hb') as [E' _]. rewrite E in Ha. rewrite E' in Hb. by eapply ca_uniq0.
  - intros j Hj Hn. destruct (Horph j Hj Hn) as [(r & H1 & H2)|(H1 & H2 & H3)].
    + exists ip, i', r. by rewrite list_lookup_insert_eq.
    + destruct (ca_orph0 j H1 H2) as (a & x & r & Hx & Ha & Hv). assert (a ≠ ip) as Hne by (intros ->; by apply (H3 r)).
      exists a, x, r. rewrite list_lookup_insert_ne by done. destruct (HHL a Hne) as [-> _]. done.
Qed.

Lemma cached_at L H D ic ip num r : cached L H D ic -> H !! ip = Some (num, r) ->
  exists i, ic !! ip = Some i /\ i_num i = num /\ i_ref i = r /\ 0 < r /\ i_dev i = 1 /\ ity sb D num ≠ 0 /\
    (i_valid i ≠ 0 -> i_d i = dinode_of sb D num) /\
    if bool_decide (ip ∈ L) then holds me (i_lock i) /\ i_valid i ≠ 0 else unlocked i.
Proof.
  intros [] HH. destruct (lookup_lt_is_Some_2 ic ip) as [i Hi]; [rewrite ca_len0; apply ca_dom0; by rewrite HH|].
  exists i. destruct (ca_ent0 ip i Hi) as [H1 H2]. rewrite HH in H1. destruct H1 as (?&?&?&?&?&?). split_and!; done.
Qed.

Lemma cached_L L H D ic ip : cached L H D ic -> ip ∈ L -> (ip < NINODE)%nat -> H !! ip ≠ None.
Proof.
  intros [] HL Hlt E. destruct (lookup_lt_is_Some_2 ic ip) as [i Hi]; [lia|]. destruct (ca_ent0 ip i Hi) as [H1 _].
  rewrite E, bool_decide_true in H1 by done. by destruct H1.
Qed.

(** ** The state *)

(** The blocks are in [KR]: those of the start of the call, or all that its writes
    can leave. *)
Context (P : failure -> Prop) {SO : short_of P} (m0 : mach) (KR : blks -> Prop).
#[local] Hint Extern 0 (P (FPanic _)) => first [apply so_iget | apply so_ialloc | apply so_dirlink] : core.

Definition at_fs (L : gset nat) (H : refs) (A : ns) (t : mach * fs X) : Prop :=
  quiet ∅ m0 t.1 /\ exists k, KR k /\ fs_idle sb t.2 k /\ disk_ok sb (k_data k) A /\ cached L H (k_data k) (icache t.2).

Lemma fs_idle_rep s k x' ic : fs_idle sb s k -> b_rep x' k -> fs_idle sb (mkFs x' ic) k.
Proof. intros []. by constructor. Qed.

(** Functions that change an entry of the cache only. *)
Lemma at_upd L L' H H' A (m m' : mach) s k x' ip i i' :
  quiet ∅ m0 m -> quiet ∅ m m' -> KR k -> fs_idle sb s k -> disk_ok sb (k_data k) A ->
  cached L H (k_data k) (icache s) -> b_rep x' k -> icache s !! ip = Some i ->
  (forall a, a ≠ ip -> H' !! a = H !! a /\ (a ∈ L' <-> a ∈ L)) ->
  ent_ok (H' !! ip) (bool_decide (ip ∈ L')) (k_data k) i' ->
  (forall num r a r', H' !! ip = Some (num, r) -> H !! a = Some (num, r') -> a = ip) ->
  (forall j, nT A j ≠ 0 -> nN A j = 0 -> (exists r, H' !! ip = Some (j, r) /\ i_valid i' ≠ 0) \/ (forall r, H !! ip ≠ Some (j, r))) ->
  at_fs L' H' A (m', mkFs x' (<[ip := i']> (icache s))).
Proof.
  intros Hq Hq' Hs HI HD HC Hrep Hi HHL He Hu Ho. split; [by eapply quiet_trans|]. exists k. split_and!; [done|by eapply fs_idle_rep|done|].
  cbn. eapply cached_upd; [done|done|done| |done|done|].
  - intros a num r Hne Ha. destruct (cached_at _ _ _ _ _ _ _ HC Ha) as (x & _ & _ & _ & _ & _ & ? & _). done.
  - intros j H1 H2. rewrite (dk_T _ _ _ HD) in H1. rewrite (dk_N _ _ _ HD) in H2.
    destruct (Ho j H1 H2) as [?|?]; [by left|right]. rewrite (dk_T _ _ _ HD), (dk_N _ _ _ HD). done.
Qed.

Lemma at_quiet L H A t : at_fs L H A t -> msec ∅ t.1.
Proof. by intros [[? _] _]. Qed.

(** An inode without links that is in use is in the cache. *)
Lemma orph_valid L H D A ic ip i j r : cached L H D ic -> disk_ok sb D A -> H !! ip = Some (j, r) -> ic !! ip = Some i ->
  nT A j ≠ 0 -> nN A j = 0 -> i_valid i ≠ 0.
Proof.
  intros [] HD HH Hi Hj1 Hj2. rewrite <- (dk_T _ _ _ HD) in Hj1. rewrite <- (dk_N _ _ _ HD) in Hj2.
  destruct (ca_orph0 j Hj1 Hj2) as (a & x & r0 & Hx & Ha & Hv). assert (a = ip) as -> by (by eapply ca_uniq0). congruence.
Qed.

Ltac at_open t HA m s k :=
  destruct t as [m s]; pose proof (at_quiet _ _ _ _ HA) as Hm; destruct HA as (Hq & k & Hs & HI & HD & HC);
  cbn [fst snd] in *.

(** ** References *)

Lemma at_iget L H A t inum Q :
  at_fs L H A t -> nT A inum ≠ 0 ->
  (forall ip H' t', got H inum ip H' -> at_fs L H' A t' -> Q ip t') ->
  wp P (iget 1 inum) t Q.
Proof.
  intros HA Hal HQ. at_open t HA m s k. pose proof HC as []. apply wp_iget; [done| | |].
  - intros _ _. done.
  - intros ip i m' Hq' Hi (Hr & Hdev & Hnum). pose proof (ca_ent0 ip i Hi) as [He Hl]. destruct (H !! ip) as [[num r]|] eqn:EH; [|lia].
    destruct He as (H1 & H2 & H3 & H4 & H5 & H6). assert (num = inum) as -> by congruence.
    apply (HQ ip (<[ip := (inum, r + 1)]> H)); [left; by exists r|].
    apply (at_upd L L H _ A m m' s k (fblk s) ip i); try done; [apply HI|..].
    + intros a Ha. by rewrite lookup_insert_ne.
    + rewrite lookup_insert_eq. split; [|done]. cbn. split_and!; try done; lia.
    + intros num r0 a r'. rewrite lookup_insert_eq. intros [= <- <-] Ha. by eapply ca_uniq0.
    + intros j Hj1 Hj2. rewrite lookup_insert_eq. destruct (decide (j = inum)) as [->|Hne]; [|right; intros r0; congruence].
      left. exists (r + 1). split; [done|]. by eapply (orph_valid L H _ A (icache s) ip i).
  - intros ip i m' Hq' Hno Hi Hr. pose proof (ca_ent0 ip i Hi) as [He Hl].
    destruct (H !! ip) as [[num r]|] eqn:EH; [destruct He as (_ & ? & ? & _); lia|]. destruct He as [_ HL]. rewrite HL in Hl.
    assert (forall a r, H !! a ≠ Some (inum, r)) as Hnone.
    { intros a r Ha. destruct (cached_at _ _ _ _ _ _ _ HC Ha) as (x & Hx & H1 & H2 & H3 & H4 & _). apply (Hno a x Hx). split; [lia|done]. }
    apply (HQ ip (<[ip := (inum, 1)]> H)); [by right|].
    apply (at_upd L L H _ A m m' s k (fblk s) ip i); try done; [apply HI|..].
    + intros a Ha. by rewrite lookup_insert_ne.
    + rewrite lookup_insert_eq, HL. split; [|done]. cbn. split_and!; try done; try lia. by rewrite (dk_T _ _ _ HD).
    + intros num r0 a r'. rewrite lookup_insert_eq. intros [= <- <-] Ha. by destruct (Hnone a r').
    + intros j Hj1 Hj2. right. intros r0. congruence.
Qed.

(** The count of an entry changed. *)
Lemma at_ref L H A (m m' : mach) s k ip i i' num r r' :
  quiet ∅ m0 m -> quiet ∅ m m' -> KR k -> fs_idle sb s k -> disk_ok sb (k_data k) A ->
  cached L H (k_data k) (icache s) -> icache s !! ip = Some i -> H !! ip = Some (num, r) -> 0 < r' ->
  i' = set_i_ref r' (set_i_lock (i_lock i') i) -> (if bool_decide (ip ∈ L) then holds me (i_lock i') else unlocked i') ->
  at_fs L (<[ip := (num, r')]> H) A (m', mkFs (fblk s) (<[ip := i']> (icache s))).
Proof.
  intros Hq Hq' Hs HI HD HC Hi HH Hr Ei' Hl. pose proof (ca_ent _ _ _ _ HC ip i Hi) as [He Hl0]. rewrite HH in He.
  destruct He as (H1 & H2 & H3 & H4 & H5 & H6).
  apply (at_upd L L H _ A m m' s k (fblk s) ip i); try done; [apply HI|..].
  - intros a Ha. by rewrite lookup_insert_ne.
  - rewrite lookup_insert_eq. split; [rewrite Ei'; cbn; split_and!; done|].
    destruct (bool_decide (ip ∈ L)); [|done]. split; [done|]. rewrite Ei'. cbn. by destruct Hl0.
  - intros num' r0 a r1. rewrite lookup_insert_eq. intros [= <- <-] Ha. by eapply (ca_uniq _ _ _ _ HC).
  - intros j Hj1 Hj2. rewrite lookup_insert_eq. destruct (decide (j = num)) as [->|Hne]; [|right; intros r0; congruence].
    left. exists r'. split; [done|]. rewrite Ei'. cbn. by eapply (orph_valid L H _ A (icache s) ip i).
Qed.

Lemma at_idup L H A t ip num r Q :
  at_fs L H A t -> H !! ip = Some (num, r) ->
  (forall t', at_fs L (<[ip := (num, r + 1)]> H) A t' -> Q ip t') -> wp P (idup ip) t Q.
Proof.
  intros HA HH HQ. at_open t HA m s k. destruct (cached_at _ _ _ _ _ _ _ HC HH) as (i & Hi & H1 & H2 & H3 & H4 & H5 & H6 & H7).
  unfold idup. wp_next. eapply wp_critical; [done|set_solver|]. apply wp_modify. intros m' Hm'. apply wp_ret.
  rewrite (upd_inode_at ip _ s i Hi). apply HQ. apply (at_ref L H A m m' s k ip i _ num r); try done; [lia|rewrite <- H2; by destruct i|].
  destruct (bool_decide (ip ∈ L)); [apply H7|done].
Qed.

(** ** Locks *)

Lemma at_ilock L H A t ip num r Q :
  at_fs L H A t -> H !! ip = Some (num, r) -> ip ∉ L ->
  (forall t', at_fs ({[ip]} ∪ L) H A t' -> Q tt t') -> wp P (ilock me sb ip) t Q.
Proof.
  intros HA HH HL HQ. at_open t HA m s k. destruct (cached_at _ _ _ _ _ _ _ HC HH) as (i & Hi & H1 & H2 & H3 & H4 & H5 & H6 & H7).
  rewrite bool_decide_false in H7 by done. pose proof (ity_inum _ _ _ H5) as Hn.
  apply (wp_ilock me sb P m s k ip i); try done; [lia|by rewrite H1|..].
  { intros _. rewrite H1, <- ity_eq by done. done. }
  intros m' x' Hq' Hrep _ i'. apply HQ.
  assert (i_valid i' ≠ 0 /\ i_d i' = dinode_of sb (k_data k) num /\ i_num i' = num /\ i_ref i' = r /\ i_dev i' = 1) as (E1 & E2 & E3 & E4 & E5).
  { unfold i'. destruct (i_valid i =? 0) eqn:Ev; cbn; rewrite ?H1; split_and!; try done; [lia|]. apply H6. lia. }
  apply (at_upd L _ H H A m m' s k x' ip i); try done.
  - intros a Ha. split; [done|]. set_solver.
  - rewrite HH, bool_decide_true by set_solver. split; [cbn; by split_and!|]. split; [|done]. by change (1 ≠ 0 /\ me = me).
  - intros num' r0 a r1. rewrite HH. intros [= <- <-] Ha. by eapply (ca_uniq _ _ _ _ HC).
  - intros j Hj1 Hj2. destruct (decide (j = num)) as [->|Hne]; [|right; intros r0; congruence]. left. by exists r.
Qed.

Lemma at_iunlock L H A t ip num r Q :
  at_fs L H A t -> H !! ip = Some (num, r) -> ip ∈ L ->
  (forall t', at_fs (L ∖ {[ip]}) H A t' -> Q tt t') -> wp P (iunlock me ip) t Q.
Proof.
  intros HA HH HL HQ. at_open t HA m s k. destruct (cached_at _ _ _ _ _ _ _ HC HH) as (i & Hi & H1 & H2 & H3 & H4 & H5 & H6 & H7).
  rewrite bool_decide_true in H7 by done. destruct H7 as [H7 H8]. apply (wp_iunlock me P m s ip i); [done|done|lia|done|]. intros m' Hq'. apply HQ.
  apply (at_upd L _ H H A m m' s k (fblk s) ip i); try done.
  - apply HI.
  - intros a Ha. split; [done|]. set_solver.
  - rewrite HH, bool_decide_false by set_solver. split; [|done]. cbn. by split_and!.
  - intros num' r0 a r1. rewrite HH. intros [= <- <-] Ha. by eapply (ca_uniq _ _ _ _ HC).
  - intros j Hj1 Hj2. destruct (decide (j = num)) as [->|Hne]; [|right; intros r0; congruence]. left. by exists r.
Qed.

Lemma at_pos L H A t : at_fs L H A t -> refs_pos H.
Proof.
  intros HA a n r HH. at_open t HA m s k. by destruct (cached_at _ _ _ _ _ _ _ HC HH) as (i & _ & _ & _ & ? & _).
Qed.

(** [iput] of an inode that the process itself has locked sleeps for ever. *)
Lemma at_iput_locked L H A t ip num r Q :
  at_fs L H A t -> H !! ip = Some (num, r) -> ip ∈ L -> P FBlocked -> wp P (iput me sb ip) t Q.
Proof.
  intros HA HH HL HB. at_open t HA m s k. destruct (cached_at _ _ _ _ _ _ _ HC HH) as (i & Hi & _ & _ & _ & _ & _ & _ & H7).
  rewrite bool_decide_true in H7 by done. unfold iput. wp_next. apply (wp_lock_inode _ _ _ i); [done|done|done|].
  intros m' _ Hu. by destruct H7 as [[? _] _].
Qed.

(** Fields of an inode: of any one in use, and of a locked one. *)
Lemma at_read L H A t ip num r {B} (f : inode -> B) Q :
  at_fs L H A t -> H !! ip = Some (num, r) ->
  (forall i, i_num i = num -> i_dev i = 1 -> i_ref i = r -> nT A num ≠ 0 ->
     (ip ∈ L -> d_type (i_d i) = nT A num /\ d_nlink (i_d i) = nN A num) -> Q (f i) t) ->
  wp P (iread f ip) t Q.
Proof.
  intros HA HH HQ. at_open t HA m s k. destruct (cached_at _ _ _ _ _ _ _ HC HH) as (i & Hi & H1 & H2 & H3 & H4 & H5 & H6 & H7).
  apply (wp_iread _ _ _ i); [done|]. apply HQ; [done|done|done|by rewrite <- (dk_T _ _ _ HD)|]. intros HL.
  rewrite bool_decide_true in H7 by done. rewrite H6 by apply H7. pose proof (ity_inum _ _ _ H5) as Hn.
  rewrite <- (dk_T _ _ _ HD), <- (dk_N _ _ _ HD), ity_eq by done. unfold inl. by rewrite decide_True.
Qed.

(** ** iput *)

Lemma idle_reclaimed s k x' k' i ic : fs_idle sb s k ->
  file_ok sb (k_data k) (addrs i) -> reclaimed sb k i k' -> b_rep x' k' -> fs_idle sb (mkFs x' ic) k'.
Proof.
  intros [] HF RC Hr. constructor; [done|apply RC| |].
  - intros b Hb. pose proof (geom_order sb k id_geom). pose proof (g_data _ _ id_geom).
    rewrite (rc_used _ _ _ _ RC) by lia. split; [by apply id_meta|]. intros Ho. destruct (owned_live sb _ _ _ HF Ho) as [? _]. lia.
  - eapply same_held; [apply RC|done].
Qed.

(** A reference given back that is not the last one to a file without a name. *)
Lemma at_iput_keep L H A t ip num r Q :
  at_fs L H A t -> H !! ip = Some (num, r) -> ip ∉ L -> r ≠ 1 \/ nN A num ≠ 0 ->
  (forall t', at_fs L (unref ip H) A t' -> Q tt t') -> wp P (iput me sb ip) t Q.
Proof.
  intros HA HH HL Hkeep HQ. at_open t HA m s k. destruct (cached_at _ _ _ _ _ _ _ HC HH) as (i & Hi & H1 & H2 & H3 & H4 & H5 & H6 & H7).
  rewrite bool_decide_false in H7 by done. pose proof (ity_inum _ _ _ H5) as Hn. unfold unref in HQ. rewrite HH in HQ.
  apply (wp_iput_keep me sb P m s ip i); try done.
  - intros (Hv & Hnl & Hr). destruct Hkeep as [Hkeep|Hkeep]; [lia|]. apply Hkeep. rewrite <- (dk_N _ _ _ HD). unfold inl. rewrite decide_True by done.
    rewrite <- H6 by done. done.
  - intros m' Hq' _. destruct (decide (r = 1)) as [->|Hr1].
    + apply HQ. apply (at_upd L L H _ A m m' s k (fblk s) ip i); try done.
      * apply HI.
      * intros a Ha. by rewrite lookup_delete_ne.
      * rewrite lookup_delete_eq, bool_decide_false by done. split; [|done]. split; [|done]. change (i_ref i - 1 = 0). lia.
      * intros ? ? ? ?. by rewrite lookup_delete_eq.
      * intros j Hj1 Hj2. right. intros r0. rewrite HH. intros [= -> <-]. by destruct Hkeep.
    + apply HQ. apply (at_ref L H A m m' s k ip i _ num r); try done; [lia|by rewrite <- H2|]. by rewrite bool_decide_false.
Qed.

Lemma at_iunlockput_named L H A t ip num r Q :
  at_fs L H A t -> H !! ip = Some (num, r) -> ip ∈ L -> 0 < nN A num ->
  (forall t', at_fs (L ∖ {[ip]}) (unref ip H) A t' -> Q tt t') -> wp P (iunlockput me sb ip) t Q.
Proof.
  intros HA HH HL HN HQ. unfold iunlockput. wp_next. eapply at_iunlock; [done|done|done|]. intros t' HA'.
  eapply at_iput_keep; [done|done|set_solver|right; lia|done].
Qed.

Lemma at_iput {KS : writes_in KR} L H A t ip num r Q :
  at_fs L H A t -> H !! ip = Some (num, r) -> ip ∉ L ->
  (forall t', r ≠ 1 \/ nN A num ≠ 0 -> at_fs L (unref ip H) A t' -> Q tt t') ->
  (forall t', r = 1 -> nN A num = 0 ->
     at_fs L (unref ip H) (mkNs (upd (nT A) num 0) (nN A) (drop_dir num (nG A))) t' -> Q tt t') ->
  wp P (iput me sb ip) t Q.
Proof.
  intros HA HH HL HQ1 HQ2. at_open t HA m s k. destruct (cached_at _ _ _ _ _ _ _ HC HH) as (i & Hi & H1 & H2 & H3 & H4 & H5 & H6 & H7).
  rewrite bool_decide_false in H7 by done. pose proof (ity_inum _ _ _ H5) as Hn. unfold unref in HQ1, HQ2. rewrite HH in HQ1, HQ2.
  destruct (decide (r = 1 /\ nN A num = 0)) as [[-> HN]|Hkeep].
  - rewrite decide_True in HQ2 by done.
    assert (i_valid i ≠ 0) as Hv by (by eapply (orph_valid L H _ A (icache s) ip i num 1); rewrite <- ?(dk_T _ _ _ HD)).
    specialize (H6 Hv). pose proof (dk_blocks _ _ _ HD) as B. destruct (iad_live sb _ _ H5) as [Had _].
    assert (file_ok sb (k_data k) (addrs i)) as HF by (unfold addrs; rewrite H6, <- Had; apply B).
    assert (dinode_ok (i_d i)) as Hok by (rewrite H6; by apply (bo_di _ _ B)).
    apply (wp_iput_last me sb P m s k ip i); try done.
    + constructor; try done; apply HI.
    + by rewrite H1.
    + split_and!; [done| |done]. rewrite H6. rewrite <- (dk_N _ _ _ HD) in HN. unfold inl in HN. by rewrite decide_True in HN.
    + intros m' x' k' Hq' _ Hrep RC. apply HQ2; [done|done|]. rewrite <- H1 in *.
      split; [by eapply quiet_trans|]. exists k'. pose proof (data0_pos sb k ltac:(apply HI)) as H0.
      pose proof (disk_free sb k k' i B H5 H6 RC A H0 HD) as HD'. split_and!; [eapply writes_in_same; [done|apply RC]| |done|].
      * by eapply idle_reclaimed.
      * apply (cached_upd L L H _ (k_data k) (k_data k') _ ip i); try done.
        -- intros a Ha. by rewrite lookup_delete_ne.
        -- intros a num' r' Ha Hn'. assert (num' ≠ i_num i) as Hne by (intros ->; by destruct Ha; eapply (ca_uniq _ _ _ _ HC)).
           destruct (cached_at _ _ _ _ _ _ _ HC Hn') as (x & _ & _ & _ & _ & _ & Hal & _). rewrite (freed_ity sb k k' i RC), decide_False by done.
           split; [done|]. rewrite (freed_di sb k k' i RC), decide_False; [done|done|]. by eapply ity_inum.
        -- rewrite lookup_delete_eq, bool_decide_false by done. split; [|done]. split; [|done]. change (i_ref i - 1 = 0). lia.
        -- intros ? ? ? ?. by rewrite lookup_delete_eq.
        -- intros j Hj1 Hj2. right. rewrite (freed_inl sb k k' i H6 RC) in Hj2. rewrite (freed_ity sb k k' i RC) in Hj1.
           destruct (decide (j = i_num i)); [done|]. split_and!; [done|done|]. intros r0. rewrite HH. congruence.
  - assert (r ≠ 1 \/ nN A num ≠ 0) as Hk by (destruct (decide (r = 1)); [right|by left]; naive_solver).
    apply (at_iput_keep L H A (m, s) ip num r); [|done|done|done|].
    + split; [done|]. by exists k.
    + unfold unref. rewrite HH. intros t' HA'. by apply HQ1.
Qed.

Lemma at_iunlockput {KS : writes_in KR} L H A t ip num r Q :
  at_fs L H A t -> H !! ip = Some (num, r) -> ip ∈ L ->
  (forall t', r ≠ 1 \/ nN A num ≠ 0 -> at_fs (L ∖ {[ip]}) (unref ip H) A t' -> Q tt t') ->
  (forall t', r = 1 -> nN A num = 0 ->
     at_fs (L ∖ {[ip]}) (unref ip H) (mkNs (upd (nT A) num 0) (nN A) (drop_dir num (nG A))) t' -> Q tt t') ->
  wp P (iunlockput me sb ip) t Q.
Proof.
  intros HA HH HL HQ1 HQ2. unfold iunlockput. wp_next. eapply at_iunlock; [done|done|done|]. intros t' HA'.
  eapply at_iput; [done|done|set_solver|done|done].
Qed.

End cache.
