(* ===== verification/FsOps.v ===== *)
(** * Operations on the name space

    What the functions on inodes and directories do to the name space: a link count
    changed, a name looked up, an entry added or removed, an inode allocated. *)

From stdpp Require Import base numbers gmap sets list strings.
From S2P Require Import Prelude CString Spinlock Sleeplock Bio BioRing BioSpec.
From S2P Require Import Log LogSpec Fs FsBlock FsAlloc FsFile FsInode FsDinode FsRW FsTrunc FsIcache FsDir.
From S2P Require Import SysFile FsNames FsCheck FsCache.
Open Scope Z_scope.

Section ops.
Context {X : Type} `{BW : BlockLaws X} (me : Z) (sb : superblock) (devs : Z -> @devsw X).
Context (P : failure -> Prop) {SO : short_of P} (m0 : mach) (KR : blks -> Prop).
#[local] Hint Extern 0 (P (FPanic _)) => first [apply so_iget | apply so_ialloc | apply so_dirlink] : core.
Implicit Types (s : fs X) (k : blks) (D : list (list Z)).

Notation at_fs := (at_fs me sb m0 KR).

Ltac at_open t HA m s k :=
  destruct t as [m s]; pose proof (at_quiet _ _ _ _ _ _ _ _ HA) as Hm; destruct HA as (Hq & k & Hs & HI & HD & HC);
  cbn [fst snd] in *.

(** ** Attributes *)

Lemma at_attr {KS : writes_in KR} L H A t ip num r f n Q :
  at_fs L H A t -> H !! ip = Some (num, r) -> ip ∈ L ->
  (forall d, dinode_ok d -> d_type d = nT A num -> d_nlink d = nN A num ->
     dinode_ok (f d) /\ d_type (f d) = d_type d /\ d_size (f d) = d_size d /\ d_addrs (f d) = d_addrs d /\ d_nlink (f d) = d_nlink d + n) ->
  (forall t', at_fs L H (mkNs (nT A) (bump (nN A) num n) (nG A)) t' -> Q tt t') ->
  wp P (iset (set_i_d f) ip) t (fun _ t1 => wp P (iupdate sb ip) t1 Q).
Proof.
  intros HA HH HL Hf HQ. at_open t HA m s k. destruct (cached_at _ _ _ _ _ _ _ _ _ HC HH) as (i & Hi & H1 & H2 & H3 & H4 & H5 & H6 & H7).
  rewrite bool_decide_true in H7 by done. destruct H7 as [H7 Hv]. specialize (H6 Hv).
  pose proof (dk_blocks _ _ _ HD) as B. pose proof (ity_inum _ _ _ H5) as Hn. destruct (iad_live sb _ _ H5) as [Had _].
  destruct (Hf (i_d i)) as (F1 & F2 & F3 & F4 & F5).
  { rewrite H6. by apply (bo_di _ _ B). }
  { by rewrite H6, <- ity_eq, (dk_T _ _ _ HD). }
  { rewrite H6, <- (dk_N _ _ _ HD). unfold inl. by rewrite decide_True. }
  apply (wp_iset _ _ _ i); [done|]. set (i' := set_i_d f i). set (s1 := mkFs (fblk s) (<[ip := i']> (icache s))).
  assert (file_st sb s1 k ip i') as F.
  { constructor; try apply HI; [cbn; by apply (lookup_at _ _ i)|done|].
    change (addrs i') with (d_addrs (f (i_d i))). rewrite F4, H6, <- Had. apply B. }
  apply (wp_iupdate sb P m s1 k ip i' _ Hm F); [by change (i_num i') with (i_num i); rewrite H1|done|].
  intros m' x' Hq' Hrep F'. apply HQ. change (i_num i') with (i_num i) in *. change (i_d i') with (f (i_d i)) in *. rewrite H1 in *.
  pose proof (disk_attr sb k A num (f (i_d i)) n ltac:(apply HI) HD ltac:(by rewrite <- (dk_T _ _ _ HD)) F1) as HD'.
  cbv zeta in HD'. rewrite <- H6 in HD'. specialize (HD' F2 F3 F4 F5).
  split; [by eapply quiet_trans|]. exists (k_iupd sb num (f (i_d i)) k). split_and!; [eapply writes_in_same; [done|apply same_blocks_upd]| |done|].
  - constructor; apply F'.
  - cbn [snd icache s1]. assert (forall j, ity sb (k_data (k_iupd sb num (f (i_d i)) k)) j = ity sb (k_data k) j) as Hity.
    { intros j. by rewrite (dk_T _ _ _ HD'), (dk_T _ _ _ HD). }
    assert (forall j, is_inum sb j -> dinode_of sb (k_data (k_iupd sb num (f (i_d i)) k)) j =
      if decide (j = num) then f (i_d i) else dinode_of sb (k_data k) j) as Hdi by (intros j Hj; apply dinode_iupd; [apply HI|done..]).
    apply (cached_upd me sb L L H H (k_data k) _ (icache s) ip i i'); try done.
    + intros a num' r' Ha Hn'. assert (num' ≠ num) as Hne by (intros ->; by destruct Ha; eapply (ca_uniq _ _ _ _ _ _ HC)).
      destruct (cached_at _ _ _ _ _ _ _ _ _ HC Hn') as (x & _ & _ & _ & _ & _ & Hal & _). rewrite Hity. split; [done|].
      rewrite Hdi by (by eapply ity_inum). by rewrite decide_False.
    + rewrite HH, bool_decide_true by done. split; [|done]. cbn. split_and!; try done; [by rewrite Hity|].
      intros _. rewrite Hdi by done. by rewrite decide_True.
    + intros num' r0 a r1. rewrite HH. intros [= <- <-] Ha. by eapply (ca_uniq _ _ _ _ _ _ HC).
    + intros j Hj1 Hj2. destruct (decide (j = num)) as [->|Hne]; [left; by exists r|]. right. rewrite Hity in Hj1. split_and!; [done| |].
      * unfold inl in *. case_decide; [|done]. rewrite Hdi in Hj2 by done. by rewrite decide_False in Hj2.
      * intros r0. rewrite HH. congruence.
Qed.

(** ** Directories *)

(** A locked directory as the functions on directories want it. *)
Lemma at_dir L H A (m : mach) s k dp d r :
  fs_idle sb s k -> disk_ok sb (k_data k) A -> cached me sb L H (k_data k) (icache s) ->
  H !! dp = Some (d, r) -> dp ∈ L -> nT A d = T_DIR ->
  exists i n, dir_st sb s k dp i n /\ isz sb (k_data k) d = DESIZE * n /\ i_num i = d /\ addrs i = iad sb (k_data k) d /\
    dinode_ok (i_d i) /\ dinode_of sb (k_data k) d = i_d i /\ is_inum sb d /\ 0 < r /\ i_ref i = r.
Proof.
  intros HI HD HC HH HL HT. destruct (cached_at _ _ _ _ _ _ _ _ _ HC HH) as (i & Hi & H1 & H2 & H3 & H4 & H5 & H6 & H7).
  rewrite bool_decide_true in H7 by done. specialize (H6 (proj2 H7)). pose proof (dk_blocks _ _ _ HD) as B.
  rewrite <- (dk_T _ _ _ HD) in HT. destruct (gr_size _ _ _ (dk_graph _ _ _ HD) d HT) as (n & Hn0 & Hn).
  destruct (iad_live sb _ _ H5) as [Had Hsz]. pose proof (ity_inum _ _ _ H5) as Hn1.
  assert (addrs i = iad sb (k_data k) d) as Ha by (unfold addrs; by rewrite H6).
  exists i, n. split_and!; try done.
  - constructor; [constructor; try apply HI; try done| | |done|].
    + rewrite Ha. apply B.
    + by rewrite H6, <- ity_eq.
    + by rewrite H6, <- Hsz.
    + rewrite Ha, H6, <- Hsz. apply B.
  - rewrite H6. by apply (bo_di _ _ B).
Qed.

(** The same disk, read. *)
Lemma at_same L H A (m m' : mach) s k x' :
  quiet ∅ m0 m -> quiet ∅ m m' -> KR k -> fs_idle sb s k -> disk_ok sb (k_data k) A ->
  cached me sb L H (k_data k) (icache s) -> b_rep x' k -> at_fs L H A (m', mkFs x' (icache s)).
Proof.
  intros Hq Hq' Hs HI HD HC Hrep. split; [by eapply quiet_trans|]. exists k. split_and!; [done|by eapply fs_idle_rep|done|done].
Qed.

Lemma at_dirlookup L H A t dp d r name Q :
  at_fs L H A t -> H !! dp = Some (d, r) -> dp ∈ L -> nT A d = T_DIR ->
  (forall o e, nG A !! (d, o) = Some e -> nT A (de_inum e) ≠ 0) ->
  (forall t', nfind (nG A) d name = None -> at_fs L H A t' -> Q None t') ->
  (forall t' inum off ip H', nfind (nG A) d name = Some (inum, off) -> got H inum ip H' -> at_fs L H' A t' -> Q (Some (ip, off)) t') ->
  wp P (dirlookup sb devs dp name) t Q.
Proof.
  intros HA HH HL HT Hent HQ1 HQ2. at_open t HA m s k.
  destruct (at_dir L H A m s k dp d r HI HD HC HH HL HT) as (i & n & DS & Hn & H1 & Ha & _).
  assert (dir_find (k_data k) (addrs i) (DESIZE * n) name = nfind (nG A) d name) as Hfind.
  { rewrite Ha, <- Hn. apply find_nfind; [apply HD|apply HD|by rewrite (dk_T _ _ _ HD)]. }
  apply (wp_dirlookup sb P devs s k dp i n); [done|done|done| |].
  - intros m' x' Hq' Hrep Hf. apply HQ1; [by rewrite <- Hfind|]. by apply (at_same L H A m m' s k).
  - intros m' x' inum off Hq' Hrep Hf. rewrite Hfind in Hf. destruct (nfind_some _ _ _ _ _ Hf) as (e & He & <- & _).
    eapply (at_iget me sb P m0 KR); [by apply (at_same L H A m m' s k)|by eapply Hent|].
    intros ip H' t' Hg HA'. by eapply HQ2.
Qed.

(** A write to a locked inode. *)
Lemma at_wrote {KS : writes_in KR} L H A A' (m m1 : mach) s k x1 dp d r i off src (T : gset Z) c f m' s' k' i' :
  quiet ∅ m0 m -> quiet ∅ m m1 -> KR k -> disk_ok sb (k_data k) A -> cached me sb L H (k_data k) (icache s) ->
  H !! dp = Some (d, r) -> dp ∈ L -> icache s !! dp = Some i -> i_num i = d -> dinode_of sb (k_data k) d = i_d i ->
  wrote sb T c f m1 (mkFs x1 (icache s)) k dp i off src m' s' k' i' -> disk_ok sb (k_data k') A' ->
  (forall j, nT A' j = nT A j) -> (forall j, nN A' j = nN A j) -> at_fs L H A' (m', s').
Proof.
  intros Hq Hq1 Hs HD HC HH HL Hi Hd Hsync HW HD' HT HN. pose proof HW as []. cbn [icache] in w_ic. subst d.
  destruct (cached_at _ _ _ _ _ _ _ _ _ HC HH) as (i0 & Hi0 & H1 & H2 & H3 & H4 & H5 & H6 & H7). assert (i0 = i) as -> by congruence.
  rewrite bool_decide_true in H7 by done. assert (forall j, ity sb (k_data k') j = ity sb (k_data k) j) as Hity.
  { intros j. by rewrite (dk_T _ _ _ HD'), (dk_T _ _ _ HD). }
  split; [eapply quiet_trans; [done|]; by eapply quiet_trans|]. exists k'. split_and!; [by eapply writes_in_same|constructor; apply w_st|done|].
  cbn [snd]. rewrite w_ic. apply (cached_upd me sb L L H H (k_data k) _ (icache s) dp i i'); try done.
  - intros a num' r' Ha Hn'. assert (num' ≠ i_num i) as Hne by (intros ->; by destruct Ha; eapply (ca_uniq _ _ _ _ _ _ HC)).
    destruct (cached_at _ _ _ _ _ _ _ _ _ HC Hn') as (x & _ & _ & _ & _ & _ & Hal & _). rewrite Hity. split; [done|].
    apply w_dinodes; [by eapply ity_inum|done].
  - rewrite HH, bool_decide_true by done. specialize (w_sync Hsync). destruct w_i as [l' ->]. split; [|done].
    cbn. split_and!; try done. by rewrite Hity.
  - intros num' r0 a r1. rewrite HH. intros [= <- <-] Ha. by eapply (ca_uniq _ _ _ _ _ _ HC).
  - intros j Hj1 Hj2. destruct (decide (j = i_num i)) as [->|Hne].
    + left. exists r. split; [done|]. destruct w_i as [l' ->]. cbn. apply H7.
    + right. rewrite Hity in Hj1. rewrite (dk_N _ _ _ HD'), HN, <- (dk_N _ _ _ HD) in Hj2. split_and!; [done|done|]. intros r0. rewrite HH. congruence.
Qed.

(** An entry of a locked directory written. *)
Lemma at_entry {KS : writes_in KR} L H A (m m1 : mach) s k x1 dp d r i n t src (T : gset Z) c f m' s' k' i' :
  quiet ∅ m0 m -> quiet ∅ m m1 -> KR k -> fs_idle sb s k -> disk_ok sb (k_data k) A ->
  cached me sb L H (k_data k) (icache s) -> H !! dp = Some (d, r) -> dp ∈ L -> nT A d = T_DIR ->
  dir_st sb s k dp i n -> isz sb (k_data k) d = DESIZE * n -> i_num i = d -> dinode_of sb (k_data k) d = i_d i ->
  0 <= t <= n -> length src = 16%nat ->
  wrote sb T c f m1 (mkFs x1 (icache s)) k dp i (DESIZE * t) src m' s' k' i' ->
  at_fs L H (mkNs (nT A) (nN A) (put_ent d (DESIZE * t) src (nG A))) (m', s').
Proof.
  intros Hq Hq1 Hs HI HD HC HH HL HT DS Hn Hd Hsync Ht Hl HW. pose proof (data0_pos sb k ltac:(apply HI)) as H0.
  pose proof Hsync as Hsync'. rewrite <- Hd in Hsync'. destruct (wrote_touched sb _ _ _ _ _ _ _ _ _ _ _ _ _ _ Hsync' HW) as [TH _]. rewrite Hd in TH.
  assert (ity sb (k_data k) d ≠ 0) as Hal by (rewrite (dk_T _ _ _ HD), HT; done).
  pose proof (dr_sz _ _ _ _ _ _ DS) as Hn0.
  eapply (at_wrote L H A _ m m1 s k x1 dp d r i (DESIZE * t) src); try done; [apply DS|].
  apply (disk_entry sb _ _ d (DESIZE * t) src (dk_blocks _ _ _ HD) Hal TH H0 A n t); done.
Qed.

Lemma nG_none D A d o : disk_ok sb D A -> nT A d = T_DIR -> o ∈ dir_offs (isz sb D d) -> de_inum (entry D (iad sb D d) o) ≠ 0 -> nG A !! (d, o) ≠ None.
Proof.
  intros HD HT Ho He E. assert (nG A !! (d, o) = Some (entry D (iad sb D d) o)) as E'; [|congruence].
  apply (gr_ent _ _ _ (dk_graph _ _ _ HD)). by rewrite <- (dk_T _ _ _ HD) in HT.
Qed.

(** [dirlink] of a new name puts an entry in the first empty place. *)
Lemma at_dirlink {KS : writes_in KR} L H A t dp d r name inum de0 Q :
  at_fs L H A t -> H !! dp = Some (d, r) -> dp ∈ L -> nT A d = T_DIR -> nfind (nG A) d name = None ->
  0 < inum < 65536 -> length de0 = 16%nat ->
  (forall t' u e, 0 <= u -> nG A !! (d, DESIZE * u) = None ->
     (forall u', 0 <= u' -> DESIZE * u' < DESIZE * u -> nG A !! (d, DESIZE * u') ≠ None) ->
     (exists old, e = new_entry name inum old /\ length old = 16%nat) -> de_inum e = inum ->
     at_fs L H (mkNs (nT A) (nN A) (<[(d, DESIZE * u) := e]> (nG A))) t' -> Q 0 t') ->
  wp P (dirlink me sb devs dp name inum de0) t Q.
Proof.
  intros HA HH HL HT Hnf Hin Hde HQ. at_open t HA m s k.
  destruct (at_dir L H A m s k dp d r HI HD HC HH HL HT) as (i & n & DS & Hn & H1 & Ha & Hok & Hsync & Hnum & _).
  assert (ity sb (k_data k) d = T_DIR) as HTd by (by rewrite (dk_T _ _ _ HD)).
  pose proof (dr_sz _ _ _ _ _ _ DS) as Hn0.
  apply (wp_dirlink me sb P devs s k dp i n); [done|done|by rewrite H1|done|done| |done|done|].
  { rewrite Ha, <- Hn, (find_nfind sb _ (nG A)); [done|apply HD|apply HD|done]. }
  intros m1 x1 m' s' k' i' old Hq1 Hold Hfit HW. destruct (slot_range k i n Hn0) as (u & Eu & Hu). rewrite Eu in *.
  set (e := new_entry name inum old) in *. assert (de_inum e = inum) as Einum.
  { unfold e. rewrite new_entry_inum. apply Z.mod_small. lia. }
  apply (HQ _ u e); [lia| | |by exists old|done|].
  - destruct (nG A !! (d, DESIZE * u)) as [e0|] eqn:E; [|done]. apply (gr_ent _ _ _ (dk_graph _ _ _ HD)) in E as (_ & Ho & <- & Hz).
    rewrite Hn in Ho. destruct (empty_at_spec (entry (k_data k) (addrs i)) (dir_offs (DESIZE * n)) (DESIZE * n)) as [[_ H2]|[H2 _]];
      change (empty_at _ _ _) with (slot_of k i n) in H2; rewrite Eu in H2; [by rewrite <- Ha in Hz|].
    apply elem_dir_offs in Ho as (j & Ej & ?); [|done]. unfold DESIZE in *. lia.
  - intros u' Hu' Hlt. apply (nG_none (k_data k)); [done|done| |].
    + rewrite Hn. apply elem_dir_offs; [done|]. exists u'. unfold DESIZE in *. lia.
    + rewrite <- Ha. apply (slot_first k i n); [done|done|by rewrite Eu].
  - pose proof (at_entry L H A m m1 s k x1 dp d r i n u e (bm_set sb) 9 4 m' s' k' i') as H2. unfold put_ent in H2.
    rewrite decide_False in H2 by lia. apply H2; try done. unfold e. by apply length_new_entry.
Qed.

(** An entry removed. *)
Lemma at_unlink_entry {KS : writes_in KR} L H A t dp d r o e Q :
  at_fs L H A t -> H !! dp = Some (d, r) -> dp ∈ L -> nT A d = T_DIR -> nG A !! (d, o) = Some e ->
  (forall t', at_fs L H (mkNs (nT A) (nN A) (delete (d, o) (nG A))) t' -> Q DESIZE t') ->
  wp P (writei sb devs dp (replicate 16 0) o DESIZE) t Q.
Proof.
  intros HA HH HL HT He HQ. at_open t HA m s k.
  destruct (at_dir L H A m s k dp d r HI HD HC HH HL HT) as (i & n & DS & Hn & H1 & Ha & Hok & Hsync & Hnum & _).
  apply (gr_ent _ _ _ (dk_graph _ _ _ HD)) in He as (HTd & Ho & _). rewrite Hn in Ho. pose proof (dr_sz _ _ _ _ _ _ DS) as Hn0.
  apply elem_dir_offs in Ho as (u & -> & Hu); [|done]. pose proof (dr_whole _ _ _ _ _ _ DS) as HWh. pose proof (proj1 HWh) as Hsz.
  pose proof (dr_size _ _ _ _ _ _ DS) as Hds. assert (MAXFILE * BSIZE = 71680) as Hmx by done.
  apply (wp_writei sb P (bm_set sb) devs dp i _ _ _ m s k); try done;
    [apply DS|by rewrite H1|by rewrite (dr_type _ _ _ _ _ _ DS)|unfold DESIZE in *; lia|apply elem_bm_set|unfold DESIZE in *; lia|].
  intros m' s' k' i' _ _ HW. change (take (Z.to_nat DESIZE) (replicate 16 0)) with (replicate 16 0) in HW. apply HQ.
  pose proof (at_entry L H A m m s k (fblk s) dp d r i n u (replicate 16 0) (bm_set sb) (4 * copy_fuel DESIZE + 1) (2 * copy_fuel DESIZE) m' s' k' i') as H2.
  change (put_ent d (DESIZE * u) (replicate 16 0) (nG A)) with (delete (d, DESIZE * u) (nG A)) in H2.
  destruct s. apply H2; try done. lia.
Qed.

(** [dirlink] of a name that is there already fails. *)
Lemma at_dirlink_found L H A t dp d r name inum de0 inum2 o2 Q :
  at_fs L H A t -> H !! dp = Some (d, r) -> dp ∈ L -> nT A d = T_DIR ->
  (forall o e, nG A !! (d, o) = Some e -> nT A (de_inum e) ≠ 0) ->
  nfind (nG A) d name = Some (inum2, o2) -> nN A inum2 ≠ 0 ->
  (forall a r', a ∈ L -> H !! a = Some (inum2, r') -> P FBlocked) ->
  (forall t', (forall a r', a ∈ L -> H !! a ≠ Some (inum2, r')) -> at_fs L H A t' -> Q (-1) t') ->
  wp P (dirlink me sb devs dp name inum de0) t Q.
Proof.
  intros HA HH HL HT Hent Hnf Hnl HB HQ. unfold dirlink. wp_next.
  eapply at_dirlookup; [done|done|done|done|done|intros; congruence|]. intros t1 inum' off ip H1 Hf Hg HA1.
  rewrite Hnf in Hf. injection Hf as <- <-. wp_next. destruct (got_at _ _ _ _ Hg) as [r1 Hr1].
  destruct (decide (ip ∈ L)) as [HipL|HipL].
  - eapply at_iput_locked; [done|done|done|]. destruct Hg as [(r0 & H0 & _)|(H0 & _)]; [by eapply HB|].
    destruct HA as (_ & k & _ & _ & _ & HC). destruct (decide (ip < NINODE)%nat) as [Hlt|Hge].
    + by destruct (cached_L _ _ _ _ _ _ _ HC HipL Hlt).
    + destruct HA1 as (_ & k1 & _ & _ & _ & HC1). destruct Hge. apply (ca_dom _ _ _ _ _ _ HC1). by rewrite Hr1.
  - call at_iput_keep; [done|done|done|by right|].
    intros t' HA'. rewrite (got_unref H inum2 ip H1) in HA' by (done || by eapply at_pos). apply wp_ret, HQ; [|done].
    intros a r' Ha E. destruct Hg as [(r0 & E0 & _)|(_ & Hno & _)]; [|by eapply Hno]. destruct HipL.
    destruct HA as (_ & k & _ & _ & _ & HC). by rewrite (ca_uniq _ _ _ _ _ _ HC _ _ _ _ _ E0 E).
Qed.

(** ** isdirempty *)

Lemma wp_isdirempty_loop s k ip i n offs m Q :
  msec ∅ m -> dir_st sb s k ip i n -> (forall o, o ∈ offs -> o ∈ dir_offs (DESIZE * n)) ->
  (forall b m' x', quiet ∅ m m' -> b_rep x' k ->
     (if b : bool then forall o, o ∈ offs -> de_inum (entry (k_data k) (addrs i) o) = 0
      else exists o, o ∈ offs /\ de_inum (entry (k_data k) (addrs i) o) ≠ 0) -> Q b (m', mkFs x' (icache s))) ->
  wp P (isdirempty_loop sb devs ip offs) (m, s) Q.
Proof.
  revert m s. induction offs as [|o offs IH]; intros m s Hm DS Hoffs HQ; cbn [isdirempty_loop].
  { apply wp_ret. destruct s. apply (HQ true m); [by apply quiet_refl|apply DS|]. intros o Ho. by apply elem_of_nil in Ho. }
  apply (wp_read_entry sb P devs s k ip i n); [done|done|apply Hoffs; left|done|]. intros m' x' Hq' Hrep. cbn [fst snd]. rewrite Z.eqb_refl. cbn [negb].
  destruct (de_inum (entry (k_data k) (addrs i) o) =? 0) eqn:E; cbn [negb]; [|apply wp_ret, HQ; [done|done|]; exists o; split; [left|lia]].
  apply (IH m' (mkFs x' (icache s))); [apply Hq'|by apply (dir_st_rep sb s)|intros; apply Hoffs; by right|].
  intros b m2 x2 Hq2 Hrep2 Hb. apply (HQ b m2 x2); [by eapply quiet_trans|done|]. destruct b.
  - intros o' [->|Ho']%elem_of_cons; [lia|by apply Hb].
  - destruct Hb as (o' & Ho' & Hz). exists o'. split; [by right|done].
Qed.

Lemma elem_drop_offs n o : 0 <= n -> o ∈ drop 2 (dir_offs (DESIZE * n)) <-> o ∈ dir_offs (DESIZE * n) /\ 32 <= o.
Proof.
  intros Hn. unfold dir_offs. replace ((DESIZE * n + DESIZE - 1) / DESIZE) with n by (unfold DESIZE; apply Z.div_unique with 15; lia).
  rewrite <- fmap_drop, drop_seq, !list_elem_of_fmap. split.
  - intros (j & -> & Hj%elem_of_seq). split; [exists j; split; [done|]; apply elem_of_seq; lia|unfold DESIZE; lia].
  - intros [(j & -> & Hj%elem_of_seq) Ho]. exists j. split; [done|]. apply elem_of_seq. unfold DESIZE in *. lia.
Qed.

Lemma at_isdirempty L H A t ip c r Q :
  at_fs L H A t -> H !! ip = Some (c, r) -> ip ∈ L -> nT A c = T_DIR ->
  (forall b t', at_fs L H A t' ->
     (if b : bool then forall o, 32 <= o -> nG A !! (c, o) = None else exists o, 32 <= o /\ nG A !! (c, o) ≠ None) -> Q b t') ->
  wp P (isdirempty sb devs ip) t Q.
Proof.
  intros HA HH HL HT HQ. unfold isdirempty. wp_next. at_open t HA m s k.
  destruct (at_dir L H A m s k ip c r HI HD HC HH HL HT) as (i & n & DS & Hn & H1 & Ha & _).
  apply (wp_iread _ _ _ i); [apply DS|]. rewrite (dr_size _ _ _ _ _ _ DS). pose proof (dr_sz _ _ _ _ _ _ DS) as Hn0.
  apply (wp_isdirempty_loop s k ip i n); [done|done| |].
  { intros o Ho. by eapply (subseteq_drop 2). }
  intros b m' x' Hq' Hrep Hb. apply HQ; [by apply (at_same L H A m m' s k)|].
  assert (forall o, o ∈ drop 2 (dir_offs (DESIZE * n)) <-> o ∈ dir_offs (DESIZE * n) /\ 32 <= o) as Hd by (intros o; by apply elem_drop_offs).
  destruct b.
  - intros o Ho. destruct (nG A !! (c, o)) as [e|] eqn:Ee; [|done]. apply (gr_ent _ _ _ (dk_graph _ _ _ HD)) in Ee as (_ & Hin & <- & Hz).
    rewrite <- Ha in Hz. destruct Hz. apply Hb, Hd. by rewrite <- Hn.
  - destruct Hb as (o & [Hin Ho]%Hd & Hz). exists o. split; [done|]. rewrite Ha in Hz. eapply nG_none; [done|done|by rewrite Hn|done].
Qed.

(** ** ialloc *)

(** Two stores into a block. *)
Lemma fwp_store2 {B} m s k n i f g (K : M (mach * fs X) B) Q :
  msec ∅ m -> b_rep (fblk s) (k_hold n i true k) -> k_held k !! n = None -> 0 <= n < k_size k ->
  ~ (k_lo k <= n < k_hi k) -> length (f (k_get n k)) = Z.to_nat BSIZE -> length (g (f (k_get n k))) = Z.to_nat BSIZE ->
  (forall m' x', quiet ∅ m m' -> b_rep x' (k_upd n (g (f (k_get n k))) k) -> wp P K (m', mkFs x' (icache s)) Q) ->
  wp P (on_blk (b_modify i f);; on_blk (b_modify i g);; on_blk (b_log i);; on_blk (b_rel i);; K) (m, s) Q.
Proof.
  intros Hm HR Hh Hn Hlo Hf Hg HQ. wp_next. apply wp_on_blk.
  apply (wp_b_modify _ _ _ (k_hold n i true k) n i true); [done|cbn; by rewrite lookup_insert_eq|exact Hf|]. intros x1 R1.
  set (k1 := k_put n (f (k_get n k)) k).
  assert (k_get n k1 = f (k_get n k)) as E1 by (unfold k1, k_get, k_put; cbn; rewrite blk_bput by (unfold k_size in *; lia); by rewrite decide_True).
  wp_next. apply wp_on_blk. apply (wp_b_modify _ _ _ (k_hold n i false k1) n i false);
    [|cbn; by rewrite lookup_insert_eq|change (k_get n (k_hold n i false k1)) with (k_get n k1); by rewrite E1|].
  { replace (k_hold n i false k1) with (k_hold n i false (k_put n (f (k_get n k)) (k_hold n i true k))); [exact R1|].
    unfold k1, k_hold, k_put. cbn. by rewrite insert_insert_eq. }
  intros x2 R2. change (k_get n (k_hold n i false k1)) with (k_get n k1) in R2. rewrite E1 in R2.
  wp_next. apply wp_on_blk. eapply wp_b_log; [done|exact R2|cbn; apply lookup_insert_eq|exact Hlo|intros; apply (so_lax (P:=P))|].
  intros m3 x3 Hm3 R3. wp_next. apply wp_on_blk. eapply wp_b_rel; [apply Hm3|exact R3|cbn; apply lookup_insert_eq|].
  intros m4 x4 Hm4 R4. apply HQ; [by eapply quiet_trans|].
  replace (k_upd n (g (f (k_get n k))) k) with
    (k_drop n (k_hold n i true (k_log n (k_hold n i false (k_put n (g (f (k_get n k))) (k_hold n i false k1)))))); [done|].
  unfold k1, k_drop, k_hold, k_log, k_put, k_upd. cbn. rewrite !insert_insert_eq, delete_insert_id by done.
  f_equal. unfold bput. by rewrite list_insert_insert_eq.
Qed.

Lemma wp_ialloc_loop m s k type nums Q :
  msec ∅ m -> fs_idle sb s k -> (forall n, n ∈ nums -> is_inum sb n) ->
  (forall m' x' num, quiet ∅ m m' -> num ∈ nums -> d_type (dinode_of sb (k_data k) num) = 0 -> b_rep x' (k_new sb num type k) ->
     wp P (iget 1 num) (m', mkFs x' (icache s)) Q) ->
  wp P (ialloc_loop sb 1 type nums) (m, s) Q.
Proof.
  intros Hm HI Hnums HQ. revert m s Hm HI HQ. induction nums as [|num nums IH]; intros m s Hm HI HQ; cbn [ialloc_loop]; [by apply wp_panic|].
  pose proof HI as [IR IG IM IH0]. pose proof (Hnums num ltac:(left)) as Hn. destruct (geom_iblock sb k num IG Hn) as (_ & Hr & Hlo & _).
  destruct (no_held sb k (IBLOCK sb num) IH0) as (Hh & H1 & _).
  apply (fwp_open _ _ _ k); [done|done|done|done|done|done|]. intros bp m1 x1 Hm1 R1. apply (fwp_look _ _ _ k (IBLOCK sb num)); [done|].
  change (get_dinode (k_get (IBLOCK sb num) k) (ioff num)) with (dinode_of sb (k_data k) num).
  pose proof (k_get_len k (IBLOCK sb num) ltac:(apply IG) Hr) as Hl. pose proof (ioff_bound num ltac:(apply Hn)) as Hb.
  assert (length (zero_dinode (ioff num) (k_get (IBLOCK sb num) k)) = Z.to_nat BSIZE) as Hzl.
  { unfold zero_dinode. rewrite !length_app, length_take, length_replicate, length_drop. lia. }
  destruct (d_type (dinode_of sb (k_data k) num) =? 0) eqn:E.
  - apply (fwp_store2 m1 (mkFs x1 (icache s)) k (IBLOCK sb num)); [apply Hm1|done|done|done|done|done|by rewrite length_put16|].
    intros m2 x2 Hm2 R2. apply (HQ m2 x2 num); [by eapply quiet_trans|left|lia|done].
  - apply (fwp_close _ _ _ k (IBLOCK sb num)); [apply Hm1|done|done|]. intros m2 x2 Hm2 R2.
    apply IH; [intros; apply Hnums; by right|apply Hm2|by eapply fs_idle_rep|].
    intros m' x' num' Hq' Hin. apply HQ; [do 2 (eapply quiet_trans; [done|]); done|by right].
Qed.

Lemma idle_new s k x' ic num type : fs_idle sb s k -> is_inum sb num -> b_rep x' (k_new sb num type k) ->
  fs_idle sb (mkFs x' ic) (k_new sb num type k).
Proof.
  intros [IR IG IM IH0] Hn Hrep. destruct (geom_iblock sb k num IG Hn) as (Hib1 & Hib2 & Hib3 & Hib4 & Hib5).
  pose proof (geom_order sb k IG) as Hord. constructor; [done| | |].
  - apply geom_upd; [done|]. pose proof (k_get_len k (IBLOCK sb num) ltac:(apply IG) Hib2) as Hl.
    pose proof (ioff_bound num ltac:(apply Hn)) as Hb. rewrite length_put16; unfold zero_dinode;
      rewrite !length_app, length_take, length_replicate, length_drop; lia.
  - intros b Hb. pose proof (g_data _ _ IG). rewrite <- (IM b Hb). apply (used_upd_other sb); [done|lia|lia|lia].
  - eapply same_held; [apply same_blocks_upd|done].
Qed.

(** The inode that [ialloc] returns, locked: not in use before, with no links. *)
Lemma at_ialloc {KS : writes_in KR} L H A t type Q :
  at_fs L H A t -> 0 < type < 32768 ->
  (forall num ip t', 0 < num < sb_ninodes sb -> nT A num = 0 -> H !! ip = None -> ip ∉ L ->
     at_fs ({[ip]} ∪ L) (<[ip := (num, 1)]> H) (mkNs (upd (nT A) num type) (upd (nN A) num 0) (nG A)) t' -> Q ip t') ->
  wp P (ialloc sb 1 type) t (fun ip t1 => wp P (ilock me sb ip) t1 (fun _ t2 => Q ip t2)).
Proof.
  intros HA Hty HQ. at_open t HA m s k. assert (forall n, n ∈ inums sb -> 0 < n < sb_ninodes sb) as Hin.
  { intros n (j & -> & Hj%elem_of_seq)%list_elem_of_fmap. lia. }
  unfold ialloc. apply (wp_ialloc_loop m s k); [done|done| |].
  { intros n Hn%Hin. unfold is_inum. lia. }
  intros m1 x1 num Hq1 Hnum Hdead Hrep. apply Hin in Hnum. assert (is_inum sb num) as Hn by (unfold is_inum; lia).
  assert (nT A num = 0) as HT by (by rewrite <- (dk_T _ _ _ HD), ity_eq).
  pose proof (idle_new s k x1 (icache s) num type HI Hn Hrep) as HI1.
  destruct (disk_new sb k A num type ltac:(apply HI) HD Hn HT Hty) as [HD' Hfresh]. pose proof HC as [].
  assert (forall a r, H !! a ≠ Some (num, r)) as Hnone.
  { intros a r Ha. destruct (cached_at _ _ _ _ _ _ _ _ _ HC Ha) as (x & _ & _ & _ & _ & _ & Hal & _). by rewrite (dk_T _ _ _ HD), HT in Hal. }
  apply wp_iget; [apply Hq1|done| |].
  - intros ip i m' Hq' Hi (Hr & Hdev & Hnum'). destruct (ca_ent ip i Hi) as [He Hl]. destruct (H !! ip) as [[n r]|] eqn:EH; [|lia].
    destruct He as (H1 & H2 & _). destruct (Hnone ip r). congruence.
  - intros ip i m2 Hq2 Hno Hi Hr. cbn [icache fblk] in *. pose proof (ca_ent ip i Hi) as [He Hl].
    destruct (H !! ip) as [[n r]|] eqn:EH; [destruct He as (_ & ? & ? & _); lia|]. destruct He as [_ HL]. rewrite HL in Hl.
    apply bool_decide_eq_false in HL. set (i1 := fresh_entry 1 num i).
    apply (wp_ilock me sb P m2 _ (k_new sb num type k) ip i1); try done; [apply Hq2|by destruct HI1|cbn; by apply (lookup_at _ _ i)|..].
    { intros _. cbn [i_num i1 fresh_entry]. rewrite Hfresh. cbn. lia. }
    intros m3 x3 Hq3 Hrep3 _ i'. apply (HQ num); try done. cbn [icache]. rewrite list_insert_insert_eq.
    split; [do 2 (eapply quiet_trans; [done|]); by eapply quiet_trans|]. exists (k_new sb num type k).
    split_and!; [eapply writes_in_same; [done|apply same_blocks_upd]|by eapply fs_idle_rep|done|]. cbn [snd icache].
    assert (forall j, is_inum sb j -> dinode_of sb (k_data (k_new sb num type k)) j =
      if decide (j = num) then fresh_dinode type else dinode_of sb (k_data k) j) as Hdi by (intros j Hj; apply dinode_new; [apply HI|done|done|lia]).
    apply (cached_upd me sb L _ H _ (k_data k) _ (icache s) ip i i'); try done.
    + intros a Ha. rewrite lookup_insert_ne by done. set_solver.
    + intros a n r Ha Han. assert (n ≠ num) as Hne by (intros ->; by apply (Hnone a r)).
      destruct (cached_at _ _ _ _ _ _ _ _ _ HC Han) as (x & _ & _ & _ & _ & _ & Hal & _). rewrite (dk_T _ _ _ HD'). cbn [nT]. unfold upd.
      rewrite decide_False by done. rewrite <- (dk_T _ _ _ HD). split; [done|]. rewrite Hdi by (by eapply ity_inum). by rewrite decide_False.
    + rewrite lookup_insert_eq, bool_decide_true by set_solver. split; [|by change ((1 ≠ 0 /\ me = me) /\ 1 ≠ 0)].
      cbn. split_and!; try done. rewrite (dk_T _ _ _ HD'). cbn. unfold upd. rewrite decide_True by done. lia.
    + intros n r a r'. rewrite lookup_insert_eq. intros [= <- <-] Ha. by destruct (Hnone a r').
    + intros j Hj1 Hj2. rewrite lookup_insert_eq. destruct (decide (j = num)) as [->|Hne]; [left; by exists 1|]. right.
      rewrite (dk_T _ _ _ HD') in Hj1. rewrite (dk_N _ _ _ HD') in Hj2. cbn [nT nN] in *. unfold upd in *. rewrite decide_False in Hj1, Hj2 by done.
      rewrite (dk_T _ _ _ HD), (dk_N _ _ _ HD), EH. done.
Qed.

End ops.
