(* ===== verification/FsTree.v ===== *)
(** * Paths, and system calls on name spaces

    [walk] is what a path means in a name space: the inode it names, or the directory
    of its last element.  [namex] finds it, leaves the caller one reference to it and
    gives back all the others.

    Then what link, unlink and the creation of files and directories mean for a name
    space, and that each leaves a tree ([tree_ok]): every directory but the root has one
    name, its [.] and [..] are right, and link counts are the numbers of names. *)

From stdpp Require Import base numbers gmap sets list strings.
From S2P Require Import Prelude CString Spinlock Sleeplock Bio BioRing BioSpec.
From S2P Require Import Log LogSpec Fs FsBlock FsAlloc FsFile FsInode FsDinode FsRW FsTrunc FsIcache FsDir.
From S2P Require Import SysFile FsNames FsCheck FsCache FsOps.
Open Scope Z_scope.

Fixpoint walk (fuel : nat) (A : ns) (d : Z) (path : list Z) (parent : bool) (name : list Z) : option Z * list Z :=
  match fuel with
  | O => (None, name)
  | S fuel =>
      match skipelem path name with
      | None => (if parent then None else Some d, name)
      | Some (path, name) =>
          if negb (nT A d =? T_DIR) then (None, name) else
          if parent && bool_decide (path = []) then (Some d, name) else
          match nfind (nG A) d name with
          | None => (None, name)
          | Some (v, _) => walk fuel A v path parent name
          end
      end
  end.

(** Where a path starts. *)
Definition start (c : Z) (path : list Z) : Z :=
  match path with
  | x :: _ => if x =? SLASH then ROOTINO else c
  | [] => c
  end.

(** The meaning of a path for a process in the directory [c]. *)
Definition resolve (A : ns) (c : Z) (path : list Z) (parent : bool) (name : list Z) : option Z * list Z :=
  walk (S (length path)) A (start c path) path parent name.

(** ** Each turn takes an element off the path *)

Lemma skip_slashes_le path : (length (skip_slashes path) <= length path)%nat.
Proof. induction path as [|c path IH]; cbn; [done|]. destruct (c =? SLASH); cbn; lia. Qed.

Lemma skip_slashes_head path c rest : skip_slashes path = c :: rest -> c ≠ SLASH.
Proof. induction path as [|x path IH]; cbn; [done|]. destruct (x =? SLASH) eqn:E; [done|]. intros [= <- <-]. lia. Qed.

Lemma take_elem_le path : (length (take_elem path).2 <= length path)%nat.
Proof.
  induction path as [|c path IH]; cbn; [done|]. destruct (c =? SLASH); cbn; [lia|]. destruct (take_elem path). cbn in *. lia.
Qed.

Lemma skipelem_shorter path name path' name' : skipelem path name = Some (path', name') -> (length path' < length path)%nat.
Proof.
  unfold skipelem. pose proof (skip_slashes_le path) as H1. destruct (skip_slashes path) as [|c rest] eqn:E; [done|].
  apply skip_slashes_head in E. cbn [take_elem]. rewrite (proj2 (Z.eqb_neq _ _) E). pose proof (take_elem_le rest) as H2.
  destruct (take_elem rest) as [e r]. cbn in *. pose proof (skip_slashes_le r). destruct (DIRSIZ <=? S (length e))%nat; intros [= <- _]; lia.
Qed.

(** More fuel than the path is long changes nothing. *)
Lemma walk_fuel f f' A d path parent name : (length path < f)%nat -> (length path < f')%nat ->
  walk f A d path parent name = walk f' A d path parent name.
Proof.
  revert f' d path name. induction f as [|f IH]; intros f' d path name Hf Hf'; [lia|]. destruct f' as [|f']; [lia|]. cbn [walk].
  destruct (skipelem path name) as [[path' name']|] eqn:E; [|done]. apply skipelem_shorter in E.
  destruct (negb (nT A d =? T_DIR)), (parent && bool_decide (path' = [])); try done.
  destruct (nfind (nG A) d name') as [[v o]|]; [|done]. apply IH; lia.
Qed.

(** ** Inodes with a name have links *)

Lemma names_linked Y ex T N G d o j : names_ok Y ex T N G -> (forall i, 0 <= ex i) -> G !! (d, o) = Some j -> o ≠ 0 -> 0 < N j.
Proof.
  intros [] Hex E Ho. destruct (nk_live _ _ _ E) as [_ Hj]. rewrite nk_links by done. specialize (Hex j).
  rewrite (links_delete _ _ _ _ j E). unfold counts. rewrite bool_decide_true by done. lia.
Qed.

Lemma names_dir_linked Y ex T N G d : names_ok Y ex T N G -> (forall i, 0 <= ex i) -> T d = T_DIR -> d ∉ Y -> 0 < N d.
Proof.
  intros NK Hex Hd HY. pose proof NK as []. destruct (decide (d = ROOTINO)) as [->|HR].
  - destruct nk_root as (_ & _ & E). by eapply names_linked.
  - destruct (nk_dots d Hd HY) as [_ H16]. destruct (G !! (d, 16)) as [p|] eqn:E; [|done].
    destruct (nk_parent d p Hd HY HR E) as (o & Ho & E'). eapply names_linked; [done|done|done|lia].
Qed.

Lemma ent_graph O A d o e : d ∉ O -> nG A !! (d, o) = Some e -> (de_inum <$> attached O (nG A)) !! (d, o) = Some (de_inum e).
Proof. intros Hd E. by rewrite lookup_fmap, attached_other, E. Qed.

Lemma fmap_none (O : gset Z) (G : entries) (d o : Z) : G !! (d, o) = None -> (de_inum <$> attached O G) !! (d, o) = None.
Proof. intros E. by rewrite lookup_fmap, attached_none. Qed.

(** Directories with links are in the tree. *)
Lemma linked_in O Y ex A d : tree_ok O Y ex A -> 0 < nN A d -> d ∉ O.
Proof. intros (_ & _ & HO) HN Hd. destruct (HO d Hd) as (_ & ? & _). lia. Qed.

Lemma not_dir_in O Y ex A j : tree_ok O Y ex A -> nT A j ≠ T_DIR -> j ∉ O.
Proof. intros (_ & _ & HO) HN Hj. by destruct (HO j Hj) as (? & _). Qed.

Section tree.
Context (O : gset Z) (ex : Z -> Z) (Hex : forall i, 0 <= ex i) (A : ns) (HT : tree_ok O ∅ ex A).

Lemma tree_names : names_ok O ex (nT A) (nN A) (de_inum <$> attached O (nG A)).
Proof. destruct HT as [NK _]. by rewrite union_empty_l_L in NK. Qed.

Lemma tree_live d o e : 0 < nN A d -> nG A !! (d, o) = Some e -> nT A (de_inum e) ≠ 0.
Proof.
  intros HN E. pose proof (ent_graph O A d o e (linked_in _ _ _ _ _ HT HN) E) as E'. apply (nk_live _ _ _ _ _ tree_names _ _ _ E').
Qed.

Lemma tree_dir_linked d : nT A d = T_DIR -> d ∉ O -> 0 < nN A d.
Proof. intros Hd HO. eapply names_dir_linked; [apply tree_names|done|done|done]. Qed.

Lemma tree_linked d o e : 0 < nN A d -> nG A !! (d, o) = Some e -> 0 < nN A (de_inum e).
Proof.
  intros HN E. pose proof (ent_graph O A d o e (linked_in _ _ _ _ _ HT HN) E) as E'. destruct (decide (o = 0)) as [->|Ho].
  - by rewrite (nk_self _ _ _ _ _ tree_names _ _ E').
  - by eapply names_linked; [apply tree_names|..].
Qed.

Lemma nfind_linked d name v o : 0 < nN A d -> nfind (nG A) d name = Some (v, o) -> nT A v ≠ 0 /\ 0 < nN A v.
Proof.
  intros HN (e & He & <- & _)%nfind_some. split; [by eapply tree_live|by eapply tree_linked].
Qed.

Lemma tree_root : nT A ROOTINO = T_DIR.
Proof. apply (nk_root _ _ _ _ _ tree_names). Qed.

Lemma root_linked : 0 < nN A ROOTINO.
Proof. apply tree_dir_linked; apply (nk_root _ _ _ _ _ tree_names). Qed.

End tree.

(** ** namex *)

Lemma only_lock (ip : nat) : ({[ip]} ∪ ∅) ∖ {[ip]} = (∅ : gset nat).
Proof. set_solver. Qed.

Section path.
Context {X : Type} `{BW : BlockLaws X} (me : Z) (sb : superblock) (devs : Z -> @devsw X).
Context (P : failure -> Prop) {SO : short_of P} (m0 : mach) (KR : blks -> Prop).
#[local] Hint Extern 0 (P (FPanic _)) => first [apply so_iget | apply so_ialloc | apply so_dirlink] : core.

Notation at_fs := (at_fs me sb m0 KR).

(** What the caller gets. *)
Definition found (H : refs) (A : ns) (r : option Z * list Z) (Q : option nat * list Z -> mach * fs X -> Prop) : Prop :=
  match r with
  | (None, name) => forall t', at_fs ∅ H A t' -> Q (None, name) t'
  | (Some v, name) => forall t' ip H', got H v ip H' -> at_fs ∅ H' A t' -> Q (Some ip, name) t'
  end.

Context (O : gset Z) (ex : Z -> Z) (Hex : forall i, 0 <= ex i) (H : refs) (A : ns) (HT : tree_ok O ∅ ex A) (HP : refs_pos H).

Lemma at_namex_loop fuel num ip H1 path parent name t Q :
  at_fs ∅ H1 A t -> got H num ip H1 -> 0 < nN A num -> (length path < fuel)%nat ->
  found H A (walk fuel A num path parent name) Q ->
  wp P (namex_loop me sb devs fuel ip path parent name) t Q.
Proof.
  revert num ip H1 path name t. induction fuel as [|fuel IH]; intros num ip H1 path name t HA Hg HN Hf HQ; [lia|]. cbn [namex_loop walk] in *.
  destruct (got_at _ _ _ _ Hg) as [r Hr]. destruct (skipelem path name) as [[path' name']|] eqn:Esk.
  - wp_next. call at_ilock; [done|done|set_solver|]. intros t1 HA1. wp_next. call at_read; [done|done|].
    intros i _ _ _ Hal Hloc. rewrite (proj1 (Hloc ltac:(set_solver))). destruct (negb (nT A num =? T_DIR)) eqn:Ety.
    { wp_next. call at_iunlockput_named; [done|done|set_solver|done|]. intros t2 HA2. rewrite only_lock, (got_unref H num ip) in HA2 by done.
      by apply wp_ret, HQ. }
    destruct (parent && bool_decide (path' = [])) eqn:Epar.
    { wp_next. call at_iunlock; [done|done|set_solver|]. intros t2 HA2. rewrite only_lock in HA2. apply wp_ret. by eapply HQ. }
    wp_next. call at_dirlookup; [done|done|set_solver|lia|intros o e; by eapply tree_live| |].
    + intros t2 Hno HA2. rewrite Hno in HQ. wp_next. call at_iunlockput_named; [done|done|set_solver|done|].
      intros t3 HA3. rewrite only_lock, (got_unref H num ip) in HA3 by done. by apply wp_ret, HQ.
    + intros t2 v off next H2 Hfd Hg2 HA2. rewrite Hfd in HQ. assert (exists r2, H2 !! ip = Some (num, r2)) as [r2 Hr2].
      { destruct Hg2 as [(r0 & H0 & ->)|(H0 & _ & ->)]; (destruct (decide (next = ip)) as [->|]; [|rewrite lookup_insert_ne by done; eauto]).
        - rewrite Hr in H0. injection H0 as <- <-. rewrite lookup_insert_eq. eauto.
        - congruence. }
      wp_next. call at_iunlockput_named; [done|done|set_solver|done|]. intros t3 HA3. rewrite only_lock in HA3.
      apply skipelem_shorter in Esk. eapply (IH v next); [done|by eapply got_move| |lia|done]. eapply (nfind_linked O ex Hex A HT num); done.
  - destruct parent.
    + wp_next. call at_iput_keep; [done|done|set_solver|right; lia|].
      intros t1 HA1. rewrite (got_unref H num ip) in HA1 by done. by apply wp_ret, HQ.
    + apply wp_ret. by eapply HQ.
Qed.

Lemma at_namex cwd c rc path parent name t Q :
  at_fs ∅ H A t -> H !! cwd = Some (c, rc) -> 0 < nN A (start c path) ->
  found H A (resolve A c path parent name) Q ->
  wp P (namex me sb devs cwd path parent name) t Q.
Proof.
  intros HA Hc HTc HQ. unfold namex, resolve in *. wp_next.
  assert (wp P (idup cwd) t (fun ip t1 => exists H1, got H c ip H1 /\ at_fs ∅ H1 A t1)) as Hdup.
  { call at_idup; [done|done|]. intros t' HA'. eexists. split; [|done]. left. by exists rc. }
  assert (wp P (iget 1 ROOTINO) t (fun ip t1 => exists H1, got H ROOTINO ip H1 /\ at_fs ∅ H1 A t1)) as Hroot.
  { call at_iget; [done|by rewrite (tree_root O ex A HT)|]. eauto. }
  assert (forall num ip t1 pth, 0 < nN A num -> (exists H1, got H num ip H1 /\ at_fs ∅ H1 A t1) ->
    found H A (walk (S (length pth)) A num pth parent name) Q -> wp P (namex_loop me sb devs (S (length pth)) ip pth parent name) t1 Q) as Hgo.
  { intros num ip t1 pth Hnum (H1 & Hg & HA1) HQ1. eapply at_namex_loop; [done|done|done|lia|done]. }
  destruct path as [|x path]; cbn [start] in *.
  - eapply wp_mono; [exact Hdup|]. intros ip t1 HA1. apply (Hgo c ip t1 []); auto.
  - destruct (x =? SLASH).
    + eapply wp_mono; [exact Hroot|]. intros ip t1 HA1. apply (Hgo ROOTINO ip t1 (x :: path)); auto.
    + eapply wp_mono; [exact Hdup|]. intros ip t1 HA1. apply (Hgo c ip t1 (x :: path)); auto.
Qed.

End path.

Definition no_surplus : Z -> Z := fun _ => 0.

(** ** The names of the first two entries *)

Lemma strncmp_loop_ext p q q' n i : (forall j, q j = q' j) -> KString.strncmp_loop p q n i = KString.strncmp_loop p q' n i.
Proof. intros E. revert i. induction n as [|n IH]; intros i; cbn; [done|]. by rewrite E, IH. Qed.

Lemma dot_name inum old : length old = 16%nat -> de_name (new_entry DOT inum old) = DOT ++ replicate 13 0.
Proof. intros H. do 17 (destruct old as [|? old]; [try done|]); done. Qed.

Lemma dotdot_name inum old : length old = 16%nat -> de_name (new_entry DOTDOT inum old) = DOTDOT ++ replicate 12 0.
Proof. intros H. do 17 (destruct old as [|? old]; [try done|]); done. Qed.

Lemma cbytes_zeros l n j : cbytes (l ++ replicate n 0) j = cbytes l j.
Proof.
  unfold cbytes. destruct (decide (j < length l)%nat); [by rewrite lookup_app_l by lia|]. rewrite lookup_app_r, (lookup_ge_None_2 l) by lia.
  destruct (replicate n 0 !! (j - length l)%nat) eqn:E; [|done]. by apply lookup_replicate_1 in E as [-> _].
Qed.

Lemma names_dot_entry name inum old : length old = 16%nat ->
  (names name (new_entry DOT inum old) = true -> namecmp name DOT = 0) /\
  (names name (new_entry DOTDOT inum old) = true -> namecmp name DOTDOT = 0).
Proof.
  intros H. unfold names. rewrite dot_name, dotdot_name by done. unfold namecmp, KString.strncmp.
  split; intros E%Z.eqb_eq; rewrite <- E; symmetry; apply strncmp_loop_ext, cbytes_zeros.
Qed.

Lemma dots_insert G d o e : dots_named G ->
  (o = 0 -> forall name, names name e = true -> namecmp name DOT = 0) ->
  (o = 16 -> forall name, names name e = true -> namecmp name DOTDOT = 0) -> dots_named (<[(d, o) := e]> G).
Proof.
  intros HG H0 H16 d' e' name. destruct (HG d' e' name) as [H1 H2].
  split; intros [[[= _ Eo] <-]|[_ E]]%lookup_insert_Some Hn; [apply (H0 Eo name Hn)|by apply H1|apply (H16 Eo name Hn)|by apply H2].
Qed.

Lemma dots_sub G G' : dots_named G -> (forall d o e, G' !! (d, o) = Some e -> G !! (d, o) = Some e) -> dots_named G'.
Proof. intros HG Hs d e name. destruct (HG d e name) as [H1 H2]. split; intros E%Hs; eauto. Qed.

Lemma drop_dir_sub {A} (c : Z) (G : gmap (Z * Z) A) d o e : drop_dir c G !! (d, o) = Some e -> G !! (d, o) = Some e.
Proof. intros [E _]%map_lookup_filter_Some. done. Qed.

Lemma drop_dir_fmap {A B} (f : A -> B) (c : Z) (G : gmap (Z * Z) A) : f <$> drop_dir c G = drop_dir c (f <$> G).
Proof.
  apply map_eq. intros [d o]. rewrite lookup_fmap. destruct (decide (d = c)) as [->|Hne]; [by rewrite !drop_dir_same|].
  by rewrite !drop_dir_other, lookup_fmap by done.
Qed.

(** ** Operations *)

(** A link count changed. *)
Definition relink (A : ns) (j n : Z) : ns := mkNs (nT A) (bump (nN A) j n) (nG A).

Definition add_entry (A : ns) (d o : Z) (e : list Z) : ns := mkNs (nT A) (nN A) (<[(d, o) := e]> (nG A)).

Definition del_entry (A : ns) (d o : Z) : ns := mkNs (nT A) (nN A) (delete (d, o) (nG A)).

(** An inode allocated, and freed. *)
Definition new_inode (A : ns) (j t : Z) : ns := mkNs (upd (nT A) j t) (upd (nN A) j 0) (nG A).

Definition free_inode (A : ns) (j : Z) : ns := mkNs (upd (nT A) j 0) (nN A) (drop_dir j (nG A)).

Lemma tree_ext O Y ex ex' A A' : (forall j, ex j = ex' j) -> (forall j, nT A j = nT A' j) -> (forall j, nN A j = nN A' j) -> nG A = nG A' ->
  tree_ok O Y ex A -> tree_ok O Y ex' A'.
Proof.
  intros H1 H2 H3 H4 (NK & HD & HO). rewrite H4 in *. split_and!; [by eapply names_ext|done|].
  intros c Hc. rewrite <- H2, <- H3, <- H4. by apply HO.
Qed.

Lemma tree_relink O Y ex A j n : tree_ok O Y ex A -> j ∉ O -> tree_ok O Y (bump ex j n) (relink A j n).
Proof.
  intros (NK & HD & HO) Hj. split_and!; [by apply names_nlink|done|]. intros c Hc. cbn [nT nN nG relink]. unfold bump.
  rewrite decide_False by (by intros ->). by apply HO.
Qed.

Lemma orphans_insert O A d o e : orphans_ok O A -> d ∉ O -> orphans_ok O (add_entry A d o e).
Proof. intros HO Hd c Hc. destruct (HO c Hc) as (? & ? & ?). split_and!; [done..|]. intros o' Ho'. cbn. rewrite lookup_insert_ne; [auto|]. by intros [= ->]. Qed.

(** A name for a file. *)
Lemma tree_name O Y ex A d o e : tree_ok O Y ex A -> d ∉ O -> nG A !! (d, o) = None -> 32 <= o -> nT A d = T_DIR ->
  nT A (de_inum e) ≠ 0 -> nT A (de_inum e) ≠ T_DIR -> tree_ok O Y (bump ex (de_inum e) (-1)) (add_entry A d o e).
Proof.
  intros (NK & HD & HO) HdO Hn Ho Hd H1 H2. split_and!; [| |by apply orphans_insert]; cbn [nT nN nG add_entry]; rewrite attached_insert by done.
  - rewrite fmap_insert. apply names_link; [done|by apply fmap_none|done|done|done|done].
  - apply dots_insert; [done|lia|lia].
Qed.

Lemma tree_link O A d o e : tree_ok O ∅ no_surplus A -> d ∉ O -> nG A !! (d, o) = None -> 32 <= o -> nT A d = T_DIR ->
  nT A (de_inum e) ≠ 0 -> nT A (de_inum e) ≠ T_DIR -> tree_ok O ∅ no_surplus (add_entry (relink A (de_inum e) 1) d o e).
Proof.
  intros HT HdO Hn Ho Hd H1 H2. pose proof (not_dir_in _ _ _ _ _ HT H2).
  eapply (tree_ext _ _ (bump (bump no_surplus (de_inum e) 1) (de_inum e) (-1))); [..|apply (tree_name O ∅); [by apply tree_relink|..]]; try done.
  intros i. unfold bump, no_surplus. by destruct (decide _).
Qed.

Lemma no_entry O Y ex A j o : tree_ok O Y ex A -> nT A j = 0 -> nG A !! (j, o) = None.
Proof.
  intros HT Hj. pose proof (not_dir_in _ _ _ _ j HT ltac:(by rewrite Hj)) as HjO. destruct HT as [NK _].
  destruct (nG A !! (j, o)) as [e|] eqn:E; [|done]. apply (ent_graph O) in E; [|done]. destruct (nk_live _ _ _ _ _ NK _ _ _ E) as [Hd _].
  by rewrite Hj in Hd.
Qed.

Lemma tree_new_inode O A j t : tree_ok O ∅ no_surplus A -> nT A j = 0 -> t ≠ 0 ->
  tree_ok O (if decide (t = T_DIR) then {[j]} else ∅) (bump no_surplus j 1) (relink (new_inode A j t) j 1).
Proof.
  intros HT Hj Ht. pose proof (not_dir_in _ _ _ _ j HT ltac:(by rewrite Hj)) as HjO. pose proof (tree_names _ _ _ HT) as NK. destruct HT as (_ & HD & HO).
  pose proof (names_new O no_surplus (nT A) (nN A) _ j t 0 NK Hj Ht) as NK'.
  eapply (tree_ext _ _ (bump (upd no_surplus j 0) j 1)); [..|apply (tree_relink _ _ _ (new_inode A j t)); [split_and!; [|exact HD|]|done]]; try done.
  - intros i. unfold bump, upd, no_surplus. by destruct (decide (i = j)).
  - destruct (decide (t = T_DIR)); [exact NK'|by rewrite union_empty_l_L].
  - intros c Hc. cbn [nT nN nG new_inode]. unfold upd. rewrite !decide_False by (by intros ->). by apply HO.
Qed.

(** A file or a device created. *)
Lemma tree_make O A d o e t : tree_ok O ∅ no_surplus A -> d ∉ O -> nT A (de_inum e) = 0 -> t ≠ 0 -> t ≠ T_DIR -> nT A d = T_DIR ->
  nG A !! (d, o) = None -> 32 <= o -> tree_ok O ∅ no_surplus (add_entry (relink (new_inode A (de_inum e) t) (de_inum e) 1) d o e).
Proof.
  intros HT HdO Hj Ht Htd Hd Hn Ho. assert (d ≠ de_inum e) as Hne by (intros ->; by rewrite Hj in Hd).
  pose proof (tree_new_inode O A _ t HT Hj Ht) as H1. rewrite decide_False in H1 by done.
  assert (upd (nT A) (de_inum e) t (de_inum e) = t /\ upd (nT A) (de_inum e) t d = T_DIR) as [Tj Td] by (unfold upd; by rewrite decide_True, decide_False by done).
  apply (tree_name _ _ _ _ d o e) in H1; cbn [nT relink new_inode]; rewrite ?Tj; try done.
  eapply tree_ext; [..|exact H1]; try done. intros i. unfold bump, no_surplus. by destruct (decide _).
Qed.

(** A directory created, with its first two entries. *)
Definition mkdir_ns (A : ns) (d o : Z) (e e0 e1 : list Z) : ns :=
  let c := de_inum e in
  add_entry (add_entry (add_entry (relink (relink (new_inode A c T_DIR) c 1) d 1) c 0 e0) c 16 e1) d o e.

Lemma tree_mkdir O A d o e e0 e1 : tree_ok O ∅ no_surplus A -> d ∉ O -> nT A (de_inum e) = 0 -> nT A d = T_DIR ->
  nG A !! (d, o) = None -> 32 <= o -> de_inum e0 = de_inum e -> de_inum e1 = d ->
  (forall name, names name e0 = true -> namecmp name DOT = 0) -> (forall name, names name e1 = true -> namecmp name DOTDOT = 0) ->
  tree_ok O ∅ no_surplus (mkdir_ns A d o e e0 e1).
Proof.
  intros HT HdO Hj Hd Hn Ho E0 E1 N0 N1. set (c := de_inum e) in *. assert (d ≠ c) as Hne by (intros ->; by rewrite Hj in Hd).
  pose proof (no_entry _ _ _ _ c 0 HT Hj) as G0. pose proof (no_entry _ _ _ _ c 16 HT Hj) as G16.
  assert (c ∉ O) as HcO by (apply (not_dir_in _ _ _ _ c HT); by rewrite Hj).
  assert (c ≠ ROOTINO) as HR. { intros E. pose proof (tree_root _ _ _ HT) as H1. rewrite <- E in H1. by rewrite Hj in H1. }
  pose proof (tree_relink _ _ _ _ d 1 (tree_new_inode O A c T_DIR HT Hj ltac:(done)) HdO) as (NK & HD & HO).
  change (if decide (T_DIR = T_DIR) then {[c]} else ∅) with ({[c]} : gset Z) in NK.
  assert (upd (nT A) c T_DIR c = T_DIR /\ upd (nT A) c T_DIR d = T_DIR) as [Tc Td] by (unfold upd; by rewrite decide_True, decide_False by done).
  split_and!; cbn [nT nN nG mkdir_ns add_entry relink new_inode] in *; fold c; rewrite ?attached_insert by done.
  - rewrite union_empty_l_L, !fmap_insert, E0, E1. fold c. apply (names_dot _ _ _ _ _ c) in NK; [|set_solver|done|by apply fmap_none].
    apply (names_dotdot _ _ _ _ _ c d) in NK; [|set_solver|done|done|rewrite lookup_insert_ne by (intros [=]); by apply fmap_none].
    apply (names_mkdir O _ _ _ _ d o c) in NK;
      [|rewrite !lookup_insert_ne by congruence; by apply fmap_none|done|done|done|rewrite lookup_insert_ne by (intros [=]); by rewrite lookup_insert_eq
       |by rewrite lookup_insert_eq|done|congruence|done].
    eapply names_ext; [..|exact NK]; try done. intros i. unfold bump, no_surplus. destruct (decide (i = c)), (decide (i = d)); lia || congruence.
  - do 3 (apply dots_insert; [|intros ?; try done; try lia|intros ?; try done; try lia]). done.
  - unfold mkdir_ns. do 3 (apply orphans_insert; [|done]). exact HO.
Qed.

(** ** unlink *)

Definition unlink_ns (A : ns) (d o j : Z) : ns := relink (del_entry A d o) j (-1).

Lemma tree_del O Y ex A d o e : tree_ok O Y ex A -> d ∉ O -> nG A !! (d, o) = Some e -> 32 <= o ->
  tree_ok O (if decide (nT A (de_inum e) = T_DIR) then {[de_inum e]} ∪ Y else Y) (bump ex (de_inum e) 1) (del_entry A d o).
Proof.
  intros (NK & HD & HO) HdO E Ho. split_and!.
  - cbn [nT nN nG del_entry]. rewrite attached_delete, fmap_delete. pose proof (names_unlink _ _ _ _ _ d o _ NK (ent_graph _ _ _ _ _ HdO E) Ho) as H.
    destruct (decide (nT A (de_inum e) = T_DIR)); [by rewrite <- union_assoc_L|done].
  - eapply dots_sub; [done|]. cbn [nG del_entry]. rewrite attached_delete. intros d' o' e' [_ E']%lookup_delete_Some. done.
  - intros c Hc. destruct (HO c Hc) as (? & ? & Hn). split_and!; [done..|]. intros o' Ho'. apply lookup_delete_None. right. auto.
Qed.

Lemma tree_unlink O A d o e : tree_ok O ∅ no_surplus A -> d ∉ O -> nG A !! (d, o) = Some e -> 32 <= o -> nT A (de_inum e) ≠ T_DIR ->
  tree_ok O ∅ no_surplus (unlink_ns A d o (de_inum e)).
Proof.
  intros HT HdO E Ho Hj. pose proof (tree_del _ _ _ _ _ _ _ HT HdO E Ho) as H1. rewrite decide_False in H1 by done.
  apply (tree_relink _ _ _ _ (de_inum e) (-1)) in H1; [|by eapply not_dir_in]. eapply tree_ext; [..|exact H1]; try done.
  intros i. unfold bump, no_surplus. by destruct (decide _).
Qed.

Lemma tree_free O Y ex A j : tree_ok O Y ex A -> nT A j ≠ 0 -> nT A j ≠ T_DIR -> nN A j = 0 -> ex j = 0 -> tree_ok O Y ex (free_inode A j).
Proof.
  intros HT Hj Hjd HN Hex. pose proof (not_dir_in _ _ _ _ j HT Hjd) as HjO. destruct HT as (NK & HD & HO).
  assert (drop_dir j (nG A) = nG A) as ED.
  { apply map_eq. intros [d o]. destruct (decide (d = j)) as [->|Hne]; [|by apply drop_dir_other]. rewrite drop_dir_same.
    destruct (nG A !! (j, o)) as [e|] eqn:E; [|done]. apply (ent_graph O) in E; [|done]. by destruct (nk_live _ _ _ _ _ NK _ _ _ E) as [? _]. }
  split_and!; cbn [nT nN nG free_inode]; rewrite ?ED; [|done|].
  - apply names_free; [done| |done]. pose proof (nk_links _ _ _ _ _ NK j Hj). lia.
  - intros c Hc. cbn [nT nN nG free_inode]. unfold upd. rewrite decide_False by (by intros ->). rewrite ED. by apply HO.
Qed.

(** The parent of a directory. *)
Lemma child_up O A d o e : tree_ok O ∅ no_surplus A -> d ∉ O -> nG A !! (d, o) = Some e -> 32 <= o -> nT A (de_inum e) = T_DIR ->
  de_inum e ∉ O /\ de_inum e ≠ d /\ de_inum e ≠ ROOTINO /\ nT A d = T_DIR /\ (de_inum <$> attached O (nG A)) !! (de_inum e, 16) = Some d /\
  (de_inum <$> attached O (nG A)) !! (de_inum e, 0) = Some (de_inum e).
Proof.
  intros HT HdO E Ho Hj. pose proof (tree_names _ _ _ HT) as NK. apply (ent_graph O) in E; [|done].
  destruct (nk_child _ _ _ _ _ NK _ _ _ E Ho Hj) as (? & ? & ? & ?).
  destruct (nk_live _ _ _ _ _ NK _ _ _ E) as [? _]. split_and!; try done. by apply (nk_dots _ _ _ _ _ NK).
Qed.

(** A directory with a directory in it has two links. *)
Lemma parent_links O A d o e : tree_ok O ∅ no_surplus A -> d ∉ O -> nG A !! (d, o) = Some e -> 32 <= o -> nT A (de_inum e) = T_DIR -> 2 <= nN A d.
Proof.
  intros HT HdO E Ho Hj. destruct (child_up _ _ _ _ _ HT HdO E Ho Hj) as (_ & Hcd & HR & Hd & H16 & _). pose proof (tree_names _ _ _ HT) as NK.
  assert (exists p o', o' ≠ 0 /\ (de_inum e, 16) ≠ (p, o') /\ (de_inum <$> attached O (nG A)) !! (p, o') = Some d) as (p & o' & Ho' & Hp & Ep).
  { destruct (decide (d = ROOTINO)) as [->|Hdr]; [exists ROOTINO, 16; split_and!; [done|congruence|apply (nk_root _ _ _ _ _ NK)]|].
    destruct (nk_dots _ _ _ _ _ NK d Hd HdO) as [_ Hup]. destruct ((de_inum <$> attached O (nG A)) !! (d, 16)) as [p|] eqn:Eup; [|done].
    destruct (nk_parent _ _ _ _ _ NK d p Hd HdO Hdr Eup) as (o' & Ho' & Eo'). exists p, o'. split_and!; [lia| |done].
    intros [=]. lia. }
  rewrite (nk_links _ _ _ _ _ NK d) by (by rewrite Hd). unfold no_surplus. rewrite (links_delete _ _ _ _ d H16).
  rewrite (links_delete (delete _ _) p o' d d) by (by rewrite lookup_delete_ne).
  unfold counts. rewrite !bool_decide_true by done. lia.
Qed.

(** An empty directory removed: it is out of the tree, and if it is not in use, it is freed. *)
Definition orphan_ns (A : ns) (d o c : Z) : ns := relink (relink (del_entry A d o) d (-1)) c (-1).

Definition rmdir_ns (A : ns) (d o c : Z) : ns := free_inode (orphan_ns A d o c) c.

Lemma tree_orphan O A d o e : tree_ok O ∅ no_surplus A -> d ∉ O -> nG A !! (d, o) = Some e -> 32 <= o -> nT A (de_inum e) = T_DIR ->
  (forall o', 32 <= o' -> nG A !! (de_inum e, o') = None) ->
  nN A (de_inum e) = 1 /\ tree_ok ({[de_inum e]} ∪ O) ∅ no_surplus (orphan_ns A d o (de_inum e)).
Proof.
  intros HT HdO E Ho Hj He. destruct (child_up _ _ _ _ _ HT HdO E Ho Hj) as (HcO & Hcd & HR & Hd & H16 & H0). set (c := de_inum e) in *.
  pose proof (tree_names _ _ _ HT) as NK. pose proof (ent_graph _ _ _ _ _ HdO E) as EG. fold c in EG.
  assert (links (de_inum <$> attached O (nG A)) c = 1%nat) as Hl.
  { eapply links_empty; [exact NK| |exact EG|done|done|intros; by apply fmap_none, He]. intros d' o' v. rewrite lookup_fmap_Some.
    by intros (x & _ & [_ ?]%attached_some). }
  assert (nN A c = 1) as HN by (rewrite (nk_links _ _ _ _ _ NK c), Hl by (by rewrite Hj); done). split; [done|].
  pose proof (tree_del _ _ _ _ _ _ _ HT HdO E Ho) as H1. fold c in H1. rewrite decide_True in H1 by done.
  apply (tree_relink _ _ _ _ d (-1)), (tree_relink _ _ _ _ c (-1)) in H1; [|done|done]. destruct H1 as (NK1 & HD1 & HO1).
  cbn [nT nN nG relink del_entry] in *. rewrite union_empty_r_L, attached_delete, fmap_delete in NK1.
  apply (names_detach _ _ _ _ _ c d) in NK1; try done.
  - split_and!; cbn [nT nN nG orphan_ns relink del_entry].
    + rewrite union_empty_l_L, attached_add, drop_dir_fmap, attached_delete, fmap_delete.
      eapply names_ext; [..|exact NK1]; try done. intros i. unfold bump, no_surplus. destruct (decide (i = c)), (decide (i = d)); lia || congruence.
    + rewrite attached_add. eapply dots_sub; [exact HD1|]. apply drop_dir_sub.
    + intros c' [->%elem_of_singleton|Hc']%elem_of_union; [|by apply HO1]. cbn [nT nN nG orphan_ns relink del_entry]. unfold bump.
      rewrite decide_True, decide_False by done. split_and!; [done|lia|]. intros o' Ho'. apply lookup_delete_None. right. by apply He.
  - pose proof (links_delete _ _ _ _ c EG) as H2. unfold counts in H2. rewrite bool_decide_true in H2 by (split; [lia|done]). lia.
  - rewrite lookup_delete_ne; [done|congruence].
  - rewrite lookup_delete_ne; [done|congruence].
  - intros o' Ho'. apply lookup_delete_None. right. by apply fmap_none, He.
Qed.

(** A removed directory freed. *)
Lemma tree_free_dir O A c : tree_ok O ∅ no_surplus A -> c ∈ O -> tree_ok (O ∖ {[c]}) ∅ no_surplus (free_inode A c).
Proof.
  intros HT Hc. pose proof (tree_names _ _ _ HT) as NK. destruct HT as (_ & HD & HO). destruct (HO c Hc) as (Tc & Nc & _).
  assert (attached (O ∖ {[c]}) (drop_dir c (nG A)) = attached O (nG A)) as EA.
  { apply map_eq. intros [d o]. apply option_eq. intros v. rewrite !attached_some. unfold drop_dir. rewrite map_lookup_filter_Some. cbn. set_solver. }
  split_and!; cbn [nT nN nG free_inode]; rewrite ?EA; [|done|].
  - rewrite union_empty_l_L. apply names_free_dir; [by rewrite <- union_difference_L by set_solver|set_solver|].
    intros d o v E. pose proof E as E'. rewrite lookup_fmap_Some in E'. destruct E' as (x & _ & [_ Hd]%attached_some). split; [set_solver|]. intros ->.
    pose proof (nk_links _ _ _ _ _ NK c ltac:(by rewrite Tc)) as Hl. unfold no_surplus in Hl. assert (links (de_inum <$> attached O (nG A)) c = 0%nat) as Hl0 by lia. pose proof (links_none _ _ Hl0 _ _ E) as ->.
    pose proof (nk_self _ _ _ _ _ NK _ _ E) as ->. set_solver.
  - intros c' Hc'. destruct (HO c') as (? & ? & Hn); [set_solver|]. cbn [nT nN nG free_inode]. unfold upd. rewrite decide_False by set_solver.
    split_and!; [done..|]. intros o Ho. rewrite drop_dir_other by set_solver. auto.
Qed.

Lemma tree_rmdir O A d o e : tree_ok O ∅ no_surplus A -> d ∉ O -> nG A !! (d, o) = Some e -> 32 <= o -> nT A (de_inum e) = T_DIR ->
  (forall o', 32 <= o' -> nG A !! (de_inum e, o') = None) -> tree_ok O ∅ no_surplus (rmdir_ns A d o (de_inum e)).
Proof.
  intros HT HdO E Ho Hj He. destruct (child_up _ _ _ _ _ HT HdO E Ho Hj) as (HcO & _). destruct (tree_orphan _ _ _ _ _ HT HdO E Ho Hj He) as [_ H1].
  apply (tree_free_dir _ _ (de_inum e)) in H1; [|set_solver]. by replace (({[de_inum e]} ∪ O) ∖ {[de_inum e]}) with O in H1 by set_solver.
Qed.

(** A consistent name space. *)
Definition tree (A : ns) : Prop := exists O, tree_ok O ∅ no_surplus A.

(** No directory has been removed. *)
Lemma tree_plain A : names_ok ∅ no_surplus (nT A) (nN A) (de_inum <$> nG A) -> dots_named (nG A) -> tree A.
Proof. intros NK HD. exists ∅. unfold tree_ok. rewrite attached_empty, (left_id_L ∅ (∪)). split_and!; [done|done|]. intros d Hd. set_solver. Qed.
