(* ===== verification/FsCalls.v ===== *)
(** * The system calls of sysfile.c on the name space

    [TxnLaws]: what the file system relies on when it calls [begin_op] and [end_op].
    [fs_rest H A k]: no call is in progress, the disk is that of the name space [A],
    and the entries [H] of the inode cache are in use.  A call that gets from [A] to
    [A'] leaves one of the two on the disk after a crash at any of its writes.

    What each call does to the name space [A] and to the entries [H] of the inode
    cache that are in use, from one state at rest to the next, in one transaction.
    [c] is the directory of the process that calls. *)

From stdpp Require Import base numbers gmap sets list strings.
From S2P Require Import Prelude CString Spinlock Sleeplock Bio BioRing BioSpec.
From S2P Require Import Log LogSpec LogThms LogTxn Fs FsBlock FsAlloc FsFile FsInode FsDinode FsRW FsTrunc FsIcache FsDir.
From S2P Require Import SysFile FsNames FsCheck FsCache FsOps FsTree.
Open Scope Z_scope.

Lemma prefix_app_inv_split {A} (ws l1 l2 : list A) : ws `prefix_of` l1 ++ l2 ->
  ws `prefix_of` l1 \/ exists ws', ws = l1 ++ ws' /\ ws' `prefix_of` l2.
Proof.
  intros Hp. destruct (prefix_weak_total ws l1 (l1 ++ l2)) as [?|[ws' ->]]; [done|by apply prefix_app_r|by left|].
  right. exists ws'. split; [done|]. by apply prefix_app_inv in Hp.
Qed.

(** The blocks that are not of the log. *)
Definition k_home (k : blks) (b : Z) : Prop := 0 <= b < k_size k /\ ~ (k_lo k <= b < k_hi k).

Definition k_begin (k : blks) : blks :=
  mkK (k_data k) ∅ ∅ (k_cap k) (k_lo k) (k_hi k) (k_disk k) (k_wr k) 1.

(** What the transaction that leaves the blocks [k] writes to the disk. *)
Record commits (k k' : blks) (W : list (Z * list Z)) : Prop := mkCommits {
  cm_data : forall b, k_home k b -> k_get b k' = k_get b k;
  cm_size : k_size k' = k_size k;
  cm_log : k_lo k' = k_lo k /\ k_hi k' = k_hi k;
  cm_disk : k_disk k' = apply_writes W (k_disk k);
  cm_crash : forall ws, ws `prefix_of` W ->
    let R := recovered (k_lo k) (apply_writes ws (k_disk k)) in
    (forall b, k_home k b -> blk R b = blk (k_disk k) b) \/ (forall b, k_home k b -> blk R b = k_get b k) }.

Class TxnLaws (X : Type) `{BW : BlockLaws X, TL : TxnLayer X} := {
  t_idle : X -> blks -> Prop;
  t_idle_len x k : t_idle x k -> Forall (fun d => length d = Z.to_nat BSIZE) (k_data k);
  t_idle_disk x k b : t_idle x k -> 0 <= b < k_size k -> blk (k_disk k) b = k_get b k;
  t_idle_crash x k b : t_idle x k -> k_home k b -> blk (recovered (k_lo k) (k_disk k)) b = k_get b k;
  wp_t_begin P m x k Q :
    msec ∅ m -> t_idle x k ->
    (forall m' x', quiet ∅ m m' -> b_rep x' (k_begin k) -> Q tt (m', x')) -> wp P t_begin (m, x) Q;
  wp_t_end P m x k Q :
    msec ∅ m -> b_rep x k -> k_held k = ∅ -> k_ops k = 1 -> k_size k < 2147483648 -> k_hi k - k_lo k <= LOGSIZE ->
    (forall m' x' k' W, quiet ∅ m m' -> t_idle x' k' -> commits k k' W -> Q tt (m', x')) -> wp P t_end (m, x) Q }.

Section rest.
Context {X : Type} `{TW : TxnLaws X} (me : Z) (sb : superblock).

(** The disk of a name space is a matter of the blocks from the inodes on. *)
Lemma disk_same k D' A : geom sb k -> disk_ok sb (k_data k) A ->
  (forall b, sb_inodestart sb <= b < sb_size sb -> blk D' b = k_get b k) -> disk_ok sb D' A.
Proof.
  intros Gm [B HG HT HN] Hb. pose proof (geom_order sb k Gm) as Hord. pose proof (g_data _ _ Gm) as Hd0.
  assert (forall i, is_inum sb i -> dinode_of sb D' i = dinode_of sb (k_data k) i) as Hdi.
  { intros i Hi. destruct (geom_iblock sb k i Gm Hi) as (H1 & _ & _ & _ & H2). unfold dinode_of. rewrite Hb by lia. done. }
  assert (forall i, ity sb D' i = ity sb (k_data k) i) as Hity.
  { intros i. unfold ity. case_decide; [|done]. by rewrite Hdi. }
  assert (ity sb (k_data k) (-1) = 0) as Hm1 by (unfold ity; by rewrite decide_False by lia).
  destruct (changed_keep sb (k_data k) D' (-1) B) as (C & HF & _ & HW).
  { intros i Hi _. by apply Hdi. }
  { unfold iad. by rewrite Hity, Hm1. }
  { intros a [Ha _]. apply Hb. lia. }
  { intros a Ha. unfold used. destruct (BBLOCK_bm sb a ltac:(lia)) as [H1 H2]. rewrite Hb by lia. done. }
  assert (isz sb D' (-1) = 0) as Hsz by (unfold isz; by rewrite Hity, Hm1).
  split.
  - apply (blocks_change sb (k_data k) D' (-1) B C); [by rewrite Hity, Hm1|done|]. rewrite Hsz. apply whole_nil.
  - apply (graph_change sb (k_data k) D' (-1) B C (nG A)); [done|done| |by rewrite Hity, Hm1].
    intros o v. rewrite (gr_ent _ _ _ HG). unfold is_ent. rewrite Hity, Hm1. split; by intros [].
  - intros j. by rewrite Hity, HT.
  - intros j. rewrite <- HN. unfold inl. case_decide; [|done]. by rewrite Hdi.
Qed.

Record fs_rest (H : refs) (A : ns) (k : blks) (t : mach * fs X) : Prop := mkRest {
  rs_mach : msec ∅ t.1;
  rs_idle : t_idle (fblk t.2) k;
  rs_geom : geom sb k;
  rs_log : k_hi k - k_lo k <= LOGSIZE;
  rs_meta : meta_used sb (k_data k);
  rs_disk : disk_ok sb (k_data k) A;
  rs_tree : tree A;
  rs_cache : cached me sb ∅ H (k_data k) (icache t.2) }.

(** After a call: where it got to, and what a crash in it leaves. *)
Definition after (A : ns) (k : blks) (H' : refs) (A' : ns) (t' : mach * fs X) : Prop := exists k' W,
  fs_rest H' A' k' t' /\ k_lo k' = k_lo k /\ k_disk k' = apply_writes W (k_disk k) /\
  forall ws, ws `prefix_of` W ->
    let R := recovered (k_lo k) (apply_writes ws (k_disk k)) in disk_ok sb R A \/ disk_ok sb R A'.

(** The disk itself is consistent too. *)
Lemma rest_on_disk H A k t : fs_rest H A k t -> disk_ok sb (k_disk k) A.
Proof.
  intros []. apply (disk_same k); [done|done|]. intros b Hb. apply (t_idle_disk (fblk t.2)); [done|].
  pose proof (geom_order sb k rs_geom0). pose proof (g_size _ _ rs_geom0). lia.
Qed.

(** Some way on: at every point of it a crash leaves a consistent disk. *)
Definition evolves (k k' : blks) : Prop := exists W,
  k_lo k' = k_lo k /\ k_disk k' = apply_writes W (k_disk k) /\
  forall ws, ws `prefix_of` W -> exists B, tree B /\ disk_ok sb (recovered (k_lo k) (apply_writes ws (k_disk k))) B.

Lemma evolves_refl H A k t : fs_rest H A k t -> evolves k k.
Proof.
  intros []. exists []. split_and!; [done|done|]. intros ws Hp. rewrite (prefix_nil_inv _ Hp). exists A. split; [done|].
  apply (disk_same k); [done|done|]. intros b Hb. apply (t_idle_crash (fblk t.2)); [done|].
  pose proof (geom_order sb k rs_geom0). destruct rs_geom0. unfold k_home. lia.
Qed.

Lemma evolves_trans k1 k2 k3 : evolves k1 k2 -> evolves k2 k3 -> evolves k1 k3.
Proof.
  intros (W1 & E1 & D1 & C1) (W2 & E2 & D2 & C2). exists (W1 ++ W2). rewrite apply_writes_app, <- D1. split_and!; [lia|done|].
  intros ws [Hp|(ws' & -> & Hp)]%prefix_app_inv_split; [by apply C1|]. rewrite apply_writes_app, <- D1, <- E1. by apply C2.
Qed.

Lemma after_evolves H A k t H' A' t' : fs_rest H A k t -> after A k H' A' t' -> exists k', fs_rest H' A' k' t' /\ evolves k k'.
Proof.
  intros HR (k' & W & HR' & E & D & C). exists k'. split; [done|]. exists W. split_and!; [done|done|].
  intros ws Hp. destruct (C ws Hp); [exists A|exists A']; (split; [|done]); [apply HR|apply HR'].
Qed.

Section call.
Context (P : failure -> Prop) (H : refs) (A : ns) (k : blks) (t : mach * fs X) (HR : fs_rest H A k t).

Notation at_fs := (at_fs me sb t.1 (same_blocks (k_begin k))).

Lemma at_begin_in (KR : blks -> Prop) Q : KR (k_begin k) -> (forall t', FsCache.at_fs me sb t.1 KR ∅ H A t' -> Q tt t') -> wp P begin_op t Q.
Proof.
  intros HK HQ. destruct HR as []. destruct t as [m s]. cbn [fst snd] in *. apply wp_on_blk, (wp_t_begin P m (fblk s) k); [done|done|].
  intros m' x' Hq Hrep. apply HQ. split; [done|]. exists (k_begin k). split_and!; [done| |done|done].
  constructor; [done|by destruct rs_geom0; constructor|done|done].
Qed.

Lemma at_begin Q : (forall t', at_fs ∅ H A t' -> Q tt t') -> wp P begin_op t Q.
Proof. by apply at_begin_in. Qed.

Lemma at_end_quiet H' A' t1 Q : at_fs ∅ H' A' t1 -> tree A' ->
  (forall t', quiet ∅ t1.1 t'.1 -> after A k H' A' t' -> Q tt t') -> wp P end_op t1 Q.
Proof.
  intros (Hq1 & k1 & Hs & HI & HD & HC) HT HQ. destruct t1 as [m1 s1]. cbn [fst snd] in *. pose proof HR as [].
  destruct Hs as (E1 & _ & E2 & E3 & E4 & _ & E5 & E6). cbn in E1, E2, E3, E4, E5, E6. pose proof (id_geom _ _ _ HI) as G1.
  apply wp_on_blk, (wp_t_end P m1 (fblk s1) k1); [apply Hq1|apply HI|done|done|apply G1|lia|].
  intros m2 x2 k2 W Hq2 Hidle [Cd Cs Cl Ck Cc]. apply HQ; [done|]. exists k2, W. pose proof (geom_order sb k1 G1) as Hord. pose proof (g_size _ _ G1) as Hsz.
  pose proof (g_hi _ _ G1) as Hhi. assert (forall b, sb_inodestart sb <= b < sb_size sb -> k_home k1 b) as Hh by (unfold k_home; lia).
  assert (geom sb k2) as G2.
  { destruct G1. constructor; rewrite ?Cs, ?(proj1 Cl), ?(proj2 Cl); try done. by eapply t_idle_len. }
  assert (disk_ok sb (k_data k2) A') as HD2 by (apply (disk_same k1); [done|done|]; intros b Hb; by apply Cd, Hh).
  split_and!; [|rewrite (proj1 Cl); lia|by rewrite Ck, E4|].
  - constructor; try done.
    + apply Hq2.
    + rewrite (proj1 Cl), (proj2 Cl). lia.
    + intros b Hb. rewrite <- (id_meta _ _ _ HI b Hb). unfold used. pose proof (g_data _ _ G1).
      destruct (BBLOCK_bm sb b ltac:(lia)) as [H1 H2]. f_equal. f_equal. apply Cd, Hh. lia.
    + assert (forall j, is_inum sb j -> dinode_of sb (k_data k2) j = dinode_of sb (k_data k1) j) as Hdi.
      { intros j Hj. destruct (geom_iblock sb k1 j G1 Hj) as (H1 & _ & _ & _ & H2). unfold dinode_of. f_equal. apply Cd, Hh. pose proof (g_data _ _ G1). lia. }
      assert (forall j, ity sb (k_data k2) j = ity sb (k_data k1) j) as Hity by (intros j; by rewrite (dk_T _ _ _ HD2), (dk_T _ _ _ HD)).
      destruct HC as [? He ? ? Ho]. constructor; try done.
      * intros ip i Hi. destruct (He ip i Hi) as [H1 H2]. split; [|done]. destruct (H' !! ip) as [[num r]|]; [|done].
        destruct H1 as (?&?&?&?&H5&?). rewrite Hity, Hdi by (by eapply ity_inum). done.
      * intros j Hj1 Hj2. rewrite Hity in Hj1. apply Ho; [done|]. rewrite (dk_N _ _ _ HD). by rewrite <- (dk_N _ _ _ HD2).
  - intros ws Hp. rewrite <- E2, <- E4. destruct (Cc ws Hp) as [Hold|Hnew]; [left|right].
    + apply (disk_same k); [done|done|]. intros b Hb. rewrite Hold by (by apply Hh). rewrite E4. apply (t_idle_disk (fblk t.2)); [done|].
      unfold k_size in *. lia.
    + apply (disk_same k1); [done|done|]. intros b Hb. by apply Hnew, Hh.
Qed.

Lemma at_end H' A' t1 Q : at_fs ∅ H' A' t1 -> tree A' ->
  (forall t', after A k H' A' t' -> Q tt t') -> wp P end_op t1 Q.
Proof. intros HA HT HQ. eapply at_end_quiet; [done|done|]. intros t' _. apply HQ. Qed.

End call.
End rest.

Lemma wp_then2 {S A B C} (P : failure -> Prop) (a : M S A) (b : A -> M S B) (K : A -> B -> M S C) s Q :
  wp P a s (fun x s1 => wp P (b x) s1 (fun y s2 => wp P (K x y) s2 Q)) -> wp P (x ← a; y ← b x; K x y) s Q.
Proof. intros H. wp_next. eapply wp_mono; [exact H|]. intros x s1 H1. by wp_next. Qed.

Lemma ns_eta A : mkNs (nT A) (nN A) (nG A) = A.
Proof. by destruct A. Qed.

(** Paths mean the same when link counts change. *)
Lemma walk_relink f A j n d path parent name : walk f (relink A j n) d path parent name = walk f A d path parent name.
Proof.
  revert d path name. induction f as [|f IH]; intros d path name; [done|]. cbn [walk]. destruct (skipelem path name) as [[p' n']|]; [|done].
  cbn [nT nG relink]. destruct (negb _); [done|]. destruct (parent && _); [done|]. destruct (nfind (nG A) d n') as [[v o]|]; [|done]. apply IH.
Qed.

(** The directory of the last element is a directory. *)
Lemma walk_parent f A d path name v name' : walk f A d path true name = (Some v, name') -> nT A v = T_DIR.
Proof.
  revert d path name. induction f as [|f IH]; intros d path name; [done|]. cbn [walk]. destruct (skipelem path name) as [[p' n']|]; [|done].
  destruct (negb (nT A d =? T_DIR)) eqn:E; [done|]. cbn [andb]. case_bool_decide; [intros [= <- _]; lia|].
  destruct (nfind (nG A) d n') as [[w o]|]; [|done]. apply IH.
Qed.

(** What a path names is in use, and has a name. *)
Lemma walk_linked O ex f A d path parent name v name' : (forall i, 0 <= ex i) -> tree_ok O ∅ ex A -> nT A d ≠ 0 -> 0 < nN A d ->
  walk f A d path parent name = (Some v, name') -> nT A v ≠ 0 /\ 0 < nN A v.
Proof.
  intros Hex HT. revert d path name. induction f as [|f IH]; intros d path name Hd HN; [done|]. cbn [walk].
  destruct (skipelem path name) as [[p' n']|]; [|destruct parent; [done|]; by intros [= <- _]].
  destruct (negb _); [done|]. destruct (parent && _); [by intros [= <- _]|].
  destruct (nfind (nG A) d n') as [[w o]|] eqn:E; [|done]. destruct (nfind_linked O ex Hex A HT _ _ _ _ HN E). by apply IH.
Qed.

Section facts.
Context {X : Type} `{BW : BlockLaws X} (me : Z) (sb : superblock) (m0 : mach) (KR : blks -> Prop).

Notation at_fs := (at_fs me sb m0 KR).

Lemma at_ext L H A A' t : at_fs L H A t -> (forall j, nT A' j = nT A j) -> (forall j, nN A' j = nN A j) -> nG A' = nG A -> at_fs L H A' t.
Proof.
  intros (Hq & k & Hs & HI & [] & HC) H1 H2 H3. split; [done|]. exists k. split_and!; [done|done| |done].
  split; [done|by rewrite H3|intros j; by rewrite H1|intros j; by rewrite H2].
Qed.

(** Inodes with a name are not inode 0. *)
Lemma at_inum L H A t d o e : at_fs L H A t -> nG A !! (d, o) = Some e -> nT A (de_inum e) ≠ 0 -> 0 < de_inum e < sb_ninodes sb.
Proof.
  intros (Hq & k & Hs & HI & HD & HC) Ee Hj. apply (gr_ent _ _ _ (dk_graph _ _ _ HD)) in Ee as (_ & _ & _ & Hz).
  rewrite <- (dk_T _ _ _ HD) in Hj. apply ity_inum in Hj. unfold is_inum in Hj. lia.
Qed.

Lemma at_dir_inum L H A t O ex d : at_fs L H A t -> tree_ok O ∅ ex A -> nT A d = T_DIR -> 0 < nN A d -> 0 < d < sb_ninodes sb.
Proof.
  intros HA HT Hd HN. pose proof (linked_in _ _ _ _ _ HT HN) as HO. destruct (nk_dots _ _ _ _ _ (tree_names _ _ _ HT) d Hd HO) as [Es _].
  rewrite lookup_fmap, attached_other in Es by done. destruct (nG A !! (d, 0)) as [e|] eqn:E; [|done]. injection Es as Es.
  rewrite <- Es. eapply at_inum; [done|done|by rewrite Es, Hd].
Qed.

End facts.

Section more.
Context {X : Type} `{BW : BlockLaws X} (me : Z) (sb : superblock) (devs : Z -> @devsw X).
Context (P : failure -> Prop) {SO : short_of P} (m0 : mach) (KR : blks -> Prop).
Context (Hsmall : 32 * sb_size sb < 32767).

Notation at_fs := (at_fs me sb m0 KR).

(** Link counts are small. *)
Lemma at_bound L H A O Y ex t j : at_fs L H A t -> tree_ok O Y ex A -> nT A j ≠ 0 -> ex j <= nN A j < 32767 + ex j.
Proof.
  intros (Hq & k & Hs & HI & [] & HC) [NK _] Hj. rewrite (nk_links _ _ _ _ _ NK j Hj). pose proof (id_geom _ _ _ HI) as G.
  pose proof (graph_bound sb _ _ dk_blocks dk_graph (data0_pos sb k G) ltac:(destruct G; lia)) as Hb.
  pose proof (links_bound (de_inum <$> attached O (nG A)) j) as Hl. rewrite map_size_fmap in Hl.
  assert (size (attached O (nG A)) <= size (nG A))%nat by (apply map_subseteq_size, map_filter_subseteq). lia.
Qed.

Lemma at_nlink {KS : writes_in KR} L H A t ip num r n Q :
  at_fs L H A t -> H !! ip = Some (num, r) -> ip ∈ L -> -32768 <= nN A num + n < 32768 ->
  (forall t', at_fs L H (relink A num n) t' -> Q tt t') ->
  wp P (iset (set_i_d (add_nlink n)) ip) t (fun _ t1 => wp P (iupdate sb ip) t1 Q).
Proof.
  intros HA HH HL Hn HQ. call at_attr; [done|done|done| |done]. intros d [] _ E.
  assert (i16 (d_nlink d + n) = d_nlink d + n) as Ei by (unfold i16; rewrite E, Z.mod_small; lia).
  split_and!; try done. constructor; try done. cbn. rewrite Ei. lia.
Qed.

End more.

Lemma got_keep H v ip H' a n r : got H v ip H' -> H !! a = Some (n, r) -> exists r', H' !! a = Some (n, r').
Proof.
  intros Hg Ha. destruct (decide (a = ip)) as [->|Hne].
  - destruct Hg as [(r0 & E & ->)|(E & _)]; [|congruence]. rewrite lookup_insert_eq. rewrite E in Ha. injection Ha as -> _. eauto.
  - destruct Hg as [(r0 & _ & ->)|(_ & _ & ->)]; rewrite lookup_insert_ne by done; eauto.
Qed.

(** A new entry of a complete directory comes after the first two. *)
Lemma slot_child O ex A d u : tree_ok O ∅ ex A -> nT A d = T_DIR -> 0 < nN A d -> 0 <= u -> nG A !! (d, DESIZE * u) = None -> 32 <= DESIZE * u.
Proof.
  intros HT Hd HN Hu Hn. pose proof (linked_in _ _ _ _ _ HT HN) as HO. destruct (nk_dots _ _ _ _ _ (tree_names _ _ _ HT) d Hd HO) as [H0 H16].
  rewrite lookup_fmap, attached_other in H0, H16 by done.
  assert (u ≠ 0) by (intros ->; change (DESIZE * 0) with 0 in Hn; by rewrite Hn in H0).
  assert (u ≠ 1) by (intros ->; change (DESIZE * 1) with 16 in Hn; by rewrite Hn in H16). unfold DESIZE. lia.
Qed.

(** What the path of a file names is named by an entry. *)
Lemma walk_entry f A d path parent name v name' : walk f A d path parent name = (Some v, name') ->
  v = d \/ exists d' o e, nG A !! (d', o) = Some e /\ de_inum e = v.
Proof.
  revert d path name. induction f as [|f IH]; intros d path name; [done|]. cbn [walk].
  destruct (skipelem path name) as [[p' n']|]; [|destruct parent; [done|]; intros [= <- _]; by left].
  destruct (negb _); [done|]. destruct (parent && _); [intros [= <- _]; by left|].
  destruct (nfind (nG A) d n') as [[w o]|] eqn:E; [|done]. apply nfind_some in E as (e & He & Ee & _).
  intros [->|H]%IH; [|by right]. right. eauto.
Qed.

Section calls.
Context {X : Type} `{TW : TxnLaws X} (me : Z) (sb : superblock) (devs : Z -> @devsw X) (name0 de0 : list Z).
Context (P : failure -> Prop) {SO : short_of P}.
Context (Hsmall : 32 * sb_size sb < 32767) (Hino : sb_ninodes sb <= 65536) (Hde : length de0 = 16%nat).
Context (H : refs) (A : ns) (k : blks) (t : mach * fs X) (HR : fs_rest me sb H A k t).
Context (cwd : nat) (c rc : Z) (Hcwd : H !! cwd = Some (c, rc)) (Hc : nT A c = T_DIR).
Context (O : gset Z) (HT : tree_ok O ∅ no_surplus A).

Notation at_fs := (at_fs me sb t.1 (same_blocks (k_begin k))).
Notation after := (after me sb A k).

Lemma rest_pos : refs_pos H.
Proof.
  intros a n r Ha. by destruct (cached_at _ _ _ _ _ _ _ _ _ (rs_cache _ _ _ _ _ _ HR) Ha) as (i & _ & _ & _ & ? & _).
Qed.

Lemma rest_tree : tree A.
Proof. exact (rs_tree _ _ _ _ _ _ HR). Qed.

(** Where a path starts; the current directory of a process may have been removed. *)
Lemma start_dir path : nT A (start c path) = T_DIR.
Proof. unfold start. destruct path as [|x path]; [done|]. destruct (x =? SLASH); [|done]. eapply tree_root, HT. Qed.

Lemma resolve_linked path parent v name : 0 < nN A (start c path) -> resolve A c path parent name0 = (Some v, name) -> nT A v ≠ 0 /\ 0 < nN A v.
Proof. intros HN. pose proof (start_dir path) as Hst. apply walk_linked with O no_surplus; [done|exact HT|by rewrite Hst|done]. Qed.

(** [end_op(); return r;] *)
Lemma at_return {B} (r : B) H' A' t1 Q : at_fs ∅ H' A' t1 -> tree A' ->
  (forall t', after H' A' t' -> Q r t') -> wp P (end_op;; mret r) t1 Q.
Proof. intros HA HT' HQ. wp_next. eapply at_end; [done|done|done|]. intros t' Ha. by apply wp_ret, HQ. Qed.

(** ** link *)

(** The file to link, the directory and the name. *)
Definition link_to (old new : list Z) : option (Z * Z * list Z) :=
  match resolve A c old false name0 with
  | (Some j, _) =>
      if nT A j =? T_DIR then None else
      match resolve A c new true name0 with
      | (Some d, name) => match nfind (nG A) d name with None => Some (j, d, name) | Some _ => None end
      | (None, _) => None
      end
  | (None, _) => None
  end.

(** The name that [link] is to make stands for the directory that it is in: it is [.], or
    [..] of the root.  Then [dirlink] waits for the lock that the process itself holds. *)
Definition link_self (old new : list Z) : Prop := exists j n d name o,
  resolve A c old false name0 = (Some j, n) /\ nT A j ≠ T_DIR /\ resolve A c new true name0 = (Some d, name) /\ nfind (nG A) d name = Some (d, o).

(** What a call that returns has done. *)
Definition linked (old new : list Z) (r : Z) (A' : ns) : Prop :=
  ~ link_self old new /\
  match link_to old new with
  | None => r = -1 /\ A' = A
  | Some (j, d, name) => r = 0 /\ exists o e, nG A !! (d, o) = None /\ 32 <= o /\ names name e = true /\ de_inum e = j /\
      A' = add_entry (relink A j 1) d o e
  end.

Lemma at_link_bad ip j H1 t1 Q : at_fs ∅ H1 (relink A j 1) t1 -> got H j ip H1 -> nT A j ≠ 0 -> 0 < nN A j ->
  (forall t', after H A t' -> Q (-1) t') -> wp P (link_bad me sb ip) t1 Q.
Proof.
  intros HA Hg Hj HN HQ. destruct (got_at _ _ _ _ Hg) as [r Hr]. unfold link_bad. wp_next. call at_ilock; [done|done|set_solver|].
  intros t2 HA2. apply wp_then2. pose proof (at_bound me sb t.1 (same_blocks (k_begin k)) Hsmall _ _ _ _ _ _ _ j HA (tree_relink _ _ _ _ j 1 HT (linked_in _ _ _ _ _ HT HN)) Hj) as Hb.
  assert (bump no_surplus j 1 j = 1) as E1 by (unfold bump; by rewrite decide_True). rewrite E1 in Hb.
  call at_nlink; [done|done|set_solver|lia|]. intros t3 HA3. apply (at_ext me sb _ _ _ _ _ A) in HA3; [|done| |done].
  2:{ intros i. cbn. unfold bump. destruct (decide (i = j)); lia. }
  wp_next. call at_iunlockput_named; [done|done|set_solver|done|]. intros t4 HA4. rewrite only_lock, (got_unref H j ip) in HA4 by (done || apply rest_pos).
  eapply at_return; [done|apply rest_tree|done].
Qed.

Lemma surplus_pos j : forall i, 0 <= bump no_surplus j 1 i.
Proof. intros i. unfold bump, no_surplus. destruct (decide _); lia. Qed.

Lemma zero_pos : forall i, 0 <= no_surplus i.
Proof. done. Qed.

(** [dp->dev != ip->dev || dirlink(dp, name, ip->inum) < 0] with [dp] locked. *)
Lemma at_link_fails dp d rd ip j rj H2 name t1 Q :
  let A1 := relink A j 1 in
  at_fs ({[dp]} ∪ ∅) H2 A1 t1 -> H2 !! dp = Some (d, rd) -> H2 !! ip = Some (j, rj) -> nT A d = T_DIR -> 0 < nN A d ->
  nT A j ≠ 0 -> nT A j ≠ T_DIR -> 0 < j < sb_ninodes sb ->
  (forall o, nfind (nG A) d name = Some (d, o) -> P FBlocked) ->
  (forall t' v o, nfind (nG A) d name = Some (v, o) -> v ≠ d -> at_fs ({[dp]} ∪ ∅) H2 A1 t' -> Q true t') ->
  (forall t' o e, nfind (nG A) d name = None -> nG A !! (d, o) = None -> 32 <= o -> names name e = true -> de_inum e = j ->
     at_fs ({[dp]} ∪ ∅) H2 (add_entry A1 d o e) t' -> Q false t') ->
  wp P (link_fails me sb devs de0 dp ip name) t1 Q.
Proof.
  intros A1 HA Hdp Hip Hd HNd Hj Hjd Hnum HB HQ1 HQ2. pose proof (tree_relink _ _ _ _ j 1 HT (not_dir_in _ _ _ _ _ HT Hjd)) as HT1. fold A1 in HT1.
  assert (0 < nN A1 d) as HNd1 by (cbn; unfold bump; destruct (decide _); lia).
  pose proof (surplus_pos j) as Hex. unfold link_fails. wp_next. call at_read; [done|done|]. intros x1 _ -> _ _ _.
  wp_next. call at_read; [done|done|]. intros x2 _ -> _ _ _. cbn [Z.eqb negb Pos.eqb]. wp_next. call at_read; [done|done|]. intros x3 -> _ _ _ _.
  wp_next. destruct (nfind (nG A) d name) as [[v o2]|] eqn:Ef.
  - call at_dirlink_found; [done|done|set_solver|done|intros o e; by eapply tree_live|exact Ef| | |].
    + destruct (nfind_linked _ _ Hex A1 HT1 d name v o2 HNd1 Ef). lia.
    + intros a r' Ha%elem_of_union Hv. destruct Ha as [->%elem_of_singleton|Ha%elem_of_empty]; [|done]. rewrite Hdp in Hv. injection Hv as <- _. by eapply HB.
    + intros t2 Hno HA2. apply wp_ret. eapply HQ1; [done| |done]. intros ->. by apply (Hno dp rd); [set_solver|].
  - call at_dirlink; [done|done|set_solver|done|exact Ef|lia|done|]. intros t2 u e Hu Hnone _ (old & -> & Hl) Ee HA2. apply wp_ret.
    eapply HQ2; [done|exact Hnone| |by apply new_entry_name|done|done]. by eapply (slot_child O no_surplus A).
Qed.

Lemma at_sys_link old new : 0 < nN A (start c old) -> 0 < nN A (start c new) ->
  (link_self old new -> P FBlocked) ->
  wp P (sys_link me sb devs name0 de0 cwd (Some old) (Some new)) t (fun r t' => exists A', linked old new r A' /\ after H A' t').
Proof.
  intros Hs1 Hs2 HB. pose proof rest_tree as HTA. pose proof rest_pos as HP. unfold sys_link, linked, link_to, link_self in *. wp_next. eapply at_begin; [exact HR|]. intros t1 HA1. wp_next.
  unfold namei at 1. wp_next. eapply (at_namex me sb devs P _ _ _ _ zero_pos H A HT HP cwd c rc); [done|done|done|].
  destruct (resolve A c old false name0) as [[j|] n1] eqn:E1; cbn [found].
  2:{ intros t2 HA2. apply wp_ret. cbn [fst]. eapply at_return; [done|done|]. intros t' Ha. exists A. split_and!; try done. naive_solver. }
  intros t2 ip H1 Hg HA2. apply wp_ret. cbn [fst]. destruct (got_at _ _ _ _ Hg) as [r1 Hr1]. pose proof (start_dir old) as Hst.
  destruct (resolve_linked _ _ _ _ Hs1 E1) as [Hj HNj].
  wp_next. call at_ilock; [done|done|set_solver|]. intros t3 HA3. wp_next. unfold itype. call at_read; [done|done|].
  intros i _ _ _ _ Hi. rewrite (proj1 (Hi ltac:(set_solver))). destruct (nT A j =? T_DIR) eqn:Ety.
  { wp_next. call at_iunlockput_named; [done|done|set_solver|done|]. intros t4 HA4. rewrite only_lock, (got_unref H j ip) in HA4 by done.
    eapply at_return; [done|done|]. intros t' Ha. exists A. split_and!; try done. intros (? & ? & ? & ? & ? & [= <- <-] & Hnd & _). lia. }
  apply wp_then2. pose proof (at_bound me sb t.1 (same_blocks (k_begin k)) Hsmall _ _ _ _ _ _ _ j HA3 HT Hj) as Hb. unfold no_surplus in Hb.
  call at_nlink; [done|done|set_solver|lia|]. intros t4 HA4. wp_next. call at_iunlock; [done|done|set_solver|]. intros t5 HA5. rewrite only_lock in HA5.
  assert (exists d' o e, nG A !! (d', o) = Some e /\ de_inum e = j) as (d' & o' & e' & Ee' & Ej).
  { destruct (walk_entry _ _ _ _ _ _ _ _ E1) as [->|?]; [|done]. by rewrite Hst in Ety. }
  assert (0 < j < sb_ninodes sb) as Hnum by (subst j; by eapply at_inum). destruct (got_keep _ _ _ _ _ _ _ Hg Hcwd) as [rc1 Hcwd1].
  wp_next. unfold nameiparent. assert (j ∉ O) as HjO by (eapply not_dir_in; [exact HT|lia]). pose proof (tree_relink _ _ _ _ j 1 HT HjO) as HT1.
  eapply (at_namex me sb devs P _ _ _ _ (surplus_pos j) H1 (relink A j 1) HT1 (at_pos _ _ _ _ _ _ _ _ HA5) cwd c rc1);
    [done|done|cbn; unfold bump; destruct (decide _); lia|].
  unfold resolve at 1. rewrite walk_relink. fold (resolve A c new true name0). destruct (resolve A c new true name0) as [[d|] name] eqn:E2; cbn [found].
  2:{ intros t6 HA6. eapply at_link_bad; [done|done|done|done|]. intros t' Ha. exists A. split_and!; try done. naive_solver. }
  intros t6 dp H2 Hg2 HA6. destruct (got_at _ _ _ _ Hg2) as [rd Hrd]. destruct (got_keep _ _ _ _ _ _ _ Hg2 Hr1) as [rj Hrj]. apply walk_parent in E2 as Hd.
  destruct (resolve_linked _ _ _ _ Hs2 E2) as [_ HNd].
  wp_next. call at_ilock; [done|done|set_solver|]. intros t7 HA7. wp_next. eapply at_link_fails; try done; [lia|intros o Ho; apply HB; exists j, n1, d, name, o; split_and!; [done|lia|done|done]| |].
  - intros t8 v o Hf Hvd HA8. wp_next. call at_iunlockput_named; [done|done|set_solver| |].
    { cbn. unfold bump. destruct (decide _); lia. }
    intros t9 HA9. rewrite only_lock, (got_unref H1 d dp) in HA9 by (done || by eapply at_pos).
    eapply at_link_bad; [done|done|done|done|]. rewrite Hf. intros t' Ha. exists A. split_and!; try done. intros (? & ? & ? & ? & ? & _ & _ & [= <- <-] & ?). congruence.
  - intros t8 o e Hf Hn Ho Hname Ee HA8. rewrite Hf. assert (tree (add_entry (relink A j 1) d o e)) as HT'.
    { exists O. rewrite <- Ee. apply tree_link; rewrite ?Ee; [done|exact (linked_in _ _ _ _ _ HT HNd)|done|done|done|done|lia]. }
    wp_next. call at_iunlockput_named; [done|done|set_solver|cbn; unfold bump; destruct (decide _); lia|]. intros t9 HA9. rewrite only_lock, (got_unref H1 d dp) in HA9 by (done || by eapply at_pos).
    wp_next. call at_iput; [done|done|set_solver| |]; cbn [nN add_entry relink]; unfold bump; rewrite decide_True by done; [|lia].
    intros t10 _ HA10. rewrite (got_unref H j ip) in HA10 by done. eapply at_return; [done|done|]. intros t' Ha. eexists. split; [|exact Ha].
    split; [intros (? & ? & ? & ? & ? & _ & _ & [= <- <-] & ?); congruence|]. split; [done|]. by exists o, e.
Qed.

(** ** unlink *)

(** No entries but the first two. *)
Definition dir_empty (j : Z) : Prop := map_Forall (fun x _ => x.1 = j -> x.2 < 32) (nG A).

#[local] Instance dir_empty_dec j : Decision (dir_empty j).
Proof. unfold dir_empty. apply _. Defined.

Lemma dir_empty_spec j (b : bool) :
  (if b then forall o, 32 <= o -> nG A !! (j, o) = None else exists o, 32 <= o /\ nG A !! (j, o) ≠ None) -> b = bool_decide (dir_empty j).
Proof.
  destruct b; intros Hb; symmetry; [apply bool_decide_eq_true|apply bool_decide_eq_false].
  - intros [d o] e E. cbn. intros ->. destruct (decide (32 <= o)) as [Ho|]; [|lia]. by rewrite Hb in E.
  - intros HE. destruct Hb as (o & Ho & Hn). destruct (nG A !! (j, o)) as [e|] eqn:E; [|done]. specialize (HE _ _ E eq_refl). cbn in HE. lia.
Qed.

(** The entry to remove, and its inode. *)
Definition unlink_of (path : list Z) : option (Z * Z * Z) :=
  match resolve A c path true name0 with
  | (Some d, name) =>
      if (namecmp name DOT =? 0) || (namecmp name DOTDOT =? 0) then None else
      match nfind (nG A) d name with
      | Some (j, o) => if (nT A j =? T_DIR) && negb (bool_decide (dir_empty j)) then None else Some (d, o, j)
      | None => None
      end
  | (None, _) => None
  end.

Definition in_use (j : Z) : Prop := exists a r, H !! a = Some (j, r).

(** A file or a directory that is in use lives on without a name. *)
Definition unlinked (path : list Z) (r : Z) (A' : ns) : Prop :=
  match unlink_of path with
  | None => r = -1 /\ A' = A
  | Some (d, o, j) => r = 0 /\
      if decide (nT A j = T_DIR) then (~ in_use j /\ A' = rmdir_ns A d o j) \/ (in_use j /\ A' = orphan_ns A d o j) else
      let A1 := unlink_ns A d o j in
      (nN A1 j = 0 /\ ~ in_use j /\ A' = free_inode A1 j) \/ ((nN A1 j ≠ 0 \/ in_use j) /\ A' = A1)
  end.

(** Names that are not [.] or [..] are those of later entries. *)
Lemma child_off d o e name : 0 < nN A d -> nG A !! (d, o) = Some e -> names name e = true -> namecmp name DOT ≠ 0 -> namecmp name DOTDOT ≠ 0 -> 32 <= o.
Proof.
  intros HN E Hn H0 H16. pose proof (linked_in _ _ _ _ _ HT HN) as HO. pose proof HT as (NK & HD & _). destruct (HD d e name) as [D0 D16].
  rewrite attached_other in D0, D16 by done. destruct (nk_off _ _ _ _ _ NK _ _ _ (ent_graph _ _ _ _ _ HO E)) as [->|[->|?]]; [by destruct H0; auto|by destruct H16; auto|done].
Qed.

(** [ip->nlink--; iupdate(ip); iunlockput(ip); end_op(); return 0;] *)
Lemma at_unlink_last ip j H3 A1 L t1 (Q : Z -> mach * fs X -> Prop) :
  at_fs L H3 A1 t1 -> got H j ip H3 -> ip ∈ L -> L ∖ {[ip]} = ∅ -> -32768 < nN A1 j < 32768 ->
  let A2 := relink A1 j (-1) in
  (nN A2 j ≠ 0 \/ in_use j -> tree A2 /\ forall t', after H A2 t' -> Q 0 t') ->
  (nN A2 j = 0 -> ~ in_use j -> tree (free_inode A2 j) /\ forall t', after H (free_inode A2 j) t' -> Q 0 t') ->
  wp P (iset (set_i_d (add_nlink (-1))) ip;; iupdate sb ip;; iunlockput me sb ip;; end_op;; mret 0) t1 Q.
Proof.
  intros HA Hg HL HL0 Hb A2 HQ1 HQ2. destruct (got_at _ _ _ _ Hg) as [r Hr]. apply wp_then2. call at_nlink; [done|done|done|lia|]. intros t2 HA2.
  assert ((r = 1 /\ ~ in_use j) \/ (r ≠ 1 /\ in_use j)) as Hrj.
  { destruct Hg as [(r0 & E & ->)|(E & Hno & ->)]; rewrite lookup_insert_eq in Hr; injection Hr as <-.
    - right. split; [pose proof (rest_pos _ _ _ E); lia|]. by exists ip, r0.
    - left. split; [done|]. intros (a & r & Ha). by apply (Hno a r). }
  wp_next. call at_iunlockput; [done|done|done| |]; rewrite (got_unref H j ip), HL0 by (done || apply rest_pos).
  - intros t3 Hor HA3. destruct HQ1 as [HT' HQ]; [naive_solver|]. eapply at_return; [done|done|done].
  - intros t3 -> HN HA3. destruct HQ2 as [HT' HQ]; [done|naive_solver|]. eapply at_return; [done|done|done].
Qed.

(** From the entry found on; [dp] and [ip] are locked. *)
Lemma at_unlink_entry_found dp d ip j o e H1 H2 L t1 (Q : Z -> mach * fs X -> Prop) :
  at_fs L H2 A t1 -> got H d dp H1 -> got H1 j ip H2 -> dp ∈ L -> ip ∈ L -> ip ≠ dp -> L ∖ {[dp]} ∖ {[ip]} = ∅ ->
  0 < nN A d -> nG A !! (d, o) = Some e -> de_inum e = j -> 32 <= o ->
  (nT A j = T_DIR -> forall o', 32 <= o' -> nG A !! (j, o') = None) ->
  (forall t' A', (if decide (nT A j = T_DIR) then (~ in_use j /\ A' = rmdir_ns A d o j) \/ (in_use j /\ A' = orphan_ns A d o j) else
      let A1 := unlink_ns A d o j in
      (nN A1 j = 0 /\ ~ in_use j /\ A' = free_inode A1 j) \/ ((nN A1 j ≠ 0 \/ in_use j) /\ A' = A1)) -> after H A' t' -> Q 0 t') ->
  wp P (w ← writei sb devs dp (replicate 16 0) o DESIZE;
        if negb (w =? DESIZE) then panic "unlink: writei" else
        t ← itype ip;
        when (t =? T_DIR) (iset (set_i_d (add_nlink (-1))) dp;; iupdate sb dp);;
        iunlockput me sb dp;;
        iset (set_i_d (add_nlink (-1))) ip;; iupdate sb ip;; iunlockput me sb ip;; end_op;; mret 0) t1 Q.
Proof.
  intros HA Hg1 Hg2 Hdp Hip Hne HL0 HNd He Ej Ho Hrm HQ. pose proof (linked_in _ _ _ _ _ HT HNd) as HdO. destruct (got_at _ _ _ _ Hg2) as [rj Hrj].
  destruct (got_at _ _ _ _ Hg1) as [rd1 Hrd1]. destruct (got_keep _ _ _ _ _ _ _ Hg2 Hrd1) as [rd Hrd].
  assert (nT A d = T_DIR /\ nT A j ≠ 0) as [Hd Hj] by (subst j; apply (nk_live _ _ _ _ _ (proj1 HT) d o); by apply ent_graph).
  pose proof (at_bound me sb t.1 (same_blocks (k_begin k)) Hsmall _ _ _ _ _ _ _ j HA HT Hj) as Hbj.
  pose proof (at_bound me sb t.1 (same_blocks (k_begin k)) Hsmall _ _ _ _ _ _ _ d HA HT ltac:(by rewrite Hd)) as Hbd. unfold no_surplus in Hbj, Hbd.
  wp_next. call at_unlink_entry; [done|done|done|done|done|]. fold (del_entry A d o). intros t2 HA2. cbn [Z.eqb negb DESIZE Pos.eqb].
  wp_next. unfold itype at 1. call at_read; [done|done|]. intros i _ _ _ _ Hi. rewrite (proj1 (Hi Hip)). cbn [nT del_entry]. wp_next.
  apply wp_when; intros Ety.
  - assert (nT A j = T_DIR) as Htj by lia. pose proof (Hrm Htj) as Hempty.
    rewrite <- Ej in Htj. pose proof (parent_links _ _ _ _ _ HT HdO He Ho Htj) as H2d. destruct (child_up _ _ _ _ _ HT HdO He Ho Htj) as (_ & Hcd & _).
    destruct (tree_orphan _ _ _ _ _ HT HdO He Ho Htj) as [HN1 HT1]; [by rewrite Ej|].
    pose proof (tree_rmdir _ _ _ _ _ HT HdO He Ho Htj ltac:(by rewrite Ej)) as HT2. rewrite Ej in *.
    wp_next. call at_nlink; [done|done|done|cbn; lia|]. intros t3 HA3. wp_next. call at_iunlockput_named; [done|done|done| |].
    { cbn. unfold bump. rewrite decide_True by done. lia. }
    intros t4 HA4. eapply at_unlink_last; [done|eapply got_move; [apply rest_pos|done|done]|set_solver|done| | |]; cbn [nN relink del_entry]; unfold bump.
    + rewrite decide_False by done. lia.
    + rewrite decide_True, decide_False by done. intros [|Hin]; [lia|]. split; [by eexists|]. intros t' Ha. eapply HQ; [|exact Ha]. rewrite decide_True by done. by right.
    + intros _ Hfree. split; [by eexists|]. intros t' Ha. eapply HQ; [|exact Ha]. rewrite decide_True by done. by left.
  - assert (nT A (de_inum e) ≠ T_DIR) as Htj by (rewrite Ej; lia). pose proof (tree_unlink _ _ _ _ _ HT HdO He Ho Htj) as HT'. rewrite Ej in HT'.
    wp_next. call at_iunlockput_named; [done|done|done|done|]. intros t4 HA4.
    eapply at_unlink_last; [done|eapply got_move; [apply rest_pos|done|done]|set_solver|done|cbn; lia| |].
    + intros Hor. split; [by eexists|]. intros t' Ha. eapply HQ; [|exact Ha]. rewrite decide_False by lia. by right.
    + intros HN Hfree. split; [exists O; apply (tree_free O ∅ no_surplus (unlink_ns A d o j)); try done; cbn; lia|]. intros t' Ha. eapply HQ; [|exact Ha]. rewrite decide_False by lia. by left.
Qed.

Lemma at_unlink_bad dp d H1 t1 Q : at_fs ({[dp]} ∪ ∅) H1 A t1 -> got H d dp H1 -> 0 < nN A d ->
  (forall t', after H A t' -> Q (-1) t') -> wp P (unlink_bad me sb dp) t1 Q.
Proof.
  intros HA Hg Hd HQ. destruct (got_at _ _ _ _ Hg) as [rd Hrd]. unfold unlink_bad. wp_next.
  call at_iunlockput_named; [done|done|set_solver|done|].
  intros t2 HA2. rewrite only_lock, (got_unref H d dp) in HA2 by (done || apply rest_pos). eapply at_return; [done|apply rest_tree|done].
Qed.

Lemma at_sys_unlink path : 0 < nN A (start c path) ->
  wp P (sys_unlink me sb devs name0 cwd (Some path)) t (fun r t' => exists A', unlinked path r A' /\ after H A' t').
Proof.
  intros Hs. pose proof rest_tree as HTA. pose proof rest_pos as HP. unfold sys_unlink, unlinked. unfold unlink_of in *.
  wp_next. eapply at_begin; [exact HR|]. intros t1 HA1. wp_next.
  unfold nameiparent. eapply (at_namex me sb devs P _ _ _ _ zero_pos H A HT HP cwd c rc); [done|done|done|].
  destruct (resolve A c path true name0) as [[d|] name] eqn:E1; cbn [found].
  2:{ intros t2 HA2. eapply at_return; [done|done|]. eauto. }
  intros t2 dp H1 Hg HA2. destruct (got_at _ _ _ _ Hg) as [rd Hrd]. apply walk_parent in E1 as Hd. destruct (resolve_linked _ _ _ _ Hs E1) as [_ HNd].
  wp_next. call at_ilock; [done|done|set_solver|]. intros t3 HA3. destruct ((namecmp name DOT =? 0) || (namecmp name DOTDOT =? 0)) eqn:Edots.
  { eapply at_unlink_bad; [done|done|done|]. eauto. }
  wp_next. call at_dirlookup; [done|done|set_solver|done|intros o e; by eapply tree_live| |].
  { intros t4 Hf HA4. rewrite Hf in *. eapply at_unlink_bad; [done|done|done|]. eauto. }
  intros t4 j o ip H2 Hf Hg2 HA4. rewrite Hf in *. destruct (nfind_some _ _ _ _ _ Hf) as (e & He & Ej & _ & Hname).
  assert (32 <= o) as Ho by (eapply (child_off d o e name); [done|done|done|lia|lia]). destruct (nfind_linked _ _ zero_pos A HT _ _ _ _ HNd Hf) as [Hj HNj].
  assert (j ≠ d) as Hjd. { intros ->. rewrite <- Ej in Hd at 1. by destruct (child_up _ _ _ _ _ HT (linked_in _ _ _ _ _ HT HNd) He Ho Hd) as (_ & ? & _). }
  destruct (got_at _ _ _ _ Hg2) as [rj Hrj]. destruct (got_keep _ _ _ _ _ _ _ Hg2 Hrd) as [rd2 Hrd2].
  assert (ip ≠ dp) as Hne by congruence. wp_next. call at_ilock; [done|done|set_solver|]. intros t5 HA5.
  wp_next. call at_read; [done|done|]. intros i _ _ _ _ Hi. rewrite (proj2 (Hi ltac:(set_solver))). replace (nN A j <? 1) with false by lia.
  wp_next. unfold itype at 1. call at_read; [done|done|]. intros i' _ _ _ _ Hi'. rewrite (proj1 (Hi' ltac:(set_solver))). wp_next.
  set (L := {[ip]} ∪ ({[dp]} ∪ ∅) : gset nat) in *.
  assert (wp P (if nT A j =? T_DIR then b ← isdirempty sb devs ip; mret (negb b) else mret false) t5
    (fun b t' => b = (nT A j =? T_DIR) && negb (bool_decide (dir_empty j)) /\ at_fs L H2 A t')) as Hfull.
  { destruct (nT A j =? T_DIR) eqn:Ety; [|by apply wp_ret]. wp_next. call at_isdirempty; [done|done|set_solver|lia|].
    intros b t6 HA6 ->%dir_empty_spec. by apply wp_ret. }
  eapply wp_mono; [exact Hfull|]. intros b t6 [-> HA6]. destruct ((nT A j =? T_DIR) && negb (bool_decide (dir_empty j))) eqn:Efull.
  - wp_next. call at_iunlockput_named; [done|done|set_solver|done|]. intros t7 HA7.
    replace (L ∖ {[ip]}) with ({[dp]} ∪ ∅ : gset nat) in HA7 by (unfold L; set_solver). rewrite (got_unref H1 j ip) in HA7 by (done || by eapply at_pos).
    eapply at_unlink_bad; [done|done|done|]. eauto.
  - eapply at_unlink_entry_found; [exact HA6|done|done|set_solver|set_solver|done|unfold L; set_solver|done|done|done|done| |].
    + intros Htj o' Ho'. rewrite Htj in Efull. cbn in Efull. apply negb_false_iff, bool_decide_eq_true in Efull.
      destruct (nG A !! (j, o')) as [e'|] eqn:E'; [|done]. specialize (Efull _ _ E' eq_refl). cbn in Efull. lia.
    + intros t' A' HA' Ha. exists A'. split; [by split|done].
Qed.

End calls.
