(* ===== verification/FsLog.v ===== *)
(** * The file system's blocks are those of the log and the buffer cache

    The instance of [BlockLayer] that fs.c uses: bio.c and log.c.  A process
    [me] is inside of a transaction, and holds the buffers [k_held k]. *)

From stdpp Require Import base numbers gmap sets list strings.
From S2P Require Import Prelude CString Spinlock Sleeplock Bio BioRing BioSpec.
From S2P Require Import Log LogSpec LogThms LogTxn Fs FsBlock.
Open Scope Z_scope.

Section layer.
Context (me : Z).

#[local] Instance log_layer : BlockLayer lst := mkBlockLayer lst
  (fun dev n => on_bio (bread me dev n))
  (fun i => on_bio (bget_field bdata i))
  (fun i f => on_bio (bset (fun x => set_bdata (f (bdata x)) x) i))
  (fun i => log_write i)
  (fun i => on_bio (brelse me i)).

Record log_in (l : lst) (k : blks) (a : acache) (bs : list Z) : Prop := mkLin {
  li_cache : cacheR a (lbio l);
  li_list : log_list l bs;
  li_pin : apin a = list_to_set bs;
  li_held : aheld a = (fun _ => me) <$> k_held k;
  li_owns : forall n i c, k_held k !! n = Some (i, c) -> owns (lbio l) i n /\
    (c = true -> n ∈ apin a \/ alog a !! Z.to_nat n = adisk a !! Z.to_nat n);
  li_data : alog a = k_data k;
  li_disk : adisk a = k_disk k;
  li_wr : awr a = k_wr k;
  li_logged : k_logged k = list_to_set bs;
  li_cap : k_cap k = Nat.min 29 (Z.to_nat (lsize l - 1));
  li_lo : k_lo k = lstart l;
  li_hi : k_hi k = lstart l + lsize l;
  li_out : outstanding l = k_ops k;
  li_ops : 1 <= k_ops k;
  li_comm : committing l = 0;
  li_home : forall b, b ∈ bs -> home (lstart l) (lsize l) b (adisk a);
  li_start : 0 <= lstart l;
  li_size : Z.of_nat (length bs) < lsize l;
  li_fit : lstart l + lsize l <= asize a;
  li_empty : head_n (blk (adisk a) (lstart l)) = 0 }.

Definition log_rep_in (l : lst) (k : blks) : Prop := exists a bs, log_in l k a bs.

(** Between the operations of the file system no buffer is in use. *)
Lemma log_in_rep l k a bs : log_in l k a bs -> k_held k = ∅ -> log_rep l a bs.
Proof.
  intros [] Hh. destruct li_list0. constructor; try done. by rewrite li_held0, Hh, fmap_empty.
Qed.

Definition blks_of (l : lst) (a : acache) (bs : list Z) : blks :=
  mkK (alog a) ∅ (list_to_set bs) (Nat.min 29 (Z.to_nat (lsize l - 1))) (lstart l) (lstart l + lsize l)
    (adisk a) (awr a) (outstanding l).

Lemma rep_log_in l a bs : log_rep l a bs -> 1 <= outstanding l -> committing l = 0 -> log_in l (blks_of l a bs) a bs.
Proof.
  intros R Ho Hc. pose proof (rep_list l a bs R). destruct R. by constructor.
Qed.

Lemma log_in_size l k a bs : log_in l k a bs -> k_size k = asize a /\ a_ok a.
Proof.
  intros []. pose proof (R_ok _ _ li_cache0) as Ha. split; [|done]. unfold k_size, asize.
  by rewrite <- li_data0, (a_len _ Ha).
Qed.

Lemma log_in_get l k a bs n : log_in l k a bs -> a_get n a = k_get n k.
Proof. intros []. unfold a_get, k_get, blk. by rewrite li_data0. Qed.

Lemma log_in_held l k a bs n i c : log_in l k a bs -> k_held k !! n = Some (i, c) ->
  aheld a !! n = Some me /\ 0 <= n < asize a.
Proof.
  intros L Hn. assert (aheld a !! n = Some me) as Hh by (destruct L; by rewrite li_held0, lookup_fmap, Hn).
  split; [done|]. by apply (held_range a (lbio l) n me), Hh; apply L.
Qed.

(** Room for one more buffer. *)
Lemma log_in_room l k a bs : log_in l k a bs -> ~ k_full k -> (size (k_held k) <= 1)%nat ->
  (size (apin a ∪ dom (aheld a)) < NBUF)%nat.
Proof.
  intros [] Hf H1. unfold k_full in Hf. rewrite li_pin0, li_held0, dom_fmap_L, <- li_logged0.
  assert (size (k_logged k ∪ dom (k_held k)) <= size (k_logged k) + size (dom (k_held k)))%nat as Hs.
  { rewrite size_union_alt. assert (size (dom (k_held k) ∖ k_logged k) <= size (dom (k_held k)))%nat; [|lia].
    apply subseteq_size. set_solver. }
  rewrite size_dom in Hs. unfold NBUF. lia.
Qed.

Lemma size_logged l k a bs : log_in l k a bs -> size (k_logged k) = length bs.
Proof. intros []. destruct li_list0. rewrite li_logged0. by apply size_list_to_set. Qed.

(** Marking a buffer does not change who holds it. *)
Lemma held_same l k a bs n i c c' : log_in l k a bs -> k_held k !! n = Some (i, c) ->
  aheld a = (fun _ => me) <$> <[n := (i, c')]> (k_held k).
Proof.
  intros [] Hn. rewrite fmap_insert, li_held0. symmetry. apply insert_id. by rewrite lookup_fmap, Hn.
Qed.

(** ** The laws *)

Lemma log_b_read P m l k n Q :
  msec ∅ m -> log_rep_in l k -> 0 <= n < k_size k -> k_held k !! n = None ->
  (k_full k \/ (1 < size (k_held k))%nat -> P (FPanic "bget: no buffers")) ->
  (forall i m' l', quiet ∅ m m' -> log_rep_in l' (k_hold n i true k) -> Q i (m', l')) ->
  wp P (b_read 1 n) (m, l) Q.
Proof.
  intros Hm (a & bs & L) Hn Hh Hp HQ. destruct (log_in_size _ _ _ _ L) as [Hsz Hok]. pose proof L as [].
  assert (aheld a !! n = None) as Hah by (by rewrite li_held0, lookup_fmap, Hh).
  unfold b_read, log_layer, on_bio. apply wp_part.
  apply (wp_bread _ _ a); [done|done|by rewrite <- Hsz|by rewrite Hah| |].
  { intros _ Hfull. apply Hp. destruct (decide (1 < size (k_held k))%nat); [by right|left].
    destruct (decide (k_full k)) as [|Hnf]; [done|]. pose proof (log_in_room _ _ _ _ L Hnf). lia. }
  intros i m' st' Hm' _ HR' Ho Hk. apply HQ; [done|]. exists (a_hold n me a), bs.
  constructor; try done; cbn.
  - destruct li_list0. by constructor.
  - by rewrite li_held0, fmap_insert.
  - intros n' j c Hn'. destruct (decide (n' = n)) as [->|Hne].
    + rewrite lookup_insert_eq in Hn'. simplify_eq. split; [done|]. intros _.
      destruct (decide (n ∈ apin a)); [by left|right]. apply (a_clean _ Hok); [lia|done|done].
    + rewrite lookup_insert_ne in Hn' by done. destruct (li_owns0 _ _ _ Hn') as [Hj Hc]. split; [|done].
      apply Hk; [|done]. rewrite li_held0, dom_fmap. by apply elem_of_dom_2 in Hn'.
Qed.

Lemma log_b_data P m l k n i c (Q : list Z -> mach * lst -> Prop) :
  log_rep_in l k -> k_held k !! n = Some (i, c) -> Q (k_get n k) (m, l) -> wp P (b_data i) (m, l) Q.
Proof.
  intros (a & bs & L) Hn HQ. pose proof L as []. destruct (li_owns0 _ _ _ Hn) as [Ho _].
  destruct (owns_for _ _ _ _ li_cache0 Ho) as (x & Hx & _). unfold b_data, log_layer, on_bio. apply wp_part.
  apply (wp_bfield _ _ _ _ _ x); [done|]. rewrite (owns_data _ _ _ _ _ li_cache0 Ho Hx), (log_in_get _ _ _ _ _ L).
  by destruct l.
Qed.

Lemma log_b_modify P m l k n i c f Q :
  log_rep_in l k -> k_held k !! n = Some (i, c) -> length (f (k_get n k)) = Z.to_nat BSIZE ->
  (forall l', log_rep_in l' (k_hold n i false (k_put n (f (k_get n k)) k)) -> Q tt (m, l')) ->
  wp P (b_modify i f) (m, l) Q.
Proof.
  intros (a & bs & L) Hn Hf HQ. pose proof L as []. destruct (li_owns0 _ _ _ Hn) as [Ho _].
  destruct (log_in_held _ _ _ _ _ _ _ L Hn) as [Hah Hr].
  unfold b_modify, log_layer, on_bio. apply wp_part, wp_bset, HQ. cbn [fst snd lbio].
  rewrite <- (log_in_get _ _ _ _ _ L) in *.
  destruct (cacheR_update me a (lbio l) i n f li_cache0 Ho Hah Hf) as [HR Hk].
  exists (a_set n (f (a_get n a)) a), bs. constructor; try done; cbn.
  - destruct li_list0. by constructor.
  - by eapply held_same.
  - intros n' j c' Hn'. destruct (decide (n' = n)) as [->|Hne].
    + rewrite lookup_insert_eq in Hn'. simplify_eq. split; [by apply Hk|done].
    + rewrite lookup_insert_ne in Hn' by done. destruct (li_owns0 _ _ _ Hn') as [Hj Hc]. split; [by apply Hk|].
      destruct (log_in_held _ _ _ _ _ _ _ L Hn') as [_ Hr']. rewrite list_lookup_insert_ne by lia. done.
  - by rewrite li_data0.
Qed.

Lemma log_b_rel P m l k n i Q :
  msec ∅ m -> log_rep_in l k -> k_held k !! n = Some (i, true) ->
  (forall m' l', quiet ∅ m m' -> log_rep_in l' (k_drop n k) -> Q tt (m', l')) ->
  wp P (b_rel i) (m, l) Q.
Proof.
  intros Hm (a & bs & L) Hn HQ. pose proof L as []. destruct (li_owns0 _ _ _ Hn) as [Ho Hc].
  destruct (log_in_held _ _ _ _ _ _ _ L Hn) as [Hah Hr].
  unfold b_rel, log_layer, on_bio. apply wp_part.
  apply (wp_brelse _ _ a _ _ _ n); [done|done|done|done|by apply Hc|].
  intros m' st' Hm' HR' Hk. apply HQ; [done|]. exists (a_drop n a), bs. constructor; try done; cbn.
  - destruct li_list0. by constructor.
  - by rewrite li_held0, fmap_delete.
  - intros n' j c' Hn'. apply lookup_delete_Some in Hn' as [Hne Hn']. destruct (li_owns0 _ _ _ Hn') as [Hj Hc'].
    split; [by apply Hk|done].
Qed.

Lemma log_b_log P m l k n i c Q :
  msec ∅ m -> log_rep_in l k -> k_held k !! n = Some (i, c) -> ~ (k_lo k <= n < k_hi k) ->
  (k_full k -> P (FPanic "too big a transaction")) ->
  (forall m' l', quiet ∅ m m' -> log_rep_in l' (k_hold n i true (k_log n k)) -> Q tt (m', l')) ->
  wp P (b_log i) (m, l) Q.
Proof.
  intros Hm (a & bs & L) Hn Hlo Hp HQ. pose proof L as []. destruct (li_owns0 _ _ _ Hn) as [Ho _].
  destruct (log_in_held _ _ _ _ _ _ _ L Hn) as [Hah Hr]. pose proof (size_logged _ _ _ _ L) as Hsz.
  pose proof (ll_n _ _ li_list0) as Hlhn. unfold b_log, log_layer.
  assert (l = set_lbio (lbio l) l) as Hl by (by destruct l).
  destruct (decide (lhn l < LOGSIZE /\ lhn l < lsize l - 1)) as [[Hn1 Hn2]|Hbig].
  2:{ unfold log_write. wp_next. apply wp_data, wp_gets. unfold id. cbn [snd].
      replace ((lhn l >=? LOGSIZE) || (lhn l >=? lsize l - 1)) with true by lia.
      apply wp_panic, Hp. unfold k_full. rewrite li_cap0, Hsz. unfold LOGSIZE, MAXOPBLOCKS in *. lia. }
  rewrite Hl at 1. apply (wp_log_write _ l bs _ _ _ n); [done|done|done|lia|done|done|].
  intros m' Hm'. apply HQ; [done|]. destruct (cacheR_pin a (lbio l) i n li_cache0 Ho) as [HR Hk].
  exists (a_pin n a), (logged n bs). destruct li_list0. constructor; try done; cbn.
  - constructor; cbn; [done|done|by rewrite length_insert| |by apply NoDup_logged]. by apply logged_take.
  - by rewrite logged_set, li_pin0.
  - by eapply held_same.
  - intros n' j c' Hn'. destruct (decide (n' = n)) as [->|Hne].
    + rewrite lookup_insert_eq in Hn'. simplify_eq. split; [by apply Hk|]. intros _. left. set_solver.
    + rewrite lookup_insert_ne in Hn' by done. destruct (li_owns0 _ _ _ Hn') as [Hj Hc]. split; [by apply Hk|].
      intros Hc'. destruct (Hc Hc'); [left; set_solver|by right].
  - by rewrite logged_set, li_logged0.
  - intros b Hb. apply elem_logged in Hb as [->|Hb]; [|by apply li_home0].
    unfold home, asize in *. split; [lia|]. lia.
  - rewrite length_logged. destruct (decide _); lia.
Qed.

#[local] Instance log_laws : BlockLaws lst.
Proof.
  refine {| b_rep := log_rep_in |}.
  - intros l k (a & bs & L). destruct (log_in_size _ _ _ _ L) as [_ Hok]. destruct L. rewrite <- li_data0. apply Hok.
  - exact log_b_read.
  - exact log_b_data.
  - exact log_b_modify.
  - exact log_b_log.
  - exact log_b_rel.
Defined.

End layer.
