(* ===== verification/FsCreate.v ===== *)
(** * create, open, mkdir, mknod, chdir, close, write *)

From stdpp Require Import base numbers gmap sets list strings.
From S2P Require Import Prelude CString Spinlock Sleeplock Bio BioRing BioSpec.
From S2P Require Import Log LogSpec LogThms LogTxn Pipe File Fs FsBlock FsAlloc FsFile FsInode FsDinode FsRW FsTrunc FsIcache FsDir.
From S2P Require Import SysFile FsNames FsCheck FsCache FsOps FsTree FsCalls.
Open Scope Z_scope.

Lemma nfind_ext G G' d name : (forall o, G !! (d, o) = G' !! (d, o)) -> nfind G d name = nfind G' d name.
Proof. intros E. apply find_at_ext. intros o _. by rewrite E. Qed.

Lemma nfind_none G d name : (forall o e, G !! (d, o) = Some e -> names name e = false) -> nfind G d name = None.
Proof.
  intros Hn. unfold nfind. induction (dir_offs (MAXFILE * BSIZE)) as [|o offs IH]; cbn [find_at]; [done|].
  destruct (G !! (d, o)) as [e|] eqn:E; [|exact IH].
  change (default [] (Some e)) with e. by rewrite (Hn o e E), andb_false_r.
Qed.

Section create.
Context {X : Type} `{TW : TxnLaws X} (me : Z) (sb : superblock) (devs : Z -> @devsw X) (name0 de0 : list Z).
Context (P : failure -> Prop) {SO : short_of P}.
Context (Hsmall : 32 * sb_size sb < 32767) (Hino : sb_ninodes sb <= 65536) (Hde : length de0 = 16%nat).
Context (H : refs) (A : ns) (k : blks) (t : mach * fs X) (HR : fs_rest me sb H A k t).
Context (cwd : nat) (c rc : Z) (Hcwd : H !! cwd = Some (c, rc)) (Hc : nT A c = T_DIR).
Context (O : gset Z) (HT : tree_ok O ∅ no_surplus A).

Notation at_fs := (at_fs me sb t.1 (same_blocks (k_begin k))).
Notation after := (after me sb A k).

(** What [create] makes in the directory [d]: the inode and the name space. *)
Definition made (d : Z) (name : list Z) (type num : Z) (A' : ns) : Prop := exists o e,
  nT A num = 0 /\ nG A !! (d, o) = None /\ 32 <= o /\ names name e = true /\ de_inum e = num /\
  if decide (type = T_DIR) then exists e0 e1, de_inum e0 = num /\ names DOT e0 = true /\ de_inum e1 = d /\ names DOTDOT e1 = true /\
    A' = mkdir_ns A d o e e0 e1
  else A' = add_entry (relink (new_inode A num type) num 1) d o e.

Definition created (path : list Z) (type : Z) (r : option Z) (A' : ns) : Prop :=
  match resolve A c path true name0 with
  | (None, _) => r = None /\ A' = A
  | (Some d, name) =>
      match nfind (nG A) d name with
      | Some (v, _) => r = (if (type =? T_FILE) && (nT A v =? T_FILE) then Some v else None) /\ A' = A
      | None => exists num, r = Some num /\ made d name type num A'
      end
  end.

(** ** The entries [.] and [..] of a new directory *)

Lemma at_dots dp d rd ip num rj H2 L t1 (Q : unit -> mach * fs X -> Prop) :
  let A2 := relink (new_inode A num T_DIR) num 1 in
  at_fs L H2 A2 t1 -> H2 !! dp = Some (d, rd) -> H2 !! ip = Some (num, rj) -> dp ∈ L -> ip ∈ L ->
  nT A num = 0 -> 0 < num < sb_ninodes sb -> nT A d = T_DIR -> 0 < d < sb_ninodes sb -> 0 <= nN A d < 32767 ->
  (forall t' e0 e1, de_inum e0 = num -> names DOT e0 = true -> de_inum e1 = d -> names DOTDOT e1 = true ->
     (forall name, names name e0 = true -> namecmp name DOT = 0) -> (forall name, names name e1 = true -> namecmp name DOTDOT = 0) ->
     at_fs L H2 (add_entry (add_entry (relink A2 d 1) num 0 e0) num 16 e1) t' -> Q tt t') ->
  wp P (iset (set_i_d (add_nlink 1)) dp;; iupdate sb dp;; inum ← iread i_num ip; r ← dirlink me sb devs ip DOT inum de0;
        b ← (if r <? 0 then mret true else dnum ← iread i_num dp; r ← dirlink me sb devs ip DOTDOT dnum de0; mret (r <? 0));
        if (b : bool) then panic "create dots" else mret tt) t1 Q.
Proof.
  intros A2 HA Hdp Hip HdpL HipL Hnum Hnr Hd Hdr HNd HQ.
  assert (d ≠ num) as Hne by (intros ->; by rewrite Hd in Hnum). assert (forall o, nG A !! (num, o) = None) as Hno by (intros o; by eapply no_entry).
  assert (nT A2 num = T_DIR /\ nN A2 d = nN A d) as [HT2 HN2] by (cbn; unfold upd, bump; by rewrite !decide_True, !decide_False by done).
  apply wp_then2. call at_nlink; [done|done|done|lia|]. intros t2 HA2. wp_next. call at_read; [done|done|]. intros i1 -> _ _ _ _.
  wp_next. call at_dirlink; [done|done|done|done|apply nfind_none; intros o e E; by rewrite Hno in E|lia|done|].
  intros t3 u e0 Hu Hu0 Hfirst (old0 & -> & Hl0) Ee0 HA3. assert (u = 0) as ->.
  { destruct (decide (u = 0)); [done|]. destruct (Hfirst 0); [lia|unfold DESIZE; lia|apply Hno]. }
  cbn [Z.ltb Z.compare]. wp_next. wp_next. call at_read; [done|done|]. intros i2 -> _ _ _ _.
  wp_next. call at_dirlink; [done|done|done|done| |lia|done|].
  { apply nfind_none. intros o e. cbn [nG]. intros [[[= _] <-]|[_ E]]%lookup_insert_Some; [|by rewrite Hno in E].
    unfold names. rewrite dot_name by done. done. }
  intros t4 v e1 Hv Hv0 Hfirst1 (old1 & -> & Hl1) Ee1 HA4. cbn [nG] in Hv0, Hfirst1. assert (v = 1) as ->.
  { assert (v ≠ 0) by (intros ->; by rewrite lookup_insert_eq in Hv0). destruct (decide (v = 1)); [done|].
    destruct (Hfirst1 1); [lia|unfold DESIZE; lia|]. rewrite lookup_insert_ne by (intros [=]). apply Hno. }
  apply wp_ret, wp_ret. apply (HQ t4 (new_entry DOT num old0) (new_entry DOTDOT d old1));
    [exact Ee0|by apply new_entry_name|exact Ee1|by apply new_entry_name| | |exact HA4]; intros name.
  - exact (proj1 (names_dot_entry name num old0 Hl0)).
  - exact (proj2 (names_dot_entry name d old1 Hl1)).
Qed.

(** ** create *)

(** The name for the new inode, and the release of the directory. *)
Lemma at_make_name dp d rd ip num rj H1 H2 A3 L name type t1 (Q : option nat -> mach * fs X -> Prop) :
  at_fs L H2 A3 t1 -> got H d dp H1 -> got H1 num ip H2 -> H2 !! dp = Some (d, rd) -> H2 !! ip = Some (num, rj) -> dp ∈ L -> ip ∈ L -> ip ≠ dp ->
  L ∖ {[dp]} = {[ip]} ∪ ∅ -> nT A d = T_DIR -> d ≠ num -> 0 < num < sb_ninodes sb -> nfind (nG A) d name = None ->
  nT A3 d = T_DIR -> 0 < nN A d -> 0 < nN A3 d -> (forall o, nG A3 !! (d, o) = nG A !! (d, o)) ->
  (forall o e, nG A !! (d, o) = None -> 32 <= o -> names name e = true -> de_inum e = num ->
     made d name type num (add_entry A3 d o e) /\ tree (add_entry A3 d o e)) ->
  (forall t' H' A', made d name type num A' -> tree A' -> got H num ip H' -> at_fs ({[ip]} ∪ ∅) H' A' t' -> Q (Some ip) t') ->
  wp P (inum ← iread i_num ip; r ← dirlink me sb devs dp name inum de0;
        if r <? 0 then panic "create: dirlink" else iunlockput me sb dp;; mret (Some ip)) t1 Q.
Proof.
  intros HA Hg1 Hg2 Hdp Hip HdpL HipL Hne HL Hd Hdn Hnum Hf Hd3 HNd HN3 HG Hmade HQ.
  wp_next. call at_read; [done|done|]. intros i -> _ _ _ _. wp_next.
  call at_dirlink; [done|done|done|done|by rewrite (nfind_ext _ (nG A))|lia|done|].
  intros t2 u e Hu Hnone _ (old & Ee & Hl) Einum HA2. assert (names name e = true) as Hname by (rewrite Ee; by apply new_entry_name).
  rewrite HG in Hnone. pose proof (slot_child _ _ _ _ _ HT Hd HNd Hu Hnone) as Ho. destruct (Hmade _ e Hnone Ho Hname Einum) as [Hm HT'].
  cbn [Z.ltb Z.compare]. wp_next. call at_iunlockput_named; [done|done|done|done|].
  intros t3 HA3. rewrite HL in HA3. apply wp_ret. eapply HQ; [exact Hm|exact HT'| |exact HA3]. eapply got_move; [by eapply rest_pos|done|done].
Qed.

Lemma at_make_new dp d H1 name type major minor t1 (Q : option nat -> mach * fs X -> Prop) :
  at_fs ({[dp]} ∪ ∅) H1 A t1 -> got H d dp H1 -> nT A d = T_DIR -> 0 < nN A d -> nfind (nG A) d name = None -> 0 < type < 32768 ->
  -32768 <= major < 32768 -> -32768 <= minor < 32768 ->
  (forall t' ip num H' A', made d name type num A' -> tree A' -> got H num ip H' -> at_fs ({[ip]} ∪ ∅) H' A' t' -> Q (Some ip) t') ->
  wp P (dev ← iread i_dev dp;
        ip ← ialloc sb dev type;
        ilock me sb ip;;
        iset (set_i_d (set_d_nums major minor 1)) ip;;
        iupdate sb ip;;
        when (type =? T_DIR) (
          iset (set_i_d (add_nlink 1)) dp;; iupdate sb dp;; inum ← iread i_num ip; r ← dirlink me sb devs ip DOT inum de0;
          b ← (if r <? 0 then mret true else dnum ← iread i_num dp; r ← dirlink me sb devs ip DOTDOT dnum de0; mret (r <? 0));
          if (b : bool) then panic "create dots" else mret tt);;
        inum ← iread i_num ip;
        r ← dirlink me sb devs dp name inum de0;
        if r <? 0 then panic "create: dirlink" else iunlockput me sb dp;; mret (Some ip)) t1 Q.
Proof.
  intros HA Hg Hd HNd Hf Hty Hmaj Hmin HQ. pose proof (linked_in _ _ _ _ _ HT HNd) as HdO. destruct (got_at _ _ _ _ Hg) as [rd Hrd].
  wp_next. call at_read; [done|done|]. intros i0 _ -> _ _ _. apply (wp_then2 P (ialloc sb 1 type) (fun ip => ilock me sb ip)).
  call (at_ialloc me sb devs); [done|done|]. intros num ip t2 Hnum Hdead Hfree HipL HA2. fold (new_inode A num type) in HA2.
  set (H2 := <[ip := (num, 1)]> H1) in *. set (L := {[ip]} ∪ ({[dp]} ∪ ∅) : gset nat) in *.
  assert (ip ≠ dp) as Hne by (intros ->; congruence). assert (d ≠ num) as Hdn by (intros ->; by rewrite Hd in Hdead).
  assert (H2 !! dp = Some (d, rd) /\ H2 !! ip = Some (num, 1)) as [Hdp2 Hip2] by (unfold H2; by rewrite lookup_insert_ne, lookup_insert_eq by done).
  assert (got H1 num ip H2) as Hg2.
  { right. split_and!; [done| |done]. intros a r Ha. destruct HA as (_ & k1 & _ & _ & HD & HC).
    destruct (cached_at _ _ _ _ _ _ _ _ _ HC Ha) as (x & _ & _ & _ & _ & _ & Hal & _). by rewrite (dk_T _ _ _ HD), Hdead in Hal. }
  assert (dp ∈ L /\ ip ∈ L /\ L ∖ {[dp]} = {[ip]} ∪ ∅) as (HdpL & HipL2 & HL) by (unfold L; set_solver).
  apply wp_then2. call (at_attr me sb P t.1 (same_blocks (k_begin k)) L H2 _ t2 ip num 1 _ 1); [done|done|done| |].
  { intros di [] _ Enl. cbn in Enl. unfold upd in Enl. rewrite decide_True in Enl by done. split_and!; [|done|done|done|cbn; lia]. by constructor. }
  intros t3 HA3. fold (relink (new_inode A num type) num 1) in HA3. wp_next. apply wp_when; intros Edir.
  - assert (type = T_DIR) as -> by lia. pose proof (at_bound me sb t.1 (same_blocks (k_begin k)) Hsmall _ _ _ _ _ _ _ d HA HT ltac:(by rewrite Hd)) as Hb.
    unfold no_surplus in Hb. eapply (at_dots dp d rd ip num 1 H2 L); [exact HA3|done|done|done|done|done|done|done|eapply at_dir_inum; [exact HA|exact HT|done|done]|lia|].
    intros t4 e0 e1 E0 N0 E1 N1 D0 D1 HA4. eapply (at_make_name dp d rd ip num 1 H1 H2 _ L name T_DIR); try done.
    + cbn. unfold upd. by rewrite decide_False.
    + cbn. unfold upd, bump. rewrite decide_True, !decide_False by done. lia.
    + intros o. cbn. by rewrite !lookup_insert_ne by congruence.
    + intros o e Hno Ho Hname Ee. split.
      * exists o, e. split_and!; try done. rewrite decide_True by done. exists e0, e1. unfold mkdir_ns. by rewrite Ee.
      * exists O. pose proof (tree_mkdir O A d o e e0 e1 HT) as HT'. unfold mkdir_ns in HT'. rewrite Ee in HT'. by apply HT'.
    + intros t5 H' A'. by apply HQ.
  - assert (type ≠ T_DIR) as Hnd by lia. eapply (at_make_name dp d rd ip num 1 H1 H2 _ L name type); try done.
    + cbn. unfold upd. by rewrite decide_False.
    + cbn. unfold upd, bump. by rewrite !decide_False by done.
    + intros o e Hno Ho Hname Ee. split.
      * exists o, e. split_and!; try done. by rewrite decide_False.
      * exists O. rewrite <- Ee. apply tree_make; rewrite ?Ee; try done. lia.
    + intros t5 H' A'. by apply HQ.
Qed.

Lemma made_linked d name type num A' : made d name type num A' -> 0 < nN A' num.
Proof.
  intros (o & e & _ & _ & _ & _ & <- & Hm). destruct (decide (type = T_DIR)) as [_|_]; [destruct Hm as (e0 & e1 & _ & _ & _ & _ & ->)|subst A'];
    cbn; unfold upd, bump; repeat case_decide; done || lia.
Qed.

Lemma at_create path type major minor t1 (Q : option nat -> mach * fs X -> Prop) :
  at_fs ∅ H A t1 -> 0 < nN A (start c path) -> 0 < type < 32768 -> -32768 <= major < 32768 -> -32768 <= minor < 32768 ->
  (forall t', created path type None A -> at_fs ∅ H A t' -> Q None t') ->
  (forall t' ip v H' A', created path type (Some v) A' -> tree A' -> 0 < nN A' v -> got H v ip H' ->
     at_fs ({[ip]} ∪ ∅) H' A' t' -> Q (Some ip) t') ->
  wp P (create me sb devs name0 de0 cwd path type major minor) t1 Q.
Proof.
  intros HA Hs Hty Hmaj Hmin HQ1 HQ2. pose proof (rest_pos _ _ _ _ _ _ HR) as HP. unfold created in *.
  unfold create. wp_next. unfold nameiparent. eapply (at_namex me sb devs P _ _ _ _ zero_pos H A HT HP cwd c rc); [done|done|done|].
  destruct (resolve A c path true name0) as [[d|] name] eqn:E1; cbn [found].
  2:{ intros t2 HA2. apply wp_ret. by apply HQ1. }
  intros t2 dp H1 Hg HA2. destruct (got_at _ _ _ _ Hg) as [rd Hrd]. apply walk_parent in E1 as Hd.
  destruct (resolve_linked name0 A c Hc O HT _ _ _ _ Hs E1) as [_ HNd].
  wp_next. call at_ilock; [done|done|set_solver|]. intros t3 HA3.
  wp_next. call at_dirlookup; [done|done|set_solver|done|intros o e; by eapply tree_live| |].
  { intros t4 Hf HA4. rewrite Hf in *. eapply at_make_new; [done|done|done|done|done|done|done|done|].
    intros t5 ip num H' A' Hm HT' Hg' HA5. eapply HQ2; [by exists num|done|by eapply made_linked|done|done]. }
  intros t4 v o ip H2 Hf Hg2 HA4. rewrite Hf in *. destruct (nfind_linked _ _ zero_pos A HT _ _ _ _ HNd Hf) as [Hv HNv].
  destruct (got_at _ _ _ _ Hg2) as [rv Hrv]. destruct (got_keep _ _ _ _ _ _ _ Hg2 Hrd) as [rd2 Hrd2].
  wp_next. call at_iunlockput_named; [done|done|set_solver|done|]. intros t5 HA5. rewrite only_lock in HA5.
  pose proof (got_move _ _ _ _ _ _ _ HP Hg Hg2) as Hg3. destruct (got_at _ _ _ _ Hg3) as [rv3 Hrv3].
  wp_next. call at_ilock; [done|done|set_solver|]. intros t6 HA6. wp_next. unfold itype. call at_read; [done|done|].
  intros i _ _ _ _ Hi. rewrite (proj1 (Hi ltac:(set_solver))). destruct ((type =? T_FILE) && (nT A v =? T_FILE)).
  - apply wp_ret. eapply HQ2; [done|by eexists|done|done|done].
  - wp_next. call at_iunlockput_named; [done|done|set_solver|done|]. intros t7 HA7. rewrite only_lock, (got_unref H v ip) in HA7 by done.
    apply wp_ret. by apply HQ1.
Qed.

(** ** open *)

Definition opened (path : list Z) (omode : Z) (r : option Z) (A' : ns) : Prop :=
  if negb (Z.land omode O_CREATE =? 0) then created path T_FILE r A' else
  A' = A /\ r = match (resolve A c path false name0).1 with
                | Some v => if (nT A v =? T_DIR) && negb (omode =? O_RDONLY) then None else Some v
                | None => None
                end.

Lemma at_open_path path omode t1 (Q : option nat -> mach * fs X -> Prop) :
  at_fs ∅ H A t1 -> 0 < nN A (start c path) ->
  (forall t', opened path omode None A -> at_fs ∅ H A t' -> Q None t') ->
  (forall t' ip v H' A', opened path omode (Some v) A' -> tree A' -> 0 < nN A' v -> got H v ip H' ->
     at_fs ({[ip]} ∪ ∅) H' A' t' -> Q (Some ip) t') ->
  wp P (open_path me sb devs name0 de0 cwd path omode) t1 Q.
Proof.
  intros HA Hs HQ1 HQ2. pose proof (rest_pos _ _ _ _ _ _ HR) as HP. unfold open_path, opened in *.
  destruct (negb (Z.land omode O_CREATE =? 0)); [by apply at_create|].
  wp_next. unfold namei. wp_next. eapply (at_namex me sb devs P _ _ _ _ zero_pos H A HT HP cwd c rc); [done|done|done|].
  destruct (resolve A c path false name0) as [[v|] n1] eqn:E1; cbn [found fst] in *.
  2:{ intros t2 HA2. apply wp_ret, wp_ret. by apply HQ1. }
  intros t2 ip H1 Hg HA2. apply wp_ret. cbn [fst]. destruct (got_at _ _ _ _ Hg) as [r1 Hr1].
  destruct (resolve_linked name0 A c Hc O HT _ _ _ _ Hs E1) as [Hv HNv].
  wp_next. call at_ilock; [done|done|set_solver|]. intros t3 HA3. wp_next. unfold itype. call at_read; [done|done|].
  intros i _ _ _ _ Hi. rewrite (proj1 (Hi ltac:(set_solver))). destruct ((nT A v =? T_DIR) && negb (omode =? O_RDONLY)).
  - wp_next. call at_iunlockput_named; [done|done|set_solver|done|]. intros t4 HA4. rewrite only_lock, (got_unref H v ip) in HA4 by done.
    apply wp_ret. by apply HQ1.
  - apply wp_ret. eapply HQ2; [done|by eexists|done|done|done].
Qed.

(** With [ok], [filealloc] and [fdalloc] succeed. *)
Definition open_result (ok : bool) (v : option Z) (r : option nat) (H' : refs) : Prop :=
  match v, r with
  | Some v, Some ip => ok = true /\ got H v ip H'
  | Some v, None => ok = false /\ H' = H
  | None, None => H' = H
  | None, Some _ => False
  end.

Lemma at_sys_open path omode ok : 0 < nN A (start c path) ->
  wp P (sys_open me sb devs name0 de0 cwd (Some path) (Some omode) ok) t
    (fun r t' => exists v H' A', opened path omode v A' /\ open_result ok v r H' /\ after H' A' t').
Proof.
  intros Hs. pose proof (rest_tree _ _ _ _ _ _ HR) as HTA. pose proof (rest_pos _ _ _ _ _ _ HR) as HP. unfold sys_open. wp_next. eapply at_begin; [exact HR|].
  intros t1 HA1. wp_next. apply at_open_path; [done|done| |].
  - intros t2 Ho HA2. eapply at_return; [done|done|done|]. intros t' Ha. exists None, H, A. done.
  - intros t2 ip v H' A' Ho HT' HN Hg HA2. destruct (got_at _ _ _ _ Hg) as [r1 Hr1]. destruct ok; cbn [negb].
    + wp_next. call at_iunlock; [done|done|set_solver|]. intros t3 HA3. rewrite only_lock in HA3. eapply at_return; [done|done|done|].
      intros t' Ha. by exists (Some v), H', A'.
    + wp_next. call at_iunlockput_named; [done|done|set_solver|done|]. intros t3 HA3. rewrite only_lock, (got_unref H v ip) in HA3 by done.
      eapply at_return; [done|done|done|]. intros t' Ha. by exists (Some v), H, A'.
Qed.

(** ** mkdir and mknod *)

Lemma i16_range z : -32768 <= i16 z < 32768.
Proof. unfold i16. pose proof (Z.mod_pos_bound (z + 32768) 65536). lia. Qed.

Lemma at_make path type major minor : 0 < nN A (start c path) -> 0 < type < 32768 ->
  wp P (make me sb devs name0 de0 cwd (Some path) type (Some (major, minor))) t
    (fun r t' => exists v A', created path type v A' /\ r = (if v then 0 else -1) /\ after H A' t').
Proof.
  intros Hs Hty. pose proof (rest_tree _ _ _ _ _ _ HR) as HTA. pose proof (rest_pos _ _ _ _ _ _ HR) as HP. unfold make. wp_next. eapply at_begin; [exact HR|].
  intros t1 HA1. wp_next. apply at_create; [done|done|done|apply i16_range|apply i16_range| |].
  - intros t2 Hcr HA2. eapply at_return; [done|done|done|]. intros t' Ha. by exists None, A.
  - intros t2 ip v H' A' Hcr HT' HN Hg HA2. destruct (got_at _ _ _ _ Hg) as [r1 Hr1].
    wp_next. call at_iunlockput_named; [done|done|set_solver|done|]. intros t3 HA3. rewrite only_lock, (got_unref H v ip) in HA3 by done.
    eapply at_return; [done|done|done|]. intros t' Ha. by exists (Some v), A'.
Qed.

(** ** close, and the end of a process *)

(** The last reference to a file or a directory without a name frees it. *)
Definition put_ns (j r : Z) : ns := if decide (r = 1 /\ nN A j = 0) then free_inode A j else A.

Lemma tree_put j r : nT A j ≠ 0 -> tree (put_ns j r).
Proof.
  intros Hj. unfold put_ns. case_decide as E; [|by exists O]. destruct E as [_ HN]. destruct (decide (j ∈ O)) as [Hin|Hout].
  - eexists. by apply tree_free_dir.
  - exists O. apply tree_free; try done. intros Hd. pose proof (tree_dir_linked O no_surplus zero_pos A HT j Hd Hout). lia.
Qed.

Lemma at_put H1 t1 ip j r (Q : unit -> mach * fs X -> Prop) : at_fs ∅ H1 A t1 -> H1 !! ip = Some (j, r) ->
  (forall t', tree (put_ns j r) -> at_fs ∅ (unref ip H1) (put_ns j r) t' -> Q tt t') -> wp P (iput me sb ip) t1 Q.
Proof.
  intros HA Hip HQ. assert (nT A j ≠ 0) as Hj.
  { destruct HA as (_ & k1 & _ & _ & HD & HC). destruct (cached_at _ _ _ _ _ _ _ _ _ HC Hip) as (x & _ & _ & _ & _ & _ & Hal & _). by rewrite <- (dk_T _ _ _ HD). }
  pose proof (tree_put j r Hj) as Htr. call at_iput; [done|done|set_solver| |].
  - intros t2 Hor HA2. apply HQ; [done|]. unfold put_ns. rewrite decide_False; [done|]. tauto.
  - intros t2 -> HN HA2. apply HQ; [done|]. unfold put_ns. by rewrite decide_True.
Qed.

Lemma at_close_inode ip j r : H !! ip = Some (j, r) ->
  wp P (close_inode me sb ip) t (fun _ t' => after (unref ip H) (put_ns j r) t').
Proof.
  intros Hip. unfold close_inode. wp_next. eapply at_begin; [exact HR|]. intros t1 HA1.
  wp_next. eapply at_put; [done|done|]. intros t2 HT2 HA2. eapply at_end; [done|done|done|done].
Qed.

(** ** chdir *)

(** The old current directory is given back; it may have been removed. *)
Definition chdir_to (path : list Z) (r : Z * nat) (H' : refs) (A' : ns) : Prop :=
  match (resolve A c path false name0).1 with
  | Some v => if nT A v =? T_DIR
              then exists ip H1 rc1, r = (0, ip) /\ got H v ip H1 /\ H1 !! cwd = Some (c, rc1) /\ H' = unref cwd H1 /\ A' = put_ns c rc1
              else r = (-1, cwd) /\ H' = H /\ A' = A
  | None => r = (-1, cwd) /\ H' = H /\ A' = A
  end.

Lemma at_sys_chdir path : 0 < nN A (start c path) ->
  wp P (sys_chdir me sb devs name0 cwd (Some path)) t (fun r t' => exists H' A', chdir_to path r H' A' /\ after H' A' t').
Proof.
  intros Hs. pose proof (rest_tree _ _ _ _ _ _ HR) as HTA. pose proof (rest_pos _ _ _ _ _ _ HR) as HP. unfold sys_chdir, chdir_to. wp_next. eapply at_begin; [exact HR|].
  intros t1 HA1. wp_next. unfold namei. wp_next. eapply (at_namex me sb devs P _ _ _ _ zero_pos H A HT HP cwd c rc); [done|done|done|].
  destruct (resolve A c path false name0) as [[v|] n1] eqn:E1; cbn [found fst] in *.
  2:{ intros t2 HA2. apply wp_ret. eapply at_return; [done|done|done|]. intros t' Ha. by exists H, A. }
  intros t2 ip H1 Hg HA2. apply wp_ret. cbn [fst]. destruct (got_at _ _ _ _ Hg) as [r1 Hr1].
  destruct (resolve_linked name0 A c Hc O HT _ _ _ _ Hs E1) as [Hv HNv].
  wp_next. call at_ilock; [done|done|set_solver|]. intros t3 HA3. wp_next. unfold itype. call at_read; [done|done|].
  intros i _ _ _ _ Hi. rewrite (proj1 (Hi ltac:(set_solver))). destruct (nT A v =? T_DIR) eqn:Ety; cbn [negb].
  - wp_next. call at_iunlock; [done|done|set_solver|]. intros t4 HA4. rewrite only_lock in HA4.
    destruct (got_keep _ _ _ _ _ _ _ Hg Hcwd) as [rc1 Hcwd1]. wp_next. eapply at_put; [done|done|]. intros t5 HT5 HA5.
    eapply at_return; [done|done|done|]. intros t' Ha. exists (unref cwd H1), (put_ns c rc1). split; [|done]. by exists ip, H1, rc1.
  - wp_next. call at_iunlockput_named; [done|done|set_solver|done|]. intros t4 HA4. rewrite only_lock, (got_unref H v ip) in HA4 by done.
    eapply at_return; [done|done|done|]. intros t' Ha. by exists H, A.
Qed.

End create.

(** ** filewrite

    A write to an open file takes several transactions, of at most [write_max] bytes
    each; the name space stays as it is.  The turns of the loop are enough. *)

Section write.
Context {X : Type} `{TW : TxnLaws X} (me : Z) (sb : superblock) (devs : Z -> @devsw X).
Context (P : failure -> Prop) {SO : short_of P}.

Lemma at_writei m0 KR {KS : writes_in KR} L H A t ip j r src off n Q :
  at_fs me sb m0 KR L H A t -> H !! ip = Some (j, r) -> ip ∈ L -> nT A j ≠ T_DIR -> nT A j ≠ T_DEV ->
  0 <= off < 4294967296 -> 0 <= n < 4294967296 -> n <= Z.of_nat (length src) ->
  (forall v t', v = n \/ v = -1 -> at_fs me sb m0 KR L H A t' -> Q v t') ->
  wp P (writei sb devs ip src off n) t Q.
Proof.
  intros HA HH HL Hd Hdev Ho Hn Hlen HQ. pose proof HA as HA0. destruct t as [m s]. pose proof (at_quiet _ _ _ _ _ _ _ _ HA) as Hm.
  destruct HA as (Hq & k & Hs & HI & HD & HC). cbn [fst snd] in *.
  destruct (cached_at _ _ _ _ _ _ _ _ _ HC HH) as (i & Hi & H1 & H2 & H3 & H4 & H5 & H6 & H7).
  rewrite bool_decide_true in H7 by done. specialize (H6 (proj2 H7)). pose proof (dk_blocks _ _ _ HD) as B. pose proof (ity_inum _ _ _ H5) as Hnum.
  destruct (iad_live sb _ _ H5) as [Had Hsz]. assert (addrs i = iad sb (k_data k) j) as Ha by (unfold addrs; by rewrite H6).
  apply (wp_writei sb P (bm_set sb) devs ip i _ _ _ m s k); try done.
  - constructor; try apply HI; [done|done|]. rewrite Ha. apply B.
  - by rewrite H1.
  - rewrite H6. by apply (bo_di _ _ B).
  - by rewrite H6, <- ity_eq, (dk_T _ _ _ HD).
  - rewrite Ha, H6, <- Hsz. apply B.
  - apply elem_bm_set.
  - intros _. apply HQ; [by right|]. done.
  - intros m' s' k' i' _ _ HW. apply HQ; [by left|]. assert (dinode_of sb (k_data k) j = i_d i) as Hsync by done.
    pose proof Hsync as Hsync'. rewrite <- H1 in Hsync'. destruct (wrote_touched sb _ _ _ _ _ _ _ _ _ _ _ _ _ _ Hsync' HW) as [TH _]. rewrite H1 in TH.
    pose proof (data0_pos sb k ltac:(apply HI)) as H0.
    assert (disk_ok sb (k_data k') A) as HD' by (eapply (disk_write sb _ _ j); done). destruct s.
    eapply (at_wrote me sb m0 KR L H A A m m _ k _ ip j r i); try done.
Qed.

Context (H : refs) (A : ns) (ip : nat) (j r : Z) (Hip : H !! ip = Some (j, r)) (Hd : nT A j ≠ T_DIR) (Hdev : nT A j ≠ T_DEV).

Lemma at_filewrite_loop fuel f addr i n k t :
  File.ip f = ip -> fs_rest me sb H A k t -> 0 <= i <= n -> n < 2147483648 -> n - i <= Z.of_nat (length addr) ->
  n - i <= write_max * (Z.of_nat fuel - 1) -> 0 <= File.off f < 4294967296 ->
  wp P (filewrite_loop me sb devs fuel f addr i n) t (fun r t' => r.1 <= n /\ exists k', fs_rest me sb H A k' t' /\ evolves sb k k').
Proof.
  change write_max with 1536. revert f addr i k t. induction fuel as [|fuel IH]; intros f addr i k t Hf HR Hi Hn Hlen Hfuel Hoff; [lia|].
  cbn [filewrite_loop]. change write_max with 1536. destruct (i <? n) eqn:E.
  2:{ apply wp_ret. split; [cbn; lia|]. exists k. split; [done|by eapply evolves_refl]. }
  set (n1 := if n - i >? 1536 then 1536 else n - i). assert (0 < n1 <= n - i /\ (n1 = 1536 \/ n1 = n - i)) as [Hn1 Hn1'] by (unfold n1; destruct (n - i >? 1536) eqn:?; lia).
  wp_next. eapply at_begin; [exact HR|]. intros t1 HA1. rewrite Hf. wp_next. call at_ilock; [done|done|set_solver|]. intros t2 HA2.
  wp_next. call at_writei; [done|done|set_solver|done|done|done|lia|lia|]. intros v t3 Hv HA3.
  wp_next. call at_iunlock; [done|done|set_solver|]. intros t4 HA4. rewrite only_lock in HA4.
  wp_next. eapply at_end; [done|done|apply HR|]. intros t5 Ha. destruct (after_evolves _ _ _ _ _ _ _ _ _ HR Ha) as (k5 & HR5 & Hev).
  destruct Hv as [->| ->].
  - replace (n1 >? 0) with true by lia. replace (n1 <? 0) with false by lia. rewrite Z.eqb_refl. cbn [negb].
    eapply wp_mono; [apply (IH _ _ _ k5); [done|done|lia|lia|rewrite length_drop; lia|lia|apply Z.mod_pos_bound; lia]|].
    intros r' t6 [Hr (k6 & HR6 & Hev6)]. split; [done|]. exists k6. split; [done|by eapply evolves_trans].
  - cbn [Z.gtb Z.ltb Z.compare]. apply wp_ret. split; [cbn; lia|]. eauto.
Qed.

Lemma at_filewrite pipewrite f addr n k t :
  File.type f = File.FD_INODE -> File.ip f = ip -> fs_rest me sb H A k t -> 0 <= n < 2147483648 -> n <= Z.of_nat (length addr) ->
  0 <= File.off f < 4294967296 ->
  wp P (filewrite me sb devs pipewrite f addr n) t (fun r t' => (r.1 = n \/ r.1 = -1) /\ exists k', fs_rest me sb H A k' t' /\ evolves sb k k').
Proof.
  intros Hty Hf HR Hn Hlen Hoff. unfold filewrite. destruct (File.writable f); cbn [negb].
  2:{ apply wp_ret. split; [by right|]. exists k. split; [done|by eapply evolves_refl]. }
  rewrite Hty. wp_next. eapply wp_mono; [apply (at_filewrite_loop _ f addr 0 n k); try done; try lia|].
  - unfold write_fuel. change write_max with 1536. pose proof (Z.div_mod n 1536 ltac:(lia)). pose proof (Z.mod_pos_bound n 1536 ltac:(lia)).
    pose proof (Z.div_pos n 1536 ltac:(lia) ltac:(lia)). lia.
  - intros r' t' [Hr Hk]. apply wp_ret. split; [|done]. cbn. destruct (r'.1 =? n); [by left|by right].
Qed.

End write.
