(* ===== verification/FsRun.v ===== *)
(** * Runs of system calls

    Processes, each with a current directory, and the inodes of the open files.  Calls
    follow one another, each of some process.  The invariant: the disk is a
    consistent file system, and an entry of the inode cache has one reference for
    each current directory and each open file that it is for.  After a crash at any
    disk write of a run, recovery leaves a consistent file system. *)

From stdpp Require Import base numbers gmap sets list strings.
From S2P Require Import Prelude CString Spinlock Sleeplock Bio BioRing BioSpec.
From S2P Require Import Log LogSpec LogThms LogTxn Pipe File Fs FsBlock FsAlloc FsFile FsInode FsDinode FsRW FsTrunc FsIcache FsDir.
From S2P Require Import SysFile FsNames FsCheck FsCache FsOps FsTree FsCalls FsCreate.
Open Scope Z_scope.

(** ** References counted *)

Definition times (ip : nat) (l : list nat) : Z := Z.of_nat (length (filter (eq ip) l)).

Definition counted (H : refs) (l : list nat) : Prop := forall ip, default 0 (snd <$> H !! ip) = times ip l.

Lemma times_cons ip a l : times ip (a :: l) = times ip l + if decide (ip = a) then 1 else 0.
Proof. unfold times. rewrite filter_cons. destruct (decide (ip = a)); cbn [length]; lia. Qed.

Lemma counted_perm H l l' : l ≡ₚ l' -> counted H l -> counted H l'.
Proof. intros Hp Hc ip. rewrite Hc. unfold times. by rewrite Hp. Qed.

Lemma counted_got H v ip H' l : counted H l -> got H v ip H' -> counted H' (ip :: l).
Proof.
  intros Hc Hg a. rewrite times_cons, <- Hc. destruct Hg as [(r & E & ->)|(E & _ & ->)]; (destruct (decide (a = ip)) as [->|Hne];
    [rewrite lookup_insert_eq, E|rewrite lookup_insert_ne by done]); cbn; lia.
Qed.

Lemma counted_unref H ip l : refs_pos H -> counted H (ip :: l) -> counted (unref ip H) l.
Proof.
  intros HP Hc a. pose proof (Hc a) as Ha. rewrite times_cons in Ha. pose proof (Hc ip) as Hi. rewrite times_cons, decide_True in Hi by done.
  assert (0 <= times ip l) as H0 by (unfold times; lia). unfold unref.
  destruct (H !! ip) as [[n r]|] eqn:E; cbn in Hi; [|lia]. specialize (HP _ _ _ E). destruct (decide (a = ip)) as [->|Hne].
  - rewrite E in Ha. cbn in Ha. case_decide; [rewrite lookup_delete_eq|rewrite lookup_insert_eq]; cbn; lia.
  - case_decide; [rewrite lookup_delete_ne by done|rewrite lookup_insert_ne by done]; lia.
Qed.

Lemma counted_in H l ip : counted H l -> ip ∈ l -> exists n r, H !! ip = Some (n, r).
Proof.
  intros Hc Hin. specialize (Hc ip). destruct (H !! ip) as [[n r]|]; [eauto|]. cbn in Hc. unfold times in Hc.
  assert (ip ∈ filter (eq ip) l) as Hf by (by apply list_elem_of_filter). destruct (filter (eq ip) l); [by apply elem_of_nil in Hf|]. cbn in Hc. lia.
Qed.

Lemma got_inv H v ip H' a n r : got H v ip H' -> H' !! a = Some (n, r) -> (a = ip /\ n = v) \/ exists r', H !! a = Some (n, r').
Proof.
  intros [(r0 & E & ->)|(E & _ & ->)] [[-> [= <- <-]]|[_ Ha]]%lookup_insert_Some; eauto.
Qed.

Lemma unref_inv H ip a n r : unref ip H !! a = Some (n, r) -> exists r', H !! a = Some (n, r').
Proof.
  unfold unref. destruct (H !! ip) as [[m s]|] eqn:E; [|eauto].
  case_decide; [intros [_ Ha]%lookup_delete_Some; eauto|intros [[-> [= <- <-]]|[_ Ha]]%lookup_insert_Some; eauto].
Qed.

(** ** Calls *)

Inductive call :=
  | CLink (old new : list Z)
  | CUnlink (path : list Z)
  | CMkdir (path : list Z)
  | CMknod (path : list Z) (major minor : Z)
  | COpen (path : list Z) (omode : Z) (ok : bool)
  | CChdir (path : list Z)
  | CClose (q : nat)
  | CWrite (q : nat) (off : Z) (addr : list Z)
  | CFork
  | CExit.

Section run.
Context {X : Type} `{TW : TxnLaws X} (me : Z) (sb : superblock) (devs : Z -> @devsw X) (name0 de0 : list Z).
Context (pipewrite : Z -> list Z -> Z -> M (mach * fs X) Z).

Notation MF := (M (mach * fs X)).

(** The current directories of the processes, and the inodes of the open files. *)
Record users := mkUsers { u_cwd : list nat; u_open : list nat }.

(** The open file for the inode [ip], at [off], for writing. *)
Definition wfile (ip : nat) (off : Z) : File.file := File.mkFile File.FD_INODE 1 true true 0 ip off.

(** The call of the process [p].  In fork and exit, what they do to the current
    directory: [np->cwd = idup(curproc->cwd)], and [iput(curproc->cwd)] in a transaction. *)
Definition run (u : users) (p : nat) (cl : call) : MF users :=
  match u_cwd u !! p with
  | None => mret u
  | Some cwd =>
      match cl with
      | CLink old new => sys_link me sb devs name0 de0 cwd (Some old) (Some new);; mret u
      | CUnlink path => sys_unlink me sb devs name0 cwd (Some path);; mret u
      | CMkdir path => sys_mkdir me sb devs name0 de0 cwd (Some path);; mret u
      | CMknod path major minor => sys_mknod me sb devs name0 de0 cwd (Some path) (Some (major, minor));; mret u
      | COpen path omode ok =>
          r ← sys_open me sb devs name0 de0 cwd (Some path) (Some omode) ok;
          mret (match r with Some ip => mkUsers (u_cwd u) (ip :: u_open u) | None => u end)
      | CChdir path =>
          r ← sys_chdir me sb devs name0 cwd (Some path);
          mret (mkUsers (<[p := r.2]> (u_cwd u)) (u_open u))
      | CClose q =>
          match u_open u !! q with
          | Some ip => close_inode me sb ip;; mret (mkUsers (u_cwd u) (delete q (u_open u)))
          | None => mret u
          end
      | CWrite q off addr =>
          match u_open u !! q with
          | Some ip => filewrite me sb devs pipewrite (wfile ip off) addr (Z.of_nat (length addr));; mret u
          | None => mret u
          end
      | CFork => idup cwd;; mret (mkUsers (cwd :: u_cwd u) (u_open u))
      | CExit => close_inode me sb cwd;; mret (mkUsers (delete p (u_cwd u)) (u_open u))
      end
  end.

(** ** The invariant *)

Record holds_all (u : users) (H : refs) (A : ns) : Prop := mkHolds {
  ho_count : counted H (u_cwd u ++ u_open u);
  ho_dirs : forall cwd n r, cwd ∈ u_cwd u -> H !! cwd = Some (n, r) -> nT A n = T_DIR }.

(** The path starts in a directory that has not been removed. *)
Definition starts (u : users) (H : refs) (A : ns) (p : nat) (path : list Z) : Prop :=
  forall cwd c r, u_cwd u !! p = Some cwd -> H !! cwd = Some (c, r) -> 0 < nN A (start c path).

(** What is asked of a call.  A directory may be removed while processes use it, but
    then they give paths that start at the root; and only files are written to
    (directories are open for reading only, and devices have drivers of their own). *)
Definition allowed (u : users) (H : refs) (A : ns) (p : nat) (cl : call) : Prop :=
  match cl with
  | CLink old new => starts u H A p old /\ starts u H A p new
  | CUnlink path | CMkdir path | CMknod path _ _ | COpen path _ _ | CChdir path => starts u H A p path
  | CWrite q off addr => 0 <= off < 4294967296 /\ Z.of_nat (length addr) < 2147483648 /\
      forall ip j r, u_open u !! q = Some ip -> H !! ip = Some (j, r) -> nT A j = T_FILE
  | CClose _ | CFork | CExit => True
  end.

(** The call is a [link] to a name that stands for the directory it is in. *)
Definition links_self (u : users) (H : refs) (A : ns) (p : nat) (cl : call) : Prop :=
  match cl with
  | CLink old new => exists cwd c r, u_cwd u !! p = Some cwd /\ H !! cwd = Some (c, r) /\ link_self name0 A c old new
  | _ => False
  end.

Definition good (u : users) (k : blks) (t : mach * fs X) : Prop := exists H A k',
  fs_rest me sb H A k' t /\ holds_all u H A /\ evolves sb k k'.

Lemma holds_keep u H A A' : holds_all u H A -> (forall n, nT A n = T_DIR -> in_use H n -> nT A' n = T_DIR) -> holds_all u H A'.
Proof.
  intros [Hc Hd] HT. constructor; [done|]. intros cwd n r Hin E. apply HT; [by eapply Hd|]. by exists cwd, r.
Qed.

(** ** Types of directories in use stay *)

Lemma linked_keep c A old new r A' n : linked name0 A c old new r A' -> nT A' n = nT A n.
Proof.
  unfold linked. destruct (link_to name0 A c old new) as [[[j d] name]|]; [|by intros (_ & _ & ->)]. by intros (_ & _ & o & e & _ & _ & _ & _ & ->).
Qed.

Lemma unlinked_keep c H A path r A' n : unlinked name0 H A c path r A' -> in_use H n -> nT A' n = nT A n.
Proof.
  unfold unlinked. destruct (unlink_of name0 A c path) as [[[d o] j]|]; [|by intros [_ ->]]. intros [_ Hu] Hin.
  assert (nT A' n = nT A n \/ (nT A' n = upd (nT A) j 0 n /\ ~ in_use H j)) as [->|[-> Hj]]; [|done|].
  - destruct (decide (nT A j = T_DIR)); [|cbv zeta in Hu]; destruct Hu as [Hu|Hu]; [right|left|right|left]; [destruct Hu as [? ->]|by destruct Hu as [_ ->]
      |destruct Hu as (_ & ? & ->)|by destruct Hu as [_ ->]]; done.
  - unfold upd. destruct (decide (n = j)) as [->|]; done.
Qed.

Lemma created_keep c A path type v A' n : created name0 A c path type v A' -> nT A n = T_DIR -> nT A' n = T_DIR.
Proof.
  unfold created. destruct (resolve A c path true name0) as [[d|] name]; [|by intros [_ ->]].
  destruct (nfind (nG A) d name) as [[w o]|]; [by intros [_ ->]|]. intros (num & _ & o & e & H0 & _ & _ & _ & Ee & Hm) Hn.
  assert (n ≠ num) as Hne by (intros ->; by rewrite Hn in H0). destruct (decide (type = T_DIR)) as [_|_].
  - destruct Hm as (e0 & e1 & _ & _ & _ & _ & ->). cbn. unfold upd. by rewrite decide_False by congruence.
  - subst A'. cbn. unfold upd. by rewrite decide_False.
Qed.

(** The reference of a current directory or of an open file. *)
Lemma holds_cwd u H A p cwd : holds_all u H A -> u_cwd u !! p = Some cwd -> exists c r, H !! cwd = Some (c, r) /\ nT A c = T_DIR.
Proof.
  intros [Hc Hd] Hp. apply list_elem_of_lookup_2 in Hp. destruct (counted_in _ _ cwd Hc) as (n & r & E); [apply elem_of_app; by left|]. eauto.
Qed.

Lemma holds_open u H A q ip : holds_all u H A -> u_open u !! q = Some ip -> exists j r, H !! ip = Some (j, r).
Proof. intros [Hc _] Hq. apply list_elem_of_lookup_2 in Hq. apply (counted_in _ _ ip Hc), elem_of_app. by right. Qed.

(** A call that leaves the users as they are. *)
Lemma good_after u H A k t H' A' t' : fs_rest me sb H A k t -> holds_all u H' A' -> after me sb A k H' A' t' -> good u k t'.
Proof. intros HR Hh Ha. destruct (after_evolves _ _ _ _ _ _ _ _ _ HR Ha) as (k' & HR' & Hev). by exists H', A', k'. Qed.

(** *** open, chdir, close, fork, exit *)

Definition refs_uniq (H : refs) : Prop := forall a b n r r', H !! a = Some (n, r) -> H !! b = Some (n, r') -> a = b.

Lemma got_uniq H v ip H' : refs_uniq H -> got H v ip H' -> refs_uniq H'.
Proof.
  intros HU Hg a b n r r' Ea Eb.
  destruct (got_inv _ _ _ _ _ _ _ Hg Ea) as [[-> ->]|[ra Ra]], (got_inv _ _ _ _ _ _ _ Hg Eb) as [[-> Hb]|[rb Rb]]; [done| | |by eapply HU]; subst;
    destruct Hg as [(r0 & E & _)|(_ & Hno & _)]; try (by eapply HU); exfalso; by eapply Hno.
Qed.

(** An inode that is freed is one that nobody else has. *)
Lemma put_keep H A ip j r n : refs_uniq H -> H !! ip = Some (j, r) -> in_use (unref ip H) n -> nT (put_ns A j r) n = nT A n.
Proof.
  intros HU Hip (a & r' & E). unfold put_ns. case_decide as D; [|done]. destruct D as [-> _]. cbn. unfold upd.
  destruct (decide (n = j)) as [->|]; [|done]. unfold unref in E. rewrite Hip, decide_True in E by done.
  apply lookup_delete_Some in E as [Hne E]. destruct Hne. by eapply HU.
Qed.

Lemma holds_open_new u H A v ip H' A' : holds_all u H A -> got H v ip H' ->
  (forall n, nT A n = T_DIR -> nT A' n = T_DIR) -> holds_all (mkUsers (u_cwd u) (ip :: u_open u)) H' A'.
Proof.
  intros [Hc Hd] Hg HT. constructor; cbn [u_cwd u_open].
  - apply (counted_perm _ (ip :: u_cwd u ++ u_open u)); [solve_Permutation|by eapply counted_got].
  - intros cwd n r Hin E. destruct (counted_in _ _ cwd Hc) as (n' & r' & E'); [apply elem_of_app; by left|].
    destruct (got_keep _ _ _ _ _ _ _ Hg E') as [r2 E2]. rewrite E in E2. injection E2 as -> _. eapply HT, Hd; done.
Qed.

Lemma holds_chdir u H A p cwd v ip H1 : holds_all u H A -> refs_pos H1 -> u_cwd u !! p = Some cwd -> got H v ip H1 -> nT A v = T_DIR ->
  holds_all (mkUsers (<[p := ip]> (u_cwd u)) (u_open u)) (unref cwd H1) A.
Proof.
  intros [Hc Hd] HP Hp Hg Hv. constructor; cbn [u_cwd u_open].
  - apply counted_unref; [done|]. apply (counted_perm _ (ip :: u_cwd u ++ u_open u)); [|by eapply counted_got].
    pose proof (delete_Permutation _ _ _ Hp) as E1. assert ((<[p:=ip]> (u_cwd u)) ≡ₚ ip :: delete p (u_cwd u)) as E2.
    { rewrite insert_take_drop by (by eapply lookup_lt_Some). rewrite delete_take_drop. solve_Permutation. }
    rewrite E2. transitivity (ip :: (cwd :: delete p (u_cwd u)) ++ u_open u); [by rewrite <- E1|solve_Permutation].
  - intros a n r Hin E. apply unref_inv in E as [r1 E]. destruct (got_inv _ _ _ _ _ _ _ Hg E) as [[_ ->]|[r2 E2]]; [done|].
    apply list_elem_of_lookup in Hin as [q Hq]. apply list_lookup_insert_Some in Hq as [(<- & <- & _)|(_ & Hq)]; [|eapply Hd; [by eapply list_elem_of_lookup_2|done]].
    destruct (got_at _ _ _ _ Hg) as [r3 E3]. rewrite E in E3. injection E3 as -> _. done.
Qed.

(** One reference given back: of the entry [ip], which the other users are [u']. *)
Lemma holds_drop u u' H A ip : holds_all u H A -> refs_pos H -> u_cwd u ++ u_open u ≡ₚ ip :: u_cwd u' ++ u_open u' ->
  (forall a, a ∈ u_cwd u' -> a ∈ u_cwd u) -> holds_all u' (unref ip H) A.
Proof.
  intros [Hc Hd] HP Hp Hsub. constructor.
  - apply counted_unref; [done|]. by eapply counted_perm.
  - intros a n r Hin [r1 E]%unref_inv. eapply Hd; [by apply Hsub|done].
Qed.

(** ** Every call keeps the invariant *)

Context (P : failure -> Prop) {SO : short_of P}.
Context (Hsmall : 32 * sb_size sb < 32767) (Hino : sb_ninodes sb <= 65536) (Hde : length de0 = 16%nat).

Lemma rest_idup H A k t ip num r : fs_rest me sb H A k t -> H !! ip = Some (num, r) ->
  wp P (idup ip) t (fun _ t' => fs_rest me sb (<[ip := (num, r + 1)]> H) A k t').
Proof.
  intros HR HH. destruct HR as [Hm Hid Hg Hlo Hme HD HT HC]. destruct t as [m s]. cbn [fst snd] in *.
  destruct (cached_at _ _ _ _ _ _ _ _ _ HC HH) as (i & Hi & H1 & H2 & H3 & H4 & H5 & H6 & H7).
  unfold idup. wp_next. eapply wp_critical; [done|set_solver|]. apply wp_modify. intros m' Hm'. apply wp_ret. rewrite (upd_inode_at ip _ s i Hi).
  constructor; try done; [apply Hm'|]. cbn [snd icache]. apply (cached_upd me sb ∅ ∅ H _ (k_data k) _ (icache s) ip i); try done.
  - intros a Ha. by rewrite lookup_insert_ne.
  - intros a n r' _ Ha. destruct (cached_at _ _ _ _ _ _ _ _ _ HC Ha) as (x & _ & _ & _ & _ & _ & ? & _). done.
  - rewrite lookup_insert_eq. split; [|by rewrite bool_decide_false in H7 |- *]. cbn. split_and!; try done; lia.
  - intros n r0 a r'. rewrite lookup_insert_eq. intros [= <- <-] Ha. by eapply (ca_uniq _ _ _ _ _ _ HC).
  - intros j Hj1 Hj2. rewrite lookup_insert_eq. destruct (decide (j = num)) as [->|Hne]; [left|right; split_and!; [done|done|intros r0; congruence]].
    exists (r + 1). split; [done|]. eapply (orph_valid me sb ∅ H _ A (icache s) ip i); [done|done|done|done|..]; by rewrite <- ?(dk_T _ _ _ HD), <- ?(dk_N _ _ _ HD).
Qed.

Section one.
Context (u : users) (H : refs) (A : ns) (k : blks) (t : mach * fs X) (HR : fs_rest me sb H A k t) (HU : holds_all u H A).
Context (p cwd : nat) (c rc : Z) (Hp : u_cwd u !! p = Some cwd) (Hcwd : H !! cwd = Some (c, rc)) (Hc : nT A c = T_DIR).
Context (O : gset Z) (HT : tree_ok O ∅ no_surplus A).

Lemma run_link old new : allowed u H A p (CLink old new) ->
  (links_self u H A p (CLink old new) -> P FBlocked) -> wp P (sys_link me sb devs name0 de0 cwd (Some old) (Some new);; mret u) t (fun u' t' => good u' k t').
Proof.
  intros [Hs1 Hs2] HB. wp_next. eapply wp_mono; [eapply (at_sys_link me sb devs name0 de0 P Hsmall Hino Hde H A k t HR cwd c rc); [done|done|done|by eapply Hs1|by eapply Hs2|]|].
  - intros Hself. apply HB. by exists cwd, c, rc.
  - intros r t' (A' & Hl & Ha). apply wp_ret. eapply good_after; [done| |done]. eapply holds_keep; [done|]. intros n Hn _. by rewrite (linked_keep _ _ _ _ _ _ _ Hl).
Qed.

Lemma run_unlink path : allowed u H A p (CUnlink path) -> wp P (sys_unlink me sb devs name0 cwd (Some path);; mret u) t (fun u' t' => good u' k t').
Proof.
  intros Hs. wp_next. eapply wp_mono; [eapply (at_sys_unlink me sb devs name0 de0 P Hsmall Hino Hde H A k t HR cwd c rc); [done|done|done|by eapply Hs]|].
  intros r t' (A' & Hl & Ha). apply wp_ret. eapply good_after; [done| |done]. eapply holds_keep; [done|]. intros n Hn Hin. by rewrite (unlinked_keep _ _ _ _ _ _ _ Hl Hin).
Qed.

Lemma run_make path type major minor : starts u H A p path -> 0 < type < 32768 ->
  wp P (make me sb devs name0 de0 cwd (Some path) type (Some (major, minor));; mret u) t (fun u' t' => good u' k t').
Proof.
  intros Hs Hty. wp_next. eapply wp_mono; [eapply (at_make me sb devs name0 de0 P Hsmall Hino Hde H A k t HR cwd c rc); [done|done|done|by eapply Hs|done]|].
  intros r t' (v & A' & Hcr & _ & Ha). apply wp_ret. eapply good_after; [done| |done]. eapply holds_keep; [done|]. intros n Hn _. by eapply created_keep.
Qed.

Lemma run_open path omode ok : starts u H A p path ->
  wp P (r ← sys_open me sb devs name0 de0 cwd (Some path) (Some omode) ok;
        mret (match r with Some ip => mkUsers (u_cwd u) (ip :: u_open u) | None => u end)) t (fun u' t' => good u' k t').
Proof.
  intros Hs. wp_next. eapply wp_mono; [eapply (at_sys_open me sb devs name0 de0 P Hsmall Hino Hde H A k t HR cwd c rc); [done|done|done|by eapply Hs]|].
  intros r t' (v & H' & A' & Ho & Hres & Ha). apply wp_ret. assert (forall n, nT A n = T_DIR -> nT A' n = T_DIR) as HT'.
  { unfold opened in Ho. destruct (negb _); [intros n; by eapply created_keep|by destruct Ho as [-> _]]. }
  eapply good_after; [done| |done]. unfold open_result in Hres. destruct v as [v|], r as [ip|]; [|destruct Hres as [_ ->]|done|subst H'].
  - destruct Hres as [_ Hg]. by eapply holds_open_new.
  - eapply holds_keep; [done|]. auto.
  - eapply holds_keep; [done|]. auto.
Qed.

Lemma rest_uniq : refs_uniq H.
Proof. destruct HR. intros a b n r r'. by eapply ca_uniq. Qed.

Lemma got_pos v ip H1 : got H v ip H1 -> refs_pos H1.
Proof.
  pose proof (rest_pos _ _ _ _ _ _ HR) as HP. intros Hg a n r E.
  destruct Hg as [(r0 & E0 & ->)|(_ & _ & ->)]; apply lookup_insert_Some in E as [[_ [= <- <-]]|[_ E]]; try (by eapply HP); [|lia].
  specialize (HP _ _ _ E0). lia.
Qed.

Lemma run_chdir path : starts u H A p path ->
  wp P (r ← sys_chdir me sb devs name0 cwd (Some path); mret (mkUsers (<[p := r.2]> (u_cwd u)) (u_open u))) t (fun u' t' => good u' k t').
Proof.
  intros Hs. wp_next. eapply wp_mono; [eapply (at_sys_chdir me sb devs name0 de0 P Hsmall Hino Hde H A k t HR cwd c rc); [done|done|done|by eapply Hs]|].
  intros r t' (H' & A' & Hch & Ha). apply wp_ret.
  assert (r = (-1, cwd) /\ H' = H /\ A' = A -> good (mkUsers (<[p:=r.2]> (u_cwd u)) (u_open u)) k t') as Hsame.
  { intros (-> & -> & ->). cbn [snd]. rewrite list_insert_id by done. eapply good_after; [done| |done]. by destruct u. }
  unfold chdir_to in Hch. destruct ((resolve A c path false name0).1) as [v|]; [|by apply Hsame].
  destruct (nT A v =? T_DIR) eqn:Ev; [|by apply Hsame]. destruct Hch as (ip & H1 & rc1 & -> & Hg & Hc1 & -> & ->). cbn [snd].
  eapply good_after; [done| |done]. eapply holds_keep; [eapply holds_chdir; [done|by eapply got_pos|done|done|lia]|].
  intros n Hn Hin. rewrite (put_keep H1 A cwd c rc1 n); try done. eapply got_uniq, Hg. apply rest_uniq.
Qed.

(** [close], and the end of a process: the users left are [u']. *)
Lemma run_put ip j r u' : H !! ip = Some (j, r) -> u_cwd u ++ u_open u ≡ₚ ip :: u_cwd u' ++ u_open u' -> (forall a, a ∈ u_cwd u' -> a ∈ u_cwd u) ->
  wp P (close_inode me sb ip;; mret u') t (fun u' t' => good u' k t').
Proof.
  intros Hip Hperm Hsub. wp_next. eapply wp_mono; [exact (at_close_inode me sb devs de0 P Hsmall Hino Hde H A k t HR cwd c rc Hcwd Hc O HT ip j r Hip)|].
  intros [] t' Ha. apply wp_ret. eapply good_after; [done| |exact Ha]. eapply holds_keep; [eapply holds_drop; [done|by eapply rest_pos|done|done]|].
  intros n Hn Hin. rewrite (put_keep H A ip j r n); try done. apply rest_uniq.
Qed.

Lemma run_write q off addr ip : allowed u H A p (CWrite q off addr) -> u_open u !! q = Some ip ->
  wp P (filewrite me sb devs pipewrite (wfile ip off) addr (Z.of_nat (length addr));; mret u) t (fun u' t' => good u' k t').
Proof.
  intros (Hoff & Hlen & HG) Hq. destruct (holds_open _ _ _ _ _ HU Hq) as (j & r & Hip). specialize (HG ip j r Hq Hip).
  wp_next. eapply wp_mono; [eapply (at_filewrite me sb devs P H A ip j r Hip); try done; try lia; rewrite HG; done|].
  intros r' t' [_ (k' & HR' & Hev)]. apply wp_ret. by exists H, A, k'.
Qed.

End one.

Lemma run_good u H A k t p cl : fs_rest me sb H A k t -> holds_all u H A -> allowed u H A p cl -> (links_self u H A p cl -> P FBlocked) ->
  wp P (run u p cl) t (fun u' t' => good u' k t').
Proof.
  intros HR HU Hal HB. unfold run. assert (good u k t) as Hsame by (exists H, A, k; split_and!; [done|done|by eapply evolves_refl]).
  destruct (u_cwd u !! p) as [cwd|] eqn:Hp; [|by apply wp_ret]. destruct (holds_cwd _ _ _ _ _ HU Hp) as (c & rc & Hcwd & Hc). destruct (rs_tree _ _ _ _ _ _ HR) as [O HT].
  destruct cl as [old new|path|path|path major minor|path omode ok|path|q|q off addr| |].
  - by eapply run_link.
  - by eapply run_unlink.
  - by eapply run_make.
  - by eapply run_make.
  - by eapply run_open.
  - by eapply run_chdir.
  - destruct (u_open u !! q) as [ip|] eqn:Hq; [|by apply wp_ret]. destruct (holds_open _ _ _ _ _ HU Hq) as (j & r & Hip).
    eapply run_put; [exact HR|exact HU|exact Hcwd|exact Hc|exact HT|exact Hip| |done]. cbn [u_cwd u_open]. rewrite (delete_Permutation _ _ _ Hq) at 1. solve_Permutation.
  - destruct (u_open u !! q) as [ip|] eqn:Hq; [|by apply wp_ret]. by eapply run_write.
  - wp_next. eapply wp_mono; [by eapply rest_idup|]. intros ip t' HR'. cbn beta in HR'. apply wp_ret. exists (<[cwd := (c, rc + 1)]> H), A, k.
    split_and!; [done| |by eapply evolves_refl]. destruct HU as [Hcnt Hd]. assert (got H c cwd (<[cwd := (c, rc + 1)]> H)) as Hg by (left; eauto). constructor; cbn [u_cwd u_open].
    + by eapply (counted_got H c).
    + intros a' n r [->|Hin]%elem_of_cons E; [rewrite lookup_insert_eq in E; by injection E as <- _|].
      destruct (got_inv _ _ _ _ _ _ _ Hg E) as [[_ ->]|[r' E']]; [done|by eapply Hd].
  - eapply run_put; [exact HR|exact HU|exact Hcwd|exact Hc|exact HT|exact Hcwd| |]; cbn [u_cwd u_open]; [by rewrite (delete_Permutation _ _ _ Hp) at 1|].
    intros a Ha. rewrite (delete_Permutation _ _ _ Hp). by right.
Qed.

End run.
