(* ===== verification/FsWorld.v ===== *)
(** * The file system on the log and the buffer cache

    [begin_op] and [end_op] of log.c keep what the system calls rely on, so that the
    results on runs of calls hold for the whole stack, from sysfile.c to the disk. *)

From stdpp Require Import base numbers gmap sets list strings.
From S2P Require Import Prelude CString Spinlock Sleeplock Bio BioRing BioSpec.
From S2P Require Import Log LogSpec LogThms LogTxn Pipe File Fs FsBlock FsAlloc FsFile FsInode FsDinode FsRW FsTrunc FsIcache FsDir.
From S2P Require Import SysFile FsNames FsCheck FsCache FsOps FsTree FsCalls FsCreate FsRun FsLog.
Open Scope Z_scope.

Section world.
Context (me : Z) (sb : superblock).
#[local] Instance w_layer : BlockLayer lst := log_layer me.
#[local] Instance w_laws : BlockLaws lst := log_laws me.
#[local] Instance w_txn : TxnLayer lst := mkTxnLayer lst Log.begin_op (Log.end_op me).

(** No call is in progress. *)
Definition log_idle (l : lst) (k : blks) : Prop := exists a,
  log_rep l a [] /\ outstanding l = 0 /\ committing l = 0 /\ k = blks_of l a [].

Lemma idle_size l a : log_rep l a [] -> k_size (blks_of l a []) = asize a.
Proof. intros R. pose proof (R_ok _ _ (r_cache _ _ _ R)) as Ha. unfold k_size, asize. cbn. by rewrite (a_len _ Ha). Qed.

Lemma idle_blk l a b : log_rep l a [] -> 0 <= b < asize a -> blk (adisk a) b = blk (alog a) b.
Proof.
  intros R Hb. change (blk (alog a) b) with (a_get b a). rewrite <- (rep_committed l a [] b R Hb). unfold committed.
  by rewrite decide_False by (apply not_elem_of_nil).
Qed.

Lemma log_begin P m l k Q : msec ∅ m -> log_idle l k ->
  (forall m' l', quiet ∅ m m' -> b_rep l' (k_begin k) -> Q tt (m', l')) -> wp P t_begin (m, l) Q.
Proof.
  intros Hm (a & R & Ho & Hc & ->) HQ. apply wp_begin_op; [done| |].
  { intros [H|H]; [done|]. rewrite (r_n _ _ _ R), Ho in H. unfold LOGSIZE, MAXOPBLOCKS in H. simpl in H. lia. }
  intros m' Hq _ _. apply HQ; [done|]. rewrite Ho. change (0 + 1) with 1. exists a, []. apply (rep_log_in me (set_outstanding 1 l) a []); [by destruct R; constructor|done|done].
Qed.

Lemma log_end P m l k Q : msec ∅ m -> b_rep l k -> k_held k = ∅ -> k_ops k = 1 -> k_size k < 2147483648 -> k_hi k - k_lo k <= LOGSIZE ->
  (forall m' l' k' W, quiet ∅ m m' -> log_idle l' k' -> commits k k' W -> Q tt (m', l')) -> wp P t_end (m, l) Q.
Proof.
  intros Hm (a & bs & L) Hh Ho Hsz Hlog HQ. pose proof (log_in_rep me _ _ _ _ L Hh) as R. destruct (log_in_size me _ _ _ _ L) as [Esz _]. pose proof L as [].
  apply (wp_end_op me P l a bs); [done|done| |lia|done|intros; lia|].
  { unfold NBUF, LOGSIZE, MAXOPBLOCKS in *. lia. }
  intros m' l' W Hq _ R' Ho' Hc' E1 E2 [HA1 HA2]. destruct (a_writes_fields W a) as (F1 & F2 & F3 & _).
  assert (forall b, k_home k b -> home (lstart l) (lsize l) b (adisk a) /\ committed a bs b = k_get b k) as Hhome.
  { intros b [H1 H2]. rewrite Esz in H1. split; [unfold home, asize in *; lia|]. rewrite (rep_committed _ _ _ _ R) by done. by eapply log_in_get. }
  apply (HQ m' l' (blks_of l' (a_writes W a) []) W); [done|by exists (a_writes W a)|]. constructor; cbn [k_lo k_hi k_disk blks_of].
  - intros b Hb. destruct (Hhome b Hb) as [Hh' Hg]. rewrite <- Hg, <- HA1 by done. change (k_get b (blks_of l' (a_writes W a) [])) with (blk (alog (a_writes W a)) b).
    rewrite <- (idle_blk l'), F1; [done|done|]. rewrite asize_writes. destruct Hb as [Hb _]. by rewrite <- Esz.
  - rewrite (idle_size _ _ R'), asize_writes. done.
  - rewrite E1, E2, li_lo, li_hi. done.
  - by rewrite F1, li_disk.
  - intros ws Hp. rewrite li_lo, <- li_disk. destruct (HA2 ws Hp) as [H|H]; cbv zeta in H; [left|right]; intros b Hb; destruct (Hhome b Hb) as [Hh' Hg].
    + by rewrite H.
    + by rewrite H, Hg.
Qed.

#[local] Instance w_txn_laws : TxnLaws lst.
Proof.
  refine {| t_idle := log_idle |}.
  - intros l k (a & R & _ & _ & ->). apply (R_ok _ _ (r_cache _ _ _ R)).
  - intros l k b (a & R & _ & _ & ->) Hb. rewrite (idle_size _ _ R) in Hb. by apply (idle_blk l).
  - intros l k b (a & R & _ & _ & ->) [Hb Hlo]. rewrite (idle_size _ _ R) in Hb. cbn [k_lo k_hi k_disk blks_of] in *.
    change (k_get b (blks_of l a [])) with (blk (alog a) b). rewrite <- (idle_blk l) by done. destruct R.
    apply (blk_recovered_zero _ (lsize l)); [done|cbn in r_size; lia|done|]. unfold home, asize in *. lia.
  - exact log_begin.
  - exact log_end.
Defined.

(** ** The whole file system *)

(** The panics for want of room: in the log, the buffer cache, the disk, the inode
    cache, the inodes of the disk, a directory. *)
Definition room (f : failure) : Prop :=
  f ∈ [FPanic "too big a transaction"; FPanic "bget: no buffers"; FPanic "balloc: out of blocks"; FPanic "iget: no inodes";
       FPanic "ialloc: no inodes"; FPanic "dirlink"].

#[local] Instance room_short B : short_of (fun f => room f \/ (f = FBlocked /\ B)).
Proof. constructor; [split_and!|..]; left; unfold room; set_solver. Qed.

Context (devs : Z -> @devsw lst) (name0 de0 : list Z).

Notation state := (mach * fs lst)%type.

(** The superblock of a file system whose link counts fit a [short] and whose inode
    numbers fit the [ushort] of a directory entry. *)
Definition sizes_ok : Prop := 32 * sb_size sb < 32767 /\ sb_ninodes sb <= 65536.

(** ** What the calls do to the name space *)

Section names.
Context (Hsz : sizes_ok) (Hde : length de0 = 16%nat) (H : refs) (A : ns) (k : blks) (t : state) (HR : fs_rest me sb H A k t).
Context (cwd : nat) (c rc : Z) (Hcwd : H !! cwd = Some (c, rc)) (Hc : nT A c = T_DIR).

(** A call that returns [r] takes [A] to [A'], on the disk in one step. *)
Definition outcome {B} (r : res state B) (B0 : Prop) (Q : B -> refs -> ns -> Prop) : Prop :=
  match r with
  | Ok b t' => exists H' A', Q b H' A' /\ after me sb A k H' A' t'
  | Panic msg => room (FPanic msg)
  | Blocked => B0
  end.

Lemma wp_outcome {B} (m : M state B) (B0 : Prop) (Q : B -> refs -> ns -> Prop) :
  wp (fun f => room f \/ (f = FBlocked /\ B0)) m t (fun b t' => exists H' A', Q b H' A' /\ after me sb A k H' A' t') -> outcome (m t) B0 Q.
Proof.
  unfold wp, outcome. destruct (m t) as [b t'|msg|]; [done|by intros [?|[? _]]|]. intros [Hr|[_ ?]]; [|done]. unfold room in Hr. set_solver.
Qed.

(** C17. [link] makes exactly the name asked for, when the file exists and is not a
    directory, the directory exists and has no such name; else it changes nothing and
    fails.  The kernel may run out of room.  Where the last name of [new] stands for
    the directory that it is in, the call never returns, and only there it blocks.
    The paths start in directories that have not been removed. *)
Theorem link_correct old new : 0 < nN A (start c old) -> 0 < nN A (start c new) ->
  outcome (sys_link me sb devs name0 de0 cwd (Some old) (Some new) t)
    (link_self name0 A c old new)
    (fun r H' A' => H' = H /\ linked name0 A c old new r A').
Proof.
  intros Hs1 Hs2. destruct Hsz as [H1 H2], (rs_tree _ _ _ _ _ _ HR) as [O HT]. apply wp_outcome.
  eapply wp_mono; [eapply (at_sys_link me sb devs name0 de0 _ H1 H2 Hde H A k t HR cwd c rc); [done|done|done|done|done|]|].
  - intros Hself. by right.
  - intros r t' (A' & Hl & Ha). by exists H, A'.
Qed.

(** C15. [unlink] removes exactly the name asked for, if it is there and not [.] or [..] or a
    directory with files in it; the inode goes with its last name and reference.  A
    directory that some process is in loses its name and its parent the link that
    [..] is, and its inode stays. *)
Theorem unlink_correct path : 0 < nN A (start c path) ->
  outcome (sys_unlink me sb devs name0 cwd (Some path) t) False (fun r H' A' => H' = H /\ unlinked name0 H A c path r A').
Proof.
  intros Hs. destruct Hsz as [H1 H2], (rs_tree _ _ _ _ _ _ HR) as [O HT]. apply wp_outcome.
  eapply wp_mono; [eapply (at_sys_unlink me sb devs name0 de0 _ H1 H2 Hde H A k t HR cwd c rc); done|].
  intros r t' (A' & Hl & Ha). by exists H, A'.
Qed.

(** C16. [open] returns the inode that the path names, or makes a file of that name in
    the directory that the path gives, with one reference more to it. *)
Theorem open_correct path omode ok : 0 < nN A (start c path) ->
  outcome (sys_open me sb devs name0 de0 cwd (Some path) (Some omode) ok t) False
    (fun r H' A' => exists v, opened name0 A c path omode v A' /\ open_result H ok v r H').
Proof.
  intros Hs. destruct Hsz as [H1 H2], (rs_tree _ _ _ _ _ _ HR) as [O HT]. apply wp_outcome.
  eapply wp_mono; [eapply (at_sys_open me sb devs name0 de0 _ H1 H2 Hde H A k t HR cwd c rc); done|].
  intros r t' (v & H' & A' & Ho & Hr & Ha). exists H', A'. split; [by exists v|done].
Qed.

(** C18. [mkdir] makes a directory with the right first two entries, and counts it as a
    link to its parent. *)
Theorem mkdir_correct path : 0 < nN A (start c path) ->
  outcome (sys_mkdir me sb devs name0 de0 cwd (Some path) t) False
    (fun r H' A' => H' = H /\ exists v, created name0 A c path T_DIR v A' /\ r = (if v then 0 else -1)).
Proof.
  intros Hs. destruct Hsz as [H1 H2], (rs_tree _ _ _ _ _ _ HR) as [O HT]. apply wp_outcome.
  eapply wp_mono; [eapply (at_make me sb devs name0 de0 _ H1 H2 Hde H A k t HR cwd c rc); done|].
  intros r t' (v & A' & Ho & Hr & Ha). exists H, A'. split; [|done]. split; [done|]. by exists v.
Qed.

End names.

(** ** Runs *)

Context (pipewrite : Z -> list Z -> Z -> M (mach * fs lst) Z).

Notation run := (run me sb devs name0 de0 pipewrite).
Notation disk_of t := (disk (lbio (fblk (snd t)))).

(** The disk is a consistent file system. *)
Definition fs_ok (D : list (list Z)) : Prop := exists A, tree A /\ disk_ok sb D A.

Definition consistent (u : users) (t : state) : Prop := exists H A k, fs_rest me sb H A k t /\ holds_all u H A.

(** What the state says about a call of the process [p]. *)
Definition may (u : users) (t : state) (p : nat) (cl : call) : Prop :=
  forall H A k, fs_rest me sb H A k t -> holds_all u H A -> allowed u H A p cl.

Definition self_link (u : users) (t : state) (p : nat) (cl : call) : Prop :=
  exists H A k, fs_rest me sb H A k t /\ holds_all u H A /\ links_self name0 u H A p cl.

(** Calls one after the other. *)
Inductive runs : users -> state -> list (nat * call) -> users -> state -> Prop :=
  | runs_nil u t : runs u t [] u t
  | runs_cons u t p cl u1 t1 l u2 t2 :
      may u t p cl -> run u p cl t = Ok u1 t1 -> runs u1 t1 l u2 t2 -> runs u t ((p, cl) :: l) u2 t2.

Lemma rest_disk H A k t : fs_rest me sb H A k t -> k_disk k = disk_of t /\ k_lo k = lstart (fblk t.2).
Proof. intros []. destruct rs_idle as (a & R & _ & _ & ->). cbn. split; [|done]. symmetry. apply (R_disk _ _ (r_cache _ _ _ R)). Qed.

Lemma run_wp u t p cl H A k : sizes_ok -> length de0 = 16%nat -> fs_rest me sb H A k t -> holds_all u H A -> allowed u H A p cl ->
  wp (fun f => room f \/ (f = FBlocked /\ links_self name0 u H A p cl)) (run u p cl) t (fun u' t' => good me sb u' k t').
Proof. intros [H1 H2] Hde HR HU Hal. eapply run_good; [apply room_short|done|done|done|done|done|done|]. intros Hs. by right. Qed.

(** C1. The file system stays consistent: after any calls of any processes, one after the
    other, every block belongs to one file at most, every directory but the root has
    one name and the right [.] and [..], or has been removed and has no files, link
    counts are numbers of names, and the inode cache counts the current directories
    and open files; and after a crash at any disk write recovery leaves a consistent
    file system.  The calls are such that paths do not start in a removed directory
    and only files are written to ([may]). *)
Theorem fs_consistent u t l u' t' : sizes_ok -> length de0 = 16%nat -> consistent u t -> runs u t l u' t' ->
  consistent u' t' /\ exists W, disk_of t' = apply_writes W (disk_of t) /\
    forall ws, ws `prefix_of` W -> fs_ok (recovered (lstart (fblk t.2)) (apply_writes ws (disk_of t))).
Proof.
  intros Hsz Hde (H & A & k & HR & HU) Hruns.
  assert (good me sb u' k t') as (H' & A' & k' & HR' & HU' & W & E1 & E2 & HW).
  { revert H A k HR HU. induction Hruns as [u t|u t p cl u1 t1 l u2 t2 Hal Hrun Hruns IH]; intros H A k HR HU.
    - exists H, A, k. split_and!; [done|done|by eapply evolves_refl].
    - pose proof (run_wp u t p cl H A k Hsz Hde HR HU (Hal H A k HR HU)) as HWP. unfold wp in HWP. rewrite Hrun in HWP.
      destruct HWP as (H1 & A1 & k1 & HR1 & HU1 & Hev1). destruct (IH H1 A1 k1 HR1 HU1) as (H2 & A2 & k2 & HR2 & HU2 & Hev2).
      exists H2, A2, k2. split_and!; [done|done|by eapply evolves_trans]. }
  destruct (rest_disk _ _ _ _ HR) as [Ek El]. destruct (rest_disk _ _ _ _ HR') as [Ek' _]. split; [by exists H', A', k'|]. exists W. rewrite <- Ek, <- Ek', <- El.
  split; [done|]. intros ws Hp. destruct (HW ws Hp) as (B & HB & HD). by exists B.
Qed.

(** C5. In a consistent file system a call returns, and leaves it consistent, unless the
    kernel panics for want of room; only [link] to a name that stands for the
    directory itself waits for ever.  This is for calls whose paths do not start in
    a removed directory, and for writes to files ([may]). *)
Theorem calls_return u t p cl : sizes_ok -> length de0 = 16%nat -> consistent u t -> may u t p cl ->
  match run u p cl t with
  | Ok u' t' => consistent u' t'
  | Panic msg => room (FPanic msg)
  | Blocked => self_link u t p cl
  end.
Proof.
  intros Hsz Hde (H & A & k & HR & HU) Hal. pose proof (run_wp u t p cl H A k Hsz Hde HR HU (Hal H A k HR HU)) as HWP. unfold wp in HWP.
  destruct (run u p cl t) as [u' t'|msg|].
  - destruct HWP as (H' & A' & k' & HR' & HU' & _). by exists H', A', k'.
  - by destruct HWP as [?|[? _]].
  - destruct HWP as [Hr|[_ Hs]]; [|by exists H, A, k]. unfold room in Hr. set_solver.
Qed.

End world.
