(* ===== verification/MkfsThms.v ===== *)
(** * The image mkfs makes

    [iappend] and [ialloc] on consistent images, and [mkfs_correct]: the image is a
    consistent file system that holds the given files. *)

From stdpp Require Import base numbers gmap sets list strings.
From S2P Require Import Prelude CString Spinlock Sleeplock Bio BioRing BioSpec.
From S2P Require Import Log LogSpec Syscall Fs FsBlock FsAlloc FsFile FsInode FsDinode FsRW FsTrunc FsIcache FsDir SysFile FsNames FsCheck FsCache FsOps FsTree.
From S2P Require Import Mkfs MkfsSpec.
Import Mkfs.
Open Scope Z_scope.

(** ** A file that grew *)

(** After its blocks were written, the inode is. *)
Lemma grown_touched k k1 num l1 src : geom sb k -> geom sb k1 -> meta_used sb (k_data k) -> is_inum sb num ->
  let di0 := dinode_of sb (k_data k) num in let off := d_size di0 in let l := d_addrs di0 in
  dinode_ok di0 -> file_ok sb (k_data k) l -> whole (k_data k) l off -> off + Z.of_nat (length src) <= MAXFILE * BSIZE ->
  turned sb (k_data k) l (k_data k1) l1 (over off src (fbyte (k_data k) l)) -> covered (k_data k1) l1 off (Z.of_nat (length src)) ->
  let di := set_d_size (off + Z.of_nat (length src)) (set_d_addrs l1 di0) in
  touched sb (k_data k) (k_data (k_iupd sb num di k1)) num off src /\ dinode_of sb (k_data (k_iupd sb num di k1)) num = di.
Proof.
  intros G G1 Hme Hn di0 off l Hok FF W Hmax HT Hc di. pose proof (tu_ok _ _ _ _ _ _ HT) as FF1. set (k2 := k_iupd sb num di k1).
  assert (MAXFILE * BSIZE = 71680) as Emax by done. assert (0 <= off) as Hoff by apply Hok.
  assert (dinode_ok di) as Hok' by (destruct Hok; constructor; try done; [change (0 <= off + Z.of_nat (length src) < 4294967296); lia|apply FF1|by apply (file_addrs_range sb k1)]).
  pose proof (iupd_file sb num di k1 l1 G1 Hn FF1) as Hblk.
  assert (forall j, is_inum sb j -> dinode_of sb (k_data k2) j = if decide (j = num) then di else dinode_of sb (k_data k) j) as Hdi.
  { intros j Hj. unfold k2. rewrite dinode_iupd by done. destruct (decide _); [done|]. by eapply turned_dinode. }
  assert (dinode_of sb (k_data k2) num = di) as Enum by (rewrite Hdi by done; by rewrite decide_True).
  split; [|done]. constructor; rewrite ?Enum; change (d_addrs di) with l1; fold di0 off l.
  - intros j Hj Hne. rewrite Hdi by done. by rewrite decide_False.
  - exists l1. rewrite Z.max_r by lia. done.
  - done.
  - by apply iupd_file_ok.
  - destruct (whole_covered sb _ _ _ _ off (Z.of_nat (length src)) _ _ FF W ltac:(lia) ltac:(lia) ltac:(lia) HT Hc) as [Hs Hw].
    rewrite Z.max_r in Hs, Hw by lia. split; [done|]. intros bn H0 Hb. rewrite (other_addr (k_data k1) (k_data k2) l1 Hblk). by apply Hw.
  - intros o Hoo. rewrite (other_byte (k_data k1) (k_data k2) l1 Hblk o Hoo). exact (tu_bytes _ _ _ _ _ _ HT o Hoo).
  - intros a Ha. apply (tu_own _ _ _ _ _ _ HT). by apply (other_owned (k_data k1) (k_data k2) l1 Hblk).
  - intros a Ha. apply (other_owned (k_data k1) (k_data k2) l1 Hblk). by apply (tu_keep _ _ _ _ _ _ HT).
  - intros a Ha Hu. unfold k2. rewrite used_iupd by done. by apply (tu_used _ _ _ _ _ _ HT).
  - intros a Ha Hu. unfold k2 in Hu. rewrite used_iupd in Hu by done. apply (tu_new _ _ _ _ _ _ HT) in Hu as [?|?]; [by left| |done].
    right. by apply (other_owned (k_data k1) (k_data k2) l1 Hblk).
  - intros n Hln Hno. destruct (live_not_bm sb k G n Hln) as [Hr Hbm]. destruct (geom_iblock sb k1 _ G1 Hn) as (? & ? & ? & ? & ?).
    destruct Hln as [Hd Hu]. unfold k2. rewrite blk_iupd by (done || lia). by apply (tu_frame _ _ _ _ _ _ HT).
Qed.

(** ** The contents of the files *)

(** The inode [j] has a file with the bytes [data], in as few blocks as it takes, with
    zeros after the last byte. *)
Record file_is (D : list (list Z)) (j : Z) (data : list Z) : Prop := mkFi {
  fi_sz : isz sb D j = Z.of_nat (length data);
  fi_bytes : forall o, off_ok o -> fbyte D (iad sb D j) o = default 0 (data !! Z.to_nat o);
  fi_tight : tight D (iad sb D j) (nblk (Z.of_nat (length data))) }.

Lemma file_is_other D D' i j data : blocks_ok sb D -> changed sb D D' j -> i ≠ j -> file_is D i data -> file_is D' i data.
Proof.
  intros B C Hi [H1 H2 H3]. destruct (ch_iad sb D D' j C i Hi) as [Ea Es].
  pose proof (fun a => ch_blk sb D D' j B C i a Hi) as Hblk. constructor.
  - by rewrite Es.
  - intros o Ho. rewrite (ch_byte sb D D' j B C i o Hi Ho). by apply H2.
  - rewrite Ea. constructor; [|apply H3]. intros bn Hb. rewrite (other_addr D D' _ Hblk). by apply H3.
Qed.

(** Bytes at the end. *)
Lemma over_end (data src : list Z) g o : off_ok o -> g o = default 0 (data !! Z.to_nat o) ->
  over (Z.of_nat (length data)) src g o = default 0 ((data ++ src) !! Z.to_nat o).
Proof.
  intros Ho Hg. unfold over, off_ok in *. destruct (decide _) as [H|H].
  - rewrite lookup_app_r by lia. do 2 f_equal. lia.
  - rewrite Hg. destruct (decide (o < Z.of_nat (length data))); [by rewrite lookup_app_l by lia|].
    rewrite !lookup_ge_None_2; [done|rewrite length_app; lia|lia].
Qed.

Definition dset (dat : Z -> list Z) (j : Z) (v : list Z) : Z -> list Z := fun i => if decide (i = j) then v else dat i.

(** The image so far. *)
Definition mdisk (s : mkst) : list (list Z) := marked (freeblock s) (img s).

Record made (s : mkst) (A : ns) (dat : Z -> list Z) : Prop := mkMade {
  md_im : image (freeblock s) (img s);
  md_disk : disk_ok sb (mdisk s) A;
  md_dat : forall j, file_is (mdisk s) j (dat j) }.

Section steps.
Context (P : failure -> Prop).

Lemma iblock_range j : is_inum sb j -> 32 <= IBLOCK sb j < 58.
Proof.
  unfold is_inum, IBLOCK. rewrite sb_is. cbn [sb_ninodes sb_inodestart]. unfold IPB. intros H. Z.div_mod_to_equations. lia.
Qed.

Lemma wp_rinode s j Q : image (freeblock s) (img s) -> is_inum sb j -> Q (dinode_of sb (mdisk s) j) s -> wp P (rinode j) s Q.
Proof.
  intros Im Hj HQ. pose proof (iblock_range j Hj) as Hr. destruct s as [D fi fb]. cbn [img freeblock] in Im. unfold rinode. wp_next.
  apply wp_rsect; [rewrite (im_len _ _ Im); lia|]. apply wp_ret. unfold dinode_of, mdisk in HQ. cbn [freeblock img] in *.
  by rewrite (blk_marked _ _ Im) in HQ by lia.
Qed.

Lemma wp_winode s j di Q : image (freeblock s) (img s) -> is_inum sb j ->
  (forall D', image (freeblock s) D' -> marked (freeblock s) D' = k_data (k_iupd sb j di (kof (freeblock s) (img s))) ->
    (forall b, 0 <= b < 32 -> blk D' b = blk (img s) b) -> Q tt (mkMk D' (freeinode s) (freeblock s))) ->
  wp P (winode j di) s Q.
Proof.
  intros Im Hj HQ. pose proof (iblock_range j Hj) as Hr. destruct s as [D fi fb]. cbn [img freeinode freeblock] in *.
  pose proof (im_fb _ _ Im). pose proof (im_len _ _ Im) as Hl. pose proof (kof_geom _ _ Im) as G.
  unfold winode. wp_next. apply wp_rsect; [lia|]. apply wp_wsect; [lia|]. apply HQ.
  - apply image_put; [done|lia|]. rewrite <- (blk_marked _ _ Im) by lia. apply (iupd_len sb j di (kof fb D)); done.
  - unfold k_iupd. cbn [k_data k_upd k_put k_log]. rewrite marked_put by lia. unfold k_get. cbn [k_data kof].
    by rewrite (blk_marked _ _ Im) by lia.
  - intros b Hb. rewrite blk_bput by lia. by rewrite decide_False by lia.
Qed.

(** [iappend] puts the bytes at the end of the file. *)
Lemma wp_iappend s A dat j p Q : made s A dat -> nT A j ≠ 0 ->
  let off := Z.of_nat (length (dat j)) in let n := Z.of_nat (length p) in off + n <= MAXFILE * BSIZE ->
  let fb' := freeblock s + need (nblk (off + n)) - need (nblk off) in fb' <= 1000 ->
  (forall D', image fb' D' -> touched sb (mdisk s) (marked fb' D') j off p ->
    (forall i, file_is (marked fb' D') i (dset dat j (dat j ++ p) i)) -> (forall b, 0 <= b < 32 -> blk D' b = blk (img s) b) ->
    Q tt (mkMk D' (freeinode s) fb')) -> wp P (iappend j p) s Q.
Proof.
  intros [Im [B HG HT HN] Hdat] Hal off n Hmax fb' Hroom HQ. rewrite <- HT in Hal. pose proof (ity_inum sb _ _ Hal) as Hn.
  destruct (iad_live sb _ _ Hal) as [Ea Es]. pose proof (Hdat j) as [Hsz Hby Hti]. fold off in Hsz, Hti.
  pose proof (bo_di _ _ B j Hal) as Hok. pose proof (bo_file _ _ B j) as FF. pose proof (bo_whole _ _ B j) as W.
  assert (MAXFILE * BSIZE = 71680) as Emax by done.
  set (di0 := dinode_of sb (mdisk s) j) in *. rewrite Ea in *. rewrite Hsz in Es, W.
  unfold iappend. wp_next. apply wp_rinode; [done|done|]. fold di0. wp_next. rewrite <- Es, xint_id by lia.
  destruct s as [D fi fb]. unfold mdisk in *. cbn [img freeinode freeblock] in *.
  apply wp_iappend_loop; [done|exact FF|exact Hti|lia|done|done|done|]. fold n. fold fb'. intros D1 l1 Im1 HT1 Ht1.
  set (k := kof fb D). set (k1 := kof fb' D1). set (s1 := mkMk D1 fi fb').
  destruct (grown_touched k k1 j l1 p (kof_geom _ _ Im) (kof_geom _ _ Im1) (meta_marked _ _ Im) Hn) as [TH Enum]; cbn [k k_data kof k1]; fold di0;
    rewrite <- ?Es; try done.
  { intros o Ho. assert (off_ok o) as Hoo by (unfold off_ok; lia). apply (ti_addr _ _ _ Ht1); [by apply off_block|].
    unfold nblk, n. assert (BSIZE = 512) as -> by done. Z.div_mod_to_equations. lia. }
  rewrite xint_id by lia. apply (wp_winode s1); [done|done|]. cbn [img freeinode freeblock s1]. intros D2 Im2 ED Hmeta.
  change (dinode_of sb (k_data k) j) with di0 in TH, Enum. rewrite <- Es in TH, Enum. fold n in TH, Enum. change (marked fb' D1) with (k_data k1) in TH, Enum. fold k1 in ED. rewrite <- ED in TH, Enum.
  pose proof (touched_changed sb _ _ j off p B Hal TH ltac:(rewrite data0_is; lia)) as C.
  apply HQ; [done|done| |].
  - intros i. unfold dset. destruct (decide (i = j)) as [->|Hne]; [|by eapply file_is_other].
    destruct (iad_live sb (marked fb' D2) j) as [Ea' Es']; [by rewrite (touched_ity sb _ _ j off p TH)|]. rewrite Enum in Ea', Es'. cbn in Ea', Es'.
    constructor; rewrite ?Ea', ?length_app, ?Nat2Z.inj_add.
    + done.
    + intros o Ho. pose proof (th_bytes _ _ _ _ _ _ TH o Ho) as E. rewrite Enum in E. cbn [d_addrs set_d_size set_d_addrs] in E. rewrite E.
      apply over_end; [done|]. by apply Hby.
    + fold off n. pose proof (iupd_file sb j (set_d_size (off + n) (set_d_addrs l1 di0)) k1 l1 (kof_geom _ _ Im1) Hn (tu_ok _ _ _ _ _ _ HT1)) as Hblk.
      rewrite <- ED in Hblk. constructor; [|apply Ht1]. intros bn Hb. rewrite (other_addr _ _ _ Hblk). by apply Ht1.
  - intros b Hb. rewrite Hmeta by done. rewrite <- (blk_marked _ _ Im1), <- (blk_marked _ _ Im) by lia.
    apply (tu_frame _ _ _ _ _ _ HT1); [rewrite sb_is; cbn; lia|rewrite bm_is; lia|rewrite (used_marked _ _ Im); pose proof (im_fb _ _ Im); lia|].
    intros Ho. destruct (owned_live sb _ _ _ FF Ho) as [Hl _]. rewrite data0_is in Hl. lia.
Qed.

(** The first blocks stay. *)
Definition low_same (s s' : mkst) : Prop := forall b, 0 <= b < 32 -> blk (img s') b = blk (img s) b.

Lemma wp_append_file s A dat j p Q : made s A dat -> nT A j ≠ 0 -> nT A j ≠ T_DIR ->
  let off := Z.of_nat (length (dat j)) in let n := Z.of_nat (length p) in off + n <= MAXFILE * BSIZE ->
  let fb' := freeblock s + need (nblk (off + n)) - need (nblk off) in fb' <= 1000 ->
  (forall s', made s' A (dset dat j (dat j ++ p)) -> freeinode s' = freeinode s -> freeblock s' = fb' -> low_same s s' -> Q tt s') ->
  wp P (iappend j p) s Q.
Proof.
  intros Hm Hal Hnd off n Hmax fb' Hroom HQ. apply (wp_iappend s A dat); [done..|]. fold off n fb'. intros D' Im TH Hf Hlow.
  apply HQ; [|done|done|done]. constructor; [done| |done]. destruct Hm as [_ Hd _].
  apply (disk_write sb (mdisk s) _ j off p); [apply Hd|by rewrite (dk_T _ _ _ Hd)|exact TH|rewrite data0_is; lia|done|done].
Qed.

Lemma wp_append_entry s A dat j e t Q : made s A dat -> nT A j = T_DIR -> length e = 16%nat ->
  let off := Z.of_nat (length (dat j)) in off = DESIZE * t -> off + 16 <= MAXFILE * BSIZE ->
  let fb' := freeblock s + need (nblk (off + 16)) - need (nblk off) in fb' <= 1000 ->
  (forall s', made s' (mkNs (nT A) (nN A) (put_ent j off e (nG A))) (dset dat j (dat j ++ e)) ->
    freeinode s' = freeinode s -> freeblock s' = fb' -> low_same s s' -> Q tt s') ->
  wp P (iappend j e) s Q.
Proof.
  intros Hm Ht He off Eo Hmax fb' Hroom HQ. assert (nT A j ≠ 0) as Hal by (rewrite Ht; done).
  apply (wp_iappend s A dat); [done|done|rewrite He; done..|]. fold off. rewrite He. change (Z.of_nat 16) with 16. fold fb'. intros D' Im TH Hf Hlow.
  apply HQ; [|done|done|done]. constructor; [done| |done]. pose proof Hm as [_ Hd Hdat].
  assert (0 <= data0 sb) as H0 by (rewrite data0_is; lia). assert (0 <= t) as Ht0 by (unfold DESIZE in Eo; lia).
  apply (disk_entry sb (mdisk s) _ j off e (dk_blocks _ _ _ Hd) ltac:(by rewrite (dk_T _ _ _ Hd)) TH H0 A t t Hd Ht);
    [by rewrite (fi_sz _ _ _ (Hdat j))|lia|done|lia|done].
Qed.

(** A new inode with a link. *)
Lemma disk_init fb D A num t : image fb D -> disk_ok sb (marked fb D) A -> is_inum sb num -> nT A num = 0 -> 0 < t < 32768 ->
  let D' := k_data (k_iupd sb num (mkDi t 0 0 1 0 (replicate 13 0)) (kof fb D)) in
  disk_ok sb D' (mkNs (upd (nT A) num t) (upd (nN A) num 1) (nG A)) /\ changed sb (marked fb D) D' num /\
  iad sb D' num = iad sb (marked fb D) num /\ isz sb D' num = 0.
Proof.
  intros Im [B HG HT HN] Hn Hdead Ht D'. rewrite <- HT in Hdead. set (di := mkDi t 0 0 1 0 (replicate 13 0)) in *. set (k := kof fb D) in *.
  pose proof (kof_geom _ _ Im) as Gm. fold k in Gm. change (marked fb D) with (k_data k) in *.
  assert (dinode_ok di) as Hok by (constructor; cbn; try lia; by repeat constructor).
  pose proof (fun j Hj => dinode_iupd sb num di k j Gm Hn Hj Hok) as Hdi. fold D' in Hdi.
  assert (dinode_of sb D' num = di) as Hnum by (rewrite Hdi by done; by rewrite decide_True).
  destruct (geom_iblock sb k num Gm Hn) as (Hib1 & Hib2 & Hib3 & Hib4 & Hib5). pose proof (geom_order sb k Gm) as Hord.
  assert (ity sb D' num = t) as Hty by (rewrite ity_eq by done; by rewrite Hnum).
  assert (iad sb D' num = iad sb (k_data k) num /\ isz sb D' num = 0) as [Had Hsz].
  { unfold iad, isz. rewrite Hty, Hdead, Hnum. by rewrite (proj2 (Z.eqb_neq t 0)) by lia. }
  destruct (changed_keep sb (k_data k) D' num B) as (C & HF & HB & HW); [|done| | |].
  { intros i Hi Hne. rewrite Hdi by done. by rewrite decide_False. }
  { intros a [Ha _]. apply blk_iupd; [done|done|lia|lia]. }
  { intros a Ha. apply used_iupd; [done|done|lia]. }
  split; [|done]. split; cbn [nT nN nG].
  - apply (blocks_change sb (k_data k) D' num B C); [by rewrite Hnum|done|]. rewrite Hsz. apply whole_nil.
  - apply (graph_change sb (k_data k) D' num B C (nG A)); [done|done| |].
    + intros o v. rewrite (gr_ent _ _ _ HG). unfold is_ent. rewrite Hsz, Hdead. split; [by intros []|].
      intros (_ & H & _). change 0 with (DESIZE * 0) in H. apply elem_dir_offs in H as (? & _ & ?); lia.
    + intros _. exists 0. split; [lia|]. by rewrite Hsz.
  - intros j. unfold upd. destruct (decide (j = num)) as [->|Hne]; [done|]. rewrite <- HT. by apply (ch_ity _ _ _ _ C).
  - intros j. unfold upd. rewrite <- HN. unfold inl. destruct (decide (j = num)) as [->|Hne]; [rewrite decide_True by done; by rewrite Hnum|].
    case_decide; [|done]. rewrite Hdi by done. by rewrite decide_False.
Qed.

Lemma wp_ialloc s A dat t Q : made s A dat -> is_inum sb (freeinode s) -> nT A (freeinode s) = 0 -> dat (freeinode s) = [] -> 0 < t < 32768 ->
  (forall s', let j := freeinode s in made s' (mkNs (upd (nT A) j t) (upd (nN A) j 1) (nG A)) dat -> freeinode s' = j + 1 ->
    freeblock s' = freeblock s -> low_same s s' -> Q j s') ->
  wp P (ialloc t) s Q.
Proof.
  intros [Im Hd Hdat] Hn Hdead Hnil Ht HQ. destruct s as [D j fb]. unfold mdisk in *. cbn [img freeinode freeblock] in *.
  assert (0 <= j < 200) as Hj by (unfold is_inum in Hn; by rewrite sb_is in Hn).
  unfold ialloc. wp_next. apply wp_gets. cbn [freeinode]. wp_next. apply wp_modify. unfold set_freeinode. cbn [img freeinode freeblock].
  rewrite u32_small, !xshort_id, xint_id by lia. rewrite !i16_small by lia. wp_next. apply (wp_winode (mkMk D (j + 1) fb)); [done|done|].
  cbn [img freeinode freeblock]. intros D' Im' ED Hlow. apply wp_ret.
  destruct (disk_init fb D A j t Im Hd Hn Hdead Ht) as (Hd' & C & Ea & Es). rewrite <- ED in *.
  apply HQ; [|done|done|done]. constructor; [done|done|]. intros i. unfold mdisk. cbn [img freeblock].
  destruct (decide (i = j)) as [->|Hne]; [|eapply file_is_other; [apply Hd|done|done|by apply Hdat]].
  pose proof (Hdat j) as [_ Hby Hti]. rewrite Hnil in *. pose proof (dk_T _ _ _ Hd j) as HT. rewrite Hdead in HT.
  assert (iad sb (marked fb D) j = replicate 13 0) as E0 by (unfold iad; by rewrite HT). rewrite E0 in *.
  constructor; rewrite ?Ea; [done| |].
  - intros o Ho. rewrite <- (Hby o Ho). unfold fbyte. by rewrite !empty_addr.
  - constructor; [|apply Hti]. intros bn Hb. rewrite empty_addr. change (nblk (Z.of_nat (@length Z []))) with 0. unfold in_file in Hb. lia.
Qed.

(** The size of the root directory is rounded up: unless it fills its blocks, it gets
    zeros, which are no entries. *)
Lemma disk_round fb D A j n n' di : image fb D -> disk_ok sb (marked fb D) A -> nT A j = T_DIR -> file_is (marked fb D) j n -> dinode_ok di ->
  di = set_d_size (Z.of_nat (length n) + n') (dinode_of sb (marked fb D) j) -> 0 <= n' -> (exists t, Z.of_nat (length n) + n' = DESIZE * t) ->
  nblk (Z.of_nat (length n) + n') = nblk (Z.of_nat (length n)) -> Z.of_nat (length n) + n' <= MAXFILE * BSIZE ->
  let D' := k_data (k_iupd sb j di (kof fb D)) in
  disk_ok sb D' A /\ changed sb (marked fb D) D' j /\ iad sb D' j = iad sb (marked fb D) j /\ isz sb D' j = Z.of_nat (length n) + n' /\
  (forall o, off_ok o -> fbyte D' (iad sb D' j) o = fbyte (marked fb D) (iad sb (marked fb D) j) o) /\
  (forall bn, nth_addr D' (iad sb D' j) bn = nth_addr (marked fb D) (iad sb (marked fb D) j) bn).
Proof.
  intros Im [B HG HT HN] Ht [Fsz Fby Fti] Hok Edi Hn' [t Et] Hnb Hmax D'. set (k := kof fb D) in *.
  pose proof (kof_geom _ _ Im) as Gm. fold k in Gm. change (marked fb D) with (k_data k) in *. rewrite <- HT in Ht.
  assert (ity sb (k_data k) j ≠ 0) as Hal by (rewrite Ht; done). pose proof (ity_inum sb _ _ Hal) as Hn.
  pose proof (fun i Hi => dinode_iupd sb j di k i Gm Hn Hi Hok) as Hdi. fold D' in Hdi.
  assert (dinode_of sb D' j = di) as Hnum by (rewrite Hdi by done; by rewrite decide_True).
  assert (forall i, ity sb D' i = ity sb (k_data k) i) as Hity.
  { intros i. unfold ity. case_decide as Hi; [|done]. rewrite Hdi by done. destruct (decide _) as [->|]; [by rewrite Edi|done]. }
  assert (iad sb D' j = iad sb (k_data k) j /\ isz sb D' j = Z.of_nat (length n) + n') as [Had Hsz].
  { unfold iad, isz. rewrite Hity, Hnum, Edi, (proj2 (Z.eqb_neq _ 0)) by done. done. }
  destruct (geom_iblock sb k j Gm Hn) as (Hib1 & Hib2 & Hib3 & Hib4 & Hib5). pose proof (geom_order sb k Gm) as Hord.
  assert (forall a, live sb (k_data k) a -> blk D' a = blk (k_data k) a) as Hblk by (intros a [Ha _]; apply blk_iupd; [done|done|lia|lia]).
  destruct (changed_keep sb (k_data k) D' j B) as (C & HF & HB & HW); [|done|done| |].
  { intros i Hi Hne. rewrite Hdi by done. by rewrite decide_False. }
  { intros a Ha. apply used_iupd; [done|done|lia]. }
  assert (forall bn, nth_addr D' (iad sb D' j) bn = nth_addr (k_data k) (iad sb (k_data k) j) bn) as Haddr.
  { intros bn. rewrite Had. apply other_addr. intros a Ha. apply Hblk, (owned_live sb _ _ _ (bo_file _ _ B j) Ha). }
  split_and!; [|done..]. split.
  - apply (blocks_change sb (k_data k) D' j B C); [by rewrite Hnum|done|]. rewrite Hsz. split; [lia|]. intros bn Hb Hlt. rewrite Haddr.
    apply (ti_addr _ _ _ Fti); [unfold in_file, BSIZE in *; lia|]. rewrite <- Hnb. unfold nblk, BSIZE in *. Z.div_mod_to_equations. lia.
  - apply (graph_change sb (k_data k) D' j B C (nG A)); [done|done| |intros _; exists t; rewrite Hsz; unfold DESIZE in *; lia].
    intros o v. rewrite (gr_ent _ _ _ HG). unfold is_ent. rewrite Hity, Hsz, Fsz.
    destruct (gr_size _ _ _ HG j Ht) as (t0 & Ht0 & Et0). rewrite Fsz in Et0. rewrite Et, Et0, !elem_dir_offs by (unfold DESIZE in *; lia).
    assert (forall u, 0 <= u < t -> entry D' (iad sb D' j) (DESIZE * u) = entry (k_data k) (iad sb (k_data k) j) (DESIZE * u)) as Hent.
    { intros u Hu. apply (entry_same _ _ _ _ t); [done|unfold DESIZE in *; lia|lia|]. apply elem_dir_offs; [unfold DESIZE in *; lia|by exists u]. }
    split; intros (H1 & (u & -> & Hu) & H3 & H4).
    + split_and!; [done|exists u; unfold DESIZE in *; lia|by rewrite Hent by (unfold DESIZE in *; lia)|done].
    + rewrite Hent in H3 by done. split_and!; [done| |done|done]. exists u. split; [done|]. destruct (decide (u < t0)) as [|Hge]; [lia|].
      destruct H4. rewrite <- H3. unfold de_inum, get16, entry, bytes. change (seqZ (DESIZE * u) DESIZE) with (seqZ (DESIZE * u) 16).
      rewrite !list_lookup_fmap, !lookup_seqZ_lt by lia. cbn [fmap option_fmap option_map default from_option]. unfold id.
      unfold DESIZE in *. rewrite !Fby by (unfold off_ok; lia). by rewrite !lookup_ge_None_2 by lia.
  - intros i. by rewrite Hity.
  - intros i. rewrite <- HN. unfold inl. case_decide; [|done]. rewrite Hdi by done. destruct (decide _) as [->|]; [by rewrite Edi|done].
Qed.

Definition padding (n : Z) : Z := (n / BSIZE + 1) * BSIZE - n.

Lemma wp_fix_root s A dat j Q : made s A dat -> nT A j = T_DIR ->
  let n := Z.of_nat (length (dat j)) in n mod BSIZE ≠ 0 -> n < MAXFILE * BSIZE ->
  (forall s', made s' A (dset dat j (dat j ++ replicate (Z.to_nat (padding n)) 0)) -> freeinode s' = freeinode s ->
    freeblock s' = freeblock s -> low_same s s' -> Q tt s') ->
  wp P (fix_root j) s Q.
Proof.
  intros [Im Hd Hdat] Ht n Hm Hlt HQ. pose proof (Hdat j) as Hfi. pose proof (dk_T _ _ _ Hd j) as HT. rewrite Ht in HT.
  assert (ity sb (mdisk s) j ≠ 0) as Hal by (rewrite HT; done). pose proof (ity_inum sb _ _ Hal) as Hn. destruct (iad_live sb _ _ Hal) as [Ea Es].
  rewrite (fi_sz _ _ _ Hfi) in Es. fold n in Es. assert (MAXFILE * BSIZE = 71680 /\ BSIZE = 512) as (E1 & E2) by done.
  assert (0 < padding n <= 512 /\ n + padding n <= 71680 /\ (exists t, n + padding n = DESIZE * t) /\ nblk (n + padding n) = nblk n /\
    n + padding n = (n / BSIZE + 1) * BSIZE) as (Hp1 & Hp2 & Hp3 & Hp4 & Hp5).
  { unfold padding, nblk, DESIZE. rewrite E1, E2 in *. split_and!; [| | |exists (32 * (n / 512 + 1)); lia| |]; Z.div_mod_to_equations; lia. }
  pose proof (bo_di _ _ (dk_blocks _ _ _ Hd) j Hal) as Hok. set (di0 := dinode_of sb (mdisk s) j) in *.
  unfold fix_root. wp_next. apply wp_rinode; [done|done|]. fold di0. rewrite <- Es, (xint_id n), <- Hp5, u32_small, xint_id by lia.
  assert (dinode_ok (set_d_size (n + padding n) di0)) as Hok' by (destruct Hok; constructor; try done; cbn; lia).
  apply wp_winode; [done|done|]. intros D' Im' ED Hlow.
  destruct (disk_round (freeblock s) (img s) A j (dat j) (padding n) _ Im Hd Ht Hfi Hok' eq_refl) as (Hd' & C & Ea' & Es' & HB & Haddr); fold n; [lia|done|done|lia|].
  change (dinode_of sb (marked (freeblock s) (img s)) j) with di0 in *. fold n in Hd', C, Ea', Es', HB, Haddr. rewrite <- ED in *.
  apply HQ; [|done|done|done]. constructor; [done|done|]. intros i. unfold mdisk. cbn [img freeblock]. unfold dset.
  destruct (decide (i = j)) as [->|Hne]; [|eapply file_is_other; [apply Hd|done|done|apply Hdat]].
  assert (Z.of_nat (length (dat j ++ replicate (Z.to_nat (padding n)) 0)) = n + padding n) as El by (rewrite length_app, length_replicate; lia).
  destruct Hfi as [_ Fby Fti]. constructor; rewrite ?El.
  - exact Es'.
  - intros o Ho. rewrite HB by done. rewrite Fby by done. unfold off_ok in Ho. destruct (decide (o < n)); [by rewrite lookup_app_l by lia|].
    rewrite (lookup_ge_None_2 (dat j)) by lia. rewrite lookup_app_r by lia. destruct (_ !! _) eqn:E; [|done]. by apply lookup_replicate_1 in E as [-> _].
  - rewrite Hp4. constructor; [intros bn Hb; rewrite Haddr; by apply Fti|rewrite Ea'; apply Fti].
Qed.

(** When the directory fills its last block, it gets a block more, which has no address. *)
Lemma wp_fix_hole s A dat j Q : made s A dat -> nT A j = T_DIR ->
  let n := Z.of_nat (length (dat j)) in n mod BSIZE = 0 -> n < NDIRECT * BSIZE ->
  (forall s', image (freeblock s') (img s') -> isz sb (mdisk s') j = n + BSIZE -> nth_addr (mdisk s') (iad sb (mdisk s') j) (n / BSIZE) = 0 -> Q tt s') ->
  wp P (fix_root j) s Q.
Proof.
  intros [Im Hd Hdat] Ht n Hm Hlt HQ. pose proof (Hdat j) as Hfi. pose proof (dk_T _ _ _ Hd j) as HT. rewrite Ht in HT.
  assert (ity sb (mdisk s) j ≠ 0) as Hal by (rewrite HT; done). pose proof (ity_inum sb _ _ Hal) as Hn. destruct (iad_live sb _ _ Hal) as [Ea Es].
  rewrite (fi_sz _ _ _ Hfi) in Es. fold n in Es. assert (NDIRECT * BSIZE = 6144 /\ BSIZE = 512) as (E1 & E2) by done.
  assert ((n / BSIZE + 1) * BSIZE = n + BSIZE) as En by (rewrite E2 in *; Z.div_mod_to_equations; lia).
  pose proof (bo_di _ _ (dk_blocks _ _ _ Hd) j Hal) as Hok. set (di0 := dinode_of sb (mdisk s) j) in *.
  unfold fix_root. wp_next. apply wp_rinode; [done|done|]. fold di0. rewrite <- Es, (xint_id n), En, u32_small, xint_id by lia.
  assert (dinode_ok (set_d_size (n + BSIZE) di0)) as Hok' by (destruct Hok; constructor; try done; cbn; lia).
  apply wp_winode; [done|done|]. intros D' Im' ED _. pose proof (kof_geom _ _ Im) as G.
  assert (dinode_of sb (mdisk (mkMk D' (freeinode s) (freeblock s))) j = set_d_size (n + BSIZE) di0) as Edi.
  { unfold mdisk. cbn [img freeblock]. rewrite ED, dinode_iupd by done. by rewrite decide_True. }
  assert (ity sb (mdisk (mkMk D' (freeinode s) (freeblock s))) j ≠ 0) as Hal'.
  { unfold ity in Hal |- *. rewrite Edi. exact Hal. }
  destruct (iad_live sb _ _ Hal') as [Ea' Es']. rewrite Edi in Ea', Es'. apply HQ; [done|done|].
  assert (n / BSIZE < NDIRECT) as Hdir by (rewrite E2 in *; change NDIRECT with 12 in *; Z.div_mod_to_equations; lia).
  rewrite Ea'. change (d_addrs (set_d_size (n + BSIZE) di0)) with (d_addrs di0). rewrite <- Ea.
  assert (forall D, nth_addr D (iad sb (mdisk s) j) (n / BSIZE) = nth_addr (mdisk s) (iad sb (mdisk s) j) (n / BSIZE)) as ->.
  { intros D. unfold nth_addr. by rewrite (proj2 (Z.ltb_lt _ _) Hdir). }
  eapply tight_addr; [apply Hfi| |].
  - unfold in_file, MAXFILE, NINDIRECT, BSIZE, NDIRECT in *. fold n. pose proof (Z.div_pos n 512). lia.
  - fold n. unfold nblk. rewrite E2 in *. Z.div_mod_to_equations. lia.
Qed.

End steps.

(** ** The empty image *)

Lemma get_zero o : get_dinode zeroes o = dinode0.
Proof.
  assert (forall i, default 0 (zeroes !! i) = 0) as H.
  { intros i. unfold zeroes. destruct (_ !! i) eqn:E; [|done]. by apply lookup_replicate_1 in E as [-> _]. }
  unfold get_dinode, dinode0, get_addrs, getu32, get32, get16. rewrite !H. f_equal. cbn [seq fmap list_fmap map]. by rewrite !H.
Qed.

Definition empty_ns : ns := mkNs (fun _ => 0) (fun _ => 0) ∅.

Definition empty_img : list (list Z) := bput 1 sb_block (replicate 1000 zeroes).

Lemma blank_blk b : 0 <= b < 1000 -> b ≠ 1 -> blk empty_img b = zeroes.
Proof.
  intros Hb Hne. unfold empty_img. rewrite blk_bput by (rewrite ?length_replicate; lia). rewrite decide_False by done.
  unfold blk. by rewrite lookup_replicate_2 by lia.
Qed.

Lemma sb_block_len : length sb_block = 512%nat.
Proof. vm_compute. reflexivity. Qed.

Lemma blank_image : image 59 empty_img.
Proof.
  constructor; [unfold empty_img, bput; by rewrite length_insert, length_replicate| |lia|intros b Hb; apply blank_blk; lia].
  apply Forall_insert; [|apply sb_block_len]. by apply Forall_replicate.
Qed.

Lemma blank_made fi : made (mkMk empty_img fi 59) empty_ns (fun _ => []).
Proof.
  pose proof blank_image as Im. set (D := marked 59 empty_img).
  assert (forall j, is_inum sb j -> dinode_of sb D j = dinode0) as Hdi.
  { intros j Hj. pose proof (iblock_range j Hj). unfold dinode_of, D. rewrite (blk_marked _ _ Im) by lia. rewrite blank_blk by lia. apply get_zero. }
  assert (forall j, ity sb D j = 0) as Hty by (intros j; unfold ity; case_decide as H; [by rewrite (Hdi j H)|done]).
  assert (forall j, iad sb D j = replicate 13 0 /\ isz sb D j = 0) as Had by (intros j; unfold iad, isz; by rewrite Hty).
  constructor; [done| |]; unfold mdisk; cbn [img freeblock]; fold D.
  - split; [constructor| | |].
    + intros j Hj. by rewrite Hty in Hj.
    + intros j. rewrite (proj1 (Had j)). apply empty_file.
    + intros j. rewrite (proj1 (Had j)), (proj2 (Had j)). apply whole_nil.
    + intros j j' a. rewrite (proj1 (Had j)). intros Ho. by apply empty_owned in Ho.
    + intros a Ha. rewrite data0_is, sb_is in Ha. cbn [sb_size] in Ha. unfold D. rewrite (used_marked _ _ Im); lia.
    + constructor; [|intros d Hd; by rewrite Hty in Hd]. intros d o v. cbn [nG empty_ns]. rewrite lookup_empty. split; [done|].
      intros (H & _). by rewrite Hty in H.
    + intros j. apply Hty.
    + intros j. unfold inl. case_decide as H; [by rewrite (Hdi j H)|done].
  - intros j. destruct (Had j) as [Ha Hs]. constructor; rewrite ?Ha; [done| |].
    + intros o _. unfold fbyte. by rewrite empty_addr.
    + constructor; [|done]. intros bn Hb. rewrite empty_addr. change (nblk (Z.of_nat (@length Z []))) with 0. unfold in_file in Hb. lia.
Qed.

(** ** The root directory *)

Notation no_entry := (replicate 16 0).

Definition file_ent (i : nat) (f : list Z) : list Z := new_entry (skip_underscore f) (2 + Z.of_nat i) no_entry.

Definition root_ents (files : list (list Z)) : list (list Z) :=
  new_entry DOT ROOTINO no_entry :: new_entry DOTDOT ROOTINO no_entry :: imap file_ent files.

Definition root_map (es : list (list Z)) : entries := kmap (fun i : nat => (ROOTINO, DESIZE * Z.of_nat i)) (map_seq 0 es : gmap nat (list Z)).

#[local] Instance root_key_inj : Inj (=) (=) (fun i : nat => (ROOTINO, DESIZE * Z.of_nat i)).
Proof. intros i i' H. injection H. unfold DESIZE. lia. Qed.

Lemma root_lookup es d o e : root_map es !! (d, o) = Some e <-> exists i : nat, d = ROOTINO /\ o = DESIZE * Z.of_nat i /\ es !! i = Some e.
Proof.
  unfold root_map. rewrite lookup_kmap_Some by apply _. split.
  - intros (i & [= -> ->] & H). exists i. rewrite lookup_map_seq_0 in H. done.
  - intros (i & -> & -> & H). exists i. by rewrite lookup_map_seq_0.
Qed.

Lemma root_map_snoc es e : root_map (es ++ [e]) = <[(ROOTINO, DESIZE * Z.of_nat (length es)) := e]> (root_map es).
Proof. unfold root_map. rewrite map_seq_snoc. by rewrite (kmap_insert (fun i : nat => (ROOTINO, DESIZE * Z.of_nat i))). Qed.

Lemma root_ents_snoc files f : root_ents (files ++ [f]) = root_ents files ++ [file_ent (length files) f].
Proof. unfold root_ents. rewrite imap_app. cbn [app imap]. unfold imap at 2. cbn. by rewrite Nat.add_0_r. Qed.

Lemma root_ents_at files i e : root_ents files !! i = Some e ->
  (i = 0%nat /\ e = new_entry DOT ROOTINO no_entry) \/ (i = 1%nat /\ e = new_entry DOTDOT ROOTINO no_entry) \/
  (exists k f, i = S (S k) /\ files !! k = Some f /\ e = file_ent k f).
Proof.
  unfold root_ents. destruct i as [|[|k]]; [intros [= <-]; by left|intros [= <-]; by right; left|]. intros H. right. right.
  change (imap file_ent files !! k = Some e) in H. rewrite list_lookup_imap in H. destruct (files !! k) as [f|] eqn:E; [|done]. injection H as <-. by exists k, f.
Qed.

Lemma root_ents_len files : length (root_ents files) = (2 + length files)%nat /\ length (concat (root_ents files)) = (16 * (2 + length files))%nat.
Proof.
  assert (length (root_ents files) = (2 + length files)%nat) as El by (unfold root_ents; cbn; by rewrite length_imap).
  split; [done|]. rewrite <- El. assert (Forall (fun e => length e = 16%nat) (root_ents files)) as H.
  { apply Forall_lookup_2. intros i e [[_ ->]|[[_ ->]|(k & f & _ & _ & ->)]]%root_ents_at; by apply length_new_entry. }
  clear El. induction H as [|e es He _ IH]; [done|]. cbn [concat length]. rewrite length_app, IH, He. lia.
Qed.

Lemma file_ent_inum i f : Z.of_nat i < 60000 -> de_inum (file_ent i f) = 2 + Z.of_nat i.
Proof. intros Hi. unfold file_ent. rewrite new_entry_inum. apply Z.mod_small. lia. Qed.

(** *** The name space *)

Definition made_T (n : nat) (j : Z) : Z := if decide (j = ROOTINO) then T_DIR else if decide (2 <= j < 2 + Z.of_nat n) then T_FILE else 0.

Definition made_N (n : nat) (j : Z) : Z := if decide (1 <= j < 2 + Z.of_nat n) then 1 else 0.

Definition made_ns (files : list (list Z)) : ns := mkNs (made_T (length files)) (made_N (length files)) (root_map (root_ents files)).

Lemma links_one (G : graph) d o j : G !! (d, o) = Some j -> o ≠ 0 ->
  (forall d' o', G !! (d', o') = Some j -> o' ≠ 0 -> (d', o') = (d, o)) -> links G j = 1%nat.
Proof.
  intros H Ho Hu. rewrite (links_delete _ _ _ _ j H). unfold counts. rewrite bool_decide_true by done.
  rewrite links_zero; [done|]. intros d' o' [Hne E]%lookup_delete_Some. destruct (decide (o' = 0)); [done|]. by destruct Hne; rewrite (Hu d' o').
Qed.

Section tree.
Context (files : list (list Z)) (Hlen : Z.of_nat (length files) < 60000).
Let n := length files.
Let G := de_inum <$> root_map (root_ents files).

Lemma root_graph d o j : G !! (d, o) = Some j <-> d = ROOTINO /\ ((o = 0 /\ j = ROOTINO) \/ (o = 16 /\ j = ROOTINO) \/
  (2 <= j < 2 + Z.of_nat n /\ o = DESIZE * j)).
Proof.
  unfold G. rewrite lookup_fmap, fmap_Some. setoid_rewrite root_lookup. split.
  - intros (e & (i & -> & -> & H) & ->). split; [done|].
    destruct (root_ents_at _ _ _ H) as [[-> ->]|[[-> ->]|(k & f & -> & Hf & ->)]]; [by left|by right; left|right; right].
    apply lookup_lt_Some in Hf. rewrite file_ent_inum by lia. unfold DESIZE. fold n in Hf. lia.
  - intros [-> H]. destruct H as [[-> ->]|[[-> ->]|[Hj ->]]]; [exists (new_entry DOT ROOTINO no_entry); split; [by exists 0%nat|done]|
      exists (new_entry DOTDOT ROOTINO no_entry); split; [by exists 1%nat|done]|].
    destruct (files !! Z.to_nat (j - 2)) as [f|] eqn:Hf; [|apply lookup_ge_None_1 in Hf; fold n in Hf; lia].
    exists (file_ent (Z.to_nat (j - 2)) f). split; [|rewrite file_ent_inum; lia]. exists (S (S (Z.to_nat (j - 2)))).
    split_and!; [done|unfold DESIZE; lia|]. change (imap file_ent files !! Z.to_nat (j - 2) = Some (file_ent (Z.to_nat (j - 2)) f)). by rewrite list_lookup_imap, Hf.
Qed.

Lemma made_tree : tree (made_ns files).
Proof.
  assert (forall c, made_T n c = T_DIR -> c = ROOTINO) as Hdir by (intros c; unfold made_T; repeat case_decide; done).
  unfold DESIZE in *. apply tree_plain; [constructor; cbn [nT nN nG made_ns]; fold n; fold G|].
  - intros d o j [-> H]%root_graph. split; [done|]. unfold made_T. destruct (decide (j = ROOTINO)); [done|]. rewrite decide_True; [done|]. lia.
  - intros d o j [_ H]%root_graph. unfold DESIZE in H. lia.
  - intros j. unfold made_T, made_N, no_surplus, ROOTINO. destruct (decide (j = 1)) as [->|Hj]; [intros _|].
    + rewrite decide_True by lia. rewrite (links_one G 1 16 1); [done|apply root_graph; auto|done|].
      intros d o [-> H]%root_graph Ho. unfold ROOTINO in *. f_equal. lia.
    + case_decide as H; [|done]. intros _. rewrite decide_True by lia. rewrite (links_one G 1 (16 * j) j); [done|apply root_graph; unfold DESIZE, ROOTINO; auto|lia|].
      intros d o [-> H']%root_graph Ho. unfold ROOTINO, DESIZE in *. f_equal. lia.
  - intros d j [-> H]%root_graph. unfold DESIZE in H. lia.
  - intros d ->%Hdir _. split; [apply root_graph; auto|]. assert (G !! (ROOTINO, 16) = Some ROOTINO) as -> by (apply root_graph; auto). done.
  - intros d p [_ H]%root_graph. assert (p = ROOTINO) as -> by (unfold DESIZE in H; lia). done.
  - intros d o c [_ H]%root_graph Ho ->%Hdir. unfold DESIZE, ROOTINO in *. lia.
  - intros d o d' o' c [-> H]%root_graph [-> H']%root_graph Ho Ho' _. unfold DESIZE in *. f_equal. lia.
  - by intros c d ->%Hdir.
  - split_and!; [done|set_solver|]. apply root_graph. auto.
  - cbn [nG made_ns]. intros d e name. rewrite !root_lookup. pose proof (names_dot_entry name ROOTINO no_entry eq_refl) as [H1 H2].
    split; intros (i & _ & Ho & [[-> ->]|[[-> ->]|(k & f & -> & _)]]%root_ents_at) Hn; try (unfold DESIZE in Ho; lia); auto.
Qed.

End tree.

(** ** The program *)

Section main.
Context (h : host).
Implicit Types (files : list (list Z)) (dat : Z -> list Z).

Definition data (f : list Z) : list Z := concat (default [] (contents h f)).

Definition file_size (f : list Z) : Z := Z.of_nat (length (data f)).

(** The blocks that the root directory and the files take. *)
Definition blocks_of files : Z := need (nblk (DESIZE * (2 + Z.of_nat (length files)))) + foldr (fun f a => need (nblk (file_size f)) + a) 0 files.

(** What mkfs can put into the image. *)
Definition file_fits (f : list Z) : Prop := SLASH ∉ f /\ contents h f ≠ None /\ file_size f <= MAXFILE * BSIZE.

Record built (A : ns) dat (s : mkst) files : Prop := mkBuilt {
  bu_made : made s A dat;
  bu_T : forall j, nT A j = made_T (length files) j;
  bu_N : forall j, nN A j = made_N (length files) j;
  bu_G : nG A = root_map (root_ents files);
  bu_root : dat ROOTINO = concat (root_ents files);
  bu_dat : forall i f, files !! i = Some f -> dat (2 + Z.of_nat i) = data f;
  bu_nil : forall j, 2 + Z.of_nat (length files) <= j -> dat j = [];
  bu_fi : freeinode s = 2 + Z.of_nat (length files);
  bu_fb : freeblock s = nmeta + blocks_of files;
  bu_low : low_same (mkMk empty_img 0 0) s }.

Lemma low_trans s1 s2 s3 : low_same s1 s2 -> low_same s2 s3 -> low_same s1 s3.
Proof. intros H1 H2 b Hb. by rewrite H2, H1. Qed.

Lemma need_pos c : 0 <= c -> 0 <= need c.
Proof. intros H. unfold need. destruct (NDIRECT <? c); lia. Qed.

Lemma nblk_pos n : 0 <= n -> 0 <= nblk n.
Proof. intros H. unfold nblk, BSIZE. apply Z.div_pos; lia. Qed.

Lemma sizes_snoc files f : foldr (fun f a => need (nblk (file_size f)) + a) 0 (files ++ [f]) =
  foldr (fun f a => need (nblk (file_size f)) + a) 0 files + need (nblk (file_size f)).
Proof. induction files as [|g files IH]; cbn [foldr app]; [lia|]. rewrite IH. lia. Qed.

Lemma blocks_snoc files f : blocks_of files <= blocks_of (files ++ [f]).
Proof.
  unfold blocks_of. rewrite sizes_snoc, length_app. cbn [length]. pose proof (need_pos _ (nblk_pos (file_size f) ltac:(unfold file_size; lia))).
  pose proof (need_mono _ _ (nblk_mono (DESIZE * (2 + Z.of_nat (length files))) (DESIZE * (2 + Z.of_nat (length files + 1))) ltac:(unfold DESIZE; lia))). lia.
Qed.

Lemma blocks_app files rest : blocks_of files <= blocks_of (files ++ rest).
Proof.
  revert files. induction rest as [|f rest IH]; intros files; [by rewrite app_nil_r|].
  pose proof (blocks_snoc files f). specialize (IH (files ++ [f])). rewrite <- app_assoc in IH. cbn [app] in IH. lia.
Qed.

Lemma data_len_le (c1 c2 : list (list Z)) : Z.of_nat (length (concat c1)) <= Z.of_nat (length (concat (c1 ++ c2))).
Proof. rewrite concat_app, length_app. lia. Qed.

(** The contents of a file, chunk by chunk. *)
Lemma wp_chunks P chunks s A dat j Q : made s A dat -> nT A j = T_FILE -> dat j = [] ->
  let size := Z.of_nat (length (concat chunks)) in size <= MAXFILE * BSIZE -> freeblock s + need (nblk size) <= 1000 ->
  (forall s' dat', made s' A dat' -> dat' j = concat chunks -> (forall i, i ≠ j -> dat' i = dat i) -> freeinode s' = freeinode s ->
    freeblock s' = freeblock s + need (nblk size) -> low_same s s' -> Q tt s') ->
  wp P (mfor chunks (fun buf => iappend j buf)) s Q.
Proof.
  intros Hm Ht Hnil size Hmax Hroom HQ.
  apply (wp_mfor P (fun rest s' => exists done dat', chunks = done ++ rest /\ made s' A dat' /\ dat' j = concat done /\
    (forall i, i ≠ j -> dat' i = dat i) /\ freeinode s' = freeinode s /\
    freeblock s' = freeblock s + need (nblk (Z.of_nat (length (concat done)))) /\ low_same s s')).
  - exists [], dat. split_and!; try done. change (need _) with 0. lia.
  - intros buf rest s1 (dn & dat1 & E & Hm1 & Hj & Ho & Hfi & Hfb & Hlow).
    assert (chunks = (dn ++ [buf]) ++ rest) as E2 by (by rewrite E, <- app_assoc).
    pose proof (data_len_le (dn ++ [buf]) rest) as Hle. rewrite <- E2 in Hle. fold size in Hle.
    assert (length (concat (dn ++ [buf])) = length (concat dn) + length buf)%nat as El by (rewrite concat_app, length_app; cbn; by rewrite app_nil_r).
    pose proof (need_mono _ _ (nblk_mono _ _ Hle)) as Hmono. rewrite El, Nat2Z.inj_add in Hmono, Hle.
    apply (wp_append_file P s1 A dat1); rewrite ?Hj; [done|by rewrite Ht|by rewrite Ht|lia|lia|].
    intros s2 Hm2 Hfi2 Hfb2 Hlow2. exists (dn ++ [buf]), (dset dat1 j (concat dn ++ buf)).
    split_and!; [done|done| | |lia|rewrite El, Nat2Z.inj_add; lia|by eapply low_trans].
    + unfold dset. rewrite decide_True by done. by rewrite concat_app; cbn; rewrite app_nil_r.
    + intros i Hi. unfold dset. rewrite decide_False by done. by apply Ho.
  - intros s' (dn & dat' & E & Hm' & Hj & Ho & Hfi & Hfb & Hlow). rewrite app_nil_r in E. subst dn. by apply (HQ s' dat').
Qed.

Lemma dirent_new i name : 0 <= i < 65536 -> dirent i (strncpy_name name) = new_entry name i no_entry.
Proof. intros Hi. unfold dirent, new_entry. by rewrite xshort_id. Qed.

(** An entry of the root directory. *)
Lemma wp_root_entry P s A dat es e Q : made s A dat -> nT A ROOTINO = T_DIR -> dat ROOTINO = concat es -> length (concat es) = (16 * length es)%nat ->
  nG A = root_map es -> length e = 16%nat -> de_inum e ≠ 0 -> Z.of_nat (length es) < 4000 ->
  let sz := DESIZE * Z.of_nat (length es) in let fb' := freeblock s + need (nblk (sz + DESIZE)) - need (nblk sz) in fb' <= 1000 ->
  (forall s', made s' (mkNs (nT A) (nN A) (root_map (es ++ [e]))) (dset dat ROOTINO (concat (es ++ [e]))) ->
    freeinode s' = freeinode s -> freeblock s' = fb' -> low_same s s' -> Q tt s') ->
  wp P (iappend ROOTINO e) s Q.
Proof.
  intros Hm Ht Hr Hl HG He Hi Hlen sz fb' Hroom HQ.
  assert (Z.of_nat (length (dat ROOTINO)) = sz) as Esz by (rewrite Hr, Hl; unfold sz, DESIZE; lia).
  assert (MAXFILE * BSIZE = 71680) as Emax by done.
  apply (wp_append_entry P s A dat ROOTINO e (Z.of_nat (length es))); rewrite ?Esz; [done|done|done|done|unfold sz, DESIZE; lia|exact Hroom|].
  intros s' Hm' Hfi Hfb Hlow. apply HQ; [|done|done|done]. rewrite root_map_snoc. unfold put_ent in Hm'. rewrite decide_False in Hm' by done.
  rewrite HG in Hm'. rewrite concat_app. cbn [concat]. rewrite app_nil_r, <- Hr. done.
Qed.

Lemma wp_add_file P s A dat files f Q : built A dat s files -> file_fits f -> Z.of_nat (length files) < 198 -> nmeta + blocks_of (files ++ [f]) <= 1000 ->
  (forall s' A' dat', built A' dat' s' (files ++ [f]) -> Q tt s') -> wp P (add_file h ROOTINO f) s Q.
Proof.
  intros [Hm HT HN HG Hroot Hdat Hnil Hfi Hfb Hlow] (Hs & Hc & Hmax) Hlen Hroom HQ. set (n := length files) in *. set (j := 2 + Z.of_nat n) in *.
  unfold add_file. rewrite bool_decide_false by done. destruct (contents h f) as [chunks|] eqn:Ec; [clear Hc|done].
  assert (file_size f = Z.of_nat (length (concat chunks))) as Esz by (unfold file_size, data; by rewrite Ec).
  pose proof (need_pos _ (nblk_pos (file_size f) ltac:(unfold file_size; lia))) as Hp.
  unfold blocks_of in Hfb, Hroom. rewrite sizes_snoc, length_app in Hroom. cbn [length] in Hroom. fold n in Hfb, Hroom.
  destruct (root_ents_len files) as [El Elc]. fold n in El, Elc.
  wp_next. apply (wp_ialloc P s A dat); [done|rewrite Hfi; unfold is_inum; rewrite sb_is; cbn; lia| |rewrite Hfi; apply Hnil; lia|unfold T_FILE; lia|].
  { rewrite HT, Hfi. unfold made_T, ROOTINO. rewrite !decide_False by lia. done. }
  rewrite Hfi. cbv zeta. intros s1 Hm1 Hfi1 Hfb1 Hlow1. fold j in Hm1, Hfi1 |- *. rewrite dirent_new by lia.
  set (e := new_entry (skip_underscore f) j no_entry). wp_next.
  assert (de_inum e ≠ 0) as He by (unfold e; rewrite new_entry_inum, Z.mod_small by lia; lia).
  set (A1 := mkNs _ _ _) in Hm1. assert (nT A1 ROOTINO = T_DIR) as Ht1 by (cbn; unfold upd, ROOTINO; rewrite decide_False by lia; by rewrite HT).
  apply (wp_root_entry P s1 A1 dat (root_ents files)); [done|done|done|rewrite El, Elc; lia|done|by apply length_new_entry|done|lia|..]; rewrite El.
  all: replace (DESIZE * Z.of_nat (2 + n) + DESIZE) with (DESIZE * (2 + Z.of_nat (n + 1))) by (unfold DESIZE; lia).
  all: replace (DESIZE * Z.of_nat (2 + n)) with (DESIZE * (2 + Z.of_nat n)) by (unfold DESIZE; lia).
  { lia. }
  intros s2 Hm2 Hfi2 Hfb2 Hlow2. set (A2 := mkNs _ _ _) in Hm2. set (dat2 := dset _ _ _) in Hm2.
  apply (wp_chunks P chunks s2 A2 dat2); [done|cbn; unfold upd; by rewrite decide_True| | |rewrite <- Esz; lia|].
  { unfold dat2, dset, ROOTINO. rewrite decide_False by lia. by apply Hnil. }
  { by rewrite <- Esz. }
  rewrite <- Esz. intros s3 dat3 Hm3 Hj3 Ho3 Hfi3 Hfb3 Hlow3. apply (HQ s3 A2 dat3).
  constructor; rewrite ?length_app; cbn [length nT nN nG A2 A1]; fold n.
  - done.
  - intros i. unfold upd, made_T, ROOTINO. rewrite HT. unfold made_T, ROOTINO. fold n. repeat case_decide; (done || lia).
  - intros i. unfold upd, made_N. rewrite HN. unfold made_N. fold n. repeat case_decide; (done || lia).
  - by rewrite root_ents_snoc.
  - rewrite Ho3 by (unfold ROOTINO; lia). unfold dat2, dset. rewrite decide_True by done. by rewrite root_ents_snoc.
  - intros i g. destruct (decide (i = n)) as [->|Hne].
    + unfold n at 1. rewrite lookup_app_r, Nat.sub_diag by lia. intros [= <-]. fold j. rewrite Hj3. unfold data. by rewrite Ec.
    + intros Hg. assert (i < n)%nat as Hi by (apply lookup_lt_Some in Hg; rewrite length_app in Hg; cbn in Hg; lia). rewrite lookup_app_l in Hg by done.
      rewrite Ho3 by lia. unfold dat2, dset, ROOTINO. rewrite decide_False by lia. by apply Hdat.
  - intros i Hi. rewrite Ho3 by lia. unfold dat2, dset, ROOTINO. rewrite decide_False by lia. apply Hnil. lia.
  - lia.
  - unfold blocks_of. rewrite sizes_snoc, length_app. cbn [length]. fold n. lia.
  - eapply low_trans; [done|]. eapply low_trans; [done|]. by eapply low_trans.
Qed.

(** The blocks are zeroed one after the other. *)
Lemma wp_zero P fi fb Q : Q tt (mkMk (replicate 1000 zeroes) fi fb) -> wp P (mfor (seqZ 0 FSSIZE) (fun i => wsect i zeroes)) (mkMk [] fi fb) Q.
Proof.
  intros HQ. apply (wp_mfor P (fun rest s' => exists k : nat, (k <= 1000)%nat /\ rest = seqZ (Z.of_nat k) (1000 - Z.of_nat k) /\ s' = mkMk (replicate k zeroes) fi fb)).
  - exists 0%nat. split_and!; [lia|done|done].
  - intros i rest s' (k & Hk & E & ->). assert (k < 1000)%nat as Hlt.
    { destruct (decide (k = 1000)%nat) as [->|]; [done|lia]. }
    rewrite seqZ_cons in E by lia. injection E as -> ->. unfold wsect. apply wp_modify. unfold set_img. cbn [img freeinode freeblock].
    rewrite length_replicate, Nat2Z.id, decide_False, Nat.sub_diag by lia. exists (S k). split_and!; [lia|f_equal; lia|].
    cbn [replicate app]. by rewrite <- replicate_cons_app.
  - intros s' (k & Hk & E & ->). assert (k = 1000%nat) as ->; [|done]. destruct (decide (k = 1000)%nat); [done|].
    rewrite seqZ_cons in E by lia. done.
Qed.

(** The root directory with its first two entries. *)
Lemma wp_root P (K : Z -> M mkst unit) Q : (forall s A dat, built A dat s [] -> wp P (K ROOTINO) s Q) ->
  wp P (rootino ← ialloc T_DIR;
        if negb (rootino =? ROOTINO) then panic "assert" else
        iappend rootino (dirent rootino (strcpy_name DOT));;
        iappend rootino (dirent rootino (strcpy_name DOTDOT));; K rootino) (mkMk empty_img 1 nmeta) Q.
Proof.
  intros HQ. pose proof (blank_made 1) as Hm0. wp_next. apply (wp_ialloc P _ empty_ns (fun _ => [])); [done|unfold is_inum; rewrite sb_is; done|done|done|unfold T_DIR; lia|].
  cbv zeta. cbn [freeinode freeblock]. intros s1 Hm1 Hfi1 Hfb1 Hlow1. change (negb (1 =? ROOTINO)) with false. cbn iota.
  change (dirent 1 (strcpy_name DOT)) with (new_entry DOT ROOTINO no_entry). change (dirent 1 (strcpy_name DOTDOT)) with (new_entry DOTDOT ROOTINO no_entry).
  wp_next. eapply (wp_root_entry P s1 _ _ []); try done; [by rewrite Hfb1|].
  intros s2 Hm2 Hfi2 Hfb2 Hlow2. wp_next. eapply (wp_root_entry P s2 _ _ [new_entry DOT ROOTINO no_entry]); try done; [by rewrite Hfb2, Hfb1|].
  intros s3 Hm3 Hfi3 Hfb3 Hlow3. eapply HQ. constructor; [exact Hm3|..].
  - intros j. cbn. unfold upd, made_T, ROOTINO. cbn. repeat case_decide; (done || lia).
  - intros j. cbn. unfold upd, made_N. cbn. repeat case_decide; (done || lia).
  - done.
  - done.
  - intros i f Hf. by rewrite lookup_nil in Hf.
  - intros j Hj. unfold dset, ROOTINO. cbn in Hj. by rewrite !decide_False by lia.
  - rewrite Hfi3, Hfi2, Hfi1. done.
  - rewrite Hfb3, Hfb2, Hfb1. done.
  - eapply low_trans; [exact Hlow1|]. by eapply low_trans.
Qed.

(** What [readsb] reads. *)
Definition sb_of (d : list Z) : superblock :=
  mkSb (getu32 d 0) (getu32 d 4) (getu32 d 8) (getu32 d 12) (getu32 d 16) (getu32 d 20) (getu32 d 24).

(** A file system that holds the [files]: consistent, with an empty log, and with each
    file in the root directory. *)
Record holds_files (D : list (list Z)) files : Prop := mkHf {
  hf_len : length D = Z.to_nat FSSIZE;
  hf_blk : Forall (fun b => length b = Z.to_nat BSIZE) D;
  hf_sb : sb_of (blk D 1) = sb;
  hf_log : blk D (sb_logstart sb) = zeroes;
  hf_meta : meta_used sb D;
  hf_disk : disk_ok sb D (made_ns files);
  hf_tree : tree (made_ns files);
  hf_data : forall i f, files !! i = Some f -> let j := 2 + Z.of_nat i in
    nT (made_ns files) j = T_FILE /\ nG (made_ns files) !! (ROOTINO, DESIZE * j) = Some (new_entry (skip_underscore f) j no_entry) /\
    isz sb D j = file_size f /\ bytes D (iad sb D j) 0 (file_size f) = data f }.

Lemma bytes_data D j d : file_is D j d -> Z.of_nat (length d) <= MAXFILE * BSIZE -> bytes D (iad sb D j) 0 (Z.of_nat (length d)) = d.
Proof.
  intros [_ Hb _] Hmax. apply list_eq. intros i. unfold bytes. rewrite list_lookup_fmap. destruct (decide (i < length d)%nat) as [Hi|Hi].
  - rewrite lookup_seqZ_lt by lia. cbn. rewrite Hb by (unfold off_ok; lia). replace (Z.to_nat (0 + Z.of_nat i)) with i by lia.
    by destruct (lookup_lt_is_Some_2 d i Hi) as [v ->].
  - rewrite lookup_seqZ_ge by lia. by rewrite lookup_ge_None_2 by lia.
Qed.

Lemma built_holds A dat s files : built A dat s files -> Forall file_fits files -> Z.of_nat (length files) <= 198 ->
  forall s' dat', made s' A dat' -> (forall j, j ≠ ROOTINO -> dat' j = dat j) -> low_same s s' -> holds_files (mdisk s') files.
Proof.
  intros [_ HT HN HG _ Hdat _ _ _ Hlow] Hfit Hlen s' dat' [Im Hd Hfi] Ho Hlow'. pose proof (low_trans _ _ _ Hlow Hlow') as Hl. cbn [img] in Hl.
  assert (disk_ok sb (mdisk s') (made_ns files)) as Hd'.
  { destruct Hd as [D1 D2 D3 D4]. constructor; cbn [nT nN nG made_ns]; [done|by rewrite <- HG|intros j; by rewrite D3, HT|intros j; by rewrite D4, HN]. }
  constructor.
  - unfold mdisk, marked, bput. rewrite length_insert. apply Im.
  - apply (kof_geom _ _ Im).
  - unfold mdisk. rewrite (blk_marked _ _ Im), Hl by lia. vm_compute. reflexivity.
  - unfold mdisk. rewrite sb_is. cbn [sb_logstart]. rewrite (blk_marked _ _ Im), Hl by lia. by apply blank_blk.
  - apply (meta_marked _ _ Im).
  - done.
  - apply made_tree. lia.
  - intros i f Hf j. apply lookup_lt_Some in Hf as Hi. destruct (proj1 (Forall_lookup _ _) Hfit i f Hf) as (_ & _ & Hsz).
    assert (dat' j = data f) as Ej by (rewrite Ho by (unfold ROOTINO, j; lia); by apply Hdat).
    pose proof (Hfi j) as Hj. rewrite Ej in Hj. split_and!; [|apply root_lookup|apply Hj|by apply bytes_data].
    + cbn. unfold made_T, ROOTINO. rewrite decide_False by lia. by rewrite decide_True by lia.
    + exists (S (S i)). split_and!; [done|unfold j, DESIZE; lia|]. change (imap file_ent files !! i = Some (new_entry (skip_underscore f) j no_entry)). by rewrite list_lookup_imap, Hf.
Qed.

Lemma wp_files P rest files s A dat Q : built A dat s files -> Forall file_fits rest -> Z.of_nat (length (files ++ rest)) <= 198 ->
  nmeta + blocks_of (files ++ rest) <= 1000 -> (forall s' A' dat', built A' dat' s' (files ++ rest) -> Q tt s') ->
  wp P (mfor rest (add_file h ROOTINO)) s Q.
Proof.
  revert files s A dat. induction rest as [|f rest IH]; intros files s A dat Hb Hfit Hlen Hroom HQ.
  - rewrite app_nil_r in HQ. cbn [mfor]. apply wp_ret. by eapply HQ.
  - apply Forall_cons in Hfit as [Hf Hfit]. assert (files ++ f :: rest = (files ++ [f]) ++ rest) as E by (by rewrite <- app_assoc). rewrite E in *.
    pose proof (blocks_app (files ++ [f]) rest). rewrite !length_app in Hlen. cbn [length] in Hlen.
    cbn [mfor]. wp_next. apply (wp_add_file P s A dat files f); [done|done|lia|lia|]. intros s' A' dat' Hb'.
    apply (IH (files ++ [f]) s' A' dat'); [done|done|rewrite !length_app; cbn [length]; lia|done|done].
Qed.

End main.

Section image.
Context (h : host) (image : list Z) (files : list (list Z)) (Hc : creates h image = true) (Hfit : Forall (file_fits h) files).
Context (Hlen : Z.of_nat (length files) <= NINODES - 2) (Hroom : nmeta + blocks_of h files <= FSSIZE).

(** The program up to the root directory's size. *)
Lemma wp_main P Q : (forall s A dat, built h A dat s files -> wp P (fix_root ROOTINO;; fb ← gets freeblock; balloc fb) s Q) ->
  wp P (main h (image :: files)) start Q.
Proof.
  intros HQ. assert (NINODES - 2 = 198 /\ FSSIZE = 1000) as [E1 E2] by done. rewrite E1 in Hlen. rewrite E2 in Hroom.
  unfold main. change (negb (BSIZE mod 64 =? 0) || negb (BSIZE mod DESIZE =? 0)) with false. rewrite Hc. change (negb true) with false. cbn iota.
  wp_next. apply wp_modify. wp_next. apply wp_modify. change (set_freeblock nmeta (set_img [] start)) with (mkMk [] 1 nmeta).
  wp_next. apply wp_zero. wp_next. apply wp_wsect; [rewrite length_replicate; lia|]. fold empty_img.
  apply (wp_root h _ (fun r => mfor files (add_file h r);; fix_root r;; fb ← gets freeblock; balloc fb)). intros s1 A dat Hb. wp_next.
  apply (wp_files h _ files [] s1 A dat); [done|done|done|done|]. cbn [app]. exact HQ.
Qed.

(** The bitmap: the image is the disk that the model has in mind. *)
Lemma wp_last P s (Q : unit -> mkst -> Prop) : MkfsSpec.image (freeblock s) (img s) -> (forall s', img s' = mdisk s -> Q tt s') ->
  wp P (fb ← gets freeblock; balloc fb) s Q.
Proof.
  intros Im HQ. assert (BSIZE = 512) as E4 by done. pose proof (im_fb _ _ Im) as Hfb. pose proof (im_len _ _ Im) as Hl. wp_next. apply wp_gets.
  unfold balloc. replace (freeblock s <? BSIZE * 8) with true by (rewrite E4; lia). cbn [negb]. destruct s as [D fi fb].
  apply wp_wsect; [rewrite sb_is; cbn in *; lia|]. by apply HQ.
Qed.

Lemma mkfs_image : (2 + Z.of_nat (length files)) mod 32 ≠ 0 -> exists s, main h (image :: files) start = Ok tt s /\ holds_files h (img s) files.
Proof.
  intros Hmod. pose proof Hlen as Hlen1. change (NINODES - 2) with 198 in Hlen1.
  destruct (wp_total (main h (image :: files)) start (fun _ s => holds_files h (img s) files)) as ([] & s & Hr & HQ); [|by exists s].
  apply wp_main. intros s2 A2 dat2 Hb2. pose proof (built_holds h A2 dat2 s2 files Hb2 Hfit ltac:(lia)) as Hh. destruct Hb2 as [Hm2 HT2 _ _ Hroot _ _ _ Hfb2 _].
  destruct (root_ents_len files) as [_ El]. assert (MAXFILE * BSIZE = 71680 /\ BSIZE = 512) as [E3 E4] by done.
  wp_next. apply (wp_fix_root _ s2 A2 dat2); [done|by rewrite HT2|rewrite Hroot, El, E4; Z.div_mod_to_equations; lia|rewrite Hroot, El; lia|].
  intros s3 Hm3 Hfi3 Hfb3 Hlow3. apply wp_last; [apply Hm3|]. intros s4 ->. eapply Hh; [exact Hm3| |done]. intros j Hj. unfold dset. by rewrite decide_False.
Qed.

(** C38. When the entries of the root directory fill its last block (30 files, say), mkfs
    leaves a root directory whose size takes in a block without an address, so that the
    image is no consistent file system. *)
Theorem mkfs_hole : (2 + Z.of_nat (length files)) mod 32 = 0 -> exists s, main h (image :: files) start = Ok tt s /\
  isz sb (img s) ROOTINO = DESIZE * (2 + Z.of_nat (length files)) + BSIZE /\
  nth_addr (img s) (iad sb (img s) ROOTINO) ((2 + Z.of_nat (length files)) / 32) = 0 /\
  forall A, ~ disk_ok sb (img s) A.
Proof.
  intros Hmod. pose proof Hlen as Hlen1. change (NINODES - 2) with 198 in Hlen1. set (n := 2 + Z.of_nat (length files)) in *.
  destruct (wp_total (main h (image :: files)) start (fun _ s => isz sb (img s) ROOTINO = DESIZE * n + BSIZE /\
    nth_addr (img s) (iad sb (img s) ROOTINO) (n / 32) = 0)) as ([] & s & Hr & Hs & Ha).
  - apply wp_main. intros s2 A2 dat2 [Hm2 HT2 _ _ Hroot _ _ _ _ _]. destruct (root_ents_len files) as [_ El].
    assert (Z.of_nat (length (dat2 ROOTINO)) = DESIZE * n) as Er by (rewrite Hroot, El; unfold DESIZE, n; lia).
    assert (NDIRECT * BSIZE = 6144 /\ BSIZE = 512 /\ DESIZE = 16) as (E3 & E4 & E5) by done.
    wp_next. apply (wp_fix_hole _ s2 A2 dat2); rewrite ?Er; [done|by rewrite HT2|rewrite E4, E5; Z.div_mod_to_equations; lia|lia|].
    intros s3 Im3 Hsz Had. apply wp_last; [done|]. intros s4 ->. split; [done|]. rewrite <- Had. f_equal. rewrite E4, E5. Z.div_mod_to_equations. lia.
  - exists s. split_and!; [done|done|done|]. intros A [B _ _ _]. destruct (bo_whole _ _ B ROOTINO) as [_ HW]. rewrite Hs in HW.
    apply (HW (n / 32)); [apply Z.div_pos; lia| |done]. unfold BSIZE, DESIZE. Z.div_mod_to_equations. lia.
Qed.

End image.

(** C8. mkfs makes a consistent file system: when the files fit into the image, and the
    entries of the root directory do not fill its last block, it returns, and the image
    has the superblock, an empty log, a bitmap of the blocks in use, link counts that are
    numbers of names, and each file, with its bytes, under its name in the root directory. *)
Theorem mkfs_correct h image files : creates h image = true -> Forall (file_fits h) files ->
  Z.of_nat (length files) <= NINODES - 2 -> nmeta + blocks_of h files <= FSSIZE -> (2 + Z.of_nat (length files)) mod 32 ≠ 0 ->
  exists s, main h (image :: files) start = Ok tt s /\ holds_files h (img s) files.
Proof. apply mkfs_image. Qed.
