(* ===== verification/Boot.v ===== *)
(** * The file system at boot

    The steps of main.c and of the first process that bring the file system up, on a
    disk that mkfs made: they succeed, and what they leave is consistent, with the
    root directory as current directory of the first process. *)

From stdpp Require Import base numbers gmap sets list strings.
From S2P Require Import Prelude CString Spinlock Sleeplock Bio BioRing BioSpec.
From S2P Require Import Log LogSpec LogThms LogTxn Fs FsBlock FsAlloc FsFile FsInode FsDinode FsRW FsTrunc FsIcache FsDir SysFile.
From S2P Require Import FsNames FsCheck Mkfs MkfsSpec FsCache FsOps FsTree FsCalls FsLog FsRun FsWorld MkfsThms.
Import Mkfs.
Open Scope Z_scope.

Notation ROOTDEV := 1.

Section boot.
Context (me : Z) (devs : Z -> @devsw lst) (name0 : list Z).
#[local] Instance b_layer : BlockLayer lst := log_layer me.
#[local] Instance b_txn : TxnLayer lst := w_txn me.

(** [initlog(dev)], which reads the superblock. *)
Definition initlog_dev (dev : Z) : M (mach * fs lst) unit :=
  sb ← readsb dev;
  on_blk (initlog me dev (sb_logstart sb) (sb_nlog sb)).

(** [if(first)] in [forkret]. *)
Definition forkret_first : M (mach * fs lst) superblock :=
  sb ← iinit ROOTDEV;
  initlog_dev ROOTDEV;;
  mret sb.

(** [binit()] of main.c, [p->cwd = namei("/")] of [userinit], and [forkret] of the
    first process: the superblock and the inode. *)
Definition boot : M (mach * fs lst) (superblock * option nat) :=
  on_blk (on_bio binit);;
  cwd ← namei me (mkSb 0 0 0 0 0 0 0) devs 0 [Fs.SLASH] name0;
  sb ← forkret_first;
  mret (sb, cwd).

(** Memory before: static variables are zero. *)
Definition log0 (D : list (list Z)) : lst := mkL (mkBio bufs0 D []) 0 0 0 0 0 0 (replicate (Z.to_nat LOGSIZE) 0).

Definition fs0 (D : list (list Z)) : fs lst := mkFs (log0 D) (replicate NINODE inode0).

Section steps.
Context (P : failure -> Prop) (D : list (list Z)) (Hlen : length D = 1000%nat).
Notation fresh := (mkA D ∅ ∅ D []).

(** Reading the superblock does not need the log. *)
Lemma wp_readsb m st l ic Q : msec ∅ m -> cacheR fresh st ->
  (forall m' st', quiet ∅ m m' -> cacheR fresh st' -> Q (sb_of (blk D 1)) (m', mkFs (set_lbio st' l) ic)) ->
  wp P (readsb ROOTDEV) (m, mkFs (set_lbio st l) ic) Q.
Proof.
  intros Hm HR HQ. unfold readsb. cbn [b_read b_data b_rel b_layer log_layer]. wp_next. apply wp_on_blk. unfold on_bio at 1. apply wp_part.
  assert (asize fresh = 1000) as Es by (unfold asize; cbn; lia).
  apply (wp_bread _ _ fresh); [done|done|lia|done|intros _; cbn; unfold NBUF; rewrite dom_empty_L, union_empty_l_L, size_empty; lia|].
  intros i m1 st1 Hm1 _ HR1 Ho1 _. destruct (owns_for _ _ _ _ HR1 Ho1) as (x & Hx & _). cbn [fst snd fblk icache set_lbio lbio].
  wp_next. apply wp_on_blk. unfold on_bio at 1. apply wp_part. apply (wp_bfield _ _ _ _ _ x); [done|]. cbn [fst snd fblk icache set_lbio lbio].
  rewrite (owns_data _ _ _ _ _ HR1 Ho1 Hx). wp_next. apply wp_on_blk. unfold on_bio at 1. apply wp_part.
  eapply (wp_brelse _ _ _ _ _ i); [apply Hm1|exact HR1|exact Ho1|cbn; by rewrite lookup_insert_eq|by right|].
  intros m2 st2 Hm2 HR2 _. rewrite a_hold_drop in HR2 by done. cbn [fst snd fblk icache set_lbio lbio]. apply wp_ret.
  change (a_get 1 (a_hold 1 me fresh)) with (blk D 1). apply (HQ m2 st2); [by eapply quiet_trans|done].
Qed.

(** The inode cache with the root directory in it. *)
Record root_cache (ip : nat) (ic : list inode) : Prop := mkRc {
  rc_len : length ic = NINODE;
  rc_in : (ip < NINODE)%nat;
  rc_ent : forall t i, ic !! t = Some i -> unlocked i /\
    if decide (t = ip) then i_dev i = 1 /\ i_num i = ROOTINO /\ i_ref i = 1 /\ i_valid i = 0 else i_ref i = 0 }.

Lemma wp_root_name m x Q : msec ∅ m ->
  (forall m' ip ic, quiet ∅ m m' -> root_cache ip ic -> Q (Some ip) (m', mkFs x ic)) ->
  wp P (namei me (mkSb 0 0 0 0 0 0 0) devs 0 [Fs.SLASH] name0) (m, mkFs x (replicate NINODE inode0)) Q.
Proof.
  intros Hm HQ. unfold namei, namex. change (Fs.SLASH =? Fs.SLASH) with true. cbn iota. wp_next. wp_next.
  assert (forall t i, replicate NINODE inode0 !! t = Some i -> i = inode0 /\ (t < NINODE)%nat) as Hz by (intros t i H; by apply lookup_replicate_1 in H).
  apply wp_iget; [done|..]; cbn [icache fblk].
  - intros _ Hr. destruct (Hr 0%nat inode0); [by apply lookup_replicate_2; unfold NINODE; lia|done].
  - intros ip i m' _ [-> _]%Hz [H _]. cbn in H. lia.
  - intros ip i m' Hq _ Hi _. destruct (Hz _ _ Hi) as [-> Hlt]. apply wp_ret, wp_ret. apply HQ; [done|]. constructor; [by rewrite length_insert, length_replicate|done|].
    intros t i [[<- [<- _]]|[Hne H]]%list_lookup_insert_Some; [by rewrite decide_True|]. destruct (Hz _ _ H) as [-> _]. by rewrite decide_False.
Qed.

Lemma wp_iinit m st l ic ip Q : msec ∅ m -> cacheR fresh st -> root_cache ip ic ->
  (forall m' st' ic', msec ∅ m' -> cacheR fresh st' -> root_cache ip ic' -> Q (sb_of (blk D 1)) (m', mkFs (set_lbio st' l) ic')) ->
  wp P (iinit ROOTDEV) (m, mkFs (set_lbio st l) ic) Q.
Proof.
  intros Hm HR HC HQ. unfold iinit. wp_next. unfold on_mach_of, initlock. apply wp_zoom, wp_modify. wp_next.
  apply (wp_mfor P (fun _ s => msec ∅ s.1 /\ exists ic', root_cache ip ic' /\ s.2 = mkFs (set_lbio st l) ic')).
  - split; [by apply msec_initlock|]. by exists ic.
  - intros k rest [m1 s1] (Hm1 & ic1 & HC1 & E). cbn [fst snd] in *. subst s1. unfold on_ilock. apply wp_part. unfold initsleeplock.
    wp_next. unfold on_mach_of, initlock. apply wp_zoom, wp_modify. do 2 (wp_next; apply wp_data, wp_modify). apply wp_data, wp_modify.
    cbn [fst snd slocked slname spid]. split; [by apply msec_initlock|]. unfold upd_inode. cbn [fblk icache].
    eexists. split; [|done]. destruct HC1 as [H1 H2 H3]. constructor; [by rewrite length_alter|done|].
    intros t i Hi. destruct (decide (t = k)) as [->|Hne]; [|rewrite list_lookup_alter_ne in Hi by done; by apply H3].
    rewrite list_lookup_alter_eq in Hi. destruct (ic1 !! k) as [i0|] eqn:E; [|done]. injection Hi as <-. destruct (H3 k i0 E) as [_ H]. split; [done|].
    by destruct (decide (k = ip)).
  - intros [m2 s2] (Hm2 & ic2 & HC2 & E). cbn [fst snd] in *. subst s2. apply wp_readsb; [done|done|]. intros m' st' Hq HR'. apply HQ; [apply Hq|done|done].
Qed.

End steps.

Section image.
Context (h : host) (files : list (list Z)) (D : list (list Z)) (HD : holds_files h D files).

Lemma log_empty : head_n (blk D 2) = 0 /\ recovered 2 D = D.
Proof.
  pose proof (hf_log _ _ _ HD) as Hl. rewrite sb_is in Hl. cbn [sb_logstart] in Hl. assert (head_n (blk D 2) = 0) as H0 by (rewrite Hl; vm_compute; reflexivity).
  split; [done|]. rewrite recovered_zero by done. rewrite Hl. change (put32 0 0 zeroes) with zeroes. unfold bput. apply list_insert_id.
  unfold blk in Hl. destruct (D !! Z.to_nat 2) as [v|] eqn:E; [by rewrite <- Hl|]. apply lookup_ge_None_1 in E. rewrite (hf_len _ _ _ HD) in E. unfold FSSIZE in E. lia.
Qed.

Lemma image_head : head_ok 2 30 D.
Proof.
  destruct log_empty as [H0 _]. assert (head_list (blk D 2) = []) as Hl by (by apply head_list_zero).
  constructor; rewrite ?H0, ?Hl; [lia|unfold LOGSIZE, MAXOPBLOCKS; lia|lia|rewrite (hf_len _ _ _ HD); done| |apply NoDup_nil_2].
  intros b Hb. by apply not_elem_of_nil in Hb.
Qed.

(** The root directory is the one inode in use. *)
Lemma root_cached ip ic : root_cache ip ic -> cached me sb ∅ {[ip := (ROOTINO, 1)]} D ic.
Proof.
  intros [H1 H2 H3]. pose proof (hf_disk _ _ _ HD) as Hd. constructor; [done| | | |].
  - intros t i Hi. destruct (H3 t i Hi) as [Hu He]. rewrite bool_decide_false by (apply not_elem_of_empty). destruct (decide (t = ip)) as [->|Hne].
    + rewrite lookup_singleton_eq. destruct He as (E1 & E2 & E3 & E4). split; [|done]. split_and!; [done|done|lia|done|by rewrite (dk_T _ _ _ Hd)|by rewrite E4].
    + by rewrite lookup_singleton_ne.
  - intros t. destruct (decide (t = ip)) as [->|Hne]; [done|by rewrite lookup_singleton_ne].
  - intros a b num r r' [<- _]%lookup_singleton_Some [<- _]%lookup_singleton_Some. done.
  - intros j Hj. rewrite (dk_T _ _ _ Hd) in Hj. rewrite (dk_N _ _ _ Hd). cbn [nT nN made_ns] in *. unfold made_T, made_N, ROOTINO in *.
    repeat case_decide; (done || lia).
Qed.

Lemma image_geom l a : alog a = D -> lstart l = 2 -> lsize l = 30 -> geom sb (blks_of l a []).
Proof.
  intros Ea E1 E2. destruct sb_facts as (F1 & F2 & F3 & F4 & F5). pose proof (hf_len _ _ _ HD) as Hl. change (Z.to_nat FSSIZE) with 1000%nat in Hl.
  assert (k_size (blks_of l a []) = 1000) as Es by (unfold k_size; cbn [k_data blks_of]; rewrite Ea, Hl; done).
  constructor; rewrite ?F1, ?F2, ?F3, ?F4, ?F5, ?Es; cbn [blks_of k_lo k_hi k_data]; rewrite ?Ea, ?E1, ?E2; try lia; [done|apply HD].
Qed.

(** A log that is empty, and the root directory in the inode cache. *)
Lemma image_rest l a m ip ic : msec ∅ m -> log_rep l a [] -> outstanding l = 0 -> committing l = 0 -> alog a = D -> lstart l = 2 -> lsize l = 30 ->
  root_cache ip ic -> consistent me sb (mkUsers [ip] []) (m, mkFs l ic).
Proof.
  intros Hm RL Ho Hc Ea E1 E2 HC. exists {[ip := (ROOTINO, 1)]}, (made_ns files), (blks_of l a []). split.
  - constructor; cbn [fst snd fblk icache].
    + exact Hm.
    + by exists a.
    + by apply image_geom.
    + cbn [k_lo k_hi blks_of]. rewrite E1, E2. unfold LOGSIZE, MAXOPBLOCKS. lia.
    + cbn [k_data blks_of]. rewrite Ea. apply HD.
    + cbn [k_data blks_of]. rewrite Ea. apply HD.
    + apply HD.
    + cbn [k_data blks_of]. rewrite Ea. by apply root_cached.
  - constructor.
    + intros t. destruct (decide (t = ip)) as [->|Hne]; [rewrite lookup_singleton_eq|rewrite lookup_singleton_ne by done]; unfold times; cbn;
        [by rewrite decide_True|by rewrite decide_False].
    + intros cwd n r _ [_ [= <- _]]%lookup_singleton_Some. done.
Qed.

(** The log after recovery. *)
Lemma wp_boot m : msec ∅ m -> wp no_failure boot (m, fs0 D) (fun r t => r.1 = sb /\ exists ip, r.2 = Some ip /\
  consistent me sb (mkUsers [ip] []) t /\ disk (lbio (fblk t.2)) = D).
Proof.
  intros Hm. pose proof (hf_len _ _ _ HD) as Hl. change (Z.to_nat FSSIZE) with 1000%nat in Hl. destruct log_empty as [Hn Hrec].
  destruct (binit_correct m D Hm (hf_blk _ _ _ HD)) as (m1 & st1 & Eb & Hq1 & HR1 & _).
  unfold boot. wp_next. apply wp_on_blk. unfold on_bio. apply wp_part. unfold wp at 1. cbn [fst snd fblk icache fs0 log0 lbio]. rewrite Eb.
  wp_next. apply (wp_root_name no_failure D Hl); [apply Hq1|]. intros m2 ip ic Hq2 HC. cbn [fst snd]. unfold forkret_first. wp_next. wp_next.
  apply (wp_iinit no_failure D Hl _ st1 (log0 D) ic ip); [apply Hq2|done|done|]. intros m3 st3 ic3 Hm3 HR3 HC3. wp_next. unfold initlog_dev. wp_next.
  apply (wp_readsb no_failure D Hl _ st3 (log0 D)); [done|done|]. intros m4 st4 Hq4 HR4. rewrite (hf_sb _ _ _ HD), sb_is. cbn [sb_logstart sb_nlog]. rewrite <- sb_is.
  apply wp_on_blk. unfold initlog. change (4 + 4 * LOGSIZE >=? BSIZE) with false. cbn iota. cbn [fst snd fblk icache].
  wp_next. unfold on_mach_of, initlock. apply wp_zoom, wp_modify. wp_next. apply wp_data, wp_modify. cbn [fst snd].
  change (set_where 2 30 ROOTDEV (set_lbio st4 (log0 D))) with (set_lbio st4 (set_where 2 30 1 (log0 D))).
  apply (wp_recover me _ D (mkA D ∅ ∅ D []) 2 30); [by apply msec_initlock, Hq4|exact HR4|repeat split|apply image_head|reflexivity..|].
  intros m5 st5 l5 Hq5 HR5 <- E1 E2 E3 E4 E5 E6 E7. apply wp_ret, wp_ret. split; [done|]. exists ip. split; [done|].
  pose proof (a_writes_fields (recover_writes 2 D) (mkA D ∅ ∅ D [])) as (F1 & F2 & F3 & F4 & F5). set (a := a_writes _ _) in *. cbn [adisk alog apin aheld] in F1, F2, F4, F5.
  fold (recovered 2 D) in F1, F2. rewrite Hrec in F1, F2. cbn [fst snd fblk icache].
  assert (log_rep l5 a []) as RL.
  { constructor; cbn [length]; rewrite ?E2, ?E3;
      [exact HR5|exact F4|rewrite F5; generalize ((recover_writes 2 D).*1); clear; intros ws; set_solver|exact E4|exact E1|exact E5|reflexivity|apply NoDup_nil_2|intros b Hb; destruct (not_elem_of_nil b Hb)|lia|lia| |rewrite F1; exact Hn].
    unfold asize. rewrite F1, Hl. lia. }
  split; [|rewrite <- F1; exact (R_disk _ _ HR5)].
  apply (image_rest l5 a); [apply Hq5|exact RL|exact E6|exact E7|exact F2|exact E2|exact E3|exact HC3].
Qed.

End image.

(** C9. Booting on a disk that mkfs made succeeds, and leaves a consistent file system on
    the same disk: the superblock is the one mkfs wrote, and the first process is in the
    root directory. *)
Theorem boot_consistent h image files m : creates h image = true -> Forall (file_fits h) files ->
  Z.of_nat (length files) <= NINODES - 2 -> nmeta + blocks_of h files <= FSSIZE -> (2 + Z.of_nat (length files)) mod 32 ≠ 0 -> msec ∅ m ->
  exists s ip t, main h (image :: files) start = Ok tt s /\ boot (m, fs0 (img s)) = Ok (sb, Some ip) t /\
    consistent me sb (mkUsers [ip] []) t /\ disk (lbio (fblk t.2)) = img s /\ sizes_ok sb.
Proof.
  intros H1 H2 H3 H4 H5 Hm. destruct (mkfs_image h image files H1 H2 H3 H4 H5) as (s & Hs & HD). exists s.
  destruct (wp_total _ _ _ (wp_boot h files (img s) HD m Hm)) as ([sb' r] & t & Hr & Esb & ip & Er & Hc & Hdk). cbn [fst snd] in *. subst sb' r.
  exists ip, t. split_and!; [done|done|done|done|]. unfold sizes_ok. rewrite sb_is. cbn. lia.
Qed.

End boot.
