(* ===== verification/ExecThms.v ===== *)
(** * exec starts the program of a file with its arguments

    The stack with the arguments; then the whole call, on the file system and the
    memory: the new address space is the one that the file describes, or everything
    is as it was. *)

From stdpp Require Import base numbers gmap sets list strings.
From S2P Require Import Prelude CString Spinlock ProcState Syscall Sleeplock Bio Log Kalloc Vm VmTable VmUser VmSpace VmThms.
From S2P Require Import BioRing BioSpec LogSpec LogThms LogTxn Pipe File Fs FsBlock FsAlloc FsFile FsInode FsDinode FsRW FsTrunc FsIcache FsDir.
From S2P Require Import SysFile FsNames FsCheck FsCache FsOps FsTree FsCalls FsWorld Exec ExecSpec.
Import Kalloc Vm.
Open Scope Z_scope.

#[local] Notation over := VmThms.over.

(** ** Words and strings *)

Lemma over_out va buf (g : Z -> option Z) a : ~ (va <= a < va + Z.of_nat (length buf)) -> over va buf g a = g a.
Proof. intros H. unfold over. by rewrite decide_False. Qed.

Lemma over_in va buf (g : Z -> option Z) (i : nat) : (i < length buf)%nat -> over va buf g (va + Z.of_nat i) = buf !! i.
Proof.
  intros Hi. unfold over. rewrite decide_True by lia. replace (Z.to_nat (va + Z.of_nat i - va)) with i by lia.
  symmetry. destruct (buf !! i) eqn:E; [|apply lookup_ge_None in E; lia]. by rewrite (nth_lookup_Some _ _ _ _ E).
Qed.

Lemma string_over va s g : string_at (over va (s ++ [0]) g) va s.
Proof. intros i Hi. apply over_in. rewrite length_app. cbn. lia. Qed.

Lemma string_keep va buf (g : Z -> option Z) p s : string_at g p s -> va + Z.of_nat (length buf) <= p -> string_at (over va buf g) p s.
Proof. intros H Hp i Hi. rewrite over_out by lia. by apply H. Qed.

Lemma words_over va ws (g : Z -> option Z) (i : nat) w : ws !! i = Some w -> word_at (over va (concat (map bytes32 ws)) g) (va + 4 * Z.of_nat i) w.
Proof.
  intros Hw j Hj. assert (forall ws, length (concat (map bytes32 ws)) = (4 * length ws)%nat) as Hlen.
  { intros l. induction l as [|x l IH]; [done|]. cbn. rewrite IH. lia. }
  assert (concat (map bytes32 ws) !! (4 * i + j)%nat = bytes32 w !! j) as <-.
  { revert i Hw. induction ws as [|x ws IH]; intros i Hw; [done|]. cbn [map concat]. destruct i as [|i].
    - injection Hw as ->. rewrite Nat.mul_0_r. rewrite lookup_app_l by (cbn; lia). done.
    - rewrite lookup_app_r by (cbn; lia). cbn in Hw. rewrite <- (IH i Hw). f_equal. cbn. lia. }
  rewrite <- over_in with (va := va) (g := g).
  - f_equal. lia.
  - rewrite Hlen. apply lookup_lt_Some in Hw. lia.
Qed.

(** ** The stack *)

Section stack.
Context {X : Type} `{BL : BlockLayer X} `{TL : TxnLayer X}.
Context (kend kdata : Z) (Hkend : KERNBASE < kend).
Context (Hdata : KERNLINK < kdata < KERNBASE + PHYSTOP) (Hdal : kdata mod PGSIZE = 0).
Context (l0 : list Z) (s0 : kmst) (p0 : proc) (pd0 : Z) (T0 : gmap Z Z) (U0 : gmap Z (Z * Z)) (R0 : list Z).
Context (P : failure -> Prop).
Context (F : mach -> fs X -> Prop) (HF : forall m f m', F m f -> quiet ∅ m m' -> F m' f).
Implicit Types (e : est X) (T : gmap Z Z) (U : gmap Z (Z * Z)) (l : list Z).

Notation xst := (xst kend kdata l0 s0 p0 pd0 T0 U0 R0 F).

(** The program has [n] pages; above them one it may not use, and the stack. *)
Record stacked U (n : Z) : Prop := mkStk {
  sk_low : forall w, 0 <= w < n -> exists pg, U !! w = Some (pg, 7);
  sk_guard : exists pg, U !! n = Some (pg, 3);
  sk_stack : exists pg, U !! (n + 1) = Some (pg, 7);
  sk_none : forall w, ~ (0 <= w <= n + 1) -> U !! w = None }.

Lemma kernel_top v : 1040384 <= v < 1048576 -> kernel_entry kdata v = 4096 * v + 3.
Proof.
  intros Hv. destruct (kdata_pages kdata Hdata Hdal) as [_ Hk]. unfold kernel_entry.
  rewrite !decide_False by lia. rewrite decide_True by lia. done.
Qed.

Lemma user_7 : Z.land 7 PTE_U ≠ 0.
Proof. done. Qed.

(** Inside the stack page. *)
Lemma wp_x_copyout l pd T U n e g va buf Q :
  xst l pd T U e -> stacked U n -> sees U e g -> 0 <= n -> n + 2 <= KPAGE ->
  4096 * (n + 1) <= va -> va + Z.of_nat (length buf) <= 4096 * (n + 2) ->
  (forall e', xst l pd T U e' -> sees U e' (over va buf g) -> Q 0 e') ->
  wp P (on_km (copyout pd va buf)) e Q.
Proof.
  intros HX SK HS Hn Hk Hlo Hhi HQ. apply wp_on_km. unfold copyout. unfold KPAGE in *.
  eapply (wp_copyout_loop kend ∅ no_lock Hkend); [apply HX|lia|unfold KERNBASE; lia|lia| |].
  - intros w Hw1 Hw2. assert (n + 1 <= va / 4096) by (apply Z.div_le_lower_bound; lia). assert (w = n + 1) as -> by lia.
    destruct (sk_stack _ _ SK) as [pg E]. exists pg, 7. split; [done|apply user_7].
  - intros s' US Hm Hl Hr Hx. apply HQ.
    + eapply (x_write kend kdata); [exact HX|exact US|done|done|done|].
      intros x Hp. apply Hx. intros p Hin. apply Hp. set_solver.
    + intros a. cbn. rewrite Hr. apply over_ext, HS.
Qed.

(** Below it: the write meets the page without access, or wraps around to pages of
    the kernel. *)
Lemma wp_x_copyout_low l pd T U n e sp buf Q :
  xst l pd T U e -> stacked U n -> 0 <= n -> n + 2 <= KPAGE ->
  -33554432 <= sp < 4096 * (n + 1) -> 4096 * n < sp + Z.of_nat (length buf) -> (0 < length buf)%nat ->
  (forall e', xst l pd T U e' -> Q (-1) e') ->
  wp P (on_km (copyout pd (u32 sp) buf)) e Q.
Proof.
  intros HX SK Hn Hk Hsp Hhi Hlen HQ. apply wp_on_km. unfold copyout. unfold KPAGE in *. pose proof (x_vm _ _ _ _ _ _ _ _ _ _ _ _ _ _ _ HX) as US.
  destruct (decide (0 <= sp)) as [Hp|Hneg].
  - rewrite u32_small by lia. destruct (sk_guard _ _ SK) as [pg EU].
    assert (sp / 4096 <= n) as Hpn by (apply Z.lt_succ_r, Z.div_lt_upper_bound; lia).
    eapply (wp_copyout_shut kend ∅ no_lock Hkend _ _ _ _ _ _ _ _ _ _ _ n pg 3); [exact US|done|lia|done|lia|exact EU|done| |].
    + intros v Hv. pose proof (Z.div_pos sp 4096). destruct (sk_low _ _ SK v ltac:(lia)) as [pg' E]. by rewrite E.
    + intros s' US' Hm Hl Hx. apply HQ. eapply (x_write kend kdata); [exact HX|exact US'|done|done|done|].
      intros x Hq. apply Hx. intros p Hin. apply Hq. set_solver.
  - assert (u32 sp = sp + 4294967296) as -> by (unfold u32; rewrite <- (Z.mod_add _ 1), Z.mod_small by lia; lia).
    set (va := sp + 4294967296). cbn [copyout_loop]. replace (Z.of_nat (length buf) >? 0) with true by lia.
    unfold PGROUNDDOWN. rewrite !round_down_eq. set (v := va / 4096).
    assert (1040384 <= v < 1048576) as Hv.
    { split; [apply Z.div_le_lower_bound|apply Z.div_lt_upper_bound]; unfold va; lia. }
    assert (uent U (kernel_entry kdata) v = 4096 * v + 3) as Eu.
    { unfold uent. rewrite (sk_none _ _ SK) by lia. rewrite decide_False by (unfold KPAGE; lia). by apply kernel_top. }
    assert (is_Some (T !! (v / 1024))) as [pt HT].
    { destruct US as [V _]. pose proof (v_ent _ _ _ _ _ _ _ _ V v ltac:(unfold vpn; lia)) as He. rewrite Eu in He. unfold VmTable.entry in He.
      destruct (T !! (v / 1024)); [done|]. clear -He Hv. lia. }
    wp_next. eapply (wp_uva2ka_shut kend ∅); [exact US|unfold vpn; lia|exact HT| |].
    + rewrite Eu, land_user by lia. done.
    + rewrite Z.eqb_refl. apply wp_ret. destruct e. by apply HQ.
Qed.

(** The strings [args] are where [ptrs] point, above [sp]. *)
Definition pushed (g : Z -> option Z) (top sp : Z) (args : list (list Z)) (ptrs : list Z) : Prop :=
  length ptrs = length args /\
  forall i p s, ptrs !! i = Some p -> args !! i = Some s -> sp <= p /\ p + Z.of_nat (length s) + 1 <= top /\ string_at g p s.

Lemma arg_sp_bounds sp s : let n := Z.of_nat (length s) + 1 in
  sp - n - 4 < arg_sp sp s <= sp - n.
Proof.
  unfold arg_sp. pose proof (Z.div_mod (sp - (Z.of_nat (length s) + 1)) 4 ltac:(lia)).
  pose proof (Z.mod_pos_bound (sp - (Z.of_nat (length s) + 1)) 4 ltac:(lia)). lia.
Qed.

Lemma land_3 z : Z.land z (Z.lnot 3) = 4 * (z / 4).
Proof.
  rewrite <- Z.ldiff_land. change 3 with (Z.ones 2). rewrite Z.ldiff_ones_r by lia. rewrite Z.shiftl_mul_pow2, Z.shiftr_div_pow2 by lia.
  change (2 ^ 2) with 4. lia.
Qed.

(** [(sp - (strlen(s) + 1)) & ~3] *)
Lemma arg_sp_code sp s : 0 <= sp < 4294967296 -> Z.of_nat (length s) < 4294967296 ->
  Z.land (u32 (sp - (Z.of_nat (length s) + 1))) (Z.lnot 3) = u32 (arg_sp sp s).
Proof.
  intros Hsp Hs. rewrite land_3. unfold arg_sp. set (x := sp - (Z.of_nat (length s) + 1)).
  pose proof (Z.div_mod x 4 ltac:(lia)). pose proof (Z.mod_pos_bound x 4 ltac:(lia)).
  destruct (decide (0 <= x)) as [Hx|Hx].
  - rewrite !u32_small by (unfold x in *; lia). done.
  - assert (u32 x = x + 4294967296) as -> by (unfold u32; rewrite <- (Z.mod_add _ 1), Z.mod_small by (unfold x in *; lia); lia).
    replace (x + 4294967296) with (x + 1073741824 * 4) by lia. rewrite Z.div_add by lia.
    unfold u32. rewrite <- (Z.mod_add (4 * (x / 4)) 1), Z.mod_small by (unfold x in *; lia). lia.
Qed.

Lemma pushed_more g top base sp args ptrs s : pushed g top sp args ptrs -> sp <= top ->
  base <= arg_sp sp s -> pushed (over (arg_sp sp s) (s ++ [0]) g) top (arg_sp sp s) (args ++ [s]) (ptrs ++ [arg_sp sp s]).
Proof.
  intros [Hl HP] Ht Hb. pose proof (arg_sp_bounds sp s) as Hbd. cbv zeta in Hbd. split; [rewrite !length_app, Hl; done|].
  intros i p a Hi Ha. destruct (decide (i < length ptrs)%nat) as [Hlt|Hge].
  - rewrite lookup_app_l in Hi by done. rewrite lookup_app_l in Ha by lia. destruct (HP i p a Hi Ha) as (H1 & H2 & H3).
    split_and!; [lia|lia|]. apply string_keep; [done|]. rewrite length_app. cbn. lia.
  - assert (i = length ptrs) as -> by (apply lookup_lt_Some in Hi; rewrite length_app in Hi; cbn in Hi; lia).
    rewrite lookup_app_r, Nat.sub_diag in Hi by lia. rewrite Hl, lookup_app_r, Nat.sub_diag in Ha by lia.
    injection Hi as <-. injection Ha as <-. split_and!; [lia|lia|]. apply string_over.
Qed.

(** Strings so long that the stack pointer could wrap around further than the pages
    of the devices are left out. *)
Definition arg_short (s : list Z) : Prop := Z.of_nat (length s) <= 33554432.

Lemma wp_exec_args argv l pd T U n e g sp args ptrs Q :
  let base := 4096 * (n + 1) in let top := 4096 * (n + 2) in
  xst l pd T U e -> stacked U n -> sees U e g -> 0 <= n -> n + 2 <= KPAGE -> base <= sp <= top ->
  pushed g top sp args ptrs -> Forall arg_short argv ->
  match push_args base sp argv ptrs with
  | Some (sp', ptrs') => forall e' g', xst l pd T U e' -> sees U e' g' -> base <= sp' <= top -> pushed g' top sp' (args ++ argv) ptrs' ->
      (forall va, va < base -> g' va = g va) -> Q (Some (sp', ptrs')) e'
  | None => forall e', xst l pd T U e' -> Q None e'
  end -> wp P (exec_args argv pd sp ptrs) e Q.
Proof.
  intros base top HX SK HS Hn Hk Hsp HP Hsh. revert e g sp args ptrs HX HS Hsp HP.
  induction argv as [|s argv IH]; intros e g sp args ptrs HX HS Hsp HP HQ; cbn [exec_args push_args] in *.
  { apply wp_ret. eapply HQ; [done|exact HS|done|by rewrite app_nil_r|done]. }
  apply Forall_cons in Hsh as [Hs Hsh]. unfold arg_short in Hs.
  destruct (MAXARG <=? length ptrs)%nat; [by apply wp_ret, HQ|].
  pose proof (arg_sp_bounds sp s) as Hb. cbv zeta in Hb. unfold KPAGE in Hk.
  rewrite arg_sp_code by (unfold base, top in *; lia). set (sp1 := arg_sp sp s) in *. wp_next.
  assert (length (s ++ [0]) = S (length s)) as Hlen by (rewrite length_app; cbn; lia).
  destruct (sp1 <? base) eqn:E.
  - eapply (wp_x_copyout_low l pd T U n); [exact HX|done|done|unfold KPAGE; lia|unfold base in *; lia|unfold base in *; lia|lia|].
    intros e' HX'. by apply wp_ret, HQ.
  - rewrite u32_small by (unfold base, top in *; lia).
    eapply (wp_x_copyout l pd T U n); [exact HX|done|exact HS|done|unfold KPAGE; lia|unfold base in *; lia|unfold top in *; lia|].
    intros e' HX' HS'. cbn [Z.ltb Z.compare]. apply (IH Hsh e' _ sp1 (args ++ [s]) _ HX' HS'); [lia| |].
    + eapply (pushed_more _ _ base); [done|lia|unfold sp1 in *; lia].
    + destruct (push_args base sp1 argv (ptrs ++ [sp1])) as [[sp' ptrs']|]; [|done]. rewrite <- app_assoc.
      intros e2 g2 HX2 HS2 Hb2 HP2 Hg2. eapply HQ; [done|exact HS2|done|done|].
      intros va Hva. rewrite Hg2 by done. apply over_out. lia.
Qed.

(** The pointers on the stack. *)
Lemma length_words sp ptrs : length (concat (map bytes32 (stack_words sp ptrs))) = (4 * (4 + length ptrs))%nat.
Proof.
  assert (forall ws, length (concat (map bytes32 ws)) = (4 * length ws)%nat) as ->.
  { intros ws. induction ws as [|x ws IH]; [done|]. cbn. rewrite IH. lia. }
  unfold stack_words. rewrite !length_app. cbn. lia.
Qed.

Lemma stack_args_at g top sp argv ptrs esp : pushed g top sp argv ptrs -> 0 <= esp -> sp < 4294967296 ->
  esp = sp - (3 + Z.of_nat (length ptrs) + 1) * 4 ->
  args_at (over esp (concat (map bytes32 (stack_words sp ptrs))) g) esp argv.
Proof.
  intros [Hl HP] He Hsp ->. set (esp := sp - (3 + Z.of_nat (length ptrs) + 1) * 4) in *. set (ws := stack_words sp ptrs).
  assert (forall (i : nat) w a, ws !! i = Some w -> a = esp + 4 * Z.of_nat i -> word_at (over esp (concat (map bytes32 ws)) g) a w) as HW.
  { intros i w a Hw ->. by apply words_over. }
  split_and!.
  - apply (HW 0%nat); [done|lia].
  - apply (HW 1%nat); [cbn; by rewrite Hl|lia].
  - apply (HW 2%nat); [|lia]. cbn. rewrite u32_small by lia. f_equal. unfold esp. lia.
  - intros i s Hs. assert (i < length ptrs)%nat as Hi by (apply lookup_lt_Some in Hs; lia).
    destruct (lookup_lt_is_Some_2 ptrs i Hi) as [p Hp]. exists p. split.
    + apply (HW (3 + i)%nat); [|lia]. unfold ws, stack_words. rewrite lookup_app_r by (cbn; lia). cbn [length].
      replace (3 + i - 3)%nat with i by lia. by rewrite lookup_app_l.
    + destruct (HP i p s Hp Hs) as (H1 & H2 & H3). apply string_keep; [done|]. unfold ws. rewrite length_words. lia.
  - apply (HW (3 + length ptrs)%nat); [|rewrite <- Hl; lia]. unfold ws, stack_words. rewrite lookup_app_r by (cbn; lia). cbn [length].
    replace (3 + length ptrs - 3)%nat with (length ptrs) by lia. by rewrite lookup_app_r, Nat.sub_diag.
Qed.

(** ** Giving up, and the switch to the new address space *)

Context (K0 : Z -> Z) (US0 : ust kend ∅ l0 s0 pd0 T0 U0 K0 R0) (Hpd0 : pgdir p0 = pd0).

(** The process is as it was, and no page is lost. *)
Record restored e : Prop := mkRestored {
  rd_fs : F (kmach (ekm e)) (efs e);
  rd_vm : exists l, ust kend ∅ l (ekm e) pd0 T0 U0 K0 R0 /\ l ≡ₚ l0;
  rd_mem : forall p x, p ∈ VmSpace.in_use pd0 T0 U0 R0 -> in_page p x -> kphys (ekm e) x = kphys s0 x;
  rd_proc : ep e = p0 }.

Lemma released_restored e l' s' f : released kend ∅ [] l0 s0 l' s' -> F (kmach s') f -> ep e = p0 -> restored (mkE f s' (ep e)).
Proof.
  intros RL Hf Hp. assert (forall p x, p ∈ VmSpace.in_use pd0 T0 U0 R0 -> in_page p x -> kphys s' x = kphys s0 x) as Hm.
  { intros p x Hin Hx. apply (rl_mem _ _ _ _ _ _ _ RL). intros q Hq. eapply use_apart; [..|exact US0|exact Hin|exact Hq|exact Hx]; (exact no_lock || eassumption). }
  constructor; cbn; [done| |done|done]. exists l'. split; [|apply RL]. destruct US0 as [V HU]. split; [|done].
  eapply (vst_change kend ∅); [exact V|apply RL|apply RL| |].
  - intros q x Hq. apply Hm. unfold VmSpace.in_use. set_solver.
  - do 2 f_equiv. apply RL.
Qed.

Context (me : Z) (sb : superblock).

Lemma wp_x_giveup l pd T U e Q : xst l pd T U e -> pd ≠ 0 -> (forall e', restored e' -> Q (-1) e') -> wp P (exec_bad me sb kend pd None) e Q.
Proof.
  intros HX Hpd HQ. unfold exec_bad. replace (pd =? 0) with false by lia. cbn [negb when]. wp_next. apply wp_on_km.
  pose proof HX as [Xf Xv Xb Xp]. eapply (wp_freevm kend ∅ no_lock Hkend); [exact Xv|]. intros l' s' RL. wp_next. apply wp_ret, wp_ret, HQ.
  eapply released_restored; [by eapply built_released| |done]. eapply HF; [exact Xf|]. split; apply RL.
Qed.

Lemma wp_free_old l pd T U s Q :
  ust kend ∅ l s pd T U (kernel_entry kdata) (VmSpace.in_use pd0 T0 U0 R0) -> built l0 s0 pd T U l s ->
  (forall l' s', ust kend ∅ l' s' pd T U (kernel_entry kdata) R0 -> own pd T ++ upages U ++ l' ≡ₚ own pd0 T0 ++ upages U0 ++ l0 ->
     mframe (kmach s) (kmach s') -> (forall va, uread (kphys s') U va = uread (kphys s) U va) -> Q tt s') ->
  wp P (freevm kend pd0) s Q.
Proof.
  intros US B HQ. pose proof US as [V HU].
  assert (ust kend ∅ l s pd0 T0 U0 K0 (own pd T ++ upages U ++ R0)) as Old.
  { eapply (parent_ust kend kdata ∅ no_lock Hkend Hdata Hdal); [exact US0|exact B|apply V|apply V]. }
  eapply (wp_freevm kend ∅ no_lock Hkend); [exact Old|]. intros l' s' RL.
  pose proof (v_nodup _ _ _ _ _ _ _ _ V) as Hn. unfold VmSpace.in_use in *.
  assert (forall q x, q ∈ own pd T ++ upages U -> in_page q x -> kphys s' x = kphys s x) as Hsame.
  { intros q x Hq Hx. apply (rl_mem _ _ _ _ _ _ _ RL). intros p Hp Hx'.
    assert (q = p) as -> by (apply (vst_apart kend ∅ _ _ _ _ _ _ q p x V); (done || set_solver)).
    rewrite !app_assoc in Hn. rewrite <- (app_assoc _ _ l) in Hn. rewrite <- (app_assoc _ _ (R0 ++ l)) in Hn.
    rewrite <- (app_assoc _ _ (upages U0 ++ R0 ++ l)) in Hn. apply NoDup_app in Hn as (_ & Hn & _). apply (Hn p Hq). set_solver. }
  apply (HQ l').
  - split; [|done]. eapply (vst_change kend ∅); [exact V|apply RL|apply RL| |].
    + intros q x Hq. apply Hsame. set_solver.
    + rewrite (rl_perm _ _ _ _ _ _ _ RL), <- !app_assoc. do 2 f_equiv.
      rewrite (app_assoc R0), (Permutation_app_comm R0), <- !app_assoc. f_equiv.
      rewrite (app_assoc R0), (Permutation_app_comm R0), <- !app_assoc. done.
  - rewrite (rl_perm _ _ _ _ _ _ _ RL), <- (bt_perm _ _ _ _ _ _ _ B), <- !app_assoc.
    generalize (own pd T) as a, (upages U) as b, (own pd0 T0) as c, (upages U0) as d. intros a b c d. solve_Permutation.
  - apply RL.
  - intros va. unfold uread. destruct (U !! (va / 4096)) as [[pg fl]|] eqn:E; [|done]. f_equal. apply (Hsame pg).
    + apply elem_of_app. right. by eapply elem_upages.
    + pose proof (Z.mod_pos_bound va 4096 ltac:(lia)). unfold in_page, PGSIZE. lia.
Qed.

(** ** The new program *)

Definition new_proc (path : list Z) (pd sz entry esp : Z) : proc :=
  let p := set_pname (KString.safestrcpy (pname p0) (str_byte (last_elem path path)) 16) p0 in
  set_tf (set_start entry esp (tf p)) (set_sz sz (set_pgdir pd p)).

(** The memory of the program is [g], up to its size rounded to pages; the arguments
    are on the stack; the old address space is free. *)
Record started (path : list Z) (entry sz : Z) (g : Z -> option Z) (argv : list (list Z)) (esp : Z) e : Prop := mkStarted {
  sd_fs : F (kmach (ekm e)) (efs e);
  sd_mem : exists pd l T U g', ep e = new_proc path pd (4096 * (pages sz + 2)) entry esp /\
    ust kend ∅ l (ekm e) pd T U (kernel_entry kdata) R0 /\
    own pd T ++ upages U ++ l ≡ₚ own pd0 T0 ++ upages U0 ++ l0 /\
    stacked U (pages sz) /\ sees U e g' /\ (forall va, va < 4096 * pages sz -> g' va = g va) /\ args_at g' esp argv }.

Lemma pages_whole n : 0 <= n -> pages (4096 * n) = n.
Proof. intros Hn. unfold pages. rewrite Z.mul_comm, Z.div_add_l by lia. change (4095 / 4096) with 0. lia. Qed.

(** [allocuvm] and [clearpteu] for the stack. *)
Lemma flat_stacked U n pg : flat U (n + 2) -> 0 <= n -> U !! n = Some (pg, 7) -> stacked (<[n := (pg, shut 7)]> U) n.
Proof.
  intros [H1 H2] Hn E. change (shut 7) with 3. constructor.
  - intros w Hw. rewrite lookup_insert_ne by lia. apply H1. lia.
  - exists pg. apply lookup_insert_eq.
  - rewrite lookup_insert_ne by lia. apply H1. lia.
  - intros w Hw. rewrite lookup_insert_ne by lia. apply H2. lia.
Qed.

Lemma x_shut l pd T U n e pg g s' :
  xst l pd T U e -> U !! n = Some (pg, 7) -> sees U e g ->
  ust kend ∅ l s' pd T (<[n := (pg, shut 7)]> U) (kernel_entry kdata) (VmSpace.in_use pd0 T0 U0 R0) ->
  kmach s' = kmach (ekm e) -> use_lock s' = use_lock (ekm e) ->
  (forall x, (forall p, p ∈ own pd T -> ~ in_page p x) -> kphys s' x = kphys (ekm e) x) ->
  let e' := mkE (efs e) s' (ep e) in xst l pd T (<[n := (pg, shut 7)]> U) e' /\ sees (<[n := (pg, shut 7)]> U) e' g.
Proof.
  intros HX EU HS US Hm Hl Hx. split.
  - eapply (x_write kend kdata); [exact HX|exact US| |done|done|].
    + rewrite <- insert_delete_eq, upages_insert by apply lookup_delete_eq. by rewrite <- (upages_delete U n pg 7 EU).
    + intros x Hq. apply Hx. intros p Hp. apply Hq. set_solver.
  - intros va. cbn. rewrite <- HS. unfold uread. pose proof (Z.mod_pos_bound va 4096 ltac:(lia)) as Hmb.
    assert (forall q fl, U !! (va / 4096) = Some (q, fl) -> kphys s' (q + va mod 4096) = kphys (ekm e) (q + va mod 4096)) as Hk.
    { intros q fl E. apply Hx. intros p Hp. eapply (upage_apart kend ∅ no_lock Hkend); [apply HX|exact E| |set_solver].
      unfold in_page, PGSIZE. lia. }
    destruct (decide (va / 4096 = n)) as [Hv|Hne].
    + rewrite Hv, lookup_insert_eq, EU. f_equal. apply (Hk pg 7). by rewrite Hv.
    + rewrite lookup_insert_ne by done. destruct (U !! (va / 4096)) as [[q fl]|] eqn:E; [|done]. f_equal. by apply (Hk q fl).
Qed.

(** Two pages for the stack. *)
Lemma wp_x_stack l pd T U e sz g (next : Z -> M (est X) Z) c Q :
  xst l pd T U e -> pd ≠ 0 -> flat U (pages sz) -> sees U e g -> 0 <= sz < KERNBASE -> c <= Z.of_nat (length l) + 2 * pages sz ->
  let n := pages sz in
  (forall e', restored e' -> KERNBASE <= 4096 * n + 8192 \/ c < 2 * (n + 2) -> Q (-1) e') ->
  (forall l' T' U' e' g', n + 2 < KPAGE -> xst l' pd T' U' e' -> stacked U' n -> sees U' e' g' ->
     (forall va, va < 4096 * n -> g' va = g va) -> wp P (next (4096 * (n + 2))) e' Q) ->
  wp P (sz' ← on_km (allocuvm kend pd (PGROUNDUP sz) (u32 (PGROUNDUP sz + 2 * PGSIZE)));
        if sz' =? 0 then exec_bad me sb kend pd None else
        on_km (clearpteu pd (u32 (sz' - 2 * PGSIZE)));;
        next sz') e Q.
Proof.
  intros HX Hpd HU HS Hsz Hc n HQ0 HQ. assert (0 <= n < KPAGE + 1) as Hn.
  { split; [by apply pages_nonneg; lia|]. unfold n, pages, KPAGE, KERNBASE in *. apply Z.div_lt_upper_bound; lia. }
  rewrite PGROUNDUP_eq by (unfold KERNBASE in *; lia). fold n. unfold KPAGE in *. rewrite (u32_small (4096 * n + 2 * PGSIZE)) by (unfold PGSIZE; lia).
  wp_next. destruct (decide (n = 524288)) as [En|Hne].
  { unfold allocuvm. replace (4096 * n + 2 * PGSIZE >=? KERNBASE) with true by (rewrite En; done). apply wp_on_km, wp_ret. destruct e.
    eapply wp_x_giveup; [exact HX|done|]. intros e' HR. apply HQ0; [done|]. left. rewrite En. unfold KERNBASE. lia. }
  assert (pages (4096 * n + 2 * PGSIZE) = n + 2) as Ep.
  { replace (4096 * n + 2 * PGSIZE) with (4096 * (n + 2)) by (unfold PGSIZE; lia). apply pages_whole. lia. }
  eapply (wp_x_alloc kend kdata Hkend); [exact HF|exact HX|by rewrite pages_whole by lia|exact HS|unfold KERNBASE; lia|unfold PGSIZE; lia| |].
  - intros l' T' e' HX' Hr. rewrite Z.eqb_refl. eapply wp_x_giveup; [exact HX'|done|]. intros e2 HR. apply HQ0; [done|].
    rewrite Ep, pages_whole in Hr by lia. unfold PGSIZE in Hr. destruct Hr; [left; lia|right; lia].
  - rewrite Z.max_r by (unfold PGSIZE; lia). rewrite Ep, pages_whole by lia. intros l' T' U' e' Hlt HX' HU' HS' Hlen.
    unfold PGSIZE, KERNBASE in *. replace (4096 * n + 2 * 4096 =? 0) with false by lia.
    replace (4096 * n + 2 * 4096 - 2 * 4096) with (4096 * n) by lia. rewrite u32_small by lia.
    destruct (proj1 HU' n ltac:(lia)) as [pg EU]. wp_next. apply wp_on_km.
    eapply (wp_clearpteu kend ∅ no_lock); [done|apply HX'|exact EU|]. intros s' US Hm Hl Hx.
    destruct (x_shut l' pd T' U' n e' pg _ s' HX' EU HS' US Hm Hl Hx) as [HX2 HS2].
    replace (4096 * n + 2 * 4096) with (4096 * (n + 2)) by lia. eapply HQ; [lia|exact HX2|by apply flat_stacked; [|lia|]|exact HS2|].
    intros va Hva. unfold zeros. rewrite decide_False; [done|]. intros [H1 _].
    assert (va / 4096 < n) by (apply Z.div_lt_upper_bound; lia). lia.
Qed.

Lemma push_args_len base argv sp ptrs sp' ptrs' : push_args base sp argv ptrs = Some (sp', ptrs') -> (length ptrs <= 32)%nat -> (length ptrs' <= 32)%nat.
Proof.
  revert sp ptrs. induction argv as [|a argv IH]; intros sp ptrs; cbn [push_args]; [by intros [= _ <-]|].
  destruct (MAXARG <=? length ptrs)%nat eqn:E; [done|]. destruct (_ <? base); [done|]. intros H _. apply (IH _ _ H).
  rewrite length_app. cbn. apply Nat.leb_gt in E. unfold MAXARG in E. lia.
Qed.

Lemma wp_exec_start path argv l pd T U e entry sz g c Q :
  xst l pd T U e -> pd ≠ 0 -> flat U (pages sz) -> sees U e g -> 0 <= sz < KERNBASE -> c <= Z.of_nat (length l) + 2 * pages sz ->
  Forall arg_short argv ->
  let n := pages sz in
  (forall e', restored e' -> KERNBASE <= 4096 * n + 8192 \/ c < 2 * (n + 2) \/ stack_of (4096 * (n + 1)) argv = None -> Q (-1) e') ->
  (forall e' esp, 4096 * n + 8192 < KERNBASE -> stack_of (4096 * (n + 1)) argv = Some esp -> started path entry sz g argv esp e' -> Q 0 e') ->
  wp P (exec_start me sb kend path argv pd entry sz) e Q.
Proof.
  intros HX Hpd HU HS Hsz Hc Hsh n HQ0 HQ. unfold exec_start. cbv zeta. assert (0 <= n) as Hn by (apply pages_nonneg; lia).
  apply (wp_x_stack l pd T U e sz g _ c); try done. { intros e' HR [Hr|Hr]; apply HQ0; tauto. }
  fold n. intros l1 T1 U1 e1 g1 Hk HX1 SK1 HS1 Hg1. unfold stack_of in *. replace (4096 * (n + 1) + 4096) with (4096 * (n + 2)) in * by lia.
  unfold KPAGE in *. wp_next. apply (wp_exec_args argv l1 pd T1 U1 n e1 g1 _ [] []); try done; [unfold KPAGE; lia|lia|].
  pose proof (push_args_len (4096 * (n + 1)) argv (4096 * (n + 2)) []) as Hpl.
  destruct (push_args _ _ argv []) as [[sp ptrs]|]; [|intros e2 HX2; eapply wp_x_giveup; [exact HX2|done|]; intros e3 HR; apply HQ0; tauto].
  specialize (Hpl _ _ eq_refl ltac:(cbn; lia)).
  intros e2 g2 HX2 HS2 Hb2 HP2 Hg2. cbn [app] in HP2. set (esp := sp - (3 + Z.of_nat (length ptrs) + 1) * 4) in *.
  pose proof (length_words sp ptrs) as Hlw. wp_next. destruct (esp <? 4096 * (n + 1)) eqn:E.
  - eapply (wp_x_copyout_low l1 pd T1 U1 n); [exact HX2|done|done|unfold KPAGE; lia|unfold esp in *; lia|rewrite Hlw; unfold esp in *; lia|lia|].
    intros e3 HX3. eapply wp_x_giveup; [exact HX3|done|]. intros e4 HR. apply HQ0; tauto.
  - rewrite u32_small by (unfold esp in *; lia).
    eapply (wp_x_copyout l1 pd T1 U1 n); [exact HX2|done|exact HS2|done|unfold KPAGE; lia|lia|rewrite Hlw; unfold esp in *; lia|].
    intros e3 HX3 HS3. cbn [Z.ltb Z.compare]. pose proof HX3 as [Xf Xv Xb Xp]. wp_next. apply wp_modify. wp_next. apply wp_gets. cbn [ep efs ekm].
    wp_next. apply wp_modify. cbn [ep efs ekm]. wp_next. apply wp_on_km. cbn [ekm]. rewrite Xp.
    change (ProcState.pgdir (set_pname _ p0)) with (pgdir p0). rewrite Hpd0.
    eapply wp_free_old; [exact Xv|exact Xb|]. intros l4 s4 US4 Hp4 Hm4 Hr4. apply wp_ret. eapply HQ; [unfold KERNBASE; lia|done|]. constructor; cbn [ekm efs ep].
    + eapply HF; [exact Xf|]. split; [apply US4|done].
    + exists pd, l4, T1, U1. eexists. split_and!; [done|exact US4|exact Hp4|done| | |].
      * intros va. cbn [ekm]. rewrite Hr4. apply HS3.
      * intros va Hva. rewrite over_out by lia. rewrite Hg2 by lia. by apply Hg1.
      * eapply stack_args_at; [exact HP2|lia|lia|done].
Qed.

End stack.

(** ** The file *)

Section file.
Context {X : Type} `{BW : BlockLaws X} (me : Z) (sb : superblock) (devs : Z -> @devsw X).
Context (P : failure -> Prop) {SO : short_of P} (m0 : mach) (KR : blks -> Prop).

(** The bytes of the inode [j]. *)
Definition fdata (D : list (list Z)) (j : Z) : list Z := bytes D (iad sb D j) 0 (isz sb D j).

Lemma bytes_slice D l size off n : 0 <= off -> 0 <= n -> off + n <= size -> bytes D l off n = slice (bytes D l 0 size) off n.
Proof.
  intros Ho Hn Hs. unfold bytes, slice. rewrite <- fmap_drop, <- fmap_take. f_equal. apply list_eq. intros i.
  destruct (decide (Z.of_nat i < n)) as [Hi|Hi].
  - rewrite lookup_take_lt by lia. rewrite lookup_drop, !lookup_seqZ_lt by lia. f_equal. lia.
  - rewrite lookup_seqZ_ge by lia. symmetry. apply lookup_ge_None. rewrite length_take. lia.
Qed.

Lemma length_fdata D j : 0 <= isz sb D j -> Z.of_nat (length (fdata D j)) = isz sb D j.
Proof. intros H. unfold fdata, bytes. rewrite length_fmap, length_seqZ. lia. Qed.

Lemma at_readi L H A t ip j r off n Q :
  at_fs me sb m0 KR L H A t -> H !! ip = Some (j, r) -> ip ∈ L -> nT A j ≠ T_DEV ->
  0 <= off < 4294967296 -> 0 <= n < 4294967296 ->
  (forall k t', KR k -> at_fs me sb m0 KR L H A t' -> Q (file_read (fdata (k_data k) j) off n) t') ->
  wp P (readi sb devs ip off n) t Q.
Proof.
  intros HA HH HL Hdev Ho Hn HQ. pose proof HA as HA0. destruct t as [m s]. pose proof (at_quiet _ _ _ _ _ _ _ _ HA) as Hm.
  destruct HA as (Hq & k & Hs & HI & HD & HC). cbn [fst snd] in *.
  destruct (cached_at _ _ _ _ _ _ _ _ _ HC HH) as (i & Hi & H1 & H2 & H3 & H4 & H5 & H6 & H7).
  rewrite bool_decide_true in H7 by done. specialize (H6 (proj2 H7)). pose proof (dk_blocks _ _ _ HD) as B. pose proof (ity_inum _ _ _ H5) as Hnum.
  destruct (iad_live sb _ _ H5) as [Had Hsz]. assert (addrs i = iad sb (k_data k) j) as Ha by (unfold addrs; by rewrite H6).
  assert (whole (k_data k) (addrs i) (d_size (i_d i))) as HW by (rewrite Ha, H6, <- Hsz; apply B).
  assert (d_size (i_d i) = isz sb (k_data k) j) as Es by (by rewrite H6).
  pose proof (length_fdata (k_data k) j ltac:(rewrite <- Es; apply HW)) as Hlen. specialize (HQ k).
  apply (wp_readi sb P devs ip i off n m s k); try done.
  - constructor; try apply HI; [done|done|]. rewrite Ha. apply B.
  - by rewrite H6, <- ity_eq, (dk_T _ _ _ HD).
  - intros Hb. rewrite Es in Hb. unfold file_read in HQ. rewrite Hlen in HQ.
    replace ((isz sb (k_data k) j <? off) || (4294967296 <=? off + n)) with true in HQ by lia. by apply HQ.
  - intros m' x' Hq' Hrep H8 H9 cc. unfold cc. rewrite Es in *. unfold file_read in HQ. rewrite Hlen in HQ.
    replace ((isz sb (k_data k) j <? off) || (4294967296 <=? off + n)) with false in HQ by lia.
    rewrite Ha, (bytes_slice _ _ (isz sb (k_data k) j)) by lia. apply HQ; [done|]. split; [by eapply quiet_trans|].
    exists k. split_and!; [done|by eapply fs_idle_rep|done|done].
Qed.

End file.

Lemma wp_assoc2 {S A B C} (P : failure -> Prop) (a : M S A) (b : M S B) (n : M S C) s Q : wp P (a;; b;; n) s Q -> wp P ((a;; b);; n) s Q.
Proof. unfold wp, mbind, M_bind. by destruct (a s). Qed.

(** ** The call *)

Section call.
Context {X : Type} `{TW : TxnLaws X} (me : Z) (sb : superblock) (devs : Z -> @devsw X) (name0 : list Z).
Context (P : failure -> Prop) {SO : short_of P}.
Context (kend kdata : Z) (Hkend : KERNBASE < kend).
Context (Hdata : KERNLINK < kdata < KERNBASE + PHYSTOP) (Hdal : kdata mod PGSIZE = 0).
Context (l0 : list Z) (s0 : kmst) (p0 : proc) (pd0 : Z) (T0 : gmap Z Z) (U0 : gmap Z (Z * Z)) (R0 : list Z).
Context (K0 : Z -> Z) (US0 : ust kend ∅ l0 s0 pd0 T0 U0 K0 R0) (Hpd0 : pgdir p0 = pd0).
Context (f0 : fs X) (H : refs) (A : ns) (k : blks) (HR : fs_rest me sb H A k (kmach s0, f0)).
Context (cwd : nat) (c rc : Z) (Hcwd : H !! cwd = Some (c, rc)) (Hc : nT A c = T_DIR).

(** The file system after the call. *)
Definition fs_done (m : mach) (f : fs X) : Prop := after me sb A k H A (m, f).

Definition fs_locked (ip : nat) (H1 : refs) (m : mach) (f : fs X) : Prop :=
  at_fs me sb (kmach s0) (eq (k_begin k)) ({[ip]} ∪ ∅) H1 A (m, f).

Lemma fs_done_quiet m f m' : fs_done m f -> quiet ∅ m m' -> fs_done m' f.
Proof.
  intros (k' & W & [] & H2 & H3 & H4) [Hq _]. exists k', W. split_and!; [|done..]. by constructor.
Qed.

Lemma fs_locked_quiet ip H1 m f m' : fs_locked ip H1 m f -> quiet ∅ m m' -> fs_locked ip H1 m' f.
Proof. intros [Hq Hk] Hq'. split; [by eapply quiet_trans|done]. Qed.

Notation xst := (xst kend kdata l0 s0 p0 pd0 T0 U0 R0).
Notation restored := (restored kend l0 s0 p0 pd0 T0 U0 R0 fs_done K0).
Notation started := (started kend kdata l0 p0 pd0 T0 U0 R0 fs_done).

(** [iunlockput(ip); end_op();] *)
Lemma wp_x_unlock ip v H1 m f (Q : unit -> mach * fs X -> Prop) :
  fs_locked ip H1 m f -> got H v ip H1 -> 0 < nN A v ->
  (forall m' f', fs_done m' f' -> quiet ∅ m m' -> Q tt (m', f')) ->
  wp P (iunlockput me sb ip) (m, f) (fun _ t => wp P end_op t Q).
Proof.
  intros [Hq0 HA] Hg HN HQ. destruct (got_at _ _ _ _ Hg) as [r Hr]. pose proof (rs_tree _ _ _ _ _ _ HR) as HTA.
  assert (refs_pos H) as HP by (eapply (rest_pos me sb); exact HR).
  call (at_iunlockput_named me sb P m (eq (k_begin k)) ({[ip]} ∪ ∅) H1 A); [|exact Hr|set_solver|done|].
  { split; [by apply quiet_refl, Hq0|done]. }
  intros t1 [Hq1 (k1 & <- & HK)]. rewrite only_lock, (got_unref H v ip) in HK by done.
  eapply (at_end_quiet me sb P H A k _ HR H A t1); [|done|].
  { split; [by eapply quiet_trans|]. exists (k_begin k). by split. }
  intros [m' f'] Hq2 Ha. apply HQ; [done|]. by eapply quiet_trans.
Qed.

Lemma wp_x_leave {B} ip v H1 e (next : M (est X) B) Q :
  fs_locked ip H1 (kmach (ekm e)) (efs e) -> got H v ip H1 -> 0 < nN A v ->
  (forall m f, fs_done m f -> quiet ∅ (kmach (ekm e)) m -> wp P next (mkE f (set_kmach m (ekm e)) (ep e)) Q) ->
  wp P (on_fs (iunlockput me sb ip);; on_fs end_op;; next) e Q.
Proof.
  intros HL Hg HN HQ. wp_next. apply wp_on_fs. eapply wp_mono.
  - eapply (wp_x_unlock ip v H1 _ _ (fun _ t => wp P next (mkE t.2 (set_kmach t.1 (ekm e)) (ep e)) Q)); [exact HL|exact Hg|done|exact HQ].
  - intros [] [m1 f1] Ht1. wp_next. apply wp_on_fs. eapply wp_mono; [exact Ht1|]. by intros [] t2.
Qed.

Lemma released_mach l s m : released kend ∅ [] l0 s0 l s -> quiet ∅ (kmach s) m -> released kend ∅ [] l0 s0 l (set_kmach m s).
Proof.
  intros [R1 R2 R3 R4 R5 R6] [H1 H2]. constructor; [done|by destruct R2; constructor|by etrans|done|done|done].
Qed.

(** The end of [exec_bad] when the file is still locked. *)
Lemma wp_x_back ip v H1 l e Q :
  released kend ∅ [] l0 s0 l (ekm e) -> fs_locked ip H1 (kmach (ekm e)) (efs e) -> ep e = p0 -> got H v ip H1 -> 0 < nN A v ->
  (forall e', restored e' -> Q (-1) e') -> wp P (on_fs (iunlockput me sb ip);; on_fs end_op;; mret (-1)) e Q.
Proof.
  intros RL HL Hp Hg HN HQ. eapply wp_x_leave; [exact HL|exact Hg|done|]. intros m f HF Hq. apply wp_ret, HQ.
  eapply released_restored; [..|exact US0|done|by eapply released_mach|done|done]; try done; apply fs_done_quiet.
Qed.

Lemma wp_x_bad0 ip v H1 l e Q :
  released kend ∅ [] l0 s0 l (ekm e) -> fs_locked ip H1 (kmach (ekm e)) (efs e) -> ep e = p0 -> got H v ip H1 -> 0 < nN A v ->
  (forall e', restored e' -> Q (-1) e') -> wp P (exec_bad me sb kend 0 (Some ip)) e Q.
Proof.
  intros RL HL Hp Hg HN HQ. unfold exec_bad. cbn [Z.eqb negb when]. wp_next. apply wp_ret. apply wp_assoc2.
  eapply wp_x_back; [exact RL|exact HL|done|exact Hg|done|exact HQ].
Qed.

Lemma wp_x_bad ip v H1 l pd T U e Q :
  xst (fs_locked ip H1) l pd T U e -> pd ≠ 0 -> got H v ip H1 -> 0 < nN A v ->
  (forall e', restored e' -> Q (-1) e') -> wp P (exec_bad me sb kend pd (Some ip)) e Q.
Proof.
  intros [Xf Xv Xb Xp] Hpd Hg HN HQ. unfold exec_bad. replace (pd =? 0) with false by lia. cbn [negb when]. wp_next. apply wp_on_km.
  eapply (wp_freevm kend ∅ no_lock Hkend); [exact Xv|]. intros l' s' RL. apply wp_assoc2.
  eapply (wp_x_back ip v H1 l'); cbn [ekm efs ep]; [by eapply built_released| |done|done|done|exact HQ].
  eapply fs_locked_quiet; [exact Xf|]. split; apply RL.
Qed.

(** What the call does, from the path and the file to its result. *)
Definition exec_outcome (path : list Z) (argv : list (list Z)) (r : Z) (e : est X) : Prop :=
  match (resolve A c path false name0).1 with
  | None => r = -1 /\ restored e
  | Some v =>
      match elf_image (fdata sb (k_data k) v) with
      | None => r = -1 /\ restored e
      | Some (entry, sz, g) =>
          match stack_of (4096 * (pages sz + 1)) argv with
          | None => r = -1 /\ restored e
          | Some esp =>
              (r = 0 /\ started path entry sz g argv esp e) \/
              (r = -1 /\ restored e /\ Z.of_nat (length l0) < KPAGES + 2 * (pages sz + 2))
          end
      end
  end.

Lemma outcome_bad path argv v e : (resolve A c path false name0).1 = Some v -> restored e ->
  (forall entry sz g, elf_image (fdata sb (k_data k) v) = Some (entry, sz, g) ->
     stack_of (4096 * (pages sz + 1)) argv = None \/ Z.of_nat (length l0) < KPAGES + 2 * (pages sz + 2)) ->
  exec_outcome path argv (-1) e.
Proof.
  intros E He HB. unfold exec_outcome. rewrite E. destruct (elf_image _) as [[[entry sz] g]|]; [|done].
  destruct (HB entry sz g eq_refl) as [->|Hl]; [done|]. destruct (stack_of _ argv); [by right|done].
Qed.

Lemma image_size f entry sz g : elf_image f = Some (entry, sz, g) -> 0 <= sz.
Proof.
  unfold elf_image. destruct (_ <? ELFSIZE); [done|]. destruct (negb _); [done|]. destruct (load_image _ _ _ _ _) as [[sz' g']|] eqn:El; [|done].
  destruct (KERNBASE <=? _); [done|]. intros [= _ <- _]. by apply load_image_mono in El as [? _].
Qed.

Lemma fdata_small j : Z.of_nat (length (fdata sb (k_data k) j)) <= 2147483648.
Proof.
  pose proof (bo_whole _ _ (dk_blocks _ _ _ (rs_disk _ _ _ _ _ _ HR)) j) as [Hs _]. rewrite length_fdata by lia.
  assert (MAXFILE * BSIZE = 71680) by done. lia.
Qed.

Lemma released_start m : quiet ∅ (kmach s0) m -> released kend ∅ [] l0 s0 l0 (set_kmach m s0).
Proof.
  intros Hq. apply released_mach; [|done]. destruct US0 as [[] _]. by constructor.
Qed.

Lemma built_mach m pd T U l s : quiet ∅ (kmach s0) m -> built l0 (set_kmach m s0) pd T U l s -> built l0 s0 pd T U l s.
Proof. intros [_ Hm] [B1 B2 B3 B4]. constructor; [by etrans|done|done|done]. Qed.

Lemma released_from m l s : quiet ∅ (kmach s0) m -> released kend ∅ [] l0 (set_kmach m s0) l s -> released kend ∅ [] l0 s0 l s.
Proof. intros [_ Hm] [R1 R2 R3 R4 R5 R6]. constructor; [done|done|by etrans|done|done|done]. Qed.

(** From the address space on. *)
Lemma wp_exec_built path argv ip v H1 m f elf : (resolve A c path false name0).1 = Some v -> Forall arg_short argv ->
  fs_locked ip H1 m f -> got H v ip H1 -> 0 < nN A v ->
  let fd := fdata sb (k_data k) v in
  (forall m1 f1 off n Q, fs_locked ip H1 m1 f1 -> 0 <= off < 4294967296 -> 0 <= n < 4294967296 ->
    (forall m' f', fs_locked ip H1 m' f' -> quiet ∅ m1 m' -> Q (file_read fd off n) (m', f')) -> wp P (readi sb devs ip off n) (m1, f1) Q) ->
  0 <= e_phoff elf < 4294967296 ->
  elf_image fd = match load_image (Z.to_nat (e_phnum elf)) fd (e_phoff elf) 0 (fun _ => None) with
    | Some (sz, g) => if KERNBASE <=? 4096 * pages sz + 8192 then None else Some (e_entry elf, sz, g)
    | None => None end ->
  wp P (pgdir ← on_km (setupkvm kend kdata);
        if pgdir =? 0 then exec_bad me sb kend 0 (Some ip) else
        r ← exec_load sb devs kend (Z.to_nat (e_phnum elf)) ip pgdir (e_phoff elf) 0;
        match r with
        | None => exec_bad me sb kend pgdir (Some ip)
        | Some sz =>
            on_fs (iunlockput me sb ip);;
            on_fs end_op;;
            exec_start me sb kend path argv pgdir (e_entry elf) sz
        end) (mkE f (set_kmach m s0) p0) (exec_outcome path argv).
Proof.
  intros E Hsh HL Hg HN fd Hread Ho Eimg. pose proof (proj1 HL) as Hq. cbn [fst] in Hq. pose proof US0 as [V0 _].
  wp_next. apply wp_on_km. cbn [ekm efs ep].
  apply (wp_setupkvm kend kdata ∅ no_lock Hkend Hdata Hdal _ l0 _ (VmSpace.in_use pd0 T0 U0 R0)).
  - apply Hq.
  - destruct (v_free _ _ _ _ _ _ _ _ V0); by constructor.
  - pose proof (v_nodup _ _ _ _ _ _ _ _ V0) as Hn. unfold VmSpace.in_use. by rewrite <- app_assoc.
  - apply (v_pages _ _ _ _ _ _ _ _ V0).
  - intros l' s' Hlen RL. rewrite Z.eqb_refl. eapply (wp_x_bad0 ip v H1 l'); cbn [ekm efs ep]; [by eapply released_from| |done|exact Hg|done|].
    + eapply fs_locked_quiet; [exact HL|]. split; apply RL.
    + intros e' He. apply (outcome_bad path argv v); [done|done|]. intros entry sz g Ei. right.
      apply image_size in Ei. pose proof (pages_nonneg sz Ei). lia.
  - intros pd T l' s' Hlen US B Hpd. replace (pd =? 0) with false by lia.
    assert (xst (fs_locked ip H1) l' pd T ∅ (mkE f s' p0)) as HX.
    { constructor; cbn [ekm efs ep]; [|exact US|by eapply built_mach|done]. eapply fs_locked_quiet; [exact HL|]. split; [apply US|apply B]. }
    wp_next. eapply (wp_exec_load kend kdata Hkend l0 s0 p0 pd0 T0 U0 R0 P _ (fs_locked_quiet ip H1) sb devs ip fd (fdata_small v) Hread _ l' pd T ∅ _ _ 0
      (fun _ => None) (Z.of_nat (length l0) - KPAGES)); [exact HX| |done|done|done|change (pages 0) with 0; lia|].
    { split; [intros w Hw; change (pages 0) with 0 in Hw; lia|]. intros w _. apply lookup_empty. }
    unfold loads. destruct (load_image _ _ _ _ _) as [[sz g]|] eqn:El.
    2:{ intros l2 T2 U2 e2 HX2. eapply wp_x_bad; [exact HX2|done|exact Hg|done|]. intros e' He. apply (outcome_bad path argv v); [done|done|].
        fold fd. by rewrite Eimg. }
    split.
    + intros l2 T2 U2 e2 HX2 HU2 HS2 Hsz2 Hc2. eapply wp_x_leave; [apply HX2|exact Hg|done|]. intros m2 f2 HF2 Hq2.
      assert (xst fs_done l2 pd T2 U2 (mkE f2 (set_kmach m2 (ekm e2)) (ep e2))) as HX3.
      { destruct HX2 as [Xf Xv [B1 B2 B3 B4] Xp]. constructor; cbn; [done| | |done]; [eapply ust_mach; [exact Xv|apply Hq2]|].
        destruct Hq2. constructor; [by etrans|done|done|done]. }
      eapply (wp_exec_start kend kdata Hkend Hdata Hdal l0 s0 p0 pd0 T0 U0 R0 P fs_done fs_done_quiet K0 US0 Hpd0 me sb path argv l2 pd T2 U2 _ _ sz g
        (Z.of_nat (length l0) - KPAGES)); [exact HX3|done|done|exact HS2|done|exact Hc2|done| |].
      * intros e' He Hr. apply (outcome_bad path argv v); [done|done|]. fold fd. rewrite Eimg. intros entry sz' g'.
        destruct (KERNBASE <=? 4096 * pages sz + 8192) eqn:Ek; [done|]. intros [= _ <- _]. destruct Hr as [Hr|[Hr|Hr]]; [lia|right; lia|by left].
      * intros e' esp Hk Es Hst. unfold exec_outcome. rewrite E. fold fd. rewrite Eimg, (proj2 (Z.leb_gt _ _) Hk), Es. by left.
    + intros l2 T2 U2 e2 HX2 Hc2. eapply wp_x_bad; [exact HX2|done|exact Hg|done|]. intros e' He. apply (outcome_bad path argv v); [done|done|].
      fold fd. rewrite Eimg. intros entry sz' g'. destruct (KERNBASE <=? _); [done|]. intros [= _ <- _]. right. lia.
Qed.

(** From the locked file on. *)
Lemma wp_exec_file path argv ip v H1 m f : (resolve A c path false name0).1 = Some v -> nT A v ≠ T_DEV -> Forall arg_short argv ->
  fs_locked ip H1 m f -> got H v ip H1 -> 0 < nN A v ->
  wp P (r ← on_fs (readi sb devs ip 0 ELFSIZE);
        if negb (r.1 =? ELFSIZE) then exec_bad me sb kend 0 (Some ip) else
        let elf := elfhdr_of r.2 in
        if negb (e_magic elf =? ELF_MAGIC) then exec_bad me sb kend 0 (Some ip) else
        pgdir ← on_km (setupkvm kend kdata);
        if pgdir =? 0 then exec_bad me sb kend 0 (Some ip) else
        r ← exec_load sb devs kend (Z.to_nat (e_phnum elf)) ip pgdir (e_phoff elf) 0;
        match r with
        | None => exec_bad me sb kend pgdir (Some ip)
        | Some sz =>
            on_fs (iunlockput me sb ip);;
            on_fs end_op;;
            exec_start me sb kend path argv pgdir (e_entry elf) sz
        end) (mkE f (set_kmach m s0) p0) (exec_outcome path argv).
Proof.
  intros E Hdev Hsh HL Hg HN. destruct (got_at _ _ _ _ Hg) as [r Hr]. set (fd := fdata sb (k_data k) v) in *.
  pose proof (fdata_small v) as Hsm. fold fd in Hsm.
  assert (forall m1 f1 off n Q, fs_locked ip H1 m1 f1 -> 0 <= off < 4294967296 -> 0 <= n < 4294967296 ->
    (forall m' f', fs_locked ip H1 m' f' -> quiet ∅ m1 m' -> Q (file_read fd off n) (m', f')) -> wp P (readi sb devs ip off n) (m1, f1) Q) as Hread.
  { intros m1 f1 off n Q [Hq1 HK1] Ho Hn HQ. call (at_readi me sb devs P m1 (eq (k_begin k)) ({[ip]} ∪ ∅) H1 A (m1, f1) ip v r); try done; [|set_solver|].
    { split; [by apply quiet_refl, Hq1|done]. }
    intros k' [m' f'] <- [Hq2 HK2]. apply HQ; [|done]. split; [by eapply quiet_trans|done]. }
  wp_next. apply wp_on_fs. cbn [ekm efs ep kmach set_kmach]. apply Hread; [done|done|done|]. intros m1 f1 HL1 _. cbn [fst snd].
  pose proof (proj1 HL1) as Hq1. cbn [fst] in Hq1. pose proof (released_start m1 Hq1) as RL.
  destruct (file_read fd 0 ELFSIZE) as [r0 bs] eqn:Er. cbn [fst snd]. destruct (r0 =? ELFSIZE) eqn:E1; cbn [negb].
  2:{ eapply wp_x_bad0; [exact RL|exact HL1|done|exact Hg|done|]. intros e' He. apply (outcome_bad path argv v); [done|done|].
      fold fd. unfold elf_image. destruct (file_read_short fd 0 ELFSIZE r0 bs Hsm ltac:(done) ltac:(done) Er ltac:(lia)) as [Hs _].
      rewrite Z.add_0_l in Hs. by rewrite (proj2 (Z.ltb_lt _ _) Hs). }
  destruct (file_read_all fd 0 ELFSIZE r0 bs ltac:(done) Er ltac:(lia)) as [Hle ->]. rewrite Z.add_0_l in Hle. unfold slice. rewrite drop_0.
  change (Z.to_nat ELFSIZE) with 52%nat. set (elf := elfhdr_of (take 52 fd)). cbv zeta.
  assert (elf_image fd = if negb (e_magic elf =? ELF_MAGIC) then None else
    match load_image (Z.to_nat (e_phnum elf)) fd (e_phoff elf) 0 (fun _ => None) with
    | Some (sz, g) => if KERNBASE <=? 4096 * pages sz + 8192 then None else Some (e_entry elf, sz, g)
    | None => None end) as Eimg by (unfold elf_image; by rewrite (proj2 (Z.ltb_ge _ _) Hle)).
  destruct (negb (e_magic elf =? ELF_MAGIC)).
  { eapply wp_x_bad0; [exact RL|exact HL1|done|exact Hg|done|]. intros e' He. apply (outcome_bad path argv v); [done|done|]. fold fd. by rewrite Eimg. }
  eapply (wp_exec_built path argv ip v H1 m1 f1 elf); try done. apply getu32_range.
Qed.

Lemma wp_exec path argv : 0 < nN A (start c path) -> (forall v, (resolve A c path false name0).1 = Some v -> nT A v ≠ T_DEV) -> Forall arg_short argv ->
  wp P (exec me sb devs kend kdata cwd name0 path argv) (mkE f0 s0 p0) (exec_outcome path argv).
Proof.
  intros Hs Hdev Hsh. pose proof (rs_tree _ _ _ _ _ _ HR) as HTA. pose proof HTA as [O HT]. assert (refs_pos H) as HP by (eapply (rest_pos me sb); exact HR).
  unfold exec. wp_next. apply wp_on_fs. apply (at_begin_in me sb P H A k _ HR (eq (k_begin k))); [done|]. intros [m1 f1] HA1. cbn [fst snd ekm efs ep].
  wp_next. apply wp_on_fs. cbn [ekm efs ep kmach set_kmach]. unfold namei. wp_next.
  call (at_namex me sb devs P (kmach s0) (eq (k_begin k)) O no_surplus ltac:(done) H A HT HP cwd c rc); [exact HA1|done|done|].
  unfold exec_outcome in *. destruct (resolve A c path false name0) as [[v|] n1] eqn:E1; cbn [found fst] in *.
  - intros [m2 f2] ip H1 Hg HA2. apply wp_ret. cbn [fst snd]. destruct (got_at _ _ _ _ Hg) as [r1 Hr1].
    destruct (resolve_linked name0 A c Hc O HT _ _ _ _ Hs E1) as [Hv HNv]. wp_next. apply wp_on_fs. cbn [ekm efs ep kmach set_kmach].
    call (at_ilock me sb P (kmach s0) (eq (k_begin k)) ∅ H1 A); [exact HA2|exact Hr1|set_solver|]. intros [m3 f3] HA3. cbn [fst snd ekm efs ep].
    pose proof (wp_exec_file path argv ip v H1 m3 f3) as HW. unfold exec_outcome in HW. rewrite E1 in HW. cbn [fst] in HW. apply HW; try done. by apply Hdev.
  - intros [m2 f2] HA2. apply wp_ret. cbn [fst snd]. wp_next. apply wp_on_fs. cbn [ekm efs ep kmach set_kmach]. destruct HA2 as [Hq2 (k2 & <- & HK)].
    eapply (at_end_quiet me sb P H A k _ HR H A (m2, f2)); [|done|].
    { split; [done|]. exists (k_begin k). by split. }
    intros [m3 f3] Hq3 Ha. cbn [fst snd] in *. apply wp_ret. split; [done|].
    assert (released kend ∅ [] l0 s0 l0 (set_kmach m3 s0)) as RL by (apply released_start; by eapply quiet_trans).
    eapply (released_restored kend kdata Hkend Hdata Hdal l0 s0 p0 pd0 T0 U0 R0 fs_done fs_done_quiet K0 US0 Hpd0 (mkE f0 s0 p0)); [exact RL|exact Ha|done].
Qed.

End call.

(** ** On the log and the disk *)

