(* ===== verification/FsTxn.v ===== *)
(** * A file system operation as a transaction

    [writei] between [begin_op] and [end_op], on the log and the buffer cache:
    whatever disk write a crash cuts it off after, recovery finds the file as it
    was or as it is meant to be. *)

From stdpp Require Import base numbers gmap sets list strings.
From S2P Require Import Prelude CString Spinlock Sleeplock Bio BioRing BioSpec.
From S2P Require Import Log LogSpec LogThms LogTxn.
From S2P Require Import Fs FsBlock FsAlloc FsFile FsInode FsDinode FsRW FsLog.
Open Scope Z_scope.

Section txn.
Context (me : Z) (sb : superblock).
#[local] Instance the_layer : BlockLayer lst := log_layer me.
#[local] Instance the_laws : BlockLaws lst := log_laws me.

(** [begin_op(); writei(ip, src, off, n); end_op();] *)
Definition write_op devs (ip : nat) (src : list Z) (off n : Z) : M (mach * fs lst) Z :=
  on_blk begin_op;;
  r ← writei sb devs ip src off n;
  on_blk (end_op me);;
  mret r.

Lemma wp_write_assoc P devs ip src off n st Q :
  wp P (r ← (on_blk begin_op;; writei sb devs ip src off n); on_blk (end_op me);; mret r) st Q ->
  wp P (write_op devs ip src off n) st Q.
Proof. unfold write_op, wp, mbind, M_bind. by destruct (on_blk begin_op st). Qed.

(** The file of the inode [num] on a disk: its inode, and its bytes. *)
Definition file_on (D : list (list Z)) (num : Z) (di : dinode) (g : Z -> Z) : Prop :=
  dinode_of sb D num = di /\ forall o, off_ok o -> fbyte D (d_addrs di) o = g o.

Lemma file_on_same k D' num l di g : geom sb k -> is_inum sb num -> file_ok sb (k_data k) l -> l = d_addrs di ->
  (forall b, sb_inodestart sb <= b < sb_size sb -> blk D' b = blk (k_data k) b) ->
  file_on (k_data k) num di g -> file_on D' num di g.
Proof.
  intros G Hn F -> Hb [H1 H2]. destruct (geom_iblock sb k num G Hn) as (? & ? & ? & ? & ?). pose proof (g_data _ _ G).
  split.
  - rewrite <- H1. unfold dinode_of. rewrite Hb; [done|]. lia.
  - intros o Ho. rewrite <- H2 by done. apply other_byte; [|done]. intros a Ha. apply Hb.
    destruct (owned_live sb _ _ _ F Ha) as [? _]. pose proof (geom_order sb k G). lia.
Qed.

(** The state before the operation: nothing in the log, no other operation in
    progress, the inode [ip] in the cache as on the disk. *)
Record txn_ready (m : mach) (s : fs lst) (a : acache) (ip : nat) (i : inode) : Prop := mkReady {
  tr_mach : msec ∅ m;
  tr_rep : log_rep (fblk s) a [];
  tr_out : outstanding (fblk s) = 0;
  tr_comm : committing (fblk s) = 0;
  tr_geom : geom sb (blks_of (fblk s) a []);
  tr_meta : meta_used sb (alog a);
  tr_in : icache s !! ip = Some i;
  tr_dev : i_dev i = 1;
  tr_file : file_ok sb (alog a) (addrs i);
  tr_inum : is_inum sb (i_num i);
  tr_ok : dinode_ok (i_d i);
  tr_type : d_type (i_d i) ≠ T_DEV;
  tr_whole : whole (alog a) (addrs i) (d_size (i_d i));
  tr_sync : dinode_of sb (alog a) (i_num i) = i_d i }.

(** After a crash: the recovered disk has the old file or the new one. *)
Definition crash_file (D R : list (list Z)) (i i' : inode) (off : Z) (src : list Z) : Prop :=
  file_on R (i_num i) (i_d i) (fbyte D (addrs i)) \/
  file_on R (i_num i) (i_d i') (over off src (fbyte D (addrs i))).

Lemma home_data (l : lst) k b : geom sb k -> k_hi k = lstart l + lsize l ->
  sb_inodestart sb <= b < sb_size sb -> home (lstart l) (lsize l) b (k_data k).
Proof.
  intros G Hh Hb. pose proof (geom_order sb k G). destruct G. unfold home, k_size in *. lia.
Qed.

(** With nothing in the log, the contents are those of the disk. *)
Lemma ready_disk l a b : log_rep l a [] -> 0 <= b < asize a -> a_get b a = blk (adisk a) b.
Proof.
  intros R Hb. rewrite <- (rep_committed l a [] b R Hb). unfold committed.
  by rewrite decide_False by (apply not_elem_of_nil).
Qed.

(** The operation up to [end_op]. *)
Lemma wp_write_begin P devs m s a ip i src off n Q :
  txn_ready m s a ip i ->
  0 <= off <= d_size (i_d i) -> 0 <= n <= Z.of_nat (length src) -> off + n <= MAXFILE * BSIZE ->
  let k := blks_of (set_outstanding 1 (fblk s)) a [] in
  (poor sb (bm_set sb) (4 * copy_fuel n + 1) (2 * copy_fuel n) k -> lax P) ->
  (forall m1 s1 k1 i' m0 s0,
     wrote sb (bm_set sb) (4 * copy_fuel n + 1) (2 * copy_fuel n) m0 s0 k ip i off (take (Z.to_nat n) src) m1 s1 k1 i' ->
     icache s0 = icache s -> Q n (m1, s1)) ->
  wp P (on_blk begin_op;; writei sb devs ip src off n) (m, s) Q.
Proof.
  intros [] Ho Hn Hmax k Hlax HQ. assert (MAXFILE * BSIZE = 71680) as Hm by done. destruct tr_whole0 as [Hsz Hw].
  wp_next. apply wp_on_blk, wp_begin_op; [done| |].
  { intros [H|H]; [done|]. rewrite (r_n _ _ _ tr_rep0), tr_out0 in H. unfold LOGSIZE, MAXOPBLOCKS in H. simpl in H. lia. }
  intros m1 Hm1 _ _. rewrite tr_out0. cbn [fst snd]. set (l1 := set_outstanding (0 + 1) (fblk s)).
  assert (log_rep l1 a []) as R1 by (destruct tr_rep0; by constructor).
  assert (file_st sb (mkFs l1 (icache s)) k ip i) as F.
  { constructor; try done; [|by destruct tr_geom0; constructor]. exists a, []. by apply rep_log_in. }
  apply (wp_writei sb P (bm_set sb) _ _ i _ _ _ _ _ k);
    [apply Hm1|done|done|done|done|done|lia|lia|lia|apply elem_bm_set|done|lia|].
  intros m2 s2 k2 i' _ _ HW. by apply (HQ m2 s2 k2 i' m1 (mkFs l1 (icache s))).
Qed.

(** The log is not full after a write that did not lack room. *)
Lemma wrote_room l k1 a1 bs1 T c f k : log_in me l k1 a1 bs1 -> spent sb T c f k k1 -> ~ poor sb T c f k ->
  (length bs1 < NBUF)%nat.
Proof.
  intros L (E1 & H1 & _) Hp. rewrite <- (size_logged me _ _ _ _ L). pose proof (li_cap _ _ _ _ _ L) as Hc.
  assert (size (k_logged k1) <= size (k_logged k1 ∪ T))%nat by (apply subseteq_size; set_solver).
  unfold poor, short in Hp. unfold NBUF. lia.
Qed.

(** Contents seen through the log, and on the disk. *)
Section ends.
Context (l : lst) (a : acache) (i : inode).
Let k := blks_of (set_outstanding 1 l) a [].
Context (R0 : log_rep l a []) (G0 : geom sb k).

Lemma old_blk b : sb_inodestart sb <= b < sb_size sb -> blk (adisk a) b = blk (alog a) b.
Proof.
  intros Hb. pose proof (geom_order sb k G0). pose proof (g_size _ _ G0) as Hs. unfold k_size in Hs. cbn in Hs.
  symmetry. apply (ready_disk l a b R0). pose proof (R_ok _ _ (r_cache _ _ _ R0)) as Ha. unfold asize.
  rewrite <- (a_len _ Ha). lia.
Qed.

Context (F0 : file_ok sb (alog a) (addrs i)).

Lemma old_byte o : off_ok o -> fbyte (adisk a) (addrs i) o = fbyte (alog a) (addrs i) o.
Proof.
  intros Ho. apply other_byte; [|done]. intros b Hb. apply old_blk. pose proof (geom_order sb k G0).
  destruct (owned_live sb _ _ _ F0 Hb) as [Hd _]. lia.
Qed.

Lemma over_old off src o : off_ok o ->
  over off src (fbyte (alog a) (addrs i)) o = over off src (fbyte (adisk a) (addrs i)) o.
Proof. intros Ho. unfold over. destruct (decide _); [done|]. by rewrite old_byte. Qed.

End ends.

(** What [end_op] then does, and what crashes in it leave. *)
Lemma wp_write_end P m0 s0 a ip i off src c f m1 s1 k1 i' (l : lst) Q :
  let k := blks_of (set_outstanding 1 l) a [] in
  wrote sb (bm_set sb) c f m0 s0 k ip i off src m1 s1 k1 i' -> ~ poor sb (bm_set sb) c f k ->
  log_rep l a [] -> geom sb k -> is_inum sb (i_num i) -> dinode_of sb (alog a) (i_num i) = i_d i ->
  file_ok sb (alog a) (addrs i) ->
  let D := adisk a in
  (forall m2 l2 W, quiet ∅ m1 m2 -> disk (lbio l2) = apply_writes W D ->
     file_on (apply_writes W D) (i_num i) (i_d i') (over off src (fbyte D (addrs i))) ->
     (forall ws, ws `prefix_of` W ->
        crash_file D (recovered (lstart l) (apply_writes ws D)) i i' off src) ->
     Q tt (m2, mkFs l2 (icache s1))) ->
  wp P (on_blk (end_op me)) (m1, s1) Q.
Proof.
  intros k HW Hrich R0 G0 Hnum Hsync F0 D HQ. pose proof HW as []. pose proof w_st as F1.
  destruct (fs_rep _ _ _ _ _ F1) as (a1 & bs1 & L1). pose proof (log_in_rep me _ _ _ _ L1 (fs_held _ _ _ _ _ F1)) as R1.
  destruct w_same as (_ & Ecap & Elo & Ehi & Edisk & _ & Eops & Elen). pose proof L1 as [].
  assert (adisk a1 = D) as ED by (rewrite li_disk, Edisk; done).
  assert (lstart (fblk s1) = lstart l) as E1 by (rewrite <- li_lo, Elo; done).
  assert (lsize (fblk s1) = lsize l) as E2 by (pose proof li_hi as H; rewrite Ehi, E1 in H; cbn in H; lia).
  pose proof (fs_geom _ _ _ _ _ F1) as G1. destruct (log_in_size me _ _ _ _ L1) as [Hsz _].
  assert (forall b, sb_inodestart sb <= b < sb_size sb ->
    home (lstart (fblk s1)) (lsize (fblk s1)) b (adisk a1) /\ committed a1 bs1 b = blk (k_data k1) b) as Hhome.
  { intros b Hb. pose proof (home_data (fblk s1) k1 b G1 li_hi Hb) as Hh.
    assert (home (lstart (fblk s1)) (lsize (fblk s1)) b (adisk a1)) as Hh'.
    { unfold home, k_size, asize in *. lia. }
    split; [done|]. rewrite (rep_committed _ _ _ _ R1) by apply Hh'. by rewrite (log_in_get me _ _ _ _ _ L1). }
  assert (file_on (k_data k1) (i_num i) (i_d i') (over off src (fbyte D (addrs i)))) as Hnew.
  { split; [by apply w_sync|]. intros o Ho. rewrite <- (over_old l a i R0 G0 F0) by done. by apply w_bytes. }
  apply wp_on_blk, (wp_end_op _ _ _ a1 bs1); [apply w_quiet|done|by eapply wrote_room| |done| |].
  { rewrite <- Hsz. pose proof (g_max _ _ G1). lia. }
  { intros m2 l2 _ Ho. rewrite li_out, Eops in Ho. by destruct Ho. }
  intros m2 l2 W Hm2 _ R2 _ _ _ _ [HA1 HA2]. destruct (a_writes_fields W a1) as (E3 & _). rewrite ED in *.
  cbn [fst snd]. rewrite <- E1 in HQ. apply (HQ m2 l2 W); [done| | |].
  - rewrite <- E3. apply (R_disk _ _ (r_cache _ _ _ R2)).
  - eapply (file_on_same k1); [done|done|apply F1|done| |exact Hnew].
    intros b Hb. destruct (Hhome b Hb) as [Hh Hc]. by rewrite HA1.
  - intros ws Hp. destruct (HA2 ws Hp) as [H|H]; cbv zeta in H; [left|right].
    + apply (file_on_same k _ _ (addrs i)); [done|done|done|done| |].
      * intros b Hb. destruct (Hhome b Hb) as [Hh _]. rewrite H by done. exact (old_blk l a R0 G0 b Hb).
      * split; [done|]. intros o Ho. symmetry. by apply (old_byte l a i R0 G0 F0).
    + eapply (file_on_same k1); [done|done|apply F1|done| |exact Hnew].
      intros b Hb. destruct (Hhome b Hb) as [Hh Hc]. by rewrite H.
Qed.

(** C6. A write inside of a transaction is atomic: [begin_op; writei; end_op]
    returns with the new bytes and size on the disk, and after a crash at any
    of its disk writes recovery finds the inode and the bytes of the file either
    as they were or as they should be. *)
Theorem write_crash_safe devs m s a ip i src off n :
  txn_ready m s a ip i ->
  0 <= off <= d_size (i_d i) -> 0 <= n <= Z.of_nat (length src) -> off + n <= MAXFILE * BSIZE ->
  ~ poor sb (bm_set sb) (4 * copy_fuel n + 1) (2 * copy_fuel n) (blks_of (fblk s) a []) ->
  let D := disk (lbio (fblk s)) in
  let src' := take (Z.to_nat n) src in
  exists m' s' i' W,
    write_op devs ip src off n (m, s) = Ok n (m', s') /\
    icache s' = <[ip := i']> (icache s) /\
    d_size (i_d i') = Z.max (d_size (i_d i)) (off + n) /\
    disk (lbio (fblk s')) = apply_writes W D /\
    file_on (apply_writes W D) (i_num i) (i_d i') (over off src' (fbyte D (addrs i))) /\
    forall ws, ws `prefix_of` W ->
      crash_file D (recovered (lstart (fblk s)) (apply_writes ws D)) i i' off src'.
Proof.
  intros T Ho Hn Hmax Hrich D src'. pose proof T as [].
  set (Q := fun (r : Z) (t : mach * fs lst) => r = n /\ exists i' W,
    icache t.2 = <[ip := i']> (icache s) /\ d_size (i_d i') = Z.max (d_size (i_d i)) (off + n) /\
    disk (lbio (fblk t.2)) = apply_writes W D /\
    file_on (apply_writes W D) (i_num i) (i_d i') (over off src' (fbyte D (addrs i))) /\
    forall ws, ws `prefix_of` W ->
      crash_file D (recovered (lstart (fblk s)) (apply_writes ws D)) i i' off src').
  assert (wp no_failure (write_op devs ip src off n) (m, s) Q) as HWP.
  2:{ apply wp_total in HWP as (r & [m' s'] & Hr & -> & i' & W & H). exists m', s', i', W. by rewrite Hr. }
  assert (D = adisk a) as ED by apply (R_disk _ _ (r_cache _ _ _ tr_rep0)).
  apply wp_write_assoc. wp_next. eapply (wp_write_begin _ _ _ _ a _ i); [done|done|done|done|by intros|].
  intros m1 s1 k1 i' m0 s0 HW Hic. wp_next.
  eapply (wp_write_end _ m0 s0 a ip i _ src' _ _ _ _ k1 i' (fblk s)); [exact HW|exact Hrich|done| |done|done|done|].
  { destruct tr_geom0. by constructor. }
  rewrite <- ED. intros m2 l2 W Hm2 Hd Hf Hc. apply wp_ret. split; [done|]. exists i', W. cbn [fst snd icache fblk].
  rewrite (w_ic _ _ _ _ _ _ _ _ _ _ _ _ _ _ _ HW), Hic. split; [done|]. split; [|done].
  destruct (w_i _ _ _ _ _ _ _ _ _ _ _ _ _ _ _ HW) as [l' ->]. cbn. unfold src'. rewrite length_take. lia.
Qed.

End txn.
