(* ===== verification/Examples.v ===== *)
(** * Example runs

    A small concrete kernel: a trivial rest of the kernel ([toy]: memory is
    handed out page by page, files do nothing), two CPUs, the process table as
    it is after boot, and after a few traps.  The theorems are applied to it. *)

From stdpp Require Import base numbers gmap list strings relations.
From S2P Require Import Prelude CString Spinlock ProcState Proc Syscall Trap ProcRules Sched.
From S2P Require Import KInv ProcSpec Quantum KSpec ExitSpec ForkSpec ProcThms SemThms SysSpec.
From S2P Require Import Kernel System.
Open Scope Z_scope.

Record toy := mkToy { next_page : Z; toy_mem : Z -> Z }.

Definition new_page : M toy Z :=
  fun e => Ok (4096 * next_page e) (mkToy (next_page e + 1) (toy_mem e)).

#[global] Instance toy_env : KEnv toy := {|
  kalloc := new_page;
  kfree _ := mret tt;
  setupkvm := new_page;
  inituvm _ := mret tt;
  allocuvm _ _ n := mret n;
  deallocuvm _ _ n := mret n;
  copyuvm _ _ := new_page;
  freevm _ := mret tt;
  switchuvm _ _ := mret tt;
  switchkvm := mret tt;
  filedup f := mret f;
  fileclose _ := mret tt;
  idup i := mret i;
  iput _ := mret tt;
  namei_root := mret 4096;
  begin_op := mret tt;
  end_op := mret tt;
  iinit _ := mret tt;
  initlog _ := mret tt;
  ideintr := mret tt;
  kbdintr := mret tt;
  uartintr := mret tt;
  lapiceoi := mret tt;
  ubyte e _ a := toy_mem e a;
  ustore _ _ _ := mret tt |}.

#[global] Instance toy_env_ok P : KEnvOk P toy.
Proof. by constructor. Qed.

(** Three of the file calls: [dup] copies descriptor 0 to 1, [link] waits for ever, and
    [unlink] panics. *)
Definition toy_file (n : Z) : M (kstate toy) (flow Z) :=
  if n =? 10 then
    c ← curproc;
    upd_proc c (fun p => set_ofile (<[1%nat := default 0 (ofile p !! 0%nat)]> (ofile p)) p);;
    mret (Back 1)
  else if n =? 19 then blocked
  else if n =? 18 then panic "ilock: no type"
  else mret (Back (-1)).

Definition toy_failure (f : failure) : Prop := f = FBlocked \/ f = FPanic "ilock: no type".

Lemma toy_file_frame (P : failure -> Prop) : (forall f, toy_failure f -> P f) -> file_frame P toy_file.
Proof.
  intros HP n i s Hm Hr. unfold toy_file. destruct (n =? 10).
  - wp_next. eapply wp_curproc; [done..|]. intros m Hm' Hf. wp_next. apply wp_upd. apply wp_ret.
    eexists 1, m, (env s), _. split_and!; [done|done|done| |reflexivity]. 
    intros np p Hst []. split; constructor; cbn; rewrite ?length_insert; try done. left. by rewrite Hst.
  - destruct (n =? 19); [apply HP; by left|]. destruct (n =? 18); [apply HP; by right|].
    exists (-1), (mc s), (env s), (fun p => p). split_and!; [done|done|done| |].
    + intros np p _ Hok. done.
    + assert (alter (fun p : proc => p) i (procs s) = procs s) as ->.
      { apply list_eq. intros j. rewrite list_lookup_alter. case_decide; [|done].
        subst. by destruct (procs s !! j). }
      by destruct s.
Qed.

Lemma toy_file_any : file_frame any_failure toy_file.
Proof. by apply toy_file_frame. Qed.

Definition toy_mach : mach :=
  mkMach [mkCpu 0 0 0 None; mkCpu 1 0 0 None] 2 0 [mkHw 0 0; mkHw 0 1] ∅ (fun _ => 0) 0.

Definition toy_boot : kstate toy :=
  mkK toy_mach (replicate NPROC proc0) 0 None 1 (replicate NSEM sem0) 0 1
    (mkToy 1 (fun _ => 0)).

Lemma toy_mach_sec : msec ∅ toy_mach.
Proof.
  constructor; simpl; try done.
  - constructor; simpl; [lia..| |].
    + intros [|[|i]] c h Hi Hc Hh; simpl in *; simplify_eq; try done; lia.
    + intros [|[|i]] [|[|j]] c d Hi Hj Hc Hd; simpl in *; simplify_eq; try done; try lia.
  - intros [|[|i]] Hi; done.
Qed.

Lemma toy_at_boot : at_boot toy_boot.
Proof. constructor; [apply toy_mach_sec|..]; simpl; try done. by repeat constructor. Qed.

(** Running an operation on a concrete state. *)
Definition after_op {S A} (m : M S A) (s : S) : S :=
  match m s with Ok _ s' => s' | _ => s end.

(** Init after boot; running on CPU 0; after it has forked; asleep in wait. *)
Definition user_trap (eax : Z) : trapframe :=
  mkTf 0 0 0 0 0 0 0 eax 0 0 35 35 T_SYSCALL 0 0 27 FL_IF 4000 35.

Definition toy1 : kstate toy := after_op (pinit;; userinit) toy_boot.

Definition toy2 : kstate toy := after_op (act toy_file (Turn 0)) toy1.

Definition toy3 : kstate toy := after_op (act toy_file (TrapOn 0 (user_trap 1))) toy2.

Definition toy4 : kstate toy := after_op (act toy_file (TrapOn 0 (user_trap 3))) toy3.

(** The child runs on CPU 1. *)
Definition toy5 : kstate toy := after_op (act toy_file (Turn 1)) toy4.

Lemma toy1_run : (pinit;; userinit) toy_boot = Ok tt toy1.
Proof. vm_compute. reflexivity. Qed.

Lemma toy2_run : act toy_file (Turn 0) toy1 = Ok tt toy2.
Proof. vm_compute. reflexivity. Qed.

Lemma toy3_run : act toy_file (TrapOn 0 (user_trap 1)) toy2 = Ok tt toy3.
Proof. vm_compute. reflexivity. Qed.

Lemma toy4_run : act toy_file (TrapOn 0 (user_trap 3)) toy3 = Ok tt toy4.
Proof. vm_compute. reflexivity. Qed.

Lemma toy5_run : act toy_file (Turn 1) toy4 = Ok tt toy5.
Proof. vm_compute. reflexivity. Qed.

Lemma toy1_reachable : reachable toy_file toy1.
Proof. exists toy_boot, toy1. split_and!; [apply toy_at_boot|apply toy1_run|done]. Qed.

Lemma reachable_step a s s' :
  reachable toy_file s -> enabled a s -> act toy_file a s = Ok tt s' -> reachable toy_file s'.
Proof.
  intros (s0 & s1 & Hb & H0 & Hs) Ha Hr. exists s0, s1. split_and!; [done..|].
  eapply rtc_r; [done|]. by exists a.
Qed.

Lemma toy2_reachable : reachable toy_file toy2.
Proof. eapply reachable_step; [apply toy1_reachable| |apply toy2_run]. reflexivity. Qed.

Lemma toy3_reachable : reachable toy_file toy3.
Proof.
  eapply reachable_step; [apply toy2_reachable| |apply toy3_run].
  split; [vm_compute; reflexivity|]. exists (Some 0%nat). split; [vm_compute; reflexivity|done].
Qed.

Lemma toy4_reachable : reachable toy_file toy4.
Proof.
  eapply reachable_step; [apply toy3_reachable| |apply toy4_run].
  split; [vm_compute; reflexivity|]. exists (Some 0%nat). split; [vm_compute; reflexivity|done].
Qed.

Lemma toy5_reachable : reachable toy_file toy5.
Proof. eapply reachable_step; [apply toy4_reachable| |apply toy5_run]. vm_compute. reflexivity. Qed.

Lemma reachable_sec s : reachable toy_file s -> msec ∅ (mc s).
Proof. intros H. by destruct (reachable_resting toy_file toy_file_any s H) as (ip & ? & _). Qed.

Lemma reachable_fam s : reachable toy_file s -> fam_ok (procs s) (initproc s) (nextpid s).
Proof.
  intros H. by destruct (reachable_resting toy_file toy_file_any s H) as (ip & _ & [? _] & _).
Qed.

(** Slot [i] of a concrete state. *)
Definition slot (s : kstate toy) (i : nat) : proc := the_proc s i.

(** ** The whole kernel *)

Lemma kernel_invariant_witness :
  reachable toy_file toy5 /\ exists ip, msec ∅ (mc toy5) /\ kt ip (cps (mc toy5)) toy5.
Proof.
  split; [exact toy5_reachable|].
  apply (kernel_invariant toy_file toy_file_any toy5 toy5_reachable).
Defined.

Lemma running_on_one_cpu_witness :
  state (slot toy5 1) = RUNNING /\
  ((state (slot toy5 1) = RUNNING <-> exists h, cps (mc toy5) !! h = Some (Some 1%nat)) /\
   (forall h h', cps (mc toy5) !! h = Some (Some 1%nat) ->
      cps (mc toy5) !! h' = Some (Some 1%nat) -> h = h')).
Proof.
  split; [vm_compute; reflexivity|].
  apply (running_on_one_cpu toy_file toy_file_any toy5 1 (slot toy5 1) toy5_reachable).
  vm_compute. reflexivity.
Defined.

Lemma no_lost_wakeup_witness :
  state (slot toy4 0) = SLEEPING /\
  ((pchan (slot toy4 0) = Cproc 0 /\ killed (slot toy4 0) = 0 /\
    forall j q, procs toy4 !! j = Some q -> parent q = Some 0%nat -> state q ≠ ZOMBIE) \/
   (exists id x, pchan (slot toy4 0) = Csem (Z.to_nat id) /\ sems toy4 !! Z.to_nat id = Some x /\
      allocated x ≠ 0 /\ svalue x <= 0) \/
   (exists n t0, pchan (slot toy4 0) = Cticks /\ killed (slot toy4 0) = 0 /\
      pcontext (slot toy4 0) = Some (KSleep Lticks n t0) /\
      match t0 with ASysSleep d b => u32 (ticks toy4 - b) < u32 d | _ => False end)).
Proof.
  split; [vm_compute; reflexivity|].
  apply (no_lost_wakeup toy_file toy_file_any toy4 0 (slot toy4 0) toy4_reachable);
    vm_compute; reflexivity.
Defined.


Lemma quantum_invariant_witness :
  state (slot toy5 1) ≠ UNUSED /\ 0 <= ticks_used (slot toy5 1) < timeslice (slot toy5 1).
Proof.
  split; [vm_compute; discriminate|].
  destruct (quantum_invariant toy_file toy_file_any toy5 1 (slot toy5 1) toy5_reachable)
    as (_ & H & _); [vm_compute; reflexivity|vm_compute; discriminate|exact H].
Defined.

(** A call that waits for ever, and a turn of the scheduler that returns. *)
Lemma kernel_no_panic_witness :
  act toy_file (TrapOn 0 (user_trap 19)) toy2 = Blocked /\ toy_failure FBlocked /\
  exists s' ip, act toy_file (Turn 0) toy4 = Ok tt s' /\ kt ip (cps (mc s')) s'.
Proof.
  pose proof (kernel_no_panic toy_file toy_file_any toy_failure toy2 (TrapOn 0 (user_trap 19))) as H1.
  pose proof (kernel_no_panic toy_file toy_file_any toy_failure toy4 (Turn 0)) as H2.
  assert (act toy_file (TrapOn 0 (user_trap 19)) toy2 = Blocked) as E1 by (vm_compute; reflexivity).
  rewrite E1 in H1. split; [reflexivity|]. split.
  - apply H1; [by apply toy_file_frame|exact toy2_reachable|]. split; [vm_compute; reflexivity|].
    exists (Some 0%nat). split; [vm_compute; reflexivity|done].
  - specialize (H2 (toy_file_frame _ ltac:(done)) toy4_reachable ltac:(vm_compute; reflexivity)).
    destruct (act toy_file (Turn 0) toy4) as [[] s'|e|] eqn:E2.
    + destruct H2 as (ip & _ & H). exists s', ip. split; [reflexivity|exact H].
    + vm_compute in E2. discriminate E2.
    + vm_compute in E2. discriminate E2.
Defined.

(** ** Scheduling *)

Lemma scheduler_pick_correct_witness :
  exists o s', scheduler_pick (hart (mc toy1)) toy1 = Ok o s' /\ o = Some 0%nat.
Proof.
  destruct (scheduler_pick_correct toy1) as (o & s' & Hrun & H).
  - exact (reachable_sec _ toy1_reachable).
  - vm_compute. split; [discriminate|reflexivity].
  - vm_compute. reflexivity.
  - intros a b e. exists e. reflexivity.
  - exists o, s'. split; [exact Hrun|]. revert Hrun. vm_compute. intros [= <- _]. reflexivity.
Defined.

(** Process 1 waits while init is chosen. *)
Definition toy_wait : kstate toy :=
  set_procs (alter (set_state RUNNABLE) 0%nat (procs toy3)) toy3.

Definition toy_passed : kstate toy :=
  set_rr_next 1 toy_wait.

Lemma rr_fair_witness :
  passed_over 1 (set_rr_next 0 toy_wait) [0%nat] /\ NoDup [0%nat] /\ (length [0%nat] < NPROC)%nat.
Proof.
  assert (passed_over 1 (set_rr_next 0 toy_wait) [0%nat]) as H.
  { eapply (passed_more 1 0 _ 0 (after_op (scheduler_pick 0) (set_rr_next 0 toy_wait)) toy_passed).
    - vm_compute. reflexivity.
    - vm_compute. reflexivity.
    - discriminate.
    - vm_compute. reflexivity.
    - constructor. }
  split; [exact H|]. apply (rr_fair 1 (set_rr_next 0 toy_wait) [0%nat]).
  - vm_compute. split; [discriminate|reflexivity].
  - vm_compute. lia.
  - exact H.
Defined.

Lemma quantum_exact_witness :
  timeslice (slot toy2 0) = 10 /\
  exists s1 s2, ticked 27 9 toy2 s1 /\ preempt TIMER 27 s1 = Ok true s2.
Proof.
  split; [vm_compute; reflexivity|].
  destruct (quantum_exact 27 0 (slot toy2 0) toy2) as (s1 & s2 & p' & H1 & H2 & _).
  - exact (reachable_sec _ toy2_reachable).
  - vm_compute. reflexivity.
  - vm_compute. reflexivity.
  - vm_compute. reflexivity.
  - vm_compute. reflexivity.
  - vm_compute. discriminate.
  - exists s1, s2. split; [exact H1|exact H2].
Defined.

(** ** Processes *)

(** Init with an open file. *)
Definition toy2f : kstate toy := set_procs (alter (fun p => set_ofile (<[0%nat := 77]> (ofile p)) p) 0%nat (procs toy2)) toy2.

Lemma set_procs_sec ps (s : kstate toy) : msec ∅ (mc s) -> msec ∅ (mc (set_procs ps s)).
Proof. done. Qed.

Lemma toy2f_sec : msec ∅ (mc toy2f).
Proof. exact (set_procs_sec _ _ (reachable_sec _ toy2_reachable)). Qed.

Lemma fork_correct_witness :
  exists s' q, fork toy2f = Ok 2 s' /\ procs s' !! 1%nat = Some q /\ state q = RUNNABLE /\ ofile q !! 0%nat = Some 77 /\ cwd q = 4096.
Proof.
  destruct (fork_correct 0 (slot toy2f 0) toy2f) as (r & s' & H1 & H2 & H).
  - intros f e g e' [= <- _]. reflexivity.
  - intros i e d e' [= <- _]. reflexivity.
  - exact toy2f_sec.
  - vm_compute. reflexivity.
  - vm_compute. reflexivity.
  - vm_compute. reflexivity.
  - vm_compute. by repeat constructor.
  - replace (list_find (fun p => state p = UNUSED) (procs toy2f)) with (Some (1%nat, proc0)) in H by (vm_compute; reflexivity).
    destruct H as (x & e' & E & H). vm_compute in E. injection E as <- <-. destruct H as (-> & _ & _ & Hs).
    assert (procs s' !! 1%nat = Some (child 0 2 (slot toy2f 0) proc0 12288 16384 (<[0%nat := 77]> (replicate 16 0)) 4096)) as Hq.
    { rewrite Hs. vm_compute. reflexivity. }
    eexists s', _. split; [exact H1|]. split; [exact Hq|]. split_and!; reflexivity.
Defined.

Lemma exit_correct_witness :
  exists s' q, exit toy5 = Ok tt s' /\ procs s' !! 1%nat = Some q /\ state q = ZOMBIE.
Proof.
  destruct (exit_correct 1 (slot toy5 1) 0 toy5) as (s' & H1 & _ & (q & H2 & H3 & _) & _).
  - exact (reachable_sec _ toy5_reachable).
  - vm_compute. reflexivity.
  - vm_compute. reflexivity.
  - vm_compute. reflexivity.
  - vm_compute. reflexivity.
  - vm_compute. reflexivity.
  - vm_compute. reflexivity.
  - discriminate.
  - exists s', q. split_and!; [exact H1|exact H2|exact H3].
Defined.

(** Init waits with its child alive, and with its child a zombie. *)
Lemma wait_correct_witness :
  exists f s', wait toy3 = Ok f s' /\ f = Gone.
Proof.
  destruct (wait_correct 0 (slot toy3 0) toy3) as (f & s' & H1 & H2).
  - exact (reachable_sec _ toy3_reachable).
  - vm_compute. reflexivity.
  - vm_compute. reflexivity.
  - vm_compute. reflexivity.
  - exists f, s'. split; [exact H1|].
    assert (exists s'', wait toy3 = Ok Gone s'') as [s'' H] by (eexists; vm_compute; reflexivity).
    rewrite H1 in H. congruence.
Defined.

Lemma kill_correct_witness :
  exists r s', kill 2 toy3 = Ok r s' /\ msec ∅ (mc s').
Proof.
  destruct (kill_correct 2 toy3 (initproc toy3) (nextpid toy3)) as (r & s' & H1 & H2 & _).
  - exact (reachable_sec _ toy3_reachable).
  - exact (reachable_fam _ toy3_reachable).
  - discriminate.
  - exists r, s'. split; [exact H1|exact H2].
Defined.

Lemma kill_zero_witness : exists s', kill 0 toy3 = Ok 0 s'.
Proof.
  destruct (kill_zero_marks_unused toy3 (initproc toy3) (nextpid toy3)) as (s' & i & p & H & _).
  - exact (reachable_sec _ toy3_reachable).
  - exact (reachable_fam _ toy3_reachable).
  - exists 2%nat, proc0. split; vm_compute; reflexivity.
  - exists s'. exact H.
Defined.

Lemma setquantum_gettimeslice_witness :
  exists s1 s2, setquantum_pid 2 5 toy3 = Ok 0 s1 /\ gettimeslice 2 s1 = Ok 5 s2.
Proof.
  destruct (setquantum_gettimeslice 2 5 1 (slot toy3 1) toy3) as [H _].
  - exact (reachable_sec _ toy3_reachable).
  - vm_compute. reflexivity.
  - destruct H as (s1 & s2 & H1 & H2 & _); [lia|]. exists s1, s2. split; [exact H1|exact H2].
Defined.

Lemma getpstats_getprocinfo_witness :
  exists r s', getpstats 1 4096 toy3 = Ok r s' /\ procs s' = procs toy3.
Proof.
  destruct (getpstats_getprocinfo 1 4096 (replicate 16 0) toy3) as (r1 & s1 & r2 & s2 & H1 & H2 & _).
  - exact (reachable_sec _ toy3_reachable).
  - exists r1, s1. split; [exact H1|exact H2].
Defined.

(** ** Semaphores *)

(** One unit, taken, given back and taken again; the third wait sleeps. *)
Definition toy_sem_run : list sem_event := [SInit 1 0; SWait 0 (Back 0); SSignal 0 0; SWait 0 (Back 0); SWait 0 Gone].

Definition toy_sem1 : kstate toy := after_op (sem_init 1) toy2.

Definition toy_sem2 : kstate toy := after_op (sem_wait 0) toy_sem1.

Definition toy_sem3 : kstate toy := after_op (sem_signal 0) toy_sem2.

Definition toy_sem4 : kstate toy := after_op (sem_wait 0) toy_sem3.

Definition toy_sem5 : kstate toy := after_op (sem_wait 0) toy_sem4.

Lemma toy_sem_trace : sem_trace toy_sem_run toy2 toy_sem5.
Proof.
  apply (sem_trace_cons (SInit 1 0) _ toy2 toy_sem1); [vm_compute; reflexivity|].
  apply (sem_trace_cons (SWait 0 (Back 0)) _ toy_sem1 toy_sem2); [vm_compute; reflexivity|].
  apply (sem_trace_cons (SSignal 0 0) _ toy_sem2 toy_sem3); [vm_compute; reflexivity|].
  apply (sem_trace_cons (SWait 0 (Back 0)) _ toy_sem3 toy_sem4); [vm_compute; reflexivity|].
  apply (sem_trace_cons (SWait 0 Gone) _ toy_sem4 toy_sem5); [vm_compute; reflexivity|]. constructor.
Qed.

Lemma semaphore_count_witness :
  exists x', sems toy_sem5 !! 0%nat = Some x' /\ svalue x' = 1 + 1 - 2 /\ total (is_wait 0) toy_sem_run <= Z.max 0 (1 + 1).
Proof.
  destruct (semaphore_count 0 _ _ _ sem0 toy_sem_trace) as (x' & H1 & _ & H2 & H3).
  - vm_compute. reflexivity.
  - reflexivity.
  - reflexivity.
  - exists x'. split; [exact H1|]. split; [exact H2|]. apply H3. reflexivity.
Defined.

Lemma sem_init_correct_witness : exists r s', sem_init 1 toy2 = Ok r s' /\ procs s' = procs toy2.
Proof.
  destruct (sem_init_correct 1 toy2) as (r & s' & H1 & _ & H2 & _).
  - exact (reachable_sec _ toy2_reachable).
  - vm_compute. reflexivity.
  - exists r, s'. split; [exact H1|exact H2].
Defined.

Lemma sem_signal_correct_witness : sem_signal 3 toy2 = Ok (-1) toy2.
Proof.
  destruct (sem_signal_correct 3 toy2) as [H _].
  - exact (reachable_sec _ toy2_reachable).
  - apply H. vm_compute. reflexivity.
Defined.

(** ** System call arguments *)

Lemma fetchint_correct_witness :
  exists r s', fetchint 4000 toy2 = Ok r s' /\ r = Some (i32 (le32 (umem 0 toy2) 4000)).
Proof.
  destruct (fetchint_correct 4000 0 toy2) as (r & s' & H1 & _ & _ & H2).
  - exact (reachable_sec _ toy2_reachable).
  - vm_compute. reflexivity.
  - lia.
  - vm_compute. split; discriminate.
  - exists r, s'. split; [exact H1|]. rewrite H2. vm_compute. reflexivity.
Defined.

Lemma argptr_in_process_witness :
  exists r s', argptr 0 20 toy2 = Ok r s' /\
    match r with Some a => a + 20 <= sz (slot toy2 0) | None => True end.
Proof.
  destruct (argptr_in_process 0 20 0 toy2) as (r & s' & H1 & _ & _ & H2).
  - exact (reachable_sec _ toy2_reachable).
  - vm_compute. reflexivity.
  - vm_compute. split; discriminate.
  - lia.
  - exists r, s'. split; [exact H1|]. destruct r as [a|]; [apply H2|exact I].
Defined.

Lemma fetchstr_correct_witness :
  exists r s', fetchstr 100 toy2 = Ok r s' /\ procs s' = procs toy2.
Proof.
  destruct (fetchstr_correct 100 0 toy2) as (r & s' & H1 & H2 & _).
  - exact (reachable_sec _ toy2_reachable).
  - vm_compute. reflexivity.
  - lia.
  - exists r, s'. split; [exact H1|exact H2].
Defined.

(** ** Locks and strings *)

Lemma toy_mwf : mwf toy_mach.
Proof. exact (msec_wf _ _ toy_mach_sec). Qed.

Definition toy_locked : mach := after_op (acquire Lptable) toy_mach.

Lemma acquire_excludes_witness : acquire Lptable (set_hart 1 toy_locked) = Blocked.
Proof.
  apply (acquire_excludes Lptable toy_mach toy_locked 1).
  - exact toy_mwf.
  - intros [|[|i]] Hi; vm_compute; discriminate.
  - vm_compute. reflexivity.
  - vm_compute. lia.
Defined.

Lemma acquire_release_restores_witness :
  exists m', (acquire Lptable;; release Lptable) toy_mach = Ok tt m' /\ flags m' = flags toy_mach.
Proof.
  destruct (acquire_release_restores Lptable toy_mach) as (m' & H1 & H2 & _).
  - exact toy_mwf.
  - vm_compute. discriminate.
  - vm_compute. discriminate.
  - vm_compute. reflexivity.
  - exists m'. split; [exact H1|exact H2].
Defined.

Lemma pushcli_popcli_witness :
  exists m1 m2, times 3 pushcli toy_mach = Ok tt m1 /\ times 3 popcli m1 = Ok tt m2 /\
    flags m2 = flags toy_mach.
Proof.
  destruct (pushcli_popcli_matched 3 3 toy_mach) as (m1 & m2 & H1 & H2 & _ & _ & _ & H3).
  - exact toy_mwf.
  - vm_compute. discriminate.
  - vm_compute. discriminate.
  - lia.
  - exists m1, m2. split_and!; [exact H1|exact H2|apply H3; reflexivity].
Defined.

Lemma strncmp_zero_witness : KString.strncmp (rd [97; 98; 0]) (rd [97; 98; 0]) 5 = 0.
Proof.
  apply (KString.strncmp_zero (rd [97; 98; 0]) (rd [97; 98; 0]) 5).
  - intros [|[|[|k]]]; vm_compute; split; split; discriminate || reflexivity.
  - reflexivity.
Defined.

Lemma strncpy_lookup_witness :
  KString.strncpy [1; 2; 3; 4] (rd [97; 0]) 3 !! 2%nat = Some 0.
Proof.
  rewrite (KString.strncpy_lookup [1; 2; 3; 4] (rd [97; 0]) 3 2); [|vm_compute; discriminate].
  vm_compute. reflexivity.
Defined.

Lemma safestrcpy_spec_witness :
  KString.cstr (KString.safestrcpy [1; 2; 3] (rd [97; 98; 99; 0]) 3) = [97; 98].
Proof.
  destruct (KString.safestrcpy_spec [1; 2; 3] (rd [97; 98; 99; 0]) 3) as [H _].
  - vm_compute. split; [reflexivity|discriminate].
  - rewrite H. vm_compute. reflexivity.
Defined.
