(* ===== verification/PartExamples.v ===== *)
(** * The parts of the system on concrete inputs

    Pipes, the page allocator, the user programs, descriptors, the shell, the console,
    the keyboard, the allocator of user programs and an address space: concrete states,
    and the theorems applied to them. *)

From stdpp Require Import base numbers gmap sets list strings relations.
From S2P Require Import Prelude CString Spinlock ProcState Proc Syscall Pipe Kalloc ULib Grep Examples.
From S2P Require Import File FileSpec FileThms Sh ShParse ShThms Umalloc Console ConsoleThms.
From S2P Require Import Vm VmTable VmUser VmSpace VmThms.
Open Scope Z_scope.

(** ** Pipes *)

Import Pipe.

Definition a_page : list Z := replicate (Z.to_nat PIPESIZE) 0.

(** Process 0 writes "ab", process 1 reads one byte. *)
Definition wrote_ab : psys := mkSys
  (pipewrite_loop false 2 [97; 98] (pipe_init a_page)).1.1.1 [Idle; Idle] [97; 98] [].

Definition read_a : psys := mkSys (piperead false 1 (the_pipe wrote_ab)).1.1.1 [Idle; Idle] [97; 98] [97].

Lemma a_page_run killed : preach killed a_page 2 read_a.
Proof.
  apply (preach_step _ _ _ false wrote_ab); [|done|].
  - apply (preach_step _ _ _ false (psys_init a_page 2)); [constructor|done|].
    apply (p_write false 0 2 [97; 98] (pipe_init a_page) [Idle; Idle] [] [] (the_pipe wrote_ab) []
      (pipewrite_loop false 2 [97; 98] (pipe_init a_page)).1.2
      (pipewrite_loop false 2 [97; 98] (pipe_init a_page)).2); [by left|discriminate|vm_compute; reflexivity].
  - apply (p_read false 1 1 (the_pipe wrote_ab) [Idle; Idle] [97; 98] [] (the_pipe read_a) [97]
      (piperead false 1 (the_pipe wrote_ab)).1.2
      (piperead false 1 (the_pipe wrote_ab)).2); [by left|discriminate|vm_compute; reflexivity].
Qed.

Lemma pipe_fifo_witness :
  sent read_a = got read_a ++ contents (the_pipe read_a) /\
  (length (contents (the_pipe read_a)) <= Z.to_nat PIPESIZE)%nat.
Proof. apply (pipe_fifo a_page 2 read_a); [reflexivity|apply a_page_run]. Defined.

(** A reader asleep on a new pipe; a writer asleep with 88 bytes left. *)
Definition asleep_read : psys := mkSys (pipe_init a_page) [Idle; Reader 1 true] [] [].

Definition after_write (page todo : list Z) : psys :=
  let '(p', rest, wk, o) := pipewrite_loop false (Z.of_nat (length todo)) todo (pipe_init page) in
  mkSys p' (wake_all wk (<[0%nat := write_done (Z.of_nat (length todo)) rest o]> [Idle; Idle])) (take (length todo - length rest) todo) [].

Definition asleep_write : psys := after_write a_page (replicate 600 7).

Lemma asleep_read_run : preach false a_page 2 asleep_read.
Proof.
  apply (preach_step _ _ _ false (psys_init a_page 2)); [constructor|done|].
  apply (p_read false 1 1 (pipe_init a_page) [Idle; Idle] [] [] (pipe_init a_page) [] [] (Sleep Cread)); [by left|discriminate|vm_compute; reflexivity].
Qed.

Lemma after_write_run page todo : preach false page 2 (after_write page todo).
Proof.
  unfold after_write. destruct (pipewrite_loop _ _ _ _) as [[[p' rest] wk] o] eqn:E.
  apply (preach_step _ _ _ false (psys_init page 2)); [constructor|done|].
  by apply (p_write false 0 _ todo (pipe_init page) [Idle; Idle] [] []); [left|..].
Qed.

Lemma pipe_no_lost_wakeup_witness :
  threads asleep_read !! 1%nat = Some (Reader 1 true) /\ contents (the_pipe asleep_read) = [] /\
  threads asleep_write !! 0%nat = Some (Writer 600 (replicate 88 7) true) /\ length (contents (the_pipe asleep_write)) = 512%nat.
Proof.
  destruct (pipe_no_lost_wakeup a_page 2 asleep_read) as (H1 & _); [reflexivity|exact asleep_read_run|].
  destruct (pipe_no_lost_wakeup a_page 2 asleep_write) as (_ & H2 & _); [reflexivity|apply after_write_run|].
  split; [reflexivity|]. split; [apply (H1 1%nat 1); reflexivity|]. split; [vm_compute; reflexivity|].
  apply (H2 0%nat 600 (replicate 88 7)). vm_compute. reflexivity.
Defined.

Lemma killed_writer_witness :
  exists s, preach true a_page 2 s /\ threads s = [Reader 1 true; Idle] /\
    length (contents (the_pipe s)) = Z.to_nat PIPESIZE.
Proof.
  apply (killed_writer_strands_reader a_page (replicate 600 0)); [reflexivity|vm_compute; lia].
Defined.

(** ** The page allocator *)

Import Kalloc.

Definition toy_kend : Z := KERNBASE + 1048576.

Definition toy_kmem : kmst := mkKm toy_mach (fun _ => 0) 1 toy_kend.

Lemma toy_kmem_ok : kmem_ok toy_kend [toy_kend] toy_kmem.
Proof.
  constructor; [done|apply NoDup_singleton|]. constructor; [|done].
  vm_compute. repeat split; discriminate.
Qed.

Definition toy_kmem1 : kmst := match kalloc toy_kmem with Ok _ s => s | _ => toy_kmem end.

Lemma toy_krun : krun toy_kend [toy_kend] [toy_kend] toy_kmem1.
Proof.
  apply (krun_alloc toy_kend [toy_kend] [] toy_kmem toy_kend toy_kmem1); [|vm_compute; reflexivity].
  constructor; [apply toy_kmem_ok|apply toy_mach_sec].
Qed.

Lemma kalloc_no_alias_witness :
  NoDup [toy_kend] /\ Forall (page_ok toy_kend) [toy_kend] /\
  exists l, kmem_ok toy_kend l toy_kmem1 /\ [toy_kend] ++ l ≡ₚ [toy_kend] /\
    (forall v, v ∈ [toy_kend] -> v ∉ l).
Proof. exact (kalloc_no_alias toy_kend [toy_kend] [toy_kend] toy_kmem1 toy_krun). Defined.

Definition boot_kmem : kmst := mkKm toy_mach (fun _ => 0) 0 0.

Lemma kinit_correct_witness :
  exists s' l, main_kinit toy_kend boot_kmem = Ok tt s' /\ msec ∅ (kmach s') /\ use_lock s' = 1 /\
    kmem_ok toy_kend l s' /\
    (forall x, x ∈ l <-> x mod PGSIZE = 0 /\ toy_kend <= x /\ x + PGSIZE <= P2V PHYSTOP).
Proof.
  apply (kinit_correct toy_kend boot_kmem); [apply toy_mach_sec|reflexivity|].
  split; vm_compute; discriminate.
Defined.

(** ** User programs *)

Lemma printint_atoi_witness :
  ULib.atoi (ULib.printint 1250 10 1) = 1250 /\
  (0 < 1250 -> ULib.printint (- 1250) 10 1 = 45 :: ULib.printint 1250 10 1).
Proof. apply (ULib.printint_atoi 1250). lia. Defined.

Definition some_pieces : list ULib.piece :=
  [ULib.PText [112; 105; 100; 32]; ULib.PDec (-3); ULib.PPct; ULib.PHex 255].

Lemma printf_pieces_witness :
  ULib.printf (fun _ => []) (concat (ULib.piece_fmt <$> some_pieces)) (concat (ULib.piece_arg <$> some_pieces)) =
  concat (ULib.piece_out (fun _ => []) <$> some_pieces).
Proof.
  apply (ULib.printf_pieces (fun _ => []) some_pieces).
  repeat constructor; simpl; try lia. vm_compute. set_solver.
Defined.

Lemma grep_correct_witness :
  Grep.grep [97] [[97; 98; 10; 98]; [98; 10]] =
  Grep.selected [97] (Grep.lines (concat [[97; 98; 10; 98]; [98; 10]])).1.
Proof.
  apply (Grep.grep_correct [97] [[97; 98; 10; 98]; [98; 10]]); [simpl; set_solver|].
  repeat constructor; unfold Grep.NL; set_solver.
Defined.

Lemma wc_correct_witness :
  let s := concat [[97; 32; 98]; [99; 10]] in
  Wc.c_l (Wc.wc [[97; 32; 98]; [99; 10]]) = Wc.newlines s /\
  Wc.c_w (Wc.wc [[97; 32; 98]; [99; 10]]) = Wc.words true s /\
  Wc.c_c (Wc.wc [[97; 32; 98]; [99; 10]]) = Z.of_nat (length s).
Proof. apply (Wc.wc_correct [[97; 32; 98]; [99; 10]]). reflexivity. Defined.

(** ** Descriptors and the shell *)

Import Sh.

(** A process makes a pipe, forks, and both close the end they do not use; the
    child exits. *)
Definition toy_ops : list fop :=
  [MkPipe 0; Fork 0 1; Close 0 1; Close 1 0; Dup 1 1; Open 0 7 2; Exit 1].

Lemma toy_pages_nodup : NoDup [8192; 4096].
Proof. apply (bool_decide_unpack _). vm_compute. exact I. Defined.

Lemma files_safe_witness : exists s, mfor toy_ops fcall (tinit [8192; 4096] (fun _ => 0)) = Ok tt s /\ TI [] (fun _ => 0) s.
Proof. exact (files_safe [8192; 4096] (fun _ => 0) toy_ops toy_pages_nodup). Defined.

(** The state the calls lead to, computed. *)
Definition toy_files : File.tstate :=
  match mfor toy_ops fcall (tinit [8192; 4096] (fun _ => 0)) with Ok _ s => s | _ => tinit [] (fun _ => 0) end.

Lemma pipe_open_iff_fd_witness :
  (flag true (Pipe.mkPipe (replicate 512 1) 0 0 1 0) ≠ 0 <->
   exists c fd f x, File.ofile c toy_files !! fd = Some (Some f) /\ File.files (File.tfs toy_files) !! f = Some x /\
     File.type x = File.FD_PIPE /\ File.fpipe x = 8192 /\ File.writable x = true) /\ 8192 ∉ File.free (File.tfs toy_files).
Proof.
  apply (pipe_open_iff_fd [8192; 4096] (fun _ => 0) toy_ops); [exact toy_pages_nodup|vm_compute; reflexivity|vm_compute; reflexivity].
Defined.

(** The line [ls x|wc >f] with its newline and its NUL. *)
Definition toy_line : list Z := [108; 115; 32; 120; 124; 119; 99; 32; 62; 102; 10; 0; 0].

Definition toy_ast : ast := APipe (AExec [[108; 115]; [120]]) (ARedir (AExec [[119; 99]]) ROut [102]).

Lemma toy_holds : holds_line toy_line 11.
Proof. constructor; [reflexivity|]. apply (bool_decide_unpack _). vm_compute. exact I. Defined.

Lemma toy_parses : g_line (lex (line toy_line 11)) toy_ast.
Proof.
  change (g_line ([Word [108; 115]; Word [120]] ++ Sym BAR :: [Word [119; 99]; Gt; Word [102]]) toy_ast).
  apply gl_backs, gb_pipe, gp_pipe.
  - apply (ge_simple _ [[108; 115]; [120]] []); [|vm_compute; lia].
    apply (ga_word [] [] _ _ _ []); [constructor|]. apply (ga_word [] [] _ _ _ []); [constructor|]. repeat constructor.
  - apply gp_exec, (ge_simple _ [[119; 99]] [(ROut, [102])]); [|vm_compute; lia].
    apply (ga_word [] [] _ _ _ [(ROut, [102])]); [constructor|]. constructor. apply (gr_cons ROut). constructor.
Defined.

Lemma parsecmd_sound_witness :
  match parsecmd toy_line 11 with
  | Ok (c, mem') _ => exists a, g_line (lex (line toy_line 11)) a /\ reads mem' c a
  | Panic _ => True
  | Blocked => False
  end.
Proof. exact (parsecmd_sound toy_line 11 toy_holds). Defined.

Lemma shell_correct_witness :
  exists c mem' s, parsecmd toy_line 11 = Ok (c, mem') s /\
    runcmd mem' c (table (Inherited 0) (Inherited 1) (Inherited 2)) (mkW [] 0 []) =
    mkW [([[108; 115]; [120]], table (Inherited 0) (PipeW 0) (Inherited 2));
         ([[119; 99]], table (PipeR 0) (Opened [102] 513) (Inherited 2))] 1 [].
Proof. exact (shell_correct toy_line 11 toy_ast (Inherited 0) (Inherited 1) (Inherited 2) (mkW [] 0 []) toy_holds toy_parses). Defined.

(** ** The console, the keyboard and the allocator *)

Import Console.

(** An idle console whose indices are about to wrap around. *)
Definition toy_screen : screen := mkScreen (replicate 2000 1824) 1915.
Definition toy_console : console :=
  mkCons (mkIn (replicate 128 0) 4294967295 4294967295 4294967295) (mkOut toy_screen []).

Lemma toy_screen_ok : screen_ok toy_screen.
Proof. constructor; [reflexivity|]. cbn. lia. Defined.

Lemma toy_con_ok : con_ok (mkTty [] []) toy_console.
Proof.
  split; [|exact toy_screen_ok]. constructor; try reflexivity; [cbn; lia|cbn; lia| |apply not_elem_of_nil].
  intros k c H. by destruct k.
Defined.

(** [a], [x], backspace, [b], Enter, [q]; then two reads, the second of which
    sleeps. *)
Definition toy_events : list cevent :=
  [Keys [97; 120; 8; 98; 13; 113]; Read false 10 10 []; Read false 10 10 []].

Lemma console_refines_witness :
  exists s', crun toy_events toy_console =
      Ok [RKeys true; RRead (Return 3 [97; 98; 10]); RRead (Sleep 10 [])] s' /\
    con_ok (mkTty [] [113]) s'.
Proof.
  exact (console_refines toy_events (mkTty [] []) toy_console toy_con_ok
    ltac:(unfold toy_events; repeat constructor; lia)).
Defined.

Lemma cgaputc_correct_witness :
  exists s', cgaputc 10 toy_screen = Ok tt s' /\ screen_ok s' /\ before s' = replicate 1840 1824.
Proof.
  destruct (cgaputc_correct 10 toy_screen toy_screen_ok) as (s' & H1 & H2 & H3). exists s'. split; [exact H1|]. split; [exact H2|].
  rewrite H3. vm_compute. reflexivity.
Defined.

Lemma printint_fits_witness : (length (printint_buf (-2147483648) 10 1) <= 16)%nat.
Proof. apply printint_fits; lia. Defined.

(** Shift and the key of [a]. *)
Lemma kbdgetc_correct_witness :
  (let '(c, sh') := Kbd.kbdgetc Kbd.KBS_DIB 30 1 in 0 <= c < 256 /\ 0 <= sh' < 128) /\ (Kbd.kbdgetc Kbd.KBS_DIB 30 1).1 = 65.
Proof.
  destruct (Kbd.kbdgetc_correct 1 30 ltac:(lia) ltac:(lia)) as [H1 H2]. split; [exact H1|].
  exact (H2 ltac:(vm_compute; reflexivity) ltac:(lia) ltac:(vm_compute; reflexivity)).
Defined.

(** The keys [l] and [s]. *)
Lemma keys_to_reader_witness :
  exists s', crun [Keys (Kbd.kbd_chars (concat (Kbd.stroke <$> [38; 31]) ++ Kbd.stroke 28) 0).1; Read false 100 100 []] toy_console =
    Ok [RKeys true; RRead (Return 3 [108; 115; 10])] s'.
Proof.
  exact (Kbd.keys_to_reader [38; 31] 100 toy_console toy_con_ok
    ltac:(repeat constructor; lia) ltac:(cbn; lia) ltac:(cbn; lia)).
Defined.

(** A process that has called [malloc] twice, stored in the first block and freed
    it. *)
Definition toy_heap0 : Umalloc.heap := Umalloc.mkHeap (fun _ => 0) (fun _ => 0) 0 16384 [true; false].

Definition ok_state {S A} (m : res S A) (s0 : S) : S := match m with Ok _ s => s | _ => s0 end.
Definition toy_heap1 : Umalloc.heap := ok_state (Umalloc.malloc 8192 20 toy_heap0) toy_heap0.
Definition toy_heap2 : Umalloc.heap := ok_state (Umalloc.malloc 8192 100 toy_heap1) toy_heap0.
Definition toy_heap3 : Umalloc.heap :=
  Umalloc.mkHeap (store (Umalloc.hptr toy_heap2) 49132 7) (store (Umalloc.hsize toy_heap2) 49132 9)
    (Umalloc.freep toy_heap2) (Umalloc.brk toy_heap2) (Umalloc.outcomes toy_heap2).
Definition toy_heap4 : Umalloc.heap := ok_state (Umalloc.free 49128 toy_heap3) toy_heap0.

Lemma toy_heap_new : heap_new 8192 toy_heap0.
Proof. constructor; cbn; unfold Umalloc.HSIZE, Umalloc.KERNBASE; lia. Defined.

Lemma toy_heap_run : rtc (ustep 8192) ([], toy_heap0) ([(49008, 14)], toy_heap4).
Proof.
  eapply rtc_l; [apply (u_malloc 8192 [] toy_heap0 20 49128 toy_heap1); [lia|vm_compute; intros ?; discriminate|reflexivity]|].
  rewrite decide_False by lia.
  eapply rtc_l; [apply (u_malloc 8192 _ toy_heap1 100 49016 toy_heap2); [lia|vm_compute; intros ?; discriminate|reflexivity]|].
  rewrite decide_False by lia.
  eapply rtc_l; [apply (u_store 8192 _ (49120, 4) 49132 7 9 toy_heap2); [right; left|cbn; unfold fin, Umalloc.HSIZE; cbn; lia]|].
  eapply rtc_l; [|apply rtc_refl].
  apply (u_free 8192 _ _ (49120, 4) toy_heap3 toy_heap4); [apply Permutation_swap|reflexivity].
Defined.

Lemma umalloc_safe_witness :
  pairwise [(49008, 14)] /\
  (forall nbytes, 0 <= nbytes -> nbytes + 16 <= Umalloc.KERNBASE ->
     exists r h', Umalloc.malloc 8192 nbytes toy_heap4 = Ok r h' /\
       (r = 0 \/ exists s, pairwise ((r - 8, s) :: [(49008, 14)]) /\ nbytes + 8 <= 8 * s /\ r - 8 + 8 * s <= Umalloc.brk h')) /\
  (forall b, b ∈ [(49008, 14)] -> exists h', Umalloc.free (b.1 + 8) toy_heap4 = Ok tt h').
Proof. exact (umalloc_safe 8192 toy_heap0 _ _ toy_heap_new toy_heap_run). Defined.

Lemma malloc_wraps_witness : Umalloc.units 4294967295 = 1.
Proof. apply malloc_wraps. lia. Defined.

(** ** An address space *)

Import Kalloc Vm.

Definition toy_kdata : Z := KERNLINK + 8192.

Definition vend : Z := KERNBASE + 4194304 + 4096 * 200.

(** 200 pages from [KERNBASE] + 4 MB on. *)
Definition toy_free : list Z := reverse (range_pages (KERNBASE + 4194304) 200).

Lemma toy_pages : exists s, freerange_loop toy_kend 300 (KERNBASE + 4194304) vend boot_kmem = Ok tt s /\
  msec ∅ (kmach s) /\ kmem_ok toy_kend toy_free s.
Proof.
  destruct (wp_total (freerange_loop toy_kend 300 (KERNBASE + 4194304) vend) boot_kmem
    (fun _ s => msec ∅ (kmach s) /\ kmem_ok toy_kend toy_free s)) as ([] & s & Hr & H); [|exists s; split; [exact Hr|exact H]].
  assert (range_end (KERNBASE + 4194304) vend = 200%nat) as He by reflexivity.
  apply (wp_freerange_loop toy_kend _ ∅ _ _ _ []); rewrite ?He.
  - apply toy_mach_sec.
  - set_solver.
  - constructor; [done|constructor|constructor].
  - vm_compute. discriminate.
  - vm_compute. discriminate.
  - reflexivity.
  - vm_compute. discriminate.
  - lia.
  - vm_compute. discriminate.
  - intros x _ H. by apply not_elem_of_nil in H.
  - intros s Hs _ Hk _. rewrite app_nil_r in Hk. by split.
Qed.

Lemma toy_hyps : KERNBASE < toy_kend /\ KERNLINK < toy_kdata < KERNBASE + PHYSTOP /\ toy_kdata mod PGSIZE = 0.
Proof. by vm_compute. Qed.

(** The memory after [kinit], and a page table with one user page. *)
Definition toy_ust (l : list Z) (s : kmst) (pd : Z) (T : gmap Z Z) (U : gmap Z (Z * Z)) : Prop :=
  ust toy_kend ∅ l s pd T U (kernel_entry toy_kdata) [].

Lemma toy_space : exists l s pd T pg, toy_ust l s pd T {[0 := (pg, 7)]}.
Proof.
  destruct toy_pages as (s0 & _ & Hs0 & Hk0). destruct toy_hyps as (H1 & H2 & H3).
  assert (length toy_free = 200%nat) as Hl by reflexivity.
  destruct (wp_total (pd ← setupkvm toy_kend toy_kdata; allocuvm toy_kend pd 0 4096;; mret pd) s0
    (fun pd s => exists l T pg, toy_ust l s pd T {[0 := (pg, 7)]}))
    as (pd & s & _ & l & T & pg & H); [|exists l, s, pd, T, pg; exact H].
  assert (Lkmem ∉ (∅ : gset lockid)) as Hls by set_solver.
  wp_next. apply (wp_setupkvm toy_kend toy_kdata ∅ Hls H1 H2 H3 _ toy_free s0 []);
    [exact Hs0|exact Hk0|apply Hk0|constructor| |].
  { rewrite Hl. unfold KPAGES. lia. }
  intros pd T l1 s1 L1 U1 B1 _. rewrite Hl in L1. unfold KPAGES in L1. wp_next.
  eapply (wp_allocuvm toy_kend ∅ Hls H1); [exact U1|unfold KERNBASE; lia|lia| |unfold KERNBASE; lia|lia| |].
  - intros w _. apply lookup_empty.
  - intros l2 s2 T2 U2 _ US2 M2 [F1 F2] _. apply wp_ret. change (pages 0) with 0 in *. change (pages 4096) with 1 in *.
    destruct (F2 0 ltac:(lia)) as (pg & E & _). assert (U2 = {[0 := (pg, 7)]}) as ->.
    { apply map_eq. intros w. destruct (decide (w = 0)) as [->|Hne]; [by rewrite lookup_singleton_eq|].
      rewrite lookup_singleton_ne by done. rewrite F1 by lia. apply lookup_empty. }
    exists l2, T2, pg. exact US2.
  - change (pages 0) with 0. change (pages 4096) with 1. lia.
Qed.

Lemma allocuvm_correct_witness : exists l s pd T U r l' s' T' U',
  allocuvm toy_kend pd 4096 12288 s = Ok r s' /\
    ust toy_kend ∅ l' s' pd T' U' (kernel_entry toy_kdata) [] /\ umoved l s pd T U l' s' T' U' /\
    ((r = 12288 /\ filled U U' (pages 4096) (pages 12288) (kphys s')) \/
     (r = 0 /\ U' = U /\ Z.of_nat (length l) < 2 * (pages 12288 - pages 4096))).
Proof.
  destruct toy_space as (l & s & pd & T & pg & US). exists l, s, pd, T, {[0 := (pg, 7)]}.
  apply (allocuvm_correct toy_kend l s pd T {[0 := (pg, 7)]} (kernel_entry toy_kdata) [] 4096 12288);
    [apply toy_hyps|exact US|lia|reflexivity|].
  intros w Hw. change (pages 4096) with 1 in Hw. apply lookup_singleton_ne. lia.
Defined.

Lemma deallocuvm_correct_witness : exists l s pd T pg l' s',
  deallocuvm toy_kend pd 4096 0 s = Ok 0 s' /\
    ust toy_kend ∅ l' s' pd T (ucut {[0 := (pg, 7)]} (pages 0) (pages 4096)) (kernel_entry toy_kdata) [] /\
    umoved l s pd T {[0 := (pg, 7)]} l' s' T (ucut {[0 := (pg, 7)]} (pages 0) (pages 4096)).
Proof.
  destruct toy_space as (l & s & pd & T & pg & US). exists l, s, pd, T, pg.
  apply (deallocuvm_correct toy_kend l s pd T {[0 := (pg, 7)]} (kernel_entry toy_kdata) [] 4096 0);
    [apply toy_hyps|exact US|lia|unfold KERNBASE; lia].
Defined.

Lemma copyuvm_correct_witness : exists l s pd T U r s',
  copyuvm toy_kend toy_kdata pd 4096 s = Ok r s' /\
    ((r = 0 /\ Z.of_nat (length l) < KPAGES + 2 * pages 4096 /\ exists l', released toy_kend ∅ [] l s l' s') \/
     (r ≠ 0 /\ exists l' Td Ud, ust toy_kend ∅ l' s' r Td Ud (kernel_entry toy_kdata) (in_use pd T U []) /\
        built l s r Td Ud l' s' /\
        (forall va, 0 <= va < 4096 * pages 4096 -> uread (kphys s') Ud va = uread (kphys s) U va) /\
        (forall w, 0 <= w -> snd <$> Ud !! w = if decide (w < pages 4096) then snd <$> U !! w else None) /\
        (forall p x, p ∈ in_use pd T U [] -> in_page p x -> kphys s' x = kphys s x) /\
        (forall p, p ∈ upages Ud -> p ∉ in_use pd T U []))).
Proof.
  destruct toy_space as (l & s & pd & T & pg & US). destruct toy_hyps as (H1 & H2 & H3).
  exists l, s, pd, T, {[0 := (pg, 7)]}.
  apply (copyuvm_correct toy_kend toy_kdata l s pd T {[0 := (pg, 7)]} (kernel_entry toy_kdata) [] 4096);
    [exact H1|exact H2|exact H3|exact US|unfold KERNBASE; lia|].
  intros w Hw. change (pages 4096) with 1 in Hw. assert (w = 0) as -> by lia. rewrite lookup_singleton_eq. eauto.
Defined.

Lemma setupkvm_freevm_witness : exists s pd l1 s1 T l2 s2,
    setupkvm toy_kend toy_kdata s = Ok pd s1 /\ ust toy_kend ∅ l1 s1 pd T ∅ (kernel_entry toy_kdata) [] /\
    built toy_free s pd T ∅ l1 s1 /\
    freevm toy_kend pd s1 = Ok tt s2 /\ kmem_ok toy_kend l2 s2 /\ l2 ≡ₚ toy_free.
Proof.
  destruct toy_pages as (s & _ & Hs & Hk). destruct toy_hyps as (H1 & H2 & H3). exists s.
  apply (setupkvm_freevm toy_kend toy_kdata toy_free s H1 H2 H3 Hs Hk). vm_compute. discriminate.
Defined.

Lemma copyout_correct_witness : exists l s pd T U s',
  copyout pd 100 [7; 8; 9] s = Ok 0 s' /\ ust toy_kend ∅ l s' pd T U (kernel_entry toy_kdata) [] /\
    (forall a, uread (kphys s') U a = over 100 [7; 8; 9] (uread (kphys s) U) a) /\
    (forall x, (forall p, p ∈ upages U -> ~ in_page p x) -> kphys s' x = kphys s x).
Proof.
  destruct toy_space as (l & s & pd & T & pg & US). exists l, s, pd, T, {[0 := (pg, 7)]}.
  apply (copyout_correct toy_kend l s pd T {[0 := (pg, 7)]} (kernel_entry toy_kdata) [] 100 [7; 8; 9]);
    [apply toy_hyps|exact US|lia|vm_compute; discriminate|].
  intros w Hw1 Hw2. change (100 / 4096) with 0 in Hw1. cbn [length] in Hw2. assert (w = 0) as -> by lia.
  exists pg, 7. split; [apply lookup_singleton_eq|vm_compute; discriminate].
Defined.

(** A page table without tables, in a memory whose first word is 7. *)
Definition null_mem : kmst := mkKm toy_mach (fun x => if x =? 0 then 7 else 0) 1 0.

Lemma null_ust : ust toy_kend ∅ [] null_mem (KERNBASE + 4194304) ∅ ∅ (fun _ => 0) [].
Proof.
  split; [|intros w pg f; by rewrite lookup_empty]. constructor.
  - apply toy_mach_sec.
  - constructor; [reflexivity|constructor|constructor].
  - constructor; [intros i pt; by rewrite lookup_empty|]. intros i Hi _. cbn [kphys null_mem]. unfold load32.
    assert (forall x, 0 < x -> (if x =? 0 then 7 else 0) = 0) as Hz by (intros x Hx; by rewrite (proj2 (Z.eqb_neq x 0)) by lia).
    rewrite !Hz by (unfold KERNBASE; lia). reflexivity.
  - intros v Hv. unfold entry, uent. rewrite !lookup_empty. by case_decide.
  - cbn. apply NoDup_singleton.
  - cbn. constructor; [|constructor]. constructor; vm_compute; (discriminate || reflexivity).
Qed.

Lemma uva2ka_null_witness : uva2ka (KERNBASE + 4194304) (4096 * 5) null_mem = Ok (P2V (4096 * 0)) null_mem.
Proof.
  apply (uva2ka_null toy_kend [] null_mem (KERNBASE + 4194304) ∅ ∅ (fun _ => 0) [] 5 0);
    [apply null_ust|by split|apply lookup_empty|reflexivity].
Defined.
