(* ===== verification/FsExamples.v ===== *)
(** * A small file system

    A disk laid out as mkfs.c does (boot block, superblock, 30 blocks of log,
    two blocks of inodes, the bitmap, 25 blocks of data), with an empty file and
    an empty directory on it; the buffer cache after [binit], the log after
    [initlog], and the theorems about the log and the file system on them. *)

From stdpp Require Import base numbers gmap sets list strings.
From S2P Require Import Prelude CString Spinlock Sleeplock Bio BioRing BioSpec.
From S2P Require Import Log LogSpec LogThms LogTxn.
From S2P Require Import Fs FsBlock FsAlloc FsFile FsInode FsDinode FsRW FsTrunc FsIcache FsDir FsLog FsTxn.
From S2P Require Import Examples.
Open Scope Z_scope.

Definition toy_sb : superblock := mkSb 60 25 16 30 2 32 34.

Definition zero_block : list Z := replicate 512 0.

Definition file_dinode : dinode := mkDi T_FILE 0 0 1 0 (replicate 13 0).
Definition dir_dinode : dinode := mkDi T_DIR 0 0 1 0 (replicate 13 0).

(** Inode 1 is the directory, inode 2 the file. *)
Definition inode_block : list Z :=
  put_dinode 128 file_dinode (put_dinode 64 dir_dinode zero_block).

(** Blocks 0 to 34 are in use. *)
Definition bitmap_block : list Z := [255; 255; 255; 255; 7] ++ replicate 507 0.

Definition toy_disk : list (list Z) :=
  replicate 32 zero_block ++ [inode_block; zero_block; bitmap_block] ++ replicate 25 zero_block.

Definition toy_booted : mach * bio :=
  match binit (toy_mach, mkBio bufs0 toy_disk []) with
  | Ok _ s => s
  | _ => (toy_mach, mkBio bufs0 toy_disk [])
  end.

Definition toy_log (n : Z) : lst := mkL toy_booted.2 2 30 n 0 1 0 (replicate 30 0).

Definition toy_a : acache := mkA toy_disk ∅ ∅ toy_disk [].

Definition dir_inode : inode := mkI 1 1 1 (mkSl 0 "inode" 0) 1 dir_dinode.
Definition file_inode : inode := mkI 1 2 1 (mkSl 0 "inode" 0) 1 file_dinode.

Definition toy_fs (n : Z) : fs lst := mkFs (toy_log n) ([dir_inode; file_inode] ++ replicate 48 inode0).

Lemma toy_disk_len : Forall (fun b => length b = Z.to_nat BSIZE) toy_disk.
Proof. repeat (constructor; [reflexivity|]); constructor. Qed.

Lemma toy_booted_ok : msec ∅ toy_booted.1 /\ cacheR toy_a toy_booted.2.
Proof.
  destruct (binit_correct toy_mach toy_disk toy_mach_sec toy_disk_len) as (m & st & E & Hm & HR & _).
  unfold toy_booted. rewrite E. split; [apply Hm|done].
Qed.

Lemma toy_log_rep n : log_rep (toy_log n) toy_a [].
Proof.
  constructor; cbn [toy_log toy_a aheld apin ldev lhn lhblock lstart lsize length lbio].
  - apply toy_booted_ok.
  - reflexivity.
  - reflexivity.
  - reflexivity.
  - reflexivity.
  - reflexivity.
  - reflexivity.
  - apply NoDup_nil_2.
  - intros b Hb. by apply not_elem_of_nil in Hb.
  - lia.
  - lia.
  - vm_compute. discriminate.
  - vm_compute. reflexivity.
Qed.

(** ** The log *)

Definition toy_tstate : tstate := mkT toy_booted.1 (toy_log 0) [].

Lemma toy_started : log_started toy_tstate.
Proof.
  split; [done|]. exists toy_a. constructor; cbn [t_mach t_log t_ops toy_tstate].
  - apply toy_booted_ok.
  - apply toy_log_rep.
  - reflexivity.
  - reflexivity.
  - constructor.
  - simpl. lia.
  - reflexivity.
  - reflexivity.
  - vm_compute. discriminate.
Qed.

(** A transaction that fills block 40. *)
Definition done_with {S A} (s : S) (r : res S A) : S :=
  match r with Ok _ s' => s' | _ => s end.

Definition fill (d : list Z) : list Z := (fun _ => 7) <$> d.

Definition toy1 : mach * lst := done_with (t_mach toy_tstate, t_log toy_tstate) (begin_op (t_mach toy_tstate, t_log toy_tstate)).
Definition toy2 : mach * lst := done_with toy1 (op_write 1 40 fill toy1).
Definition toy3 : mach * lst := done_with toy2 (end_op 1 toy2).

Definition toy_s1 : tstate := mkT toy1.1 toy1.2 [0%nat].
Definition toy_s2 : tstate := mkT toy2.1 toy2.2 [1%nat].
Definition toy_s3 : tstate := mkT toy3.1 toy3.2 [].

Definition toy_tr2 : list label := [LBegin; LWrite 40 fill].
Definition toy_tr3 : list label := [LBegin; LWrite 40 fill; LEnd].

Lemma toy_step1 : tstep LBegin toy_tstate toy_s1.
Proof. apply t_begin. vm_compute. reflexivity. Qed.

Lemma toy_step2 : tstep (LWrite 40 fill) toy_s1 toy_s2.
Proof.
  apply (t_write 1 40 fill toy1.1 toy1.2 [] 0 [] toy2.1 toy2.2).
  - vm_compute. split; [by split|by right].
  - intros d Hd. unfold fill. by rewrite length_fmap.
  - vm_compute. lia.
  - vm_compute. reflexivity.
Qed.

Lemma toy_step3 : tstep LEnd toy_s2 toy_s3.
Proof. apply (t_end 1 toy2.1 toy2.2 [] 1 [] toy3.1 toy3.2). vm_compute. reflexivity. Qed.

Lemma toy_run2 : trun toy_tr2 toy_tstate toy_s2.
Proof.
  apply (trun_snoc [LBegin] (LWrite 40 fill) _ toy_s1); [|apply toy_step2].
  apply (trun_snoc [] LBegin _ toy_tstate); [constructor|apply toy_step1].
Qed.

Lemma toy_run3 : trun toy_tr3 toy_tstate toy_s3.
Proof. apply (trun_snoc toy_tr2 LEnd _ _ _ toy_run2 toy_step3). Qed.

Lemma log_refines_spec_witness :
  let σ := spec_run toy_tr3 (spec_of toy_tstate) in
  exists a bs, cacheR a (lbio (t_log toy_s3)) /\ apin a = list_to_set bs /\
    s_open σ = length (t_ops toy_s3) /\
    (forall b, t_home toy_s3 b -> a_get b a = s_mem σ b /\ blk (disk (lbio (t_log toy_s3))) b = s_dsk σ b) /\
    (t_ops toy_s3 = [] -> bs = []).
Proof. exact (log_refines_spec toy_tr3 toy_tstate toy_s3 toy_started toy_run3). Defined.

Lemma log_crash_safe_witness :
  let σ := spec_run toy_tr2 (spec_of toy_tstate) in
  exists W, dwrites (lbio (t_log toy_s3)) = dwrites (lbio (t_log toy_s2)) ++ W /\
    forall ws, ws `prefix_of` W ->
      let d := recovered (lstart (t_log toy_s2)) (apply_writes ws (disk (lbio (t_log toy_s2)))) in
      (forall b, t_home toy_s2 b -> blk d b = s_dsk σ b) \/
      (forall b, t_home toy_s2 b -> blk d b = s_dsk (spec_do LEnd σ) b).
Proof. exact (log_crash_safe toy_tr2 LEnd toy_tstate toy_s2 toy_s3 toy_started toy_run2 toy_step3). Defined.

(** Recovery of a disk on which a transaction had been committed: the header
    says that block 3 of the log goes to block 40. *)
Definition crashed_disk : list (list Z) :=
  <[3%nat := fill zero_block]> (<[2%nat := put32 4 40 (put32 0 1 zero_block)]> toy_disk).

Definition crashed_booted : mach * bio :=
  done_with (toy_mach, mkBio bufs0 crashed_disk []) (binit (toy_mach, mkBio bufs0 crashed_disk [])).

Definition crashed_log : lst := mkL crashed_booted.2 0 0 0 0 0 0 (replicate 30 0).

Lemma crashed_ok : msec ∅ crashed_booted.1 /\ cacheR (mkA crashed_disk ∅ ∅ crashed_disk []) crashed_booted.2.
Proof.
  destruct (binit_correct toy_mach crashed_disk toy_mach_sec) as (m & st & E & Hm & HR & _).
  - repeat (constructor; [reflexivity|]); constructor.
  - unfold crashed_booted. rewrite E. split; [apply Hm|done].
Qed.

Lemma crashed_head : head_ok 2 30 crashed_disk.
Proof.
  constructor; [lia|vm_compute; split; discriminate|vm_compute; reflexivity|vm_compute; discriminate| |].
  - replace (head_list (blk crashed_disk 2)) with [40] by (vm_compute; reflexivity).
    intros b ->%list_elem_of_singleton. vm_compute. split; [by split|by right].
  - replace (head_list (blk crashed_disk 2)) with [40] by (vm_compute; reflexivity). apply NoDup_singleton.
Qed.

Lemma initlog_recovers_witness :
  exists m' l', initlog 1 1 2 30 (crashed_booted.1, crashed_log) = Ok tt (m', l') /\ msec ∅ m' /\
    disk (lbio l') = recovered 2 crashed_disk /\ dwrites (lbio l') = recover_writes 2 crashed_disk /\
    lhn l' = 0 /\ lstart l' = 2 /\ lsize l' = 30 /\
    cacheR (mkA (recovered 2 crashed_disk) ∅ ∅ (recovered 2 crashed_disk) (recover_writes 2 crashed_disk)) (lbio l').
Proof.
  exact (initlog_recovers 1 crashed_booted.1 crashed_log crashed_disk 2 30 (proj1 crashed_ok) (proj2 crashed_ok)
    eq_refl crashed_head).
Defined.

(** ** The file system *)

Definition toy_k : blks := blks_of (toy_log 1) toy_a [].

Lemma toy_geom n : geom toy_sb (blks_of (toy_log n) toy_a []).
Proof.
  constructor; try (vm_compute; done); [vm_compute; by split..|]. apply toy_disk_len.
Qed.

Lemma toy_meta : meta_used toy_sb toy_disk.
Proof.
  intros b Hb. change (data0 toy_sb) with 35 in Hb.
  assert (Forall (fun b => used toy_sb toy_disk b = true) (seqZ 0 35)) as H
    by (repeat (constructor; [vm_compute; reflexivity|]); constructor).
  rewrite Forall_forall in H. apply H, elem_of_seqZ. lia.
Qed.

Lemma toy_rich c f n : (c <= 27)%nat -> (f <= 25)%nat ->
  ~ poor toy_sb (bm_set toy_sb) c f (blks_of (toy_log n) toy_a []).
Proof.
  intros Hc Hf. unfold poor, short.
  assert (size (k_logged (blks_of (toy_log n) toy_a []) ∪ bm_set toy_sb) = 1%nat) as -> by (vm_compute; reflexivity).
  assert (nfree toy_sb (blks_of (toy_log n) toy_a []) = 25%nat) as -> by (vm_compute; reflexivity).
  assert (k_cap (blks_of (toy_log n) toy_a []) = 29%nat) as -> by (vm_compute; reflexivity). lia.
Qed.

Lemma toy_b_rep : b_rep (BlockLaws := log_laws 1) (toy_log 1) toy_k.
Proof. exists toy_a, []. apply rep_log_in; [apply toy_log_rep|done|done]. Qed.

Lemma toy_file_ok l : l = replicate 13 0 -> file_ok toy_sb toy_disk l.
Proof. intros ->. apply empty_file. Qed.

Lemma toy_file : file_st (BW := log_laws 1) toy_sb (toy_fs 1) toy_k 1 file_inode.
Proof.
  constructor; [apply toy_b_rep|apply toy_geom|apply toy_meta|done|done|done|by apply toy_file_ok].
Qed.

Definition no_devs (major : Z) : devsw (X := lst) := mkDevsw None None.

Lemma toy_whole : whole toy_disk (replicate 13 0) 0.
Proof. split; [by split|]. intros bn Hb. unfold BSIZE. lia. Qed.

Lemma toy_dir : dir_st (BW := log_laws 1) toy_sb (toy_fs 1) toy_k 0 dir_inode 0.
Proof.
  constructor; [|done|done|lia|].
  - constructor; [apply toy_b_rep|apply toy_geom|apply toy_meta|done|done|done|by apply toy_file_ok].
  - apply toy_whole.
Qed.

Lemma toy_dinode_ok t : t = file_dinode \/ t = dir_dinode -> dinode_ok t.
Proof. intros [-> | ->]; (constructor; [by split..|done|]; by repeat constructor). Qed.

Lemma toy_ready : txn_ready toy_sb toy_booted.1 (toy_fs 0) toy_a 1 file_inode.
Proof.
  constructor; [apply toy_booted_ok|apply toy_log_rep|done|done|apply toy_geom|apply toy_meta|done|done
    |by apply toy_file_ok|by split|apply toy_dinode_ok; by left|done|apply toy_whole|].
  vm_compute. reflexivity.
Qed.

Definition msg : list Z := [104; 105; 10].

Lemma write_crash_safe_witness :
  let D := disk (lbio (fblk (toy_fs 0))) in
  let src' := take (Z.to_nat 3) msg in
  exists m' s' i' W,
    write_op 1 toy_sb no_devs 1 msg 0 3 (toy_booted.1, toy_fs 0) = Ok 3 (m', s') /\
    icache s' = <[1%nat := i']> (icache (toy_fs 0)) /\
    d_size (i_d i') = Z.max (d_size (i_d file_inode)) (0 + 3) /\
    disk (lbio (fblk s')) = apply_writes W D /\
    file_on toy_sb (apply_writes W D) (i_num file_inode) (i_d i') (over 0 src' (fbyte D (addrs file_inode))) /\
    forall ws, ws `prefix_of` W ->
      crash_file toy_sb D (recovered (lstart (fblk (toy_fs 0))) (apply_writes ws D)) file_inode i' 0 src'.
Proof.
  apply (write_crash_safe 1 toy_sb no_devs toy_booted.1 (toy_fs 0) toy_a 1 file_inode msg 0 3);
    [apply toy_ready|by split|by split|done|apply toy_rich; vm_compute; lia].
Defined.

Lemma writei_readi_witness :
  exists m' s' k' i' s1 m1,
    (r ← writei (BL := log_layer 1) toy_sb no_devs 1 msg 0 3;
     q ← readi (BL := log_layer 1) toy_sb no_devs 1 0 3; mret (r, q)) (toy_booted.1, toy_fs 1) =
      Ok (3, (3, take (Z.to_nat 3) msg)) (m', s') /\
    wrote (BW := log_laws 1) toy_sb (bm_set toy_sb) (4 * copy_fuel 3 + 1) (2 * copy_fuel 3) toy_booted.1 (toy_fs 1) toy_k
      1 file_inode 0 (take (Z.to_nat 3) msg) m1 s1 k' i' /\
    file_st (BW := log_laws 1) toy_sb s' k' 1 i' /\ icache s' = <[1%nat := i']> (icache (toy_fs 1)).
Proof.
  apply (writei_readi (BW := log_laws 1) toy_sb no_devs toy_booted.1 (toy_fs 1) toy_k 1 file_inode msg 0 3);
    [apply toy_booted_ok|apply toy_file|by split|apply toy_dinode_ok; by left|done|apply toy_whole|by split|by split|done|
     apply toy_rich; vm_compute; lia].
Defined.

Lemma itrunc_correct_witness :
  exists m' s' k', itrunc (BL := log_layer 1) toy_sb 1 (toy_booted.1, toy_fs 1) = Ok tt (m', s') /\
    truncated (BW := log_laws 1) toy_sb toy_booted.1 (toy_fs 1) toy_k 1 file_inode m' s' k'.
Proof.
  apply (itrunc_correct (BW := log_laws 1) toy_sb toy_booted.1 (toy_fs 1) toy_k 1 file_inode);
    [apply toy_booted_ok|apply toy_file|by split|apply toy_dinode_ok; by left|apply toy_rich; lia].
Defined.

Lemma iput_correct_witness :
  exists m' s' i' k', iput (BL := log_layer 1) 1 toy_sb 1 (toy_booted.1, toy_fs 1) = Ok tt (m', s') /\
    quiet ∅ toy_booted.1 m' /\
    icache s' = <[1%nat := i']> (icache (toy_fs 1)) /\ i_ref i' = i_ref file_inode - 1 /\ unlocked i' /\
    b_rep (BlockLaws := log_laws 1) (fblk s') k' /\
    ((last_ref file_inode /\ reclaimed toy_sb toy_k file_inode k' /\ i_valid i' = 0) \/
     (~ last_ref file_inode /\ k' = toy_k /\ i_d i' = i_d file_inode)).
Proof.
  apply (iput_correct (BW := log_laws 1) 1 toy_sb toy_booted.1 (toy_fs 1) toy_k 1 file_inode);
    [apply toy_booted_ok|apply toy_file|by split|apply toy_dinode_ok; by left|done|apply toy_rich; lia].
Defined.

Lemma dirlink_dirlookup_witness :
  exists m' s' k' i' sz' ip e o en,
    (r ← dirlink (BL := log_layer 1) 1 toy_sb no_devs 0 [97] 2 (replicate 16 0);
     q ← dirlookup (BL := log_layer 1) toy_sb no_devs 0 [97]; mret (r, q)) (toy_booted.1, toy_fs 1) =
      Ok (0, Some (ip, o)) (m', s') /\
    icache s' !! ip = Some e /\ is_for 1 2 e /\ b_rep (BlockLaws := log_laws 1) (fblk s') k' /\
    dir_find (k_data k') (addrs i') (DESIZE * sz') [97] = Some (2, o) /\ names [97] en = true /\
    forall name', names name' en = false ->
      dir_find (k_data k') (addrs i') (DESIZE * sz') name' = dir_find (k_data toy_k) (addrs dir_inode) (DESIZE * 0) name'.
Proof.
  apply (dirlink_dirlookup (BW := log_laws 1) 1 toy_sb no_devs toy_booted.1 (toy_fs 1) toy_k 0 dir_inode 0 [97] 2
    (replicate 16 0) 2 inode0);
    [apply toy_booted_ok|apply toy_dir|by split|apply toy_dinode_ok; by right|done|reflexivity|by split|
     apply toy_rich; lia|vm_compute; discriminate|reflexivity|reflexivity|discriminate].
Defined.
