(* ===== verification/WorldExamples.v ===== *)
(** * A file system as mkfs leaves it, and calls on it

    A disk with a root directory that holds [.], [..] and an empty file [f]; one
    process, in the root directory.  The theorems on system calls applied to it, and
    runs that go wrong: a link to [/.] waits for ever, [..] in a removed directory ends in
    a panic, and so does a read of a root directory that mkfs has left with a hole. *)

From stdpp Require Import base numbers gmap sets list strings.
From S2P Require Import Prelude CString Spinlock Sleeplock Bio BioRing BioSpec.
From S2P Require Import Log LogSpec LogThms LogTxn Pipe File Fs FsBlock FsAlloc FsFile FsInode FsDinode FsRW FsTrunc FsIcache FsDir.
From S2P Require Import SysFile FsNames FsCheck FsCache FsOps FsTree FsCalls FsCreate FsRun FsLog FsWorld.
From S2P Require Import Examples FsExamples.
Open Scope Z_scope.

(** ** The disk *)

Definition ent_dot : list Z := new_entry DOT 1 (replicate 16 0).
Definition ent_dotdot : list Z := new_entry DOTDOT 1 (replicate 16 0).
Definition ent_f : list Z := new_entry [102] 2 (replicate 16 0).

Definition root_addrs : list Z := 35 :: replicate 12 0.
Definition root_dinode : dinode := mkDi T_DIR 0 0 1 512 root_addrs.

Definition mk_inodes : list Z := put_dinode 128 file_dinode (put_dinode 64 root_dinode zero_block).
Definition mk_root : list Z := ent_dot ++ ent_dotdot ++ ent_f ++ replicate 464 0.

(** Blocks 0 to 35 are in use. *)
Definition mk_bitmap : list Z := [255; 255; 255; 255; 15] ++ replicate 507 0.

Definition mk_disk : list (list Z) :=
  replicate 32 zero_block ++ [mk_inodes; zero_block; mk_bitmap; mk_root] ++ replicate 24 zero_block.

Definition mk_booted : mach * bio := done_with (toy_mach, mkBio bufs0 mk_disk []) (binit (toy_mach, mkBio bufs0 mk_disk [])).

Definition mk_log : lst := mkL mk_booted.2 2 30 0 0 1 0 (replicate 30 0).

Definition root_inode : inode := mkI 1 1 1 (mkSl 0 "inode" 0) 0 dinode0.

Definition mk_state : mach * fs lst := (mk_booted.1, mkFs mk_log (root_inode :: replicate 49 inode0)).

Definition mk_users : users := mkUsers [0%nat] [].

(** ** Two runs *)

Definition path (s : string) : list Z := (fun c => Z.of_N (Ascii.N_of_ascii c)) <$> String.list_ascii_of_string s.

#[local] Instance ex_layer : BlockLayer lst := w_layer 1.
#[local] Instance ex_txn : TxnLayer lst := w_txn 1.

Definition do_call (u : users) (p : nat) (cl : call) : M (mach * fs lst) users :=
  run 1 toy_sb no_devs (replicate 14 0) (replicate 16 0) (fun _ _ _ => mret (-1)) u p cl.

Fixpoint do_calls (u : users) (l : list (nat * call)) : M (mach * fs lst) users :=
  match l with
  | [] => mret u
  | (p, cl) :: l => u' ← do_call u p cl; do_calls u' l
  end.

(** A link to [/.] deadlocks: [dirlink] finds the directory itself and [iput] waits for
    its lock, which [sys_link] holds. *)
Example link_dot_blocks : do_call mk_users 0 (CLink (path "/f") (path "/.")) mk_state = Blocked.
Proof. vm_compute. reflexivity. Qed.

(** A current directory can be removed, and then its parent; [..] in it names an
    inode that is not in use any more, and to open it makes the kernel panic. *)
Example rmdir_cwd_panics :
  do_calls mk_users [(0%nat, CMkdir (path "/a")); (0%nat, CMkdir (path "/a/b")); (0%nat, CFork); (0%nat, CChdir (path "a/b"));
    (1%nat, CUnlink (path "/a/b")); (1%nat, CUnlink (path "/a")); (0%nat, COpen (path "..") O_RDONLY true)] mk_state = Panic "ilock: no type".
Proof. vm_compute. reflexivity. Qed.

(** ** The disk is consistent *)

Definition mk_a : acache := mkA mk_disk ∅ ∅ mk_disk [].
Definition mk_k : blks := blks_of mk_log mk_a [].

Definition mk_ns : ns := mkNs
  (fun j => if decide (j = 1) then T_DIR else if decide (j = 2) then T_FILE else 0)
  (fun j => if decide (j = 1) then 1 else if decide (j = 2) then 1 else 0)
  (<[(1, 0) := ent_dot]> (<[(1, 16) := ent_dotdot]> {[(1, 32) := ent_f]})).

Definition mk_refs : refs := {[0%nat := (1, 1)]}.

Lemma mk_disk_len : Forall (fun b => length b = Z.to_nat BSIZE) mk_disk.
Proof. repeat (constructor; [reflexivity|]); constructor. Qed.

Lemma mk_booted_ok : msec ∅ mk_booted.1 /\ cacheR mk_a mk_booted.2.
Proof.
  destruct (binit_correct toy_mach mk_disk toy_mach_sec mk_disk_len) as (m & st & E & Hm & HR & _).
  unfold mk_booted. rewrite E. split; [apply Hm|done].
Qed.

Lemma mk_log_rep : log_rep mk_log mk_a [].
Proof.
  constructor; cbn [mk_log mk_a aheld apin ldev lhn lhblock lstart lsize length lbio];
    [apply mk_booted_ok|reflexivity..|apply NoDup_nil_2| |lia|lia|vm_compute; discriminate|vm_compute; reflexivity].
  intros b Hb. by apply not_elem_of_nil in Hb.
Qed.

Lemma mk_geom : geom toy_sb mk_k.
Proof. constructor; try (vm_compute; done); [vm_compute; by split..|]. apply mk_disk_len. Qed.

(** Facts about all numbers of a range, by evaluation. *)
Lemma by_range (f : Z -> bool) n : forallb f (seqZ 0 n) = true -> forall i, 0 <= i < n -> f i = true.
Proof. intros H i Hi. rewrite forallb_forall in H. apply H, list_elem_of_In, elem_of_seqZ. lia. Qed.

Lemma mk_meta : meta_used toy_sb mk_disk.
Proof. exact (by_range (used toy_sb mk_disk) 35 ltac:(vm_compute; reflexivity)). Qed.

Lemma mk_dead j : is_inum toy_sb j -> j ≠ 1 -> j ≠ 2 -> d_type (dinode_of toy_sb mk_disk j) = 0 /\ d_nlink (dinode_of toy_sb mk_disk j) = 0.
Proof.
  intros Hj H1 H2. pose proof (by_range (fun j => (j =? 1) || (j =? 2) ||
    ((d_type (dinode_of toy_sb mk_disk j) =? 0) && (d_nlink (dinode_of toy_sb mk_disk j) =? 0))) 16 ltac:(vm_compute; reflexivity) j Hj) as H. cbv beta in H. lia.
Qed.

Lemma mk_root_di : dinode_of toy_sb mk_disk 1 = root_dinode.
Proof. vm_compute. reflexivity. Qed.

Lemma mk_file_di : dinode_of toy_sb mk_disk 2 = file_dinode.
Proof. vm_compute. reflexivity. Qed.

Lemma mk_ity j : ity toy_sb mk_disk j = nT mk_ns j.
Proof.
  unfold ity. cbn [nT mk_ns]. destruct (decide (j = 1)) as [->|H1]; [by rewrite decide_True, mk_root_di|].
  destruct (decide (j = 2)) as [->|H2]; [by rewrite decide_True, mk_file_di|]. case_decide; [|done]. by apply mk_dead.
Qed.

Lemma mk_inl j : FsCheck.inl toy_sb mk_disk j = nN mk_ns j.
Proof.
  unfold FsCheck.inl. cbn [nN mk_ns]. destruct (decide (j = 1)) as [->|H1]; [by rewrite decide_True, mk_root_di|].
  destruct (decide (j = 2)) as [->|H2]; [by rewrite decide_True, mk_file_di|]. case_decide; [|done]. by apply mk_dead.
Qed.

Lemma mk_iad j : iad toy_sb mk_disk j = (if decide (j = 1) then root_addrs else replicate 13 0) /\ isz toy_sb mk_disk j = (if decide (j = 1) then 512 else 0).
Proof.
  unfold iad, isz. rewrite mk_ity. cbn [nT mk_ns]. destruct (decide (j = 1)) as [->|H1]; [by rewrite mk_root_di|].
  destruct (decide (j = 2)) as [->|H2]; [by rewrite mk_file_di|done].
Qed.

Lemma mk_root_addr bn : 0 <= bn -> nth_addr mk_disk root_addrs bn = if decide (bn = 0) then 35 else 0.
Proof.
  intros Hb. unfold nth_addr. change (ind root_addrs =? 0) with true. cbn [negb]. destruct (decide (bn = 0)) as [->|Hne]; [done|].
  destruct (bn <? NDIRECT); [|done]. destruct (Z.to_nat bn) as [|n] eqn:E; [lia|]. unfold root_addrs. change ((35 :: replicate 12 0) !! S n) with (replicate 12 0 !! n).
  destruct (replicate 12 0 !! n) eqn:En; [|done]. by apply lookup_replicate_1 in En as [-> _].
Qed.

Lemma mk_root_owned a : owned mk_disk root_addrs a <-> a = 35.
Proof.
  split.
  - intros [H0 [->|(bn & Hb & <-)]]; [done|]. rewrite mk_root_addr in * by apply Hb. by destruct (decide (bn = 0)).
  - intros ->. split; [done|]. right. exists 0. split; [by split|]. by rewrite mk_root_addr.
Qed.

Lemma mk_root_file : file_ok toy_sb mk_disk root_addrs.
Proof.
  split; [done|]. constructor.
  - intros bn Hb. rewrite mk_root_addr by apply Hb. destruct (decide (bn = 0)); [|done]. intros _. split; [by split|]. vm_compute. reflexivity.
  - done.
  - intros bn bn' Hb Hb'. rewrite !mk_root_addr by (apply Hb || apply Hb'). destruct (decide (bn = 0)), (decide (bn' = 0)); congruence.
  - intros bn Hb. rewrite mk_root_addr by apply Hb. by destruct (decide (bn = 0)).
Qed.

Lemma mk_blocks : blocks_ok toy_sb mk_disk.
Proof.
  constructor.
  - intros j. rewrite mk_ity. cbn [nT mk_ns]. destruct (decide (j = 1)) as [->|H1]; [rewrite mk_root_di; intros _; constructor; [by split..|done|by repeat constructor]|].
    destruct (decide (j = 2)) as [->|H2]; [rewrite mk_file_di; intros _; apply toy_dinode_ok; by left|done].
  - intros j. rewrite (proj1 (mk_iad j)). destruct (decide (j = 1)); [apply mk_root_file|apply empty_file].
  - intros j. destruct (mk_iad j) as [-> ->]. destruct (decide (j = 1)); [|apply whole_nil]. split; [by split|].
    intros bn Hb Hlt. assert (bn = 0) as -> by (unfold BSIZE in *; lia). by rewrite mk_root_addr.
  - intros j j' a. rewrite (proj1 (mk_iad j)), (proj1 (mk_iad j')).
    destruct (decide (j = 1)) as [->|], (decide (j' = 1)) as [->|]; [done|intros _ H; by apply empty_owned in H|intros H; by apply empty_owned in H..].
  - intros a Ha Hu. exists 1. rewrite (proj1 (mk_iad 1)), decide_True by done. apply mk_root_owned.
    pose proof (by_range (fun a => (a <=? 35) || negb (used toy_sb mk_disk a)) 60 ltac:(vm_compute; reflexivity) a) as H.
    change (data0 toy_sb) with 35 in Ha. change (sb_size toy_sb) with 60 in Ha. cbv beta in H. rewrite Hu in H. lia.
Qed.

Lemma mk_entries d o v : nG mk_ns !! (d, o) = Some v -> d = 1 /\ (o = 0 /\ v = ent_dot \/ o = 16 /\ v = ent_dotdot \/ o = 32 /\ v = ent_f).
Proof.
  cbn [nG mk_ns]. intros [[[= <- <-] <-]|[_ [[[= <- <-] <-]|[_ [[= <- <-] <-]%lookup_singleton_Some]]%lookup_insert_Some]]%lookup_insert_Some; tauto.
Qed.

Lemma mk_graph : graph_ok toy_sb mk_disk (nG mk_ns).
Proof.
  assert (forall d, ity toy_sb mk_disk d = T_DIR -> d = 1) as Hd.
  { intros d. rewrite mk_ity. cbn [nT mk_ns]. repeat case_decide; done. }
  assert (isz toy_sb mk_disk 1 = DESIZE * 32 /\ iad toy_sb mk_disk 1 = root_addrs) as [Es Ea] by (destruct (mk_iad 1) as [-> ->]; done).
  constructor.
  - intros d o v. split.
    + intros [-> Hv]%mk_entries. unfold is_ent. rewrite Es, Ea. split_and!; [by rewrite mk_ity| |..].
      * apply elem_dir_offs; [done|]. destruct Hv as [[-> _]|[[-> _]|[-> _]]]; [exists 0|exists 1|exists 2]; unfold DESIZE; lia.
      * destruct Hv as [[-> ->]|[[-> ->]|[-> ->]]]; vm_compute; reflexivity.
      * destruct Hv as [[_ ->]|[[_ ->]|[_ ->]]]; vm_compute; discriminate.
    + intros (->%Hd & Ho & Ev & Hz). rewrite Es, Ea in *. apply elem_dir_offs in Ho as (u & -> & Hu); [|done]. subst v.
      assert (forallb (fun u => (de_inum (entry mk_disk root_addrs (DESIZE * u)) =? 0) ||
        bool_decide (nG mk_ns !! (1, DESIZE * u) = Some (entry mk_disk root_addrs (DESIZE * u)))) (seqZ 0 32) = true) as Hf by (vm_compute; reflexivity).
      pose proof (by_range _ 32 Hf u Hu) as H.
      cbv beta in H. apply orb_prop in H as [H|H]; [lia|]. by apply bool_decide_eq_true in H.
  - intros d ->%Hd. exists 32. split; [lia|exact Es].
Qed.

Lemma mk_disk_ok : disk_ok toy_sb mk_disk mk_ns.
Proof. constructor; [apply mk_blocks|apply mk_graph|apply mk_ity|apply mk_inl]. Qed.

Lemma mk_graph_entries d o j : (de_inum <$> nG mk_ns) !! (d, o) = Some j -> d = 1 /\ (o = 0 /\ j = 1 \/ o = 16 /\ j = 1 \/ o = 32 /\ j = 2).
Proof.
  rewrite lookup_fmap. destruct (nG mk_ns !! (d, o)) as [e|] eqn:E; [|done]. apply mk_entries in E as [-> He]. intros [= <-]. split; [done|].
  destruct He as [[-> ->]|[[-> ->]|[-> ->]]]; auto.
Qed.

Lemma mk_tree : tree mk_ns.
Proof.
  apply tree_plain; [constructor|].
  - intros d o j [-> H]%mk_graph_entries. split; [done|]. by destruct H as [[_ ->]|[[_ ->]|[_ ->]]].
  - intros d o j [_ H]%mk_graph_entries. lia.
  - intros j. cbn [nT mk_ns nN]. destruct (decide (j = 1)) as [->|H1]; [intros _; vm_compute; reflexivity|].
    destruct (decide (j = 2)) as [->|H2]; [intros _; vm_compute; reflexivity|done].
  - intros d j [-> H]%mk_graph_entries. lia.
  - intros d. cbn [nT mk_ns]. repeat case_decide; try done. subst d. intros _ _. split; vm_compute; [reflexivity|discriminate].
  - intros d p [_ H]%mk_graph_entries. assert (p = 1) as -> by lia. done.
  - intros d o c [_ H]%mk_graph_entries Ho. assert (c = 2) as -> by lia. done.
  - intros d o d' o' c [-> H]%mk_graph_entries [-> H']%mk_graph_entries Ho Ho' _. f_equal. lia.
  - intros c d. cbn [nT mk_ns]. repeat case_decide; done.
  - split_and!; [done|set_solver|]. vm_compute. reflexivity.
  - intros d e name. split; intros [_ H]%mk_entries Hn; destruct H as [[? ->]|[[? ->]|[? ->]]]; try done; revert Hn;
      [apply (names_dot_entry name 1 (replicate 16 0))|apply (names_dot_entry name 1 (replicate 16 0))]; done.
Qed.

Lemma mk_icache : cached 1 toy_sb ∅ mk_refs mk_disk (icache mk_state.2).
Proof.
  assert (forall ip i, icache mk_state.2 !! ip = Some i -> (ip = 0%nat /\ i = root_inode) \/ (mk_refs !! ip = None /\ i = inode0)) as Hic.
  { intros [|ip] i; [cbn; intros [= <-]; by left|]. change (icache mk_state.2 !! S ip) with (replicate 49 inode0 !! ip). intros [-> _]%lookup_replicate_1. right. split; [|done]. by apply lookup_singleton_None. }
  assert (forall ip n r, mk_refs !! ip = Some (n, r) -> ip = 0%nat /\ n = 1 /\ r = 1) as Hrefs by (unfold mk_refs; intros ip n r [<- [= <- <-]]%lookup_singleton_Some; done).
  constructor.
  - done.
  - intros ip i [[-> ->]|[-> ->]]%Hic; rewrite bool_decide_false by (apply not_elem_of_empty); [|split; [split; done|done]].
    change (mk_refs !! 0%nat) with (Some (1, 1)). refine (conj (conj eq_refl (conj eq_refl (conj eq_refl (conj eq_refl (conj _ _))))) eq_refl);
      [by rewrite mk_ity|by intros []].
  - intros ip Hip. destruct (mk_refs !! ip) as [[n r]|] eqn:E; [|done]. apply Hrefs in E as [-> _]. unfold NINODE. lia.
  - intros a b n r r' [-> _]%Hrefs [-> _]%Hrefs. done.
  - intros j. rewrite mk_ity, mk_inl. cbn [nT nN mk_ns]. repeat case_decide; done.
Qed.

#[local] Instance ex_laws : BlockLaws lst := w_laws 1.
#[local] Instance ex_txn_laws : TxnLaws lst := w_txn_laws 1.

Lemma mk_rest : fs_rest 1 toy_sb mk_refs mk_ns mk_k mk_state.
Proof.
  constructor; [apply mk_booted_ok| |apply mk_geom|vm_compute; discriminate|apply mk_meta|apply mk_disk_ok|apply mk_tree|apply mk_icache].
  exists mk_a. split_and!; [apply mk_log_rep|done|done|done].
Qed.

Lemma mk_holds : holds_all mk_users mk_refs mk_ns.
Proof.
  constructor.
  - intros ip. destruct (decide (ip = 0%nat)) as [->|Hne]; [done|]. unfold mk_refs. rewrite lookup_singleton_ne by done.
    unfold times. cbn. rewrite decide_False by done. done.
  - unfold mk_refs. intros cwd n r _ [_ [= <- _]]%lookup_singleton_Some. done.
Qed.

Lemma mk_consistent : consistent 1 toy_sb mk_users mk_state.
Proof. exists mk_refs, mk_ns, mk_k. split; [apply mk_rest|apply mk_holds]. Qed.

Lemma mk_sizes : sizes_ok toy_sb.
Proof. split; vm_compute; [reflexivity|discriminate]. Qed.

(** ** The theorems on it *)

Notation ex_run := (run 1 toy_sb no_devs (replicate 14 0) (replicate 16 0) (fun _ _ _ => mret (-1))).

(** Some calls, with paths from the root, and the states they lead to.  The directory [/a]
    is removed while a process is in it, and freed when the process leaves it. *)
Definition ex_calls : list (nat * call) :=
  [(0%nat, CMkdir (path "/a")); (0%nat, CFork); (1%nat, CChdir (path "/a")); (1%nat, COpen (path "/a/g") O_CREATE true);
   (0%nat, CLink (path "/a/g") (path "/h")); (0%nat, CUnlink (path "/a/g")); (0%nat, CUnlink (path "/a")); (1%nat, CChdir (path "/"))].

Lemma root_starts u H A k t p x : fs_rest 1 toy_sb H A k t -> starts u H A p (SLASH :: x).
Proof. intros HR cwd c r _ _. destruct (rs_tree _ _ _ _ _ _ HR) as [O HT]. change (start c (SLASH :: x)) with ROOTINO. by eapply root_linked, HT. Qed.

Fixpoint run_all (u : users) (t : mach * fs lst) (l : list (nat * call)) : option (users * (mach * fs lst)) :=
  match l with
  | [] => Some (u, t)
  | (p, cl) :: l => match ex_run u p cl t with Ok u' t' => run_all u' t' l | _ => None end
  end.

Lemma run_all_runs u t l s : (forall u' t' p cl, (p, cl) ∈ l -> may 1 toy_sb u' t' p cl) -> run_all u t l = Some s ->
  runs 1 toy_sb no_devs (replicate 14 0) (replicate 16 0) (fun _ _ _ => mret (-1)) u t l s.1 s.2.
Proof.
  revert u t. induction l as [|[p cl] l IH]; intros u t Hmay; cbn [run_all]; [intros [= <-]; constructor|].
  destruct (ex_run u p cl t) as [u' t'| |] eqn:E; [|done..]. intros Hs. econstructor; [apply Hmay; left|exact E|]. apply IH; [intros; apply Hmay; by right|done].
Qed.

Definition ex_state : users * (mach * fs lst) := default (mk_users, mk_state) (run_all mk_users mk_state ex_calls).

Lemma ex_state_some : run_all mk_users mk_state ex_calls = Some ex_state.
Proof.
  unfold ex_state. assert (bool_decide (is_Some (run_all mk_users mk_state ex_calls)) = true) as [s ->]%bool_decide_eq_true by (vm_compute; reflexivity). done.
Qed.

Lemma fs_consistent_witness :
  consistent 1 toy_sb ex_state.1 ex_state.2 /\ exists W, disk (lbio (fblk ex_state.2.2)) = apply_writes W mk_disk /\
    forall ws, ws `prefix_of` W -> fs_ok toy_sb (recovered 2 (apply_writes ws mk_disk)).
Proof.
  apply (fs_consistent 1 toy_sb no_devs (replicate 14 0) (replicate 16 0) (fun _ _ _ => mret (-1)) mk_users mk_state ex_calls ex_state.1 ex_state.2 mk_sizes
    eq_refl mk_consistent).
  apply run_all_runs; [|apply ex_state_some]. intros u' t' p cl Hin H A k HR _. unfold ex_calls in Hin.
  pose proof (fun x => root_starts u' H A k t' p x HR) as Hs.
  repeat (apply elem_of_cons in Hin as [[= -> ->]|Hin]; [exact I || apply Hs || (split; apply Hs)|]). by apply elem_of_nil in Hin.
Defined.

Lemma calls_return_witness :
  match ex_run mk_users 0 (CMkdir (path "/a")) mk_state with
  | Ok u' t' => consistent 1 toy_sb u' t'
  | Panic msg => room (FPanic msg)
  | Blocked => self_link 1 toy_sb (replicate 14 0) mk_users mk_state 0 (CMkdir (path "/a"))
  end.
Proof.
  apply (calls_return 1 toy_sb no_devs (replicate 14 0) (replicate 16 0) (fun _ _ _ => mret (-1)) mk_users mk_state 0 (CMkdir (path "/a")) mk_sizes eq_refl mk_consistent).
  intros H A k HR _. exact (root_starts _ _ _ _ _ _ _ HR).
Defined.

Lemma link_correct_witness :
  outcome 1 toy_sb mk_ns mk_k (sys_link 1 toy_sb no_devs (replicate 14 0) (replicate 16 0) 0 (Some (path "f")) (Some (path "g")) mk_state)
    (link_self (replicate 14 0) mk_ns 1 (path "f") (path "g"))
    (fun r H' A' => H' = mk_refs /\ linked (replicate 14 0) mk_ns 1 (path "f") (path "g") r A').
Proof.
  exact (link_correct 1 toy_sb no_devs (replicate 14 0) (replicate 16 0) mk_sizes eq_refl mk_refs mk_ns mk_k mk_state mk_rest 0 1 1 eq_refl eq_refl (path "f") (path "g") eq_refl eq_refl).
Defined.

Lemma unlink_correct_witness :
  outcome 1 toy_sb mk_ns mk_k (sys_unlink 1 toy_sb no_devs (replicate 14 0) 0 (Some (path "/f")) mk_state) False
    (fun r H' A' => H' = mk_refs /\ unlinked (replicate 14 0) mk_refs mk_ns 1 (path "/f") r A').
Proof.
  exact (unlink_correct 1 toy_sb no_devs (replicate 14 0) (replicate 16 0) mk_sizes eq_refl mk_refs mk_ns mk_k mk_state mk_rest 0 1 1 eq_refl eq_refl (path "/f") eq_refl).
Defined.

Lemma open_correct_witness :
  outcome 1 toy_sb mk_ns mk_k (sys_open 1 toy_sb no_devs (replicate 14 0) (replicate 16 0) 0 (Some (path "new")) (Some O_CREATE) true mk_state) False
    (fun r H' A' => exists v, opened (replicate 14 0) mk_ns 1 (path "new") O_CREATE v A' /\ open_result mk_refs true v r H').
Proof.
  exact (open_correct 1 toy_sb no_devs (replicate 14 0) (replicate 16 0) mk_sizes eq_refl mk_refs mk_ns mk_k mk_state mk_rest 0 1 1 eq_refl eq_refl (path "new") O_CREATE true eq_refl).
Defined.

Lemma mkdir_correct_witness :
  outcome 1 toy_sb mk_ns mk_k (sys_mkdir 1 toy_sb no_devs (replicate 14 0) (replicate 16 0) 0 (Some (path "/a")) mk_state) False
    (fun r H' A' => H' = mk_refs /\ exists v, created (replicate 14 0) mk_ns 1 (path "/a") T_DIR v A' /\ r = (if v then 0 else -1)).
Proof.
  exact (mkdir_correct 1 toy_sb no_devs (replicate 14 0) (replicate 16 0) mk_sizes eq_refl mk_refs mk_ns mk_k mk_state mk_rest 0 1 1 eq_refl eq_refl (path "/a") eq_refl).
Defined.

(** ** exec *)

From S2P Require Import ProcState Kalloc Vm VmTable VmUser VmSpace VmThms Exec ExecSpec ExecThms PartExamples.
Import Kalloc Vm.

(** A program: one segment of 8 bytes at address 0, which takes 5000 bytes of memory. *)
Definition tiny_elf : list Z :=
  [127; 69; 76; 70] ++ replicate 20 0 ++ [4; 0; 0; 0] ++ [52; 0; 0; 0] ++ replicate 12 0 ++ [1; 0] ++ replicate 6 0 ++
  [1; 0; 0; 0] ++ [84; 0; 0; 0] ++ replicate 8 0 ++ [8; 0; 0; 0] ++ [136; 19; 0; 0] ++ replicate 8 0 ++
  [10; 20; 30; 40; 50; 60; 70; 80].

(** Its memory: the bytes of the file, then zeros up to the end of the second page; and
    where the arguments [a] and [bc] go. *)
Example tiny_image :
  (fun '(entry, sz, g) => (entry, sz, g <$> [0; 7; 8; 5000; 8191; 8192])) <$> elf_image tiny_elf =
    Some (4, 5000, [Some 10; Some 80; Some 0; Some 0; Some 0; None]) /\
  stack_of (4096 * (pages 5000 + 1)) [path "a"; path "bc"] = Some 16352.
Proof. split; vm_compute; reflexivity. Qed.


(** ** mkfs and the boot *)

From S2P Require Import Mkfs MkfsSpec MkfsThms Boot.
Import Mkfs.

(** Two files, one of them read in two pieces. *)
Definition ex_host : host :=
  mkHost (fun _ => true) (fun name => if decide (name = path "_hi") then Some [path "hello "; path "world"] else Some []).

Definition ex_files : list (list Z) := [path "README"; path "_hi"].

Lemma ex_fits : Forall (file_fits ex_host) ex_files.
Proof. repeat constructor; try (apply (bool_decide_unpack _); vm_compute; exact I); vm_compute; discriminate. Defined.

Lemma mkfs_correct_witness : exists s, main ex_host (path "fs.img" :: ex_files) start = Ok tt s /\ holds_files ex_host (img s) ex_files.
Proof. apply mkfs_correct; [reflexivity|exact ex_fits|vm_compute; discriminate..]. Defined.

Lemma boot_consistent_witness : exists s ip t, main ex_host (path "fs.img" :: ex_files) start = Ok tt s /\
  boot 1 no_devs (replicate 14 0) (toy_mach, fs0 (img s)) = Ok (sb, Some ip) t /\
  consistent 1 sb (mkUsers [ip] []) t /\ disk (lbio (fblk t.2)) = img s /\ sizes_ok sb.
Proof. apply boot_consistent; [reflexivity|exact ex_fits|vm_compute; discriminate..|exact toy_mach_sec]. Defined.

(** With 30 files the root directory fills its block, and mkfs gives it a second one
    that has no address: after the boot, a read of the directory allocates it outside of
    a transaction, and the kernel panics. *)
Definition hole_files : list (list Z) := (fun i => [97 + i]) <$> seqZ 0 30.

Lemma hole_fits : Forall (file_fits ex_host) hole_files.
Proof. repeat constructor; try (apply (bool_decide_unpack _); vm_compute; exact I); vm_compute; discriminate. Defined.

Definition image_of (r : res mkst unit) : list (list Z) := match r with Ok _ s => img s | _ => [] end.

Definition hole_disk : list (list Z) := image_of (main ex_host (path "fs.img" :: hole_files) start).

Lemma mkfs_hole_witness : exists s, main ex_host (path "fs.img" :: hole_files) start = Ok tt s /\
  isz sb (img s) ROOTINO = 1024 /\ nth_addr (img s) (iad sb (img s) ROOTINO) 1 = 0 /\ forall A, ~ disk_ok sb (img s) A.
Proof. apply (mkfs_hole ex_host (path "fs.img") hole_files); [reflexivity|exact hole_fits|vm_compute; discriminate..|reflexivity]. Defined.

Example hole_example : let d := dinode_of sb hole_disk ROOTINO in (d_size d, take 2 (d_addrs d)) = (1024, [59; 0]).
Proof. vm_compute. reflexivity. Qed.

(** A read of the second block of that directory panics. *)
Example hole_panics : (t ← boot 1 no_devs (replicate 14 0);
  fileread 1 sb no_devs (fun _ _ => mret (-1, [])) (File.mkFile File.FD_INODE 1 true false 0 (default 0%nat t.2) 512) 16) (toy_mach, fs0 hole_disk) =
  Panic "log_write outside of trans".
Proof. vm_compute. reflexivity. Qed.
